(* ===== verification/_CoqProject ===== *)
-Q . S2P
Prelude.v
Lz4.v
Capability.v
Seccomp.v
SeccompChain.v
AvmLapic.v
AvmVm.v
AvmIoapic.v
AvmIrq.v
AvmRoute.v
AvmEventfd.v
AvmMmio.v
VmaTree.v
Vma.v
VmaOps.v
VmaSpace.v
Pmm.v
PmmLists.v
PmmBuddy.v
PmmApi.v
PmmSafe.v
PmmBoot.v
PmmBootSafe.v
PmmCalls.v
PmmClaims.v
PmmPcpRace.v
ZramStore.v
ZramArena.v
ZramSafe.v
ZramClaims.v
RbTree.v
RbRep.v
RbInsert.v
RbErase.v
RbWalk.v
RbClaims.v
Eevfd.v
EevfdSafe.v
EevfdMachine.v
EevfdClaims.v
RadixTree.v
RadixSafe.v
RadixInsert.v
RadixDelete.v
RadixWalk.v
RadixReader.v
RadixClaims.v
Heap.v
HeapSafe.v
HeapSlab.v
HeapMag.v
HeapCalls.v
HeapApi.v
HeapSpec.v
HeapRun.v
HeapPmm.v
HeapClaims.v
Sem.v
SemClaims.v
DirIndex.v
DirSafe.v
DirOps.v
DirClaims.v
