(* ===== verification/Prelude.v ===== *)
(** AvoryOS kernel: a verification library for the core logic of the kernel under
    [src/kernel/src], as a shallow embedding with machine-checked properties.

    * How C is modelled

    A C function is a Rocq function of the same name that takes the state it works
    on and returns the new state. Integers are [Z], and every operation that can
    wrap around is written with [u8] ... [u64], [s32], [s64]. A C computation has
    the type [outcome]: [Ret] is a normal return, [Err] an early return with the
    error value of the source, [Fault] undefined behaviour (an index out of an
    array, a null, freed or foreign pointer), [OutOfFuel] a loop the model cut off.
    A theorem that a function returns therefore shows that it is memory safe and
    that its loops end. A loop is a [Fixpoint] on fuel; its caller passes a bound
    that is part of the definition (the number of pages, orders, nodes, bytes or
    instructions that are left, plus one), and the theorems show that the bound is
    never reached. A section of code under a lock is one step; where the order of
    steps of several threads matters, the steps are separate functions and the
    theorems are about all their interleavings ([SeccompChain], [AvmRoute],
    [AvmEventfd], [PmmPcpRace], [ZramStore], [RadixReader], [Sem],
    [DirIndex]).

    * The parts and their files

    - [Lz4]: the compressor of zram ([mm/zram/lz4.c]). Buffers are lists of bytes.
    - [ZramStore]: the store of compressed pages ([mm/zram/store.c]), each call cut
      where it releases its lock; [ZramArena] has the invariant of its pools of
      objects, [ZramSafe] that of the slots and of all processors in the store, and
      [ZramClaims] the properties.
    - [Capability]: [sched/capability.c] with the callers in [sys_process.c],
      [sys_process_exec.c] and [user_namespace.c] that change credentials.
    - [Seccomp], [SeccompChain]: [sched/seccomp.c]; the verifier and interpreter of
      filters, and the shared, reference counted chains of filters with their
      installation, inheritance and the decision on a system call.
    - [AvmLapic], [AvmVm], [AvmIoapic], [AvmIrq], [AvmRoute], [AvmEventfd],
      [AvmMmio]: the devices of the virtual machine monitor ([avm/]): local APIC,
      the machine as a record, I/O APIC, PIC and PIT, inter-processor interrupts and
      interrupt routing, eventfds with irqfds and ioeventfds, and the emulation of
      instructions that access devices.
    - [VmaTree], [Vma], [VmaOps], [VmaSpace]: the virtual memory areas of a process
      ([mm/vma.c]); the AVL tree with its augmentation, the operations over it with
      the lookup cache, their lemmas, and their properties.
    - [Pmm]: the buddy allocator ([mm/pmm_buddy.c]) on a memory of block headers
      with the links of [lib/list.h], and the bitmaps of [pmm.c]; [PmmLists] and
      [PmmBuddy] have its invariant and lemmas.
    - [PmmApi]: page allocation ([mm/pmm.c]), NUMA nodes ([mm/numa.c]), per-CPU
      caches and zeroed pages ([mm/pmm_pcp.c]) over these zones; [PmmSafe] has the
      invariant of the whole.
    - [PmmBoot]: [mm/pmm_init.c] and [mm/pmm_reclaim.c]; [PmmBootSafe] shows that
      they establish and keep the invariant.
    - [PmmCalls]: sequences of allocator calls and the abstract allocator that they
      implement; [PmmClaims]: the properties of physical memory, and a machine of
      twenty pages on which they are run.
    - [PmmPcpRace]: the lock-free path of a per-CPU cache against a remote drain, one
      memory access at a time, with and without store buffers.

    - [RbTree]: red-black trees with augmentation ([lib/rbtree.c], [lib/rbtree.h]) on a
      heap of nodes with parent pointers; [RbRep] relates heaps to trees and contexts,
      [RbInsert], [RbErase] and [RbWalk] treat insertion, removal and the walks, and
      [RbClaims] has the properties.
    - [Eevfd]: the EEVFD scheduling class ([sched/eevfd.c], [eevfd.h], [eevfd_math.h])
      over these trees; [EevfdSafe] has the invariant of one run queue, [EevfdMachine]
      the queues of all CPUs and the steps they implement, [EevfdClaims] the
      properties.
    - [RadixTree]: the radix tree of the page cache ([lib/radix_tree.c]); [RadixSafe] has
      its canonical form, [RadixInsert], [RadixDelete] and [RadixWalk] treat the
      operations and the traversals, [RadixReader] the lookups without the lock, one load
      at a time between the steps of mutations, and [RadixClaims] has the properties.
    - [Heap]: the kernel heap ([mm/heap.c], [heap_slab.c], [heap_big.c], [heap_trace.c]):
      slabs with their lists and bitmaps, per-CPU caches, big allocations and the log of
      frees. [HeapSafe] has the lists, the invariant of a slab and the class [PageSource] of
      page allocators, [HeapSlab] and [HeapMag] the slabs and per-CPU caches, [HeapCalls]
      and [HeapApi] the calls, [HeapSpec] and [HeapRun] the map of objects that programs of
      calls refine, [HeapPmm] the instance of the class for the allocator of [PmmApi], and
      [HeapClaims] the properties.
    - [Sem]: System V semaphores ([syscalls/sys_sem.c]), with a blocked [semop] cut where it
      releases the lock; [SemClaims] has the invariant and the properties.
    - [DirIndex]: the hashed directory index ([fs/dirindex.c]) and the directory operations
      of ramfs ([fs/ramfs.c]) over it; [DirSafe] relates the memory of an index to the list
      of its entries, [DirOps] treats the operations, and [DirClaims] has the list
      operations they refine, streams over a changing directory, and the properties.

    * What the theorems show

    - Codec: decompression inverts compression, and neither leaves its buffers on any
      input.
    - zram store: in every interleaving it is a map from slots to pages with reference
      counts; stored pages read back; its memory, pages and slots are counted exactly.
    - Capabilities and seccomp: the invariants of the credential sets hold after any
      operation; [no_new_privs], bounding sets and locks confine all later states;
      an accepted filter cannot misbehave; reference counts are exact in every
      interleaving; installation is all or nothing.
    - Virtual machines: delivery of interrupts by priority without loss, routing and
      inter-processor interrupts with exactly the addressed targets, references of
      eventfds, and decoding inside the fetched bytes.
    - Memory areas: the operations refine maps from addresses to mappings; searches
      agree with their specification by all regions; cloning and adding report
      errors without effect; the invariant holds after any sequence of operations.
    - Physical memory: the buddy operations do exactly what they promise to pages,
      headers and counts; from boot on, every call of the allocator refines an
      allocator of reference counts, returns, and reports no corruption; a
      referenced page is never handed out again.
    - Red-black trees: insertion and removal return, keep balance, order and summaries
      for any augmentation that does not depend on the shape of the tree, and touch
      nothing else; walks and validation are exact; paths are short.
    - EEVFD: the run queues refine one ordered list per CPU; the next entity is the one
      a scan of the list would choose; placement, charging and preemption keep their
      documented bounds.
    - Radix trees: the operations refine a map, report errors without effect, and keep
      the least height and no empty node; iteration is in order; destruction frees
      everything once; a stable lookup without the lock is right in every interleaving.
    - Kernel heap: over any page source, and so over the modelled page allocator, programs
      of calls refine a map from objects to bytes; objects are apart and aligned; failures
      change nothing, nor do bad pointers outside pages with a stale tag; all pages go back
      when all objects do.
    - Semaphores: every interleaving is safe, namespaces are apart, and [semop] is all or
      nothing when no semaphore is named twice and no value overflows; named twice, or with
      an array that changes during the call, it is not.
    - Directories: the index refines a list of entries in every interleaving; lookups by
      hash and by scan agree; a stream reads every entry that stays exactly once; creation
      is all or nothing unless the payload of a file cannot be allocated; a rename to the
      same name is not.

    * What is not modelled

    The text of log messages and statistics that nothing reads; hardware accesses,
    page tables and context switches; waiting (halts, sleeps, wake-ups), of which
    only the state changes are modelled; C code outside these files, which is an
    argument of the definitions that use it ([kmalloc], user memory, the host
    clock, the time stamp counter), with what is assumed of it in a type class or a
    hypothesis. Store buffers are modelled only in [PmmPcpRace]; elsewhere memory is
    sequentially consistent. In [PmmCalls] owners of pages do not write the tag of a
    zone into their page: the allocator trusts the headers it finds in free pages.
    In [EevfdMachine] the scheduler calls the operations as [sched.c] does: it changes
    the parameters of an entity off the queues, queues no entity that runs, and
    dequeues from the CPU that holds the entity. In [HeapRun] programs write only to their
    own objects, free only what they hold, and ask for fewer than 2^64 - 4159 bytes; the
    diagnostic counters of the heap are left out. The reclaim hooks of [heap_oom_reclaim]
    act on the page allocator only, although those of the buffer cache, the terminals and
    the page cache also free heap objects. A page that goes back to the page allocator is
    no longer memory of the heap: what [kfree] reads in such a page, a former slab header
    included, is the argument [foreign_word]. In [Sem] user memory does not change while a
    call lasts, except in [semop_double_fetch]. In [DirIndex] the reference counts of
    nodes are left out, the number of entries of a child directory is an argument of
    [ramfs_rmdir], and the comparison with list operations takes addresses of new entries
    that are not in use. A creation in ramfs is two steps, the test and the insertion;
    [ramfs_create] runs them one after the other, [dirindex_refines] in any interleaving.
    Next in the plan: the named object caches ([mm/slab_cache.c]), ACPI tables of
    [numa_init], the rest of the scheduler. *)

From stdpp Require Export base list gmap numbers.
From Stdlib Require Export ZArith Lia.

Declare Scope c_scope.
Delimit Scope c_scope with C.
#[global] Open Scope Z_scope.

(** ** Machine integers

    A w-bit C integer is a [Z]; the wrap-around of an operation is written out
    with the functions below. *)

Definition u8 (z : Z) : Z := z mod 2 ^ 8.
Definition u16 (z : Z) : Z := z mod 2 ^ 16.
Definition u32 (z : Z) : Z := z mod 2 ^ 32.
Definition u64 (z : Z) : Z := z mod 2 ^ 64.
Definition s32 (z : Z) : Z := (z + 2 ^ 31) mod 2 ^ 32 - 2 ^ 31.
Definition s64 (z : Z) : Z := (z + 2 ^ 63) mod 2 ^ 64 - 2 ^ 63.

Definition UINT16_MAX : Z := 2 ^ 16 - 1.
Definition UINT32_MAX : Z := 2 ^ 32 - 1.
Definition UINT64_MAX : Z := 2 ^ 64 - 1.

(** C truth values: [if (x & m)] and [1 << b]. *)
Definition nz (x : Z) : bool := negb (x =? 0).
Definition bit (b : Z) : Z := Z.shiftl 1 b.

Notation "x &: y" := (Z.land x y) (at level 33, left associativity) : c_scope.
Notation "x |: y" := (Z.lor x y) (at level 34, left associativity) : c_scope.
Notation "x >>: n" := (Z.shiftr x n) (at level 32, left associativity) : c_scope.
Notation "x <<: n" := (Z.shiftl x n) (at level 32, left associativity) : c_scope.

(** ** Outcomes of a C computation

    [Ret] is the normal return, [Err e] an early return with the error value
    [e] of the source. [Fault] stands for undefined behaviour of the source (an
    access out of bounds, a null or dangling dereference) and [OutOfFuel] for a
    loop that the model cut off: the theorems show that neither happens. *)

Inductive outcome (A : Type) : Type :=
| Ret (a : A)
| Err (e : Z)
| Fault
| OutOfFuel.
Arguments Ret {A} a.
Arguments Err {A} e.
Arguments Fault {A}.
Arguments OutOfFuel {A}.

#[global] Instance outcome_ret : MRet outcome := @Ret.
#[global] Instance outcome_bind : MBind outcome := fun A B f m =>
  match m with Ret a => f a | Err e => Err e | Fault => Fault | OutOfFuel => OutOfFuel end.
#[global] Instance outcome_fmap : FMap outcome := fun A B f m =>
  match m with Ret a => Ret (f a) | Err e => Err e | Fault => Fault | OutOfFuel => OutOfFuel end.

(** [if (call(...)) return e;]: the callee's error becomes [e]. *)
Definition or_return {A} (e : Z) (m : outcome A) : outcome A :=
  match m with Err _ => Err e | _ => m end.

(** A guard with an early return. *)
Definition guard_ret (b : bool) (e : Z) : outcome unit :=
  if b then Err e else Ret tt.

(** Defined behaviour: neither undefined nor cut off. *)
Definition defined {A} (m : outcome A) : Prop :=
  match m with Ret _ | Err _ => True | Fault | OutOfFuel => False end.

(** An access that is undefined behaviour when it misses. *)
Definition deref {A} (o : option A) : outcome A :=
  match o with Some a => Ret a | None => Fault end.

(** C array read and write at a [Z] index. *)
Definition arr_get {A} (l : list A) (i : Z) : outcome A :=
  if i <? 0 then Fault else deref (l !! Z.to_nat i).
Definition arr_set {A} (l : list A) (i : Z) (a : A) : outcome (list A) :=
  if (0 <=? i) && (i <? Z.of_nat (length l)) then Ret (<[Z.to_nat i := a]> l)
  else Fault.

(** Little-endian encoding: the [n] low bytes of [z], and the [n]-byte value at
    offset [off] of a buffer (bytes outside it read as 0). *)
Definition le_bytes (n : nat) (z : Z) : list Z :=
  map (fun i => u8 (Z.shiftr z (8 * Z.of_nat i))) (seq 0 n).
Definition le_at (bs : list Z) (off : Z) (n : nat) : Z :=
  foldr (fun b acc => b + 256 * acc) 0 (map (fun i => nth (Z.to_nat off + i) bs 0) (seq 0 n)).

(** Reading user memory: the requested number of bytes, or a fault. *)
Class UserMemory (copy_from_user : Z -> Z -> option (list Z)) : Prop :=
  user_bytes : forall a n bs, copy_from_user a n = Some bs ->
    Z.of_nat (length bs) = n /\ Forall (fun b => 0 <= b < 256) bs.

(** ** Tactics *)

(** Turns boolean comparisons in hypotheses and goal into propositions. *)
Ltac reify_bools :=
  repeat match goal with
  | H : (_ =? _) = true |- _ => apply Z.eqb_eq in H
  | H : (_ =? _) = false |- _ => apply Z.eqb_neq in H
  | H : (_ <? _) = true |- _ => apply Z.ltb_lt in H
  | H : (_ <? _) = false |- _ => apply Z.ltb_ge in H
  | H : (_ <=? _) = true |- _ => apply Z.leb_le in H
  | H : (_ <=? _) = false |- _ => apply Z.leb_gt in H
  | H : (_ >? _) = true |- _ => rewrite Z.gtb_ltb in H
  | H : (_ >? _) = false |- _ => rewrite Z.gtb_ltb in H
  | H : (_ >=? _) = true |- _ => rewrite Z.geb_leb in H
  | H : (_ >=? _) = false |- _ => rewrite Z.geb_leb in H
  | H : negb _ = true |- _ => apply negb_true_iff in H
  | H : negb _ = false |- _ => apply negb_false_iff in H
  | H : (_ && _)%bool = true |- _ => apply andb_true_iff in H; destruct H
  | H : (_ || _)%bool = false |- _ => apply orb_false_iff in H; destruct H
  end.

(** Case analysis on the first [if] or [match] of the goal, booleans reified. *)
Ltac c_case :=
  match goal with
  | |- context [if ?b then _ else _] => destruct b eqn:?
  | |- context [match ?x with _ => _ end] => destruct x eqn:?
  end; reify_bools; simplify_eq/=.

(** The same on a hypothesis. *)
Ltac c_case_in H :=
  match type of H with
  | context [if ?b then _ else _] => destruct b eqn:?
  | context [match ?x with _ => _ end] => destruct x eqn:?
  end; reify_bools; simplify_eq/=.

(** ** Lemmas on machine integers *)

Create HintDb words.
Create Rewrite HintDb words.

Lemma u8_range z : 0 <= u8 z < 2 ^ 8.
Proof. unfold u8. apply Z.mod_pos_bound. lia. Qed.
Lemma u16_range z : 0 <= u16 z < 2 ^ 16.
Proof. unfold u16. apply Z.mod_pos_bound. lia. Qed.
Lemma u32_range z : 0 <= u32 z < 2 ^ 32.
Proof. unfold u32. apply Z.mod_pos_bound. lia. Qed.
Lemma u64_range z : 0 <= u64 z < 2 ^ 64.
Proof. unfold u64. apply Z.mod_pos_bound. lia. Qed.
Lemma u8_id z : 0 <= z < 2 ^ 8 -> u8 z = z.
Proof. apply Z.mod_small. Qed.
Lemma u16_id z : 0 <= z < 2 ^ 16 -> u16 z = z.
Proof. apply Z.mod_small. Qed.
Lemma u32_id z : 0 <= z < 2 ^ 32 -> u32 z = z.
Proof. apply Z.mod_small. Qed.
Lemma u64_id z : 0 <= z < 2 ^ 64 -> u64 z = z.
Proof. apply Z.mod_small. Qed.
Lemma u64_sum x y : u64 (u64 x + y) = u64 (x + y).
Proof. unfold u64. by rewrite Z.add_mod_idemp_l. Qed.
Lemma u32_sum x y : u32 (u32 x + y) = u32 (x + y).
Proof. unfold u32. by rewrite Z.add_mod_idemp_l. Qed.
Lemma u64_diff x y : u64 (u64 x - y) = u64 (x - y).
Proof. unfold u64. by rewrite Zminus_mod_idemp_l. Qed.
Lemma u32_diff x y : u32 (u32 x - y) = u32 (x - y).
Proof. unfold u32. by rewrite Zminus_mod_idemp_l. Qed.
Lemma s32_id z : - 2 ^ 31 <= z < 2 ^ 31 -> s32 z = z.
Proof. intros H. unfold s32. rewrite Z.mod_small; lia. Qed.
Lemma s64_id z : - 2 ^ 63 <= z < 2 ^ 63 -> s64 z = z.
Proof. intros H. unfold s64. rewrite Z.mod_small; lia. Qed.

#[export] Hint Resolve u8_range u16_range u32_range u64_range : words.
#[export] Hint Rewrite u8_id u16_id u32_id u64_id s32_id s64_id using lia : words.

Lemma le_at_range bs off n : Forall (fun b => 0 <= b < 256) bs -> 0 <= le_at bs off n < 256 ^ Z.of_nat n.
Proof.
  intros Hb. unfold le_at. generalize 0%nat as k. induction n as [|n IH]; intros k; [simpl; lia|].
  cbn [seq map foldr]. specialize (IH (S k)).
  assert (0 <= nth (Z.to_nat off + k) bs 0 < 256).
  { destruct (nth_in_or_default (Z.to_nat off + k) bs 0) as [Hin| ->]; [|lia].
    rewrite Stdlib.Lists.List.Forall_forall in Hb. by apply Hb. }
  rewrite Nat2Z.inj_succ, Z.pow_succ_r by lia. lia.
Qed.

(** ** Safety judgement on outcomes

    [sat m P]: the computation [m] is defined, and if it returns normally its
    value satisfies [P] (an early error return is allowed). *)

Definition sat {A} (m : outcome A) (P : A -> Prop) : Prop :=
  match m with Ret a => P a | Err _ => True | Fault | OutOfFuel => False end.

Lemma sat_defined {A} (m : outcome A) (P : A -> Prop) : sat m P -> defined m.
Proof. by destruct m. Qed.

Lemma sat_ret {A} (m : outcome A) (P : A -> Prop) a : sat m P -> m = Ret a -> P a.
Proof. by intros Hs ->. Qed.

Lemma sat_mono {A} (m : outcome A) (P Q : A -> Prop) :
  sat m P -> (forall a, P a -> Q a) -> sat m Q.
Proof. destruct m; simpl; auto. Qed.

Lemma sat_bind {A B} (m : outcome A) (f : A -> outcome B) (P : A -> Prop) (Q : B -> Prop) :
  sat m P -> (forall a, P a -> sat (f a) Q) -> sat (m ≫= f) Q.
Proof. destruct m; simpl; auto. Qed.

Lemma sat_guard b e (Q : unit -> Prop) : (b = false -> Q tt) -> sat (guard_ret b e) Q.
Proof. destruct b; simpl; auto. Qed.

Lemma sat_or_return {A} e (m : outcome A) P : sat m P -> sat (or_return e m) P.
Proof. by destruct m. Qed.

Lemma sat_arr_get {A} (l : list A) i (P : A -> Prop) :
  0 <= i < Z.of_nat (length l) -> (forall a, l !! Z.to_nat i = Some a -> P a) ->
  sat (arr_get l i) P.
Proof.
  intros Hi HP. unfold arr_get. destruct (i <? 0) eqn:?; reify_bools; [lia|].
  destruct (lookup_lt_is_Some_2 l (Z.to_nat i)) as [a Ha]; [lia|].
  rewrite Ha. simpl. auto.
Qed.

Lemma arr_get_Some {A} (l : list A) i a :
  arr_get l i = Ret a <-> 0 <= i /\ l !! Z.to_nat i = Some a.
Proof.
  unfold arr_get. destruct (i <? 0) eqn:?; reify_bools; [split; [done|lia]|].
  destruct (l !! Z.to_nat i); simpl; split; intros; destruct_and?; simplify_eq; auto.
Qed.

Lemma arr_set_Ret {A} (l : list A) i a :
  0 <= i < Z.of_nat (length l) -> arr_set l i a = Ret (<[Z.to_nat i := a]> l).
Proof.
  intros Hi. unfold arr_set.
  destruct (0 <=? i) eqn:?, (i <? Z.of_nat (length l)) eqn:?; reify_bools; done || lia.
Qed.

Lemma bind_Ret {A B} (m : outcome A) (f : A -> outcome B) b :
  m ≫= f = Ret b <-> exists a, m = Ret a /\ f a = Ret b.
Proof. destruct m; simpl; naive_solver. Qed.

Lemma deref_bind_Ret {A B} (o : option A) (f : A -> outcome B) b :
  deref o ≫= f = Ret b -> exists a, o = Some a /\ f a = Ret b.
Proof. destruct o; simpl; naive_solver. Qed.

Lemma ret_bind {A B} (a : A) (f : A -> outcome B) : Ret a ≫= f = f a.
Proof. done. Qed.

Lemma guard_ret_false {B} b e (f : unit -> outcome B) :
  b = false -> guard_ret b e ≫= f = f tt.
Proof. by intros ->. Qed.

(** ** Counting *)

Fixpoint countb {A} (f : A -> bool) (l : list A) : Z :=
  match l with [] => 0 | x :: l => Z.b2z (f x) + countb f l end.

Lemma count_nonneg {A} (f : A -> bool) l : 0 <= countb f l.
Proof. induction l as [|x l IH]; simpl; [lia|]. destruct (f x); simpl; lia. Qed.

Lemma count_insert {A} (f : A -> bool) l i x y : l !! i = Some y ->
  countb f (<[i := x]> l) = countb f l - Z.b2z (f y) + Z.b2z (f x).
Proof.
  revert i. induction l as [|z l IH]; intros [|i] Hl; simplify_eq/=; [lia|]. rewrite (IH i Hl). lia.
Qed.

Lemma count_pos {A} (f : A -> bool) l i x : l !! i = Some x -> f x = true -> 1 <= countb f l.
Proof.
  revert i. induction l as [|z l IH]; intros [|i] Hl Hx; simplify_eq/=.
  - rewrite Hx. pose proof (count_nonneg f l). simpl. lia.
  - specialize (IH i Hl Hx). destruct (f z); simpl; lia.
Qed.

Lemma count_none {A} (f : A -> bool) l : (forall x, x ∈ l -> f x = false) -> countb f l = 0.
Proof.
  induction l as [|z l IH]; intros H; simpl; [done|]. rewrite H, IH; [done| |left].
  intros x Hx. apply H. by right.
Qed.
Lemma countb_app {A} (f : A -> bool) l1 l2 : countb f (l1 ++ l2) = countb f l1 + countb f l2.
Proof. induction l1 as [|x l1 IH]; simpl; lia. Qed.

(** ** Bit fields *)

(** A low field and a high field do not overlap: [a | b << k] is a sum. *)
Lemma lor_shiftl_add a b k : 0 <= k -> 0 <= a < 2 ^ k -> Z.lor a (Z.shiftl b k) = a + b * 2 ^ k.
Proof.
  intros Hk Ha. rewrite <- Z.shiftl_mul_pow2 by lia.
  rewrite <- Z.lxor_lor, <- Z.add_nocarry_lxor; try done.
  all: apply Z.bits_inj'; intros n Hn; rewrite Z.land_spec, Z.bits_0.
  all: destruct (decide (n < k)).
  all: try (rewrite Z.shiftl_spec_low by lia; apply andb_false_r).
  all: rewrite <- (Z.mod_small a (2 ^ k)) by lia.
  all: by rewrite Z.mod_pow2_bits_high by lia.
Qed.

Lemma land_ones_small a k : 0 <= k -> Z.land a (2 ^ k - 1) = a mod 2 ^ k.
Proof. intros. rewrite <- Z.land_ones by lia. f_equal. rewrite Z.ones_equiv. lia. Qed.

(** [~x] in [k] bits. *)
Lemma complement_spec k x n : 0 <= k -> 0 <= x < 2 ^ k -> 0 <= n < k ->
  Z.testbit (2 ^ k - 1 - x) n = negb (Z.testbit x n).
Proof.
  intros Hk Hx Hn. replace (2 ^ k - 1) with (Z.ones k) by (rewrite Z.ones_equiv; lia).
  rewrite Z.sub_nocarry_ldiff.
  - rewrite Z.ldiff_spec, Z.ones_spec_low by lia. done.
  - apply Z.bits_inj'. intros m Hm. rewrite Z.ldiff_spec, Z.bits_0. destruct (decide (m < k)).
    + rewrite Z.ones_spec_low by lia. apply andb_false_r.
    + rewrite <- (Z.mod_small x (2 ^ k)) by lia. by rewrite Z.mod_pow2_bits_high by lia.
Qed.

Lemma land_below a m k : 0 <= k -> 0 <= m < 2 ^ k -> 0 <= Z.land a m < 2 ^ k.
Proof.
  intros Hk Hm. assert (H0 : 0 <= Z.land a m) by (apply Z.land_nonneg; lia). split; [done|].
  destruct (decide (Z.land a m = 0)) as [->|]; [lia|]. apply Z.log2_lt_pow2; [lia|].
  destruct (decide (Z.log2 (Z.land a m) < k)) as [|Hge]; [done|].
  assert (Hb := Z.bit_log2 (Z.land a m) ltac:(lia)). rewrite Z.land_spec, andb_true_iff in Hb.
  pose proof (Z.mod_pow2_bits_high m k (Z.log2 (Z.land a m)) ltac:(lia)) as Hm'.
  rewrite Z.mod_small in Hm' by lia. destruct Hb. congruence.
Qed.

Lemma lor_below a b k : 0 <= k -> 0 <= a < 2 ^ k -> 0 <= b < 2 ^ k -> 0 <= Z.lor a b < 2 ^ k.
Proof.
  intros Hk Ha Hb. assert (H0 : 0 <= Z.lor a b) by (apply Z.lor_nonneg; lia). split; [done|].
  destruct (decide (Z.lor a b = 0)) as [->|]; [lia|]. apply Z.log2_lt_pow2; [lia|].
  destruct (decide (Z.log2 (Z.lor a b) < k)) as [|Hge]; [done|].
  assert (Hbit := Z.bit_log2 (Z.lor a b) ltac:(lia)). rewrite Z.lor_spec in Hbit.
  pose proof (Z.mod_pow2_bits_high a k (Z.log2 (Z.lor a b)) ltac:(lia)) as Ha'.
  pose proof (Z.mod_pow2_bits_high b k (Z.log2 (Z.lor a b)) ltac:(lia)) as Hb'.
  rewrite Z.mod_small in Ha', Hb' by lia. rewrite Ha', Hb' in Hbit. done.
Qed.

Lemma bit_below b k : 0 <= b < k -> 0 <= 2 ^ b < 2 ^ k.
Proof. intros. split; [apply Z.pow_nonneg; lia|apply Z.pow_lt_mono_r; lia]. Qed.

(** ** Bit masks as sets *)

Definition mask_sub (a b : Z) : Prop :=
  forall n, 0 <= n -> Z.testbit a n = true -> Z.testbit b n = true.

#[global] Instance mask_sub_refl : Reflexive mask_sub.
Proof. intros a n Hn. auto. Qed.
#[global] Instance mask_sub_trans : Transitive mask_sub.
Proof. intros a b c Hab Hbc n Hn Ha. auto. Qed.
#[global] Instance mask_sub_lor_proper : Proper (mask_sub ==> mask_sub ==> mask_sub) Z.lor.
Proof.
  intros a a' Ha b b' Hb n Hn. rewrite !Z.lor_spec, !orb_true_iff. intros [?|?]; eauto.
Qed.
#[global] Instance mask_sub_land_proper : Proper (mask_sub ==> mask_sub ==> mask_sub) Z.land.
Proof.
  intros a a' Ha b b' Hb n Hn. rewrite !Z.land_spec, !andb_true_iff. intros [? ?]; eauto.
Qed.

Lemma mask_sub_0 b : mask_sub 0 b.
Proof. intros n _. by rewrite Z.bits_0. Qed.
Lemma mask_sub_land_l a b : mask_sub (Z.land a b) a.
Proof. intros n _. rewrite Z.land_spec, andb_true_iff. tauto. Qed.
Lemma mask_sub_land_r a b : mask_sub (Z.land a b) b.
Proof. intros n _. rewrite Z.land_spec, andb_true_iff. tauto. Qed.
Lemma mask_sub_land_glb a b c : mask_sub a b -> mask_sub a c -> mask_sub a (Z.land b c).
Proof. intros Hb Hc n Hn Ha. rewrite Z.land_spec, andb_true_iff. auto. Qed.
Lemma mask_sub_lor_lub a b c : mask_sub a c -> mask_sub b c -> mask_sub (Z.lor a b) c.
Proof. intros Ha Hb n Hn. rewrite Z.lor_spec, orb_true_iff. intros [?|?]; auto. Qed.
Lemma mask_sub_lor_l a b : mask_sub a (Z.lor a b).
Proof. intros n _ Ha. by rewrite Z.lor_spec, Ha. Qed.
Lemma mask_sub_lor_r a b : mask_sub b (Z.lor a b).
Proof. intros n _ Hb. by rewrite Z.lor_spec, Hb, orb_true_r. Qed.

(** [if (a & ~b) return]: when the test fails, [a] is a subset of [b]. *)
Lemma mask_sub_iff a b : nz (Z.land a (Z.lnot b)) = false <-> mask_sub a b.
Proof.
  unfold nz. rewrite negb_false_iff, Z.eqb_eq. split.
  - intros Hz n Hn Ha. assert (Hb := f_equal (fun z => Z.testbit z n) Hz). simpl in Hb.
    rewrite Z.bits_0, Z.land_spec, Ha, Z.lnot_spec in Hb by done. simpl in Hb.
    by apply negb_false_iff.
  - intros Hs. apply Z.bits_inj'. intros n Hn. rewrite Z.land_spec, Z.lnot_spec, Z.bits_0 by done.
    destruct (Z.testbit a n) eqn:Ha; [|done]. by rewrite (Hs n Hn Ha).
Qed.

(** [if (a & (1 << b))] *)
Lemma nz_bit a b : 0 <= b -> nz (Z.land a (bit b)) = Z.testbit a b.
Proof.
  intros Hb. unfold nz, bit. destruct (Z.testbit a b) eqn:Ht.
  - apply negb_true_iff, Z.eqb_neq. intros Hz.
    assert (Hc := f_equal (fun z => Z.testbit z b) Hz). simpl in Hc.
    rewrite Z.bits_0, Z.land_spec, Ht, Z.shiftl_spec, Z.sub_diag in Hc by lia. done.
  - apply negb_false_iff, Z.eqb_eq, Z.bits_inj'. intros n Hn.
    rewrite Z.land_spec, Z.bits_0, Z.shiftl_spec by lia.
    destruct (decide (n = b)) as [->|]; [by rewrite Ht|].
    destruct (decide (n < b)); [rewrite (Z.testbit_neg_r 1) by lia; apply andb_false_r|].
    rewrite (Z.bits_above_log2 1); [apply andb_false_r|lia|simpl; lia].
Qed.

Lemma testbit_bit b n : 0 <= n -> Z.testbit (bit b) n = bool_decide (n = b).
Proof.
  intros Hn. unfold bit. rewrite Z.shiftl_spec by lia. case_bool_decide as E.
  - subst. by rewrite Z.sub_diag.
  - destruct (decide (n < b)); [by rewrite Z.testbit_neg_r by lia|].
    apply Z.bits_above_log2; simpl; lia.
Qed.

Lemma mask_sub_bit a b : 0 <= b -> Z.testbit a b = true -> mask_sub (bit b) a.
Proof.
  intros Hb Ha n Hn. rewrite testbit_bit by done. rewrite bool_decide_eq_true. by intros ->.
Qed.

Create HintDb masks.
#[export] Hint Resolve mask_sub_0 mask_sub_land_l mask_sub_land_r mask_sub_land_glb
  mask_sub_lor_lub mask_sub_lor_l mask_sub_lor_r mask_sub_bit : masks.
#[export] Hint Extern 1 (mask_sub ?a ?a) => reflexivity : masks.

(** Subset goals between masks built from [lor], [land] and [0], from subset
    hypotheses: bit by bit. *)
Ltac mask_solve :=
  let n := fresh "n" in let Hn := fresh "Hn" in
  intros n Hn;
  repeat match goal with H : mask_sub _ _ |- _ => specialize (H n Hn) end;
  rewrite ?Z.lor_spec, ?Z.land_spec, ?Z.bits_0, ?orb_true_iff, ?andb_true_iff in *;
  intuition (auto; congruence).
#[export] Hint Extern 5 (mask_sub _ _) => (solve [mask_solve]) : masks.

(** ** Doubly linked lists *)

(** From [p], over [l], to [e]. *)
Fixpoint dseg (lk : Z -> option (Z * Z)) (p : Z) (l : list Z) (e : Z) : Prop :=
  match l with [] => True | a :: l => lk a = Some (hd e l, p) /\ dseg lk a l e end.
Lemma hd_app (l1 l2 : list Z) e : hd e (l1 ++ l2) = hd (hd e l2) l1.
Proof. by destruct l1. Qed.
Lemma dseg_app lk l1 : forall p l2 e, dseg lk p (l1 ++ l2) e <-> dseg lk p l1 (hd e l2) /\ dseg lk (List.last l1 p) l2 e.
Proof.
  induction l1 as [|a l1 IH]; intros p l2 e; cbn [app dseg]; [cbn; tauto|]. rewrite IH, hd_app. replace (List.last (a :: l1) p) with (List.last l1 a) by (clear; revert a p; induction l1 as [|b l1 IH']; intros a p; [done|]; cbn in *; by rewrite <- (IH' b a), <- (IH' b p)). tauto.
Qed.
Lemma dseg_ext lk lk' l : forall p e, (forall a, a ∈ l -> lk' a = lk a) -> dseg lk p l e -> dseg lk' p l e.
Proof. induction l as [|a l IH]; intros p e H; cbn [dseg]; [done|]. intros [E D]. split; [rewrite H by left; done|]. apply IH; [|done]. intros b Hb. apply H. by right. Qed.
(** The end of a list moves. *)
Lemma dseg_end lk lk' l0 b p e e' : b ∉ l0 -> (forall a, a ∈ l0 -> lk' a = lk a) -> (forall n q, lk b = Some (n, q) -> lk' b = Some (e', q)) -> dseg lk p (l0 ++ [b]) e -> dseg lk' p (l0 ++ [b]) e'.
Proof. intros Hb H1 H2. rewrite !dseg_app. cbn [dseg hd]. intros (D & E & _). split; [by apply (dseg_ext lk)|]. split; [by apply (H2 e)|done]. Qed.
Lemma dseg_start lk lk' c l p p' e : c ∉ l -> (forall a, a ∈ l -> lk' a = lk a) -> (forall n q, lk c = Some (n, q) -> lk' c = Some (n, p')) -> dseg lk p (c :: l) e -> dseg lk' p' (c :: l) e.
Proof. intros Hc H1 H2. cbn [dseg]. intros [E D]. split; [by apply (H2 _ p)|]. by apply (dseg_ext lk). Qed.

(** A list of distinct keys is no longer than the map. *)
Lemma keys_length {A} (m : gmap Z A) l : NoDup l -> (forall a, a ∈ l -> is_Some (m !! a)) -> (length l <= size m)%nat.
Proof.
  intros Hn H. rewrite <- size_dom. rewrite <- (size_list_to_set (C := gset Z) l Hn). apply subseteq_size. intros a Ha%elem_of_list_to_set. apply elem_of_dom. by apply H.
Qed.
