(* ===== verification/Lz4.v ===== *)
(** The LZ4 block codec of the zram store
    ([kernel/src/mm/zram/lz4.c]).

    The output buffer is the list of the bytes written so far, so the write
    position [at] is its length. Every read of the input, every store and every
    memcpy is checked against the buffer it touches: a miss is [Fault]. *)

From S2P Require Import Prelude.

Module Lz4.

Definition len (l : list Z) : Z := Z.of_nat (length l).

(** [p[0] | p[1] << 8 | p[2] << 16 | p[3] << 24] *)
Definition word (inp : list Z) (p : Z) : outcome Z :=
  b0 ← arr_get inp p; b1 ← arr_get inp (p + 1);
  b2 ← arr_get inp (p + 2); b3 ← arr_get inp (p + 3);
  Ret (Z.lor (Z.lor (Z.lor b0 (Z.shiftl b1 8)) (Z.shiftl b2 16)) (Z.shiftl b3 24)).

(** [out[at++] = b] in a buffer of [cap] bytes. *)
Definition store (cap : Z) (out : list Z) (b : Z) : outcome (list Z) :=
  if len out <? cap then Ret (out ++ [b]) else Fault.

(** [memcpy(out + at, inp + from, n)] *)
Definition memcpy (cap : Z) (out inp : list Z) (from n : Z) : outcome (list Z) :=
  if (0 <=? from) && (0 <=? n) && (from + n <=? len inp) && (len out + n <=? cap)
  then Ret (out ++ take (Z.to_nat n) (drop (Z.to_nat from) inp))
  else Fault.

Fixpoint extension_loop (fuel : nat) (cap : Z) (out : list Z) (n : Z) : outcome (list Z) :=
  match fuel with
  | O => OutOfFuel
  | S fuel =>
    if 255 <=? n then
      _ ← guard_ret (cap <=? len out) (-1);
      out ← store cap out 255;
      extension_loop fuel cap out (n - 255)
    else
      _ ← guard_ret (cap <=? len out) (-1);
      store cap out (u8 n)
  end.
Definition extension (cap : Z) (out : list Z) (n : Z) : outcome (list Z) :=
  extension_loop (S (Z.to_nat n)) cap out n.

(** [while (pos + match < n - 5 && in[ref + match] == in[pos + match]) match++] *)
Fixpoint match_loop (fuel : nat) (inp : list Z) (n ref pos m : Z) : outcome Z :=
  match fuel with
  | O => OutOfFuel
  | S fuel =>
    if pos + m <? u64 (n - 5) then
      a ← arr_get inp (ref + m); b ← arr_get inp (pos + m);
      if a =? b then match_loop fuel inp n ref pos (m + 1) else Ret m
    else Ret m
  end.

(** One sequence of the block: token, literals, distance, match length. Every
    [return 0] of the C function is [Err 0]. *)
Definition emit_literals (cap : Z) (inp out : list Z) (anchor literal token : Z) : outcome (list Z) :=
  _ ← guard_ret (cap <=? len out) 0;
  out ← store cap out token;
  out ← (if 15 <=? literal then or_return 0 (extension cap out (literal - 15)) else Ret out);
  _ ← guard_ret (u64 (cap - len out) <? literal) 0;
  memcpy cap out inp anchor literal.

Definition emit_match (cap : Z) (out : list Z) (distance extra : Z) : outcome (list Z) :=
  _ ← guard_ret (u64 (cap - len out) <? 2) 0;
  out ← store cap out (u8 distance);
  out ← store cap out (u8 (Z.shiftr distance 8));
  if 15 <=? extra then or_return 0 (extension cap out (extra - 15)) else Ret out.

Definition token_of (literal extra : Z) : Z :=
  Z.lor (u8 (Z.shiftl (if literal <? 15 then literal else 15) 4))
        (u8 (if extra <? 15 then extra else 15)).

Record state := mk_state { table : list Z; pos : Z; anchor : Z; out : list Z }.

(** The body of [while (pos + 12 <= n)]. *)
Definition compress_step (cap : Z) (inp : list Z) (n : Z) (s : state) : outcome state :=
  w ← word inp (pos s);
  let h := Z.shiftr (u32 (w * 2654435761)) 23 in
  old ← arr_get (table s) h;
  table' ← arr_set (table s) h (u16 (pos s + 1));
  let ref := if nz old then old - 1 else pos s in
  skip ← (if negb (nz old) || (pos s <=? ref) then Ret true
          else wr ← word inp ref; wp ← word inp (pos s); Ret (negb (wr =? wp)));
  if skip : bool then Ret (mk_state table' (pos s + 1) (anchor s) (out s))
  else
    m ← match_loop (S (Z.to_nat n)) inp n ref (pos s) 4;
    let literal := pos s - anchor s in
    let extra := m - 4 in
    o ← emit_literals cap inp (out s) (anchor s) literal (token_of literal extra);
    o ← emit_match cap o (pos s - ref) extra;
    Ret (mk_state table' (pos s + m) (pos s + m) o).

Fixpoint compress_loop (fuel : nat) (cap : Z) (inp : list Z) (n : Z) (s : state) : outcome state :=
  match fuel with
  | O => OutOfFuel
  | S fuel =>
    if pos s + 12 <=? n then
      s ← compress_step cap inp n s; compress_loop fuel cap inp n s
    else Ret s
  end.

(** [zram_lz4_compress]: [Ret out] is the return value [length out] with the
    bytes written, [Err 0] the return value 0. *)
Definition zram_lz4_compress (inp : list Z) (cap : Z) : outcome (list Z) :=
  let n := len inp in
  _ ← guard_ret ((n =? 0) || (65535 <? n)) 0;
  s ← compress_loop (S (length inp)) cap inp n (mk_state (replicate 512 0) 0 0 []);
  let literal := n - anchor s in
  emit_literals cap inp (out s) (anchor s) literal
    (u8 (Z.shiftl (if literal <? 15 then literal else 15) 4)).

(** [length]: the extension bytes of a length field; returns the new read
    position and value. *)
Fixpoint length_loop (fuel : nat) (inp : list Z) (n at_ value : Z) : outcome (Z * Z) :=
  match fuel with
  | O => OutOfFuel
  | S fuel =>
    _ ← guard_ret (n <=? at_) (-1);
    b ← arr_get inp at_;
    _ ← guard_ret (UINT64_MAX - b <? value) (-1);
    if b =? 255 then length_loop fuel inp n (at_ + 1) (value + b)
    else Ret (at_ + 1, value + b)
  end.
Definition length_ext (inp : list Z) (n at_ value : Z) : outcome (Z * Z) :=
  length_loop (S (length inp)) inp n at_ value.

(** [for (i < match) out[done + i] = out[done + i - distance]] *)
Fixpoint copy_match (m : nat) (cap : Z) (out : list Z) (distance : Z) : outcome (list Z) :=
  match m with
  | O => Ret out
  | S m =>
    b ← arr_get out (len out - distance);
    out ← store cap out b;
    copy_match m cap out distance
  end.

(** The body of [while (at < n)]; [inr out] is [return 0] of the C function
    with the destination filled, [inl] the next position. *)
Definition decompress_step (inp : list Z) (expected at_ : Z) (out : list Z)
    : outcome (Z * list Z + list Z) :=
  let n := len inp in
  token ← arr_get inp at_;
  let at_ := at_ + 1 in
  let literal := Z.shiftr token 4 in
  '(at_, literal) ← (if literal =? 15 then or_return (-1) (length_ext inp n at_ literal)
                     else Ret (at_, literal));
  _ ← guard_ret ((u64 (n - at_) <? literal) || (u64 (expected - len out) <? literal)) (-1);
  out ← memcpy expected out inp at_ literal;
  let at_ := at_ + literal in
  if at_ =? n then (if len out =? expected then Ret (inr out) else Err (-1))
  else
    _ ← guard_ret (u64 (n - at_) <? 2) (-1);
    lo ← arr_get inp at_; hi ← arr_get inp (at_ + 1);
    let distance := Z.lor lo (Z.shiftl hi 8) in
    let at_ := at_ + 2 in
    _ ← guard_ret ((distance =? 0) || (len out <? distance)) (-1);
    let m := Z.land token 15 + 4 in
    '(at_, m) ← (if Z.land token 15 =? 15 then or_return (-1) (length_ext inp n at_ m)
                 else Ret (at_, m));
    _ ← guard_ret (u64 (expected - len out) <? m) (-1);
    out ← copy_match (Z.to_nat m) expected out distance;
    Ret (inl (at_, out)).

Fixpoint decompress_loop (fuel : nat) (inp : list Z) (expected at_ : Z) (out : list Z)
    : outcome (list Z) :=
  match fuel with
  | O => OutOfFuel
  | S fuel =>
    if at_ <? len inp then
      r ← decompress_step inp expected at_ out;
      match r with
      | inl (at_, out) => decompress_loop fuel inp expected at_ out
      | inr out => Ret out
      end
    else Err (-1)
  end.

(** [zram_lz4_decompress]: [Ret out] is the return value 0 with the [expected]
    bytes of the destination, [Err (-1)] the return value -1. *)
Definition zram_lz4_decompress (inp : list Z) (expected : Z) : outcome (list Z) :=
  _ ← guard_ret (len inp =? 0) (-1);
  decompress_loop (S (length inp)) inp expected 0 [].

(** ** Arithmetic of the encoding *)

Definition bytes (l : list Z) : Prop := Forall (fun b => 0 <= b < 256) l.

Lemma bytes_lookup l i b : bytes l -> l !! i = Some b -> 0 <= b < 256.
Proof. intros Hl. apply (Forall_lookup_1 _ _ _ _ Hl). Qed.

Lemma word_sum b0 b1 b2 b3 :
  0 <= b0 < 256 -> 0 <= b1 < 256 -> 0 <= b2 < 256 -> 0 <= b3 < 256 ->
  Z.lor (Z.lor (Z.lor b0 (Z.shiftl b1 8)) (Z.shiftl b2 16)) (Z.shiftl b3 24) =
  b0 + b1 * 2 ^ 8 + b2 * 2 ^ 16 + b3 * 2 ^ 24.
Proof.
  intros. rewrite (lor_shiftl_add b0 b1 8) by lia.
  rewrite (lor_shiftl_add (b0 + b1 * 2 ^ 8) b2 16) by lia.
  rewrite lor_shiftl_add by lia. lia.
Qed.

Lemma token_fields a b :
  0 <= a < 16 -> 0 <= b < 16 ->
  Z.shiftr (Z.lor (u8 (Z.shiftl a 4)) (u8 b)) 4 = a /\
  Z.land (Z.lor (u8 (Z.shiftl a 4)) (u8 b)) 15 = b.
Proof.
  intros Ha Hb. rewrite (u8_id b) by lia. rewrite u8_id by (rewrite Z.shiftl_mul_pow2; lia).
  rewrite Z.lor_comm, (lor_shiftl_add b a 4) by lia.
  rewrite Z.shiftr_div_pow2 by lia. change 15 with (2 ^ 4 - 1). rewrite land_ones_small by lia.
  rewrite Z.div_add, Z.div_small, Z.mod_add, Z.mod_small by lia. lia.
Qed.

Lemma distance_fields d :
  0 <= d < 65536 -> Z.lor (u8 d) (Z.shiftl (u8 (Z.shiftr d 8)) 8) = d.
Proof.
  intros Hd. pose proof (u8_range d). rewrite lor_shiftl_add by lia.
  rewrite Z.shiftr_div_pow2 by lia. rewrite (u8_id (d / 2 ^ 8)).
  - unfold u8. pose proof (Z.div_mod d (2 ^ 8)). lia.
  - split; [apply Z.div_pos; lia|]. apply Z.div_lt_upper_bound; lia.
Qed.

Lemma len_app a b : len (a ++ b) = len a + len b.
Proof. unfold len. rewrite length_app. lia. Qed.
Lemma len_cons x a : len (x :: a) = 1 + len a.
Proof. unfold len. simpl. lia. Qed.
Lemma len_nonneg a : 0 <= len a.
Proof. unfold len. lia. Qed.
Lemma len_take l k : 0 <= k <= len l -> len (take (Z.to_nat k) l) = k.
Proof. unfold len. intros. rewrite length_take. lia. Qed.

Lemma word_inj inp p q :
  bytes inp -> 0 <= p -> 0 <= q -> p + 4 <= len inp -> q + 4 <= len inp ->
  word inp p = word inp q ->
  forall i, (i < 4)%nat -> inp !! (Z.to_nat p + i)%nat = inp !! (Z.to_nat q + i)%nat.
Proof.
  unfold len. intros Hb Hp Hq Hpn Hqn Hw.
  assert (Hget : forall r k, 0 <= r -> 0 <= k < 4 -> r + 4 <= Z.of_nat (length inp) ->
    exists b, arr_get inp (r + k) = Ret b /\ inp !! (Z.to_nat r + Z.to_nat k)%nat = Some b
              /\ 0 <= b < 256).
  { intros r k Hr Hk Hrn. destruct (lookup_lt_is_Some_2 inp (Z.to_nat (r + k))) as [b Hb']; [lia|].
    exists b. split; [by apply arr_get_Some; split; [lia|]|]. split; [|eauto using bytes_lookup].
    by rewrite <- Z2Nat.inj_add by lia. }
  unfold word in Hw.
  destruct (Hget p 0) as (p0 & Ep0 & Lp0 & ?), (Hget p 1) as (p1 & Ep1 & Lp1 & ?),
    (Hget p 2) as (p2 & Ep2 & Lp2 & ?), (Hget p 3) as (p3 & Ep3 & Lp3 & ?); try lia.
  destruct (Hget q 0) as (q0 & Eq0 & Lq0 & ?), (Hget q 1) as (q1 & Eq1 & Lq1 & ?),
    (Hget q 2) as (q2 & Eq2 & Lq2 & ?), (Hget q 3) as (q3 & Eq3 & Lq3 & ?); try lia.
  rewrite Z.add_0_r in Ep0, Eq0.
  rewrite Ep0, Ep1, Ep2, Ep3, Eq0, Eq1, Eq2, Eq3 in Hw. simpl in Hw.
  rewrite !word_sum in Hw by lia. injection Hw as Hw.
  assert (p0 = q0 /\ p1 = q1 /\ p2 = q2 /\ p3 = q3) as (-> & -> & -> & ->) by lia.
  change (Z.to_nat 0) with 0%nat in *. change (Z.to_nat 1) with 1%nat in *.
  change (Z.to_nat 2) with 2%nat in *. change (Z.to_nat 3) with 3%nat in *.
  intros [|[|[|[|i]]]] Hi; [| | | |lia]; congruence.
Qed.

(** ** The extension bytes of a length field *)

Definition ext_bytes (n : Z) : list Z := replicate (Z.to_nat (n / 255)) 255 ++ [n mod 255].

Lemma ext_bytes_step n : 255 <= n -> ext_bytes n = 255 :: ext_bytes (n - 255).
Proof.
  intros Hn. unfold ext_bytes. replace n with ((n - 255) + 1 * 255) at 1 2 by lia.
  rewrite Z.div_add, Z.mod_add by lia.
  assert (0 <= (n - 255) / 255) by (apply Z.div_pos; lia).
  by replace (Z.to_nat ((n - 255) / 255 + 1)) with (S (Z.to_nat ((n - 255) / 255))) by lia.
Qed.

Lemma ext_bytes_last n : 0 <= n < 255 -> ext_bytes n = [n].
Proof. intros. unfold ext_bytes. by rewrite Z.div_small, Z.mod_small. Qed.

Lemma extension_loop_sat fuel cap o n :
  0 <= n -> (Z.to_nat n < fuel)%nat -> len o <= cap ->
  sat (extension_loop fuel cap o n) (fun o' => o' = o ++ ext_bytes n /\ len o' <= cap).
Proof.
  revert o n. induction fuel as [|fuel IH]; intros o n Hn Hf Ho; [lia|]. simpl.
  destruct (255 <=? n) eqn:E; reify_bools.
  all: eapply sat_bind; [apply (sat_guard _ _ (fun _ => len o < cap)); intros; reify_bools; lia|].
  all: intros [] Hlt; unfold store.
  all: destruct (len o <? cap) eqn:?; reify_bools; [|lia]; simpl.
  - eapply sat_mono; [apply IH; try lia|].
    + rewrite len_app. unfold len at 2. simpl. lia.
    + intros o' [-> Hc]. split; [|done]. by rewrite (ext_bytes_step n), <- app_assoc by lia.
  - rewrite u8_id, ext_bytes_last by lia. split; [done|]. rewrite len_app. unfold len at 2. simpl. lia.
Qed.

Lemma extension_sat cap o n :
  0 <= n -> len o <= cap ->
  sat (extension cap o n) (fun o' => o' = o ++ ext_bytes n /\ len o' <= cap).
Proof. intros. apply extension_loop_sat; lia. Qed.

(** Reading the extension back. *)
Lemma length_loop_ext fuel pre n sfx v :
  0 <= n -> 0 <= v -> v + n <= UINT64_MAX -> (length (ext_bytes n) <= fuel)%nat ->
  let inp := pre ++ ext_bytes n ++ sfx in
  length_loop fuel inp (len inp) (len pre) v = Ret (len pre + len (ext_bytes n), v + n).
Proof.
  revert pre n v. induction fuel as [|fuel IH]; intros pre n v Hn Hv Hmax Hf inp.
  { unfold ext_bytes in Hf. rewrite length_app in Hf. simpl in Hf. lia. }
  assert (Hb : exists b rest, ext_bytes n = b :: rest /\ 0 <= b <= n /\ b <= 255 /\
    (b = 255 -> 255 <= n /\ rest = ext_bytes (n - 255)) /\ (b <> 255 -> b = n /\ rest = [])).
  { destruct (decide (255 <= n)).
    - exists 255, (ext_bytes (n - 255)). rewrite ext_bytes_step by lia.
      split_and!; try done; try lia.
    - exists n, []. rewrite ext_bytes_last by lia. split_and!; try done; lia. }
  destruct Hb as (b & rest & Eb & Hb1 & Hb2 & H255 & Hlast).
  assert (Hget : arr_get inp (len pre) = Ret b).
  { apply arr_get_Some. split; [apply len_nonneg|]. unfold inp, len.
    rewrite Nat2Z.id, lookup_app_r, Nat.sub_diag by lia. by rewrite Eb. }
  assert (Hlt : len pre < len inp).
  { unfold inp. rewrite !len_app, Eb. unfold len. simpl. lia. }
  simpl. rewrite guard_ret_false by lia. rewrite Hget. simpl.
  rewrite guard_ret_false by lia.
  destruct (b =? 255) eqn:E; reify_bools.
  - destruct (H255 E) as [Hge Hrest]. subst b.
    specialize (IH (pre ++ [255]) (n - 255) (v + 255)).
    rewrite Eb, Hrest in Hf. simpl in Hf.
    replace inp with ((pre ++ [255]) ++ ext_bytes (n - 255) ++ sfx).
    2:{ unfold inp. rewrite Eb, Hrest. by rewrite <- !app_assoc. }
    replace (len pre + 1) with (len (pre ++ [255])) by (rewrite len_app; unfold len; simpl; lia).
    rewrite IH by lia. rewrite Eb, Hrest, len_app. unfold len. simpl. f_equal. f_equal; lia.
  - destruct (Hlast E) as [-> Hrest]. rewrite Eb, Hrest. by unfold len; simpl.
Qed.

Lemma length_ext_read pre n sfx v :
  0 <= n -> 0 <= v -> v + n <= UINT64_MAX ->
  let inp := pre ++ ext_bytes n ++ sfx in
  length_ext inp (len inp) (len pre) v = Ret (len pre + len (ext_bytes n), v + n).
Proof.
  intros. apply length_loop_ext; try lia. subst inp. rewrite !length_app. lia.
Qed.

(** ** Matches *)

Definition same_run (inp : list Z) (ref pos m : Z) : Prop :=
  forall i, (Z.of_nat i < m) -> inp !! (Z.to_nat ref + i)%nat = inp !! (Z.to_nat pos + i)%nat.

Lemma match_loop_sat fuel inp ref pos m :
  let n := len inp in
  0 <= ref < pos -> 4 <= m -> pos + m <= n -> 12 <= n < 2 ^ 64 ->
  same_run inp ref pos m -> n - (pos + m) < Z.of_nat fuel ->
  sat (match_loop fuel inp n ref pos m)
      (fun m' => m <= m' /\ pos + m' <= n /\ same_run inp ref pos m').
Proof.
  intros n Hr Hm Hpm Hn. revert m Hm Hpm.
  induction fuel as [|fuel IH]; intros m Hm Hpm Hrun Hf; [lia|]. simpl.
  rewrite u64_id by lia. destruct (pos + m <? n - 5) eqn:E; reify_bools; [|simpl; auto with lia].
  eapply sat_bind; [apply (sat_arr_get _ _ (fun a => inp !! Z.to_nat (ref + m) = Some a));
    [unfold n, len in *; lia | done]|]. intros a Ha.
  eapply sat_bind; [apply (sat_arr_get _ _ (fun b => inp !! Z.to_nat (pos + m) = Some b));
    [unfold n, len in *; lia | done]|]. intros b Hb.
  destruct (a =? b) eqn:Eab; reify_bools; [|simpl; auto with lia]. subst b.
  eapply sat_mono; [apply IH; try lia|].
  - intros i Hi. destruct (decide (Z.of_nat i < m)); [auto|].
    replace i with (Z.to_nat m) by lia. rewrite <- !Z2Nat.inj_add by lia. congruence.
  - intros m' (? & ? & ?). auto with lia.
Qed.

Lemma copy_match_run k cap inp ref pos m :
  0 <= ref < pos -> pos + m <= len inp -> len inp <= cap -> same_run inp ref pos m ->
  Z.of_nat k <= m ->
  copy_match k cap (take (Z.to_nat (pos + (m - Z.of_nat k))) inp) (pos - ref) =
  Ret (take (Z.to_nat (pos + m)) inp).
Proof.
  intros Hr Hpm Hcap Hrun. induction k as [|k IH]; intros Hk; simpl.
  { by rewrite Z.sub_0_r. }
  set (j := m - Z.of_nat (S k)) in *.
  assert (Hj : 0 <= j < m) by lia.
  assert (Hlen : len (take (Z.to_nat (pos + j)) inp) = pos + j) by (apply len_take; lia).
  destruct (lookup_lt_is_Some_2 inp (Z.to_nat (pos + j))) as [b Hb]; [unfold len in *; lia|].
  assert (Hb' : inp !! Z.to_nat (ref + j) = Some b).
  { specialize (Hrun (Z.to_nat j)). rewrite <- !Z2Nat.inj_add in Hrun by lia.
    rewrite Z2Nat.id in Hrun by lia. rewrite Hrun by lia. done. }
  rewrite Hlen. replace (arr_get _ _) with (Ret b : outcome Z).
  2:{ symmetry. apply arr_get_Some. split; [lia|].
      rewrite lookup_take_lt by lia. by replace (pos + j - (pos - ref)) with (ref + j) by lia. }
  simpl. unfold store. rewrite Hlen. destruct (pos + j <? cap) eqn:?; reify_bools; [|lia]. simpl.
  rewrite <- (take_S_r _ _ _ Hb). rewrite <- IH by lia. f_equal. f_equal. lia.
Qed.

(** ** What the encoder writes *)

Definition len_ext (l : Z) : list Z := if 15 <=? l then ext_bytes (l - 15) else [].

Definition slice (inp : list Z) (from n : Z) : list Z := take (Z.to_nat n) (drop (Z.to_nat from) inp).

Lemma store_sat cap o b : len o < cap -> store cap o b = Ret (o ++ [b]).
Proof. intros. unfold store. by destruct (len o <? cap) eqn:?; reify_bools; [|lia]. Qed.

Lemma memcpy_Ret cap o inp from n :
  0 <= from -> 0 <= n -> from + n <= len inp -> len o + n <= cap ->
  memcpy cap o inp from n = Ret (o ++ slice inp from n).
Proof.
  intros. unfold memcpy. replace (_ && _) with true; [done|]. symmetry.
  rewrite !andb_true_iff, !Z.leb_le. lia.
Qed.

Lemma emit_literals_sat cap inp o anchor literal token :
  0 <= anchor -> 0 <= literal -> anchor + literal <= len inp -> len o <= cap -> cap < 2 ^ 64 ->
  sat (emit_literals cap inp o anchor literal token)
      (fun o' => o' = o ++ token :: len_ext literal ++ slice inp anchor literal /\ len o' <= cap).
Proof.
  intros Ha Hl Hal Ho Hcap. unfold emit_literals.
  eapply sat_bind; [apply (sat_guard _ _ (fun _ => len o < cap)); intros; reify_bools; lia|].
  intros [] Hlt. rewrite store_sat by done. simpl.
  eapply (sat_bind _ _ (fun o' => o' = (o ++ [token]) ++ len_ext literal /\ len o' <= cap)).
  { assert (len (o ++ [token]) <= cap) by (rewrite len_app; unfold len at 2; simpl; lia).
    unfold len_ext. destruct (15 <=? literal) eqn:E; reify_bools.
    - apply sat_or_return, extension_sat; lia.
    - simpl. by rewrite app_nil_r. }
  intros o' [-> Hc]. pose proof (len_nonneg ((o ++ [token]) ++ len_ext literal)).
  rewrite u64_id by lia.
  eapply sat_bind; [apply (sat_guard _ _ (fun _ => literal <= cap - len ((o ++ [token]) ++ len_ext literal)));
    intros; reify_bools; lia|].
  intros [] Hroom. rewrite memcpy_Ret by lia. simpl. rewrite <- !app_assoc. split; [done|].
  rewrite !len_app in *. unfold slice. rewrite len_take; [lia|].
  unfold len in *. rewrite length_drop. lia.
Qed.

Lemma emit_match_sat cap o distance extra :
  0 <= extra -> len o <= cap -> cap < 2 ^ 64 ->
  sat (emit_match cap o distance extra)
      (fun o' => o' = o ++ [u8 distance; u8 (Z.shiftr distance 8)] ++ len_ext extra /\ len o' <= cap).
Proof.
  intros He Ho Hcap. unfold emit_match. pose proof (len_nonneg o). rewrite u64_id by lia.
  eapply sat_bind; [apply (sat_guard _ _ (fun _ => 2 <= cap - len o)); intros; reify_bools; lia|].
  intros [] Hroom. rewrite store_sat by lia. simpl.
  assert (Hl1 : forall b, len (o ++ [b]) = len o + 1) by (intros; rewrite len_app; unfold len; simpl; lia).
  rewrite store_sat by (rewrite Hl1; lia). simpl. rewrite <- app_assoc. simpl.
  assert (len (o ++ [u8 distance; u8 (Z.shiftr distance 8)]) <= cap).
  { rewrite len_app. unfold len at 2. simpl. lia. }
  unfold len_ext. destruct (15 <=? extra) eqn:E; reify_bools.
  - apply sat_or_return. eapply sat_mono; [apply extension_sat; lia|].
    intros o' [-> ?]. split; [|done]. by rewrite <- app_assoc.
  - done.
Qed.

(** ** The decoder reads it back *)

Definition nib (l : Z) : Z := if l <? 15 then l else 15.

Lemma read_len pre sfx l c :
  0 <= l -> 0 <= c -> l + c <= UINT64_MAX ->
  let inp := pre ++ len_ext l ++ sfx in
  (if nib l =? 15 then or_return (-1) (length_ext inp (len inp) (len pre) (nib l + c))
   else Ret (len pre, nib l + c)) = Ret (len pre + len (len_ext l), l + c).
Proof.
  intros Hl Hc Hmax inp. unfold nib, inp, len_ext.
  destruct (15 <=? l) eqn:E; reify_bools.
  - destruct (l <? 15) eqn:?; reify_bools; [lia|]. simpl (15 =? 15). cbn iota.
    rewrite length_ext_read by lia. simpl. f_equal. f_equal. lia.
  - destruct (l <? 15) eqn:?; reify_bools; [|lia].
    destruct (l =? 15) eqn:?; reify_bools; [lia|]. unfold len. simpl. f_equal. f_equal. lia.
Qed.

Definition literal_block (token : Z) (lits : list Z) : list Z :=
  token :: len_ext (len lits) ++ lits.

Definition match_bytes (distance extra : Z) : list Z :=
  [u8 distance; u8 (Z.shiftr distance 8)] ++ len_ext extra.

(** The literal half of one decoder step, on a block at any position. *)
Lemma decompress_step_literals pre token lits sfx expected out :
  let inp := pre ++ literal_block token lits ++ sfx in
  Z.shiftr token 4 = nib (len lits) -> len out + len lits <= expected -> expected < 2 ^ 64 ->
  len inp < 2 ^ 64 ->
  decompress_step inp expected (len pre) out =
  let at_ := len (pre ++ literal_block token lits) in
  let out := out ++ lits in
  if at_ =? len inp then (if len out =? expected then Ret (inr out) else Err (-1))
  else
    _ ← guard_ret (u64 (len inp - at_) <? 2) (-1);
    lo ← arr_get inp at_; hi ← arr_get inp (at_ + 1);
    let distance := Z.lor lo (Z.shiftl hi 8) in
    let at_ := at_ + 2 in
    _ ← guard_ret ((distance =? 0) || (len out <? distance)) (-1);
    let m := Z.land token 15 + 4 in
    '(at_, m) ← (if Z.land token 15 =? 15 then or_return (-1) (length_ext inp (len inp) at_ m)
                 else Ret (at_, m));
    _ ← guard_ret (u64 (expected - len out) <? m) (-1);
    out ← copy_match (Z.to_nat m) expected out distance;
    Ret (inl (at_, out)).
Proof.
  intros inp Htok Hexp He Hinp. unfold decompress_step.
  pose proof (len_nonneg lits). pose proof (len_nonneg out). pose proof (len_nonneg pre).
  pose proof (len_nonneg sfx).
  assert (Hlen : len inp = len pre + 1 + len (len_ext (len lits)) + len lits + len sfx).
  { unfold inp, literal_block. rewrite !len_app, len_cons, len_app. lia. }
  assert (Hget : arr_get inp (len pre) = Ret token).
  { apply arr_get_Some. split; [apply len_nonneg|]. unfold inp, len.
    by rewrite Nat2Z.id, lookup_app_r, Nat.sub_diag by lia. }
  rewrite Hget. simpl (_ ≫= _). rewrite Htok.
  pose proof (read_len (pre ++ [token]) (lits ++ sfx) (len lits) 0) as Hread.
  rewrite !Z.add_0_r in Hread.
  replace ((pre ++ [token]) ++ len_ext (len lits) ++ lits ++ sfx) with inp in Hread
    by (unfold inp, literal_block; by rewrite <- !app_assoc; simpl; rewrite <- !app_assoc).
  replace (len (pre ++ [token])) with (len pre + 1) in Hread by (rewrite len_app; unfold len; simpl; lia).
  unfold UINT64_MAX in Hread. rewrite Hread by (pose proof (len_nonneg (len_ext (len lits))); lia).
  simpl (_ ≫= _). pose proof (len_nonneg (len_ext (len lits))).
  rewrite !(u64_id (len inp - _)) by lia. rewrite !(u64_id (expected - len out)) by lia.
  rewrite guard_ret_false by lia. rewrite memcpy_Ret by lia. simpl (_ ≫= _).
  assert (Hat : len pre + 1 + len (len_ext (len lits)) + len lits = len (pre ++ literal_block token lits)).
  { unfold literal_block. rewrite len_app, len_cons, len_app. lia. }
  rewrite Hat. rewrite (u64_id (len inp - len (pre ++ literal_block token lits))) by lia.
  replace (slice inp _ (len lits)) with lits; [done|].
  unfold slice, inp, literal_block, len.
  rewrite Nat2Z.id. replace (Z.to_nat _) with (length (pre ++ token :: len_ext (Z.of_nat (length lits)))).
  2:{ rewrite length_app. simpl. lia. }
  replace (pre ++ _ ++ sfx) with
    ((pre ++ token :: len_ext (Z.of_nat (length lits))) ++ lits ++ sfx)
    by (by rewrite <- !app_assoc; simpl; rewrite <- !app_assoc).
  by rewrite drop_app_length, take_app_length.
Qed.

Lemma slice_take orig anchor l :
  0 <= anchor -> 0 <= l -> anchor + l <= len orig ->
  take (Z.to_nat anchor) orig ++ slice orig anchor l = take (Z.to_nat (anchor + l)) orig.
Proof.
  intros. unfold slice. rewrite Z2Nat.inj_add by lia. rewrite <- take_take_drop. f_equal.
Qed.

Lemma len_slice orig from l :
  0 <= from -> 0 <= l -> from + l <= len orig -> len (slice orig from l) = l.
Proof. intros. unfold slice. rewrite len_take; [done|]. unfold len in *. rewrite length_drop. lia. Qed.

Lemma token_of_nib l e :
  0 <= l -> 0 <= e -> Z.shiftr (token_of l e) 4 = nib l /\ Z.land (token_of l e) 15 = nib e.
Proof.
  intros. unfold token_of. apply token_fields.
  all: unfold nib; match goal with |- context [?a <? 15] => destruct (a <? 15) eqn:? end; reify_bools; lia.
Qed.

Lemma lookup_after (a b : list Z) i : (a ++ b) !! (length a + i)%nat = b !! i.
Proof. rewrite lookup_app_r by lia. f_equal. lia. Qed.

(** One whole sequence: literals [anchor, pos) and a match of [m] bytes. *)
Lemma decompress_step_seq orig pre sfx anchor pos ref m :
  let lits := slice orig anchor (pos - anchor) in
  let block := literal_block (token_of (pos - anchor) (m - 4)) lits ++ match_bytes (pos - ref) (m - 4) in
  let inp := pre ++ block ++ sfx in
  0 <= anchor <= pos -> 0 <= ref < pos -> 4 <= m -> pos + m <= len orig -> len orig <= 65535 ->
  same_run orig ref pos m -> len inp < 2 ^ 64 ->
  decompress_step inp (len orig) (len pre) (take (Z.to_nat anchor) orig) =
  Ret (inl (len (pre ++ block), take (Z.to_nat (pos + m)) orig)).
Proof.
  intros lits block inp Ha Hr Hm Hpm Horig Hrun Hinp.
  set (token := token_of (pos - anchor) (m - 4)) in *.
  destruct (token_of_nib (pos - anchor) (m - 4)) as [Ht1 Ht2]; [lia..|]. fold token in Ht1, Ht2.
  assert (Hlits : len lits = pos - anchor) by (apply len_slice; lia).
  assert (Hout : len (take (Z.to_nat anchor) orig) = anchor) by (apply len_take; lia).
  replace inp with (pre ++ literal_block token lits ++ (match_bytes (pos - ref) (m - 4) ++ sfx)) in *
    by (unfold inp, block; by rewrite <- !app_assoc).
  rewrite decompress_step_literals; [|congruence|lia|lia|done].
  assert (Happ : take (Z.to_nat anchor) orig ++ lits = take (Z.to_nat pos) orig).
  { unfold lits. rewrite slice_take by lia. f_equal. lia. }
  cbv zeta. rewrite Happ.
  rewrite !(len_take orig pos) by lia.
  set (p2 := pre ++ literal_block token lits) in *.
  replace (pre ++ literal_block token lits ++ _) with (p2 ++ match_bytes (pos - ref) (m - 4) ++ sfx) in *
    by (unfold p2; by rewrite <- !app_assoc).
  set (inp2 := p2 ++ match_bytes (pos - ref) (m - 4) ++ sfx) in *.
  assert (Hlen : len inp2 = len p2 + 2 + len (len_ext (m - 4)) + len sfx).
  { unfold inp2, match_bytes. rewrite !len_app. unfold len at 2. simpl. lia. }
  pose proof (len_nonneg p2). pose proof (len_nonneg sfx). pose proof (len_nonneg (len_ext (m - 4))).
  destruct (len p2 =? len inp2) eqn:?; reify_bools; [lia|].
  rewrite (u64_id (len inp2 - len p2)) by lia. rewrite guard_ret_false by lia.
  assert (Hlo : arr_get inp2 (len p2) = Ret (u8 (pos - ref))).
  { apply arr_get_Some. split; [done|]. unfold inp2, len. rewrite Nat2Z.id.
    rewrite <- (Nat.add_0_r (length p2)), lookup_after. done. }
  assert (Hhi : arr_get inp2 (len p2 + 1) = Ret (u8 (Z.shiftr (pos - ref) 8))).
  { apply arr_get_Some. split; [lia|]. unfold inp2, len.
    replace (Z.to_nat (Z.of_nat (length p2) + 1)) with (length p2 + 1)%nat by lia.
    by rewrite lookup_after. }
  rewrite Hlo, Hhi. simpl (_ ≫= _). rewrite distance_fields by lia.
  rewrite guard_ret_false by lia. rewrite Ht2.
  pose proof (read_len (p2 ++ [u8 (pos - ref); u8 (Z.shiftr (pos - ref) 8)]) sfx (m - 4) 4) as Hread.
  replace (_ ++ len_ext (m - 4) ++ sfx) with inp2 in Hread
    by (unfold inp2, match_bytes; by rewrite <- !app_assoc).
  replace (len (p2 ++ [_; _])) with (len p2 + 2) in Hread by (rewrite len_app; unfold len; simpl; lia).
  unfold UINT64_MAX in Hread. rewrite Hread by lia. clear Hread. simpl (_ ≫= _).
  rewrite (u64_id (len orig - pos)) by lia.
  replace (m - 4 + 4) with m by lia. rewrite guard_ret_false by lia.
  pose proof (copy_match_run (Z.to_nat m) (len orig) orig ref pos m) as Hcopy.
  rewrite Z2Nat.id, Z.sub_diag, Z.add_0_r in Hcopy by lia. rewrite Hcopy by (done || lia).
  simpl. f_equal. f_equal. f_equal. unfold block, match_bytes.
  unfold p2. rewrite !len_app, !len_cons. change (len []) with 0. lia.
Qed.

(** The last block: the remaining literals. *)
Lemma decompress_step_last orig pre anchor :
  let literal := len orig - anchor in
  let token := u8 (Z.shiftl (nib literal) 4) in
  let inp := pre ++ literal_block token (slice orig anchor literal) in
  0 <= anchor <= len orig -> len orig <= 65535 -> len inp < 2 ^ 64 ->
  decompress_step inp (len orig) (len pre) (take (Z.to_nat anchor) orig) = Ret (inr orig).
Proof.
  intros literal token inp Ha Horig Hinp.
  assert (Hlits : len (slice orig anchor literal) = literal) by (apply len_slice; lia).
  replace inp with (pre ++ literal_block token (slice orig anchor literal) ++ []) in *
    by (unfold inp; by rewrite app_nil_r).
  assert (Hn : 0 <= nib literal < 16) by (unfold nib; destruct (literal <? 15) eqn:?; reify_bools; lia).
  rewrite decompress_step_literals; [|..|done]; rewrite ?Hlits, ?len_take; try lia.
  2:{ unfold token. destruct (token_fields (nib literal) 0) as [H _]; [lia..|].
      change (u8 0) with 0 in H. by rewrite Z.lor_0_r in H. }
  assert (Happ : take (Z.to_nat anchor) orig ++ slice orig anchor literal = orig).
  { rewrite slice_take by lia. apply take_ge. unfold literal, len. lia. }
  cbv zeta. rewrite Happ, app_nil_r. by rewrite !Z.eqb_refl.
Qed.

(** ** Main invariant of the encoder *)

(** [decodes expected o d]: a decoder run over [o] followed by anything comes
    to the position after [o] having produced [d]. *)
Definition decodes (expected : Z) (o d : list Z) : Prop :=
  forall sfx, sfx <> [] -> len (o ++ sfx) < 2 ^ 64 ->
  exists k, (k <= length o)%nat /\
  forall fuel, decompress_loop (k + fuel) (o ++ sfx) expected 0 [] =
               decompress_loop fuel (o ++ sfx) expected (len o) d.

Lemma decodes_nil expected : decodes expected [] [].
Proof. intros sfx _ _. exists 0%nat. split; [lia|done]. Qed.

Record inv (orig : list Z) (cap : Z) (s : state) : Prop := {
  inv_table : length (table s) = 512%nat;
  inv_entries : Forall (fun t => 0 <= t) (table s);
  inv_pos : 0 <= anchor s <= pos s /\ pos s <= len orig;
  inv_out : len (out s) <= cap;
  inv_decodes : decodes (len orig) (out s) (take (Z.to_nat (anchor s)) orig) }.

Lemma inv_init orig cap : 0 < len orig -> 0 <= cap -> inv orig cap (mk_state (replicate 512 0) 0 0 []).
Proof.
  intros. constructor; cbn [table pos anchor out].
  - by rewrite length_replicate.
  - apply Forall_replicate. lia.
  - lia.
  - done.
  - apply decodes_nil.
Qed.

Lemma hash_range w : 0 <= Z.shiftr (u32 (w * 2654435761)) 23 < 512.
Proof.
  pose proof (u32_range (w * 2654435761)). rewrite Z.shiftr_div_pow2 by lia. split.
  - apply Z.div_pos; lia.
  - apply Z.div_lt_upper_bound; lia.
Qed.

Lemma word_sat inp p : 0 <= p -> p + 4 <= len inp -> exists w, word inp p = Ret w.
Proof.
  unfold len. intros. unfold word.
  assert (Hget : forall k, 0 <= k < 4 -> exists b, arr_get inp (p + k) = Ret b).
  { intros k Hk. destruct (lookup_lt_is_Some_2 inp (Z.to_nat (p + k))) as [b Hb]; [lia|].
    exists b. apply arr_get_Some. split; [lia|done]. }
  destruct (Hget 0) as [b0 E0], (Hget 1) as [b1 E1], (Hget 2) as [b2 E2], (Hget 3) as [b3 E3]; try lia.
  rewrite Z.add_0_r in E0. rewrite E0, E1, E2, E3. simpl. eauto.
Qed.

Lemma decodes_step orig o anchor pos ref m :
  let block := literal_block (token_of (pos - anchor) (m - 4)) (slice orig anchor (pos - anchor))
               ++ match_bytes (pos - ref) (m - 4) in
  0 <= anchor <= pos -> 0 <= ref < pos -> 4 <= m -> pos + m <= len orig -> len orig <= 65535 ->
  same_run orig ref pos m ->
  decodes (len orig) o (take (Z.to_nat anchor) orig) ->
  decodes (len orig) (o ++ block) (take (Z.to_nat (pos + m)) orig).
Proof.
  intros block Ha Hr Hm Hpm Horig Hrun Hd sfx Hsfx Hlen.
  rewrite <- app_assoc in Hlen |- *.
  destruct (Hd (block ++ sfx)) as (k & Hk & Hrunk); [by destruct block| done |].
  exists (k + 1)%nat. split.
  { rewrite length_app. unfold block, literal_block. simpl. lia. }
  intros fuel. replace (k + 1 + fuel)%nat with (k + S fuel)%nat by lia.
  rewrite Hrunk. cbn [decompress_loop]. pose proof (len_nonneg sfx).
  destruct (len o <? len (o ++ block ++ sfx)) eqn:E; reify_bools.
  2:{ unfold block, literal_block in E. rewrite !len_app, len_cons in E.
      pose proof (len_nonneg (match_bytes (pos - ref) (m - 4))).
      pose proof (len_nonneg (len_ext (len (slice orig anchor (pos - anchor))) ++ slice orig anchor (pos - anchor))).
      lia. }
  pose proof (decompress_step_seq orig o sfx anchor pos ref m) as Hstep. cbv zeta in Hstep.
  fold block in Hstep. by rewrite Hstep by (done || lia).
Qed.

Lemma compress_step_inv orig cap s :
  bytes orig -> 12 <= len orig <= 65535 -> cap < 2 ^ 64 -> pos s + 12 <= len orig ->
  inv orig cap s ->
  sat (compress_step cap orig (len orig) s) (fun s' => inv orig cap s' /\ pos s < pos s').
Proof.
  intros Hb Hn Hcap Hpos [Ht He [Hap Hpn] Ho Hd]. unfold compress_step.
  destruct (word_sat orig (pos s)) as [w Hw]; [lia..|]. rewrite Hw, ret_bind. cbv zeta.
  pose proof (hash_range w) as Hh. set (h := Z.shiftr _ 23) in *. clearbody h.
  eapply sat_bind; [apply (sat_arr_get _ _ (fun old => 0 <= old)); [lia|]|].
  { intros a Ha. apply (Forall_lookup_1 _ _ _ _ He Ha). }
  cbv beta. intros old Hold. rewrite arr_set_Ret, ret_bind by lia.
  set (table' := <[_ := _]> _).
  assert (Ht' : length table' = 512%nat) by (unfold table'; by rewrite length_insert).
  assert (He' : Forall (fun t => 0 <= t) table').
  { unfold table'. apply Forall_insert; [done|]. pose proof (u16_range (pos s + 1)). lia. }
  set (ref := if nz old then old - 1 else pos s).
  eapply (sat_bind _ _ (fun skip => skip = false ->
    0 <= ref < pos s /\ same_run orig ref (pos s) 4)).
  { destruct (negb (nz old) || (pos s <=? ref)) eqn:Es; [done|]. reify_bools.
    assert (Hr : 0 <= ref < pos s).
    { unfold ref, nz in *. destruct (old =? 0) eqn:?; cbn [negb] in *; reify_bools; [done|lia]. }
    destruct (word_sat orig ref) as [wr Hwr]; [lia..|]. rewrite Hwr. simpl.
    intros Heq. reify_bools. subst wr. split; [done|]. intros i Hi.
    apply word_inj; try lia; auto. by rewrite Hwr, Hw. }
  intros skip Hskip. destruct skip.
  { simpl. split; [|lia]. constructor; simpl; auto with lia. }
  destruct (Hskip eq_refl) as [Hr Hrun].
  eapply sat_bind; [apply match_loop_sat; try done; lia|]. intros m (Hm4 & Hpm & Hrun').
  eapply sat_bind; [apply emit_literals_sat; lia|]. intros o [-> Hoc].
  eapply sat_bind; [apply emit_match_sat; lia|]. intros o [-> Hoc'].
  simpl. split; [|lia]. constructor; simpl; auto with lia.
  pose proof (decodes_step orig (out s) (anchor s) (pos s) ref m) as Hst. cbv zeta in Hst.
  unfold literal_block, match_bytes in Hst.
  rewrite len_slice in Hst by lia.
  rewrite <- app_assoc. simpl in Hst |- *. rewrite <- app_assoc in Hst |- *. by apply Hst; [lia..| |].
Qed.

Lemma compress_loop_inv orig cap fuel s :
  bytes orig -> 0 < len orig <= 65535 -> cap < 2 ^ 64 -> inv orig cap s ->
  len orig - pos s < Z.of_nat fuel ->
  sat (compress_loop fuel cap orig (len orig) s) (inv orig cap).
Proof.
  intros Hb Hn Hcap. revert s. induction fuel as [|fuel IH]; intros s Hinv Hf.
  { destruct Hinv as [_ _ [_ ?] _ _]. lia. }
  simpl. destruct (pos s + 12 <=? len orig) eqn:E; reify_bools; [|done].
  destruct (Hinv) as [_ _ [[? ?] ?] _ _].
  eapply sat_bind; [apply compress_step_inv; auto with lia|]. intros s' [Hinv' Hlt].
  apply IH; [done|lia].
Qed.

Lemma zram_lz4_compress_sat orig cap :
  bytes orig -> 0 <= cap < 2 ^ 63 ->
  sat (zram_lz4_compress orig cap)
      (fun o => o <> [] /\ len o <= cap /\ zram_lz4_decompress o (len orig) = Ret orig).
Proof.
  intros Hb Hcap. unfold zram_lz4_compress. cbv zeta.
  eapply sat_bind; [apply (sat_guard _ _ (fun _ => 0 < len orig <= 65535))|].
  { intros Hg. reify_bools. pose proof (len_nonneg orig). lia. }
  intros [] Hn.
  eapply sat_bind; [apply compress_loop_inv; try done; try lia|].
  { apply inv_init; lia. }
  { cbn [pos]. unfold len. lia. }
  intros s [_ _ [Ha Hpn] Ho Hd].
  assert (anchor s <= len orig) by lia.
  eapply sat_mono; [apply emit_literals_sat; lia|]. intros o [Eo Hoc].
  set (literal := len orig - anchor s) in *.
  set (block := literal_block (u8 (Z.shiftl (nib literal) 4)) (slice orig (anchor s) literal)).
  assert (Eo' : o = out s ++ block).
  { rewrite Eo. unfold block, literal_block, nib. by rewrite len_slice by lia. }
  clear Eo. subst o. assert (Hne : block <> []) by done.
  assert (0 < len (out s ++ block)).
  { rewrite len_app. unfold block, literal_block. rewrite len_cons.
    pose proof (len_nonneg (out s)).
    match goal with |- context [1 + len ?l] => pose proof (len_nonneg l) end. lia. }
  split_and!; [by destruct (out s)| done |].
  unfold zram_lz4_decompress. rewrite guard_ret_false by lia.
  destruct (Hd block) as (k & Hk & Hrun); [done|lia|].
  assert (Hlen : (k < length (out s ++ block))%nat).
  { rewrite length_app. unfold block, literal_block. simpl. lia. }
  replace (S (length (out s ++ block))) with (k + S (length (out s ++ block) - k))%nat by lia.
  rewrite Hrun. cbn [decompress_loop].
  destruct (len (out s) <? len (out s ++ block)) eqn:E; reify_bools.
  2:{ unfold len in E. rewrite length_app in E. unfold block, literal_block in E. simpl in E. lia. }
  pose proof (decompress_step_last orig (out s) (anchor s)) as Hlast. cbv zeta in Hlast.
  fold literal block in Hlast. by rewrite Hlast by (done || lia).
Qed.

(** ** The decoder on arbitrary input *)

Lemma length_loop_sat fuel inp at_ value :
  bytes inp -> 0 <= at_ <= len inp -> 0 <= value -> len inp - at_ < Z.of_nat fuel ->
  sat (length_loop fuel inp (len inp) at_ value)
      (fun '(a, v) => at_ < a <= len inp /\ value <= v).
Proof.
  intros Hb. revert at_ value. induction fuel as [|fuel IH]; intros at_ value Ha Hv Hf; [lia|].
  cbn [length_loop].
  eapply sat_bind; [apply (sat_guard _ _ (fun _ => at_ < len inp)); intros; reify_bools; lia|].
  intros [] Hlt.
  eapply sat_bind; [apply (sat_arr_get _ _ (fun b => 0 <= b < 256)); [unfold len in *; lia|]|].
  { intros b Hget. eauto using bytes_lookup. }
  cbv beta. intros b Hbr. eapply sat_bind; [by apply (sat_guard _ _ (fun _ => True))|]. intros [] _.
  destruct (b =? 255).
  - eapply sat_mono; [apply IH; lia|]. cbv beta. intros [a v]. lia.
  - simpl. lia.
Qed.

Lemma copy_match_sat m cap o distance :
  bytes o -> 0 < distance <= len o -> len o + Z.of_nat m <= cap ->
  sat (copy_match m cap o distance) (fun o' => bytes o' /\ len o' = len o + Z.of_nat m).
Proof.
  revert o. induction m as [|m IH]; intros o Hb Hd Hcap; cbn [copy_match].
  { simpl. split; [done|lia]. }
  eapply sat_bind; [apply (sat_arr_get _ _ (fun b => 0 <= b < 256)); [unfold len in *; lia|]|].
  { intros b Hget. eauto using bytes_lookup. }
  cbv beta. intros b Hbr. rewrite store_sat, ret_bind by lia.
  assert (Hl : len (o ++ [b]) = len o + 1) by (rewrite len_app; done).
  eapply sat_mono; [apply IH; try lia|].
  - apply Forall_app. by split; [|apply Forall_singleton].
  - intros o' [? ?]. split; [done|lia].
Qed.

Lemma memcpy_sat cap o inp from n :
  bytes o -> bytes inp -> 0 <= from -> 0 <= n -> from + n <= len inp -> len o + n <= cap ->
  sat (memcpy cap o inp from n) (fun o' => bytes o' /\ len o' = len o + n).
Proof.
  intros Ho Hi Hf Hn Hfn Hcap. rewrite memcpy_Ret by lia. simpl. split.
  - apply Forall_app. split; [done|]. by apply Forall_take, Forall_drop.
  - rewrite len_app, len_slice; lia.
Qed.

Lemma optional_length_sat (b : bool) inp at_ v :
  bytes inp -> 0 <= at_ <= len inp -> 0 <= v ->
  sat (if b then or_return (-1) (length_ext inp (len inp) at_ v) else Ret (at_, v))
      (fun '(a, v') => at_ <= a <= len inp /\ v <= v').
Proof.
  intros. destruct b.
  - apply sat_or_return. eapply sat_mono; [apply length_loop_sat; try done; unfold len; lia|].
    cbv beta. intros [a v']. lia.
  - simpl. lia.
Qed.

Definition step_ok (inp : list Z) (expected at_ : Z) (r : Z * list Z + list Z) : Prop :=
  match r with
  | inl (a, o) => at_ < a <= len inp /\ bytes o /\ len o <= expected
  | inr o => bytes o /\ len o = expected
  end.

Lemma decompress_step_sat inp expected at_ o :
  bytes inp -> bytes o -> 0 <= at_ < len inp -> len inp < 2 ^ 63 ->
  len o <= expected < 2 ^ 64 ->
  sat (decompress_step inp expected at_ o) (step_ok inp expected at_).
Proof.
  intros Hi Ho Ha Hn He. unfold decompress_step. cbv zeta.
  eapply sat_bind; [apply (sat_arr_get _ _ (fun b => 0 <= b < 256)); [unfold len in *; lia|]|].
  { intros b Hget. eauto using bytes_lookup. }
  cbv beta. intros token Htok. pose proof (len_nonneg o).
  assert (0 <= Z.shiftr token 4) by (apply Z.shiftr_nonneg; lia).
  assert (0 <= Z.land token 15) by (apply Z.land_nonneg; lia).
  eapply sat_bind; [apply optional_length_sat; [done|lia|lia]|]. intros [a l] [Ha1 Hl].
  rewrite (u64_id (len inp - a)), (u64_id (expected - len o)) by lia.
  eapply sat_bind; [apply (sat_guard _ _ (fun _ => l <= len inp - a /\ l <= expected - len o));
    intros; reify_bools; lia|]. intros [] [Hl1 Hl2].
  eapply sat_bind; [apply memcpy_sat; try done; lia|]. intros o1 [Ho1 Hlo1].
  destruct (a + l =? len inp) eqn:Eend; reify_bools.
  { destruct (len o1 =? expected) eqn:?; reify_bools; simpl; [by split|done]. }
  rewrite (u64_id (len inp - (a + l))), (u64_id (expected - len o1)) by lia.
  eapply sat_bind; [apply (sat_guard _ _ (fun _ => 2 <= len inp - (a + l))); intros; reify_bools; lia|].
  intros [] Hroom.
  eapply sat_bind; [apply (sat_arr_get _ _ (fun b => 0 <= b < 256)); [unfold len in *; lia|]|].
  { intros b Hget. eauto using bytes_lookup. } cbv beta. intros lo Hlo.
  eapply sat_bind; [apply (sat_arr_get _ _ (fun b => 0 <= b < 256)); [unfold len in *; lia|]|].
  { intros b Hget. eauto using bytes_lookup. } cbv beta. intros hi Hhi.
  eapply sat_bind; [apply (sat_guard _ _ (fun _ => 0 < Z.lor lo (Z.shiftl hi 8) <= len o1))|].
  { intros Hg. reify_bools. rewrite lor_shiftl_add in * by lia. lia. }
  intros [] Hdist.
  eapply sat_bind; [apply optional_length_sat; [done|lia|lia]|]. intros [a2 m] [Ha2 Hm].
  eapply sat_bind; [apply (sat_guard _ _ (fun _ => m <= expected - len o1)); intros; reify_bools; lia|].
  intros [] Hm2.
  eapply sat_bind; [apply copy_match_sat; try done; lia|]. intros o2 [Ho2 Hlo2].
  simpl. split_and!; try done; lia.
Qed.

Lemma decompress_loop_sat fuel inp expected at_ o :
  bytes inp -> bytes o -> 0 <= at_ <= len inp -> len inp < 2 ^ 63 ->
  len o <= expected < 2 ^ 64 -> len inp - at_ < Z.of_nat fuel ->
  sat (decompress_loop fuel inp expected at_ o) (fun o' => bytes o' /\ len o' = expected).
Proof.
  intros Hi. revert at_ o. induction fuel as [|fuel IH]; intros at_ o Ho Ha Hn He Hf; [lia|].
  cbn [decompress_loop]. destruct (at_ <? len inp) eqn:E; reify_bools; [|done].
  eapply sat_bind; [apply decompress_step_sat; try done; lia|].
  intros [[a o1]|o1]; simpl; [|tauto]. intros (Ha1 & Hb1 & Hl1). apply IH; try done; lia.
Qed.

(** ** Properties *)

(** C1: whatever [zram_lz4_compress] returns, [zram_lz4_decompress] turns back
    into the input page, byte for byte. *)
Theorem lz4_roundtrip orig cap o :
  bytes orig -> 0 <= cap < 2 ^ 63 -> zram_lz4_compress orig cap = Ret o ->
  zram_lz4_decompress o (len orig) = Ret orig.
Proof. intros Hb Hc Ho. by apply (sat_ret _ _ _ (zram_lz4_compress_sat orig cap Hb Hc) Ho). Qed.

Definition sample : list Z := concat (replicate 9 [1; 2; 3; 4; 5; 6; 7]) ++ replicate 40 9 ++ [1; 2; 3].

Lemma sample_bytes : bytes sample.
Proof. unfold bytes. apply (bool_decide_unpack _). by vm_compute. Qed.

Lemma lz4_roundtrip_witness :
  exists o, zram_lz4_compress sample 64 = Ret o /\ len o = 22 /\
            zram_lz4_decompress o (len sample) = Ret sample.
Proof.
  eexists. split; [vm_compute; reflexivity|]. split; [reflexivity|].
  apply (lz4_roundtrip sample 64); [exact sample_bytes|lia|vm_compute; reflexivity].
Defined.

(** the compressor never reads past its input or writes past the [cap]
    bytes of its destination, always terminates, and reports at least one and
    at most [cap] bytes. *)
Theorem lz4_compress_safe orig cap :
  bytes orig -> 0 <= cap < 2 ^ 63 ->
  defined (zram_lz4_compress orig cap) /\
  forall o, zram_lz4_compress orig cap = Ret o -> 1 <= len o <= cap.
Proof.
  intros Hb Hc. pose proof (zram_lz4_compress_sat orig cap Hb Hc) as Hs.
  split; [by eapply sat_defined|]. intros o Ho.
  destruct (sat_ret _ _ _ Hs Ho) as (Hne & Hle & _).
  destruct o as [|x o]; [done|]. rewrite len_cons in *. pose proof (len_nonneg o). lia.
Qed.

Lemma lz4_compress_safe_witness :
  bytes sample /\ defined (zram_lz4_compress sample 10).
Proof.
  split; [exact sample_bytes|]. refine (proj1 (lz4_compress_safe sample 10 _ _)); [exact sample_bytes|lia].
Defined.

(** C35: the decompressor is safe on hostile input: for any bytes it terminates
    without an access outside the source or the [expected]-byte destination,
    and succeeds only with the destination completely filled. *)
Theorem lz4_decompress_safe src expected :
  bytes src -> len src < 2 ^ 63 -> 0 <= expected < 2 ^ 64 ->
  defined (zram_lz4_decompress src expected) /\
  forall o, zram_lz4_decompress src expected = Ret o -> len o = expected /\ bytes o.
Proof.
  intros Hb Hn He.
  assert (Hs : sat (zram_lz4_decompress src expected) (fun o => bytes o /\ len o = expected)).
  { unfold zram_lz4_decompress.
    eapply sat_bind; [by apply (sat_guard _ _ (fun _ => True))|]. intros [] _.
    pose proof (len_nonneg src).
    apply decompress_loop_sat; try done; try lia; [by constructor|]. unfold len. lia. }
  split; [by eapply sat_defined|]. intros o Ho. destruct (sat_ret _ _ _ Hs Ho). done.
Qed.

Lemma lz4_decompress_safe_witness :
  bytes [31; 9; 2; 0; 255; 7] /\ defined (zram_lz4_decompress [31; 9; 2; 0; 255; 7] 4096).
Proof.
  assert (Hb : bytes [31; 9; 2; 0; 255; 7]) by (repeat constructor; lia).
  split; [exact Hb|].
  refine (proj1 (lz4_decompress_safe [31; 9; 2; 0; 255; 7] 4096 _ _ _)); [exact Hb|reflexivity|lia].
Defined.

End Lz4.
