(* ===== verification/Capability.v ===== *)
(** Process credentials and capabilities
    ([kernel/src/sched/capability.c], and the system calls of
    [kernel/src/syscalls/sys_process.c] and [sys_process_exec.c] that change
    user ids).

    [cred] holds the fields of [struct thread] these functions use. Pointers to
    user namespaces are compared and never dereferenced here, so a pointer is
    [option Z] with [None] for NULL. A capability set is a 64-bit mask. *)

From S2P Require Import Prelude.

Module Capability.

Definition CAP_SETUID : Z := 7.
Definition CAP_SETPCAP : Z := 8.
Definition CAP_NET_ADMIN : Z := 12.
Definition CAP_SYS_CHROOT : Z := 18.
Definition CAP_SYS_ADMIN : Z := 21.
Definition CAP_LAST_CAP : Z := 40.
Definition CAP_VALID_MASK : Z := bit 41 - 1.

Definition NS_OWN_MNT : nat := 0.
Definition NS_OWN_UTS : nat := 1.
Definition NS_OWN_IPC : nat := 2.
Definition NS_OWN_NET : nat := 3.

Record cred := mk_cred {
  uid : Z; euid : Z; suid : Z;
  no_new_privs : bool;
  caps_initialized : bool;
  cap_effective : Z; cap_permitted : Z; cap_inheritable : Z;
  cap_bounding : Z; cap_ambient : Z;
  securebits : Z;
  user_ns : option Z;
  ns_owner : list (option Z) }.

Definition set_uid (v : _) (t : cred) : cred :=
  mk_cred v (euid t) (suid t) (no_new_privs t) (caps_initialized t) (cap_effective t) (cap_permitted t) (cap_inheritable t) (cap_bounding t) (cap_ambient t) (securebits t) (user_ns t) (ns_owner t).
Definition set_euid (v : _) (t : cred) : cred :=
  mk_cred (uid t) v (suid t) (no_new_privs t) (caps_initialized t) (cap_effective t) (cap_permitted t) (cap_inheritable t) (cap_bounding t) (cap_ambient t) (securebits t) (user_ns t) (ns_owner t).
Definition set_suid (v : _) (t : cred) : cred :=
  mk_cred (uid t) (euid t) v (no_new_privs t) (caps_initialized t) (cap_effective t) (cap_permitted t) (cap_inheritable t) (cap_bounding t) (cap_ambient t) (securebits t) (user_ns t) (ns_owner t).
Definition set_no_new_privs (v : _) (t : cred) : cred :=
  mk_cred (uid t) (euid t) (suid t) v (caps_initialized t) (cap_effective t) (cap_permitted t) (cap_inheritable t) (cap_bounding t) (cap_ambient t) (securebits t) (user_ns t) (ns_owner t).
Definition set_caps_initialized (v : _) (t : cred) : cred :=
  mk_cred (uid t) (euid t) (suid t) (no_new_privs t) v (cap_effective t) (cap_permitted t) (cap_inheritable t) (cap_bounding t) (cap_ambient t) (securebits t) (user_ns t) (ns_owner t).
Definition set_cap_effective (v : _) (t : cred) : cred :=
  mk_cred (uid t) (euid t) (suid t) (no_new_privs t) (caps_initialized t) v (cap_permitted t) (cap_inheritable t) (cap_bounding t) (cap_ambient t) (securebits t) (user_ns t) (ns_owner t).
Definition set_cap_permitted (v : _) (t : cred) : cred :=
  mk_cred (uid t) (euid t) (suid t) (no_new_privs t) (caps_initialized t) (cap_effective t) v (cap_inheritable t) (cap_bounding t) (cap_ambient t) (securebits t) (user_ns t) (ns_owner t).
Definition set_cap_inheritable (v : _) (t : cred) : cred :=
  mk_cred (uid t) (euid t) (suid t) (no_new_privs t) (caps_initialized t) (cap_effective t) (cap_permitted t) v (cap_bounding t) (cap_ambient t) (securebits t) (user_ns t) (ns_owner t).
Definition set_cap_bounding (v : _) (t : cred) : cred :=
  mk_cred (uid t) (euid t) (suid t) (no_new_privs t) (caps_initialized t) (cap_effective t) (cap_permitted t) (cap_inheritable t) v (cap_ambient t) (securebits t) (user_ns t) (ns_owner t).
Definition set_cap_ambient (v : _) (t : cred) : cred :=
  mk_cred (uid t) (euid t) (suid t) (no_new_privs t) (caps_initialized t) (cap_effective t) (cap_permitted t) (cap_inheritable t) (cap_bounding t) v (securebits t) (user_ns t) (ns_owner t).
Definition set_securebits (v : _) (t : cred) : cred :=
  mk_cred (uid t) (euid t) (suid t) (no_new_privs t) (caps_initialized t) (cap_effective t) (cap_permitted t) (cap_inheritable t) (cap_bounding t) (cap_ambient t) v (user_ns t) (ns_owner t).
Definition set_user_ns (v : _) (t : cred) : cred :=
  mk_cred (uid t) (euid t) (suid t) (no_new_privs t) (caps_initialized t) (cap_effective t) (cap_permitted t) (cap_inheritable t) (cap_bounding t) (cap_ambient t) (securebits t) v (ns_owner t).
Definition set_ns_owner (v : _) (t : cred) : cred :=
  mk_cred (uid t) (euid t) (suid t) (no_new_privs t) (caps_initialized t) (cap_effective t) (cap_permitted t) (cap_inheritable t) (cap_bounding t) (cap_ambient t) (securebits t) (user_ns t) v.

(** ** capability.c *)

(** [ensure]: a boot task gets its sets from its effective user id. *)
Definition ensure (t : cred) : cred :=
  if caps_initialized t then t
  else
    let full := if euid t =? 0 then CAP_VALID_MASK else 0 in
    set_caps_initialized true
      (set_cap_inheritable 0 (set_cap_ambient 0
        (set_cap_effective full (set_cap_permitted full
          (set_cap_bounding CAP_VALID_MASK t))))).

Definition ns_private (t : cred) (kind : nat) : bool :=
  match user_ns t with
  | None => false
  | Some ns => bool_decide (ns_owner t !! kind = Some (Some ns))
  end.

Definition ns_allowed_caps (t : cred) : Z :=
  let allowed := Z.lor (bit CAP_SYS_CHROOT) (bit CAP_SETPCAP) in
  let allowed :=
    if ns_private t NS_OWN_MNT && ns_private t NS_OWN_UTS &&
       ns_private t NS_OWN_IPC && ns_private t NS_OWN_NET
    then Z.lor allowed (bit CAP_SYS_ADMIN) else allowed in
  if ns_private t NS_OWN_NET then Z.lor allowed (bit CAP_NET_ADMIN) else allowed.

(** The test of [capability_has] on a thread whose sets are initialised. *)
Definition has_cap (t : cred) (cap : Z) : bool :=
  if (CAP_LAST_CAP <? cap) || negb (nz (Z.land (cap_effective t) (bit cap))) then false
  else match user_ns t with
       | None => true
       | Some _ => nz (Z.land (ns_allowed_caps t) (bit cap))
       end.

Definition capability_has (t : option cred) (cap : Z) : bool * option cred :=
  match t with
  | None => (true, None)
  | Some t => let t := ensure t in (has_cap t cap, Some t)
  end.

Definition capability_ns_has (t : option cred) (cap : Z) : bool * option cred :=
  match t with
  | None => (true, None)
  | Some t =>
    let t := ensure t in
    ((cap <=? CAP_LAST_CAP) && nz (Z.land (cap_effective t) (bit cap)), Some t)
  end.

Definition capability_enter_user_ns (t : cred) : cred :=
  let t := ensure t in
  set_securebits 0 (set_cap_inheritable 0 (set_cap_ambient 0
    (set_cap_bounding CAP_VALID_MASK
      (set_cap_effective CAP_VALID_MASK (set_cap_permitted CAP_VALID_MASK t))))).

(** [user_namespace_inherit] as far as it touches these fields. *)
Definition user_namespace_inherit (child parent : cred) : cred :=
  set_ns_owner (ns_owner parent) (set_user_ns (user_ns parent) child).

(** Returns the child and the parent, whose sets may have been initialised. *)
Definition capability_inherit (child parent : cred) : cred * cred :=
  let parent := ensure parent in
  let child := set_cap_effective (cap_effective parent) child in
  let child := set_cap_permitted (cap_permitted parent) child in
  let child := set_cap_inheritable (cap_inheritable parent) child in
  let child := set_cap_bounding (cap_bounding parent) child in
  let child := set_cap_ambient (cap_ambient parent) child in
  let child := set_securebits (securebits parent) child in
  let child := set_caps_initialized true child in
  (user_namespace_inherit child parent, parent).

(** [uid_], [euid_], [suid_] are the ids before the change. *)
Definition capability_uid_changed (t : cred) (uid_ euid_ suid_ : Z) : cred :=
  let t := ensure t in
  if nz (Z.land (securebits t) 4) then t
  else if ((uid_ =? 0) || (euid_ =? 0) || (suid_ =? 0)) &&
          negb (uid t =? 0) && negb (euid t =? 0) && negb (suid t =? 0) then
    let t := if negb (nz (Z.land (securebits t) 16)) then set_cap_permitted 0 t else t in
    set_cap_ambient 0 (set_cap_effective 0 t)
  else if (euid_ =? 0) && negb (euid t =? 0) then set_cap_effective 0 t
  else if negb (euid_ =? 0) && (euid t =? 0) then set_cap_effective (cap_permitted t) t
  else t.

Definition capability_exec (t : cred) (old_euid : Z) : cred :=
  let t := ensure t in
  let p := cap_ambient t in
  let p := if negb (nz (Z.land (securebits t) 1)) && ((uid t =? 0) || (euid t =? 0))
           then Z.lor p (Z.lor (cap_bounding t) (cap_inheritable t)) else p in
  let p := if no_new_privs t then Z.land p (cap_permitted t) else p in
  let t := if negb (old_euid =? euid t) then set_cap_ambient 0 t else t in
  let t := set_cap_permitted p t in
  let t := set_cap_effective (if euid t =? 0 then p else cap_ambient t) t in
  set_securebits (Z.land (securebits t) (Z.lnot 16)) t.

(** The loop over the lock bits 1, 3, 5, 7 of PR_SET_SECUREBITS: [true] when a
    locked pair would change. *)
Definition securebits_locked_change (old a : Z) : bool :=
  existsb (fun b =>
    let lock := bit b in
    let pair := Z.lor lock (Z.shiftr lock 1) in
    nz (Z.land old lock) && negb (Z.land a pair =? Z.land old pair)) [1; 3; 5; 7].

Definition capability_prctl (t : option cred) (op a b c d : Z) : Z * option cred :=
  match t with
  | None => (-3, None)
  | Some t =>
    let t := ensure t in
    let keep (r : Z) := (r, Some t) in
    if op =? 7 then keep (Z.b2z (nz (Z.land (securebits t) 16)))
    else if op =? 8 then
      if 1 <? a then keep (-22)
      else if nz (Z.land (securebits t) 32) then keep (-1)
      else (0, Some (set_securebits
              (Z.lor (Z.land (securebits t) (Z.lnot 16)) (if nz a then 16 else 0)) t))
    else if op =? 27 then keep (securebits t)
    else if op =? 28 then
      (* ~255u is the 32-bit mask 0xFFFFFF00 *)
      if nz (Z.land a 0xFFFFFF00) then keep (-22)
      else if negb (has_cap t CAP_SETPCAP) then keep (-1)
      else if securebits_locked_change (securebits t) a then keep (-1)
      else (0, Some (set_securebits (u32 a) t))
    else if (op =? 23) || (op =? 24) then
      if CAP_LAST_CAP <? a then keep (-22)
      else if op =? 23 then keep (Z.b2z (nz (Z.land (cap_bounding t) (bit a))))
      else if negb (has_cap t CAP_SETPCAP) then keep (-1)
      else (0, Some (set_cap_bounding (Z.land (cap_bounding t) (Z.lnot (bit a))) t))
    else if op =? 47 then
      if nz c || nz d then keep (-22)
      else if a =? 4 then
        (if nz b then keep (-22) else (0, Some (set_cap_ambient 0 t)))
      else if CAP_LAST_CAP <? b then keep (-22)
      else if a =? 1 then keep (Z.b2z (nz (Z.land (cap_ambient t) (bit b))))
      else if a =? 2 then
        if nz (Z.land (securebits t) 64) || negb (nz (Z.land (cap_permitted t) (bit b)))
           || negb (nz (Z.land (cap_inheritable t) (bit b))) then keep (-1)
        else (0, Some (set_cap_ambient (Z.lor (cap_ambient t) (bit b)) t))
      else if a =? 3 then
        (0, Some (set_cap_ambient (Z.land (cap_ambient t) (Z.lnot (bit b))) t))
      else keep (-22)
    else keep (-22)
  end.

(** ** capget and capset

    User memory is the pair of routines of the architecture layer:
    [copy_from_user addr n] gives the bytes or [None] on a fault, and
    [copy_to_user addr bytes] whether the store succeeded.
    [pid_namespace_tid viewer target] is the thread id of one thread in the
    namespace of another; threads are positions of [global_thread_list]. *)
Section UserMemory.
Variable copy_from_user : Z -> Z -> option (list Z).
Variable copy_to_user : Z -> list Z -> bool.
Variable pid_namespace_tid : nat -> nat -> Z.

Record cap_header := mk_header { version : Z; pid : Z }.
Record cap_data := mk_data { effective : Z; permitted : Z; inheritable : Z }.

Definition words (h data : Z) : Z * cap_header :=
  match copy_from_user h 8 with
  | None => (-14, mk_header 0 0)
  | Some bs =>
    let hdr := mk_header (le_at bs 0 4) (s32 (le_at bs 4 4)) in
    if version hdr =? 0x19980330 then (1, hdr)
    else if (version hdr =? 0x20071026) || (version hdr =? 0x20080522) then (2, hdr)
    else if negb (copy_to_user h (le_bytes 4 0x20080522)) then (-14, hdr)
    else ((if nz data then -22 else 0), hdr)
  end.

(** The position of the thread [capget] asks about. *)
Definition find_target (cur : nat) (n : nat) (p : Z) : option nat :=
  if negb (nz p) || (p =? s32 (pid_namespace_tid cur cur)) then Some cur
  else list_find (fun i => pid_namespace_tid cur i = u32 p) (seq 0 n) ≫= fun r => Some r.2.

Definition cap_word (t : cred) (i : nat) : list Z :=
  let sh x := u32 (Z.shiftr x (32 * Z.of_nat i)) in
  le_bytes 4 (sh (cap_effective t)) ++ le_bytes 4 (sh (cap_permitted t)) ++
  le_bytes 4 (sh (cap_inheritable t)).

Definition capability_get (threads : list cred) (cur : option nat) (h data : Z)
    : Z * list cred :=
  let '(n, hdr) := words h data in
  if (n <=? 0) || negb (nz data) then ((if n <? 0 then n else 0), threads)
  else if pid hdr <? 0 then (-22, threads)
  else match cur with
  | None => (-3, threads)
  | Some cur =>
    match find_target cur (length threads) (pid hdr) ≫= fun i => (fun t => (i, t)) <$> threads !! i with
    | None => (-3, threads)
    | Some (i, t) =>
      let t := ensure t in
      let out := concat (map (cap_word t) (seq 0 (Z.to_nat n))) in
      ((if copy_to_user data out then 0 else -14), <[i := t]> threads)
    end
  end.

(** The checks and the update of [capset] on the decoded masks. *)
Definition capset_apply (t : cred) (e p i : Z) : Z * cred :=
  let t := ensure t in
  if nz (Z.land (Z.lor (Z.lor e p) i) (Z.lnot CAP_VALID_MASK)) then (-22, t)
  else if nz (Z.land e (Z.lnot p)) || nz (Z.land p (Z.lnot (cap_permitted t))) then (-1, t)
  else
    let allowed_i := Z.lor (cap_inheritable t) (cap_permitted t) in
    let allowed_i := if has_cap t CAP_SETPCAP then Z.lor allowed_i (cap_bounding t) else allowed_i in
    if nz (Z.land i (Z.lnot allowed_i)) ||
       nz (Z.land i (Z.lnot (Z.lor (cap_inheritable t) (cap_bounding t)))) then (-1, t)
    else (0, set_cap_ambient (Z.land (cap_ambient t) (Z.land p i))
               (set_cap_inheritable i (set_cap_permitted p (set_cap_effective e t)))).

Definition data_at (bs : list Z) (i : Z) : cap_data :=
  mk_data (le_at bs (12 * i) 4) (le_at bs (12 * i + 4) 4) (le_at bs (12 * i + 8) 4).

Definition capability_set (t : option cred) (own_tid : Z) (h data : Z) : Z * option cred :=
  let '(n, hdr) := words h data in
  if n <=? 0 then ((if n <? 0 then n else -22), t)
  else match t with
  | None => (-3, None)
  | Some c =>
    if nz (pid hdr) && negb (pid hdr =? s32 own_tid) then (-1, t)
    else match copy_from_user data (n * 12) with
    | None => (-14, t)
    | Some bs =>
      let d0 := data_at bs 0 in
      let d1 := if n =? 2 then data_at bs 1 else mk_data 0 0 0 in
      let join lo hi := Z.lor lo (Z.shiftl hi 32) in
      let '(r, c) := capset_apply c (join (effective d0) (effective d1))
                       (join (permitted d0) (permitted d1))
                       (join (inheritable d0) (inheritable d1)) in
      (r, Some c)
    end
  end.

End UserMemory.

(** ** System calls that change user ids

    The file-system id and the cached identity of the fast path are derived
    copies and left out. [-1] is the return value [(uint64_t)-1]. *)

Definition sys_setuid (t : cred) (rdi : Z) : Z * cred :=
  let u := u32 rdi in
  let '(old_uid, old_euid, old_suid) := (uid t, euid t, suid t) in
  let t := ensure t in
  if has_cap t CAP_SETUID then
    (0, capability_uid_changed (set_uid u (set_euid u (set_suid u t))) old_uid old_euid old_suid)
  else if (u =? uid t) || (u =? suid t) then
    (0, capability_uid_changed (set_euid u t) old_uid old_euid old_suid)
  else (-1, t).

Definition sys_setresuid (t : cred) (rdi rsi rdx : Z) : Z * cred :=
  let '(ruid, e, s) := (u32 rdi, u32 rsi, u32 rdx) in
  let '(old_uid, old_euid, old_suid) := (uid t, euid t, suid t) in
  let t := ensure t in
  let foreign v := negb (v =? UINT32_MAX) && negb (v =? uid t) && negb (v =? euid t)
                   && negb (v =? suid t) in
  if negb (has_cap t CAP_SETUID) && (foreign ruid || foreign e || foreign s) then (-1, t)
  else
    let t := if negb (ruid =? UINT32_MAX) then set_uid ruid t else t in
    let t := if negb (e =? UINT32_MAX) then set_euid e t else t in
    let t := if negb (s =? UINT32_MAX) then set_suid s t else t in
    (0, capability_uid_changed t old_uid old_euid old_suid).

Definition sys_setreuid (t : cred) (rdi rsi : Z) : Z * cred :=
  let '(ruid, e) := (u32 rdi, u32 rsi) in
  let '(old_uid, old_euid, old_suid) := (uid t, euid t, suid t) in
  let t := ensure t in
  if negb (has_cap t CAP_SETUID) &&
     ((negb (ruid =? UINT32_MAX) && negb (ruid =? uid t) && negb (ruid =? euid t)) ||
      (negb (e =? UINT32_MAX) && negb (e =? uid t) && negb (e =? euid t) && negb (e =? suid t)))
  then (-1, t)
  else
    let t := if negb (ruid =? UINT32_MAX) then set_uid ruid t else t in
    let t := if negb (e =? UINT32_MAX) then set_euid e t else t in
    let t := if negb (ruid =? UINT32_MAX) || (negb (e =? UINT32_MAX) && negb (e =? uid t))
             then set_suid (euid t) t else t in
    (0, capability_uid_changed t old_uid old_euid old_suid).

(** The credential change of execve: a set-user-ID image, then the capability
    transition. [nosuid] is the mount flag. Group ids are not part of [cred]. *)
Definition exec_credentials (t : cred) (setuid_bit nosuid : bool) (exec_uid : Z) : cred :=
  let old_exec_euid := euid t in
  let t := if setuid_bit && negb (no_new_privs t) && negb nosuid
           then set_suid exec_uid (set_euid exec_uid t) else t in
  capability_exec t old_exec_euid.

(** ** The invariant of a capability state *)

Record caps_inv (t : cred) : Prop := {
  inv_init : caps_initialized t = true;
  inv_eff : mask_sub (cap_effective t) (cap_permitted t);
  inv_amb_p : mask_sub (cap_ambient t) (cap_permitted t);
  inv_amb_i : mask_sub (cap_ambient t) (cap_inheritable t);
  inv_perm_valid : mask_sub (cap_permitted t) CAP_VALID_MASK;
  inv_inh_valid : mask_sub (cap_inheritable t) CAP_VALID_MASK;
  inv_bnd_valid : mask_sub (cap_bounding t) CAP_VALID_MASK }.

(** A thread is fine when its sets are not initialised yet, or satisfy the
    invariant. *)
Definition caps_ok (t : cred) : Prop := caps_initialized t = false \/ caps_inv t.

(** The privileges a thread can still obtain without a new user namespace. *)
Definition ceiling (t : cred) : Z :=
  Z.lor (cap_permitted t) (Z.lor (cap_inheritable t) (cap_bounding t)).

Lemma ensure_inv t : caps_ok t -> caps_inv (ensure t).
Proof.
  unfold ensure. intros [Hf|Hi].
  - rewrite Hf. constructor; simpl; auto with masks. destruct (euid t =? 0); auto with masks.
  - by rewrite (inv_init _ Hi).
Qed.

Lemma ensure_id t : caps_inv t -> ensure t = t.
Proof. intros Hi. unfold ensure. by rewrite (inv_init _ Hi). Qed.

Lemma caps_inv_ok t : caps_inv t -> caps_ok t.
Proof. by right. Qed.

#[local] Hint Resolve ensure_inv caps_inv_ok : masks.
#[local] Hint Constructors caps_inv : masks.

(** Setters of fields the invariant does not mention. *)
Lemma caps_inv_ids t u e s : caps_inv t -> caps_inv (set_uid u (set_euid e (set_suid s t))).
Proof. intros []. by constructor. Qed.
Lemma caps_ok_euid t v : caps_ok t -> caps_ok (set_euid v t).
Proof. intros [?|[]]; [by left|]. right. by constructor. Qed.
Lemma caps_ok_suid t v : caps_ok t -> caps_ok (set_suid v t).
Proof. intros [?|[]]; [by left|]. right. by constructor. Qed.
Lemma caps_ok_uid t v : caps_ok t -> caps_ok (set_uid v t).
Proof. intros [?|[]]; [by left|]. right. by constructor. Qed.
Lemma caps_ok_nnp t v : caps_ok t -> caps_ok (set_no_new_privs v t).
Proof. intros [?|[]]; [by left|]. right. by constructor. Qed.
Lemma caps_ok_owner t v : caps_ok t -> caps_ok (set_ns_owner v t).
Proof. intros [?|[]]; [by left|]. right. by constructor. Qed.
#[local] Hint Resolve caps_ok_euid caps_ok_suid caps_ok_uid caps_ok_nnp caps_ok_owner : masks.

(** ** Every operation preserves the invariant *)

Lemma uid_changed_inv t u e s : caps_ok t -> caps_inv (capability_uid_changed t u e s).
Proof.
  intros Hok. unfold capability_uid_changed. apply ensure_inv in Hok.
  destruct (ensure t) as [] eqn:E. destruct Hok. simpl in *.
  repeat case_match; constructor; simpl; auto with masks.
Qed.

Lemma exec_inv t old : caps_ok t -> caps_inv (capability_exec t old).
Proof.
  intros Hok. unfold capability_exec. apply ensure_inv in Hok.
  destruct (ensure t) as [] eqn:E. destruct Hok. simpl in *.
  repeat case_match; constructor; simpl; eauto 6 with masks.
Qed.

Lemma exec_ids_inv t b n u : caps_ok t -> caps_inv (exec_credentials t b n u).
Proof.
  intros Hok. unfold exec_credentials. apply exec_inv. case_match; auto with masks.
Qed.

Lemma prctl_inv t op a b c d t' :
  caps_ok t -> 0 <= b -> (capability_prctl (Some t) op a b c d).2 = Some t' -> caps_inv t'.
Proof.
  intros Hok Hb. unfold capability_prctl. apply ensure_inv in Hok.
  destruct (ensure t) as [] eqn:E. pose proof Hok as Hinv. destruct Hok. simpl in *. intros H.
  repeat case_match; simplify_eq/=; try done; constructor; simpl; auto with masks.
  all: reify_bools; rewrite nz_bit in * by lia; auto with masks.
Qed.

Lemma capset_apply_inv t e p i : caps_ok t -> caps_inv (capset_apply t e p i).2.
Proof.
  intros Hok. unfold capset_apply. apply ensure_inv in Hok.
  destruct (ensure t) as [] eqn:E. pose proof Hok as Hinv. destruct Hok. simpl in *.
  repeat match goal with
  | |- context [nz (Z.land ?a (Z.lnot ?b))] =>
      let H := fresh in destruct (nz (Z.land a (Z.lnot b))) eqn:H; [done|apply mask_sub_iff in H]
  | _ => progress simpl
  | |- context [if ?b then _ else _] => destruct b eqn:?
  end; try done; simpl in *; constructor; simpl; auto with masks.
Qed.

Lemma capability_set_inv cfu ctu t tid h data t' :
  caps_ok t -> (capability_set cfu ctu (Some t) tid h data).2 = Some t' -> caps_ok t'.
Proof.
  intros Hok. unfold capability_set. destruct (words _ _ _ _) as [n hdr].
  repeat case_match; simpl; intros; simplify_eq; auto.
  all: match goal with H : capset_apply _ ?e ?p ?i = _ |- _ =>
    pose proof (capset_apply_inv t e p i Hok) as Hc; rewrite H in Hc; simpl in Hc end.
  all: auto with masks.
Qed.

Lemma setuid_inv t r : caps_ok t -> caps_inv (sys_setuid t r).2.
Proof.
  intros Hok. unfold sys_setuid. repeat case_match; simpl; auto with masks.
  all: apply uid_changed_inv; auto 7 with masks.
Qed.

Lemma setresuid_inv t r e s : caps_ok t -> caps_inv (sys_setresuid t r e s).2.
Proof.
  intros Hok. unfold sys_setresuid. case_match; simpl; auto with masks.
  apply uid_changed_inv. repeat case_match; auto 7 with masks.
Qed.

Lemma setreuid_inv t r e : caps_ok t -> caps_inv (sys_setreuid t r e).2.
Proof.
  intros Hok. unfold sys_setreuid. case_match; simpl; auto with masks.
  apply uid_changed_inv. repeat case_match; auto 7 with masks.
Qed.

Lemma enter_user_ns_inv t : caps_inv (capability_enter_user_ns t).
Proof.
  unfold capability_enter_user_ns, ensure.
  destruct (caps_initialized t) eqn:E; constructor; simpl; auto with masks.
Qed.

Lemma inherit_inv child parent : caps_ok parent -> caps_inv (capability_inherit child parent).1.
Proof. intros Hok. apply ensure_inv in Hok. destruct Hok. by constructor. Qed.

(** ** The life of a thread's credentials as a transition system *)

(** Every operation that writes the fields, with any arguments. [false] marks
    the one that enters a new user namespace. A fork child has [no_new_privs]
    when its parent has it ([seccomp_inherit]). *)
Inductive cred_step : bool -> cred -> cred -> Prop :=
| step_check t cap t' : (capability_has (Some t) cap).2 = Some t' -> cred_step true t t'
| step_prctl t op a b c d t' : 0 <= b ->
    (capability_prctl (Some t) op a b c d).2 = Some t' -> cred_step true t t'
| step_capset cfu ctu t tid h data t' :
    (capability_set cfu ctu (Some t) tid h data).2 = Some t' -> cred_step true t t'
| step_setuid t r : cred_step true t (sys_setuid t r).2
| step_setresuid t r e s : cred_step true t (sys_setresuid t r e s).2
| step_setreuid t r e : cred_step true t (sys_setreuid t r e).2
| step_exec t b n u : cred_step true t (exec_credentials t b n u)
| step_fork t child : (no_new_privs t = true -> no_new_privs child = true) ->
    cred_step true t (capability_inherit child t).1
| step_no_new_privs t : cred_step true t (set_no_new_privs true t)
| step_own t owners : cred_step true t (set_ns_owner owners t)
| step_unshare_user t ns :
    cred_step false t (capability_enter_user_ns (set_user_ns (Some ns) t)).

Definition any_step (t t' : cred) : Prop := exists b, cred_step b t t'.

Lemma cred_step_ok b t t' : cred_step b t t' -> caps_ok t -> caps_ok t'.
Proof.
  intros Hs Hok. destruct Hs;
    [match goal with H : (capability_has _ _).2 = _ |- _ => simpl in H; simplify_eq end|..];
    eauto using prctl_inv, capability_set_inv, setuid_inv, setresuid_inv, setreuid_inv,
      exec_ids_inv, inherit_inv, enter_user_ns_inv with masks.
Qed.

Lemma reachable_ok t t' : rtc any_step t t' -> caps_ok t -> caps_ok t'.
Proof. induction 1 as [|??? [b Hs] _ IH]; eauto using cred_step_ok. Qed.

(** ** Ceilings *)

Lemma ceiling_ensure t : caps_inv t -> ceiling (ensure t) = ceiling t.
Proof. intros. by rewrite ensure_id. Qed.

Lemma uid_changed_ceiling t u e s :
  caps_inv t -> mask_sub (ceiling (capability_uid_changed t u e s)) (ceiling t) /\
  mask_sub (cap_permitted (capability_uid_changed t u e s)) (cap_permitted t).
Proof.
  intros Hi. unfold capability_uid_changed, ceiling. rewrite ensure_id by done.
  destruct t; simpl. repeat case_match; simpl; auto with masks.
Qed.

Lemma exec_ceiling t b n u :
  caps_inv t -> mask_sub (ceiling (exec_credentials t b n u)) (ceiling t) /\
  (no_new_privs t = true -> mask_sub (cap_permitted (exec_credentials t b n u)) (cap_permitted t)).
Proof.
  intros Hi. unfold exec_credentials. cbv zeta.
  match goal with |- context [capability_exec ?x _] => set (t' := x) end.
  assert (Hi' : caps_inv t') by (unfold t'; case_match; destruct Hi; by constructor).
  assert (Hc : cap_permitted t' = cap_permitted t /\ cap_inheritable t' = cap_inheritable t /\
    cap_bounding t' = cap_bounding t /\ cap_ambient t' = cap_ambient t /\ no_new_privs t' = no_new_privs t)
    by (unfold t'; case_match; done).
  clearbody t'. unfold capability_exec, ceiling. rewrite ensure_id by done. destruct Hc as (Ep & Ei & Eb & Ea & En).
  pose proof (inv_amb_p _ Hi) as Hap. rewrite <- Ep, <- Ei, <- Eb, <- En. rewrite <- Ea, <- Ep in Hap.
  destruct t'; simpl in *. repeat case_match; simpl; split; intros; try done; auto with masks.
Qed.

Lemma prctl_ceiling t op a b c d t' :
  caps_inv t -> (capability_prctl (Some t) op a b c d).2 = Some t' ->
  mask_sub (ceiling t') (ceiling t) /\ cap_permitted t' = cap_permitted t.
Proof.
  intros Hi. unfold capability_prctl. rewrite ensure_id by done. intros H.
  unfold ceiling. repeat case_match; simplify_eq/=; auto with masks.
Qed.

Lemma capset_apply_ceiling t e p i :
  caps_inv t -> mask_sub (ceiling (capset_apply t e p i).2) (ceiling t) /\
  mask_sub (cap_permitted (capset_apply t e p i).2) (cap_permitted t).
Proof.
  intros Hi. unfold capset_apply, ceiling. rewrite ensure_id by done.
  destruct t; simpl.
  repeat match goal with
  | |- context [nz (Z.land ?a (Z.lnot ?b))] =>
      let H := fresh in destruct (nz (Z.land a (Z.lnot b))) eqn:H;
      [simpl; auto with masks|apply mask_sub_iff in H]
  | _ => progress simpl
  | |- context [if ?b then _ else _] => destruct b eqn:?
  end; auto with masks.
Qed.

Lemma capability_set_ceiling cfu ctu t tid h data t' :
  caps_inv t -> (capability_set cfu ctu (Some t) tid h data).2 = Some t' ->
  mask_sub (ceiling t') (ceiling t) /\ mask_sub (cap_permitted t') (cap_permitted t).
Proof.
  intros Hi. unfold capability_set. destruct (words _ _ _ _) as [n hdr].
  repeat case_match; simpl; intros; simplify_eq; auto with masks.
  all: match goal with H : capset_apply _ ?e ?p ?i = _ |- _ =>
    pose proof (capset_apply_ceiling t e p i Hi) as Hc; rewrite H in Hc; exact Hc end.
Qed.

(** The user-id system calls change only ids before [capability_uid_changed]. *)
Definition same_caps (t t' : cred) : Prop :=
  cap_permitted t' = cap_permitted t /\ cap_inheritable t' = cap_inheritable t /\
  cap_bounding t' = cap_bounding t /\ (caps_inv t -> caps_inv t').

Lemma uid_changed_same t t' u e s :
  caps_inv t -> same_caps t t' ->
  mask_sub (ceiling (capability_uid_changed t' u e s)) (ceiling t) /\
  mask_sub (cap_permitted (capability_uid_changed t' u e s)) (cap_permitted t).
Proof.
  intros Hi (Ep & Ei & Eb & Hinv). destruct (uid_changed_ceiling t' u e s (Hinv Hi)) as [Hc Hp].
  unfold ceiling in *. rewrite Ep, Ei, Eb in Hc. rewrite Ep in Hp. done.
Qed.

Lemma same_caps_ids t u e s : same_caps t (set_uid u (set_euid e (set_suid s t))).
Proof. repeat split; simpl; by destruct H. Qed.

Lemma same_caps_setters t (b1 b2 b3 : bool) u e s :
  same_caps t (let t1 := if b1 then set_uid u t else t in
               let t2 := if b2 then set_euid e t1 else t1 in
               if b3 then set_suid s t2 else t2).
Proof. destruct b1, b2, b3; repeat split; simpl; by destruct H. Qed.

Definition mono (t t' : cred) : Prop :=
  mask_sub (ceiling t') (ceiling t) /\
  (no_new_privs t = true -> no_new_privs t' = true /\ mask_sub (cap_permitted t') (cap_permitted t)).

Lemma mono_refl t : mono t t.
Proof. split; [|split]; done || reflexivity. Qed.

Lemma uid_changed_nnp t u e s : no_new_privs (capability_uid_changed t u e s) = no_new_privs t.
Proof. unfold capability_uid_changed, ensure. repeat case_match; done. Qed.

Lemma mono_uid_changed t t' u e s :
  caps_inv t -> same_caps t t' -> no_new_privs t' = no_new_privs t ->
  mono t (capability_uid_changed t' u e s).
Proof.
  intros Hi Hs Hn. destruct (uid_changed_same t t' u e s Hi Hs). split; [done|].
  rewrite uid_changed_nnp, Hn. done.
Qed.

Lemma mono_setuid t r : caps_inv t -> mono t (sys_setuid t r).2.
Proof.
  intros Hi. unfold sys_setuid. rewrite ensure_id by done.
  repeat case_match; simpl; try apply mono_refl; apply mono_uid_changed; try done.
  - apply same_caps_ids.
  - apply (same_caps_setters t false true false 0 (u32 r) 0).
Qed.

Lemma mono_setresuid t r e s : caps_inv t -> mono t (sys_setresuid t r e s).2.
Proof.
  intros Hi. unfold sys_setresuid. rewrite ensure_id by done.
  case_match; simpl; try apply mono_refl. apply mono_uid_changed; [done| |].
  - apply same_caps_setters.
  - repeat case_match; done.
Qed.

Lemma mono_setreuid t r e : caps_inv t -> mono t (sys_setreuid t r e).2.
Proof.
  intros Hi. unfold sys_setreuid. rewrite ensure_id by done.
  case_match; simpl; try apply mono_refl. apply mono_uid_changed; [done| |].
  - apply same_caps_setters.
  - repeat case_match; done.
Qed.

Lemma exec_nnp t b n u : no_new_privs (exec_credentials t b n u) = no_new_privs t.
Proof. unfold exec_credentials, capability_exec, ensure. repeat case_match; done. Qed.

Lemma prctl_nnp t op a b c d t' :
  (capability_prctl (Some t) op a b c d).2 = Some t' -> no_new_privs t' = no_new_privs t.
Proof.
  unfold capability_prctl. assert (He : no_new_privs (ensure t) = no_new_privs t)
    by (unfold ensure; by case_match).
  intros H. repeat case_match; simplify_eq/=; done.
Qed.

Lemma capability_set_nnp cfu ctu t tid h data t' :
  (capability_set cfu ctu (Some t) tid h data).2 = Some t' -> no_new_privs t' = no_new_privs t.
Proof.
  unfold capability_set. destruct (words _ _ _ _) as [n hdr].
  assert (He : no_new_privs (ensure t) = no_new_privs t) by (unfold ensure; by case_match).
  intros H. repeat case_match; simplify_eq/=; try done.
  all: unfold capset_apply in *; repeat case_match; simplify_eq/=; done.
Qed.

Lemma cred_step_mono t t' : cred_step true t t' -> caps_inv t -> mono t t'.
Proof.
  intros Hs Hi. remember true as b eqn:Eb. destruct Hs; try done.
  - simpl in *. simplify_eq. rewrite ensure_id by done. apply mono_refl.
  - destruct (prctl_ceiling _ _ _ _ _ _ _ Hi H0) as [? Ep]. split; [done|].
    rewrite (prctl_nnp _ _ _ _ _ _ _ H0), Ep. auto with masks.
  - destruct (capability_set_ceiling _ _ _ _ _ _ _ Hi H). split; [done|].
    rewrite (capability_set_nnp _ _ _ _ _ _ _ H). done.
  - by apply mono_setuid.
  - by apply mono_setresuid.
  - by apply mono_setreuid.
  - destruct (exec_ceiling t b n u Hi). split; [done|]. rewrite exec_nnp. auto.
  - unfold mono, ceiling. simpl. rewrite ensure_id by done. split; auto with masks.
Qed.

Lemma cred_step_inv b t t' : cred_step b t t' -> caps_inv t -> caps_inv t'.
Proof.
  intros Hs Hi. pose proof (caps_inv_ok _ Hi) as Hok. destruct Hs.
  - simpl in H. simplify_eq. by apply ensure_inv.
  - by eapply prctl_inv.
  - destruct (capability_set_inv _ _ _ _ _ _ _ Hok H) as [Hf|]; [|done].
    exfalso. revert H. unfold capability_set. destruct (words _ _ _ _).
    intros H. repeat case_match; simplify_eq/=; try (destruct Hi; congruence).
    all: match goal with H : capset_apply _ ?e ?p ?i = _ |- _ =>
      pose proof (inv_init _ (capset_apply_inv t e p i Hok)) as Hc;
      rewrite H in Hc; simpl in Hc; congruence end.
  - by apply setuid_inv.
  - by apply setresuid_inv.
  - by apply setreuid_inv.
  - by apply exec_ids_inv.
  - by apply inherit_inv.
  - destruct Hi. by constructor.
  - destruct Hi. by constructor.
  - apply enter_user_ns_inv.
Qed.

Lemma mono_trans t1 t2 t3 : mono t1 t2 -> mono t2 t3 -> mono t1 t3.
Proof.
  intros [Hc1 Hn1] [Hc2 Hn2]. split; [by etransitivity|]. intros Hn.
  destruct (Hn1 Hn) as [Hn' Hp1]. destruct (Hn2 Hn') as [Hn'' Hp2]. split; [done|]. by etransitivity.
Qed.

Lemma reachable_mono t t' : rtc (cred_step true) t t' -> caps_inv t -> mono t t' /\ caps_inv t'.
Proof.
  induction 1 as [|t1 t2 t3 Hs _ IH]; intros Hi; [split; [apply mono_refl|done]|].
  destruct (IH (cred_step_inv _ _ _ Hs Hi)) as [Hm Hi']. split; [|done].
  eapply mono_trans; [|done]. by apply cred_step_mono.
Qed.

(** ** Properties *)

(** C13: in every state a thread can reach from boot by any sequence of
    capability checks, prctl, capset, set*uid, execve, fork and user-namespace
    calls, the effective and ambient sets are within the permitted set, the
    ambient set within the inheritable set, and no set has a bit above
    CAP_LAST_CAP. *)
Theorem caps_invariant t t' :
  caps_initialized t = false -> rtc any_step t t' -> caps_initialized t' = true ->
  mask_sub (cap_effective t') (cap_permitted t') /\
  mask_sub (cap_ambient t') (Z.land (cap_permitted t') (cap_inheritable t')) /\
  mask_sub (Z.lor (cap_permitted t') (Z.lor (cap_inheritable t') (cap_bounding t'))) CAP_VALID_MASK.
Proof.
  intros Hb Hr Hi. destruct (reachable_ok _ _ Hr (or_introl Hb)) as [|[]]; [congruence|].
  auto 6 with masks.
Qed.

Definition boot (u : Z) : cred := mk_cred u u u false false 0 0 0 0 0 0 None [None; None; None; None].

Lemma caps_invariant_witness :
  exists t', cap_permitted t' = CAP_VALID_MASK /\ mask_sub (cap_effective t') (cap_permitted t').
Proof.
  exists (exec_credentials (boot 0) false false 0). split; [reflexivity|].
  refine (proj1 (caps_invariant (boot 0) _ _ _ _)); [reflexivity| |reflexivity].
  apply rtc_once. exists true. apply step_exec.
Defined.

(** C36: with no_new_privs set, no sequence of these operations short of
    entering a new user namespace enlarges the permitted set, and the
    effective set stays within the original permitted set. *)
Theorem no_new_privs_confines t t' :
  caps_inv t -> no_new_privs t = true -> rtc (cred_step true) t t' ->
  no_new_privs t' = true /\ mask_sub (cap_permitted t') (cap_permitted t) /\
  mask_sub (cap_effective t') (cap_permitted t).
Proof.
  intros Hi Hn Hr. destruct (reachable_mono _ _ Hr Hi) as [[_ Hm] [_ He _ _ _ _ _]].
  destruct (Hm Hn) as [Hn' Hp]. split; [done|]. split; [done|]. by etransitivity.
Qed.

(** A confined thread: user id 1000, holding CAP_SETPCAP only. *)
Definition confined : cred :=
  mk_cred 1000 1000 1000 true true 256 256 0 CAP_VALID_MASK 0 0 None [None; None; None; None].

Lemma confined_inv : caps_inv confined.
Proof. constructor; try reflexivity; apply mask_sub_iff; reflexivity. Qed.

Lemma no_new_privs_confines_witness :
  let t' := exec_credentials confined true false 0 in
  euid t' = 1000 /\ mask_sub (cap_permitted t') (cap_permitted confined).
Proof.
  intros t'. split; [reflexivity|].
  refine (proj1 (proj2 (no_new_privs_confines confined t' confined_inv _ _))); [reflexivity|].
  apply rtc_once, step_exec.
Defined.

(** a capability absent from the permitted, inheritable and bounding sets
    cannot come back: whatever is effective later, without a new user
    namespace, was in one of the three. *)
Theorem capability_ceiling t t' cap :
  caps_inv t -> rtc (cred_step true) t t' -> 0 <= cap ->
  Z.testbit (cap_effective t') cap = true ->
  Z.testbit (cap_permitted t) cap = true \/ Z.testbit (cap_inheritable t) cap = true \/
  Z.testbit (cap_bounding t) cap = true.
Proof.
  intros Hi Hr Hc He. destruct (reachable_mono _ _ Hr Hi) as [[Hm _] [_ Hep _ _ _ _ _]].
  specialize (Hm cap Hc). unfold ceiling in Hm. rewrite !Z.lor_spec, !orb_true_iff in Hm.
  specialize (Hep cap Hc He). tauto.
Qed.

Lemma capability_ceiling_witness :
  let t := mk_cred 0 0 0 false true 256 256 0 512 0 0 None [None; None; None; None] in
  Z.testbit (cap_permitted t) 9 = true \/ Z.testbit (cap_inheritable t) 9 = true \/
  Z.testbit (cap_bounding t) 9 = true.
Proof.
  intros t. apply (capability_ceiling t (exec_credentials t false false 0)).
  - constructor; try reflexivity; apply mask_sub_iff; reflexivity.
  - apply rtc_once, step_exec.
  - lia.
  - reflexivity.
Defined.

(** inside a non-initial user namespace [capability_has] grants only
    CAP_SYS_CHROOT and CAP_SETPCAP, plus CAP_NET_ADMIN when the thread owns its
    network namespace and CAP_SYS_ADMIN when it owns all four tracked kinds. *)
Theorem user_ns_confines t ns cap :
  user_ns t = Some ns -> 0 <= cap -> (capability_has (Some t) cap).1 = true ->
  cap = CAP_SYS_CHROOT \/ cap = CAP_SETPCAP \/
  (cap = CAP_NET_ADMIN /\ ns_owner t !! NS_OWN_NET = Some (Some ns)) \/
  (cap = CAP_SYS_ADMIN /\ forall kind, (kind < 4)%nat -> ns_owner t !! kind = Some (Some ns)).
Proof.
  intros Hns Hc. simpl. unfold has_cap.
  assert (Eu : user_ns (ensure t) = Some ns) by (unfold ensure; by case_match).
  assert (Eo : ns_owner (ensure t) = ns_owner t) by (unfold ensure; by case_match).
  rewrite Eu. case_match; [done|]. rewrite nz_bit by done.
  unfold ns_allowed_caps, ns_private. rewrite Eu, Eo.
  intros Hbit. repeat case_match; reify_bools;
    rewrite ?Z.lor_spec, ?testbit_bit, ?orb_true_iff, ?bool_decide_eq_true in * by done;
    repeat match goal with H : bool_decide _ = true |- _ => apply bool_decide_eq_true in H end;
    intuition (try done).
  right. right. right. split; [done|]. intros [|[|[|[|k]]]] Hk; done || lia.
Qed.

Lemma user_ns_confines_witness :
  let t := mk_cred 0 0 0 false true CAP_VALID_MASK CAP_VALID_MASK 0 CAP_VALID_MASK 0 0 (Some 7)
             [None; None; None; Some 7] in
  (capability_has (Some t) CAP_NET_ADMIN).1 = true /\ ns_owner t !! NS_OWN_NET = Some (Some 7).
Proof.
  intros t. assert (H : (capability_has (Some t) CAP_NET_ADMIN).1 = true) by reflexivity.
  split; [exact H|].
  destruct (user_ns_confines t 7 CAP_NET_ADMIN eq_refl ltac:(unfold CAP_NET_ADMIN; lia) H)
    as [E|[E|[E|E]]]; [discriminate E|discriminate E|exact (proj2 E)|discriminate (proj1 E)].
Defined.

(** capset either fails and leaves the sets alone, or installs exactly the
    requested sets, and then the effective set is within the new permitted set,
    the new permitted set within the old one, every inheritable bit was
    inheritable or is in the bounding set, and the ambient set has shrunk to
    the new permitted and inheritable sets. *)
Theorem capset_spec t e p i :
  caps_inv t ->
  match capset_apply t e p i with
  | (r, t') =>
    (r = -22 /\ t' = t) \/ (r = -1 /\ t' = t) \/
    (r = 0 /\ cap_effective t' = e /\ cap_permitted t' = p /\ cap_inheritable t' = i /\
     cap_bounding t' = cap_bounding t /\
     mask_sub e p /\ mask_sub p (cap_permitted t) /\
     mask_sub i (Z.lor (cap_inheritable t) (cap_bounding t)) /\
     cap_ambient t' = Z.land (cap_ambient t) (Z.land p i))
  end.
Proof.
  intros Hi. unfold capset_apply. rewrite ensure_id by done. destruct t; simpl.
  repeat match goal with
  | |- context [nz (Z.land ?a (Z.lnot ?b))] =>
      let H := fresh in destruct (nz (Z.land a (Z.lnot b))) eqn:H;
      [simpl; auto|apply mask_sub_iff in H]
  | _ => progress simpl
  | |- context [if ?b then _ else _] => destruct b eqn:?
  end; auto; right; right; split_and!; auto.
Qed.

Lemma capset_spec_witness :
  (capset_apply confined 0 256 0).1 = 0 /\
  mask_sub (cap_permitted (capset_apply confined 0 256 0).2) (cap_permitted confined).
Proof.
  split; [reflexivity|].
  pose proof (capset_spec confined 0 256 0 confined_inv) as H.
  destruct (capset_apply confined 0 256 0) as [r t'] eqn:E. simpl.
  destruct H as [[_ H]|[[_ H]|H]].
  - rewrite H. apply mask_sub_refl.
  - rewrite H. apply mask_sub_refl.
  - destruct H as (_ & _ & Hp & _ & _ & _ & H & _). rewrite Hp. exact H.
Defined.

Lemma testbit_u32 a b : 0 <= b < 32 -> Z.testbit (u32 a) b = Z.testbit a b.
Proof. intros. unfold u32. apply Z.mod_pow2_bits_low. lia. Qed.

(** Bits 1, 3, 5 and 7 of securebits lock themselves and the bit below. *)
Definition lock_pair (b n : Z) : Prop := (b = 1 \/ b = 3 \/ b = 5 \/ b = 7) /\ (n = b \/ n = b - 1).

Lemma locked_change_false old a b n :
  securebits_locked_change old a = false -> lock_pair b n -> Z.testbit old b = true ->
  Z.testbit a n = Z.testbit old n.
Proof.
  intros Hf [Hb Hn] Hold. unfold securebits_locked_change in Hf.
  apply not_true_iff_false in Hf. rewrite existsb_exists in Hf.
  destruct (Z.eq_dec (Z.land a (Z.lor (bit b) (Z.shiftr (bit b) 1)))
                     (Z.land old (Z.lor (bit b) (Z.shiftr (bit b) 1)))) as [He|Hne].
  - assert (Hn0 : 0 <= n) by lia.
    assert (Hp : Z.testbit (Z.lor (bit b) (Z.shiftr (bit b) 1)) n = true).
    { destruct Hb as [->|[->|[->| ->]]], Hn as [->| ->]; reflexivity. }
    apply (f_equal (fun z => Z.testbit z n)) in He. simpl in He.
    rewrite !Z.land_spec, Hp, !andb_true_r in He. done.
  - exfalso. apply Hf. exists b. split; [simpl; intuition|].
    rewrite nz_bit, Hold by lia. simpl. by apply negb_true_iff, Z.eqb_neq.
Qed.

Lemma keepcaps_bits old v n :
  0 <= n -> n <> 4 -> v = 16 \/ v = 0 ->
  Z.testbit (Z.lor (Z.land old (Z.lnot 16)) v) n = Z.testbit old n.
Proof.
  intros Hn Hne Hv. rewrite Z.lor_spec, Z.land_spec, Z.lnot_spec by lia.
  change 16 with (bit 4) in *. rewrite testbit_bit, bool_decide_false by done.
  destruct Hv as [->| ->]; rewrite ?testbit_bit, ?bool_decide_false, ?Z.bits_0 by done.
  all: by rewrite andb_true_r, orb_false_r.
Qed.

(** prctl never changes a locked securebits pair: while the lock bit is
    set, neither it nor the bit it protects moves, whatever the operation. *)
Theorem securebits_locks_hold t op a b c d t' bl n :
  caps_inv t -> (capability_prctl (Some t) op a b c d).2 = Some t' ->
  lock_pair bl n -> Z.testbit (securebits t) bl = true ->
  Z.testbit (securebits t') n = Z.testbit (securebits t) n.
Proof.
  intros Hi Hp Hl Hlock. unfold capability_prctl in Hp. rewrite ensure_id in Hp by done.
  assert (Hn : 0 <= n < 32) by (destruct Hl as [[->|[->|[->| ->]]] [->| ->]]; lia).
  assert (Hkeep : nz (Z.land (securebits t) 32) = false -> forall v, v = 16 \/ v = 0 ->
    Z.testbit (Z.lor (Z.land (securebits t) (Z.lnot 16)) v) n = Z.testbit (securebits t) n).
  { intros H32 v Hv. apply keepcaps_bits; [lia| |done]. intros ->.
    destruct Hl as [[->|[->|[->| ->]]] [E|E]]; try lia.
    change 32 with (bit 5) in *. rewrite nz_bit in * by lia. congruence. }
  repeat case_match; simplify_eq/=; try done; auto.
  rewrite testbit_u32 by lia. by eapply locked_change_false.
Qed.

Lemma securebits_locks_hold_witness :
  let t := set_securebits 3 confined in
  Z.testbit (securebits t) 0 = true /\
  forall t', (capability_prctl (Some t) 28 2 0 0 0).2 = Some t' -> Z.testbit (securebits t') 0 = true.
Proof.
  intros t. split; [reflexivity|]. intros t' H.
  refine (eq_trans (securebits_locks_hold t 28 2 0 0 0 t' 1 0 _ H _ _) _).
  - constructor; try reflexivity; apply mask_sub_iff; reflexivity.
  - split; [left; reflexivity|right; reflexivity].
  - reflexivity.
  - reflexivity.
Defined.

(** ** Observations *)

(** A value with only bits above 31 passes the [a & ~255u] test of
    PR_SET_SECUREBITS, because the complement is taken in 32 bits. *)
Lemma securebits_high_bits_accepted :
  (capability_prctl (Some confined) 28 (2 ^ 32) 0 0 0).1 = 0.
Proof. reflexivity. Qed.

(** A set-user-ID exec to another unprivileged user clears the ambient set but
    keeps its bits in the permitted set, which was computed before. *)
Lemma setuid_exec_keeps_ambient_permitted :
  let t := mk_cred 1000 1000 1000 false true 256 256 256 CAP_VALID_MASK 256 0 None
             [None; None; None; None] in
  let t' := exec_credentials t true false 1001 in
  cap_ambient t' = 0 /\ cap_effective t' = 0 /\ cap_permitted t' = 256.
Proof. by vm_compute. Qed.

(** A capability dropped from the bounding set is restored by root's exec when
    it is still inheritable. *)
Lemma bounding_drop_restored_from_inheritable :
  let t := mk_cred 0 0 0 false true 256 256 512 256 0 0 None [None; None; None; None] in
  Z.testbit (cap_bounding t) 9 = false /\
  Z.testbit (cap_effective (exec_credentials t false false 0)) 9 = true.
Proof. by vm_compute. Qed.

End Capability.
