(* ===== verification/Seccomp.v ===== *)
(** Seccomp: the classic-BPF filter verifier and interpreter
    ([sc_verify] and [sc_run] of [kernel/src/sched/seccomp.c]).

    Instruction fields, registers and scratch words are 32-bit values in [Z].
    Indexing the scratch memory, the seccomp data or the verifier's state array
    out of range is [Fault]. The filter chains and the installation of filters
    are in [SeccompChain]. *)

From S2P Require Import Prelude.

Module Seccomp.

Record sc_instruction := mk_insn { code : Z; jt : Z; jf : Z; k : Z }.
Record sc_data := mk_data { nr : Z; arch : Z; ip : Z; args : list Z }.

(** The 64 bytes of [struct sc_data]. *)
Definition sc_data_bytes (d : sc_data) : list Z :=
  le_bytes 4 (nr d) ++ le_bytes 4 (arch d) ++ le_bytes 8 (ip d) ++
  concat (map (le_bytes 8) (args d)).
Definition SC_DATA_SIZE : Z := 64.

(** [case] labels of a switch. *)
Definition code_in (c : Z) (labels : list Z) : bool := existsb (Z.eqb c) labels.

(** ** sc_verify *)

Definition UNREACHED : Z := 0x10000.

(** The switch of [sc_verify]: the scratch mask after the instruction and the
    instructions that may follow. [Err (-22)] is [goto out]. *)
Definition verify_insn (count i : Z) (p : sc_instruction) (reached : bool) (mask : Z)
    : outcome (Z * list Z) :=
  if code_in (code p) [0x00; 0x01; 0x80; 0x81; 0x07; 0x87] then Ret (mask, [i + 1])
  else if code_in (code p) [0x20] then
    _ ← guard_ret (nz (Z.land (k p) 3) || (SC_DATA_SIZE - 4 <? k p)) (-22);
    Ret (mask, [i + 1])
  else if code_in (code p) [0x60; 0x61] then
    _ ← guard_ret ((16 <=? k p) || (reached && negb (nz (Z.land mask (bit (k p)))))) (-22);
    Ret (mask, [i + 1])
  else if code_in (code p) [0x02; 0x03] then
    _ ← guard_ret (16 <=? k p) (-22);
    Ret (Z.lor mask (bit (k p)), [i + 1])
  else if code_in (code p) [0x06; 0x16] then Ret (mask, [])
  else if code_in (code p) [0x05] then
    _ ← guard_ret (u32 (count - i - 1) <=? k p) (-22);
    Ret (mask, [i + 1 + k p])
  else if code_in (code p) [0x15; 0x1d; 0x25; 0x2d; 0x35; 0x3d; 0x45; 0x4d] then
    Ret (mask, [i + 1 + jt p; i + 1 + jf p])
  else if code_in (code p) [0x04; 0x0c; 0x14; 0x1c; 0x24; 0x2c; 0x44; 0x4c; 0x54; 0x5c;
                            0xa4; 0xac; 0x84; 0x3c; 0x9c; 0x6c; 0x7c] then Ret (mask, [i + 1])
  else if code_in (code p) [0x34; 0x94] then
    _ ← guard_ret (k p =? 0) (-22); Ret (mask, [i + 1])
  else if code_in (code p) [0x64; 0x74] then
    _ ← guard_ret (32 <=? k p) (-22); Ret (mask, [i + 1])
  else Err (-22).

(** The loop over the branches. *)
Fixpoint propagate (count : Z) (reached : bool) (mask : Z) (next : list Z) (states : list Z)
    : outcome (list Z) :=
  match next with
  | [] => Ret states
  | n :: next =>
    _ ← guard_ret (count <=? n) (-22);
    if reached then
      st ← arr_get states n;
      states ← arr_set states n (if st =? UNREACHED then mask else Z.land st mask);
      propagate count reached mask next states
    else propagate count reached mask next states
  end.

(** The loop over the instructions; [rest] are those from index [i] on. *)
Fixpoint verify_loop (count i : Z) (rest : list sc_instruction) (states : list Z)
    : outcome (list Z) :=
  match rest with
  | [] => Ret states
  | p :: rest =>
    st ← arr_get states i;
    let reached := negb (st =? UNREACHED) in
    '(mask, next) ← verify_insn count i p reached (Z.land st 0xffff);
    states ← propagate count reached mask next states;
    verify_loop count (i + 1) rest states
  end.

(** [Ret tt] is the result 0. *)
Definition sc_verify (kmalloc_ok : bool) (insn : list sc_instruction) : outcome unit :=
  _ ← guard_ret (negb kmalloc_ok) (-12);
  let count := Z.of_nat (length insn) in
  states ← arr_set (replicate (length insn) UNREACHED) 0 0;
  _ ← verify_loop count 0 insn states;
  last ← arr_get insn (count - 1);
  guard_ret (negb (Z.land (code last) 7 =? 6)) (-22).

(** ** sc_run *)

Record machine := mk_machine { ra : Z; rx : Z; mem : list Z; pc : Z }.

(** How the interpreter stops; its result is [exit_value]. *)
Inductive exit_kind := ByReturn (v : Z) | DivByZero | BadCode | PastEnd.
Definition exit_value (e : exit_kind) : Z := match e with ByReturn v => v | _ => 0 end.

(** [memcpy(&a, (const uint8_t * )d + k, 4)] *)
Definition load_u32 (bs : list Z) (off : Z) : outcome Z :=
  b0 ← arr_get bs off; b1 ← arr_get bs (off + 1);
  b2 ← arr_get bs (off + 2); b3 ← arr_get bs (off + 3);
  Ret (b0 + 2 ^ 8 * b1 + 2 ^ 16 * b2 + 2 ^ 24 * b3).

Definition set_a (v : Z) (m : machine) : machine := mk_machine v (rx m) (mem m) (u32 (pc m + 1)).
Definition set_x (v : Z) (m : machine) : machine := mk_machine (ra m) v (mem m) (u32 (pc m + 1)).
Definition set_mem (v : list Z) (m : machine) : machine :=
  mk_machine (ra m) (rx m) v (u32 (pc m + 1)).
(** [pc += off] followed by the [pc++] of the loop. *)
Definition jump (off : Z) (m : machine) : machine :=
  mk_machine (ra m) (rx m) (mem m) (u32 (pc m + off + 1)).

(** The switch of [sc_run] on one instruction. *)
Definition exec_insn (p : sc_instruction) (d : sc_data) (m : machine)
    : outcome (machine + exit_kind) :=
  let a := ra m in
  let x := rx m in
  let c := code p in
  let v := if nz (Z.land c 8) then x else k p in
  let go m := Ret (inl m) in
  if c =? 0x00 then go (set_a (k p) m)
  else if c =? 0x01 then go (set_x (k p) m)
  else if c =? 0x80 then go (set_a SC_DATA_SIZE m)
  else if c =? 0x81 then go (set_x SC_DATA_SIZE m)
  else if c =? 0x20 then w ← load_u32 (sc_data_bytes d) (k p); go (set_a w m)
  else if c =? 0x60 then w ← arr_get (mem m) (k p); go (set_a w m)
  else if c =? 0x61 then w ← arr_get (mem m) (k p); go (set_x w m)
  else if c =? 0x02 then ms ← arr_set (mem m) (k p) a; go (set_mem ms m)
  else if c =? 0x03 then ms ← arr_set (mem m) (k p) x; go (set_mem ms m)
  else if c =? 0x07 then go (set_x a m)
  else if c =? 0x87 then go (set_a x m)
  else if code_in c [0x04; 0x0c] then go (set_a (u32 (a + v)) m)
  else if code_in c [0x14; 0x1c] then go (set_a (u32 (a - v)) m)
  else if code_in c [0x24; 0x2c] then go (set_a (u32 (a * v)) m)
  else if code_in c [0x34; 0x3c] then if v =? 0 then Ret (inr DivByZero) else go (set_a (a / v) m)
  else if code_in c [0x94; 0x9c] then if v =? 0 then Ret (inr DivByZero) else go (set_a (a mod v) m)
  else if code_in c [0x44; 0x4c] then go (set_a (Z.lor a v) m)
  else if code_in c [0x54; 0x5c] then go (set_a (Z.land a v) m)
  else if code_in c [0xa4; 0xac] then go (set_a (Z.lxor a v) m)
  else if code_in c [0x64; 0x6c] then go (set_a (u32 (Z.shiftl a (Z.land v 31))) m)
  else if code_in c [0x74; 0x7c] then go (set_a (Z.shiftr a (Z.land v 31)) m)
  else if c =? 0x84 then go (set_a (u32 (0 - a)) m)
  else if c =? 0x05 then go (jump (k p) m)
  else if code_in c [0x15; 0x1d] then go (jump (if a =? v then jt p else jf p) m)
  else if code_in c [0x25; 0x2d] then go (jump (if v <? a then jt p else jf p) m)
  else if code_in c [0x35; 0x3d] then go (jump (if v <=? a then jt p else jf p) m)
  else if code_in c [0x45; 0x4d] then go (jump (if nz (Z.land a v) then jt p else jf p) m)
  else if c =? 0x06 then Ret (inr (ByReturn (k p)))
  else if c =? 0x16 then Ret (inr (ByReturn a))
  else Ret (inr BadCode).

Fixpoint run_loop (fuel : nat) (insn : list sc_instruction) (d : sc_data) (m : machine)
    : outcome exit_kind :=
  match fuel with
  | O => OutOfFuel
  | S fuel =>
    if pc m <? Z.of_nat (length insn) then
      p ← arr_get insn (pc m);
      r ← exec_insn p d m;
      match r with
      | inl m => run_loop fuel insn d m
      | inr e => Ret e
      end
    else Ret PastEnd
  end.

(** [sc_run] from given scratch contents; the source starts from zeros. *)
Definition sc_run_from (scratch : list Z) (insn : list sc_instruction) (d : sc_data)
    : outcome exit_kind :=
  run_loop (S (length insn)) insn d (mk_machine 0 0 scratch 0).
Definition sc_run (insn : list sc_instruction) (d : sc_data) : outcome Z :=
  exit_value <$> sc_run_from (replicate 16 0) insn d.

(** ** The verifier establishes a fixed point of the scratch analysis *)

(** A reached entry of the state array: a set of scratch words. *)
Definition live (st : Z) : Prop := 0 <= st < UNREACHED.
Definition entry (st : Z) : Prop := st = UNREACHED \/ live st.
(** A reached entry stays reached and only loses words. *)
Definition shrink (st st' : Z) : Prop := live st -> live st' /\ mask_sub st' st.

#[local] Instance shrink_refl : Reflexive shrink.
Proof. by intros st. Qed.
#[local] Instance shrink_trans : Transitive shrink.
Proof. intros a b c Hab Hbc Ha. destruct (Hab Ha) as [Hb ?]. destruct (Hbc Hb). split; [done|].
  by etransitivity. Qed.

Lemma land_live a b : 0 <= a < 0x10000 -> 0 <= b -> 0 <= Z.land a b < 0x10000.
Proof.
  intros Ha Hb. assert (0 <= Z.land a b) by (apply Z.land_nonneg; lia). split; [done|].
  apply Z.log2_lt_cancel. change (Z.log2 0x10000) with 16.
  pose proof (Z.log2_land a b ltac:(lia) ltac:(lia)).
  enough (Z.log2 a < 16) by lia. destruct (decide (a = 0)) as [->|]; [done|].
  apply Z.log2_lt_pow2; lia.
Qed.

Lemma lor_live a b : 0 <= a < 0x10000 -> 0 <= b < 0x10000 -> 0 <= Z.lor a b < 0x10000.
Proof.
  intros Ha Hb. assert (0 <= Z.lor a b) by (apply Z.lor_nonneg; lia). split; [done|].
  apply Z.log2_lt_cancel. change (Z.log2 0x10000) with 16.
  rewrite Z.log2_lor by lia.
  assert (forall z, 0 <= z < 0x10000 -> Z.log2 z < 16).
  { intros z Hz. destruct (decide (z = 0)) as [->|]; [done|]. apply Z.log2_lt_pow2; lia. }
  apply Z.max_lub_lt; auto.
Qed.

Lemma live_land_ffff st : live st -> Z.land st 0xffff = st.
Proof.
  unfold live, UNREACHED. intros. change 0xffff with (2 ^ 16 - 1).
  rewrite land_ones_small by lia. apply Z.mod_small. lia.
Qed.

(** What the verifier checked of instruction [p] at [i], of the final states. *)
Definition reaches (count : Z) (states : list Z) (mask n : Z) : Prop :=
  n < count /\ exists st', states !! Z.to_nat n = Some st' /\ live st' /\ mask_sub st' mask.
Definition checked (count : Z) (states : list Z) (i : Z) (p : sc_instruction) : Prop :=
  forall st, states !! Z.to_nat i = Some st -> live st ->
  exists mask next, verify_insn count i p true st = Ret (mask, next) /\
    Forall (reaches count states mask) next.

(** Each state array is pointwise below the previous one. *)
Definition below (states states' : list Z) : Prop := Forall2 shrink states states'.

#[local] Instance below_refl : Reflexive below.
Proof. intros l. apply Forall2_same_length_lookup_2; [done|]. intros. by simplify_eq. Qed.
#[local] Instance below_trans : Transitive below.
Proof. intros a b c Hab Hbc. eapply Forall2_trans; [|done|done]. apply shrink_trans. Qed.

Lemma below_lookup S S' i st : below S S' -> S !! i = Some st ->
  exists st', S' !! i = Some st' /\ shrink st st'.
Proof. intros Hb. by apply Forall2_lookup_l. Qed.

Lemma reaches_below count S S' mask n :
  below S S' -> reaches count S mask n -> reaches count S' mask n.
Proof.
  intros Hb (Hn & st & Hst & Hl & Hm).
  destruct (below_lookup _ _ _ _ Hb Hst) as (st' & Hst' & Hsh). destruct (Hsh Hl).
  split; [done|]. exists st'. repeat split; try done; [apply H|apply H|]. by etransitivity.
Qed.

Lemma propagate_spec count reached mask next : forall S S',
  Forall (fun n => 0 <= n) next -> 0 <= mask < 0x10000 -> Forall entry S ->
  propagate count reached mask next S = Ret S' ->
  Forall entry S' /\ below S S' /\ (forall j, ~ In j (map Z.to_nat next) -> S' !! j = S !! j) /\
  (reached = true -> Forall (reaches count S' mask) next).
Proof.
  induction next as [|n next IH]; intros S S' Hn Hm HS Hp; cbn [propagate] in Hp.
  { simplify_eq. repeat split; auto. reflexivity. }
  apply Forall_cons_1 in Hn as [Hn0 Hn]. unfold guard_ret in Hp.
  destruct (count <=? n) eqn:Hc; [done|]. rewrite ret_bind in Hp. reify_bools.
  destruct reached; last first.
  { destruct (IH S S') as (? & ? & Hj & ?); try done. repeat split; try done.
    intros j Hj'. apply Hj. simpl in Hj'. tauto. }
  apply bind_Ret in Hp as (st & Hget & Hp). apply arr_get_Some in Hget as [_ Hget].
  apply bind_Ret in Hp as (S1 & Hset & Hp).
  assert (Hlen : (Z.to_nat n < length S)%nat) by (by apply lookup_lt_Some in Hget).
  rewrite arr_set_Ret in Hset by lia. injection Hset as <-.
  assert (Hst : entry st) by (by eapply Forall_lookup_1).
  set (st1 := if st =? UNREACHED then mask else Z.land st mask) in *.
  assert (live st1 /\ mask_sub st1 mask /\ shrink st st1) as (Hl1 & Hm1 & Hs1).
  { subst st1. unfold entry, shrink, live, UNREACHED in *. destruct (st =? 0x10000) eqn:?; reify_bools.
    - repeat split; try lia; try reflexivity.
    - destruct Hst as [|Hst]; [done|]. pose proof (land_live st mask Hst ltac:(lia)).
      repeat split; try tauto; auto with masks. }
  destruct (IH (<[Z.to_nat n:=st1]> S) S') as (He & Hb & Hj & Hr); try done.
  { apply Forall_insert; [done|by right]. }
  assert (Hb1 : below S (<[Z.to_nat n:=st1]> S)).
  { apply Forall2_same_length_lookup_2; [by rewrite length_insert|]. intros i a b Ha Hb'.
    destruct (decide (i = Z.to_nat n)) as [->|].
    - rewrite list_lookup_insert_eq in Hb' by done. by simplify_eq.
    - rewrite list_lookup_insert_ne in Hb' by done. by simplify_eq. }
  repeat split; try done.
  - by etransitivity.
  - intros j Hj'. simpl in Hj'. rewrite Hj by tauto. apply list_lookup_insert_ne. tauto.
  - intros _. constructor; [|by apply Hr]. eapply reaches_below; [exact Hb|].
    split; [done|]. exists st1. rewrite list_lookup_insert_eq by done. done.
Qed.

(** Branch targets are strictly forward and the new mask has 16 bits. *)
Definition wf_insn (p : sc_instruction) : Prop :=
  0 <= code p < 2 ^ 16 /\ 0 <= jt p < 2 ^ 8 /\ 0 <= jf p < 2 ^ 8 /\ 0 <= k p < 2 ^ 32.

Lemma verify_insn_forward count i p reached mask mask' next :
  wf_insn p -> 0 <= i -> 0 <= mask < 0x10000 -> verify_insn count i p reached mask = Ret (mask', next) ->
  Forall (fun n => i < n) next /\ 0 <= mask' < 0x10000.
Proof.
  intros (_ & ? & ? & ?) Hi Hm. unfold verify_insn, guard_ret.
  repeat (match goal with |- context [if ?b then _ else _] => destruct b eqn:? end;
          rewrite ?ret_bind); intros Hv; simplify_eq/=; reify_bools;
    (split; [repeat constructor; lia|try done]).
  apply lor_live; [done|]. unfold bit. rewrite Z.shiftl_1_l.
  split; [lia|]. change 0x10000 with (2 ^ 16). apply Z.pow_lt_mono_r; lia.
Qed.

Lemma verify_loop_spec count : forall rest i S S',
  Forall wf_insn rest -> 0 <= i -> Forall entry S ->
  verify_loop count i rest S = Ret S' ->
  below S S' /\ (forall j, 0 <= j <= i -> S' !! Z.to_nat j = S !! Z.to_nat j) /\
  (forall n p, rest !! n = Some p -> checked count S' (i + Z.of_nat n) p).
Proof.
  induction rest as [|p rest IH]; intros i S S' Hwf Hi HS Hv; cbn [verify_loop] in Hv.
  { simplify_eq. split; [reflexivity|]. by split. }
  apply Forall_cons_1 in Hwf as [Hp Hwf].
  apply bind_Ret in Hv as (st & Hget & Hv). apply arr_get_Some in Hget as [_ Hget].
  apply bind_Ret in Hv as ([mask next] & Hver & Hv).
  apply bind_Ret in Hv as (S1 & Hprop & Hv).
  assert (Hmask : 0 <= Z.land st 0xffff < 0x10000).
  { rewrite Z.land_comm. apply land_live; [lia|]. assert (entry st) by (by eapply Forall_lookup_1).
    unfold entry, live, UNREACHED in *. lia. }
  destruct (verify_insn_forward _ _ _ _ _ _ _ Hp Hi Hmask Hver) as [Hfwd Hm'].
  destruct (propagate_spec _ _ _ _ _ _ ltac:(eapply Forall_impl; [|exact Hfwd]; simpl; lia) Hm' HS Hprop)
    as (He1 & Hb1 & Hj1 & Hr1).
  destruct (IH (i + 1) S1 S' Hwf ltac:(lia) He1 Hv) as (Hb & Hj & Hc).
  assert (Hkeep : forall j, 0 <= j <= i -> S1 !! Z.to_nat j = S !! Z.to_nat j).
  { intros j Hj0. apply Hj1. rewrite in_map_iff. intros (n & Hn & Hin).
    rewrite Forall_forall in Hfwd. specialize (Hfwd n Hin). lia. }
  split; [by etransitivity|]. split.
  { intros j Hj0. rewrite Hj by lia. by apply Hkeep. }
  intros [|n] q Hq; simpl in Hq.
  - simplify_eq. rewrite Z.add_0_r. intros st' Hst' Hl.
    rewrite Hj, Hkeep, Hget in Hst' by lia. simplify_eq.
    rewrite live_land_ffff in Hver by done.
    assert (st' =? UNREACHED = false) as Hne by (unfold live in Hl; apply Z.eqb_neq; lia).
    rewrite Hne in Hver, Hr1. exists mask, next. split; [done|].
    eapply Forall_impl; [|by apply Hr1]. intros m. by apply reaches_below.
  - replace (i + Z.of_nat (Datatypes.S n)) with (i + 1 + Z.of_nat n) by lia. by apply Hc.
Qed.

(** ** Two runs that differ in uninitialised scratch words only *)

Definition agree (mask : Z) (l1 l2 : list Z) : Prop :=
  length l1 = 16%nat /\ length l2 = 16%nat /\
  forall n, 0 <= n < 16 -> Z.testbit mask n = true -> l1 !! Z.to_nat n = l2 !! Z.to_nat n.

Lemma agree_mono mask mask' l1 l2 : mask_sub mask' mask -> agree mask l1 l2 -> agree mask' l1 l2.
Proof. intros Hs (? & ? & Ha). repeat split; try done. intros n Hn Ht. apply Ha; [done|]. apply Hs; [lia|done]. Qed.

Lemma agree_set mask l1 l2 i v : 0 <= i < 16 -> agree mask l1 l2 ->
  agree (Z.lor mask (bit i)) (<[Z.to_nat i := v]> l1) (<[Z.to_nat i := v]> l2).
Proof.
  intros Hi (H1 & H2 & Ha). repeat split; [by rewrite length_insert..|].
  intros n Hn Ht. destruct (decide (n = i)) as [->|Hne].
  - rewrite !list_lookup_insert_eq by lia. done.
  - rewrite !list_lookup_insert_ne by lia. apply Ha; [done|].
    rewrite Z.lor_spec, testbit_bit in Ht by lia. case_bool_decide; [done|].
    by rewrite orb_false_r in Ht.
Qed.

Lemma agree_get mask l1 l2 i : 0 <= i < 16 -> Z.testbit mask i = true -> agree mask l1 l2 ->
  exists v, arr_get l1 i = Ret v /\ arr_get l2 i = Ret v.
Proof.
  intros Hi Ht (H1 & H2 & Ha). destruct (lookup_lt_is_Some_2 l1 (Z.to_nat i)) as [v Hv]; [lia|].
  exists v. rewrite !arr_get_Some. specialize (Ha i Hi Ht). split; split; (lia || congruence).
Qed.

Definition related (count : Z) (S : list Z) (m1 m2 : machine) : Prop :=
  ra m1 = ra m2 /\ rx m1 = rx m2 /\ pc m1 = pc m2 /\ 0 <= pc m1 < count /\
  exists st, S !! Z.to_nat (pc m1) = Some st /\ live st /\ agree st (mem m1) (mem m2).

(** A run of a verified filter ends in a RET or in a division by zero in X. *)
Definition clean (e : exit_kind) : Prop :=
  match e with ByReturn _ | DivByZero => True | BadCode | PastEnd => False end.

Definition related_results (count : Z) (S : list Z) (m : machine) (r1 r2 : machine + exit_kind)
    : Prop :=
  match r1, r2 with
  | inl m1, inl m2 => pc m < pc m1 /\ related count S m1 m2
  | inr e1, inr e2 => e1 = e2 /\ clean e1
  | _, _ => False
  end.

Definition results_related (count : Z) (S : list Z) (m : machine)
    (o1 o2 : outcome (machine + exit_kind)) : Prop :=
  exists r1 r2, o1 = Ret r1 /\ o2 = Ret r2 /\ related_results count S m r1 r2.

(** Continuing at a verified successor [n] with scratch memories that agree. *)
Lemma continue_related count S mask m a x l1 l2 n pc' :
  count <= 4096 -> 0 <= pc m -> reaches count S mask n -> agree mask l1 l2 ->
  pc m < n -> pc' = n ->
  results_related count S m (Ret (inl (mk_machine a x l1 (u32 pc'))))
                            (Ret (inl (mk_machine a x l2 (u32 pc')))).
Proof.
  intros Hc Hm (Hn & st & Hst & Hl & Hs) Ha Hlt ->. do 2 eexists. repeat (split; [done|]).
  rewrite u32_id by lia. split; [done|]. repeat (split; [done || simpl; lia|]).
  exists st. repeat split; try done; [apply Hl|apply Hl|..]; eapply agree_mono in Ha; try done; apply Ha.
Qed.

Lemma finish_related count S m e : clean e -> results_related count S m (Ret (inr e)) (Ret (inr e)).
Proof. intros. by do 2 eexists. Qed.

Lemma load_u32_ok bs off : 0 <= off -> off + 4 <= Z.of_nat (length bs) ->
  exists w, load_u32 bs off = Ret w.
Proof.
  intros Hoff Hlen. unfold load_u32.
  assert (Hg : forall i, off <= i < off + 4 -> exists b, arr_get bs i = Ret b).
  { intros i Hi. destruct (lookup_lt_is_Some_2 bs (Z.to_nat i)) as [b Hb]; [lia|].
    exists b. apply arr_get_Some. split; [lia|done]. }
  destruct (Hg off) as [? ->]; [lia|]. destruct (Hg (off + 1)) as [? ->]; [lia|].
  destruct (Hg (off + 2)) as [? ->]; [lia|]. destruct (Hg (off + 3)) as [? ->]; [lia|].
  by eexists.
Qed.

Lemma length_le_bytes n z : length (le_bytes n z) = n.
Proof. unfold le_bytes. by rewrite length_map, length_seq. Qed.

Lemma length_sc_data_bytes d : length (args d) = 6%nat -> length (sc_data_bytes d) = 64%nat.
Proof.
  intros Hl. unfold sc_data_bytes. rewrite !length_app, !length_le_bytes.
  enough (forall l : list Z, length (concat (map (le_bytes 8) l)) = (8 * length l)%nat) as -> by lia.
  induction l as [|z l IH]; [done|]. cbn [map concat length].
  rewrite length_app, length_le_bytes, IH. lia.
Qed.

Lemma code_in_In c l : code_in c l = true -> In c l.
Proof.
  unfold code_in. rewrite existsb_exists. intros (y & Hy & He). apply Z.eqb_eq in He. by subst.
Qed.

#[local] Arguments load_u32 : simpl never.
#[local] Arguments arr_get : simpl never.
#[local] Arguments arr_set : simpl never.
#[local] Arguments u32 : simpl never.

(** One instruction keeps two related runs related. *)
Lemma exec_insn_related count S p d m1 m2 :
  count <= 4096 -> wf_insn p -> length (args d) = 6%nat -> checked count S (pc m1) p ->
  related count S m1 m2 ->
  results_related count S m1 (exec_insn p d m1) (exec_insn p d m2).
Proof.
  intros Hcount Hwf Hd Hck (Hra & Hrx & Hpc & Hrange & st & Hst & Hl & Hag).
  destruct (Hck st Hst Hl) as (mask & next & Hv & Hnext). clear Hck Hst.
  destruct Hwf as (_ & Hjt & Hjf & Hk). apply length_sc_data_bytes in Hd.
  unfold exec_insn. revert Hd. generalize (sc_data_bytes d) as bs. intros bs Hd.
  destruct p as [c tjt tjf tk], m1 as [a x l1 i], m2 as [a' x' l2 i']; simpl in *; subst a' x' i'.
  unfold verify_insn in Hv; cbn [code jt jf Seccomp.k] in Hv.
  repeat match type of Hv with
  | (if code_in ?c ?l then _ else _) = _ =>
      destruct (code_in c l) eqn:Hc;
      [apply code_in_In in Hc; simpl in Hc; repeat destruct Hc as [<-|Hc]; try done|clear Hc]
  end; [..|done].
  all: unfold guard_ret in Hv; repeat match type of Hv with
       | context [if ?b then Err _ else _] => destruct b eqn:?; [done|]; rewrite ?ret_bind in Hv
       end; injection Hv as <- <-; cbn [andb] in *; reify_bools.
  all: cbn; rewrite ?Forall_cons_iff in Hnext; destruct_and?.
  all: unfold set_a, set_x, set_mem, jump; cbn [ra rx mem pc].
  all: repeat match goal with
       | |- context [load_u32 ?bs ?o] =>
           destruct (load_u32_ok bs o) as [? ->]; [lia|unfold SC_DATA_SIZE in *; lia|rewrite !ret_bind]
       | H : agree ?mk ?l ?l', Hb : nz (Z.land ?mk (bit ?o)) = true |- context [arr_get ?l ?o] =>
           rewrite nz_bit in Hb by lia;
           destruct (agree_get mk l l' o ltac:(lia) Hb H) as (? & -> & ->); rewrite !ret_bind
       | |- context [arr_set ?l ?o ?v] =>
           rewrite (arr_set_Ret l o v) by (match goal with H : agree _ _ _ |- _ => destruct H as (? & ? & _) end; lia); rewrite !ret_bind
       | |- context [if ?b then _ else _] => destruct b eqn:?; reify_bools
       end.
  all: first [ by apply finish_related
             | match goal with Hr : reaches _ _ _ _ |- _ =>
                 eapply continue_related; [..|eapply Hr|by eauto using agree_set|simpl; lia|lia];
                 simpl; lia
               end ].
Qed.

(** ** Runs of a verified filter *)

Lemma run_loop_related S insn d :
  Z.of_nat (length insn) <= 4096 -> Forall wf_insn insn -> length (args d) = 6%nat ->
  (forall n p, insn !! n = Some p -> checked (Z.of_nat (length insn)) S (Z.of_nat n) p) ->
  forall fuel m1 m2, related (Z.of_nat (length insn)) S m1 m2 ->
    Z.of_nat (length insn) - pc m1 < Z.of_nat fuel ->
  exists e, run_loop fuel insn d m1 = Ret e /\ run_loop fuel insn d m2 = Ret e /\ clean e.
Proof.
  intros Hlen Hwf Hd Hck. induction fuel as [|fuel IH]; intros m1 m2 Hr Hfuel;
    assert (Hr' := Hr); destruct Hr' as (Hra & Hrx & Hpc & Hrange & _); [lia|].
  cbn [run_loop]. rewrite <- Hpc. rewrite (proj2 (Z.ltb_lt _ _)) by lia.
  destruct (lookup_lt_is_Some_2 insn (Z.to_nat (pc m1))) as [p Hp]; [lia|].
  assert (Hg : arr_get insn (pc m1) = Ret p) by (apply arr_get_Some; split; [lia|done]).
  rewrite Hg, !ret_bind.
  specialize (Hck _ _ Hp). rewrite Z2Nat.id in Hck by lia.
  destruct (exec_insn_related _ S p d m1 m2 Hlen ltac:(by eapply Forall_lookup_1) Hd Hck Hr)
    as (r1 & r2 & -> & -> & Hres). rewrite !ret_bind.
  destruct r1 as [m1'|e1], r2 as [m2'|e2]; try done; simpl in Hres.
  - destruct Hres as [Hlt Hrel]. apply IH; [done|lia].
  - destruct Hres as [<- Hcl]. by exists e1.
Qed.

Lemma sc_verify_fixpoint ok insn :
  Forall wf_insn insn -> (1 <= length insn)%nat -> sc_verify ok insn = Ret tt ->
  exists S, (exists st, S !! 0%nat = Some st /\ st = 0) /\
    forall n p, insn !! n = Some p -> checked (Z.of_nat (length insn)) S (Z.of_nat n) p.
Proof.
  intros Hwf Hlen. unfold sc_verify. destruct ok; [|done]. cbn [negb guard_ret]. rewrite ret_bind.
  rewrite arr_set_Ret by (rewrite length_replicate; lia). rewrite ret_bind.
  set (S0 := <[Z.to_nat 0:=0]> (replicate (length insn) UNREACHED)).
  intros Hv. apply bind_Ret in Hv as (S & Hv & _).
  destruct (verify_loop_spec (Z.of_nat (length insn)) insn 0 S0 S Hwf ltac:(lia)
              ltac:(apply Forall_insert; [apply Forall_replicate; by left|right; unfold live, UNREACHED; lia]) Hv)
    as (_ & Hj & Hc).
  exists S. split; [|exact Hc]. exists 0. split; [|done].
  change 0%nat with (Z.to_nat 0). rewrite (Hj 0 ltac:(lia)). apply list_lookup_insert_eq. rewrite length_replicate. lia.
Qed.

Lemma run_verified ok insn d scratch :
  Forall wf_insn insn -> 1 <= Z.of_nat (length insn) <= 4096 -> length (args d) = 6%nat ->
  length scratch = 16%nat -> sc_verify ok insn = Ret tt ->
  exists e, sc_run_from scratch insn d = Ret e /\ clean e /\ sc_run insn d = Ret (exit_value e).
Proof.
  intros Hwf Hlen Hd Hs Hv.
  destruct (sc_verify_fixpoint ok insn Hwf ltac:(lia) Hv) as (S & (st & Hst & ->) & Hck).
  destruct (run_loop_related S insn d ltac:(lia) Hwf Hd Hck (Datatypes.S (length insn))
              (mk_machine 0 0 scratch 0) (mk_machine 0 0 (replicate 16 0) 0)) as (e & H1 & H2 & Hcl).
  - repeat (split; [done || simpl; lia|]). exists 0. split; [done|]. split; [unfold live, UNREACHED; lia|].
    repeat split; try done. intros n _. by rewrite Z.bits_0.
  - simpl. lia.
  - exists e. split; [exact H1|]. split; [done|]. unfold sc_run, sc_run_from. by rewrite H2.
Qed.

(** C17: the verifier is sound. A filter that [sc_verify] accepts runs to a RET
    instruction or to a division by zero in X, on every seccomp data: it never
    leaves the program, never meets an unknown opcode, never indexes the scratch
    memory or the data out of range, and terminates. Its result does not depend
    on the initial contents of the scratch memory: no path reads a scratch word
    that it has not written. *)
Theorem sc_verify_sound ok insn d scratch :
  Forall wf_insn insn -> 1 <= Z.of_nat (length insn) <= 4096 -> length (args d) = 6%nat ->
  length scratch = 16%nat -> sc_verify ok insn = Ret tt ->
  exists e, sc_run_from scratch insn d = Ret e /\ clean e /\ sc_run insn d = Ret (exit_value e).
Proof. apply run_verified. Qed.

Lemma verify_insn_defined count i p reached mask : defined (verify_insn count i p reached mask).
Proof. unfold verify_insn, guard_ret. repeat (case_match; try done). Qed.

Lemma propagate_defined count reached mask next : forall S,
  Forall (fun n => 0 <= n) next -> Z.of_nat (length S) = count ->
  sat (propagate count reached mask next S) (fun S' => Z.of_nat (length S') = count).
Proof.
  induction next as [|n next IH]; intros S Hn HS; cbn [propagate]; [done|].
  apply Forall_cons_1 in Hn as [Hn0 Hn].
  unfold guard_ret. destruct (count <=? n) eqn:?; [done|]. rewrite ret_bind. reify_bools.
  destruct reached; [|by apply IH].
  eapply sat_bind; [apply (sat_arr_get _ _ (fun _ => True)); [lia|done]|]. intros st _.
  rewrite arr_set_Ret by lia. rewrite ret_bind. apply IH; [done|]. by rewrite length_insert.
Qed.

Lemma verify_loop_defined count : forall rest i S,
  Forall wf_insn rest -> 0 <= i -> Forall entry S -> Z.of_nat (length S) = count ->
  i + Z.of_nat (length rest) = count -> defined (verify_loop count i rest S).
Proof.
  induction rest as [|p rest IH]; intros i S Hwf Hi HS Hlen Hc; cbn [verify_loop]; [done|].
  apply Forall_cons_1 in Hwf as [Hp Hwf]. simpl in Hc.
  destruct (lookup_lt_is_Some_2 S (Z.to_nat i)) as [st Hst]; [lia|].
  assert (Hg : arr_get S i = Ret st) by (apply arr_get_Some; split; [lia|done]).
  rewrite Hg, ret_bind.
  assert (Hmask : 0 <= Z.land st 0xffff < 0x10000).
  { rewrite Z.land_comm. apply land_live; [lia|]. assert (entry st) by (by eapply Forall_lookup_1).
    unfold entry, live, UNREACHED in *. lia. }
  pose proof (verify_insn_defined count i p (negb (st =? UNREACHED)) (Z.land st 0xffff)) as Hd.
  destruct (verify_insn _ _ _ _ _) as [[mask next]|e| |] eqn:Hver; try done. rewrite ret_bind.
  destruct (verify_insn_forward _ _ _ _ _ _ _ Hp Hi Hmask Hver) as [Hfwd Hm'].
  assert (Hn : Forall (fun n => 0 <= n) next) by (eapply Forall_impl; [|exact Hfwd]; simpl; lia).
  pose proof (propagate_defined count (negb (st =? UNREACHED)) mask next S Hn Hlen) as Hpd.
  destruct (propagate _ _ _ _ _) as [S1| | |] eqn:Hprop; try done. rewrite ret_bind.
  destruct (propagate_spec _ _ _ _ _ _ Hn Hm' HS Hprop) as (He1 & _). apply IH; try done; lia.
Qed.

Lemma sc_verify_total ok insn :
  Forall wf_insn insn -> (1 <= length insn)%nat -> defined (sc_verify ok insn).
Proof.
  intros Hwf Hlen. unfold sc_verify. destruct ok; [|done]. cbn [negb guard_ret]. rewrite ret_bind.
  rewrite arr_set_Ret by (rewrite length_replicate; lia). rewrite ret_bind.
  assert (Hd : defined (verify_loop (Z.of_nat (length insn)) 0 insn
                          (<[Z.to_nat 0:=0]> (replicate (length insn) UNREACHED)))).
  { apply verify_loop_defined; try done; [|by rewrite length_insert, length_replicate].
    apply Forall_insert; [apply Forall_replicate; by left|right; unfold live, UNREACHED; lia]. }
  destruct (verify_loop _ _ _ _); try done. rewrite ret_bind.
  destruct (lookup_lt_is_Some_2 insn (length insn - 1)) as [p Hp]; [lia|].
  assert (Hg : arr_get insn (Z.of_nat (length insn) - 1) = Ret p).
  { apply arr_get_Some. split; [lia|]. rewrite <- Hp. f_equal. lia. }
  rewrite Hg, ret_bind. unfold guard_ret. by case_match.
Qed.

(** [sc_verify] is memory safe on arbitrary filters supplied by a user: it
    indexes its state array and the program in range, and returns 0 or an error. *)
Theorem sc_verify_defined ok insn :
  Forall wf_insn insn -> (1 <= length insn)%nat -> defined (sc_verify ok insn).
Proof. apply sc_verify_total. Qed.

(** *** Witnesses *)

(** [M[3] = nr; if (nr == 59) return ERRNO|1; A = M[3]; return A] *)
Definition sample_filter : list sc_instruction :=
  [mk_insn 0x20 0 0 0; mk_insn 0x02 0 0 3; mk_insn 0x15 1 0 59; mk_insn 0x05 0 0 1;
   mk_insn 0x06 0 0 0x50001; mk_insn 0x60 0 0 3; mk_insn 0x16 0 0 0].
Definition sample_data : sc_data := mk_data 59 0xc000003e 0x401000 (replicate 6 0).

Lemma sample_filter_wf : Forall wf_insn sample_filter.
Proof. repeat constructor; simpl; lia. Qed.

Lemma sc_verify_sound_witness :
  sc_run sample_filter sample_data = Ret 0x50001 /\
  exists e, sc_run_from (replicate 16 7) sample_filter sample_data = Ret e /\ clean e /\
    sc_run sample_filter sample_data = Ret (exit_value e).
Proof.
  split; [vm_compute; reflexivity|].
  refine (sc_verify_sound true sample_filter sample_data (replicate 16 7) sample_filter_wf _ _ _ _);
    [vm_compute; split; discriminate|reflexivity|reflexivity|vm_compute; reflexivity].
Defined.

Lemma sc_verify_defined_witness : defined (sc_verify true sample_filter).
Proof. refine (sc_verify_defined true sample_filter sample_filter_wf _). simpl. lia. Defined.

(** Reading a scratch word that one path leaves unset is rejected. *)
Example uninitialised_scratch_rejected :
  sc_verify true [mk_insn 0x15 1 0 59; mk_insn 0x02 0 0 3; mk_insn 0x60 0 0 3; mk_insn 0x16 0 0 0]
  = Err (-22).
Proof. vm_compute. reflexivity. Qed.

End Seccomp.
