(* ===== verification/SeccompChain.v ===== *)
(** SeccompChain: reference-counted filter chains, their installation and the
    decision on a system call ([kernel/src/sched/seccomp.c], everything except
    the verifier and the interpreter, which are in [Seccomp]).

    Filters live in a heap indexed by address; dereferencing a freed filter is
    [Fault]. The parts of a function that run under [tid_lock] are definitions
    of their own, so that the step relation below can interleave them with the
    parts that run outside the lock. User memory, the allocator and the pid
    namespace are parameters. *)

From S2P Require Import Prelude Capability Seccomp.

Module SeccompChain.
Import Capability Seccomp.

Definition SC_ALLOW : Z := 0x7fff0000.
Definition SC_ERRNO : Z := 0x00050000.
Definition SC_TRAP : Z := 0x00030000.
Definition SC_KILL_PROCESS : Z := 0x80000000.
Definition SC_MASK : Z := 0xffff0000.
Definition SC_MAX_INSNS : Z := 4096.
Definition SC_MAX_PATH : Z := 32768.

Record seccomp_filter := mk_filter {
  refs : Z; path_cost : Z; prev : option Z; insn : list sc_instruction }.
Notation filters := (gmap Z seccomp_filter).

Inductive thread_state := RUNNING | READY | BLOCKED | SLEEPING | DEAD | ZOMBIE.

(** The fields that the decision on a system call writes. *)
Record sigsys := mk_sigsys {
  deny_pending : bool; pending : bool; trap_data : Z; trap_arch : Z;
  call_addr : Z; call_number : Z; handler30 : Z; signal_mask : Z;
  termination_signal : Z; exit_status : Z }.

(** [mm] is [Some compat32] when the thread has an address space. *)
Record thread := mk_thread {
  tgid : Z; state : thread_state; creds : cred; mm : option bool;
  filter_of : option Z; sig : sigsys }.
Definition set_creds (v : cred) (t : thread) : thread :=
  mk_thread (tgid t) (state t) v (mm t) (filter_of t) (sig t).
Definition set_filter (v : option Z) (t : thread) : thread :=
  mk_thread (tgid t) (state t) (creds t) (mm t) v (sig t).
Definition set_sig (v : sigsys) (t : thread) : thread :=
  mk_thread (tgid t) (state t) (creds t) (mm t) (filter_of t) v.

(** The threads are in the order of [global_thread_list]. *)
Record world := mk_world { heap : filters; threads : list thread }.
Definition set_heap (h : filters) (w : world) : world := mk_world h (threads w).
Definition set_thread (i : nat) (t : thread) (w : world) : world :=
  mk_world (heap w) (<[i := t]> (threads w)).

(** ** Reference counts *)

Definition set_refs (r : Z) (f : seccomp_filter) : seccomp_filter :=
  mk_filter r (path_cost f) (prev f) (insn f).

Definition sc_get (h : filters) (f : option Z) : outcome filters :=
  match f with
  | None => Ret h
  | Some f => x ← deref (h !! f); Ret (<[f := set_refs (u32 (refs x + 1)) x]> h)
  end.

(** Each turn of the loop but the last frees a filter, so [S (size h)] turns
    are enough. *)
Fixpoint sc_put_loop (fuel : nat) (h : filters) (f : option Z) : outcome filters :=
  match f with
  | None => Ret h
  | Some f =>
    match fuel with
    | O => OutOfFuel
    | S fuel =>
      x ← deref (h !! f);
      let r := u32 (refs x - 1) in
      if r =? 0 then sc_put_loop fuel (delete f h) (prev x)
      else Ret (<[f := set_refs r x]> h)
    end
  end.
Definition sc_put (h : filters) (f : option Z) : outcome filters :=
  sc_put_loop (S (size h)) h f.

(** ** seccomp_inherit, seccomp_release_task, seccomp_mode *)

(** Under [tid_lock]; returns the reference that the caller then drops. *)
Definition inherit_locked (w : world) (child parent : nat) : outcome (world * option Z) :=
  c ← deref (threads w !! child);
  p ← deref (threads w !! parent);
  let old := filter_of c in
  let c := set_creds (set_no_new_privs (no_new_privs (creds c) || no_new_privs (creds p)) (creds c)) c in
  let w := set_thread child (set_filter (filter_of p) c) w in
  h ← sc_get (heap w) (filter_of p);
  Ret (set_heap h w, old).
Definition put_held (r : world * option Z) : outcome world :=
  h ← sc_put (heap r.1) r.2; Ret (set_heap h r.1).
Definition seccomp_inherit (w : world) (child parent : nat) : outcome world :=
  inherit_locked w child parent ≫= put_held.

Definition release_locked (w : world) (i : nat) : outcome (world * option Z) :=
  t ← deref (threads w !! i);
  Ret (set_thread i (set_filter None t) w, filter_of t).
Definition seccomp_release_task (w : world) (i : nat) : outcome world :=
  release_locked w i ≫= put_held.

Definition seccomp_mode (t : option thread) : Z :=
  match t with
  | None => 0
  | Some t => match filter_of t with Some _ => 2 | None => 0 end
  end.

(** ** seccomp_control *)

Definition sc_action_supported (action : Z) : bool :=
  (action =? 0) || (action =? SC_KILL_PROCESS) || (action =? SC_TRAP) ||
  (action =? SC_ERRNO) || (action =? SC_ALLOW).

(** A chain has at most [SC_MAX_PATH] filters, as [path_cost] grows along it. *)
Definition CHAIN_FUEL : nat := Z.to_nat SC_MAX_PATH + 1.

(** [while (ancestor && ancestor != t->seccomp_filter) ancestor = ancestor->prev] *)
Fixpoint ancestor_walk (fuel : nat) (h : filters) (a target : option Z) : outcome (option Z) :=
  match a with
  | None => Ret None
  | Some f =>
    if bool_decide (a = target) then Ret a
    else match fuel with
         | O => OutOfFuel
         | S fuel => x ← deref (h !! f); ancestor_walk fuel h (prev x) target
         end
  end.

(** The threads the TSYNC loops do not skip. *)
Definition in_group (g : Z) (t : thread) : bool :=
  negb (negb (tgid t =? g) || match state t with DEAD | ZOMBIE => true | _ => false end).

(** The first TSYNC loop: the position of a thread whose filter is not an
    ancestor of [old]. *)
Fixpoint tsync_conflict (h : filters) (g : Z) (old : option Z) (i : nat) (ts : list thread)
    : outcome (option nat) :=
  match ts with
  | [] => Ret None
  | t :: ts =>
    if in_group g t then
      a ← ancestor_walk CHAIN_FUEL h old (filter_of t);
      match filter_of t, a with
      | Some _, None => Ret (Some i)
      | _, _ => tsync_conflict h g old (S i) ts
      end
    else tsync_conflict h g old (S i) ts
  end.

(** The second TSYNC loop. *)
Fixpoint tsync_apply (h : filters) (g : Z) (f : Z) (nnp : bool) (ts : list thread)
    : outcome (filters * list thread) :=
  match ts with
  | [] => Ret (h, [])
  | t :: ts =>
    if in_group g t then
      let prior := filter_of t in
      h ← sc_get h (Some f);
      let t := set_filter (Some f) t in
      let t := if nnp then set_creds (set_no_new_privs true (creds t)) t else t in
      h ← sc_put h prior;
      '(h, ts) ← tsync_apply h g f nnp ts;
      Ret (h, t :: ts)
    else
      '(h, ts) ← tsync_apply h g f nnp ts;
      Ret (h, t :: ts)
  end.

Section Control.
Variable copy_from_user : Z -> Z -> option (list Z).
Variable pid_namespace_tid : nat -> nat -> Z.

Definition insn_at (bs : list Z) (i : nat) : sc_instruction :=
  let o := 8 * Z.of_nat i in
  mk_insn (le_at bs o 2) (le_at bs (o + 2) 1) (le_at bs (o + 3) 1) (le_at bs (o + 4) 4).
Definition parse_insns (bs : list Z) (count : Z) : list sc_instruction :=
  map (insn_at bs) (seq 0 (Z.to_nat count)).

Definition set_prev (o : option Z) (f : seccomp_filter) : seccomp_filter :=
  mk_filter (refs f) (path_cost f) o (insn f).
Definition set_path_cost (c : Z) (f : seccomp_filter) : seccomp_filter :=
  mk_filter (refs f) c (prev f) (insn f).

(** [sc_put(f); return e;] *)
Definition drop_and_return (w : world) (f : Z) (e : Z) : outcome (Z * world) :=
  h ← sc_put (heap w) (Some f); Ret (e, set_heap h w).

(** Linking and publishing the filter, under the lock, once every check passed. *)
Definition publish (w : world) (cur : nat) (tsync : bool) (f : Z) : outcome world :=
  t ← deref (threads w !! cur);
  let old := filter_of t in
  x ← deref (heap w !! f);
  h ← sc_get (<[f := set_prev old x]> (heap w)) old;
  if tsync then
    '(h, ts) ← tsync_apply h (tgid t) f (no_new_privs (creds t)) (threads w);
    Ret (mk_world h ts)
  else
    h ← sc_get h (Some f);
    h ← sc_put h old;
    Ret (set_thread cur (set_filter (Some f) t) (set_heap h w)).

(** From [spinlock_acquire] to [spinlock_release]: 0 when published, otherwise
    the error; the caller's reference to [f] is dropped after the lock. *)
Definition install_locked (w : world) (cur : nat) (tsync : bool) (f : Z) : outcome (Z * world) :=
  t ← deref (threads w !! cur);
  let old := filter_of t in
  x ← deref (heap w !! f);
  base ← match old with
         | None => Ret 0
         | Some o => y ← deref (heap w !! o); Ret (path_cost y + 4)
         end;
  let cost := u32 (Z.of_nat (length (insn x)) + base) in
  let w := set_heap (<[f := set_path_cost cost x]> (heap w)) w in
  if SC_MAX_PATH <? cost then Ret (-12, w)
  else
    conflict ← (if tsync then tsync_conflict (heap w) (tgid t) old 0 (threads w) else Ret None);
    match conflict with
    | Some i => Ret (pid_namespace_tid cur i, w)
    | None => w ← publish w cur tsync f; Ret (0, w)
    end.

(** [kmalloc_filter] is the address of the allocated filter, [kmalloc_states]
    whether the verifier's allocation succeeds. *)
Definition seccomp_control (kmalloc_filter : option Z) (kmalloc_states : bool)
    (w : world) (current : option nat) (op flags uargs : Z) : outcome (Z * world) :=
  match current with
  | None => Ret (-3, w)
  | Some cur =>
    t ← deref (threads w !! cur);
    if op =? 2 then
      if nz flags then Ret (-22, w)
      else match copy_from_user uargs 4 with
           | None => Ret (-14, w)
           | Some bs => Ret (if sc_action_supported (le_at bs 0 4) then 0 else -95, w)
           end
    else if negb (op =? 1) || nz (Z.land flags 0xfffffffe) then Ret (-22, w)
    else match copy_from_user uargs 2 with
    | None => Ret (-14, w)
    | Some bs =>
      let count := le_at bs 0 2 in
      match (match mm t with
             | Some true => (fun b => le_at b 0 4) <$> copy_from_user (u64 (uargs + 4)) 4
             | _ => (fun b => le_at b 0 8) <$> copy_from_user (u64 (uargs + 8)) 8
             end) with
      | None => Ret (-14, w)
      | Some program =>
        if (count =? 0) || (SC_MAX_INSNS <? count) then Ret (-22, w)
        else
          let '(allowed, c) :=
            if no_new_privs (creds t) then (true, creds t)
            else (has_cap (ensure (creds t)) CAP_SYS_ADMIN, ensure (creds t)) in
          let w := set_thread cur (set_creds c t) w in
          if negb allowed then Ret (-13, w)
          else match kmalloc_filter with
          | None => Ret (-12, w)
          | Some f =>
            match copy_from_user program (count * 8) with
            | None => drop_and_return (set_heap (<[f := mk_filter 1 0 None []]> (heap w)) w) f (-14)
            | Some bs =>
              let code := parse_insns bs count in
              let w := set_heap (<[f := mk_filter 1 0 None code]> (heap w)) w in
              match sc_verify kmalloc_states code with
              | Err e => drop_and_return w f e
              | Ret _ =>
                '(r, w) ← install_locked w cur (nz (Z.land flags 1)) f;
                drop_and_return w f r
              | Fault => Fault
              | OutOfFuel => OutOfFuel
              end
            end
          end
      end
    end
  end.

End Control.

(** ** seccomp_syscall *)

Inductive event :=
| SignalSend (t : nat) (signo : Z)
| TerminateThreadGroup (t : nat)
| ProcessExit (status : Z).

Record regs := mk_regs { rip : Z; rax : Z }.

(** One turn of the loop over the chain. *)
Definition combine (result r : Z) : Z :=
  let r := if sc_action_supported (Z.land r SC_MASK) then r else SC_KILL_PROCESS in
  if s32 (Z.land r SC_MASK) <? s32 (Z.land result SC_MASK) then r else result.

Fixpoint verdict_loop (fuel : nat) (h : filters) (f : option Z) (d : sc_data) (result : Z)
    : outcome Z :=
  match f with
  | None => Ret result
  | Some f =>
    match fuel with
    | O => OutOfFuel
    | S fuel =>
      x ← deref (h !! f);
      r ← sc_run (insn x) d;
      verdict_loop fuel h (prev x) d (combine result r)
    end
  end.

Definition sc_kill (i : nat) (group : bool) (t : thread) : thread * list event :=
  let s := sig t in
  (set_sig (mk_sigsys (deny_pending s) (pending s) (trap_data s) (trap_arch s) (call_addr s)
              (call_number s) (handler30 s) (signal_mask s) 31 159) t,
   (if group then [TerminateThreadGroup i] else []) ++ [ProcessExit 159]).

(** The switch on the combined result. *)
Definition act (i : nat) (t : thread) (r : regs) (nr arch result : Z)
    : bool * regs * thread * list event :=
  let action := Z.land result SC_MASK in
  let s := sig t in
  if action =? SC_ALLOW then (true, r, t, [])
  else if action =? SC_ERRNO then
    let error := Z.land result 0xffff in
    let error := if 4095 <? error then 4095 else error in
    (false, mk_regs (rip r) (u64 (- error)),
     set_sig (mk_sigsys true (pending s) (trap_data s) (trap_arch s) (call_addr s)
                (call_number s) (handler30 s) (signal_mask s) (termination_signal s) (exit_status s)) t,
     [])
  else if action =? SC_TRAP then
    (false, r,
     set_sig (mk_sigsys (deny_pending s) true (Z.land result 0xffff) arch (rip r) (s32 nr)
                (if handler30 s =? 1 then 0 else handler30 s)
                (Z.land (signal_mask s) (UINT64_MAX - bit 30))
                (termination_signal s) (exit_status s)) t,
     [SignalSend i 31])
  else if action =? 0 then let '(t, ev) := sc_kill i false t in (false, r, t, ev)
  else let '(t, ev) := sc_kill i true t in (false, r, t, ev).

(** The locked prologue pins the head of the chain. *)
Definition syscall_pin (w : world) (i : nat) : outcome (world * option Z) :=
  t ← deref (threads w !! i);
  h ← sc_get (heap w) (filter_of t);
  Ret (set_heap h w, filter_of t).

Definition seccomp_syscall (w : world) (i : option nat) (r : regs) (nr arch : Z) (args : list Z)
    : outcome (bool * regs * world * list event) :=
  match i with
  | None => Ret (true, r, w, [])
  | Some i =>
    t ← deref (threads w !! i);
    match filter_of t with
    | None => Ret (true, r, w, [])
    | Some _ =>
      '(w, head) ← syscall_pin w i;
      result ← verdict_loop CHAIN_FUEL (heap w) head (mk_data nr arch (rip r) args) SC_ALLOW;
      w ← put_held (w, head);
      let '(ok, r, t, ev) := act i t r nr arch result in
      Ret (ok, r, set_thread i t w, ev)
    end
  end.

(** ** Reference counting *)

Definition olist (o : option Z) : list Z := match o with Some f => [f] | None => [] end.

(** The filters of [h] whose [prev] is [g]. *)
Definition prevs (h : filters) (g : Z) : nat :=
  size (filter (fun kv => prev kv.2 = Some g) h).
Definition points (x : seccomp_filter) (g : Z) : nat :=
  if decide (prev x = Some g) then 1%nat else 0%nat.

(** [refs] counts the holders outside the heap, listed in [H], and the filters
    linked to it; links go to live filters of lower cost. *)
Record heap_inv (h : filters) (H : list Z) : Prop := {
  hi_refs : forall f x, h !! f = Some x ->
    refs x = Z.of_nat (count_occ Z.eq_dec H f + prevs h f) /\ 1 <= refs x;
  hi_held : forall f, In f H -> is_Some (h !! f);
  hi_prev : forall f x p, h !! f = Some x -> prev x = Some p ->
    0 < path_cost x <= SC_MAX_PATH /\
    exists y, h !! p = Some y /\ 0 <= path_cost y < path_cost x }.

(** Fewer holders than a 32-bit counter can count. *)
Definition room (h : filters) (H : list Z) : Prop := Z.of_nat (length H + size h) < 2 ^ 32.

(** The same filters up to their counters, and a part of them. *)
Definition sub_heap (h' h : filters) : Prop :=
  forall f x', h' !! f = Some x' -> exists x, h !! f = Some x /\ set_refs 0 x' = set_refs 0 x.

#[local] Instance sub_heap_refl : Reflexive sub_heap.
Proof. intros h f x Hx. by exists x. Qed.
#[local] Instance sub_heap_trans : Transitive sub_heap.
Proof.
  intros a b c Hab Hbc f x Hx. destruct (Hab f x Hx) as (y & Hy & E1).
  destruct (Hbc f y Hy) as (z & Hz & E2). exists z. split; congruence.
Qed.

Lemma prevs_insert f x h g : prevs (<[f := x]> h) g = (points x g + prevs (delete f h) g)%nat.
Proof.
  unfold prevs, points. rewrite <- insert_delete_eq. destruct (decide (prev x = Some g)) as [E|E].
  - rewrite map_filter_insert_True by done. rewrite map_size_insert_None; [done|].
    apply map_lookup_filter_None. left. apply lookup_delete_eq.
  - rewrite map_filter_insert_not' by (try done; intros y; by rewrite lookup_delete_eq). done.
Qed.

Lemma prevs_delete f x h g : h !! f = Some x -> prevs h g = (points x g + prevs (delete f h) g)%nat.
Proof. intros Hf. rewrite <- (insert_id h f x) at 1 by done. apply prevs_insert. Qed.

Lemma prevs_update f x x' h g : h !! f = Some x -> prev x' = prev x ->
  prevs (<[f := x']> h) g = prevs h g.
Proof.
  intros Hf Hp. rewrite prevs_insert, (prevs_delete f x h g Hf). unfold points. by rewrite Hp.
Qed.

Lemma prevs_le_size h g : (prevs h g <= size h)%nat.
Proof. unfold prevs. apply map_subseteq_size, map_filter_subseteq. Qed.

Lemma prevs_pos h g : (0 < prevs h g)%nat -> exists f x, h !! f = Some x /\ prev x = Some g.
Proof.
  unfold prevs. intros Hp. destruct (map_choose (filter (fun kv => prev kv.2 = Some g) h)) as (f & x & Hfx).
  { intros E. rewrite E, map_size_empty in Hp. lia. }
  apply map_lookup_filter_Some in Hfx as [? ?]. eauto.
Qed.

Lemma heap_inv_perm h H H' : H ≡ₚ H' -> heap_inv h H -> heap_inv h H'.
Proof.
  intros Hp [Hr Hh Hv]. split; [|intros f Hf; apply Hh; by rewrite Hp|done].
  intros f x Hx. rewrite <- (proj1 (Permutation_count_occ Z.eq_dec H H') Hp f). by apply Hr.
Qed.

Lemma room_perm h H H' : H ≡ₚ H' -> room h H -> room h H'.
Proof. intros Hp. unfold room. by rewrite Hp. Qed.

#[local] Instance heap_inv_proper h : Proper (Permutation ==> iff) (heap_inv h).
Proof. intros H H' Hp. split; apply heap_inv_perm; [done|by symmetry]. Qed.

Lemma refs_bound h H f x : heap_inv h H -> room h H -> h !! f = Some x -> 1 <= refs x < 2 ^ 32.
Proof.
  intros Hi Hr Hx. destruct (hi_refs h H Hi f x Hx) as [E ?]. unfold room in Hr.
  pose proof (count_occ_bound Z.eq_dec f H). pose proof (prevs_le_size h f). lia.
Qed.

(** Updating a counter. *)
Lemma heap_inv_set_refs h H H' f x r :
  heap_inv h H -> h !! f = Some x -> 1 <= r ->
  r = Z.of_nat (count_occ Z.eq_dec H' f + prevs h f) ->
  (forall g, g <> f -> count_occ Z.eq_dec H' g = count_occ Z.eq_dec H g) ->
  heap_inv (<[f := set_refs r x]> h) H'.
Proof.
  intros Hi Hx Hr1 Hr Hc. split.
  - intros g y Hy. rewrite (prevs_update f x) by done. destruct (decide (g = f)) as [->|Hne].
    + rewrite lookup_insert_eq in Hy. injection Hy as <-. done.
    + rewrite lookup_insert_ne in Hy by done. rewrite Hc by done. by apply (hi_refs h H Hi).
  - intros g Hg. destruct (decide (g = f)) as [->|Hne]; [rewrite lookup_insert_eq; by eexists|].
    rewrite lookup_insert_ne by done. apply (hi_held h H Hi).
    apply (count_occ_In Z.eq_dec). rewrite <- Hc by done. by apply count_occ_In.
  - intros g y p Hy Hp.
    assert (exists y', h !! g = Some y' /\ prev y' = Some p /\ path_cost y' = path_cost y) as (y' & Hy' & Hp' & <-).
    { destruct (decide (g = f)) as [->|Hne].
      - rewrite lookup_insert_eq in Hy. injection Hy as <-. by exists x.
      - rewrite lookup_insert_ne in Hy by done. by exists y. }
    destruct (hi_prev h H Hi g y' p Hy' Hp') as [? (z & Hz & ?)]. split; [done|].
    destruct (decide (p = f)) as [->|]; [|exists z; by rewrite lookup_insert_ne].
    rewrite lookup_insert_eq. eexists. split; [done|]. simpl. by simplify_eq.
Qed.

Lemma sub_heap_set_refs h f x r : h !! f = Some x -> sub_heap (<[f := set_refs r x]> h) h.
Proof.
  intros Hx g y Hy. destruct (decide (g = f)) as [->|].
  - rewrite lookup_insert_eq in Hy. injection Hy as <-. by exists x.
  - rewrite lookup_insert_ne in Hy by done. by exists y.
Qed.

Lemma sc_get_inv h H f x :
  heap_inv h H -> room h (f :: H) -> h !! f = Some x ->
  sc_get h (Some f) = Ret (<[f := set_refs (refs x + 1) x]> h) /\
  heap_inv (<[f := set_refs (refs x + 1) x]> h) (f :: H).
Proof.
  intros Hi Hr Hx. unfold sc_get. rewrite Hx. cbn [deref]. rewrite ret_bind.
  destruct (hi_refs h H Hi f x Hx) as [E ?].
  pose proof (count_occ_bound Z.eq_dec f H). pose proof (prevs_le_size h f).
  unfold room in Hr. simpl in Hr. rewrite u32_id by lia. split; [done|].
  apply (heap_inv_set_refs h H); try done; [lia|rewrite count_occ_cons_eq by done; lia|].
  intros g Hg. by rewrite count_occ_cons_neq.
Qed.

(** Freeing a filter whose last reference was the one in flight. *)
Lemma heap_inv_free h H f x :
  heap_inv h (f :: H) -> h !! f = Some x -> refs x = 1 -> heap_inv (delete f h) (olist (prev x) ++ H).
Proof.
  intros Hi Hx Hone. destruct (hi_refs _ _ Hi f x Hx) as [E _].
  rewrite Hone, count_occ_cons_eq in E by done.
  assert (HfH : ~ In f H) by (rewrite (count_occ_not_In Z.eq_dec); lia).
  assert (Hfp : forall g y, h !! g = Some y -> prev y <> Some f).
  { intros g y Hy Hp. pose proof (prevs_delete g y h f Hy). unfold points in *.
    rewrite decide_True in * by done. lia. }
  split.
  - intros g y Hy. apply lookup_delete_Some in Hy as [Hne Hy].
    destruct (hi_refs _ _ Hi g y Hy) as [Eg ?]. split; [|done]. rewrite Eg.
    rewrite count_occ_cons_neq, count_occ_app by done. rewrite (prevs_delete f x h g Hx).
    unfold points, olist. destruct (prev x) as [p|]; simpl; repeat case_decide; simplify_eq;
      repeat destruct (Z.eq_dec _ _); lia || congruence.
  - intros g Hg. apply in_app_iff in Hg as [Hg|Hg].
    + unfold olist in Hg. destruct (prev x) as [p|] eqn:Hp; [|done]. destruct Hg as [<-|[]].
      destruct (hi_prev _ _ Hi f x p Hx Hp) as [_ (z & Hz & Hlt)]. exists z.
      rewrite lookup_delete_ne; [done|]. intros <-. simplify_eq. lia.
    + rewrite lookup_delete_ne by (by intros <-). apply (hi_held _ _ Hi). by right.
  - intros g y p Hy Hp. apply lookup_delete_Some in Hy as [Hne Hy].
    destruct (hi_prev _ _ Hi g y p Hy Hp) as [? (z & Hz & ?)]. split; [done|]. exists z.
    rewrite lookup_delete_ne; [done|]. intros <-. exact (Hfp _ _ Hy Hp).
Qed.

Lemma sub_heap_delete h f : sub_heap (delete f h) h.
Proof. intros g x Hx. apply lookup_delete_Some in Hx as [_ Hx]. by exists x. Qed.

Lemma sc_put_loop_inv fuel : forall h H f,
  heap_inv h (olist f ++ H) -> room h (olist f ++ H) -> (size h < fuel)%nat ->
  exists h', sc_put_loop fuel h f = Ret h' /\ heap_inv h' H /\ sub_heap h' h /\ (size h' <= size h)%nat.
Proof.
  induction fuel as [|fuel IH]; intros h H f Hi Hr Hf; [lia|].
  destruct f as [f|]; [|exists h; simpl; split; [done|]; split; [done|]; split; [reflexivity|lia]].
  cbn [sc_put_loop]. destruct (hi_held _ _ Hi f) as [x Hx]; [by left|].
  rewrite Hx. cbn [deref]. rewrite ret_bind.
  pose proof (refs_bound _ _ _ _ Hi Hr Hx). rewrite u32_id by lia.
  destruct (refs x - 1 =? 0) eqn:Hz; reify_bools.
  - pose proof (heap_inv_free h H f x Hi Hx ltac:(lia)) as Hi'.
    assert (Hsz : size h = S (size (delete f h))).
    { rewrite <- (insert_id h f x) at 1 by done. rewrite <- insert_delete_eq.
      apply map_size_insert_None, lookup_delete_eq. }
    destruct (IH (delete f h) H (prev x) Hi') as (h' & E & ? & Hs & ?).
    + unfold room in *. rewrite length_app in *. destruct (prev x); simpl in *; lia.
    + lia.
    + exists h'. do 2 (split; [done|]). split; [|lia]. etransitivity; [exact Hs|]. apply sub_heap_delete.
  - eexists. split; [done|]. split; [|split; [by apply sub_heap_set_refs|]].
    + destruct (hi_refs _ _ Hi f x Hx) as [E ?]. cbn [olist app] in *.
      rewrite count_occ_cons_eq in E by done.
      apply (heap_inv_set_refs h (f :: H)); try done; [lia|lia|].
      intros g Hg. by rewrite count_occ_cons_neq.
    + rewrite map_size_insert_Some by (by eexists). done.
Qed.

(** Dropping a reference never faults, frees exactly the filters that become
    unreferenced, and leaves the counters exact. *)
Lemma sc_put_inv h H f :
  heap_inv h (olist f ++ H) -> room h (olist f ++ H) ->
  exists h', sc_put h f = Ret h' /\ heap_inv h' H /\ sub_heap h' h /\ (size h' <= size h)%nat.
Proof. intros. apply sc_put_loop_inv; [done..|lia]. Qed.

(** ** Chains *)

(** The filters of a chain from its head, with their programs. *)
Inductive is_chain (h : filters) : option Z -> list (Z * list sc_instruction) -> Prop :=
| chain_nil : is_chain h None []
| chain_cons f x l : h !! f = Some x -> is_chain h (prev x) l ->
    is_chain h (Some f) ((f, insn x) :: l).
#[local] Hint Constructors is_chain : core.

Lemma is_chain_det h o l1 : is_chain h o l1 -> forall l2, is_chain h o l2 -> l1 = l2.
Proof.
  induction 1 as [|f x l Hx _ IH]; intros l2 H2; inversion H2; subst; [done|].
  simplify_eq. f_equal. by apply IH.
Qed.

Lemma is_chain_sub h' h o l : sub_heap h' h -> is_chain h' o l -> is_chain h o l.
Proof.
  intros Hs. induction 1 as [|f x l Hx _ IH]; [constructor|].
  destruct (Hs f x Hx) as (y & Hy & E). injection E as _ Hp Hn. rewrite Hn.
  apply chain_cons; [done|]. by rewrite <- Hp.
Qed.

(** [n] turns are enough to walk the chain from [o]. *)
Definition fits (n : nat) (h : filters) (o : option Z) : Prop :=
  forall f, o = Some f -> exists x, h !! f = Some x /\ (1 <= n)%nat /\
    (prev x = None \/ 0 <= path_cost x < Z.of_nat n).

Lemma fits_next n h H f x : heap_inv h H -> fits (S n) h (Some f) -> h !! f = Some x -> fits n h (prev x).
Proof.
  intros Hi Hf Hx p Hp. destruct (Hf f eq_refl) as (x' & Hx' & _ & Hc).
  rewrite Hx in Hx'. injection Hx' as <-. destruct (hi_prev _ _ Hi f x p Hx Hp) as [? (y & Hy & ?)]. exists y.
  destruct Hc as [|Hc]; [congruence|]. split; [done|]. split; [lia|]. right. lia.
Qed.

Lemma fits_held h H f : heap_inv h H -> In f H -> fits CHAIN_FUEL h (Some f).
Proof.
  intros Hi Hf g [= <-]. destruct (hi_held _ _ Hi f Hf) as [x Hx]. exists x.
  split; [done|]. split; [unfold CHAIN_FUEL; lia|].
  destruct (prev x) as [p|] eqn:Hp; [right|by left].
  destruct (hi_prev _ _ Hi f x p Hx Hp). unfold CHAIN_FUEL. lia.
Qed.

Lemma is_chain_exists n : forall h H o, heap_inv h H -> fits n h o -> exists l, is_chain h o l.
Proof.
  induction n as [|n IH]; intros h H [f|] Hi Hf; [|by exists []| |by exists []];
    destruct (Hf f eq_refl) as (x & Hx & ? & _); [lia|].
  destruct (IH h H (prev x) Hi) as [l Hl]; [by eapply fits_next|]. eauto.
Qed.

Lemma held_chain h H f : heap_inv h H -> In f H -> exists l, is_chain h (Some f) l.
Proof. intros Hi Hf. eapply is_chain_exists; [done|by eapply fits_held]. Qed.

(** Between two heaps one of which is a part of the other, a head that is still
    held keeps its chain. *)
Lemma held_chain_kept h h' H' f l :
  heap_inv h' H' -> sub_heap h' h -> In f H' -> is_chain h (Some f) l -> is_chain h' (Some f) l.
Proof.
  intros Hi Hs Hf Hl. destruct (held_chain _ _ _ Hi Hf) as [l' Hl'].
  by rewrite (is_chain_det _ _ _ Hl l' (is_chain_sub _ _ _ _ Hs Hl')).
Qed.

Lemma ancestor_walk_spec fuel : forall h H a target l, heap_inv h H -> fits fuel h a ->
  is_chain h a l ->
  exists r, ancestor_walk fuel h a target = Ret r /\
    (forall f, r = Some f -> target = Some f /\ exists l1 l2, l = l1 ++ l2 /\ is_chain h (Some f) l2).
Proof.
  induction fuel as [|fuel IH]; intros h H [f|] target l Hi Hf Hl; cbn [ancestor_walk].
  1,2,4: try by exists None.
  { destruct (Hf f eq_refl) as (x & Hx & ? & _). lia. }
  destruct (Hf f eq_refl) as (x & Hx & _ & _). case_bool_decide as E.
  - exists (Some f). split; [done|]. intros g [= <-]. split; [done|]. by exists [], l.
  - rewrite Hx. cbn [deref]. rewrite ret_bind. inversion Hl as [|? x' l' Hx' Hl']. subst.
    rewrite Hx in Hx'. injection Hx' as <-. destruct (IH h H (prev x) target l' Hi) as (r & -> & Hr); [by eapply fits_next|done|].
    exists r. split; [done|]. intros g ->. destruct (Hr g eq_refl) as (? & l1 & l2 & -> & ?).
    split; [done|]. by exists ((f, insn x) :: l1), l2.
Qed.

Lemma is_chain_unlinked h f x o l :
  (forall g y, h !! g = Some y -> prev y <> Some f) -> o <> Some f ->
  is_chain (<[f := x]> h) o l -> is_chain h o l.
Proof.
  intros Hn Ho Hl. induction Hl as [|g y l Hg _ IH]; [constructor|].
  rewrite lookup_insert_ne in Hg by congruence. constructor; [done|]. apply IH. by eapply Hn.
Qed.

Lemma is_chain_sub_delete h' h f o l :
  sub_heap (delete f h') h -> (forall g y, h !! g = Some y -> prev y <> Some f) -> o <> Some f ->
  is_chain h' o l -> is_chain h o l.
Proof.
  intros Hsub Hn Ho Hl. induction Hl as [|q y l Hq _ IH]; [constructor|].
  destruct (Hsub q y) as (y0 & Hy0 & Ey); [rewrite lookup_delete_ne; congruence|].
  injection Ey as _ Ep En. rewrite En. constructor; [done|]. rewrite <- Ep. apply IH.
  rewrite Ep. by eapply Hn.
Qed.

(** ** Updates of a heap *)

Lemma heap_inv_set_cost h H f x c :
  heap_inv h H -> h !! f = Some x -> prev x = None -> prevs h f = 0%nat ->
  heap_inv (<[f := set_path_cost c x]> h) H.
Proof.
  intros Hi Hx Hp H0.
  assert (Hold : forall g y, g <> f -> <[f := set_path_cost c x]> h !! g = Some y -> h !! g = Some y).
  { intros g y Hne. by rewrite lookup_insert_ne. }
  split.
  - intros g y Hy. rewrite (prevs_update f x) by done. destruct (decide (g = f)) as [->|Hne].
    + rewrite lookup_insert_eq in Hy. injection Hy as <-. simpl. by apply (hi_refs _ _ Hi).
    + by apply (hi_refs _ _ Hi), Hold.
  - intros g Hg. destruct (decide (g = f)) as [->|]; [rewrite lookup_insert_eq; by eexists|].
    rewrite lookup_insert_ne by done. by apply (hi_held _ _ Hi).
  - intros g y p Hy Hpy. destruct (decide (g = f)) as [->|Hne].
    { rewrite lookup_insert_eq in Hy. injection Hy as <-. simpl in Hpy. congruence. }
    apply Hold in Hy; [|done]. destruct (hi_prev _ _ Hi g y p Hy Hpy) as [? (z & Hz & ?)]. split; [done|].
    exists z. rewrite lookup_insert_ne; [done|]. intros <-.
    pose proof (prevs_delete g y h f Hy) as Hd. unfold points in Hd. rewrite decide_True in Hd by done. lia.
Qed.

(** Linking [f] to [o] consumes a reference to [o]. *)
Lemma heap_inv_link h H f x o y :
  heap_inv h (o :: H) -> h !! f = Some x -> prev x = None -> h !! o = Some y ->
  0 <= path_cost y < path_cost x -> path_cost x <= SC_MAX_PATH ->
  heap_inv (<[f := set_prev (Some o) x]> h) H.
Proof.
  intros Hi Hx Hp Hy Hc Hm.
  assert (Hpv : forall g, prevs (<[f := set_prev (Some o) x]> h) g =
                          ((if decide (g = o) then 1 else 0) + prevs h g)%nat).
  { intros g. rewrite prevs_insert, (prevs_delete f x h g Hx). unfold points. rewrite Hp. simpl.
    repeat case_decide; simplify_eq; lia || congruence. }
  split.
  - intros g z Hz. rewrite Hpv.
    assert (exists z', h !! g = Some z' /\ refs z' = refs z) as (z' & Hz' & <-).
    { destruct (decide (g = f)) as [->|].
      - rewrite lookup_insert_eq in Hz. injection Hz as <-. by exists x.
      - rewrite lookup_insert_ne in Hz by done. by exists z. }
    destruct (hi_refs _ _ Hi g z' Hz') as [E ?]. split; [|done]. rewrite E. simpl.
    destruct (Z.eq_dec o g), (decide (g = o)); lia || congruence.
  - intros g Hg. destruct (decide (g = f)) as [->|]; [rewrite lookup_insert_eq; by eexists|].
    rewrite lookup_insert_ne by done. apply (hi_held _ _ Hi). by right.
  - intros g z p Hz Hpz.
    assert (Hkeep : forall q w, h !! q = Some w ->
              exists w', <[f := set_prev (Some o) x]> h !! q = Some w' /\ path_cost w' = path_cost w).
    { intros q w Hq. destruct (decide (q = f)) as [->|].
      - rewrite lookup_insert_eq. simplify_eq. by eexists.
      - rewrite lookup_insert_ne by done. by exists w. }
    destruct (decide (g = f)) as [->|].
    + rewrite lookup_insert_eq in Hz. injection Hz as <-. simpl in *. simplify_eq.
      destruct (Hkeep _ _ Hy) as (w' & ? & E). split; [lia|]. exists w'. by rewrite E.
    + rewrite lookup_insert_ne in Hz by done. destruct (hi_prev _ _ Hi g z p Hz Hpz) as [? (w & Hw & ?)].
      split; [done|]. destruct (Hkeep _ _ Hw) as (w' & ? & E). exists w'. by rewrite E.
Qed.

(** A newly allocated filter. *)
Lemma heap_inv_alloc h H f code :
  heap_inv h H -> h !! f = None -> heap_inv (<[f := mk_filter 1 0 None code]> h) (f :: H).
Proof.
  intros Hi Hf.
  assert (Hnp : forall g y, h !! g = Some y -> prev y <> Some f).
  { intros g y Hy Hp. destruct (hi_prev _ _ Hi g y f Hy Hp) as [_ (z & Hz & _)]. congruence. }
  assert (HfH : ~ In f H) by (intros Hin; destruct (hi_held _ _ Hi f Hin); congruence).
  assert (Hpv : forall g, prevs (<[f := mk_filter 1 0 None code]> h) g = prevs h g).
  { intros g. rewrite prevs_insert, delete_id by done. done. }
  split.
  - intros g y Hy. rewrite Hpv. destruct (decide (g = f)) as [->|Hne].
    + rewrite lookup_insert_eq in Hy. injection Hy as <-. simpl.
      destruct (Z.eq_dec f f); [|done]. rewrite (proj1 (count_occ_not_In Z.eq_dec H f)) by done.
      destruct (prevs h f) eqn:E; [lia|]. destruct (prevs_pos h f) as (g & y & Hy & Hp); [lia|].
      by destruct (Hnp g y Hy).
    + rewrite lookup_insert_ne in Hy by done. rewrite count_occ_cons_neq by done.
      by apply (hi_refs _ _ Hi).
  - intros g Hg. destruct (decide (g = f)) as [->|]; [rewrite lookup_insert_eq; by eexists|].
    rewrite lookup_insert_ne by done. apply (hi_held _ _ Hi). simpl in Hg. naive_solver.
  - intros g y p Hy Hp. destruct (decide (g = f)) as [->|].
    { rewrite lookup_insert_eq in Hy. injection Hy as <-. done. }
    rewrite lookup_insert_ne in Hy by done. destruct (hi_prev _ _ Hi g y p Hy Hp) as [? (z & Hz & ?)].
    split; [done|]. exists z. rewrite lookup_insert_ne; [done|]. intros <-. congruence.
Qed.

(** ** The system as interleaved atomic steps

    Besides the world, a state has the references that running kernel code
    holds in local variables: [held] (a pinned chain, or an old chain about to
    be dropped) and [priv] (verified filters that are not yet published). *)

Record sys := mk_sys { sw : world; held : list Z; priv : list Z }.
Definition holders (s : sys) : list Z := omap filter_of (threads (sw s)) ++ held s ++ priv s.

Definition code_ok (c : list sc_instruction) : Prop :=
  Forall wf_insn c /\ 1 <= Z.of_nat (length c) <= SC_MAX_INSNS /\ exists ok, sc_verify ok c = Ret tt.

Inductive step : sys -> sys -> Prop :=
| st_inherit w w' hd pv c p old : inherit_locked w c p = Ret (w', old) ->
    step (mk_sys w hd pv) (mk_sys w' (olist old ++ hd) pv)
| st_release w w' hd pv i old : release_locked w i = Ret (w', old) ->
    step (mk_sys w hd pv) (mk_sys w' (olist old ++ hd) pv)
| st_pin w w' hd pv i head : syscall_pin w i = Ret (w', head) ->
    step (mk_sys w hd pv) (mk_sys w' (olist head ++ hd) pv)
| st_put w h hd hd' pv f : hd ≡ₚ f :: hd' -> sc_put (heap w) (Some f) = Ret h ->
    step (mk_sys w hd pv) (mk_sys (set_heap h w) hd' pv)
| st_alloc w hd pv f c : heap w !! f = None -> code_ok c ->
    step (mk_sys w hd pv) (mk_sys (set_heap (<[f := mk_filter 1 0 None c]> (heap w)) w) hd (f :: pv))
| st_install w w' hd pv pv' cur tsync f tid r : pv ≡ₚ f :: pv' ->
    install_locked tid w cur tsync f = Ret (r, w') ->
    step (mk_sys w hd pv) (mk_sys w' (f :: hd) pv')
| st_spawn h l1 l2 t hd pv : filter_of t = None ->
    step (mk_sys (mk_world h (l1 ++ l2)) hd pv) (mk_sys (mk_world h (l1 ++ t :: l2)) hd pv)
| st_reap h l1 l2 t hd pv : filter_of t = None ->
    step (mk_sys (mk_world h (l1 ++ t :: l2)) hd pv) (mk_sys (mk_world h (l1 ++ l2)) hd pv).

(** Fewer than 2^32 threads, filters and references in flight. *)
Definition sroom (s : sys) : Prop :=
  Z.of_nat (length (threads (sw s)) + length (held s) + length (priv s) + size (heap (sw s))) + 4 < 2 ^ 32.

Definition boot (ts : list thread) : sys := mk_sys (mk_world ∅ ts) [] [].
Inductive reachable : sys -> Prop :=
| reach_boot ts : Forall (fun t => filter_of t = None) ts -> reachable (boot ts)
| reach_step s s' : reachable s -> sroom s -> step s s' -> reachable s'.

Record sys_inv (s : sys) : Prop := {
  si_heap : heap_inv (heap (sw s)) (holders s);
  si_nodup : NoDup (priv s);
  si_priv : forall f, In f (priv s) ->
    ~ In f (omap filter_of (threads (sw s))) /\ ~ In f (held s) /\
    (exists x, heap (sw s) !! f = Some x /\ prev x = None) /\
    forall g y, heap (sw s) !! g = Some y -> prev y <> Some f;
  si_pub : forall f, In f (omap filter_of (threads (sw s))) ->
    exists x, heap (sw s) !! f = Some x /\ 0 <= path_cost x <= SC_MAX_PATH;
  si_code : forall f x, heap (sw s) !! f = Some x -> code_ok (insn x) }.

Lemma length_omap_le {A B} (g : A -> option B) l : (length (omap g l) <= length l)%nat.
Proof.
  induction l as [|a l IH]; [done|].
  change (omap g (a :: l)) with (match g a with Some b => b :: omap g l | None => omap g l end).
  destruct (g a); simpl; lia.
Qed.

Lemma sroom_room s H : sroom s -> (length H <= length (holders s) + 3)%nat -> room (heap (sw s)) H.
Proof.
  unfold sroom, room, holders. rewrite !length_app. intros.
  pose proof (length_omap_le filter_of (threads (sw s))). lia.
Qed.

(** Replacing the filter of a thread moves references. *)
Lemma threads_insert ts i t t' : ts !! i = Some t ->
  omap filter_of (<[i := t']> ts) ++ olist (filter_of t) ≡ₚ
  omap filter_of ts ++ olist (filter_of t').
Proof.
  intros Hi. rewrite <- (take_drop_middle ts i t Hi) at 2.
  rewrite insert_take_drop by (by eapply lookup_lt_Some).
  rewrite !omap_app. simpl. destruct (filter_of t), (filter_of t'); simpl; solve_Permutation.
Qed.

Lemma threads_insert_In ts i t' f : In f (omap filter_of (<[i := t']> ts)) ->
  filter_of t' = Some f \/ In f (omap filter_of ts).
Proof.
  rewrite <- !list_elem_of_In, !list_elem_of_omap. intros (t & Ht & Hf).
  apply list_elem_of_lookup in Ht as [j Hj].
  destruct (decide (j = i)) as [->|].
  - apply list_lookup_insert_Some in Hj. naive_solver.
  - rewrite list_lookup_insert_ne in Hj by done. right. exists t. split; [|done].
    by eapply list_elem_of_lookup_2.
Qed.

Lemma sc_get_opt h H o :
  heap_inv h H -> (forall f, o = Some f -> In f H) -> room h (olist o ++ H) ->
  exists h', sc_get h o = Ret h' /\ heap_inv h' (olist o ++ H) /\
    sub_heap h' h /\ sub_heap h h' /\ size h' = size h.
Proof.
  intros Hi Hin Hr. destruct o as [f|]; [|exists h; repeat (split; [done|]); done].
  destruct (hi_held _ _ Hi f (Hin f eq_refl)) as [x Hx].
  destruct (sc_get_inv h H f x Hi Hr Hx) as [-> Hi']. eexists. split; [done|]. split; [done|].
  split; [by apply sub_heap_set_refs|]. split.
  - intros g y Hy. destruct (decide (g = f)) as [->|].
    + rewrite lookup_insert_eq. simplify_eq. by eexists.
    + rewrite lookup_insert_ne by done. by exists y.
  - apply map_size_insert_Some. by eexists.
Qed.

Lemma sub_heap_lookup h' h H f x : sub_heap h' h -> heap_inv h' H -> In f H -> h !! f = Some x ->
  exists x', h' !! f = Some x' /\ set_refs 0 x' = set_refs 0 x.
Proof.
  intros Hs Hi Hf Hx. destruct (hi_held _ _ Hi f Hf) as [x' Hx']. exists x'. split; [done|].
  destruct (Hs f x' Hx') as (y & Hy & E). congruence.
Qed.

(** A step that only moves references and frees filters. *)
Lemma sys_inv_sub s h' ts' hd' :
  sys_inv s -> sub_heap h' (heap (sw s)) -> heap_inv h' (omap filter_of ts' ++ hd' ++ priv s) ->
  (forall f, In f (omap filter_of ts') -> In f (omap filter_of (threads (sw s)))) ->
  (forall f, In f hd' -> In f (omap filter_of (threads (sw s))) \/ In f (held s)) ->
  sys_inv (mk_sys (mk_world h' ts') hd' (priv s)).
Proof.
  intros [Hi Hnd Hp Hpub Hc] Hs Hi' Hts Hhd. split; cbn [sw heap threads held priv].
  - done.
  - done.
  - intros f Hf. destruct (Hp f Hf) as (Hnt & Hnh & (x & Hx & Hpx) & Hnl). split; [auto|].
    split; [intros Hin; destruct (Hhd f Hin); auto|]. split.
    + destruct (sub_heap_lookup h' _ _ f x Hs Hi') as (x' & Hx' & E); [rewrite !in_app_iff; auto|done|].
      exists x'. split; [done|]. injection E as _ -> _. done.
    + intros g y Hy. destruct (Hs g y Hy) as (y0 & Hy0 & E). injection E as _ -> _. by eapply Hnl.
  - intros f Hf. destruct (Hpub f (Hts f Hf)) as (x & Hx & Hcx).
    destruct (sub_heap_lookup h' _ _ f x Hs Hi') as (x' & Hx' & E); [rewrite !in_app_iff; auto|done|].
    exists x'. split; [done|]. injection E as -> _ _. done.
  - intros f x Hx. destruct (Hs f x Hx) as (y & Hy & E). injection E as _ _ ->. by eapply Hc.
Qed.

Lemma thread_filter_In ts i t f : ts !! i = Some t -> filter_of t = Some f -> In f (omap filter_of ts).
Proof.
  intros Hi Hf. rewrite <- list_elem_of_In, list_elem_of_omap. exists t.
  split; [by eapply list_elem_of_lookup_2|done].
Qed.

Lemma olist_filter_In ts i t f :
  ts !! i = Some t -> In f (olist (filter_of t)) -> In f (omap filter_of ts).
Proof.
  intros Hi Hf. destruct (filter_of t) as [g|] eqn:E; [|done]. destruct Hf as [<-|[]].
  by apply (thread_filter_In ts i t).
Qed.

Lemma inherit_step s c p tc tp :
  sys_inv s -> sroom s -> threads (sw s) !! c = Some tc -> threads (sw s) !! p = Some tp ->
  exists w', inherit_locked (sw s) c p = Ret (w', filter_of tc) /\
    sys_inv (mk_sys w' (olist (filter_of tc) ++ held s) (priv s)) /\ sub_heap (heap w') (heap (sw s)).
Proof.
  intros Hs Hr Hc Hp. unfold inherit_locked. rewrite Hc, Hp. cbn [deref]. rewrite !ret_bind.
  destruct (sc_get_opt (heap (sw s)) (holders s) (filter_of tp)) as (h' & E & Hi' & Hsub & _).
  { apply si_heap. done. }
  { intros f Hf. apply in_app_iff. left. eapply thread_filter_In; eassumption. }
  { apply (sroom_room s); [done|]. rewrite length_app. destruct (filter_of tp); simpl; lia. }
  cbn [heap set_thread]. rewrite E, ret_bind. eexists. split; [done|]. split; [|done].
  unfold set_heap, set_thread. cbn [threads].
  set (t' := set_filter (filter_of tp) _).
  apply sys_inv_sub; [done|done| | |].
  - revert Hi'. apply heap_inv_perm. unfold holders.
    pose proof (threads_insert (threads (sw s)) c tc t' Hc) as Hpm.
    rewrite !app_assoc. rewrite Hpm. subst t'. simpl. solve_Permutation.
  - intros f Hf. apply threads_insert_In in Hf as [Hf|Hf]; [|done]. eapply thread_filter_In; eassumption.
  - intros f Hf. apply in_app_iff in Hf as [Hf|Hf]; [left; exact (olist_filter_In _ _ _ _ Hc Hf)|by right].
Qed.

Lemma release_step s i t :
  sys_inv s -> threads (sw s) !! i = Some t ->
  exists w', release_locked (sw s) i = Ret (w', filter_of t) /\
    sys_inv (mk_sys w' (olist (filter_of t) ++ held s) (priv s)) /\ heap w' = heap (sw s).
Proof.
  intros Hs Hi. unfold release_locked. rewrite Hi. cbn [deref]. rewrite ret_bind.
  eexists. split; [done|]. split; [|done]. unfold set_thread.
  apply sys_inv_sub; [done|reflexivity| | |].
  - pose proof (si_heap s Hs) as Hh. revert Hh. apply heap_inv_perm. unfold holders.
    pose proof (threads_insert (threads (sw s)) i t (set_filter None t) Hi) as Hpm.
    rewrite !app_assoc, Hpm. simpl. solve_Permutation.
  - intros f Hf. by apply threads_insert_In in Hf as [Hf|Hf].
  - intros f Hf. apply in_app_iff in Hf as [Hf|Hf]; [left; exact (olist_filter_In _ _ _ _ Hi Hf)|by right].
Qed.

Lemma pin_step s i t :
  sys_inv s -> sroom s -> threads (sw s) !! i = Some t ->
  exists h', syscall_pin (sw s) i = Ret (set_heap h' (sw s), filter_of t) /\
    sc_get (heap (sw s)) (filter_of t) = Ret h' /\
    sys_inv (mk_sys (set_heap h' (sw s)) (olist (filter_of t) ++ held s) (priv s)) /\
    sub_heap h' (heap (sw s)) /\ sub_heap (heap (sw s)) h'.
Proof.
  intros Hs Hr Hi. unfold syscall_pin. rewrite Hi. cbn [deref]. rewrite ret_bind.
  destruct (sc_get_opt (heap (sw s)) (holders s) (filter_of t)) as (h' & E & Hi' & Hsub & Hsub' & _).
  { apply si_heap. done. }
  { intros f Hf. apply in_app_iff. left. eapply thread_filter_In; eassumption. }
  { apply (sroom_room s); [done|]. rewrite length_app. destruct (filter_of t); simpl; lia. }
  rewrite E, ret_bind. exists h'. split; [done|]. split; [done|]. split; [|done].
  apply sys_inv_sub; [done|done| |done|].
  - revert Hi'. apply heap_inv_perm. unfold holders. solve_Permutation.
  - intros f Hf. apply in_app_iff in Hf as [Hf|Hf]; [left; exact (olist_filter_In _ _ _ _ Hi Hf)|by right].
Qed.

Lemma put_step s f hd' :
  sys_inv s -> sroom s -> held s ≡ₚ f :: hd' ->
  exists h', sc_put (heap (sw s)) (Some f) = Ret h' /\
    sys_inv (mk_sys (set_heap h' (sw s)) hd' (priv s)) /\ sub_heap h' (heap (sw s)).
Proof.
  intros Hs Hr Hp.
  assert (Hpm : holders s ≡ₚ olist (Some f) ++ (omap filter_of (threads (sw s)) ++ hd' ++ priv s)).
  { unfold holders. rewrite Hp. simpl. solve_Permutation. }
  destruct (sc_put_inv (heap (sw s)) (omap filter_of (threads (sw s)) ++ hd' ++ priv s) (Some f))
    as (h' & E & Hi' & Hsub & _).
  { rewrite <- Hpm. by apply si_heap. }
  { eapply room_perm; [exact Hpm|]. apply (sroom_room s); [done|lia]. }
  exists h'. split; [done|]. split; [|done]. apply sys_inv_sub; try done.
  intros g Hg. right. rewrite Hp. by right.
Qed.

Lemma alloc_step s f c :
  sys_inv s -> heap (sw s) !! f = None -> code_ok c ->
  sys_inv (mk_sys (set_heap (<[f := mk_filter 1 0 None c]> (heap (sw s))) (sw s)) (held s) (f :: priv s)).
Proof.
  intros [Hi Hnd Hp Hpub Hc] Hf Hcode.
  assert (HfH : ~ In f (holders s)) by (intros Hin; destruct (hi_held _ _ Hi f Hin); congruence).
  unfold holders in HfH. rewrite !in_app_iff in HfH.
  assert (Hne : forall g, is_Some (heap (sw s) !! g) -> g <> f) by (intros g [? ?] ->; congruence).
  split; cbn [sw heap set_heap threads held priv].
  - eapply heap_inv_perm; [|exact (heap_inv_alloc _ _ f c Hi Hf)]. unfold holders. simpl. solve_Permutation.
  - constructor; [|done]. rewrite list_elem_of_In. tauto.
  - intros g [<-|Hg].
    + split; [tauto|]. split; [tauto|]. split; [rewrite lookup_insert_eq; by eexists|].
      intros g y Hy. apply lookup_insert_Some in Hy as [[<- <-]|[? Hy]]; [done|]. intros Hpy.
      destruct (hi_prev _ _ Hi g y f Hy Hpy) as [_ (z & Hz & _)]. congruence.
    + destruct (Hp g Hg) as (? & ? & (x & Hx & Hpx) & Hnl). do 2 (split; [done|]). split.
      * exists x. rewrite lookup_insert_ne; [done|]. intros ->. congruence.
      * intros g' y Hy. apply lookup_insert_Some in Hy as [[<- <-]|[? Hy]]; [done|]. by eapply Hnl.
  - intros g Hg. destruct (Hpub g Hg) as (x & Hx & ?). exists x. rewrite lookup_insert_ne; [done|].
    intros ->. congruence.
  - intros g x Hx. apply lookup_insert_Some in Hx as [[<- <-]|[? Hx]]; [done|]. by eapply Hc.
Qed.

(** ** Publishing a filter *)

(** The first TSYNC loop is total; without a conflict every thread of the group
    has a chain that is a tail of [old]'s. *)
Lemma tsync_conflict_spec h H g old l : heap_inv h H -> (forall o, old = Some o -> In o H) ->
  is_chain h old l ->
  forall ts i, exists r, tsync_conflict h g old i ts = Ret r /\
    (r = None -> forall t, In t ts -> in_group g t = true ->
      exists l1 l2, l = l1 ++ l2 /\ is_chain h (filter_of t) l2).
Proof.
  intros Hi Ho Hl. induction ts as [|t ts IH]; intros i; cbn [tsync_conflict]; [by exists None|].
  destruct (in_group g t) eqn:Hg.
  - destruct (ancestor_walk_spec CHAIN_FUEL h H old (filter_of t) l Hi) as (a & -> & Ha); [|done|].
    { intros f ->. eapply fits_held; [exact Hi|by apply Ho|done]. }
    rewrite ret_bind. destruct (IH (S i)) as (r & E & Hr).
    destruct (filter_of t) as [p|] eqn:Hp; [destruct a as [q|]|]; [|by exists (Some i)|].
    + exists r. split; [done|]. intros -> t' [<-|Hin]; [|by apply Hr]. intros _. rewrite Hp.
      destruct (Ha q eq_refl) as ([= <-] & l1 & l2 & -> & ?). eauto.
    + exists r. split; [done|]. intros -> t' [<-|Hin]; [|by apply Hr]. intros _. rewrite Hp.
      exists l, []. rewrite app_nil_r. auto.
  - destruct (IH (S i)) as (r & E & Hr). exists r. split; [done|].
    intros -> t' [<-|Hin] Hg'; [congruence|]. by apply Hr.
Qed.

(** What the second TSYNC loop does to a thread. *)
Definition tsync_thread (g f : Z) (nnp : bool) (t : thread) : thread :=
  if in_group g t then
    let t := set_filter (Some f) t in
    if nnp then set_creds (set_no_new_privs true (creds t)) t else t
  else t.

Lemma omap_filter_cons t ts : omap filter_of (t :: ts) = olist (filter_of t) ++ omap filter_of ts.
Proof. simpl. by destruct (filter_of t). Qed.

Lemma tsync_apply_spec g f nnp : forall ts h R,
  heap_inv h (f :: omap filter_of ts ++ R) ->
  Z.of_nat (length ts + length R + size h) + 3 < 2 ^ 32 ->
  exists h', tsync_apply h g f nnp ts = Ret (h', map (tsync_thread g f nnp) ts) /\
    heap_inv h' (f :: omap filter_of (map (tsync_thread g f nnp) ts) ++ R) /\ sub_heap h' h.
Proof.
  induction ts as [|t ts IH]; intros h R Hi Hr; cbn [tsync_apply map].
  { exists h. split; [done|]. split; [done|reflexivity]. }
  simpl in Hr. pose proof (length_omap_le filter_of ts). unfold tsync_thread at 1 3.
  rewrite omap_filter_cons in Hi. destruct (in_group g t) eqn:Hg; last first.
  - destruct (IH h (olist (filter_of t) ++ R)) as (h' & -> & Hi' & Hs).
    { eapply heap_inv_perm; [|exact Hi]. solve_Permutation. }
    { rewrite length_app. destruct (filter_of t); simpl; lia. }
    rewrite ret_bind. exists h'. split; [done|]. split; [|done].
    rewrite omap_filter_cons. eapply heap_inv_perm; [|exact Hi']. solve_Permutation.
  - destruct (sc_get_opt h _ (Some f) Hi) as (h1 & -> & Hi1 & Hs1 & _ & Hz1).
    { intros f' [= <-]. by left. }
    { unfold room. simpl. rewrite !length_app. destruct (filter_of t); simpl; lia. }
    rewrite ret_bind.
    destruct (sc_put_inv h1 (f :: omap filter_of ts ++ f :: R) (filter_of t)) as (h2 & -> & Hi2 & Hs2 & Hz2).
    { eapply heap_inv_perm; [|exact Hi1]. simpl. solve_Permutation. }
    { unfold room. simpl. rewrite !length_app. simpl. rewrite !length_app. destruct (filter_of t); simpl; lia. }
    rewrite ret_bind.
    destruct (IH h2 (f :: R) Hi2) as (h' & -> & Hi' & Hs); [simpl; lia|].
    rewrite ret_bind. exists h'. split; [done|]. split.
    + rewrite omap_filter_cons.
      replace (filter_of (if nnp then _ else _)) with (Some f) by (by destruct nnp).
      eapply heap_inv_perm; [|exact Hi']. simpl. solve_Permutation.
    + etransitivity; [exact Hs|]. by etransitivity.
Qed.

Lemma not_linked h f : (forall g y, h !! g = Some y -> prev y <> Some f) -> prevs h f = 0%nat.
Proof.
  intros Hn. destruct (prevs h f) eqn:E; [done|]. destruct (prevs_pos h f) as (g & y & Hy & Hp); [lia|].
  by destruct (Hn g y Hy).
Qed.

(** Linking a private filter in front of the chain [o]. *)
Lemma link_step h H f x o :
  heap_inv h H -> h !! f = Some x -> prev x = None -> (forall p, o = Some p -> In p H) -> o <> Some f ->
  (forall p y, o = Some p -> h !! p = Some y -> 0 <= path_cost y < path_cost x) ->
  path_cost x <= SC_MAX_PATH -> room h (olist o ++ H) ->
  exists h', sc_get (<[f := set_prev o x]> h) o = Ret h' /\ heap_inv h' H /\
    h' !! f = Some (set_prev o x) /\ sub_heap (delete f h') h /\ size h' = size h.
Proof.
  intros Hi Hx Hp Ho Hne Hc Hm Hr. destruct o as [o|]; simpl.
  - destruct (hi_held _ _ Hi o (Ho o eq_refl)) as [y Hy].
    destruct (sc_get_inv h H o y Hi Hr Hy) as [E Hi1].
    assert (o <> f) by congruence. rewrite lookup_insert_ne, Hy by done. cbn [deref]. rewrite ret_bind.
    unfold sc_get in E. rewrite Hy in E. cbn [deref] in E. rewrite ret_bind in E. injection E as E.
    rewrite insert_insert_ne, E by done. eexists. split; [done|]. split.
    { eapply (heap_inv_link _ H f x o); try done; [by rewrite lookup_insert_ne|by rewrite lookup_insert_eq|].
      simpl. by apply (Hc o). }
    rewrite lookup_insert_eq. split; [done|]. split.
    + rewrite delete_insert_eq. etransitivity; [apply sub_heap_delete|]. by apply sub_heap_set_refs.
    + rewrite !map_size_insert_Some; [done|by eexists|by rewrite lookup_insert_ne; eauto].
  - replace (set_prev None x) with x by (destruct x; simpl in *; by subst).
    rewrite insert_id by done. exists h. split; [done|]. split; [done|]. split; [done|].
    split; [apply sub_heap_delete|done].
Qed.

(** A step after which the private filter [f] is held by its installer and
    possibly published. *)
Lemma sys_inv_publish s f pv' x h' ts' :
  sys_inv s -> priv s ≡ₚ f :: pv' -> heap (sw s) !! f = Some x ->
  heap_inv h' (omap filter_of ts' ++ (f :: held s) ++ pv') ->
  sub_heap (delete f h') (heap (sw s)) ->
  (exists x', h' !! f = Some x' /\ insn x' = insn x /\
     (forall p, prev x' = Some p -> In p (omap filter_of (threads (sw s)))) /\
     (In f (omap filter_of ts') -> 0 <= path_cost x' <= SC_MAX_PATH)) ->
  (forall g, In g (omap filter_of ts') -> g = f \/ In g (omap filter_of (threads (sw s)))) ->
  sys_inv (mk_sys (mk_world h' ts') (f :: held s) pv').
Proof.
  intros [Hi Hnd Hp Hpub Hc] Hpm Hx Hi' Hs (x' & Hx' & Hn & Hpx' & Hcost) Hts.
  rewrite Hpm in Hnd. inversion Hnd as [|? ? Hfpv Hnd']. subst. rewrite list_elem_of_In in Hfpv.
  assert (Hin : forall g, In g pv' -> In g (priv s)) by (intros g Hg; rewrite Hpm; by right).
  assert (Hlk : forall g y, g <> f -> h' !! g = Some y ->
            exists y0, heap (sw s) !! g = Some y0 /\ set_refs 0 y = set_refs 0 y0).
  { intros g y Hg Hy. apply Hs. by rewrite lookup_delete_ne. }
  assert (Hkeep : forall g y0, g <> f -> In g (omap filter_of ts' ++ (f :: held s) ++ pv') ->
            heap (sw s) !! g = Some y0 -> exists y, h' !! g = Some y /\ set_refs 0 y = set_refs 0 y0).
  { intros g y0 Hg Hgi Hy0. destruct (hi_held _ _ Hi' g Hgi) as [y Hy]. exists y. split; [done|].
    destruct (Hlk g y Hg Hy) as (y1 & Hy1 & E). congruence. }
  split; cbn [sw heap threads held priv]; try done.
  - intros g Hg. destruct (Hp g (Hin g Hg)) as (Hnt & Hnh & (y & Hy & Hpy) & Hnl).
    assert (g <> f) by congruence. split; [intros Hgt; destruct (Hts g Hgt); auto|].
    split; [intros [?|?]; [by subst|auto]|]. split.
    + destruct (Hkeep g y) as (y' & Hy' & E); [done|rewrite !in_app_iff; auto|done|].
      exists y'. split; [done|]. injection E as _ -> _. done.
    + intros g' y' Hy' Hpg. destruct (decide (g' = f)) as [->|Hne'].
      * simplify_eq. by apply Hnt, Hpx'.
      * destruct (Hlk g' y' Hne' Hy') as (y0 & Hy0 & E). injection E as _ E _. rewrite E in Hpg. by eapply Hnl.
  - intros g Hg. destruct (decide (g = f)) as [->|Hne]; [exists x'; auto|].
    destruct (Hts g Hg) as [|Hg']; [done|]. destruct (Hpub g Hg') as (y & Hy & ?).
    destruct (Hkeep g y) as (y' & Hy' & E); [done|rewrite !in_app_iff; auto|done|].
    exists y'. split; [done|]. injection E as -> _ _. done.
  - intros g y Hy. destruct (decide (g = f)) as [->|Hne].
    + simplify_eq. rewrite Hn. by eapply Hc.
    + destruct (Hlk g y Hne Hy) as (y0 & Hy0 & E). injection E as _ _ ->. by eapply Hc.
Qed.

(** The threads after a successful installation. *)
Definition published_threads (ts : list thread) (cur : nat) (t : thread) (tsync : bool) (f : Z)
    : list thread :=
  if tsync then map (tsync_thread (tgid t) f (no_new_privs (creds t))) ts
  else <[cur := set_filter (Some f) t]> ts.

Lemma sub_heap_delete_mono h' h f : sub_heap h' h -> sub_heap (delete f h') (delete f h).
Proof.
  intros Hs g x Hx. apply lookup_delete_Some in Hx as [Hne Hx]. destruct (Hs g x Hx) as (y & Hy & E).
  exists y. by rewrite lookup_delete_ne.
Qed.

Lemma publish_spec w cur tsync f t x R :
  threads w !! cur = Some t -> heap w !! f = Some x -> prev x = None ->
  filter_of t <> Some f ->
  heap_inv (heap w) (f :: omap filter_of (threads w) ++ R) ->
  (forall p y, filter_of t = Some p -> heap w !! p = Some y -> 0 <= path_cost y < path_cost x) ->
  path_cost x <= SC_MAX_PATH ->
  Z.of_nat (length (threads w) + length R + size (heap w)) + 3 < 2 ^ 32 ->
  exists w' x', publish w cur tsync f = Ret w' /\
    threads w' = published_threads (threads w) cur t tsync f /\
    heap_inv (heap w') (f :: omap filter_of (threads w') ++ R) /\
    sub_heap (delete f (heap w')) (heap w) /\
    heap w' !! f = Some x' /\ set_refs 0 x' = set_refs 0 (set_prev (filter_of t) x).
Proof.
  intros Ht Hx Hp Hne Hi Hc Hm Hr. pose proof (length_omap_le filter_of (threads w)).
  unfold publish. rewrite Ht, Hx. cbn [deref]. rewrite !ret_bind.
  destruct (link_step _ _ f x (filter_of t) Hi Hx Hp) as (h2 & -> & Hi2 & Hf2 & Hs2 & Hz2); try done.
  { intros p E. right. apply in_app_iff. left. eapply thread_filter_In; eassumption. }
  { unfold room. rewrite length_app. simpl. rewrite length_app. destruct (filter_of t); simpl; lia. }
  rewrite ret_bind.
  assert (Hend : forall h' H', heap_inv h' (f :: H') -> sub_heap h' h2 ->
            sub_heap (delete f h') (heap w) /\
            exists x', h' !! f = Some x' /\ set_refs 0 x' = set_refs 0 (set_prev (filter_of t) x)).
  { intros h' H' Hi' Hs'. split.
    - etransitivity; [|exact Hs2]. by apply sub_heap_delete_mono.
    - destruct (sub_heap_lookup h' h2 (f :: H') f _ Hs' Hi' ltac:(by left) Hf2) as (x' & ? & ?). eauto. }
  destruct tsync.
  - destruct (tsync_apply_spec (tgid t) f (no_new_privs (creds t)) (threads w) h2 R Hi2)
      as (h' & -> & Hi' & Hs'); [lia|]. rewrite ret_bind.
    destruct (Hend _ _ Hi' Hs') as (? & x' & ? & ?). eexists _, x'. split; [done|]. done.
  - destruct (sc_get_opt h2 _ (Some f) Hi2) as (h3 & -> & Hi3 & Hs3 & _ & Hz3).
    { intros f' [= <-]. by left. }
    { unfold room. simpl. rewrite length_app. lia. }
    rewrite ret_bind.
    assert (Hpm := threads_insert (threads w) cur t (set_filter (Some f) t) Ht). simpl in Hpm.
    destruct (sc_put_inv h3 (f :: omap filter_of (<[cur := set_filter (Some f) t]> (threads w)) ++ R)
                (filter_of t)) as (h' & -> & Hi' & Hs' & _).
    { eapply heap_inv_perm; [|exact Hi3]. simpl.
      transitivity (f :: (omap filter_of (threads w) ++ [f]) ++ R); [solve_Permutation|].
      rewrite <- Hpm. solve_Permutation. }
    { unfold room. rewrite length_app. simpl. rewrite length_app.
      pose proof (length_omap_le filter_of (<[cur := set_filter (Some f) t]> (threads w))) as Hl.
      rewrite length_insert in Hl. destruct (filter_of t); simpl; lia. }
    rewrite ret_bind. destruct (Hend _ _ Hi') as (? & x' & ? & ?); [by etransitivity|].
    eexists _, x'. split; [done|]. done.
Qed.

(** The cost that [install_locked] adds for the old chain. *)
Lemma install_base s cur t : sys_inv s -> threads (sw s) !! cur = Some t ->
  exists base, 0 <= base <= SC_MAX_PATH + 4 /\
    (forall p y, filter_of t = Some p -> heap (sw s) !! p = Some y ->
       base = path_cost y + 4 /\ 0 <= path_cost y) /\
    match filter_of t with
    | None => Ret 0 | Some o => y ← deref (heap (sw s) !! o); Ret (path_cost y + 4)
    end = Ret base.
Proof.
  intros Hs Ht. unfold SC_MAX_PATH. destruct (filter_of t) as [o|] eqn:E; [|exists 0; split; [lia|by split]].
  destruct (si_pub s Hs o) as (y & Hy & Hcy); [eapply thread_filter_In; eassumption|].
  unfold SC_MAX_PATH in Hcy. exists (path_cost y + 4). rewrite Hy. simpl. split; [lia|].
  split; [|done]. intros p y' [= <-] Hy'. simplify_eq. lia.
Qed.

Lemma published_threads_In ts cur t tsync f g :
  In g (omap filter_of (published_threads ts cur t tsync f)) -> g = f \/ In g (omap filter_of ts).
Proof.
  unfold published_threads. destruct tsync; intros Hg.
  - apply list_elem_of_In, list_elem_of_omap in Hg as (u & Hu & Hgu).
    apply list_elem_of_fmap in Hu as (v & -> & Hv). unfold tsync_thread in Hgu.
    destruct (in_group (tgid t) v); [left; destruct (no_new_privs (creds t)); simpl in Hgu; congruence|].
    right. rewrite <- list_elem_of_In, list_elem_of_omap. eauto.
  - apply threads_insert_In in Hg as [[= <-]|]; auto.
Qed.

(** The locked part of an installation returns, keeps the invariant, and either
    publishes the filter in front of the old chain or leaves the threads alone. *)
Lemma install_step tid s cur tsync f pv' t x :
  sys_inv s -> sroom s -> threads (sw s) !! cur = Some t -> priv s ≡ₚ f :: pv' ->
  heap (sw s) !! f = Some x ->
  exists r w', install_locked tid (sw s) cur tsync f = Ret (r, w') /\
    sys_inv (mk_sys w' (f :: held s) pv') /\ sub_heap (delete f (heap w')) (heap (sw s)) /\
    (threads w' = threads (sw s) /\ (exists c, heap w' = <[f := set_path_cost c x]> (heap (sw s))) \/
     r = 0 /\ threads w' = published_threads (threads (sw s)) cur t tsync f /\
     (exists x', heap w' !! f = Some x' /\ prev x' = filter_of t /\ insn x' = insn x) /\
     (tsync = true -> forall l, is_chain (heap (sw s)) (filter_of t) l ->
        forall u, In u (threads (sw s)) -> in_group (tgid t) u = true ->
        exists l1 l2, l = l1 ++ l2 /\ is_chain (heap (sw s)) (filter_of u) l2)).
Proof.
  intros Hs Hr Ht Hpm Hx. assert (Hfp : In f (priv s)) by (rewrite Hpm; by left).
  destruct (si_priv s Hs f Hfp) as (Hnt & Hnh & (x0 & Hx0 & Hpx) & Hnl).
  rewrite Hx in Hx0. injection Hx0 as <-. pose proof (not_linked _ _ Hnl) as Hpv.
  pose proof (si_heap s Hs) as Hi. destruct (si_code s Hs f x Hx) as (_ & Hlen & _).
  unfold SC_MAX_INSNS in Hlen.
  unfold install_locked. rewrite Ht, Hx. cbn [deref]. rewrite !ret_bind.
  destruct (install_base s cur t Hs Ht) as (base & Hb & Hbase & ->). rewrite ret_bind. unfold SC_MAX_PATH in Hb.
  rewrite u32_id by lia. set (cost := Z.of_nat (length (insn x)) + base).
  set (h1 := <[f := set_path_cost cost x]> (heap (sw s))).
  pose proof (heap_inv_set_cost _ _ f x cost Hi Hx Hpx Hpv) as Hi1. fold h1 in Hi1.
  assert (Hf1 : h1 !! f = Some (set_path_cost cost x)) by apply lookup_insert_eq.
  assert (Hs1 : sub_heap (delete f h1) (heap (sw s))).
  { subst h1. rewrite delete_insert_eq. apply sub_heap_delete. }
  assert (Hpm1 : holders s ≡ₚ f :: omap filter_of (threads (sw s)) ++ held s ++ pv').
  { unfold holders. rewrite Hpm. solve_Permutation. }
  assert (Hrej : sys_inv (mk_sys (set_heap h1 (sw s)) (f :: held s) pv')).
  { eapply (sys_inv_publish s f pv' x); try done.
    - eapply heap_inv_perm; [|exact Hi1]. rewrite Hpm1. solve_Permutation.
    - exists (set_path_cost cost x). split; [done|]. split; [done|]. split; [|done].
      simpl. rewrite Hpx. done.
    - auto. }
  destruct (SC_MAX_PATH <? cost) eqn:Hcost; reify_bools.
  { do 2 eexists. split; [done|]. split; [done|]. split; [done|]. left. split; [done|by eexists]. }
  destruct (is_chain_exists CHAIN_FUEL h1 (holders s) (filter_of t) Hi1) as [l1 Hl1].
  { intros g Hg. eapply fits_held; [exact Hi1| |done]. apply in_app_iff. left.
    eapply thread_filter_In; eassumption. }
  destruct (tsync_conflict_spec h1 (holders s) (tgid t) (filter_of t) l1 Hi1) with (ts := threads (sw s)) (i := 0%nat)
    as (c & Ec & Hc); [|done|].
  { intros o Ho. apply in_app_iff. left. eapply thread_filter_In; eassumption. }
  assert (exists c', (if tsync then tsync_conflict (heap (set_heap h1 (sw s))) (tgid t) (filter_of t) 0
            (threads (set_heap h1 (sw s))) else Ret None) = Ret c' /\
            (c' = None -> tsync = true -> c = None)) as (c' & -> & Hcc).
  { destruct tsync; [exists c|exists None]; by split. }
  rewrite ret_bind. destruct c' as [i|].
  { do 2 eexists. split; [done|]. split; [done|]. split; [done|]. left. split; [done|by eexists]. }
  assert (Hnef : filter_of t <> Some f).
  { intros E. apply Hnt. eapply thread_filter_In; eassumption. }
  destruct (publish_spec (set_heap h1 (sw s)) cur tsync f t (set_path_cost cost x) (held s ++ pv'))
    as (w' & x' & -> & Hts & Hi' & Hs' & Hx' & E); try done.
  { simpl. by rewrite <- Hpm1. }
  { intros p y Hp Hy. simpl in Hy. assert (p <> f) by congruence. subst h1.
    rewrite lookup_insert_ne in Hy by done. destruct (Hbase p y Hp Hy). simpl. lia. }
  { simpl. subst h1. rewrite map_size_insert_Some by eauto. unfold sroom in Hr.
    rewrite (Permutation_length Hpm) in Hr. rewrite length_app. simpl in Hr. lia. }
  rewrite ret_bind. injection E as E1 E2 E3.
  assert (Hsub : sub_heap (delete f (heap w')) (heap (sw s))).
  { etransitivity; [|exact Hs1]. intros g y Hy. assert (Hy' := Hy). apply Hs' in Hy as (y0 & Hy0 & ?).
    apply lookup_delete_Some in Hy' as [? _]. exists y0. by rewrite lookup_delete_ne. }
  do 2 eexists. split; [done|]. split; [|split; [done|]].
  - destruct w' as [h' ts']. simpl in *. eapply (sys_inv_publish s f pv' x); try done.
    + eapply heap_inv_perm; [|exact Hi']. solve_Permutation.
    + exists x'. split; [done|]. split; [done|]. split.
      * rewrite E2. intros p Hp. eapply thread_filter_In; eassumption.
      * rewrite E1. subst cost. lia.
    + subst ts'. intros g. apply published_threads_In.
  - right. split; [done|]. split; [done|]. split; [exists x'; done|].
    intros -> l Hl u Hu Hg. destruct (Hc (Hcc eq_refl eq_refl) u Hu Hg) as (la & lb & -> & Hlb).
    exists la, lb. split; [|eapply is_chain_unlinked; [exact Hnl| |exact Hlb]].
    + eapply is_chain_det; [exact Hl|]. by eapply is_chain_unlinked.
    + intros E. apply Hnt. rewrite <- list_elem_of_In, list_elem_of_omap. exists u.
      by rewrite list_elem_of_In.
Qed.

(** ** Reachable states *)

Lemma omap_unfiltered l1 l2 t : filter_of t = None ->
  omap filter_of (l1 ++ t :: l2) = omap filter_of (l1 ++ l2).
Proof. intros Ht. by rewrite !omap_app, omap_filter_cons, Ht. Qed.

Lemma step_inv s s' : sys_inv s -> sroom s -> step s s' -> sys_inv s'.
Proof.
  intros Hs Hr Hst. destruct Hst as
    [w w' hd pv c p old E|w w' hd pv i old E|w w' hd pv i head E|w h hd hd' pv f Hp E
    |w hd pv f c Hf Hc|w w' hd pv pv' cur tsync f tid r Hp E|h l1 l2 t hd pv Ht|h l1 l2 t hd pv Ht].
  - assert (E0 := E). apply deref_bind_Ret in E0 as (tc & Hc & E0). apply deref_bind_Ret in E0 as (tp & Hp & _).
    destruct (inherit_step _ c p tc tp Hs Hr Hc Hp) as (w1 & E1 & Hi & _).
    cbn [sw] in E1. rewrite E in E1. by injection E1 as -> ->.
  - assert (E0 := E). apply deref_bind_Ret in E0 as (t & Hi & E0).
    destruct (release_step _ i t Hs Hi) as (w1 & E1 & Hi1 & _).
    cbn [sw] in E1. rewrite E in E1. by injection E1 as -> ->.
  - destruct (threads w !! i) as [t|] eqn:Hi; [|unfold syscall_pin in E; rewrite Hi in E; done].
    destruct (pin_step _ i t Hs Hr Hi) as (h & E1 & _ & Hi1 & _).
    simpl in E1. rewrite E in E1. by injection E1 as -> ->.
  - destruct (put_step _ f hd' Hs Hr Hp) as (h1 & E1 & Hi1 & _).
    cbn [sw] in E1. rewrite E in E1. by injection E1 as ->.
  - by apply (alloc_step (mk_sys w hd pv)).
  - destruct (threads w !! cur) as [t|] eqn:Ht; [|unfold install_locked in E; rewrite Ht in E; done].
    destruct (si_priv _ Hs f) as (_ & _ & (x & Hx & _) & _); [simpl; rewrite Hp; by left|].
    destruct (install_step tid _ cur tsync f pv' t x Hs Hr Ht Hp Hx) as (r1 & w1 & E1 & Hi1 & _).
    cbn [sw] in E1. rewrite E in E1. by injection E1 as -> ->.
  - pose proof (si_heap _ Hs) as Hi. unfold holders in Hi. cbn [sw threads held priv] in Hi.
    apply (sys_inv_sub (mk_sys (mk_world h (l1 ++ l2)) hd pv)); cbn [sw threads heap held priv]; auto;
      rewrite ?(omap_unfiltered l1 l2 t Ht); [reflexivity|done|done].
  - pose proof (si_heap _ Hs) as Hi. unfold holders in Hi. cbn [sw threads held priv] in Hi.
    rewrite (omap_unfiltered l1 l2 t Ht) in Hi.
    apply (sys_inv_sub (mk_sys (mk_world h (l1 ++ t :: l2)) hd pv)); cbn [sw threads heap held priv]; auto;
      rewrite ?(omap_unfiltered l1 l2 t Ht); [reflexivity|done].
Qed.

Lemma boot_inv ts : Forall (fun t => filter_of t = None) ts -> sys_inv (boot ts).
Proof.
  intros Hts. assert (E : omap filter_of ts = []).
  { induction Hts as [|t ts Ht _ IH]; [done|]. by rewrite omap_filter_cons, Ht, IH. }
  split; unfold holders; cbn [boot sw threads heap held priv]; rewrite ?E.
  - split; [intros f x Hx; by rewrite lookup_empty in Hx|done|].
    intros f x p Hx. by rewrite lookup_empty in Hx.
  - constructor.
  - done.
  - done.
  - intros f x Hx. by rewrite lookup_empty in Hx.
Qed.

Lemma reachable_inv s : reachable s -> sys_inv s.
Proof. induction 1; [by apply boot_inv|by eapply step_inv]. Qed.

(** The chain of a reference that is held on both sides of a step. *)
Lemma step_chain s s' f l :
  sys_inv s -> sroom s -> step s s' -> In f (held s) -> In f (held s') ->
  is_chain (heap (sw s)) (Some f) l -> is_chain (heap (sw s')) (Some f) l.
Proof.
  intros Hs Hr Hst Hf Hf' Hl. pose proof (step_inv s s' Hs Hr Hst) as Hs'.
  assert (Hin : In f (holders s')) by (unfold holders; rewrite !in_app_iff; auto).
  pose proof (si_heap s' Hs') as Hi'.
  destruct Hst as
    [w w' hd pv c p old E|w w' hd pv i old E|w w' hd pv i head E|w h hd hd' pv g Hp E
    |w hd pv g c Hg Hc|w w' hd pv pv' cur tsync g tid r Hp E|h l1 l2 t hd pv Ht|h l1 l2 t hd pv Ht];
    simpl in *.
  - assert (E0 := E). apply deref_bind_Ret in E0 as (tc & Hc & E0). apply deref_bind_Ret in E0 as (tp & Hp & _).
    destruct (inherit_step _ c p tc tp Hs Hr Hc Hp) as (w1 & E1 & _ & Hsub).
    cbn [sw] in E1. rewrite E in E1. injection E1 as <- _.
    by eapply held_chain_kept.
  - assert (E0 := E). apply deref_bind_Ret in E0 as (t & Hi & E0).
    by injection E0 as <- <-.
  - destruct (threads w !! i) as [t|] eqn:Hi; [|unfold syscall_pin in E; rewrite Hi in E; done].
    destruct (pin_step _ i t Hs Hr Hi) as (h & E1 & _ & _ & Hsub & _). simpl in *.
    rewrite E in E1. injection E1 as -> _. by eapply held_chain_kept.
  - destruct (put_step _ g hd' Hs Hr Hp) as (h1 & E1 & _ & Hsub).
    simpl in *. rewrite E in E1. injection E1 as ->.
    by eapply held_chain_kept.
  - destruct (held_chain _ _ f Hi' Hin) as [l' Hl'].
    assert (Hl2 : is_chain (heap w) (Some f) l').
    { eapply is_chain_unlinked; [| |exact Hl'].
      - intros q y Hq Hpq. destruct (hi_prev _ _ (si_heap _ Hs) q y g Hq Hpq) as [_ (z & Hz & _)].
        simpl in Hz. congruence.
      - intros [= ->]. destruct (hi_held _ _ (si_heap _ Hs) g) as [y Hy]; [|simpl in Hy; congruence].
        unfold holders. rewrite !in_app_iff. auto. }
    by rewrite (is_chain_det _ _ _ Hl _ Hl2).
  - destruct (si_priv _ Hs g) as (_ & Hnh & (x & Hx & _) & Hnl); [simpl; rewrite Hp; by left|].
    assert (Hne : f <> g) by (intros ->; done).
    destruct (threads w !! cur) as [t|] eqn:Ht; [|unfold install_locked in E; rewrite Ht in E; done].
    destruct (install_step tid _ cur tsync g pv' t x Hs Hr Ht Hp Hx) as (r1 & w1 & E1 & _ & Hsub & _).
    simpl in *. rewrite E in E1. injection E1 as <- <-.
    destruct (held_chain _ _ f Hi' Hin) as [l' Hl'].
    enough (Hl2 : is_chain (heap w) (Some f) l') by (by rewrite (is_chain_det _ _ _ Hl _ Hl2)).
    eapply is_chain_sub_delete; [exact Hsub|exact Hnl| |exact Hl']. congruence.
  - done.
  - done.
Qed.

(** ** The decision on a system call *)

(** Running a chain of programs that the verifier accepted. *)
Lemma code_ok_run c d : code_ok c -> length (args d) = 6%nat -> exists r, sc_run c d = Ret r.
Proof.
  intros (Hwf & Hlen & ok & Hv) Hd. unfold SC_MAX_INSNS in Hlen.
  destruct (run_verified ok c d (replicate 16 0) Hwf Hlen Hd eq_refl Hv) as (e & _ & _ & E). eauto.
Qed.

Lemma verdict_loop_spec fuel : forall h H o l d result,
  heap_inv h H -> fits fuel h o -> is_chain h o l -> length (args d) = 6%nat ->
  (forall f x, h !! f = Some x -> code_ok (insn x)) ->
  exists rs, Forall2 (fun p r => sc_run p.2 d = Ret r) l rs /\
    verdict_loop fuel h o d result = Ret (foldl combine result rs).
Proof.
  induction fuel as [|fuel IH]; intros h H [f|] l d result Hi Hf Hl Hd Hc;
    inversion Hl as [|? x l' Hx Hl']; subst; try (by exists []).
  { destruct (Hf f eq_refl) as (? & _ & ? & _). lia. }
  cbn [verdict_loop]. rewrite Hx. cbn [deref]. rewrite ret_bind.
  destruct (code_ok_run (insn x) d (Hc f x Hx) Hd) as [r Hrun]. rewrite Hrun, ret_bind.
  destruct (IH h H (prev x) l' d (combine result r) Hi ltac:(by eapply fits_next) Hl' Hd Hc) as (rs & Hrs & ->).
  exists (r :: rs). split; [by constructor|done].
Qed.

(** Dropping the pin gives the heap back. *)
Lemma put_get h H f h' : heap_inv h H -> In f H -> room h (f :: H) ->
  sc_get h (Some f) = Ret h' -> sc_put h' (Some f) = Ret h.
Proof.
  intros Hi Hf Hr Hg. destruct (hi_held _ _ Hi f Hf) as [x Hx].
  destruct (sc_get_inv h H f x Hi Hr Hx) as [E _]. rewrite E in Hg. injection Hg as <-.
  unfold sc_put. cbn [sc_put_loop]. rewrite lookup_insert_eq. cbn [deref]. rewrite ret_bind.
  pose proof (refs_bound h H f x Hi ltac:(unfold room in *; simpl in Hr; lia) Hx) as Hb. cbn [refs set_refs].
  rewrite Z.add_simpl_r, u32_id by lia. destruct (refs x =? 0) eqn:?; reify_bools; [lia|].
  rewrite insert_insert_eq. f_equal. apply insert_id. rewrite Hx. by destruct x.
Qed.

(** Severity of a filter result, lower is stronger: the order of [combine]. *)
Definition effective_action (r : Z) : Z :=
  if sc_action_supported (Z.land r SC_MASK) then Z.land r SC_MASK else SC_KILL_PROCESS.
Definition severity (r : Z) : Z := s32 (effective_action r).

Lemma severity_range r : severity r <= s32 SC_ALLOW.
Proof.
  unfold severity, effective_action, sc_action_supported.
  destruct (Z.land r SC_MASK =? 0) eqn:E0; reify_bools; [rewrite E0; vm_compute; discriminate|].
  destruct (Z.land r SC_MASK =? SC_KILL_PROCESS) eqn:E1; reify_bools; [rewrite E1; vm_compute; discriminate|].
  destruct (Z.land r SC_MASK =? SC_TRAP) eqn:E2; reify_bools; [rewrite E2; vm_compute; discriminate|].
  destruct (Z.land r SC_MASK =? SC_ERRNO) eqn:E3; reify_bools; [rewrite E3; vm_compute; discriminate|].
  destruct (Z.land r SC_MASK =? SC_ALLOW) eqn:E4; reify_bools; [rewrite E4; vm_compute; discriminate|].
  vm_compute. discriminate.
Qed.

Lemma severity_supported r : sc_action_supported (Z.land r SC_MASK) = true ->
  severity r = s32 (Z.land r SC_MASK).
Proof. unfold severity, effective_action. by intros ->. Qed.

Lemma combine_spec result r : sc_action_supported (Z.land result SC_MASK) = true ->
  sc_action_supported (Z.land (combine result r) SC_MASK) = true /\
  severity (combine result r) = Z.min (severity result) (severity r).
Proof.
  intros Hs. unfold combine. set (r' := if sc_action_supported _ then r else _).
  assert (sc_action_supported (Z.land r' SC_MASK) = true /\ severity r' = severity r) as [Hr1 Hr2].
  { subst r'. unfold severity, effective_action. destruct (sc_action_supported (Z.land r SC_MASK)) eqn:E; [by rewrite E|].
    split; vm_compute; reflexivity. }
  rewrite <- Hr2, (severity_supported r'), (severity_supported result) by done.
  destruct (s32 (Z.land r' SC_MASK) <? s32 (Z.land result SC_MASK)) eqn:E; reify_bools;
    (split; [done|]); rewrite severity_supported by done; lia.
Qed.

Lemma foldl_combine_spec rs : forall result, sc_action_supported (Z.land result SC_MASK) = true ->
  sc_action_supported (Z.land (foldl combine result rs) SC_MASK) = true /\
  severity (foldl combine result rs) = foldl Z.min (severity result) (map severity rs).
Proof.
  induction rs as [|r rs IH]; intros result Hs; [done|]. simpl.
  destruct (combine_spec result r Hs) as [Hs' <-]. by apply IH.
Qed.

Lemma foldl_min_le l : forall a b, In b (a :: l) -> foldl Z.min a l <= b.
Proof.
  induction l as [|c l IH]; simpl; intros a b; [intros [->|[]]; lia|].
  intros [->|[->|Hb]].
  - etransitivity; [apply IH; by left|lia].
  - etransitivity; [apply IH; by left|lia].
  - apply IH. by right.
Qed.

Lemma foldl_min_In l : forall a, In (foldl Z.min a l) (a :: l).
Proof.
  induction l as [|c l IH]; simpl; intros a; [by left|].
  destruct (IH (Z.min a c)) as [E|]; [|right; by right]. rewrite <- E.
  destruct (Z.min_spec a c) as [[_ ->]|[_ ->]]; auto.
Qed.

Lemma foldl_min_swap l : forall a b, foldl Z.min (Z.min a b) l = Z.min b (foldl Z.min a l).
Proof.
  induction l as [|c l IH]; intros a b; simpl; [lia|].
  replace (Z.min (Z.min a b) c) with (Z.min (Z.min a c) b) by lia. apply IH.
Qed.

Lemma allow_severity v : severity v = s32 SC_ALLOW <-> Z.land v SC_MASK = SC_ALLOW.
Proof.
  unfold severity, effective_action. destruct (sc_action_supported (Z.land v SC_MASK)) eqn:E.
  - split; [|by intros ->]. intros Hv. unfold sc_action_supported in E.
    rewrite !orb_true_iff, !Z.eqb_eq in E.
    destruct E as [[[[E|E]|E]|E]|E]; rewrite E in *; vm_compute in Hv; congruence.
  - assert (s32 SC_KILL_PROCESS <> s32 SC_ALLOW) by (vm_compute; discriminate).
    split; [done|]. intros Hv. rewrite Hv in E. vm_compute in E. done.
Qed.

#[local] Opaque SC_ALLOW SC_MASK s32.
Lemma severity_all_allow rs :
  foldl Z.min (s32 SC_ALLOW) (map severity rs) = s32 SC_ALLOW <->
  Forall (fun v => Z.land v SC_MASK = SC_ALLOW) rs.
Proof.
  rewrite Forall_forall. split.
  - intros E v Hv. apply allow_severity. apply Z.le_antisymm; [apply severity_range|].
    rewrite <- E. apply foldl_min_le. right. by apply in_map.
  - intros Hall. destruct (foldl_min_In (map severity rs) (s32 SC_ALLOW)) as [<-|Hin]; [done|].
    apply in_map_iff in Hin as (v & <- & Hv). apply allow_severity. by apply Hall.
Qed.

#[local] Transparent SC_ALLOW SC_MASK s32.

(** The verdict of a list of filter results. *)
Definition verdict (rs : list Z) : Z := foldl combine SC_ALLOW rs.

Lemma verdict_severity rs : severity (verdict rs) = foldl Z.min (s32 SC_ALLOW) (map severity rs) /\
  sc_action_supported (Z.land (verdict rs) SC_MASK) = true.
Proof. destruct (foldl_combine_spec rs SC_ALLOW eq_refl) as [Hs E]. split; [exact E|exact Hs]. Qed.

Lemma act_no_filter i t r nr arch : act i t r nr arch (verdict []) = (true, r, t, []).
Proof. done. Qed.

(** ** Installing a filter *)

Lemma parse_insns_ok bs count : Forall (fun b => 0 <= b < 256) bs -> 0 <= count ->
  Forall wf_insn (parse_insns bs count) /\ Z.of_nat (length (parse_insns bs count)) = count.
Proof.
  intros Hb Hc. unfold parse_insns. rewrite length_map, length_seq. split; [|lia].
  rewrite Forall_forall. intros p Hp. apply in_map_iff in Hp as (i & <- & _). unfold insn_at, wf_insn. simpl.
  pose proof (le_at_range bs (8 * Z.of_nat i) 2 Hb). pose proof (le_at_range bs (8 * Z.of_nat i + 2) 1 Hb).
  pose proof (le_at_range bs (8 * Z.of_nat i + 3) 1 Hb). pose proof (le_at_range bs (8 * Z.of_nat i + 4) 4 Hb).
  simpl in *. lia.
Qed.

Lemma filters_set_creds ts cur t c : ts !! cur = Some t ->
  map filter_of (<[cur := set_creds c t]> ts) = map filter_of ts.
Proof.
  intros Ht. change (filter_of <$> <[cur := set_creds c t]> ts = filter_of <$> ts).
  rewrite list_fmap_insert. apply list_insert_id. by rewrite list_lookup_fmap, Ht.
Qed.

Lemma omap_same_filters ts ts' : map filter_of ts = map filter_of ts' ->
  omap filter_of ts = omap filter_of ts'.
Proof.
  revert ts'. induction ts as [|t ts IH]; intros [|t' ts'] E; try done.
  simpl in E. injection E as E1 E2. by rewrite !omap_filter_cons, E1, (IH ts').
Qed.

Lemma sys_inv_same_filters s ts : sys_inv s -> map filter_of ts = map filter_of (threads (sw s)) ->
  sys_inv (mk_sys (mk_world (heap (sw s)) ts) (held s) (priv s)).
Proof.
  intros Hs E. apply omap_same_filters in E. pose proof (si_heap s Hs) as Hi. unfold holders in Hi.
  apply sys_inv_sub; auto; [reflexivity|by rewrite E|]. by rewrite E.
Qed.

Lemma sub_heap_size h' h : sub_heap h' h -> (size h' <= size h)%nat.
Proof.
  intros Hs. rewrite <- !size_dom. apply subseteq_size. intros f Hf.
  apply elem_of_dom in Hf as [x Hx]. destruct (Hs f x Hx) as (y & Hy & _). apply elem_of_dom. eauto.
Qed.

Lemma length_published_threads ts cur t tsync f : length (published_threads ts cur t tsync f) = length ts.
Proof. unfold published_threads. destruct tsync; [apply length_map|apply length_insert]. Qed.

(** Dropping the only reference to an unlinked filter frees it. *)
Lemma put_private h f x : h !! f = Some x -> refs x = 1 -> prev x = None -> sc_put h (Some f) = Ret (delete f h).
Proof.
  intros Hx Hr Hp. unfold sc_put. cbn [sc_put_loop]. rewrite Hx. cbn [deref]. rewrite ret_bind, Hr, Hp.
  by destruct (size h).
Qed.

(** How a thread's filters may change: its old chain is a tail of the new one. *)
Definition extends (h h' : filters) (u u' : thread) : Prop :=
  exists l pre, is_chain h (filter_of u) l /\ is_chain h' (filter_of u') (pre ++ l) /\
    (no_new_privs (creds u) = true -> no_new_privs (creds u') = true).

Definition sroom_by (n : Z) (s : sys) : Prop :=
  Z.of_nat (length (threads (sw s)) + length (held s) + length (priv s) + size (heap (sw s))) + n < 2 ^ 32.

(** A chain that starts at a published filter is the same after another filter
    was installed. *)
Lemma old_chain_kept s s' f :
  sys_inv s -> sys_inv s' -> sub_heap (delete f (heap (sw s'))) (heap (sw s)) -> In f (priv s) ->
  forall o lo, (forall g, o = Some g -> In g (omap filter_of (threads (sw s))) /\
    is_Some (heap (sw s') !! g)) -> is_chain (heap (sw s)) o lo -> is_chain (heap (sw s')) o lo.
Proof.
  intros Hs Hs' Hsub Hfp o lo Ho Hlo. destruct (si_priv s Hs f Hfp) as (Hnt & _ & _ & Hnl).
  destruct o as [g|]; [|inversion Hlo; constructor]. destruct (Ho g eq_refl) as [Hgt [y Hy]].
  destruct (is_chain_exists (S CHAIN_FUEL) (heap (sw s')) (holders s') (Some g) (si_heap s' Hs')) as [lg Hlg].
  { intros g' [= <-]. exists y. split; [done|]. split; [lia|].
    destruct (prev y) as [p|] eqn:Hpy; [right|by left].
    destruct (hi_prev _ _ (si_heap s' Hs') g y p Hy Hpy). unfold CHAIN_FUEL. lia. }
  assert (Hg2 : is_chain (heap (sw s)) (Some g) lg).
  { eapply is_chain_sub_delete; [exact Hsub|exact Hnl| |exact Hlg]. intros [= ->]. done. }
  by rewrite (is_chain_det _ _ _ Hlo _ Hg2).
Qed.

(** After a successful installation and the drop of the installer's reference. *)
Lemma installed_chains s s' f t x cur tsync l :
  sys_inv s -> sys_inv s' -> threads (sw s) !! cur = Some t ->
  sub_heap (delete f (heap (sw s'))) (heap (sw s)) ->
  threads (sw s') = published_threads (threads (sw s)) cur t tsync f -> in_group (tgid t) t = true ->
  In f (priv s) -> heap (sw s') !! f = Some x -> prev x = filter_of t ->
  is_chain (heap (sw s)) (filter_of t) l ->
  (tsync = true -> forall u, In u (threads (sw s)) -> in_group (tgid t) u = true ->
     exists l1 l2, l = l1 ++ l2 /\ is_chain (heap (sw s)) (filter_of u) l2) ->
  (exists t', threads (sw s') !! cur = Some t' /\ is_chain (heap (sw s')) (filter_of t') ((f, insn x) :: l)) /\
  forall j u, threads (sw s) !! j = Some u ->
    exists u', threads (sw s') !! j = Some u' /\ extends (heap (sw s)) (heap (sw s')) u u'.
Proof.
  intros Hs Hs' Ht Hsub Hts Hg Hfp Hx Hpx Hl Htail.
  destruct (si_priv s Hs f Hfp) as (Hnt & _ & _ & Hnl).
  pose proof (old_chain_kept s s' f Hs Hs' Hsub Hfp) as Hkeep.
  assert (Hnew : is_chain (heap (sw s')) (Some f) ((f, insn x) :: l)).
  { constructor; [done|]. rewrite Hpx. apply Hkeep; [|done]. intros g Hgt. split.
    - eapply thread_filter_In; eassumption.
    - rewrite Hgt in Hpx. destruct (hi_prev _ _ (si_heap s' Hs') f x g Hx Hpx) as [_ (y & Hy & _)]. eauto. }
  assert (Hsame : forall j u u', threads (sw s) !! j = Some u -> threads (sw s') !! j = Some u' ->
            filter_of u' = filter_of u -> (no_new_privs (creds u) = true -> no_new_privs (creds u') = true) ->
            extends (heap (sw s)) (heap (sw s')) u u').
  { intros j u u' Hu Hu' Ef Hn.
    destruct (is_chain_exists CHAIN_FUEL (heap (sw s)) (holders s) (filter_of u) (si_heap s Hs)) as [lu Hlu].
    { intros g Hgu. eapply fits_held; [by apply si_heap| |done]. apply in_app_iff. left.
      eapply thread_filter_In; eassumption. }
    exists lu, []. split; [done|]. split; [|done]. simpl. rewrite Ef. apply Hkeep; [|done].
    intros g Hgu. split; [eapply thread_filter_In; eassumption|].
    destruct (si_pub s' Hs' g) as (y & Hy & _); [|eauto]. rewrite <- Ef in Hgu.
    eapply thread_filter_In; eassumption. }
  rewrite Hts. unfold published_threads in *. destruct tsync.
  - split.
    + exists (tsync_thread (tgid t) f (no_new_privs (creds t)) t).
      change (map ?g ?l) with (g <$> l). rewrite list_lookup_fmap, Ht. split; [done|].
      unfold tsync_thread. rewrite Hg. by destruct (no_new_privs (creds t)).
    + intros j u Hu. eexists. change (map ?g ?l) with (g <$> l). rewrite list_lookup_fmap, Hu. split; [done|].
      destruct (in_group (tgid t) u) eqn:Hgu.
      * destruct (Htail eq_refl u) as (l1 & l2 & -> & Hl2);
          [apply list_elem_of_In; by eapply list_elem_of_lookup_2|done|].
        exists l2, ((f, insn x) :: l1). split; [done|]. unfold tsync_thread. rewrite Hgu.
        destruct (no_new_privs (creds t)); simpl; (split; [done|done]).
      * eapply (Hsame j u); [done| |by unfold tsync_thread; rewrite Hgu|by unfold tsync_thread; rewrite Hgu].
        rewrite Hts. change (map ?g ?l) with (g <$> l). by rewrite list_lookup_fmap, Hu.
  - assert (Hlt : (cur < length (threads (sw s)))%nat) by (by eapply lookup_lt_Some). split.
    + exists (set_filter (Some f) t). rewrite list_lookup_insert_eq by done. done.
    + intros j u Hu. destruct (decide (j = cur)) as [->|Hne].
      * exists (set_filter (Some f) t). rewrite list_lookup_insert_eq by done. split; [done|].
        simplify_eq. exists l, [(f, insn x)]. done.
      * exists u. rewrite list_lookup_insert_ne by done. split; [done|].
        apply (Hsame j); try done. rewrite Hts. by rewrite list_lookup_insert_ne.
Qed.

(** What an installation may do to the world: nothing, or put [code] in front of
    the chain of the caller (and of its group) without removing a filter. *)
Definition installed (w w' : world) (cur : nat) (f : Z) (code : list sc_instruction) : Prop :=
  (exists t t' l, threads w !! cur = Some t /\ threads w' !! cur = Some t' /\
     is_chain (heap w) (filter_of t) l /\ is_chain (heap w') (filter_of t') ((f, code) :: l)) /\
  forall j u, threads w !! j = Some u ->
    exists u', threads w' !! j = Some u' /\ extends (heap w) (heap w') u u'.

Lemma chain_fresh h H f x o lo : heap_inv h H -> h !! f = None -> o <> Some f ->
  is_chain h o lo <-> is_chain (<[f := x]> h) o lo.
Proof.
  intros Hi Hf Ho. split.
  - clear Ho. induction 1 as [|g y lo Hy _ IH]; [constructor|]. constructor; [|done].
    rewrite lookup_insert_ne; congruence.
  - apply is_chain_unlinked; [|done]. intros g y Hy Hpy.
    destruct (hi_prev _ _ Hi g y f Hy Hpy) as [_ (z & Hz & _)]. congruence.
Qed.

Lemma fresh_not_thread s f u : sys_inv s -> heap (sw s) !! f = None -> In u (threads (sw s)) ->
  filter_of u <> Some f.
Proof.
  intros Hs Hf Hu E. destruct (si_pub s Hs f) as (y & Hy & _); [|congruence].
  rewrite <- list_elem_of_In, list_elem_of_omap. exists u. by rewrite list_elem_of_In.
Qed.

Lemma control_install tid s cur tsync f t code :
  sys_inv s -> sroom_by 8 s -> threads (sw s) !! cur = Some t -> in_group (tgid t) t = true ->
  heap (sw s) !! f = None -> code_ok code ->
  exists r w', ('(r, w) ← install_locked tid (set_heap (<[f := mk_filter 1 0 None code]> (heap (sw s))) (sw s)) cur tsync f;
                drop_and_return w f r) = Ret (r, w') /\
    (w' = sw s \/ r = 0 /\ installed (sw s) w' cur f code).
Proof.
  intros Hs Hr Ht Hg Hf Hc. pose proof (alloc_step s f code Hs Hf Hc) as Hs1.
  set (w1 := set_heap _ (sw s)) in *. set (s1 := mk_sys w1 (held s) (f :: priv s)) in *.
  assert (Hsz : size (heap w1) = S (size (heap (sw s)))) by (by apply map_size_insert_None).
  assert (Hf1 : heap w1 !! f = Some (mk_filter 1 0 None code)) by apply lookup_insert_eq.
  assert (Hr1 : sroom s1) by (unfold sroom, sroom_by in *; simpl in *; lia).
  destruct (install_step tid s1 cur tsync f (priv s) t _ Hs1 Hr1 Ht ltac:(done) Hf1)
    as (r & w2 & E & Hs2 & Hsub & Hcase). cbn [sw s1] in E. rewrite E, ret_bind. unfold drop_and_return.
  destruct Hcase as [[Hts (c & Hh)]|(-> & Hts & (x' & Hx' & Hp' & Hn') & Htail)].
  - rewrite (put_private _ f (set_path_cost c (mk_filter 1 0 None code))); [|rewrite Hh; apply lookup_insert_eq|done|done].
    rewrite ret_bind. exists r, (sw s). split; [|by left].
    rewrite Hh. subst s1 w1. cbn [sw heap set_heap]. rewrite !delete_insert_eq, delete_id by done.
    unfold set_heap. rewrite Hts. by destruct (sw s).
  - pose proof (sub_heap_size _ _ Hsub) as Hsz2.
    assert (Hszd : size (heap w2) = S (size (delete f (heap w2)))).
    { rewrite <- (insert_id (heap w2) f x') at 1 by done. rewrite <- insert_delete_eq.
      apply map_size_insert_None, lookup_delete_eq. }
    destruct (put_step (mk_sys w2 (f :: held s) (priv s)) f (held s) Hs2) as (h3 & E3 & Hs3 & Hsub3); [|done|].
    { unfold sroom, sroom_by in *. cbn [sw threads held priv s1] in *. rewrite Hts, length_published_threads.
      subst w1. simpl in *. lia. }
    cbn [sw] in E3, Hs3, Hsub3. rewrite E3, ret_bind. exists 0, (set_heap h3 w2). split; [done|]. right. split; [done|].
    assert (Hf3 : In f (omap filter_of (threads w2))).
    { rewrite Hts. unfold published_threads. cbn [s1 sw]. destruct tsync.
      - apply (thread_filter_In _ cur (tsync_thread (tgid t) f (no_new_privs (creds t)) t)).
        + change (map ?g ?l) with (g <$> l). by rewrite list_lookup_fmap, (Ht : threads w1 !! cur = Some t).
        + unfold tsync_thread. rewrite Hg. by destruct (no_new_privs (creds t)).
      - apply (thread_filter_In _ cur (set_filter (Some f) t)); [|done].
        apply list_lookup_insert_eq. by eapply lookup_lt_Some. }
    destruct (sub_heap_lookup h3 (heap w2) _ f x' Hsub3 (si_heap _ Hs3)) as (x3 & Hx3 & E3x); [|done|].
    { unfold holders. rewrite in_app_iff. by left. }
    injection E3x as _ Ep En.
    destruct (is_chain_exists CHAIN_FUEL (heap (sw s)) (holders s) (filter_of t) (si_heap s Hs)) as [l Hl].
    { intros g Hgu. eapply fits_held; [by apply si_heap| |done]. apply in_app_iff. left.
      eapply thread_filter_In; eassumption. }
    assert (Hup := fun u lo Hu => chain_fresh (heap (sw s)) (holders s) f (mk_filter 1 0 None code)
      (filter_of u) lo (si_heap s Hs) Hf (fresh_not_thread s f u Hs Hf Hu)).
    assert (Hin : forall j u, threads (sw s) !! j = Some u -> In u (threads (sw s))).
    { intros j u Hu. apply list_elem_of_In. by eapply list_elem_of_lookup_2. }
    destruct (installed_chains s1 (mk_sys (set_heap h3 w2) (held s) (priv s)) f t x3 cur tsync l) as [[t' [Ht' Hl']] Hext];
      try done.
    { etransitivity; [|exact Hsub]. by apply sub_heap_delete_mono. }
    { by left. }
    { by rewrite Ep. }
    { by apply Hup; [eapply Hin|]. }
    { intros Ht2 u Hu Hgu. apply Htail; try done. by apply Hup; [eapply Hin|]. }
    split.
    + exists t, t', l. split; [done|]. split; [done|]. split; [done|]. by rewrite En, Hn' in Hl'.
    + intros j u Hu. destruct (Hext j u Hu) as (u' & Hu' & lu & pre & Hlu & Hlu' & Hn). exists u'.
      split; [done|]. exists lu, pre. split; [|done]. by apply Hup; [eapply Hin|].
Qed.

(** The world after [seccomp_control] with result [r]. *)
Definition control_post (w : world) (cur : nat) (t : thread) (op r : Z) (w' : world) : Prop :=
  exists c, (c = creds t \/ c = ensure (creds t)) /\
    let w1 := set_thread cur (set_creds c t) w in
    (w' = w1 \/
     r = 0 /\ op = 1 /\ (no_new_privs (creds t) = true \/ has_cap (ensure (creds t)) CAP_SYS_ADMIN = true) /\
     exists f code, code_ok code /\ installed w1 w' cur f code).

(** The rest of [seccomp_control] once the arguments were read. *)
Lemma control_after_checks copy tid s cur t kmf kms op flags bs program :
  UserMemory copy -> sys_inv s -> sroom_by 8 s -> threads (sw s) !! cur = Some t ->
  in_group (tgid t) t = true -> (forall f, kmf = Some f -> heap (sw s) !! f = None) ->
  op = 1 -> Forall (fun b => 0 <= b < 256) bs -> le_at bs 0 2 <> 0 -> le_at bs 0 2 <= SC_MAX_INSNS ->
  exists r w',
    (let '(allowed, c) :=
       if no_new_privs (creds t) then (true, creds t)
       else (has_cap (ensure (creds t)) CAP_SYS_ADMIN, ensure (creds t)) in
     let w := set_thread cur (set_creds c t) (sw s) in
     if negb allowed then Ret (-13, w)
     else match kmf with
     | None => Ret (-12, w)
     | Some f =>
       match copy program (le_at bs 0 2 * 8) with
       | None => drop_and_return (set_heap (<[f := mk_filter 1 0 None []]> (heap w)) w) f (-14)
       | Some bs' =>
         let code := parse_insns bs' (le_at bs 0 2) in
         let w := set_heap (<[f := mk_filter 1 0 None code]> (heap w)) w in
         match sc_verify kms code with
         | Err e => drop_and_return w f e
         | Ret _ =>
           '(r, w) ← install_locked tid w cur (nz (Z.land flags 1)) f;
           drop_and_return w f r
         | Fault => Fault
         | OutOfFuel => OutOfFuel
         end
       end
     end) = Ret (r, w') /\
  control_post (sw s) cur t op r w'.
Proof.
  intros Hu Hs Hr Ht Hg Hk Hop Hb Hc0 Hc1.
  destruct (if no_new_privs (creds t) then _ else _) as [allowed c] eqn:Hal.
  assert (Hc : (c = creds t \/ c = ensure (creds t)) /\
    (allowed = true -> no_new_privs (creds t) = true \/ has_cap (ensure (creds t)) CAP_SYS_ADMIN = true)).
  { destruct (no_new_privs (creds t)); injection Hal as <- <-; auto. }
  destruct Hc as [Hc Hpriv]. set (w1 := set_thread cur (set_creds c t) (sw s)).
  assert (Hs1 : sys_inv (mk_sys w1 (held s) (priv s))).
  { apply (sys_inv_same_filters s); [done|]. by apply filters_set_creds. }
  assert (Ht1 : threads w1 !! cur = Some (set_creds c t)).
  { apply list_lookup_insert_eq. by eapply lookup_lt_Some. }
  assert (Hstay : forall r, exists r' w', Ret (r, w1) = Ret (r', w') /\ control_post (sw s) cur t op r' w').
  { intros r. exists r, w1. split; [done|]. exists c. split; [done|]. by left. }
  destruct allowed; [|apply Hstay]. cbn [negb]. destruct kmf as [f|]; [|apply Hstay].
  specialize (Hk f eq_refl).
  assert (Hdrop : forall code e, drop_and_return (set_heap (<[f := mk_filter 1 0 None code]> (heap w1)) w1) f e
                                 = Ret (e, w1)).
  { intros code e. unfold drop_and_return.
    rewrite (put_private _ f (mk_filter 1 0 None code)) by (try apply lookup_insert_eq; done).
    rewrite ret_bind. cbn [heap set_heap]. rewrite delete_insert_eq, delete_id by done. by destruct w1. }
  destruct (copy program (le_at bs 0 2 * 8)) as [bs'|] eqn:Hb'; [|rewrite Hdrop; apply Hstay].
  destruct (Hu _ _ _ Hb') as [_ Hbytes]. pose proof (le_at_range bs 0 2 Hb).
  destruct (parse_insns_ok bs' (le_at bs 0 2) Hbytes ltac:(lia)) as [Hwf Hlen].
  cbv zeta. set (code := parse_insns bs' (le_at bs 0 2)) in *.
  pose proof (sc_verify_total kms code Hwf ltac:(lia)) as Hd.
  destruct (sc_verify kms code) as [[]|e| |] eqn:Hv; try done; [|rewrite Hdrop; apply Hstay].
  destruct (control_install tid (mk_sys w1 (held s) (priv s)) cur (nz (Z.land flags 1)) f (set_creds c t) code)
    as (r & w' & E & Hcase); try done.
  { unfold sroom_by in *. simpl in *. by rewrite length_insert. }
  { split; [done|]. split; [lia|by exists kms]. }
  exists r, w'. split; [exact E|]. exists c. split; [done|].
  destruct Hcase as [->|[-> Hin]]; [by left|]. right. split; [done|]. split; [done|]. split; [by apply Hpriv|].
  exists f, code. split; [|done]. split; [done|]. split; [lia|by exists kms].
Qed.

(** ** The properties *)

(** C12: reference counting is exact in every interleaving of the locked and
    unlocked parts of the operations: every counter equals the number of
    threads, pins and links that refer to the filter and is positive (nothing
    leaks), every such reference is to a live filter (nothing dangles), links
    lead to cheaper filters, an unpublished filter is referred to by its
    installer only, and every filter of the heap passed the verifier. *)
Theorem seccomp_refcounts_exact s : reachable s -> sys_inv s.
Proof. apply reachable_inv. Qed.

(** from a reachable state no operation dereferences a freed filter or
    loops: inheriting, pinning, dropping a reference and installing all return. *)
Theorem seccomp_ops_defined s : reachable s -> sroom s ->
  (forall c p, is_Some (threads (sw s) !! c) -> is_Some (threads (sw s) !! p) ->
     exists r, inherit_locked (sw s) c p = Ret r) /\
  (forall i, is_Some (threads (sw s) !! i) -> exists r, syscall_pin (sw s) i = Ret r) /\
  (forall f, In f (held s) -> exists h, sc_put (heap (sw s)) (Some f) = Ret h) /\
  (forall tid cur tsync f, is_Some (threads (sw s) !! cur) -> In f (priv s) ->
     exists r, install_locked tid (sw s) cur tsync f = Ret r).
Proof.
  intros Hreach Hr. apply reachable_inv in Hreach as Hs. split; [|split; [|split]].
  - intros c p [tc Hc] [tp Hp]. destruct (inherit_step s c p tc tp Hs Hr Hc Hp) as (w' & E & _). eauto.
  - intros i [t Ht]. destruct (pin_step s i t Hs Hr Ht) as (h & E & _). eauto.
  - intros f Hf. apply in_split in Hf as (l1 & l2 & E).
    destruct (put_step s f (l1 ++ l2) Hs Hr) as (h & E' & _); [rewrite E; solve_Permutation|eauto].
  - intros tid cur tsync f [t Ht] Hf. destruct (si_priv s Hs f Hf) as (_ & _ & (x & Hx & _) & _).
    apply in_split in Hf as (l1 & l2 & E).
    destruct (install_step tid s cur tsync f (l1 ++ l2) t x Hs Hr Ht) as (r & w' & E' & _);
      [rewrite E; solve_Permutation|done|eauto].
Qed.

(** the chain behind a pinned reference does not change while the
    reference is held, whatever other threads install, inherit, synchronise or
    release in the meantime: a running [seccomp_syscall] walks an immutable
    chain. *)
Theorem pinned_chain_immutable s s' f l :
  reachable s -> In f (held s) ->
  rtc (fun a b => sroom a /\ step a b /\ In f (held b)) s s' ->
  is_chain (heap (sw s)) (Some f) l -> is_chain (heap (sw s')) (Some f) l.
Proof.
  intros Hreach Hf Hrun. apply reachable_inv in Hreach as Hs. clear Hreach. revert Hs Hf.
  induction Hrun as [|a b c (Hr & Hst & Hb) _ IH]; intros Hs Hf Hl; [done|].
  apply IH; [by eapply step_inv|done|]. by eapply step_chain.
Qed.

(** [seccomp_control] returns and is atomic. Either it leaves the filters
    and every counter exactly as they were (the capability sets of the caller
    may have been initialised), or it returns 0 and the caller has no_new_privs
    or CAP_SYS_ADMIN, the new program passed the verifier and is in front of the
    caller's chain, and every thread's old chain is a tail of its new one and
    keeps its no_new_privs: no filter is ever removed. *)
Theorem seccomp_control_atomic copy tid s cur t kmf kms op flags uargs :
  UserMemory copy -> reachable s -> sroom_by 8 s -> threads (sw s) !! cur = Some t ->
  in_group (tgid t) t = true -> (forall f, kmf = Some f -> heap (sw s) !! f = None) ->
  exists r w', seccomp_control copy tid kmf kms (sw s) (Some cur) op flags uargs = Ret (r, w') /\
  control_post (sw s) cur t op r w'.
Proof.
  intros Hu Hreach Hr Ht Hg Hk. apply reachable_inv in Hreach as Hs.
  assert (Hid : set_thread cur (set_creds (creds t) t) (sw s) = sw s).
  { unfold set_thread. rewrite list_insert_id by (rewrite Ht; by destruct t). by destruct (sw s). }
  unfold seccomp_control. rewrite Ht. cbn [deref]. rewrite ret_bind.
  assert (Hstay : forall r, exists r' w', Ret (r, sw s) = Ret (r', w') /\ control_post (sw s) cur t op r' w').
  { intros r. exists r, (sw s). split; [done|]. exists (creds t). split; [by left|]. left. by rewrite Hid. }
  destruct (op =? 2).
  { destruct (nz flags); [apply Hstay|]. destruct (copy uargs 4); apply Hstay. }
  destruct (negb (op =? 1) || nz (Z.land flags 0xfffffffe)) eqn:Hop; [apply Hstay|]. reify_bools.
  destruct (copy uargs 2) as [bs|] eqn:Hb; [|apply Hstay].
  destruct (match mm t with Some true => _ | _ => _ end) as [program|]; [|apply Hstay].
  destruct ((le_at bs 0 2 =? 0) || (SC_MAX_INSNS <? le_at bs 0 2)) eqn:Hcount; [apply Hstay|]. reify_bools.
  apply control_after_checks; try done. by destruct (Hu _ _ _ Hb).
Qed.

(** [seccomp_syscall] returns. It runs every filter of the thread's chain
    on the system call, newest first, acts on the combined verdict, and leaves
    every reference count as it was. *)
Theorem seccomp_syscall_spec s i t r nr arch uargs :
  reachable s -> sroom s -> threads (sw s) !! i = Some t -> length uargs = 6%nat ->
  exists l rs, is_chain (heap (sw s)) (filter_of t) l /\
    Forall2 (fun p v => sc_run p.2 (mk_data nr arch (rip r) uargs) = Ret v) l rs /\
    seccomp_syscall (sw s) (Some i) r nr arch uargs =
      let '(ok, r', t', ev) := act i t r nr arch (verdict rs) in Ret (ok, r', set_thread i t' (sw s), ev).
Proof.
  intros Hreach Hr Ht Hu. apply reachable_inv in Hreach as Hs. unfold seccomp_syscall. rewrite Ht.
  cbn [deref]. rewrite ret_bind. destruct (filter_of t) as [f|] eqn:Hf.
  - assert (Hin : In f (holders s)).
    { apply in_app_iff. left. eapply thread_filter_In; eassumption. }
    destruct (pin_step s i t Hs Hr Ht) as (h' & -> & Eg & Hs' & Hsub & Hsub'). rewrite ret_bind, Hf in *.
    destruct (held_chain _ _ f (si_heap s Hs) Hin) as [l Hl]. exists l.
    assert (Hin' : In f (holders (mk_sys (set_heap h' (sw s)) (olist (Some f) ++ held s) (priv s)))).
    { unfold holders. rewrite !in_app_iff. right. left. by left. }
    pose proof (si_heap _ Hs') as Hi'. cbn [sw] in Hi'.
    destruct (verdict_loop_spec CHAIN_FUEL h' _ (Some f) l (mk_data nr arch (rip r) uargs) SC_ALLOW Hi')
      as (rs & Hrs & E).
    { eapply fits_held; eassumption. }
    { by eapply is_chain_sub. }
    { done. }
    { intros g x Hx. by eapply (si_code _ Hs'). }
    exists rs. split; [done|]. split; [done|]. cbn [heap set_heap]. rewrite E, ret_bind.
    unfold put_held. cbn [fst snd heap set_heap].
    rewrite (put_get (heap (sw s)) (holders s) f h'); [|by apply si_heap|done| |done].
    2:{ apply (sroom_room s); [done|simpl; lia]. }
    rewrite !ret_bind. unfold verdict. destruct (act _ _ _ _ _ _) as [[[? ?] ?] ?].
    destruct (sw s); done.
  - exists [], []. split; [constructor|]. split; [constructor|].
    rewrite act_no_filter. unfold set_thread. rewrite list_insert_id by done. by destruct (sw s).
Qed.

(** the combined verdict is the most restrictive one. It is at least as
    restrictive as the result of every filter and is the result of one of them
    (or ALLOW for no filter), the system call proceeds only if every filter
    allows it, and a further filter in front never loosens it. Unsupported
    actions count as KILL_PROCESS. *)
Theorem verdict_most_restrictive rs x i t r nr arch :
  (forall v, In v rs -> severity (verdict rs) <= severity v) /\
  In (severity (verdict rs)) (s32 SC_ALLOW :: map severity rs) /\
  ((act i t r nr arch (verdict rs)).1.1.1 = true <-> Forall (fun v => Z.land v SC_MASK = SC_ALLOW) rs) /\
  severity (verdict (x :: rs)) = Z.min (severity x) (severity (verdict rs)).
Proof.
  destruct (verdict_severity rs) as [E Hsup].
  split; [|split; [|split]].
  - intros v Hv. rewrite E. apply foldl_min_le. right. by apply in_map.
  - rewrite E. apply foldl_min_In.
  - assert (Hact : (act i t r nr arch (verdict rs)).1.1.1 = true <-> Z.land (verdict rs) SC_MASK = SC_ALLOW).
    { unfold act. destruct (Z.land (verdict rs) SC_MASK =? SC_ALLOW) eqn:E1; reify_bools; [done|].
      repeat (case_match; try done). }
    rewrite Hact, <- allow_severity, E. apply severity_all_allow.
  - rewrite E. unfold verdict. cbn [foldl]. destruct (combine_spec SC_ALLOW x eq_refl) as [Hs1 E1].
    destruct (foldl_combine_spec rs _ Hs1) as [_ ->]. rewrite E1. apply foldl_min_swap.
Qed.

(** *** Witnesses *)

Definition sample_cred : cred :=
  mk_cred 1000 1000 1000 true true 0 0 0 CAP_VALID_MASK 0 0 None [None; None; None; None].
Definition sample_sig : sigsys := mk_sigsys false false 0 0 0 0 1 0 0 0.
Definition sample_thread : thread := mk_thread 7 RUNNING sample_cred (Some false) None sample_sig.

(** Two threads; the first one has synchronised a filter at address 100 and
    still holds its own reference. *)
Definition sample_boot : sys := boot [sample_thread; sample_thread].
Definition sample_alloc : sys :=
  mk_sys (set_heap (<[100 := mk_filter 1 0 None sample_filter]> (heap (sw sample_boot))) (sw sample_boot)) [] [100].
Definition sample_tid (_ i : nat) : Z := Z.of_nat i + 1.
Definition sample_sys : sys :=
  match install_locked sample_tid (sw sample_alloc) 0 true 100 with
  | Ret (_, w) => mk_sys w [100] []
  | _ => sample_boot
  end.

Lemma sample_code_ok : code_ok sample_filter.
Proof.
  split; [apply sample_filter_wf|]. split; [vm_compute; split; discriminate|].
  exists true. vm_compute. reflexivity.
Qed.

Lemma sample_alloc_reachable : reachable sample_alloc.
Proof.
  apply (reach_step sample_boot); [by apply reach_boot; repeat constructor|by vm_compute|].
  apply (st_alloc (sw sample_boot) [] [] 100); [done|apply sample_code_ok].
Qed.

Lemma sample_sys_reachable : reachable sample_sys.
Proof.
  apply (reach_step sample_alloc); [apply sample_alloc_reachable|by vm_compute|].
  eapply (st_install _ _ [] [100] [] 0%nat true 100 sample_tid 0); [done|vm_compute; reflexivity].
Qed.

Lemma seccomp_refcounts_exact_witness :
  refs <$> heap (sw sample_sys) !! 100 = Some 3 /\ sys_inv sample_sys.
Proof.
  split; [vm_compute; reflexivity|exact (seccomp_refcounts_exact sample_sys sample_sys_reachable)].
Defined.

Lemma seccomp_ops_defined_witness :
  exists h, sc_put (heap (sw sample_sys)) (Some 100) = Ret h.
Proof.
  refine (proj1 (proj2 (proj2 (seccomp_ops_defined sample_sys sample_sys_reachable _))) 100 _);
    [by vm_compute|by left].
Defined.

(** The pinned chain survives the release of both threads. *)
Definition sample_released : sys :=
  match release_locked (sw sample_sys) 0 with
  | Ret (w, _) =>
    match sc_put (heap w) (Some 100) with
    | Ret h => mk_sys (set_heap h w) [100] []
    | _ => sample_boot
    end
  | _ => sample_boot
  end.

Lemma pinned_chain_immutable_witness :
  is_chain (heap (sw sample_released)) (Some 100) [(100, sample_filter)].
Proof.
  refine (pinned_chain_immutable sample_sys sample_released 100 _ sample_sys_reachable _ _ _).
  - by left.
  - eapply rtc_l; [split; [by vm_compute|]; split|].
    + eapply st_release with (i := 0%nat). vm_compute. reflexivity.
    + by left.
    + eapply rtc_l; [split; [by vm_compute|]; split|apply rtc_refl].
      * eapply (st_put _ _ _ [100] [] 100); [done|]. vm_compute. reflexivity.
      * by left.
  - apply (chain_cons _ 100 (mk_filter 3 7 None sample_filter)); [vm_compute; reflexivity|constructor].
Defined.

Lemma seccomp_syscall_spec_witness :
  exists l rs, is_chain (heap (sw sample_sys)) (Some 100) l /\
    Forall2 (fun p v => sc_run p.2 (mk_data 59 0xc000003e 0x401000 (replicate 6 0)) = Ret v) l rs /\
    exists w ev, seccomp_syscall (sw sample_sys) (Some 1%nat) (mk_regs 0x401000 59) 59 0xc000003e (replicate 6 0)
      = Ret (false, mk_regs 0x401000 (UINT64_MAX), w, ev).
Proof.
  destruct (threads (sw sample_sys) !! 1%nat) as [t|] eqn:Ht; [|vm_compute in Ht; discriminate].
  destruct (seccomp_syscall_spec sample_sys 1 t (mk_regs 0x401000 59) 59 0xc000003e (replicate 6 0)
              sample_sys_reachable ltac:(by vm_compute) Ht eq_refl) as (l & rs & Hl & Hrs & _).
  vm_compute in Ht. injection Ht as <-. exists l, rs. split; [exact Hl|]. split; [exact Hrs|].
  do 2 eexists. vm_compute. reflexivity.
Defined.

(** A user memory that holds the sample program. *)
Definition sample_memory (a n : Z) : option (list Z) :=
  if (a =? 1000) && (n =? 2) then Some (le_bytes 2 7)
  else if (a =? 1008) && (n =? 8) then Some (le_bytes 8 2000)
  else if (a =? 2000) && (n =? 56) then
    Some (concat (map (fun p => le_bytes 2 (code p) ++ le_bytes 1 (jt p) ++ le_bytes 1 (jf p) ++ le_bytes 4 (k p))
                      sample_filter))
  else None.
#[local] Instance sample_memory_ok : UserMemory sample_memory.
Proof.
  intros a n bs. unfold sample_memory. repeat case_match; intros E; simplify_eq; reify_bools; subst;
    (split; [done|vm_compute; repeat constructor; discriminate]).
Qed.

Lemma seccomp_control_atomic_witness :
  exists r w', seccomp_control sample_memory sample_tid (Some 200) true (sw sample_sys) (Some 0%nat) 1 1 1000
               = Ret (r, w') /\
    (exists t, threads (sw sample_sys) !! 0%nat = Some t /\ control_post (sw sample_sys) 0 t 1 r w') /\
    r = 0 /\ filter_of <$> threads w' !! 1%nat = Some (Some 200).
Proof.
  destruct (threads (sw sample_sys) !! 0%nat) as [t|] eqn:Ht; [|vm_compute in Ht; discriminate].
  destruct (seccomp_control_atomic sample_memory sample_tid sample_sys 0 t (Some 200) true 1 1 1000
              sample_memory_ok sample_sys_reachable) as (r & w' & E & Hpost).
  - by vm_compute.
  - exact Ht.
  - vm_compute in Ht. injection Ht as <-. reflexivity.
  - intros f [= <-]. vm_compute. reflexivity.
  - exists r, w'. split; [exact E|]. split; [by exists t|]. vm_compute in E. injection E as <- <-.
    split; reflexivity.
Defined.

End SeccompChain.
