(* ===== verification/AvmLapic.v ===== *)
(** AvmLapic: the in-kernel local APIC of a virtual CPU
    ([kernel/src/avm/avm_lapic.c], the whole file).

    Registers are 32- or 64-bit values in [Z]; the ISR, TMR and IRR banks are
    lists of eight words. The host clock is an argument, and so are the id of
    the virtual CPU and the flag [vm->irqchip]. *)

From S2P Require Import Prelude.

Module AvmLapic.

Definition SVR_ENABLE : Z := bit 8.
Definition LVT_MASKED : Z := bit 16.
Definition LVT_TIMER_PERIODIC : Z := bit 17.
Definition LVT_TIMER_TSC_DEADLINE : Z := bit 18.
Definition LVT_WRITABLE_MASK : Z := 0x3A7FF.

Definition X2_ID : Z := 0x802.
Definition X2_VERSION : Z := 0x803.
Definition X2_TPR : Z := 0x808.
Definition X2_PPR : Z := 0x80A.
Definition X2_EOI : Z := 0x80B.
Definition X2_LDR : Z := 0x80D.
Definition X2_SVR : Z := 0x80F.
Definition X2_ISR0 : Z := 0x810.
Definition X2_TMR0 : Z := 0x818.
Definition X2_IRR0 : Z := 0x820.
Definition X2_ESR : Z := 0x828.
Definition X2_LVT_TIMER : Z := 0x832.
Definition X2_LVT_ERROR : Z := 0x837.
Definition X2_TIMER_INIT : Z := 0x838.
Definition X2_TIMER_CUR : Z := 0x839.
Definition X2_TIMER_DIV : Z := 0x83E.
Definition MSR_APIC_BASE : Z := 0x1B.
Definition X2APIC_MSR_FIRST : Z := 0x800.
Definition X2APIC_MSR_LAST : Z := 0x8FF.

Record avm_lapic := mk_lapic {
  apic_base : Z; svr : Z; tpr : Z; esr : Z; lvt : list Z;
  timer_init : Z; timer_div : Z; timer_armed : bool;
  timer_deadline_ns : Z; timer_period_ns : Z;
  irr : list Z; isr : list Z; tmr : list Z }.
Definition set_apic_base (v : _) (l : avm_lapic) : avm_lapic :=
  mk_lapic v (svr l) (tpr l) (esr l) (lvt l) (timer_init l) (timer_div l) (timer_armed l) (timer_deadline_ns l) (timer_period_ns l) (irr l) (isr l) (tmr l).
Definition set_svr (v : _) (l : avm_lapic) : avm_lapic :=
  mk_lapic (apic_base l) v (tpr l) (esr l) (lvt l) (timer_init l) (timer_div l) (timer_armed l) (timer_deadline_ns l) (timer_period_ns l) (irr l) (isr l) (tmr l).
Definition set_tpr (v : _) (l : avm_lapic) : avm_lapic :=
  mk_lapic (apic_base l) (svr l) v (esr l) (lvt l) (timer_init l) (timer_div l) (timer_armed l) (timer_deadline_ns l) (timer_period_ns l) (irr l) (isr l) (tmr l).
Definition set_esr (v : _) (l : avm_lapic) : avm_lapic :=
  mk_lapic (apic_base l) (svr l) (tpr l) v (lvt l) (timer_init l) (timer_div l) (timer_armed l) (timer_deadline_ns l) (timer_period_ns l) (irr l) (isr l) (tmr l).
Definition set_lvt (v : _) (l : avm_lapic) : avm_lapic :=
  mk_lapic (apic_base l) (svr l) (tpr l) (esr l) v (timer_init l) (timer_div l) (timer_armed l) (timer_deadline_ns l) (timer_period_ns l) (irr l) (isr l) (tmr l).
Definition set_timer_init (v : _) (l : avm_lapic) : avm_lapic :=
  mk_lapic (apic_base l) (svr l) (tpr l) (esr l) (lvt l) v (timer_div l) (timer_armed l) (timer_deadline_ns l) (timer_period_ns l) (irr l) (isr l) (tmr l).
Definition set_timer_div (v : _) (l : avm_lapic) : avm_lapic :=
  mk_lapic (apic_base l) (svr l) (tpr l) (esr l) (lvt l) (timer_init l) v (timer_armed l) (timer_deadline_ns l) (timer_period_ns l) (irr l) (isr l) (tmr l).
Definition set_timer_armed (v : _) (l : avm_lapic) : avm_lapic :=
  mk_lapic (apic_base l) (svr l) (tpr l) (esr l) (lvt l) (timer_init l) (timer_div l) v (timer_deadline_ns l) (timer_period_ns l) (irr l) (isr l) (tmr l).
Definition set_timer_deadline_ns (v : _) (l : avm_lapic) : avm_lapic :=
  mk_lapic (apic_base l) (svr l) (tpr l) (esr l) (lvt l) (timer_init l) (timer_div l) (timer_armed l) v (timer_period_ns l) (irr l) (isr l) (tmr l).
Definition set_timer_period_ns (v : _) (l : avm_lapic) : avm_lapic :=
  mk_lapic (apic_base l) (svr l) (tpr l) (esr l) (lvt l) (timer_init l) (timer_div l) (timer_armed l) (timer_deadline_ns l) v (irr l) (isr l) (tmr l).
Definition set_irr (v : _) (l : avm_lapic) : avm_lapic :=
  mk_lapic (apic_base l) (svr l) (tpr l) (esr l) (lvt l) (timer_init l) (timer_div l) (timer_armed l) (timer_deadline_ns l) (timer_period_ns l) v (isr l) (tmr l).
Definition set_isr (v : _) (l : avm_lapic) : avm_lapic :=
  mk_lapic (apic_base l) (svr l) (tpr l) (esr l) (lvt l) (timer_init l) (timer_div l) (timer_armed l) (timer_deadline_ns l) (timer_period_ns l) (irr l) v (tmr l).
Definition set_tmr (v : _) (l : avm_lapic) : avm_lapic :=
  mk_lapic (apic_base l) (svr l) (tpr l) (esr l) (lvt l) (timer_init l) (timer_div l) (timer_armed l) (timer_deadline_ns l) (timer_period_ns l) (irr l) (isr l) v.

(** ** 256-bit vector sets *)

Definition word_of (bits : list Z) (i : nat) : Z := nth i bits 0.
Definition bit_set (bits : list Z) (v : Z) : list Z :=
  let i := Z.to_nat (Z.shiftr v 5) in
  <[i := Z.lor (word_of bits i) (bit (Z.land v 31))]> bits.
Definition bit_clear (bits : list Z) (v : Z) : list Z :=
  let i := Z.to_nat (Z.shiftr v 5) in
  <[i := Z.land (word_of bits i) (UINT32_MAX - bit (Z.land v 31))]> bits.

(** The inner loop: the highest of the [n] low bits of [w]. *)
Fixpoint highest_in (w : Z) (n : nat) : option Z :=
  match n with
  | O => None
  | S b => if nz (Z.land w (bit (Z.of_nat b))) then Some (Z.of_nat b) else highest_in w b
  end.
(** The outer loop over the words [n-1 .. 0]; [None] is the result -1. *)
Fixpoint highest_word (bits : list Z) (n : nat) : option Z :=
  match n with
  | O => None
  | S i =>
    if word_of bits i =? 0 then highest_word bits i
    else match highest_in (word_of bits i) 32 with
         | Some b => Some (Z.of_nat i * 32 + b)
         | None => highest_word bits i
         end
  end.
Definition highest_bit (bits : list Z) : option Z := highest_word bits 8.

(** ** Timer *)

Definition timer_divisor (div : Z) : Z :=
  let enc := Z.lor (Z.land div 3) (Z.land (Z.shiftr div 1) 4) in
  if enc =? 7 then 1 else Z.shiftl 2 enc.

Definition timer_start (l : avm_lapic) (now : Z) : avm_lapic :=
  if timer_init l =? 0 then set_timer_armed false l
  else
    let period := u64 (timer_init l * timer_divisor (timer_div l) * 1000) in
    set_timer_armed true (set_timer_deadline_ns (u64 (now + period)) (set_timer_period_ns period l)).

Definition timer_current (l : avm_lapic) (now : Z) : Z :=
  if negb (timer_armed l) || (timer_deadline_ns l <=? now) then 0
  else
    let unit_ns := timer_divisor (timer_div l) * 1000 in
    u32 (u64 (timer_deadline_ns l - now + unit_ns - 1) / unit_ns).

Definition ppr_value (l : avm_lapic) : Z :=
  match highest_bit (isr l) with
  | None => tpr l
  | Some i => if Z.shiftr i 4 <=? Z.shiftr (tpr l) 4 then tpr l else Z.land i 0xF0
  end.

Definition lvt0 (l : avm_lapic) : Z := nth 0 (lvt l) 0.

Definition timer_tick (l : avm_lapic) (now : Z) : avm_lapic :=
  if negb (timer_armed l) || (now <? timer_deadline_ns l) then l
  else
    let l := if nz (Z.land (lvt0 l) LVT_MASKED) then l
             else set_irr (bit_set (irr l) (Z.land (lvt0 l) 0xFF)) l in
    if nz (Z.land (lvt0 l) LVT_TIMER_PERIODIC) && nz (timer_period_ns l) then
      let l := set_timer_deadline_ns (u64 (timer_deadline_ns l + timer_period_ns l)) l in
      if timer_deadline_ns l <=? now
      then set_timer_deadline_ns (u64 (now + timer_period_ns l)) l else l
    else set_timer_armed false l.

(** ** Registers *)

Definition avm_lapic_init (id : Z) : avm_lapic :=
  mk_lapic (Z.lor (Z.lor 0xFEE00000 (bit 11)) (if id =? 0 then bit 8 else 0))
           0xFF 0 0 (replicate 6 LVT_MASKED) 0 0 false 0 0
           (replicate 8 0) (replicate 8 0) (replicate 8 0).

(** [Err (-1)] is the result -1. *)
Definition avm_lapic_rdmsr (irqchip : bool) (id now : Z) (l : avm_lapic) (msr : Z) : outcome Z :=
  if negb irqchip then Err (-1)
  else if msr =? MSR_APIC_BASE then Ret (apic_base l)
  else if (msr <? X2APIC_MSR_FIRST) || (X2APIC_MSR_LAST <? msr) then Err (-1)
  else if msr =? X2_ID then Ret id
  else if msr =? X2_VERSION then Ret 0x00050014
  else if msr =? X2_TPR then Ret (tpr l)
  else if msr =? X2_PPR then Ret (ppr_value l)
  else if msr =? X2_LDR then
    Ret (Z.lor (bit (Z.land id 0xF)) (u32 (Z.shiftl (Z.land id 0xFFFFFFF0) 16)))
  else if msr =? X2_SVR then Ret (svr l)
  else if msr =? X2_ESR then Ret (esr l)
  else if (X2_LVT_TIMER <=? msr) && (msr <=? X2_LVT_ERROR) then
    arr_get (lvt l) (if msr =? X2_LVT_ERROR then 5 else msr - X2_LVT_TIMER)
  else if msr =? X2_TIMER_INIT then Ret (timer_init l)
  else if msr =? X2_TIMER_CUR then Ret (timer_current l now)
  else if msr =? X2_TIMER_DIV then Ret (timer_div l)
  else if (X2_ISR0 <=? msr) && (msr <? X2_ISR0 + 8) then arr_get (isr l) (msr - X2_ISR0)
  else if (X2_TMR0 <=? msr) && (msr <? X2_TMR0 + 8) then arr_get (tmr l) (msr - X2_TMR0)
  else if (X2_IRR0 <=? msr) && (msr <? X2_IRR0 + 8) then arr_get (irr l) (msr - X2_IRR0)
  else Err (-1).

Definition avm_lapic_wrmsr (irqchip : bool) (now : Z) (l : avm_lapic) (msr val : Z)
    : outcome avm_lapic :=
  if negb irqchip then Err (-1)
  else if msr =? MSR_APIC_BASE then Ret (set_apic_base val l)
  else if (msr <? X2APIC_MSR_FIRST) || (X2APIC_MSR_LAST <? msr) then Err (-1)
  else if nz (Z.shiftr val 32) then Err (-1)
  else
    let v := u32 val in
    if msr =? X2_TPR then Ret (set_tpr (Z.land v 0xFF) l)
    else if msr =? X2_EOI then
      if nz v then Err (-1)
      else Ret (match highest_bit (isr l) with
                | Some i => set_isr (bit_clear (isr l) i) l
                | None => l
                end)
    else if msr =? X2_SVR then Ret (set_svr (Z.land v 0x3FF) l)
    else if msr =? X2_ESR then Ret (set_esr 0 l)
    else if msr =? X2_LVT_TIMER then
      if nz (Z.land v LVT_TIMER_TSC_DEADLINE) then Err (-1)
      else lv ← arr_set (lvt l) 0 (Z.land v LVT_WRITABLE_MASK); Ret (set_lvt lv l)
    else if (X2_LVT_TIMER <? msr) && (msr <? X2_LVT_ERROR) then
      lv ← arr_set (lvt l) (msr - X2_LVT_TIMER) (Z.land v LVT_WRITABLE_MASK); Ret (set_lvt lv l)
    else if msr =? X2_LVT_ERROR then
      lv ← arr_set (lvt l) 5 (Z.land v LVT_WRITABLE_MASK); Ret (set_lvt lv l)
    else if msr =? X2_TIMER_INIT then Ret (timer_start (set_timer_init v l) now)
    else if msr =? X2_TIMER_DIV then Ret (set_timer_div (Z.land v 0xB) l)
    else Err (-1).

(** ** Delivery *)

Definition deliverable (l : avm_lapic) : option Z :=
  if negb (nz (Z.land (svr l) SVR_ENABLE)) then None
  else match highest_bit (irr l) with
  | None => None
  | Some v =>
    if Z.shiftr v 4 <=? Z.shiftr (tpr l) 4 then None
    else match highest_bit (isr l) with
         | Some i => if Z.shiftr v 4 <=? Z.shiftr i 4 then None else Some v
         | None => Some v
         end
  end.

Definition avm_lapic_tick (l : avm_lapic) (now : Z) : avm_lapic := timer_tick l now.

Definition avm_lapic_next_vector (l : avm_lapic) (now : Z) : option Z * avm_lapic :=
  let l := timer_tick l now in
  match deliverable l with
  | None => (None, l)
  | Some v => (Some v, set_isr (bit_set (isr l) v) (set_irr (bit_clear (irr l) v) l))
  end.

Definition avm_lapic_raise (l : avm_lapic) (vector : Z) : avm_lapic :=
  if vector <? 16 then l else set_irr (bit_set (irr l) vector) l.

(** ** xAPIC MMIO *)

Definition xapic_msr (off : Z) : option Z :=
  if (off <? 0x20) || (0x3F0 <? off) || nz (Z.land off 0xF) then None
  else if (off =? 0x300) || (off =? 0x310) then None
  else Some (X2APIC_MSR_FIRST + Z.shiftr off 4).

Definition avm_lapic_mmio_read (irqchip : bool) (id now : Z) (l : avm_lapic) (off : Z) : outcome Z :=
  if off =? 0x20 then Ret (u32 (Z.shiftl id 24))
  else match xapic_msr off with
  | None => Err (-1)
  | Some msr => v ← or_return (-1) (avm_lapic_rdmsr irqchip id now l msr); Ret (u32 v)
  end.

Definition avm_lapic_mmio_write (irqchip : bool) (now : Z) (l : avm_lapic) (off val : Z)
    : outcome avm_lapic :=
  match xapic_msr off with
  | None => Err (-1)
  | Some msr => avm_lapic_wrmsr irqchip now l msr val
  end.

Definition avm_lapic_deliverable_now (l : avm_lapic) : bool :=
  match deliverable l with Some _ => true | None => false end.

Definition avm_lapic_can_wake (l : avm_lapic) : bool :=
  nz (Z.land (svr l) SVR_ENABLE) && negb (nz (Z.land (lvt0 l) LVT_MASKED)) && timer_armed l.

Definition avm_lapic_owns_msr (msr : Z) : bool :=
  (msr =? MSR_APIC_BASE) || ((X2APIC_MSR_FIRST <=? msr) && (msr <=? X2APIC_MSR_LAST)).

(** ** Vector sets as sets *)

Definition wf_bits (bits : list Z) : Prop :=
  length bits = 8%nat /\ Forall (fun w => 0 <= w < 2 ^ 32) bits.
Definition vmem (bits : list Z) (v : Z) : bool :=
  Z.testbit (word_of bits (Z.to_nat (v / 32))) (v mod 32).
Definition vector (v : Z) : Prop := 0 <= v < 256.

Lemma shiftr5 v : Z.shiftr v 5 = v / 32.
Proof. by rewrite Z.shiftr_div_pow2. Qed.
Lemma land31 v : Z.land v 31 = v mod 32.
Proof. by apply (land_ones_small v 5). Qed.

Lemma word_of_insert bits i j w : (i < length bits)%nat ->
  word_of (<[i := w]> bits) j = if decide (j = i) then w else word_of bits j.
Proof.
  intros Hi. unfold word_of. rewrite !nth_lookup. case_decide as E.
  - subst. by rewrite list_lookup_insert_eq.
  - by rewrite list_lookup_insert_ne.
Qed.

Lemma word_range bits i : wf_bits bits -> 0 <= word_of bits i < 2 ^ 32.
Proof.
  intros [_ Hb]. unfold word_of. destruct (nth_in_or_default i bits 0) as [Hin| ->]; [|lia].
  rewrite Stdlib.Lists.List.Forall_forall in Hb. by apply Hb.
Qed.

Lemma u32_bits_high w n : 0 <= w < 2 ^ 32 -> 32 <= n -> Z.testbit w n = false.
Proof.
  intros Hw Hn. rewrite <- (Z.mod_small w (2 ^ 32)) by lia. by apply Z.mod_pow2_bits_high.
Qed.

Lemma bits_below_u32 w : 0 <= w -> (forall n, 32 <= n -> Z.testbit w n = false) -> w < 2 ^ 32.
Proof.
  intros H0 Hn. destruct (decide (w = 0)) as [->|]; [lia|]. apply Z.log2_lt_pow2; [lia|].
  destruct (decide (Z.log2 w < 32)) as [|Hge]; [done|]. specialize (Hn (Z.log2 w) ltac:(lia)).
  rewrite Z.bit_log2 in Hn by lia. done.
Qed.

Lemma vector_index v : vector v -> (Z.to_nat (v / 32) < 8)%nat /\ 0 <= v mod 32 < 32.
Proof.
  unfold vector. intros Hv. split; [|apply Z.mod_pos_bound; lia].
  assert (0 <= v / 32 < 8) by (split; [apply Z.div_pos; lia|apply Z.div_lt_upper_bound; lia]). lia.
Qed.

Lemma vector_split v w : vector v -> vector w ->
  w = v <-> Z.to_nat (w / 32) = Z.to_nat (v / 32) /\ w mod 32 = v mod 32.
Proof.
  unfold vector. intros Hv Hw. split; [by intros ->|]. intros [Hd Hm].
  rewrite (Z.div_mod v 32), (Z.div_mod w 32) by lia.
  assert (0 <= v / 32 /\ 0 <= w / 32) by (split; apply Z.div_pos; lia). lia.
Qed.

Lemma wf_bits_insert bits i w : wf_bits bits -> 0 <= w < 2 ^ 32 -> wf_bits (<[i := w]> bits).
Proof. intros [Hl Hb] Hw. split; [by rewrite length_insert|by apply Forall_insert]. Qed.

Lemma bit_range b : 0 <= b < 32 -> 0 <= bit b < 2 ^ 32.
Proof.
  intros. unfold bit. rewrite Z.shiftl_1_l. split; [lia|]. apply Z.pow_lt_mono_r; lia.
Qed.

Lemma bit_set_wf bits v : wf_bits bits -> vector v -> wf_bits (bit_set bits v).
Proof.
  intros Hb Hv. unfold bit_set. rewrite land31. destruct (vector_index v Hv) as [_ Hm].
  pose proof (bit_range _ Hm). pose proof (word_range bits (Z.to_nat (Z.shiftr v 5)) Hb).
  apply wf_bits_insert; [done|]. split; [apply Z.lor_nonneg; lia|].
  apply bits_below_u32; [apply Z.lor_nonneg; lia|]. intros n Hn.
  by rewrite Z.lor_spec, !u32_bits_high.
Qed.

Lemma vmem_set bits v w : wf_bits bits -> vector v -> vector w ->
  vmem (bit_set bits v) w = bool_decide (w = v) || vmem bits w.
Proof.
  intros [Hl Hb] Hv Hw. unfold vmem, bit_set. rewrite shiftr5, land31.
  destruct (vector_index v Hv) as [Hi Hm], (vector_index w Hw) as [_ Hn].
  rewrite word_of_insert by lia. pose proof (vector_split v w Hv Hw) as Hs.
  case_decide as E.
  - rewrite E, Z.lor_spec, testbit_bit, orb_comm by lia. f_equal. apply bool_decide_ext. tauto.
  - rewrite bool_decide_eq_false_2 by tauto. done.
Qed.

(** [~(1u << b)] in 32 bits. *)
Lemma not_bit_spec b n : 0 <= b < 32 -> 0 <= n < 32 ->
  Z.testbit (UINT32_MAX - bit b) n = negb (bool_decide (n = b)).
Proof.
  intros Hb Hn. change UINT32_MAX with (2 ^ 32 - 1).
  rewrite complement_spec, testbit_bit by (try apply bit_range; lia). done.
Qed.

Lemma bit_clear_wf bits v : wf_bits bits -> wf_bits (bit_clear bits v).
Proof.
  intros Hb. unfold bit_clear. pose proof (word_range bits (Z.to_nat (Z.shiftr v 5)) Hb).
  apply wf_bits_insert; [done|]. rewrite Z.land_comm.
  assert (0 <= Z.land (UINT32_MAX - bit (Z.land v 31)) (word_of bits (Z.to_nat (Z.shiftr v 5)))).
  { apply Z.land_nonneg. lia. }
  split; [done|]. apply bits_below_u32; [done|]. intros n Hn. rewrite Z.land_spec.
  rewrite (u32_bits_high (word_of _ _)) by done. apply andb_false_r.
Qed.

Lemma vmem_clear bits v w : wf_bits bits -> vector v -> vector w ->
  vmem (bit_clear bits v) w = negb (bool_decide (w = v)) && vmem bits w.
Proof.
  intros [Hl Hb] Hv Hw. unfold vmem, bit_clear. rewrite shiftr5, land31.
  destruct (vector_index v Hv) as [Hi Hm], (vector_index w Hw) as [_ Hn].
  rewrite word_of_insert by lia. pose proof (vector_split v w Hv Hw) as Hs.
  case_decide as E.
  - rewrite E, Z.land_spec, not_bit_spec, andb_comm by lia. f_equal. f_equal. apply bool_decide_ext. tauto.
  - rewrite bool_decide_eq_false_2 by tauto. done.
Qed.

Lemma highest_in_spec w n :
  match highest_in w n with
  | Some b => 0 <= b < Z.of_nat n /\ Z.testbit w b = true /\
              forall c, b < c < Z.of_nat n -> Z.testbit w c = false
  | None => forall c, 0 <= c < Z.of_nat n -> Z.testbit w c = false
  end.
Proof.
  induction n as [|b IH]; cbn [highest_in]; [lia|]. rewrite nz_bit by lia.
  destruct (Z.testbit w (Z.of_nat b)) eqn:E; [split; [lia|]; split; [done|lia]|].
  destruct (highest_in w b) as [h|].
  - destruct IH as (Hh & Ht & Hn). split; [lia|]. split; [done|]. intros c Hc.
    destruct (decide (c = Z.of_nat b)) as [->|]; [done|apply Hn; lia].
  - intros c Hc. destruct (decide (c = Z.of_nat b)) as [->|]; [done|apply IH; lia].
Qed.

Lemma vmem_word bits v i : v / 32 = Z.of_nat i -> vmem bits v = Z.testbit (word_of bits i) (v mod 32).
Proof. intros E. unfold vmem. by rewrite E, Nat2Z.id. Qed.

Lemma highest_word_spec bits n : wf_bits bits ->
  match highest_word bits n with
  | Some h => 0 <= h < 32 * Z.of_nat n /\ vmem bits h = true /\
              forall v, h < v < 32 * Z.of_nat n -> vmem bits v = false
  | None => forall v, 0 <= v < 32 * Z.of_nat n -> vmem bits v = false
  end.
Proof.
  intros Hb. induction n as [|i IH]; cbn [highest_word]; [lia|].
  assert (Hstep : (forall c, 0 <= c < 32 -> Z.testbit (word_of bits i) c = false) ->
    forall v, 32 * Z.of_nat i <= v < 32 * Z.of_nat (S i) -> vmem bits v = false).
  { intros Hc v Hv. rewrite (vmem_word bits v i); [apply Hc, Z.mod_pos_bound; lia|].
    symmetry. apply (Z.div_unique v 32 _ (v - 32 * Z.of_nat i)); lia. }
  assert (Hskip : (forall c, 0 <= c < 32 -> Z.testbit (word_of bits i) c = false) ->
    match highest_word bits i with
    | Some h => 0 <= h < 32 * Z.of_nat (S i) /\ vmem bits h = true /\
                forall v, h < v < 32 * Z.of_nat (S i) -> vmem bits v = false
    | None => forall v, 0 <= v < 32 * Z.of_nat (S i) -> vmem bits v = false
    end).
  { intros Hc. destruct (highest_word bits i) as [h|].
    - destruct IH as (Hh & Ht & Hn). split; [lia|]. split; [done|]. intros v Hv.
      destruct (decide (v < 32 * Z.of_nat i)); [apply Hn; lia|apply Hstep; [done|lia]].
    - intros v Hv. destruct (decide (v < 32 * Z.of_nat i)); [apply IH; lia|apply Hstep; [done|lia]]. }
  destruct (word_of bits i =? 0) eqn:E; reify_bools.
  { apply Hskip. intros c _. rewrite E. apply Z.bits_0. }
  pose proof (highest_in_spec (word_of bits i) 32) as Hin. destruct (highest_in _ 32) as [b|]; [|by apply Hskip].
  destruct Hin as (Hb0 & Ht & Hn).
  assert (Hdm : forall c, 0 <= c < 32 -> (Z.of_nat i * 32 + c) / 32 = Z.of_nat i /\ (Z.of_nat i * 32 + c) mod 32 = c).
  { intros c Hc. split; [symmetry; apply (Z.div_unique _ _ _ c); lia|symmetry; apply (Z.mod_unique _ _ (Z.of_nat i)); lia]. }
  split; [lia|]. split.
  - destruct (Hdm b ltac:(lia)) as [E1 E2]. by rewrite (vmem_word _ _ i), E2.
  - intros v Hv. destruct (Hdm (v - Z.of_nat i * 32) ltac:(lia)) as [E1 E2].
    rewrite Zplus_minus in E1, E2. rewrite (vmem_word _ _ i), E2 by done. apply Hn. lia.
Qed.

(** [highest_bit] is the maximum of the set. *)
Lemma highest_bit_spec bits : wf_bits bits ->
  match highest_bit bits with
  | Some h => vector h /\ vmem bits h = true /\ forall v, vector v -> vmem bits v = true -> v <= h
  | None => forall v, vector v -> vmem bits v = false
  end.
Proof.
  intros Hb. unfold highest_bit, vector. pose proof (highest_word_spec bits 8 Hb) as H.
  destruct (highest_word bits 8) as [h|]; [|intros v Hv; apply H; lia].
  destruct H as (Hh & Ht & Hn). split; [lia|]. split; [done|]. intros v Hv Hm.
  destruct (decide (v <= h)); [done|]. rewrite Hn in Hm by lia. done.
Qed.

(** ** The invariant *)

(** Priority class of a vector or of TPR. *)
Definition class (v : Z) : Z := v / 16.

(** In-service vectors have distinct classes: an interrupt is only nested
    inside one of a lower class. *)
Definition nested (bits : list Z) : Prop :=
  forall v w, vector v -> vector w -> vmem bits v = true -> vmem bits w = true ->
    class v = class w -> v = w.

Record lapic_inv (l : avm_lapic) : Prop := {
  li_irr : wf_bits (irr l);
  li_isr : wf_bits (isr l);
  li_tmr : wf_bits (tmr l);
  li_lvt : length (lvt l) = 6%nat /\ Forall (fun w => 0 <= w < 2 ^ 32) (lvt l);
  li_tpr : 0 <= tpr l < 256;
  li_svr : 0 <= svr l < 1024;
  li_timer : 0 <= timer_init l < 2 ^ 32 /\ 0 <= timer_div l < 16 /\
    0 <= timer_deadline_ns l < 2 ^ 64 /\ 0 <= timer_period_ns l < 2 ^ 64;
  li_nested : nested (isr l);
  li_real : forall v, vector v -> vmem (isr l) v = true -> 16 <= v }.

Inductive lapic_step : avm_lapic -> avm_lapic -> Prop :=
| ls_wrmsr l l' irqchip now msr val : 0 <= now < 2 ^ 64 -> 0 <= val < 2 ^ 64 ->
    avm_lapic_wrmsr irqchip now l msr val = Ret l' -> lapic_step l l'
| ls_mmio l l' irqchip now off val : 0 <= now < 2 ^ 64 -> 0 <= val < 2 ^ 32 ->
    avm_lapic_mmio_write irqchip now l off val = Ret l' -> lapic_step l l'
| ls_next l now : 0 <= now < 2 ^ 64 -> lapic_step l (avm_lapic_next_vector l now).2
| ls_tick l now : 0 <= now < 2 ^ 64 -> lapic_step l (avm_lapic_tick l now)
| ls_raise l v : vector v -> lapic_step l (avm_lapic_raise l v)
| ls_reset l id : lapic_step l (avm_lapic_init id).

Lemma class_shiftr v : Z.shiftr v 4 = class v.
Proof. unfold class. by rewrite Z.shiftr_div_pow2. Qed.

Lemma class_mono v w : v <= w -> class v <= class w.
Proof. intros. unfold class. apply Z.div_le_mono; lia. Qed.


Lemma replicate_bits n v : vmem (replicate n 0) v = false.
Proof.
  unfold vmem, word_of. rewrite nth_lookup.
  destruct (replicate n 0 !! Z.to_nat (v / 32)) as [w|] eqn:E; simpl; [|apply Z.bits_0].
  apply lookup_replicate in E as [-> _]. apply Z.bits_0.
Qed.

Lemma init_inv id : lapic_inv (avm_lapic_init id).
Proof.
  assert (Hz : wf_bits (replicate 8 0)) by (split; [done|apply Forall_replicate; lia]).
  split; simpl; try done; try lia.
  - split; [done|]. repeat constructor; vm_compute; discriminate.
  - intros v w _ _ Hv. by rewrite (replicate_bits 8) in Hv.
  - intros v _ Hv. by rewrite (replicate_bits 8) in Hv.
Qed.

Lemma land_ff_vector v : vector (Z.land v 0xFF).
Proof. apply (land_below v 0xFF 8); lia. Qed.

(** The fields that a timer tick changes. *)
Lemma tick_fields l now :
  isr (timer_tick l now) = isr l /\ tmr (timer_tick l now) = tmr l /\ tpr (timer_tick l now) = tpr l /\
  svr (timer_tick l now) = svr l /\ lvt (timer_tick l now) = lvt l /\
  timer_init (timer_tick l now) = timer_init l /\ timer_div (timer_tick l now) = timer_div l /\
  timer_period_ns (timer_tick l now) = timer_period_ns l.
Proof. unfold timer_tick. repeat case_match; done. Qed.

Lemma tick_irr l now :
  irr (timer_tick l now) = irr l \/ irr (timer_tick l now) = bit_set (irr l) (Z.land (lvt0 l) 0xFF).
Proof. unfold timer_tick. repeat case_match; auto. Qed.

Lemma tick_inv l now : 0 <= now < 2 ^ 64 -> lapic_inv l -> lapic_inv (timer_tick l now).
Proof.
  intros Hnow [H1 H2 H3 H4 H5 H6 H7 H8 H9]. pose proof (tick_irr l now) as Hirr.
  pose proof (tick_fields l now) as (E1 & E2 & E3 & E4 & E5 & E6 & E7 & E8).
  split; rewrite ?E1, ?E2, ?E3, ?E4, ?E5, ?E6, ?E7, ?E8; try done.
  - destruct Hirr as [-> | ->]; [done|]. apply bit_set_wf; [done|apply land_ff_vector].
  - split; [lia|]. split; [lia|]. split; [|lia]. unfold timer_tick.
    repeat case_match; simpl; try lia; apply u64_range.
Qed.

Lemma start_inv l now : lapic_inv l -> lapic_inv (timer_start l now).
Proof.
  intros [H1 H2 H3 H4 H5 H6 H7 H8 H9]. unfold timer_start. destruct (timer_init l =? 0).
  - split; simpl; done.
  - split; simpl; try done. split; [lia|]. split; [lia|]. split; apply u64_range.
Qed.

Lemma lvt_write_inv l i v lv : lapic_inv l ->
  arr_set (lvt l) i (Z.land v LVT_WRITABLE_MASK) = Ret lv -> lapic_inv (set_lvt lv l).
Proof.
  intros [H1 H2 H3 [H4 H4'] H5 H6 H7 H8 H9] E. unfold arr_set in E.
  destruct (_ && _); [|done]. injection E as <-. split; simpl; try done.
  split; [by rewrite length_insert|]. apply Forall_insert; [done|]. apply (land_below _ _ 32); [lia|].
  unfold LVT_WRITABLE_MASK. lia.
Qed.

Lemma lapic_eoi_inv l i : lapic_inv l -> highest_bit (isr l) = Some i -> lapic_inv (set_isr (bit_clear (isr l) i) l).
Proof.
  intros [H1 H2 H3 H4 H5 H6 H7 H8 H9] E. pose proof (highest_bit_spec _ H2) as Hs. rewrite E in Hs.
  destruct Hs as (Hi & _ & _). split; simpl; try done.
  - by apply bit_clear_wf.
  - intros v w Hv Hw. rewrite !vmem_clear, !andb_true_iff by done. intros [_ Mv] [_ Mw]. by apply H8.
  - intros v Hv. rewrite vmem_clear, andb_true_iff by done. intros [_ Mv]. by apply H9.
Qed.

(** [deliverable] against the processor priority: the highest pending vector,
    when its class is above that of PPR. *)
Lemma deliverable_spec l : lapic_inv l ->
  deliverable l =
    if nz (Z.land (svr l) SVR_ENABLE) then
      match highest_bit (irr l) with
      | Some v => if class (ppr_value l) <? class v then Some v else None
      | None => None
      end
    else None.
Proof.
  intros Hi. unfold deliverable, ppr_value. destruct (nz (Z.land (svr l) SVR_ENABLE)); [|done]. simpl.
  destruct (highest_bit (irr l)) as [v|]; [|done]. rewrite !class_shiftr.
  pose proof (highest_bit_spec _ (li_isr l Hi)) as Hs.
  destruct (highest_bit (isr l)) as [i|]; last first.
  { destruct (class v <=? class (tpr l)) eqn:E1, (class (tpr l) <? class v) eqn:E2; reify_bools; done || lia. }
  destruct Hs as (Hv & _ & _). rewrite !class_shiftr.
  assert (Hc : class (Z.land i 0xF0) = class i).
  { unfold class. change 16 with (2 ^ 4). rewrite <- !Z.shiftr_div_pow2 by lia.
    rewrite Z.shiftr_land. change (Z.shiftr 0xF0 4) with (2 ^ 4 - 1). rewrite land_ones_small by lia.
    apply Z.mod_small. rewrite Z.shiftr_div_pow2 by lia. unfold vector in Hv.
    split; [apply Z.div_pos; lia|apply Z.div_lt_upper_bound; lia]. }
  destruct (class i <=? class (tpr l)) eqn:E1, (class v <=? class (tpr l)) eqn:E2,
    (class v <=? class i) eqn:E3; rewrite ?Hc; repeat case_match; reify_bools; done || lia.
Qed.

(** The vector that is delivered, and why nothing is in its way. *)
Lemma deliverable_some l v : lapic_inv l -> deliverable l = Some v ->
  nz (Z.land (svr l) SVR_ENABLE) = true /\ vector v /\ 16 <= v /\ vmem (irr l) v = true /\
  (forall w, vector w -> vmem (irr l) w = true -> w <= v) /\
  class (tpr l) < class v /\ (forall w, vector w -> vmem (isr l) w = true -> class w < class v).
Proof.
  intros Hi. unfold deliverable. destruct (nz (Z.land (svr l) SVR_ENABLE)); [|done]. cbn [negb].
  pose proof (highest_bit_spec _ (li_irr l Hi)) as Hr. pose proof (highest_bit_spec _ (li_isr l Hi)) as Hs.
  destruct (highest_bit (irr l)) as [h|]; [|done]. destruct Hr as (Hv & Hm & Hmax).
  rewrite !class_shiftr. destruct (class h <=? class (tpr l)) eqn:E1; [done|]. reify_bools.
  assert (0 <= class (tpr l)) by (apply Z.div_pos; pose proof (li_tpr l Hi); lia).
  assert (16 <= h).
  { destruct (decide (16 <= h)); [done|]. unfold vector, class in *. rewrite (Z.div_small h) in E1 by lia. lia. }
  destruct (highest_bit (isr l)) as [i|].
  - rewrite !class_shiftr. destruct (class h <=? class i) eqn:E2; [done|]. reify_bools. intros [= ->].
    repeat (split; [done|]). intros w Hw Mw. destruct Hs as (_ & _ & Hmx).
    pose proof (class_mono w i (Hmx w Hw Mw)). lia.
  - intros [= ->]. repeat (split; [done|]). intros w Hw Mw. rewrite Hs in Mw by done. done.
Qed.

Lemma next_inv l now : 0 <= now < 2 ^ 64 -> lapic_inv l -> lapic_inv (avm_lapic_next_vector l now).2.
Proof.
  intros Hnow Hi. unfold avm_lapic_next_vector. pose proof (tick_inv l now Hnow Hi) as Ht.
  set (l1 := timer_tick l now) in *. destruct (deliverable l1) as [v|] eqn:Hd; [|done].
  destruct (deliverable_some l1 v Ht Hd) as (_ & Hv & H16 & _ & _ & _ & Hcl).
  destruct Ht as [H1 H2 H3 H4 H5 H6 H7 H8 H9]. split; simpl; try done.
  - by apply bit_clear_wf.
  - by apply bit_set_wf.
  - intros a b Ha Hb. rewrite !vmem_set, !orb_true_iff, !bool_decide_eq_true by done.
    intros [->|Ma] [->|Mb] Hab; try done; [|..].
    + specialize (Hcl b Hb Mb). lia.
    + specialize (Hcl a Ha Ma). lia.
    + by apply H8.
  - intros a Ha. rewrite vmem_set, orb_true_iff, bool_decide_eq_true by done. intros [->|]; [done|by apply H9].
Qed.

Lemma raise_inv l v : vector v -> lapic_inv l -> lapic_inv (avm_lapic_raise l v).
Proof.
  intros Hv [H1 H2 H3 H4 H5 H6 H7 H8 H9]. unfold avm_lapic_raise. destruct (v <? 16); [done|].
  split; simpl; try done. by apply bit_set_wf.
Qed.

Lemma wrmsr_inv l l' irqchip now msr val : 0 <= now < 2 ^ 64 -> 0 <= val < 2 ^ 64 ->
  avm_lapic_wrmsr irqchip now l msr val = Ret l' -> lapic_inv l -> lapic_inv l'.
Proof.
  intros Hnow Hval E Hi. unfold avm_lapic_wrmsr in E.
  assert (Hset : forall (f : avm_lapic -> avm_lapic), l' = f l ->
    irr (f l) = irr l -> isr (f l) = isr l -> tmr (f l) = tmr l -> lvt (f l) = lvt l ->
    0 <= tpr (f l) < 256 -> 0 <= svr (f l) < 1024 ->
    (0 <= timer_init (f l) < 2 ^ 32 /\ 0 <= timer_div (f l) < 16) ->
    timer_deadline_ns (f l) = timer_deadline_ns l -> timer_period_ns (f l) = timer_period_ns l -> lapic_inv l').
  { intros f -> E1 E2 E3 E4 E5 E6 E7 E8 E9. destruct Hi. split; rewrite ?E1, ?E2, ?E3, ?E4, ?E8, ?E9; try done. tauto. }
  pose proof (li_tpr l Hi). pose proof (li_svr l Hi). pose proof (li_timer l Hi).
  assert (Hff := land_below (u32 val) 0xFF 8 ltac:(lia) ltac:(lia)).
  assert (H3ff := land_below (u32 val) 0x3FF 10 ltac:(lia) ltac:(lia)).
  assert (Hb := land_below (u32 val) 0xB 4 ltac:(lia) ltac:(lia)).
  repeat match type of E with (if ?b then _ else _) = _ => destruct b eqn:?; try done end.
  all: try (injection E as <-).
  - apply (Hset (set_apic_base val)); try done; simpl; lia.
  - apply (Hset (set_tpr (Z.land (u32 val) 0xFF))); try done; simpl; lia.
  - destruct (highest_bit (isr l)) eqn:Eh; [by apply lapic_eoi_inv|done].
  - apply (Hset (set_svr (Z.land (u32 val) 0x3FF))); try done; simpl; lia.
  - apply (Hset (set_esr 0)); try done; simpl; lia.
  - apply bind_Ret in E as (lv & E & [= <-]). by eapply lvt_write_inv.
  - apply bind_Ret in E as (lv & E & [= <-]). by eapply lvt_write_inv.
  - apply bind_Ret in E as (lv & E & [= <-]). by eapply lvt_write_inv.
  - apply start_inv. destruct Hi. split; simpl; try done. split; [apply u32_range|tauto].
  - apply (Hset (set_timer_div (Z.land (u32 val) 0xB))); try done. simpl. lia.
Qed.

Lemma lapic_step_inv l l' : lapic_step l l' -> lapic_inv l -> lapic_inv l'.
Proof.
  destruct 1 as [l l' irqchip now msr val Hn Hv E|l l' irqchip now off val Hn Hv E|l now Hn|l now Hn|l v Hv|l id].
  - by apply (wrmsr_inv l l' irqchip now msr val).
  - unfold avm_lapic_mmio_write in E. destruct (xapic_msr off); [|done]. eapply wrmsr_inv; [exact Hn| |exact E]. lia.
  - by apply next_inv.
  - by apply tick_inv.
  - by apply raise_inv.
  - intros _. apply init_inv.
Qed.

Lemma next_vector_cases l now : 0 <= now < 2 ^ 64 -> lapic_inv l ->
  let l1 := timer_tick l now in
  match avm_lapic_next_vector l now with
  | (Some v, l') =>
    nz (Z.land (svr l) SVR_ENABLE) = true /\ vector v /\ 16 <= v /\ vmem (irr l1) v = true /\
    (forall w, vector w -> vmem (irr l1) w = true -> w <= v) /\
    class (ppr_value l1) < class v /\ ppr_value l' = Z.land v 0xF0 /\
    (forall w, vector w -> vmem (irr l') w = negb (bool_decide (w = v)) && vmem (irr l1) w) /\
    (forall w, vector w -> vmem (isr l') w = bool_decide (w = v) || vmem (isr l) w)
  | (None, l') =>
    l' = l1 /\ (nz (Z.land (svr l) SVR_ENABLE) = false \/
                forall w, vector w -> vmem (irr l1) w = true -> class w <= class (ppr_value l1))
  end.
Proof.
  intros Hnow Hi l1. pose proof (tick_inv l now Hnow Hi) as Ht. fold l1 in Ht.
  assert (Es : svr l1 = svr l) by apply tick_fields. assert (Ei : isr l1 = isr l) by apply tick_fields.
  unfold avm_lapic_next_vector. fold l1.
  pose proof (highest_bit_spec _ (li_irr l1 Ht)) as Hmax. destruct (deliverable l1) as [v|] eqn:Hd.
  - destruct (deliverable_some l1 v Ht Hd) as (He & Hv & H16 & Hm & Hmx & Htp & Hcl).
    rewrite Es in He. repeat (split; [done|]). split.
    { rewrite deliverable_spec in Hd by done. rewrite Es, He in Hd. destruct (highest_bit (irr l1)); [|done].
      case_match; [|done]. simplify_eq. by reify_bools. }
    pose proof (bit_set_wf (isr l1) v (li_isr l1 Ht) Hv) as Hw.
    split; [|split; intros w Hw'; simpl; [by apply vmem_clear; [apply (li_irr l1 Ht)|..]|]].
    + unfold ppr_value. simpl. pose proof (highest_bit_spec _ Hw) as Hh.
      destruct (highest_bit (bit_set (isr l1) v)) as [h|].
      * destruct Hh as (Hvh & Hmh & Hmaxh).
        assert (Hvm : vmem (bit_set (isr l1) v) v = true).
        { rewrite vmem_set by (done || apply (li_isr l1 Ht)). by rewrite bool_decide_eq_true_2. }
        assert (h = v) as ->.
        { rewrite vmem_set, orb_true_iff, bool_decide_eq_true in Hmh by (done || apply (li_isr l1 Ht)).
          destruct Hmh as [|Hmh]; [done|]. specialize (Hcl h Hvh Hmh). specialize (Hmaxh v Hv Hvm).
          pose proof (class_mono v h Hmaxh). lia. }
        rewrite !class_shiftr. destruct (class v <=? class (tpr l1)) eqn:Ec; reify_bools; [lia|done].
      * specialize (Hh v Hv). rewrite vmem_set, bool_decide_eq_true_2 in Hh by (done || apply (li_isr l1 Ht)). done.
    + rewrite <- Ei. by apply vmem_set; [apply (li_isr l1 Ht)|..].
  - split; [done|]. rewrite deliverable_spec in Hd by done. rewrite Es in Hd.
    destruct (nz (Z.land (svr l) SVR_ENABLE)); [right|by left].
    intros w Hw Hm. destruct (highest_bit (irr l1)) as [h|]; [|rewrite Hmax in Hm by done; done].
    destruct Hmax as (_ & _ & Hmax). specialize (Hmax w Hw Hm). case_match; [done|]. reify_bools.
    pose proof (class_mono w h Hmax). lia.
Qed.

Lemma wrmsr_irr irqchip now l msr val l' :
  avm_lapic_wrmsr irqchip now l msr val = Ret l' -> irr l' = irr l.
Proof.
  unfold avm_lapic_wrmsr, timer_start, arr_set. intros E.
  repeat (case_match; try done); simplify_eq/=; done.
Qed.

Lemma wrmsr_isr irqchip now l msr val l' :
  avm_lapic_wrmsr irqchip now l msr val = Ret l' ->
  isr l' = isr l \/ msr = X2_EOI /\ exists i, highest_bit (isr l) = Some i /\ isr l' = bit_clear (isr l) i.
Proof.
  unfold avm_lapic_wrmsr, timer_start, arr_set. intros E.
  repeat (case_match; try done); simplify_eq/=; auto; reify_bools.
  right. split; [done|]. by eexists.
Qed.

(** A write to a register is refused or done; no index is out of range. *)
Lemma wrmsr_total irqchip now l msr val : lapic_inv l ->
  avm_lapic_wrmsr irqchip now l msr val = Err (-1) \/ exists l', avm_lapic_wrmsr irqchip now l msr val = Ret l'.
Proof.
  intros Hi. destruct (li_lvt l Hi) as [Hl _]. unfold avm_lapic_wrmsr.
  repeat match goal with |- context [if ?b then _ else _] => destruct b eqn:? end; try (by left); try (by right; eexists); right;
    reify_bools; unfold X2_LVT_TIMER, X2_LVT_ERROR in *; rewrite arr_set_Ret, ret_bind by lia; by eexists.
Qed.

(** *** Sequences of operations *)

(** Every operation but a reset, and what it does to a vector in service: [Delivered] by
    [avm_lapic_next_vector], or [Ended] by a write to the EOI register, which ends the
    highest one. A refused write changes nothing. *)
Inductive lapic_op :=
  | OpWrmsr (irqchip : bool) (now msr val : Z)
  | OpMmio (irqchip : bool) (now off val : Z)
  | OpNext (now : Z)
  | OpTick (now : Z)
  | OpRaise (v : Z).
Inductive lapic_note := Delivered (v : Z) | Ended (v : Z).
#[global] Instance lapic_note_eq_dec : EqDecision lapic_note.
Proof. solve_decision. Defined.
Definition valid_op (o : lapic_op) : Prop :=
  match o with
  | OpWrmsr _ now _ val => 0 <= now < 2 ^ 64 /\ 0 <= val < 2 ^ 64
  | OpMmio _ now _ val => 0 <= now < 2 ^ 64 /\ 0 <= val < 2 ^ 32
  | OpNext now | OpTick now => 0 <= now < 2 ^ 64
  | OpRaise v => vector v
  end.
Definition written (msr : Z) (l : avm_lapic) (x : outcome avm_lapic) : outcome (list lapic_note * avm_lapic) :=
  match x with
  | Ret l' => Ret (if msr =? X2_EOI then match highest_bit (isr l) with Some i => [Ended i] | None => [] end else [], l')
  | Err _ => Ret ([], l)
  | Fault => Fault
  | OutOfFuel => OutOfFuel
  end.
Definition lapic_exec (o : lapic_op) (l : avm_lapic) : outcome (list lapic_note * avm_lapic) :=
  match o with
  | OpWrmsr irqchip now msr val => written msr l (avm_lapic_wrmsr irqchip now l msr val)
  | OpMmio irqchip now off val => written (default 0 (xapic_msr off)) l (avm_lapic_mmio_write irqchip now l off val)
  | OpNext now => let '(o, l) := avm_lapic_next_vector l now in Ret (match o with Some v => [Delivered v] | None => [] end, l)
  | OpTick now => Ret ([], avm_lapic_tick l now)
  | OpRaise v => Ret ([], avm_lapic_raise l v)
  end.
Fixpoint lapic_run (ops : list lapic_op) (l : avm_lapic) : outcome (list lapic_note * avm_lapic) :=
  match ops with
  | [] => Ret ([], l)
  | o :: ops => '(ns, l) ← lapic_exec o l; '(ns', l) ← lapic_run ops l; Ret (ns ++ ns', l)
  end.

(** What happens to the vector [v] between two states. *)
Record follows (v : Z) (ns : list lapic_note) (l l' : avm_lapic) : Prop := mk_follows {
  fo_inv : lapic_inv l';
  fo_irr : vmem (irr l) v = true -> vmem (irr l') v = true \/ Delivered v ∈ ns;
  fo_isr : vmem (isr l) v = true -> vmem (isr l') v = true \/ Ended v ∈ ns;
  fo_new : Delivered v ∈ ns -> vmem (isr l') v = true \/ Ended v ∈ ns }.
Lemma follows_trans v ns ns' l l1 l' : follows v ns l l1 -> follows v ns' l1 l' -> follows v (ns ++ ns') l l'.
Proof.
  intros [_ A1 A2 A3] [B1 B2 B3 B4]. split; [done|..]; rewrite !elem_of_app.
  - intros H. destruct (A1 H) as [H1|H1]; [destruct (B2 H1); tauto|tauto].
  - intros H. destruct (A2 H) as [H1|H1]; [destruct (B3 H1); tauto|tauto].
  - intros [H|H]; [|destruct (B4 H); tauto]. destruct (A3 H) as [H1|H1]; [destruct (B3 H1); tauto|tauto].
Qed.
(** An operation that touches neither set, but may add to the pending vectors. *)
Lemma follows_quiet v l l' : lapic_inv l' -> (vmem (irr l) v = true -> vmem (irr l') v = true) -> isr l' = isr l -> follows v [] l l'.
Proof. intros H1 H2 H3. split; [done|auto|rewrite H3; auto|intros H; by apply not_elem_of_nil in H]. Qed.
Lemma tick_follows v l now : 0 <= now < 2 ^ 64 -> lapic_inv l -> vector v -> follows v [] l (timer_tick l now).
Proof.
  intros Hn Hi Hv. apply follows_quiet; [by apply tick_inv| |apply tick_fields]. intros Hm. destruct (tick_irr l now) as [-> | ->]; [done|].
  rewrite vmem_set, Hm by (done || apply (li_irr l Hi) || apply land_ff_vector). apply orb_true_r.
Qed.
Lemma written_follows v irqchip now l msr val : 0 <= now < 2 ^ 64 -> 0 <= val < 2 ^ 64 -> lapic_inv l -> vector v ->
  exists ns l', written msr l (avm_lapic_wrmsr irqchip now l msr val) = Ret (ns, l') /\ follows v ns l l'.
Proof.
  intros Hn Hval Hi Hv. destruct (wrmsr_total irqchip now l msr val Hi) as [->|[l' E]]; [exists [], l; split; [done|]; by apply follows_quiet|].
  rewrite E. cbn [written]. eexists _, l'. split; [done|]. pose proof (wrmsr_inv l l' irqchip now msr val Hn Hval E Hi) as Hi'. pose proof (wrmsr_irr _ _ _ _ _ _ E) as Er.
  pose proof (highest_bit_spec _ (li_isr l Hi)) as Hs. split; [done|rewrite Er; auto| |].
  - intros Hm. destruct (wrmsr_isr _ _ _ _ _ _ E) as [->|(-> & i & Eh & ->)]; [by left|]. rewrite Z.eqb_refl, Eh in *. rewrite vmem_clear, Hm by (done || apply (li_isr l Hi) || tauto).
    destruct (decide (v = i)) as [->|Hne]; [right; by left|left; by rewrite bool_decide_eq_false_2].
  - destruct (msr =? X2_EOI); [|intros H; by apply not_elem_of_nil in H]. destruct (highest_bit (isr l)); intros H; [by apply list_elem_of_singleton in H|by apply not_elem_of_nil in H].
Qed.
Lemma next_follows v l now : 0 <= now < 2 ^ 64 -> lapic_inv l -> vector v ->
  exists ns l', lapic_exec (OpNext now) l = Ret (ns, l') /\ follows v ns l l'.
Proof.
  intros Hn Hi Hv. cbn [lapic_exec]. pose proof (next_vector_cases l now Hn Hi) as Hc. pose proof (next_inv l now Hn Hi) as Hi'. pose proof (tick_follows v l now Hn Hi Hv) as Ht. cbv zeta in Hc.
  destruct (avm_lapic_next_vector l now) as [[w|] l']; cbn [snd] in *; (eexists _, l'; split; [done|]); [|by destruct Hc as [-> _]].
  destruct Hc as (_ & _ & _ & _ & _ & _ & _ & Hirr & Hisr). split; [done|..]; rewrite ?Hirr, ?Hisr by done.
  - intros Hm. destruct (fo_irr _ _ _ _ Ht Hm) as [->|H]; [|by apply not_elem_of_nil in H]. destruct (decide (v = w)) as [->|Hne]; [right; by left|left; by rewrite bool_decide_eq_false_2].
  - intros ->. left. apply orb_true_r.
  - intros H. apply list_elem_of_singleton in H as [= ->]. left. by rewrite bool_decide_eq_true_2.
Qed.
Lemma exec_follows v o l : lapic_inv l -> vector v -> valid_op o -> exists ns l', lapic_exec o l = Ret (ns, l') /\ follows v ns l l'.
Proof.
  intros Hi Hv Ho. destruct o as [irqchip now msr val|irqchip now off val|now|now|w].
  - destruct Ho. by apply written_follows.
  - destruct Ho. cbn [lapic_exec]. unfold avm_lapic_mmio_write. destruct (xapic_msr off) as [msr|]; [apply written_follows; (done || lia)|]. exists [], l. split; [done|]. by apply follows_quiet.
  - by apply next_follows.
  - eexists _, _. split; [done|]. by apply tick_follows.
  - eexists _, _. split; [done|]. apply follows_quiet; [by apply raise_inv| |unfold avm_lapic_raise; by case_match]. unfold avm_lapic_raise. case_match; [done|]. simpl. rewrite vmem_set by (done || apply (li_irr l Hi)). intros ->. apply orb_true_r.
Qed.
Lemma raise_pending l v : lapic_inv l -> vector v -> 16 <= v -> vmem (irr (avm_lapic_raise l v)) v = true.
Proof.
  intros Hi Hv H16. unfold avm_lapic_raise. destruct (v <? 16) eqn:?; reify_bools; [lia|]. simpl.
  rewrite vmem_set by (done || apply (li_irr l Hi)). by rewrite bool_decide_eq_true_2.
Qed.
Lemma run_follows v ops : forall l, lapic_inv l -> vector v -> Forall valid_op ops ->
  exists ns l', lapic_run ops l = Ret (ns, l') /\ follows v ns l l' /\ (16 <= v -> OpRaise v ∈ ops -> vmem (irr l') v = true \/ Delivered v ∈ ns).
Proof.
  induction ops as [|o ops IH]; intros l Hi Hv Ho; cbn [lapic_run].
  { exists [], l. split; [done|]. split; [by apply follows_quiet|]. intros _ H. by apply not_elem_of_nil in H. }
  pose proof (Forall_inv_tail Ho) as Hops. apply Forall_inv in Ho. destruct (exec_follows v o l Hi Hv Ho) as (ns & l1 & E & F). rewrite E, ret_bind. destruct (IH l1 (fo_inv _ _ _ _ F) Hv Hops) as (ns' & l' & E' & F' & R). rewrite E', ret_bind.
  eexists _, l'. split; [done|]. split; [by apply (follows_trans v ns ns' l l1)|]. rewrite elem_of_app. intros H16 Hin. apply elem_of_cons in Hin as [<-|Hin]; [|destruct (R H16 Hin); tauto].
  injection E as <- <-. destruct (fo_irr _ _ _ _ F' (raise_pending l v Hi Hv H16)); tauto.
Qed.

Lemma timer_divisor_range d : 1 <= timer_divisor d <= 128.
Proof.
  unfold timer_divisor. set (enc := Z.lor _ _).
  assert (Hr : 0 <= enc < 2 ^ 3).
  { apply lor_below; [lia|apply land_below; lia..]. }
  destruct (enc =? 7) eqn:?; reify_bools; [lia|]. rewrite Z.shiftl_mul_pow2 by lia.
  assert (H2 : 2 ^ 0 <= 2 ^ enc <= 2 ^ 6) by (split; apply Z.pow_le_mono_r; lia). lia.
Qed.

Lemma wrmsr_timer_init now l n : 0 <= n < 2 ^ 32 ->
  avm_lapic_wrmsr true now l X2_TIMER_INIT n = Ret (timer_start (set_timer_init n l) now).
Proof.
  intros Hn. assert (Hz : nz (Z.shiftr n 32) = false).
  { rewrite Z.shiftr_div_pow2, Z.div_small by lia. done. }
  unfold avm_lapic_wrmsr. rewrite Hz, u32_id by lia. reflexivity.
Qed.

Lemma rdmsr_timer_cur id now l : avm_lapic_rdmsr true id now l X2_TIMER_CUR = Ret (timer_current l now).
Proof. reflexivity. Qed.

(** Rounding up the remaining time is the count minus the elapsed periods. *)
Lemma timer_count_down n u t0 t : 0 < n < 2 ^ 32 -> 1000 <= u <= 128000 -> 0 <= t0 < 2 ^ 62 ->
  t0 <= t < t0 + n * u ->
  u32 (u64 (t0 + n * u - t + u - 1) / u) = n - (t - t0) / u.
Proof.
  intros Hn Hu Ht0 Ht. rewrite u64_id by nia. set (e := t - t0).
  assert (He : 0 <= e < n * u) by lia.
  pose proof (Z.div_mod e u ltac:(lia)) as Hdm. pose proof (Z.mod_pos_bound e u ltac:(lia)).
  assert (0 <= e / u < n) by (split; [apply Z.div_pos; lia|apply Z.div_lt_upper_bound; nia]).
  replace ((t0 + n * u - t + u - 1) / u) with (n - e / u); [apply u32_id; lia|].
  apply (Z.div_unique _ _ _ (u - 1 - e mod u)); [lia|]. subst e. nia.
Qed.

(** ** The properties *)

(** in every reachable state of the local APIC the registers are in range,
    the in-service vectors have pairwise distinct priority classes and none is
    reserved (below 16): interrupts nest strictly by priority. *)
Theorem lapic_invariant id l : rtc lapic_step (avm_lapic_init id) l -> lapic_inv l.
Proof.
  generalize (init_inv id). intros Hi Hr. induction Hr as [|a b c Hab _ IH]; [done|].
  apply IH. by eapply lapic_step_inv.
Qed.

(** [avm_lapic_next_vector] delivers the right vector. With the timer
    advanced, it returns the highest pending vector exactly when the APIC is
    enabled and that vector's class is above the processor priority; the vector
    moves from IRR to ISR, nothing else changes, and the processor priority
    rises to its class. Otherwise nothing pending may be delivered. *)
Theorem lapic_delivery l now : 0 <= now < 2 ^ 64 -> lapic_inv l ->
  let l1 := timer_tick l now in
  match avm_lapic_next_vector l now with
  | (Some v, l') =>
    nz (Z.land (svr l) SVR_ENABLE) = true /\ vector v /\ 16 <= v /\ vmem (irr l1) v = true /\
    (forall w, vector w -> vmem (irr l1) w = true -> w <= v) /\
    class (ppr_value l1) < class v /\ ppr_value l' = Z.land v 0xF0 /\
    (forall w, vector w -> vmem (irr l') w = negb (bool_decide (w = v)) && vmem (irr l1) w) /\
    (forall w, vector w -> vmem (isr l') w = bool_decide (w = v) || vmem (isr l) w)
  | (None, l') =>
    l' = l1 /\ (nz (Z.land (svr l) SVR_ENABLE) = false \/
                forall w, vector w -> vmem (irr l1) w = true -> class w <= class (ppr_value l1))
  end.
Proof. apply next_vector_cases. Qed.

(** C38: no interrupt is lost until a reset. Any sequence of register writes by MSR or MMIO,
    timer ticks, raised vectors and requests for the next vector runs without a fault. A
    vector that is pending at its beginning or is raised in it, above 15, is still pending at
    the end or has been delivered; one that is in service or is delivered in it is still in
    service or has been ended by a write to the EOI register while it was the highest. A
    reset ([avm_lapic_init], also for an INIT from another CPU) clears both sets and is not
    among the operations. *)
Theorem lapic_no_lost_interrupt ops l v : lapic_inv l -> vector v -> Forall valid_op ops ->
  exists ns l', lapic_run ops l = Ret (ns, l') /\ lapic_inv l' /\
    (vmem (irr l) v = true \/ 16 <= v /\ OpRaise v ∈ ops -> vmem (irr l') v = true \/ Delivered v ∈ ns) /\
    (vmem (isr l) v = true \/ Delivered v ∈ ns -> vmem (isr l') v = true \/ Ended v ∈ ns).
Proof.
  intros Hi Hv Ho. destruct (run_follows v ops l Hi Hv Ho) as (ns & l' & E & [F1 F2 F3 F4] & R). exists ns, l'. split; [done|]. split; [done|].
  split; intros [H|H]; [by apply F2|destruct H; by apply R|by apply F3|by apply F4].
Qed.

(** the timer counts. After a write of [n] to the initial count register
    at time [t0], the current count at a later time is [n] minus the elapsed
    divided clock periods until it reaches zero; the tick at or after the
    deadline raises the timer vector unless it is masked, leaves a one-shot
    timer disarmed, and leaves a periodic timer armed with its next deadline in
    the future. *)
Theorem lapic_timer_counts l l0 t0 n t : lapic_inv l0 ->
  0 < n < 2 ^ 32 -> 0 <= t0 < 2 ^ 62 ->
  avm_lapic_wrmsr true t0 l0 X2_TIMER_INIT n = Ret l ->
  let unit_ns := timer_divisor (timer_div l0) * 1000 in
  timer_armed l = true /\ timer_deadline_ns l = t0 + n * unit_ns /\
  (t0 <= t < t0 + n * unit_ns -> timer_tick l t = l /\
     avm_lapic_rdmsr true 0 t l X2_TIMER_CUR = Ret (n - (t - t0) / unit_ns)) /\
  (t0 + n * unit_ns <= t < 2 ^ 63 ->
     avm_lapic_rdmsr true 0 t l X2_TIMER_CUR = Ret 0 /\
     (nz (Z.land (lvt0 l) LVT_MASKED) = false ->
        vmem (irr (avm_lapic_tick l t)) (Z.land (lvt0 l) 0xFF) = true) /\
     timer_armed (avm_lapic_tick l t) = nz (Z.land (lvt0 l) LVT_TIMER_PERIODIC) /\
     (timer_armed (avm_lapic_tick l t) = true -> t < timer_deadline_ns (avm_lapic_tick l t))).
Proof.
  intros Hi0 Hn Ht0 E unit_ns.
  assert (Hu : 1000 <= unit_ns <= 128000).
  { subst unit_ns. pose proof (timer_divisor_range (timer_div l0)). lia. }
  assert (Hl : l = timer_start (set_timer_init n l0) t0).
  { rewrite wrmsr_timer_init in E by lia. by injection E as <-. }
  assert (Hp : u64 (n * timer_divisor (timer_div l0) * 1000) = n * unit_ns).
  { subst unit_ns. rewrite u64_id by nia. lia. }
  assert (Hfields : timer_armed l = true /\ timer_deadline_ns l = t0 + n * unit_ns /\
            timer_period_ns l = n * unit_ns /\ timer_div l = timer_div l0 /\ irr l = irr l0).
  { subst l. unfold timer_start. simpl. destruct (n =? 0) eqn:?; reify_bools; [lia|]. simpl.
    rewrite Hp, u64_id by nia. done. }
  destruct Hfields as (Ha & Hd & Hper & Hdiv & Hirr). split; [done|]. split; [done|]. clear E.
  split.
  - intros Ht. split.
    + unfold timer_tick. rewrite Ha, Hd. destruct (t <? t0 + n * unit_ns) eqn:?; [done|]. reify_bools. lia.
    + rewrite rdmsr_timer_cur. f_equal. unfold timer_current. rewrite Ha, Hd, Hdiv. simpl.
      destruct (t0 + n * unit_ns <=? t) eqn:?; reify_bools; [lia|]. fold unit_ns.
      apply timer_count_down; lia.
  - intros Ht. unfold avm_lapic_tick. split; [|split; [|split]].
    + rewrite rdmsr_timer_cur. f_equal. unfold timer_current. rewrite Ha, Hd. simpl.
      destruct (t0 + n * unit_ns <=? t) eqn:?; reify_bools; [done|lia].
    + intros Hm. unfold timer_tick. rewrite Ha, Hd. simpl.
      destruct (t <? t0 + n * unit_ns) eqn:?; reify_bools; [lia|]. rewrite Hm.
      assert (Hset : vmem (bit_set (irr l) (Z.land (lvt0 l) 0xFF)) (Z.land (lvt0 l) 0xFF) = true).
      { rewrite vmem_set by (try apply land_ff_vector; rewrite Hirr; apply (li_irr l0 Hi0)).
        by rewrite bool_decide_eq_true_2. }
      repeat case_match; done.
    + unfold timer_tick. rewrite Ha, Hd. simpl. destruct (t <? t0 + n * unit_ns) eqn:?; reify_bools; [lia|].
      replace (lvt0 (if nz (Z.land (lvt0 l) LVT_MASKED) then l else _)) with (lvt0 l) by (by case_match).
      replace (timer_period_ns (if nz (Z.land (lvt0 l) LVT_MASKED) then l else _)) with (timer_period_ns l) by (by case_match).
      rewrite Hper. destruct (nz (Z.land (lvt0 l) LVT_TIMER_PERIODIC)); [|done].
      assert (nz (n * unit_ns) = true) as -> by (apply negb_true_iff, Z.eqb_neq; nia). simpl.
      by repeat case_match.
    + unfold timer_tick. rewrite Ha, Hd. simpl. destruct (t <? t0 + n * unit_ns) eqn:?; reify_bools; [lia|].
      repeat case_match; simpl in *; try done; intros _; reify_bools; rewrite ?Hper, ?Hd in *;
        rewrite ?u64_id in * by nia; nia.
Qed.

(** The registers that hold what was written, with their writable bits. *)
Definition readback (msr : Z) : option Z :=
  if msr =? X2_TPR then Some 0xFF
  else if msr =? X2_SVR then Some 0x3FF
  else if (X2_LVT_TIMER <=? msr) && (msr <=? X2_LVT_ERROR) then Some LVT_WRITABLE_MASK
  else if msr =? X2_TIMER_INIT then Some UINT32_MAX
  else if msr =? X2_TIMER_DIV then Some 0xB
  else None.

Definition readback_msrs : list Z :=
  [X2_TPR; X2_SVR; X2_LVT_TIMER; X2_LVT_TIMER + 1; X2_LVT_TIMER + 2; X2_LVT_TIMER + 3;
   X2_LVT_TIMER + 4; X2_LVT_ERROR; X2_TIMER_INIT; X2_TIMER_DIV].

Lemma readback_In msr m : readback msr = Some m -> In msr readback_msrs.
Proof.
  unfold readback, X2_TPR, X2_SVR, X2_LVT_TIMER, X2_LVT_ERROR, X2_TIMER_INIT, X2_TIMER_DIV.
  intros E. unfold readback_msrs, X2_TPR, X2_SVR, X2_LVT_TIMER, X2_LVT_ERROR, X2_TIMER_INIT, X2_TIMER_DIV.
  repeat (case_match; reify_bools; try done); subst; simpl; lia.
Qed.

(** The read-back registers as an array. *)
Definition readback_value (l : avm_lapic) (msr : Z) : Z :=
  if msr =? X2_TPR then tpr l
  else if msr =? X2_SVR then svr l
  else if msr =? X2_TIMER_INIT then timer_init l
  else if msr =? X2_TIMER_DIV then timer_div l
  else nth (Z.to_nat (msr - X2_LVT_TIMER)) (lvt l) 0.

Lemma rdmsr_readback id now l msr m : lapic_inv l -> readback msr = Some m ->
  avm_lapic_rdmsr true id now l msr = Ret (readback_value l msr).
Proof.
  intros Hi Hm. apply readback_In in Hm. destruct (li_lvt l Hi) as [Hlen _].
  destruct (lvt l) as [|a0 [|a1 [|a2 [|a3 [|a4 [|a5 [|]]]]]]] eqn:El; try done.
  simpl in Hm. repeat destruct Hm as [<-|Hm]; try done;
    unfold avm_lapic_rdmsr, readback_value; rewrite ?El; reflexivity.
Qed.

Lemma readback_timer_start l now msr : readback_value (timer_start l now) msr = readback_value l msr.
Proof. unfold timer_start. by case_match. Qed.

Lemma wrmsr_readback now l msr m val l' : lapic_inv l -> readback msr = Some m ->
  avm_lapic_wrmsr true now l msr val = Ret l' ->
  readback_value l' msr = Z.land (u32 val) m /\ Z.shiftr val 32 = 0 /\
  forall msr', In msr' readback_msrs -> msr' <> msr -> readback_value l' msr' = readback_value l msr'.
Proof.
  intros Hi Hm E. assert (Hin := readback_In msr m Hm). destruct (li_lvt l Hi) as [Hlen _].
  destruct (lvt l) as [|a0 [|a1 [|a2 [|a3 [|a4 [|a5 [|]]]]]]] eqn:El; try done.
  assert (Hsh : Z.shiftr val 32 = 0).
  { unfold avm_lapic_wrmsr in E. simpl in Hin.
    destruct (nz (Z.shiftr val 32)) eqn:Hz; [|by apply negb_false_iff, Z.eqb_eq in Hz].
    repeat destruct Hin as [<-|Hin]; try done; discriminate E. }
  unfold avm_lapic_wrmsr in E. rewrite Hsh in E. cbn [nz Z.eqb negb] in E.
  simpl in Hin. repeat destruct Hin as [<-|Hin]; try done;
    unfold arr_set in E; rewrite ?El in E; vm_compute in Hm; injection Hm as <-;
    try match type of E with context [if nz (Z.land (u32 val) LVT_TIMER_TSC_DEADLINE) then _ else _] =>
      destruct (nz (Z.land (u32 val) LVT_TIMER_TSC_DEADLINE)); [discriminate E|] end;
    injection E as <-; (split; [|split; [done|]]);
    try (intros msr' Hin' Hne; simpl in Hin'; repeat destruct Hin' as [<-|Hin']; try done;
         rewrite ?readback_timer_start; unfold readback_value; first [reflexivity|rewrite ?El; reflexivity]);
    rewrite ?readback_timer_start; unfold readback_value; simpl; rewrite ?El; try reflexivity.
  symmetry. change 4294967295 with (2 ^ 32 - 1). rewrite (land_ones_small (u32 val) 32) by lia.
  apply Z.mod_small, u32_range.
Qed.

(** the registers hold what is written. After a successful write to a
    writable register, by MSR or by the corresponding xAPIC offset, reading it
    gives the value with the writable bits kept, and every other such register
    reads as before. *)
Theorem lapic_registers_roundtrip id now now' l msr m val l' :
  lapic_inv l -> readback msr = Some m -> 0 <= val < 2 ^ 64 -> 0 <= now < 2 ^ 64 ->
  avm_lapic_wrmsr true now l msr val = Ret l' ->
  avm_lapic_rdmsr true id now' l' msr = Ret (Z.land val m) /\
  avm_lapic_mmio_read true id now' l' (16 * (msr - X2APIC_MSR_FIRST)) = Ret (Z.land val m) /\
  avm_lapic_mmio_write true now l (16 * (msr - X2APIC_MSR_FIRST)) val = Ret l' /\
  forall msr' m', readback msr' = Some m' -> msr' <> msr ->
    avm_lapic_rdmsr true id now' l' msr' = avm_lapic_rdmsr true id now' l msr'.
Proof.
  intros Hi Hm Hval Hnow E. destruct (wrmsr_readback now l msr m val l' Hi Hm E) as (Hv & Hsh & Hfr).
  assert (Hi' : lapic_inv l') by (by apply (wrmsr_inv l l' true now msr val)).
  assert (Hv32 : u32 val = val).
  { rewrite Z.shiftr_div_pow2 in Hsh by lia. apply Z.div_small_iff in Hsh; [|lia]. apply u32_id. lia. }
  rewrite Hv32 in Hv. rewrite (rdmsr_readback id now' l' msr m Hi' Hm), Hv. split; [done|].
  assert (Hx : xapic_msr (16 * (msr - X2APIC_MSR_FIRST)) = Some msr /\ 16 * (msr - X2APIC_MSR_FIRST) =? 0x20 = false).
  { apply readback_In in Hm. simpl in Hm. repeat destruct Hm as [<-|Hm]; try done. }
  destruct Hx as [Hx Hne]. split; [|split].
  - unfold avm_lapic_mmio_read. rewrite Hne, Hx, (rdmsr_readback id now' l' msr m Hi' Hm), Hv. simpl.
    f_equal. apply u32_id. rewrite Z.land_comm.
    assert (Hr : 0 <= val < 2 ^ 32) by (rewrite <- Hv32; apply u32_range). by apply land_below.
  - unfold avm_lapic_mmio_write. by rewrite Hx.
  - intros msr' m' Hm' Hne'. rewrite (rdmsr_readback id now' l' msr' m' Hi' Hm'), (rdmsr_readback id now' l msr' m' Hi Hm').
    f_equal. apply Hfr; [by eapply readback_In|done].
Qed.

(** *** Witnesses *)

(** Enabled, timer vector 0x40 unmasked, 0x51 raised. *)
Definition sample_ops : avm_lapic :=
  let l := avm_lapic_init 0 in
  match avm_lapic_wrmsr true 0 l X2_SVR 0x1FF with
  | Ret l => match avm_lapic_wrmsr true 0 l X2_LVT_TIMER 0x40 with
             | Ret l => avm_lapic_raise l 0x51
             | _ => l
             end
  | _ => l
  end.

Lemma sample_ops_reachable : rtc lapic_step (avm_lapic_init 0) sample_ops.
Proof.
  eapply rtc_l; [eapply (ls_wrmsr _ _ true 0 X2_SVR 0x1FF); [lia|lia|vm_compute; reflexivity]|].
  eapply rtc_l; [eapply (ls_wrmsr _ _ true 0 X2_LVT_TIMER 0x40); [lia|lia|vm_compute; reflexivity]|].
  eapply rtc_l; [eapply (ls_raise _ 0x51); unfold vector; lia|apply rtc_refl].
Qed.

Lemma lapic_invariant_witness : lapic_inv sample_ops.
Proof. exact (lapic_invariant 0 sample_ops sample_ops_reachable). Defined.

Lemma sample_inv : lapic_inv sample_ops.
Proof.
  assert (H := sample_ops_reachable). assert (Hi := init_inv 0). revert Hi.
  induction H as [|a b c Hab _ IH]; [done|]. intros Ha. apply IH. by eapply lapic_step_inv.
Qed.

Lemma lapic_delivery_witness :
  (avm_lapic_next_vector sample_ops 0).1 = Some 0x51 /\
  match avm_lapic_next_vector sample_ops 0 with
  | (Some v, l') => ppr_value l' = Z.land v 0xF0
  | _ => False
  end.
Proof.
  split; [vm_compute; reflexivity|].
  pose proof (lapic_delivery sample_ops 0 ltac:(lia) sample_inv) as H. cbv zeta in H.
  destruct (avm_lapic_next_vector sample_ops 0) as [[v|] l'] eqn:E.
  - exact (proj1 (proj2 (proj2 (proj2 (proj2 (proj2 (proj2 H))))))).
  - vm_compute in E. discriminate.
Defined.

Lemma lapic_no_lost_interrupt_witness : exists l', lapic_run [OpRaise 0x30; OpNext 0; OpTick 5; OpMmio true 6 0xB0 0] sample_ops = Ret ([Delivered 0x51; Ended 0x51], l') /\ vmem (irr l') 0x30 = true.
Proof.
  destruct (lapic_no_lost_interrupt [OpRaise 0x30; OpNext 0; OpTick 5; OpMmio true 6 0xB0 0] sample_ops 0x30 sample_inv ltac:(unfold vector; lia)) as (ns & l' & E & _ & H & _).
  - repeat constructor; unfold vector; vm_compute; congruence.
  - assert (Ens : ns = [Delivered 0x51; Ended 0x51]) by (vm_compute in E; injection E as <- _; reflexivity). subst ns. exists l'. split; [exact E|].
    assert (Hin : OpRaise 0x30 ∈ [OpRaise 0x30; OpNext 0; OpTick 5; OpMmio true 6 0xB0 0]) by left.
    assert (H16 : 16 <= 0x30) by lia. destruct (H (or_intror (conj H16 Hin))) as [Hm|Hd]; [exact Hm|]. exfalso. revert Hd. rewrite !elem_of_cons, elem_of_nil. intros [Hd|[Hd|Hd]]; [discriminate|discriminate|exact Hd].
Defined.

Lemma lapic_timer_counts_witness :
  exists l, avm_lapic_wrmsr true 1000 sample_ops X2_TIMER_INIT 5 = Ret l /\
    avm_lapic_rdmsr true 0 4500 l X2_TIMER_CUR = Ret 4.
Proof.
  destruct (avm_lapic_wrmsr true 1000 sample_ops X2_TIMER_INIT 5) as [l| | |] eqn:E; try (vm_compute in E; discriminate).
  exists l. split; [reflexivity|].
  pose proof (lapic_timer_counts l sample_ops 1000 5 4500 sample_inv ltac:(lia) ltac:(lia) E) as H.
  cbv zeta in H. destruct H as (_ & _ & H & _). rewrite (proj2 (H ltac:(vm_compute; split; [discriminate|reflexivity]))).
  vm_compute. reflexivity.
Defined.

Lemma lapic_registers_roundtrip_witness :
  exists l, avm_lapic_wrmsr true 0 sample_ops X2_TPR 0x123 = Ret l /\
    avm_lapic_rdmsr true 0 0 l X2_TPR = Ret 0x23.
Proof.
  destruct (avm_lapic_wrmsr true 0 sample_ops X2_TPR 0x123) as [l| | |] eqn:E; try (vm_compute in E; discriminate).
  exists l. split; [reflexivity|].
  exact (proj1 (lapic_registers_roundtrip 0 0 0 sample_ops X2_TPR 0xFF 0x123 l sample_inv eq_refl
                  ltac:(lia) ltac:(lia) E)).
Defined.

End AvmLapic.
