(* ===== verification/AvmVm.v ===== *)
(** AvmVm: the data of a virtual machine and of its virtual CPUs
    ([kernel/src/avm/avm_internal.h] and the KVM structures of [avm_uapi.h]), as
    far as the interrupt controllers, the inter-processor interrupts, the
    routing and the MMIO emulation use them.

    [vcpus] has [AVM_MAX_VCPUS] entries, [None] for a null pointer. The kick
    counters of the host CPUs and the NMIs sent are part of the machine state. *)

From S2P Require Import Prelude AvmLapic.

Module AvmVm.
Import AvmLapic.

Definition AVM_MAX_VCPUS : nat := 8.
Definition AVM_MAX_IRQFDS : nat := 16.
Definition AVM_MAX_IOEVENTFDS : nat := 16.
Definition AVM_MAX_ROUTES : Z := 1024.
Definition AVM_MP_UNINIT : Z := 0.
Definition AVM_MP_INIT_DONE : Z := 1.
Definition AVM_MP_RUNNABLE : Z := 2.

Definition ENOENT : Z := 2.
Definition ENXIO : Z := 6.
Definition EEXIST : Z := 17.
Definition EINVAL : Z := 22.
Definition ENOSPC : Z := 28.

(** One 8259 PIC. *)
Record avm_pic := mk_pic {
  p_irr : Z; p_isr : Z; p_imr : Z; vector_base : Z; p_line : Z; init_step : Z;
  init_cascade : bool; init_icw4 : bool; read_isr : bool }.
Definition set_p_irr (v : _) (p : avm_pic) : avm_pic :=
  mk_pic v (p_isr p) (p_imr p) (vector_base p) (p_line p) (init_step p) (init_cascade p) (init_icw4 p) (read_isr p).
Definition set_p_isr (v : _) (p : avm_pic) : avm_pic :=
  mk_pic (p_irr p) v (p_imr p) (vector_base p) (p_line p) (init_step p) (init_cascade p) (init_icw4 p) (read_isr p).
Definition set_p_imr (v : _) (p : avm_pic) : avm_pic :=
  mk_pic (p_irr p) (p_isr p) v (vector_base p) (p_line p) (init_step p) (init_cascade p) (init_icw4 p) (read_isr p).
Definition set_vector_base (v : _) (p : avm_pic) : avm_pic :=
  mk_pic (p_irr p) (p_isr p) (p_imr p) v (p_line p) (init_step p) (init_cascade p) (init_icw4 p) (read_isr p).
Definition set_p_line (v : _) (p : avm_pic) : avm_pic :=
  mk_pic (p_irr p) (p_isr p) (p_imr p) (vector_base p) v (init_step p) (init_cascade p) (init_icw4 p) (read_isr p).
Definition set_init_step (v : _) (p : avm_pic) : avm_pic :=
  mk_pic (p_irr p) (p_isr p) (p_imr p) (vector_base p) (p_line p) v (init_cascade p) (init_icw4 p) (read_isr p).
Definition set_init_cascade (v : _) (p : avm_pic) : avm_pic :=
  mk_pic (p_irr p) (p_isr p) (p_imr p) (vector_base p) (p_line p) (init_step p) v (init_icw4 p) (read_isr p).
Definition set_init_icw4 (v : _) (p : avm_pic) : avm_pic :=
  mk_pic (p_irr p) (p_isr p) (p_imr p) (vector_base p) (p_line p) (init_step p) (init_cascade p) v (read_isr p).
Definition set_read_isr (v : _) (p : avm_pic) : avm_pic :=
  mk_pic (p_irr p) (p_isr p) (p_imr p) (vector_base p) (p_line p) (init_step p) (init_cascade p) (init_icw4 p) v.

(** PIT channel 0. *)
Record avm_pit := mk_pit {
  created : bool; access : Z; mode : Z; write_phase : Z; write_lo : Z; read_phase : Z;
  reload : Z; armed : bool; periodic : bool; start_ns : Z; next_irq_ns : Z; period_ns : Z;
  latched : bool; latch : Z }.
Definition set_created (v : _) (p : avm_pit) : avm_pit :=
  mk_pit v (access p) (mode p) (write_phase p) (write_lo p) (read_phase p) (reload p) (armed p) (periodic p) (start_ns p) (next_irq_ns p) (period_ns p) (latched p) (latch p).
Definition set_access (v : _) (p : avm_pit) : avm_pit :=
  mk_pit (created p) v (mode p) (write_phase p) (write_lo p) (read_phase p) (reload p) (armed p) (periodic p) (start_ns p) (next_irq_ns p) (period_ns p) (latched p) (latch p).
Definition set_mode (v : _) (p : avm_pit) : avm_pit :=
  mk_pit (created p) (access p) v (write_phase p) (write_lo p) (read_phase p) (reload p) (armed p) (periodic p) (start_ns p) (next_irq_ns p) (period_ns p) (latched p) (latch p).
Definition set_write_phase (v : _) (p : avm_pit) : avm_pit :=
  mk_pit (created p) (access p) (mode p) v (write_lo p) (read_phase p) (reload p) (armed p) (periodic p) (start_ns p) (next_irq_ns p) (period_ns p) (latched p) (latch p).
Definition set_write_lo (v : _) (p : avm_pit) : avm_pit :=
  mk_pit (created p) (access p) (mode p) (write_phase p) v (read_phase p) (reload p) (armed p) (periodic p) (start_ns p) (next_irq_ns p) (period_ns p) (latched p) (latch p).
Definition set_read_phase (v : _) (p : avm_pit) : avm_pit :=
  mk_pit (created p) (access p) (mode p) (write_phase p) (write_lo p) v (reload p) (armed p) (periodic p) (start_ns p) (next_irq_ns p) (period_ns p) (latched p) (latch p).
Definition set_reload (v : _) (p : avm_pit) : avm_pit :=
  mk_pit (created p) (access p) (mode p) (write_phase p) (write_lo p) (read_phase p) v (armed p) (periodic p) (start_ns p) (next_irq_ns p) (period_ns p) (latched p) (latch p).
Definition set_armed (v : _) (p : avm_pit) : avm_pit :=
  mk_pit (created p) (access p) (mode p) (write_phase p) (write_lo p) (read_phase p) (reload p) v (periodic p) (start_ns p) (next_irq_ns p) (period_ns p) (latched p) (latch p).
Definition set_periodic (v : _) (p : avm_pit) : avm_pit :=
  mk_pit (created p) (access p) (mode p) (write_phase p) (write_lo p) (read_phase p) (reload p) (armed p) v (start_ns p) (next_irq_ns p) (period_ns p) (latched p) (latch p).
Definition set_start_ns (v : _) (p : avm_pit) : avm_pit :=
  mk_pit (created p) (access p) (mode p) (write_phase p) (write_lo p) (read_phase p) (reload p) (armed p) (periodic p) v (next_irq_ns p) (period_ns p) (latched p) (latch p).
Definition set_next_irq_ns (v : _) (p : avm_pit) : avm_pit :=
  mk_pit (created p) (access p) (mode p) (write_phase p) (write_lo p) (read_phase p) (reload p) (armed p) (periodic p) (start_ns p) v (period_ns p) (latched p) (latch p).
Definition set_period_ns (v : _) (p : avm_pit) : avm_pit :=
  mk_pit (created p) (access p) (mode p) (write_phase p) (write_lo p) (read_phase p) (reload p) (armed p) (periodic p) (start_ns p) (next_irq_ns p) v (latched p) (latch p).
Definition set_latched (v : _) (p : avm_pit) : avm_pit :=
  mk_pit (created p) (access p) (mode p) (write_phase p) (write_lo p) (read_phase p) (reload p) (armed p) (periodic p) (start_ns p) (next_irq_ns p) (period_ns p) v (latch p).
Definition set_latch (v : _) (p : avm_pit) : avm_pit :=
  mk_pit (created p) (access p) (mode p) (write_phase p) (write_lo p) (read_phase p) (reload p) (armed p) (periodic p) (start_ns p) (next_irq_ns p) (period_ns p) (latched p) v.

(** IOAPIC with 24 pins. *)
Record avm_ioapic := mk_ioapic { index : Z; redir : list Z; line : Z }.

(** Segment and descriptor-table registers; only the fields the kernel sets. *)
Record kvm_segment := mk_segment {
  s_base : Z; s_limit : Z; selector : Z; s_type : Z; present : Z; s_s : Z; unusable : Z }.
Record kvm_sregs := mk_sregs {
  cs : kvm_segment; ds : kvm_segment; es : kvm_segment; fs : kvm_segment; gs : kvm_segment;
  ss : kvm_segment; tr : kvm_segment; ldt : kvm_segment;
  gdt_base : Z; gdt_limit : Z; idt_base : Z; idt_limit : Z; cr0 : Z; cr3 : Z; cr4 : Z; efer : Z }.
(** The eight registers of the x86 encoding, AX CX DX BX SP BP SI DI, then
    R8 to R15. *)
Record kvm_regs := mk_regs { gpr : list Z; rip : Z; rflags : Z }.

(** The parts of the VMCB's state save area that the MMIO emulation reads: the
    attributes of CS, the segment bases and RFLAGS. *)
Record avm_vmcb := mk_vmcb {
  v_cs_attrib : Z; v_cs : Z; v_ds : Z; v_es : Z; v_ss : Z; v_fs : Z; v_gs : Z; v_rflags : Z }.

(** The access that waits for the VMM (the [mmio_] fields of a virtual CPU). *)
Record avm_mmio := mk_mmio {
  mmio_pending : bool; mmio_read : bool; mmio_reg8 : bool; mmio_size : Z; mmio_reg : Z;
  mmio_insn_len : Z; mmio_str : bool; mmio_str_rep : bool; mmio_str_si : bool; mmio_str_di : bool;
  mmio_str_step : Z; mmio_str_mask : Z }.

(** [exit_reason] and [mmio] of the shared page; [data] has 8 bytes. *)
Record kvm_run := mk_run { exit_reason : Z; phys_addr : Z; data : list Z; run_len : Z; is_write : bool }.

Record avm_vcpu := mk_vcpu {
  vid : Z; lapic : avm_lapic; mp_state : Z; in_guest : bool; host_cpu : nat; icr_high : Z;
  regs : kvm_regs; sregs : kvm_sregs; state_dirty : bool; singlestep : bool; step_exit : bool;
  vmcb : avm_vmcb; mmio : avm_mmio; run : kvm_run }.
Definition set_vid (v : _) (c : avm_vcpu) : avm_vcpu :=
  mk_vcpu v (lapic c) (mp_state c) (in_guest c) (host_cpu c) (icr_high c) (regs c) (sregs c) (state_dirty c) (singlestep c) (step_exit c) (vmcb c) (mmio c) (run c).
Definition set_lapic (v : _) (c : avm_vcpu) : avm_vcpu :=
  mk_vcpu (vid c) v (mp_state c) (in_guest c) (host_cpu c) (icr_high c) (regs c) (sregs c) (state_dirty c) (singlestep c) (step_exit c) (vmcb c) (mmio c) (run c).
Definition set_mp_state (v : _) (c : avm_vcpu) : avm_vcpu :=
  mk_vcpu (vid c) (lapic c) v (in_guest c) (host_cpu c) (icr_high c) (regs c) (sregs c) (state_dirty c) (singlestep c) (step_exit c) (vmcb c) (mmio c) (run c).
Definition set_in_guest (v : _) (c : avm_vcpu) : avm_vcpu :=
  mk_vcpu (vid c) (lapic c) (mp_state c) v (host_cpu c) (icr_high c) (regs c) (sregs c) (state_dirty c) (singlestep c) (step_exit c) (vmcb c) (mmio c) (run c).
Definition set_host_cpu (v : _) (c : avm_vcpu) : avm_vcpu :=
  mk_vcpu (vid c) (lapic c) (mp_state c) (in_guest c) v (icr_high c) (regs c) (sregs c) (state_dirty c) (singlestep c) (step_exit c) (vmcb c) (mmio c) (run c).
Definition set_icr_high (v : _) (c : avm_vcpu) : avm_vcpu :=
  mk_vcpu (vid c) (lapic c) (mp_state c) (in_guest c) (host_cpu c) v (regs c) (sregs c) (state_dirty c) (singlestep c) (step_exit c) (vmcb c) (mmio c) (run c).
Definition set_regs (v : _) (c : avm_vcpu) : avm_vcpu :=
  mk_vcpu (vid c) (lapic c) (mp_state c) (in_guest c) (host_cpu c) (icr_high c) v (sregs c) (state_dirty c) (singlestep c) (step_exit c) (vmcb c) (mmio c) (run c).
Definition set_sregs (v : _) (c : avm_vcpu) : avm_vcpu :=
  mk_vcpu (vid c) (lapic c) (mp_state c) (in_guest c) (host_cpu c) (icr_high c) (regs c) v (state_dirty c) (singlestep c) (step_exit c) (vmcb c) (mmio c) (run c).
Definition set_state_dirty (v : _) (c : avm_vcpu) : avm_vcpu :=
  mk_vcpu (vid c) (lapic c) (mp_state c) (in_guest c) (host_cpu c) (icr_high c) (regs c) (sregs c) v (singlestep c) (step_exit c) (vmcb c) (mmio c) (run c).
Definition set_singlestep (v : _) (c : avm_vcpu) : avm_vcpu :=
  mk_vcpu (vid c) (lapic c) (mp_state c) (in_guest c) (host_cpu c) (icr_high c) (regs c) (sregs c) (state_dirty c) v (step_exit c) (vmcb c) (mmio c) (run c).
Definition set_step_exit (v : _) (c : avm_vcpu) : avm_vcpu :=
  mk_vcpu (vid c) (lapic c) (mp_state c) (in_guest c) (host_cpu c) (icr_high c) (regs c) (sregs c) (state_dirty c) (singlestep c) v (vmcb c) (mmio c) (run c).
Definition set_vmcb (v : _) (c : avm_vcpu) : avm_vcpu :=
  mk_vcpu (vid c) (lapic c) (mp_state c) (in_guest c) (host_cpu c) (icr_high c) (regs c) (sregs c) (state_dirty c) (singlestep c) (step_exit c) v (mmio c) (run c).
Definition set_mmio (v : _) (c : avm_vcpu) : avm_vcpu :=
  mk_vcpu (vid c) (lapic c) (mp_state c) (in_guest c) (host_cpu c) (icr_high c) (regs c) (sregs c) (state_dirty c) (singlestep c) (step_exit c) (vmcb c) v (run c).
Definition set_run (v : _) (c : avm_vcpu) : avm_vcpu :=
  mk_vcpu (vid c) (lapic c) (mp_state c) (in_guest c) (host_cpu c) (icr_high c) (regs c) (sregs c) (state_dirty c) (singlestep c) (step_exit c) (vmcb c) (mmio c) v.

(** A routing entry. The words of its union are [u0], [u1] and [u2]: the chip
    and the pin, or the address (low, high) and the data of an MSI. *)
Record kvm_irq_routing_entry := mk_route {
  gsi : Z; r_type : Z; r_flags : Z; u0 : Z; u1 : Z; u2 : Z }.

Record avm_irqfd := mk_irqfd { if_used : bool; if_gsi : Z; if_efd : option Z }.
Record avm_ioeventfd := mk_ioeventfd {
  used : bool; pio : bool; datamatch : bool; e_len : Z; addr : Z; match_ : Z; efd : Z }.

Record avm_slot := mk_slot {
  s_id : Z; s_gpa : Z; s_size : Z; s_hva : Z; s_used : bool; readonly : bool }.

(** [mem] is the host memory behind the slots, by host virtual address. *)
Record avm_vm := mk_vm {
  irqchip : bool; pic : avm_pic * avm_pic; pit : avm_pit; ioapic : avm_ioapic; slots : list avm_slot;
  vcpus : list (option avm_vcpu); routes : list kvm_irq_routing_entry;
  irqfds : list avm_irqfd; ioeventfds : list avm_ioeventfd;
  kick_expected : list Z; nmis : list nat; mem : gmap Z Z }.
Definition set_irqchip (v : _) (m : avm_vm) : avm_vm :=
  mk_vm v (pic m) (pit m) (ioapic m) (slots m) (vcpus m) (routes m) (irqfds m) (ioeventfds m) (kick_expected m) (nmis m) (mem m).
Definition set_pic (v : _) (m : avm_vm) : avm_vm :=
  mk_vm (irqchip m) v (pit m) (ioapic m) (slots m) (vcpus m) (routes m) (irqfds m) (ioeventfds m) (kick_expected m) (nmis m) (mem m).
Definition set_pit (v : _) (m : avm_vm) : avm_vm :=
  mk_vm (irqchip m) (pic m) v (ioapic m) (slots m) (vcpus m) (routes m) (irqfds m) (ioeventfds m) (kick_expected m) (nmis m) (mem m).
Definition set_ioapic (v : _) (m : avm_vm) : avm_vm :=
  mk_vm (irqchip m) (pic m) (pit m) v (slots m) (vcpus m) (routes m) (irqfds m) (ioeventfds m) (kick_expected m) (nmis m) (mem m).
Definition set_slots (v : _) (m : avm_vm) : avm_vm :=
  mk_vm (irqchip m) (pic m) (pit m) (ioapic m) v (vcpus m) (routes m) (irqfds m) (ioeventfds m) (kick_expected m) (nmis m) (mem m).
Definition set_vcpus (v : _) (m : avm_vm) : avm_vm :=
  mk_vm (irqchip m) (pic m) (pit m) (ioapic m) (slots m) v (routes m) (irqfds m) (ioeventfds m) (kick_expected m) (nmis m) (mem m).
Definition set_routes (v : _) (m : avm_vm) : avm_vm :=
  mk_vm (irqchip m) (pic m) (pit m) (ioapic m) (slots m) (vcpus m) v (irqfds m) (ioeventfds m) (kick_expected m) (nmis m) (mem m).
Definition set_irqfds (v : _) (m : avm_vm) : avm_vm :=
  mk_vm (irqchip m) (pic m) (pit m) (ioapic m) (slots m) (vcpus m) (routes m) v (ioeventfds m) (kick_expected m) (nmis m) (mem m).
Definition set_ioeventfds (v : _) (m : avm_vm) : avm_vm :=
  mk_vm (irqchip m) (pic m) (pit m) (ioapic m) (slots m) (vcpus m) (routes m) (irqfds m) v (kick_expected m) (nmis m) (mem m).
Definition set_kick_expected (v : _) (m : avm_vm) : avm_vm :=
  mk_vm (irqchip m) (pic m) (pit m) (ioapic m) (slots m) (vcpus m) (routes m) (irqfds m) (ioeventfds m) v (nmis m) (mem m).
Definition set_nmis (v : _) (m : avm_vm) : avm_vm :=
  mk_vm (irqchip m) (pic m) (pit m) (ioapic m) (slots m) (vcpus m) (routes m) (irqfds m) (ioeventfds m) (kick_expected m) v (mem m).
Definition set_mem (v : _) (m : avm_vm) : avm_vm :=
  mk_vm (irqchip m) (pic m) (pit m) (ioapic m) (slots m) (vcpus m) (routes m) (irqfds m) (ioeventfds m) (kick_expected m) (nmis m) v.

(** [vm->pic[chip]] *)
Definition get_pic (chip : Z) (vm : avm_vm) : avm_pic := if chip =? 0 then (pic vm).1 else (pic vm).2.
Definition put_pic (chip : Z) (p : avm_pic) (vm : avm_vm) : avm_vm :=
  set_pic (if chip =? 0 then (p, (pic vm).2) else ((pic vm).1, p)) vm.

(** Applying a function to every virtual CPU that satisfies a test, the way the
    loops over [vm->vcpus] do. *)
Definition map_vcpus (f : avm_vcpu -> avm_vcpu) (l : list (option avm_vcpu)) : list (option avm_vcpu) :=
  map (fun o => match o with Some v => Some (f v) | None => None end) l.

End AvmVm.
