(* ===== verification/AvmIoapic.v ===== *)
(** AvmIoapic: the I/O APIC of a virtual machine
    ([kernel/src/avm/avm_ioapic.c], the whole file). *)

From S2P Require Import Prelude AvmLapic AvmVm.

Module AvmIoapic.
Import AvmLapic AvmVm.

Definition IOAPIC_PINS : Z := 24.
Definition IOREGSEL : Z := 0x00.
Definition IOWIN : Z := 0x10.
Definition REG_ID : Z := 0x00.
Definition REG_VER : Z := 0x01.
Definition REG_ARB : Z := 0x02.
Definition REG_REDIR_FIRST : Z := 0x10.
Definition REDIR_MASK : Z := bit 16.
Definition REDIR_LOW_WRITABLE : Z := 0x1AFFF.
Definition REDIR_HIGH_WRITABLE : Z := 0xFF000000.
Definition IOAPIC_VERSION : Z := Z.lor (Z.shiftl (IOAPIC_PINS - 1) 16) 0x11.

Definition avm_ioapic_init (vm : avm_vm) : avm_vm :=
  set_ioapic (mk_ioapic 0 (replicate 24 REDIR_MASK) 0) vm.

(** The result is always 0; the value read is returned. *)
Definition avm_ioapic_mmio_read (io : avm_ioapic) (off : Z) : outcome Z :=
  if off =? IOREGSEL then Ret (index io)
  else if negb (off =? IOWIN) then Ret 0
  else
    let idx := Z.land (index io) 0xFF in
    if (idx =? REG_ID) || (idx =? REG_ARB) then Ret 0
    else if idx =? REG_VER then Ret IOAPIC_VERSION
    else if (REG_REDIR_FIRST <=? idx) && (idx <? REG_REDIR_FIRST + 2 * IOAPIC_PINS) then
      entry ← arr_get (redir io) (Z.shiftr (idx - REG_REDIR_FIRST) 1);
      Ret (if nz (Z.land idx 1) then u32 (Z.shiftr entry 32) else u32 entry)
    else Ret 0.

Definition avm_ioapic_mmio_write (io : avm_ioapic) (off val : Z) : outcome avm_ioapic :=
  if off =? IOREGSEL then Ret (mk_ioapic (Z.land val 0xFF) (redir io) (line io))
  else if negb (off =? IOWIN) then Ret io
  else
    let idx := Z.land (index io) 0xFF in
    if (idx <? REG_REDIR_FIRST) || (REG_REDIR_FIRST + 2 * IOAPIC_PINS <=? idx) then Ret io
    else
      let i := Z.shiftr (idx - REG_REDIR_FIRST) 1 in
      entry ← arr_get (redir io) i;
      let entry :=
        if nz (Z.land idx 1)
        then Z.lor (Z.land entry 0xFFFFFFFF) (Z.shiftl (Z.land val REDIR_HIGH_WRITABLE) 32)
        else Z.lor (Z.land entry 0xFFFFFFFF00000000) (Z.land val REDIR_LOW_WRITABLE) in
      r ← arr_set (redir io) i entry;
      Ret (mk_ioapic (index io) r (line io)).

(** [dest == 0xFF || dest == (uint8_t)vcpu->id] *)
Definition addressed (dest : Z) (c : avm_vcpu) : bool := (dest =? 0xFF) || (dest =? u8 (vid c)).
(** The loop that raises a vector in the addressed virtual CPUs. *)
Definition raise_in (dest vector : Z) (l : list (option avm_vcpu)) : list (option avm_vcpu) :=
  map_vcpus (fun c => if addressed dest c
                      then set_lapic (avm_lapic_raise (lapic c) vector) c else c) l.

Definition deliver (vm : avm_vm) (pin : Z) : outcome avm_vm :=
  entry ← arr_get (redir (ioapic vm)) pin;
  if nz (Z.land entry REDIR_MASK) then Ret vm
  else if nz (Z.land (Z.shiftr entry 8) 7) then Ret vm
  else
    let vector := u8 entry in
    let dest := u8 (Z.shiftr entry 56) in
    Ret (set_vcpus (raise_in dest vector (vcpus vm)) vm).

Definition avm_ioapic_set_pin (vm : avm_vm) (pin : Z) (level : bool) : outcome avm_vm :=
  if IOAPIC_PINS <=? pin then Ret vm
  else
    let b := bit pin in
    let set_line v vm := set_ioapic (mk_ioapic (index (ioapic vm)) (redir (ioapic vm)) v) vm in
    if level then
      vm ← (if nz (Z.land (line (ioapic vm)) b) then Ret vm else deliver vm pin);
      Ret (set_line (Z.lor (line (ioapic vm)) b) vm)
    else Ret (set_line (Z.land (line (ioapic vm)) (UINT32_MAX - b)) vm).

(** ** Properties *)

Definition wf_ioapic (io : avm_ioapic) : Prop :=
  length (redir io) = 24%nat /\ Forall (fun e => 0 <= e < 2 ^ 64) (redir io) /\
  0 <= index io < 256 /\ 0 <= line io < 2 ^ 24.

(** The two halves of entry [i] as the registers the guest sees. *)
Definition redir_reg (i : Z) (high : bool) : Z := REG_REDIR_FIRST + 2 * i + Z.b2z high.

Lemma redir_reg_facts i high : 0 <= i < 24 ->
  Z.land (redir_reg i high) 0xFF = redir_reg i high /\
  Z.shiftr (redir_reg i high - REG_REDIR_FIRST) 1 = i /\
  nz (Z.land (redir_reg i high) 1) = high /\
  REG_REDIR_FIRST <= redir_reg i high < REG_REDIR_FIRST + 2 * IOAPIC_PINS.
Proof.
  intros Hi. unfold redir_reg, REG_REDIR_FIRST, IOAPIC_PINS. split; [|split; [|split]].
  - rewrite (land_ones_small _ 8) by lia. apply Z.mod_small. destruct high; simpl; lia.
  - rewrite Z.shiftr_div_pow2 by lia. symmetry. apply (Z.div_unique _ _ _ (Z.b2z high)); destruct high; simpl; lia.
  - rewrite (land_ones_small _ 1) by lia. replace (16 + 2 * i + Z.b2z high) with (Z.b2z high + (8 + i) * 2) by lia.
    change (2 ^ 1) with 2. rewrite Z.mod_add by lia. by destruct high.
  - destruct high; simpl; lia.
Qed.

(** The writable bits of a half. *)
Definition half_mask (high : bool) : Z := if high then REDIR_HIGH_WRITABLE else REDIR_LOW_WRITABLE.
Definition half (high : bool) (e : Z) : Z := if high then u32 (Z.shiftr e 32) else u32 e.

Lemma u64_split e : 0 <= e < 2 ^ 64 -> e = u32 e + u32 (Z.shiftr e 32) * 2 ^ 32.
Proof.
  intros He. unfold u32. rewrite Z.shiftr_div_pow2 by lia.
  assert (0 <= e / 2 ^ 32 < 2 ^ 32) by (split; [apply Z.div_pos; lia|apply Z.div_lt_upper_bound; lia]).
  rewrite (Z.mod_small (e / 2 ^ 32)) by lia. pose proof (Z.div_mod e (2 ^ 32) ltac:(lia)). lia.
Qed.

Lemma half_of_parts lo hi : 0 <= lo < 2 ^ 32 -> 0 <= hi < 2 ^ 32 ->
  0 <= lo + hi * 2 ^ 32 < 2 ^ 64 /\ half false (lo + hi * 2 ^ 32) = lo /\ half true (lo + hi * 2 ^ 32) = hi.
Proof.
  intros Hlo Hhi. split; [lia|]. unfold half, u32. rewrite Z.shiftr_div_pow2 by lia. split.
  - rewrite Z.mod_add by lia. by apply Z.mod_small.
  - rewrite Z.div_add, Z.div_small by lia. by apply Z.mod_small.
Qed.

Lemma land_lo32 e : Z.land e 0xFFFFFFFF = u32 e.
Proof. by apply (land_ones_small e 32). Qed.

Lemma land_hi32 e : 0 <= e < 2 ^ 64 -> Z.land e 0xFFFFFFFF00000000 = u32 (Z.shiftr e 32) * 2 ^ 32.
Proof.
  intros He. change 0xFFFFFFFF00000000 with (Z.shiftl (2 ^ 32 - 1) 32).
  rewrite <- Z.shiftl_mul_pow2 by lia. apply Z.bits_inj'. intros n Hn.
  rewrite Z.land_spec. destruct (decide (n < 32)).
  - rewrite !Z.shiftl_spec_low by lia. apply andb_false_r.
  - rewrite !Z.shiftl_spec by lia. change (2 ^ 32 - 1) with (Z.ones 32). unfold u32.
    destruct (decide (n - 32 < 32)).
    + rewrite Z.ones_spec_low, andb_true_r, Z.mod_pow2_bits_low, Z.shiftr_spec by lia. f_equal. lia.
    + rewrite Z.ones_spec_high, Z.mod_pow2_bits_high by lia. apply andb_false_r.
Qed.

Lemma lo_hi_lor lo hi : 0 <= lo < 2 ^ 32 -> Z.lor lo (hi * 2 ^ 32) = lo + hi * 2 ^ 32.
Proof. intros. rewrite <- (lor_shiftl_add lo hi 32), Z.shiftl_mul_pow2 by lia. done. Qed.

Lemma mask_half_range v high : 0 <= Z.land v (half_mask high) < 2 ^ 32.
Proof. apply land_below; [lia|]. destruct high; vm_compute; split; discriminate || reflexivity. Qed.

(** The entry that a write of [v] to one half leaves. *)
Definition write_half (high : bool) (e v : Z) : Z :=
  if high then Z.lor (Z.land e 0xFFFFFFFF) (Z.shiftl (Z.land v REDIR_HIGH_WRITABLE) 32)
  else Z.lor (Z.land e 0xFFFFFFFF00000000) (Z.land v REDIR_LOW_WRITABLE).

Lemma write_half_spec high e v : 0 <= e < 2 ^ 64 ->
  0 <= write_half high e v < 2 ^ 64 /\
  half high (write_half high e v) = Z.land v (half_mask high) /\
  half (negb high) (write_half high e v) = half (negb high) e.
Proof.
  intros He. pose proof (mask_half_range v high) as Hm. unfold write_half. destruct high; cbn [negb half_mask] in *.
  - rewrite land_lo32, Z.shiftl_mul_pow2 by lia. rewrite lo_hi_lor by apply u32_range.
    destruct (half_of_parts (u32 e) (Z.land v REDIR_HIGH_WRITABLE) (u32_range e) Hm) as (? & E1 & E2).
    rewrite E1, E2. done.
  - rewrite land_hi32, Z.lor_comm, lo_hi_lor by done.
    destruct (half_of_parts (Z.land v REDIR_LOW_WRITABLE) (u32 (Z.shiftr e 32)) Hm (u32_range _)) as (? & E1 & E2).
    rewrite E1, E2. done.
Qed.

(** Selecting a register and reading the window. *)
Definition ioapic_read_reg (io : avm_ioapic) (r : Z) : outcome Z :=
  io ← avm_ioapic_mmio_write io IOREGSEL r; avm_ioapic_mmio_read io IOWIN.
Definition ioapic_write_reg (io : avm_ioapic) (r v : Z) : outcome avm_ioapic :=
  io ← avm_ioapic_mmio_write io IOREGSEL r; avm_ioapic_mmio_write io IOWIN v.

Lemma select_reg io r :
  avm_ioapic_mmio_write io IOREGSEL r = Ret (mk_ioapic (Z.land r 0xFF) (redir io) (line io)).
Proof. done. Qed.

Lemma read_reg_redir io i high : 0 <= i < 24 -> wf_ioapic io ->
  exists e, redir io !! Z.to_nat i = Some e /\ 0 <= e < 2 ^ 64 /\
    ioapic_read_reg io (redir_reg i high) = Ret (half high e).
Proof.
  intros Hi (Hlen & Hr & _ & _). destruct (lookup_lt_is_Some_2 (redir io) (Z.to_nat i)) as [e He]; [lia|].
  exists e. split; [done|]. split; [by eapply (Forall_lookup_1 _ _ _ _ Hr)|].
  destruct (redir_reg_facts i high Hi) as (E1 & E2 & E3 & Hrange).
  unfold ioapic_read_reg. rewrite select_reg, ret_bind.
  unfold avm_ioapic_mmio_read. cbn [Z.eqb IOREGSEL IOWIN negb Pos.eqb index redir]. rewrite E1, E1, E2, E3.
  unfold REG_REDIR_FIRST in Hrange.
  destruct (redir_reg i high =? REG_ID) eqn:?, (redir_reg i high =? REG_ARB) eqn:?, (redir_reg i high =? REG_VER) eqn:?;
    reify_bools; unfold REG_ID, REG_ARB, REG_VER in *; try lia. cbn [orb].
  destruct (REG_REDIR_FIRST <=? redir_reg i high) eqn:?, (redir_reg i high <? REG_REDIR_FIRST + 2 * IOAPIC_PINS) eqn:?;
    reify_bools; unfold REG_REDIR_FIRST in *; try lia. cbn [andb].
  assert (Hg : arr_get (redir io) i = Ret e) by (apply arr_get_Some; split; [lia|done]).
  rewrite Hg, ret_bind. by destruct high.
Qed.

Lemma write_reg_redir io i high v : 0 <= i < 24 -> wf_ioapic io ->
  exists e, redir io !! Z.to_nat i = Some e /\
    ioapic_write_reg io (redir_reg i high) v =
      Ret (mk_ioapic (redir_reg i high) (<[Z.to_nat i := write_half high e v]> (redir io)) (line io)).
Proof.
  intros Hi (Hlen & Hr & _ & _). destruct (lookup_lt_is_Some_2 (redir io) (Z.to_nat i)) as [e He]; [lia|].
  exists e. split; [done|].
  destruct (redir_reg_facts i high Hi) as (E1 & E2 & E3 & Hrange).
  unfold ioapic_write_reg. rewrite select_reg, ret_bind.
  unfold avm_ioapic_mmio_write. cbn [Z.eqb IOREGSEL IOWIN negb Pos.eqb index redir line]. rewrite E1, E1, E2, E3.
  destruct (redir_reg i high <? REG_REDIR_FIRST) eqn:?, (REG_REDIR_FIRST + 2 * IOAPIC_PINS <=? redir_reg i high) eqn:?;
    reify_bools; try lia. cbn [orb].
  assert (Hg : arr_get (redir io) i = Ret e) by (apply arr_get_Some; split; [lia|done]).
  rewrite Hg, ret_bind, arr_set_Ret, ret_bind by lia. by destruct high.
Qed.

(** the redirection table behaves as registers. Writing a half of entry
    [i] through the index and data windows keeps the writable bits, leaves the
    other half and every other entry unchanged, drives nothing, and reads back. *)
Theorem ioapic_registers io i high v : 0 <= i < 24 -> wf_ioapic io ->
  exists io', ioapic_write_reg io (redir_reg i high) v = Ret io' /\ wf_ioapic io' /\ line io' = line io /\
    ioapic_read_reg io' (redir_reg i high) = Ret (Z.land v (half_mask high)) /\
    forall j h, 0 <= j < 24 -> (j, h) <> (i, high) ->
      ioapic_read_reg io' (redir_reg j h) = ioapic_read_reg io (redir_reg j h).
Proof.
  intros Hi Hwf. destruct (write_reg_redir io i high v Hi Hwf) as (e & He & ->).
  assert (He64 : 0 <= e < 2 ^ 64) by (by eapply (Forall_lookup_1 _ _ _ _ (proj1 (proj2 Hwf)))).
  destruct (write_half_spec high e v He64) as (Hw & Hs & Ho).
  set (io' := mk_ioapic _ _ _). assert (Hwf' : wf_ioapic io').
  { destruct Hwf as (Hl & Hr & Hx & Hn). split; [|split; [|split]]; simpl; try done.
    - by rewrite length_insert.
    - by apply Forall_insert.
    - destruct (redir_reg_facts i high Hi) as (_ & _ & _ & Hrange). unfold REG_REDIR_FIRST, IOAPIC_PINS in Hrange. lia. }
  exists io'. split; [done|]. split; [done|]. split; [done|]. split.
  - destruct (read_reg_redir io' i high Hi Hwf') as (e' & He' & _ & ->). simpl in He'.
    rewrite list_lookup_insert_eq in He' by (by eapply lookup_lt_Some). simplify_eq. by rewrite Hs.
  - intros j h Hj Hne. destruct (read_reg_redir io' j h Hj Hwf') as (e' & He' & _ & ->).
    destruct (read_reg_redir io j h Hj Hwf) as (e0 & He0 & _ & ->). f_equal. simpl in He'.
    destruct (decide (j = i)) as [->|Hji].
    + rewrite list_lookup_insert_eq in He' by (by eapply lookup_lt_Some). simplify_eq.
      assert (h = negb high) as -> by (destruct h, high; done). done.
    + rewrite list_lookup_insert_ne in He' by lia. by simplify_eq.
Qed.

(** a pin is edge triggered. Driving a pin records its level, and a rising
    edge of a pin whose entry is unmasked and fixed raises the entry's vector in
    exactly the virtual CPUs that the destination names; in every other case no
    local APIC changes. Repeated assertions do not raise the vector again. *)
Theorem ioapic_edge_delivery vm pin level : wf_ioapic (ioapic vm) -> 0 <= pin ->
  exists vm', avm_ioapic_set_pin vm pin level = Ret vm' /\
    redir (ioapic vm') = redir (ioapic vm) /\
    (24 <= pin -> vm' = vm) /\
    (pin < 24 -> forall b, 0 <= b < 24 ->
       Z.testbit (line (ioapic vm')) b = if b =? pin then level else Z.testbit (line (ioapic vm)) b) /\
    (pin < 24 -> exists entry, redir (ioapic vm) !! Z.to_nat pin = Some entry /\
       vcpus vm' =
         if level && negb (Z.testbit (line (ioapic vm)) pin) && negb (Z.testbit entry 16) &&
            (Z.land (Z.shiftr entry 8) 7 =? 0)
         then raise_in (u8 (Z.shiftr entry 56)) (u8 entry) (vcpus vm) else vcpus vm).
Proof.
  intros (Hlen & Hr & _ & Hline) Hpin. unfold avm_ioapic_set_pin, IOAPIC_PINS.
  destruct (24 <=? pin) eqn:Hp; reify_bools.
  { exists vm. repeat (split; [done|]). split; lia. }
  destruct (lookup_lt_is_Some_2 (redir (ioapic vm)) (Z.to_nat pin)) as [entry He]; [lia|].
  assert (Hg : arr_get (redir (ioapic vm)) pin = Ret entry) by (apply arr_get_Some; split; [lia|done]).
  rewrite nz_bit by lia. destruct level.
  - assert (Hdel : exists vm1, (if Z.testbit (line (ioapic vm)) pin then Ret vm else deliver vm pin) = Ret vm1 /\
      ioapic vm1 = ioapic vm /\ vcpus vm1 =
         if negb (Z.testbit (line (ioapic vm)) pin) && negb (Z.testbit entry 16) && (Z.land (Z.shiftr entry 8) 7 =? 0)
         then raise_in (u8 (Z.shiftr entry 56)) (u8 entry) (vcpus vm) else vcpus vm).
    { destruct (Z.testbit (line (ioapic vm)) pin); [by exists vm|]. unfold deliver, REDIR_MASK.
      rewrite Hg, ret_bind, nz_bit by lia. destruct (Z.testbit entry 16); [by exists vm|]. cbn [negb andb].
      unfold nz. destruct (Z.land (Z.shiftr entry 8) 7 =? 0); cbn [negb]; by eexists. }
    destruct Hdel as (vm1 & -> & Eio & Ev). rewrite ret_bind, Eio. eexists. split; [done|]. simpl.
    split; [done|]. split; [lia|]. split.
    + intros _ b Hb. rewrite Z.lor_spec, testbit_bit by lia. destruct (b =? pin) eqn:?; reify_bools.
      * rewrite bool_decide_eq_true_2 by done. apply orb_true_r.
      * rewrite bool_decide_eq_false_2 by done. apply orb_false_r.
    + intros _. exists entry. split; [done|]. done.
  - eexists. split; [done|]. simpl. split; [done|]. split; [lia|]. split; [|by intros _; exists entry].
    intros _ b Hb. rewrite Z.land_spec, not_bit_spec by lia. destruct (b =? pin) eqn:?; reify_bools.
    * rewrite bool_decide_eq_true_2 by done. apply andb_false_r.
    * rewrite bool_decide_eq_false_2 by done. apply andb_true_r.
Qed.

(** *** Witnesses *)

Definition zero_seg : kvm_segment := mk_segment 0 0 0 0 0 0 0.
Definition zero_sregs : kvm_sregs :=
  mk_sregs zero_seg zero_seg zero_seg zero_seg zero_seg zero_seg zero_seg zero_seg 0 0 0 0 0 0 0 0.
Definition sample_vcpu (i : Z) : avm_vcpu :=
  mk_vcpu i (avm_lapic_init i) AVM_MP_RUNNABLE false 0 0 (mk_regs (replicate 16 0) 0 2) zero_sregs false
    false false (mk_vmcb 0 0 0 0 0 0 0 2) (mk_mmio false false false 0 0 0 false false false false 0 0)
    (mk_run 0 0 (replicate 8 0) 0 false).
Definition zero_pic : avm_pic := mk_pic 0 0 0xFF 8 0 0 false false false.
Definition zero_pit : avm_pit := mk_pit false 0 0 0 0 0 0 false false 0 0 0 false 0.
(** Pin 5 is routed to vector 0x31 of the virtual CPU with id 1. *)
Definition sample_io : avm_ioapic :=
  mk_ioapic 0 (<[5%nat := Z.lor 0x31 (Z.shiftl 1 56)]> (replicate 24 REDIR_MASK)) 0.
Definition sample_vm : avm_vm :=
  mk_vm true (zero_pic, zero_pic) zero_pit sample_io []
    [Some (sample_vcpu 0); Some (sample_vcpu 1); None; None; None; None; None; None]
    [] [] [] (replicate 4 0) [] ∅.

Lemma sample_io_wf : wf_ioapic sample_io.
Proof.
  split; [done|]. split; [|split; vm_compute; split; discriminate || reflexivity].
  apply Forall_insert; [apply Forall_replicate|]; vm_compute; split; discriminate || reflexivity.
Qed.

Lemma ioapic_registers_witness :
  exists io', ioapic_write_reg sample_io (redir_reg 5 false) 0xFFFFFFFF = Ret io' /\
    ioapic_read_reg io' (redir_reg 5 false) = Ret 0x1AFFF.
Proof.
  destruct (ioapic_registers sample_io 5 false 0xFFFFFFFF ltac:(lia) sample_io_wf) as (io' & E & _ & _ & R & _).
  exists io'. split; [exact E|]. rewrite R. vm_compute. reflexivity.
Defined.

Lemma ioapic_edge_delivery_witness :
  exists vm', avm_ioapic_set_pin sample_vm 5 true = Ret vm' /\
    map (fun o => match o with Some c => vmem (irr (lapic c)) 0x31 | None => false end) (vcpus vm')
    = [false; true; false; false; false; false; false; false].
Proof.
  destruct (ioapic_edge_delivery sample_vm 5 true sample_io_wf ltac:(lia)) as (vm' & E & _ & _ & _ & H).
  exists vm'. split; [exact E|]. destruct (H ltac:(lia)) as (entry & He & ->).
  vm_compute in He. injection He as <-. vm_compute. reflexivity.
Defined.

End AvmIoapic.
