(* ===== verification/AvmIrq.v ===== *)
(** AvmIrq: the 8259 PIC pair and channel 0 of the PIT of a virtual machine, and
    the interrupt entry points that use them ([kernel/src/avm/avm_irq.c]).

    [avm_irq_set_line] goes through the routing table and is in [AvmRoute]. Of
    [avm_irq_wait] one turn of its loop is modelled; halting the host CPU and
    arming its timer are not. *)

From S2P Require Import Prelude AvmLapic AvmVm AvmIoapic.

Module AvmIrq.
Import AvmLapic AvmVm AvmIoapic.

Definition PIC_MASTER_CMD : Z := 0x20.
Definition PIC_MASTER_DATA : Z := 0x21.
Definition PIC_SLAVE_CMD : Z := 0xA0.
Definition PIC_SLAVE_DATA : Z := 0xA1.
Definition PIC_CASCADE_IRQ : Z := 2.
Definition PIT_CH0 : Z := 0x40.
Definition PIT_CONTROL : Z := 0x43.
Definition PIT_HZ : Z := 1193182.

(** [~(1u << b)] on a byte. *)
Definition byte_clear (x b : Z) : Z := Z.land x (0xFF - bit b).

(** The loop of [lowest_set] from bit [i], [n] bits left; [None] is -1. *)
Fixpoint lowest_from (bits i : Z) (n : nat) : option Z :=
  match n with
  | O => None
  | S n => if nz (Z.land bits (bit i)) then Some i else lowest_from bits (i + 1) n
  end.
Definition lowest_set (bits : Z) : option Z := lowest_from bits 0 8.

(** ** 8259 PIC *)

Definition pic_candidate (p : avm_pic) : option Z :=
  let req := Z.land (p_irr p) (0xFF - p_imr p) in
  if req =? 0 then None
  else
    let req := if nz (p_isr p) then
                 match lowest_set (p_isr p) with
                 | Some h => Z.land req (bit h - 1)
                 | None => req
                 end
               else req in
    if nz req then lowest_set req else None.

Definition pic_sync_cascade (vm : avm_vm) : avm_vm :=
  let m := get_pic 0 vm in
  put_pic 0 (set_p_irr (match pic_candidate (get_pic 1 vm) with
                        | Some _ => Z.lor (p_irr m) (bit PIC_CASCADE_IRQ)
                        | None => byte_clear (p_irr m) PIC_CASCADE_IRQ
                        end) m) vm.

Definition pic_raise (vm : avm_vm) (irq : Z) : avm_vm :=
  let chip := Z.shiftr irq 3 in
  let p := get_pic chip vm in
  put_pic chip (set_p_irr (Z.lor (p_irr p) (bit (Z.land irq 7))) p) vm.

(** Moving request [n] of a chip into service. *)
Definition pic_ack (n : Z) (p : avm_pic) : avm_pic :=
  set_p_isr (Z.lor (p_isr p) (bit n)) (set_p_irr (byte_clear (p_irr p) n) p).

Definition pic_next (vm : avm_vm) : option Z * avm_vm :=
  let vm := pic_sync_cascade vm in
  let m := get_pic 0 vm in
  let s := get_pic 1 vm in
  match pic_candidate m with
  | None => (None, vm)
  | Some mc =>
    if mc =? PIC_CASCADE_IRQ then
      let m := set_p_irr (byte_clear (p_irr m) PIC_CASCADE_IRQ) m in
      match pic_candidate s with
      | None => (None, put_pic 0 m vm)
      | Some sc =>
        let m := set_p_isr (Z.lor (p_isr m) (bit PIC_CASCADE_IRQ)) m in
        (Some (vector_base s + sc), put_pic 1 (pic_ack sc s) (put_pic 0 m vm))
      end
    else (Some (vector_base m + mc), put_pic 0 (pic_ack mc m) vm)
  end.

Definition pic_end_of_interrupt (vm : avm_vm) (chip : Z) (irq : option Z) : avm_vm :=
  match irq with
  | None => vm
  | Some irq =>
    let p := get_pic chip vm in
    let p := set_p_isr (byte_clear (p_isr p) irq) p in
    let vm := put_pic chip p vm in
    if (chip =? 1) && (p_isr p =? 0) then
      let m := get_pic 0 vm in
      put_pic 0 (set_p_isr (byte_clear (p_isr m) PIC_CASCADE_IRQ) m) vm
    else vm
  end.

Definition pic_write_command (vm : avm_vm) (chip val : Z) : avm_vm :=
  let p := get_pic chip vm in
  if nz (Z.land val 0x10) then
    put_pic chip (mk_pic 0 0 0 (vector_base p) (p_line p) 1 (negb (nz (Z.land val 0x02)))
                         (nz (Z.land val 0x01)) false) vm
  else if nz (Z.land val 0x08) then
    if nz (Z.land val 0x02) then put_pic chip (set_read_isr (nz (Z.land val 0x01)) p) vm else vm
  else if Z.land val 0xE0 =? 0x20 then pic_end_of_interrupt vm chip (lowest_set (p_isr p))
  else if Z.land val 0xE0 =? 0x60 then pic_end_of_interrupt vm chip (Some (Z.land val 7))
  else vm.

Definition pic_write_data (vm : avm_vm) (chip val : Z) : avm_vm :=
  let p := get_pic chip vm in
  if init_step p =? 0 then put_pic chip (set_p_imr val p) vm
  else
    let icw4_or_done := if init_icw4 p then 3 else 0 in
    if init_step p =? 1 then
      put_pic chip (set_init_step (if init_cascade p then 2 else icw4_or_done)
                      (set_vector_base (Z.land val 0xF8) p)) vm
    else if init_step p =? 2 then put_pic chip (set_init_step icw4_or_done p) vm
    else if init_step p =? 3 then put_pic chip (set_init_step 0 p) vm
    else vm.

Definition pic_read (vm : avm_vm) (chip : Z) (data : bool) : Z :=
  let p := get_pic chip vm in
  if data then p_imr p else if read_isr p then p_isr p else p_irr p.

(** ** PIT channel 0 *)

Definition pit_span (p : avm_pit) : Z := if reload p =? 0 then 65536 else reload p.

Definition pit_cycles (p : avm_pit) (now : Z) : Z :=
  u64 (u64 (now - start_ns p) / 1000 * PIT_HZ) / 1000000.

Definition pit_count (p : avm_pit) (now : Z) : Z :=
  let span := pit_span p in
  if period_ns p =? 0 then reload p
  else
    let cycles := pit_cycles p now in
    if periodic p then u16 (span - cycles mod span)
    else if span <=? cycles then 0
    else u16 (span - cycles).

Definition pit_load (p : avm_pit) (now : Z) : avm_pit :=
  let p := set_start_ns now p in
  let p := set_period_ns (u64 (pit_span p * 1000000000) / PIT_HZ) p in
  set_armed true (set_next_irq_ns (u64 (now + period_ns p)) p).

Definition pit_control (p : avm_pit) (val now : Z) : avm_pit :=
  if negb (Z.shiftr val 6 =? 0) then p
  else
    let acc := Z.land (Z.shiftr val 4) 3 in
    if acc =? 0 then
      set_read_phase 0 (set_latched true (set_latch (pit_count p now) p))
    else
      let md := Z.land (Z.shiftr val 1) 7 in
      let md := if md =? 6 then 2 else if md =? 7 then 3
                else if negb (md =? 2) && negb (md =? 3) then 0 else md in
      let p := set_periodic ((md =? 2) || (md =? 3)) (set_mode md (set_access acc p)) in
      set_period_ns 0 (set_armed false (set_read_phase 0 (set_write_phase 0 p))).

Definition pit_write (p : avm_pit) (val now : Z) : avm_pit :=
  if access p =? 1 then
    pit_load (set_reload (u16 (Z.lor (Z.land (reload p) 0xFF00) val)) p) now
  else if access p =? 2 then
    pit_load (set_reload (u16 (Z.lor (Z.land (reload p) 0x00FF) (Z.shiftl val 8))) p) now
  else if access p =? 3 then
    if write_phase p =? 0 then set_write_phase 1 (set_write_lo val p)
    else pit_load (set_write_phase 0 (set_reload (u16 (Z.lor (Z.shiftl val 8) (write_lo p))) p)) now
  else p.

Definition pit_read (p : avm_pit) (now : Z) : Z * avm_pit :=
  let src := if latched p then latch p else pit_count p now in
  if access p =? 1 then (u8 src, set_latched false p)
  else if access p =? 2 then (u8 (Z.shiftr src 8), set_latched false p)
  else if access p =? 3 then
    if read_phase p =? 0 then (u8 src, set_read_phase 1 p)
    else (u8 (Z.shiftr src 8), set_latched false (set_read_phase 0 p))
  else (0, p).

Definition pit_tick (vm : avm_vm) (now : Z) : avm_vm :=
  let p := pit vm in
  if negb (armed p) || (now <? next_irq_ns p) then vm
  else
    let vm := pic_raise vm 0 in
    set_pit (if periodic p then
               let p := set_next_irq_ns (u64 (next_irq_ns p + period_ns p)) p in
               if next_irq_ns p <=? now then set_next_irq_ns (u64 (now + period_ns p)) p else p
             else set_armed false p) vm.

(** ** State for the VMM *)

(** The fields of [struct kvm_pic_state] that are used. *)
Record kvm_pic_state := mk_pic_state {
  k_irr : Z; k_imr : Z; k_isr : Z; irq_base : Z; read_reg_select : Z; init_state : Z; init4 : Z }.
Record kvm_ioapic_state := mk_ioapic_state { base_address : Z; ioregsel : Z; redirtbl : list Z }.
Record kvm_pit_channel_state := mk_channel {
  count : Z; latched_count : Z; count_latched : Z; read_state : Z; write_state : Z;
  write_latch : Z; rw_mode : Z; c_mode : Z; gate : Z; count_load_time : Z }.

Definition IOAPIC_BASE_GPA : Z := 0xFEC00000.

Definition pic_export (p : avm_pic) : kvm_pic_state :=
  mk_pic_state (p_irr p) (p_imr p) (p_isr p) (vector_base p) (Z.b2z (read_isr p)) (init_step p)
               (Z.b2z (init_icw4 p)).
Definition pic_import (p : avm_pic) (s : kvm_pic_state) : avm_pic :=
  mk_pic (k_irr s) (k_isr s) (k_imr s) (irq_base s) (p_line p) (init_state s) (init_cascade p)
         (nz (init4 s)) (nz (Z.land (read_reg_select s) 1)).
Definition ioapic_export (vm : avm_vm) : kvm_ioapic_state :=
  mk_ioapic_state IOAPIC_BASE_GPA (index (ioapic vm)) (redir (ioapic vm)).
Definition ioapic_import (vm : avm_vm) (s : kvm_ioapic_state) : avm_vm :=
  set_ioapic (mk_ioapic (ioregsel s) (redirtbl s) (line (ioapic vm))) vm.

Inductive chip_state := PicState (s : kvm_pic_state) | IoapicState (s : kvm_ioapic_state).

Definition avm_irq_get_chip (vm : avm_vm) (id : Z) : outcome chip_state :=
  if negb (irqchip vm) then Err (- ENXIO)
  else if 2 <? id then Err (- EINVAL)
  else if id =? 2 then Ret (IoapicState (ioapic_export vm))
  else Ret (PicState (pic_export (get_pic id vm))).

(** The union is read as the state that the chip id selects. *)
Definition avm_irq_set_chip (vm : avm_vm) (id : Z) (p : kvm_pic_state) (i : kvm_ioapic_state)
    : outcome avm_vm :=
  if negb (irqchip vm) then Err (- ENXIO)
  else if 2 <? id then Err (- EINVAL)
  else if id =? 2 then Ret (ioapic_import vm i)
  else Ret (put_pic id (pic_import (get_pic id vm) p) vm).

Definition pit_export (p : avm_pit) (now : Z) : kvm_pit_channel_state :=
  mk_channel (pit_count p now) (latch p) (Z.b2z (latched p)) (read_phase p) (write_phase p)
             (write_lo p) (access p) (mode p) 1 (s64 (start_ns p)).
Definition pit_import (p : avm_pit) (now : Z) (c : kvm_pit_channel_state) : avm_pit :=
  let p := set_access (if rw_mode c =? 0 then 3 else rw_mode c) p in
  let p := set_mode (if (c_mode c =? 2) || (c_mode c =? 3) then c_mode c else 0) p in
  let p := set_periodic ((mode p =? 2) || (mode p =? 3)) p in
  let p := set_reload (u16 (count c)) p in
  let p := set_read_phase (Z.land (read_state c) 1) (set_write_phase (Z.land (write_state c) 1) p) in
  let p := set_latched (negb (count_latched c =? 0)) (set_latch (latched_count c) (set_write_lo (write_latch c) p)) in
  if nz (count c) || nz (count_load_time c) then pit_load p now
  else set_period_ns 0 (set_armed false p).

Definition avm_irq_get_pit2 (vm : avm_vm) (now : Z) : outcome kvm_pit_channel_state :=
  if negb (created (pit vm)) then Err (- ENXIO) else Ret (pit_export (pit vm) now).
(** [flags & ~3u] is refused. *)
Definition avm_irq_set_pit2 (vm : avm_vm) (now flags : Z) (c : kvm_pit_channel_state) : outcome avm_vm :=
  if negb (created (pit vm)) then Err (- ENXIO)
  else if nz (Z.land flags 0xFFFFFFFC) then Err (- EINVAL)
  else if 3 <? rw_mode c then Err (- EINVAL)
  else Ret (set_pit (pit_import (pit vm) now c) vm).

(** ** Public interface *)

Definition avm_irq_vm_init (vm : avm_vm) : avm_vm :=
  let vm := set_pic (mk_pic 0 0 0xFF 0x08 0 0 false false false,
                     mk_pic 0 0 0xFF 0x70 0 0 false false false) vm in
  avm_ioapic_init (set_pit (mk_pit false 0 0 0 0 0 0 false false 0 0 0 false 0) vm).

Definition avm_irq_create_pit (vm : avm_vm) : Z * avm_vm :=
  if negb (irqchip vm) then (- EINVAL, vm)
  else ((if created (pit vm) then - EEXIST else 0), set_pit (set_created true (pit vm)) vm).

Definition avm_irq_line_locked (vm : avm_vm) (irq : Z) (level : bool) : outcome avm_vm :=
  if 16 <=? irq then avm_ioapic_set_pin vm irq level
  else
    let chip := Z.shiftr irq 3 in
    let p := get_pic chip vm in
    let n := Z.land irq 7 in
    Ret (put_pic chip
          (if level then
             let p := if nz (Z.land (p_line p) (bit n)) then p
                      else set_p_irr (Z.lor (p_irr p) (bit n)) p in
             set_p_line (Z.lor (p_line p) (bit n)) p
           else set_p_line (byte_clear (p_line p) n) p) vm).

Definition set_vcpu (i : nat) (c : avm_vcpu) (vm : avm_vm) : avm_vm :=
  set_vcpus (<[i := Some c]> (vcpus vm)) vm.
Definition get_vcpu (i : nat) (vm : avm_vm) : outcome avm_vcpu :=
  match vcpus vm !! i with Some (Some c) => Ret c | _ => Fault end.

Definition avm_irq_next_vector (vm : avm_vm) (i : nat) (now : Z) : outcome (option Z * avm_vm) :=
  c ← get_vcpu i vm;
  let vm := pit_tick vm now in
  let '(v, l) := avm_lapic_next_vector (lapic c) now in
  let vm := set_vcpu i (set_lapic l c) vm in
  match v with
  | Some v => Ret (Some v, vm)
  | None => if irqchip vm then Ret (pic_next vm) else Ret (None, vm)
  end.

(** 0 when nothing can fire. *)
Definition next_deadline_locked (vm : avm_vm) (c : avm_vcpu) : Z :=
  let dl := if avm_lapic_can_wake (lapic c) then timer_deadline_ns (lapic c) else 0 in
  if armed (pit vm) && (negb (nz dl) || (next_irq_ns (pit vm) <? dl)) then next_irq_ns (pit vm) else dl.

(** The host timer, in whole milliseconds. *)
Definition arm_host_timer (deadline_ns : Z) : Z := u64 (deadline_ns + 999999) / 1000000.

(** Without a guest deadline the host timer is set 10 ms ahead. *)
Definition avm_irq_arm_timer (vm : avm_vm) (c : avm_vcpu) (now : Z) : Z :=
  let dl := next_deadline_locked vm c in
  arm_host_timer (if dl =? 0 then u64 (now + 10000000) else dl).

(** One turn of the loop of [avm_irq_wait]: whether the virtual CPU resumes and
    the deadline that is armed otherwise. *)
Definition wait_turn (vm : avm_vm) (i : nat) (if_set : bool) (now : Z) : outcome (bool * Z * avm_vm) :=
  c ← get_vcpu i vm;
  let c := set_lapic (avm_lapic_tick (lapic c) now) c in
  let vm := pic_sync_cascade (pit_tick (set_vcpu i c vm) now) in
  if if_set then
    Ret ((irqchip vm && bool_decide (pic_candidate (get_pic 0 vm) <> None)) || avm_lapic_deliverable_now (lapic c),
         next_deadline_locked vm c, vm)
  else Ret (false, 0, vm).

(** [Some v] is the value an IN gives (or the value of an OUT, unchanged);
    [None] means the port is not handled. *)
Definition avm_irq_io (vm : avm_vm) (port : Z) (in_ : bool) (value now : Z) : option (Z * avm_vm) :=
  if (port =? PIC_MASTER_CMD) || (port =? PIC_MASTER_DATA) || (port =? PIC_SLAVE_CMD) || (port =? PIC_SLAVE_DATA) then
    if negb (irqchip vm) then None
    else
      let chip := if PIC_SLAVE_CMD <=? port then 1 else 0 in
      let data := negb (Z.land port 1 =? 0) in
      if in_ then Some (pic_read vm chip data, vm)
      else if data then Some (value, pic_write_data vm chip value)
      else Some (value, pic_write_command vm chip value)
  else if (port =? PIT_CONTROL) || (port =? PIT_CH0) then
    if negb (created (pit vm)) then None
    else if port =? PIT_CONTROL then
      if negb in_ then Some (value, set_pit (pit_control (pit vm) value now) vm) else Some (0xFF, vm)
    else if in_ then let '(v, p) := pit_read (pit vm) now in Some (v, set_pit p vm)
    else Some (value, set_pit (pit_write (pit vm) value now) vm)
  else None.

(** ** Bytes as sets of interrupt lines *)

Definition byte (x : Z) : Prop := 0 <= x < 2 ^ 8.
Definition irq8 (n : Z) : Prop := 0 <= n < 8.

Lemma byte_bit n : irq8 n -> byte (bit n).
Proof. unfold bit, byte. rewrite Z.shiftl_1_l. by apply bit_below. Qed.

Lemma byte_lor x y : byte x -> byte y -> byte (Z.lor x y).
Proof. intros. by apply lor_below. Qed.

Lemma byte_clear_byte x b : irq8 b -> byte (byte_clear x b).
Proof. intros Hb. apply land_below; [lia|]. pose proof (byte_bit b Hb). unfold byte in *. lia. Qed.

Lemma byte_clear_spec x b n : irq8 b -> irq8 n ->
  Z.testbit (byte_clear x b) n = Z.testbit x n && negb (bool_decide (n = b)).
Proof.
  intros Hb Hn. unfold byte_clear. change 0xFF with (2 ^ 8 - 1). unfold irq8 in *.
  rewrite Z.land_spec, complement_spec, testbit_bit by (try apply byte_bit; unfold irq8; lia). done.
Qed.

Lemma lor_bit_spec x b n : 0 <= n -> Z.testbit (Z.lor x (bit b)) n = Z.testbit x n || bool_decide (n = b).
Proof. intros. by rewrite Z.lor_spec, testbit_bit. Qed.

Lemma byte_ext x y : byte x -> byte y -> (forall n, irq8 n -> Z.testbit x n = Z.testbit y n) -> x = y.
Proof.
  intros Hx Hy Hn. apply Z.bits_inj'. intros n H0. destruct (decide (n < 8)); [apply Hn; split; lia|].
  unfold byte in *. rewrite <- (Z.mod_small x (2 ^ 8)), <- (Z.mod_small y (2 ^ 8)) by lia.
  by rewrite !Z.mod_pow2_bits_high by lia.
Qed.

#[local] Hint Resolve byte_bit byte_lor byte_clear_byte : core.

Lemma lowest_from_spec bits n : forall i, 0 <= i ->
  match lowest_from bits i n with
  | Some k => i <= k < i + Z.of_nat n /\ Z.testbit bits k = true /\
              forall j, i <= j < k -> Z.testbit bits j = false
  | None => forall j, i <= j < i + Z.of_nat n -> Z.testbit bits j = false
  end.
Proof.
  induction n as [|n IH]; intros i Hi; cbn [lowest_from]; [lia|]. rewrite nz_bit by done.
  destruct (Z.testbit bits i) eqn:E; [split; [lia|]; split; [done|lia]|].
  specialize (IH (i + 1) ltac:(lia)). destruct (lowest_from bits (i + 1) n) as [k|].
  - destruct IH as (Hk & Ht & Hn). split; [lia|]. split; [done|]. intros j Hj.
    destruct (decide (j = i)) as [->|]; [done|apply Hn; lia].
  - intros j Hj. destruct (decide (j = i)) as [->|]; [done|apply IH; lia].
Qed.

(** [lowest_set] is the minimum. *)
Lemma lowest_set_spec bits :
  match lowest_set bits with
  | Some k => irq8 k /\ Z.testbit bits k = true /\ forall j, 0 <= j < k -> Z.testbit bits j = false
  | None => forall j, irq8 j -> Z.testbit bits j = false
  end.
Proof. exact (lowest_from_spec bits 8 0 ltac:(lia)). Qed.

Lemma lowest_set_unique bits k : irq8 k -> Z.testbit bits k = true ->
  (forall j, 0 <= j < k -> Z.testbit bits j = false) -> lowest_set bits = Some k.
Proof.
  intros Hk Ht Hn. pose proof (lowest_set_spec bits) as H. destruct (lowest_set bits) as [h|].
  - destruct H as (Hh & Th & Nh). f_equal. destruct (Z.lt_trichotomy h k) as [?|[?|?]]; [|done|].
    + rewrite Hn in Th by (unfold irq8 in *; lia). done.
    + rewrite Nh in Ht by (unfold irq8 in *; lia). done.
  - rewrite H in Ht by done. done.
Qed.

(** ** The PIC *)

Record pic_inv (p : avm_pic) : Prop := {
  pi_irr : byte (p_irr p); pi_isr : byte (p_isr p); pi_imr : byte (p_imr p); pi_line : byte (p_line p);
  pi_base : exists k, 0 <= k < 32 /\ vector_base p = 8 * k;
  pi_step : 0 <= init_step p <= 3 }.
Definition pics_inv (vm : avm_vm) : Prop := pic_inv (get_pic 0 vm) /\ pic_inv (get_pic 1 vm).

(** Line [n] is requested and not masked. *)
Definition wants (p : avm_pic) (n : Z) : bool := Z.testbit (p_irr p) n && negb (Z.testbit (p_imr p) n).

Lemma wants_req p n : pic_inv p -> irq8 n -> Z.testbit (Z.land (p_irr p) (0xFF - p_imr p)) n = wants p n.
Proof.
  intros Hi Hn. change 0xFF with (2 ^ 8 - 1). rewrite Z.land_spec, complement_spec; [done|lia|apply Hi|apply Hn].
Qed.

(** The candidate is the highest-priority unmasked request, and nothing of the
    same or a higher priority is in service. *)
Lemma pic_candidate_spec p : pic_inv p ->
  match pic_candidate p with
  | Some n => irq8 n /\ wants p n = true /\ (forall k, 0 <= k < n -> wants p k = false) /\
              (forall k, 0 <= k <= n -> Z.testbit (p_isr p) k = false)
  | None => forall n, irq8 n -> wants p n = true -> exists k, 0 <= k <= n /\ Z.testbit (p_isr p) k = true
  end.
Proof.
  intros Hi. unfold pic_candidate. set (req := Z.land _ _).
  assert (Hreq : forall n, irq8 n -> Z.testbit req n = wants p n) by (intros; by apply wants_req).
  destruct (req =? 0) eqn:E0; reify_bools.
  { intros n Hn Hw. rewrite <- Hreq, E0, Z.bits_0 in Hw by done. done. }
  pose proof (lowest_set_spec (p_isr p)) as Hisr.
  set (h := match lowest_set (p_isr p) with Some h => h | None => 8 end).
  assert (Hh : 0 <= h <= 8) by (subst h; destruct (lowest_set (p_isr p)); unfold irq8 in *; lia).
  assert (Hlow : forall k, 0 <= k < h -> Z.testbit (p_isr p) k = false).
  { subst h. destruct (lowest_set (p_isr p)); [apply Hisr|]. intros k Hk. apply Hisr. split; lia. }
  set (req2 := if nz (p_isr p) then _ else req).
  assert (Hreq2 : forall n, irq8 n -> Z.testbit req2 n = wants p n && (n <? h)).
  { intros n Hn. subst req2 h. destruct (nz (p_isr p)) eqn:Hz.
    - destruct (lowest_set (p_isr p)) as [h|]; [|rewrite Hreq by done; destruct (n <? 8) eqn:?; reify_bools;
        [by rewrite andb_true_r|unfold irq8 in *; lia]].
      rewrite Z.land_spec, Hreq by done. f_equal. unfold bit. rewrite Z.shiftl_1_l.
      replace (2 ^ h - 1) with (Z.ones h) by (rewrite Z.ones_equiv; lia).
      unfold irq8 in *. destruct (n <? h) eqn:?; reify_bools; [apply Z.ones_spec_low|apply Z.ones_spec_high]; lia.
    - apply negb_false_iff, Z.eqb_eq in Hz. rewrite Hz. change (lowest_set 0) with (@None Z).
      rewrite Hreq by done. destruct (n <? 8) eqn:?; reify_bools; [by rewrite andb_true_r|unfold irq8 in *; lia]. }
  clearbody req2. pose proof (lowest_set_spec req2) as Hl.
  assert (Hcase : (if nz req2 then lowest_set req2 else None) = lowest_set req2).
  { destruct (nz req2) eqn:Hz; [done|]. apply negb_false_iff, Z.eqb_eq in Hz. by rewrite Hz. }
  rewrite Hcase. destruct (lowest_set req2) as [n|].
  - destruct Hl as (Hn & Ht & Hlt). rewrite Hreq2, andb_true_iff in Ht by done. destruct Ht as [Hw Hnh]. reify_bools.
    split; [done|]. split; [done|]. split; [|intros k Hk; apply Hlow; lia].
    intros k Hk. specialize (Hlt k Hk). rewrite Hreq2 in Hlt by (unfold irq8 in *; lia).
    destruct (k <? h) eqn:?; reify_bools; [by rewrite andb_true_r in Hlt|lia].
  - intros n Hn Hw. specialize (Hl n Hn). rewrite Hreq2, Hw in Hl by done. simpl in Hl. reify_bools.
    subst h. destruct (lowest_set (p_isr p)) as [h|]; [|unfold irq8 in *; lia].
    exists h. split; [lia|apply Hisr].
Qed.

(** [n] is the request the chip delivers next. *)
Definition accepts (p : avm_pic) (n : Z) : Prop :=
  irq8 n /\ wants p n = true /\ (forall k, 0 <= k < n -> wants p k = false) /\
  (forall k, 0 <= k <= n -> Z.testbit (p_isr p) k = false).

Lemma pic_candidate_accepts p n : pic_inv p -> pic_candidate p = Some n <-> accepts p n.
Proof.
  intros Hi. pose proof (pic_candidate_spec p Hi) as H. split.
  - intros E. by rewrite E in H.
  - intros (Hn & Hw & Hlt & Hs). destruct (pic_candidate p) as [m|].
    + destruct H as (Hm & Hwm & Hltm & _). f_equal. destruct (Z.lt_trichotomy m n) as [?|[?|?]]; [|done|].
      * rewrite Hlt in Hwm by (unfold irq8 in *; lia). done.
      * rewrite Hltm in Hw by (unfold irq8 in *; lia). done.
    + destruct (H n Hn Hw) as (k & Hk & Ht). rewrite Hs in Ht by done. done.
Qed.

(** *** Reading and writing the chips *)

Lemma get_put_same chip p vm : get_pic chip (put_pic chip p vm) = p.
Proof. unfold get_pic, put_pic. by destruct (chip =? 0). Qed.
Lemma get_put_01 p vm : get_pic 0 (put_pic 1 p vm) = get_pic 0 vm.
Proof. done. Qed.
Lemma get_put_10 p vm : get_pic 1 (put_pic 0 p vm) = get_pic 1 vm.
Proof. done. Qed.

Definition chip_id (c : Z) : Prop := c = 0 \/ c = 1.

Lemma pics_inv_put chip p vm : chip_id chip -> pics_inv vm -> pic_inv p -> pics_inv (put_pic chip p vm).
Proof. intros [-> | ->] [Hm Hs] Hp; split; done. Qed.

Lemma pics_inv_get chip vm : chip_id chip -> pics_inv vm -> pic_inv (get_pic chip vm).
Proof. by intros [-> | ->] [Hm Hs]. Qed.

Lemma pic_inv_set_irr x p : byte x -> pic_inv p -> pic_inv (set_p_irr x p).
Proof. intros Hx []. by split. Qed.
Lemma pic_inv_set_isr x p : byte x -> pic_inv p -> pic_inv (set_p_isr x p).
Proof. intros Hx []. by split. Qed.
#[local] Hint Resolve pic_inv_set_irr pic_inv_set_isr : core.

Lemma irq8_2 : irq8 PIC_CASCADE_IRQ.
Proof. unfold irq8, PIC_CASCADE_IRQ. lia. Qed.
#[local] Hint Resolve irq8_2 : core.

Lemma sync_inv vm : pics_inv vm -> pics_inv (pic_sync_cascade vm).
Proof.
  intros H. apply pics_inv_put; [by left|done|]. apply pic_inv_set_irr; [|apply H].
  case_match; [apply byte_lor; [apply H|auto]|auto].
Qed.

Lemma ack_inv n p : irq8 n -> pic_inv p -> pic_inv (pic_ack n p).
Proof. intros Hn Hp. unfold pic_ack. apply pic_inv_set_isr; [apply byte_lor; [apply Hp|auto]|auto]. Qed.

Lemma next_vector_range p n : pic_inv p -> irq8 n -> vector (vector_base p + n).
Proof. intros Hp Hn. destruct (pi_base p Hp) as (k & Hk & ->). unfold vector, irq8 in *. lia. Qed.

(** [pic_next] delivers by priority. After the cascade line was brought up
    to date, the pair delivers the highest-priority unmasked request that no
    interrupt of the same or a higher priority in service blocks: of the master
    directly, or of the slave when the master accepts its cascade line. The
    request moves into service (with the cascade line, for a slave), the vector
    fits in a byte, and without such a request nothing changes. *)
Theorem pic_priority vm : pics_inv vm ->
  let vm1 := pic_sync_cascade vm in
  let m := get_pic 0 vm1 in
  let s := get_pic 1 vm1 in
  match pic_next vm with
  | (None, vm') => vm' = vm1 /\ forall n, ~ accepts m n
  | (Some v, vm') =>
    pics_inv vm' /\ vector v /\
    ((exists n, n <> PIC_CASCADE_IRQ /\ accepts m n /\ v = vector_base m + n /\
        pic vm' = (pic_ack n m, s)) \/
     (exists n, accepts m PIC_CASCADE_IRQ /\ accepts s n /\ v = vector_base s + n /\
        pic vm' = (pic_ack PIC_CASCADE_IRQ m, pic_ack n s)))
  end.
Proof.
  intros Hinv vm1 m s. assert (Hinv1 := sync_inv vm Hinv). fold vm1 in Hinv1.
  assert (Hm : pic_inv m) by apply Hinv1. assert (Hs : pic_inv s) by apply Hinv1.
  unfold pic_next. fold vm1 m s. destruct (pic_candidate m) as [mc|] eqn:Em; last first.
  { split; [done|]. intros n Hn. apply pic_candidate_accepts in Hn; [|done]. congruence. }
  assert (Hacc := proj1 (pic_candidate_accepts m mc Hm) Em). assert (Hmc : irq8 mc) by apply Hacc.
  destruct (mc =? PIC_CASCADE_IRQ) eqn:E2; reify_bools; last first.
  { split; [apply pics_inv_put; [by left|done|by apply ack_inv]|]. split; [by apply next_vector_range|].
    left. exists mc. do 3 (split; [done|]). done. }
  subst mc.
  assert (Es : pic_candidate s <> None).
  { intros En. destruct Hacc as (_ & Hw & _). unfold wants in Hw. rewrite andb_true_iff in Hw. destruct Hw as [Hw _].
    subst m vm1 s. unfold pic_sync_cascade in Hw, En. rewrite get_put_10 in En. rewrite get_put_same in Hw.
    rewrite En in Hw. cbn [p_irr set_p_irr] in Hw. rewrite byte_clear_spec in Hw by auto.
    rewrite bool_decide_eq_true_2, andb_false_r in Hw by done. done. }
  destruct (pic_candidate s) as [sc|] eqn:Esc; [|done]. clear Es.
  assert (Haccs := proj1 (pic_candidate_accepts s sc Hs) Esc). assert (Hsc : irq8 sc) by apply Haccs.
  split.
  { apply pics_inv_put; [by right|apply pics_inv_put; [by left|done|exact (ack_inv PIC_CASCADE_IRQ m irq8_2 Hm)]|by apply ack_inv]. }
  split; [by apply next_vector_range|]. right. exists sc. do 3 (split; [done|]). done.
Qed.

(** ** End of interrupt *)

Lemma ack_lowest p n : accepts p n -> lowest_set (p_isr (pic_ack n p)) = Some n.
Proof.
  intros (Hn & _ & _ & Hs). apply lowest_set_unique; [done|..]; simpl.
  - rewrite lor_bit_spec, bool_decide_eq_true_2 by (unfold irq8 in *; done || lia). apply orb_true_r.
  - intros j Hj. rewrite lor_bit_spec, Hs, bool_decide_eq_false_2 by (unfold irq8 in *; lia). done.
Qed.

Lemma ack_eoi p n : pic_inv p -> accepts p n -> byte_clear (p_isr (pic_ack n p)) n = p_isr p.
Proof.
  intros Hi (Hn & _ & _ & Hs). apply byte_ext; [auto|apply Hi|]. intros k Hk. simpl.
  rewrite byte_clear_spec, lor_bit_spec by (unfold irq8 in *; done || lia).
  case_bool_decide; [subst k; rewrite andb_false_r; symmetry; apply Hs; unfold irq8 in *; lia|].
  by rewrite orb_false_r, andb_true_r.
Qed.

(** interrupts end in the reverse order of their delivery. When a chip has
    taken request [n] into service, the next non-specific EOI, and the specific
    EOI of [n], end exactly that interrupt: the chip's in-service set is what it
    was before. An EOI to the master leaves the slave alone; an EOI to the slave
    changes the master's cascade bit only, and only when the slave has nothing
    left in service. *)
Theorem pic_eoi_ends_last vm chip n val : chip_id chip -> pics_inv vm ->
  accepts (get_pic chip vm) n -> val = 0x20 \/ val = 0x60 + n ->
  let p := get_pic chip vm in
  let vm' := pic_write_command (put_pic chip (pic_ack n p) vm) chip val in
  p_isr (get_pic chip vm') = p_isr p /\
  (chip = 0 -> get_pic 1 vm' = get_pic 1 vm) /\
  (chip = 1 -> get_pic 0 vm' = if p_isr p =? 0
     then set_p_isr (byte_clear (p_isr (get_pic 0 vm)) PIC_CASCADE_IRQ) (get_pic 0 vm) else get_pic 0 vm).
Proof.
  intros Hc Hinv Hacc Hval p vm'. assert (Hp := pics_inv_get chip vm Hc Hinv).
  assert (Hn : irq8 n) by apply Hacc. pose proof (ack_eoi p n Hp Hacc) as He.
  assert (Hcmd : vm' = pic_end_of_interrupt (put_pic chip (pic_ack n p) vm) chip (Some n)).
  { subst vm'. unfold pic_write_command. rewrite get_put_same. unfold irq8 in Hn.
    assert (n = 0 \/ n = 1 \/ n = 2 \/ n = 3 \/ n = 4 \/ n = 5 \/ n = 6 \/ n = 7) as Hcases by lia.
    destruct Hval as [-> | ->].
    - change (nz (Z.land 32 16)) with false. change (nz (Z.land 32 8)) with false.
      change (Z.land 32 224 =? 32) with true. cbn [p]. by rewrite ack_lowest.
    - repeat destruct Hcases as [-> | Hcases]; subst; reflexivity. }
  rewrite Hcmd. unfold pic_end_of_interrupt. rewrite get_put_same. cbn [p_isr set_p_isr]. rewrite He.
  destruct Hc as [-> | ->].
  - cbn [Z.eqb andb]. split; [done|]. by split.
  - cbn [Z.eqb Pos.eqb andb]. destruct (p_isr p =? 0); (split; [done|]; by split).
Qed.

(** ** Initialisation *)

(** The data bytes that complete an initialisation begun with [icw1]. *)
Definition icw_bytes (icw1 icw2 icw3 icw4 : Z) : list Z :=
  [icw2] ++ (if nz (Z.land icw1 0x02) then [] else [icw3]) ++ (if nz (Z.land icw1 0x01) then [icw4] else []).
Definition write_all (chip : Z) (vm : avm_vm) (bytes : list Z) : avm_vm :=
  foldl (fun vm b => pic_write_data vm chip b) vm bytes.

(** the initialisation sequence. ICW1 and the data bytes it asks for (ICW2,
    ICW3 when cascaded, ICW4 when announced) leave the chip running with its
    requests, services and masks cleared and its vectors at ICW2, from whatever
    state it was in; the next data byte is the mask. The other chip and the rest
    of the machine are unchanged. *)
Theorem pic_init_sequence vm chip icw1 icw2 icw3 icw4 ocw1 : chip_id chip ->
  nz (Z.land icw1 0x10) = true ->
  let vm1 := write_all chip (pic_write_command vm chip icw1) (icw_bytes icw1 icw2 icw3 icw4) in
  let p := get_pic chip vm1 in
  p_irr p = 0 /\ p_isr p = 0 /\ p_imr p = 0 /\ vector_base p = Z.land icw2 0xF8 /\ init_step p = 0 /\
  get_pic (1 - chip) vm1 = get_pic (1 - chip) vm /\
  pic_write_data vm1 chip ocw1 = put_pic chip (set_p_imr ocw1 p) vm1.
Proof.
  intros Hc H1 vm1 p. subst p vm1. unfold icw_bytes, write_all, pic_write_command. rewrite H1.
  destruct (nz (Z.land icw1 0x02)), (nz (Z.land icw1 0x01)); destruct Hc as [-> | ->]; vm_compute; repeat split.
Qed.

(** ** Invariance under guest accesses *)

Lemma pic_eoi_inv vm chip irq : chip_id chip -> (forall n, irq = Some n -> irq8 n) -> pics_inv vm ->
  pics_inv (pic_end_of_interrupt vm chip irq).
Proof.
  intros Hc Hn Hi. unfold pic_end_of_interrupt. destruct irq as [n|]; [|done]. specialize (Hn n eq_refl).
  set (p := set_p_isr _ (get_pic chip vm)).
  assert (Hp : pic_inv p) by (apply pic_inv_set_isr; [auto|by apply pics_inv_get]).
  assert (H1 : pics_inv (put_pic chip p vm)) by (by apply pics_inv_put).
  destruct (_ && _); [|done]. apply pics_inv_put; [by left|done|]. apply pic_inv_set_isr; [auto|apply H1].
Qed.

Lemma land7 x : irq8 (Z.land x 7).
Proof. apply (land_below x 7 3); lia. Qed.

Lemma write_command_inv vm chip val : chip_id chip -> pics_inv vm -> pics_inv (pic_write_command vm chip val).
Proof.
  intros Hc Hi. pose proof (pics_inv_get chip vm Hc Hi) as Hp. unfold pic_write_command.
  destruct (nz (Z.land val 0x10)).
  { apply pics_inv_put; [done|done|]. destruct Hp. split; simpl; try done; unfold byte; lia. }
  destruct (nz (Z.land val 0x08)).
  { destruct (nz (Z.land val 0x02)); [|done]. apply pics_inv_put; [done|done|]. destruct Hp. by split. }
  destruct (Z.land val 0xE0 =? 0x20).
  { apply pic_eoi_inv; [done| |done]. intros n E. pose proof (lowest_set_spec (p_isr (get_pic chip vm))) as H.
    rewrite E in H. apply H. }
  destruct (Z.land val 0xE0 =? 0x60); [|done].
  apply pic_eoi_inv; [done| |done]. intros n [= <-]. apply land7.
Qed.

Lemma write_data_inv vm chip val : chip_id chip -> byte val -> pics_inv vm -> pics_inv (pic_write_data vm chip val).
Proof.
  intros Hc Hv Hi. pose proof (pics_inv_get chip vm Hc Hi) as Hp. unfold pic_write_data.
  assert (Hbase : exists k, 0 <= k < 32 /\ Z.land val 0xF8 = 8 * k).
  { unfold byte in Hv. exists (val / 8). split; [split; [apply Z.div_pos; lia|apply Z.div_lt_upper_bound; lia]|].
    assert (E : Z.land val 0xF8 = Z.shiftl (Z.land (Z.shiftr val 3) (2 ^ 5 - 1)) 3).
    { change 0xF8 with (Z.shiftl 31 3). apply Z.bits_inj'. intros n Hn.
      rewrite Z.land_spec. destruct (decide (n < 3)).
      - rewrite !Z.shiftl_spec_low by lia. apply andb_false_r.
      - rewrite !Z.shiftl_spec, Z.land_spec, Z.shiftr_spec by lia. f_equal. f_equal. lia. }
    rewrite E, land_ones_small, Z.shiftl_mul_pow2, Z.shiftr_div_pow2 by lia. change (2 ^ 3) with 8.
    rewrite Z.mod_small; [lia|]. split; [apply Z.div_pos; lia|apply Z.div_lt_upper_bound; lia]. }
  destruct Hp. repeat case_match; try done; (apply pics_inv_put; [done|done|]); split; simpl; try done; lia.
Qed.

Lemma line_inv vm irq level vm' : 0 <= irq -> pics_inv vm -> avm_irq_line_locked vm irq level = Ret vm' -> pics_inv vm'.
Proof.
  intros H0 Hi E. unfold avm_irq_line_locked in E. destruct (16 <=? irq) eqn:H16; reify_bools.
  - unfold avm_ioapic_set_pin, deliver in E. destruct (IOAPIC_PINS <=? irq); [by simplify_eq|].
    destruct level; [|by simplify_eq/=].
    apply bind_Ret in E as (vm1 & E1 & [= <-]). unfold pics_inv, get_pic. simpl.
    assert (pic vm1 = pic vm) as ->; [|done].
    destruct (nz _); [by simplify_eq|]. apply bind_Ret in E1 as (e & _ & E1).
    destruct (nz _); [by simplify_eq|]. destruct (nz _); by simplify_eq.
  - assert (Hc : chip_id (Z.shiftr irq 3)).
    { rewrite Z.shiftr_div_pow2 by lia. change (2 ^ 3) with 8. unfold chip_id.
      assert (0 <= irq / 8 < 2) by (split; [apply Z.div_pos; lia|apply Z.div_lt_upper_bound; lia]). lia. }
    injection E as <-. pose proof (pics_inv_get _ vm Hc Hi) as Hp. apply pics_inv_put; [done|done|].
    assert (Hb := byte_bit _ (land7 irq)). destruct Hp.
    destruct level; [destruct (nz _)|]; split; simpl; auto using land7.
Qed.

Lemma pit_tick_pics vm now : pics_inv vm -> pics_inv (pit_tick vm now).
Proof.
  intros Hi. unfold pit_tick. destruct (_ || _); [done|]. unfold pic_raise.
  change (Z.shiftr 0 3) with 0. change (Z.land 0 7) with 0.
  assert (H1 : pics_inv (put_pic 0 (set_p_irr (Z.lor (p_irr (get_pic 0 vm)) (bit 0)) (get_pic 0 vm)) vm)).
  { apply pics_inv_put; [by left|done|]. apply pic_inv_set_irr; [|apply Hi]. apply byte_lor; [apply Hi|].
    apply byte_bit. unfold irq8. lia. }
  exact H1.
Qed.

Lemma pic_next_inv vm : pics_inv vm -> pics_inv (pic_next vm).2.
Proof.
  intros Hi. unfold pic_next. pose proof (sync_inv vm Hi) as H1. set (vm1 := pic_sync_cascade vm) in *.
  destruct (pic_candidate (get_pic 0 vm1)) as [mc|] eqn:Em; [|done].
  apply pic_candidate_accepts in Em as (Hmc & _); [|apply H1].
  destruct (mc =? PIC_CASCADE_IRQ).
  - assert (H2 : pic_inv (set_p_irr (byte_clear (p_irr (get_pic 0 vm1)) PIC_CASCADE_IRQ) (get_pic 0 vm1)))
      by (apply pic_inv_set_irr; [auto|apply H1]).
    destruct (pic_candidate (get_pic 1 vm1)) as [sc|] eqn:Es; [|by apply pics_inv_put; [left|..]].
    apply pic_candidate_accepts in Es as (Hsc & _); [|apply H1].
    apply pics_inv_put; [by right|apply pics_inv_put; [by left|done|]|apply ack_inv; [done|apply H1]].
    exact (ack_inv PIC_CASCADE_IRQ _ irq8_2 (proj1 H1)).
  - apply pics_inv_put; [by left|done|]. apply ack_inv; [done|apply H1].
Qed.

(** What the guest and the devices can do to the PIC pair. *)
Inductive pic_op : avm_vm -> avm_vm -> Prop :=
| po_io vm port in_ value now v vm' : byte value ->
    avm_irq_io vm port in_ value now = Some (v, vm') -> pic_op vm vm'
| po_line vm irq level vm' : 0 <= irq -> avm_irq_line_locked vm irq level = Ret vm' -> pic_op vm vm'
| po_tick vm now : pic_op vm (pit_tick vm now)
| po_next vm : pic_op vm (pic_next vm).2.

Lemma io_inv vm port in_ value now v vm' : byte value -> pics_inv vm ->
  avm_irq_io vm port in_ value now = Some (v, vm') -> pics_inv vm'.
Proof.
  intros Hv Hi E. unfold avm_irq_io in E.
  assert (Hc : forall b : bool, chip_id (if b then 1 else 0)) by (intros []; [by right|by left]).
  destruct (_ || (port =? PIC_SLAVE_DATA)).
  - destruct (negb (irqchip vm)); [done|]. destruct in_; [by simplify_eq|].
    destruct (negb (Z.land port 1 =? 0)); simplify_eq; [by apply write_data_inv|by apply write_command_inv].
  - destruct (_ || (port =? PIT_CH0)); [|done]. destruct (negb (created (pit vm))); [done|].
    destruct (port =? PIT_CONTROL), in_; cbn [negb] in E; try (by simplify_eq).
    destruct (pit_read (pit vm) now). by simplify_eq.
Qed.

(** the PIC pair stays well formed under every guest access, device line,
    timer tick and delivery: masks and sets are bytes, the initialisation step
    is 0 to 3, and the vector base is a multiple of 8 below 256, so every vector
    it delivers fits in a byte. *)
Theorem pic_invariant vm vm' : rtc pic_op (avm_irq_vm_init vm) vm' -> pics_inv vm'.
Proof.
  assert (H0 : pics_inv (avm_irq_vm_init vm)).
  { split; split; simpl; try (unfold byte; lia); [exists 1|exists 14]; lia. }
  intros Hr. induction Hr as [|a b c Hab _ IH]; [done|]. apply IH.
  destruct Hab as [a port in_ value now v b Hv E|a irq level b H1 E|a now|a].
  - by eapply io_inv.
  - by eapply line_inv.
  - by apply pit_tick_pics.
  - by apply pic_next_inv.
Qed.

(** ** The PIT *)

(** Control word for channel 0 with low then high byte access. *)
Definition pit_word (md : Z) : Z := Z.lor 0x30 (Z.shiftl md 1).

Lemma pit_load_fields p now : 0 <= reload p < 2 ^ 16 -> 0 <= now < 2 ^ 63 ->
  let q := pit_load p now in
  armed q = true /\ start_ns q = now /\ period_ns q = pit_span p * 1000000000 / PIT_HZ /\
  next_irq_ns q = now + pit_span p * 1000000000 / PIT_HZ /\ reload q = reload p /\ periodic q = periodic p /\
  1 <= pit_span p <= 65536 /\ 838 <= period_ns q < 2 ^ 26.
Proof.
  intros Hr Hn q. assert (Hs : 1 <= pit_span p <= 65536).
  { unfold pit_span. destruct (reload p =? 0) eqn:?; reify_bools; lia. }
  assert (Hd : 838 <= pit_span p * 1000000000 / PIT_HZ < 2 ^ 26).
  { unfold PIT_HZ. split; [apply Z.div_le_lower_bound; lia|apply Z.div_lt_upper_bound; lia]. }
  assert (E : u64 (pit_span p * 1000000000) = pit_span p * 1000000000) by (apply u64_id; lia).
  subst q. unfold pit_load. cbn -[u64 Z.mul Z.div Z.add Z.pow PIT_HZ].
  change (pit_span (set_start_ns now p)) with (pit_span p). rewrite E.
  rewrite u64_id by lia. repeat split; try done; lia.
Qed.

(** the PIT counts. Programming mode 2 or 3 with a reload value, low byte
    then high byte, arms the counter; at a later time it holds the reload value
    (65536 for 0) minus the elapsed input cycles modulo that value, never 0
    within a period; and the tick at or after the deadline raises IRQ 0 of the
    master and sets a deadline in the future, while an earlier tick does
    nothing. *)
Theorem pit_programming vm md lo hi t0 t1 t2 t : md = 2 \/ md = 3 ->
  byte lo -> byte hi -> 0 <= t2 < 2 ^ 62 -> t2 <= t < t2 + 2 ^ 43 ->
  let p0 := pit_control (pit vm) (pit_word md) t0 in
  let p := pit_write (pit_write p0 lo t1) hi t2 in
  let span := if (lo =? 0) && (hi =? 0) then 65536 else lo + 256 * hi in
  let vm1 := set_pit p vm in
  armed p = true /\ periodic p = true /\ reload p = lo + 256 * hi /\
  pit_count p t = u16 (span - ((t - t2) / 1000 * PIT_HZ / 1000000) mod span) /\
  (t < next_irq_ns p -> pit_tick vm1 t = vm1) /\
  (next_irq_ns p <= t -> Z.testbit (p_irr (get_pic 0 (pit_tick vm1 t))) 0 = true /\
     armed (pit (pit_tick vm1 t)) = true /\ t < next_irq_ns (pit (pit_tick vm1 t))).
Proof.
  intros Hmd Hlo Hhi Ht2 Ht p0 p span vm1. unfold byte in *.
  assert (Ep0 : access p0 = 3 /\ write_phase p0 = 0 /\ periodic p0 = true).
  { subst p0. destruct Hmd as [-> | ->]; split; [done|by split|done|by split]. }
  destruct Ep0 as (Ea & Ew & Eper).
  set (p1 := set_write_phase 0 (set_reload (u16 (Z.lor (Z.shiftl hi 8) lo)) (set_write_phase 1 (set_write_lo lo p0)))).
  assert (Ep : p = pit_load p1 t2).
  { subst p. unfold pit_write at 2. rewrite Ea, Ew. cbn [Z.eqb Pos.eqb].
    unfold pit_write. cbn [access write_phase write_lo reload set_write_phase set_write_lo]. rewrite Ea. done. }
  assert (Hrel : reload p1 = lo + 256 * hi).
  { cbn [reload p1 set_write_phase set_reload]. rewrite Z.lor_comm, lor_shiftl_add by lia. rewrite u16_id by lia. lia. }
  destruct (pit_load_fields p1 t2 ltac:(lia) ltac:(lia)) as (F1 & F2 & F3 & F4 & F5 & F6 & F7 & F8).
  rewrite <- Ep in F1, F2, F3, F4, F5, F6, F8.
  assert (Hsp : pit_span p = span /\ pit_span p1 = span).
  { unfold pit_span, span. rewrite F5, Hrel. destruct (lo + 256 * hi =? 0) eqn:?, (lo =? 0) eqn:?, (hi =? 0) eqn:?;
      reify_bools; simpl; lia. }
  split; [done|]. split; [by rewrite F6|]. split; [by rewrite F5|]. split.
  { unfold pit_count. destruct (period_ns p =? 0) eqn:?; reify_bools; [lia|].
    rewrite F6. change (periodic p1) with (periodic p0). rewrite Eper, (proj1 Hsp). unfold pit_cycles. rewrite F2.
    rewrite (u64_id (t - t2)) by lia. rewrite u64_id; [done|]. unfold PIT_HZ.
    assert (0 <= (t - t2) / 1000 < 2 ^ 34) by (split; [apply Z.div_pos; lia|apply Z.div_lt_upper_bound; lia]). lia. }
  unfold pit_tick. cbn [pit vm1 set_pit]. rewrite F1. cbn [negb orb].
  split; intros Hd; destruct (t <? next_irq_ns p) eqn:Hlt; reify_bools; try lia; [done|].
  change (periodic p) with (periodic p). rewrite F6. change (periodic p1) with (periodic p0). rewrite Eper.
  split; [|split].
  - change (get_pic 0 (set_pit ?q (pic_raise ?v 0))) with (set_p_irr (Z.lor (p_irr (get_pic 0 v)) (bit 0)) (get_pic 0 v)).
    cbn [p_irr set_p_irr]. rewrite lor_bit_spec, bool_decide_eq_true_2 by (done || lia). apply orb_true_r.
  - cbn [pit set_pit]. by destruct (_ <=? t).
  - cbn [pit set_pit next_irq_ns set_next_irq_ns period_ns]. rewrite (u64_id (t + period_ns p)) by lia.
    destruct (u64 (next_irq_ns p + period_ns p) <=? t) eqn:?; reify_bools; cbn [next_irq_ns set_next_irq_ns]; lia.
Qed.

(** ** Observations *)

(** Saving and restoring the PIT with KVM_GET_PIT2 and KVM_SET_PIT2 halfway
    through a period of 1000 cycles leaves a reload value of 501: the current
    count is saved where the reload value is restored from. *)
Example pit_save_restore_changes_reload :
  let p := mk_pit true 3 2 0 0 0 1000 true true 0 838095 838095 false 0 in
  reload (pit_import p 419500 (pit_export p 419500)) = 501.
Proof. vm_compute. reflexivity. Qed.

(** With IRQ 5 and then IRQ 8 in service, the usual non-specific EOI to the
    slave and to the master ends IRQ 5 as well: the EOI to the slave has already
    ended the cascade in the master. *)
Example slave_eoi_pair_ends_other :
  let m := mk_pic 0 (Z.lor (bit 5) (bit 2)) 0 0x08 0 0 true true false in
  let s := mk_pic 0 (bit 0) 0 0x70 0 0 true true false in
  let vm := set_pic (m, s) sample_vm in
  let vm := pic_write_command (pic_write_command vm 1 0x20) 0 0x20 in
  p_isr (get_pic 0 vm) = 0.
Proof. vm_compute. reflexivity. Qed.

(** KVM_SET_IRQCHIP accepts any vector base, so a delivered vector can exceed a
    byte. *)
Example imported_base_overflows_vector :
  let s := mk_pic_state (bit 7) 0 0 0xFF 0 0 0 in
  match avm_irq_set_chip sample_vm 0 s (mk_ioapic_state 0 0 []) with
  | Ret vm => (pic_next vm).1 = Some 0x106
  | _ => False
  end.
Proof. vm_compute. reflexivity. Qed.

(** *** Witnesses *)

(** Master initialised at 0x20, IRQ 1 pending with IRQ 4 in service. *)
Definition busy_vm : avm_vm :=
  set_pic (mk_pic (bit 1) (bit 4) 0 0x20 0 0 true true false,
           mk_pic (bit 3) 0 0 0x28 0 0 true true false) sample_vm.

Lemma busy_inv : pics_inv busy_vm.
Proof.
  split; split; try (vm_compute; split; discriminate || reflexivity); [exists 4|exists 5]; split; done || lia.
Qed.

Lemma pic_priority_witness :
  (pic_next busy_vm).1 = Some 0x21 /\ pics_inv (pic_next busy_vm).2.
Proof.
  split; [vm_compute; reflexivity|]. pose proof (pic_priority busy_vm busy_inv) as H. cbv zeta in H.
  destruct (pic_next busy_vm) as [[v|] vm'] eqn:E; [exact (proj1 H)|]. vm_compute in E. discriminate.
Defined.

Lemma busy_accepts : accepts (get_pic 0 busy_vm) 1.
Proof.
  apply (pic_candidate_accepts (get_pic 0 busy_vm) 1); [apply busy_inv|]. vm_compute. reflexivity.
Qed.

Lemma pic_eoi_ends_last_witness :
  p_isr (get_pic 0 (pic_write_command (put_pic 0 (pic_ack 1 (get_pic 0 busy_vm)) busy_vm) 0 0x20)) = bit 4.
Proof.
  exact (proj1 (pic_eoi_ends_last busy_vm 0 1 0x20 (or_introl eq_refl) busy_inv busy_accepts (or_introl eq_refl))).
Defined.

Lemma pic_init_sequence_witness :
  vector_base (get_pic 1 (write_all 1 (pic_write_command busy_vm 1 0x11) (icw_bytes 0x11 0x70 2 1))) = 0x70.
Proof.
  exact (proj1 (proj2 (proj2 (proj2 (pic_init_sequence busy_vm 1 0x11 0x70 2 1 0xFF (or_intror eq_refl) eq_refl))))).
Defined.

Lemma pic_invariant_witness : pics_inv (pit_tick (avm_irq_vm_init sample_vm) 5).
Proof.
  refine (pic_invariant sample_vm _ _). eapply rtc_l; [apply po_tick|apply rtc_refl].
Defined.

Lemma pit_programming_witness :
  pit_count (pit_write (pit_write (pit_control (pit sample_vm) (pit_word 2) 0) 0xE8 0) 3 0) 419500 = 501.
Proof.
  pose proof (pit_programming sample_vm 2 0xE8 3 0 0 0 419500 (or_introl eq_refl)
    ltac:(unfold byte; lia) ltac:(unfold byte; lia) ltac:(lia) ltac:(lia)) as H. cbv zeta in H.
  destruct H as (_ & _ & _ & H & _). rewrite H. vm_compute. reflexivity.
Defined.

End AvmIrq.
