(* ===== verification/AvmRoute.v ===== *)
(** AvmRoute: multiprocessor support, GSI routing and MSI of a virtual machine
    ([kernel/src/avm/avm_smp.c] and the routing part of [avm_irqroute.c]; the
    irqfds are in [AvmEventfd]).

    Kicking a virtual CPU is two atomic actions of the sender, counting and
    sending an NMI, which the target's handler matches with a compare-exchange
    loop: [avm_smp_kick] runs the sender alone, and [kick_step] is the
    interleaving of any number of senders with the handlers. The sleeping loop of
    [avm_smp_wait_runnable] is not modelled. *)

From S2P Require Import Prelude AvmLapic AvmVm AvmIoapic AvmIrq.

Module AvmRoute.
Import AvmLapic AvmVm AvmIoapic AvmIrq.

(** ** avm_smp.c *)

Definition ICR_VECTOR (low : Z) : Z := Z.land low 0xFF.
Definition ICR_MODE (low : Z) : Z := Z.land (Z.shiftr low 8) 7.
Definition ICR_LOGICAL (low : Z) : Z := Z.land (Z.shiftr low 11) 1.
Definition ICR_LEVEL (low : Z) : Z := Z.land (Z.shiftr low 14) 1.
Definition ICR_SHORTHAND (low : Z) : Z := Z.land (Z.shiftr low 18) 3.

Definition avm_smp_init_vcpu (c : avm_vcpu) : avm_vcpu :=
  set_mp_state (if vid c =? 0 then AVM_MP_RUNNABLE else AVM_MP_UNINIT) c.

Definition sipi_reset (c : avm_vcpu) (vector : Z) : avm_vcpu :=
  let data := mk_segment 0 0xFFFF 0 3 1 1 0 in
  let sr := mk_sregs (mk_segment (Z.shiftl vector 12) 0xFFFF (u16 (Z.shiftl vector 8)) 0xB 1 1 0)
                     data data data data data (mk_segment 0 0xFFFF 0 0xB 1 0 0)
                     (mk_segment 0 0 0 0 0 0 1) 0 0xFFFF 0 0xFFFF 0x10 0 0 0 in
  set_state_dirty true (set_sregs sr (set_regs (mk_regs (replicate 16 0) 0 2) c)).

(** Counts the kick, then sends the NMI to the same host CPU. *)
Definition avm_smp_kick (vm : avm_vm) (c : avm_vcpu) : outcome avm_vm :=
  if negb (in_guest c) then Ret vm
  else
    n ← arr_get (kick_expected vm) (Z.of_nat (host_cpu c));
    k ← arr_set (kick_expected vm) (Z.of_nat (host_cpu c)) (u32 (n + 1));
    Ret (set_nmis (host_cpu c :: nmis vm) (set_kick_expected k vm)).

(** The NMI handler of host CPU [cpu]. *)
Definition avm_nmi_kick_consume (vm : avm_vm) (cpu : nat) : bool * avm_vm :=
  match kick_expected vm !! cpu with
  | None => (false, vm)
  | Some n => if n =? 0 then (false, vm)
              else (true, set_kick_expected (<[cpu := u32 (n - 1)]> (kick_expected vm)) vm)
  end.

Fixpoint kick_loop (vm : avm_vm) (l : list (option avm_vcpu)) : outcome avm_vm :=
  match l with
  | [] => Ret vm
  | Some c :: l => vm ← avm_smp_kick vm c; kick_loop vm l
  | None :: l => kick_loop vm l
  end.
Definition avm_smp_kick_all (vm : avm_vm) : outcome avm_vm := kick_loop vm (vcpus vm).

Definition icr_hit (shorthand dest : Z) (src i : nat) (c : avm_vcpu) : bool :=
  if shorthand =? 1 then bool_decide (i = src)
  else if shorthand =? 2 then true
  else if shorthand =? 3 then bool_decide (i <> src)
  else dest =? vid c.

(** What an IPI does to a virtual CPU that it hits. *)
Definition icr_effect (low : Z) (c : avm_vcpu) : avm_vcpu :=
  if ICR_MODE low =? 0 then set_lapic (avm_lapic_raise (lapic c) (u8 (ICR_VECTOR low))) c
  else if ICR_MODE low =? 5 then
    if ICR_LEVEL low =? 0 then c
    else set_mp_state AVM_MP_INIT_DONE (set_lapic (avm_lapic_init (vid c)) c)
  else if ICR_MODE low =? 6 then
    if mp_state c =? AVM_MP_INIT_DONE
    then set_mp_state AVM_MP_RUNNABLE (sipi_reset c (u8 (ICR_VECTOR low))) else c
  else c.
Definition icr_kicks (low : Z) (src i : nat) : bool :=
  ((ICR_MODE low =? 0) && bool_decide (i <> src)) || ((ICR_MODE low =? 5) && negb (ICR_LEVEL low =? 0)).

(** The loop over [vm->vcpus]. *)
Fixpoint icr_loop (vm : avm_vm) (src : nat) (dest low : Z) (idx : list nat) : outcome avm_vm :=
  match idx with
  | [] => Ret vm
  | i :: idx =>
    match vcpus vm !! i with
    | Some (Some c) =>
      if icr_hit (ICR_SHORTHAND low) dest src i c then
        let vm := set_vcpu i (icr_effect low c) vm in
        vm ← (if icr_kicks low src i then avm_smp_kick vm c else Ret vm);
        icr_loop vm src dest low idx
      else icr_loop vm src dest low idx
    | _ => icr_loop vm src dest low idx
    end
  end.

Definition avm_smp_write_icr (vm : avm_vm) (src : nat) (dest low : Z) : outcome avm_vm :=
  if (ICR_SHORTHAND low =? 0) && nz (ICR_LOGICAL low) then Ret vm
  else icr_loop vm src dest low (seq 0 AVM_MAX_VCPUS).

(** The ASID counter and the number of ASIDs of the CPU. *)
Definition avm_smp_alloc_asid (asid_counter asid_count : Z) : Z * Z :=
  (if asid_count <=? 1 then 1 else u32 (1 + asid_counter mod (asid_count - 1)), u32 (asid_counter + 1)).

(** The kick protocol with its atomic actions. A sender is [None] or has
    counted a kick of a host CPU and not sent its NMI yet. The handler of a host
    CPU is idle, has been entered, holds the value it loaded, or has returned. *)
Inductive nmi_handler := Idle | Entered | Loop (n : Z) | Returned (expected : bool).
Record host := mk_host {
  expected : nat -> Z; pending : nat -> Z; handler : nat -> nmi_handler; senders : list (option nat) }.
Definition upd {A} (f : nat -> A) (i : nat) (v : A) : nat -> A := fun j => if bool_decide (j = i) then v else f j.

Inductive kick_step : host -> host -> Prop :=
| kick_count h i cpu : senders h !! i = Some None ->
    kick_step h (mk_host (upd (expected h) cpu (u32 (expected h cpu + 1))) (pending h) (handler h)
                         (<[i := Some cpu]> (senders h)))
| kick_send h i cpu : senders h !! i = Some (Some cpu) ->
    kick_step h (mk_host (expected h) (upd (pending h) cpu (pending h cpu + 1)) (handler h)
                         (<[i := None]> (senders h)))
| kick_send_merged h i cpu : senders h !! i = Some (Some cpu) -> 0 < pending h cpu ->
    kick_step h (mk_host (expected h) (pending h) (handler h) (<[i := None]> (senders h)))
| nmi_enter h cpu : 0 < pending h cpu -> handler h cpu = Idle ->
    kick_step h (mk_host (expected h) (upd (pending h) cpu (pending h cpu - 1))
                         (upd (handler h) cpu Entered) (senders h))
| consume_load h cpu : handler h cpu = Entered ->
    kick_step h (mk_host (expected h) (pending h) (upd (handler h) cpu (Loop (expected h cpu))) (senders h))
| consume_zero h cpu : handler h cpu = Loop 0 ->
    kick_step h (mk_host (expected h) (pending h) (upd (handler h) cpu (Returned false)) (senders h))
| consume_swap h cpu n : handler h cpu = Loop n -> n <> 0 -> expected h cpu = n ->
    kick_step h (mk_host (upd (expected h) cpu (u32 (n - 1))) (pending h)
                         (upd (handler h) cpu (Returned true)) (senders h))
| consume_retry h cpu n : handler h cpu = Loop n -> n <> 0 -> expected h cpu <> n ->
    kick_step h (mk_host (expected h) (pending h) (upd (handler h) cpu (Loop (expected h cpu))) (senders h))
| nmi_exit h cpu : handler h cpu = Returned true ->
    kick_step h (mk_host (expected h) (pending h) (upd (handler h) cpu Idle) (senders h)).

(** ** avm_irqroute.c *)

Definition AVM_MAX_GSI : Z := 1024.
Definition MSI_ADDR_WINDOW : Z := 0xFEE.
Definition msi_addr (lo hi : Z) : Z := Z.lor (Z.shiftl hi 32) lo.

Definition msi_deliver_locked (vm : avm_vm) (addr data : Z) : avm_vm :=
  if nz (Z.land (Z.shiftr data 8) 7) then vm
  else set_vcpus (raise_in (u8 (Z.shiftr addr 12)) (u8 data) (vcpus vm)) vm.

(** [KVM_IRQ_ROUTING_IRQCHIP] is 1, [KVM_IRQ_ROUTING_MSI] is 2. *)
Definition apply_route (vm : avm_vm) (r : kvm_irq_routing_entry) (level : bool) : outcome avm_vm :=
  if r_type r =? 1 then
    let chip := u0 r in
    let pin := u1 r in
    if chip =? 2 then avm_ioapic_set_pin vm pin level
    else avm_irq_line_locked vm (u32 ((if chip =? 1 then 8 else 0) + pin)) level
  else if level then Ret (msi_deliver_locked vm (msi_addr (u0 r) (u1 r)) (u2 r))
  else Ret vm.

Fixpoint route_loop (vm : avm_vm) (g : Z) (level : bool) (rs : list kvm_irq_routing_entry) (routed : bool)
    : outcome (bool * avm_vm) :=
  match rs with
  | [] => Ret (routed, vm)
  | r :: rs =>
    if gsi r =? g then vm ← apply_route vm r level; route_loop vm g level rs true
    else route_loop vm g level rs routed
  end.

Definition gsi_locked (vm : avm_vm) (g : Z) (level : bool) : outcome avm_vm :=
  '(routed, vm) ← route_loop vm g level (routes vm) false;
  if negb routed && (g <? 24) then avm_irq_line_locked vm g level else Ret vm.

Definition gsi_routed_locked (vm : avm_vm) (g : Z) : bool := existsb (fun r => gsi r =? g) (routes vm).

(** The checks of one entry of a routing table. *)
Definition route_ok (r : kvm_irq_routing_entry) : bool :=
  if (AVM_MAX_GSI <=? gsi r) || nz (r_flags r) then false
  else if r_type r =? 1 then
    let chip := u0 r in
    let pin := u1 r in
    if 2 <? chip then false
    else if negb (chip =? 2) && (8 <=? pin) then false
    else if (chip =? 2) && (24 <=? pin) then false
    else true
  else if negb (r_type r =? 2) then false
  else true.

Definition avm_irq_set_routing (vm : avm_vm) (e : list kvm_irq_routing_entry) : outcome avm_vm :=
  if negb (irqchip vm) then Err (- ENXIO)
  else if AVM_MAX_ROUTES <? Z.of_nat (length e) then Err (- EINVAL)
  else if negb (forallb route_ok e) then Err (- EINVAL)
  else Ret (set_routes e vm).

Definition avm_irq_gsi_set (vm : avm_vm) (g : Z) (level : bool) : outcome avm_vm :=
  vm ← gsi_locked vm g level;
  if level then avm_smp_kick_all vm else Ret vm.

Definition avm_irq_set_line (vm : avm_vm) (irq level : Z) : outcome avm_vm :=
  if negb (irqchip vm) then Err (- ENXIO)
  else if 24 <=? irq then Err (- EINVAL)
  else avm_irq_gsi_set vm irq (nz level).

Definition avm_irq_signal_msi (vm : avm_vm) (lo hi data flags : Z) : outcome (Z * avm_vm) :=
  if negb (irqchip vm) then Err (- ENXIO)
  else if nz flags then Err (- EINVAL)
  else
    let addr := msi_addr lo hi in
    if negb (Z.shiftr addr 20 =? MSI_ADDR_WINDOW) then Err (- EINVAL)
    else vm ← avm_smp_kick_all (msi_deliver_locked vm addr data); Ret (1, vm).

(** ** Properties of inter-processor interrupts *)

(** Every virtual CPU that is in the guest runs on a host CPU with a counter. *)
Definition host_ok (n : nat) (o : option avm_vcpu) : Prop :=
  match o with Some c => in_guest c = true -> (host_cpu c < n)%nat | None => True end.
Definition hosts_ok (vm : avm_vm) : Prop := Forall (host_ok (length (kick_expected vm))) (vcpus vm).

(** The kicks [ks], in order: one more in the counter, one NMI. *)
Definition bump (k : list Z) (cpu : nat) : list Z := alter (fun n => u32 (n + 1)) cpu k.
Definition kicked (ks : list nat) (vm : avm_vm) : avm_vm :=
  set_nmis (rev ks ++ nmis vm) (set_kick_expected (foldl bump (kick_expected vm) ks) vm).
Definition kick_of (c : avm_vcpu) : list nat := if in_guest c then [host_cpu c] else [].

Lemma kicked_nil vm : kicked [] vm = vm.
Proof. by destruct vm. Qed.
Lemma kicked_app ks1 ks2 vm : kicked ks2 (kicked ks1 vm) = kicked (ks1 ++ ks2) vm.
Proof. unfold kicked. simpl. by rewrite foldl_app, rev_app_distr, app_assoc. Qed.
Lemma kicked_length ks vm : length (kick_expected (kicked ks vm)) = length (kick_expected vm).
Proof.
  unfold kicked. simpl. generalize (kick_expected vm) as k. induction ks as [|x ks IH]; intros k; [done|].
  simpl. rewrite IH. apply length_alter.
Qed.

Lemma kick_spec vm c : host_ok (length (kick_expected vm)) (Some c) ->
  avm_smp_kick vm c = Ret (kicked (kick_of c) vm).
Proof.
  intros Hc. unfold avm_smp_kick, kick_of. destruct (in_guest c) eqn:Hg; cbn [negb]; [|by rewrite kicked_nil].
  specialize (Hc Hg). destruct (lookup_lt_is_Some_2 (kick_expected vm) (host_cpu c)) as [n Hn]; [done|].
  assert (arr_get (kick_expected vm) (Z.of_nat (host_cpu c)) = Ret n) as ->.
  { apply arr_get_Some. rewrite Nat2Z.id. split; [lia|done]. }
  rewrite ret_bind, arr_set_Ret, Nat2Z.id, ret_bind by lia. unfold kicked, bump. simpl. do 3 f_equal.
  symmetry. apply list_eq. intros j. destruct (decide (j = host_cpu c)) as [->|].
  - rewrite list_lookup_alter_eq, Hn, list_lookup_insert_eq by done. done.
  - by rewrite list_lookup_alter_ne, list_lookup_insert_ne by done.
Qed.

(** The kicks of a scan of all virtual CPUs. *)
Definition kicks_of (l : list (option avm_vcpu)) : list nat :=
  flat_map (fun o => match o with Some c => kick_of c | None => [] end) l.

Lemma kick_loop_spec l : forall vm, Forall (host_ok (length (kick_expected vm))) l ->
  kick_loop vm l = Ret (kicked (kicks_of l) vm).
Proof.
  induction l as [|[c|] l IH]; intros vm Hl; cbn [kick_loop kicks_of flat_map]; [by rewrite kicked_nil| |].
  - apply Forall_cons_1 in Hl as [Hc Hl]. rewrite kick_spec, ret_bind by done.
    rewrite IH by (by rewrite kicked_length). by rewrite kicked_app.
  - apply Forall_cons_1 in Hl as [_ Hl]. by rewrite IH.
Qed.

Lemma kick_all_spec vm : hosts_ok vm -> avm_smp_kick_all vm = Ret (kicked (kicks_of (vcpus vm)) vm).
Proof. intros H. by apply kick_loop_spec. Qed.

(** The specification of an IPI, index by index. *)
Section Ipi.
Context (src : nat) (dest low : Z).

Fixpoint ipi_vcpus (i : nat) (l : list (option avm_vcpu)) : list (option avm_vcpu) :=
  match l with
  | [] => []
  | o :: l =>
    (match o with
     | Some c => Some (if icr_hit (ICR_SHORTHAND low) dest src i c then icr_effect low c else c)
     | None => None
     end) :: ipi_vcpus (S i) l
  end.
Fixpoint ipi_kicks (i : nat) (l : list (option avm_vcpu)) : list nat :=
  match l with
  | [] => []
  | o :: l =>
    (match o with
     | Some c => if icr_hit (ICR_SHORTHAND low) dest src i c && icr_kicks low src i then kick_of c else []
     | None => []
     end) ++ ipi_kicks (S i) l
  end.

Lemma ipi_vcpus_lookup l : forall i j, ipi_vcpus i l !! j =
  match l !! j with
  | Some (Some c) => Some (Some (if icr_hit (ICR_SHORTHAND low) dest src (i + j) c then icr_effect low c else c))
  | Some None => Some None
  | None => None
  end.
Proof.
  induction l as [|o l IH]; intros i [|j]; cbn [ipi_vcpus]; try done.
  - rewrite Nat.add_0_r. by destruct o.
  - change (ipi_vcpus (S i) l !! j = match l !! j with
      | Some (Some c) => Some (Some (if icr_hit (ICR_SHORTHAND low) dest src (i + S j) c then icr_effect low c else c))
      | Some None => Some None | None => None end).
    by rewrite IH, Nat.add_succ_comm.
Qed.

Lemma ipi_vcpus_length l : forall i, length (ipi_vcpus i l) = length l.
Proof. induction l as [|o l IH]; intros i; simpl; auto. Qed.

Lemma icr_effect_host c : in_guest (icr_effect low c) = in_guest c /\ host_cpu (icr_effect low c) = host_cpu c /\
  vid (icr_effect low c) = vid c.
Proof. unfold icr_effect. repeat case_match; done. Qed.

Lemma ipi_hosts_ok vm : hosts_ok vm ->
  hosts_ok (kicked (ipi_kicks 0 (vcpus vm)) (set_vcpus (ipi_vcpus 0 (vcpus vm)) vm)).
Proof.
  intros Hh. unfold hosts_ok. rewrite kicked_length. apply Forall_lookup_2. intros i o Hi.
  change (ipi_vcpus 0 (vcpus vm) !! i = Some o) in Hi. rewrite ipi_vcpus_lookup in Hi.
  destruct (vcpus vm !! i) as [[c|]|] eqn:E; simplify_eq; [|done].
  pose proof (Forall_lookup_1 _ _ _ _ Hh E) as Hc. destruct (icr_hit _ _ _ _ _); [|done].
  destruct (icr_effect_host c) as (E1 & E2 & _). simpl. by rewrite E1, E2.
Qed.

Lemma icr_loop_spec rest : forall vm done, vcpus vm = done ++ rest ->
  Forall (host_ok (length (kick_expected vm))) rest ->
  icr_loop vm src dest low (seq (length done) (length rest)) =
    Ret (kicked (ipi_kicks (length done) rest) (set_vcpus (done ++ ipi_vcpus (length done) rest) vm)).
Proof.
  induction rest as [|o rest IH]; intros vm done E Hh; cbn [length seq icr_loop ipi_kicks ipi_vcpus].
  { rewrite kicked_nil. rewrite <- E. by destruct vm. }
  apply Forall_cons_1 in Hh as [Ho Hh].
  assert (Hstep : forall o' vm', vcpus vm' = done ++ o' :: rest -> length (kick_expected vm') = length (kick_expected vm) ->
    icr_loop vm' src dest low (seq (S (length done)) (length rest)) =
    Ret (kicked (ipi_kicks (S (length done)) rest)
          (set_vcpus (done ++ o' :: ipi_vcpus (S (length done)) rest) vm'))).
  { intros o' vm' E' Hlen. specialize (IH vm' (done ++ [o'])). rewrite length_app, Nat.add_1_r in IH. simpl in IH.
    rewrite <- !app_assoc in IH. rewrite Hlen in IH. by apply IH. }
  rewrite E, list_lookup_middle by done. destruct o as [c|].
  2:{ by rewrite (Hstep None) by done. }
  destruct (icr_hit _ dest src (length done) c) eqn:Hhit; cbn [andb].
  2:{ by rewrite (Hstep (Some c)) by done. }
  set (vm1 := set_vcpu _ _ vm).
  assert (Ev : vcpus vm1 = done ++ Some (icr_effect low c) :: rest).
  { unfold vm1, set_vcpu. simpl. rewrite E. by rewrite insert_app_r_alt, Nat.sub_diag by lia. }
  destruct (icr_kicks low src (length done)).
  - rewrite kick_spec, ret_bind by done. rewrite (Hstep (Some (icr_effect low c))) by (done || by rewrite kicked_length).
    f_equal. rewrite <- kicked_app. done.
  - rewrite ret_bind. by rewrite (Hstep (Some (icr_effect low c))).
Qed.

Lemma write_icr_spec vm : length (vcpus vm) = AVM_MAX_VCPUS -> hosts_ok vm ->
  avm_smp_write_icr vm src dest low =
    Ret (if (ICR_SHORTHAND low =? 0) && nz (ICR_LOGICAL low) then vm
         else kicked (ipi_kicks 0 (vcpus vm)) (set_vcpus (ipi_vcpus 0 (vcpus vm)) vm)).
Proof.
  intros Hlen Hh. unfold avm_smp_write_icr. destruct (_ && _); [done|].
  rewrite <- Hlen. by apply (icr_loop_spec (vcpus vm) vm []).
Qed.
End Ipi.

(** the effect of an inter-processor interrupt. Writing the ICR always
    succeeds. A logical destination without shorthand changes nothing; otherwise
    exactly the virtual CPUs that the shorthand or the destination selects take
    the effect of the delivery mode, every other virtual CPU and every other part
    of the machine is unchanged, and one NMI is sent, and counted on the same host
    CPU, for each selected virtual CPU that is in the guest and must notice (a
    fixed interrupt to another one, or INIT). *)
Theorem ipi_effect vm src dest low : length (vcpus vm) = AVM_MAX_VCPUS -> hosts_ok vm ->
  exists vm', avm_smp_write_icr vm src dest low = Ret vm' /\
    let ignored := (ICR_SHORTHAND low =? 0) && nz (ICR_LOGICAL low) in
    let ks := if ignored then [] else ipi_kicks src dest low 0 (vcpus vm) in
    vm' = kicked ks (set_vcpus (vcpus vm') vm) /\ length (vcpus vm') = length (vcpus vm) /\ hosts_ok vm' /\
    forall i, vcpus vm' !! i =
      match vcpus vm !! i with
      | Some (Some c) =>
        Some (Some (if negb ignored && icr_hit (ICR_SHORTHAND low) dest src i c then icr_effect low c else c))
      | o => o
      end.
Proof.
  intros Hlen Hh. rewrite write_icr_spec by done. eexists. split; [done|]. cbv zeta.
  destruct (_ && nz _); cbn [negb andb].
  - rewrite kicked_nil. split; [by destruct vm|]. split; [done|]. split; [done|].
    intros i. by destruct (vcpus vm !! i) as [[c|]|].
  - set (l := ipi_vcpus src dest low 0 (vcpus vm)).
    assert (Hl : forall i, l !! i = match vcpus vm !! i with
      | Some (Some c) => Some (Some (if icr_hit (ICR_SHORTHAND low) dest src i c then icr_effect low c else c))
      | o => o end).
    { intros i. unfold l. rewrite ipi_vcpus_lookup. cbn [Nat.add]. by destruct (vcpus vm !! i) as [[c|]|]. }
    split; [done|]. split; [|split]; [| |done].
    + apply ipi_vcpus_length.
    + by apply ipi_hosts_ok.
Qed.

(** The fields of an ICR word that names one virtual CPU by its id. *)
Definition to_one (low mode : Z) : Prop :=
  ICR_SHORTHAND low = 0 /\ ICR_LOGICAL low = 0 /\ ICR_MODE low = mode.

(** A directed IPI reaches the virtual CPU whose id it names. *)
Lemma directed vm src t c low mode : length (vcpus vm) = AVM_MAX_VCPUS -> hosts_ok vm ->
  vcpus vm !! t = Some (Some c) -> to_one low mode ->
  exists vm', avm_smp_write_icr vm src (vid c) low = Ret vm' /\
    length (vcpus vm') = AVM_MAX_VCPUS /\ hosts_ok vm' /\ vcpus vm' !! t = Some (Some (icr_effect low c)).
Proof.
  intros Hlen Hh Ht (E1 & E2 & _). rewrite write_icr_spec by done.
  assert ((ICR_SHORTHAND low =? 0) && nz (ICR_LOGICAL low) = false) as -> by (by rewrite E1, E2).
  eexists. split; [done|]. split; [by cbn; rewrite ipi_vcpus_length|]. split; [by apply ipi_hosts_ok|].
  change (ipi_vcpus src (vid c) low 0 (vcpus vm) !! t = Some (Some (icr_effect low c))).
  rewrite ipi_vcpus_lookup, Ht. unfold icr_hit. rewrite E1. simpl. by rewrite Z.eqb_refl.
Qed.

(** starting an application processor. Whatever state virtual CPU [t] is
    in, an INIT (level asserted) addressed to it and then a SIPI with vector [v]
    make it runnable in real mode at CS:IP = (v << 8):0, with its APIC reset, its
    registers cleared and its state marked for loading. A SIPI that does not
    follow an INIT leaves it as it is. *)
Theorem ap_startup vm src t c init sipi : length (vcpus vm) = AVM_MAX_VCPUS -> hosts_ok vm ->
  vcpus vm !! t = Some (Some c) -> to_one init 5 -> ICR_LEVEL init = 1 -> to_one sipi 6 ->
  (exists vm1 vm2 c', avm_smp_write_icr vm src (vid c) init = Ret vm1 /\
     avm_smp_write_icr vm1 src (vid c) sipi = Ret vm2 /\ vcpus vm2 !! t = Some (Some c') /\
     mp_state c' = AVM_MP_RUNNABLE /\ lapic c' = avm_lapic_init (vid c) /\ state_dirty c' = true /\
     regs c' = mk_regs (replicate 16 0) 0 2 /\ cr0 (sregs c') = 0x10 /\
     s_base (cs (sregs c')) = ICR_VECTOR sipi * 4096 /\ selector (cs (sregs c')) = ICR_VECTOR sipi * 256 /\
     vid c' = vid c /\ in_guest c' = in_guest c /\ host_cpu c' = host_cpu c) /\
  (mp_state c <> AVM_MP_INIT_DONE ->
     exists vm1, avm_smp_write_icr vm src (vid c) sipi = Ret vm1 /\ vcpus vm1 !! t = Some (Some c)).
Proof.
  intros Hlen Hh Ht Hi Hlevel Hs.
  assert (Hv : 0 <= ICR_VECTOR sipi < 2 ^ 8) by (apply land_below; lia).
  split.
  - destruct (directed vm src t c init 5 Hlen Hh Ht Hi) as (vm1 & E1 & Hlen1 & Hh1 & Ht1).
    assert (Ei : icr_effect init c = set_mp_state AVM_MP_INIT_DONE (set_lapic (avm_lapic_init (vid c)) c)).
    { unfold icr_effect. by rewrite (proj2 (proj2 Hi)), Hlevel. }
    rewrite Ei in Ht1. set (c1 := set_mp_state _ _) in Ht1.
    destruct (directed vm1 src t c1 sipi 6 Hlen1 Hh1 Ht1 Hs) as (vm2 & E2 & _ & _ & Ht2).
    exists vm1, vm2, (icr_effect sipi c1). split; [done|]. split; [done|]. split; [done|].
    assert (icr_effect sipi c1 = set_mp_state AVM_MP_RUNNABLE (sipi_reset c1 (ICR_VECTOR sipi))) as ->.
    { unfold icr_effect. by rewrite (proj2 (proj2 Hs)), u8_id. }
    cbn -[Z.shiftl Z.mul]. rewrite !Z.shiftl_mul_pow2, u16_id by lia. done.
  - intros Hm. destruct (directed vm src t c sipi 6 Hlen Hh Ht Hs) as (vm1 & E1 & _ & _ & Ht1).
    exists vm1. split; [done|]. rewrite Ht1. unfold icr_effect. rewrite (proj2 (proj2 Hs)). cbn [Z.eqb Pos.eqb].
    by destruct (mp_state c =? AVM_MP_INIT_DONE) eqn:?; reify_bools.
Qed.

(** ** Kicks *)

Definition host_init (n : nat) : host := mk_host (fun _ => 0) (fun _ => 0) (fun _ => Idle) (replicate n None).

Definition counted (cpu : nat) (o : option nat) : bool := bool_decide (o = Some cpu).
Definition serving (a : nmi_handler) : Z := match a with Idle | Returned _ => 0 | Entered | Loop _ => 1 end.

(** After [k] steps, every NMI that is pending, about to be sent or being
    served is counted. *)
Record kick_inv (k : nat) (h : host) (cpu : nat) : Prop := {
  ki_pending : 0 <= pending h cpu;
  ki_counted : pending h cpu + countb (counted cpu) (senders h) + serving (handler h cpu) <= expected h cpu;
  ki_bound : expected h cpu <= Z.of_nat k;
  ki_loop : handler h cpu <> Loop 0;
  ki_ok : handler h cpu <> Returned false }.

Lemma upd_eq {A} (f : nat -> A) i v : upd f i v i = v.
Proof. unfold upd. by rewrite bool_decide_eq_true_2. Qed.
Lemma upd_ne {A} (f : nat -> A) i j v : j <> i -> upd f i v j = f j.
Proof. intros. unfold upd. by rewrite bool_decide_eq_false_2. Qed.

Lemma counted_insert cpu l i o o' : l !! i = Some o ->
  countb (counted cpu) (<[i := o']> l) = countb (counted cpu) l - Z.b2z (counted cpu o) + Z.b2z (counted cpu o').
Proof. apply count_insert. Qed.
Lemma counted_eq cpu : counted cpu (Some cpu) = true.
Proof. by apply bool_decide_eq_true_2. Qed.
Lemma counted_ne cpu cpu' : cpu <> cpu' -> counted cpu (Some cpu') = false.
Proof. intros. apply bool_decide_eq_false_2. congruence. Qed.

Lemma counted_None cpu : counted cpu None = false.
Proof. by apply bool_decide_eq_false_2. Qed.
Lemma serving_nonneg a : 0 <= serving a.
Proof. destruct a; simpl; lia. Qed.

Ltac kick_cpu cpu x :=
  destruct (decide (x = cpu)) as [->|?];
  [rewrite ?upd_eq, ?counted_eq, ?counted_None in *|rewrite ?upd_ne, ?counted_ne, ?counted_None in * by done].

Lemma kick_inv_step k h h' : Z.of_nat (S k) < 2 ^ 32 -> kick_step h h' ->
  (forall cpu, kick_inv k h cpu) -> forall cpu, kick_inv (S k) h' cpu.
Proof.
  intros Hk Hs Hinv x. pose proof (count_nonneg (counted x) (senders h)) as Hc.
  destruct Hs as [h i cpu Hi|h i cpu Hi|h i cpu Hi Hp|h cpu Hp Hh|h cpu Hh|h cpu Hh|h cpu n Hh Hn He|h cpu n Hh Hn He|h cpu Hh];
    pose proof (Hinv x) as [H1 H2 H3 H4 H5]; pose proof (serving_nonneg (handler h x));
    (constructor; cbn [expected pending handler senders]; rewrite ?(counted_insert x _ _ _ _ Hi);
     kick_cpu cpu x; cbn [Z.b2z counted serving] in *; try rewrite Hh in *; cbn [serving] in *;
     rewrite ?u32_id by lia; try done; try lia; try congruence; try (intros [=]; lia)).
Qed.

Lemma kick_inv_reach n k h : nsteps kick_step k (host_init n) h -> Z.of_nat k < 2 ^ 32 ->
  forall cpu, kick_inv k h cpu.
Proof.
  revert h. induction k as [|k IH]; intros h Hs Hk cpu.
  - inversion Hs; subst. constructor; simpl; try done; try lia.
    rewrite count_none; [lia|]. intros o Ho. apply elem_of_replicate in Ho as [-> _]. by apply bool_decide_eq_false_2.
  - apply nsteps_inv_r in Hs as (h1 & H1 & H2). eapply kick_inv_step; eauto. apply IH; [done|lia].
Qed.

(** no kick NMI looks stray. However the actions of the senders, on any
    host CPUs, interleave with the NMI handlers, and even when the hardware merges
    NMIs, the handler of a kick NMI never finds the counter at zero: it returns
    true. (The bound excludes 2^32 kicks of one CPU, where the counter wraps.) *)
Theorem kick_nmi_expected n k h : nsteps kick_step k (host_init n) h -> Z.of_nat k < 2 ^ 32 ->
  forall cpu, handler h cpu <> Returned false /\ handler h cpu <> Loop 0 /\
    (handler h cpu <> Idle -> (exists b, handler h cpu = Returned b) \/ 1 <= expected h cpu).
Proof.
  intros Hs Hk cpu. destruct (kick_inv_reach n k h Hs Hk cpu) as [H1 H2 H3 H4 H5].
  pose proof (count_nonneg (counted cpu) (senders h)). split; [done|]. split; [done|].
  destruct (handler h cpu); simpl in *; intros; [done|right; lia|right; lia|left; eauto].
Qed.

(** ** Routing *)

Definition words (r : kvm_irq_routing_entry) : Prop :=
  0 <= gsi r < 2 ^ 32 /\ 0 <= u0 r < 2 ^ 32 /\ 0 <= u1 r < 2 ^ 32 /\ 0 <= u2 r < 2 ^ 32.
Definition route_inv (vm : avm_vm) : Prop :=
  wf_ioapic (ioapic vm) /\ hosts_ok vm /\ Forall (fun r => words r /\ route_ok r = true) (routes vm).

(** Only local APICs of the virtual CPUs differ. *)
Definition lapic_only (o o' : option avm_vcpu) : Prop :=
  match o, o' with
  | Some c, Some c' => c' = set_lapic (lapic c') c
  | None, None => True
  | _, _ => False
  end.

(** Driving lines touches the PICs, the I/O APIC and local APICs only. *)
Record drives (vm vm' : avm_vm) : Prop := {
  dr_frame : vm' = set_pic (pic vm') (set_ioapic (ioapic vm') (set_vcpus (vcpus vm') vm));
  dr_vcpus : Forall2 lapic_only (vcpus vm) (vcpus vm');
  dr_ioapic : wf_ioapic (ioapic vm') }.

#[local] Instance lapic_only_refl : Reflexive lapic_only.
Proof. intros [[]|]; done. Qed.
#[local] Instance lapic_only_trans : Transitive lapic_only.
Proof. intros [x|] [y|] [z|]; simpl; try done. intros H1 H2. rewrite H2, H1. done. Qed.

Lemma drives_refl vm : wf_ioapic (ioapic vm) -> drives vm vm.
Proof. intros. split; [by destruct vm| |done]. reflexivity. Qed.
Lemma drives_trans vm1 vm2 vm3 : drives vm1 vm2 -> drives vm2 vm3 -> drives vm1 vm3.
Proof.
  intros [F1 V1 I1] [F2 V2 I2]. split; [|by etrans|done]. rewrite F2, F1. by destruct vm1.
Qed.
Lemma drives_inv vm vm' : route_inv vm -> drives vm vm' -> route_inv vm'.
Proof.
  intros (Hi & Hh & Hr) [F V I]. split; [done|]. split; [|by rewrite F].
  unfold hosts_ok in *. assert (kick_expected vm' = kick_expected vm) as -> by (by rewrite F).
  apply Forall_lookup_2. intros i o Hi'. destruct (Forall2_lookup_r _ _ _ _ _ V Hi') as (o0 & H0 & HV).
  pose proof (Forall_lookup_1 _ _ _ _ Hh H0) as Ho. destruct o as [c|], o0 as [c0|]; try done. simpl in *. by rewrite HV.
Qed.

Lemma raise_in_lapic_only dest v l : Forall2 lapic_only l (raise_in dest v l).
Proof.
  induction l as [|[c|] l IH]; simpl; constructor; try done. simpl. by destruct (addressed dest c), c.
Qed.

Lemma line_range pin x : 0 <= pin < 24 -> 0 <= x < 2 ^ 24 ->
  0 <= Z.lor x (bit pin) < 2 ^ 24 /\ 0 <= Z.land x (UINT32_MAX - bit pin) < 2 ^ 24.
Proof.
  intros Hp Hx. unfold bit. rewrite Z.shiftl_1_l. split.
  - apply lor_below; [lia|done|]. by apply bit_below.
  - rewrite Z.land_comm. by apply land_below; [lia|].
Qed.

Lemma set_pin_drives vm pin level : wf_ioapic (ioapic vm) -> 0 <= pin ->
  exists vm', avm_ioapic_set_pin vm pin level = Ret vm' /\ drives vm vm' /\ (level = false -> vcpus vm' = vcpus vm).
Proof.
  intros Hwf Hpin. unfold avm_ioapic_set_pin, IOAPIC_PINS.
  destruct (24 <=? pin) eqn:Hp; reify_bools; [exists vm; by auto using drives_refl|].
  destruct Hwf as (Hl & Hr & Hx & Hn). destruct (line_range pin _ (conj Hpin Hp) Hn) as [L1 L2].
  assert (Hio : forall v, 0 <= v < 2 ^ 24 -> wf_ioapic (mk_ioapic (index (ioapic vm)) (redir (ioapic vm)) v)).
  { intros v Hv. by split; [|split; [|split]]. }
  destruct level.
  - assert (Hdel : exists vm1, (if nz (Z.land (line (ioapic vm)) (bit pin)) then Ret vm else deliver vm pin) = Ret vm1 /\
      (vm1 = vm \/ exists d v, vm1 = set_vcpus (raise_in d v (vcpus vm)) vm)).
    { destruct (nz _); [eauto|]. destruct (lookup_lt_is_Some_2 (redir (ioapic vm)) (Z.to_nat pin)) as [e He]; [lia|].
      unfold deliver. assert (arr_get (redir (ioapic vm)) pin = Ret e) as -> by (apply arr_get_Some; split; [lia|done]).
      rewrite ret_bind. destruct (nz _); [eauto|]. destruct (nz _); eauto 10. }
    destruct Hdel as (vm1 & -> & [->|(d & v & ->)]); rewrite ret_bind; eexists; (split; [done|]); (split; [|done]);
      (split; [by destruct vm| |by apply Hio]); [reflexivity|apply raise_in_lapic_only].
  - eexists. split; [done|]. split; [|done]. split; [by destruct vm| |by apply Hio]. reflexivity.
Qed.

Lemma line_drives vm irq level : wf_ioapic (ioapic vm) -> 0 <= irq ->
  exists vm', avm_irq_line_locked vm irq level = Ret vm' /\ drives vm vm' /\ (level = false -> vcpus vm' = vcpus vm).
Proof.
  intros Hwf Hirq. unfold avm_irq_line_locked. destruct (16 <=? irq); [by apply set_pin_drives|].
  eexists. split; [done|]. split; [|done]. split; [by destruct vm| |done]. reflexivity.
Qed.

Lemma msi_drives vm a d : wf_ioapic (ioapic vm) -> drives vm (msi_deliver_locked vm a d).
Proof.
  intros Hwf. unfold msi_deliver_locked. destruct (nz _); [by apply drives_refl|].
  split; [by destruct vm|apply raise_in_lapic_only|done].
Qed.

Lemma apply_route_drives vm r level : wf_ioapic (ioapic vm) -> words r ->
  exists vm', apply_route vm r level = Ret vm' /\ drives vm vm' /\ (level = false -> vcpus vm' = vcpus vm).
Proof.
  intros Hwf (_ & Hu0 & Hu1 & Hu2). unfold apply_route. destruct (r_type r =? 1).
  - destruct (u0 r =? 2); [apply set_pin_drives; [done|lia]|]. apply line_drives; [done|apply u32_range].
  - destruct level; eexists; (split; [done|]); split; auto using msi_drives, drives_refl. done.
Qed.

Lemma route_loop_drives g level rs : forall vm routed, wf_ioapic (ioapic vm) -> Forall words rs ->
  exists vm', route_loop vm g level rs routed = Ret (routed || existsb (fun r => gsi r =? g) rs, vm') /\
    drives vm vm' /\ (level = false -> vcpus vm' = vcpus vm) /\
    (existsb (fun r => gsi r =? g) rs = false -> vm' = vm).
Proof.
  induction rs as [|r rs IH]; intros vm routed Hwf Hw; cbn [route_loop existsb].
  { exists vm. rewrite orb_false_r. auto using drives_refl. }
  apply Forall_cons_1 in Hw as [Hr Hw]. destruct (gsi r =? g); cbn [orb].
  - destruct (apply_route_drives vm r level Hwf Hr) as (vm1 & -> & D1 & V1). rewrite ret_bind.
    destruct (IH vm1 true (dr_ioapic _ _ D1) Hw) as (vm2 & -> & D2 & V2 & _). exists vm2.
    rewrite orb_true_r. split; [done|]. split; [by eapply drives_trans|]. split; [|done].
    intros Hl. by rewrite V2, V1.
  - apply IH; done.
Qed.

Lemma gsi_locked_drives vm g level : route_inv vm -> 0 <= g ->
  exists vm', gsi_locked vm g level = Ret vm' /\ drives vm vm' /\ (level = false -> vcpus vm' = vcpus vm) /\
    (gsi_routed_locked vm g = false -> 24 <= g -> vm' = vm).
Proof.
  intros (Hwf & _ & Hr) Hg. unfold gsi_locked.
  destruct (route_loop_drives g level (routes vm) vm false Hwf) as (vm1 & -> & D1 & V1 & N1).
  { eapply Forall_impl; [|exact Hr]. by intros r [? _]. }
  rewrite ret_bind. cbn [orb]. destruct (negb _ && (g <? 24)) eqn:Hc; reify_bools.
  - destruct (line_drives vm1 g level (dr_ioapic _ _ D1) Hg) as (vm2 & -> & D2 & V2). exists vm2.
    split; [done|]. split; [by eapply drives_trans|]. split; [|lia]. intros Hl. by rewrite V2, V1.
  - exists vm1. split; [done|]. split; [done|]. split; [done|]. intros Hn _. by apply N1.
Qed.

(** A routed GSI with one entry runs that entry. *)
Lemma route_loop_one g level r rs : forall vm routed, wf_ioapic (ioapic vm) -> words r ->
  List.filter (fun r => gsi r =? g) rs = [r] ->
  route_loop vm g level rs routed = (apply_route vm r level) ≫= (fun vm => Ret (true, vm)).
Proof.
  induction rs as [|r' rs IH]; intros vm routed Hwf Hw; [done|]. cbn [route_loop List.filter].
  destruct (gsi r' =? g) eqn:Hg; [|by apply IH]. intros [= -> Hrs].
  destruct (apply_route_drives vm r level Hwf Hw) as (vm1 & -> & D & _). rewrite !ret_bind.
  assert (Hn : forall vm, route_loop vm g level rs true = Ret (true, vm)); [|done].
  clear -Hrs. induction rs as [|r' rs IH]; [done|]. intros vm. cbn [route_loop List.filter] in *.
  by destruct (gsi r' =? g); [|apply IH].
Qed.

(** A GSI that is routed to one fixed MSI. *)
Lemma gsi_msi vm g r level : route_inv vm -> List.filter (fun r => gsi r =? g) (routes vm) = [r] ->
  r_type r = 2 -> Z.land (Z.shiftr (u2 r) 8) 7 = 0 ->
  gsi_locked vm g level = Ret (if level
    then set_vcpus (raise_in (u8 (Z.shiftr (msi_addr (u0 r) (u1 r)) 12)) (u8 (u2 r)) (vcpus vm)) vm else vm).
Proof.
  intros Hinv Hf Ht Hd.
  assert (Hin : r ∈ List.filter (fun r => gsi r =? g) (routes vm)) by (rewrite Hf; left).
  apply list_elem_of_In, filter_In in Hin as [Hin _]. apply list_elem_of_In, list_elem_of_lookup in Hin as [i Hi].
  destruct (Forall_lookup_1 _ _ _ _ (proj2 (proj2 Hinv)) Hi) as [Hw _].
  unfold gsi_locked. rewrite (route_loop_one g level r) by (done || apply Hinv).
  unfold apply_route, msi_deliver_locked. rewrite Ht, Hd. by destruct level.
Qed.

Lemma set_routing_inv vm e : route_inv vm -> Forall words e ->
  match avm_irq_set_routing vm e with
  | Ret vm' => route_inv vm' /\ routes vm' = e /\ vm' = set_routes e vm
  | Err x => x = - ENXIO \/ x = - EINVAL
  | _ => False
  end.
Proof.
  intros (Hwf & Hh & _) He. unfold avm_irq_set_routing.
  destruct (negb (irqchip vm)); [by left|]. destruct (AVM_MAX_ROUTES <? _); [by right|].
  destruct (forallb route_ok e) eqn:Hok; cbn [negb]; [|by right]. split; [|done]. split; [done|]. split; [done|].
  simpl. rewrite forallb_forall in Hok. apply Forall_lookup_2. intros i r Hi.
  split; [by eapply Forall_lookup_1|]. apply Hok, list_elem_of_In, list_elem_of_lookup. eauto.
Qed.

(** GSI routing is safe and exact. With a table that was accepted, driving
    any GSI never goes out of bounds and keeps the machine well formed; dropping
    a GSI disturbs no local APIC and kicks nobody; a GSI that has no route and is
    no legacy line does nothing; a GSI routed to one fixed MSI raises exactly its
    vector in exactly the virtual CPUs that the address names, on the rising edge.
    A table is accepted as a whole or refused with no effect. *)
Theorem gsi_routing vm g level : route_inv vm -> 0 <= g ->
  (exists vm', avm_irq_gsi_set vm g level = Ret vm' /\ route_inv vm' /\ routes vm' = routes vm /\
     (level = false -> vcpus vm' = vcpus vm /\ nmis vm' = nmis vm) /\
     (gsi_routed_locked vm g = false -> 24 <= g ->
        vcpus vm' = vcpus vm /\ pic vm' = pic vm /\ ioapic vm' = ioapic vm) /\
     (forall r, List.filter (fun r => gsi r =? g) (routes vm) = [r] -> r_type r = 2 -> level = true ->
        Z.land (Z.shiftr (u2 r) 8) 7 = 0 ->
        vcpus vm' = raise_in (u8 (Z.shiftr (msi_addr (u0 r) (u1 r)) 12)) (u8 (u2 r)) (vcpus vm))) /\
  (forall e, Forall words e ->
     match avm_irq_set_routing vm e with
     | Ret vm' => route_inv vm' /\ routes vm' = e /\ vm' = set_routes e vm
     | Err x => x = - ENXIO \/ x = - EINVAL
     | _ => False
     end).
Proof.
  intros Hinv Hg. split.
  - destruct (gsi_locked_drives vm g level Hinv Hg) as (vm1 & E1 & D & V & N).
    pose proof (drives_inv _ _ Hinv D) as Hinv1. unfold avm_irq_gsi_set. rewrite E1, ret_bind.
    set (ks := if level then kicks_of (vcpus vm1) else []).
    exists (kicked ks vm1). split.
    { destruct level; [by apply kick_all_spec, Hinv1|by unfold ks; rewrite kicked_nil]. }
    split; [|split; [|split; [|split]]].
    + destruct Hinv1 as (? & Hh & ?). split; [done|]. split; [|done]. unfold hosts_ok. by rewrite kicked_length.
    + destruct D as [-> _ _]. done.
    + intros ->. split; [by apply V|]. destruct D as [-> _ _]. done.
    + intros Hr H24. by rewrite (N Hr H24).
    + intros r Hf Ht -> Hd. rewrite (gsi_msi vm g r true) in E1 by done. by injection E1 as <-.
  - intros e He. by apply set_routing_inv.
Qed.

(** *** Witnesses *)

(** Two virtual CPUs, the second in the guest on host CPU 3; GSI 40 is an MSI
    with vector 0x55 to it. *)
Definition guest_vcpu : avm_vcpu := set_host_cpu 3 (set_in_guest true (sample_vcpu 1)).
Definition smp_vm : avm_vm :=
  set_routes [mk_route 40 2 0 0xFEE01000 0 0x55]
    (set_vcpus [Some (sample_vcpu 0); Some guest_vcpu; None; None; None; None; None; None] sample_vm).

Lemma smp_hosts : hosts_ok smp_vm.
Proof. repeat constructor. Qed.
Lemma smp_route_inv : route_inv smp_vm.
Proof.
  split; [exact sample_io_wf|]. split; [exact smp_hosts|].
  constructor; [|constructor]. split; [|done]. unfold words. simpl. lia.
Qed.

(** A fixed interrupt with vector 0x40 to all but the sender. *)
Lemma ipi_effect_witness :
  exists vm', avm_smp_write_icr smp_vm 0 0 0xC0040 = Ret vm' /\ nmis vm' = [3%nat] /\
    kick_expected vm' = [0; 0; 0; 1] /\
    map (fun o => match o with Some c => vmem (irr (lapic c)) 0x40 | None => false end) (vcpus vm')
    = [false; true; false; false; false; false; false; false].
Proof.
  destruct (ipi_effect smp_vm 0 0 0xC0040 eq_refl smp_hosts) as (vm' & E & F & _).
  exists vm'. split; [exact E|]. vm_compute in E. injection E as <-. vm_compute. repeat split.
Defined.

Lemma ap_startup_witness :
  exists vm1 vm2 c', avm_smp_write_icr smp_vm 0 1 0x4500 = Ret vm1 /\ avm_smp_write_icr vm1 0 1 0x4608 = Ret vm2 /\
    vcpus vm2 !! 1%nat = Some (Some c') /\ mp_state c' = AVM_MP_RUNNABLE /\ s_base (cs (sregs c')) = 0x8000.
Proof.
  destruct (ap_startup smp_vm 0 1 guest_vcpu 0x4500 0x4608 eq_refl smp_hosts eq_refl
              ltac:(by repeat split) eq_refl ltac:(by repeat split)) as [(vm1 & vm2 & c' & E1 & E2 & Hc & Hm & _ & _ & _ & _ & Hb & _) _].
  exists vm1, vm2, c'. split; [exact E1|]. split; [exact E2|]. split; [exact Hc|]. split; [exact Hm|exact Hb].
Defined.

Lemma kick_nmi_expected_witness :
  exists h, nsteps kick_step 1 (host_init 2) h /\ handler h 3%nat <> Returned false /\ expected h 3%nat = 1.
Proof.
  eexists. assert (Hs : nsteps kick_step 1 (host_init 2) _)
    by (eapply nsteps_l; [apply (kick_count _ 0 3); reflexivity|apply nsteps_O]).
  split; [exact Hs|]. split; [exact (proj1 (kick_nmi_expected 2 1 _ Hs ltac:(lia) 3%nat))|reflexivity].
Defined.

Lemma gsi_routing_witness :
  exists vm', avm_irq_gsi_set smp_vm 40 true = Ret vm' /\
    vcpus vm' = raise_in 1 0x55 (vcpus smp_vm) /\ route_inv vm'.
Proof.
  destruct (gsi_routing smp_vm 40 true smp_route_inv ltac:(lia)) as [(vm' & E & I & _ & _ & _ & M) _].
  exists vm'. split; [exact E|]. split; [|exact I].
  rewrite (M (mk_route 40 2 0 0xFEE01000 0 0x55)); reflexivity.
Defined.

End AvmRoute.
