(* ===== verification/AvmEventfd.v ===== *)
(** AvmEventfd: eventfds and what a virtual machine registers on them: irqfds and
    ioeventfds (the eventfd part of [kernel/src/syscalls/sys_aio.c], the irqfd part
    of [kernel/src/avm/avm_irqroute.c] and [kernel/src/avm/avm_ioeventfd.c]).

    The world is the machine, the descriptor table of the calling process and the
    eventfds that exist, by address. An eventfd is freed with its last reference;
    an access to one that is gone is a fault. A descriptor may also name a node
    that is no eventfd. Waiting readers and epoll are not modelled. *)

From S2P Require Import Prelude AvmLapic AvmVm AvmIoapic AvmIrq AvmRoute.

Module AvmEventfd.
Import AvmLapic AvmVm AvmIoapic AvmIrq AvmRoute.

Definition EBADF : Z := 9.
Definition EAGAIN : Z := 11.
Definition EBUSY : Z := 16.
Definition EFD_SEMAPHORE : Z := 1.

(** [notify] is the irqfd entry whose [irqfd_fire] is installed; [refs] is the
    reference count of the node. *)
Record eventfd_ctx_t := mk_eventfd { refs : Z; counter : Z; ev_flags : Z; notify : option nat }.
Record world := mk_world { machine : avm_vm; fds : list (option Z); efds : gmap Z eventfd_ctx_t }.

Definition set_machine (vm : avm_vm) (w : world) : world := mk_world vm (fds w) (efds w).
Definition set_efds (e : gmap Z eventfd_ctx_t) (w : world) : world := mk_world (machine w) (fds w) e.
Definition set_refs (n : Z) (e : eventfd_ctx_t) : eventfd_ctx_t := mk_eventfd n (counter e) (ev_flags e) (notify e).
Definition set_counter (c : Z) (e : eventfd_ctx_t) : eventfd_ctx_t := mk_eventfd (refs e) c (ev_flags e) (notify e).
Definition set_notify (o : option nat) (e : eventfd_ctx_t) : eventfd_ctx_t :=
  mk_eventfd (refs e) (counter e) (ev_flags e) o.
Definition put_irqfd (i : nat) (s : avm_irqfd) (w : world) : world :=
  set_machine (set_irqfds (<[i := s]> (irqfds (machine w))) (machine w)) w.
Definition put_ioeventfd (i : nat) (s : avm_ioeventfd) (w : world) : world :=
  set_machine (set_ioeventfds (<[i := s]> (ioeventfds (machine w))) (machine w)) w.

(** ** Eventfds (sys_aio.c) *)

(** An error, or the node with one more reference. *)
Definition asc_eventfd_get (fd : Z) (w : world) : Z + (Z * world) :=
  match (if fd <? 0 then None else fds w !! Z.to_nat fd) with
  | Some (Some n) =>
    match efds w !! n with
    | Some e => inr (n, set_efds (<[n := set_refs (refs e + 1) e]> (efds w)) w)
    | None => inl (- EINVAL)
    end
  | _ => inl (- EBADF)
  end.

(** [vfs_close] on the node; [eventfd_close] frees the context with the last
    reference. *)
Definition asc_eventfd_put (n : Z) (w : world) : outcome world :=
  e ← deref (efds w !! n);
  Ret (set_efds (if refs e =? 1 then delete n (efds w)
                 else <[n := set_refs (refs e - 1) e]> (efds w)) w).

Definition asc_eventfd_set_notify (n : Z) (i : nat) (w : world) : outcome (Z * world) :=
  e ← deref (efds w !! n);
  match notify e with
  | Some _ => Ret (- EBUSY, w)
  | None => Ret (0, set_efds (<[n := set_notify (Some i) e]> (efds w)) w)
  end.

Definition asc_eventfd_clear_notify (n : Z) (w : world) : outcome world :=
  e ← deref (efds w !! n);
  Ret (set_efds (<[n := set_notify None e]> (efds w)) w).

(** The hook of an irqfd (avm_irqroute.c). *)
Definition irqfd_fire (vm : avm_vm) (i : nat) : outcome avm_vm :=
  e ← deref (irqfds vm !! i);
  if if_used e then
    vm ← gsi_locked vm (if_gsi e) true;
    vm ← gsi_locked vm (if_gsi e) false;
    avm_smp_kick_all vm
  else Ret vm.

(** [if (notify) notify(notify_arg)] *)
Definition run_notify (o : option nat) (w : world) : outcome world :=
  match o with
  | None => Ret w
  | Some i => vm ← irqfd_fire (machine w) i; Ret (set_machine vm w)
  end.

Definition asc_eventfd_signal (n : Z) (w : world) : outcome world :=
  e ← deref (efds w !! n);
  let e := if negb (counter e =? UINT64_MAX) then set_counter (u64 (counter e + 1)) e else e in
  run_notify (notify e) (set_efds (<[n := e]> (efds w)) w).

(** A write of [val]; the result is the error or 8. *)
Definition eventfd_write (n val : Z) (w : world) : outcome (Z * world) :=
  e ← deref (efds w !! n);
  if val =? UINT64_MAX then Ret (- EINVAL, w)
  else if u64 (0xfffffffffffffffe - counter e) <? val then Ret (- EINVAL, w)
  else
    let e := set_counter (u64 (counter e + val)) e in
    w ← run_notify (notify e) (set_efds (<[n := e]> (efds w)) w);
    Ret (8, w).

(** A read that does not wait: [None] when the counter is zero. *)
Definition eventfd_read (n : Z) (w : world) : outcome (option Z * world) :=
  e ← deref (efds w !! n);
  if counter e =? 0 then Ret (None, w)
  else
    let '(val, c) := if nz (Z.land (ev_flags e) EFD_SEMAPHORE) then (1, counter e - 1) else (counter e, 0) in
    Ret (Some val, set_efds (<[n := set_counter c e]> (efds w)) w).

(** A new eventfd at the address [n], in descriptor [fd]. *)
Definition sys_eventfd2 (n : Z) (fd : nat) (initval flags : Z) (w : world) : world :=
  mk_world (machine w) (<[fd := Some n]> (fds w)) (<[n := mk_eventfd 1 initval flags None]> (efds w)).

(** ** irqfds (avm_irqroute.c) *)

Definition irqfd_same (node g : Z) (e : avm_irqfd) : bool :=
  if_used e && bool_decide (if_efd e = Some node) && (if_gsi e =? g).

(** The scan of the entries: the first free one, and whether the pair is there. *)
Fixpoint irqfd_scan (node g : Z) (i : nat) (slot : option nat) (err : bool) (l : list avm_irqfd) : option nat * bool :=
  match l with
  | [] => (slot, err)
  | e :: l =>
    if err then (slot, err)
    else if negb (if_used e) then
      irqfd_scan node g (S i) (match slot with None => Some i | _ => slot end) err l
    else irqfd_scan node g (S i) slot (irqfd_same node g e) l
  end.

(** The part under [irq_lock]: an error, or the node and the entry taken. *)
Definition irqfd_reserve (fd g flags resamplefd : Z) (w : world) : outcome ((Z + (Z * nat)) * world) :=
  if negb (irqchip (machine w)) then Ret (inl (- ENXIO), w)
  else if nz (Z.land flags 2) || nz resamplefd then Ret (inl (- EINVAL), w)
  else if AVM_MAX_GSI <=? g then Ret (inl (- EINVAL), w)
  else match asc_eventfd_get fd w with
  | inl err => Ret (inl err, w)
  | inr (node, w) =>
    let fail err := w ← asc_eventfd_put node w; Ret (inl err, w) in
    if negb (gsi_routed_locked (machine w) g) && (24 <=? g) then fail (- EINVAL)
    else match irqfd_scan node g 0 None false (irqfds (machine w)) with
    | (_, true) => fail (- EEXIST)
    | (None, _) => fail (- ENOSPC)
    | (Some i, _) => Ret (inr (node, i), put_irqfd i (mk_irqfd true g (Some node)) w)
    end
  end.

(** Installing the hook, outside the lock. *)
Definition irqfd_install (node : Z) (i : nat) (w : world) : outcome (Z * world) :=
  '(err, w) ← asc_eventfd_set_notify node i w;
  if nz err then
    e ← deref (irqfds (machine w) !! i);
    w ← asc_eventfd_put node (put_irqfd i (mk_irqfd false (if_gsi e) None) w);
    Ret (err, w)
  else Ret (err, w).

Definition avm_irqfd_assign (fd g flags resamplefd : Z) (w : world) : outcome (Z * world) :=
  '(r, w) ← irqfd_reserve fd g flags resamplefd w;
  match r with
  | inl err => Ret (err, w)
  | inr (node, i) => irqfd_install node i w
  end.

Definition avm_irqfd_deassign (fd g : Z) (w : world) : outcome (Z * world) :=
  match asc_eventfd_get fd w with
  | inl err => Ret (err, w)
  | inr (node, w) =>
    match list_find (fun e => irqfd_same node g e = true) (irqfds (machine w)) with
    | None => w ← asc_eventfd_put node w; Ret (- ENOENT, w)
    | Some (i, e) =>
      held ← deref (if_efd e);
      w ← asc_eventfd_put node (put_irqfd i (mk_irqfd false (if_gsi e) None) w);
      w ← asc_eventfd_clear_notify held w;
      w ← asc_eventfd_put held w;
      Ret (0, w)
    end
  end.

Fixpoint irqfd_destroy_loop (idx : list nat) (w : world) : outcome world :=
  match idx with
  | [] => Ret w
  | i :: idx =>
    e ← deref (irqfds (machine w) !! i);
    let w := put_irqfd i (mk_irqfd false (if_gsi e) None) w in
    if if_used e then
      held ← deref (if_efd e);
      w ← asc_eventfd_clear_notify held w;
      w ← asc_eventfd_put held w;
      irqfd_destroy_loop idx w
    else irqfd_destroy_loop idx w
  end.
Definition avm_irqfd_destroy (w : world) : outcome world := irqfd_destroy_loop (seq 0 AVM_MAX_IRQFDS) w.

(** ** ioeventfds (avm_ioeventfd.c) *)

Definition len_mask (len : Z) : Z := if 8 <=? len then UINT64_MAX else bit (len * 8) - 1.

Definition same_match (e : avm_ioeventfd) (p : bool) (a len : Z) (dm : bool) (m : Z) : bool :=
  if negb (eqb (pio e) p) || negb (addr e =? a) || negb (e_len e =? len) then false
  else if negb (eqb (datamatch e) dm) then false
  else negb dm || (match_ e =? m).

(** The arguments of KVM_IOEVENTFD. *)
Record kvm_ioeventfd := mk_kvm_ioeventfd { k_datamatch : Z; k_addr : Z; k_len : Z; k_fd : Z; k_flags : Z }.
Definition a_datamatch (a : kvm_ioeventfd) : bool := nz (Z.land (k_flags a) 1).
Definition a_pio (a : kvm_ioeventfd) : bool := nz (Z.land (k_flags a) 2).
Definition a_match (a : kvm_ioeventfd) : Z := Z.land (k_datamatch a) (len_mask (k_len a)).

(** [None] when the scan stops at a used entry with the same match. *)
Fixpoint ioeventfd_scan (a : kvm_ioeventfd) (i : nat) (slot : option nat) (l : list avm_ioeventfd)
    : option (option nat) :=
  match l with
  | [] => Some slot
  | e :: l =>
    if negb (used e) then ioeventfd_scan a (S i) (match slot with None => Some i | _ => slot end) l
    else if same_match e (a_pio a) (k_addr a) (k_len a) (a_datamatch a) (a_match a) then None
    else ioeventfd_scan a (S i) slot l
  end.

Definition avm_ioeventfd_assign (a : kvm_ioeventfd) (w : world) : outcome (Z * world) :=
  match asc_eventfd_get (k_fd a) w with
  | inl err => Ret (err, w)
  | inr (node, w) =>
    let fail err := w ← asc_eventfd_put node w; Ret (err, w) in
    match ioeventfd_scan a 0 None (ioeventfds (machine w)) with
    | None => fail (- EEXIST)
    | Some None => fail (- ENOSPC)
    | Some (Some i) =>
      Ret (0, put_ioeventfd i (mk_ioeventfd true (a_pio a) (a_datamatch a) (k_len a) (k_addr a) (a_match a) node) w)
    end
  end.

Definition ioeventfd_same (node : Z) (a : kvm_ioeventfd) (e : avm_ioeventfd) : bool :=
  used e && (efd e =? node) && same_match e (a_pio a) (k_addr a) (k_len a) (a_datamatch a) (a_match a).
Definition clear_used (e : avm_ioeventfd) : avm_ioeventfd :=
  mk_ioeventfd false (pio e) (datamatch e) (e_len e) (addr e) (match_ e) (efd e).

Definition avm_ioeventfd_deassign (a : kvm_ioeventfd) (w : world) : outcome (Z * world) :=
  match asc_eventfd_get (k_fd a) w with
  | inl err => Ret (err, w)
  | inr (node, w) =>
    match list_find (fun e => ioeventfd_same node a e = true) (ioeventfds (machine w)) with
    | None => w ← asc_eventfd_put node w; Ret (- ENOENT, w)
    | Some (i, e) =>
      w ← asc_eventfd_put node (put_ioeventfd i (clear_used e) w);
      w ← asc_eventfd_put (efd e) w;
      Ret (0, w)
    end
  end.

(** The tests of the loop of [avm_ioeventfd_write]. *)
Definition write_matches (p : bool) (a len val : Z) (e : avm_ioeventfd) : bool :=
  if negb (used e) || negb (eqb (pio e) p) || negb (addr e =? a) then false
  else if nz (e_len e) && negb (e_len e =? len) then false
  else if datamatch e && negb (Z.land val (len_mask len) =? match_ e) then false
  else true.

Definition avm_ioeventfd_write (p : bool) (a len val : Z) (w : world) : outcome (bool * world) :=
  match list_find (fun e => write_matches p a len val e = true) (ioeventfds (machine w)) with
  | None => Ret (false, w)
  | Some (_, e) => w ← asc_eventfd_signal (efd e) w; Ret (true, w)
  end.

Fixpoint ioeventfd_destroy_loop (idx : list nat) (w : world) : outcome world :=
  match idx with
  | [] => Ret w
  | i :: idx =>
    e ← deref (ioeventfds (machine w) !! i);
    if negb (used e) then ioeventfd_destroy_loop idx w
    else
      w ← asc_eventfd_put (efd e) (put_ioeventfd i (clear_used e) w);
      ioeventfd_destroy_loop idx w
  end.
Definition avm_ioeventfd_destroy (w : world) : outcome world := ioeventfd_destroy_loop (seq 0 AVM_MAX_IOEVENTFDS) w.

(** KVM_IOEVENTFD (avm_dev.c): validates the request, then runs it. *)
Definition avm_ioeventfd_ioctl (a : kvm_ioeventfd) (w : world) : outcome (Z * world) :=
  let sized := (k_len a =? 1) || (k_len a =? 2) || (k_len a =? 4) || (k_len a =? 8) in
  if nz (Z.land (k_flags a) (UINT32_MAX - 7)) then Ret (- EINVAL, w)
  else if (if a_datamatch a then negb sized else negb (k_len a =? 0) && negb sized) then Ret (- EINVAL, w)
  else if a_pio a && (0xFFFF <? k_addr a) then Ret (- EINVAL, w)
  else if nz (Z.land (k_flags a) 4) then avm_ioeventfd_deassign a w
  else avm_ioeventfd_assign a w.

(** ** References

    [x n] is the number of references that the running call holds on node [n]
    besides those of descriptors and entries. *)

Definition fd_holds (n : Z) (o : option Z) : bool := bool_decide (o = Some n).
Definition irqfd_holds (n : Z) (s : avm_irqfd) : bool := if_used s && bool_decide (if_efd s = Some n).
Definition ioeventfd_holds (n : Z) (s : avm_ioeventfd) : bool := used s && (efd s =? n).
Definition held (w : world) (n : Z) : Z :=
  countb (irqfd_holds n) (irqfds (machine w)) + countb (ioeventfd_holds n) (ioeventfds (machine w)).
Definition plus (x : Z -> Z) (n d : Z) : Z -> Z := fun m => if m =? n then x m + d else x m.

Record winv (x : Z -> Z) (w : world) : Prop := {
  wi_some n e : efds w !! n = Some e ->
    refs e = countb (fd_holds n) (fds w) + held w n + x n /\ 1 <= refs e;
  wi_none n : efds w !! n = None -> held w n + x n = 0;
  wi_x n : 0 <= x n;
  wi_slot i s : irqfds (machine w) !! i = Some s -> 0 <= if_gsi s /\
    (if_used s = true -> exists n e, if_efd s = Some n /\ efds w !! n = Some e /\ notify e = Some i);
  wi_notify n e i : efds w !! n = Some e -> notify e = Some i ->
    exists s, irqfds (machine w) !! i = Some s /\ if_used s = true /\ if_efd s = Some n;
  wi_counter n e : efds w !! n = Some e -> 0 <= counter e < 2 ^ 64;
  wi_route : route_inv (machine w);
  wi_irqfds : length (irqfds (machine w)) = AVM_MAX_IRQFDS;
  wi_ioeventfds : length (ioeventfds (machine w)) = AVM_MAX_IOEVENTFDS }.

Lemma held_nonneg w n : 0 <= held w n.
Proof. unfold held. pose proof (count_nonneg (irqfd_holds n) (irqfds (machine w))).
  pose proof (count_nonneg (ioeventfd_holds n) (ioeventfds (machine w))). lia. Qed.
Lemma plus_eq x n d : plus x n d n = x n + d.
Proof. unfold plus. by rewrite Z.eqb_refl. Qed.
Lemma plus_ne x n d m : m <> n -> plus x n d m = x m.
Proof. intros. unfold plus. by destruct (m =? n) eqn:?; reify_bools. Qed.

(** Only the amounts matter. *)
Lemma winv_ext x y w : (forall n, x n = y n) -> winv x w -> winv y w.
Proof.
  intros E [H1 H2 H3 H4 H5 H6 H7 H8 H9]. split; try done; intros n; rewrite <- ?E; auto.
Qed.
Lemma plus_plus x n a b m : plus (plus x n a) n b m = plus x n (a + b) m.
Proof. unfold plus. destruct (m =? n); lia. Qed.
Lemma plus_0 x n m : plus x n 0 m = x m.
Proof. unfold plus. destruct (m =? n); lia. Qed.

(** Where the machine may differ. *)
Lemma winv_machine x w vm : winv x w -> irqfds vm = irqfds (machine w) ->
  ioeventfds vm = ioeventfds (machine w) -> route_inv vm -> winv x (set_machine vm w).
Proof.
  intros [H1 H2 H3 H4 H5 H6 H7 H8 H9] E1 E2 Hr.
  assert (Hh : forall n, held (set_machine vm w) n = held w n) by (intros n; unfold held; simpl; by rewrite E1, E2).
  split; try done; try (simpl; congruence); intros n; simpl; rewrite ?Hh, ?E1; eauto.
Qed.

(** Changing the context of one eventfd, reference and hook apart. *)
Lemma winv_efd x w n e e' : winv x w -> efds w !! n = Some e ->
  refs e' = refs e -> notify e' = notify e -> 0 <= counter e' < 2 ^ 64 ->
  winv x (set_efds (<[n := e']> (efds w)) w).
Proof.
  intros [H1 H2 H3 H4 H5 H6 H7 H8 H9] He Er En Hc.
  split; try done; try (simpl; by rewrite length_insert); simpl; intros m.
  - intros e0. change (held (set_efds _ w) m) with (held w m). destruct (decide (m = n)) as [->|].
    + rewrite lookup_insert_eq. intros [= <-]. rewrite Er. auto.
    + rewrite lookup_insert_ne by done. auto.
  - change (held (set_efds _ w) m) with (held w m). destruct (decide (m = n)) as [->|].
    + by rewrite lookup_insert_eq.
    + rewrite lookup_insert_ne by done. auto.
  - intros s Hs. destruct (H4 m s Hs) as [? Hn]. split; [done|]. intros Hu. destruct (Hn Hu) as (n0 & e0 & ? & ? & ?).
    destruct (decide (n0 = n)) as [->|].
    + exists n, e'. rewrite lookup_insert_eq. simplify_eq. split; [done|]. split; [done|congruence].
    + exists n0, e0. by rewrite lookup_insert_ne.
  - intros e0 i. destruct (decide (m = n)) as [->|].
    + rewrite lookup_insert_eq. intros [= <-]. rewrite En. eauto.
    + rewrite lookup_insert_ne by done. eauto.
  - intros e0. destruct (decide (m = n)) as [->|].
    + rewrite lookup_insert_eq. by intros [= <-].
    + rewrite lookup_insert_ne by done. eauto.
Qed.

(** Changing the reference count together with what the call holds. *)
Lemma winv_refs x w n e d : winv x w -> efds w !! n = Some e -> 1 <= refs e + d -> 0 <= x n + d ->
  winv (plus x n d) (set_efds (<[n := set_refs (refs e + d) e]> (efds w)) w).
Proof.
  intros [H1 H2 H3 H4 H5 H6 H7 H8 H9] He Hr Hx.
  split; try done; try (simpl; by rewrite length_insert); simpl; intros m.
  - intros e0. change (held (set_efds _ w) m) with (held w m). destruct (decide (m = n)) as [->|].
    + rewrite lookup_insert_eq, plus_eq. intros [= <-]. simpl. destruct (H1 n e He). lia.
    + rewrite lookup_insert_ne, plus_ne by done. auto.
  - change (held (set_efds _ w) m) with (held w m). destruct (decide (m = n)) as [->|].
    + by rewrite lookup_insert_eq.
    + rewrite lookup_insert_ne, plus_ne by done. auto.
  - destruct (decide (m = n)) as [->|]; [rewrite plus_eq; lia|rewrite plus_ne by done; auto].
  - intros s Hs. destruct (H4 m s Hs) as [? Hn]. split; [done|]. intros Hu. destruct (Hn Hu) as (n0 & e0 & ? & ? & ?).
    destruct (decide (n0 = n)) as [->|].
    + exists n, (set_refs (refs e + d) e). rewrite lookup_insert_eq. simplify_eq. by split.
    + exists n0, e0. by rewrite lookup_insert_ne.
  - intros e0 i. destruct (decide (m = n)) as [->|].
    + rewrite lookup_insert_eq. intros [= <-]. simpl. eauto.
    + rewrite lookup_insert_ne by done. eauto.
  - intros e0. destruct (decide (m = n)) as [->|].
    + rewrite lookup_insert_eq. intros [= <-]. simpl. eauto.
    + rewrite lookup_insert_ne by done. eauto.
Qed.

Lemma get_inv x w fd n w' : winv x w -> asc_eventfd_get fd w = inr (n, w') ->
  winv (plus x n 1) w' /\ machine w' = machine w /\ fds w' = fds w /\
  exists e, efds w !! n = Some e /\ efds w' !! n = Some (set_refs (refs e + 1) e).
Proof.
  intros Hw E. unfold asc_eventfd_get in E. destruct (if fd <? 0 then None else _) as [[n0|]|]; try done.
  destruct (efds w !! n0) as [e|] eqn:He; [|done]. injection E as <- <-.
  split; [|split; [done|]; split; [done|]; exists e; split; [done|apply lookup_insert_eq]].
  apply winv_refs; try done; [|pose proof (wi_x _ _ Hw n0); lia]. pose proof (wi_some _ _ Hw n0 e He). lia.
Qed.

(** Dropping a reference that the call holds. *)
Lemma put_inv x w n : winv x w -> 1 <= x n ->
  exists w', asc_eventfd_put n w = Ret w' /\ winv (plus x n (-1)) w' /\ machine w' = machine w /\ fds w' = fds w.
Proof.
  intros Hw Hx. unfold asc_eventfd_put. destruct (efds w !! n) as [e|] eqn:He.
  2:{ pose proof (wi_none _ _ Hw n He). pose proof (held_nonneg w n). lia. }
  cbn [deref]. rewrite ret_bind. eexists. split; [done|]. split; [|done].
  destruct (wi_some _ _ Hw n e He) as [Hr H1]. destruct (refs e =? 1) eqn:E1; reify_bools.
  2:{ replace (refs e - 1) with (refs e + -1) by lia. apply winv_refs; try done; lia. }
  pose proof (held_nonneg w n) as Hh. pose proof (count_nonneg (fd_holds n) (fds w)) as Hf.
  destruct Hw as [A1 A2 A3 A4 A5 A6 A7 A8 A9].
  assert (Hq : countb (irqfd_holds n) (irqfds (machine w)) = 0).
  { pose proof (count_nonneg (irqfd_holds n) (irqfds (machine w))).
    pose proof (count_nonneg (ioeventfd_holds n) (ioeventfds (machine w))). unfold held in *. lia. }
  split; try done; try (simpl; by rewrite length_insert); simpl; intros m.
  - intros e0. change (held (set_efds _ w) m) with (held w m). destruct (decide (m = n)) as [->|].
    + by rewrite lookup_delete_eq.
    + rewrite lookup_delete_ne, plus_ne by done. auto.
  - change (held (set_efds _ w) m) with (held w m). destruct (decide (m = n)) as [->|].
    + rewrite plus_eq. lia.
    + rewrite lookup_delete_ne, plus_ne by done. auto.
  - destruct (decide (m = n)) as [->|]; [rewrite plus_eq; lia|rewrite plus_ne by done; auto].
  - intros s Hs. destruct (A4 m s Hs) as [? Hn]. split; [done|]. intros Hu. destruct (Hn Hu) as (n0 & e0 & Hs0 & ? & ?).
    destruct (decide (n0 = n)) as [->|]; [|exists n0, e0; by rewrite lookup_delete_ne].
    pose proof (count_pos (irqfd_holds n) (irqfds (machine w)) m s Hs) as Hp.
    unfold irqfd_holds at 1 in Hp. rewrite Hu, bool_decide_eq_true_2 in Hp by done. specialize (Hp eq_refl). lia.
  - intros e0 i. destruct (decide (m = n)) as [->|]; [by rewrite lookup_delete_eq|].
    rewrite lookup_delete_ne by done. eauto.
  - intros e0. destruct (decide (m = n)) as [->|]; [by rewrite lookup_delete_eq|].
    rewrite lookup_delete_ne by done. eauto.
Qed.

(** The holders after an entry changes. *)
Lemma held_irqfd w i s s' n : irqfds (machine w) !! i = Some s ->
  held (put_irqfd i s' w) n = held w n - Z.b2z (irqfd_holds n s) + Z.b2z (irqfd_holds n s').
Proof. intros Hs. unfold held, put_irqfd. simpl. rewrite (count_insert _ _ _ _ _ Hs). lia. Qed.
Lemma held_ioeventfd w i s s' n : ioeventfds (machine w) !! i = Some s ->
  held (put_ioeventfd i s' w) n = held w n - Z.b2z (ioeventfd_holds n s) + Z.b2z (ioeventfd_holds n s').
Proof. intros Hs. unfold held, put_ioeventfd. simpl. rewrite (count_insert _ _ _ _ _ Hs). lia. Qed.
Lemma holds_used m g n : Z.b2z (irqfd_holds m (mk_irqfd true g (Some n))) = if m =? n then 1 else 0.
Proof.
  unfold irqfd_holds. simpl. destruct (m =? n) eqn:?; reify_bools.
  - subst. by rewrite bool_decide_eq_true_2. - rewrite bool_decide_eq_false_2 by congruence. done.
Qed.

(** Writing an unused entry over an unused one changes nothing. *)
Lemma winv_unused x w i s g : winv x w -> irqfds (machine w) !! i = Some s -> if_used s = false -> 0 <= g ->
  winv x (put_irqfd i (mk_irqfd false g None) w).
Proof.
  intros [H1 H2 H3 H4 H5 H6 H7 H8 H9] Hs Hu Hg.
  assert (Hh : forall n, held (put_irqfd i (mk_irqfd false g None) w) n = held w n).
  { intros n. rewrite (held_irqfd _ _ _ _ _ Hs). unfold irqfd_holds. rewrite Hu. simpl. lia. }
  split; try done; try (simpl; by rewrite length_insert); intros n; simpl; rewrite ?Hh; auto.
  - intros s'. destruct (decide (n = i)) as [->|]; [|rewrite list_lookup_insert_ne by done; auto].
    rewrite list_lookup_insert_eq by (by eapply lookup_lt_Some). by intros [= <-].
  - intros e j He Hj. destruct (H5 n e j He Hj) as (s' & Hs' & ? & ?).
    exists s'. rewrite list_lookup_insert_ne; [done|]. intros ->. simplify_eq. congruence.
Qed.

(** An unused entry takes over a reference and the hook. *)
Lemma winv_install x w i s g n e : winv x w -> irqfds (machine w) !! i = Some s -> if_used s = false -> 0 <= g ->
  1 <= x n -> efds w !! n = Some e -> notify e = None ->
  winv (plus x n (-1)) (set_efds (<[n := set_notify (Some i) e]> (efds w)) (put_irqfd i (mk_irqfd true g (Some n)) w)).
Proof.
  intros [H1 H2 H3 H4 H5 H6 H7 H8 H9] Hs Hu Hg Hx He Hn. set (w' := set_efds _ _).
  assert (Hh : forall m, held w' m = held w m + if m =? n then 1 else 0).
  { intros m. change (held w' m) with (held (put_irqfd i (mk_irqfd true g (Some n)) w) m).
    rewrite (held_irqfd _ _ _ _ _ Hs), holds_used. unfold irqfd_holds. rewrite Hu. simpl. lia. }
  assert (Hlen := lookup_lt_Some _ _ _ Hs).
  split; try done; try (simpl; by rewrite length_insert); simpl; intros m.
  - intros e0. rewrite Hh. destruct (decide (m = n)) as [->|].
    + rewrite lookup_insert_eq, plus_eq, Z.eqb_refl. intros [= <-]. simpl. destruct (H1 n e He). lia.
    + rewrite lookup_insert_ne, plus_ne by done. destruct (m =? n) eqn:?; reify_bools; [done|].
      intros He0. destruct (H1 m e0 He0). lia.
  - rewrite Hh. destruct (decide (m = n)) as [->|]; [by rewrite lookup_insert_eq|].
    rewrite lookup_insert_ne, plus_ne by done. destruct (m =? n) eqn:?; reify_bools; [done|].
    intros He0. specialize (H2 m He0). lia.
  - destruct (decide (m = n)) as [->|]; [rewrite plus_eq; lia|rewrite plus_ne by done; auto].
  - intros s'. destruct (decide (m = i)) as [->|].
    + rewrite list_lookup_insert_eq by done. intros [= <-]. split; [done|]. intros _.
      exists n, (set_notify (Some i) e). by rewrite lookup_insert_eq.
    + rewrite list_lookup_insert_ne by done. intros Hs'. destruct (H4 m s' Hs') as [? Hn']. split; [done|].
      intros Hu'. destruct (Hn' Hu') as (nn & e0 & ? & ? & ?). exists nn, e0.
      rewrite lookup_insert_ne; [done|]. intros ->. congruence.
  - intros e0 j. destruct (decide (m = n)) as [->|].
    + rewrite lookup_insert_eq. intros [= <-]. simpl. intros [= <-].
      eexists. rewrite list_lookup_insert_eq by done. done.
    + rewrite lookup_insert_ne by done. intros He0 Hj. destruct (H5 m e0 j He0 Hj) as (s' & Hs' & ? & ?).
      exists s'. rewrite list_lookup_insert_ne; [done|]. intros ->. simplify_eq. congruence.
  - intros e0. destruct (decide (m = n)) as [->|]; [|rewrite lookup_insert_ne by done; eauto].
    rewrite lookup_insert_eq. intros [= <-]. simpl. eauto.
Qed.

(** A used entry gives up its reference and the hook. *)
Lemma winv_release x w i s n e : winv x w -> irqfds (machine w) !! i = Some s -> if_used s = true ->
  if_efd s = Some n -> efds w !! n = Some e ->
  winv (plus x n 1) (set_efds (<[n := set_notify None e]> (efds w)) (put_irqfd i (mk_irqfd false (if_gsi s) None) w)).
Proof.
  intros [H1 H2 H3 H4 H5 H6 H7 H8 H9] Hs Hu Hn He. set (w' := set_efds _ _).
  assert (Hh : forall m, held w' m = held w m - if m =? n then 1 else 0).
  { intros m. change (held w' m) with (held (put_irqfd i (mk_irqfd false (if_gsi s) None) w) m).
    rewrite (held_irqfd _ _ _ _ _ Hs). destruct s as [u g o]; simpl in *; subst. rewrite holds_used. simpl. lia. }
  assert (Hlen := lookup_lt_Some _ _ _ Hs).
  destruct (H4 i s Hs) as [Hg Hs']. destruct (Hs' Hu) as (n' & e' & E1 & E2 & Hnot).
  assert (n' = n) as -> by congruence. assert (e' = e) as -> by congruence.
  split; try done; try (simpl; by rewrite length_insert); simpl; intros m.
  - intros e0. rewrite Hh. destruct (decide (m = n)) as [->|].
    + rewrite lookup_insert_eq, plus_eq, Z.eqb_refl. intros [= <-]. simpl. destruct (H1 n e He). lia.
    + rewrite lookup_insert_ne, plus_ne by done. destruct (m =? n) eqn:?; reify_bools; [done|].
      intros He0. destruct (H1 m e0 He0). lia.
  - rewrite Hh. destruct (decide (m = n)) as [->|]; [by rewrite lookup_insert_eq|].
    rewrite lookup_insert_ne, plus_ne by done. destruct (m =? n) eqn:?; reify_bools; [done|].
    intros He0. specialize (H2 m He0). lia.
  - destruct (decide (m = n)) as [->|]; [rewrite plus_eq; specialize (H3 n); lia|rewrite plus_ne by done; auto].
  - intros s0. destruct (decide (m = i)) as [->|].
    + rewrite list_lookup_insert_eq by done. by intros [= <-].
    + rewrite list_lookup_insert_ne by done. intros Hs0. destruct (H4 m s0 Hs0) as [? Hn']. split; [done|].
      intros Hu'. destruct (Hn' Hu') as (nn & e0 & ? & ? & ?). exists nn, e0.
      rewrite lookup_insert_ne; [done|]. intros ->. congruence.
  - intros e0 j. destruct (decide (m = n)) as [->|]; [by rewrite lookup_insert_eq; intros [= <-]|].
    rewrite lookup_insert_ne by done. intros He0 Hj. destruct (H5 m e0 j He0 Hj) as (s0 & Hs0 & ? & ?).
    exists s0. rewrite list_lookup_insert_ne; [done|]. intros ->. congruence.
  - intros e0. destruct (decide (m = n)) as [->|]; [|rewrite lookup_insert_ne by done; eauto].
    rewrite lookup_insert_eq. intros [= <-]. simpl. eauto.
Qed.

(** ioeventfd entries move references between the entry and the call. *)
Lemma winv_ioeventfd x w i s s' n d : winv x w -> ioeventfds (machine w) !! i = Some s -> 0 <= x n + d ->
  (forall m, Z.b2z (ioeventfd_holds m s') + (if m =? n then d else 0) = Z.b2z (ioeventfd_holds m s)) ->
  is_Some (efds w !! n) -> winv (plus x n d) (put_ioeventfd i s' w).
Proof.
  intros [H1 H2 H3 H4 H5 H6 H7 H8 H9] Hs Hx Hb [en Hen].
  assert (Hh : forall m, held (put_ioeventfd i s' w) m = held w m - if m =? n then d else 0).
  { intros m. rewrite (held_ioeventfd _ _ _ _ _ Hs). specialize (Hb m). lia. }
  split; try done; try (simpl; by rewrite length_insert); simpl; intros m.
  - intros e0 He0. rewrite Hh. destruct (H1 m e0 He0). unfold plus. destruct (m =? n) eqn:?; reify_bools; lia.
  - intros He0. rewrite Hh. specialize (H2 m He0). unfold plus. destruct (m =? n) eqn:?; reify_bools; [|lia].
    subst. congruence.
  - unfold plus. specialize (H3 m). destruct (m =? n) eqn:?; reify_bools; [subst|]; lia.
Qed.

(** ** The calls *)

Definition none : Z -> Z := fun _ => 0.

(** A call is defined and keeps the invariant. *)
Definition safe {A} (m : outcome (A * world)) : Prop := exists r w', m = Ret (r, w') /\ winv none w'.

Lemma plus_back x n d m : plus (plus x n d) n (- d) m = x m.
Proof. rewrite plus_plus. replace (d + - d) with 0 by lia. apply plus_0. Qed.

(** The common ending: the call drops its only reference. *)
Lemma put_last w n {A} (r : A) : winv (plus none n 1) w ->
  safe (w ← asc_eventfd_put n w; Ret (r, w)).
Proof.
  intros Hw. destruct (put_inv _ _ n Hw) as (w' & -> & Hw' & _ & _); [rewrite plus_eq; unfold none; lia|].
  exists r, w'. split; [done|]. eapply winv_ext; [|exact Hw']. intros m. apply plus_back.
Qed.

Lemma fire_ok vm i s : route_inv vm -> irqfds vm !! i = Some s -> 0 <= if_gsi s ->
  exists vm', irqfd_fire vm i = Ret vm' /\ route_inv vm' /\ irqfds vm' = irqfds vm /\ ioeventfds vm' = ioeventfds vm.
Proof.
  intros Hr Hs Hg. unfold irqfd_fire. rewrite Hs. cbn [deref]. rewrite ret_bind.
  destruct (if_used s); [|by exists vm].
  destruct (gsi_locked_drives vm (if_gsi s) true Hr Hg) as (vm1 & -> & D1 & _). rewrite ret_bind.
  pose proof (drives_inv _ _ Hr D1) as Hr1.
  destruct (gsi_locked_drives vm1 (if_gsi s) false Hr1 Hg) as (vm2 & -> & D2 & _). rewrite ret_bind.
  pose proof (drives_inv _ _ Hr1 D2) as Hr2. rewrite kick_all_spec by apply Hr2. eexists. split; [done|].
  split.
  - destruct Hr2 as (? & Hh & ?). split; [done|]. split; [|done]. unfold hosts_ok. by rewrite kicked_length.
  - destruct D1 as [F1 _ _], D2 as [F2 _ _]. simpl. by rewrite F2, F1.
Qed.

Lemma run_notify_ok x w n e : winv x w -> efds w !! n = Some e ->
  exists w', run_notify (notify e) w = Ret w' /\ winv x w' /\ fds w' = fds w /\ efds w' = efds w.
Proof.
  intros Hw He. unfold run_notify. destruct (notify e) as [i|] eqn:Hn; [|by exists w].
  destruct (wi_notify _ _ Hw n e i He Hn) as (s & Hs & _ & _).
  destruct (fire_ok (machine w) i s) as (vm' & -> & Hr & E1 & E2); [apply Hw|done|by eapply wi_slot|].
  rewrite ret_bind. eexists. split; [done|]. split; [|done]. by apply winv_machine.
Qed.

Lemma signal_ok x w n : winv x w -> is_Some (efds w !! n) ->
  exists w', asc_eventfd_signal n w = Ret w' /\ winv x w'.
Proof.
  intros Hw [e He]. unfold asc_eventfd_signal. rewrite He. cbn [deref]. rewrite ret_bind. cbv zeta.
  set (e' := if negb _ then _ else _).
  assert (He' : refs e' = refs e /\ notify e' = notify e /\ 0 <= counter e' < 2 ^ 64).
  { pose proof (wi_counter _ _ Hw n e He). unfold e'. destruct (negb _); [|done].
    split; [done|]. split; [done|]. apply u64_range. }
  destruct He' as (E1 & E2 & E3).
  pose proof (winv_efd x w n e e' Hw He E1 E2 E3) as Hw1.
  destruct (run_notify_ok x _ n e' Hw1) as (w' & E & Hw' & _); [apply lookup_insert_eq|]. eauto.
Qed.

Lemma eventfd_write_ok x w n val : winv x w -> is_Some (efds w !! n) ->
  exists r w', eventfd_write n val w = Ret (r, w') /\ winv x w'.
Proof.
  intros Hw [e He]. unfold eventfd_write. rewrite He. cbn [deref]. rewrite ret_bind.
  destruct (val =? UINT64_MAX); [eauto|]. destruct (_ <? val); [eauto|]. cbv zeta.
  pose proof (winv_efd x w n e (set_counter (u64 (counter e + val)) e) Hw He eq_refl eq_refl (u64_range _)) as Hw1.
  destruct (run_notify_ok x _ n (set_counter (u64 (counter e + val)) e) Hw1) as (w' & -> & Hw' & _);
    [apply lookup_insert_eq|]. rewrite ret_bind. eauto.
Qed.

Lemma eventfd_read_ok x w n : winv x w -> is_Some (efds w !! n) ->
  exists r w', eventfd_read n w = Ret (r, w') /\ winv x w'.
Proof.
  intros Hw [e He]. unfold eventfd_read. rewrite He. cbn [deref]. rewrite ret_bind.
  destruct (counter e =? 0) eqn:?; reify_bools; [eauto|]. pose proof (wi_counter _ _ Hw n e He).
  destruct (nz _); eexists _, _; (split; [done|]); apply (winv_efd x w n e); try done; simpl; lia.
Qed.

(** The first unused entry that the scan finds. *)
Lemma irqfd_scan_slot node g l : forall i slot err s, irqfd_scan node g i slot err l = (Some s, false) ->
  slot = Some s \/ exists e, l !! (s - i)%nat = Some e /\ (i <= s)%nat /\ if_used e = false.
Proof.
  induction l as [|e l IH]; intros i slot err s; cbn [irqfd_scan]; [intros [= -> _]; by left|].
  destruct err; [intros [= -> _]; by left|]. destruct (if_used e) eqn:Hu; cbn [negb]; intros E.
  - destruct (IH _ _ _ _ E) as [|(e' & He' & Hle & ?)]; [by left|]. right. exists e'.
    replace (s - i)%nat with (S (s - S i)) by lia. split; [done|]. split; [lia|done].
  - destruct (IH _ _ _ _ E) as [Hs|(e' & He' & Hle & ?)].
    + destruct slot; [by left|]. injection Hs as ->. right. exists e. rewrite Nat.sub_diag. done.
    + right. exists e'. replace (s - i)%nat with (S (s - S i)) by lia. split; [done|]. split; [lia|done].
Qed.

Lemma irqfd_assign_ok w fd g flags rfd : winv none w -> 0 <= g -> safe (avm_irqfd_assign fd g flags rfd w).
Proof.
  intros Hw Hg. unfold avm_irqfd_assign, irqfd_reserve.
  assert (Hret : forall err, safe (Ret (err, w) : outcome (Z * world))) by (intros err; by exists err, w).
  destruct (negb (irqchip _)); [apply Hret|]. destruct (_ || nz rfd); [apply Hret|].
  destruct (AVM_MAX_GSI <=? g); [apply Hret|].
  destruct (asc_eventfd_get fd w) as [err|[n w1]] eqn:Eg; [apply Hret|].
  destruct (get_inv _ _ _ _ _ Hw Eg) as (Hw1 & Em & _ & e & He & He1).
  assert (Hfail : forall err : Z, safe ('(r, w) ← (w ← asc_eventfd_put n w1; Ret (inl err, w));
     match r with inl err => Ret (err, w) | inr (node, i) => irqfd_install node i w end)).
  { intros err. destruct (put_last w1 n (A := Z + Z * nat) (inl err) Hw1) as (r & w' & E & Hw').
    destruct (put_inv _ _ n Hw1) as (w2 & E2 & _); [rewrite plus_eq; unfold none; lia|].
    rewrite E2, ret_bind in E |- *. simplify_eq. by exists err, w'. }
  destruct (_ && (24 <=? g)); [apply Hfail|].
  destruct (irqfd_scan n g 0 None false (irqfds (machine w1))) as [[i|] [|]] eqn:Es; try apply Hfail.
  rewrite ret_bind. apply irqfd_scan_slot in Es as [|(s & Hs & _ & Hu)]; [done|]. rewrite Nat.sub_0_r in Hs.
  unfold irqfd_install, asc_eventfd_set_notify. simpl (efds (put_irqfd _ _ _)). rewrite He1. cbn [deref]. rewrite ret_bind.
  change (notify (set_refs _ e)) with (notify e). destruct (notify e) as [j|] eqn:Hn.
  - rewrite ret_bind. change (nz (- EBUSY)) with true. cbv iota.
    simpl (irqfds (machine _)). rewrite list_lookup_insert_eq by (by eapply lookup_lt_Some). cbn [deref]. rewrite ret_bind.
    assert (E : put_irqfd i (mk_irqfd false (if_gsi (mk_irqfd true g (Some n))) None)
               (put_irqfd i (mk_irqfd true g (Some n)) w1) = put_irqfd i (mk_irqfd false g None) w1).
    { unfold put_irqfd, set_machine. simpl. by rewrite list_insert_insert_eq. }
    rewrite E. apply put_last. by eapply winv_unused.
  - rewrite ret_bind. eexists 0, _. split; [done|].
    eapply winv_ext; [|eapply (winv_install (plus none n 1) w1 i s g n _ Hw1 Hs Hu Hg); [|exact He1|done]].
    + intros m. apply plus_back.
    + rewrite plus_eq. unfold none. lia.
Qed.

(** Dropping a reference that is not the last commutes with clearing the hook. *)
Lemma put_clear w n e : efds w !! n = Some e -> 2 <= refs e ->
  (w ← asc_eventfd_put n w; asc_eventfd_clear_notify n w) =
  (w ← asc_eventfd_clear_notify n w; asc_eventfd_put n w).
Proof.
  intros He Hr. unfold asc_eventfd_put, asc_eventfd_clear_notify. rewrite He. cbn [deref]. rewrite !ret_bind. simpl.
  destruct (refs e =? 1) eqn:?; reify_bools; [lia|]. rewrite !lookup_insert_eq. cbn [deref]. rewrite !ret_bind. simpl.
  destruct (refs e =? 1) eqn:?; reify_bools; [lia|]. by rewrite !insert_insert_eq.
Qed.

Lemma irqfd_deassign_ok w fd g : winv none w -> safe (avm_irqfd_deassign fd g w).
Proof.
  intros Hw. unfold avm_irqfd_deassign.
  destruct (asc_eventfd_get fd w) as [err|[n w1]] eqn:Eg; [by exists err, w|].
  destruct (get_inv _ _ _ _ _ Hw Eg) as (Hw1 & Em & _ & e & He & He1).
  destruct (list_find _ _) as [[i s]|] eqn:Ef; [|by apply put_last].
  apply list_find_Some in Ef as (Hs & Hsame & _). unfold irqfd_same in Hsame.
  apply andb_true_iff in Hsame as [Hsame _]. apply andb_true_iff in Hsame as [Hu Hefd].
  apply bool_decide_eq_true_1 in Hefd. rewrite Hefd. cbn [deref]. rewrite ret_bind.
  pose proof (winv_release _ w1 i s n _ Hw1 Hs Hu Hefd He1) as Hw2.
  set (w2 := put_irqfd i (mk_irqfd false (if_gsi s) None) w1) in *.
  assert (He2 : efds w2 !! n = Some (set_refs (refs e + 1) e)) by exact He1.
  assert (E : forall f, (w ← asc_eventfd_put n w2; w ← asc_eventfd_clear_notify n w; f w) =
    ((w ← asc_eventfd_put n w2; asc_eventfd_clear_notify n w) ≫= f) :> outcome (Z * world)).
  { intros f. by destruct (asc_eventfd_put n w2). }
  rewrite E, (put_clear w2 n _ He2).
  2:{ simpl. pose proof (wi_some _ _ Hw n e He). lia. }
  unfold asc_eventfd_clear_notify. rewrite He2. cbn [deref]. rewrite !ret_bind. change (efds w2) with (efds w1).
  destruct (put_inv _ _ n Hw2) as (w3 & -> & Hw3 & _); [rewrite !plus_eq; unfold none; lia|]. rewrite ret_bind.
  apply put_last. eapply winv_ext; [|exact Hw3]. intros m. rewrite !plus_plus. done.
Qed.

Lemma irqfd_destroy_ok idx : forall w, winv none w -> Forall (fun i => (i < length (irqfds (machine w)))%nat) idx ->
  exists w', irqfd_destroy_loop idx w = Ret w' /\ winv none w' /\ fds w' = fds w /\
    length (irqfds (machine w')) = length (irqfds (machine w)) /\ ioeventfds (machine w') = ioeventfds (machine w) /\
    (forall i s, irqfds (machine w') !! i = Some s -> if_used s = true -> irqfds (machine w) !! i = Some s /\ i ∉ idx).
Proof.
  induction idx as [|i idx IH]; intros w Hw Hidx; cbn [irqfd_destroy_loop].
  { exists w. do 5 (split; [done|]). intros i s Hs _. split; [done|]. apply not_elem_of_nil. }
  apply Forall_cons_1 in Hidx as [Hi Hidx]. destruct (lookup_lt_is_Some_2 _ _ Hi) as [s Hs].
  rewrite Hs. cbn [deref]. rewrite ret_bind. cbv zeta.
  set (w1 := put_irqfd i (mk_irqfd false (if_gsi s) None) w).
  set (P w' := winv none w' /\ fds w' = fds w /\
    length (irqfds (machine w')) = length (irqfds (machine w)) /\ ioeventfds (machine w') = ioeventfds (machine w) /\
    (forall j s, irqfds (machine w') !! j = Some s -> if_used s = true -> irqfds (machine w) !! j = Some s /\ j ∉ i :: idx)).
  assert (Hfin : forall w2, winv none w2 -> fds w2 = fds w -> machine w2 = machine w1 ->
    exists w', irqfd_destroy_loop idx w2 = Ret w' /\ P w').
  { intros w2 Hw2 Ef Em. assert (Hl : length (irqfds (machine w2)) = length (irqfds (machine w))).
    { rewrite Em. apply length_insert. }
    destruct (IH w2 Hw2) as (w' & E & Hw' & E1 & E2 & E3 & E4); [by rewrite Hl|].
    exists w'. split; [done|]. split; [done|]. split; [congruence|]. split; [congruence|].
    split; [rewrite E3, Em; done|]. intros j s' Hs' Hu. destruct (E4 j s' Hs' Hu) as [H1 H2].
    rewrite Em in H1. simpl in H1. destruct (decide (j = i)) as [->|Hne].
    - rewrite list_lookup_insert_eq in H1 by done. by simplify_eq.
    - rewrite list_lookup_insert_ne in H1 by done. split; [done|]. by apply not_elem_of_cons. }
  destruct (if_used s) eqn:Hu.
  - destruct (proj2 (wi_slot _ _ Hw i s Hs) Hu) as (n & e & Hefd & He & Hn). rewrite Hefd. cbn [deref]. rewrite ret_bind.
    pose proof (winv_release _ w i s n _ Hw Hs Hu Hefd He) as Hw2. fold w1 in Hw2.
    unfold asc_eventfd_clear_notify. change (efds w1) with (efds w) in *. rewrite He. cbn [deref]. rewrite !ret_bind.
    destruct (put_inv _ _ n Hw2) as (w3 & -> & Hw3 & Em & Ef); [rewrite plus_eq; unfold none; lia|]. rewrite ret_bind.
    apply Hfin; [|done|done]. eapply winv_ext; [|exact Hw3]. intros m. apply plus_back.
  - apply Hfin; [|done|done]. eapply winv_unused; try done. by eapply (wi_slot _ _ Hw).
Qed.

(** The eventfd of a used ioeventfd exists. *)
Lemma ioeventfd_alive x w i s : winv x w -> ioeventfds (machine w) !! i = Some s -> used s = true ->
  is_Some (efds w !! efd s).
Proof.
  intros Hw Hs Hu. destruct (efds w !! efd s) eqn:He; [done|]. pose proof (wi_none _ _ Hw _ He) as H0.
  pose proof (wi_x _ _ Hw (efd s)). unfold held in H0.
  pose proof (count_nonneg (irqfd_holds (efd s)) (irqfds (machine w))).
  pose proof (count_pos (ioeventfd_holds (efd s)) (ioeventfds (machine w)) i s Hs) as Hp.
  unfold ioeventfd_holds at 1 in Hp. rewrite Hu, Z.eqb_refl in Hp. specialize (Hp eq_refl). lia.
Qed.

Lemma ioeventfd_scan_slot a l : forall i slot s, ioeventfd_scan a i slot l = Some (Some s) ->
  slot = Some s \/ exists e, l !! (s - i)%nat = Some e /\ (i <= s)%nat /\ used e = false.
Proof.
  induction l as [|e l IH]; intros i slot s; cbn [ioeventfd_scan]; [intros [= ->]; by left|].
  assert (Hnext : forall slot', ioeventfd_scan a (S i) slot' l = Some (Some s) -> slot' = Some s \/
    exists e', (e :: l) !! (s - i)%nat = Some e' /\ (i <= s)%nat /\ used e' = false).
  { intros slot' E. destruct (IH _ _ _ E) as [|(e' & He' & Hle & ?)]; [by left|]. right. exists e'.
    replace (s - i)%nat with (S (s - S i)) by lia. split; [done|]. split; [lia|done]. }
  destruct (used e) eqn:Hu; cbn [negb]; [destruct (same_match _ _ _ _ _ _); [done|apply Hnext]|].
  intros E. destruct (Hnext _ E) as [Hs|]; [|by right]. destruct slot; [by left|]. injection Hs as ->.
  right. exists e. rewrite Nat.sub_diag. done.
Qed.

Lemma release_ioeventfd x w i s : winv x w -> ioeventfds (machine w) !! i = Some s -> used s = true ->
  winv (plus x (efd s) 1) (put_ioeventfd i (clear_used s) w).
Proof.
  intros Hw Hs Hu. eapply winv_ioeventfd; [done|done| | |by eapply ioeventfd_alive].
  - pose proof (wi_x _ _ Hw (efd s)). lia.
  - intros m. unfold ioeventfd_holds. rewrite Hu. simpl. rewrite (Z.eqb_sym (efd s)). by destruct (m =? efd s).
Qed.

Lemma ioeventfd_assign_ok w a : winv none w -> safe (avm_ioeventfd_assign a w).
Proof.
  intros Hw. unfold avm_ioeventfd_assign.
  destruct (asc_eventfd_get (k_fd a) w) as [err|[n w1]] eqn:Eg; [by exists err, w|].
  destruct (get_inv _ _ _ _ _ Hw Eg) as (Hw1 & _ & _ & e & _ & He1).
  destruct (ioeventfd_scan a 0 None _) as [[i|]|] eqn:Es; try by apply put_last.
  apply ioeventfd_scan_slot in Es as [|(s & Hs & _ & Hu)]; [done|]. rewrite Nat.sub_0_r in Hs.
  eexists 0, _. split; [done|]. eapply winv_ext; [|eapply (winv_ioeventfd (plus none n 1) w1 i s _ n (-1)); try done].
  - intros m. apply plus_back.
  - rewrite plus_eq. unfold none. lia.
  - intros m. unfold ioeventfd_holds. rewrite Hu. simpl. rewrite (Z.eqb_sym n). by destruct (m =? n).
Qed.

Lemma ioeventfd_deassign_ok w a : winv none w -> safe (avm_ioeventfd_deassign a w).
Proof.
  intros Hw. unfold avm_ioeventfd_deassign.
  destruct (asc_eventfd_get (k_fd a) w) as [err|[n w1]] eqn:Eg; [by exists err, w|].
  destruct (get_inv _ _ _ _ _ Hw Eg) as (Hw1 & _ & _ & e & _ & He1).
  destruct (list_find _ _) as [[i s]|] eqn:Ef; [|by apply put_last].
  apply list_find_Some in Ef as (Hs & Hsame & _). unfold ioeventfd_same in Hsame.
  apply andb_true_iff in Hsame as [Hsame _]. apply andb_true_iff in Hsame as [Hu Hefd]. reify_bools.
  pose proof (release_ioeventfd _ _ _ _ Hw1 Hs Hu) as Hw2. rewrite Hefd in Hw2 |- *.
  destruct (put_inv _ _ n Hw2) as (w3 & -> & Hw3 & _); [rewrite !plus_eq; unfold none; lia|]. rewrite ret_bind.
  apply put_last. eapply winv_ext; [|exact Hw3]. intros m. rewrite !plus_plus. done.
Qed.

Lemma ioeventfd_write_ok w p a len val : winv none w -> safe (avm_ioeventfd_write p a len val w).
Proof.
  intros Hw. unfold avm_ioeventfd_write. destruct (list_find _ _) as [[i s]|] eqn:Ef; [|by exists false, w].
  apply list_find_Some in Ef as (Hs & Hm & _).
  assert (Hu : used s = true) by (by unfold write_matches in Hm; destruct (used s)).
  destruct (signal_ok _ w (efd s) Hw) as (w' & -> & Hw'); [by eapply ioeventfd_alive|]. rewrite ret_bind. by exists true, w'.
Qed.

Lemma ioeventfd_destroy_ok idx : forall w, winv none w ->
  Forall (fun i => (i < length (ioeventfds (machine w)))%nat) idx ->
  exists w', ioeventfd_destroy_loop idx w = Ret w' /\ winv none w' /\ fds w' = fds w /\
    length (ioeventfds (machine w')) = length (ioeventfds (machine w)) /\ irqfds (machine w') = irqfds (machine w) /\
    (forall i s, ioeventfds (machine w') !! i = Some s -> used s = true ->
       ioeventfds (machine w) !! i = Some s /\ i ∉ idx).
Proof.
  induction idx as [|i idx IH]; intros w Hw Hidx; cbn [ioeventfd_destroy_loop].
  { exists w. do 5 (split; [done|]). intros i s Hs _. split; [done|]. apply not_elem_of_nil. }
  apply Forall_cons_1 in Hidx as [Hi Hidx]. destruct (lookup_lt_is_Some_2 _ _ Hi) as [s Hs].
  rewrite Hs. cbn [deref]. rewrite ret_bind. destruct (used s) eqn:Hu; cbn [negb].
  - pose proof (release_ioeventfd _ _ _ _ Hw Hs Hu) as Hw2.
    destruct (put_inv _ _ (efd s) Hw2) as (w3 & -> & Hw3 & Em & Ef); [rewrite plus_eq; unfold none; lia|]. rewrite ret_bind.
    assert (Hl : length (ioeventfds (machine w3)) = length (ioeventfds (machine w))) by (rewrite Em; apply length_insert).
    destruct (IH w3) as (w' & E & Hw' & E1 & E2 & E3 & E4); [|by rewrite Hl|].
    { eapply winv_ext; [|exact Hw3]. intros m. apply plus_back. }
    exists w'. split; [done|]. split; [done|]. split; [rewrite E1, Ef; done|]. split; [congruence|].
    split; [rewrite E3, Em; done|]. intros j s' Hs' Hu'. destruct (E4 j s' Hs' Hu') as [H1 H2].
    rewrite Em in H1. simpl in H1. destruct (decide (j = i)) as [->|Hne].
    + rewrite list_lookup_insert_eq in H1 by done. by simplify_eq.
    + rewrite list_lookup_insert_ne in H1 by done. split; [done|]. by apply not_elem_of_cons.
  - destruct (IH w Hw Hidx) as (w' & E & Hw' & E1 & E2 & E3 & E4). exists w'. do 5 (split; [done|]).
    intros j s' Hs' Hu'. destruct (E4 j s' Hs' Hu') as [H1 H2]. split; [done|]. apply not_elem_of_cons.
    split; [|done]. intros ->. congruence.
Qed.

(** *** Descriptors *)

(** Closing a descriptor. *)
Definition close_fd (fd : nat) (w : world) : outcome world :=
  match fds w !! fd with
  | Some (Some n) =>
    let w := mk_world (machine w) (<[fd := None]> (fds w)) (efds w) in
    match efds w !! n with Some _ => asc_eventfd_put n w | None => Ret w end
  | _ => Ret w
  end.

Lemma close_ok w fd : winv none w -> exists w', close_fd fd w = Ret w' /\ winv none w'.
Proof.
  intros Hw. unfold close_fd. destruct (fds w !! fd) as [[n|]|] eqn:Hfd; [|by exists w|by exists w]. cbv zeta.
  set (w1 := mk_world _ _ _). change (efds w1) with (efds w).
  assert (Hc : forall m, countb (fd_holds m) (fds w1) = countb (fd_holds m) (fds w) - if m =? n then 1 else 0).
  { intros m. unfold w1. simpl. rewrite (count_insert _ _ _ _ _ Hfd). unfold fd_holds at 2 3.
    rewrite (bool_decide_eq_false_2 (None = Some m)) by done. simpl. destruct (m =? n) eqn:?; reify_bools.
    - subst. rewrite bool_decide_eq_true_2 by done. simpl. lia.
    - rewrite bool_decide_eq_false_2 by congruence. simpl. lia. }
  assert (Hw1 : winv (if efds w !! n then plus none n 1 else none) w1).
  { destruct Hw as [H1 H2 H3 H4 H5 H6 H7 H8 H9]. split; try done; try (simpl; by rewrite length_insert); simpl; intros m.
    - intros e He. change (held w1 m) with (held w m). change (<[fd:=None]> (fds w)) with (fds w1). rewrite Hc.
      destruct (H1 m e He). unfold plus. destruct (m =? n) eqn:?; reify_bools.
      + subst. rewrite He. rewrite Z.eqb_refl. lia.
      + destruct (efds w !! n); simpl; [destruct (m =? n) eqn:?; reify_bools; [done|]|]; lia.
    - intros He. change (held w1 m) with (held w m). specialize (H2 m He). unfold plus.
      destruct (efds w !! n) eqn:En; [|done]. destruct (m =? n) eqn:?; reify_bools; [congruence|done].
    - unfold plus, none. destruct (efds w !! n); [destruct (m =? n)|]; lia. }
  destruct (efds w !! n) as [e|] eqn:He; [|by exists w1].
  destruct (put_last w1 n tt Hw1) as (r & w' & E & Hw'). exists w'. split; [|done].
  destruct (asc_eventfd_put n w1); simplify_eq/=; done.
Qed.

Lemma eventfd2_ok w n fd initval flags : winv none w -> efds w !! n = None -> fds w !! fd = Some None ->
  countb (fd_holds n) (fds w) = 0 -> 0 <= initval < 2 ^ 64 -> winv none (sys_eventfd2 n fd initval flags w).
Proof.
  intros [H1 H2 H3 H4 H5 H6 H7 H8 H9] Hn Hfd H0 Hi.
  assert (Hc : forall m, countb (fd_holds m) (<[fd := Some n]> (fds w)) = countb (fd_holds m) (fds w) + if m =? n then 1 else 0).
  { intros m. rewrite (count_insert _ _ _ _ _ Hfd). unfold fd_holds at 2 3.
    rewrite (bool_decide_eq_false_2 (None = Some m)) by done. simpl. destruct (m =? n) eqn:?; reify_bools.
    - subst. rewrite bool_decide_eq_true_2 by done. simpl. lia.
    - rewrite bool_decide_eq_false_2 by congruence. simpl. lia. }
  split; try done; try (simpl; by rewrite length_insert); simpl; intros m.
  - intros e. change (held (sys_eventfd2 _ _ _ _ w) m) with (held w m). rewrite Hc.
    destruct (decide (m = n)) as [->|Hne].
    + rewrite lookup_insert_eq, Z.eqb_refl. intros [= <-]. simpl. specialize (H2 n Hn). lia.
    + rewrite lookup_insert_ne by done. intros He. destruct (H1 m e He).
      destruct (m =? n) eqn:?; reify_bools; [done|]. lia.
  - change (held (sys_eventfd2 _ _ _ _ w) m) with (held w m). destruct (decide (m = n)) as [->|Hne].
    + by rewrite lookup_insert_eq.
    + rewrite lookup_insert_ne by done. auto.
  - intros s Hs. destruct (H4 m s Hs) as [? Hu]. split; [done|]. intros Hu'. destruct (Hu Hu') as (n0 & e & ? & ? & ?).
    exists n0, e. rewrite lookup_insert_ne; [done|]. congruence.
  - intros e i. destruct (decide (m = n)) as [->|Hne]; [by rewrite lookup_insert_eq; intros [= <-]|].
    rewrite lookup_insert_ne by done. eauto.
  - intros e. destruct (decide (m = n)) as [->|Hne]; [by rewrite lookup_insert_eq; intros [= <-]|].
    rewrite lookup_insert_ne by done. eauto.
Qed.

(** ** Sequences of calls *)

Inductive call :=
| IrqfdAssign (fd g flags resamplefd : Z)
| IrqfdDeassign (fd g : Z)
| Ioeventfd (a : kvm_ioeventfd)
| GuestWrite (p : bool) (a len val : Z)
| SetRouting (e : list kvm_irq_routing_entry)
| Eventfd2 (n : Z) (fd : nat) (initval flags : Z)
| Write (fd : nat) (val : Z)
| Read (fd : nat)
| Close (fd : nat).

(** The arguments have the width the source gives them. *)
Definition call_ok (c : call) : Prop :=
  match c with
  | IrqfdAssign _ g _ _ => 0 <= g
  | SetRouting e => Forall words e
  | Eventfd2 _ _ initval _ => 0 <= initval < 2 ^ 64
  | _ => True
  end.

Definition on_fd (fd : nat) (f : Z -> outcome world) (w : world) : outcome world :=
  match fds w !! fd with
  | Some (Some n) => match efds w !! n with Some _ => f n | None => Ret w end
  | _ => Ret w
  end.

Definition run_call (c : call) (w : world) : outcome world :=
  match c with
  | IrqfdAssign fd g flags rfd => snd <$> avm_irqfd_assign fd g flags rfd w
  | IrqfdDeassign fd g => snd <$> avm_irqfd_deassign fd g w
  | Ioeventfd a => snd <$> avm_ioeventfd_ioctl a w
  | GuestWrite p a len val => snd <$> avm_ioeventfd_write p a len val w
  | SetRouting e =>
    match avm_irq_set_routing (machine w) e with Ret vm => Ret (set_machine vm w) | Err _ => Ret w | _ => Fault end
  | Eventfd2 n fd initval flags =>
    (* the allocator returns an address that nothing uses, in a free descriptor *)
    if bool_decide (efds w !! n = None) && bool_decide (fds w !! fd = Some None) && (countb (fd_holds n) (fds w) =? 0)
    then Ret (sys_eventfd2 n fd initval flags w) else Ret w
  | Write fd val => on_fd fd (fun n => snd <$> eventfd_write n val w) w
  | Read fd => on_fd fd (fun n => snd <$> eventfd_read n w) w
  | Close fd => close_fd fd w
  end.
Fixpoint runs (cs : list call) (w : world) : outcome world :=
  match cs with [] => Ret w | c :: cs => w ← run_call c w; runs cs w end.

(** Freeing the machine ([avm_vm_put] of avm_dev.c). *)
Definition teardown (w : world) : outcome world := w ← avm_ioeventfd_destroy w; avm_irqfd_destroy w.

Lemma safe_snd {A} (m : outcome (A * world)) : safe m -> exists w', snd <$> m = Ret w' /\ winv none w'.
Proof. intros (r & w' & -> & Hw'). by exists w'. Qed.

Lemma run_ok c w : winv none w -> call_ok c -> exists w', run_call c w = Ret w' /\ winv none w'.
Proof.
  intros Hw Hc. destruct c as [fd g flags rfd|fd g|a|p a len val|e|n fd i f|fd v|fd|fd]; cbn [run_call].
  - by apply safe_snd, irqfd_assign_ok.
  - by apply safe_snd, irqfd_deassign_ok.
  - apply safe_snd. unfold avm_ioeventfd_ioctl. assert (Hr : forall e, safe (Ret (e, w) : outcome (Z * world))) by (intros e; by exists e, w).
    cbv zeta. repeat (destruct (nz (Z.land (k_flags a) _)) || destruct (if a_datamatch a then _ else _) || destruct (_ && _); try apply Hr);
      auto using ioeventfd_assign_ok, ioeventfd_deassign_ok.
  - by apply safe_snd, ioeventfd_write_ok.
  - pose proof (set_routing_inv (machine w) e (wi_route _ _ Hw) Hc) as Hs.
    destruct (avm_irq_set_routing (machine w) e); [|by exists w|done|done]. destruct Hs as (Hi & _ & ->).
    eexists. split; [done|]. by apply winv_machine.
  - destruct (_ && _) eqn:Hg; [|by exists w]. apply andb_true_iff in Hg as [Hg H3]. apply andb_true_iff in Hg as [H1 H2].
    apply bool_decide_eq_true_1 in H1, H2. reify_bools. eexists. split; [done|]. by apply eventfd2_ok.
  - unfold on_fd. destruct (fds w !! fd) as [[n|]|]; [|by exists w|by exists w].
    destruct (efds w !! n) eqn:He; [|by exists w]. by apply safe_snd, eventfd_write_ok.
  - unfold on_fd. destruct (fds w !! fd) as [[n|]|]; [|by exists w|by exists w].
    destruct (efds w !! n) eqn:He; [|by exists w]. by apply safe_snd, eventfd_read_ok.
  - by apply close_ok.
Qed.

Lemma runs_ok cs : forall w, winv none w -> Forall call_ok cs -> exists w', runs cs w = Ret w' /\ winv none w'.
Proof.
  induction cs as [|c cs IH]; intros w Hw Hcs; cbn [runs]; [by exists w|].
  apply Forall_cons_1 in Hcs as [Hc Hcs]. destruct (run_ok c w Hw Hc) as (w1 & -> & Hw1). rewrite ret_bind. by apply IH.
Qed.

(** A new machine: no entry is used, no eventfd exists. *)
Definition fresh_world (vm : avm_vm) (nfds : nat) : world := mk_world vm (replicate nfds None) ∅.
Record fresh_machine (vm : avm_vm) : Prop := {
  fm_route : route_inv vm;
  fm_irqfds : irqfds vm = replicate AVM_MAX_IRQFDS (mk_irqfd false 0 None);
  fm_ioeventfds : length (ioeventfds vm) = AVM_MAX_IOEVENTFDS /\ Forall (fun s => used s = false) (ioeventfds vm) }.

Lemma fresh_inv vm nfds : fresh_machine vm -> winv none (fresh_world vm nfds).
Proof.
  intros [Hr Hq [Hl Hu]]. split; try done; simpl.
  - intros n _. unfold held. simpl. rewrite !count_none; [done| |].
    + intros s Hs. unfold ioeventfd_holds. rewrite Stdlib.Lists.List.Forall_forall in Hu.
      by rewrite (Hu s) by (by apply list_elem_of_In).
    + intros s Hs. rewrite Hq in Hs. by apply elem_of_replicate in Hs as [-> _].
  - intros i s Hs. rewrite Hq in Hs. apply lookup_replicate in Hs as [-> _]. done.
  - by rewrite Hq.
Qed.

(** C39: references to eventfds are exact. Whatever sequence of irqfd and
    ioeventfd requests, guest writes, routing changes, eventfd creations, reads,
    writes and closes runs on a new machine, no call touches an eventfd that is
    freed, and every eventfd has exactly one reference per descriptor, per irqfd
    and per ioeventfd that names it, with the hook of exactly the irqfd that is
    registered on it. Freeing the machine leaves the descriptors' references only,
    and no hook. *)
Theorem eventfd_references vm nfds cs : fresh_machine vm -> Forall call_ok cs ->
  exists w, runs cs (fresh_world vm nfds) = Ret w /\ winv none w /\
    exists w', teardown w = Ret w' /\ fds w' = fds w /\
      forall n e, efds w' !! n = Some e ->
        refs e = countb (fd_holds n) (fds w) /\ 1 <= refs e /\ notify e = None.
Proof.
  intros Hf Hcs. destruct (runs_ok cs _ (fresh_inv vm nfds Hf) Hcs) as (w & E & Hw).
  exists w. split; [done|]. split; [done|]. unfold teardown, avm_ioeventfd_destroy, avm_irqfd_destroy.
  destruct (ioeventfd_destroy_ok (seq 0 AVM_MAX_IOEVENTFDS) w Hw) as (w1 & -> & Hw1 & F1 & L1 & _ & U1).
  { rewrite (wi_ioeventfds _ _ Hw). apply Forall_forall. intros i Hi%in_seq. lia. }
  rewrite ret_bind.
  destruct (irqfd_destroy_ok (seq 0 AVM_MAX_IRQFDS) w1 Hw1) as (w2 & -> & Hw2 & F2 & L2 & E2 & U2).
  { rewrite (wi_irqfds _ _ Hw1). apply Forall_forall. intros i Hi%in_seq. lia. }
  exists w2. split; [done|]. split; [congruence|]. intros n e He. destruct (wi_some _ _ Hw2 n e He) as [Hr H1].
  assert (Hq : forall i s, irqfds (machine w2) !! i = Some s -> if_used s = false).
  { intros i s Hs. destruct (if_used s) eqn:Hu; [|done]. exfalso. apply (proj2 (U2 i s Hs Hu)), list_elem_of_In, in_seq.
    apply lookup_lt_Some in Hs. rewrite (wi_irqfds _ _ Hw2) in Hs. lia. }
  assert (Hio : forall i s, ioeventfds (machine w2) !! i = Some s -> used s = false).
  { intros i s Hs. rewrite E2 in Hs. destruct (used s) eqn:Hu; [|done]. exfalso.
    apply (proj2 (U1 i s Hs Hu)), list_elem_of_In, in_seq.
    apply lookup_lt_Some in Hs. rewrite (wi_ioeventfds _ _ Hw1) in Hs. lia. }
  split; [|split; [done|]].
  - unfold held in Hr.
    rewrite (count_none (ioeventfd_holds n)), (count_none (irqfd_holds n)), F2, F1 in Hr; [unfold none in Hr; lia| |].
    + intros s Hs. apply list_elem_of_lookup in Hs as [i Hs]. unfold irqfd_holds. by rewrite (Hq i s Hs).
    + intros s Hs. apply list_elem_of_lookup in Hs as [i Hs]. unfold ioeventfd_holds. by rewrite (Hio i s Hs).
  - destruct (notify e) as [i|] eqn:Hn; [|done]. destruct (wi_notify _ _ Hw2 n e i He Hn) as (s & Hs & Hu & _).
    rewrite (Hq i s Hs) in Hu. done.
Qed.

(** an irqfd delivers its interrupt. A write of [val] to an eventfd whose
    hook is an irqfd with a GSI that is routed to one fixed MSI returns 8, adds
    [val] to the counter, raises exactly the vector of the MSI in exactly the
    virtual CPUs that its address names, and kicks every virtual CPU that is in
    the guest. *)
Theorem irqfd_delivery w n e i s r val : winv none w -> efds w !! n = Some e -> notify e = Some i ->
  irqfds (machine w) !! i = Some s ->
  List.filter (fun r => gsi r =? if_gsi s) (routes (machine w)) = [r] -> r_type r = 2 ->
  Z.land (Z.shiftr (u2 r) 8) 7 = 0 -> 0 <= val -> counter e + val < UINT64_MAX ->
  exists w', eventfd_write n val w = Ret (8, w') /\ winv none w' /\
    efds w' !! n = Some (set_counter (counter e + val) e) /\
    vcpus (machine w') =
      raise_in (u8 (Z.shiftr (msi_addr (u0 r) (u1 r)) 12)) (u8 (u2 r)) (vcpus (machine w)) /\
    nmis (machine w') = rev (kicks_of (vcpus (machine w))) ++ nmis (machine w).
Proof.
  intros Hw He Hn Hs Hf Ht Hd H0 Hv. pose proof (wi_counter _ _ Hw n e He) as Hc.
  pose proof (wi_route _ _ Hw) as Hr. destruct (wi_notify _ _ Hw n e i He Hn) as (s0 & Hs0 & Hu & _). simplify_eq.
  assert (HU : UINT64_MAX = 2 ^ 64 - 1) by reflexivity.
  assert (D : forall vm, route_inv vm -> routes vm = routes (machine w) -> forall level,
    gsi_locked vm (if_gsi s) level = Ret (if level
    then set_vcpus (raise_in (u8 (Z.shiftr (msi_addr (u0 r) (u1 r)) 12)) (u8 (u2 r)) (vcpus vm)) vm else vm)).
  { intros vm Hi Er level. apply gsi_msi; try done. by rewrite Er. }
  set (vm1 := set_vcpus (raise_in (u8 (Z.shiftr (msi_addr (u0 r) (u1 r)) 12)) (u8 (u2 r)) (vcpus (machine w))) (machine w)).
  assert (Hr1 : route_inv vm1).
  { eapply drives_inv; [exact Hr|]. split; [by destruct (machine w)|apply raise_in_lapic_only|apply Hr]. }
  set (w1 := set_machine (kicked (kicks_of (vcpus vm1)) vm1) (set_efds (<[n:=set_counter (counter e + val) e]> (efds w)) w)).
  assert (E : eventfd_write n val w = Ret (8, w1)).
  { unfold eventfd_write. rewrite He. cbn [deref]. rewrite ret_bind.
    destruct (val =? UINT64_MAX) eqn:?; reify_bools; [lia|]. rewrite u64_id by lia.
    destruct (0xfffffffffffffffe - counter e <? val) eqn:?; reify_bools; [lia|]. rewrite u64_id by lia.
    cbv zeta. change (notify (set_counter _ e)) with (notify e). rewrite Hn.
    unfold run_notify, irqfd_fire. simpl (machine _). rewrite Hs. cbn [deref]. rewrite ret_bind, Hu.
    rewrite D, ret_bind by done. fold vm1. rewrite D, ret_bind, kick_all_spec by (done || apply Hr1). done. }
  destruct (eventfd_write_ok none w n val Hw ltac:(eauto)) as (r0 & w' & E' & Hw'). rewrite E in E'. injection E' as <- <-.
  exists w1. split; [exact E|]. split; [exact Hw'|]. split; [apply lookup_insert_eq|]. split; [done|].
  simpl. f_equal. f_equal. unfold kicks_of, raise_in, map_vcpus. rewrite flat_map_concat_map, map_map, flat_map_concat_map.
  f_equal. apply map_ext. intros [c|]; [|done]. by destruct (addressed _ c).
Qed.

(** *** Observations *)

(** A machine with empty tables, and a process with four descriptors. *)
Definition new_vm : avm_vm :=
  set_irqfds (replicate AVM_MAX_IRQFDS (mk_irqfd false 0 None))
    (set_ioeventfds (replicate AVM_MAX_IOEVENTFDS (mk_ioeventfd false false false 0 0 0 0)) smp_vm).
Definition new_world : world := fresh_world new_vm 4.

(** [asc_eventfd_signal] saturates the counter at the maximum, and [eventfd2]
    accepts that value; the overflow test of [eventfd_write] then wraps around,
    and a write of 1 clears the counter: the event is lost. *)
Example saturated_write_wraps :
  (w ← run_call (Eventfd2 7 0 UINT64_MAX 0) new_world; w ← run_call (Write 0 1) w;
   Ret (counter <$> efds w !! 7)) = Ret (Some 0).
Proof. vm_compute. reflexivity. Qed.

(** The entry of an irqfd is visible before its hook is installed. A deassign in
    between gives back the reference that the assign still uses: when the
    descriptor is closed too, the hook is installed in a freed eventfd. *)
Example irqfd_assign_race :
  (w ← run_call (Eventfd2 7 0 0 0) new_world;
   '(r, w) ← irqfd_reserve 0 5 0 0 w;
   w ← run_call (IrqfdDeassign 0 5) w;
   w ← run_call (Close 0) w;
   match r with inr (node, i) => snd <$> irqfd_install node i w | inl _ => Ret w end) = Fault.
Proof. vm_compute. reflexivity. Qed.

(** *** Witnesses *)

Lemma new_vm_fresh : fresh_machine new_vm.
Proof. split; [exact smp_route_inv|done|]. split; [done|]. by apply Forall_replicate. Qed.

(** An eventfd that is the doorbell at 0xD000 and the interrupt of GSI 40. *)
Definition device_calls : list call :=
  [Eventfd2 7 0 0 0; Ioeventfd (mk_kvm_ioeventfd 0 0xD000 4 0 0); IrqfdAssign 0 40 0 0].

Lemma eventfd_references_witness :
  exists w w', runs (device_calls ++ [GuestWrite false 0xD000 4 1; IrqfdDeassign 0 40; Close 0]) new_world = Ret w /\
    efds w !! 7 = Some (mk_eventfd 1 1 0 None) /\ teardown w = Ret w' /\ efds w' = ∅.
Proof.
  destruct (eventfd_references new_vm 4 (device_calls ++ [GuestWrite false 0xD000 4 1; IrqfdDeassign 0 40; Close 0])
              new_vm_fresh ltac:(repeat constructor; simpl; lia)) as (w & E & _ & w' & E' & _).
  exists w, w'. split; [exact E|]. vm_compute in E. injection E as <-. split; [reflexivity|].
  split; [exact E'|]. vm_compute in E'. injection E' as <-. vm_compute. reflexivity.
Defined.

Definition device_world : world := match runs device_calls new_world with Ret w => w | _ => new_world end.

Lemma device_inv : winv none device_world.
Proof.
  destruct (runs_ok device_calls new_world (fresh_inv new_vm 4 new_vm_fresh)) as (w & E & Hw).
  { repeat constructor; simpl; lia. }
  unfold device_world. by rewrite E.
Qed.

Lemma irqfd_delivery_witness :
  exists w', eventfd_write 7 3 device_world = Ret (8, w') /\
    vcpus (machine w') = raise_in 1 0x55 (vcpus (machine device_world)) /\ nmis (machine w') = [3%nat].
Proof.
  destruct (irqfd_delivery device_world 7 (mk_eventfd 3 0 0 (Some 0%nat)) 0 (mk_irqfd true 40 (Some 7))
              (mk_route 40 2 0 0xFEE01000 0 0x55) 3 device_inv ltac:(vm_compute; reflexivity) eq_refl
              ltac:(vm_compute; reflexivity) ltac:(vm_compute; reflexivity) eq_refl ltac:(vm_compute; reflexivity)
              ltac:(lia) ltac:(vm_compute; reflexivity)) as (w' & E & _ & _ & V & N).
  exists w'. split; [exact E|]. split; [exact V|]. rewrite N. vm_compute. reflexivity.
Defined.

End AvmEventfd.
