(* ===== verification/AvmMmio.v ===== *)
(** AvmMmio: emulation of guest memory accesses that are not RAM
    ([kernel/src/avm/avm_mmio.c], the whole file).

    Guest memory is reached through the slots of the machine; [mem] is the host
    memory behind them, and an access outside it is a fault. The 16 bytes of code
    that [decode] reads are a list: reading past them is a fault. The time that
    the local APIC reads is an argument. *)

From S2P Require Import Prelude AvmLapic AvmVm AvmIoapic AvmIrq AvmRoute AvmEventfd.

Module AvmMmio.
Import AvmLapic AvmVm AvmIoapic AvmIrq AvmRoute AvmEventfd.

Definition APIC_BASE_GPA : Z := 0xFEE00000.
Definition MMIO_WINDOW : Z := 0x1000.
Definition KVM_EXIT_MMIO : Z := 6.
Definition AVM_MMIO_HANDLED : Z := 1.
Definition AVM_MMIO_TO_VMM : Z := 0.
Definition AVM_MMIO_ERROR : Z := -1.

Definition REG_AX : Z := 0.
Definition REG_CX : Z := 1.
Definition REG_BX : Z := 3.
Definition REG_SP : Z := 4.
Definition REG_BP : Z := 5.
Definition REG_SI : Z := 6.
Definition REG_DI : Z := 7.

Record avm_insn := mk_insn {
  i_len : Z; i_size : Z; i_write : bool; i_reg8 : bool; store_imm : bool; i_reg : Z; i_gpa : Z; i_imm : Z;
  i_str : bool; i_rep : bool; movs : bool; lods : bool; i_dst : Z; i_src : Z; i_step : Z; i_mask : Z }.

(** ** Guest memory *)

(** [memcpy] from and to host memory. *)
Fixpoint mem_read (m : gmap Z Z) (a : Z) (n : nat) : outcome (list Z) :=
  match n with
  | O => Ret []
  | S n => b ← deref (m !! a); bs ← mem_read m (a + 1) n; Ret (b :: bs)
  end.
Fixpoint mem_write (m : gmap Z Z) (a : Z) (bs : list Z) : outcome (gmap Z Z) :=
  match bs with
  | [] => Ret m
  | b :: bs => _ ← deref (m !! a); mem_write (<[a := b]> m) (a + 1) bs
  end.

(** The slot that the scan takes for a range. *)
Definition slot_hit (write : bool) (gpa len : Z) (s : avm_slot) : bool :=
  negb (negb (s_used s) || (write && readonly s) || (gpa <? s_gpa s) || (u64 (s_gpa s + s_size s) <? u64 (gpa + len))).

Definition avm_mmio_guest_read (vm : avm_vm) (gpa len : Z) : outcome (list Z) :=
  match list_find (fun s => slot_hit false gpa len s = true) (slots vm) with
  | None => Err (-1)
  | Some (_, s) => mem_read (mem vm) (s_hva s + (gpa - s_gpa s)) (Z.to_nat len)
  end.

Definition avm_mmio_guest_write (vm : avm_vm) (gpa : Z) (bs : list Z) : outcome avm_vm :=
  match list_find (fun s => slot_hit true gpa (Z.of_nat (length bs)) s = true) (slots vm) with
  | None => Err (-1)
  | Some (_, s) => m ← mem_write (mem vm) (s_hva s + (gpa - s_gpa s)) bs; Ret (set_mem m vm)
  end.

(** ** Registers *)

Definition gpr_get (c : avm_vcpu) (idx : Z) : Z := nth (Z.to_nat idx) (gpr (regs c)) 0.
Definition gpr_set (c : avm_vcpu) (idx v : Z) : avm_vcpu :=
  set_regs (mk_regs (<[Z.to_nat idx := v]> (gpr (regs c))) (rip (regs c)) (rflags (regs c))) c.
Definition set_rip (v : Z) (c : avm_vcpu) : avm_vcpu := set_regs (mk_regs (gpr (regs c)) v (rflags (regs c))) c.

Definition reg_value (c : avm_vcpu) (idx : Z) (reg8 : bool) : Z :=
  if negb reg8 then gpr_get c idx
  else if idx <? 4 then Z.land (gpr_get c idx) 0xFF
  else Z.land (Z.shiftr (gpr_get c (idx - 4)) 8) 0xFF.

Definition reg_set (c : avm_vcpu) (idx : Z) (reg8 : bool) (size value : Z) : avm_vcpu :=
  if reg8 then
    if idx <? 4
    then gpr_set c idx (Z.lor (Z.land (gpr_get c idx) (UINT64_MAX - 0xFF)) (Z.land value 0xFF))
    else gpr_set c (idx - 4)
           (Z.lor (Z.land (gpr_get c (idx - 4)) (UINT64_MAX - 0xFF00)) (Z.shiftl (Z.land value 0xFF) 8))
  else if size =? 2 then gpr_set c idx (Z.lor (Z.land (gpr_get c idx) (UINT64_MAX - 0xFFFF)) (Z.land value 0xFFFF))
  else if size =? 4 then gpr_set c idx (Z.land value 0xFFFFFFFF)
  else gpr_set c idx value.

Definition size_mask (size : Z) : Z := if size =? 1 then 0xFF else if size =? 2 then 0xFFFF else 0xFFFFFFFF.

(** ** The decoder *)

Definition code_at (code : list Z) (p : Z) : outcome Z := arr_get code p.

(** [n] bytes from [p], little endian. *)
Fixpoint code_le (code : list Z) (p : Z) (n : nat) : outcome Z :=
  match n with
  | O => Ret 0
  | S n => b ← code_at code p; r ← code_le code (p + 1) n; Ret (Z.lor b (Z.shiftl r 8))
  end.
(** [(uint64_t)(int64_t)(int8_t)b] *)
Definition sext8 (b : Z) : Z := if b <? 128 then b else u64 (b - 256).

(** The effective address and the position after it. *)
Definition ea16 (c : avm_vcpu) (mod_ rm : Z) (code : list Z) (p : Z) : outcome (Z * Z) :=
  let r := gpr_get c in
  let '(base, index) :=
    if rm =? 0 then (r REG_BX, r REG_SI)
    else if rm =? 1 then (r REG_BX, r REG_DI)
    else if rm =? 2 then (r REG_BP, r REG_SI)
    else if rm =? 3 then (r REG_BP, r REG_DI)
    else if rm =? 4 then (r REG_SI, 0)
    else if rm =? 5 then (r REG_DI, 0)
    else if rm =? 6 then (if mod_ =? 0 then 0 else r REG_BP, 0)
    else (r REG_BX, 0) in
  '(disp, p) ←
    (if (mod_ =? 0) && (rm =? 6) then d ← code_le code p 2; Ret (d, p + 2)
     else if mod_ =? 1 then d ← code_at code p; Ret (sext8 d, p + 1)
     else if mod_ =? 2 then d ← code_le code p 2; Ret (d, p + 2)
     else Ret (0, p));
  Ret (Z.land (u64 (base + index + disp)) 0xFFFF, p).

Definition ea32 (c : avm_vcpu) (mod_ rm : Z) (code : list Z) (p : Z) : outcome (Z * Z) :=
  let r := gpr_get c in
  '(base, index, disp32_only, p) ←
    (if rm =? 4 then
       sib ← code_at code p;
       let p := p + 1 in
       let scale := Z.shiftr sib 6 in
       let idx := Z.land (Z.shiftr sib 3) 7 in
       let b := Z.land sib 7 in
       let index := if negb (idx =? REG_SP) then u64 (Z.shiftl (r idx) scale) else 0 in
       if (b =? 5) && (mod_ =? 0) then Ret (0, index, true, p) else Ret (r b, index, false, p)
     else if (rm =? 5) && (mod_ =? 0) then Ret (0, 0, true, p)
     else Ret (r rm, 0, false, p));
  '(disp, p) ←
    (if (disp32_only : bool) || (mod_ =? 2) then d ← code_le code p 4; Ret (d, p + 4)
     else if mod_ =? 1 then d ← code_at code p; Ret (sext8 d, p + 1)
     else Ret (0, p));
  Ret (Z.land (u64 (base + index + disp)) 0xFFFFFFFF, p).

Definition decode_string (c : avm_vcpu) (op : Z) (rep opsz16 addr16 : bool) (src_base es_base len : Z) : avm_insn :=
  let byte_op := (op =? 0xA4) || (op =? 0xAA) || (op =? 0xAC) in
  let size := if byte_op then 1 else if opsz16 then 2 else 4 in
  let df := nz (Z.land (v_rflags (vmcb c)) (bit 10)) in
  let lods := (op =? 0xAC) || (op =? 0xAD) in
  let mask := if addr16 then 0xFFFF else 0xFFFFFFFF in
  mk_insn len size (negb lods) byte_op false REG_AX 0 0 true rep ((op =? 0xA4) || (op =? 0xA5)) lods
    (u64 (es_base + Z.land (gpr_get c REG_DI) mask)) (u64 (src_base + Z.land (gpr_get c REG_SI) mask))
    (if df then u64 (0 - size) else size) mask.

(** The state of the loop over the prefixes. *)
Record prefixes := mk_prefixes { opsz16 : bool; addr16 : bool; seg : Z; rep : bool; pos : Z }.

(** What a prefix byte does; [None] when the byte is not a prefix. *)
Definition prefix_step (v : avm_vmcb) (b : Z) (s : prefixes) : option prefixes :=
  let next_seg x := Some (mk_prefixes (opsz16 s) (addr16 s) x (rep s) (pos s + 1)) in
  if b =? 0x66 then Some (mk_prefixes (negb (opsz16 s)) (addr16 s) (seg s) (rep s) (pos s + 1))
  else if b =? 0x67 then Some (mk_prefixes (opsz16 s) (negb (addr16 s)) (seg s) (rep s) (pos s + 1))
  else if (b =? 0xF2) || (b =? 0xF3) then Some (mk_prefixes (opsz16 s) (addr16 s) (seg s) true (pos s + 1))
  else if b =? 0x26 then next_seg (v_es v)
  else if b =? 0x2E then next_seg (v_cs v)
  else if b =? 0x36 then next_seg (v_ss v)
  else if b =? 0x3E then next_seg (v_ds v)
  else if b =? 0x64 then next_seg (v_fs v)
  else if b =? 0x65 then next_seg (v_gs v)
  else None.

(** The loop; every turn moves one byte on, so 17 turns leave the buffer. *)
Fixpoint prefix_loop (v : avm_vmcb) (code : list Z) (fuel : nat) (s : prefixes) : outcome prefixes :=
  match fuel with
  | O => OutOfFuel
  | S fuel =>
    b ← code_at code (pos s);
    match prefix_step v b s with Some s => prefix_loop v code fuel s | None => Ret s end
  end.

Definition is_string_op (op : Z) : bool :=
  (op =? 0xA4) || (op =? 0xA5) || (op =? 0xAA) || (op =? 0xAB) || (op =? 0xAC) || (op =? 0xAD).

(** [true] for a store, [false] for a load, [None] for other opcodes. *)
Definition mov_write (op : Z) : option bool :=
  if (op =? 0x88) || (op =? 0x89) || (op =? 0xC6) || (op =? 0xC7) || (op =? 0xA2) || (op =? 0xA3) then Some true
  else if (op =? 0x8A) || (op =? 0x8B) || (op =? 0xA0) || (op =? 0xA1) then Some false
  else None.

(** The memory operand of a MOV: the register field and the address, or [Err]
    when [decode] returns false. *)
Definition mov_operand (c : avm_vcpu) (op : Z) (addr16 : bool) (seg : Z) (code : list Z) (p : Z)
    : outcome (Z * Z * Z) :=
  if (op =? 0xA0) || (op =? 0xA1) || (op =? 0xA2) || (op =? 0xA3) then
    let n := if addr16 then 2%nat else 4%nat in
    disp ← code_le code p n;
    Ret (REG_AX, u64 (seg + disp), p + Z.of_nat n)
  else
    modrm ← code_at code p;
    let p := p + 1 in
    let mod_ := Z.shiftr modrm 6 in
    let regf := Z.land (Z.shiftr modrm 3) 7 in
    let rm := Z.land modrm 7 in
    let imm := (op =? 0xC6) || (op =? 0xC7) in
    if imm && negb (regf =? 0) then Err 0
    else if mod_ =? 3 then Err 0
    else
      '(ea, p) ← (if addr16 then ea16 c mod_ rm code p else ea32 c mod_ rm code p);
      Ret (if imm then REG_AX else regf, u64 (seg + ea), p).

(** [Err] is the result false of [decode]. *)
Definition decode (vm : avm_vm) (c : avm_vcpu) : outcome avm_insn :=
  let v := vmcb c in
  let cs_d := nz (Z.land (Z.shiftr (v_cs_attrib v) 10) 1) in
  code ← avm_mmio_guest_read vm (u64 (v_cs v + rip (regs c))) 16;
  s ← prefix_loop v code 17 (mk_prefixes (negb cs_d) (negb cs_d) (v_ds v) false 0);
  op ← code_at code (pos s);
  let p := pos s + 1 in
  if is_string_op op then Ret (decode_string c op (rep s) (opsz16 s) (addr16 s) (seg s) (v_es v) (u8 p))
  else
    let byte_op := (op =? 0x88) || (op =? 0x8A) || (op =? 0xC6) || (op =? 0xA0) || (op =? 0xA2) in
    let size := if byte_op then 1 else if opsz16 s then 2 else 4 in
    match mov_write op with
    | None => Err 0
    | Some write =>
      '(reg, gpa, p) ← mov_operand c op (addr16 s) (seg s) code p;
      '(imm, p) ←
        (if op =? 0xC6 then b ← code_at code p; Ret (b, p + 1)
         else if op =? 0xC7 then
           let n := if size =? 2 then 2%nat else 4%nat in
           i ← code_le code p n; Ret (i, p + Z.of_nat n)
         else Ret (0, p));
      Ret (mk_insn (u8 p) size write (byte_op && negb (op =? 0xC6)) ((op =? 0xC6) || (op =? 0xC7)) reg gpa imm
             false false false false 0 0 0 0)
    end.

(** ** The access *)

Definition avm_step_done (c : avm_vcpu) : avm_vcpu := if singlestep c then set_step_exit true c else c.

(** [vcpu->regs.rip += len; avm_step_done(vcpu);] *)
Definition advance (len : Z) (c : avm_vcpu) : avm_vcpu := avm_step_done (set_rip (u64 (rip (regs c) + len)) c).

(** The value that a store writes; [Err] when the access is refused. *)
Definition store_value (vm : avm_vm) (c : avm_vcpu) (i : avm_insn) (gpa : Z) : outcome Z :=
  if movs i then
    if negb (gpa =? i_dst i) then Err 0
    else bs ← avm_mmio_guest_read vm (i_src i) (i_size i); Ret (le_at bs 0 (length bs))
  else if i_write i then
    Ret (Z.land (if store_imm i then i_imm i else reg_value c (i_reg i) (i_reg8 i)) (size_mask (i_size i)))
  else Ret 0.

(** An access to the page of the local APIC or of the I/O APIC. *)
Definition apic_access (now : Z) (vm : avm_vm) (k : nat) (i : avm_insn) (apic : bool) (off value : Z) : outcome avm_vm :=
  c ← get_vcpu k vm;
  if i_write i then
    if apic && (off =? 0x310) then Ret (set_vcpu k (set_icr_high (u32 value) c) vm)
    else if apic && (off =? 0x300) then avm_smp_write_icr vm k (Z.shiftr (icr_high c) 24) (u32 value)
    else if apic then
      match avm_lapic_mmio_write (irqchip vm) now (lapic c) off (u32 value) with
      | Ret l => Ret (set_vcpu k (set_lapic l c) vm)
      | Err _ => Ret vm
      | Fault => Fault
      | OutOfFuel => OutOfFuel
      end
    else io ← avm_ioapic_mmio_write (ioapic vm) off (u32 value); Ret (set_ioapic io vm)
  else
    v ← (if apic then
           match avm_lapic_mmio_read (irqchip vm) (vid c) now (lapic c) off with Err _ => Ret 0 | r => r end
         else avm_ioapic_mmio_read (ioapic vm) off);
    Ret (set_vcpu k (reg_set c (i_reg i) (i_reg8 i) (i_size i) (Z.land v (size_mask (i_size i)))) vm).

Definition in_window (base gpa : Z) : bool := (base <=? gpa) && (gpa <? base + MMIO_WINDOW).

(** The request to the VMM and what is kept until it answers. *)
Definition to_vmm (i : avm_insn) (gpa value : Z) (c : avm_vcpu) : avm_vcpu :=
  let bytes := if i_write i then le_bytes (Z.to_nat (i_size i)) value else [] in
  let c := set_run (mk_run KVM_EXIT_MMIO gpa (bytes ++ replicate (8 - length bytes) 0) (i_size i) (i_write i)) c in
  set_mmio (mk_mmio true (negb (i_write i)) (i_reg8 i) (i_size i) (i_reg i) (i_len i) (i_str i) (i_rep i)
              (lods i || movs i) (i_str i && negb (lods i)) (i_step i) (i_mask i)) (avm_step_done c).

Definition avm_mmio_fault (now : Z) (k : nat) (gpa : Z) (w : world) : outcome (Z * world) :=
  c ← get_vcpu k (machine w);
  match decode (machine w) c with
  | Err _ => Ret (AVM_MMIO_ERROR, w)
  | Fault => Fault
  | OutOfFuel => OutOfFuel
  | Ret i =>
    match store_value (machine w) c i gpa with
    | Err _ => Ret (AVM_MMIO_ERROR, w)
    | Fault => Fault
    | OutOfFuel => OutOfFuel
    | Ret value =>
      let apic := irqchip (machine w) && in_window APIC_BASE_GPA gpa in
      let ioapic := irqchip (machine w) && in_window IOAPIC_BASE_GPA gpa in
      if i_str i && (apic || ioapic) then Ret (AVM_MMIO_ERROR, w)
      else if apic || ioapic then
        vm ← apic_access now (machine w) k i apic (u32 (Z.land gpa (MMIO_WINDOW - 1))) value;
        c ← get_vcpu k vm;
        Ret (AVM_MMIO_HANDLED, set_machine (set_vcpu k (advance (i_len i) c) vm) w)
      else
        '(hit, w) ← (if negb (i_str i) && i_write i then avm_ioeventfd_write false gpa (i_size i) value w
                     else Ret (false, w));
        c ← get_vcpu k (machine w);
        if (hit : bool) then
          Ret (AVM_MMIO_HANDLED, set_machine (set_vcpu k (advance (i_len i) c) (machine w)) w)
        else
          Ret (AVM_MMIO_TO_VMM, set_machine (set_vcpu k (to_vmm i gpa value c) (machine w)) w)
    end
  end.

(** [avm_set_addr_reg] *)
Definition addr_reg (mask value reg : Z) : Z :=
  Z.lor (if mask =? 0xFFFF then Z.land reg (UINT64_MAX - mask) else 0) (Z.land value mask).
Definition avm_set_addr_reg (idx mask value : Z) (c : avm_vcpu) : avm_vcpu :=
  gpr_set c idx (addr_reg mask value (gpr_get c idx)).

Definition avm_mmio_complete (c : avm_vcpu) : avm_vcpu :=
  let m := mmio c in
  if negb (mmio_pending m) then c
  else
    let c := if mmio_read m
             then reg_set c (mmio_reg m) (mmio_reg8 m) (mmio_size m) (le_at (data (run c)) 0 (Z.to_nat (mmio_size m)))
             else c in
    let c := set_mmio (mk_mmio false (mmio_read m) (mmio_reg8 m) (mmio_size m) (mmio_reg m) (mmio_insn_len m)
                         (mmio_str m) (mmio_str_rep m) (mmio_str_si m) (mmio_str_di m) (mmio_str_step m)
                         (mmio_str_mask m)) c in
    let done c := set_rip (u64 (rip (regs c) + mmio_insn_len m)) c in
    if negb (mmio_str m) then done c
    else
      let mask := mmio_str_mask m in
      let step idx c := avm_set_addr_reg idx mask (u64 (gpr_get c idx + mmio_str_step m)) c in
      let c := if mmio_str_si m then step REG_SI c else c in
      let c := if mmio_str_di m then step REG_DI c else c in
      if mmio_str_rep m then
        let c := avm_set_addr_reg REG_CX mask (u64 (Z.land (gpr_get c REG_CX) mask - 1)) c in
        if negb (Z.land (gpr_get c REG_CX) mask =? 0) then c else done c
      else done c.

(** ** Properties of register operands *)

Definition wf_gprs (c : avm_vcpu) : Prop :=
  length (gpr (regs c)) = 16%nat /\ Forall (fun v => 0 <= v < 2 ^ 64) (gpr (regs c)).

Lemma gpr_get_range c idx : wf_gprs c -> 0 <= gpr_get c idx < 2 ^ 64.
Proof.
  intros [_ H]. unfold gpr_get. destruct (nth_in_or_default (Z.to_nat idx) (gpr (regs c)) 0) as [Hin| ->]; [|lia].
  rewrite Stdlib.Lists.List.Forall_forall in H. by apply H.
Qed.
Lemma gpr_get_set c idx j v : wf_gprs c -> 0 <= idx < 16 -> 0 <= j ->
  gpr_get (gpr_set c idx v) j = if j =? idx then v else gpr_get c j.
Proof.
  intros [Hl _] Hi Hj. unfold gpr_get, gpr_set. simpl.
  destruct (j =? idx) eqn:?; reify_bools.
  - subst. apply nth_lookup_Some, list_lookup_insert_eq. lia.
  - rewrite !nth_lookup, list_lookup_insert_ne by lia. done.
Qed.
Lemma wf_gpr_set c idx v : wf_gprs c -> 0 <= v < 2 ^ 64 -> wf_gprs (gpr_set c idx v).
Proof. intros [Hl H] Hv. split; simpl; [by rewrite length_insert|by apply Forall_insert]. Qed.

(** The register, the first bit and the width of an operand. *)
Definition op_reg (idx : Z) (reg8 : bool) : Z := if reg8 then if idx <? 4 then idx else idx - 4 else idx.
Definition op_low (idx : Z) (reg8 : bool) : Z := if reg8 then if idx <? 4 then 0 else 8 else 0.
Definition op_size (reg8 : bool) (size : Z) : Prop := if reg8 then size = 1 else size = 2 \/ size = 4.

(** Only the operand's bits of its register become those of [v]; a 32-bit
    operand clears the upper half. *)
Definition reg_written (c c' : avm_vcpu) (idx : Z) (reg8 : bool) (size v : Z) : Prop :=
  wf_gprs c' /\ forall j, 0 <= j -> (j <> op_reg idx reg8 -> gpr_get c' j = gpr_get c j) /\
    (j = op_reg idx reg8 -> forall b, 0 <= b < 64 -> Z.testbit (gpr_get c' j) b =
      if (op_low idx reg8 <=? b) && (b <? op_low idx reg8 + 8 * size) then Z.testbit v (b - op_low idx reg8)
      else if size =? 4 then false else Z.testbit (gpr_get c j) b).

Lemma field_range lo n : 0 <= lo -> 0 <= n -> lo + n <= 64 ->
  0 <= Z.shiftl (Z.ones n) lo < 2 ^ 64 /\ forall v, 0 <= Z.shiftl (Z.land v (Z.ones n)) lo < 2 ^ 64.
Proof.
  intros Hlo Hn Hb. assert (Hp : 2 ^ n * 2 ^ lo <= 2 ^ 64) by (rewrite <- Z.pow_add_r by lia; apply Z.pow_le_mono_r; lia).
  assert (0 < 2 ^ n) by (apply Z.pow_pos_nonneg; lia). assert (0 < 2 ^ lo) by (apply Z.pow_pos_nonneg; lia).
  assert (Hm : forall m, 0 <= m < 2 ^ n -> 0 <= Z.shiftl m lo < 2 ^ 64).
  { intros m Hm. rewrite Z.shiftl_mul_pow2 by lia. split; [apply Z.mul_nonneg_nonneg; lia|].
    apply Z.lt_le_trans with (2 ^ n * 2 ^ lo); [|done]. apply Z.mul_lt_mono_pos_r; lia. }
  split; [|intros v]; apply Hm.
  - rewrite Z.ones_equiv. lia.
  - rewrite Z.land_ones by lia. apply Z.mod_pos_bound. lia.
Qed.

(** Bits [lo, lo + n) of [v] over [x]. *)
Lemma merge_bits x v lo n b : 0 <= lo -> 0 <= n -> lo + n <= 64 -> 0 <= b < 64 ->
  Z.testbit (Z.lor (Z.land x (2 ^ 64 - 1 - Z.shiftl (Z.ones n) lo)) (Z.shiftl (Z.land v (Z.ones n)) lo)) b =
  if (lo <=? b) && (b <? lo + n) then Z.testbit v (b - lo) else Z.testbit x b.
Proof.
  intros Hlo Hn Hb H. destruct (field_range lo n Hlo Hn Hb) as [Hones _].
  rewrite Z.lor_spec, Z.land_spec, complement_spec, !Z.shiftl_spec by lia.
  destruct (lo <=? b) eqn:?, (b <? lo + n) eqn:?; reify_bools; cbn [andb].
  - rewrite Z.land_spec, Z.ones_spec_low by lia. simpl. by rewrite andb_false_r, andb_true_r.
  - rewrite Z.land_spec, Z.ones_spec_high by lia. by rewrite andb_false_r, andb_true_r, orb_false_r.
  - rewrite (Z.testbit_neg_r (Z.ones n)), (Z.testbit_neg_r (Z.land v _)) by lia. by rewrite andb_true_r, orb_false_r.
  - rewrite (Z.testbit_neg_r (Z.ones n)), (Z.testbit_neg_r (Z.land v _)) by lia. by rewrite andb_true_r, orb_false_r.
Qed.

Lemma merge_range x v lo n : 0 <= lo -> 0 <= n -> lo + n <= 64 ->
  0 <= Z.lor (Z.land x (2 ^ 64 - 1 - Z.shiftl (Z.ones n) lo)) (Z.shiftl (Z.land v (Z.ones n)) lo) < 2 ^ 64.
Proof.
  intros Hlo Hn Hb. destruct (field_range lo n Hlo Hn Hb) as [Hones Hv].
  apply lor_below; [lia| |apply Hv]. apply land_below; lia.
Qed.

Lemma merge_written c idx reg8 size v lo n : wf_gprs c -> 0 <= idx < 8 ->
  op_low idx reg8 = lo -> 8 * size = n -> size =? 4 = false -> 0 <= lo -> 0 <= n -> lo + n <= 64 ->
  reg_written c (gpr_set c (op_reg idx reg8)
    (Z.lor (Z.land (gpr_get c (op_reg idx reg8)) (2 ^ 64 - 1 - Z.shiftl (Z.ones n) lo)) (Z.shiftl (Z.land v (Z.ones n)) lo)))
    idx reg8 size v.
Proof.
  intros Hc Hi <- <- Hs Hlo Hn Hb.
  assert (Hreg : 0 <= op_reg idx reg8 < 16) by (unfold op_reg; destruct reg8; [destruct (idx <? 4) eqn:?|]; reify_bools; lia).
  split; [by apply wf_gpr_set, merge_range|]. intros j Hj. rewrite gpr_get_set by done. split.
  - intros Hne. by destruct (j =? op_reg idx reg8) eqn:?; reify_bools.
  - intros -> b Hb'. rewrite Z.eqb_refl, merge_bits, Hs by lia. done.
Qed.

Lemma reg_set_spec c idx reg8 size v : wf_gprs c -> 0 <= idx < 8 -> op_size reg8 size ->
  reg_written c (reg_set c idx reg8 size v) idx reg8 size v.
Proof.
  intros Hc Hi Hs. unfold reg_set. destruct reg8.
  - simpl in Hs. subst size. destruct (idx <? 4) eqn:H4; reify_bools.
    + pose proof (merge_written c idx true 1 v 0 8 Hc Hi) as M. unfold op_reg, op_low in M.
      apply Z.ltb_lt in H4. rewrite H4 in M. rewrite Z.shiftl_0_r in M. apply M; lia || done.
    + pose proof (merge_written c idx true 1 v 8 8 Hc Hi) as M. unfold op_reg, op_low in M.
      apply Z.ltb_ge in H4. rewrite H4 in M. apply M; lia || done.
  - destruct Hs as [-> | ->]; cbn [Z.eqb Pos.eqb].
    + pose proof (merge_written c idx false 2 v 0 16 Hc Hi) as M. unfold op_reg, op_low in M.
      rewrite Z.shiftl_0_r in M. apply M; lia || done.
    + assert (Hr : 0 <= Z.land v 0xFFFFFFFF < 2 ^ 32) by (apply land_below; lia).
      split; [apply wf_gpr_set; [done|lia]|]. intros j Hj. rewrite gpr_get_set by (done || lia). unfold op_reg, op_low. split.
      * intros Hne. by destruct (j =? idx) eqn:?; reify_bools.
      * intros -> b Hb. rewrite Z.eqb_refl. change 0xFFFFFFFF with (2 ^ 32 - 1). rewrite land_ones_small by lia. cbn [Z.eqb Pos.eqb].
        destruct (0 <=? b) eqn:?, (b <? 0 + 8 * 4) eqn:?; reify_bools; try lia; cbn [andb].
        -- rewrite Z.mod_pow2_bits_low by lia. f_equal. lia.
        -- rewrite Z.mod_pow2_bits_high by lia. done.
Qed.

(** ** Properties of the decoder *)

Definition is_prefix (b : Z) : bool :=
  existsb (Z.eqb b) [0x66; 0x67; 0xF2; 0xF3; 0x26; 0x2E; 0x36; 0x3E; 0x64; 0x65].

Lemma prefix_step_None v b s : is_prefix b = false -> prefix_step v b s = None.
Proof.
  unfold is_prefix, prefix_step. cbn [existsb]. intros H. reify_bools.
  repeat match goal with |- context [b =? ?n] => destruct (b =? n) eqn:?; reify_bools; [done|] end. done.
Qed.
Lemma prefix_step_pos v b s s' : prefix_step v b s = Some s' -> pos s' = pos s + 1.
Proof.
  unfold prefix_step. repeat (destruct (b =? _) || destruct (_ || _)); intros [= <-]; done.
Qed.

Section Code.
Context (code : list Z) (Hlen : length code = 16%nat).

Lemma code_at_ok p : 0 <= p < 16 -> sat (code_at code p) (fun _ => True).
Proof. intros. apply sat_arr_get; [lia|done]. Qed.
Lemma code_le_ok n : forall p, 0 <= p -> p + Z.of_nat n <= 16 -> sat (code_le code p n) (fun _ => True).
Proof.
  induction n as [|n IH]; intros p H0 H1; cbn [code_le]; [done|].
  eapply sat_bind; [apply code_at_ok; lia|]. intros b _. eapply sat_bind; [apply IH; lia|]. done.
Qed.

Lemma prefix_loop_ok v j b : code !! j = Some b -> is_prefix b = false ->
  forall fuel s, 0 <= pos s <= Z.of_nat j -> Z.of_nat j - pos s < Z.of_nat fuel ->
  sat (prefix_loop v code fuel s) (fun s' => 0 <= pos s' <= Z.of_nat j).
Proof.
  intros Hb Hp. assert (Hj := lookup_lt_Some _ _ _ Hb).
  induction fuel as [|fuel IH]; intros s Hs Hf; [lia|]. cbn [prefix_loop].
  destruct (lookup_lt_is_Some_2 code (Z.to_nat (pos s))) as [x Hx]; [lia|].
  assert (code_at code (pos s) = Ret x) as -> by (apply arr_get_Some; split; [lia|done]). rewrite ret_bind.
  destruct (prefix_step v x s) as [s'|] eqn:Es; [|simpl; lia].
  pose proof (prefix_step_pos _ _ _ _ Es) as Hs'. destruct (decide (pos s = Z.of_nat j)) as [Hj'|].
  - rewrite Hj', Nat2Z.id, Hb in Hx. injection Hx as <-. by rewrite prefix_step_None in Es.
  - apply IH; lia.
Qed.

Lemma ea16_ok c mod_ rm p : 0 <= p -> p + 2 <= 16 ->
  sat (ea16 c mod_ rm code p) (fun r => p <= r.2 <= p + 2).
Proof.
  intros H0 H1. unfold ea16. destruct (if rm =? 0 then _ else _) as [base idx].
  apply sat_bind with (fun r : Z * Z => p <= r.2 <= p + 2); [|intros [d p'] Hp; exact Hp].
  destruct (_ && _); [eapply sat_bind; [apply code_le_ok; lia|]; simpl; lia|].
  destruct (mod_ =? 1); [eapply sat_bind; [apply code_at_ok; lia|]; simpl; lia|].
  destruct (mod_ =? 2); [eapply sat_bind; [apply code_le_ok; lia|]; simpl; lia|]. simpl. lia.
Qed.

Lemma ea32_ok c mod_ rm p : 0 <= p -> p + 5 <= 16 ->
  sat (ea32 c mod_ rm code p) (fun r => p <= r.2 <= p + 5).
Proof.
  intros H0 H1. unfold ea32.
  apply sat_bind with (fun r : Z * Z * bool * Z => p <= r.2 <= p + 1).
  { destruct (rm =? 4); [eapply sat_bind; [apply code_at_ok; lia|]; intros sib _; destruct (_ && _); simpl; lia|].
    destruct (_ && _); simpl; lia. }
  intros [[[base idx] only] p1] Hp1. cbn [snd] in Hp1.
  apply sat_bind with (fun r : Z * Z => p <= r.2 <= p + 5); [|intros [d p'] Hp; exact Hp].
  destruct (_ || _); [eapply sat_bind; [apply code_le_ok; lia|]; simpl; lia|].
  destruct (mod_ =? 1); [eapply sat_bind; [apply code_at_ok; lia|]; simpl; lia|]. simpl. lia.
Qed.

Lemma land7_range x : 0 <= Z.land x 7 < 8.
Proof. apply (land_below x 7 3); lia. Qed.

Lemma mov_operand_ok c op a16 sg p : 0 <= p -> p + 6 <= 16 ->
  sat (mov_operand c op a16 sg code p) (fun r => 0 <= r.1.1 < 8 /\ p <= r.2 <= p + 6).
Proof.
  intros H0 H1. unfold mov_operand. destruct (_ || (op =? 0xA3)).
  - destruct a16; (eapply sat_bind; [apply code_le_ok; lia|]; intros; unfold REG_AX; simpl; lia).
  - eapply sat_bind; [apply code_at_ok; lia|]. intros modrm _. cbv zeta. destruct (_ && _); [done|].
    destruct (Z.shiftr modrm 6 =? 3); [done|].
    apply sat_bind with (fun r : Z * Z => p <= r.2 <= p + 6).
    { destruct a16; [eapply sat_mono; [apply ea16_ok; lia|]|eapply sat_mono; [apply ea32_ok; lia|]]; simpl; intros; lia. }
    intros [ea p'] Hp. cbn [sat fst snd] in *. split; [|done].
    pose proof (land7_range (Z.shiftr modrm 3)). unfold REG_AX. destruct (_ || _); lia.
Qed.
End Code.

(** What [avm_mmio_fault] relies on in a decoded instruction. *)
Definition insn_ok (i : avm_insn) : Prop :=
  1 <= i_len i <= 16 /\ (i_size i = 1 \/ i_size i = 2 \/ i_size i = 4) /\ 0 <= i_reg i < 8 /\
  (i_write i = false -> op_size (i_reg8 i) (i_size i)).

Lemma decode_string_ok c op rp o16 a16 sb eb len : 1 <= len <= 16 -> insn_ok (decode_string c op rp o16 a16 sb eb len).
Proof.
  intros Hl. unfold decode_string, insn_ok, REG_AX. cbn. split; [done|]. split; [|split; [lia|]].
  - destruct (_ || _); [by left|]. destruct o16; auto.
  - intros _. destruct (_ || (op =? 0xAC)); [done|]. simpl. destruct o16; auto.
Qed.

(** C40: the decoder stays inside the code that it fetched. When a byte among
    the first six is not a prefix, no read leaves the 16-byte buffer, the loop over
    the prefixes ends, and a decoded instruction has a length of 1 to 16 bytes, an
    operand of 1, 2 or 4 bytes and one of the eight registers. *)
Theorem decode_safe vm c code j b :
  avm_mmio_guest_read vm (u64 (v_cs (vmcb c) + rip (regs c))) 16 = Ret code -> length code = 16%nat ->
  (j <= 5)%nat -> code !! j = Some b -> is_prefix b = false ->
  sat (decode vm c) insn_ok.
Proof.
  intros Hr Hlen Hj Hb Hp. unfold decode. rewrite Hr, ret_bind. cbv zeta.
  eapply sat_bind; [apply (prefix_loop_ok code Hlen _ j b Hb Hp); simpl; lia|]. intros s Hs. cbv beta in Hs.
  eapply sat_bind; [apply code_at_ok; [done|lia]|]. intros op _.
  rewrite u8_id by lia. destruct (is_string_op op); [apply decode_string_ok; lia|].
  destruct (mov_write op) as [wr|] eqn:Hw; [|done].
  eapply sat_bind; [apply mov_operand_ok; [done|lia|lia]|]. intros [[reg gpa] p] [Hreg Hp1]. cbn [fst snd] in Hreg, Hp1.
  apply sat_bind with (fun r : Z * Z => p <= r.2 <= p + 4).
  { destruct (op =? 0xC6); [eapply sat_bind; [apply code_at_ok; [done|lia]|]; simpl; lia|].
    destruct (op =? 0xC7); [|simpl; lia].
    destruct (_ =? 2); (eapply sat_bind; [apply code_le_ok; [done|lia|lia]|]; simpl; lia). }
  intros [imm p'] Hp'. cbn [snd] in Hp'. rewrite u8_id by lia. cbn [sat]. unfold insn_ok. cbn.
  split; [lia|]. split; [|split; [done|]].
  - destruct (_ || _); [by left|]. destruct (opsz16 s); auto.
  - intros ->. unfold mov_write in Hw. destruct (op =? 0x88) eqn:?, (op =? 0x89) eqn:?, (op =? 0xC6) eqn:?,
      (op =? 0xC7) eqn:?, (op =? 0xA2) eqn:?, (op =? 0xA3) eqn:?; try done.
    destruct (op =? 0x8A), (op =? 0xA0); simpl; try done; destruct (opsz16 s); auto.
Qed.

(** ** Accesses that the VMM answers *)

Lemma decode_movs vm c i : decode vm c = Ret i -> i_str i = false -> movs i = false.
Proof.
  unfold decode. cbv zeta. intros (code & _ & (s & _ & (op & _ & E)%bind_Ret)%bind_Ret)%bind_Ret.
  destruct (is_string_op op); [by injection E as <-|]. destruct (mov_write op); [|done].
  apply bind_Ret in E as ([[reg gpa] p] & _ & ([imm p'] & _ & E)%bind_Ret). by injection E as <-.
Qed.

(** The value that a MOV stores. *)
Definition mov_value (c : avm_vcpu) (i : avm_insn) : Z :=
  if i_write i then Z.land (if store_imm i then i_imm i else reg_value c (i_reg i) (i_reg8 i)) (size_mask (i_size i)) else 0.

Lemma size_mask_range x s : s = 1 \/ s = 2 \/ s = 4 -> 0 <= Z.land x (size_mask s) < 256 ^ s.
Proof. intros [->|[->| ->]]; unfold size_mask; cbn [Z.eqb Pos.eqb]; [apply (land_below x _ 8)|apply (land_below x _ 16)|apply (land_below x _ 32)]; lia. Qed.

(** Little-endian bytes of a value that fits read back as the value. *)
Lemma le_at_bytes v rest s : s = 1 \/ s = 2 \/ s = 4 -> 0 <= v < 256 ^ s ->
  le_at (le_bytes (Z.to_nat s) v ++ rest) 0 (Z.to_nat s) = v.
Proof.
  intros Hs Hv. unfold le_at, le_bytes, u8. change (2 ^ 8) with 256. change (Z.to_nat 0) with O.
  destruct Hs as [->|[->| ->]];
    [change (Z.to_nat 1) with 1%nat|change (Z.to_nat 2) with 2%nat|change (Z.to_nat 4) with 4%nat];
    cbn -[Z.shiftr Z.mul Z.add Z.modulo]; rewrite !Z.shiftr_div_pow2 by lia;
    change (8 * 0) with 0; change (8 * 1) with 8; change (8 * 2) with 16; change (8 * 3) with 24;
    change (2 ^ 0) with 1; change (2 ^ 8) with 256; change (2 ^ 16) with 65536; change (2 ^ 24) with 16777216;
    Z.div_mod_to_equations; lia.
Qed.

Lemma step_done_fields c : regs (avm_step_done c) = regs c /\ run (avm_step_done c) = run c /\ lapic (avm_step_done c) = lapic c.
Proof. unfold avm_step_done. by destruct (singlestep c). Qed.

Lemma reg_written_regs c c0 c1 idx reg8 size v : gpr (regs c0) = gpr (regs c) ->
  reg_written c0 c1 idx reg8 size v -> reg_written c c1 idx reg8 size v.
Proof.
  intros E [Hw H]. split; [done|]. intros j Hj. assert (gpr_get c0 j = gpr_get c j) as Eg by (unfold gpr_get; by rewrite E).
  rewrite <- Eg. by apply H.
Qed.
Lemma reg_written_result c c1 c2 idx reg8 size v : gpr (regs c2) = gpr (regs c1) ->
  reg_written c c1 idx reg8 size v -> reg_written c c2 idx reg8 size v.
Proof.
  intros E [[Hl Hf] H]. split; [unfold wf_gprs; by rewrite E|]. intros j Hj.
  assert (gpr_get c2 j = gpr_get c1 j) as -> by (unfold gpr_get; by rewrite E). by apply H.
Qed.

Lemma to_vmm_fields i gpa value c : let c' := to_vmm i gpa value c in
  regs c' = regs c /\ lapic c' = lapic c /\ phys_addr (run c') = gpa /\ run_len (run c') = i_size i /\
  is_write (run c') = i_write i /\
  (i_write i = true -> data (run c') = le_bytes (Z.to_nat (i_size i)) value ++
     replicate (8 - length (le_bytes (Z.to_nat (i_size i)) value)) 0).
Proof.
  cbv zeta. unfold to_vmm. destruct (i_write i); cbn;
    match goal with |- context [avm_step_done ?x] => destruct (step_done_fields x) as (E1 & E2 & E3) end;
    by rewrite E1, E2, E3.
Qed.

(** Completing the access that [to_vmm] recorded. *)
Lemma complete_mov c i gpa value d : wf_gprs c -> insn_ok i -> i_str i = false ->
  let c' := to_vmm i gpa value c in
  let c'' := avm_mmio_complete (set_run (mk_run KVM_EXIT_MMIO gpa d (i_size i) (i_write i)) c') in
  mmio_pending (mmio c'') = false /\ rip (regs c'') = u64 (rip (regs c) + i_len i) /\
  (i_write i = true -> gpr (regs c'') = gpr (regs c)) /\
  (i_write i = false -> reg_written c c'' (i_reg i) (i_reg8 i) (i_size i) (le_at d 0 (Z.to_nat (i_size i)))).
Proof.
  intros Hg (_ & _ & Hreg & Hsz) Hs. cbv zeta. set (c1 := set_run _ _).
  assert (Er : regs c1 = regs c).
  { unfold c1, to_vmm. cbn. exact (proj1 (step_done_fields _)). }
  assert (Em : mmio c1 = mk_mmio true (negb (i_write i)) (i_reg8 i) (i_size i) (i_reg i) (i_len i) false (i_rep i)
                           (lods i || movs i) (i_str i && negb (lods i)) (i_step i) (i_mask i)).
  { unfold c1, to_vmm. cbn. by rewrite Hs. }
  assert (Ed : data (run c1) = d) by done. clearbody c1.
  unfold avm_mmio_complete. rewrite Em. cbn [mmio_pending mmio_read mmio_reg8 mmio_size mmio_reg mmio_insn_len mmio_str negb].
  rewrite Ed. split; [done|]. destruct (i_write i) eqn:Hw; cbn [negb].
  - cbn. rewrite Er. done.
  - assert (Hsame : rip (regs (reg_set c1 (i_reg i) (i_reg8 i) (i_size i) (le_at d 0 (Z.to_nat (i_size i))))) = rip (regs c)).
    { rewrite <- Er. unfold reg_set. by repeat case_match. }
    split; [cbn [regs set_rip set_regs set_mmio rip]; by rewrite Hsame|]. split; [done|]. intros _.
    eapply reg_written_result; [|apply (reg_written_regs c c1); [by rewrite Er|apply reg_set_spec; [|done|by apply Hsz]]]; [done|].
    split; rewrite Er; apply Hg.
Qed.

(** an access that the VMM answers. A decoded MOV to an address that is
    neither an APIC nor a registered doorbell leaves the registers as they are and
    describes the access to the VMM: address, width, direction and, for a store,
    the value. When the VMM has answered with [d], the next entry completes it: a
    load puts the answer in exactly the operand (the other bits kept, the upper
    half of a 32-bit operand cleared), a store changes no register, RIP is past the
    instruction, and no access is left pending. *)
Theorem mmio_vmm_roundtrip now w k gpa c i :
  vcpus (machine w) !! k = Some (Some c) -> wf_gprs c ->
  decode (machine w) c = Ret i -> insn_ok i -> i_str i = false ->
  irqchip (machine w) && (in_window APIC_BASE_GPA gpa || in_window IOAPIC_BASE_GPA gpa) = false ->
  Forall (fun e => write_matches false gpa (i_size i) (mov_value c i) e = false) (ioeventfds (machine w)) ->
  exists w' c', avm_mmio_fault now k gpa w = Ret (AVM_MMIO_TO_VMM, w') /\
    vcpus (machine w') = <[k := Some c']> (vcpus (machine w)) /\ regs c' = regs c /\ lapic c' = lapic c /\
    phys_addr (run c') = gpa /\ run_len (run c') = i_size i /\ is_write (run c') = i_write i /\
    (i_write i = true -> le_at (data (run c')) 0 (Z.to_nat (i_size i)) = mov_value c i) /\
    forall d, let c'' := avm_mmio_complete (set_run (mk_run KVM_EXIT_MMIO gpa d (i_size i) (i_write i)) c') in
      mmio_pending (mmio c'') = false /\ rip (regs c'') = u64 (rip (regs c) + i_len i) /\
      (i_write i = true -> gpr (regs c'') = gpr (regs c)) /\
      (i_write i = false -> reg_written c c'' (i_reg i) (i_reg8 i) (i_size i) (le_at d 0 (Z.to_nat (i_size i)))).
Proof.
  intros Hk Hg Hd Hi Hs Hwin Hio.
  exists (set_machine (set_vcpu k (to_vmm i gpa (mov_value c i) c) (machine w)) w), (to_vmm i gpa (mov_value c i) c).
  assert (Hget : get_vcpu k (machine w) = Ret c) by (unfold get_vcpu; by rewrite Hk).
  split.
  { unfold avm_mmio_fault. rewrite Hget, ret_bind, Hd.
    assert (store_value (machine w) c i gpa = Ret (mov_value c i)) as ->.
    { unfold store_value, mov_value. rewrite (decode_movs _ _ _ Hd Hs). by destruct (i_write i). }
    rewrite Hs. cbn [andb negb].
    destruct (irqchip (machine w)), (in_window APIC_BASE_GPA gpa), (in_window IOAPIC_BASE_GPA gpa); try done; cbn [andb orb].
    all: assert ((if i_write i then avm_ioeventfd_write false gpa (i_size i) (mov_value c i) w else Ret (false, w)) = Ret (false, w))
      as -> by (destruct (i_write i) eqn:?; [|done]; unfold avm_ioeventfd_write;
        assert (list_find (fun e => write_matches false gpa (i_size i) (mov_value c i) e = true) (ioeventfds (machine w)) = None)
          as -> by (apply list_find_None; eapply Forall_impl; [|exact Hio]; intros e He; simpl in *; congruence); done).
    all: by rewrite ret_bind, Hget, ret_bind. }
  destruct (to_vmm_fields i gpa (mov_value c i) c) as (E1 & E2 & E3 & E4 & E5 & E6).
  split; [done|]. do 5 (split; [done|]). split.
  - intros Hw. rewrite E6 by done. apply le_at_bytes; [apply Hi|]. unfold mov_value. rewrite Hw.
    apply size_mask_range, Hi.
  - intros d. exact (complete_mov c i gpa (mov_value c i) d Hg Hi Hs).
Qed.

(** ** String instructions *)

(** The address size: 16 or 32 bits. *)
Definition addr_bits (m : avm_mmio) (b : Z) : Prop := (b = 16 \/ b = 32) /\ mmio_str_mask m = 2 ^ b - 1.

Lemma addr_reg_spec b value reg : b = 16 \/ b = 32 -> 0 <= reg < 2 ^ 64 ->
  0 <= addr_reg (2 ^ b - 1) value reg < 2 ^ 64 /\ addr_reg (2 ^ b - 1) value reg mod 2 ^ b = value mod 2 ^ b.
Proof.
  intros Hb Hr. unfold addr_reg. destruct Hb as [-> | ->].
  - change (2 ^ 16 - 1 =? 0xFFFF) with true. cbv iota. pose proof (merge_range reg value 0 16 ltac:(lia) ltac:(lia) ltac:(lia)) as M.
    rewrite !Z.shiftl_0_r in M. split; [exact M|]. apply Z.bits_inj'. intros n Hn.
    destruct (decide (n < 16)); [|by rewrite !Z.mod_pow2_bits_high by lia].
    rewrite !Z.mod_pow2_bits_low by lia. pose proof (merge_bits reg value 0 16 n ltac:(lia) ltac:(lia) ltac:(lia) ltac:(lia)) as B.
    rewrite !Z.shiftl_0_r, Z.sub_0_r in B. change (Z.ones 16) with (2 ^ 16 - 1) in B. unfold UINT64_MAX. rewrite B.
    destruct (0 <=? n) eqn:?, (n <? 0 + 16) eqn:?; reify_bools; done || lia.
  - change (2 ^ 32 - 1 =? 0xFFFF) with false. cbv iota. rewrite Z.lor_0_l, land_ones_small by lia.
    pose proof (Z.mod_pos_bound value (2 ^ 32) ltac:(lia)). split; [lia|]. by rewrite Z.mod_mod by lia.
Qed.

(** One element: the access is pending as [m] says and the VMM answers. *)
Definition element (m : avm_mmio) (c : avm_vcpu) : avm_vcpu := avm_mmio_complete (set_mmio m c).

(** A register that moves by [d] in the address size. *)
Lemma step_reg b idx d c : b = 16 \/ b = 32 -> wf_gprs c -> 0 <= idx < 8 ->
  let c' := avm_set_addr_reg idx (2 ^ b - 1) (u64 d) c in
  wf_gprs c' /\ rip (regs c') = rip (regs c) /\ gpr_get c' idx mod 2 ^ b = d mod 2 ^ b /\
  forall j, 0 <= j -> j <> idx -> gpr_get c' j = gpr_get c j.
Proof.
  intros Hb Hc Hi. cbv zeta. unfold avm_set_addr_reg.
  destruct (addr_reg_spec b (u64 d) (gpr_get c idx) Hb (gpr_get_range c idx Hc)) as [R1 R2].
  split; [by apply wf_gpr_set|]. split; [done|]. split.
  - rewrite gpr_get_set, Z.eqb_refl, R2 by (done || lia). unfold u64.
    replace (2 ^ 64) with (2 ^ b * 2 ^ (64 - b)) by (rewrite <- Z.pow_add_r by lia; f_equal; lia).
    assert (0 < 2 ^ b) by (apply Z.pow_pos_nonneg; lia). assert (0 < 2 ^ (64 - b)) by (apply Z.pow_pos_nonneg; lia).
    rewrite Z.rem_mul_r by lia. rewrite Z.mul_comm, Z.mod_add by lia. apply Z.mod_mod. lia.
  - intros j Hj Hne. rewrite gpr_get_set by (done || lia). by destruct (j =? idx) eqn:?; reify_bools.
Qed.

Definition moves (b : Z) (x : bool) (d : Z) (old new : Z) : Prop := new mod 2 ^ b = (if x then old + d else old) mod 2 ^ b.

(** An index register moves when the instruction uses it. *)
Lemma step_moves b x d idx c : b = 16 \/ b = 32 -> wf_gprs c -> 0 <= idx < 8 ->
  let c' := if (x : bool) then avm_set_addr_reg idx (2 ^ b - 1) (u64 (gpr_get c idx + d)) c else c in
  wf_gprs c' /\ rip (regs c') = rip (regs c) /\ moves b x d (gpr_get c idx) (gpr_get c' idx) /\
  forall j, 0 <= j -> j <> idx -> gpr_get c' j = gpr_get c j.
Proof. intros Hb Hc Hi. unfold moves. destruct x; [by apply step_reg|done]. Qed.

Lemma element_spec m b c : addr_bits m b -> wf_gprs c -> mmio_pending m = true -> mmio_read m = false ->
  mmio_str m = true -> mmio_str_rep m = true ->
  let n := gpr_get c REG_CX mod 2 ^ b in 1 <= n ->
  let c' := element m c in
  wf_gprs c' /\ gpr_get c' REG_CX mod 2 ^ b = n - 1 /\
  moves b (mmio_str_si m) (mmio_str_step m) (gpr_get c REG_SI) (gpr_get c' REG_SI) /\
  moves b (mmio_str_di m) (mmio_str_step m) (gpr_get c REG_DI) (gpr_get c' REG_DI) /\
  rip (regs c') = if n =? 1 then u64 (rip (regs c) + mmio_insn_len m) else rip (regs c).
Proof.
  intros [Hb Hm] Hc Hp Hr Hs Hrep. cbv zeta. intros Hn.
  unfold element, avm_mmio_complete. cbn [mmio set_mmio]. rewrite Hp, Hr, Hs, Hrep, Hm. cbn [negb]. cbv zeta.
  set (c0 := set_mmio _ (set_mmio m c)). assert (H0 : wf_gprs c0) by exact Hc.
  assert (Eg : forall j, gpr_get c0 j = gpr_get c j) by done. assert (Er : rip (regs c0) = rip (regs c)) by done. clearbody c0.
  destruct (step_moves b (mmio_str_si m) (mmio_str_step m) REG_SI c0 Hb H0 ltac:(unfold REG_SI; lia)) as (W1 & R1 & M1 & G1).
  set (c1 := if mmio_str_si m then _ else c0) in *. clearbody c1.
  destruct (step_moves b (mmio_str_di m) (mmio_str_step m) REG_DI c1 Hb W1 ltac:(unfold REG_DI; lia)) as (W2 & R2 & M2 & G2).
  set (c2 := if mmio_str_di m then _ else c1) in *. clearbody c2.
  rewrite Er in R1. rewrite R1 in R2. rewrite (G1 REG_DI), Eg in M2 by (unfold REG_DI, REG_SI; lia). rewrite Eg in M1.
  assert (Ecx : gpr_get c2 REG_CX = gpr_get c REG_CX) by (rewrite G2, G1; unfold REG_CX, REG_DI, REG_SI; auto; lia).
  rewrite Ecx, !land_ones_small by lia.
  set (n := gpr_get c REG_CX mod 2 ^ b) in *.
  destruct (step_reg b REG_CX (n - 1) c2 Hb W2 ltac:(unfold REG_CX; lia)) as (W3 & R3 & C3 & G3).
  assert (Hn2 : n < 2 ^ b) by (apply Z.mod_pos_bound; destruct Hb as [-> | ->]; lia).
  rewrite (Z.mod_small (n - 1)) in C3 by lia. set (c3 := avm_set_addr_reg _ _ _ _) in *.
  assert (G : gpr_get c3 REG_SI = gpr_get c1 REG_SI /\ gpr_get c3 REG_DI = gpr_get c2 REG_DI).
  { rewrite !G3, G2 by (unfold REG_CX, REG_DI, REG_SI; lia). done. }
  destruct G as [GS GD]. clearbody c3.
  destruct (n =? 1) eqn:H1; reify_bools.
  - rewrite C3, H1. change (negb (1 - 1 =? 0)) with false. cbv iota. split; [exact W3|].
    assert (Ej : forall v j, gpr_get (set_rip v c3) j = gpr_get c3 j) by done.
    rewrite !Ej, GS, GD, C3, H1. split; [done|]. split; [done|]. split; [done|]. cbn [regs set_rip set_regs rip]. by rewrite R3, R2.
  - rewrite C3. destruct (n - 1 =? 0) eqn:?; reify_bools; [lia|]. cbn [negb]. rewrite GS, GD, R3, R2. done.
Qed.

(** a repeated string instruction terminates after exactly the requested
    number of elements. When the VMM answers one element after the other, the [t]-th
    element leaves the count at [n - t], the index registers that the instruction
    uses have moved by [t] steps (up or down, within the address size), and RIP
    stays on the instruction until element [n], when it is past it. *)
Theorem rep_string_progress m b c t : addr_bits m b -> wf_gprs c -> mmio_pending m = true -> mmio_read m = false ->
  mmio_str m = true -> mmio_str_rep m = true ->
  let n := gpr_get c REG_CX mod 2 ^ b in Z.of_nat t <= n -> 1 <= n ->
  let c' := Nat.iter t (element m) c in
  wf_gprs c' /\ gpr_get c' REG_CX mod 2 ^ b = n - Z.of_nat t /\
  moves b (mmio_str_si m) (Z.of_nat t * mmio_str_step m) (gpr_get c REG_SI) (gpr_get c' REG_SI) /\
  moves b (mmio_str_di m) (Z.of_nat t * mmio_str_step m) (gpr_get c REG_DI) (gpr_get c' REG_DI) /\
  rip (regs c') = if Z.of_nat t =? n then u64 (rip (regs c) + mmio_insn_len m) else rip (regs c).
Proof.
  intros Hb Hc Hp Hr Hs Hrep. cbv zeta. induction t as [|t IH]; intros Ht Hn; cbn [Nat.iter].
  - split; [done|]. split; [simpl; lia|]. unfold moves. rewrite Z.mul_0_l, !Z.add_0_r.
    destruct (_ =? _) eqn:?; reify_bools; [simpl in *; lia|]. by destruct (mmio_str_si m), (mmio_str_di m).
  - destruct (IH ltac:(lia) Hn) as (W & C & MS & D & R). set (ct := Nat.iter t (element m) c) in *.
    destruct (element_spec m b ct Hb W Hp Hr Hs Hrep) as (W' & C' & S' & D' & R'); [rewrite C; lia|].
    rewrite C in C', R'. change (Nat.iter (S t) (element m) c) with (element m ct).
    set (c' := element m ct) in *. clearbody ct c'.
    assert (Hadd : forall x d old mid new, moves b x (Z.of_nat t * d) old mid -> moves b x d mid new ->
      moves b x (Z.of_nat (S t) * d) old new).
    { unfold moves. intros x d old mid new E1 E2. rewrite E2. destruct x; [|done].
      rewrite <- Z.add_mod_idemp_l, E1, Z.add_mod_idemp_l by (destruct (proj1 Hb) as [-> | ->]; lia). f_equal. lia. }
    split; [done|]. split; [rewrite C'; lia|]. split; [by eapply Hadd|]. split; [by eapply Hadd|].
    rewrite R', R. destruct (Z.of_nat t =? _) eqn:?; reify_bools; [lia|].
    destruct (_ - Z.of_nat t =? 1) eqn:?, (Z.of_nat (S t) =? _) eqn:?; reify_bools; done || lia.
Qed.

(** *** Observations *)

(** A 32-bit guest at 0x1000, with AX = 0x11223344 and CX = 3. *)
Definition code_vcpu : avm_vcpu :=
  set_vmcb (mk_vmcb 0x400 0 0 0 0 0 0 2)
    (set_regs (mk_regs ([0x11223344; 3] ++ replicate 14 0) 0x1000 2) (sample_vcpu 0)).
(** Slot 0 holds [bytes] at 0x1000, followed by zeros. *)
Definition code_vm (bytes : list Z) : avm_vm :=
  let m := list_to_map (zip (seqZ 0x7000 64) (bytes ++ replicate 64 0)) in
  set_mem m (set_slots [mk_slot 0 0x1000 64 0x7000 true false]
    (set_vcpus (Some code_vcpu :: replicate 7 None) new_vm)).

(** Sixteen prefix bytes take the decoder past the end of its buffer. *)
Example prefixes_overrun_buffer :
  decode (code_vm (replicate 16 0x66)) code_vcpu = Fault.
Proof. vm_compute. reflexivity. Qed.

(** The end of the range wraps around: a read at the top of the address space is
    taken for one inside the slot, and reads host memory outside it. *)
Example guest_read_wraps :
  slot_hit false (2 ^ 64 - 8) 16 (mk_slot 0 0x1000 64 0x7000 true false) = true /\
  avm_mmio_guest_read (code_vm []) (2 ^ 64 - 8) 16 = Fault.
Proof. vm_compute. split; reflexivity. Qed.

(** *** Witnesses *)

(** [mov [0xD0000000], eax] *)
Definition store_bytes : list Z := [0x89; 0x05; 0; 0; 0; 0xD0].
Definition store_world : world := fresh_world (code_vm store_bytes) 4.
Definition store_insn : avm_insn :=
  mk_insn 6 4 true false false 0 0xD0000000 0 false false false false 0 0 0 0.

Lemma code_gprs : wf_gprs code_vcpu.
Proof. split; [done|]. repeat constructor; lia. Qed.

Lemma decode_safe_witness : sat (decode (code_vm store_bytes) code_vcpu) insn_ok.
Proof.
  apply (decode_safe (code_vm store_bytes) code_vcpu (store_bytes ++ replicate 10 0) 0 0x89).
  all: try (vm_compute; reflexivity). lia.
Defined.

Lemma mmio_vmm_roundtrip_witness :
  exists w' c', avm_mmio_fault 0 0 0xD0000000 store_world = Ret (AVM_MMIO_TO_VMM, w') /\
    vcpus (machine w') = <[0%nat := Some c']> (vcpus (machine store_world)) /\ phys_addr (run c') = 0xD0000000 /\
    le_at (data (run c')) 0 4 = 0x11223344.
Proof.
  destruct (mmio_vmm_roundtrip 0 store_world 0 0xD0000000 code_vcpu store_insn) as (w' & c' & E & V & _ & _ & A & _ & _ & D & _).
  - reflexivity.
  - exact code_gprs.
  - vm_compute. reflexivity.
  - unfold insn_ok. cbn. split; [lia|]. split; [auto|]. split; [lia|]. done.
  - reflexivity.
  - vm_compute. reflexivity.
  - apply Forall_replicate. vm_compute. reflexivity.
  - exists w', c'. split; [exact E|]. split; [exact V|]. split; [exact A|]. exact (D eq_refl).
Defined.

(** [rep stosd], three elements. *)
Definition stos_pending : avm_mmio := mk_mmio true false false 4 0 2 true true false true 4 0xFFFFFFFF.

Lemma rep_string_progress_witness :
  let c' := Nat.iter 3 (element stos_pending) code_vcpu in
  rip (regs c') = 0x1002 /\ gpr_get c' REG_DI mod 2 ^ 32 = 12 /\ gpr_get c' REG_CX mod 2 ^ 32 = 0.
Proof.
  destruct (rep_string_progress stos_pending 32 code_vcpu 3 ltac:(split; [by right|reflexivity]) code_gprs
              eq_refl eq_refl eq_refl eq_refl ltac:(vm_compute; discriminate) ltac:(vm_compute; discriminate)) as (_ & C & _ & D & R).
  cbv zeta. split; [exact R|]. split; [exact D|exact C].
Defined.

End AvmMmio.
