(* ===== verification/VmaTree.v ===== *)
(** VmaTree: the AVL interval tree of the virtual memory areas of a process
    ([kernel/src/mm/vma.c]: the node type, the rotations, insertion, deletion and
    the two descents).

    A node of the tree is an object in memory that other code points to, so a
    node of the model has an address besides the fields of [struct vma]. The
    fields that describe the mapping are a [region]; [max_end], [height] and the
    two links belong to the tree. Dereferencing a null link is a fault. *)

From Stdlib Require Import Sorting.Sorted.
From S2P Require Import Prelude.

Module VmaTree.

(** The fields of [struct vma] that describe a mapping. *)
Record region := mk_region {
  start : Z; end_ : Z; prot : Z; flags : Z; offset : Z; file_size : Z; fd : Z;
  file_node : option Z; linux_vma : option Z;
  numa_policy : Z; numa_nodemask : Z; numa_preferred_node : Z }.
Definition set_linux (o : option Z) (p : region) : region :=
  mk_region (start p) (end_ p) (prot p) (flags p) (offset p) (file_size p) (fd p) (file_node p) o
    (numa_policy p) (numa_nodemask p) (numa_preferred_node p).
Definition set_end (e : Z) (p : region) : region :=
  mk_region (start p) e (prot p) (flags p) (offset p) (file_size p) (fd p) (file_node p) (linux_vma p)
    (numa_policy p) (numa_nodemask p) (numa_preferred_node p).
(** The payload that is left behind when its references have moved. *)
Definition strip_refs (p : region) : region :=
  mk_region (start p) (end_ p) (prot p) (flags p) (offset p) (file_size p) (fd p) None None
    (numa_policy p) (numa_nodemask p) (numa_preferred_node p).

Inductive vma :=
| Null
| Node (addr : nat) (p : region) (max_end height : Z) (left right : vma).

Definition get_height (n : vma) : Z := match n with Null => 0 | Node _ _ _ h _ _ => h end.
Definition get_max_end (n : vma) : Z := match n with Null => 0 | Node _ _ m _ _ _ => m end.

Definition update_node (n : vma) : vma :=
  match n with
  | Null => Null
  | Node a p _ _ l r =>
    let h := 1 + (if get_height l >? get_height r then get_height l else get_height r) in
    let m := end_ p in
    let m := if get_max_end l >? m then get_max_end l else m in
    let m := if get_max_end r >? m then get_max_end r else m in
    Node a p m h l r
  end.

Definition right_rotate (y : vma) : outcome vma :=
  match y with
  | Node a p m h (Node xa xp xm xh xl t2) r =>
    Ret (update_node (Node xa xp xm xh xl (update_node (Node a p m h t2 r))))
  | _ => Fault
  end.

Definition left_rotate (x : vma) : outcome vma :=
  match x with
  | Node a p m h l (Node ya yp ym yh t2 yr) =>
    Ret (update_node (Node ya yp ym yh (update_node (Node a p m h l t2)) yr))
  | _ => Fault
  end.

Definition get_balance (n : vma) : Z :=
  match n with Null => 0 | Node _ _ _ _ l r => get_height l - get_height r end.

(** [node->left->start] *)
Definition start_of (n : vma) : outcome Z := match n with Null => Fault | Node _ p _ _ _ _ => Ret (start p) end.

(** The four cases after an insertion of key [k] below [node]. *)
Definition rebalance_insert (k : Z) (node : vma) : outcome vma :=
  match node with
  | Null => Ret Null
  | Node a p m h l r =>
    if get_balance node >? 1 then
      s ← start_of l;
      if k <? s then right_rotate node
      else if k >? s then l ← left_rotate l; right_rotate (Node a p m h l r)
      else Ret node
    else if get_balance node <? -1 then
      s ← start_of r;
      if k >? s then left_rotate node
      else if k <? s then r ← right_rotate r; left_rotate (Node a p m h l r)
      else Ret node
    else Ret node
  end.

Fixpoint insert_node (node new_node : vma) : outcome vma :=
  match node, new_node with
  | Null, _ => Ret new_node
  | _, Null => Fault
  | Node a p m h l r, Node _ q _ _ _ _ =>
    if start q <? start p then
      l ← insert_node l new_node; rebalance_insert (start q) (update_node (Node a p m h l r))
    else if start q >? start p then
      r ← insert_node r new_node; rebalance_insert (start q) (update_node (Node a p m h l r))
    else Ret node
  end.

(** [min_value_node]: the address and the region of the leftmost node. *)
Fixpoint min_value_node (node : vma) : outcome region :=
  match node with
  | Null => Fault
  | Node _ p _ _ Null _ => Ret p
  | Node _ _ _ _ l _ => min_value_node l
  end.
(** [temp->file_node = NULL; temp->linux_vma = NULL] on the leftmost node. *)
Fixpoint strip_min (node : vma) : vma :=
  match node with
  | Null => Null
  | Node a p m h Null r => Node a (strip_refs p) m h Null r
  | Node a p m h l r => Node a p m h (strip_min l) r
  end.

(** The four cases after a deletion. *)
Definition rebalance_delete (node : vma) : outcome vma :=
  match node with
  | Null => Ret Null
  | Node a p m h l r =>
    if get_balance node >? 1 then
      if get_balance l >=? 0 then right_rotate node
      else l ← left_rotate l; right_rotate (Node a p m h l r)
    else if get_balance node <? -1 then
      if get_balance r <=? 0 then left_rotate node
      else r ← right_rotate r; left_rotate (Node a p m h l r)
    else Ret node
  end.

(** What a deletion did: whether a node was found, the regions whose references
    were dropped, and the nodes that were freed. *)
Record deletion := mk_deletion { deleted : bool; dropped : list region; freed : list nat }.
Definition no_deletion : deletion := mk_deletion false [] [].

Fixpoint delete_node (fuel : nat) (node : vma) (k : Z) : outcome (vma * deletion) :=
  match fuel with
  | O => OutOfFuel
  | S fuel =>
    match node with
    | Null => Ret (Null, no_deletion)
    | Node a p m h l r =>
      let finish node d := node ← rebalance_delete (update_node node); Ret (node, d) in
      if k <? start p then '(l, d) ← delete_node fuel l k; finish (Node a p m h l r) d
      else if k >? start p then '(r, d) ← delete_node fuel r k; finish (Node a p m h l r) d
      else
        let d := mk_deletion true [p] [a] in
        match l, r with
        | Null, Null => Ret (Null, d)
        | Null, _ => finish r d
        | _, Null => finish l d
        | _, _ =>
          q ← min_value_node r;
          '(r, d) ← delete_node fuel (strip_min r) (start q);
          finish (Node a q m h l r) (mk_deletion true (p :: dropped d) (freed d))
        end
    end
  end.

Fixpoint vma_find_recursive (node : vma) (x : Z) : option (nat * region) :=
  match node with
  | Null => None
  | Node a p _ _ l r =>
    if (start p <=? x) && (x <? end_ p) then Some (a, p)
    else if x <? start p then vma_find_recursive l x
    else vma_find_recursive r x
  end.

Fixpoint vma_find_overlap_recursive (node : vma) (s e : Z) : option (nat * region) :=
  match node with
  | Null => None
  | Node a p m _ l r =>
    match (if match l with Null => false | _ => get_max_end l >? s end
           then vma_find_overlap_recursive l s e else None) with
    | Some x => Some x
    | None =>
      if (s <? end_ p) && (e >? start p) then Some (a, p)
      else if s >=? m then None
      else vma_find_overlap_recursive r s e
    end
  end.

(** ** Contents and well-formedness *)

Fixpoint pairs (t : vma) : list (nat * region) :=
  match t with Null => [] | Node a p _ _ l r => pairs l ++ (a, p) :: pairs r end.
Definition regions (t : vma) : list region := map snd (pairs t).
Definition ids (t : vma) : list nat := map fst (pairs t).
Fixpoint size (t : vma) : nat := match t with Null => O | Node _ _ _ _ l r => S (size l + size r) end.

Inductive avl : vma -> Z -> Prop :=
| avl_null : avl Null 0
| avl_node a p m h l r hl hr : avl l hl -> avl r hr -> -1 <= hl - hr <= 1 -> h = 1 + Z.max hl hr ->
    m = Z.max (end_ p) (Z.max (get_max_end l) (get_max_end r)) -> avl (Node a p m h l r) h.

(** Disjoint regions in ascending order. *)
Definition before (p q : region) : Prop := end_ p <= start q.
Definition nonempty (p : region) : Prop := 0 <= start p < end_ p.
Definition ordered (l : list region) : Prop := StronglySorted before l /\ Forall nonempty l.

(** ** Balance *)

Lemma avl_height t h : avl t h -> get_height t = h.
Proof. by inversion 1. Qed.
Lemma avl_nonneg t h : avl t h -> 0 <= h.
Proof. induction 1; lia. Qed.

Lemma update_avl a p m h l r hl hr : avl l hl -> avl r hr -> -1 <= hl - hr <= 1 ->
  avl (update_node (Node a p m h l r)) (1 + Z.max hl hr).
Proof.
  intros Hl Hr Hb. cbn [update_node]. rewrite (avl_height _ _ Hl), (avl_height _ _ Hr).
  assert (Eh : (if hl >? hr then hl else hr) = Z.max hl hr) by (destruct (hl >? hr) eqn:?; reify_bools; lia).
  rewrite Eh. eapply avl_node; eauto.
  destruct (get_max_end l >? end_ p) eqn:?; reify_bools;
    destruct (get_max_end r >? _) eqn:?; reify_bools; lia.
Qed.

Lemma pairs_update t : pairs (update_node t) = pairs t.
Proof. by destruct t. Qed.

(** The single and the double rotations. *)
Lemma right_single a p m h xa xp xm xh xl t2 r hxl ht2 hr :
  avl xl hxl -> avl t2 ht2 -> avl r hr -> 0 <= hxl - ht2 <= 1 -> hxl = hr + 1 ->
  exists t, right_rotate (Node a p m h (Node xa xp xm xh xl t2) r) = Ret t /\
    avl t (1 + Z.max hxl (1 + Z.max ht2 hr)) /\ pairs t = (pairs xl ++ (xa, xp) :: pairs t2) ++ (a, p) :: pairs r.
Proof.
  intros Hx Ht Hr Hb Hh. eexists. split; [done|]. split.
  - apply update_avl; [done|apply update_avl; [done|done|lia]|lia].
  - rewrite pairs_update. cbn [pairs]. rewrite pairs_update. cbn [pairs]. by rewrite <- app_assoc.
Qed.

Lemma left_single a p m h l ya yp ym yh t2 yr hl ht2 hyr :
  avl l hl -> avl t2 ht2 -> avl yr hyr -> 0 <= hyr - ht2 <= 1 -> hyr = hl + 1 ->
  exists t, left_rotate (Node a p m h l (Node ya yp ym yh t2 yr)) = Ret t /\
    avl t (1 + Z.max (1 + Z.max hl ht2) hyr) /\ pairs t = pairs l ++ (a, p) :: (pairs t2 ++ (ya, yp) :: pairs yr).
Proof.
  intros Hx Ht Hr Hb Hh. eexists. split; [done|]. split.
  - apply update_avl; [apply update_avl; [done|done|lia]|done|lia].
  - rewrite pairs_update. cbn [pairs]. rewrite pairs_update. cbn [pairs]. by rewrite <- app_assoc.
Qed.

Lemma right_double a p m h xa xp xm xh xl t2 r hxl ht2 hr :
  avl xl hxl -> avl t2 ht2 -> avl r hr -> ht2 = hxl + 1 -> ht2 = hr + 1 ->
  exists t, (l ← left_rotate (Node xa xp xm xh xl t2); right_rotate (Node a p m h l r)) = Ret t /\
    avl t (1 + ht2) /\ pairs t = (pairs xl ++ (xa, xp) :: pairs t2) ++ (a, p) :: pairs r.
Proof.
  intros Hx Ht Hr Hb Hh. pose proof (avl_nonneg _ _ Hx). inversion Ht as [|a0 p0 m0 h0 l r0 hl hr0 Hl Hr0 Hb0 Hh0 Hm0]; subst; [lia|].
  exists (update_node (Node a0 p0 0 0 (update_node (Node xa xp 0 0 xl l)) (update_node (Node a p 0 0 r0 r)))).
  split; [done|]. split.
  - replace (1 + (hxl + 1)) with (1 + Z.max (1 + Z.max hxl hl) (1 + Z.max hr0 hr)) by lia.
    apply update_avl; [apply update_avl; [done|done|lia]|apply update_avl; [done|done|lia]|lia].
  - cbn [pairs update_node]. rewrite <- ?app_assoc. cbn [app]. by rewrite <- ?app_assoc.
Qed.

Lemma left_double a p m h l ya yp ym yh t2 yr hl ht2 hyr :
  avl l hl -> avl t2 ht2 -> avl yr hyr -> ht2 = hyr + 1 -> ht2 = hl + 1 ->
  exists t, (r ← right_rotate (Node ya yp ym yh t2 yr); left_rotate (Node a p m h l r)) = Ret t /\
    avl t (1 + ht2) /\ pairs t = pairs l ++ (a, p) :: (pairs t2 ++ (ya, yp) :: pairs yr).
Proof.
  intros Hx Ht Hr Hb Hh. pose proof (avl_nonneg _ _ Hx). inversion Ht as [|a0 p0 m0 h0 l0 r0 hl0 hr0 Hl0 Hr0 Hb0 Hh0 Hm0]; subst; [lia|].
  exists (update_node (Node a0 p0 0 0 (update_node (Node a p 0 0 l l0)) (update_node (Node ya yp 0 0 r0 yr)))).
  split; [done|]. split.
  - replace (1 + (hyr + 1)) with (1 + Z.max (1 + Z.max hl hl0) (1 + Z.max hr0 hyr)) by lia.
    apply update_avl; [apply update_avl; [done|done|lia]|apply update_avl; [done|done|lia]|lia].
  - cbn [pairs update_node]. rewrite <- ?app_assoc. cbn [app]. by rewrite <- ?app_assoc.
Qed.

(** ** Order *)

Section Sorted.
Context {A : Type} (R : A -> A -> Prop).
Lemma sorted_middle l1 x l2 : StronglySorted R (l1 ++ x :: l2) <->
  StronglySorted R l1 /\ StronglySorted R l2 /\ Forall (fun y => R y x) l1 /\ Forall (R x) l2 /\
  Forall (fun y => Forall (R y) l2) l1.
Proof.
  induction l1 as [|y l1 IH]; cbn [app].
  - split.
    + inversion 1; subst. split; [constructor|]. auto.
    + intros (_ & ? & _ & ? & _). by constructor.
  - split.
    + inversion 1 as [|? ? Hs Hf]; subst. apply IH in Hs as (H1 & H2 & H3 & H4 & H5).
      apply Forall_app in Hf as [Hf1 Hf2]. apply Forall_cons_1 in Hf2 as [Hf2 Hf3].
      split; [by constructor|]. split; [done|]. split; [by constructor|]. split; [done|]. by constructor.
    + intros (H1 & H2 & H3 & H4 & H5). inversion H1 as [|? ? Hs Hf]; subst. apply Forall_cons_1 in H3 as [? H3], H5 as [? H5].
      constructor; [apply IH; auto|]. apply Forall_app. split; [done|]. by constructor.
Qed.
End Sorted.

(** The keys of a subtree are below, between or above. *)
Definition key_lt (x y : nat * region) : Prop := start x.2 < start y.2.
Definition keyed (l : list (nat * region)) : Prop := StronglySorted key_lt l.

(** After an insertion of key [k] that made the tree higher, the tree leans to
    the side of [k]. *)
Definition leans (k : Z) (t : vma) : Prop :=
  match t with
  | Null => False
  | Node _ p _ _ l r => (k < start p -> get_height l = get_height r + 1) /\
      (start p < k -> get_height r = get_height l + 1) /\ (start p = k -> get_height l = 0 /\ get_height r = 0)
  end.

Lemma rebalance_left k a p m h l r hl hr : avl l hl -> avl r hr -> -1 <= hl - hr <= 2 -> (hl - hr = 2 -> leans k l) ->
  exists t h', rebalance_insert k (update_node (Node a p m h l r)) = Ret t /\ avl t h' /\
    pairs t = pairs l ++ (a, p) :: pairs r /\
    h' = (if hl - hr =? 2 then hl else 1 + Z.max hl hr) /\
    (hl - hr < 2 -> exists m0 h0, t = Node a p m0 h0 l r).
Proof.
  intros Hl Hr Hb Hlean. unfold rebalance_insert. cbn [update_node].
  match goal with |- context [Node a p ?x ?y l r] => set (m0 := x); set (h0 := y) end.
  cbn [get_balance]. rewrite (avl_height _ _ Hl), (avl_height _ _ Hr).
  pose proof (avl_nonneg _ _ Hr). destruct (hl - hr =? 2) eqn:E2; reify_bools.
  - destruct (hl - hr >? 1) eqn:?; reify_bools; [|lia]. specialize (Hlean E2).
    inversion Hl as [|xa xp xm xh xl t2 hxl ht2 Hxl Ht2 Hb' Hh Hm]; subst; [done|].
    destruct Hlean as (L1 & L2 & L3). rewrite (avl_height _ _ Hxl), (avl_height _ _ Ht2) in *. cbn [start_of]. rewrite ret_bind.
    destruct (k <? start xp) eqn:?; reify_bools.
    + specialize (L1 ltac:(lia)). destruct (right_single a p m0 h0 xa xp (Z.max (end_ xp) (Z.max (get_max_end xl) (get_max_end t2))) (1 + Z.max hxl ht2) xl t2 r hxl ht2 hr) as (t & E & Ht & Hp); try done; try lia.
      exists t, (1 + Z.max hxl (1 + Z.max ht2 hr)). split; [exact E|]. split; [done|]. split; [done|]. split; [lia|lia].
    + destruct (k >? start xp) eqn:?; reify_bools; [|specialize (L3 ltac:(lia)); lia].
      specialize (L2 ltac:(lia)). destruct (right_double a p m0 h0 xa xp (Z.max (end_ xp) (Z.max (get_max_end xl) (get_max_end t2))) (1 + Z.max hxl ht2) xl t2 r hxl ht2 hr) as (t & E & Ht & Hp); try done; try lia.
      exists t, (1 + ht2). split; [exact E|]. split; [done|]. split; [done|]. split; [lia|lia].
  - destruct (hl - hr >? 1) eqn:?; reify_bools; [lia|]. destruct (hl - hr <? -1) eqn:?; reify_bools; [lia|].
    exists (Node a p m0 h0 l r), (1 + Z.max hl hr). split; [done|]. split; [apply (update_avl a p m h l r hl hr Hl Hr); lia|].
    split; [done|]. split; [done|]. eauto.
Qed.

Lemma rebalance_right k a p m h l r hl hr : avl l hl -> avl r hr -> -1 <= hr - hl <= 2 -> (hr - hl = 2 -> leans k r) ->
  exists t h', rebalance_insert k (update_node (Node a p m h l r)) = Ret t /\ avl t h' /\
    pairs t = pairs l ++ (a, p) :: pairs r /\
    h' = (if hr - hl =? 2 then hr else 1 + Z.max hl hr) /\
    (hr - hl < 2 -> exists m0 h0, t = Node a p m0 h0 l r).
Proof.
  intros Hl Hr Hb Hlean. unfold rebalance_insert. cbn [update_node].
  match goal with |- context [Node a p ?x ?y l r] => set (m0 := x); set (h0 := y) end.
  cbn [get_balance]. rewrite (avl_height _ _ Hl), (avl_height _ _ Hr).
  pose proof (avl_nonneg _ _ Hl). destruct (hl - hr >? 1) eqn:?; reify_bools; [lia|].
  destruct (hr - hl =? 2) eqn:E2; reify_bools.
  - destruct (hl - hr <? -1) eqn:?; reify_bools; [|lia]. specialize (Hlean E2).
    inversion Hr as [|ya yp ym yh t2 yr ht2 hyr Ht2 Hyr Hb' Hh Hm]; subst; [done|].
    destruct Hlean as (L1 & L2 & L3). rewrite (avl_height _ _ Hyr), (avl_height _ _ Ht2) in *. cbn [start_of]. rewrite ret_bind.
    destruct (k >? start yp) eqn:?; reify_bools.
    + specialize (L2 ltac:(lia)). destruct (left_single a p m0 h0 l ya yp (Z.max (end_ yp) (Z.max (get_max_end t2) (get_max_end yr))) (1 + Z.max ht2 hyr) t2 yr hl ht2 hyr) as (t & E & Ht & Hp); try done; try lia.
      exists t, (1 + Z.max (1 + Z.max hl ht2) hyr). split; [exact E|]. split; [done|]. split; [done|]. split; [lia|lia].
    + destruct (k <? start yp) eqn:?; reify_bools; [|specialize (L3 ltac:(lia)); lia].
      specialize (L1 ltac:(lia)). destruct (left_double a p m0 h0 l ya yp (Z.max (end_ yp) (Z.max (get_max_end t2) (get_max_end yr))) (1 + Z.max ht2 hyr) t2 yr hl ht2 hyr) as (t & E & Ht & Hp); try done; try lia.
      exists t, (1 + ht2). split; [exact E|]. split; [done|]. split; [done|]. split; [lia|lia].
  - destruct (hl - hr <? -1) eqn:?; reify_bools; [lia|].
    exists (Node a p m0 h0 l r), (1 + Z.max hl hr). split; [done|]. split; [apply (update_avl a p m h l r hl hr Hl Hr); lia|].
    split; [done|]. split; [done|]. eauto.
Qed.

(** Insertion of a new key. *)
Lemma insert_spec na q t : 0 <= end_ q -> forall h, avl t h -> keyed (pairs t) -> Forall (fun x => start x.2 <> start q) (pairs t) ->
  exists t' h' P1 P2, insert_node t (Node na q (end_ q) 1 Null Null) = Ret t' /\ avl t' h' /\
    pairs t = P1 ++ P2 /\ pairs t' = P1 ++ (na, q) :: P2 /\
    Forall (fun x => start x.2 < start q) P1 /\ Forall (fun x => start q < start x.2) P2 /\
    (h' = h \/ h' = h + 1 /\ leans (start q) t').
Proof.
  intros Hq. induction t as [|a p m h l IHl r IHr]; intros h1 Ht Hk Hne; cbn [insert_node].
  - inversion Ht; subst. exists (Node na q (end_ q) 1 Null Null), 1, [], []. split; [done|]. split.
    { apply (avl_node _ _ _ _ _ _ 0 0); [apply avl_null|apply avl_null|lia|lia|simpl; lia]. }
    repeat (split; [done || constructor|]). right. simpl. lia.
  - inversion Ht as [|? ? ? ? ? ? hl hr Hl Hr Hb Hh Hm]; subst.
    cbn [pairs] in Hk, Hne. apply sorted_middle in Hk as (Kl & Kr & Klx & Kxr & _).
    apply Forall_app in Hne as [Nl Nr]. apply Forall_cons_1 in Nr as [Nx Nr].
    destruct (start q <? start p) eqn:?; reify_bools.
    + destruct (IHl hl Hl Kl Nl) as (l' & hl' & P1 & P2 & -> & Al & E1 & E2 & F1 & F2 & Hgrow). rewrite ret_bind.
      destruct (rebalance_left (start q) a p (Z.max (end_ p) (Z.max (get_max_end l) (get_max_end r))) (1 + Z.max hl hr) l' r hl' hr Al Hr) as (t' & h' & -> & At & Ep & Eh & Es);
        [lia|destruct Hgrow as [->|[-> ?]]; [lia|done]|].
      exists t', h', P1, (P2 ++ (a, p) :: pairs r). split; [done|]. split; [done|].
      split; [cbn [pairs]; rewrite E1; by rewrite <- app_assoc|]. split; [rewrite Ep, E2; by rewrite <- app_assoc|].
      split; [done|]. split.
      { apply Forall_app. split; [done|]. constructor; [simpl; lia|]. eapply Forall_impl; [|exact Kxr]. intros x Hx. unfold key_lt in Hx. simpl in *. lia. }
      destruct (hl' - hr =? 2) eqn:E; reify_bools; [destruct Hgrow as [->|[-> _]]; left; lia|].
      destruct Hgrow as [->|[-> Hlean]]; [left; lia|]. destruct (decide (hl = hr)); [|left; lia]. right. split; [lia|].
      destruct Es as (m0 & h0 & ->); [lia|]. simpl. rewrite (avl_height _ _ Al), (avl_height _ _ Hr). lia.
    + destruct (start q >? start p) eqn:?; reify_bools; [|simpl in Nx; lia].
      destruct (IHr hr Hr Kr Nr) as (r' & hr' & P1 & P2 & -> & Ar & E1 & E2 & F1 & F2 & Hgrow). rewrite ret_bind.
      destruct (rebalance_right (start q) a p (Z.max (end_ p) (Z.max (get_max_end l) (get_max_end r))) (1 + Z.max hl hr) l r' hl hr' Hl Ar) as (t' & h' & -> & At & Ep & Eh & Es);
        [lia|destruct Hgrow as [->|[-> ?]]; [lia|done]|].
      exists t', h', (pairs l ++ (a, p) :: P1), P2. split; [done|]. split; [done|].
      split; [cbn [pairs]; rewrite E1; by rewrite <- app_assoc|]. split; [rewrite Ep, E2; by rewrite <- app_assoc|].
      split.
      { apply Forall_app. split; [|constructor; [simpl; lia|done]]. eapply Forall_impl; [|exact Klx]. intros x Hx. unfold key_lt in Hx. simpl in *. lia. }
      split; [done|].
      destruct (hr' - hl =? 2) eqn:E; reify_bools; [destruct Hgrow as [->|[-> _]]; left; lia|].
      destruct Hgrow as [->|[-> Hlean]]; [left; lia|]. destruct (decide (hl = hr)); [|left; lia]. right. split; [lia|].
      destruct Es as (m0 & h0 & ->); [lia|]. simpl. rewrite (avl_height _ _ Ar), (avl_height _ _ Hl). lia.
Qed.

(** ** Deletion *)

Lemma rebalance_delete_spec a p m h l r hl hr : avl l hl -> avl r hr -> -2 <= hl - hr <= 2 ->
  exists t h', rebalance_delete (update_node (Node a p m h l r)) = Ret t /\ avl t h' /\
    pairs t = pairs l ++ (a, p) :: pairs r /\ Z.max hl hr <= h' <= 1 + Z.max hl hr /\
    (-1 <= hl - hr <= 1 -> h' = 1 + Z.max hl hr).
Proof.
  intros Hl Hr Hb. unfold rebalance_delete. cbn [update_node].
  match goal with |- context [Node a p ?x ?y l r] => set (m0 := x); set (h0 := y) end.
  cbn [get_balance]. rewrite (avl_height _ _ Hl), (avl_height _ _ Hr).
  pose proof (avl_nonneg _ _ Hr). pose proof (avl_nonneg _ _ Hl).
  destruct (hl - hr >? 1) eqn:?; reify_bools; [|destruct (hl - hr <? -1) eqn:?; reify_bools].
  - inversion Hl as [|xa xp xm xh xl t2 hxl ht2 Hxl Ht2 Hb' Hh Hm]; [lia|]. subst l xh. cbn [get_balance].
    rewrite (avl_height _ _ Hxl), (avl_height _ _ Ht2). destruct (hxl - ht2 >=? 0) eqn:?; reify_bools.
    + destruct (right_single a p m0 h0 xa xp xm hl xl t2 r hxl ht2 hr) as (t & E & Ht & Hp); try done; try lia.
      eexists t, _. split; [exact E|]. split; [exact Ht|]. split; [exact Hp|]. lia.
    + destruct (right_double a p m0 h0 xa xp xm hl xl t2 r hxl ht2 hr) as (t & E & Ht & Hp); try done; try lia.
      eexists t, _. split; [exact E|]. split; [exact Ht|]. split; [exact Hp|]. lia.
  - inversion Hr as [|ya yp ym yh t2 yr ht2 hyr Ht2 Hyr Hb' Hh Hm]; [lia|]. subst r yh. cbn [get_balance].
    rewrite (avl_height _ _ Hyr), (avl_height _ _ Ht2). destruct (ht2 - hyr <=? 0) eqn:?; reify_bools.
    + destruct (left_single a p m0 h0 l ya yp ym hr t2 yr hl ht2 hyr) as (t & E & Ht & Hp); try done; try lia.
      eexists t, _. split; [exact E|]. split; [exact Ht|]. split; [exact Hp|]. lia.
    + destruct (left_double a p m0 h0 l ya yp ym hr t2 yr hl ht2 hyr) as (t & E & Ht & Hp); try done; try lia.
      eexists t, _. split; [exact E|]. split; [exact Ht|]. split; [exact Hp|]. lia.
  - eexists _, _. split; [done|]. split; [apply (update_avl a p m h l r hl hr Hl Hr); lia|]. split; [done|]. lia.
Qed.

Lemma strip_min_spec t : t <> Null -> exists j q P, pairs t = (j, q) :: P /\ min_value_node t = Ret q /\
  pairs (strip_min t) = (j, strip_refs q) :: P.
Proof.
  induction t as [|a p m h l IHl r _]; intros Hn; [done|]. cbn [pairs]. destruct l as [|a' p' m' h' l' r'].
  - by exists a, p, (pairs r).
  - destruct IHl as (j & q & P & E1 & E2 & E3); [done|]. exists j, q, (P ++ (a, p) :: pairs r).
    rewrite E1. split; [done|]. split; [exact E2|].
    change (pairs (strip_min (Node a' p' m' h' l' r')) ++ (a, p) :: pairs r = ((j, strip_refs q) :: P) ++ (a, p) :: pairs r).
    by rewrite E3.
Qed.

Lemma strip_min_avl t h : avl t h -> avl (strip_min t) h /\ get_max_end (strip_min t) = get_max_end t /\ size (strip_min t) = size t.
Proof.
  induction 1 as [|a p m h l r hl hr Hl IHl Hr _ Hb Hh Hm]; [by repeat constructor|].
  destruct l as [|a' p' m' h' l' r'].
  - split; [|done]. inversion Hl; subst. eapply avl_node; eauto.
  - destruct IHl as (I1 & I2 & I3). cbn [strip_min] in *. split; [|cbn [get_max_end size] in *; split; [done|lia]].
    eapply avl_node; eauto. by rewrite I2.
Qed.

(** What a deletion of key [k] does to the contents: the region leaves, the
    others keep their order, and of the nodes from there on one is freed. *)
Definition removes (k : Z) (d : deletion) (P P' : list (nat * region)) : Prop :=
  exists P1 i p P2 P2' f, P = P1 ++ (i, p) :: P2 /\ start p = k /\ P' = P1 ++ P2' /\ map snd P2' = map snd P2 /\
    Permutation (i :: map fst P2) (f :: map fst P2') /\ deleted d = true /\ freed d = [f] /\
    omap file_node (dropped d) = option_list (file_node p) /\ omap linux_vma (dropped d) = option_list (linux_vma p).

Lemma removes_right k d A x B B' : removes k d B B' -> removes k d (A ++ x :: B) (A ++ x :: B').
Proof.
  intros (P1 & i & p & P2 & P2' & f & -> & H1 & -> & H2). exists (A ++ x :: P1), i, p, P2, P2', f.
  rewrite <- !app_assoc. done.
Qed.
Lemma removes_left k d A A' C : removes k d A A' -> removes k d (A ++ C) (A' ++ C).
Proof.
  intros (P1 & i & p & P2 & P2' & f & -> & H1 & -> & H2 & H3 & H4).
  exists P1, i, p, (P2 ++ C), (P2' ++ C), f. rewrite <- !app_assoc, !map_app, H2.
  split; [done|]. split; [done|]. split; [done|]. split; [done|]. split; [|done].
  rewrite !app_comm_cons. by apply Permutation_app_tail.
Qed.

Lemma keyed_head x P P1 y P2 : keyed (x :: P) -> x :: P = P1 ++ y :: P2 -> start y.2 = start x.2 -> P1 = [] /\ x = y /\ P = P2.
Proof.
  intros Hk E He. destruct P1 as [|z P1]; cbn [app] in E; [by simplify_eq|]. injection E as -> ->. exfalso.
  inversion Hk as [|? ? _ Hf]; subst. apply Forall_app in Hf as [_ Hf]. apply Forall_cons_1 in Hf as [Hf _].
  unfold key_lt in Hf. lia.
Qed.

(** The two outcomes of a deletion. *)
Definition delete_result (k : Z) (d : deletion) (P P' : list (nat * region)) : Prop :=
  (Forall (fun x => start x.2 <> k) P /\ P' = P /\ d = no_deletion) \/ removes k d P P'.

Lemma finish_spec {B} a p m h l r hl hr (d : B) : avl l hl -> avl r hr -> -2 <= hl - hr <= 2 ->
  exists t h', (node ← rebalance_delete (update_node (Node a p m h l r)); Ret (node, d)) = Ret (t, d) /\ avl t h' /\
    pairs t = pairs l ++ (a, p) :: pairs r /\ Z.max hl hr <= h' <= 1 + Z.max hl hr /\
    (-1 <= hl - hr <= 1 -> h' = 1 + Z.max hl hr).
Proof.
  intros Hl Hr Hb. destruct (rebalance_delete_spec a p m h l r hl hr Hl Hr Hb) as (t & h' & -> & H). exists t, h'. by rewrite ret_bind.
Qed.

(** A subtree that takes the place of its parent. *)
Lemma finish_child {B} t h (d : B) : avl t h -> t <> Null ->
  exists t', (node ← rebalance_delete (update_node t); Ret (node, d)) = Ret (t', d) /\ avl t' h /\ pairs t' = pairs t.
Proof.
  intros Ht Hn. destruct Ht as [|a p m h l r hl hr Hl Hr Hb Hh Hm]; [done|].
  destruct (finish_spec a p m h l r hl hr d Hl Hr ltac:(lia)) as (t' & h' & E & A & Ep & _ & Eh).
  exists t'. split; [exact E|]. rewrite Hh, <- (Eh Hb). done.
Qed.

Lemma removes_top k i p P1 P2 : start p = k ->
  removes k (mk_deletion true [p] [i]) (P1 ++ (i, p) :: P2) (P1 ++ P2).
Proof.
  intros Hk. exists P1, i, p, P2, P2, i. repeat (split; [done|]). cbn. by destruct (file_node p), (linux_vma p).
Qed.

Lemma removes_two k i p A j q P P' d : start p = k -> keyed ((j, strip_refs q) :: P) ->
  removes (start q) d ((j, strip_refs q) :: P) P' ->
  removes k (mk_deletion true (p :: dropped d) (freed d)) (A ++ (i, p) :: (j, q) :: P) (A ++ (i, q) :: P').
Proof.
  intros Hk Hkeyed (P1 & i' & p' & P2 & P2' & f & E & Hs & -> & Hm & Hp & _ & Hf & Hd1 & Hd2).
  destruct (keyed_head _ _ _ _ _ Hkeyed E) as (-> & [= -> <-] & ->); [done|].
  exists A, i, p, ((i', q) :: P2), ((i, q) :: P2'), f. split; [done|]. split; [done|]. split; [done|].
  split; [cbn; by rewrite Hm|]. split.
  { cbn [map fst]. cbn [app] in *. rewrite Hp. apply perm_swap. }
  split; [done|]. split; [done|]. cbn. rewrite Hd1, Hd2. by destruct (file_node p), (linux_vma p).
Qed.

Lemma null_dec (t : vma) : t = Null \/ t <> Null.
Proof. destruct t; [by left|by right]. Qed.

Lemma delete_spec fuel : forall k t h, (size t < fuel)%nat -> avl t h -> keyed (pairs t) ->
  exists t' d h', delete_node fuel t k = Ret (t', d) /\ avl t' h' /\ h - 1 <= h' <= h /\
    delete_result k d (pairs t) (pairs t').
Proof.
  induction fuel as [|fuel IH]; intros k t h1 Hsz Ht Hk; [lia|]. cbn [delete_node].
  destruct Ht as [|a p m h l r hl hr Hl Hr Hb Hh Hm].
  { exists Null, no_deletion, 0. split; [done|]. split; [constructor|]. split; [lia|]. left. by repeat constructor. }
  cbn [size pairs] in *. pose proof Hk as Hk0. apply sorted_middle in Hk as (Kl & Kr & Klx & Kxr & Klr).
  destruct (k <? start p) eqn:Hlt; reify_bools; [|destruct (k >? start p) eqn:Hgt; reify_bools].
  - destruct (IH k l hl ltac:(lia) Hl Kl) as (l' & d & hl' & -> & Al & Bl & Dl). rewrite ret_bind.
    destruct (finish_spec a p m h l' r hl' hr d Al Hr ltac:(lia)) as (t' & h' & -> & At & Ep & Hh' & Hh'').
    exists t', d, h'. split; [done|]. split; [done|]. split; [lia|]. rewrite Ep.
    destruct Dl as [(F & -> & ->)|D]; [left|right; by apply removes_left].
    split; [|done]. apply Forall_app. split; [done|]. constructor; [simpl; lia|].
    eapply Forall_impl; [|exact Kxr]. intros x Hx. unfold key_lt in Hx. simpl in Hx. lia.
  - destruct (IH k r hr ltac:(lia) Hr Kr) as (r' & d & hr' & -> & Ar & Br & Dr). rewrite ret_bind.
    destruct (finish_spec a p m h l r' hl hr' d Hl Ar ltac:(lia)) as (t' & h' & -> & At & Ep & Hh' & Hh'').
    exists t', d, h'. split; [done|]. split; [done|]. split; [lia|]. rewrite Ep.
    destruct Dr as [(F & -> & ->)|D]; [left|right; by apply removes_right].
    split; [|done]. apply Forall_app. split; [|by constructor; [simpl; lia|]].
    eapply Forall_impl; [|exact Klx]. intros x Hx. unfold key_lt in Hx. simpl in Hx. lia.
  - assert (Ek : start p = k) by lia. pose proof (avl_nonneg _ _ Hl). pose proof (avl_nonneg _ _ Hr).
    destruct (null_dec l) as [->|Nl]; [|destruct (null_dec r) as [->|Nr]].
    + inversion Hl; subst hl. destruct (null_dec r) as [->|Nr].
      * inversion Hr; subst hr. eexists Null, _, 0. split; [done|]. split; [constructor|]. split; [lia|].
        right. by apply (removes_top k a p []).
      * destruct (finish_child r hr (mk_deletion true [p] [a]) Hr Nr) as (t' & E & At & Ep).
        exists t', (mk_deletion true [p] [a]), hr. split; [by destruct r|]. split; [done|]. split; [lia|].
        rewrite Ep. right. by apply (removes_top k a p []).
    + inversion Hr; subst hr. destruct (finish_child l hl (mk_deletion true [p] [a]) Hl Nl) as (t' & E & At & Ep).
      exists t', (mk_deletion true [p] [a]), hl. split; [by destruct l|]. split; [done|]. split; [lia|].
      rewrite Ep. right. rewrite <- (app_nil_r (pairs l)) at 2. by apply removes_top.
    + destruct (strip_min_spec r Nr) as (j & q & P & E1 & E2 & E3). destruct (strip_min_avl r hr Hr) as (As & _ & Ss).
      assert (Ks : keyed (pairs (strip_min r))).
      { rewrite E3. rewrite E1 in Kr. inversion Kr as [|? ? K1 K2]; subst. by constructor. }
      destruct (IH (start q) (strip_min r) hr ltac:(lia) As Ks) as (r' & d & hr' & E & Ar & Br & Dr).
      destruct (finish_spec a q m h l r' hl hr' (mk_deletion true (p :: dropped d) (freed d)) Hl Ar ltac:(lia))
        as (t' & h' & E' & At & Ep & Hh' & Hh'').
      exists t', (mk_deletion true (p :: dropped d) (freed d)), h'. split.
      { destruct l as [|la lp lm lh ll lr]; [done|]. destruct r as [|ra rp rm rh rl rr]; [done|].
        rewrite E2, ret_bind, E, ret_bind. exact E'. }
      split; [done|]. split; [lia|]. rewrite Ep, E1. right. rewrite E3 in Dr. unfold keyed in Ks. rewrite E3 in Ks.
      apply removes_two; [done|done|]. destruct Dr as [(F & _ & _)|D]; [|done].
      by apply Forall_cons_1 in F as [F _].
Qed.

(** ** Queries *)

Definition contains (x : Z) (p : region) : bool := (start p <=? x) && (x <? end_ p).
Definition overlaps (s e : Z) (p : region) : bool := (s <? end_ p) && (e >? start p).

Lemma find_app {A} (f : A -> bool) l1 l2 :
  List.find f (l1 ++ l2) = match List.find f l1 with Some x => Some x | None => List.find f l2 end.
Proof. induction l1 as [|x l1 IH]; simpl; [done|]. by destruct (f x). Qed.
Lemma find_none {A} (f : A -> bool) l : Forall (fun x => f x = false) l -> List.find f l = None.
Proof. induction 1 as [|x l Hx _ IH]; simpl; [done|]. by rewrite Hx. Qed.

Lemma max_end_bound t h : avl t h -> Forall (fun x => end_ x.2 <= get_max_end t) (pairs t).
Proof.
  induction 1 as [|a p m h l r hl hr Hl IHl Hr IHr Hb Hh Hm]; [constructor|]. cbn [pairs get_max_end].
  apply Forall_app. split; [|constructor; [simpl; lia|]];
    (eapply Forall_impl; [|first [exact IHl|exact IHr]]); intros x Hx; simpl in *; lia.
Qed.

(** The pruned descent for an overlap returns the first region in address order
    that overlaps. *)
Lemma overlap_first t h s e : avl t h ->
  vma_find_overlap_recursive t s e = List.find (fun x => overlaps s e x.2) (pairs t).
Proof.
  induction 1 as [|a p m h l r hl hr Hl IHl Hr IHr Hb Hh Hm]; [done|]. cbn [vma_find_overlap_recursive pairs].
  rewrite find_app. cbn [List.find snd].
  assert (El : (if match l with Null => false | _ => get_max_end l >? s end then vma_find_overlap_recursive l s e else None)
    = List.find (fun x => overlaps s e x.2) (pairs l)).
  { rewrite <- IHl. destruct l as [|a' p' m' h' l' r']; [done|]. destruct (get_max_end _ >? s) eqn:Hs; [done|]. reify_bools.
    rewrite IHl. symmetry. apply find_none. eapply Forall_impl; [|exact (max_end_bound _ _ Hl)].
    intros x Hx. unfold overlaps. destruct (s <? end_ x.2) eqn:?; reify_bools; [simpl in *; lia|done]. }
  rewrite El. destruct (List.find _ (pairs l)); [done|]. unfold overlaps at 1. destruct (_ && _); [done|].
  destruct (s >=? m) eqn:Hs; reify_bools; [|done]. symmetry. apply find_none.
  eapply Forall_impl; [|exact (max_end_bound _ _ Hr)].
  intros x Hx. unfold overlaps. destruct (s <? end_ x.2) eqn:?; reify_bools; [simpl in *; lia|done].
Qed.

Lemma Forall_snd {A B} (P : B -> Prop) (l : list (A * B)) : Forall P (map snd l) <-> Forall (fun x => P x.2) l.
Proof. induction l as [|x l IH]; cbn [map]; [by split|]. by rewrite !Forall_cons_iff, IH. Qed.

Lemma ordered_middle l1 p l2 : ordered (l1 ++ p :: l2) <->
  ordered l1 /\ ordered l2 /\ nonempty p /\ Forall (fun y => before y p) l1 /\ Forall (before p) l2 /\
  Forall (fun y => Forall (before y) l2) l1.
Proof. unfold ordered. rewrite sorted_middle, Forall_app, Forall_cons_iff. tauto. Qed.

Lemma ordered_keyed t : ordered (regions t) -> keyed (pairs t).
Proof.
  unfold regions, ordered, keyed. induction (pairs t) as [|x l IH]; intros [Hs Hn]; [constructor|].
  cbn [map] in *. inversion Hs as [|? ? H1 H2]; subst. apply Forall_cons_1 in Hn as [Hx Hn].
  constructor; [apply IH; auto|]. apply Forall_snd in H2. eapply Forall_impl; [|exact H2].
  intros y Hy. unfold before, key_lt, nonempty in *. simpl in *. lia.
Qed.

Lemma find_first t x : ordered (regions t) ->
  vma_find_recursive t x = List.find (fun y => contains x y.2) (pairs t).
Proof.
  unfold regions. induction t as [|a p m h l IHl r IHr]; intros Ho; [done|]. cbn [vma_find_recursive pairs] in *.
  rewrite map_app in Ho. cbn [map] in Ho. apply ordered_middle in Ho as (Ol & Or & Hp & Bl & Br & _).
  rewrite find_app. cbn [List.find snd]. fold (contains x p).
  assert (Hleft : start p <= x -> List.find (fun y => contains x y.2) (pairs l) = None).
  { intros Hx. apply find_none. apply Forall_snd in Bl. eapply Forall_impl; [|exact Bl]. intros y Hy.
    unfold contains, before in *. destruct (x <? end_ y.2) eqn:?; reify_bools; [simpl in *; lia|apply andb_false_r]. }
  destruct (contains x p) eqn:Hc.
  { unfold contains in Hc. reify_bools. by rewrite Hleft. }
  destruct (x <? start p) eqn:Hx; reify_bools.
  - rewrite IHl by done. destruct (List.find _ (pairs l)); [done|]. symmetry. apply find_none.
    apply Forall_snd in Br. eapply Forall_impl; [|exact Br]. intros y Hy. unfold contains, before, nonempty in *.
    destruct (start y.2 <=? x) eqn:?; reify_bools; [simpl in *; lia|done].
  - rewrite Hleft by done. by apply IHr.
Qed.

End VmaTree.
