(* ===== verification/Vma.v ===== *)
(** Vma: the virtual memory areas of a process ([kernel/src/mm/vma.c], except the
    debug dump).

    A [vma_list] is the tree of [VmaTree], its node count, the four cached node
    pointers, and the references that the list holds on files and on LinuxKPI
    mappings. A cached pointer is dereferenced through [node_at]: a node that is
    not in the tree any more has been freed, and touching it is a fault.

    The node allocator and [kmalloc] are parameters: [alloc] gets the number of
    earlier requests and the addresses in use, and may fail. *)

From S2P Require Import Prelude VmaTree.

Module Vma.
Import VmaTree.

Definition MAP_LOCKED : Z := 0x2000.
Definition MAP_GROWSDOWN : Z := 0x0100.
Definition MAP_STACK : Z := 0x20000.
Definition MAP_SYSV_SHM : Z := 0x100000000.
Definition VMA_CACHE_SIZE : nat := 4.
Definition VMA_STACK_CAP : Z := 64.

(** References held, by object. *)
Definition refs := Z -> Z.
Definition ref (o : option Z) (f : refs) : refs := fun n => f n + Z.b2z (bool_decide (o = Some n)).
Definition unref (o : option Z) (f : refs) : refs := fun n => f n - Z.b2z (bool_decide (o = Some n)).

Record vma_list := mk_list {
  root : vma; count : Z; cache : list (option nat); files : refs; linux : refs; ticks : nat }.
Definition set_root (t : vma) (l : vma_list) : vma_list := mk_list t (count l) (cache l) (files l) (linux l) (ticks l).
Definition set_count (c : Z) (l : vma_list) : vma_list := mk_list (root l) c (cache l) (files l) (linux l) (ticks l).
Definition set_cache (c : list (option nat)) (l : vma_list) : vma_list :=
  mk_list (root l) (count l) c (files l) (linux l) (ticks l).
Definition set_files (f : refs) (l : vma_list) : vma_list := mk_list (root l) (count l) (cache l) f (linux l) (ticks l).
Definition set_linux_refs (f : refs) (l : vma_list) : vma_list := mk_list (root l) (count l) (cache l) (files l) f (ticks l).
Definition tick (l : vma_list) : vma_list := mk_list (root l) (count l) (cache l) (files l) (linux l) (S (ticks l)).

Definition vma_file_ref (o : option Z) (l : vma_list) : vma_list := set_files (ref o (files l)) l.
Definition vma_file_unref (o : option Z) (l : vma_list) : vma_list := set_files (unref o (files l)) l.
Definition vma_linux_get (o : option Z) (l : vma_list) : vma_list := set_linux_refs (ref o (linux l)) l.
Definition vma_linux_put (o : option Z) (l : vma_list) : vma_list := set_linux_refs (unref o (linux l)) l.

(** [vma_drop_file_ref] and [vma_drop_linux_ref] on regions that leave the tree. *)
Definition drop_refs (ds : list region) (l : vma_list) : vma_list :=
  foldl (fun l p => vma_linux_put (linux_vma p) (vma_file_unref (file_node p) l)) l ds.

Definition vma_cache_flush (l : vma_list) : vma_list := set_cache (replicate VMA_CACHE_SIZE None) l.
Definition vma_list_init (l : vma_list) : vma_list := vma_cache_flush (set_count 0 (set_root Null l)).

(** [cache[3] = cache[2]; ...; cache[0] = node] *)
Definition cache_push (a : nat) (l : vma_list) : vma_list := set_cache (take VMA_CACHE_SIZE (Some a :: cache l)) l.

(** The region at a node address. *)
Definition node_at (t : vma) (a : nat) : option region := snd <$> List.find (fun x => Nat.eqb x.1 a) (pairs t).
(** Writing the region of a node. *)
Fixpoint set_node (a : nat) (q : region) (t : vma) : vma :=
  match t with
  | Null => Null
  | Node b p m h l r => if Nat.eqb b a then Node b q m h l r else Node b p m h (set_node a q l) (set_node a q r)
  end.

(** The loop over the cache. *)
Fixpoint cache_find (t : vma) (x : Z) (c : list (option nat)) : outcome (option (nat * region)) :=
  match c with
  | [] => Ret None
  | None :: c => cache_find t x c
  | Some a :: c => p ← deref (node_at t a); if contains x p then Ret (Some (a, p)) else cache_find t x c
  end.

Definition vma_find (l : vma_list) (x : Z) : outcome (option (nat * region) * vma_list) :=
  hit ← cache_find (root l) x (cache l);
  match hit with
  | Some v => Ret (Some v, l)
  | None =>
    match vma_find_recursive (root l) x with
    | Some (a, p) => Ret (Some (a, p), cache_push a l)
    | None => Ret (None, l)
    end
  end.

Definition vma_find_overlap (l : vma_list) (s e : Z) : option (nat * region) :=
  vma_find_overlap_recursive (root l) s e.

Definition vma_attach_linux (l : vma_list) (x : Z) (o : option Z) : outcome vma_list :=
  match o with
  | None => Ret l
  | Some _ =>
    '(v, l) ← vma_find l x;
    match v with
    | None => Ret l
    | Some (a, p) =>
      if bool_decide (linux_vma p = o) then Ret l
      else
        let l := vma_linux_put (linux_vma p) l in
        let l := set_root (set_node a (set_linux o p) (root l)) l in
        Ret (vma_linux_get o l)
    end
  end.

Section Alloc.
Variable alloc : nat -> list nat -> option nat.
Variable kmalloc_ok : nat -> bool.

Definition vma_add (l : vma_list) (s e pr fl f off : Z) (file : option Z) (fsize : Z) : outcome (Z * vma_list) :=
  match vma_find_overlap l s e with
  | Some _ => Ret (-1, l)
  | None =>
    match alloc (ticks l) (ids (root l)) with
    | None => Ret (-1, tick l)
    | Some a =>
      let l := vma_file_ref file (tick l) in
      t ← insert_node (root l) (Node a (mk_region s e pr fl off fsize f file None 0 0 0) e 1 Null Null);
      Ret (0, cache_push a (set_count (count l + 1) (set_root t l)))
    end
  end.

(** Re-inserting a piece of a mapping and attaching its wrapper; the result of
    [vma_add] is not used. *)
Definition add_piece (l : vma_list) (p : region) (s e off fsize : Z) : outcome vma_list :=
  '(_, l) ← vma_add l s e (prot p) (flags p) (fd p) off (file_node p) fsize;
  vma_attach_linux l s (linux_vma p).

(** Cases 1 to 4 of [vma_remove]: what is left of the region [p], which is not in
    the tree any more, goes back in. *)
Definition add_rest (l : vma_list) (p : region) (s e : Z) : outcome vma_list :=
  if (s >? start p) && (e <? end_ p) then
    let len1 := s - start p in
    let rel2 := e - start p in
    let len2 := end_ p - e in
    let sub2 := if file_size p >? rel2 then Z.min (file_size p - rel2) len2 else 0 in
    l ← add_piece l p (start p) s (offset p) (Z.min (file_size p) len1);
    add_piece l p e (end_ p) (u64 (offset p + rel2)) sub2
  else if (s <=? start p) && (e >? start p) && (e <? end_ p) then
    let rel := e - start p in
    let len := end_ p - e in
    add_piece l p e (end_ p) (u64 (offset p + rel))
      (if file_size p >? rel then Z.min (file_size p - rel) len else 0)
  else if (e >=? end_ p) && (s >? start p) && (s <? end_ p) then
    add_piece l p (start p) s (offset p) (Z.min (file_size p) (s - start p))
  else Ret l.

(** One turn of the loop of [vma_remove] for an overlapping region. *)
Definition remove_step (l : vma_list) (p : region) (s e : Z) : outcome vma_list :=
  let l := vma_linux_get (linux_vma p) (vma_file_ref (file_node p) l) in
  '(t, d) ← delete_node (S (size (root l))) (root l) (start p);
  let l := set_count (count l - 1) (drop_refs (dropped d) (set_root t l)) in
  l ← add_rest l p s e;
  Ret (vma_linux_put (linux_vma p) (vma_file_unref (file_node p) l)).

Fixpoint remove_loop (fuel : nat) (l : vma_list) (s e : Z) (removed : bool) : outcome (bool * vma_list) :=
  match fuel with
  | O => OutOfFuel
  | S fuel =>
    match vma_find_overlap l s e with
    | None => Ret (removed, l)
    | Some (_, p) => l ← remove_step l p s e; remove_loop fuel l s e true
    end
  end.
Definition vma_remove (l : vma_list) (s e : Z) : outcome (bool * vma_list) :=
  remove_loop (S (size (root l))) (vma_cache_flush l) s e false.

(** One mapped region of [vma_mprotect]; returns the new [curr]. *)
Definition mprotect_step (l : vma_list) (p : region) (s e new_prot : Z) : outcome (Z * vma_list) :=
  let m_start := Z.max (start p) s in
  let m_end := Z.min (end_ p) e in
  let l := vma_linux_get (linux_vma p) (vma_file_ref (file_node p) l) in
  let rel := m_start - start p in
  let m_len := m_end - m_start in
  let sub := if file_size p >? rel then Z.min (file_size p - rel) m_len else 0 in
  '(_, l) ← vma_remove l m_start m_end;
  '(_, l) ← vma_add l m_start m_end new_prot (flags p) (fd p) (u64 (offset p + rel)) (file_node p) sub;
  l ← vma_attach_linux (vma_file_unref (file_node p) l) m_start (linux_vma p);
  Ret (m_end, vma_linux_put (linux_vma p) l).

Fixpoint mprotect_loop (fuel : nat) (l : vma_list) (curr s e new_prot : Z) : outcome vma_list :=
  match fuel with
  | O => OutOfFuel
  | S fuel =>
    if curr <? e then
      '(v, l) ← vma_find l curr;
      match v with
      | None =>
        match vma_find_overlap l curr e with
        | None => Ret l
        | Some (_, p) => mprotect_loop fuel l (start p) s e new_prot
        end
      | Some (_, p) =>
        '(curr, l) ← mprotect_step l p s e new_prot;
        mprotect_loop fuel l curr s e new_prot
      end
    else Ret l
  end.
(** The result is always 0. Every turn passes a region or the gap before it. *)
Definition vma_mprotect (l : vma_list) (s e new_prot : Z) : outcome vma_list :=
  mprotect_loop (2 * size (root l) + 2) l s s e new_prot.

(** ** Fork *)

Definition copy_numa (p q : region) : region :=
  mk_region (start q) (end_ q) (prot q) (flags q) (offset q) (file_size q) (fd q) (file_node q) (linux_vma q)
    (numa_policy p) (numa_nodemask p) (numa_preferred_node p).

Fixpoint clone_recursive (dst : vma_list) (node : vma) : outcome (bool * vma_list) :=
  match node with
  | Null => Ret (true, dst)
  | Node _ p _ _ l r =>
    '(err, dst) ← vma_add dst (start p) (end_ p) (prot p) (Z.land (flags p) (UINT64_MAX - MAP_LOCKED)) (fd p) (offset p)
                    (file_node p) (file_size p);
    if nz err then Ret (false, dst)
    else
      dst ← vma_attach_linux dst (start p) (linux_vma p);
      '(v, dst) ← vma_find dst (start p);
      let dst := match v with
                 | Some (a, q) => set_root (set_node a (copy_numa p q) (root dst)) dst
                 | None => dst
                 end in
      '(ok, dst) ← clone_recursive dst l;
      if (ok : bool) then clone_recursive dst r else Ret (false, dst)
  end.

(** Releasing every node. *)
Definition vma_list_destroy (l : vma_list) : vma_list :=
  vma_cache_flush (set_count 0 (set_root Null (drop_refs (regions (root l)) l))).

(** [dst] starts with no references. *)
Definition vma_list_clone (dst src : vma_list) : outcome (bool * vma_list) :=
  '(ok, dst) ← clone_recursive (vma_list_init dst) (root src);
  if (ok : bool) then Ret (true, dst) else Ret (false, vma_list_destroy dst).

(** ** Gaps and merging *)

(** [inorder_gather] into an array with [cap] elements. *)
Definition gather (cap : Z) (t : vma) : outcome (list (nat * region)) :=
  if cap <? Z.of_nat (size t) then Fault else Ret (pairs t).

(** The loop over the sorted array: the position reached, and the gap. *)
Fixpoint gap_loop (arr : list region) (length_ limit current : Z) : Z * Z :=
  match arr with
  | [] => (current, 0)
  | p :: arr =>
    if end_ p <=? current then gap_loop arr length_ limit current
    else if (start p >? current) && (start p - current >=? length_) && (current <? limit) && (length_ <=? limit - current)
    then (current, current)
    else gap_loop arr length_ limit (Z.max current (end_ p))
  end.

(** The capacity of the array, [None] when [kmalloc] fails. *)
Definition array_for (l : vma_list) : option Z :=
  if count l <=? VMA_STACK_CAP then Some VMA_STACK_CAP
  else if kmalloc_ok (ticks l) then Some (count l) else None.

Definition vma_find_gap (l : vma_list) (length_ base limit : Z) : outcome Z :=
  if (length_ =? 0) || (base >=? limit) || (length_ >? limit - base) then Ret 0
  else if count l =? 0 then Ret (if u64 (base + length_) <=? limit then base else 0)
  else match array_for l with
  | None => Ret 0
  | Some cap =>
    arr ← gather cap (root l);
    let '(current, gap_start) := gap_loop (map snd arr) length_ limit base in
    Ret (if negb (gap_start =? 0) then gap_start
         else if (current <? limit) && (length_ <=? limit - current) then current else 0)
  end.

(** [vma_build_balanced] on a slice of the array. *)
Fixpoint vma_build_balanced (fuel : nat) (nodes : list (nat * region)) : outcome vma :=
  match fuel with
  | O => OutOfFuel
  | S fuel =>
    match nodes with
    | [] => Ret Null
    | _ =>
      let middle := Nat.div (length nodes) 2 in
      '(a, p) ← deref (nodes !! middle);
      l ← vma_build_balanced fuel (take middle nodes);
      r ← vma_build_balanced fuel (drop (S middle) nodes);
      Ret (update_node (Node a p 0 0 l r))
    end
  end.

Definition can_merge (prev cur : region) : bool :=
  (end_ prev =? start cur) && (prot prev =? prot cur) && (flags prev =? flags cur) &&
  (numa_policy prev =? numa_policy cur) && (numa_nodemask prev =? numa_nodemask cur) &&
  (numa_preferred_node prev =? numa_preferred_node cur) &&
  bool_decide (file_node prev = None) && bool_decide (file_node cur = None) &&
  bool_decide (linux_vma prev = linux_vma cur) &&
  negb (nz (Z.land (Z.lor (flags prev) (flags cur)) (Z.lor MAP_GROWSDOWN MAP_SYSV_SHM))).

(** The loop: the kept nodes (with [prev] the last of them) and the merged ones. *)
Fixpoint merge_loop (prev : nat * region) (arr : list (nat * region)) : list (nat * region) * list region :=
  match arr with
  | [] => ([prev], [])
  | cur :: arr =>
    if can_merge prev.2 cur.2 then
      let '(kept, gone) := merge_loop (prev.1, set_end (end_ cur.2) prev.2) arr in (kept, cur.2 :: gone)
    else let '(kept, gone) := merge_loop cur arr in (prev :: kept, gone)
  end.

Definition vma_merge_adjacent (l : vma_list) : outcome vma_list :=
  if count l <? 2 then Ret l
  else match array_for l with
  | None => Ret l
  | Some cap =>
    arr ← gather cap (root l);
    let l := vma_cache_flush l in
    match arr with
    | [] => Ret l
    | first :: rest =>
      let '(kept, gone) := merge_loop first rest in
      let l := foldl (fun l p => vma_linux_put (linux_vma p) l) l gone in
      if Nat.eqb (length kept) (length arr) then Ret l
      else t ← vma_build_balanced (S (length kept)) kept; Ret (set_count (Z.of_nat (length kept)) (set_root t l))
    end
  end.

(** ** Other queries *)

Definition grows_to (x max_limit : Z) (p : region) : bool :=
  nz (Z.land (flags p) MAP_GROWSDOWN) && (x <? start p) && (x >=? u64 (start p - max_limit)).
Fixpoint vma_find_growdown_recursive (node : vma) (x max_limit : Z) : option (nat * region) :=
  match node with
  | Null => None
  | Node a p _ _ l r =>
    match vma_find_growdown_recursive l x max_limit with
    | Some v => Some v
    | None => if grows_to x max_limit p then Some (a, p) else vma_find_growdown_recursive r x max_limit
    end
  end.
Fixpoint cache_growdown (t : vma) (x max_limit : Z) (c : list (option nat)) : outcome (option (nat * region)) :=
  match c with
  | [] => Ret None
  | None :: c => cache_growdown t x max_limit c
  | Some a :: c => p ← deref (node_at t a);
    if grows_to x max_limit p then Ret (Some (a, p)) else cache_growdown t x max_limit c
  end.
Definition vma_find_growdown (l : vma_list) (x max_limit : Z) : outcome (option (nat * region)) :=
  hit ← cache_growdown (root l) x max_limit (cache l);
  Ret (match hit with Some v => Some v | None => vma_find_growdown_recursive (root l) x max_limit end).

(** [prev], [hit] and [next] of [vma_snapshot_neighbors]. *)
Definition neighbors : Type := option region * option region * option region.
Fixpoint vma_neighbors_recursive (node : vma) (x : Z) (n : neighbors) : neighbors :=
  match node with
  | Null => n
  | Node _ p _ _ l r =>
    let '(prev, hit, next) := n in
    if contains x p then
      vma_neighbors_recursive r x (vma_neighbors_recursive l x (prev, Some p, next))
    else if x <? start p then
      vma_neighbors_recursive l x (prev, hit,
        match next with Some q => if start p <? start q then Some p else next | None => Some p end)
    else
      vma_neighbors_recursive r x
        (match prev with Some q => if start p >? start q then Some p else prev | None => Some p end, hit, next)
  end.
Definition vma_snapshot_neighbors (l : vma_list) (x : Z) : neighbors :=
  vma_neighbors_recursive (root l) x (None, None, None).

(** The stacks stored, at most [cap], and their total number. *)
Fixpoint vma_stacks_recursive (node : vma) (cap : Z) (o : list region * Z) : list region * Z :=
  match node with
  | Null => o
  | Node _ p _ _ l r =>
    let '(out, total) := vma_stacks_recursive l cap o in
    let o := if nz (Z.land (flags p) MAP_STACK)
             then (if total <? cap then out ++ [p] else out, total + 1) else (out, total) in
    vma_stacks_recursive r cap o
  end.
Definition vma_snapshot_stacks (l : vma_list) (cap : Z) : list region * Z :=
  if cap <=? 0 then ([], 0) else vma_stacks_recursive (root l) cap ([], 0).

Fixpoint vma_total_bytes_recursive (node : vma) : Z :=
  match node with
  | Null => 0
  | Node _ p _ _ l r => u64 (u64 (end_ p - start p + vma_total_bytes_recursive l) + vma_total_bytes_recursive r)
  end.
Definition vma_total_bytes (l : vma_list) : Z := vma_total_bytes_recursive (root l).

(** [unmap_mapping_range] support: the bridge says which mapping a wrapper
    belongs to and whether it is shared. *)
Variable bridge_mapping : option Z -> option Z.
Variable bridge_is_shared : option Z -> bool.

Definition collects (mapping : Z) (begin_ end_file : Z) (even_cows : bool) (from : Z) (p : region) : option (Z * Z) :=
  if (start p >? from) && bool_decide (linux_vma p <> None) && bool_decide (bridge_mapping (linux_vma p) = Some mapping) &&
     (even_cows || bridge_is_shared (linux_vma p)) then
    let vfile := offset p in
    let b := if begin_ >? vfile then begin_ else vfile in
    let vend := u64 (vfile + (end_ p - start p)) in
    let e := if end_file <? vend then end_file else vend in
    if b <? e then Some (u64 (start p + (b - vfile)), u64 (start p + (e - vfile))) else None
  else None.

Fixpoint collect_mapping_recursive (node : vma) (mapping b e : Z) (even_cows : bool) (from cap : Z) (out : list (Z * Z))
    : list (Z * Z) :=
  match node with
  | Null => out
  | Node _ p _ _ l r =>
    if cap <=? Z.of_nat (length out) then out
    else
      let out := collect_mapping_recursive l mapping b e even_cows from cap out in
      if cap <=? Z.of_nat (length out) then out
      else
        let out := match collects mapping b e even_cows from p with Some x => out ++ [x] | None => out end in
        if cap <=? Z.of_nat (length out) then out
        else collect_mapping_recursive r mapping b e even_cows from cap out
  end.
Definition vma_collect_mapping (l : vma_list) (mapping : option Z) (b e : Z) (even_cows : bool) (from cap : Z) : list (Z * Z) :=
  match mapping with
  | None => []
  | Some m => if cap <=? 0 then [] else collect_mapping_recursive (root l) m b e even_cows from cap []
  end.

End Alloc.
End Vma.
