(* ===== verification/VmaOps.v ===== *)
(** VmaOps: the operations of [Vma] that change a list of regions, against their
    effect on the list in address order.

    [shape] is the invariant of a [vma_list]; [spare_files] and [spare_linux] are
    the references that are not held by a region of the list, which no operation
    changes. [cut] and [reprotect] say what unmapping and protecting a range do
    to one region; [vma_remove] and [vma_mprotect] do it to all of them, and a
    failing allocation loses pieces, never more. *)

From Stdlib Require Import Sorting.Sorted.
From S2P Require Import Prelude VmaTree Vma.
From stdpp Require Import list_relations.
#[local] Open Scope Z_scope.

Module VmaOps.
Import VmaTree Vma.

(** ** Reference definitions *)

(** The references that a list of regions holds through a field. *)
Definition held (f : region -> option Z) (L : list region) : refs :=
  fun n => countb (fun p => bool_decide (f p = Some n)) L.
Definition spare_files (l : vma_list) (n : Z) : Z := files l n - held file_node (regions (root l)) n.
Definition spare_linux (l : vma_list) (n : Z) : Z := linux l n - held linux_vma (regions (root l)) n.
Definition conserves (l l' : vma_list) : Prop :=
  forall n, spare_files l' n = spare_files l n /\ spare_linux l' n = spare_linux l n.

(** Cached pointers satisfy [Q]. *)
Definition cached (Q : nat -> Prop) (c : list (option nat)) : Prop := forall a, Some a ∈ c -> Q a.

Record shape (l : vma_list) : Prop := mk_shape {
  sh_avl : exists h, avl (root l) h;
  sh_ordered : ordered (regions (root l));
  sh_ids : NoDup (ids (root l));
  sh_count : count l = Z.of_nat (length (pairs (root l)));
  sh_slots : length (cache l) = VMA_CACHE_SIZE;
  sh_cache : cached (fun a => a ∈ ids (root l)) (cache l) }.

(** The pieces of a region outside [s, e). *)
Definition left_piece (s : Z) (p : region) : region :=
  mk_region (start p) s (prot p) (flags p) (offset p) (Z.min (file_size p) (s - start p)) (fd p) (file_node p) (linux_vma p) 0 0 0.
Definition rest_of (p : region) (rel len : Z) : Z :=
  if file_size p >? rel then Z.min (file_size p - rel) len else 0.
Definition right_piece (e : Z) (p : region) : region :=
  mk_region e (end_ p) (prot p) (flags p) (u64 (offset p + (e - start p))) (rest_of p (e - start p) (end_ p - e)) (fd p)
    (file_node p) (linux_vma p) 0 0 0.
Definition keep_left (s : Z) (p : region) : list region := if start p <? s then [left_piece s p] else [].
Definition keep_right (e : Z) (p : region) : list region := if e <? end_ p then [right_piece e p] else [].
Definition cut (s e : Z) (p : region) : list region :=
  if overlaps s e p then keep_left s p ++ keep_right e p else [p].

(** The part inside [s, e), with a new protection. *)
Definition inner (s e new_prot : Z) (p : region) : region :=
  let m := Z.max (start p) s in
  mk_region m (Z.min (end_ p) e) new_prot (flags p) (u64 (offset p + (m - start p)))
    (rest_of p (m - start p) (Z.min (end_ p) e - m)) (fd p) (file_node p) (linux_vma p) 0 0 0.
Definition reprotect (s e new_prot : Z) (p : region) : list region :=
  if overlaps s e p then keep_left s p ++ inner s e new_prot p :: keep_right e p else [p].

(** Insertion in address order. *)
Fixpoint place (q : region) (L : list region) : list region :=
  match L with
  | [] => [q]
  | p :: L => if start q <? start p then q :: p :: L else p :: place q L
  end.

(** The node allocator: an address that is not in use, or failure. *)
Class NodeAllocator (alloc : nat -> list nat -> option nat) : Prop :=
  alloc_fresh : forall t l a, alloc t l = Some a -> a ∉ l.
Definition never_fails (alloc : nat -> list nat -> option nat) : Prop := forall t l, alloc t l <> None.

(** ** Lists of regions *)

Lemma countb_le_length {A} (f : A -> bool) l : countb f l <= Z.of_nat (length l).
Proof. induction l as [|x l IH]; cbn [countb length]; [lia|]. destruct (f x); cbn [Z.b2z]; lia. Qed.
Lemma Forall_existsb_false {A} (f : A -> bool) l : Forall (fun x => f x = false) l -> existsb f l = false.
Proof. induction 1 as [|x l Hx _ IH]; [done|]. cbn [existsb]. by rewrite Hx. Qed.
Lemma held_app f l1 l2 n : held f (l1 ++ l2) n = held f l1 n + held f l2 n.
Proof. apply countb_app. Qed.
Lemma held_cons f p l n : held f (p :: l) n = Z.b2z (bool_decide (f p = Some n)) + held f l n.
Proof. done. Qed.

Lemma held_omap f ds n : held f ds n = countb (fun m => bool_decide (m = n)) (omap f ds).
Proof.
  induction ds as [|p ds IH]; [done|]. rewrite held_cons, IH. cbn [omap list_omap].
  destruct (f p) as [m|]; cbn [countb].
  - f_equal. f_equal. apply bool_decide_ext. naive_solver.
  - by rewrite bool_decide_eq_false_2.
Qed.
Lemma held_option f p ds n : omap f ds = option_list (f p) -> held f ds n = Z.b2z (bool_decide (f p = Some n)).
Proof.
  intros E. rewrite held_omap, E. destruct (f p) as [m|]; cbn.
  - rewrite Z.add_0_r. f_equal. apply bool_decide_ext. naive_solver.
  - by rewrite bool_decide_eq_false_2.
Qed.

Lemma place_app q l1 l2 : Forall (fun p => start p < start q) l1 -> Forall (fun p => start q < start p) l2 ->
  place q (l1 ++ l2) = l1 ++ q :: l2.
Proof.
  intros H1 H2. induction H1 as [|p l1 Hp _ IH]; cbn [app place].
  - destruct H2 as [|p l2 Hp _]; [done|]. cbn [place]. destruct (start q <? start p) eqn:?; reify_bools; [done|lia].
  - destruct (start q <? start p) eqn:?; reify_bools; [lia|]. by rewrite IH.
Qed.

Lemma ordered_cons p L : ordered (p :: L) <-> nonempty p /\ Forall (before p) L /\ ordered L.
Proof.
  unfold ordered. rewrite Forall_cons_iff. split.
  - intros [H [? ?]]. inversion H; subst. auto.
  - intros (? & ? & ? & ?). split; [by constructor|done].
Qed.

Lemma ordered_app l1 l2 : ordered (l1 ++ l2) <->
  ordered l1 /\ ordered l2 /\ Forall (fun y => Forall (before y) l2) l1.
Proof.
  induction l1 as [|p l1 IH]; cbn [app].
  - split; [|tauto]. intros H. split; [by repeat constructor|]. by split.
  - rewrite !ordered_cons, IH, Forall_app, Forall_cons_iff. tauto.
Qed.

Lemma Forall_sublist {A} (P : A -> Prop) l1 l2 : sublist l1 l2 -> Forall P l2 -> Forall P l1.
Proof. induction 1; rewrite ?Forall_cons_iff; naive_solver. Qed.

Lemma ordered_sublist l1 l2 : sublist l1 l2 -> ordered l2 -> ordered l1.
Proof.
  intros Hs [Ho Hn]. split.
  - clear Hn. induction Hs as [|x l1 l2 Hs IH|x l1 l2 Hs IH]; [constructor| |].
    + inversion Ho as [|? ? Ho' Hf]; subst. constructor; [auto|]. eapply Forall_sublist; eauto.
    + inversion Ho as [|? ? Ho' Hf]; subst. auto.
  - eapply Forall_sublist; eauto.
Qed.

(** ** Nodes *)

Lemma size_pairs t : size t = length (pairs t).
Proof. induction t as [|a p m h l IHl r IHr]; simpl; [done|]. rewrite length_app. simpl. lia. Qed.

Lemma split_id t a : a ∈ ids t -> exists p P1 P2, pairs t = P1 ++ (a, p) :: P2.
Proof.
  unfold ids. intros Ha. apply list_elem_of_fmap in Ha as ([a' p] & -> & Hin).
  apply list_elem_of_split in Hin as (P1 & P2 & E). eauto.
Qed.

Lemma nodup_split {B} P1 (a : nat) (p : B) P2 : NoDup (map fst (P1 ++ (a, p) :: P2)) ->
  a ∉ map fst P1 /\ a ∉ map fst P2.
Proof.
  rewrite map_app. cbn [map fst]. rewrite NoDup_app, NoDup_cons. intros (_ & H1 & H2 & _). split; [|done].
  intros Ha. apply (H1 a Ha). by left.
Qed.

Lemma fresh_find (a : nat) (P : list (nat * region)) : a ∉ map fst P -> List.find (fun x => Nat.eqb x.1 a) P = None.
Proof.
  induction P as [|x P IH]; cbn [map List.find]; [done|]. intros [Hne Hn]%not_elem_of_cons.
  destruct (Nat.eqb_spec x.1 a); [congruence|auto].
Qed.

Lemma node_at_split t P1 a p P2 : NoDup (ids t) -> pairs t = P1 ++ (a, p) :: P2 -> node_at t a = Some p.
Proof.
  unfold ids, node_at. intros Hn E. rewrite E in *. apply nodup_split in Hn as [H1 _].
  rewrite find_app, fresh_find by done. cbn [List.find fst]. by rewrite Nat.eqb_refl.
Qed.

Definition subst_node (a : nat) (q : region) (x : nat * region) : nat * region := if Nat.eqb x.1 a then (x.1, q) else x.
Lemma subst_fresh a q P : a ∉ map fst P -> map (subst_node a q) P = P.
Proof.
  induction P as [|x P IH]; cbn [map]; [done|]. intros [Hne Hn]%not_elem_of_cons. unfold subst_node at 1.
  destruct (Nat.eqb_spec x.1 a); [congruence|]. by rewrite IH.
Qed.

Lemma set_node_pairs a q t : NoDup (ids t) -> pairs (set_node a q t) = map (subst_node a q) (pairs t).
Proof.
  unfold ids. induction t as [|b p m h l IHl r IHr]; [done|]. cbn [set_node pairs]. intros Hn.
  rewrite (map_app (subst_node a q)). cbn [map]. pose proof (nodup_split _ _ _ _ Hn) as [H1 H2]. unfold subst_node at 2. cbn [fst].
  rewrite map_app, NoDup_app in Hn. cbn [map] in Hn. rewrite NoDup_cons in Hn. destruct Hn as (N1 & _ & _ & N2).
  destruct (Nat.eqb_spec b a) as [->|]; cbn [pairs].
  - by rewrite !subst_fresh.
  - by rewrite IHl, IHr.
Qed.

Lemma subst_split P1 a p q P2 : NoDup (map fst (P1 ++ (a, p) :: P2)) ->
  map (subst_node a q) (P1 ++ (a, p) :: P2) = P1 ++ (a, q) :: P2.
Proof.
  intros [H1 H2]%nodup_split. rewrite map_app. cbn [map]. unfold subst_node at 2. cbn [fst].
  by rewrite Nat.eqb_refl, !subst_fresh.
Qed.

Lemma set_node_split t P1 a p q P2 : NoDup (ids t) -> pairs t = P1 ++ (a, p) :: P2 ->
  pairs (set_node a q t) = P1 ++ (a, q) :: P2.
Proof.
  intros Hn E. rewrite set_node_pairs by done. unfold ids in Hn. rewrite E in *. by apply subst_split.
Qed.

Lemma set_node_avl a q t h : NoDup (ids t) -> (forall p, (a, p) ∈ pairs t -> end_ p = end_ q) -> avl t h ->
  avl (set_node a q t) h /\ get_max_end (set_node a q t) = get_max_end t.
Proof.
  unfold ids. intros Hn Hq Ht. induction Ht as [|b p m h l r hl hr Hl IHl Hr IHr Hb Hh Hm]; [by repeat constructor|].
  cbn [pairs set_node] in *. rewrite map_app, NoDup_app in Hn. cbn [map] in Hn. rewrite NoDup_cons in Hn. destruct Hn as (N1 & _ & _ & N2).
  destruct (Nat.eqb_spec b a) as [->|].
  - split; [|done]. eapply avl_node; eauto. rewrite <- (Hq p); [done|]. rewrite elem_of_app. right. by left.
  - destruct IHl as [I1 I2]; [done|intros; apply Hq; rewrite elem_of_app; by left|].
    destruct IHr as [I3 I4]; [done|intros; apply Hq; rewrite elem_of_app; right; by right|].
    split; [|done]. eapply avl_node; eauto. by rewrite I2, I4.
Qed.

(** ** Lookup *)

Lemma contains_iff x p : contains x p = true <-> start p <= x < end_ p.
Proof. unfold contains. rewrite andb_true_iff, Z.leb_le, Z.ltb_lt. done. Qed.
Lemma not_contains x p : contains x p = false <-> ~ start p <= x < end_ p.
Proof. rewrite <- contains_iff. by destruct (contains x p). Qed.
Lemma overlaps_iff s e p : overlaps s e p = true <-> s < end_ p /\ start p < e.
Proof. unfold overlaps. rewrite andb_true_iff, Z.gtb_ltb, !Z.ltb_lt. done. Qed.
Lemma not_overlaps s e p : overlaps s e p = false <-> ~ (s < end_ p /\ start p < e).
Proof. rewrite <- overlaps_iff. by destruct (overlaps s e p). Qed.

Lemma find_split {A} (f : A -> bool) l x : List.find f l = Some x ->
  exists l1 l2, l = l1 ++ x :: l2 /\ f x = true /\ Forall (fun y => f y = false) l1.
Proof.
  induction l as [|y l IH]; cbn [List.find]; [done|]. destruct (f y) eqn:Hy.
  - intros [= ->]. exists [], l. split; [done|]. split; [done|constructor].
  - intros H. destruct (IH H) as (l1 & l2 & -> & Hx & Hf). exists (y :: l1), l2. split; [done|]. split; [done|by constructor].
Qed.
Lemma find_None {A} (f : A -> bool) l : List.find f l = None -> Forall (fun y => f y = false) l.
Proof. induction l as [|y l IH]; cbn [List.find]; [constructor|]. destruct (f y) eqn:Hy; [done|]. constructor; auto. Qed.
Lemma find_here {A} (f : A -> bool) l1 x l2 : f x = true -> Forall (fun y => f y = false) l1 -> List.find f (l1 ++ x :: l2) = Some x.
Proof. intros Hx H. rewrite find_app, find_none by done. cbn [List.find]. by rewrite Hx. Qed.

Lemma contains_here t P1 a p P2 x : ordered (regions t) -> pairs t = P1 ++ (a, p) :: P2 -> contains x p = true ->
  List.find (fun y => contains x y.2) (pairs t) = Some (a, p).
Proof.
  intros Ho E Hx. rewrite E. apply find_here; [done|]. unfold regions in Ho. rewrite E, map_app in Ho. cbn [map] in Ho.
  apply ordered_middle in Ho as (_ & _ & _ & Hb & _). apply Forall_snd in Hb. eapply Forall_impl; [exact Hb|].
  intros y Hy. cbn beta in Hy. apply not_contains. apply contains_iff in Hx. unfold before in Hy. cbn [snd] in *. lia.
Qed.

Lemma cache_find_ok t x c : ordered (regions t) -> NoDup (ids t) -> cached (fun a => a ∈ ids t) c ->
  cache_find t x c = Ret None \/ cache_find t x c = Ret (List.find (fun y => contains x y.2) (pairs t)).
Proof.
  intros Ho Hn. induction c as [|[a|] c IH]; intros Hc; cbn [cache_find]; [by left| |].
  - destruct (split_id t a) as (p & P1 & P2 & E); [apply Hc; by left|]. rewrite (node_at_split _ _ _ _ _ Hn E). cbn [deref].
    rewrite ret_bind. destruct (contains x p) eqn:Hx; [right; by rewrite (contains_here _ _ _ _ _ _ Ho E Hx)|].
    apply IH. intros b Hb. apply Hc. by right.
  - apply IH. intros b Hb. apply Hc. by right.
Qed.

(** [vma_find] is a search of the list; only the cache changes, and only by the
    node found. *)
Lemma find_ok l x : shape l -> exists c', vma_find l x = Ret (List.find (fun y => contains x y.2) (pairs (root l)), set_cache c' l) /\
  shape (set_cache c' l) /\
  (forall Q : nat -> Prop, cached Q (cache l) -> (forall a p, List.find (fun y => contains x y.2) (pairs (root l)) = Some (a, p) -> Q a) -> cached Q c').
Proof.
  intros [Ha Ho Hn Hcnt Hlen Hc]. unfold vma_find.
  assert (Hself : l = set_cache (cache l) l) by by destruct l.
  destruct (cache_find_ok (root l) x (cache l) Ho Hn Hc) as [->| ->]; rewrite ret_bind.
  - rewrite (find_first _ _ Ho). destruct (List.find _ (pairs (root l))) as [[a p]|] eqn:E.
    + exists (take VMA_CACHE_SIZE (Some a :: cache l)). split; [done|].
      assert (Hin : forall Q : nat -> Prop, cached Q (cache l) -> Q a -> cached Q (take VMA_CACHE_SIZE (Some a :: cache l))).
      { intros Q HQ Qa b Hb. apply elem_of_take in Hb as (i & Hb & _). destruct i as [|i]; cbn in Hb; [by simplify_eq|].
        apply HQ. by eapply list_elem_of_lookup_2. }
      split.
      * constructor; cbn; try done; [rewrite length_take, Hlen; done|]. apply Hin; [done|].
        apply find_split in E as (P1 & P2 & E & _). unfold ids. rewrite E, map_app, elem_of_app. right. by left.
      * intros Q HQ Hf. apply Hin; [done|]. by eapply Hf.
    + exists (cache l). rewrite <- Hself. repeat (split; [done|]). done.
  - exists (cache l). rewrite <- Hself. destruct (List.find _ (pairs (root l))) as [[a p]|] eqn:E.
    + split; [done|]. split; done.
    + rewrite (find_first _ _ Ho), E. split; [done|]. split; done.
Qed.

(** ** Adding a region *)

#[global] Instance conserves_equivalence : Equivalence conserves.
Proof.
  split.
  - by intros l n.
  - intros l1 l2 H n. by destruct (H n).
  - intros l1 l2 l3 H1 H2 n. destruct (H1 n), (H2 n). split; congruence.
Qed.

Lemma cached_push (Q : nat -> Prop) a c : Q a -> cached Q c -> cached Q (take VMA_CACHE_SIZE (Some a :: c)).
Proof.
  intros Ha Hc b Hb. apply elem_of_take in Hb as (i & Hb & _). destruct i as [|i]; cbn in Hb; [by simplify_eq|].
  apply Hc. by eapply list_elem_of_lookup_2.
Qed.

Lemma cached_mono (Q R : nat -> Prop) c : cached Q c -> (forall a, Q a -> R a) -> cached R c.
Proof. intros H HQ a Ha. auto. Qed.

(** Where a region that overlaps none goes. *)
Lemma ordered_place q l1 l2 : ordered (l1 ++ l2) -> nonempty q -> Forall (fun p => overlaps (start q) (end_ q) p = false) (l1 ++ l2) ->
  Forall (fun p => start p < start q) l1 -> Forall (fun p => start q < start p) l2 -> ordered (l1 ++ q :: l2).
Proof.
  intros Ho Hq Hn H1 H2. apply ordered_app in Ho as (O1 & O2 & O12). apply Forall_app in Hn as [N1 N2].
  apply ordered_middle. split; [done|]. split; [done|]. split; [done|]. unfold before.
  assert (Hl : Forall (fun p => end_ p <= start q) l1).
  { apply Forall_forall. intros p Hp. rewrite Forall_forall in N1, H1. specialize (N1 p Hp). specialize (H1 p Hp).
    apply not_overlaps in N1. unfold nonempty in Hq. lia. }
  assert (Hr : Forall (fun p => end_ q <= start p) l2).
  { destruct O2 as [_ E2]. apply Forall_forall. intros p Hp. rewrite Forall_forall in N2, H2, E2. specialize (N2 p Hp).
    specialize (H2 p Hp). specialize (E2 p Hp). apply not_overlaps in N2. unfold nonempty in *. lia. }
  split; [done|]. split; done.
Qed.

Section Ops.
Context (alloc : nat -> list nat -> option nat) `{!NodeAllocator alloc}.

Definition new_region (s e pr fl f off : Z) (file : option Z) (fsize : Z) : region :=
  mk_region s e pr fl off fsize f file None 0 0 0.

(** The three outcomes of [vma_add]. *)
Lemma add_ok l s e pr fl f off file fsize (q := new_region s e pr fl f off file fsize) : shape l -> 0 <= s < e ->
  (vma_add alloc l s e pr fl f off file fsize = Ret (-1, l) /\ Exists (fun p => overlaps s e p = true) (regions (root l))) \/
  (vma_add alloc l s e pr fl f off file fsize = Ret (-1, tick l) /\ Forall (fun p => overlaps s e p = false) (regions (root l)) /\
    alloc (ticks l) (ids (root l)) = None) \/
  exists a t, vma_add alloc l s e pr fl f off file fsize =
      Ret (0, cache_push a (set_count (count l + 1) (set_root t (vma_file_ref file (tick l))))) /\
    Forall (fun p => overlaps s e p = false) (regions (root l)) /\ alloc (ticks l) (ids (root l)) = Some a /\
    shape (cache_push a (set_count (count l + 1) (set_root t (vma_file_ref file (tick l))))) /\
    exists P1 P2, pairs (root l) = P1 ++ P2 /\ pairs t = P1 ++ (a, q) :: P2 /\
      Forall (fun x => start x.2 < s) P1 /\ Forall (fun x => s < start x.2) P2.
Proof.
  intros Hsh Hse. pose proof Hsh as [[h Ha] Ho Hn Hcnt Hlen Hc]. unfold vma_add, vma_find_overlap.
  rewrite (overlap_first _ _ s e Ha). destruct (List.find _ (pairs (root l))) as [[i p]|] eqn:E.
  - left. split; [done|]. apply find_split in E as (P1 & P2 & E & Hp & _). unfold regions. rewrite E, map_app, Exists_app. right. by left.
  - apply find_None in E. pose proof E as Hno. apply (Forall_snd (fun p => overlaps s e p = false)) in Hno. fold (regions (root l)) in Hno.
    destruct (alloc (ticks l) (ids (root l))) as [a|] eqn:Ealloc; [|by right; left]. right; right.
    cbn [root tick vma_file_ref set_files].
    destruct (insert_spec a q (root l) ltac:(cbn; lia) h Ha (ordered_keyed _ Ho)) as (t & h' & P1 & P2 & Ei & At & E1 & E2 & F1 & F2 & _).
    { destruct Ho as [_ Hne]. unfold regions in Hne. apply Forall_snd in Hne. apply Forall_forall. intros x Hx.
      rewrite Forall_forall in E, Hne. specialize (E x Hx). specialize (Hne x Hx). apply not_overlaps in E. unfold nonempty in Hne. cbn. lia. }
    unfold q, new_region in Ei. cbn [end_] in Ei. rewrite Ei, ret_bind. exists a, t. split; [done|]. split; [done|]. split; [done|].
    split; [|exists P1, P2; done]. cbn. unfold regions, ids in *. rewrite E1 in *. rewrite map_app in *.
    constructor; cbn; unfold regions, ids; rewrite ?E2, ?map_app.
    + eauto.
    + cbn [map snd]. apply ordered_place; try done.
      * by apply Forall_snd.
      * by apply Forall_snd.
    + cbn [map fst]. apply (alloc_fresh _ _ _) in Ealloc. rewrite NoDup_app in Hn |- *. rewrite elem_of_app in Ealloc.
      destruct Hn as (N1 & N2 & N3). split; [done|]. split.
      * intros x Hx [->|Hx2]%elem_of_cons; [tauto|]. by apply (N2 x).
      * apply NoDup_cons. tauto.
    + rewrite Hcnt, !length_app. cbn [length]. lia.
    + change (length (take VMA_CACHE_SIZE (Some a :: cache l)) = VMA_CACHE_SIZE). rewrite length_take. cbn [length]. rewrite Hlen. done.
    + apply (cached_push _ a (cache l)).
      * rewrite elem_of_app. right. by left.
      * eapply cached_mono; [exact Hc|]. intros b. cbn [map fst]. rewrite !elem_of_app, elem_of_cons. tauto.
Qed.

Lemma conserves_add l a t file q P1 P2 : pairs (root l) = P1 ++ P2 -> pairs t = P1 ++ (a, q) :: P2 ->
  file_node q = file -> linux_vma q = None ->
  conserves l (cache_push a (set_count (count l + 1) (set_root t (vma_file_ref file (tick l))))).
Proof.
  intros E1 E2 Hf Hl n. unfold spare_files, spare_linux, regions. cbn [root files linux cache_push set_cache set_count set_root vma_file_ref set_files tick]. rewrite E1, E2, !map_app. cbn [map snd].
  rewrite !held_app, !held_cons, Hf, Hl. unfold ref. rewrite (bool_decide_eq_false_2 (None = Some n)) by done. cbn. lia.
Qed.

(** ** Attaching a wrapper *)

Lemma attach_ok l x o : shape l -> exists l', vma_attach_linux l x o = Ret l' /\ shape l' /\ conserves l l' /\ ticks l' = ticks l /\
  map fst (pairs (root l')) = map fst (pairs (root l)) /\
  match o, List.find (fun y => contains x y.2) (pairs (root l)) with
  | Some _, Some (a, p) => exists P1 P2, pairs (root l) = P1 ++ (a, p) :: P2 /\ pairs (root l') = P1 ++ (a, set_linux o p) :: P2
  | _, _ => pairs (root l') = pairs (root l)
  end /\
  (forall Q : nat -> Prop, cached Q (cache l) -> (forall a p, List.find (fun y => contains x y.2) (pairs (root l)) = Some (a, p) -> Q a) -> cached Q (cache l')).
Proof.
  intros Hsh. unfold vma_attach_linux. destruct o as [o|]; [|exists l; repeat (split; [done|]); done].
  destruct (find_ok l x Hsh) as (c' & -> & Hsh' & HQ). rewrite ret_bind.
  destruct (List.find _ (pairs (root l))) as [[a p]|] eqn:E; [|exists (set_cache c' l); repeat (split; [done|]); eauto].
  pose proof (find_split _ _ _ E) as (P1 & P2 & Ep & _ & _). destruct Hsh' as [[h Ha] Ho Hn Hcnt Hlen Hc].
  cbn [root count cache set_cache] in *. pose proof Hn as Hn'. unfold ids in Hn'. rewrite Ep in Hn'.
  pose proof (nodup_split _ _ _ _ Hn') as [F1 F2].
  case_bool_decide as Heq.
  - exists (set_cache c' l). split; [done|]. split; [by constructor; eauto|]. split; [done|]. split; [done|]. split; [done|].
    split; [|eauto]. exists P1, P2. split; [done|]. cbn. rewrite Ep. by destruct p; cbn in *; subst.
  - eexists. split; [done|]. cbn. pose proof (set_node_split _ _ _ _ (set_linux (Some o) p) _ Hn Ep) as Es.
    assert (Ha' : avl (set_node a (set_linux (Some o) p) (root l)) h).
    { apply (set_node_avl a (set_linux (Some o) p) (root l) h Hn); [|done]. intros p' Hp'. rewrite Ep, elem_of_app, elem_of_cons in Hp'.
      destruct Hp' as [Hp'|[Hp'|Hp']]; [|by simplify_eq|].
      - destruct F1. apply (list_elem_of_fmap_2 fst) in Hp'. done.
      - destruct F2. apply (list_elem_of_fmap_2 fst) in Hp'. done. }
    assert (Eids : ids (set_node a (set_linux (Some o) p) (root l)) = ids (root l)) by (unfold ids; by rewrite Es, Ep, !map_app).
    split; [|split; [|split; [done|split; [exact Eids|split; [eauto|]]]]].
    + constructor; cbn [root count cache set_root vma_linux_put vma_linux_get set_linux_refs]; rewrite ?Eids; try done; [by exists h| |].
      * unfold regions in *. rewrite Es. rewrite Ep in Ho. rewrite map_app in *. cbn [map snd] in *.
        rewrite ordered_middle in Ho |- *. done.
      * cbn [count set_cache]. by rewrite Es, Hcnt, Ep, !length_app.
    + intros n. unfold spare_files, spare_linux, regions. cbn [root files linux cache_push set_cache set_count set_root vma_linux_put vma_linux_get set_linux_refs]. rewrite Es, Ep, !map_app. cbn [map snd].
      rewrite !held_app, !held_cons. unfold ref, unref. cbn [file_node linux_vma set_linux]. lia.
    + eauto.
Qed.

(** On a node without a wrapper. *)
Lemma attach_new l x o P1 a q P2 : shape l -> pairs (root l) = P1 ++ (a, q) :: P2 -> contains x q = true -> linux_vma q = None ->
  exists l', vma_attach_linux l x o = Ret l' /\ shape l' /\ conserves l l' /\ ticks l' = ticks l /\
    pairs (root l') = P1 ++ (a, set_linux o q) :: P2 /\
    (forall Q : nat -> Prop, cached Q (cache l) -> Q a -> cached Q (cache l')).
Proof.
  intros Hsh E Hx Hq. destruct (attach_ok l x o Hsh) as (l' & E' & Hsh' & Hc & Ht & _ & Hp & HQ).
  rewrite (contains_here _ _ _ _ _ _ (sh_ordered _ Hsh) E Hx) in Hp, HQ. exists l'. repeat (split; [done|]).
  assert (Hself : q = set_linux None q) by (by destruct q; cbn in *; subst). split.
  - destruct o as [o|]; [|by rewrite <- Hself, Hp].
    destruct Hp as (P1' & P2' & E1 & E2). pose proof (sh_ids _ Hsh) as Hn. unfold ids in Hn.
    rewrite E2, <- (subst_split P1' a q), <- (subst_split P1 a q); [by rewrite <- E1, <- E|by rewrite <- E|by rewrite <- E1].
  - intros Q H1 H2. apply HQ; [done|]. by intros ? ? [= <- <-].
Qed.

Lemma attach_none l x o : shape l -> Forall (fun p => contains x p = false) (regions (root l)) ->
  exists l', vma_attach_linux l x o = Ret l' /\ shape l' /\ conserves l l' /\ ticks l' = ticks l /\
    pairs (root l') = pairs (root l) /\ (forall Q : nat -> Prop, cached Q (cache l) -> cached Q (cache l')).
Proof.
  intros Hsh Hn. destruct (attach_ok l x o Hsh) as (l' & E' & Hsh' & Hc & Ht & _ & Hp & HQ).
  unfold regions in Hn. apply Forall_snd in Hn. apply (find_none (fun y => contains x y.2)) in Hn. rewrite Hn in Hp, HQ.
  exists l'. repeat (split; [done|]). split; [by destruct o|]. intros Q H1. by apply HQ.
Qed.

Lemma shape_tick l : shape l -> shape (tick l).
Proof. by intros [? ? ? ? ? ?]; constructor. Qed.

Lemma overlap_contains s e p : s < e -> overlaps s e p = false -> contains s p = false.
Proof. intros Hse. rewrite not_overlaps, not_contains. lia. Qed.

(** Adding a region where there is none, then [k] on the list, which sees no
    difference but in the references, then the wrapper. *)
Definition added (l l' : vma_list) (q : region) : Prop :=
  (alloc (ticks l) (ids (root l)) = None /\ pairs (root l') = pairs (root l) /\
     (forall Q : nat -> Prop, cached Q (cache l) -> cached Q (cache l'))) \/
  (exists a P1 P2, pairs (root l) = P1 ++ P2 /\ pairs (root l') = P1 ++ (a, q) :: P2 /\
     Forall (fun x => start x.2 < start q) P1 /\ Forall (fun x => start q < start x.2) P2 /\
     (forall Q : nat -> Prop, cached Q (cache l) -> Q a -> cached Q (cache l'))).

Lemma piece_ok l p s e off fsize (q := mk_region s e (prot p) (flags p) off fsize (fd p) (file_node p) (linux_vma p) 0 0 0) :
  shape l -> 0 <= s < e -> Forall (fun p => overlaps s e p = false) (regions (root l)) ->
  exists l', add_piece alloc l p s e off fsize = Ret l' /\ shape l' /\ conserves l l' /\ added l l' q.
Proof.
  intros Hsh Hse Hno. unfold add_piece.
  destruct (add_ok l s e (prot p) (flags p) (fd p) off (file_node p) fsize Hsh Hse)
    as [[_ Hex]|[(-> & _ & Hal)|(a & t & -> & _ & _ & Hsh1 & P1 & P2 & E1 & E2 & F1 & F2)]].
  - apply Exists_exists in Hex as (x & Hx & Hov). rewrite Forall_forall in Hno. by rewrite Hno in Hov.
  - rewrite ret_bind. destruct (attach_none (tick l) s (linux_vma p) (shape_tick _ Hsh)) as (l' & -> & Hsh' & Hc & _ & Hp & HQ).
    { eapply Forall_impl; [exact Hno|]. intros x. apply overlap_contains. lia. }
    exists l'. split; [done|]. split; [done|]. split; [done|]. left. done.
  - rewrite ret_bind. edestruct (attach_new _ s (linux_vma p) P1 a _ P2 Hsh1 E2) as (l' & -> & Hsh' & Hc & _ & Hp & HQ); [|done|].
    { apply contains_iff. cbn. lia. }
    exists l'. split; [done|]. split; [done|]. split.
    { rewrite (conserves_add l a t (file_node p) _ P1 P2 E1 E2 eq_refl eq_refl). exact Hc. }
    right. exists a, P1, P2. split; [done|]. split; [done|]. split; [done|]. split; [done|].
    intros Q HQl HQa. apply HQ; [|done]. by apply cached_push.
Qed.

Lemma added_cases l l' q : added l l' q ->
  (regions (root l') = regions (root l) /\ ~ never_fails alloc) \/ regions (root l') = place q (regions (root l)).
Proof.
  unfold regions. intros [(Hal & -> & _)|(a & P1 & P2 & -> & -> & F1 & F2 & _)].
  - left. split; [done|]. intros Hnf. by apply Hnf in Hal.
  - right. rewrite !map_app. cbn [map snd]. rewrite place_app; [done| |]; by apply Forall_snd.
Qed.

(** Adding between two groups of regions. *)
Lemma added_between l l' q L1 L2 : added l l' q -> regions (root l) = L1 ++ L2 ->
  Forall (fun p => start p < start q) L1 -> Forall (fun p => start q < start p) L2 ->
  exists qs, regions (root l') = L1 ++ qs ++ L2 /\ (qs = [q] \/ qs = [] /\ ~ never_fails alloc).
Proof.
  intros Had E F1 F2. destruct (added_cases _ _ _ Had) as [[-> Hnf]| ->]; rewrite E.
  - exists []. auto.
  - exists [q]. rewrite place_app by done. auto.
Qed.

(** ** Removing a region *)

Lemma keyed_split P1 x P2 P1' x' P2' : keyed (P1 ++ x :: P2) -> P1 ++ x :: P2 = P1' ++ x' :: P2' -> start x'.2 = start x.2 ->
  P1' = P1 /\ x' = x /\ P2' = P2.
Proof.
  revert P1'. induction P1 as [|y P1 IH]; intros P1' Hk E Hx.
  - by destruct (keyed_head _ _ _ _ _ Hk E Hx) as (-> & -> & ->).
  - destruct P1' as [|y' P1']; cbn [app] in *.
    + injection E as -> <-. exfalso. inversion Hk as [|? ? _ Hf]; subst. apply Forall_app in Hf as [_ Hf].
      apply Forall_cons_1 in Hf as [Hf _]. unfold key_lt in Hf. lia.
    + injection E as -> E. inversion Hk; subst. by destruct (IH P1') as (-> & -> & ->).
Qed.

(** The cached nodes that no further deletion can free. *)
Definition settled (s : Z) (l : vma_list) (a : nat) : Prop := exists q, (a, q) ∈ pairs (root l) /\ end_ q <= s.

Lemma added_settled s l l' q : added l l' q -> end_ q <= s -> cached (settled s l) (cache l) -> cached (settled s l') (cache l').
Proof.
  intros Had Hq Hc. destruct Had as [(_ & E & HQ)|(a & P1 & P2 & E1 & E2 & _ & _ & HQ)].
  - apply HQ. eapply cached_mono; [exact Hc|]. intros a (q' & Hin & He). exists q'. by rewrite E.
  - apply HQ.
    + eapply cached_mono; [exact Hc|]. intros b (q' & Hin & He). exists q'. split; [|done]. rewrite E1, elem_of_app in Hin.
      rewrite E2, elem_of_app, elem_of_cons. tauto.
    + exists q. split; [|done]. rewrite E2, elem_of_app. right. by left.
Qed.

Lemma drop_refs_frame ds l : root (drop_refs ds l) = root l /\ count (drop_refs ds l) = count l /\
  cache (drop_refs ds l) = cache l /\ ticks (drop_refs ds l) = ticks l.
Proof. unfold drop_refs. revert l. induction ds as [|p ds IH]; intros l; [done|]. cbn [foldl]. by rewrite !(proj1 (IH _)), !(proj1 (proj2 (IH _))), !(proj1 (proj2 (proj2 (IH _)))), !(proj2 (proj2 (proj2 (IH _)))). Qed.
Lemma drop_refs_counts ds l n : files (drop_refs ds l) n = files l n - held file_node ds n /\
  linux (drop_refs ds l) n = linux l n - held linux_vma ds n.
Proof.
  unfold drop_refs. revert l. induction ds as [|p ds IH]; intros l; [cbn; lia|]. cbn [foldl]. destruct (IH (vma_linux_put (linux_vma p) (vma_file_unref (file_node p) l))) as [-> ->].
  rewrite !held_cons. cbn [files linux vma_linux_put vma_file_unref set_files set_linux_refs]. unfold unref. lia.
Qed.

(** The deletion of one region, with its references kept for the caller. *)
Definition hold (p : region) (l : vma_list) : vma_list := vma_linux_get (linux_vma p) (vma_file_ref (file_node p) l).
Definition release (p : region) (l : vma_list) : vma_list := vma_linux_put (linux_vma p) (vma_file_unref (file_node p) l).

Lemma shape_hold p l : shape l -> shape (hold p l).
Proof. by intros [? ? ? ? ? ?]; constructor. Qed.
Lemma shape_release p l : shape l -> shape (release p l).
Proof. by intros [? ? ? ? ? ?]; constructor. Qed.
Lemma release_conserves p l1 l2 : conserves (hold p l1) l2 -> conserves l1 (release p l2).
Proof.
  intros H n. specialize (H n). revert H. unfold spare_files, spare_linux, hold, release.
  cbn [root files linux vma_linux_get vma_linux_put vma_file_ref vma_file_unref set_files set_linux_refs]. unfold ref, unref. lia.
Qed.

Lemma delete_ok l P1 i p P2 s : shape l -> pairs (root l) = P1 ++ (i, p) :: P2 -> s < end_ p -> cached (settled s l) (cache l) ->
  exists t d, delete_node (S (size (root l))) (root l) (start p) = Ret (t, d) /\
    let l' := set_count (count l - 1) (drop_refs (dropped d) (set_root t l)) in
    shape l' /\ conserves l l' /\ regions (root l') = map snd P1 ++ map snd P2 /\ cached (settled s l') (cache l').
Proof.
  intros Hsh E Hs Hset. pose proof Hsh as [[h Ha] Ho Hn Hcnt Hlen _].
  destruct (delete_spec (S (size (root l))) (start p) (root l) h ltac:(lia) Ha (ordered_keyed _ Ho)) as (t & d & h' & -> & At & _ & Hd).
  exists t, d. split; [done|]. destruct Hd as [(Hne & _)|(P1' & i' & p' & P2' & Q2 & f & E' & Hk & Et & Hm & Hp & _ & _ & Df & Dl)].
  { exfalso. rewrite E in Hne. apply Forall_app in Hne as [_ Hne]. by apply Forall_cons_1 in Hne as [Hne _]. }
  assert (P1' = P1 /\ i' = i /\ p' = p /\ P2' = P2) as (-> & -> & -> & ->).
  { pose proof (ordered_keyed _ Ho) as Hkey. rewrite E in Hkey. rewrite E in E'. by destruct (keyed_split _ _ _ _ _ _ Hkey E' Hk) as (-> & [= -> ->] & ->). }
  cbn zeta. unfold set_count. destruct (drop_refs_frame (dropped d) (set_root t l)) as (-> & _ & -> & _).
  cbn [root cache set_root]. unfold regions, ids in Ho, Hn. rewrite E in Ho, Hn, Hcnt. rewrite map_app in Ho, Hn. cbn [map fst snd] in *.
  assert (Hset' : cached (settled s (mk_list t 0 [] (files l) (linux l) 0)) (cache l)).
  { eapply cached_mono; [exact Hset|]. intros b (q & Hin & He). exists q. split; [|done]. cbn [root]. rewrite Et, elem_of_app. left.
    rewrite E, elem_of_app, elem_of_cons in Hin. destruct Hin as [Hin|[[= -> ->]|Hin]]; [done|lia|exfalso].
    apply ordered_middle in Ho as (_ & [_ O2] & _ & _ & Hb & _). apply Forall_snd in O2, Hb. rewrite Forall_forall in Hb, O2.
    specialize (Hb _ Hin). specialize (O2 _ Hin). unfold before, nonempty in *. cbn in *. lia. }
  assert (Eids : map fst P1 ++ i :: map fst P2 ≡ₚ f :: (map fst P1 ++ map fst Q2)).
  { rewrite Hp. by rewrite Permutation_middle. }
  split; [|split; [|split]].
  - constructor; cbn [root count cache]; unfold regions, ids; rewrite ?Et, ?map_app, ?Hm; [eauto| | | |done|].
    + apply ordered_middle in Ho as (O1 & O2 & _ & _ & _ & O12). by apply ordered_app.
    + rewrite Eids in Hn. by apply NoDup_cons in Hn as [_ ?].
    + rewrite Hcnt, !length_app. cbn [length]. apply (f_equal length) in Hm. rewrite !length_map in Hm. lia.
    + eapply cached_mono; [exact Hset'|]. intros b (q & Hin & _). cbn [root] in Hin. rewrite Et in Hin.
      apply (list_elem_of_fmap_2 fst) in Hin. by rewrite fmap_app in Hin.
  - intros n. destruct (drop_refs_counts (dropped d) (set_root t l) n) as [Hf Hl]. unfold spare_files, spare_linux, regions.
    cbn [root files linux]. rewrite Hf, Hl. cbn [files linux set_root]. rewrite Et, E, !map_app, Hm. cbn [map snd].
    rewrite (held_option _ p _ n Df), (held_option _ p _ n Dl), !held_app, !held_cons. lia.
  - unfold regions. cbn [root]. by rewrite Et, map_app, Hm.
  - done.
Qed.

(** A range inside the place of a region that has been taken out. *)
Lemma room L1 p L2 s e : ordered (L1 ++ p :: L2) -> start p <= s -> s < e <= end_ p ->
  Forall (fun x => overlaps s e x = false) (L1 ++ L2) /\ Forall (fun x => start x < s) L1 /\ Forall (fun x => s < start x) L2.
Proof.
  intros Ho Hs He. apply ordered_middle in Ho as ([_ N1] & [_ N2] & Hp & B1 & B2 & _). unfold before, nonempty in *.
  rewrite Forall_app. rewrite !Forall_forall in *. setoid_rewrite not_overlaps. split; [split|split]; intros x Hx.
  - specialize (B1 x Hx). lia.
  - specialize (B2 x Hx). lia.
  - specialize (B1 x Hx). specialize (N1 x Hx). cbn in *. lia.
  - specialize (B2 x Hx). lia.
Qed.

(** The re-insertion of what is left of [p], between the regions before and
    after it. *)
Lemma piece_between l p s e off fsize L1 mid L2 (q := mk_region s e (prot p) (flags p) off fsize (fd p) (file_node p) (linux_vma p) 0 0 0) :
  shape l -> regions (root l) = L1 ++ mid ++ L2 -> ordered (L1 ++ p :: L2) -> start p <= s -> s < e <= end_ p ->
  Forall (fun x => end_ x <= s /\ start x < s) mid ->
  exists l' qs, add_piece alloc l p s e off fsize = Ret l' /\ shape l' /\ conserves l l' /\ added l l' q /\
    regions (root l') = L1 ++ (mid ++ qs) ++ L2 /\ (qs = [q] \/ qs = [] /\ ~ never_fails alloc).
Proof.
  intros Hsh E Ho Hs He Hmid. pose proof (room _ _ _ _ _ Ho Hs He) as (R & S1 & S2). apply Forall_app in R as [R1 R2].
  assert (Hp : nonempty p) by (by apply ordered_middle in Ho as (_ & _ & ? & _)). unfold nonempty in Hp.
  destruct (piece_ok l p s e off fsize Hsh ltac:(lia)) as (l' & E2 & Hsh2 & Hc2 & Had).
  { rewrite E, !Forall_app. split; [done|]. split; [|done]. eapply Forall_impl; [exact Hmid|]. intros x [Hx _]. apply not_overlaps. lia. }
  destruct (added_between l l' q (L1 ++ mid) L2 Had) as (qs & Eq & Hqs); [by rewrite <- app_assoc| |done|].
  { apply Forall_app. split; [done|]. eapply Forall_impl; [exact Hmid|]. by intros x [_ Hx]. }
  exists l', qs. repeat (split; [done|]). split; [|done]. rewrite Eq. by rewrite <- !app_assoc.
Qed.

(** What is left of the region, as the loop of [vma_remove] re-inserts it. *)
Definition leaves (s e : Z) (p : region) (l l' : vma_list) (L1 L2 : list region) : Prop :=
  exists qs, shape l' /\ conserves l l' /\ regions (root l') = L1 ++ qs ++ L2 /\ sublist qs (cut s e p) /\
    (never_fails alloc -> qs = cut s e p) /\ (end_ p <= e -> cached (settled s l') (cache l')).

Lemma leaves_of s e p L1 L2 l : shape l -> regions (root l) = L1 ++ L2 -> ordered (L1 ++ p :: L2) -> overlaps s e p = true -> s < e ->
  cached (settled s l) (cache l) ->
  exists l', add_rest alloc l p s e = Ret l' /\ leaves s e p l l' L1 L2.
Proof.
  intros Hsh E Ho Hov Hse Hset. pose proof Hov as Hov'. apply overlaps_iff in Hov' as [Hs He]. unfold leaves, cut, add_rest. rewrite Hov.
  unfold keep_left, keep_right. rewrite !(Z.gtb_ltb s), !(Z.gtb_ltb e), Z.geb_leb. cbn zeta.
  destruct (start p <? s) eqn:Hl; [|assert (Hsl : (s <=? start p) = true) by (reify_bools; apply Z.leb_le; lia); rewrite Hsl];
    destruct (e <? end_ p) eqn:Hr; reify_bools; cbn [andb].
  - destruct (piece_between l p (start p) s (offset p) (Z.min (file_size p) (s - start p)) L1 [] L2) as (l1 & q1 & -> & Sh1 & C1 & A1 & E1 & H1); try done; try lia.
    rewrite ret_bind. destruct (piece_between l1 p e (end_ p) (u64 (offset p + (e - start p))) (rest_of p (e - start p) (end_ p - e)) L1 q1 L2) as (l2 & q2 & E2' & Sh2 & C2 & A2 & E2 & H2); try done; try lia.
    { destruct H1 as [->|[-> _]]; repeat constructor; cbn; lia. }
    exists l2. split; [exact E2'|]. exists (q1 ++ q2). split; [done|]. split; [by rewrite C1|]. split; [done|].
    split; [|split; [|lia]]; destruct H1 as [->|[-> ?]], H2 as [->|[-> ?]]; cbn; try done; repeat constructor.
  - rewrite ?andb_false_r. assert (Hge : (end_ p <=? e) = true) by (apply Z.leb_le; lia). assert (Hlt : (s <? end_ p) = true) by (apply Z.ltb_lt; lia).
    rewrite Hge, Hlt. cbn [andb].
    destruct (piece_between l p (start p) s (offset p) (Z.min (file_size p) (s - start p)) L1 [] L2) as (l1 & q1 & -> & Sh1 & C1 & A1 & E1 & H1); try done; try lia.
    exists l1. split; [done|]. exists q1. split; [done|]. split; [done|]. split; [done|].
    split; [|split]; [| |intros _; eapply added_settled; [exact A1|cbn; lia|done]]; destruct H1 as [->|[-> ?]]; cbn; try done; repeat constructor.
  - assert (Hlt : (start p <? e) = true) by (apply Z.ltb_lt; lia). rewrite Hlt. cbn [andb].
    destruct (piece_between l p e (end_ p) (u64 (offset p + (e - start p))) (rest_of p (e - start p) (end_ p - e)) L1 [] L2) as (l1 & q1 & E1' & Sh1 & C1 & A1 & E1 & H1); try done; try lia.
    exists l1. split; [exact E1'|]. exists q1. split; [done|]. split; [done|]. split; [done|].
    split; [|split; [|lia]]; destruct H1 as [->|[-> ?]]; cbn; try done; repeat constructor.
  - rewrite !andb_false_r. exists l. split; [done|]. exists []. repeat (split; [done|]). done.
Qed.

Lemma conserves_frame l1 l1' l2 l2' : root l1 = root l1' -> files l1 = files l1' -> linux l1 = linux l1' ->
  root l2 = root l2' -> files l2 = files l2' -> linux l2 = linux l2' -> conserves l1' l2' -> conserves l1 l2.
Proof. unfold conserves, spare_files, spare_linux. intros -> -> -> -> -> -> H. done. Qed.

Lemma remove_step_ok l P1 i p P2 s e : shape l -> pairs (root l) = P1 ++ (i, p) :: P2 -> overlaps s e p = true -> s < e ->
  cached (settled s l) (cache l) ->
  exists l', remove_step alloc l p s e = Ret l' /\ leaves s e p l l' (map snd P1) (map snd P2).
Proof.
  intros Hsh E Hov Hse Hset. unfold remove_step. fold (hold p l). pose proof Hov as Hov'. apply overlaps_iff in Hov' as [Hs _].
  destruct (delete_ok (hold p l) P1 i p P2 s (shape_hold p l Hsh) E Hs Hset) as (t & d & -> & Sh1 & C1 & E1 & Set1). rewrite ret_bind.
  cbn zeta in Sh1, C1, E1, Set1 |- *. set (l1 := set_count _ _) in *. clearbody l1.
  assert (Ho : ordered (map snd P1 ++ p :: map snd P2)).
  { pose proof (sh_ordered _ Hsh) as Ho. unfold regions in Ho. rewrite E, map_app in Ho. exact Ho. }
  destruct (leaves_of s e p (map snd P1) (map snd P2) l1 Sh1 E1 Ho Hov Hse Set1) as (l2 & E2 & qs & Sh2 & C2 & Eq & Hsub & Hnf & Set2).
  exists (release p l2). split; [|exists qs; split; [by apply shape_release|split; [|done]]].
  - by rewrite E2.
  - apply release_conserves. by rewrite C1.
Qed.

(** ** The loop *)

Lemma overlap_find l s e : shape l ->
  vma_find_overlap l s e = List.find (fun x => overlaps s e x.2) (pairs (root l)).
Proof. intros [[h Ha] _ _ _ _ _]. by apply (overlap_first _ h). Qed.

Lemma cut_out s e p : overlaps s e p = false -> cut s e p = [p].
Proof. unfold cut. by intros ->. Qed.
Lemma flat_cut_out s e L : Forall (fun p => overlaps s e p = false) L -> flat_map (cut s e) L = L.
Proof. induction 1 as [|p L Hp _ IH]; [done|]. cbn [flat_map]. by rewrite cut_out, IH. Qed.
Lemma cut_overlaps s e p : s < e -> Forall (fun q => overlaps s e q = false) (cut s e p).
Proof.
  intros Hse. unfold cut. destruct (overlaps s e p) eqn:Ho; [|by repeat constructor].
  apply Forall_app. unfold keep_left, keep_right. split; destruct (_ <? _); repeat constructor; apply not_overlaps; cbn; lia.
Qed.

Lemma sublist_flat_map {A B} (f : A -> list B) L1 L2 : sublist L1 L2 -> sublist (flat_map f L1) (flat_map f L2).
Proof.
  induction 1 as [|x L1 L2 _ IH|x L1 L2 _ IH]; cbn [flat_map]; [done| |].
  - by apply sublist_app.
  - etransitivity; [exact IH|]. apply sublist_inserts_l. done.
Qed.

(** What [vma_remove] does to the list of regions. *)
Definition removes_range (s e : Z) (l l' : vma_list) : Prop :=
  shape l' /\ conserves l l' /\ sublist (regions (root l')) (flat_map (cut s e) (regions (root l))) /\
  (never_fails alloc -> regions (root l') = flat_map (cut s e) (regions (root l))).

Lemma remove_loop_ok fuel : forall l s e r, shape l -> 0 <= s < e ->
  countb (overlaps s e) (regions (root l)) < Z.of_nat fuel ->
  cached (settled s l) (cache l) \/ Forall (fun p => overlaps s e p = false) (regions (root l)) ->
  exists r' l', remove_loop alloc fuel l s e r = Ret (r', l') /\ removes_range s e l l' /\
    r' = r || existsb (overlaps s e) (regions (root l)).
Proof.
  induction fuel as [|fuel IH]; intros l s e r Hsh Hse Hfuel Hset; [pose proof (count_nonneg (overlaps s e) (regions (root l))); lia|].
  cbn [remove_loop]. rewrite (overlap_find _ _ _ Hsh). destruct (List.find _ (pairs (root l))) as [[i p]|] eqn:E.
  - apply find_split in E as (P1 & P2 & E & Hov & Hn1). cbn [snd] in Hov.
    assert (EL : regions (root l) = map snd P1 ++ p :: map snd P2) by (unfold regions; by rewrite E, map_app).
    destruct Hset as [Hset|Hset]; [|rewrite EL in Hset; apply Forall_app in Hset as [_ Hset]; apply Forall_cons_1 in Hset as [? _]; congruence].
    destruct (remove_step_ok l P1 i p P2 s e Hsh E Hov ltac:(lia) Hset) as (l1 & -> & qs & Sh1 & C1 & E1 & Hsub & Hnf & Set1).
    rewrite ret_bind. apply (Forall_snd (fun p => overlaps s e p = false)) in Hn1.
    assert (Hqs : Forall (fun q => overlaps s e q = false) qs) by (eapply Forall_sublist; [exact Hsub|apply cut_overlaps; lia]).
    assert (Hc0 : forall L, Forall (fun q => overlaps s e q = false) L -> countb (overlaps s e) L = 0).
    { intros L HL. apply count_none. by apply Forall_forall. }
    destruct (IH l1 s e true Sh1 Hse) as (r' & l' & -> & (Sh2 & C2 & Hsub2 & Hnf2) & Hr).
    { rewrite EL, countb_app in Hfuel. cbn [countb] in Hfuel. rewrite E1, !countb_app, (Hc0 qs Hqs). rewrite Hov in Hfuel. cbn in Hfuel. lia. }
    { destruct (decide (end_ p <= e)); [left; auto|right]. rewrite E1, !Forall_app. split; [done|]. split; [done|].
      pose proof (sh_ordered _ Hsh) as Ho. rewrite EL in Ho. apply ordered_middle in Ho as (_ & _ & _ & _ & Hb & _).
      eapply Forall_impl; [exact Hb|]. intros x Hx. unfold before in Hx. apply not_overlaps. lia. }
    exists r', l'. split; [done|]. split.
    + split; [done|]. split; [by rewrite C1|]. rewrite EL. rewrite E1 in Hsub2, Hnf2.
      rewrite !flat_map_app, (flat_cut_out _ _ _ Hn1), (flat_cut_out _ _ _ Hqs) in *. cbn [flat_map]. split.
      * etransitivity; [exact Hsub2|]. apply sublist_app; [done|]. by apply sublist_app.
      * intros Hn. by rewrite Hnf2, (Hnf Hn).
    + rewrite Hr, EL, existsb_app. cbn [existsb]. rewrite Hov. by destruct r, (existsb _ (map snd P1)).
  - apply find_None in E. apply (Forall_snd (fun p => overlaps s e p = false)) in E. fold (regions (root l)) in E.
    exists r, l. split; [done|]. split; [|].
    + split; [done|]. split; [done|]. by rewrite (flat_cut_out _ _ _ E).
    + rewrite Forall_existsb_false by done. by rewrite orb_false_r.
Qed.

Lemma remove_ok l s e : shape l -> 0 <= s < e -> exists l', vma_remove alloc l s e = Ret (existsb (overlaps s e) (regions (root l)), l') /\
  removes_range s e l l'.
Proof.
  intros Hsh Hse. unfold vma_remove. pose proof Hsh as [Ha Ho Hn Hcnt Hlen Hc].
  assert (Hnone : forall Q, cached Q (cache (vma_cache_flush l))).
  { intros Q a Ha'. cbn in Ha'. rewrite !elem_of_cons, elem_of_nil in Ha'. naive_solver. }
  destruct (remove_loop_ok (S (size (root l))) (vma_cache_flush l) s e false) as (r & l' & -> & (Sh & C & H1) & ->); try done.
  - cbn [root vma_cache_flush set_cache]. unfold regions. rewrite size_pairs. pose proof (countb_le_length (overlaps s e) (map snd (pairs (root l)))).
    rewrite length_map in *. lia.
  - left. apply Hnone.
  - exists l'. split; [done|]. split; done.
Qed.

(** ** Changing a protection *)

Definition set_prot (pr : Z) (p : region) : region :=
  mk_region (start p) (end_ p) pr (flags p) (offset p) (file_size p) (fd p) (file_node p) (linux_vma p)
    (numa_policy p) (numa_nodemask p) (numa_preferred_node p).

Lemma find_unref o l x : vma_find (vma_file_unref o l) x = '(v, l) ← vma_find l x; Ret (v, vma_file_unref o l).
Proof.
  unfold vma_find. cbn [root cache vma_file_unref set_files]. destruct (cache_find (root l) x (cache l)) as [[v|]| | |]; try done.
  rewrite !ret_bind. by destruct (vma_find_recursive (root l) x) as [[a p]|].
Qed.
Lemma attach_unref o l x v : vma_attach_linux (vma_file_unref o l) x v = l ← vma_attach_linux l x v; Ret (vma_file_unref o l).
Proof.
  unfold vma_attach_linux. destruct v as [v|]; [|done]. rewrite find_unref. destruct (vma_find l x) as [[[[a p]|] l1]| | |]; try done.
  rewrite !ret_bind. cbn beta. by case_bool_decide.
Qed.

Lemma mprotect_step_eq l p s e pr : mprotect_step alloc l p s e pr =
  let m_start := Z.max (start p) s in let m_end := Z.min (end_ p) e in
  '(_, l) ← vma_remove alloc (hold p l) m_start m_end;
  l ← add_piece alloc l (set_prot pr p) m_start m_end (u64 (offset p + (m_start - start p))) (rest_of p (m_start - start p) (m_end - m_start));
  Ret (m_end, release p l).
Proof.
  unfold mprotect_step. cbn zeta. fold (hold p l). destruct (vma_remove alloc (hold p l) _ _) as [[r l1]| | |]; try done.
  rewrite !ret_bind. cbn beta iota. unfold add_piece. cbn [prot flags fd file_node linux_vma set_prot].
  unfold rest_of. destruct (vma_add _ _ _ _ _ _ _ _ _ _) as [[r2 l2]| | |]; try done. rewrite !ret_bind. cbn beta iota.
  rewrite attach_unref. by destruct (vma_attach_linux l2 _ _).
Qed.

Lemma cut_inner s e p : contains (Z.max (start p) s) p = true -> overlaps s e p = true ->
  cut (Z.max (start p) s) (Z.min (end_ p) e) p = keep_left s p ++ keep_right e p.
Proof.
  rewrite contains_iff, overlaps_iff. intros Hc Ho. unfold cut, keep_left, keep_right.
  rewrite (proj2 (overlaps_iff _ _ _)) by lia. f_equal.
  - destruct (start p <? s) eqn:?, (start p <? Z.max (start p) s) eqn:?; reify_bools; try lia; [|done]. by rewrite Z.max_r by lia.
  - destruct (e <? end_ p) eqn:?, (Z.min (end_ p) e <? end_ p) eqn:?; reify_bools; try lia; [|done]. by rewrite Z.min_r by lia.
Qed.

Lemma mprotect_step_ok l A p B s e pr : shape l -> regions (root l) = A ++ p :: B -> overlaps s e p = true -> 0 <= s < e ->
  exists l' A' qs B', mprotect_step alloc l p s e pr = Ret (Z.min (end_ p) e, l') /\ shape l' /\ conserves l l' /\
    regions (root l') = A' ++ qs ++ B' /\ sublist A' (A ++ keep_left s p) /\ sublist B' (keep_right e p ++ B) /\
    sublist qs [inner s e pr p] /\
    (never_fails alloc -> A' = A ++ keep_left s p /\ qs = [inner s e pr p] /\ B' = keep_right e p ++ B).
Proof.
  intros Hsh E Hov Hse. rewrite mprotect_step_eq. cbn zeta. set (ms := Z.max (start p) s). set (me := Z.min (end_ p) e).
  pose proof (sh_ordered _ Hsh) as Ho. rewrite E in Ho. pose proof Ho as Ho'. apply ordered_middle in Ho' as ([_ N1] & [_ N2] & Hp & B1 & B2 & _).
  pose proof Hov as Hov'. apply overlaps_iff in Hov'. unfold nonempty in Hp. assert (Hm : 0 <= ms < me) by (unfold ms, me; lia).
  destruct (remove_ok (hold p l) ms me (shape_hold p l Hsh) Hm) as (l1 & -> & Sh1 & C1 & Sub1 & Nf1). rewrite ret_bind. cbn beta iota.
  pose proof (room A p B ms me Ho ltac:(unfold ms; lia) ltac:(unfold me in *; lia)) as (R & S1 & S2).
  change (regions (root (hold p l))) with (regions (root l)) in *.
  assert (Ef : flat_map (cut ms me) (regions (root l)) = (A ++ keep_left s p) ++ (keep_right e p ++ B)).
  { rewrite E. apply Forall_app in R as [R1 R2]. rewrite flat_map_app. cbn [flat_map]. rewrite !flat_cut_out by done.
    unfold ms, me. rewrite (cut_inner s e p); [by rewrite <- !app_assoc| |done]. apply contains_iff. unfold ms, me in *; lia. }
  assert (Hno : Forall (fun x => overlaps ms me x = false) (flat_map (cut ms me) (regions (root l)))).
  { rewrite Forall_flat_map. apply Forall_forall. intros x _. apply cut_overlaps. lia. }
  destruct (piece_ok l1 (set_prot pr p) ms me (u64 (offset p + (ms - start p))) (rest_of p (ms - start p) (me - ms)) Sh1 Hm) as (l2 & -> & Sh2 & C2 & Had).
  { eapply Forall_sublist; [exact Sub1|done]. }
  rewrite ret_bind. pose proof Sub1 as Hsplit. rewrite Ef in Hsplit. apply sublist_app_r in Hsplit as (A' & B' & E1 & SA & SB).
  assert (FA : Forall (fun x => start x < ms) (A ++ keep_left s p)).
  { apply Forall_app. split; [done|]. unfold keep_left. destruct (start p <? s) eqn:?; reify_bools; repeat constructor. cbn. unfold ms. lia. }
  assert (FB : Forall (fun x => ms < start x) (keep_right e p ++ B)).
  { apply Forall_app. split; [|done]. unfold keep_right. destruct (e <? end_ p) eqn:?; reify_bools; repeat constructor. cbn. unfold ms. lia. }
  destruct (added_between _ _ _ A' B' Had E1) as (qs & E2 & Hqs); [by eapply Forall_sublist|by eapply Forall_sublist|].
  exists (release p l2), A', qs, B'. split; [done|]. split; [by apply shape_release|].
  split; [apply release_conserves; by rewrite C1|]. split; [done|]. split; [done|]. split; [done|].
  split; [destruct Hqs as [->|[-> _]]; [done|repeat constructor]|]. intros Hnf.
  specialize (Nf1 Hnf). rewrite E1, Ef in Nf1. destruct Hqs as [->|[_ []]]; [|done].
  assert (Hlen : length A' = length (A ++ keep_left s p)).
  { pose proof (sublist_length _ _ SA). pose proof (sublist_length _ _ SB). apply (f_equal length) in Nf1. rewrite !(length_app A'), (length_app (A ++ _)) in Nf1. lia. }
  apply app_inj_1 in Nf1 as [-> ->]; done.
Qed.

Lemma countb_sublist {A} (f : A -> bool) l1 l2 : sublist l1 l2 -> countb f l1 <= countb f l2.
Proof. induction 1 as [|x l1 l2 _ IH|x l1 l2 _ IH]; cbn [countb]; destruct (f x) || idtac; cbn [Z.b2z]; lia. Qed.

Lemma flat_reprotect_out s e pr L : Forall (fun p => overlaps s e p = false) L -> flat_map (reprotect s e pr) L = L.
Proof. induction 1 as [|p L Hp _ IH]; [done|]. cbn [flat_map]. unfold reprotect at 1. by rewrite Hp, IH. Qed.

Lemma find_snd {A} (f : region -> bool) (P : list (A * region)) : snd <$> List.find (fun x => f x.2) P = List.find f (map snd P).
Proof. induction P as [|x P IH]; [done|]. cbn [map List.find]. by destruct (f x.2). Qed.

(** The head of a list of regions that end above [c] is what a search finds. *)
Lemma head_contains c B p : ordered B -> Forall (fun x => c < end_ x) B -> List.find (contains c) B = Some p ->
  exists B', B = p :: B' /\ start p <= c.
Proof.
  intros Ho Hc Hf. apply find_split in Hf as (B1 & B2 & -> & Hp & _). apply contains_iff in Hp. destruct B1 as [|x B1]; [exists B2; split; [done|lia]|].
  exfalso. cbn [app] in *. apply ordered_cons in Ho as (_ & Hb & _). apply Forall_app in Hb as [_ Hb]. apply Forall_cons_1 in Hb as [Hb _].
  apply Forall_cons_1 in Hc as [Hc _]. unfold before in Hb. lia.
Qed.
Lemma head_overlaps c e B p : ordered B -> Forall (fun x => c < end_ x) B -> List.find (overlaps c e) B = Some p ->
  exists B', B = p :: B' /\ start p < e.
Proof.
  intros Ho Hc Hf. apply find_split in Hf as (B1 & B2 & -> & Hp & Hn). apply overlaps_iff in Hp. destruct B1 as [|x B1]; [exists B2; split; [done|lia]|].
  exfalso. cbn [app] in *. apply ordered_cons in Ho as (Hx & Hb & _). apply Forall_app in Hb as [_ Hb]. apply Forall_cons_1 in Hb as [Hb _].
  apply Forall_cons_1 in Hc as [Hc _], Hn as [Hn _]. apply not_overlaps in Hn. unfold before, nonempty in *. lia.
Qed.

Definition protects (s e pr : Z) (l l' : vma_list) (A B : list region) : Prop :=
  shape l' /\ conserves l l' /\ sublist (regions (root l')) (A ++ flat_map (reprotect s e pr) B) /\
  (never_fails alloc -> regions (root l') = A ++ flat_map (reprotect s e pr) B).

(** The state of the loop: the regions before [curr] are done, and a turn that
    finds no region at [curr] is followed by one that does. *)
Definition mprotect_state (s e curr : Z) (fuel : nat) (l : vma_list) (A B : list region) : Prop :=
  shape l /\ regions (root l) = A ++ B /\ s <= curr /\ Forall (fun x => end_ x <= curr) A /\
  Forall (fun x => curr < end_ x) B /\ Forall (fun x => start x < curr -> curr = s) B /\
  (2 * countb (fun x => start x <? e) B + 1 < Z.of_nat fuel \/
   2 * countb (fun x => start x <? e) B < Z.of_nat fuel /\ exists x B', B = x :: B' /\ start x <= curr).

(** One region: the state after it, and what it adds to the result. *)
Lemma mprotect_advance s e pr fuel curr l l' A p B A' qs B' : 0 <= s < e -> curr < e -> start p <= curr ->
  mprotect_state s e curr (S fuel) l A (p :: B) ->
  shape l' -> regions (root l') = A' ++ qs ++ B' -> sublist A' (A ++ keep_left s p) -> sublist B' (keep_right e p ++ B) ->
  sublist qs [inner s e pr p] -> mprotect_state s e (Z.min (end_ p) e) fuel l' (A' ++ qs) B'.
Proof.
  intros Hse Hce Hpc (Hsh & E & Hsc & HA & HB & _ & Hfuel) Sh' E' SA SB Sq.
  pose proof (sh_ordered _ Hsh) as Ho. rewrite E in Ho. apply ordered_middle in Ho as (_ & [_ N2] & Hp & _ & Hb & _).
  apply Forall_cons_1 in HB as [Hcp HB]. unfold nonempty in Hp.
  assert (FB : Forall (fun x => Z.min (end_ p) e <= start x < end_ x) (keep_right e p ++ B)).
  { apply Forall_app. split.
    - unfold keep_right. destruct (e <? end_ p) eqn:?; reify_bools; repeat constructor; cbn; lia.
    - apply Forall_forall. intros x Hx. rewrite Forall_forall in Hb, N2. specialize (Hb x Hx). specialize (N2 x Hx). unfold before, nonempty in *. lia. }
  apply (Forall_sublist _ _ _ SB) in FB. split; [done|]. split; [by rewrite <- app_assoc|]. split; [lia|].
  split; [|split; [|split]].
  - apply Forall_app. split; eapply Forall_sublist; [exact SA| |exact Sq|].
    + apply Forall_app. split; [eapply Forall_impl; [exact HA|]; intros x Hx; cbn in *; lia|].
      unfold keep_left. destruct (start p <? s) eqn:?; reify_bools; repeat constructor; cbn; lia.
    + repeat constructor. cbn. lia.
  - eapply Forall_impl; [exact FB|]. intros x Hx. cbn in *. lia.
  - eapply Forall_impl; [exact FB|]. intros x Hx. cbn in *. lia.
  - left. pose proof (countb_sublist (fun x => start x <? e) _ _ SB) as Hcnt. rewrite countb_app in Hcnt.
    assert (H0 : countb (fun x => start x <? e) (keep_right e p) = 0).
    { unfold keep_right. destruct (e <? end_ p); cbn [countb]; [|done]. cbn. by rewrite Z.ltb_irrefl. }
    assert (H1 : (start p <? e) = true) by (apply Z.ltb_lt; lia). cbn [countb] in Hfuel. rewrite H1 in Hfuel. cbn [Z.b2z] in Hfuel. lia.
Qed.

Lemma protects_advance s e pr l l1 l' A p B A' qs B' : overlaps s e p = true -> s < e ->
  sublist A' (A ++ keep_left s p) -> sublist B' (keep_right e p ++ B) -> sublist qs [inner s e pr p] ->
  (never_fails alloc -> A' = A ++ keep_left s p /\ qs = [inner s e pr p] /\ B' = keep_right e p ++ B) ->
  conserves l l1 -> protects s e pr l1 l' (A' ++ qs) B' -> protects s e pr l l' A (p :: B).
Proof.
  intros Hov Hse SA SB Sq Hnf C1 (Sh & C2 & Sub & Nf). split; [done|]. split; [by rewrite C1|].
  assert (Ef : A ++ flat_map (reprotect s e pr) (p :: B) =
    ((A ++ keep_left s p) ++ [inner s e pr p]) ++ flat_map (reprotect s e pr) (keep_right e p ++ B)).
  { cbn [flat_map]. unfold reprotect at 1. rewrite Hov, flat_map_app, (flat_reprotect_out s e pr (keep_right e p)).
    - rewrite <- !app_assoc. cbn [app]. done.
    - unfold keep_right. destruct (e <? end_ p) eqn:?; repeat constructor. apply not_overlaps. cbn. lia. }
  rewrite Ef. split.
  - etransitivity; [exact Sub|]. apply sublist_app; [by apply sublist_app|by apply sublist_flat_map].
  - intros Hn. rewrite (Nf Hn). destruct (Hnf Hn) as (-> & -> & ->). done.
Qed.

Lemma mprotect_loop_ok fuel : forall l curr s e pr A B, 0 <= s < e -> mprotect_state s e curr fuel l A B ->
  exists l', mprotect_loop alloc fuel l curr s e pr = Ret l' /\ protects s e pr l l' A B.
Proof.
  induction fuel as [|fuel IH]; intros l curr s e pr A B Hse Hst; pose proof Hst as (Hsh & E & Hsc & HA & HB & HB2 & Hfuel).
  { pose proof (count_nonneg (fun x => start x <? e) B). lia. }
  pose proof (sh_ordered _ Hsh) as Ho. rewrite E in Ho. apply ordered_app in Ho as (_ & OB & _). cbn [mprotect_loop].
  assert (Hstop : Forall (fun x => overlaps s e x = false) B -> forall c, shape (set_cache c l) -> protects s e pr l (set_cache c l) A B).
  { intros Hn c Hc. split; [done|]. split; [done|]. rewrite flat_reprotect_out by done. cbn [root set_cache]. by rewrite E. }
  assert (Hself : l = set_cache (cache l) l) by by destruct l.
  destruct (curr <? e) eqn:Hce; reify_bools.
  2: { exists l. split; [done|]. rewrite Hself at 2. apply Hstop; [|by rewrite <- Hself]. apply Forall_forall. intros x Hx.
       rewrite Forall_forall in HB2. specialize (HB2 x Hx). apply not_overlaps. lia. }
  destruct (find_ok l curr Hsh) as (c & -> & Hsh1 & _). rewrite ret_bind. cbn beta iota.
  assert (Ec : snd <$> List.find (fun y => contains curr y.2) (pairs (root l)) = List.find (contains curr) B).
  { rewrite find_snd. fold (regions (root l)). rewrite E, find_app, find_none; [done|]. eapply Forall_impl; [exact HA|].
    intros x Hx. apply not_contains. cbn in Hx. lia. }
  destruct (List.find (fun y => contains curr y.2) (pairs (root l))) as [[a p]|]; cbn in Ec; symmetry in Ec.
  - destruct (head_contains _ _ _ OB HB Ec) as (B' & -> & Hp). apply Forall_cons_1 in HB as [Hcp _].
    assert (Hov : overlaps s e p = true) by (apply overlaps_iff; lia).
    destruct (mprotect_step_ok (set_cache c l) A p B' s e pr Hsh1 E Hov Hse) as (l1 & A1 & qs & B1 & -> & Sh1 & C1 & E1 & SA & SB & Sq & Hnf).
    rewrite ret_bind. cbn beta iota.
    destruct (IH l1 (Z.min (end_ p) e) s e pr (A1 ++ qs) B1 Hse) as (l' & -> & Hpr).
    { by apply (mprotect_advance s e pr fuel curr l l1 A p B' A1 qs B1). }
    exists l'. split; [done|]. apply (protects_advance s e pr l l1 l' A p B' A1 qs B1); try done. lia.
  - rewrite (overlap_find _ _ _ Hsh1). cbn [root set_cache].
    assert (Eo : snd <$> List.find (fun y => overlaps curr e y.2) (pairs (root l)) = List.find (overlaps curr e) B).
    { rewrite find_snd. fold (regions (root l)). rewrite E, find_app, find_none; [done|]. eapply Forall_impl; [exact HA|].
      intros x Hx. apply not_overlaps. cbn in Hx. lia. }
    destruct (List.find (fun y => overlaps curr e y.2) (pairs (root l))) as [[a p]|]; cbn in Eo; symmetry in Eo.
    + destruct (head_overlaps _ _ _ _ OB HB Eo) as (B' & -> & Hp). apply find_None in Ec. apply Forall_cons_1 in Ec as [Ec _].
      apply Forall_cons_1 in HB as [Hcp HB]. apply not_contains in Ec. apply ordered_cons in OB as (Np & Hb & [_ NB]). unfold nonempty in Np.
      assert (Hge : Forall (fun x => start p <= start x < end_ x) (p :: B')).
      { constructor; [lia|]. apply Forall_forall. intros x Hx. rewrite Forall_forall in Hb, NB. specialize (Hb x Hx). specialize (NB x Hx).
        unfold before, nonempty in *. lia. }
      destruct (IH (set_cache c l) (start p) s e pr A (p :: B') Hse) as (l' & -> & Hpr); [|exists l'; done].
      split; [done|]. split; [done|]. split; [lia|]. split; [eapply Forall_impl; [exact HA|]; intros x Hx; cbn in *; lia|].
      split; [eapply Forall_impl; [exact Hge|]; intros x Hx; cbn in *; lia|].
      split; [eapply Forall_impl; [exact Hge|]; intros x Hx; cbn in *; lia|].
      right. destruct Hfuel as [Hfuel|[_ (x & B0 & [= <- <-] & Hx)]]; [|lia]. split; [lia|]. exists p, B'. split; [done|lia].
    + exists (set_cache c l). split; [done|]. apply Hstop; [|done]. apply find_None in Eo. apply Forall_forall. intros x Hx.
      rewrite Forall_forall in Eo, HB. specialize (Eo x Hx). specialize (HB x Hx). apply not_overlaps in Eo. apply not_overlaps. lia.
Qed.

Lemma ordered_split s L : ordered L -> exists A B, L = A ++ B /\ Forall (fun x => end_ x <= s) A /\ Forall (fun x => s < end_ x) B.
Proof.
  induction L as [|p L IH]; intros Ho; [by exists [], []|]. apply ordered_cons in Ho as (Hp & Hb & Ho).
  destruct (decide (end_ p <= s)) as [Hs|Hs].
  - destruct (IH Ho) as (A & B & -> & HA & HB). exists (p :: A), B. split; [done|]. split; [by constructor|done].
  - exists [], (p :: L). split; [done|]. split; [constructor|]. constructor; [lia|]. destruct Ho as [_ Hn]. apply Forall_forall. intros x Hx.
    rewrite Forall_forall in Hb, Hn. specialize (Hb x Hx). specialize (Hn x Hx). unfold before, nonempty in *. lia.
Qed.

Lemma mprotect_ok l s e pr : shape l -> 0 <= s < e -> exists l', vma_mprotect alloc l s e pr = Ret l' /\ protects s e pr l l' [] (regions (root l)).
Proof.
  intros Hsh Hse. destruct (ordered_split s _ (sh_ordered _ Hsh)) as (A & B & E & HA & HB). unfold vma_mprotect.
  destruct (mprotect_loop_ok (2 * size (root l) + 2) l s s e pr A B Hse) as (l' & -> & Sh & C & Sub & Nf).
  { split; [done|]. split; [done|]. split; [lia|]. split; [done|]. split; [done|]. split; [by apply Forall_forall|]. left.
    pose proof (countb_le_length (fun x => start x <? e) B) as Hl. apply (f_equal length) in E. unfold regions in E.
    rewrite length_map, length_app, <- size_pairs in E. lia. }
  exists l'. split; [done|]. split; [done|]. split; [done|].
  assert (Ef : flat_map (reprotect s e pr) (regions (root l)) = A ++ flat_map (reprotect s e pr) B).
  { rewrite E, flat_map_app, (flat_reprotect_out s e pr A); [done|]. eapply Forall_impl; [exact HA|]. intros x Hx. apply not_overlaps. cbn in Hx. lia. }
  cbn [app]. by rewrite Ef.
Qed.

End Ops.

(** ** What a process sees at an address *)

(** Protection, flags, wrapper, and for a file mapping the file, the descriptor,
    the offset in the file and whether the byte is inside the file; for the NUMA policy see
    [numa_at]. *)
Definition view (p : region) (a : Z) : Z * Z * option Z * option (Z * Z * Z * bool) :=
  (prot p, flags p, linux_vma p,
   (fun n => (n, fd p, u64 (offset p + (a - start p)), a - start p <? file_size p)) <$> file_node p).
Definition view_at (L : list region) (a : Z) : option (Z * Z * option Z * option (Z * Z * Z * bool)) :=
  (fun p => view p a) <$> List.find (contains a) L.

(** Operations that replace a region by parts of it. *)
Definition splits (f : region -> list region) : Prop :=
  forall p, nonempty p -> ordered (f p) /\ Forall (fun q => start p <= start q /\ end_ q <= end_ p) (f p).

Lemma flat_map_within f L (lo : Z) : splits f -> Forall nonempty L -> Forall (fun p => lo <= start p) L -> Forall (fun q => lo <= start q) (flat_map f L).
Proof.
  intros Hf Hn Hl. rewrite Forall_flat_map. rewrite !Forall_forall in *. intros p Hp. specialize (Hl p Hp).
  destruct (Hf p (Hn p Hp)) as [_ H]. eapply Forall_impl; [exact H|]. intros q [? _]. cbn in *. lia.
Qed.

Lemma ordered_flat_map f L : splits f -> ordered L -> ordered (flat_map f L).
Proof.
  intros Hf. induction L as [|p L IH]; intros Ho; [done|]. apply ordered_cons in Ho as (Hp & Hb & Ho). cbn [flat_map].
  apply ordered_app. destruct (Hf p Hp) as [H1 H2]. split; [done|]. split; [auto|]. eapply Forall_impl; [exact H2|]. intros q [_ Hq].
  cbn beta in Hq. eapply Forall_impl; [apply (flat_map_within f L (end_ p) Hf); [apply Ho|exact Hb]|]. intros x Hx. unfold before. cbn in Hx. lia.
Qed.

Lemma find_outside f L a : splits f -> Forall nonempty L -> Forall (fun p => contains a p = false) L -> List.find (contains a) (flat_map f L) = None.
Proof.
  intros Hf Hn Hc. apply find_none. rewrite Forall_flat_map. rewrite !Forall_forall in *. intros p Hp. destruct (Hf p (Hn p Hp)) as [_ H].
  eapply Forall_impl; [exact H|]. intros q Hq. specialize (Hc p Hp). apply not_contains in Hc. apply not_contains. cbn in Hq. lia.
Qed.

Lemma find_flat_map f L a : splits f -> ordered L ->
  List.find (contains a) (flat_map f L) = List.find (contains a) L ≫= fun p => List.find (contains a) (f p).
Proof.
  intros Hf. induction L as [|p L IH]; intros Ho; [done|]. apply ordered_cons in Ho as (Hp & Hb & Ho). cbn [flat_map List.find].
  rewrite find_app. destruct (contains a p) eqn:Hc.
  - cbn. destruct (List.find (contains a) (f p)) as [q|]; [done|]. rewrite find_outside; [done|done|apply Ho|].
    eapply Forall_impl; [exact Hb|]. intros x Hx. apply contains_iff in Hc. apply not_contains. unfold before in Hx. lia.
  - rewrite <- IH by done. pose proof (find_outside f [p] a Hf) as Hn. cbn [flat_map] in Hn. rewrite app_nil_r in Hn.
    rewrite Hn; [done|by constructor; [done|constructor]..].
Qed.
Lemma view_flat_map f L a : splits f -> ordered L ->
  view_at (flat_map f L) a = List.find (contains a) L ≫= fun p => view_at (f p) a.
Proof. intros Hf Ho. unfold view_at. rewrite find_flat_map by done. by destruct (List.find _ L). Qed.

Lemma find_sublist L1 L2 a : sublist L1 L2 -> ordered L2 -> List.find (contains a) L1 = None \/ List.find (contains a) L1 = List.find (contains a) L2.
Proof.
  induction 1 as [|p L1 L2 _ IH|p L1 L2 Hs IH]; intros Ho; [by left| |]; apply ordered_cons in Ho as (Hp & Hb & Ho).
  - cbn [List.find]. destruct (contains a p); [by right|auto].
  - destruct (IH Ho) as [H|H]; [by left|]. cbn [List.find]. destruct (contains a p) eqn:Hc; [|by right]. left. rewrite H, find_none; [done|].
    eapply Forall_impl; [exact Hb|]. intros x Hx. apply contains_iff in Hc. apply not_contains. unfold before in Hx. lia.
Qed.
(** What is seen of the region at an address when some regions may be lost. *)
Lemma seen_sublist {A} (g : region -> A) L1 L2 a (safe : Prop) : sublist L1 L2 -> ordered L2 -> (safe -> L1 = L2) ->
  g <$> List.find (contains a) L1 = g <$> List.find (contains a) L2 \/ g <$> List.find (contains a) L1 = None /\ ~ safe.
Proof.
  intros Hs Ho Hl. destruct (find_sublist L1 L2 a Hs Ho) as [E|E]; [|left; by rewrite E]. rewrite E. destruct (List.find (contains a) L2) eqn:E2; [|by left].
  right. split; [done|]. intros H. rewrite (Hl H) in E. congruence.
Qed.

(** ** The pieces show what the region showed *)

Lemma view_left s p a : a < s -> view (left_piece s p) a = view p a.
Proof.
  intros Ha. unfold view. cbn.
  assert (Hb : (a - start p <? Z.min (file_size p) (s - start p)) = (a - start p <? file_size p))
    by (apply Bool.eq_iff_eq_true; rewrite !Z.ltb_lt; lia).
  by rewrite Hb.
Qed.

Lemma view_rest p pr m me a : start p <= m -> m <= a < me ->
  view (mk_region m me pr (flags p) (u64 (offset p + (m - start p))) (rest_of p (m - start p) (me - m)) (fd p) (file_node p) (linux_vma p) 0 0 0) a =
  (pr, flags p, linux_vma p, (view p a).2).
Proof.
  intros Hm Ha. unfold view. cbn.
  assert (Eo : u64 (u64 (offset p + (m - start p)) + (a - m)) = u64 (offset p + (a - start p))).
  { unfold u64. rewrite Zplus_mod_idemp_l. f_equal. lia. }
  assert (Hb : (a - m <? rest_of p (m - start p) (me - m)) = (a - start p <? file_size p)).
  { unfold rest_of. apply Bool.eq_iff_eq_true. rewrite !Z.ltb_lt. destruct (file_size p >? m - start p) eqn:?; reify_bools; lia. }
  by rewrite Eo, Hb.
Qed.

Lemma cut_splits s e : 0 <= s < e -> splits (cut s e).
Proof.
  intros Hse p Hp. unfold nonempty in Hp. unfold cut. destruct (overlaps s e p) eqn:Ho; [apply overlaps_iff in Ho|].
  - unfold keep_left, keep_right. destruct (start p <? s) eqn:?, (e <? end_ p) eqn:?; reify_bools; cbn [app];
      repeat (rewrite ordered_cons || rewrite Forall_cons_iff); unfold nonempty, before; cbn; repeat split; try lia; repeat constructor; cbn; lia.
  - repeat (rewrite ordered_cons || rewrite Forall_cons_iff). repeat split; try lia; repeat constructor; lia.
Qed.

Lemma reprotect_splits s e pr : 0 <= s < e -> splits (reprotect s e pr).
Proof.
  intros Hse p Hp. unfold nonempty in Hp. unfold reprotect. destruct (overlaps s e p) eqn:Ho; [apply overlaps_iff in Ho|].
  - unfold keep_left, keep_right. destruct (start p <? s) eqn:?, (e <? end_ p) eqn:?; reify_bools; cbn [app];
      repeat (rewrite ordered_cons || rewrite Forall_cons_iff); unfold nonempty, before; cbn; repeat split; try lia; repeat constructor; cbn; lia.
  - repeat (rewrite ordered_cons || rewrite Forall_cons_iff). repeat split; try lia; repeat constructor; lia.
Qed.

Definition inside (s e a : Z) : bool := (s <=? a) && (a <? e).

Lemma view_cut s e p a : s < e -> contains a p = true -> view_at (cut s e p) a = if inside s e a then None else Some (view p a).
Proof.
  intros Hse Hc. pose proof Hc as Hc'. apply contains_iff in Hc'. unfold view_at, cut, inside. destruct (overlaps s e p) eqn:Ho.
  2: { apply not_overlaps in Ho. cbn [List.find]. rewrite Hc. destruct (s <=? a) eqn:?, (a <? e) eqn:?; reify_bools; cbn; done || lia. }
  apply overlaps_iff in Ho. rewrite find_app. unfold keep_left, keep_right.
  destruct (start p <? s) eqn:?, (e <? end_ p) eqn:?, (s <=? a) eqn:?, (a <? e) eqn:?; reify_bools; try lia; cbn [List.find andb];
    unfold contains; cbn [start end_ left_piece right_piece];
    repeat match goal with |- context [?x <=? ?y] => destruct (x <=? y) eqn:?; reify_bools; try lia
                     | |- context [?x <? ?y] => destruct (x <? y) eqn:?; reify_bools; try lia end; cbn [andb fmap option_fmap option_map]; try done;
    f_equal; try (by apply view_left; lia).
  all: unfold right_piece; rewrite view_rest by lia; done.
Qed.

Definition with_prot (pr : Z) (v : Z * Z * option Z * option (Z * Z * Z * bool)) : Z * Z * option Z * option (Z * Z * Z * bool) :=
  let '(_, fl, lx, f) := v in (pr, fl, lx, f).

Lemma view_reprotect s e pr p a : s < e -> contains a p = true ->
  view_at (reprotect s e pr p) a = Some (if inside s e a then with_prot pr (view p a) else view p a).
Proof.
  intros Hse Hc. pose proof (view_cut s e p a Hse Hc) as Hcut. unfold view_at, cut, reprotect in *. apply contains_iff in Hc.
  destruct (overlaps s e p) eqn:Ho.
  2: { cbn [List.find] in *. unfold inside in *. rewrite (proj2 (contains_iff _ _)) in * by lia. cbn in *. apply not_overlaps in Ho.
       destruct (s <=? a) eqn:?, (a <? e) eqn:?; reify_bools; cbn; done || lia. }
  apply overlaps_iff in Ho. rewrite find_app in *. cbn [List.find]. destruct (contains a (inner s e pr p)) eqn:Hi; apply contains_iff in Hi || apply not_contains in Hi; cbn in Hi.
  - assert (Hin : inside s e a = true) by (unfold inside; rewrite (proj2 (Z.leb_le s a)), (proj2 (Z.ltb_lt a e)) by lia; done).
    rewrite Hin in *. destruct (List.find _ (keep_left s p)); [done|]. cbn. f_equal. unfold inner. rewrite view_rest by lia. done.
  - assert (Hin : inside s e a = false). { unfold inside. destruct (s <=? a) eqn:?, (a <? e) eqn:?; reify_bools; done || lia. }
    rewrite Hin in *. done.
Qed.

(** The NUMA policy of a region, and what a new region has. *)
Definition numa (p : region) : Z * Z * Z := (numa_policy p, numa_nodemask p, numa_preferred_node p).
Definition numa_at (L : list region) (a : Z) : option (Z * Z * Z) := numa <$> List.find (contains a) L.
Definition no_policy : Z * Z * Z := (0, 0, 0).
(** The pieces that replace a region at its addresses. *)
Lemma numa_pieces (f : region -> list region) p a : (exists v, view_at (f p) a = Some v) -> Forall (fun q => numa q = no_policy) (f p) -> numa_at (f p) a = Some no_policy.
Proof.
  intros [v Hv] HF. unfold view_at, numa_at in *. destruct (List.find _ (f p)) as [q|] eqn:E; [|done]. apply find_some in E as [E _]. rewrite Forall_forall in HF. cbn. f_equal. apply HF. by apply list_elem_of_In.
Qed.
Lemma numa_keeps s e p : Forall (fun q => numa q = no_policy) (keep_left s p ++ keep_right e p).
Proof. apply Forall_app. unfold keep_left, keep_right. split; destruct (_ <? _); repeat constructor. Qed.
Lemma numa_cut s e p a : s < e -> contains a p = true ->
  numa_at (cut s e p) a = if inside s e a then None else Some (if overlaps s e p then no_policy else numa p).
Proof.
  intros Hse Hc. pose proof (view_cut s e p a Hse Hc) as Hv. destruct (inside s e a); [unfold view_at, numa_at in *; by destruct (List.find _ _)|]. destruct (overlaps s e p) eqn:Ho.
  - apply numa_pieces; [by eexists|]. unfold cut. rewrite Ho. apply numa_keeps.
  - unfold cut, numa_at. rewrite Ho. cbn. by rewrite Hc.
Qed.
Lemma numa_reprotect s e pr p a : s < e -> contains a p = true ->
  numa_at (reprotect s e pr p) a = Some (if overlaps s e p then no_policy else numa p).
Proof.
  intros Hse Hc. pose proof (view_reprotect s e pr p a Hse Hc) as Hv. destruct (overlaps s e p) eqn:Ho.
  - apply numa_pieces; [by eexists|]. unfold reprotect. rewrite Ho. pose proof (numa_keeps s e p) as H. rewrite Forall_app in *. rewrite Forall_cons. by destruct H.
  - unfold reprotect, numa_at. rewrite Ho. cbn. by rewrite Hc.
Qed.

(** ** Main results *)

Lemma shape_init l : shape (vma_list_init l).
Proof.
  constructor; cbn.
  - exists 0. constructor.
  - by repeat constructor.
  - constructor.
  - done.
  - done.
  - intros a Ha. rewrite !elem_of_cons, elem_of_nil in Ha. naive_solver.
Qed.

Lemma add_shape alloc `{!NodeAllocator alloc} l s e pr fl f off file fsize r l' : shape l -> 0 <= s < e ->
  vma_add alloc l s e pr fl f off file fsize = Ret (r, l') -> shape l' /\ conserves l l'.
Proof.
  intros Hsh Hse E. destruct (add_ok alloc l s e pr fl f off file fsize Hsh Hse)
    as [[E' _]|[(E' & _ & _)|(a & t & E' & _ & _ & Hsh1 & P1 & P2 & E1 & E2 & _)]]; rewrite E' in E; simplify_eq; [done| |].
  - split; [by apply shape_tick|done].
  - split; [done|]. by apply (conserves_add l a t file _ P1 P2 E1 E2).
Qed.

(** A list with a file mapping and an anonymous one above it. *)
Definition first_fresh (t : nat) (l : list nat) : option nat := Some (S (foldr Nat.max 0%nat l)).
#[global] Instance first_fresh_allocator : NodeAllocator first_fresh.
Proof.
  intros t l a [= <-] Hin. assert (Hle : forall x, x ∈ l -> (x <= foldr Nat.max 0 l)%nat); [|specialize (Hle _ Hin); lia].
  clear. induction l as [|y l IH]; intros x Hx; [by apply not_elem_of_nil in Hx|]. apply elem_of_cons in Hx as [->|Hx]; cbn; [lia|].
  specialize (IH x Hx). lia.
Qed.
Lemma first_fresh_total : never_fails first_fresh.
Proof. done. Qed.

Definition no_list : vma_list := mk_list Null 0 [] (fun _ => 0) (fun _ => 0) 0.
Definition after (o : outcome (Z * vma_list)) : vma_list := match o with Ret (_, l) => l | _ => no_list end.
Definition demo1 : vma_list :=
  after (vma_add first_fresh (vma_list_init no_list) 0x1000 0x5000 1 2 3 0x8000 (Some 7) 0x2800).
Definition demo2 : vma_list := after (vma_add first_fresh demo1 0x6000 0x9000 3 0x22 (-1) 0 None 0).
Lemma demo_shape : shape demo2.
Proof.
  assert (H1 : shape demo1).
  { apply (add_shape first_fresh (vma_list_init no_list) 0x1000 0x5000 1 2 3 0x8000 (Some 7) 0x2800 0 demo1 (shape_init no_list)); [lia|reflexivity]. }
  apply (add_shape first_fresh demo1 0x6000 0x9000 3 0x22 (-1) 0 None 0 0 demo2 H1); [lia|reflexivity].
Qed.

(** C37: [vma_find], with its cache of four node pointers, returns exactly what a
    search of all regions for the address returns, dereferences no freed node,
    and changes nothing but the cache. *)
Theorem vma_find_equiv l x : shape l ->
  exists c, vma_find l x = Ret (List.find (fun y => contains x y.2) (pairs (root l)), set_cache c l) /\ shape (set_cache c l).
Proof. intros Hsh. destruct (find_ok l x Hsh) as (c & E & Hsh' & _). eauto. Qed.

Lemma vma_find_equiv_witness : exists c l, vma_find demo2 0x6800 = Ret (Some (2%nat, new_region 0x6000 0x9000 3 0x22 (-1) 0 None 0), l) /\
  l = set_cache c demo2 /\ shape l.
Proof.
  destruct (vma_find_equiv demo2 0x6800 demo_shape) as (c & E & Hsh). exists c, (set_cache c demo2). split; [exact E|]. done.
Defined.

(** [vma_add] of a range returns 0 exactly if no region overlaps it and a node
    can be allocated. Then the region is at its place in address order; otherwise
    it returns -1 and the regions are unchanged. The invariant is kept, and the
    file reference taken is the one the new region holds. *)
Theorem vma_add_spec alloc `{!NodeAllocator alloc} l s e pr fl f off file fsize
    (q := new_region s e pr fl f off file fsize) : shape l -> 0 <= s < e ->
  exists r l', vma_add alloc l s e pr fl f off file fsize = Ret (r, l') /\ shape l' /\ conserves l l' /\
    (r = 0 <-> existsb (overlaps s e) (regions (root l)) = false /\ alloc (ticks l) (ids (root l)) <> None) /\
    regions (root l') = (if r =? 0 then place q (regions (root l)) else regions (root l)) /\
    (r = 0 \/ r = -1).
Proof.
  intros Hsh Hse. destruct (add_ok alloc l s e pr fl f off file fsize Hsh Hse)
    as [[E Hex]|[(E & Hno & Hal)|(a & t & E & Hno & Hal & Hsh1 & P1 & P2 & E1 & E2 & F1 & F2)]].
  - exists (-1), l. split; [exact E|]. repeat (split; [done|]). split; [|by split; [|right]]. split; [done|]. intros [H _]. exfalso.
    apply Exists_exists in Hex as (x & Hx & Hov). assert (Ht : existsb (overlaps s e) (regions (root l)) = true); [|congruence].
    apply existsb_exists. exists x. split; [by apply list_elem_of_In|done].
  - exists (-1), (tick l). split; [exact E|]. split; [by apply shape_tick|]. split; [done|]. split; [|by split; [|right]]. split; [done|]. by intros [_ []].
  - exists 0. eexists. split; [exact E|]. split; [done|]. split; [by apply (conserves_add l a t file q P1 P2 E1 E2)|].
    split; [|split; [|by left]].
    + split; [intros _|done]. split; [by apply Forall_existsb_false|]. by rewrite Hal.
    + cbn [Z.eqb]. unfold regions. cbn [root cache_push set_cache set_count set_root]. rewrite E1, E2, !map_app. cbn [map snd].
      rewrite place_app; [done| |]; by apply Forall_snd.
Qed.

Lemma vma_add_spec_witness : exists l', vma_add first_fresh demo2 0x5000 0x6000 1 2 0 0 None 0 = Ret (0, l') /\ shape l' /\
  regions (root l') = place (new_region 0x5000 0x6000 1 2 0 0 None 0) (regions (root demo2)).
Proof.
  destruct (vma_add_spec first_fresh demo2 0x5000 0x6000 1 2 0 0 None 0 demo_shape ltac:(lia)) as (r & l' & E & Hsh & _ & Hr & Hreg & _).
  assert (r = 0) as -> by (apply Hr; split; [reflexivity|done]). exists l'. split; [exact E|]. split; [exact Hsh|exact Hreg].
Defined.

(** C14: [vma_remove] terminates, reports whether a region overlapped, keeps the
    invariant and the balance of references, and, when nodes can be allocated, cuts the
    range out of every region. After it no address of the range is mapped, and every other
    address shows the protection, flags, wrapper, file and file offset it showed before;
    its NUMA policy is as before too, but the pieces of a region that is cut have none. If a
    node cannot be allocated, an address outside may lose its mapping but shows nothing
    else. *)
Theorem vma_remove_refines alloc `{!NodeAllocator alloc} l s e : shape l -> 0 <= s < e ->
  exists l', vma_remove alloc l s e = Ret (existsb (overlaps s e) (regions (root l)), l') /\ shape l' /\ conserves l l' /\
    (never_fails alloc -> regions (root l') = flat_map (cut s e) (regions (root l))) /\
    (forall a, view_at (regions (root l')) a = (if inside s e a then None else view_at (regions (root l)) a) \/
               view_at (regions (root l')) a = None /\ ~ never_fails alloc) /\
    (forall a, numa_at (regions (root l')) a = (if inside s e a then None else
                 (fun p => if overlaps s e p then no_policy else numa p) <$> List.find (contains a) (regions (root l))) \/
               numa_at (regions (root l')) a = None /\ ~ never_fails alloc).
Proof.
  intros Hsh Hse. destruct (remove_ok alloc l s e Hsh Hse) as (l' & E & Sh & C & Sub & Nf). exists l'. repeat (split; [done|]).
  pose proof (sh_ordered _ Hsh) as Ho. pose proof (ordered_flat_map _ _ (cut_splits s e Hse) Ho) as Hof. split; intros a.
  - unfold view_at at 1 3. destruct (seen_sublist (fun p => view p a) _ _ a _ Sub Hof Nf) as [-> |H]; [left|by right]. change (view_at (flat_map (cut s e) (regions (root l))) a = if inside s e a then None else view_at (regions (root l)) a).
    rewrite view_flat_map by (done || by apply cut_splits). unfold view_at at 2. destruct (List.find (contains a) (regions (root l))) as [p|] eqn:Ef; [|by destruct (inside s e a)].
    apply find_split in Ef as (? & ? & _ & Hc & _). cbn. rewrite view_cut by (done || lia). by destruct (inside s e a).
  - unfold numa_at. destruct (seen_sublist numa _ _ a _ Sub Hof Nf) as [-> |H]; [left|by right].
    rewrite find_flat_map by (done || by apply cut_splits). destruct (List.find (contains a) (regions (root l))) as [p|] eqn:Ef; [|by destruct (inside s e a)].
    apply find_split in Ef as (? & ? & _ & Hc & _). cbn. exact (numa_cut s e p a ltac:(lia) Hc).
Qed.

Lemma vma_remove_refines_witness : exists l', vma_remove first_fresh demo2 0x2000 0x7000 = Ret (true, l') /\ shape l' /\
  regions (root l') = [left_piece 0x2000 (new_region 0x1000 0x5000 1 2 3 0x8000 (Some 7) 0x2800);
                       right_piece 0x7000 (new_region 0x6000 0x9000 3 0x22 (-1) 0 None 0)].
Proof.
  destruct (vma_remove_refines first_fresh demo2 0x2000 0x7000 demo_shape ltac:(lia)) as (l' & E & Hsh & _ & Hr & _).
  exists l'. split; [exact E|]. split; [exact Hsh|]. rewrite (Hr first_fresh_total). reflexivity.
Defined.

(** C16: [vma_mprotect] terminates, keeps the invariant and the balance of references, and
    gives every mapped address of the range the new protection, across gaps and partly
    covered regions; flags, wrapper, file and file offset stay as they were, and addresses
    outside keep their protection. The NUMA policy stays in regions that do not overlap the
    range, and is dropped in all parts of one that does. If a node cannot be allocated an
    address may lose its mapping but never shows anything else. *)
Theorem vma_mprotect_refines alloc `{!NodeAllocator alloc} l s e pr : shape l -> 0 <= s < e ->
  exists l', vma_mprotect alloc l s e pr = Ret l' /\ shape l' /\ conserves l l' /\
    (never_fails alloc -> regions (root l') = flat_map (reprotect s e pr) (regions (root l))) /\
    (forall a, view_at (regions (root l')) a =
         (if inside s e a then with_prot pr <$> view_at (regions (root l)) a else view_at (regions (root l)) a) \/
       view_at (regions (root l')) a = None /\ ~ never_fails alloc) /\
    (forall a, numa_at (regions (root l')) a =
         (fun p => if overlaps s e p then no_policy else numa p) <$> List.find (contains a) (regions (root l)) \/
       numa_at (regions (root l')) a = None /\ ~ never_fails alloc).
Proof.
  intros Hsh Hse. destruct (mprotect_ok alloc l s e pr Hsh Hse) as (l' & E & Sh & C & Sub & Nf). cbn [app] in *. exists l'. repeat (split; [done|]).
  pose proof (sh_ordered _ Hsh) as Ho. pose proof (ordered_flat_map _ _ (reprotect_splits s e pr Hse) Ho) as Hof. split; intros a.
  - unfold view_at at 1 4. destruct (seen_sublist (fun p => view p a) _ _ a _ Sub Hof Nf) as [-> |H]; [left|by right]. change (view_at (flat_map (reprotect s e pr) (regions (root l))) a = if inside s e a then with_prot pr <$> view_at (regions (root l)) a else view_at (regions (root l)) a).
    rewrite view_flat_map by (done || by apply reprotect_splits). unfold view_at at 2 3. destruct (List.find (contains a) (regions (root l))) as [p|] eqn:Ef; [|by destruct (inside s e a)].
    apply find_split in Ef as (? & ? & _ & Hc & _). cbn. rewrite view_reprotect by (done || lia). by destruct (inside s e a).
  - unfold numa_at. destruct (seen_sublist numa _ _ a _ Sub Hof Nf) as [-> |H]; [left|by right].
    rewrite find_flat_map by (done || by apply reprotect_splits). destruct (List.find (contains a) (regions (root l))) as [p|] eqn:Ef; [|done].
    apply find_split in Ef as (? & ? & _ & Hc & _). cbn. exact (numa_reprotect s e pr p a ltac:(lia) Hc).
Qed.

Lemma vma_mprotect_refines_witness : exists l', vma_mprotect first_fresh demo2 0x2000 0x7000 5 = Ret l' /\ shape l' /\
  length (regions (root l')) = 4%nat /\ view_at (regions (root l')) 0x2000 = Some (5, 2, None, Some (7, 3, 0x9000, true)).
Proof.
  destruct (vma_mprotect_refines first_fresh demo2 0x2000 0x7000 5 demo_shape ltac:(lia)) as (l' & E & Hsh & _ & Hr & _).
  exists l'. split; [exact E|]. split; [exact Hsh|]. rewrite (Hr first_fresh_total). split; reflexivity.
Defined.

(** The pieces lose the NUMA policy of the mapping. *)
Example remove_loses_numa : let p := mk_region 0x1000 0x5000 1 2 0 0 (-1) None None 3 1 0 in
  map numa_policy (cut 0x2000 0x3000 p) = [0; 0] /\ map numa_policy (reprotect 0x2000 0x3000 5 p) = [0; 0; 0] /\ numa_policy p = 3.
Proof. done. Qed.

(** When no node can be allocated, [vma_mprotect] reports success and the mapping
    is gone. *)
Example mprotect_loses_mapping : exists l, vma_mprotect (fun _ _ => None) demo1 0x1000 0x5000 5 = Ret l /\ root l = Null /\
  regions (root demo1) <> [].
Proof. eexists. split; [vm_compute; reflexivity|]. by split. Qed.

End VmaOps.
