(* ===== verification/VmaSpace.v ===== *)
(** VmaSpace: the operations of [Vma] on a whole address space: the search for a
    gap, the merging of adjacent mappings, the copy for a child process, the
    queries of procfs and of the fault handler, and the invariant of all
    operations together. *)

From Stdlib Require Import Sorting.Sorted.
From S2P Require Import Prelude VmaTree Vma VmaOps.
From stdpp Require Import list_relations.
#[local] Open Scope Z_scope.

Module VmaSpace.
Import VmaTree Vma VmaOps.

(** ** Gaps *)

(** [length_] bytes at [x] below [limit], free of mappings. *)
Definition fits (L : list region) (length_ limit x : Z) : Prop :=
  x + length_ <= limit /\ Forall (fun p => overlaps x (x + length_) p = false) L.

Lemma gap_loop_spec L length_ limit : 0 < length_ -> ordered L -> forall c r g, gap_loop L length_ limit c = (r, g) ->
  c <= r /\ (g = 0 \/ g = r) /\ (r + length_ <= limit -> fits L length_ limit r) /\
  (forall x, c <= x -> fits L length_ limit x -> r <= x) /\ (g <> 0 -> r + length_ <= limit).
Proof.
  intros Hl. induction L as [|p L IH]; intros Ho c r g; cbn [gap_loop].
  { intros [= <- <-]. repeat split; try lia. constructor. }
  apply ordered_cons in Ho as (Hp & Hb & Ho). unfold nonempty in Hp. destruct (end_ p <=? c) eqn:E1; reify_bools.
  - intros E. destruct (IH Ho _ _ _ E) as (H1 & H2 & H3 & H4 & H5). split; [done|]. split; [done|]. split; [|split; [|done]].
    + intros Hr. destruct (H3 Hr) as [F1 F2]. split; [done|]. constructor; [|done]. apply not_overlaps. lia.
    + intros x Hx [F1 F2]. apply H4; [done|]. apply Forall_cons_1 in F2 as [_ F2]. by split.
  - destruct (_ && _) eqn:E2; reify_bools.
    + intros [= <- <-]. split; [lia|]. split; [by right|]. split; [|split; [lia|lia]]. intros _. split; [lia|].
      constructor; [apply not_overlaps; lia|]. eapply Forall_impl; [exact Hb|]. intros q Hq. unfold before in Hq. apply not_overlaps. lia.
    + intros E. destruct (IH Ho _ _ _ E) as (H1 & H2 & H3 & H4 & H5). split; [lia|]. split; [done|]. split; [|split; [|done]].
      * intros Hr. destruct (H3 Hr) as [F1 F2]. split; [done|]. constructor; [apply not_overlaps; lia|done].
      * intros x Hx [F1 F2]. apply Forall_cons_1 in F2 as [F2 F3]. apply H4; [|by split]. apply not_overlaps in F2.
        destruct (decide (start p < x + length_)); [lia|exfalso]. revert E2. rewrite !andb_false_iff, Z.gtb_ltb, Z.geb_leb, !Z.ltb_ge, !Z.leb_gt. lia.
Qed.

Section Space.
Context (alloc : nat -> list nat -> option nat) `{!NodeAllocator alloc} (kmalloc_ok : nat -> bool).

Lemma gather_ok l : shape l -> forall cap, array_for kmalloc_ok l = Some cap -> gather cap (root l) = Ret (pairs (root l)).
Proof.
  intros Hsh cap. unfold array_for, gather. rewrite size_pairs. rewrite (sh_count _ Hsh).
  destruct (_ <=? VMA_STACK_CAP) eqn:E; [|destruct (kmalloc_ok _); [|done]]; intros [= <-]; reify_bools;
    (destruct (_ <? _) eqn:?; reify_bools; [lia|done]).
Qed.

Definition can_gather (l : vma_list) : bool := (count l <=? VMA_STACK_CAP) || kmalloc_ok (ticks l).
Lemma array_for_some l : can_gather l = true -> exists cap, array_for kmalloc_ok l = Some cap.
Proof. unfold can_gather, array_for. destruct (_ <=? _); [eauto|]. cbn. intros ->. eauto. Qed.
Lemma array_for_none l : can_gather l = false -> array_for kmalloc_ok l = None.
Proof. unfold can_gather, array_for. destruct (_ <=? _); [done|]. cbn. by intros ->. Qed.

(** The result is 0 or the lowest address at or above [base] with room. *)
Lemma find_gap_ok l length_ base limit : shape l -> 0 < base -> 0 <= length_ -> limit < 2 ^ 64 ->
  exists r, vma_find_gap kmalloc_ok l length_ base limit = Ret r /\
    (r <> 0 -> base <= r /\ 0 < length_ /\ fits (regions (root l)) length_ limit r) /\
    (forall x, 0 < length_ -> base <= x -> fits (regions (root l)) length_ limit x -> can_gather l = true \/ count l = 0 -> 0 < r <= x).
Proof.
  intros Hsh Hbase Hlen Hlim. unfold vma_find_gap. destruct (_ || _) eqn:E0.
  { exists 0. split; [done|]. split; [done|]. intros x Hl Hx [Hf _]. exfalso. revert E0.
    rewrite Z.geb_leb, Z.gtb_ltb, !orb_true_iff, Z.eqb_eq, Z.leb_le, Z.ltb_lt. lia. }
  reify_bools. assert (Hl : 0 < length_) by lia. destruct (count l =? 0) eqn:Ec; reify_bools.
  { assert (Hnil : regions (root l) = []).
    { pose proof (sh_count _ Hsh) as Hc. unfold regions. destruct (pairs (root l)); [done|]. cbn [length] in Hc. lia. }
    unfold u64. rewrite Z.mod_small by lia. destruct (_ <=? _) eqn:?; reify_bools; [|lia]. exists base. split; [done|].
    rewrite Hnil. split; [|lia]. intros _. split; [lia|]. split; [done|]. split; [lia|constructor]. }
  destruct (can_gather l) eqn:Hg.
  2: { rewrite (array_for_none _ Hg). exists 0. split; [done|]. split; [done|]. intros x _ _ _ [?|?]; [done|lia]. }
  destruct (array_for_some _ Hg) as [cap Ea]. rewrite Ea, (gather_ok l Hsh cap Ea), ret_bind.
  fold (regions (root l)). destruct (gap_loop (regions (root l)) length_ limit base) as [c g] eqn:E.
  destruct (gap_loop_spec _ length_ limit Hl (sh_ordered _ Hsh) _ _ _ E) as (G1 & G2 & G3 & G4 & G5).
  exists (if c + length_ <=? limit then c else 0). split.
  - f_equal. destruct (g =? 0) eqn:Eg; cbn [negb]; reify_bools.
    + destruct (c + length_ <=? limit) eqn:?, (c <? limit) eqn:?, (length_ <=? limit - c) eqn:?; reify_bools; done || lia.
    + destruct (c + length_ <=? limit) eqn:?; reify_bools; [by destruct G2|]. specialize (G5 Eg). lia.
  - split.
    + destruct (_ <=? _) eqn:?; reify_bools; [|done]. intros _. split; [done|]. split; [done|]. by apply G3.
    + intros x _ Hx Hf _. specialize (G4 x Hx Hf). destruct Hf as [Hf _]. destruct (_ <=? _) eqn:?; reify_bools; lia.
Qed.

(** ** The balanced tree of a sorted array *)

(** The height of a balanced tree with [n] nodes. *)
Definition balanced_height (n : nat) : Z := Z.log2 (2 * Z.of_nat n).

Lemma balanced_step n k : (0 < n)%nat -> k = Nat.div n 2 ->
  -1 <= balanced_height k - balanced_height (n - S k) <= 1 /\
  balanced_height n = 1 + Z.max (balanced_height k) (balanced_height (n - S k)).
Proof.
  intros Hn Hk. pose proof (Nat.div_mod_eq n 2) as Hd. rewrite <- Hk in Hd. pose proof (Nat.mod_upper_bound n 2 ltac:(lia)) as Hm. unfold balanced_height.
  assert (Hmono : Z.log2 (2 * Z.of_nat (n - S k)) <= Z.log2 (2 * Z.of_nat k)) by (apply Z.log2_le_mono; lia).
  destruct (decide (k = 0%nat)) as [Ek|Ek].
  { assert (n = 1)%nat by lia. subst n. subst k. done. }
  assert (E1 : Z.log2 (2 * Z.of_nat n) = 1 + Z.log2 (2 * Z.of_nat k)).
  { rewrite Z.log2_double by lia. destruct (decide (n = 2 * k)%nat) as [->|]; [by rewrite Nat2Z.inj_mul; change (Z.of_nat 2) with 2; lia|].
    assert (En : Z.of_nat n = 2 * Z.of_nat k + 1) by lia. rewrite En, Z.log2_succ_double, Z.log2_double by lia. lia. }
  assert (E2 : Z.log2 (2 * Z.of_nat k) <= 1 + Z.log2 (2 * Z.of_nat (n - S k))).
  { destruct (decide (n - S k = 0)%nat) as [E0|E0].
    - assert (Ek1 : k = 1%nat) by lia. rewrite E0, Ek1. done.
    - rewrite Z.add_1_l. rewrite <- (Z.log2_double (2 * Z.of_nat (n - S k))) by lia. apply Z.log2_le_mono. lia. }
  lia.
Qed.

Lemma build_balanced_ok fuel : forall nodes, (length nodes < fuel)%nat ->
  exists t, vma_build_balanced fuel nodes = Ret t /\ avl t (balanced_height (length nodes)) /\ pairs t = nodes.
Proof.
  induction fuel as [|fuel IH]; intros nodes Hlen; [lia|]. cbn [vma_build_balanced]. destruct nodes as [|x nodes].
  { exists Null. split; [done|]. split; [constructor|done]. }
  set (l := x :: nodes) in *. set (k := Nat.div (length l) 2).
  assert (Hn : (0 < length l)%nat) by (subst l; cbn; lia). pose proof (Nat.div_lt (length l) 2 Hn ltac:(lia)) as Hk. fold k in Hk.
  destruct (lookup_lt_is_Some_2 l k Hk) as [[a p] Ex]. rewrite Ex. cbn [deref]. rewrite ret_bind. cbn beta iota.
  destruct (IH (take k l)) as (tl & -> & Al & Pl); [rewrite length_take; lia|]. rewrite ret_bind.
  destruct (IH (drop (S k) l)) as (tr & -> & Ar & Pr); [rewrite length_drop; lia|]. rewrite ret_bind.
  rewrite length_take, Nat.min_l in Al by lia. rewrite length_drop in Ar.
  destruct (balanced_step (length l) k Hn eq_refl) as [Hb Hh].
  eexists. split; [done|]. split.
  - rewrite Hh. by apply update_avl.
  - rewrite pairs_update. cbn [pairs]. rewrite Pl, Pr. by apply take_drop_middle.
Qed.

(** ** Merging *)

Lemma can_merge_spec p q : can_merge p q = true -> end_ p = start q /\ prot p = prot q /\ flags p = flags q /\
  file_node p = None /\ file_node q = None /\ linux_vma p = linux_vma q.
Proof.
  unfold can_merge. rewrite !andb_true_iff, !bool_decide_eq_true, !Z.eqb_eq. naive_solver.
Qed.

Lemma can_merge_set_end p q e : can_merge p (set_end e q) = can_merge p q.
Proof. done. Qed.

(** The region [p] and the part before it that was merged into it show the same. *)
Lemma view_merge p q L a : nonempty p -> nonempty q -> can_merge p q = true ->
  view_at (set_end (end_ q) p :: L) a = view_at (p :: q :: L) a.
Proof.
  unfold nonempty. intros Hp Hq (E1 & E2 & E3 & E4 & E5 & E6)%can_merge_spec. unfold view_at. cbn [List.find].
  destruct (contains a p) eqn:Hc.
  - apply contains_iff in Hc. rewrite (proj2 (contains_iff a (set_end (end_ q) p))) by (cbn; lia). done.
  - destruct (contains a q) eqn:Hc'.
    + apply contains_iff in Hc'. rewrite (proj2 (contains_iff a (set_end (end_ q) p))) by (cbn; lia). cbn. unfold view. cbn. by rewrite E2, E3, E4, E5, E6.
    + apply not_contains in Hc, Hc'. rewrite (proj2 (not_contains a (set_end (end_ q) p))) by (cbn; lia). done.
Qed.

Lemma view_at_cons p L1 L2 a : view_at L1 a = view_at L2 a -> view_at (p :: L1) a = view_at (p :: L2) a.
Proof. unfold view_at. cbn [List.find]. by destruct (contains a p). Qed.

Definition merged (arr kept : list (nat * region)) (gone : list region) : Prop :=
  ordered (map snd kept) /\ sublist (map fst kept) (map fst arr) /\
  (forall a, view_at (map snd kept) a = view_at (map snd arr) a) /\
  (forall f n, f = file_node \/ f = linux_vma -> held f (map snd arr) n = held f (map snd kept) n + held f gone n) /\
  Forall (fun p => file_node p = None) gone /\ (length arr = length kept + length gone)%nat /\ (gone = [] -> kept = arr) /\
  Sorted (fun x y => can_merge x y = false) (map snd kept).

Lemma ordered_merge p q L : can_merge p q = true -> ordered (p :: q :: L) -> ordered (set_end (end_ q) p :: L).
Proof.
  intros (E1 & _)%can_merge_spec. rewrite !ordered_cons. unfold nonempty. intros (Hp & _ & Hq & Hb & Ho). cbn. split; [lia|]. by split.
Qed.

Lemma merge_loop_ok arr : forall prev, ordered (map snd (prev :: arr)) ->
  exists kept gone, merge_loop prev arr = (kept, gone) /\ merged (prev :: arr) kept gone /\
    exists e kept', kept = (prev.1, set_end e prev.2) :: kept'.
Proof.
  induction arr as [|cur arr IH]; intros prev Ho; cbn [merge_loop].
  - exists [prev], []. split; [done|]. split.
    + split; [done|]. split; [done|]. split; [done|]. split; [intros; cbn; lia|]. split; [constructor|]. split; [done|]. split; [done|]. cbn. by repeat constructor.
    + exists (end_ prev.2), []. by destruct prev as [? []].
  - cbn [map] in Ho. pose proof Ho as Ho'. apply ordered_cons in Ho' as (Np & Hb & Ho1). pose proof Ho1 as Ho1'. apply ordered_cons in Ho1' as (Nc & _ & _).
    destruct (can_merge prev.2 cur.2) eqn:Hm.
    + destruct (IH (prev.1, set_end (end_ cur.2) prev.2)) as (kept & gone & -> & (M1 & M2 & M3 & M4 & M5 & M6 & M7 & M8) & e & kept' & Ek).
      { cbn [map snd]. by apply (ordered_merge _ _ _ Hm). }
      exists kept, (cur.2 :: gone). split; [done|]. split; [|by exists e, kept'].
      split; [done|]. split; [|split; [|split; [|split; [|split; [|split]]]]].
      * etransitivity; [exact M2|]. cbn [map fst]. apply sublist_skip. by apply sublist_cons.
      * intros a. rewrite M3. cbn [map snd]. by apply view_merge.
      * intros f n Hf. specialize (M4 f n Hf). cbn [map snd] in *. rewrite !held_cons in *.
        assert (Ef : f (set_end (end_ cur.2) prev.2) = f prev.2) by (by destruct Hf as [-> | ->]). rewrite Ef in M4. lia.
      * constructor; [|done]. by apply can_merge_spec in Hm as (_ & _ & _ & _ & ? & _).
      * cbn [length] in *. lia.
      * done.
      * done.
    + destruct (IH cur Ho1) as (kept & gone & -> & (M1 & M2 & M3 & M4 & M5 & M6 & M7 & M8) & e & kept' & Ek).
      exists (prev :: kept), gone. split; [done|]. split; [|exists (end_ prev.2), kept; by destruct prev as [? []]].
      split; [|split; [|split; [|split; [|split; [|split; [|split]]]]]].
      * cbn [map]. apply ordered_cons. split; [done|]. split; [|done]. rewrite Ek in M1 |- *. cbn [map snd] in *. apply ordered_cons in M1 as (Mn & Mb & _).
        apply Forall_cons_1 in Hb as [Hb _]. constructor; [done|]. eapply Forall_impl; [exact Mb|]. intros x Hx. unfold before, nonempty in *. cbn in *. lia.
      * cbn [map]. by apply sublist_skip.
      * intros a. cbn [map]. by apply view_at_cons.
      * intros f n Hf. specialize (M4 f n Hf). cbn [map] in *. rewrite !held_cons in *. lia.
      * done.
      * cbn [length] in *. lia.
      * intros Hg. by rewrite M7.
      * cbn [map]. constructor; [done|]. rewrite Ek. cbn [map snd]. constructor. by rewrite can_merge_set_end.
Qed.

Lemma put_all gone l : let l' := foldl (fun l p => vma_linux_put (linux_vma p) l) l gone in
  root l' = root l /\ count l' = count l /\ cache l' = cache l /\ files l' = files l /\ ticks l' = ticks l /\
  forall n, linux l' n = linux l n - held linux_vma gone n.
Proof.
  cbn zeta. revert l. induction gone as [|p gone IH]; intros l; [cbn; repeat split; intros; lia|]. cbn [foldl].
  destruct (IH (vma_linux_put (linux_vma p) l)) as (-> & -> & -> & -> & -> & Hn). repeat (split; [done|]). intros n. rewrite Hn, held_cons.
  cbn. unfold unref. lia.
Qed.

Lemma held_none f gone n : Forall (fun p => f p = None) gone -> held f gone n = 0.
Proof. intros H. apply count_none. rewrite Forall_forall in H. intros x Hx. by rewrite (H x Hx), bool_decide_eq_false_2. Qed.

Lemma cached_flush Q l : cached Q (cache (vma_cache_flush l)).
Proof. intros a Ha. cbn in Ha. rewrite !elem_of_cons, elem_of_nil in Ha. naive_solver. Qed.

Lemma merge_ok l : shape l -> exists l', vma_merge_adjacent kmalloc_ok l = Ret l' /\ shape l' /\ conserves l l' /\ ticks l' = ticks l /\
  (forall a, view_at (regions (root l')) a = view_at (regions (root l)) a) /\
  (length (regions (root l')) <= length (regions (root l)))%nat /\
  (can_gather l = true -> Sorted (fun x y => can_merge x y = false) (regions (root l'))).
Proof.
  intros Hsh. unfold vma_merge_adjacent. destruct (count l <? 2) eqn:Hc; reify_bools.
  { exists l. repeat (split; [done|]). intros _. pose proof (sh_count _ Hsh) as Hcnt. unfold regions. destruct (pairs (root l)) as [|x [|y P]]; cbn in *; [constructor|by repeat constructor|lia]. }
  destruct (can_gather l) eqn:Hg; [|rewrite (array_for_none _ Hg); by exists l].
  destruct (array_for_some _ Hg) as [cap Ea]. rewrite Ea, (gather_ok l Hsh cap Ea), ret_bind.
  destruct (pairs (root l)) as [|first rest] eqn:Ep; [rewrite (sh_count _ Hsh), Ep in Hc; cbn in Hc; lia|].
  pose proof (sh_ordered _ Hsh) as Ho. unfold regions in Ho. rewrite Ep in Ho.
  destruct (merge_loop_ok rest first Ho) as (kept & gone & -> & (M1 & M2 & M3 & M4 & M5 & M6 & M7 & M8) & _).
  destruct (put_all gone (vma_cache_flush l)) as (R1 & R2 & R3 & R4 & R5 & R6). cbn zeta in *.
  set (l1 := foldl _ _ gone) in *. clearbody l1. cbn [root count cache files linux ticks vma_cache_flush set_cache] in R1, R2, R3, R4, R5, R6.
  destruct (Nat.eqb_spec (length kept) (length (first :: rest))) as [El|El].
  - assert (gone = []) as -> by (destruct gone; [done|cbn in *; lia]). specialize (M7 eq_refl). subst kept. exists l1. split; [done|].
    unfold regions in *. rewrite R1, Ep. split; [|split; [|split; [done|split; [done|split; [done|done]]]]].
    + destruct Hsh as [H1 H2 H3 H4 H5 H6]. constructor; rewrite ?R1, ?R2, ?R3; try done. apply (cached_flush _ l).
    + intros n. unfold spare_files, spare_linux. rewrite R1, R4, R6. cbn. lia.
  - destruct (build_balanced_ok (S (length kept)) kept ltac:(lia)) as (t & -> & At & Pt). rewrite ret_bind.
    exists (set_count (Z.of_nat (length kept)) (set_root t l1)). split; [done|].
    unfold regions. cbn [root set_count set_root ticks]. rewrite Pt, Ep. split; [|split; [|split; [done|split; [done|split; [rewrite !length_map; lia|done]]]]].
    + constructor; cbn [root count cache set_count set_root]; unfold regions, ids; rewrite ?Pt; try done; [by eexists| |by rewrite R3|rewrite R3; apply (cached_flush _ l)].
      eapply sublist_NoDup; [|exact M2]. pose proof (sh_ids _ Hsh) as Hn. unfold ids in Hn. by rewrite Ep in Hn.
    + intros n. unfold spare_files, spare_linux, regions. cbn [root files linux set_count set_root]. rewrite Pt, Ep, R4, R6.
      pose proof (M4 file_node n (or_introl eq_refl)) as Hf. pose proof (M4 linux_vma n (or_intror eq_refl)) as Hl.
      rewrite (held_none file_node gone n M5) in Hf. cbn [map snd] in *. lia.
Qed.

(** ** The copy for a child *)

Definition child (p : region) : region :=
  mk_region (start p) (end_ p) (prot p) (Z.land (flags p) (UINT64_MAX - MAP_LOCKED)) (offset p) (file_size p) (fd p) (file_node p) (linux_vma p)
    (numa_policy p) (numa_nodemask p) (numa_preferred_node p).

(** Writing fields of a node other than its range and references. *)
Lemma write_ok l P1 a p q P2 : shape l -> pairs (root l) = P1 ++ (a, p) :: P2 -> start q = start p -> end_ q = end_ p ->
  file_node q = file_node p -> linux_vma q = linux_vma p ->
  shape (set_root (set_node a q (root l)) l) /\ conserves l (set_root (set_node a q (root l)) l) /\
  pairs (set_node a q (root l)) = P1 ++ (a, q) :: P2.
Proof.
  intros [[h Ha] Ho Hn Hcnt Hlen Hc] E H1 H2 H3 H4. pose proof (set_node_split _ _ _ _ q _ Hn E) as Es.
  assert (Eids : ids (set_node a q (root l)) = ids (root l)) by (unfold ids; by rewrite Es, E, !map_app).
  split; [|split; [|done]].
  - constructor; cbn [root count cache set_root]; rewrite ?Eids; try done.
    + exists h. apply (set_node_avl a q (root l) h Hn); [|done]. intros p' Hp'. unfold ids in Hn. rewrite E in Hn, Hp'.
      apply nodup_split in Hn as [F1 F2]. rewrite elem_of_app, elem_of_cons in Hp'. destruct Hp' as [Hp'|[Hp'|Hp']]; [|by simplify_eq|].
      * destruct F1. apply (list_elem_of_fmap_2 fst) in Hp'. done.
      * destruct F2. apply (list_elem_of_fmap_2 fst) in Hp'. done.
    + unfold regions in *. rewrite Es. rewrite E in Ho. rewrite map_app in *. cbn [map snd] in *. revert Ho.
      rewrite !ordered_middle. unfold nonempty, before. by rewrite H1, H2.
    + by rewrite Es, Hcnt, E, !length_app.
  - intros n. unfold spare_files, spare_linux, regions. cbn [root files linux set_root]. rewrite Es, E, !map_app. cbn [map snd].
    by rewrite !held_app, !held_cons, H3, H4.
Qed.

Lemma split_unique k L1 L2 D1 D2 : L1 ++ L2 = D1 ++ D2 -> Forall (fun p => start p < k) L1 -> Forall (fun p => k < start p) L2 ->
  Forall (fun p => start p < k) D1 -> Forall (fun p => k < start p) D2 -> L1 = D1 /\ L2 = D2.
Proof.
  revert D1. induction L1 as [|x L1 IH]; intros [|y D1] E H1 H2 H3 H4; cbn [app] in *; [done| | |].
  - subst L2. apply Forall_cons_1 in H2 as [H2 _], H3 as [H3 _]. lia.
  - subst D2. apply Forall_cons_1 in H4 as [H4 _], H1 as [H1 _]. lia.
  - injection E as -> E. apply Forall_cons_1 in H1 as [_ H1], H3 as [_ H3]. by destruct (IH D1 E H1 H2 H3 H4) as [-> ->].
Qed.

(** The body of [clone_recursive] for one node. *)
Definition clone_one (dst : vma_list) (p : region) : outcome (bool * vma_list) :=
  '(err, dst) ← vma_add alloc dst (start p) (end_ p) (prot p) (Z.land (flags p) (UINT64_MAX - MAP_LOCKED)) (fd p) (offset p)
                  (file_node p) (file_size p);
  if nz err then Ret (false, dst)
  else
    dst ← vma_attach_linux dst (start p) (linux_vma p);
    '(v, dst) ← vma_find dst (start p);
    Ret (true, match v with
               | Some (a, q) => set_root (set_node a (copy_numa p q) (root dst)) dst
               | None => dst
               end).

Lemma clone_recursive_eq dst a p m h l r : clone_recursive alloc dst (Node a p m h l r) =
  '(ok, dst) ← clone_one dst p;
  if (ok : bool) then
    '(ok, dst) ← clone_recursive alloc dst l;
    if (ok : bool) then clone_recursive alloc dst r else Ret (false, dst)
  else Ret (false, dst).
Proof.
  cbn [clone_recursive]. unfold clone_one. destruct (vma_add _ _ _ _ _ _ _ _ _ _) as [[err d]| | |]; try done. rewrite !ret_bind. cbn beta iota.
  destruct (nz err); [done|]. destruct (vma_attach_linux d _ _) as [d1| | |]; try done. rewrite !ret_bind.
  by destruct (vma_find d1 (start p)) as [[[[b q]|] d2]| | |].
Qed.

Lemma clone_one_ok dst p D1 D2 : shape dst -> regions (root dst) = D1 ++ D2 -> ordered (D1 ++ p :: D2) ->
  exists ok dst', clone_one dst p = Ret (ok, dst') /\ shape dst' /\ conserves dst dst' /\
    regions (root dst') = (if ok : bool then D1 ++ child p :: D2 else D1 ++ D2) /\ (never_fails alloc -> ok = true).
Proof.
  intros Hsh E Ho. assert (Hp : nonempty p) by (by apply ordered_middle in Ho as (_ & _ & ? & _)). pose proof Hp as Hp'. unfold nonempty in Hp'.
  destruct (room D1 p D2 (start p) (end_ p) Ho ltac:(lia) ltac:(lia)) as (R & S1 & S2). rewrite <- E in R. unfold clone_one.
  match goal with |- context [vma_add alloc dst ?s ?e ?pr ?fl ?f ?o ?fi ?fs] => destruct (add_ok alloc dst s e pr fl f o fi fs Hsh Hp')
    as [[_ Hex]|[(-> & _ & Hal)|(a & t & -> & _ & _ & Hsh1 & P1 & P2 & E1 & E2 & F1 & F2)]] end.
  - apply Exists_exists in Hex as (x & Hx & Hov). rewrite Forall_forall in R. by rewrite R in Hov.
  - exists false, (tick dst). split; [done|]. split; [by apply shape_tick|]. split; [done|]. split; [done|]. intros Hnf. by apply Hnf in Hal.
  - rewrite ret_bind. cbn beta iota. change (nz 0) with false. cbv iota.
    assert (Hc : contains (start p) p = true) by (apply contains_iff; lia).
    edestruct (attach_new _ (start p) (linux_vma p) P1 a _ P2 Hsh1 E2) as (l2 & -> & Sh2 & C2 & _ & Pr2 & _); [exact Hc|done|]. rewrite ret_bind.
    destruct (find_ok l2 (start p) Sh2) as (c & -> & Sh3 & _). rewrite (contains_here _ _ _ _ _ _ (sh_ordered _ Sh2) Pr2 Hc). rewrite ret_bind. cbn beta iota.
    match goal with |- context [copy_numa p ?x] => set (q := x) in * end.
    destruct (write_ok (set_cache c l2) P1 a q (copy_numa p q) P2 Sh3 Pr2 eq_refl eq_refl eq_refl eq_refl) as (Sh4 & C4 & Pr4).
    eexists true, _. split; [done|]. split; [exact Sh4|]. split.
    { etransitivity; [|exact C4]. etransitivity; [|exact C2]. by apply (conserves_add dst a t (file_node p) _ P1 P2 E1 E2). }
    split; [|done]. unfold regions. cbn [root set_root]. rewrite Pr4, map_app. cbn [map snd].
    assert (Eq : copy_numa p q = child p) by done. rewrite Eq.
    assert (map snd P1 = D1 /\ map snd P2 = D2) as [-> ->]; [|done].
    unfold regions in E. rewrite E1, map_app in E.
    apply (split_unique (start p)) in E; [done| | |done|done]; by apply Forall_snd.
Qed.

Lemma ordered_child L1 N L2 : ordered (L1 ++ N ++ L2) -> ordered (L1 ++ map child N ++ L2).
Proof.
  intros Ho. rewrite !ordered_app in *. destruct Ho as (O1 & (ON & O2 & H2) & H1).
  assert (Hm : ordered (map child N) /\ Forall (fun y => Forall (before y) L2) (map child N)).
  { clear H1 O1 O2. induction N as [|p N IH]; [done|]. cbn [map]. apply ordered_cons in ON as (Np & Hb & ON). apply Forall_cons_1 in H2 as [H2 H2'].
    destruct (IH ON H2') as [I1 I2]. split; [|by constructor]. apply ordered_cons. split; [done|]. split; [|done].
    clear -Hb. induction Hb as [|q N Hq _ IH]; [constructor|]. by constructor. }
  split; [done|]. split; [tauto|]. eapply Forall_impl; [exact H1|]. intros y Hy. rewrite !Forall_app in *. destruct Hy as [Hy1 Hy2]. split; [|done].
  clear -Hy1. induction Hy1 as [|q N Hq _ IH]; [constructor|]. by constructor.
Qed.

Lemma clone_ok node : forall dst D1 D2, shape dst -> regions (root dst) = D1 ++ D2 -> ordered (D1 ++ regions node ++ D2) ->
  exists ok dst', clone_recursive alloc dst node = Ret (ok, dst') /\ shape dst' /\ conserves dst dst' /\
    (ok = true -> regions (root dst') = D1 ++ map child (regions node) ++ D2) /\ (never_fails alloc -> ok = true).
Proof.
  induction node as [|a p m h l IHl r IHr]; intros dst D1 D2 Hsh E Ho.
  { exists true, dst. repeat (split; [done|]). done. }
  rewrite clone_recursive_eq. unfold regions in Ho. cbn [pairs] in Ho. rewrite map_app in Ho. cbn [map snd] in Ho. fold (regions l) (regions r) in Ho.
  assert (Hp : ordered (D1 ++ p :: D2)).
  { eapply ordered_sublist; [|exact Ho]. apply sublist_app; [done|]. rewrite <- app_assoc. apply sublist_inserts_l. cbn [app]. apply sublist_skip. by apply sublist_inserts_l. }
  destruct (clone_one_ok dst p D1 D2 Hsh E Hp) as (ok & d1 & -> & Sh1 & C1 & E1 & N1). rewrite ret_bind. cbn beta iota.
  destruct ok; [|exists false, d1; repeat (split; [done|]); auto].
  destruct (IHl d1 D1 (child p :: D2) Sh1 E1) as (ok & d2 & -> & Sh2 & C2 & E2 & N2).
  { replace (D1 ++ regions l ++ child p :: D2) with ((D1 ++ regions l) ++ map child [p] ++ D2) by (by rewrite <- app_assoc). apply ordered_child.
    eapply ordered_sublist; [|exact Ho]. rewrite <- !app_assoc. apply sublist_app; [done|]. apply sublist_app; [done|]. cbn [app]. apply sublist_skip. by apply sublist_inserts_l. }
  rewrite ret_bind. cbn beta iota. destruct ok; [|exists false, d2; split; [done|]; split; [done|]; split; [by rewrite C1|]; split; [done|]; auto].
  specialize (E2 eq_refl).
  destruct (IHr d2 (D1 ++ map child (regions l) ++ [child p]) D2 Sh2) as (ok & d3 & -> & Sh3 & C3 & E3 & N3).
  { rewrite E2. by rewrite <- !app_assoc. }
  { replace ((D1 ++ map child (regions l) ++ [child p]) ++ regions r ++ D2) with (D1 ++ map child (regions l ++ [p]) ++ (regions r ++ D2))
      by (rewrite map_app; by rewrite <- !app_assoc). apply ordered_child. rewrite <- !app_assoc in *. exact Ho. }
  exists ok, d3. split; [done|]. split; [done|]. split; [by rewrite C1, C2|]. split; [|done]. intros Hok. rewrite (E3 Hok).
  unfold regions. cbn [pairs]. rewrite (map_app snd). cbn [map snd]. rewrite map_app. cbn [map]. by rewrite <- !app_assoc.
Qed.

Lemma destroy_ok l n : shape l -> shape (vma_list_destroy l) /\ regions (root (vma_list_destroy l)) = [] /\
  files (vma_list_destroy l) n = spare_files l n /\ linux (vma_list_destroy l) n = spare_linux l n.
Proof.
  intros Hsh. split; [apply (shape_init (drop_refs (regions (root l)) l))|]. split; [done|].
  apply (drop_refs_counts (regions (root l)) l n).
Qed.

(** [fork]: all mappings, or none and no reference. *)
Lemma list_clone_ok dst src : shape src ->
  exists ok dst', vma_list_clone alloc dst src = Ret (ok, dst') /\ shape dst' /\
    regions (root dst') = (if ok : bool then map child (regions (root src)) else []) /\
    (forall n, spare_files dst' n = files dst n /\ spare_linux dst' n = linux dst n) /\ (never_fails alloc -> ok = true).
Proof.
  intros Hsh. unfold vma_list_clone.
  destruct (clone_ok (root src) (vma_list_init dst) [] [] (shape_init dst) eq_refl) as (ok & d & -> & Sh & C & E & N).
  { cbn [app]. rewrite app_nil_r. apply Hsh. }
  rewrite ret_bind. cbn beta iota.
  assert (C' : forall n, spare_files d n = files dst n /\ spare_linux d n = linux dst n).
  { intros n. specialize (C n). unfold spare_files at 2, spare_linux at 2 in C. cbn in C. rewrite !Z.sub_0_r in C. exact C. }
  destruct ok.
  - exists true, d. split; [done|]. split; [done|]. split; [rewrite (E eq_refl); cbn [app]; by rewrite app_nil_r|]. done.
  - exists false, (vma_list_destroy d). split; [done|]. split; [apply (shape_init (drop_refs (regions (root d)) d))|]. split; [done|]. split; [|done].
    intros n. destruct (destroy_ok d n Sh) as (_ & Er & Hf & Hl). unfold spare_files at 1, spare_linux at 1. rewrite Er, Hf, Hl. cbn. rewrite !Z.sub_0_r. apply C'.
Qed.

End Space.

(** ** Queries *)

Definition total (L : list region) : Z := foldr (fun p acc => end_ p - start p + acc) 0 L.
Lemma total_app L1 L2 : total (L1 ++ L2) = total L1 + total L2.
Proof. induction L1 as [|p L1 IH]; cbn [app total foldr] in *; [done|]. unfold total in *. lia. Qed.
Lemma total_recursive t : vma_total_bytes_recursive t = u64 (total (regions t)).
Proof.
  unfold regions. induction t as [|a p m h l IHl r IHr]; [done|]. cbn [vma_total_bytes_recursive pairs]. rewrite IHl, IHr, map_app, total_app.
  cbn [map snd total foldr]. unfold u64. fold (total (map snd (pairs r))). rewrite <- Zplus_mod.
  rewrite <- Z.add_assoc, (Z.add_comm (_ mod _)), Z.add_assoc, Zplus_mod_idemp_r. f_equal. lia.
Qed.
Lemma total_bound L : ordered L -> forall lo hi, lo <= hi -> Forall (fun p => lo <= start p) L -> Forall (fun p => end_ p <= hi) L -> 0 <= total L <= hi - lo.
Proof.
  induction L as [|p L IH]; intros Ho lo hi Hlh Hl Hh; cbn [total foldr]; [lia|]. apply ordered_cons in Ho as (Hp & Hb & Ho).
  apply Forall_cons_1 in Hl as [Hl _], Hh as [Hh Hh']. unfold nonempty in Hp. specialize (IH Ho (end_ p) hi Hh Hb Hh'). unfold total in *. lia.
Qed.

(** The last region that ends at or below [x], and the first that starts above. *)
Definition below (x : Z) (L : list region) : option region := List.find (fun p => end_ p <=? x) (rev L).
Definition above (x : Z) (L : list region) : option region := List.find (fun p => x <? start p) L.

Lemma below_app x L1 L2 : below x (L1 ++ L2) = match below x L2 with Some p => Some p | None => below x L1 end.
Proof. unfold below. by rewrite rev_app_distr, find_app. Qed.
Lemma above_app x L1 L2 : above x (L1 ++ L2) = match above x L1 with Some p => Some p | None => above x L2 end.
Proof. apply find_app. Qed.
Lemma below_none x L : Forall (fun p => x < end_ p) L -> below x L = None.
Proof.
  intros H. apply find_none. apply Forall_rev. eapply Forall_impl; [exact H|]. intros p Hp. cbn beta in *. by apply Z.leb_gt.
Qed.
Lemma above_none x L : Forall (fun p => start p <= x) L -> above x L = None.
Proof. intros H. apply find_none. eapply Forall_impl; [exact H|]. intros p Hp. by apply Z.ltb_ge. Qed.

Definition orelse {A} (o1 o2 : option A) : option A := match o1 with Some _ => o1 | None => o2 end.

Lemma left_of x p L : ordered L -> Forall (fun q => before q p) L -> start p <= x ->
  above x L = None /\ List.find (contains x) L = None.
Proof.
  intros [_ Hn] Hb Hx. rewrite Forall_forall in Hn, Hb. unfold before, nonempty in *. split.
  - apply above_none, Forall_forall. intros q Hq. specialize (Hn q Hq). specialize (Hb q Hq). cbn in *. lia.
  - apply find_none, Forall_forall. intros q Hq. specialize (Hb q Hq). apply not_contains. cbn in *. lia.
Qed.
Lemma right_of x p R : ordered R -> Forall (before p) R -> x < end_ p ->
  below x R = None /\ List.find (contains x) R = None.
Proof.
  intros [_ Hn] Hb Hx. rewrite Forall_forall in Hn, Hb. unfold before, nonempty in *. split.
  - apply below_none, Forall_forall. intros q Hq. specialize (Hn q Hq). specialize (Hb q Hq). cbn in *. lia.
  - apply find_none, Forall_forall. intros q Hq. specialize (Hb q Hq). apply not_contains. lia.
Qed.
Lemma below_in x L q : below x L = Some q -> q ∈ L.
Proof.
  unfold below. intros (L1 & L2 & Er & _ & _)%find_split. rewrite <- (rev_involutive L), Er, rev_app_distr. cbn. set_solver.
Qed.

(** What is known of the neighbours found so far: they lie outside a subtree. *)
Definition outside (prev next : option region) (L : list region) : Prop :=
  (forall q, prev = Some q -> Forall (fun p => start q < start p) L) /\ (forall q, next = Some q -> Forall (fun p => start p < start q) L).

Lemma outside_app prev next L1 L2 : outside prev next (L1 ++ L2) <-> outside prev next L1 /\ outside prev next L2.
Proof. unfold outside. setoid_rewrite Forall_app. naive_solver. Qed.

Lemma closer_next p next : outside None next [p] -> (match next with Some q => if start p <? start q then Some p else next | None => Some p end) = Some p.
Proof. intros [_ H]. destruct next as [q|]; [|done]. specialize (H q eq_refl). apply Forall_cons_1 in H as [H _]. by rewrite (proj2 (Z.ltb_lt _ _) H). Qed.
Lemma closer_prev p prev : outside prev None [p] -> (match prev with Some q => if start p >? start q then Some p else prev | None => Some p end) = Some p.
Proof. intros [H _]. destruct prev as [q|]; [|done]. specialize (H q eq_refl). apply Forall_cons_1 in H as [H _]. by rewrite Z.gtb_ltb, (proj2 (Z.ltb_lt _ _) H). Qed.

Lemma neighbors_ok t x : ordered (regions t) -> forall prev hit next, outside prev next (regions t) ->
  vma_neighbors_recursive t x (prev, hit, next) =
    (orelse (below x (regions t)) prev, orelse (List.find (contains x) (regions t)) hit, orelse (above x (regions t)) next).
Proof.
  unfold regions. induction t as [|a p m h l IHl r IHr]; intros Ho prev hit next Hout; [done|]. cbn [vma_neighbors_recursive pairs] in *.
  rewrite !map_app in *. cbn [map snd] in *. apply ordered_middle in Ho as (Ol & Or & Hp & Bl & Br & _).
  set (L := map snd (pairs l)) in *. set (R := map snd (pairs r)) in *. change (p :: R) with ([p] ++ R) in *.
  apply outside_app in Hout as (OutL & Hout). apply outside_app in Hout as (OutP & OutR). unfold nonempty in Hp.
  assert (SL : Forall (fun q => start q < start p) L).
  { destruct Ol as [_ Hn]. rewrite !Forall_forall in *. intros q Hq. specialize (Hn q Hq). specialize (Bl q Hq). unfold before, nonempty in *. lia. }
  assert (SR : Forall (fun q => start p < start q) R).
  { rewrite !Forall_forall in *. intros q Hq. specialize (Br q Hq). unfold before in *. lia. }
  rewrite !below_app, !above_app, !find_app. cbn [List.find].
  destruct (contains x p) eqn:Hc; [|destruct (x <? start p) eqn:Hx; reify_bools].
  - apply contains_iff in Hc. destruct (left_of x p L Ol Bl) as [EL FL]; [lia|]. destruct (right_of x p R Or Br) as [ER FR]; [lia|].
    rewrite (IHl Ol) by done. rewrite FL, EL. rewrite (IHr Or), ER, FR.
    + rewrite (below_none x [p]), (above_none x [p]) by (repeat constructor; lia). cbn [orelse]. by destruct (below x L), (above x R).
    + split; [|apply OutR]. intros q Hq. destruct (below x L) as [q'|] eqn:Eb; cbn [orelse] in Hq; [|by apply OutR]. injection Hq as ->.
      rewrite Forall_forall in SL. specialize (SL q (below_in _ _ _ Eb)). eapply Forall_impl; [exact SR|]. intros y Hy. cbn in *. lia.
  - destruct (right_of x p R Or Br) as [ER FR]; [lia|]. rewrite ER, FR, (below_none x [p]) by (repeat constructor; lia).
    rewrite closer_next by (split; [done|apply OutP]). rewrite (IHl Ol); [|split; [apply OutL|by intros q [= <-]]].
    assert (E2 : above x [p] = Some p) by (unfold above; cbn; by rewrite (proj2 (Z.ltb_lt _ _) Hx)). rewrite E2.
    by destruct (List.find (contains x) L), (above x L), (below x L).
  - apply not_contains in Hc. destruct (left_of x p L Ol Bl) as [EL FL]; [lia|]. rewrite EL, FL.
    rewrite closer_prev by (split; [apply OutP|done]). rewrite (IHr Or); [|split; [by intros q [= <-]|apply OutR]].
    assert (E1 : below x [p] = Some p) by (unfold below; cbn; by rewrite (proj2 (Z.leb_le (end_ p) x) ltac:(lia))).
    rewrite E1, (above_none x [p]) by (repeat constructor; lia). by destruct (below x R).
Qed.

Definition is_stack (p : region) : bool := nz (Z.land (flags p) MAP_STACK).

Lemma stacks_ok t cap : 0 <= cap -> forall found, 
  vma_stacks_recursive t cap (take (Z.to_nat cap) found, Z.of_nat (length found)) =
  (take (Z.to_nat cap) (found ++ List.filter is_stack (regions t)), Z.of_nat (length (found ++ List.filter is_stack (regions t)))).
Proof.
  intros Hcap. unfold regions. induction t as [|a p m h l IHl r IHr]; intros found; cbn [vma_stacks_recursive pairs].
  { cbn. by rewrite app_nil_r. }
  rewrite IHl, map_app, Stdlib.Lists.List.filter_app. cbn [map snd List.filter]. set (fl := found ++ List.filter is_stack (map snd (pairs l))).
  fold (is_stack p). destruct (is_stack p).
  - assert (Et : (if Z.of_nat (length fl) <? cap then take (Z.to_nat cap) fl ++ [p] else take (Z.to_nat cap) fl) = take (Z.to_nat cap) (fl ++ [p])).
    { destruct (_ <? _) eqn:?; reify_bools; rewrite take_app; [|by rewrite (proj2 (Nat.sub_0_le _ _)) by lia; rewrite app_nil_r].
      f_equal. rewrite take_ge; [done|cbn; lia]. }
    rewrite Et. replace (Z.of_nat (length fl) + 1) with (Z.of_nat (length (fl ++ [p]))) by (rewrite length_app; cbn; lia). rewrite IHr.
    subst fl. by rewrite <- !app_assoc.
  - rewrite IHr. subst fl. by rewrite <- !app_assoc.
Qed.

Lemma growdown_first t x limit : vma_find_growdown_recursive t x limit = List.find (fun y => grows_to x limit y.2) (pairs t).
Proof.
  induction t as [|a p m h l IHl r IHr]; [done|]. cbn [vma_find_growdown_recursive pairs]. rewrite find_app, IHl. cbn [List.find snd].
  destruct (List.find _ (pairs l)); [done|]. by rewrite IHr.
Qed.

Lemma cache_growdown_ok l x limit c : shape l -> cached (fun a => a ∈ ids (root l)) c ->
  cache_growdown (root l) x limit c = Ret None \/
  exists v, cache_growdown (root l) x limit c = Ret (Some v) /\ v ∈ pairs (root l) /\ grows_to x limit v.2 = true.
Proof.
  intros Hsh. induction c as [|[a|] c IH]; intros Hc; cbn [cache_growdown]; [by left| |].
  - destruct (split_id (root l) a) as (p & P1 & P2 & E); [apply Hc; by left|]. rewrite (node_at_split _ _ _ _ _ (sh_ids _ Hsh) E). cbn [deref].
    rewrite ret_bind. destruct (grows_to x limit p) eqn:Hg; [right|apply IH; intros b Hb; apply Hc; by right].
    exists (a, p). split; [done|]. split; [|done]. rewrite E, elem_of_app. right. by left.
  - apply IH. intros b Hb. apply Hc. by right.
Qed.

Lemma growdown_ok l x limit : shape l -> exists r, vma_find_growdown l x limit = Ret r /\
  match r with
  | Some v => v ∈ pairs (root l) /\ grows_to x limit v.2 = true
  | None => Forall (fun p => grows_to x limit p = false) (regions (root l))
  end.
Proof.
  intros Hsh. unfold vma_find_growdown. destruct (cache_growdown_ok l x limit (cache l) Hsh (sh_cache _ Hsh)) as [->|(v & -> & Hv)]; rewrite ret_bind; [|by exists (Some v)].
  eexists. split; [done|]. rewrite growdown_first. destruct (List.find _ (pairs (root l))) as [v|] eqn:E.
  - apply find_split in E as (P1 & P2 & -> & Hg & _). split; [|done]. rewrite elem_of_app. right. by left.
  - apply find_None in E. unfold regions. by apply (Forall_snd (fun p => grows_to x limit p = false)).
Qed.

Section Collect.
Context (bridge_mapping : option Z -> option Z) (bridge_is_shared : option Z -> bool).

Lemma collect_ok t mapping b e even from cap : 0 <= cap -> forall out, Z.of_nat (length out) <= cap ->
  collect_mapping_recursive bridge_mapping bridge_is_shared t mapping b e even from cap out =
  take (Z.to_nat cap) (out ++ omap (collects bridge_mapping bridge_is_shared mapping b e even from) (regions t)).
Proof.
  intros Hcap. unfold regions. set (col := collects _ _ _ _ _ _ _).
  assert (Hfull : forall out rest : list (Z * Z), (cap <=? Z.of_nat (length out)) = true -> Z.of_nat (length out) <= cap -> out = take (Z.to_nat cap) (out ++ rest)).
  { intros out rest H1 H2. reify_bools. rewrite take_app_length' by lia. done. }
  induction t as [|a p m h l IHl r IHr]; intros out Hout; cbn [collect_mapping_recursive pairs].
  { cbn. rewrite app_nil_r, take_ge by lia. done. }
  rewrite map_app, omap_app. cbn [map snd]. destruct (cap <=? Z.of_nat (length out)) eqn:E0; [by apply Hfull|]. rewrite IHl by done.
  set (out1 := out ++ omap col (map snd (pairs l))). reify_bools.
  assert (Hlen : forall o : list (Z * Z), Z.of_nat (length (take (Z.to_nat cap) o)) <= cap) by (intros o; rewrite length_take; lia).
  assert (Ht : forall o rest : list (Z * Z), (cap <=? Z.of_nat (length (take (Z.to_nat cap) o))) = true ->
    take (Z.to_nat cap) o = take (Z.to_nat cap) (o ++ rest)).
  { intros o rest Hc. reify_bools. rewrite length_take in Hc. rewrite take_app_le by lia. done. }
  assert (Hnf : forall o : list (Z * Z), (cap <=? Z.of_nat (length (take (Z.to_nat cap) o))) = false -> take (Z.to_nat cap) o = o).
  { intros o Hc. reify_bools. rewrite length_take in Hc. rewrite take_ge by lia. done. }
  fold (col p). change (omap col (p :: map snd (pairs r))) with (match col p with Some y => y :: omap col (map snd (pairs r)) | None => omap col (map snd (pairs r)) end).
  rewrite app_assoc. fold out1. destruct (cap <=? Z.of_nat (length (take _ out1))) eqn:E1; [by apply Ht|]. pose proof (Hnf _ E1) as En. rewrite En in E1 |- *.
  reify_bools. destruct (col p) as [x|].
  - destruct (cap <=? Z.of_nat (length (out1 ++ [x]))) eqn:E2; reify_bools.
    + rewrite length_app in E2. cbn in E2. replace (out1 ++ x :: omap col (map snd (pairs r))) with ((out1 ++ [x]) ++ omap col (map snd (pairs r))) by (by rewrite <- app_assoc).
      rewrite take_app_length' by (rewrite length_app; cbn; lia). done.
    + rewrite IHr by lia. by rewrite <- app_assoc.
  - destruct (cap <=? Z.of_nat (length out1)) eqn:E2; reify_bools; [lia|]. apply IHr. lia.
Qed.
End Collect.

(** ** Main results *)

(** [vma_find_gap] returns 0 or an address with room for the length between
    the base and the limit, free of mappings; if there is such an address, it
    returns the lowest one (unless the array cannot be allocated). *)
Theorem vma_find_gap_first_fit kmalloc_ok l length_ base limit : shape l -> 0 < base -> 0 <= length_ -> limit < 2 ^ 64 ->
  exists r, vma_find_gap kmalloc_ok l length_ base limit = Ret r /\
    (r <> 0 -> base <= r /\ 0 < length_ /\ fits (regions (root l)) length_ limit r) /\
    (forall x, 0 < length_ -> base <= x -> fits (regions (root l)) length_ limit x ->
       can_gather kmalloc_ok l = true \/ count l = 0 -> 0 < r <= x).
Proof. apply find_gap_ok. Qed.

Lemma vma_find_gap_first_fit_witness : exists r, vma_find_gap (fun _ => false) demo2 0x2000 0x1000 0x10000 = Ret r /\
  fits (regions (root demo2)) 0x2000 0x10000 r /\ r = 0x9000.
Proof.
  destruct (vma_find_gap_first_fit (fun _ => false) demo2 0x2000 0x1000 0x10000 demo_shape) as (r & E & H & _); [lia..|].
  exists r. assert (Er : r = 0x9000) by (vm_compute in E; by injection E as <-). split; [exact E|]. split; [apply H; lia|exact Er].
Defined.

(** [vma_merge_adjacent] changes what no address shows, keeps the invariant
    (the rebuilt tree is balanced) and the balance of references, and leaves no
    two neighbours that could be merged. *)
Theorem vma_merge_preserves kmalloc_ok l : shape l ->
  exists l', vma_merge_adjacent kmalloc_ok l = Ret l' /\ shape l' /\ conserves l l' /\
    (forall a, view_at (regions (root l')) a = view_at (regions (root l)) a) /\
    (can_gather kmalloc_ok l = true -> Sorted (fun x y => can_merge x y = false) (regions (root l'))).
Proof. intros Hsh. destruct (merge_ok kmalloc_ok l Hsh) as (l' & ? & ? & ? & _ & ? & _ & ?). eauto 10. Qed.

(** Two anonymous mappings next to each other above the file mapping. *)
Definition demo3 : vma_list := after (vma_add first_fresh demo2 0x9000 0xa000 3 0x22 (-1) 0 None 0).
Lemma demo3_shape : shape demo3.
Proof. apply (add_shape first_fresh demo2 0x9000 0xa000 3 0x22 (-1) 0 None 0 0 demo3 demo_shape); [lia|reflexivity]. Qed.

Lemma vma_merge_preserves_witness : exists l', vma_merge_adjacent (fun _ => false) demo3 = Ret l' /\ shape l' /\
  length (regions (root demo3)) = 3%nat /\ length (regions (root l')) = 2%nat /\ view_at (regions (root l')) 0x9800 = Some (3, 0x22, None, None).
Proof.
  destruct (vma_merge_preserves (fun _ => false) demo3 demo3_shape) as (l' & E & Hsh & _ & Hv & _). exists l'. split; [exact E|]. split; [exact Hsh|].
  split; [reflexivity|]. split; [|rewrite Hv; reflexivity]. vm_compute in E. injection E as <-. reflexivity.
Defined.

(** [vma_list_clone] either copies every mapping in order, without the lock
    flag and with one reference for each, or, when a node cannot be allocated,
    fails with an empty list and every reference given back. *)
Theorem vma_list_clone_spec alloc `{!NodeAllocator alloc} dst src : shape src ->
  exists ok dst', vma_list_clone alloc dst src = Ret (ok, dst') /\ shape dst' /\
    regions (root dst') = (if ok : bool then map child (regions (root src)) else []) /\
    (forall n, spare_files dst' n = files dst n /\ spare_linux dst' n = linux dst n) /\ (never_fails alloc -> ok = true).
Proof. by apply list_clone_ok. Qed.

Lemma vma_list_clone_spec_witness : exists dst', vma_list_clone first_fresh no_list demo2 = Ret (true, dst') /\ shape dst' /\
  regions (root dst') = regions (root demo2) /\ files dst' 7 = 1.
Proof.
  destruct (vma_list_clone_spec first_fresh no_list demo2 demo_shape) as (ok & d & E & Hsh & Hr & Hn & Hok). specialize (Hok first_fresh_total). subst ok.
  exists d. split; [exact E|]. split; [exact Hsh|]. split; [rewrite Hr; reflexivity|]. destruct (Hn 7) as [Hf _]. unfold spare_files in Hf. rewrite Hr in Hf.
  change (held file_node (map child (regions (root demo2))) 7) with 1 in Hf. cbn in Hf. lia.
Defined.

(** the tree walks compute what their names say of the list of regions: the
    neighbours of an address, the total size (without overflow for addresses
    below 2^64), the first stacks and their number, and a region that may grow
    down to an address if there is one. *)
Theorem vma_queries_spec l x : shape l ->
  vma_snapshot_neighbors l x = (below x (regions (root l)), List.find (contains x) (regions (root l)), above x (regions (root l))) /\
  (Forall (fun p => end_ p < 2 ^ 64) (regions (root l)) -> vma_total_bytes l = total (regions (root l))) /\
  (forall cap, 0 < cap -> vma_snapshot_stacks l cap =
     (take (Z.to_nat cap) (List.filter is_stack (regions (root l))), Z.of_nat (length (List.filter is_stack (regions (root l)))))) /\
  (forall limit, exists r, vma_find_growdown l x limit = Ret r /\
     match r with
     | Some v => v ∈ pairs (root l) /\ grows_to x limit v.2 = true
     | None => Forall (fun p => grows_to x limit p = false) (regions (root l))
     end).
Proof.
  intros Hsh. pose proof (sh_ordered _ Hsh) as Ho. split; [|split; [|split]].
  - unfold vma_snapshot_neighbors. rewrite neighbors_ok; [|done|done]. by destruct (below _ _), (List.find _ _), (above _ _).
  - intros Hb. unfold vma_total_bytes. rewrite total_recursive. unfold u64. apply Z.mod_small.
    pose proof (total_bound _ Ho 0 (2 ^ 64 - 1) ltac:(lia)) as Ht. destruct Ht; [| |lia].
    + destruct Ho as [_ Hn]. eapply Forall_impl; [exact Hn|]. intros p Hp. unfold nonempty in Hp. lia.
    + eapply Forall_impl; [exact Hb|]. intros p Hp. cbn beta in *. lia.
  - intros cap Hcap. unfold vma_snapshot_stacks. destruct (cap <=? 0) eqn:?; reify_bools; [lia|].
    pose proof (stacks_ok (root l) cap ltac:(lia) []) as Hs. rewrite take_nil in Hs. exact Hs.
  - intros limit. by apply growdown_ok.
Qed.

Lemma vma_queries_spec_witness : vma_snapshot_neighbors demo2 0x5800 =
    (Some (new_region 0x1000 0x5000 1 2 3 0x8000 (Some 7) 0x2800), None, Some (new_region 0x6000 0x9000 3 0x22 (-1) 0 None 0)) /\
  vma_total_bytes demo2 = 0x7000.
Proof.
  destruct (vma_queries_spec demo2 0x5800 demo_shape) as (H1 & H2 & _). split; [rewrite H1; reflexivity|].
  rewrite H2; [reflexivity|]. by repeat constructor.
Defined.

(** [vma_collect_mapping] returns the first ranges, in address order, of the
    regions of a mapping that meet the file range. *)
Theorem vma_collect_mapping_spec bridge_mapping bridge_is_shared l mapping b e even from cap : 0 < cap ->
  vma_collect_mapping bridge_mapping bridge_is_shared l (Some mapping) b e even from cap =
  take (Z.to_nat cap) (omap (collects bridge_mapping bridge_is_shared mapping b e even from) (regions (root l))).
Proof.
  intros Hcap. unfold vma_collect_mapping. destruct (cap <=? 0) eqn:?; reify_bools; [lia|]. rewrite collect_ok by (cbn; lia). done.
Qed.

Lemma vma_collect_mapping_spec_witness :
  vma_collect_mapping (fun o => o) (fun _ => true) (after (vma_add first_fresh no_list 0x1000 0x3000 1 1 0 0 None 0)) (Some 4) 0 0x1000 false 0 8 = [].
Proof. rewrite (vma_collect_mapping_spec (fun o => o) (fun _ => true) _ 4 0 0x1000 false 0 8); [reflexivity|lia]. Defined.

(** ** All operations *)

Inductive op :=
| Add (s e pr fl f off : Z) (file : option Z) (fsize : Z) | Attach (x : Z) (o : option Z) | Find (x : Z)
| Remove (s e : Z) | Mprotect (s e pr : Z) | Merge.

Definition valid (o : op) : Prop :=
  match o with Add s e _ _ _ _ _ _ | Remove s e | Mprotect s e _ => 0 <= s < e | _ => True end.

Definition exec (alloc : nat -> list nat -> option nat) (kmalloc_ok : nat -> bool) (l : vma_list) (o : op) : outcome vma_list :=
  match o with
  | Add s e pr fl f off file fsize => '(_, l) ← vma_add alloc l s e pr fl f off file fsize; Ret l
  | Attach x o => vma_attach_linux l x o
  | Find x => '(_, l) ← vma_find l x; Ret l
  | Remove s e => '(_, l) ← vma_remove alloc l s e; Ret l
  | Mprotect s e pr => vma_mprotect alloc l s e pr
  | Merge => vma_merge_adjacent kmalloc_ok l
  end.
Fixpoint run (alloc : nat -> list nat -> option nat) (kmalloc_ok : nat -> bool) (ops : list op) (l : vma_list) : outcome vma_list :=
  match ops with [] => Ret l | o :: ops => l ← exec alloc kmalloc_ok l o; run alloc kmalloc_ok ops l end.

Lemma exec_ok alloc `{!NodeAllocator alloc} kmalloc_ok l o : shape l -> valid o ->
  exists l', exec alloc kmalloc_ok l o = Ret l' /\ shape l' /\ conserves l l'.
Proof.
  intros Hsh Hv. destruct o as [s e pr fl f off file fsize|x o|x|s e|s e pr|]; cbn [exec valid] in *.
  - destruct (vma_add alloc l s e pr fl f off file fsize) as [[r l']| | |] eqn:E; try (exfalso; destruct (add_ok alloc l s e pr fl f off file fsize Hsh Hv)
      as [[E' _]|[(E' & _)|(? & ? & E' & _)]]; rewrite E' in E; done).
    exists l'. split; [done|]. by eapply add_shape.
  - destruct (attach_ok l x o Hsh) as (l' & ? & ? & ? & _). eauto.
  - destruct (find_ok l x Hsh) as (c & -> & Hsh' & _). eexists. split; [done|]. by split.
  - destruct (remove_ok alloc l s e Hsh Hv) as (l' & -> & ? & ? & _). exists l'. by split.
  - destruct (mprotect_ok alloc l s e pr Hsh Hv) as (l' & -> & ? & ? & _). exists l'. by split.
  - destruct (merge_ok kmalloc_ok l Hsh) as (l' & -> & ? & ? & _). exists l'. by split.
Qed.

(** C2: any sequence of additions, lookups, wrapper attachments, removals,
    protection changes and merges on a fresh list, whether allocations fail or
    not, is free of faults, terminates, and keeps the tree balanced, its regions
    disjoint and in order, the count right and the cached pointers valid; every
    file and wrapper has exactly one more reference for each region that shows it. *)
Theorem vma_invariant alloc `{!NodeAllocator alloc} kmalloc_ok ops l0 : Forall valid ops ->
  exists l, run alloc kmalloc_ok ops (vma_list_init l0) = Ret l /\ shape l /\
    forall n, files l n = files l0 n + held file_node (regions (root l)) n /\ linux l n = linux l0 n + held linux_vma (regions (root l)) n.
Proof.
  intros Hv. assert (Hrun : forall l1, shape l1 -> exists l, run alloc kmalloc_ok ops l1 = Ret l /\ shape l /\ conserves l1 l).
  { induction Hv as [|o ops Ho _ IH]; intros l1 Hsh; cbn [run]; [by exists l1|].
    destruct (exec_ok alloc kmalloc_ok l1 o Hsh Ho) as (l2 & -> & Sh2 & C2). rewrite ret_bind. destruct (IH l2 Sh2) as (l & -> & Sh & C).
    exists l. split; [done|]. split; [done|]. by rewrite C2. }
  destruct (Hrun _ (shape_init l0)) as (l & -> & Sh & C). exists l. split; [done|]. split; [done|]. intros n. specialize (C n).
  unfold spare_files, spare_linux in C. cbn in C. lia.
Qed.

Definition demo_ops : list op :=
  [Add 0x1000 0x5000 1 2 3 0 (Some 7) 0x4000; Attach 0x1000 (Some 9); Remove 0x2000 0x3000; Mprotect 0x1000 0x4000 3; Find 0x1800; Merge].
Lemma demo_counts : match run first_fresh (fun _ => true) demo_ops (vma_list_init no_list) with
  | Ret l => (files l 7, linux l 9) = (3, 3)
  | _ => False
  end.
Proof. vm_compute. reflexivity. Qed.

Lemma vma_invariant_witness : exists l, run first_fresh (fun _ => true) demo_ops (vma_list_init no_list) = Ret l /\ shape l /\
  files l 7 = 3 /\ linux l 9 = 3.
Proof.
  destruct (vma_invariant first_fresh (fun _ => true) demo_ops no_list) as (l & E & Hsh & Hn); [repeat constructor; simpl; lia|].
  exists l. split; [exact E|]. split; [exact Hsh|]. pose proof demo_counts as Hv. rewrite E in Hv. clear E. injection Hv as Hf Hl. split; assumption.
Defined.

End VmaSpace.
