(* ===== verification/Pmm.v ===== *)
(** Pmm: the physical memory allocator ([kernel/src/mm/pmm_buddy.c], the bitmaps
    and reference counts of [pmm.c], the inline functions of [pmm_internal.h] and
    the doubly linked lists of [lib/list.h]).

    A free block carries its list node, its order and the tag of its zone in its
    own first page, as the code has it: [mem] maps the address of a list head or
    of the first bytes of a page to those four words, and an access elsewhere is
    a fault. The owner of an allocated page may write anything there. A zone is
    named by its index. Every function runs under the zone's lock, so a call is
    one step. The text of corruption reports is not modelled, their number is. *)

From S2P Require Import Prelude.

Module Pmm.

Definition PAGE_SIZE : Z := 4096.
Definition MAX_ORDER : Z := 20.
Definition BUDDY_TRACE_SLOTS : Z := 64.
Definition KERNEL_BASE : Z := 0xFFFF800000000000.

(** [struct list_head] and [struct buddy_block]; of a list head only the links
    are used. *)
Record hdr := mk_hdr { next : Z; prev : Z; order : Z; magic : Z }.
Definition set_next (v : Z) (h : hdr) : hdr := mk_hdr v (prev h) (order h) (magic h).
Definition set_prev (v : Z) (h : hdr) : hdr := mk_hdr (next h) v (order h) (magic h).
Definition set_tag (o m : Z) (h : hdr) : hdr := mk_hdr (next h) (prev h) o m.

Inductive operation := TraceFree | TraceMerge | TraceAllocate | TraceRefill | TraceRange.
Record event := mk_event { ev_phys : Z; ev_order : Z; ev_op : operation }.

(** [struct buddy_zone]: [heads] is the address of [free_list[0]]. *)
Record zone := mk_zone { heads : Z; free_blocks : list Z; pages_in_lists : Z; free_pages : Z; zmagic : Z;
  trace_seq : Z; trace : list (option event) }.
Definition set_account (fb : list Z) (p : Z) (z : zone) : zone :=
  mk_zone (heads z) fb p (free_pages z) (zmagic z) (trace_seq z) (trace z).
Definition set_free_pages (p : Z) (z : zone) : zone :=
  mk_zone (heads z) (free_blocks z) (pages_in_lists z) p (zmagic z) (trace_seq z) (trace z).
Definition set_trace (n : Z) (t : list (option event)) (z : zone) : zone :=
  mk_zone (heads z) (free_blocks z) (pages_in_lists z) (free_pages z) (zmagic z) n t.

Record pmm := mk_pmm { mem : gmap Z hdr; bitmap : list Z; managed : list Z; refcounts : list Z; zones : list zone; reports : Z }.
Definition set_mem (m : gmap Z hdr) (s : pmm) : pmm := mk_pmm m (bitmap s) (managed s) (refcounts s) (zones s) (reports s).
Definition set_bitmap (b : list Z) (s : pmm) : pmm := mk_pmm (mem s) b (managed s) (refcounts s) (zones s) (reports s).
Definition set_managed (b : list Z) (s : pmm) : pmm := mk_pmm (mem s) (bitmap s) b (refcounts s) (zones s) (reports s).
Definition set_refcounts (r : list Z) (s : pmm) : pmm := mk_pmm (mem s) (bitmap s) (managed s) r (zones s) (reports s).
Definition set_zone (n : nat) (z : zone) (s : pmm) : pmm :=
  mk_pmm (mem s) (bitmap s) (managed s) (refcounts s) (<[n := z]> (zones s)) (reports s).
Definition report (s : pmm) : pmm := mk_pmm (mem s) (bitmap s) (managed s) (refcounts s) (zones s) (reports s + 1).

Definition zone_at (s : pmm) (n : nat) : outcome zone := deref (zones s !! n).
Definition head_of (z : zone) (o : Z) : Z := heads z + 16 * o.

(** ** Doubly linked lists *)

Definition write_next (a v : Z) (m : gmap Z hdr) : outcome (gmap Z hdr) := h ← deref (m !! a); Ret (<[a := set_next v h]> m).
Definition write_prev (a v : Z) (m : gmap Z hdr) : outcome (gmap Z hdr) := h ← deref (m !! a); Ret (<[a := set_prev v h]> m).
Definition write_tag (a o mg : Z) (m : gmap Z hdr) : outcome (gmap Z hdr) := h ← deref (m !! a); Ret (<[a := set_tag o mg h]> m).

Definition INIT_LIST_HEAD (l : Z) (m : gmap Z hdr) : outcome (gmap Z hdr) := m ← write_next l l m; write_prev l l m.

Definition list_add_between (new prev_ next_ : Z) (m : gmap Z hdr) : outcome (gmap Z hdr) :=
  m ← write_prev next_ new m; m ← write_next new next_ m; m ← write_prev new prev_ m; write_next prev_ new m.

Definition list_add_tail (new head : Z) (m : gmap Z hdr) : outcome (gmap Z hdr) :=
  if (head =? 0) || (new =? 0) then Ret m
  else
    h ← deref (m !! head);
    m ← (if (prev h =? 0) || (next h =? 0) then INIT_LIST_HEAD head m else Ret m);
    h ← deref (m !! head);
    list_add_between new (prev h) head m.

Definition list_del (entry : Z) (m : gmap Z hdr) : outcome (gmap Z hdr) :=
  if entry =? 0 then Ret m
  else
    h ← deref (m !! entry);
    if (next h =? 0) || (prev h =? 0) then Ret m
    else if (next h <? KERNEL_BASE) || (prev h <? KERNEL_BASE) then Ret m
    else
      m ← write_prev (next h) (prev h) m;
      m ← write_next (prev h) (next h) m;
      m ← write_next entry 0 m;
      write_prev entry 0 m.

(** ** Bitmaps *)

Definition pmm_bitmap_set (bm : list Z) (b : Z) : outcome (list Z) :=
  x ← arr_get bm (b / 8); arr_set bm (b / 8) (u8 (Z.lor x (Z.shiftl 1 (b mod 8)))).
Definition pmm_bitmap_clear (bm : list Z) (b : Z) : outcome (list Z) :=
  x ← arr_get bm (b / 8); arr_set bm (b / 8) (u8 (Z.land x (Z.lnot (Z.shiftl 1 (b mod 8))))).
Definition pmm_bitmap_test (bm : list Z) (b : Z) : outcome bool :=
  x ← arr_get bm (b / 8); Ret (nz (Z.land x (Z.shiftl 1 (b mod 8)))).

Definition memset (bm : list Z) (off v n : Z) : outcome (list Z) :=
  if (0 <=? off) && (off + n <=? Z.of_nat (length bm))
  then Ret (take (Z.to_nat off) bm ++ replicate (Z.to_nat n) v ++ drop (Z.to_nat (off + n)) bm)
  else Fault.

(** [while (idx < end_idx && (idx % 8) != 0)] and [while (idx < end_idx)] *)
Fixpoint bits_unaligned (fuel : nat) (f : list Z -> Z -> outcome (list Z)) (bm : list Z) (idx end_idx : Z) : outcome (list Z * Z) :=
  match fuel with
  | O => OutOfFuel
  | S fuel =>
    if (idx <? end_idx) && negb (idx mod 8 =? 0) then bm ← f bm idx; bits_unaligned fuel f bm (idx + 1) end_idx
    else Ret (bm, idx)
  end.
Fixpoint bits_below (fuel : nat) (f : list Z -> Z -> outcome (list Z)) (bm : list Z) (idx end_idx : Z) : outcome (list Z) :=
  match fuel with
  | O => OutOfFuel
  | S fuel => if idx <? end_idx then bm ← f bm idx; bits_below fuel f bm (idx + 1) end_idx else Ret bm
  end.

Section Config.
(** [pmm_lowest_page], [pmm_highest_page] and [pmm_physical_memory_offset] *)
Variables lowest highest hhdm : Z.
Definition page_count : Z := highest - lowest.

(** The body that [pmm_bitmap_set_range] and [pmm_bitmap_clear_range] share: [f]
    changes one bit, [v] is the byte for eight of them. *)
Definition bitmap_range (f : list Z -> Z -> outcome (list Z)) (v : Z) (bm : list Z) (start_bit count : Z) : outcome (list Z) :=
  if start_bit <? lowest then Ret bm
  else if start_bit >=? highest then Ret bm
  else
    let count := if u64 (start_bit + count) >? highest then highest - start_bit else count in
    let idx := start_bit - lowest in
    let end_idx := idx + count in
    '(bm, idx) ← bits_unaligned 8 f bm idx end_idx;
    '(bm, idx) ← (if end_idx >? idx then
                    let full_bytes := (end_idx - idx) / 8 in
                    if full_bytes >? 0 then bm ← memset bm (idx / 8) v full_bytes; Ret (bm, idx + full_bytes * 8)
                    else Ret (bm, idx)
                  else Ret (bm, idx));
    bits_below 8 f bm idx end_idx.
Definition pmm_bitmap_set_range : list Z -> Z -> Z -> outcome (list Z) := bitmap_range pmm_bitmap_set 0xFF.
Definition pmm_bitmap_clear_range : list Z -> Z -> Z -> outcome (list Z) := bitmap_range pmm_bitmap_clear 0.

Definition pmm_is_managed (s : pmm) (phys : Z) : outcome bool :=
  let pfn := phys / PAGE_SIZE in
  if (pfn <? lowest) || (pfn >=? highest) then Ret false else pmm_bitmap_test (managed s) (pfn - lowest).
Definition pmm_kernel_ptr_is_managed (s : pmm) (v : Z) : outcome bool :=
  if (v =? 0) || (v <? hhdm) then Ret false else pmm_is_managed s (v - hhdm).

Definition virt_to_buddy (phys : Z) : Z := u64 (phys + hhdm).
Definition buddy_to_phys (a : Z) : Z := u64 (a - hhdm).
Definition page_at (pfn : Z) : Z := virt_to_buddy (pfn * PAGE_SIZE).

(** [pmm_get_order] *)
Fixpoint order_loop (fuel : nat) (count size o : Z) : Z :=
  match fuel with
  | O => o
  | S fuel => if (size <? count) && (o <? MAX_ORDER) then order_loop fuel count (u64 (size * 2)) (o + 1) else o
  end.
Definition pmm_get_order (count : Z) : Z := order_loop 21 count 1 0.

(** ** Free lists *)

Definition buddy_trace (n : nat) (phys o : Z) (op : operation) (s : pmm) : outcome pmm :=
  z ← zone_at s n;
  t ← arr_set (trace z) (trace_seq z mod BUDDY_TRACE_SLOTS) (Some (mk_event phys o op));
  Ret (set_zone n (set_trace (u64 (trace_seq z + 1)) t z) s).

Definition buddy_link_readable (s : pmm) (a head : Z) : outcome bool :=
  if a =? head then Ret true
  else if Z.land a (PAGE_SIZE - 1) =? 0 then pmm_kernel_ptr_is_managed s a else Ret false.

Definition buddy_list_account (n : nat) (o blocks : Z) (s : pmm) : outcome pmm :=
  z ← zone_at s n;
  old ← arr_get (free_blocks z) o;
  if old =? blocks then Ret s
  else
    let pages := u64 (pages_in_lists z - u64 (Z.shiftl old o)) in
    let pages := u64 (pages + u64 (Z.shiftl blocks o)) in
    fb ← arr_set (free_blocks z) o blocks;
    Ret (set_zone n (set_account fb pages z) s).

Definition buddy_publish_free_pages (n : nat) (s : pmm) : outcome pmm :=
  z ← zone_at s n; Ret (set_zone n (set_free_pages (pages_in_lists z) z) s).

Definition buddy_list_link (n : nat) (block o : Z) (s : pmm) : outcome pmm :=
  z ← zone_at s n;
  m ← write_tag block o (zmagic z) (mem s);
  m ← list_add_tail block (head_of z o) m;
  old ← arr_get (free_blocks z) o;
  buddy_list_account n o (u64 (old + 1)) (set_mem m s).

Definition buddy_list_unlink (n : nat) (block : Z) (s : pmm) : outcome pmm :=
  m ← list_del block (mem s);
  h ← deref (m !! block);
  z ← zone_at s n;
  old ← arr_get (free_blocks z) (order h);
  s ← buddy_list_account n (order h) (u64 (old - 1)) (set_mem m s);
  m ← write_tag block (order h) 0 (mem s);
  Ret (set_mem m s).

Definition buddy_unmark_returned (pfn : Z) (s : pmm) : outcome pmm :=
  h ← deref (mem s !! page_at pfn); m ← write_tag (page_at pfn) (order h) 0 (mem s); Ret (set_mem m s).

Definition buddy_zone_node_valid (n : nat) (a o : Z) (s : pmm) : outcome bool :=
  z ← zone_at s n;
  let head := head_of z o in
  let block_size := Z.shiftl 1 (o + 12) in
  ok ← (if a =? 0 then Ret false else pmm_kernel_ptr_is_managed s a);
  if negb (ok : bool) then Ret false
  else if nz (Z.land a (block_size - 1)) then Ret false
  else
    h ← deref (mem s !! a);
    if negb (order h =? o) then Ret false
    else if negb (magic h =? zmagic z) then Ret false
    else
      let pfn := u64 (a - hhdm) / PAGE_SIZE in
      if (pfn <? lowest) || (pfn >=? highest) then Ret false
      else
        used ← pmm_bitmap_test (bitmap s) (pfn - lowest);
        if (used : bool) then Ret false
        else
          ok ← buddy_link_readable s (next h) head;
          if negb (ok : bool) then Ret false
          else
            ok ← buddy_link_readable s (prev h) head;
            if negb (ok : bool) then Ret false
            else
              hn ← deref (mem s !! next h);
              hp ← deref (mem s !! prev h);
              Ret ((prev hn =? a) && (next hp =? a)).

(** The loop of [buddy_list_nonempty]; a bad first node is skipped if its link
    can be followed, and otherwise the list is dropped. *)
Fixpoint nonempty_loop (fuel : nat) (n : nat) (o steps : Z) (s : pmm) : outcome (bool * pmm) :=
  match fuel with
  | O => OutOfFuel
  | S fuel =>
    z ← zone_at s n;
    let head := head_of z o in
    hh ← deref (mem s !! head);
    let first := next hh in
    if first =? head then s ← buddy_list_account n o 0 s; Ret (false, s)
    else
      let steps := steps + 1 in
      ok ← (if steps <=? page_count then buddy_zone_node_valid n first o s else Ret false);
      if (ok : bool) then Ret (true, s)
      else
        let s := report s in
        let drop (s : pmm) := (m ← INIT_LIST_HEAD head (mem s); s ← buddy_list_account n o 0 (set_mem m s); Ret (false, s)) in
        mg ← pmm_kernel_ptr_is_managed s first;
        if (mg : bool) then
          hf ← deref (mem s !! first);
          let nx := next hf in
          go ← (if (steps <? page_count) && negb (nx =? first) && negb (nx =? head) then buddy_link_readable s nx head else Ret false);
          if (go : bool) then
            m ← write_next head nx (mem s);
            m ← write_prev nx head m;
            let s := set_mem m s in
            old ← arr_get (free_blocks z) o;
            s ← (if old =? 0 then Ret s else buddy_list_account n o (u64 (old - 1)) s);
            nonempty_loop fuel n o steps s
          else drop s
        else drop s
  end.
Definition buddy_list_nonempty (n : nat) (o : Z) (s : pmm) : outcome (bool * pmm) :=
  nonempty_loop (S (Z.to_nat page_count)) n o 0 s.

Definition buddy_list_pop (n : nat) (o : Z) (s : pmm) : outcome (option Z * pmm) :=
  '(ok, s) ← buddy_list_nonempty n o s;
  if negb (ok : bool) then Ret (None, s)
  else
    z ← zone_at s n;
    hh ← deref (mem s !! head_of z o);
    let block := next hh in
    s ← buddy_list_unlink n block s;
    Ret (Some block, s).

(** The loop of [buddy_list_validate], which cuts the list before a bad node. *)
Fixpoint validate_loop (fuel : nat) (n : nat) (o pr pos steps : Z) (s : pmm) : outcome pmm :=
  match fuel with
  | O => OutOfFuel
  | S fuel =>
    z ← zone_at s n;
    let head := head_of z o in
    if pos =? head then Ret s
    else
      let steps := steps + 1 in
      ok ← (if steps >? page_count then Ret false else buddy_zone_node_valid n pos o s);
      if (ok : bool) then h ← deref (mem s !! pos); validate_loop fuel n o pos (next h) steps s
      else
        let s := report s in
        m ← write_next pr head (mem s);
        m ← write_prev head pr m;
        s ← buddy_list_account n o (steps - 1) (set_mem m s);
        buddy_publish_free_pages n s
  end.
Definition buddy_list_validate (n : nat) (o : Z) (s : pmm) : outcome pmm :=
  z ← zone_at s n;
  hh ← deref (mem s !! head_of z o);
  validate_loop (S (S (Z.to_nat page_count))) n o (head_of z o) (next hh) 0 s.

(** ** The allocator *)

Fixpoint init_heads (k : nat) (z : zone) (m : gmap Z hdr) : outcome (gmap Z hdr) :=
  match k with
  | O => Ret m
  | S k => m ← init_heads k z m; INIT_LIST_HEAD (head_of z (Z.of_nat k)) m
  end.
Definition buddy_zone_init (n : nat) (tsc : Z) (s : pmm) : outcome pmm :=
  z ← zone_at s n;
  m ← init_heads 20 z (mem s);
  Ret (set_zone n (mk_zone (heads z) (replicate 20 0) 0 0 (Z.lor (u32 tsc) 1) 0 (trace z)) (set_mem m s)).

Definition buddy_zone_seed_block (n : nat) (phys o : Z) (s : pmm) : outcome pmm :=
  s ← buddy_list_link n (virt_to_buddy phys) o s; buddy_publish_free_pages n s.

(** The merging loop of [buddy_free_internal]: the block and order reached. *)
Fixpoint merge_loop (fuel : nat) (n : nat) (pfn o : Z) (s : pmm) : outcome (Z * Z * pmm) :=
  match fuel with
  | O => OutOfFuel
  | S fuel =>
    if o <? MAX_ORDER - 1 then
      let buddy_pfn := Z.lxor pfn (Z.shiftl 1 o) in
      free ← (if (buddy_pfn <? lowest) || (buddy_pfn >=? highest) then Ret false
              else
                mg ← pmm_is_managed s (buddy_pfn * PAGE_SIZE);
                if negb (mg : bool) then Ret false
                else used ← pmm_bitmap_test (bitmap s) (buddy_pfn - lowest); Ret (negb used));
      if negb (free : bool) then Ret (pfn, o, s)
      else
        ok ← buddy_zone_node_valid n (page_at buddy_pfn) o s;
        if (ok : bool) then
          s ← buddy_list_unlink n (page_at buddy_pfn) s;
          let pfn := if pfn <? buddy_pfn then pfn else buddy_pfn in
          s ← buddy_trace n (pfn * PAGE_SIZE) (o + 1) TraceMerge s;
          merge_loop fuel n pfn (o + 1) s
        else Ret (pfn, o, s)
    else Ret (pfn, o, s)
  end.

Definition buddy_free_internal (n : nat) (phys o : Z) (s : pmm) : outcome pmm :=
  let pfn := phys / PAGE_SIZE in
  if nz (Z.land phys (Z.shiftl 1 (o + 12) - 1)) then Ret (report s)
  else
    bm ← pmm_bitmap_clear_range (bitmap s) pfn (Z.shiftl 1 o);
    s ← buddy_trace n phys o TraceFree (set_bitmap bm s);
    '(pfn, o, s) ← merge_loop 20 n pfn o s;
    dup ← buddy_zone_node_valid n (page_at pfn) o s;
    if (dup : bool) then buddy_publish_free_pages n (report s)
    else s ← buddy_list_link n (page_at pfn) o s; buddy_publish_free_pages n s.

(** [while (cur_order < MAX_ORDER && !buddy_list_nonempty(zone, cur_order))] *)
Fixpoint search_loop (fuel : nat) (n : nat) (o : Z) (s : pmm) : outcome (Z * pmm) :=
  match fuel with
  | O => OutOfFuel
  | S fuel =>
    if o <? MAX_ORDER then
      '(ok, s) ← buddy_list_nonempty n o s;
      if (ok : bool) then Ret (o, s) else search_loop fuel n (o + 1) s
    else Ret (o, s)
  end.

(** [while (cur_order > order)]: the upper halves go back to the lists. *)
Fixpoint split_loop (fuel : nat) (n : nat) (pfn cur o : Z) (s : pmm) : outcome pmm :=
  match fuel with
  | O => OutOfFuel
  | S fuel =>
    if cur >? o then
      let cur := cur - 1 in
      s ← buddy_list_link n (page_at (pfn + Z.shiftl 1 cur)) cur s;
      split_loop fuel n pfn cur o s
    else Ret s
  end.

Fixpoint set_refs (k : nat) (pfn v : Z) (s : pmm) : outcome pmm :=
  match k with
  | O => Ret s
  | S k => s ← set_refs k pfn v s; r ← arr_set (refcounts s) (pfn + Z.of_nat k - lowest) v; Ret (set_refcounts r s)
  end.

(** Marking a block as allocated. *)
Definition hand_out (n : nat) (pfn o : Z) (s : pmm) : outcome pmm :=
  bm ← pmm_bitmap_set_range (bitmap s) pfn (Z.shiftl 1 o);
  s ← set_refs (Z.to_nat (Z.shiftl 1 o)) pfn 1 (set_bitmap bm s);
  s ← buddy_unmark_returned pfn s;
  buddy_publish_free_pages n s.

Definition buddy_alloc_internal (n : nat) (o : Z) (s : pmm) : outcome (Z * pmm) :=
  if o >=? MAX_ORDER then Ret (0, s)
  else
    '(cur, s) ← search_loop 21 n o s;
    if cur =? MAX_ORDER then s ← buddy_publish_free_pages n s; Ret (0, s)
    else
      z ← zone_at s n;
      hh ← deref (mem s !! head_of z cur);
      let block := next hh in
      s ← buddy_list_unlink n block s;
      let pfn := buddy_to_phys block / PAGE_SIZE in
      s ← buddy_trace n (pfn * PAGE_SIZE) cur TraceAllocate s;
      s ← split_loop 21 n pfn cur o s;
      s ← hand_out n pfn o s;
      Ret (pfn * PAGE_SIZE, s).

(** The loop over the orders of [buddy_alloc_page_locked]. *)
Fixpoint pop_loop (fuel : nat) (n : nat) (o : Z) (s : pmm) : outcome (Z * option Z * pmm) :=
  match fuel with
  | O => OutOfFuel
  | S fuel =>
    if o <? MAX_ORDER then
      '(b, s) ← buddy_list_pop n o s;
      match b with
      | Some b => Ret (o, Some b, s)
      | None => pop_loop fuel n (o + 1) s
      end
    else Ret (o, None, s)
  end.

Definition buddy_alloc_page_locked (n : nat) (s : pmm) : outcome (Z * pmm) :=
  '(cur, b, s) ← pop_loop 21 n 0 s;
  match b with
  | None => s ← buddy_publish_free_pages n s; Ret (0, s)
  | Some block =>
    let pfn := buddy_to_phys block / PAGE_SIZE in
    s ← buddy_trace n (pfn * PAGE_SIZE) cur TraceRefill s;
    s ← split_loop 21 n pfn cur 0 s;
    s ← hand_out n pfn 0 s;
    Ret (pfn * PAGE_SIZE, s)
  end.

(** [list_for_each] over a free list: the first block with an aligned candidate
    between the bounds. *)
Definition range_candidate (min max o cur phys : Z) : option Z :=
  let block_end := u64 (phys + Z.shiftl 1 cur * PAGE_SIZE) in
  let size := Z.shiftl 1 o * PAGE_SIZE in
  let candidate := if phys >? min then phys else min in
  let candidate := Z.land (u64 (candidate + size - 1)) (UINT64_MAX - (size - 1)) in
  let allowed_end := if block_end <? max then block_end else max in
  if (candidate <? allowed_end) && (size <=? allowed_end - candidate) then Some candidate else None.

Fixpoint range_find (fuel : nat) (head pos min max o cur : Z) (s : pmm) : outcome (option (Z * Z)) :=
  match fuel with
  | O => OutOfFuel
  | S fuel =>
    if (pos =? 0) || (pos =? head) || (pos <? KERNEL_BASE) then Ret None
    else
      match range_candidate min max o cur (buddy_to_phys pos) with
      | Some c => Ret (Some (pos, c))
      | None => h ← deref (mem s !! pos); range_find fuel head (next h) min max o cur s
      end
  end.

(** The splitting loop towards [target_pfn]; returns the block kept. *)
Fixpoint split_range (fuel : nat) (n : nat) (pfn target cur o : Z) (s : pmm) : outcome (Z * pmm) :=
  match fuel with
  | O => OutOfFuel
  | S fuel =>
    if cur >? o then
      let cur := cur - 1 in
      let half := Z.shiftl 1 cur in
      let '(buddy_pfn, pfn) := if target >=? pfn + half then (pfn, pfn + half) else (pfn + half, pfn) in
      s ← buddy_list_link n (page_at buddy_pfn) cur s;
      split_range fuel n pfn target cur o s
    else Ret (pfn, s)
  end.

Fixpoint range_orders (fuel : nat) (n : nat) (min max o cur : Z) (s : pmm) : outcome (Z * pmm) :=
  match fuel with
  | O => OutOfFuel
  | S fuel =>
    if cur <? MAX_ORDER then
      s ← buddy_list_validate n cur s;
      z ← zone_at s n;
      hh ← deref (mem s !! head_of z cur);
      found ← range_find (S (S (Z.to_nat page_count))) (head_of z cur) (next hh) min max o cur s;
      match found with
      | Some (block, target) =>
        s ← buddy_list_unlink n block s;
        let pfn := buddy_to_phys block / PAGE_SIZE in
        s ← buddy_trace n (pfn * PAGE_SIZE) cur TraceRange s;
        '(pfn, s) ← split_range 21 n pfn (target / PAGE_SIZE) cur o s;
        s ← hand_out n pfn o s;
        Ret (pfn * PAGE_SIZE, s)
      | None => range_orders fuel n min max o (cur + 1) s
      end
    else s ← buddy_publish_free_pages n s; Ret (0, s)
  end.
Definition buddy_alloc_pages_range (n : nat) (count min max : Z) (s : pmm) : outcome (Z * pmm) :=
  if count =? 0 then Ret (0, s)
  else
    let o := pmm_get_order count in
    if o >=? MAX_ORDER then Ret (0, s) else range_orders 21 n min max o o s.

Definition buddy_zone_free_pages (n : nat) (s : pmm) : outcome Z := z ← zone_at s n; Ret (free_pages z).

End Config.
End Pmm.
