(* ===== verification/PmmLists.v ===== *)
(** PmmLists: the data structures under the physical memory allocator: circular
    doubly linked lists ([list_add_tail] and [list_del] against sequences) and
    bitmaps (the byte-wise range operations against single bits). *)

From S2P Require Import Prelude Pmm.
From stdpp Require Import list_relations.
#[local] Open Scope Z_scope.

Module PmmLists.
Import Pmm.

(** ** Doubly linked lists *)

Definition nx (m : gmap Z hdr) (a : Z) : option Z := next <$> m !! a.
Definition pv (m : gmap Z hdr) (a : Z) : option Z := prev <$> m !! a.
Definition tag (m : gmap Z hdr) (a : Z) : option (Z * Z) := (fun h => (order h, magic h)) <$> m !! a.

Definition links (m : gmap Z hdr) (a b : Z) : Prop := nx m a = Some b /\ pv m b = Some a.
(** The nodes from [a] over [l] to [z]. *)
Fixpoint chain (m : gmap Z hdr) (a : Z) (l : list Z) (z : Z) : Prop :=
  match l with [] => links m a z | x :: l => links m a x /\ chain m x l z end.
(** [h] is the head of the list [l]. *)
Definition dll (m : gmap Z hdr) (h : Z) (l : list Z) : Prop := chain m h l h /\ NoDup (h :: l).

Lemma chain_app m a l1 x l2 z : chain m a (l1 ++ x :: l2) z <-> chain m a l1 x /\ chain m x l2 z.
Proof. revert a. induction l1 as [|y l1 IH]; intros a; cbn [app chain]; [done|]. rewrite IH. tauto. Qed.

Lemma chain_ext m m' a l z : chain m a l z -> (forall x, x ∈ a :: l -> nx m' x = nx m x) ->
  (forall x, x ∈ l ++ [z] -> pv m' x = pv m x) -> chain m' a l z.
Proof.
  revert a. induction l as [|y l IH]; intros a; cbn [chain app]; unfold links.
  - intros [H1 H2] Hn Hp. rewrite Hn, Hp by (by left). done.
  - intros [[H1 H2] H3] Hn Hp. rewrite Hn, Hp by (by left). split; [done|]. apply IH; [done| |]; intros x Hx; [apply Hn|apply Hp]; by right.
Qed.

(** The last node of [a :: l]. *)
Fixpoint tail_of (a : Z) (l : list Z) : Z := match l with [] => a | x :: l => tail_of x l end.
Lemma tail_in a l : tail_of a l ∈ a :: l.
Proof. revert a. induction l as [|x l IH]; intros a; cbn [tail_of]; [by left|right; apply IH]. Qed.
Lemma tail_cons a x l : tail_of a (x :: l) = tail_of x l.
Proof. done. Qed.

Lemma chain_last m a l z : chain m a l z -> pv m z = Some (tail_of a l).
Proof. revert a. induction l as [|x l IH]; intros a; cbn [chain]; [by intros [_ ?]|]. intros [_ H]. rewrite tail_cons. by apply IH. Qed.

(** Redirecting the end of a chain. *)
Lemma chain_retarget m m' a l z z' : chain m a l z -> NoDup (a :: l) ->
  (forall x, x ∈ a :: l -> x <> tail_of a l -> nx m' x = nx m x) -> nx m' (tail_of a l) = Some z' ->
  (forall x, x ∈ l -> pv m' x = pv m x) -> pv m' z' = Some (tail_of a l) -> chain m' a l z'.
Proof.
  revert a. induction l as [|y l IH]; intros a Hc Hnd Hn Ht Hp Hz; cbn [chain] in *; [done|].
  destruct Hc as [[H1 H2] Hc]. rewrite tail_cons in *. apply NoDup_cons in Hnd as [Ha Hnd]. split.
  - split; [rewrite Hn; [done|by left|]|rewrite Hp; [done|by left]]. intros ->. apply Ha. apply tail_in.
  - apply IH; try done; [intros x Hx; apply Hn; by right|intros x Hx; apply Hp; by right].
Qed.

(** What the writes do. *)
Lemma write_next_ok m a v h : m !! a = Some h -> exists m', write_next a v m = Ret m' /\
  (forall x, nx m' x = if decide (x = a) then Some v else nx m x) /\ (forall x, pv m' x = pv m x) /\ (forall x, tag m' x = tag m x) /\
  (forall x, x <> a -> m' !! x = m !! x).
Proof.
  intros E. exists (<[a := set_next v h]> m). unfold write_next, nx, pv, tag. rewrite E. split; [done|].
  split; [|split; [|split]]; intros x; try (intros Hx; by apply lookup_insert_ne);
    destruct (decide (x = a)) as [->|Hx]; rewrite ?lookup_insert_eq, ?lookup_insert_ne, ?E by done; done.
Qed.
Lemma write_prev_ok m a v h : m !! a = Some h -> exists m', write_prev a v m = Ret m' /\
  (forall x, nx m' x = nx m x) /\ (forall x, pv m' x = if decide (x = a) then Some v else pv m x) /\ (forall x, tag m' x = tag m x) /\
  (forall x, x <> a -> m' !! x = m !! x).
Proof.
  intros E. exists (<[a := set_prev v h]> m). unfold write_prev, nx, pv, tag. rewrite E. split; [done|].
  split; [|split; [|split]]; intros x; try (intros Hx; by apply lookup_insert_ne);
    destruct (decide (x = a)) as [->|Hx]; rewrite ?lookup_insert_eq, ?lookup_insert_ne, ?E by done; done.
Qed.

Lemma tag_is_Some m a : is_Some (tag m a) <-> exists h, m !! a = Some h.
Proof. unfold tag. rewrite fmap_is_Some. done. Qed.
Lemma same_tag_hdr m m' a h : (forall x, tag m' x = tag m x) -> m !! a = Some h -> exists h', m' !! a = Some h'.
Proof. intros Ht E. apply tag_is_Some. rewrite Ht. apply tag_is_Some. eauto. Qed.
Lemma nx_hdr m a b : nx m a = Some b -> exists h, m !! a = Some h /\ next h = b.
Proof. unfold nx. intros (h & -> & E)%fmap_Some. eauto. Qed.
Lemma pv_hdr m a b : pv m a = Some b -> exists h, m !! a = Some h /\ prev h = b.
Proof. unfold pv. intros (h & -> & E)%fmap_Some. eauto. Qed.

Lemma chain_mem m a l z x : chain m a l z -> x ∈ a :: l -> exists h, m !! x = Some h.
Proof.
  revert a. induction l as [|y l IH]; intros a Hc Hx; cbn [chain] in Hc.
  - apply list_elem_of_singleton in Hx as ->. destruct Hc as [H _]. apply nx_hdr in H as (h & ? & _). eauto.
  - destruct Hc as [[H _] Hc]. apply elem_of_cons in Hx as [->|Hx]; [apply nx_hdr in H as (h & ? & _); eauto|eauto].
Qed.

(** Only the links of the nodes in [D] may change. *)
Definition relinked (D : list Z) (m m' : gmap Z hdr) : Prop :=
  (forall x, tag m' x = tag m x) /\ (forall x, x ∉ D -> m' !! x = m !! x).

Lemma relinked_dom D m m' a h : relinked D m m' -> m !! a = Some h -> exists h', m' !! a = Some h'.
Proof. intros [Ht _]. by apply same_tag_hdr. Qed.

Lemma list_add_tail_ok m h l new hn : dll m h l -> 0 ∉ h :: l -> new ∉ h :: l -> new <> 0 -> m !! new = Some hn ->
  exists m', list_add_tail new h m = Ret m' /\ dll m' h (l ++ [new]) /\ relinked (h :: l ++ [new]) m m'.
Proof.
  intros [Hc Hnd] H0 Hnew Hnz En. pose proof (chain_last _ _ _ _ Hc) as Hlast. set (p := tail_of h l) in *.
  assert (Hp : p ∈ h :: l) by apply tail_in. assert (Hp0 : p <> 0) by (intros E; apply H0; by rewrite <- E).
  assert (Hh0 : h <> 0) by (intros ->; apply H0; by left). assert (Hnh : new <> h) by (intros ->; apply Hnew; by left).
  assert (Hpn : p <> new) by (intros E; apply Hnew; by rewrite <- E).
  destruct (pv_hdr _ _ _ Hlast) as (hh & Eh & Ehp).
  assert (Hnext : next hh <> 0).
  { assert (Hn : exists x, nx m h = Some x /\ x ∈ h :: l).
    { destruct l as [|x l]; cbn [chain] in Hc; [destruct Hc as [Hc _]|destruct Hc as [[Hc _] _]]; rewrite Hc; eexists; (split; [done|]); [by left|right; by left]. }
    destruct Hn as (x & Hn & Hx). unfold nx in Hn. rewrite Eh in Hn. injection Hn as Hn. intros E. apply H0. rewrite <- E, Hn. done. }
  unfold list_add_tail. destruct (h =? 0) eqn:?, (new =? 0) eqn:?; reify_bools; try done. cbn [orb]. rewrite Eh. cbn [deref]. rewrite ret_bind.
  rewrite (proj2 (Z.eqb_neq (prev hh) 0)), (proj2 (Z.eqb_neq (next hh) 0)) by congruence. cbn [orb]. rewrite ret_bind, Eh. cbn [deref]. rewrite ret_bind, Ehp.
  unfold list_add_between.
  destruct (write_prev_ok m h new hh Eh) as (m1 & -> & N1 & P1 & T1 & F1). rewrite ret_bind.
  destruct (same_tag_hdr m m1 new hn T1 En) as (hn1 & En1).
  destruct (write_next_ok m1 new h hn1 En1) as (m2 & -> & N2 & P2 & T2 & F2). rewrite ret_bind.
  destruct (same_tag_hdr m1 m2 new hn1 T2 En1) as (hn2 & En2).
  destruct (write_prev_ok m2 new p hn2 En2) as (m3 & -> & N3 & P3 & T3 & F3). rewrite ret_bind.
  destruct (chain_mem _ _ _ _ p Hc Hp) as (hp & Ep). destruct (same_tag_hdr m m1 p hp T1 Ep) as (hp1 & Ep1).
  destruct (same_tag_hdr m1 m2 p hp1 T2 Ep1) as (hp2 & Ep2). destruct (same_tag_hdr m2 m3 p hp2 T3 Ep2) as (hp3 & Ep3).
  destruct (write_next_ok m3 p new hp3 Ep3) as (m4 & -> & N4 & P4 & T4 & F4).
  assert (Nf : forall x, nx m4 x = if decide (x = p) then Some new else if decide (x = new) then Some h else nx m x) by (intros x; by rewrite N4, N3, N2, N1).
  assert (Pf : forall x, pv m4 x = if decide (x = new) then Some p else if decide (x = h) then Some new else pv m x) by (intros x; by rewrite P4, P3, P2, P1).
  exists m4. split; [done|]. split; [split|split].
  - apply chain_app. split.
    + apply (chain_retarget m m4 h l h new Hc Hnd).
      * intros x Hx Hxp. rewrite Nf, decide_False by done. rewrite decide_False; [done|]. intros ->. by apply Hnew.
      * by rewrite Nf, decide_True.
      * intros x Hx. rewrite Pf. rewrite decide_False by (intros ->; apply Hnew; by right). rewrite decide_False; [done|].
        intros ->. by apply NoDup_cons in Hnd as [? _].
      * by rewrite Pf, decide_True.
    + cbn [chain]. split; [rewrite Nf, decide_False, decide_True by done; done|]. rewrite Pf, decide_False, decide_True by done. done.
  - rewrite app_comm_cons. apply NoDup_app. split; [done|]. split; [|by apply NoDup_singleton]. intros x Hx ->%list_elem_of_singleton. done.
  - intros x. by rewrite T4, T3, T2, T1.
  - intros x Hx. rewrite elem_of_cons, elem_of_app, elem_of_cons in Hx. assert (x <> p) by (intros ->; apply elem_of_cons in Hp; tauto).
    rewrite F4, F3, F2, F1 by tauto. done.
Qed.

Lemma list_del_ok m h l1 x l2 : dll m h (l1 ++ x :: l2) -> Forall (fun a => KERNEL_BASE <= a) (h :: l1 ++ x :: l2) ->
  exists m', list_del x m = Ret m' /\ dll m' h (l1 ++ l2) /\ relinked (h :: l1 ++ x :: l2) m m'.
Proof.
  intros [Hc Hnd] Hk. pose proof Hc as Hc0. apply chain_app in Hc as [Hc1 Hc2]. pose proof (chain_last _ _ _ _ Hc1) as Hlast. set (p := tail_of h l1) in *.
  assert (Hp : p ∈ h :: l1) by apply tail_in.
  assert (Hnx : exists y, nx m x = Some y /\ y ∈ l2 ++ [h] /\ pv m y = Some x).
  { destruct l2 as [|y l2]; cbn [chain app] in *; [destruct Hc2 as [? ?]; exists h|destruct Hc2 as [[? ?] _]; exists y]; (split; [done|]); (split; [by left|done]). }
  destruct Hnx as (y & Hnx & Hy & Hpy). rewrite Forall_forall in Hk.
  assert (Hkx : KERNEL_BASE <= x) by (apply Hk; right; apply elem_of_app; right; by left).
  assert (Hkp : KERNEL_BASE <= p) by (apply Hk; apply elem_of_cons in Hp as [->|Hp]; [by left|right; apply elem_of_app; by left]).
  assert (Hky : KERNEL_BASE <= y) by (apply Hk; apply elem_of_app in Hy as [Hy| ->%list_elem_of_singleton]; [right; apply elem_of_app; right; by right|by left]).
  assert (Hnd' : NoDup (h :: l1) /\ x ∉ h :: l1 /\ NoDup (x :: l2) /\ (forall a, a ∈ h :: l1 -> a ∉ x :: l2)).
  { rewrite app_comm_cons, NoDup_app in Hnd. destruct Hnd as (N1 & N2 & N3). split; [done|]. split; [|done]. intros Hx. apply (N2 x Hx). by left. }
  destruct Hnd' as (N1 & N2 & N3 & N4). assert (Hpx : p <> x) by (intros E; apply N2; by rewrite <- E).
  assert (Hxy : y <> x). { apply NoDup_cons in N3 as [N3 _]. intros ->. apply elem_of_app in Hy as [Hy|Hy%list_elem_of_singleton]; [done|]. apply N2. rewrite Hy. by left. }
  destruct (nx_hdr _ _ _ Hnx) as (hx & Ex & Exn). assert (Exp : prev hx = p) by (unfold pv in Hlast; rewrite Ex in Hlast; by injection Hlast).
  unfold list_del. unfold KERNEL_BASE in *. rewrite (proj2 (Z.eqb_neq x 0)) by lia. rewrite Ex. cbn [deref]. rewrite ret_bind, Exn, Exp.
  rewrite (proj2 (Z.eqb_neq y 0)), (proj2 (Z.eqb_neq p 0)) by lia. cbn [orb].
  rewrite (proj2 (Z.ltb_ge y _)), (proj2 (Z.ltb_ge p _)) by lia. cbn [orb].
  destruct (pv_hdr _ _ _ Hpy) as (hy & Ey & _). destruct (write_prev_ok m y p hy Ey) as (m1 & -> & A1 & B1 & T1 & F1). rewrite ret_bind.
  destruct (chain_mem _ _ _ _ p Hc1 Hp) as (hp & Ep). destruct (same_tag_hdr m m1 p hp T1 Ep) as (hp1 & Ep1).
  destruct (write_next_ok m1 p y hp1 Ep1) as (m2 & -> & A2 & B2 & T2 & F2). rewrite ret_bind.
  destruct (same_tag_hdr m m1 x hx T1 Ex) as (hx1 & Ex1). destruct (same_tag_hdr m1 m2 x hx1 T2 Ex1) as (hx2 & Ex2).
  destruct (write_next_ok m2 x 0 hx2 Ex2) as (m3 & -> & A3 & B3 & T3 & F3). rewrite ret_bind. destruct (same_tag_hdr m2 m3 x hx2 T3 Ex2) as (hx3 & Ex3).
  destruct (write_prev_ok m3 x 0 hx3 Ex3) as (m4 & -> & A4 & B4 & T4 & F4).
  assert (Nf : forall a, a <> x -> nx m4 a = if decide (a = p) then Some y else nx m a) by (intros a Ha; rewrite A4, A3, decide_False, A2, A1 by done; done).
  assert (Pf : forall a, a <> x -> pv m4 a = if decide (a = y) then Some p else pv m a) by (intros a Ha; rewrite B4, decide_False, B3, B2, B1 by done; done).
  exists m4. split; [done|]. split; [split|split].
  - assert (Hre : chain m4 h l1 y).
    { apply (chain_retarget m m4 h l1 x y Hc1 N1).
      - intros a Ha Hap. rewrite Nf by (intros ->; done). by rewrite decide_False.
      - by rewrite Nf, decide_True.
      - intros a Ha. rewrite Pf by (intros ->; apply N2; by right). rewrite decide_False; [done|]. intros ->.
        apply elem_of_app in Hy as [Hy|Hy%list_elem_of_singleton]; [apply (N4 y); by right|]. subst y. by apply NoDup_cons in N1 as [? _].
      - by rewrite Pf, decide_True. }
    destruct l2 as [|y' l2]; cbn [chain app] in *.
    + apply list_elem_of_singleton in Hy as ->. by rewrite app_nil_r.
    + destruct Hc2 as [[Hy' _] Hc2]. rewrite Hnx in Hy'. injection Hy' as <-. apply chain_app. split; [done|].
      apply (chain_ext m m4 y l2 h Hc2).
      * intros a Ha. assert (a <> x) by (intros ->; by apply NoDup_cons in N3 as [? _]). rewrite Nf by done. rewrite decide_False; [done|].
        intros ->. apply (N4 p Hp). by right.
      * intros a Ha. assert (Hax : a <> x). { intros ->. apply elem_of_app in Ha as [Ha|Ha%list_elem_of_singleton]; [apply NoDup_cons in N3 as [N3 _]; apply N3; by right|]. apply N2. rewrite Ha. by left. }
        rewrite Pf by done. rewrite decide_False; [done|]. intros ->. apply elem_of_app in Ha as [Ha|Ha%list_elem_of_singleton].
        -- apply NoDup_cons in N3 as [_ N3]. by apply NoDup_cons in N3 as [? _].
        -- apply (N4 h); [by left|]. rewrite <- Ha. right. by left.
  - rewrite app_comm_cons. apply NoDup_app. split; [done|]. split; [|by apply NoDup_cons in N3 as [_ ?]]. intros a Ha Hb. apply (N4 a Ha). by right.
  - intros a. by rewrite T4, T3, T2, T1.
  - intros a Ha. rewrite elem_of_cons, elem_of_app, elem_of_cons in Ha.
    assert (a <> p) by (intros ->; apply elem_of_cons in Hp; tauto).
    assert (a <> y) by (intros ->; apply elem_of_app in Hy as [Hy|Hy%list_elem_of_singleton]; tauto). rewrite F4, F3, F2, F1 by tauto. done.
Qed.

Lemma dll_frame m m' h l : dll m h l -> (forall x, x ∈ h :: l -> nx m' x = nx m x /\ pv m' x = pv m x) -> dll m' h l.
Proof.
  intros [Hc Hnd] Hf. split; [|done]. apply (chain_ext m m' h l h Hc); intros x Hx; apply Hf; [done|].
  apply elem_of_app in Hx as [Hx| ->%list_elem_of_singleton]; [by right|by left].
Qed.

Lemma dll_first m h l : dll m h l -> nx m h = Some (match l with [] => h | x :: _ => x end).
Proof. intros [Hc _]. destruct l; cbn [chain] in Hc; [by destruct Hc|by destruct Hc as [[? _] _]]. Qed.

Lemma dll_next m h l1 x l2 : dll m h (l1 ++ x :: l2) -> nx m x = Some (match l2 with [] => h | y :: _ => y end).
Proof. intros [Hc _]. apply chain_app in Hc as [_ Hc]. destruct l2; cbn [chain] in Hc; [by destruct Hc|by destruct Hc as [[? _] _]]. Qed.

(** Every node of a list is linked to a node of the list or the head on both sides. *)
Lemma dll_node m h l1 x l2 : dll m h (l1 ++ x :: l2) -> exists a b, pv m x = Some a /\ nx m x = Some b /\
  nx m a = Some x /\ pv m b = Some x /\ a ∈ h :: l1 /\ b ∈ l2 ++ [h].
Proof.
  intros [Hc _]. apply chain_app in Hc as [Hc1 Hc2]. exists (tail_of h l1).
  assert (Hb : exists b, nx m x = Some b /\ pv m b = Some x /\ b ∈ l2 ++ [h]).
  { destruct l2 as [|y l2]; cbn [chain app] in *; [destruct Hc2 as [? ?]; exists h|destruct Hc2 as [[? ?] _]; exists y]; (split; [done|]); (split; [done|by left]). }
  destruct Hb as (b & ? & ? & ?). exists b. repeat (split; [by eapply chain_last || done|]). split; [|split; [done|split; [apply tail_in|done]]].
  clear -Hc1. revert h Hc1. induction l1 as [|y l1 IH]; intros h Hc; cbn [chain tail_of] in *; [by destruct Hc|]. destruct Hc as [_ Hc]. auto.
Qed.

(** ** Bitmaps *)

Definition bytes (bm : list Z) : Prop := Forall (fun b => 0 <= b < 256) bm.
Definition bit_at (bm : list Z) (i : Z) : bool := Z.testbit (nth (Z.to_nat (i / 8)) bm 0) (i mod 8).
Definition bits (bm : list Z) : Z := 8 * Z.of_nat (length bm).

(** [bm'] is [bm] with the bits between [i] and [j] set to [v]. *)
Definition bits_set (v : bool) (i j : Z) (bm bm' : list Z) : Prop :=
  bytes bm' /\ length bm' = length bm /\
  forall k, 0 <= k -> bit_at bm' k = if (i <=? k) && (k <? j) then v else bit_at bm k.

Lemma bits_set_refl v i j bm : bytes bm -> j <= i -> bits_set v i j bm bm.
Proof. intros Hb Hj. split; [done|]. split; [done|]. intros k Hk. destruct (i <=? k) eqn:?, (k <? j) eqn:?; reify_bools; lia || done. Qed.
Lemma bits_set_trans v i j k bm1 bm2 bm3 : i <= j <= k -> bits_set v i j bm1 bm2 -> bits_set v j k bm2 bm3 -> bits_set v i k bm1 bm3.
Proof.
  intros Hijk (_ & L1 & H1) (B2 & L2 & H2). split; [done|]. split; [congruence|]. intros x Hx. rewrite H2, H1 by done.
  destruct (j <=? x) eqn:?, (x <? k) eqn:?, (i <=? x) eqn:?, (x <? j) eqn:?; reify_bools; cbn; done || lia.
Qed.

Lemma byte_at bm i : 0 <= i < bits bm -> bytes bm -> exists b, arr_get bm (i / 8) = Ret b /\ 0 <= b < 256 /\ nth (Z.to_nat (i / 8)) bm 0 = b /\
  bm !! Z.to_nat (i / 8) = Some b.
Proof.
  unfold bits. intros Hi Hb. assert (Hq : 0 <= i / 8 < Z.of_nat (length bm)) by (split; [apply Z.div_pos; lia|apply Z.div_lt_upper_bound; lia]).
  destruct (lookup_lt_is_Some_2 bm (Z.to_nat (i / 8))) as [b Eb]; [lia|]. exists b. split; [apply arr_get_Some; split; [lia|done]|].
  split; [unfold bytes in Hb; rewrite Forall_lookup in Hb; by eapply Hb|]. split; [|done]. by rewrite nth_lookup, Eb.
Qed.

Lemma land_bit b k : 0 <= k -> nz (Z.land b (Z.shiftl 1 k)) = Z.testbit b k.
Proof. apply nz_bit. Qed.

Lemma pmm_bitmap_test_ok bm i : bytes bm -> 0 <= i < bits bm -> pmm_bitmap_test bm i = Ret (bit_at bm i).
Proof.
  intros Hb Hi. destruct (byte_at bm i Hi Hb) as (b & Eb & _ & Hn & _). unfold pmm_bitmap_test, bit_at. rewrite Eb, ret_bind, Hn.
  rewrite land_bit; [done|]. by apply Z.mod_pos_bound.
Qed.

Lemma update_byte (v : bool) bm i b b' : bytes bm -> 0 <= i < bits bm -> bm !! Z.to_nat (i / 8) = Some b -> 0 <= b' < 256 ->
  (forall k, 0 <= k < 8 -> Z.testbit b' k = if k =? i mod 8 then v else Z.testbit b k) ->
  exists bm', arr_set bm (i / 8) b' = Ret bm' /\ bits_set v i (i + 1) bm bm'.
Proof.
  intros Hb Hi Eb Hb' Hk. unfold bits in Hi.
  assert (Hq : 0 <= i / 8 < Z.of_nat (length bm)) by (split; [apply Z.div_pos; lia|apply Z.div_lt_upper_bound; lia]).
  rewrite arr_set_Ret by done. eexists. split; [done|]. split; [by apply Forall_insert|]. split; [by rewrite length_insert|].
  intros k Hk0. unfold bit_at. rewrite !nth_lookup. pose proof (Z.mod_pos_bound k 8 ltac:(lia)) as Hm. pose proof (Z.div_mod k 8 ltac:(lia)) as Dk.
  pose proof (Z.mod_pos_bound i 8 ltac:(lia)) as Hmi. pose proof (Z.div_mod i 8 ltac:(lia)) as Di.
  destruct (decide (k / 8 = i / 8)) as [E|E].
  - rewrite E, list_lookup_insert_eq by lia. cbn. rewrite Hk by lia. rewrite Eb. cbn.
    destruct (k mod 8 =? i mod 8) eqn:?, (i <=? k) eqn:?, (k <? i + 1) eqn:?; reify_bools; cbn; done || lia.
  - assert (Hq' : 0 <= k / 8) by (apply Z.div_pos; lia). rewrite list_lookup_insert_ne by lia.
    destruct (i <=? k) eqn:?, (k <? i + 1) eqn:?; reify_bools; cbn; try done. exfalso. apply E. f_equal. lia.
Qed.

Lemma byte_bit_range k : 0 <= k < 8 -> 0 <= Z.shiftl 1 k < 256.
Proof. intros Hk. rewrite Z.shiftl_1_l. change 256 with (2 ^ 8). apply bit_below. lia. Qed.
Lemma testbit_shift1 n k : 0 <= n -> Z.testbit (Z.shiftl 1 n) k = (k =? n).
Proof. intros Hn. rewrite Z.shiftl_1_l, Z.pow2_bits_eqb by done. apply Z.eqb_sym. Qed.

Lemma pmm_bitmap_set_ok bm i : bytes bm -> 0 <= i < bits bm -> exists bm', pmm_bitmap_set bm i = Ret bm' /\ bits_set true i (i + 1) bm bm'.
Proof.
  intros Hb Hi. destruct (byte_at bm i Hi Hb) as (b & Eb & Hr & _ & El). unfold pmm_bitmap_set. rewrite Eb, ret_bind.
  pose proof (Z.mod_pos_bound i 8 ltac:(lia)) as Hm. pose proof (byte_bit_range _ Hm) as Hs.
  assert (Hl : 0 <= Z.lor b (Z.shiftl 1 (i mod 8)) < 2 ^ 8) by (apply lor_below; lia).
  apply (update_byte true bm i b); [done|done|done|by rewrite u8_id|]. intros k Hk. rewrite u8_id by done. rewrite Z.lor_spec, testbit_shift1 by lia.
  destruct (k =? i mod 8); [by rewrite orb_true_r|by rewrite orb_false_r].
Qed.
Lemma pmm_bitmap_clear_ok bm i : bytes bm -> 0 <= i < bits bm -> exists bm', pmm_bitmap_clear bm i = Ret bm' /\ bits_set false i (i + 1) bm bm'.
Proof.
  intros Hb Hi. destruct (byte_at bm i Hi Hb) as (b & Eb & Hr & _ & El). unfold pmm_bitmap_clear. rewrite Eb, ret_bind.
  pose proof (Z.mod_pos_bound i 8 ltac:(lia)) as Hm.
  assert (Hl : 0 <= Z.land b (Z.lnot (Z.shiftl 1 (i mod 8))) < 2 ^ 8) by (rewrite Z.land_comm; apply land_below; lia).
  apply (update_byte false bm i b); [done|done|done|by rewrite u8_id|]. intros k Hk. rewrite u8_id by done. rewrite Z.land_spec, Z.lnot_spec, testbit_shift1 by lia.
  destruct (k =? i mod 8); [by rewrite andb_false_r|by rewrite andb_true_r].
Qed.

Section Range.
(** The bit operation and the byte of a range operation. *)
Context (v : bool) (f : list Z -> Z -> outcome (list Z)) (V : Z).
Context (f_ok : forall bm i, bytes bm -> 0 <= i < bits bm -> exists bm', f bm i = Ret bm' /\ bits_set v i (i + 1) bm bm').
Context (V_byte : 0 <= V < 256) (V_ok : forall k, 0 <= k < 8 -> Z.testbit V k = v).

Lemma bits_set_bits i j bm bm' : bits_set v i j bm bm' -> bits bm' = bits bm.
Proof. intros (_ & L & _). unfold bits. by rewrite L. Qed.

Lemma bits_below_ok fuel : forall bm i j, bytes bm -> 0 <= i <= j -> j <= bits bm -> j - i < Z.of_nat fuel ->
  exists bm', bits_below fuel f bm i j = Ret bm' /\ bits_set v i j bm bm'.
Proof.
  induction fuel as [|fuel IH]; intros bm i j Hb Hi Hj Hf; [lia|]. cbn [bits_below]. destruct (i <? j) eqn:?; reify_bools.
  - destruct (f_ok bm i Hb) as (bm1 & -> & H1); [lia|]. rewrite ret_bind. pose proof (bits_set_bits _ _ _ _ H1) as L1.
    destruct (IH bm1 (i + 1) j) as (bm2 & -> & H2); [apply H1|lia|lia|lia|]. exists bm2. split; [done|]. by apply (bits_set_trans v i (i + 1) j bm bm1 bm2); [lia| |].
  - exists bm. split; [done|]. apply bits_set_refl; [done|lia].
Qed.

Lemma bits_unaligned_ok fuel : forall bm i j, bytes bm -> 0 <= i <= j -> j <= bits bm -> (- i) mod 8 < Z.of_nat fuel ->
  exists bm' k, bits_unaligned fuel f bm i j = Ret (bm', k) /\ bits_set v i k bm bm' /\ i <= k <= j /\ (k mod 8 = 0 \/ k = j).
Proof.
  induction fuel as [|fuel IH]; intros bm i j Hb Hi Hj Hf; [pose proof (Z.mod_pos_bound (- i) 8 ltac:(lia)); lia|]. cbn [bits_unaligned].
  destruct (i <? j) eqn:?, (i mod 8 =? 0) eqn:?; reify_bools; cbn [negb andb].
  1, 3, 4: exists bm, i; split; [done|]; split; [apply bits_set_refl; [done|lia]|]; split; [lia|]; tauto || (right; lia).
  destruct (f_ok bm i Hb) as (bm1 & -> & H1); [lia|]. rewrite ret_bind. pose proof (bits_set_bits _ _ _ _ H1) as L1.
  destruct (IH bm1 (i + 1) j) as (bm2 & k & -> & H2 & Hk & Hd); [apply H1|lia|lia| |].
  - pose proof (Z.div_mod (- i) 8 ltac:(lia)). pose proof (Z.mod_pos_bound (- i) 8 ltac:(lia)). pose proof (Z.div_mod (- (i + 1)) 8 ltac:(lia)).
    pose proof (Z.mod_pos_bound (- (i + 1)) 8 ltac:(lia)). pose proof (Z.div_mod i 8 ltac:(lia)). pose proof (Z.mod_pos_bound i 8 ltac:(lia)). lia.
  - exists bm2, k. split; [done|]. split; [|split; [lia|done]]. apply (bits_set_trans v i (i + 1) k bm bm1 bm2); [lia|done|done].
Qed.

Lemma memset_ok bm off n : bytes bm -> 0 <= off -> 0 <= n -> off + n <= Z.of_nat (length bm) ->
  exists bm', memset bm off V n = Ret bm' /\ bits_set v (8 * off) (8 * (off + n)) bm bm'.
Proof.
  intros Hb Ho Hn Hl. unfold memset. rewrite (proj2 (Z.leb_le 0 off)), (proj2 (Z.leb_le (off + n) _)) by lia. cbn [andb]. eexists. split; [done|].
  assert (Hlen : length (take (Z.to_nat off) bm ++ replicate (Z.to_nat n) V ++ drop (Z.to_nat (off + n)) bm) = length bm).
  { rewrite !length_app, length_take, length_replicate, length_drop. lia. }
  split; [|split; [done|]].
  - unfold bytes. rewrite !Forall_app. split; [by apply Forall_take|]. split; [by apply Forall_replicate|by apply Forall_drop].
  - intros k Hk. unfold bit_at. rewrite !nth_lookup. pose proof (Z.mod_pos_bound k 8 ltac:(lia)) as Hm. pose proof (Z.div_mod k 8 ltac:(lia)) as Dk.
    assert (Hq : 0 <= k / 8) by (apply Z.div_pos; lia).
    destruct (8 * off <=? k) eqn:?, (k <? 8 * (off + n)) eqn:?; reify_bools; cbn [andb].
    + rewrite lookup_app_r by (rewrite length_take; lia). rewrite length_take, lookup_app_l by (rewrite length_replicate; lia).
      rewrite lookup_replicate_2 by lia. cbn. by apply V_ok.
    + rewrite lookup_app_r by (rewrite length_take; lia). rewrite length_take, lookup_app_r by (rewrite length_replicate; lia).
      rewrite length_replicate, lookup_drop. f_equal. f_equal. f_equal. lia.
    + rewrite lookup_app_l by (rewrite length_take; lia). rewrite lookup_take_lt by lia. done.
    + lia.
Qed.

Lemma bitmap_range_ok lowest highest bm s c : bytes bm -> 0 <= lowest <= s -> 0 < c -> s + c <= highest -> highest < 2 ^ 64 -> highest - lowest <= bits bm ->
  exists bm', bitmap_range lowest highest f V bm s c = Ret bm' /\ bits_set v (s - lowest) (s - lowest + c) bm bm'.
Proof.
  intros Hb Hs Hc Hh Hmax Hbits. unfold bitmap_range. destruct (s <? lowest) eqn:?, (s >=? highest) eqn:?; reify_bools; try lia.
  rewrite u64_id by lia. destruct (s + c >? highest) eqn:?; reify_bools; [lia|].
  destruct (bits_unaligned_ok 8 bm (s - lowest) (s - lowest + c) Hb) as (bm1 & k & -> & H1 & Hk & Hd); [lia|lia|pose proof (Z.mod_pos_bound (- (s - lowest)) 8); lia|].
  rewrite ret_bind. cbn beta iota. set (i := s - lowest) in *. set (j := i + c) in *. pose proof (bits_set_bits _ _ _ _ H1) as L1.
  assert (Hmid : exists bm2 k2, (if j >? k then
        if (j - k) / 8 >? 0 then bm ← memset bm1 (k / 8) V ((j - k) / 8); Ret (bm, k + (j - k) / 8 * 8) else Ret (bm1, k) else Ret (bm1, k)) = Ret (bm2, k2) /\
      bits_set v k k2 bm1 bm2 /\ k <= k2 <= j /\ j - k2 < 8).
  { destruct (j >? k) eqn:?; reify_bools; [|exists bm1, k; split; [done|]; split; [apply bits_set_refl; [apply H1|lia]|lia]].
    destruct Hd as [Hd|Hd]; [|lia]. pose proof (Z.div_mod (j - k) 8 ltac:(lia)). pose proof (Z.mod_pos_bound (j - k) 8 ltac:(lia)).
    destruct ((j - k) / 8 >? 0) eqn:?; reify_bools; [|exists bm1, k; split; [done|]; split; [apply bits_set_refl; [apply H1|lia]|lia]].
    pose proof (Z.div_mod k 8 ltac:(lia)). assert (0 <= k / 8) by (apply Z.div_pos; lia). unfold bits in *.
    destruct (memset_ok bm1 (k / 8) ((j - k) / 8)) as (bm2 & -> & Hset2); [apply H1|lia|lia|lia|]. rewrite ret_bind. exists bm2, (k + (j - k) / 8 * 8).
    split; [done|]. split; [|lia]. replace k with (8 * (k / 8)) at 1 by lia. replace (k + (j - k) / 8 * 8) with (8 * (k / 8 + (j - k) / 8)) by lia. done. }
  destruct Hmid as (bm2 & k2 & -> & H2 & Hk2 & Hlt). rewrite ret_bind. cbn beta iota. pose proof (bits_set_bits _ _ _ _ H2) as L2.
  destruct (bits_below_ok 8 bm2 k2 j) as (bm3 & -> & H3); [apply H2|lia|lia|lia|]. exists bm3. split; [done|].
  apply (bits_set_trans v i k j bm bm1 bm3); [lia|done|]. by apply (bits_set_trans v k k2 j bm1 bm2 bm3); [lia| |].
Qed.
End Range.

Lemma set_range_ok lowest highest bm s c : bytes bm -> 0 <= lowest <= s -> 0 < c -> s + c <= highest -> highest < 2 ^ 64 -> highest - lowest <= bits bm ->
  exists bm', pmm_bitmap_set_range lowest highest bm s c = Ret bm' /\ bits_set true (s - lowest) (s - lowest + c) bm bm'.
Proof.
  apply bitmap_range_ok; [apply pmm_bitmap_set_ok|lia|]. intros k Hk. change 0xFF with (Z.ones 8). by apply Z.ones_spec_low.
Qed.
Lemma clear_range_ok lowest highest bm s c : bytes bm -> 0 <= lowest <= s -> 0 < c -> s + c <= highest -> highest < 2 ^ 64 -> highest - lowest <= bits bm ->
  exists bm', pmm_bitmap_clear_range lowest highest bm s c = Ret bm' /\ bits_set false (s - lowest) (s - lowest + c) bm bm'.
Proof. apply bitmap_range_ok; [apply pmm_bitmap_clear_ok|lia|]. intros k Hk. apply Z.bits_0. Qed.

(** A range that need not be inside the bitmap is cut off. *)
Lemma set_range_any lowest highest bm s c : bytes bm -> 0 <= lowest -> 0 <= s -> 0 <= c -> s + c < 2 ^ 64 -> highest < 2 ^ 64 -> highest - lowest <= bits bm ->
  exists bm', pmm_bitmap_set_range lowest highest bm s c = Ret bm' /\ bytes bm' /\ length bm' = length bm /\
    forall k, 0 <= k -> bit_at bm' k = true -> bit_at bm k = true \/ (s <= k + lowest < s + c /\ k + lowest < highest).
Proof.
  intros Hb Hl Hs Hc Hsc Hh Hbits. assert (Hid : exists bm', Ret bm = Ret bm' /\ bytes bm' /\ length bm' = length bm /\ forall k, 0 <= k -> bit_at bm' k = true -> bit_at bm k = true \/ (s <= k + lowest < s + c /\ k + lowest < highest)).
  { exists bm. repeat (split; [done|]). by left. }
  destruct (decide (s < lowest \/ highest <= s)) as [Hout|Hin].
  { unfold pmm_bitmap_set_range, bitmap_range. destruct (s <? lowest) eqn:?; [done|]. destruct (s >=? highest) eqn:?; [done|]. reify_bools. lia. }
  set (c' := if s + c >? highest then highest - s else c). assert (E : pmm_bitmap_set_range lowest highest bm s c = pmm_bitmap_set_range lowest highest bm s c').
  { unfold pmm_bitmap_set_range, bitmap_range. rewrite !u64_id by (subst c'; destruct (s + c >? highest) eqn:?; reify_bools; lia). fold c'. subst c'. destruct (s + c >? highest) eqn:?; [|by rewrite Heqb].
    replace (s + (highest - s)) with highest by lia. by rewrite Z.gtb_ltb, Z.ltb_irrefl. }
  assert (Hc' : 0 <= c' <= c /\ s + c' <= highest) by (subst c'; destruct (s + c >? highest) eqn:?; reify_bools; lia). rewrite E. destruct (decide (c' = 0)) as [E0|E0].
  - rewrite E0. unfold pmm_bitmap_set_range, bitmap_range. destruct (s <? lowest) eqn:?, (s >=? highest) eqn:?; reify_bools; try lia. rewrite u64_id by lia.
    destruct (s + 0 >? highest) eqn:?; reify_bools; [lia|]. cbn [bits_unaligned]. rewrite Z.add_0_r, Z.ltb_irrefl. cbn [andb]. rewrite ret_bind. cbn beta iota. rewrite Z.gtb_ltb, Z.ltb_irrefl, ret_bind.
    cbn beta iota. cbn [bits_below]. by rewrite Z.ltb_irrefl.
  - destruct (set_range_ok lowest highest bm s c' Hb) as (bm' & -> & B1 & B2 & B3); [lia..|]. exists bm'. repeat (split; [done|]). intros k Hk. rewrite B3 by done.
    destruct (s - lowest <=? k) eqn:?, (k <? s - lowest + c') eqn:?; reify_bools; cbn [andb]; try (by left). intros _. right. lia.
Qed.

End PmmLists.
