(* ===== verification/PmmBuddy.v ===== *)
(** PmmBuddy: the buddy allocator of [Pmm] against the set of free pages.

    [core] is the invariant while the zone's lock is held, for the free lists
    [fl] as sequences of page frame numbers: the lists are well linked, the
    headers in the free pages are right and no other page carries the tag of a
    zone, blocks are aligned, inside the managed range, free in the bitmap and
    disjoint, and the counters agree with the lists. [inv] adds what holds
    between calls: the free pages of the bitmap are exactly those of the lists,
    and the published count is current. *)

From S2P Require Import Prelude Pmm PmmLists.
From stdpp Require Import list_relations.
#[local] Open Scope Z_scope.

Module PmmBuddy.
Import Pmm PmmLists.

(** Free lists, by zone and order. *)
Definition lists := nat -> Z -> list Z.
Definition upd (fl : lists) (n : nat) (o : Z) (l : list Z) : lists :=
  fun n' o' => if decide (n' = n /\ o' = o) then l else fl n' o'.
Lemma fl_upd_eq fl n o l : upd fl n o l n o = l.
Proof. unfold upd. by rewrite decide_True. Qed.
Lemma fl_upd_ne fl n o l n' o' : ~ (n' = n /\ o' = o) -> upd fl n o l n' o' = fl n' o'.
Proof. intros H. unfold upd. by rewrite decide_False. Qed.

Definition pages (l : list Z) (o : Z) : Z := Z.of_nat (length l) * 2 ^ o.
Fixpoint psum_below (k : nat) (fl : lists) (n : nat) : Z :=
  match k with O => 0 | S k => psum_below k fl n + pages (fl n (Z.of_nat k)) (Z.of_nat k) end.
Definition psum (fl : lists) (n : nat) : Z := psum_below 20 fl n.

Lemma psum_below_upd k fl n o l : 0 <= o -> psum_below k (upd fl n o l) n =
  psum_below k fl n + (if o <? Z.of_nat k then pages l o - pages (fl n o) o else 0).
Proof.
  intros Ho. induction k as [|k IH]; cbn [psum_below]; [destruct (o <? Z.of_nat 0) eqn:?; reify_bools; lia|]. rewrite IH.
  destruct (decide (o = Z.of_nat k)) as [->|Hne].
  - rewrite fl_upd_eq. rewrite Z.ltb_irrefl. rewrite (proj2 (Z.ltb_lt _ _)) by lia. lia.
  - rewrite fl_upd_ne by (intros [_ ?]; congruence). destruct (o <? Z.of_nat k) eqn:?, (o <? Z.of_nat (S k)) eqn:?; reify_bools; lia.
Qed.
Lemma psum_upd fl n o l : 0 <= o < 20 -> psum (upd fl n o l) n = psum fl n + (pages l o - pages (fl n o) o).
Proof. intros Ho. unfold psum. rewrite psum_below_upd by lia. by rewrite (proj2 (Z.ltb_lt o (Z.of_nat 20))) by lia. Qed.
Lemma psum_below_other k fl n o l n' : n' <> n -> psum_below k (upd fl n o l) n' = psum_below k fl n'.
Proof. intros Hn. induction k as [|k IH]; cbn [psum_below]; [done|]. by rewrite IH, fl_upd_ne by tauto. Qed.
Lemma psum_other fl n o l n' : n' <> n -> psum (upd fl n o l) n' = psum fl n'.
Proof. apply psum_below_other. Qed.

(** The pages of a block. *)
Definition within (b o i : Z) : Prop := b <= i < b + 2 ^ o.
Definition covered (fl : lists) (i : Z) : Prop := exists n o b, b ∈ fl n o /\ within b o i.

Section Buddy.
Context (lowest highest hhdm : Z).
Notation page_at := (page_at hhdm).

Definition in_range (i : Z) : Prop := lowest <= i < highest.
Definition mbit (s : pmm) (i : Z) : bool := bit_at (managed s) (i - lowest).
Definition ubit (s : pmm) (i : Z) : bool := bit_at (bitmap s) (i - lowest).

(** The machine: memory below 2^52 pages, the direct map in the kernel half and
    aligned to the largest block. *)
Record config : Prop := mk_config {
  cfg_low : 0 <= lowest <= highest;
  cfg_top : hhdm + highest * PAGE_SIZE < 2 ^ 64;
  cfg_hhdm : KERNEL_BASE <= hhdm;
  cfg_align : (2 ^ 31 | hhdm) }.

Record core (s : pmm) (fl : lists) : Prop := mk_core {
  c_bm : bytes (bitmap s) /\ page_count lowest highest <= bits (bitmap s);
  c_mg : bytes (managed s) /\ page_count lowest highest <= bits (managed s);
  c_ref : Z.of_nat (length (refcounts s)) = page_count lowest highest;
  c_zone : forall n z, zones s !! n = Some z -> length (free_blocks z) = 20%nat /\ length (trace z) = 64%nat /\ zmagic z <> 0 /\
    (forall o, 0 <= o < 20 -> free_blocks z !! Z.to_nat o = Some (u64 (Z.of_nat (length (fl n o))))) /\
    pages_in_lists z = u64 (psum fl n);
  c_heads : forall n z o, zones s !! n = Some z -> 0 <= o < 20 -> KERNEL_BASE <= head_of z o /\ forall i, in_range i -> head_of z o <> page_at i;
  c_inj : forall n z o n' z' o', zones s !! n = Some z -> zones s !! n' = Some z' -> 0 <= o < 20 -> 0 <= o' < 20 ->
    head_of z o = head_of z' o' -> n = n' /\ o = o';
  c_magics : forall n z n' z', zones s !! n = Some z -> zones s !! n' = Some z' -> zmagic z = zmagic z' -> n = n';
  c_mem : forall i, in_range i -> mbit s i = true -> exists h, mem s !! page_at i = Some h;
  c_dll : forall n z o, zones s !! n = Some z -> 0 <= o < 20 -> dll (mem s) (head_of z o) (map page_at (fl n o));
  c_block : forall n o b, b ∈ fl n o -> exists z, zones s !! n = Some z /\ 0 <= o < 20 /\ (2 ^ o | b) /\ lowest <= b /\ b + 2 ^ o <= highest /\
    (forall i, within b o i -> mbit s i = true /\ ubit s i = false) /\ tag (mem s) (page_at b) = Some (o, zmagic z);
  c_disj : forall n o b n' o' b' i, b ∈ fl n o -> b' ∈ fl n' o' -> within b o i -> within b' o' i -> n = n' /\ o = o' /\ b = b';
  c_tag : forall n z i o, zones s !! n = Some z -> in_range i -> mbit s i = true -> tag (mem s) (page_at i) = Some (o, zmagic z) -> i ∈ fl n o }.

Context (Hcfg : config).

(** ** Addresses *)

Lemma page_at_eq i : in_range i -> page_at i = i * PAGE_SIZE + hhdm.
Proof.
  intros Hi. destruct Hcfg as [H1 H2 H3 _]. unfold Pmm.page_at, virt_to_buddy, in_range, PAGE_SIZE, KERNEL_BASE in *. apply u64_id. lia.
Qed.
Lemma page_at_inj i j : in_range i -> in_range j -> page_at i = page_at j -> i = j.
Proof. intros Hi Hj. rewrite !page_at_eq by done. unfold PAGE_SIZE. lia. Qed.
Lemma page_at_kernel i : in_range i -> KERNEL_BASE <= page_at i.
Proof. intros Hi. rewrite page_at_eq by done. destruct Hcfg as [H1 H2 H3 _]. unfold in_range, PAGE_SIZE in *. lia. Qed.
Lemma page_at_phys i : in_range i -> buddy_to_phys hhdm (page_at i) = i * PAGE_SIZE.
Proof.
  intros Hi. rewrite page_at_eq by done. destruct Hcfg as [H1 H2 H3 _]. unfold buddy_to_phys, in_range, PAGE_SIZE, KERNEL_BASE in *.
  rewrite u64_id; lia.
Qed.
Lemma phys_pfn i : i * PAGE_SIZE / PAGE_SIZE = i.
Proof. apply Z.div_mul. done. Qed.

Lemma is_managed_ok s fl i : core s fl -> pmm_is_managed lowest highest s (i * PAGE_SIZE) = Ret (if decide (in_range i) then mbit s i else false).
Proof.
  intros C. destruct (c_mg _ _ C) as [Hb Hl]. unfold pmm_is_managed. rewrite phys_pfn. unfold in_range.
  destruct (i <? lowest) eqn:?, (i >=? highest) eqn:?; reify_bools; cbn [orb]; destruct (decide _); try lia; try done.
  apply pmm_bitmap_test_ok; [done|]. unfold page_count in Hl. lia.
Qed.
Lemma ptr_managed_ok s fl i : core s fl -> in_range i -> pmm_kernel_ptr_is_managed lowest highest hhdm s (page_at i) = Ret (mbit s i).
Proof.
  intros C Hi. pose proof (page_at_kernel i Hi) as Hk. pose proof (page_at_eq i Hi) as E. destruct Hcfg as [H1 H2 H3 _]. unfold pmm_kernel_ptr_is_managed.
  unfold in_range, PAGE_SIZE, KERNEL_BASE in *. rewrite (proj2 (Z.eqb_neq _ 0)), (proj2 (Z.ltb_ge _ _)) by lia. cbn [orb].
  replace (page_at i - hhdm) with (i * PAGE_SIZE) by (unfold PAGE_SIZE; lia). rewrite (is_managed_ok s fl) by done. by rewrite decide_True.
Qed.
Lemma bitmap_test_ok s fl i : core s fl -> in_range i -> pmm_bitmap_test (bitmap s) (i - lowest) = Ret (ubit s i).
Proof. intros C Hi. destruct (c_bm _ _ C) as [Hb Hl]. apply pmm_bitmap_test_ok; [done|]. unfold in_range, page_count in *. lia. Qed.

Lemma land_aligned a k : 0 <= k -> (2 ^ k | a) -> Z.land a (2 ^ k - 1) = 0.
Proof. intros Hk Ha. rewrite land_ones_small by done. by apply Z.mod_divide; [apply Z.pow_nonzero|]. Qed.
Lemma page_aligned i k : in_range i -> 0 <= k < 20 -> (2 ^ k | i) -> (2 ^ (k + 12) | page_at i).
Proof.
  intros Hi Hk [c ->]. rewrite page_at_eq by done. destruct Hcfg as [_ _ _ [d ->]]. exists (c + d * 2 ^ (31 - (k + 12))). unfold PAGE_SIZE.
  rewrite Z.mul_add_distr_r, <- (Z.mul_assoc d), <- Z.pow_add_r by lia. replace (31 - (k + 12) + (k + 12)) with 31 by lia.
  rewrite Z.pow_add_r by lia. change (2 ^ 12) with 4096. lia.
Qed.

Lemma block_range s fl n o b i : core s fl -> b ∈ fl n o -> within b o i -> in_range i /\ mbit s i = true /\ ubit s i = false.
Proof. intros C Hb Hi. destruct (c_block _ _ C _ _ _ Hb) as (z & _ & Ho & _ & H1 & H2 & H3 & _). split; [unfold within, in_range in *; lia|]. by apply H3. Qed.
Lemma within_first b o : 0 <= o -> within b o b.
Proof. intros Ho. unfold within. pose proof (Z.pow_pos_nonneg 2 o). lia. Qed.
Lemma block_first s fl n o b : core s fl -> b ∈ fl n o -> in_range b /\ mbit s b = true /\ ubit s b = false.
Proof.
  intros C Hb. apply (block_range s fl n o b b C Hb). destruct (c_block _ _ C _ _ _ Hb) as (z & _ & Ho & _). apply within_first. lia.
Qed.
Lemma addr_in s fl n o i : core s fl -> in_range i -> page_at i ∈ map page_at (fl n o) -> i ∈ fl n o.
Proof.
  intros C Hi Hin. apply list_elem_of_fmap in Hin as (j & E & Hj). destruct (block_first _ _ _ _ _ C Hj) as [Hrj _].
  by rewrite (page_at_inj _ _ Hi Hrj E).
Qed.

(** ** The validity check *)

Lemma readable_ok s fl n z o a : core s fl -> zones s !! n = Some z -> 0 <= o < 20 -> a ∈ head_of z o :: map page_at (fl n o) ->
  buddy_link_readable lowest highest hhdm s a (head_of z o) = Ret true.
Proof.
  intros C Ez Ho Ha. unfold buddy_link_readable. destruct (a =? head_of z o) eqn:E; [done|]. reify_bools.
  apply elem_of_cons in Ha as [?|Ha]; [done|]. apply list_elem_of_fmap in Ha as (b & -> & Hb). destruct (block_first _ _ _ _ _ C Hb) as (Hr & Hm & _).
  change (PAGE_SIZE - 1) with (2 ^ 12 - 1). rewrite (land_aligned (page_at b) 12); [|lia|apply (page_aligned b 0 Hr); [lia|apply Z.divide_1_l]].
  rewrite (ptr_managed_ok s fl) by done. by rewrite Hm.
Qed.

Lemma node_valid_ok s fl n z o i : core s fl -> zones s !! n = Some z -> 0 <= o < 20 -> in_range i -> mbit s i = true -> (2 ^ o | i) ->
  buddy_zone_node_valid lowest highest hhdm n (page_at i) o s = Ret (bool_decide (i ∈ fl n o)).
Proof.
  intros C Ez Ho Hi Hm Ha. unfold buddy_zone_node_valid, zone_at. rewrite Ez. cbn [deref]. rewrite ret_bind.
  pose proof (page_at_kernel i Hi) as Hk. unfold KERNEL_BASE in Hk. rewrite (proj2 (Z.eqb_neq _ 0)) by lia. rewrite (ptr_managed_ok s fl) by done. rewrite Hm, ret_bind. cbn [negb].
  rewrite Z.shiftl_1_l, (land_aligned (page_at i) (o + 12)); [|lia|by apply page_aligned]. cbn [nz Z.eqb negb].
  destruct (c_mem _ _ C i Hi Hm) as [h Eh]. rewrite Eh. cbn [deref]. rewrite ret_bind.
  destruct (order h =? o) eqn:Eo; reify_bools; cbn [negb].
  2: { f_equal. symmetry. apply bool_decide_eq_false. intros Hin. destruct (c_block _ _ C _ _ _ Hin) as (z' & _ & _ & _ & _ & _ & _ & Ht).
       unfold tag in Ht. rewrite Eh in Ht. cbn in Ht. congruence. }
  destruct (magic h =? zmagic z) eqn:Em; reify_bools; cbn [negb].
  2: { f_equal. symmetry. apply bool_decide_eq_false. intros Hin. destruct (c_block _ _ C _ _ _ Hin) as (z' & Ez' & _ & _ & _ & _ & _ & Ht).
       unfold tag in Ht. rewrite Eh in Ht. cbn in Ht. congruence. }
  assert (Hin : i ∈ fl n o) by (apply (c_tag _ _ C n z i o Ez Hi Hm); unfold tag; rewrite Eh; cbn; by rewrite Eo, Em).
  fold (buddy_to_phys hhdm (page_at i)). rewrite page_at_phys, phys_pfn by done. unfold in_range in Hi.
  destruct (i <? lowest) eqn:?, (i >=? highest) eqn:?; reify_bools; try lia. cbn [orb]. rewrite (bitmap_test_ok s fl), ret_bind by done.
  destruct (block_first _ _ _ _ _ C Hin) as (_ & _ & ->). pose proof (c_dll _ _ C n z o Ez Ho) as D.
  pose proof Hin as Hin'. apply (list_elem_of_split) in Hin' as (l1 & l2 & E). pose proof D as D'. rewrite E, map_app in D'. cbn [map] in D'.
  apply dll_node in D' as (a & b & Pa & Nb & Na & Pb & Ha' & Hb'). unfold pv in Pa. unfold nx in Nb. rewrite Eh in Pa, Nb. injection Pa as Pa. injection Nb as Nb.
  rewrite Pa, Nb. rewrite (readable_ok s fl n z o b C Ez Ho).
  2: { rewrite E, map_app. cbn [map]. rewrite elem_of_app, list_elem_of_singleton in Hb'. rewrite elem_of_cons, elem_of_app, elem_of_cons. tauto. }
  rewrite ret_bind. cbn [negb]. rewrite (readable_ok s fl n z o a C Ez Ho).
  2: { rewrite E, map_app. rewrite elem_of_cons in Ha'. rewrite elem_of_cons, elem_of_app. tauto. }
  rewrite ret_bind. cbn [negb]. destruct (pv_hdr _ _ _ Pb) as (hb & -> & Ehb). destruct (nx_hdr _ _ _ Na) as (ha & -> & Eha). cbn [deref]. rewrite !ret_bind.
  rewrite Ehb, Eha, Z.eqb_refl. f_equal. symmetry. by apply bool_decide_eq_true.
Qed.

(** ** Linking and unlinking *)

(** The rest of the state; a step of zone [n] leaves other zones alone. *)
Record frame (n : nat) (s s' : pmm) : Prop := mk_frame {
  f_bitmap : bitmap s' = bitmap s; f_managed : managed s' = managed s; f_refs : refcounts s' = refcounts s; f_reports : reports s' = reports s;
  f_zone : forall z, zones s !! n = Some z -> exists z', zones s' !! n = Some z' /\ heads z' = heads z /\ zmagic z' = zmagic z /\ free_pages z' = free_pages z;
  f_others : forall n', n' <> n -> zones s' !! n' = zones s !! n' }.

Lemma frame_refl n s : frame n s s.
Proof. constructor; eauto. Qed.
Lemma frame_trans n s1 s2 s3 : frame n s1 s2 -> frame n s2 s3 -> frame n s1 s3.
Proof.
  intros [A1 A2 A3 A4 A5 A6] [B1 B2 B3 B4 B5 B6]. constructor; try congruence.
  - intros z Ez. destruct (A5 z Ez) as (z1 & E1 & H1 & H2 & H3). destruct (B5 z1 E1) as (z2 & E2 & H4 & H5 & H6). exists z2. split; [done|]. split; [congruence|]. split; congruence.
  - intros n' Hn. by rewrite B6, A6.
Qed.

(** Headers of pages outside [P] are not written. *)
Definition quiet (P : Z -> Prop) (s s' : pmm) : Prop := forall i, in_range i -> ~ P i -> mem s' !! page_at i = mem s !! page_at i.
Lemma quiet_trans P s1 s2 s3 : quiet P s1 s2 -> quiet P s2 s3 -> quiet P s1 s3.
Proof. intros H1 H2 i Hi Hn. by rewrite H2, H1. Qed.
Lemma quiet_mono (P Q : Z -> Prop) s1 s2 : quiet P s1 s2 -> (forall i, P i -> Q i) -> quiet Q s1 s2.
Proof. intros H HP i Hi Hn. apply H; [done|]. auto. Qed.

Lemma account_ok s n z o old new : zones s !! n = Some z -> 0 <= o < 20 -> length (free_blocks z) = 20%nat -> free_blocks z !! Z.to_nat o = Some old ->
  exists z', buddy_list_account n o new s = Ret (set_zone n z' s) /\ heads z' = heads z /\ zmagic z' = zmagic z /\ free_pages z' = free_pages z /\ trace z' = trace z /\
    free_blocks z' = <[Z.to_nat o := new]> (free_blocks z) /\
    (pages_in_lists z' = pages_in_lists z /\ old = new \/ pages_in_lists z' = u64 (pages_in_lists z - old * 2 ^ o + new * 2 ^ o)).
Proof.
  intros Ez Ho Hlen Hold. unfold buddy_list_account, zone_at. rewrite Ez. cbn [deref]. rewrite ret_bind.
  assert (Hg : arr_get (free_blocks z) o = Ret old) by (apply arr_get_Some; split; [lia|done]). rewrite Hg, ret_bind. destruct (old =? new) eqn:E; reify_bools.
  - exists z. subst new. split; [unfold set_zone; rewrite list_insert_id by done; by destruct s|]. repeat (split; [done|]). split; [by rewrite list_insert_id|]. by left.
  - rewrite arr_set_Ret by lia. rewrite ret_bind. eexists. split; [done|]. cbn. repeat (split; [done|]). right.
    rewrite !Z.shiftl_mul_pow2 by lia. unfold u64. rewrite Zplus_mod_idemp_r, Zplus_mod_idemp_l, <- Zplus_mod_idemp_l, Zminus_mod_idemp_r, Zplus_mod_idemp_l. done.
Qed.

Definition disjoint (fl : lists) : Prop :=
  forall n o b n' o' b' i, b ∈ fl n o -> b' ∈ fl n' o' -> within b o i -> within b' o' i -> n = n' /\ o = o' /\ b = b'.

(** A step that replaces the list of one order by [l'], writing only to the head
    and the pages of the old and the new list. *)
Lemma core_update s fl n z o l' m' z' (fl' := upd fl n o l') (s' := set_zone n z' (set_mem m' s)) :
  core s fl -> zones s !! n = Some z -> 0 <= o < 20 ->
  heads z' = heads z -> zmagic z' = zmagic z -> trace z' = trace z ->
  free_blocks z' = <[Z.to_nat o := u64 (Z.of_nat (length l'))]> (free_blocks z) -> pages_in_lists z' = u64 (psum fl' n) ->
  dll m' (head_of z o) (map page_at l') ->
  (forall x, x ∉ head_of z o :: map page_at (fl n o ++ l') -> m' !! x = mem s !! x) ->
  (forall x h, mem s !! x = Some h -> exists h', m' !! x = Some h') ->
  (forall b, b ∈ l' -> (2 ^ o | b) /\ lowest <= b /\ b + 2 ^ o <= highest /\ (forall i, within b o i -> mbit s i = true /\ ubit s i = false) /\
     tag m' (page_at b) = Some (o, zmagic z)) ->
  disjoint fl' ->
  (forall n0 z0 i o0, zones s !! n0 = Some z0 -> in_range i -> mbit s i = true -> tag m' (page_at i) = Some (o0, zmagic z0) -> i ∈ fl' n0 o0) ->
  core s' fl'.
Proof.
  intros C Ez Ho Eh Em Et Ef Ep D Fr Dom Bl Dj Tg.
  assert (Hn : (n < length (zones s))%nat) by (by eapply lookup_lt_Some).
  assert (Zs : forall n0 z0, zones s' !! n0 = Some z0 -> exists z1, zones s !! n0 = Some z1 /\ heads z0 = heads z1 /\ zmagic z0 = zmagic z1 /\ (n0 <> n -> z0 = z1) /\ (n0 = n -> z0 = z')).
  { intros n0 z0 E0. cbn in E0. destruct (decide (n0 = n)) as [->|Hne].
    - rewrite list_lookup_insert_eq in E0 by done. injection E0 as <-. exists z. by repeat split.
    - rewrite list_lookup_insert_ne in E0 by done. exists z0. by repeat split. }
  assert (Rl : forall b, b ∈ fl n o ++ l' -> in_range b).
  { intros b [Hb|Hb]%elem_of_app; [by apply (block_first s fl n o b C)|]. destruct (Bl b Hb) as (_ & ? & ? & _). pose proof (Z.pow_pos_nonneg 2 o). unfold in_range. lia. }
  assert (Other : forall n0 o0 b, ~ (n0 = n /\ o0 = o) -> b ∈ fl n0 o0 -> b ∉ fl n o ++ l').
  { intros n0 o0 b Hne Hb Hin. assert (W : within b o0 b /\ within b o b) by (destruct (c_block _ _ C _ _ _ Hb) as (? & _ & ? & _); split; apply within_first; lia).
    apply Hne. apply elem_of_app in Hin as [Hin|Hin].
    - by destruct (c_disj _ _ C n0 o0 b n o b b Hb Hin (proj1 W) (proj2 W)) as (? & ? & _).
    - destruct (Dj n0 o0 b n o b b) as (? & ? & _); unfold fl'; try tauto; [by rewrite fl_upd_ne|by rewrite fl_upd_eq]. }
  assert (Fp : forall i, in_range i -> i ∉ fl n o ++ l' -> m' !! page_at i = mem s !! page_at i).
  { intros i Hi Hin. apply Fr. intros [E|Hx]%elem_of_cons; [by destruct (c_heads _ _ C n z o Ez Ho) as [_ Hp]; apply (Hp i Hi)|].
    apply list_elem_of_fmap in Hx as (j & E & Hj). apply Hin. by rewrite (page_at_inj _ _ Hi (Rl j Hj) E). }
  destruct C as [C1 C2 C3 C4 C5 C6 C7 C8 C9 C10 C11 C12]. constructor; try done.
  - intros n0 z0 E0. destruct (Zs _ _ E0) as (z1 & E1 & _ & Hmg & Hne & Heq). destruct (C4 n0 z1 E1) as (L1 & L2 & L3 & L4 & L5).
    destruct (decide (n0 = n)) as [->|Hnn].
    + rewrite (Heq eq_refl) in *. rewrite Ez in E1. injection E1 as <-. rewrite Ef, length_insert, Et, Hmg. split; [done|]. split; [done|]. split; [done|]. split; [|done].
      intros o0 Ho0. unfold fl'. destruct (decide (o0 = o)) as [->|Hoo]; [rewrite fl_upd_eq; apply list_lookup_insert_eq; lia|].
      rewrite fl_upd_ne by tauto. rewrite list_lookup_insert_ne by lia. by apply L4.
    + rewrite (Hne Hnn). split; [done|]. split; [done|]. split; [done|]. unfold fl'. rewrite psum_other by done. split; [|done].
      intros o0 Ho0. rewrite fl_upd_ne by tauto. by apply L4.
  - intros n0 z0 o0 E0 Ho0. destruct (Zs _ _ E0) as (z1 & E1 & Hh & _). unfold head_of. rewrite Hh. by apply (C5 n0 z1 o0).
  - intros n0 z0 o0 n1 z1 o1 E0 E1 Ho0 Ho1. destruct (Zs _ _ E0) as (y0 & F0 & Hh0 & _). destruct (Zs _ _ E1) as (y1 & F1 & Hh1 & _).
    unfold head_of. rewrite Hh0, Hh1. by apply (C6 n0 y0 o0 n1 y1 o1).
  - intros n0 z0 n1 z1 E0 E1. destruct (Zs _ _ E0) as (y0 & F0 & _ & Hm0 & _). destruct (Zs _ _ E1) as (y1 & F1 & _ & Hm1 & _). rewrite Hm0, Hm1. by apply (C7 n0 y0 n1 y1).
  - intros i Hi Hm. destruct (C8 i Hi Hm) as [h E]. by apply (Dom _ h).
  - intros n0 z0 o0 E0 Ho0. destruct (Zs _ _ E0) as (z1 & E1 & Hh & _). unfold head_of. rewrite Hh. fold (head_of z1 o0). unfold fl'. destruct (decide (n0 = n /\ o0 = o)) as [[-> ->]|Hne].
    + rewrite fl_upd_eq. rewrite Ez in E1. by injection E1 as <-.
    + rewrite fl_upd_ne by done. apply (dll_frame (mem s)); [by apply C9|]. intros x Hx. unfold nx, pv. cbn. rewrite (Fr x); [done|]. intros Hin. apply elem_of_cons in Hx as [->|Hx].
      * apply elem_of_cons in Hin as [E|Hin]; [by apply Hne, (C6 n0 z1 o0 n z o)|]. apply list_elem_of_fmap in Hin as (j & E & Hj).
        destruct (C5 n0 z1 o0 E1 Ho0) as [_ Hp]. by apply (Hp j (Rl j Hj)).
      * apply list_elem_of_fmap in Hx as (b & -> & Hb). assert (Hbr : in_range b).
        { destruct (C10 _ _ _ Hb) as (? & _ & Hob & _ & ? & ? & _). pose proof (Z.pow_pos_nonneg 2 o0). unfold in_range. lia. }
        apply elem_of_cons in Hin as [E|Hin]; [destruct (C5 n z o Ez Ho) as [_ Hp]; by apply (Hp b Hbr)|].
        apply list_elem_of_fmap in Hin as (j & E & Hj). rewrite (page_at_inj _ _ Hbr (Rl j Hj) E) in Hb. by apply (Other n0 o0 j).
  - intros n0 o0 b Hb. unfold fl' in Hb. destruct (decide (n0 = n /\ o0 = o)) as [[-> ->]|Hne].
    + rewrite fl_upd_eq in Hb. destruct (Bl b Hb) as (B1 & B2 & B3 & B4 & B5). exists z'. split; [cbn; by apply list_lookup_insert_eq|]. rewrite Em. done.
    + rewrite fl_upd_ne in Hb by done. destruct (C10 _ _ _ Hb) as (z1 & E1 & B0 & B1 & B2 & B3 & B4 & B5).
      assert (Hbr : in_range b) by (pose proof (Z.pow_pos_nonneg 2 o0); unfold in_range; lia).
      assert (Ez1 : exists z2, zones s' !! n0 = Some z2 /\ zmagic z2 = zmagic z1).
      { cbn. destruct (decide (n0 = n)) as [->|Hnn]; [exists z'; rewrite list_lookup_insert_eq by done; split; [done|congruence]|exists z1; by rewrite list_lookup_insert_ne]. }
      destruct Ez1 as (z2 & E2 & Hm2). exists z2. split; [done|]. repeat (split; [done|]). rewrite Hm2. unfold tag. cbn. rewrite Fp; [done|done|]. by apply (Other n0 o0).
  - intros n0 z0 i o0 E0 Hi Hm Ht. destruct (Zs _ _ E0) as (z1 & E1 & _ & Hmg & _). rewrite Hmg in Ht. by apply (Tg n0 z1 i o0).
Qed.

Lemma write_tag_ok m a o mg h : m !! a = Some h -> exists m', write_tag a o mg m = Ret m' /\ (forall x, nx m' x = nx m x) /\ (forall x, pv m' x = pv m x) /\
  (forall x, tag m' x = if decide (x = a) then Some (o, mg) else tag m x) /\ (forall x, x <> a -> m' !! x = m !! x).
Proof.
  intros E. exists (<[a := set_tag o mg h]> m). unfold write_tag, nx, pv, tag. rewrite E. split; [done|].
  split; [|split; [|split]]; intros x; try (intros Hx; by apply lookup_insert_ne);
    destruct (decide (x = a)) as [->|Hx]; rewrite ?lookup_insert_eq, ?lookup_insert_ne, ?E by done; done.
Qed.

Lemma zone_of_upd s n z z' : zones s !! n = Some z -> heads z' = heads z -> zmagic z' = zmagic z -> free_pages z' = free_pages z -> forall m,
  frame n s (set_zone n z' (set_mem m s)).
Proof.
  intros Ez H1 H2 H3 m. assert (Hn : (n < length (zones s))%nat) by (by eapply lookup_lt_Some). constructor; try done.
  - intros z0 E0. rewrite Ez in E0. injection E0 as <-. exists z'. cbn. by rewrite list_lookup_insert_eq.
  - intros n' Hne. cbn. by rewrite list_lookup_insert_ne.
Qed.

Lemma head_not_pages s fl n z o (l : list Z) : core s fl -> zones s !! n = Some z -> 0 <= o < 20 -> (forall b, b ∈ l -> in_range b) ->
  head_of z o ∉ map page_at l /\ 0 ∉ head_of z o :: map page_at l.
Proof.
  intros C Ez Ho Hl. destruct (c_heads _ _ C n z o Ez Ho) as [Hk Hp]. split.
  - intros (b & E & Hb)%list_elem_of_fmap. by apply (Hp b (Hl b Hb)).
  - intros [E|(b & E & Hb)%list_elem_of_fmap]%elem_of_cons; [unfold KERNEL_BASE in Hk; lia|]. pose proof (page_at_kernel b (Hl b Hb)) as Hb'. unfold KERNEL_BASE in Hb'. lia.
Qed.

Lemma disjoint_add fl n o b : disjoint fl -> (forall i, within b o i -> ~ covered fl i) -> disjoint (upd fl n o (fl n o ++ [b])).
Proof.
  intros Hd Hb. assert (Hin : forall n' o' c, c ∈ upd fl n o (fl n o ++ [b]) n' o' -> c ∈ fl n' o' \/ n' = n /\ o' = o /\ c = b).
  { intros n' o' c. destruct (decide (n' = n /\ o' = o)) as [[-> ->]|Hne]; [rewrite fl_upd_eq, elem_of_app, list_elem_of_singleton; tauto|rewrite fl_upd_ne by done; tauto]. }
  intros n1 o1 b1 n2 o2 b2 i [H1|(-> & -> & ->)]%Hin [H2|(-> & -> & ->)]%Hin W1 W2.
  - by apply (Hd n1 o1 b1 n2 o2 b2 i).
  - exfalso. apply (Hb i W2). by exists n1, o1, b1.
  - exfalso. apply (Hb i W1). by exists n2, o2, b2.
  - done.
Qed.

(** A free block that is on no list. *)
Definition loose (s : pmm) (fl : lists) (o b : Z) : Prop :=
  0 <= o < 20 /\ (2 ^ o | b) /\ lowest <= b /\ b + 2 ^ o <= highest /\
  forall i, within b o i -> mbit s i = true /\ ubit s i = false /\ ~ covered fl i.


Lemma fl_order s fl n o b : core s fl -> b ∈ fl n o -> 0 <= o < 20 /\ within b o b.
Proof. intros C Hb. destruct (c_block _ _ C _ _ _ Hb) as (z & _ & Ho & _). split; [done|]. apply within_first. lia. Qed.

Lemma loose_first s fl o b : core s fl -> loose s fl o b -> in_range b /\ mbit s b = true /\ (forall n o', b ∉ fl n o').
Proof.
  intros C (Ho & _ & H1 & H2 & H3). pose proof (Z.pow_pos_nonneg 2 o). destruct (H3 b (within_first b o ltac:(lia))) as (Hm & _ & Hc). split; [unfold in_range; lia|]. split; [done|].
  intros n o' Hin. apply Hc. exists n, o', b. split; [done|]. by apply (fl_order s fl n).
Qed.

Lemma link_ok s fl n z o b : core s fl -> zones s !! n = Some z -> loose s fl o b ->
  exists s', buddy_list_link n (page_at b) o s = Ret s' /\ core s' (upd fl n o (fl n o ++ [b])) /\ frame n s s' /\ quiet (fun i => i = b \/ i ∈ fl n o) s s'.
Proof.
  intros C Ez Hl. pose proof (loose_first _ _ _ _ C Hl) as (Hbr & Hbm & Hbn). destruct Hl as (Ho & Ha & Hlo & Hhi & Hw). unfold buddy_list_link, zone_at. rewrite Ez. cbn [deref]. rewrite ret_bind.
  destruct (c_mem _ _ C b Hbr Hbm) as [h Eh]. destruct (write_tag_ok (mem s) (page_at b) o (zmagic z) h Eh) as (m1 & -> & N1 & P1 & T1 & F1). rewrite ret_bind.
  assert (Rl : forall x, x ∈ fl n o -> in_range x) by (intros x Hx; by apply (block_first s fl n o)).
  destruct (head_not_pages s fl n z o (fl n o) C Ez Ho Rl) as [_ H0].
  assert (Hnew : page_at b ∉ head_of z o :: map page_at (fl n o)).
  { intros [E|Hin]%elem_of_cons; [destruct (c_heads _ _ C n z o Ez Ho) as [_ Hp]; by apply (Hp b Hbr)|]. apply (addr_in s fl n o b C Hbr) in Hin. by apply (Hbn n o). }
  assert (D1 : dll m1 (head_of z o) (map page_at (fl n o))) by (apply (dll_frame (mem s)); [by apply (c_dll _ _ C)|done]).
  assert (E1 : exists h1, m1 !! page_at b = Some h1). { apply tag_is_Some. rewrite T1, decide_True by done. done. } destruct E1 as [h1 E1].
  pose proof (page_at_kernel b Hbr) as Hk.
  destruct (list_add_tail_ok m1 (head_of z o) (map page_at (fl n o)) (page_at b) h1 D1 H0 Hnew ltac:(unfold KERNEL_BASE in Hk; lia) E1) as (m2 & -> & D2 & T2 & F2). rewrite ret_bind.
  destruct (c_zone _ _ C n z Ez) as (L1 & _ & _ & L4 & L5). specialize (L4 o Ho).
  assert (Hg : arr_get (free_blocks z) o = Ret (u64 (Z.of_nat (length (fl n o))))) by (apply arr_get_Some; split; [lia|done]). rewrite Hg, ret_bind.
  destruct (account_ok (set_mem m2 s) n z o _ (u64 (u64 (Z.of_nat (length (fl n o))) + 1)) Ez Ho L1 L4) as (z' & -> & Z1 & Z2 & Z3 & Z4 & Z5 & Z6).
  exists (set_zone n z' (set_mem m2 s)). split; [done|].
  assert (Elen : u64 (u64 (Z.of_nat (length (fl n o))) + 1) = u64 (Z.of_nat (length (fl n o ++ [b])))).
  { rewrite length_app. cbn [length]. unfold u64. rewrite Zplus_mod_idemp_l. f_equal. lia. }
  assert (Happ : map page_at (fl n o ++ [b]) = map page_at (fl n o) ++ [page_at b]) by (by rewrite map_app).
  split; [|split].
  - apply (core_update s fl n z o (fl n o ++ [b]) m2 z' C Ez Ho Z1 Z2 Z4).
    + by rewrite Z5, Elen.
    + rewrite psum_upd by done. destruct Z6 as [[Z6 Z7]|Z6].
      * exfalso. assert (Hs : (u64 (Z.of_nat (length (fl n o))) + 1) mod 2 ^ 64 = u64 (Z.of_nat (length (fl n o)))) by (symmetry; exact Z7).
        pose proof (u64_range (Z.of_nat (length (fl n o)))) as Hu. destruct (decide (u64 (Z.of_nat (length (fl n o))) + 1 < 2 ^ 64)); [rewrite Z.mod_small in Hs by lia; lia|].
        replace (u64 (Z.of_nat (length (fl n o))) + 1) with (2 ^ 64) in Hs by lia. rewrite Z.mod_same in Hs; lia.
      * rewrite Z6, L5, Elen. unfold pages. rewrite length_app. cbn [length]. unfold u64.
        rewrite (Zplus_mod _ (_ * 2 ^ o)), (Zmult_mod _ (2 ^ o)). rewrite (Zminus_mod _ (_ * 2 ^ o)), (Zmult_mod (_ mod _) (2 ^ o)). rewrite !Zmod_mod. rewrite <- !Zmult_mod, <- Zminus_mod, <- Zplus_mod. f_equal. lia.
    + by rewrite Happ.
    + intros x Hx. rewrite elem_of_cons, map_app, Happ, !elem_of_app in Hx. cbn in Hx. assert (Hxb : x <> page_at b) by (intros ->; apply Hx; right; right; right; by left).
      rewrite F2, F1; [done|done|]. rewrite elem_of_cons, elem_of_app. tauto.
    + intros x hx Ex. apply tag_is_Some. rewrite T2, T1. destruct (decide (x = page_at b)); [done|]. apply tag_is_Some. eauto.
    + intros c [Hc| ->%list_elem_of_singleton]%elem_of_app.
      * destruct (c_block _ _ C _ _ _ Hc) as (z0 & E0 & _ & B1 & B2 & B3 & B4 & B5). rewrite Ez in E0. injection E0 as <-. repeat (split; [done|]).
        rewrite T2, T1, decide_False; [done|]. intros E. apply (Hbn n o). by rewrite <- (page_at_inj c b (Rl c Hc) Hbr E).
      * repeat (split; [done|]). split; [intros i Hi; by destruct (Hw i Hi) as (? & ? & _)|]. by rewrite T2, T1, decide_True.
    + apply disjoint_add; [exact (c_disj _ _ C)|]. intros i Hi. by destruct (Hw i Hi) as (_ & _ & ?).
    + intros n0 z0 i o0 E0 Hi Hm Ht. rewrite T2, T1 in Ht. destruct (decide (page_at i = page_at b)) as [E|E].
      * apply (page_at_inj i b Hi Hbr) in E as ->. injection Ht as <- Hmg. rewrite (c_magics _ _ C n z n0 z0 Ez E0 Hmg) in *. rewrite fl_upd_eq, elem_of_app. right. by left.
      * pose proof (c_tag _ _ C n0 z0 i o0 E0 Hi Hm Ht) as Hin. destruct (decide (n0 = n /\ o0 = o)) as [[-> ->]|Hne]; [rewrite fl_upd_eq, elem_of_app; by left|by rewrite fl_upd_ne].
  - by apply (zone_of_upd s n z z').
  - intros i Hi Hni. cbn. assert (Hib : page_at i <> page_at b) by (intros E; apply Hni; left; by apply page_at_inj). rewrite F2, F1; [done|done|].
    rewrite elem_of_cons, elem_of_app, list_elem_of_singleton. intros [E|[Hin|E]]; [destruct (c_heads _ _ C n z o Ez Ho) as [_ Hp]; by apply (Hp i Hi)| |done].
    apply Hni. right. by apply (addr_in s fl n o).
Qed.

Lemma disjoint_remove fl n o l1 b l2 : disjoint fl -> fl n o = l1 ++ b :: l2 -> disjoint (upd fl n o (l1 ++ l2)).
Proof.
  intros Hd E. assert (Hin : forall n' o' c, c ∈ upd fl n o (l1 ++ l2) n' o' -> c ∈ fl n' o').
  { intros n' o' c. destruct (decide (n' = n /\ o' = o)) as [[-> ->]|Hne]; [rewrite fl_upd_eq, E, !elem_of_app, elem_of_cons; tauto|by rewrite fl_upd_ne]. }
  intros n1 o1 b1 n2 o2 b2 i H1%Hin H2%Hin. by apply (Hd n1 o1 b1 n2 o2 b2 i).
Qed.

Lemma fl_nodup s fl n o : core s fl -> NoDup (fl n o).
Proof.
  intros C. destruct (fl n o) as [|b l] eqn:E; [constructor|]. rewrite <- E. assert (Hb : b ∈ fl n o) by (rewrite E; by left).
  destruct (c_block _ _ C _ _ _ Hb) as (z & Ez & Ho & _). destruct (c_dll _ _ C n z o Ez Ho) as [_ Hn]. apply NoDup_cons in Hn as [_ Hn]. by apply (NoDup_fmap_1 page_at).
Qed.

Lemma unlink_ok s fl n z o l1 b l2 : core s fl -> zones s !! n = Some z -> fl n o = l1 ++ b :: l2 ->
  exists s', buddy_list_unlink n (page_at b) s = Ret s' /\ core s' (upd fl n o (l1 ++ l2)) /\ frame n s s' /\ quiet (fun i => i ∈ fl n o) s s'.
Proof.
  intros C Ez E. assert (Hb : b ∈ fl n o) by (rewrite E, elem_of_app; right; by left). destruct (block_first _ _ _ _ _ C Hb) as (Hbr & Hbm & _).
  destruct (c_block _ _ C _ _ _ Hb) as (z0 & E0 & Ho & _ & _ & _ & _ & Htag). rewrite Ez in E0. injection E0 as <-.
  assert (Rl : forall x, x ∈ fl n o -> in_range x) by (intros x Hx; by apply (block_first s fl n o)).
  pose proof (c_dll _ _ C n z o Ez Ho) as D. rewrite E, map_app in D. cbn [map] in D. unfold buddy_list_unlink.
  assert (Hk : Forall (fun a => KERNEL_BASE <= a) (head_of z o :: map page_at l1 ++ page_at b :: map page_at l2)).
  { constructor; [by apply (c_heads _ _ C n z o)|]. apply Forall_forall. intros x Hx. change (page_at b :: map page_at l2) with (map page_at (b :: l2)) in Hx. rewrite <- map_app, <- E in Hx.
    apply list_elem_of_fmap in Hx as (c & -> & Hc). apply page_at_kernel. auto. }
  destruct (list_del_ok (mem s) (head_of z o) _ (page_at b) _ D Hk) as (m1 & -> & D1 & T1 & F1). rewrite ret_bind.
  assert (Eh : exists h, m1 !! page_at b = Some h /\ order h = o).
  { specialize (T1 (page_at b)). rewrite Htag in T1. unfold tag in T1. apply fmap_Some in T1 as (h & Eh & Et). exists h. split; [done|congruence]. }
  destruct Eh as (h & Eh & Eho). rewrite Eh. cbn [deref]. rewrite ret_bind, Eho. unfold zone_at. rewrite Ez. cbn [deref]. rewrite ret_bind.
  destruct (c_zone _ _ C n z Ez) as (L1 & _ & L3 & L4 & L5). specialize (L4 o Ho).
  assert (Hg : arr_get (free_blocks z) o = Ret (u64 (Z.of_nat (length (fl n o))))) by (apply arr_get_Some; split; [lia|done]). rewrite Hg, ret_bind.
  destruct (account_ok (set_mem m1 s) n z o _ (u64 (u64 (Z.of_nat (length (fl n o))) - 1)) Ez Ho L1 L4) as (z' & -> & Z1 & Z2 & Z3 & Z4 & Z5 & Z6). rewrite ret_bind.
  cbn [mem set_zone set_mem]. destruct (write_tag_ok m1 (page_at b) o 0 h Eh) as (m2 & -> & N2 & P2 & T2 & F2). rewrite ret_bind.
  exists (set_zone n z' (set_mem m2 s)). split; [done|].
  assert (Elen : u64 (u64 (Z.of_nat (length (fl n o))) - 1) = u64 (Z.of_nat (length (l1 ++ l2)))).
  { rewrite E, !length_app. cbn [length]. unfold u64. rewrite Zminus_mod_idemp_l. f_equal. lia. }
  assert (Hnd := fl_nodup s fl n o C). assert (Hb12 : b ∉ l1 ++ l2).
  { rewrite E in Hnd. apply NoDup_app in Hnd as (_ & N2' & N3). apply NoDup_cons in N3 as [N3 _]. rewrite elem_of_app. intros [H|H]; [apply (N2' b H); by left|done]. }
  assert (Hsub : forall c, c ∈ l1 ++ l2 -> c ∈ fl n o) by (intros c; rewrite E, !elem_of_app, elem_of_cons; tauto).
  split; [|split].
  - apply (core_update s fl n z o (l1 ++ l2) m2 z' C Ez Ho Z1 Z2 Z4).
    + by rewrite Z5, Elen.
    + rewrite psum_upd by done. destruct Z6 as [[Z6 Z7]|Z6].
      * exfalso. assert (Hs : (u64 (Z.of_nat (length (fl n o))) - 1) mod 2 ^ 64 = u64 (Z.of_nat (length (fl n o)))) by (symmetry; exact Z7).
        pose proof (u64_range (Z.of_nat (length (fl n o)))) as Hu. destruct (decide (u64 (Z.of_nat (length (fl n o))) = 0)) as [Hz|Hz]; [rewrite Hz in Hs; vm_compute in Hs; lia|].
        rewrite Z.mod_small in Hs by lia. lia.
      * rewrite Z6, L5, Elen. unfold pages. rewrite E, !length_app. cbn [length]. unfold u64.
        rewrite (Zplus_mod _ (_ * 2 ^ o)), (Zmult_mod _ (2 ^ o)). rewrite (Zminus_mod _ (_ * 2 ^ o)), (Zmult_mod (_ mod _) (2 ^ o)). rewrite !Zmod_mod. rewrite <- !Zmult_mod, <- Zminus_mod, <- Zplus_mod. f_equal. lia.
    + rewrite map_app. by apply (dll_frame m1).
    + intros x Hx. rewrite map_app, E, map_app in Hx. cbn [map] in Hx. rewrite elem_of_cons, !elem_of_app, elem_of_cons in Hx.
      rewrite F2, F1; [done| |tauto]. rewrite elem_of_cons, elem_of_app, elem_of_cons. tauto.
    + intros x hx Ex. apply tag_is_Some. rewrite T2, T1. destruct (decide (x = page_at b)); [done|]. apply tag_is_Some. eauto.
    + intros c Hc. destruct (c_block _ _ C _ _ _ (Hsub c Hc)) as (z0 & E0 & _ & B1 & B2 & B3 & B4 & B5). rewrite Ez in E0. injection E0 as <-. repeat (split; [done|]).
      rewrite T2, T1, decide_False; [done|]. intros Ec. apply Hb12. by rewrite <- (page_at_inj c b (Rl c (Hsub c Hc)) Hbr Ec).
    + by apply (disjoint_remove fl n o l1 b l2 (c_disj _ _ C)).
    + intros n0 z0 i o0 E0 Hi Hm Ht. rewrite T2, T1 in Ht. destruct (decide (page_at i = page_at b)) as [Ei|Ei].
      * injection Ht as _ Hmg. destruct (c_zone _ _ C n0 z0 E0) as (_ & _ & Hz & _). congruence.
      * pose proof (c_tag _ _ C n0 z0 i o0 E0 Hi Hm Ht) as Hin. destruct (decide (n0 = n /\ o0 = o)) as [[-> ->]|Hne]; [|by rewrite fl_upd_ne].
        rewrite fl_upd_eq, elem_of_app. rewrite E, elem_of_app, elem_of_cons in Hin. destruct Hin as [?|[->|?]]; [tauto|done|tauto].
  - by apply (zone_of_upd s n z z').
  - intros i Hi Hni. cbn. assert (Hib : page_at i <> page_at b) by (intros Ei; apply Hni; by rewrite (page_at_inj i b Hi Hbr Ei)). rewrite F2, F1; [done| |done].
    rewrite elem_of_cons. intros [Ei|Hin]; [destruct (c_heads _ _ C n z o Ez Ho) as [_ Hp]; by apply (Hp i Hi)|]. apply Hni. apply (addr_in s fl n o i C Hi).
    rewrite E, map_app. done.
Qed.

(** ** Steps that leave the lists alone *)

Lemma core_zone s fl n z z' : core s fl -> zones s !! n = Some z -> heads z' = heads z -> zmagic z' = zmagic z -> free_blocks z' = free_blocks z ->
  pages_in_lists z' = pages_in_lists z -> length (trace z') = length (trace z) -> core (set_zone n z' s) fl.
Proof.
  intros [C1 C2 C3 C4 C5 C6 C7 C8 C9 C10 C11 C12] Ez H1 H2 H3 H4 H5. assert (Hn : (n < length (zones s))%nat) by (by eapply lookup_lt_Some).
  assert (Zs : forall n0 z0, zones (set_zone n z' s) !! n0 = Some z0 -> exists z1, zones s !! n0 = Some z1 /\ heads z0 = heads z1 /\ zmagic z0 = zmagic z1 /\
    free_blocks z0 = free_blocks z1 /\ pages_in_lists z0 = pages_in_lists z1 /\ length (trace z0) = length (trace z1)).
  { intros n0 z0 E0. cbn in E0. destruct (decide (n0 = n)) as [->|Hne].
    - rewrite list_lookup_insert_eq in E0 by done. injection E0 as <-. by exists z.
    - rewrite list_lookup_insert_ne in E0 by done. by exists z0. }
  constructor; try done.
  - intros n0 z0 E0. destruct (Zs _ _ E0) as (z1 & E1 & _ & Hm & Hf & Hp & Ht). rewrite Hm, Hf, Hp, Ht. by apply C4.
  - intros n0 z0 o0 E0. destruct (Zs _ _ E0) as (z1 & E1 & Hh & _). unfold head_of. rewrite Hh. by apply (C5 n0 z1 o0).
  - intros n0 z0 o0 n1 z1 o1 E0 E1. destruct (Zs _ _ E0) as (y0 & F0 & Hh0 & _). destruct (Zs _ _ E1) as (y1 & F1 & Hh1 & _).
    unfold head_of. rewrite Hh0, Hh1. by apply (C6 n0 y0 o0 n1 y1 o1).
  - intros n0 z0 n1 z1 E0 E1. destruct (Zs _ _ E0) as (y0 & F0 & _ & Hm0 & _). destruct (Zs _ _ E1) as (y1 & F1 & _ & Hm1 & _). rewrite Hm0, Hm1. by apply (C7 n0 y0 n1 y1).
  - intros n0 z0 o0 E0. destruct (Zs _ _ E0) as (z1 & E1 & Hh & _). unfold head_of. rewrite Hh. by apply (C9 n0 z1 o0).
  - intros n0 o0 b Hb. destruct (C10 _ _ _ Hb) as (z1 & E1 & B). destruct (decide (n0 = n)) as [->|Hne].
    + exists z'. split; [cbn; by apply list_lookup_insert_eq|]. rewrite H2. rewrite Ez in E1. by injection E1 as <-.
    + exists z1. split; [cbn; by rewrite list_lookup_insert_ne|done].
  - intros n0 z0 i o0 E0. destruct (Zs _ _ E0) as (z1 & E1 & _ & Hm & _). rewrite Hm. by apply (C12 n0 z1 i o0).
Qed.

Lemma trace_ok s fl n z phys o op : core s fl -> zones s !! n = Some z ->
  exists s', buddy_trace n phys o op s = Ret s' /\ core s' fl /\ frame n s s' /\ mem s' = mem s.
Proof.
  intros C Ez. unfold buddy_trace, zone_at. rewrite Ez. cbn [deref]. rewrite ret_bind. destruct (c_zone _ _ C n z Ez) as (_ & Ht & _).
  pose proof (Z.mod_pos_bound (trace_seq z) BUDDY_TRACE_SLOTS eq_refl) as Hm. unfold BUDDY_TRACE_SLOTS in *. rewrite arr_set_Ret by lia. rewrite ret_bind.
  eexists. split; [done|]. split; [apply (core_zone s fl n z); try done; cbn; by rewrite length_insert|]. split; [|done].
  assert (Hs : s = set_mem (mem s) s) by by destruct s. rewrite Hs at 2. by apply (zone_of_upd s n z).
Qed.

Lemma publish_ok s fl n z : core s fl -> zones s !! n = Some z ->
  exists z', buddy_publish_free_pages n s = Ret (set_zone n z' s) /\ core (set_zone n z' s) fl /\ free_pages z' = pages_in_lists z' /\ pages_in_lists z' = pages_in_lists z /\
    heads z' = heads z /\ zmagic z' = zmagic z.
Proof.
  intros C Ez. unfold buddy_publish_free_pages, zone_at. rewrite Ez. cbn [deref]. rewrite ret_bind. eexists. split; [done|]. split; [by apply (core_zone s fl n z)|]. done.
Qed.

Lemma core_bitmap s fl bm : core s fl -> bytes bm -> length bm = length (bitmap s) ->
  (forall i, covered fl i -> bit_at bm (i - lowest) = ubit s i) -> core (set_bitmap bm s) fl.
Proof.
  intros [C1 C2 C3 C4 C5 C6 C7 C8 C9 C10 C11 C12] Hb Hl Hsame. constructor; try done.
  - split; [done|]. cbn. unfold bits. rewrite Hl. apply C1.
  - intros n o b Hin. destruct (C10 _ _ _ Hin) as (z & Ez & Ho & Ha & B1 & B2 & B3 & B4). exists z. repeat (split; [done|]). split; [|done].
    intros i Hi. destruct (B3 i Hi) as [Hm Hu]. split; [done|]. unfold ubit. cbn. rewrite Hsame; [done|]. by exists n, o, b.
Qed.

Lemma core_refs s fl r : core s fl -> length r = length (refcounts s) -> core (set_refcounts r s) fl.
Proof. intros [C1 C2 C3 C4 C5 C6 C7 C8 C9 C10 C11 C12] Hl. constructor; try done. cbn. by rewrite Hl. Qed.

Lemma set_refs_ok v pfn k : forall s fl, core s fl -> lowest <= pfn -> pfn + Z.of_nat k <= highest ->
  exists r, set_refs lowest k pfn v s = Ret (set_refcounts r s) /\ length r = length (refcounts s) /\
    (forall i, in_range i -> r !! Z.to_nat (i - lowest) = if decide (pfn <= i < pfn + Z.of_nat k) then Some v else refcounts s !! Z.to_nat (i - lowest)).
Proof.
  induction k as [|k IH]; intros s fl C Hlo Hhi; cbn [set_refs].
  - exists (refcounts s). split; [by destruct s|]. split; [done|]. intros i Hi. by rewrite decide_False by lia.
  - destruct (IH s fl C Hlo ltac:(lia)) as (r & -> & Hl & Hr). rewrite ret_bind. pose proof (c_ref _ _ C) as Hlen. unfold page_count in Hlen. cbn [refcounts set_refcounts].
    rewrite arr_set_Ret by lia. rewrite ret_bind. eexists. split; [done|]. split; [by rewrite length_insert|]. intros i Hi. unfold in_range in Hi.
    destruct (decide (i = pfn + Z.of_nat k)) as [->|Hne].
    + rewrite list_lookup_insert_eq by lia. by rewrite decide_True by lia.
    + rewrite list_lookup_insert_ne by lia. rewrite Hr by done. destruct (decide _), (decide _); lia || done.
Qed.

(** Clearing the tag of a page that is on no list. *)
Lemma unmark_ok s fl i : core s fl -> in_range i -> mbit s i = true -> (forall n o, i ∉ fl n o) ->
  exists m, buddy_unmark_returned hhdm i s = Ret (set_mem m s) /\ core (set_mem m s) fl /\ (forall x, x <> page_at i -> m !! x = mem s !! x).
Proof.
  intros C Hi Hm Hno. unfold buddy_unmark_returned. destruct (c_mem _ _ C i Hi Hm) as [h Eh]. rewrite Eh. cbn [deref]. rewrite ret_bind.
  destruct (write_tag_ok (mem s) (page_at i) (order h) 0 h Eh) as (m & -> & N & P & T & F). rewrite ret_bind. exists m. split; [done|]. split; [|done].
  destruct C as [C1 C2 C3 C4 C5 C6 C7 C8 C9 C10 C11 C12]. constructor; try done.
  - intros j Hj Hmj. apply tag_is_Some. cbn. rewrite T. destruct (decide _); [done|]. apply tag_is_Some. by apply C8.
  - intros n z o Ez Ho. apply (dll_frame (mem s)); [by apply C9|done].
  - intros n o b Hb. destruct (C10 _ _ _ Hb) as (z & Ez & Ho & Ha & B1 & B2 & B3 & B4). exists z. repeat (split; [done|]). cbn. rewrite T, decide_False; [done|].
    intros E. apply (Hno n o). pose proof (Z.pow_pos_nonneg 2 o). rewrite <- (page_at_inj b i); [done|unfold in_range; lia|done|done].
  - intros n z j o Ez Hj Hmj Ht. cbn in Ht. rewrite T in Ht. destruct (decide _); [|by apply (C12 n z j o)].
    injection Ht as _ Hz. destruct (C4 n z Ez) as (_ & _ & Hnz & _). congruence.
Qed.

(** ** Free pages *)

Lemma covered_add fl n o b i : covered (upd fl n o (fl n o ++ [b])) i <-> covered fl i \/ within b o i.
Proof.
  split.
  - intros (n' & o' & c & Hc & W). destruct (decide (n' = n /\ o' = o)) as [[-> ->]|Hne]; [rewrite fl_upd_eq, elem_of_app, list_elem_of_singleton in Hc|rewrite fl_upd_ne in Hc by done].
    + destruct Hc as [Hc| ->]; [left; by exists n, o, c|by right].
    + left. by exists n', o', c.
  - intros [(n' & o' & c & Hc & W)|W].
    + exists n', o', c. split; [|done]. destruct (decide (n' = n /\ o' = o)) as [[-> ->]|Hne]; [rewrite fl_upd_eq, elem_of_app; by left|by rewrite fl_upd_ne].
    + exists n, o, b. split; [|done]. rewrite fl_upd_eq, elem_of_app. right. by left.
Qed.

Lemma covered_remove s fl n o l1 b l2 i : core s fl -> fl n o = l1 ++ b :: l2 -> covered (upd fl n o (l1 ++ l2)) i <-> covered fl i /\ ~ within b o i.
Proof.
  intros C E. assert (Hb : b ∈ fl n o) by (rewrite E, elem_of_app; right; by left).
  assert (Hnd := fl_nodup s fl n o C). assert (Hb12 : b ∉ l1 ++ l2).
  { rewrite E in Hnd. apply NoDup_app in Hnd as (_ & N2' & N3). apply NoDup_cons in N3 as [N3 _]. rewrite elem_of_app. intros [H|H]; [apply (N2' b H); by left|done]. }
  split.
  - intros (n' & o' & c & Hc & W). assert (Hcf : c ∈ fl n' o' /\ ~ (n' = n /\ o' = o /\ c = b)).
    { destruct (decide (n' = n /\ o' = o)) as [[-> ->]|Hne]; [rewrite fl_upd_eq in Hc|rewrite fl_upd_ne in Hc by done; tauto].
      split; [rewrite E, elem_of_app, elem_of_cons; apply elem_of_app in Hc; tauto|]. intros (_ & _ & ->). done. }
    destruct Hcf as [Hcf Hne]. split; [by exists n', o', c|]. intros Wb. apply Hne. by apply (c_disj _ _ C n' o' c n o b i).
  - intros [(n' & o' & c & Hc & W) Hnw]. exists n', o', c. split; [|done]. destruct (decide (n' = n /\ o' = o)) as [[-> ->]|Hne]; [|by rewrite fl_upd_ne].
    rewrite fl_upd_eq. rewrite E, elem_of_app, elem_of_cons in Hc. rewrite elem_of_app. destruct Hc as [?|[->|?]]; [tauto|done|tauto].
Qed.

(** Taking a block off its list makes it loose. *)
Lemma unlink_loose s s' fl n o l1 b l2 : core s fl -> fl n o = l1 ++ b :: l2 -> frame n s s' -> loose s' (upd fl n o (l1 ++ l2)) o b.
Proof.
  intros C E F. assert (Hb : b ∈ fl n o) by (rewrite E, elem_of_app; right; by left). destruct (c_block _ _ C _ _ _ Hb) as (z & _ & Ho & Ha & B1 & B2 & B3 & _).
  split; [done|]. split; [done|]. split; [done|]. split; [done|]. intros i Hi. unfold mbit, ubit. rewrite (f_managed _ _ _ F), (f_bitmap _ _ _ F).
  destruct (B3 i Hi) as [? ?]. split; [done|]. split; [done|]. rewrite (covered_remove s fl n o l1 b l2 i C E). tauto.
Qed.

Lemma frame_zone n s s' z : frame n s s' -> zones s !! n = Some z -> exists z', zones s' !! n = Some z' /\ heads z' = heads z /\ free_pages z' = free_pages z.
Proof. intros F Ez. destruct (f_zone _ _ _ F z Ez) as (z' & E & H1 & _ & H3). eauto. Qed.

Lemma nonempty_ok s fl n z o : core s fl -> zones s !! n = Some z -> 0 <= o < 20 ->
  buddy_list_nonempty lowest highest hhdm n o s = Ret (match fl n o with [] => false | _ => true end, s).
Proof.
  intros C Ez Ho. unfold buddy_list_nonempty. cbn [nonempty_loop]. unfold zone_at at 1. rewrite Ez. cbn [deref]. rewrite ret_bind.
  pose proof (c_dll _ _ C n z o Ez Ho) as D. pose proof (dll_first _ _ _ D) as Hf. destruct (nx_hdr _ _ _ Hf) as (hh & -> & Enx). cbn [deref]. rewrite ret_bind, Enx.
  destruct (fl n o) as [|b l] eqn:E; cbn [map] in *.
  - rewrite Z.eqb_refl. destruct (c_zone _ _ C n z Ez) as (L1 & _ & _ & L4 & _). specialize (L4 o Ho). rewrite E in L4.
    unfold buddy_list_account, zone_at. rewrite Ez. cbn [deref]. rewrite ret_bind.
    assert (Hg : arr_get (free_blocks z) o = Ret 0) by (apply arr_get_Some; split; [lia|done]). rewrite Hg, ret_bind. done.
  - assert (Hb : b ∈ fl n o) by (rewrite E; by left). destruct (block_first _ _ _ _ _ C Hb) as (Hr & Hm & _). destruct (c_heads _ _ C n z o Ez Ho) as [_ Hp].
    rewrite (proj2 (Z.eqb_neq (page_at b) _)) by (intros Eb; by apply (Hp b Hr)). unfold in_range, page_count in *. rewrite (proj2 (Z.leb_le (0 + 1) _)) by lia.
    destruct (c_block _ _ C _ _ _ Hb) as (_ & _ & _ & Ha & _). rewrite (node_valid_ok s fl n z o b C Ez Ho Hr Hm Ha), ret_bind.
    by rewrite bool_decide_eq_true_2.
Qed.

Lemma search_ok s fl n z fuel : forall o, core s fl -> zones s !! n = Some z -> 0 <= o <= 20 -> 20 - o < Z.of_nat fuel ->
  exists cur, search_loop lowest highest hhdm fuel n o s = Ret (cur, s) /\ o <= cur <= 20 /\ (cur < 20 -> fl n cur <> []) /\ (forall o', o <= o' < cur -> fl n o' = []).
Proof.
  induction fuel as [|fuel IH]; intros o C Ez Ho Hf; [lia|]. cbn [search_loop]. unfold MAX_ORDER. destruct (o <? 20) eqn:?; reify_bools; [|exists o; split; [done|]; repeat split; lia].
  rewrite (nonempty_ok s fl n z o C Ez) by lia. rewrite ret_bind. cbn beta iota. destruct (fl n o) as [|b l] eqn:E.
  - destruct (IH (o + 1) C Ez) as (cur & -> & H1 & H2 & H3); [lia|lia|]. exists cur. split; [done|]. split; [lia|]. split; [done|].
    intros o' Ho'. destruct (decide (o' = o)) as [->|]; [done|]. apply H3. lia.
  - exists o. split; [done|]. split; [lia|]. split; [by rewrite E|]. lia.
Qed.

Lemma pow2_half o : 0 < o -> 2 ^ o = 2 ^ (o - 1) + 2 ^ (o - 1).
Proof. intros Ho. replace o with (Z.succ (o - 1)) at 1 by lia. rewrite Z.pow_succ_r by lia. lia. Qed.

(** The halves of a loose block. *)
Lemma loose_halves s fl o b : loose s fl o b -> 0 < o -> loose s fl (o - 1) b /\ loose s fl (o - 1) (b + 2 ^ (o - 1)).
Proof.
  intros (Ho & [c Ec] & H1 & H2 & H3) Hpos. pose proof (pow2_half o Hpos) as Hp. pose proof (Z.pow_pos_nonneg 2 (o - 1)).
  split; (split; [lia|]); (split; [|split; [lia|split; [lia|intros i Hi; apply H3; unfold within in *; lia]]]).
  - exists (c * 2). lia.
  - exists (c * 2 + 1). lia.
Qed.

Lemma loose_frame s s' fl fl' n o b : loose s fl o b -> frame n s s' -> (forall i, within b o i -> covered fl' i -> covered fl i) -> loose s' fl' o b.
Proof.
  intros (Ho & Ha & H1 & H2 & H3) F Hc. repeat (split; [done|]). intros i Hi. destruct (H3 i Hi) as (Hm & Hu & Hn). unfold mbit, ubit.
  rewrite (f_managed _ _ _ F), (f_bitmap _ _ _ F). split; [done|]. split; [done|]. eauto.
Qed.

(** All of block [b] of order [cur] but the block [k] of order [o] has gone to the lists. *)
Definition parted (n : nat) (fl fl' : lists) (b cur k o : Z) : Prop :=
  (forall i, covered fl' i <-> covered fl i \/ within b cur i /\ ~ within k o i) /\ psum fl' n = psum fl n + (2 ^ cur - 2 ^ o) /\ (forall n' o', n' <> n -> fl' n' o' = fl n' o').

Lemma psum_add fl n o b : 0 <= o < 20 -> psum (upd fl n o (fl n o ++ [b])) n = psum fl n + 2 ^ o.
Proof. intros Ho. rewrite psum_upd by done. unfold pages. rewrite length_app. cbn [length]. lia. Qed.
Lemma psum_remove fl n o l1 b l2 : 0 <= o < 20 -> fl n o = l1 ++ b :: l2 -> psum (upd fl n o (l1 ++ l2)) n = psum fl n - 2 ^ o.
Proof. intros Ho E. rewrite psum_upd by done. unfold pages. rewrite E, !length_app. cbn [length]. lia. Qed.

Lemma split_step s fl n z cur b keep give : core s fl -> zones s !! n = Some z -> loose s fl cur b -> 0 < cur ->
  keep = b /\ give = b + 2 ^ (cur - 1) \/ keep = b + 2 ^ (cur - 1) /\ give = b ->
  exists s1, buddy_list_link n (page_at give) (cur - 1) s = Ret s1 /\ core s1 (upd fl n (cur - 1) (fl n (cur - 1) ++ [give])) /\ frame n s s1 /\
    loose s1 (upd fl n (cur - 1) (fl n (cur - 1) ++ [give])) (cur - 1) keep /\ quiet (fun i => covered fl i \/ within b cur i) s s1 /\
    parted n fl (upd fl n (cur - 1) (fl n (cur - 1) ++ [give])) b cur keep (cur - 1).
Proof.
  intros C Ez Hl Hpos Hk. pose proof (loose_halves _ _ _ _ Hl Hpos) as [L1 L2]. pose proof (pow2_half cur Hpos) as Hp. pose proof (Z.pow_pos_nonneg 2 (cur - 1)) as Hpp. destruct Hl as (Ho & _).
  assert (Lg : loose s fl (cur - 1) give) by (by destruct Hk as [[-> ->]|[-> ->]]). assert (Lk : loose s fl (cur - 1) keep) by (by destruct Hk as [[-> ->]|[-> ->]]).
  destruct (link_ok s fl n z (cur - 1) give C Ez Lg) as (s1 & E & C1 & F1 & Q1). exists s1. split; [done|]. split; [done|]. split; [done|].
  assert (Hw : forall i, within keep (cur - 1) i -> ~ within give (cur - 1) i) by (intros i Hi Hg; unfold within in *; lia).
  split; [|split; [|split; [|split]]].
  - apply (loose_frame s s1 fl _ n _ keep Lk F1). intros i Hi [?|Hg]%covered_add; [done|]. by apply Hw in Hi.
  - eapply quiet_mono; [exact Q1|]. cbn. intros i [->|Hi]; [right; unfold within; lia|]. left. exists n, (cur - 1), i. split; [done|]. apply within_first. lia.
  - intros i. rewrite covered_add. unfold within in *. destruct Hk as [[-> ->]|[-> ->]]; intuition lia.
  - rewrite psum_add by lia. lia.
  - intros n' o' Hne. apply fl_upd_ne. tauto.
Qed.

Lemma parted_trans n fl fl1 fl2 b cur k c k2 o : parted n fl fl1 b cur k c -> parted n fl1 fl2 k c k2 o ->
  (forall i, within k c i -> within b cur i) -> (forall i, within k2 o i -> within k c i) -> parted n fl fl2 b cur k2 o.
Proof.
  intros (P1 & Q1 & R1) (P2 & Q2 & R2) H1 H2. split; [|split].
  - intros i. rewrite P2, P1. destruct (decide (within k2 o i)) as [W2|W2]; destruct (decide (within k c i)) as [Wk|Wk]; naive_solver.
  - lia.
  - intros n' o' Hne. by rewrite R2, R1.
Qed.

Lemma split_loop_ok n o fuel : forall s fl z cur b, core s fl -> zones s !! n = Some z -> 0 <= o <= cur -> cur - o < Z.of_nat fuel -> loose s fl cur b ->
  exists s' fl', split_loop hhdm fuel n b cur o s = Ret s' /\ core s' fl' /\ frame n s s' /\ loose s' fl' o b /\ quiet (fun i => covered fl i \/ within b cur i) s s' /\
    parted n fl fl' b cur b o.
Proof.
  induction fuel as [|fuel IH]; intros s fl z cur b C Ez Ho Hf Hl; [lia|]. cbn [split_loop]. destruct (cur >? o) eqn:?; reify_bools.
  - rewrite Z.shiftl_1_l. destruct (split_step s fl n z cur b b (b + 2 ^ (cur - 1)) C Ez Hl ltac:(lia)) as (s1 & -> & C1 & F1 & L1 & Q1 & P1); [by left|]. rewrite ret_bind.
    destruct (frame_zone _ _ _ _ F1 Ez) as (z1 & E1 & _). pose proof (pow2_half cur ltac:(lia)) as Hp. pose proof (Z.pow_pos_nonneg 2 (cur - 1)).
    destruct (IH s1 _ z1 (cur - 1) b C1 E1 ltac:(lia) ltac:(lia) L1) as (s2 & fl2 & -> & C2 & F2 & L2 & Q2 & P2). exists s2, fl2.
    split; [done|]. split; [done|]. split; [by eapply frame_trans|]. split; [done|]. split.
    + eapply quiet_trans; [exact Q1|]. eapply quiet_mono; [exact Q2|]. cbn. intros i [Hi%P1|Hi]; [tauto|]. right. unfold within in *. lia.
    + eapply parted_trans; [exact P1|exact P2| |]; intros i Hi; unfold within in *; [lia|].
      assert (2 ^ o <= 2 ^ (cur - 1)) by (apply Z.pow_le_mono_r; lia). lia.
  - assert (cur = o) as -> by lia. exists s, fl. split; [done|]. split; [done|]. split; [apply frame_refl|]. split; [done|]. split; [done|].
    split; [|split; [lia|done]]. intros i. tauto.
Qed.

(** ** Between calls *)

Record inv (s : pmm) (fl : lists) : Prop := mk_inv {
  v_core : core s fl;
  v_free : forall i, in_range i -> mbit s i = true -> ubit s i = false -> covered fl i;
  v_refs : forall i, in_range i -> mbit s i = true -> ubit s i = false -> refcounts s !! Z.to_nat (i - lowest) = Some 0;
  v_zero : forall i, in_range i -> mbit s i = true -> 0 < i;
  v_pub : forall n z, zones s !! n = Some z -> free_pages z = pages_in_lists z }.

(** What an operation of zone [n] on the block [b] of order [o] does to the pages
    outside the lists: [used] is their new state, [r] their new reference count. *)
Record block_step (n : nat) (s s' : pmm) (used : bool) (r : option Z) (o b : Z) : Prop := mk_step {
  b_managed : managed s' = managed s;
  b_reports : reports s' = reports s;
  b_bits : forall i, in_range i -> ubit s' i = if decide (within b o i) then used else ubit s i;
  b_refs : forall i, in_range i -> refcounts s' !! Z.to_nat (i - lowest) =
    (if decide (within b o i) then match r with Some _ => r | None => refcounts s !! Z.to_nat (i - lowest) end else refcounts s !! Z.to_nat (i - lowest));
  b_zone : forall z, zones s !! n = Some z -> exists z', zones s' !! n = Some z' /\ heads z' = heads z /\ zmagic z' = zmagic z;
  b_others : forall n', n' <> n -> zones s' !! n' = zones s !! n' }.

Lemma hand_out_ok s fl n z o b : core s fl -> zones s !! n = Some z -> loose s fl o b ->
  exists s' z', hand_out lowest highest hhdm n b o s = Ret s' /\ core s' fl /\ block_step n s s' true (Some 1) o b /\ quiet (fun i => i = b) s s' /\
    zones s' !! n = Some z' /\ free_pages z' = pages_in_lists z'.
Proof.
  intros C Ez Hl. pose proof (loose_first _ _ _ _ C Hl) as (Hbr & Hbm & Hbn). destruct Hl as (Ho & Ha & Hlo & Hhi & Hw). unfold hand_out.
  pose proof (Z.pow_pos_nonneg 2 o ltac:(lia) ltac:(lia)) as Hp. destruct Hcfg as [G1 G2 G3 _]. destruct (c_bm _ _ C) as [Hb1 Hb2].
  rewrite Z.shiftl_1_l. unfold KERNEL_BASE, PAGE_SIZE in *.
  destruct (set_range_ok lowest highest (bitmap s) b (2 ^ o) Hb1) as (bm & -> & B1 & B2 & B3); [lia..|unfold page_count in Hb2; lia|]. rewrite ret_bind.
  assert (C1 : core (set_bitmap bm s) fl).
  { apply core_bitmap; [done|done|done|]. intros i Hc. destruct Hc as (n' & o' & c & Hc & W). destruct (block_range s fl n' o' c i C Hc W) as (Hir & _). unfold in_range in Hir.
    rewrite B3 by lia. destruct (b - lowest <=? i - lowest) eqn:?, (i - lowest <? b - lowest + 2 ^ o) eqn:?; reify_bools; cbn [andb]; try done.
    destruct (Hw i) as (_ & _ & Hn); [unfold within; lia|]. destruct Hn. by exists n', o', c. }
  destruct (set_refs_ok 1 b (Z.to_nat (2 ^ o)) (set_bitmap bm s) fl C1) as (r & -> & R1 & R2); [lia|lia|]. rewrite ret_bind.
  assert (C2 : core (set_refcounts r (set_bitmap bm s)) fl) by (by apply core_refs).
  destruct (unmark_ok (set_refcounts r (set_bitmap bm s)) fl b C2 Hbr Hbm Hbn) as (m & -> & C3 & F3). rewrite ret_bind.
  destruct (publish_ok (set_mem m (set_refcounts r (set_bitmap bm s))) fl n z C3 Ez) as (z' & -> & C4 & Z1 & Z2 & Z3 & Z4).
  eexists _, z'. split; [done|]. split; [done|]. assert (Hn : (n < length (zones s))%nat) by (by eapply lookup_lt_Some).
  split; [constructor; try done|split; [|split; [cbn; by apply list_lookup_insert_eq|done]]].
  - intros i Hi. unfold ubit, in_range, within in *. cbn. rewrite B3 by lia. destruct (decide _), (b - lowest <=? i - lowest) eqn:?, (i - lowest <? b - lowest + 2 ^ o) eqn:?; reify_bools; cbn; done || lia.
  - intros i Hi. cbn. rewrite R2 by done. cbn. unfold within. rewrite Z2Nat.id by lia. done.
  - intros z0 E0. rewrite Ez in E0. injection E0 as <-. exists z'. split; [cbn; by apply list_lookup_insert_eq|done].
  - intros n' Hne. cbn. by rewrite list_lookup_insert_ne.
  - intros i Hi Hne. cbn. rewrite F3; [done|]. intros E. by apply Hne, page_at_inj.
Qed.

(** Taking a block of order [cur] off a list and giving out the block [k] of order
    [o] inside it. *)
Lemma inv_alloc s s' fl fl1 fl' n z z' o cur b k : inv s fl -> core s' fl' -> zones s !! n = Some z -> zones s' !! n = Some z' -> free_pages z' = pages_in_lists z' ->
  block_step n s s' true (Some 1) o k -> (forall i, within k o i -> within b cur i) ->
  (forall i, covered fl1 i <-> covered fl i /\ ~ within b cur i) -> parted n fl1 fl' b cur k o -> inv s' fl'.
Proof.
  intros [C V1 V2 V3 V4] C' Ez Ez' Hpub [S1 S2 S3 S4 _ S5] Hk H1 (P1 & _). constructor; [done| | | |].
  - intros i Hi Hm Hu. unfold mbit in Hm. rewrite S1 in Hm. rewrite S3 in Hu by done. destruct (decide (within k o i)) as [|Hnk]; [done|].
    apply P1. pose proof (V1 i Hi Hm Hu) as Hc. destruct (decide (within b cur i)); [by right|left; by apply H1].
  - intros i Hi Hm Hu. unfold mbit in Hm. rewrite S1 in Hm. rewrite S3 in Hu by done. rewrite S4 by done. destruct (decide (within k o i)); [done|]. by apply V2.
  - intros i Hi Hm. unfold mbit in Hm. rewrite S1 in Hm. by apply V3.
  - intros n0 z0 E0. destruct (decide (n0 = n)) as [->|Hne]; [rewrite Ez' in E0; by injection E0 as <-|]. rewrite S5 in E0 by done. by apply (V4 n0).
Qed.

Lemma block_step_frame n s s1 s2 u r o b : frame n s s1 -> block_step n s1 s2 u r o b -> block_step n s s2 u r o b.
Proof.
  intros F [S1 S2 S3 S4 S6 S5]. constructor.
  - by rewrite S1, (f_managed _ _ _ F).
  - by rewrite S2, (f_reports _ _ _ F).
  - intros i Hi. rewrite S3 by done. unfold ubit. by rewrite (f_bitmap _ _ _ F).
  - intros i Hi. rewrite S4 by done. by rewrite (f_refs _ _ _ F).
  - intros z Ez. destruct (f_zone _ _ _ F z Ez) as (z1 & E1 & H1 & H2 & _). destruct (S6 z1 E1) as (z2 & E2 & H3 & H4). exists z2. split; [done|]. split; congruence.
  - intros n' Hne. by rewrite S5, (f_others _ _ _ F).
Qed.

(** What a successful allocation gives: the block [b] of order [o]. *)
Record allocated (n : nat) (s s' : pmm) (fl fl' : lists) (o b : Z) : Prop := mk_allocated {
  a_inv : inv s' fl';
  a_step : block_step n s s' true (Some 1) o b;
  a_range : 0 < b /\ (2 ^ o | b) /\ lowest <= b /\ b + 2 ^ o <= highest;
  a_free : forall i, within b o i -> mbit s i = true /\ ubit s i = false;
  a_quiet : quiet (covered fl) s s';
  a_count : psum fl' n = psum fl n - 2 ^ o }.

(** Taking a block off its list. *)
Lemma take_ok s fl n z cur l1 b l2 op : inv s fl -> zones s !! n = Some z -> fl n cur = l1 ++ b :: l2 ->
  exists s1 s2 z2, buddy_list_unlink n (page_at b) s = Ret s1 /\ buddy_trace n (b * PAGE_SIZE) cur op s1 = Ret s2 /\ zones s2 !! n = Some z2 /\
    core s2 (upd fl n cur (l1 ++ l2)) /\ frame n s s2 /\ loose s2 (upd fl n cur (l1 ++ l2)) cur b /\ quiet (covered fl) s s2.
Proof.
  intros V Ez E. pose proof (v_core _ _ V) as C. destruct (unlink_ok s fl n z cur l1 b l2 C Ez E) as (s1 & -> & C1 & F1 & Q1).
  destruct (frame_zone _ _ _ _ F1 Ez) as (z1 & E1 & _). destruct (trace_ok s1 _ n z1 (b * PAGE_SIZE) cur op C1 E1) as (s2 & E12 & C2 & F2 & M2).
  pose proof (frame_trans _ _ _ _ F1 F2) as F12. destruct (frame_zone _ _ _ _ F12 Ez) as (z2 & E2 & _). exists s1, s2, z2. repeat (split; [done|]).
  split; [by apply (unlink_loose s s2 fl n cur l1 b l2)|]. intros i Hi Hn. rewrite M2. apply Q1; [done|]. intros Hin. apply Hn. exists n, cur, i. split; [done|].
  by apply (fl_order s fl n cur i C).
Qed.

(** The end of an allocation, after the block has been split. *)
Lemma finish_alloc s s1 s2 fl fl2 n z cur l1 b l2 o k (fl1 := upd fl n cur (l1 ++ l2)) : inv s fl -> zones s !! n = Some z -> fl n cur = l1 ++ b :: l2 ->
  frame n s s1 -> quiet (covered fl) s s1 ->
  core s2 fl2 -> frame n s1 s2 -> loose s2 fl2 o k -> quiet (fun i => covered fl1 i \/ within b cur i) s1 s2 -> parted n fl1 fl2 b cur k o -> (forall i, within k o i -> within b cur i) ->
  exists s', hand_out lowest highest hhdm n k o s2 = Ret s' /\ allocated n s s' fl fl2 o k.
Proof.
  intros V Ez E F1 Q1 C1 F2 L1 Q2 P1 Hk. pose proof (v_core _ _ V) as C. assert (Hb : b ∈ fl n cur) by (rewrite E, elem_of_app; right; by left).
  pose proof (frame_trans _ _ _ _ F1 F2) as F. destruct (c_block _ _ C _ _ _ Hb) as (_ & _ & Hcur & _). destruct (frame_zone _ _ _ _ F Ez) as (z1 & E1 & _).
  destruct (hand_out_ok s2 fl2 n z1 o k C1 E1 L1) as (s3 & z2 & -> & C2 & S2 & Q3 & E2 & Hpub). pose proof (block_step_frame _ _ _ _ _ _ _ _ F S2) as S.
  assert (Hfree : forall i, within k o i -> in_range i /\ mbit s i = true /\ ubit s i = false /\ covered fl i).
  { intros i Hi. destruct (block_range s fl n cur b i C Hb (Hk i Hi)) as (H1 & H2 & H3). repeat (split; [done|]). exists n, cur, b. auto. }
  assert (Hcov : forall i, covered fl1 i <-> covered fl i /\ ~ within b cur i) by (intros i; by apply (covered_remove s)).
  exists s3. split; [done|]. constructor.
  - by apply (inv_alloc s s3 fl fl1 fl2 n z z2 o cur b k).
  - done.
  - destruct L1 as (Ho & Ha & H1 & H2 & _). destruct (Hfree k (within_first k o ltac:(lia))) as (Hr & Hm & _). split; [by apply (v_zero _ _ V)|done].
  - intros i Hi. by destruct (Hfree i Hi) as (_ & ? & ? & _).
  - eapply quiet_trans; [exact Q1|]. eapply quiet_trans; [eapply quiet_mono; [exact Q2|]|eapply quiet_mono; [exact Q3|]]; cbn.
    + intros i [[Hc _]%Hcov|W]; [done|]. by exists n, cur, b.
    + intros i ->. destruct L1 as (Ho & _). by apply (Hfree k (within_first k o ltac:(lia))).
  - destruct P1 as (_ & P & _). rewrite P. unfold fl1. rewrite (psum_remove fl n cur l1 b l2) by done. lia.
Qed.

Lemma no_publish s fl n z : inv s fl -> zones s !! n = Some z -> buddy_publish_free_pages n s = Ret s.
Proof.
  intros V Ez. unfold buddy_publish_free_pages, zone_at. rewrite Ez. cbn [deref]. rewrite ret_bind. rewrite <- (v_pub _ _ V n z Ez).
  f_equal. unfold set_zone, set_free_pages. destruct s as [m bm mg r zs rp], z as [a1 a2 a3 a4 a5 a6 a7]. cbn in *. by rewrite list_insert_id.
Qed.

Lemma first_block s fl n z o : core s fl -> zones s !! n = Some z -> 0 <= o < 20 -> exists hh, mem s !! head_of z o = Some hh /\
  next hh = match fl n o with [] => head_of z o | b :: _ => page_at b end.
Proof.
  intros C Ez Ho. destruct (nx_hdr _ _ _ (dll_first _ _ _ (c_dll _ _ C n z o Ez Ho))) as (hh & E & Enx). exists hh. split; [done|]. rewrite Enx. by destruct (fl n o).
Qed.

(** Splitting the first block of a list down to order [o]. *)
Lemma take_first s fl n z cur b l o op : inv s fl -> zones s !! n = Some z -> fl n cur = b :: l -> 0 <= o <= cur ->
  exists s1, buddy_list_unlink n (page_at b) s = Ret s1 /\ buddy_to_phys hhdm (page_at b) / PAGE_SIZE = b /\ exists s2, buddy_trace n (b * PAGE_SIZE) cur op s1 = Ret s2 /\
    exists s3, split_loop hhdm 21 n b cur o s2 = Ret s3 /\ exists s' fl', hand_out lowest highest hhdm n b o s3 = Ret s' /\ allocated n s s' fl fl' o b.
Proof.
  intros V Ez E Ho. pose proof (v_core _ _ V) as C. assert (Hb : b ∈ fl n cur) by (rewrite E; by left). destruct (block_first _ _ _ _ _ C Hb) as (Hbr & _). destruct (fl_order _ _ _ _ _ C Hb) as [Hcur _].
  destruct (take_ok s fl n z cur [] b l op V Ez E) as (s1 & s2 & z2 & -> & E12 & E2 & C2 & F2 & L2 & Q2). exists s1. split; [done|]. split; [by rewrite page_at_phys, phys_pfn|].
  exists s2. split; [done|]. destruct (split_loop_ok n o 21 s2 _ z2 cur b C2 E2 Ho ltac:(lia) L2) as (s3 & fl3 & -> & C3 & F3 & L3 & Q3 & P3). exists s3. split; [done|].
  destruct (finish_alloc s s2 s3 fl fl3 n z cur [] b l o b V Ez E F2 Q2 C3 F3 L3 Q3 P3) as (s4 & -> & A); [|by exists s4, fl3].
  intros i Hi. unfold within in *. assert (2 ^ o <= 2 ^ cur) by (apply Z.pow_le_mono_r; lia). lia.
Qed.

Lemma alloc_ok s fl n z o : inv s fl -> zones s !! n = Some z -> 0 <= o ->
  (buddy_alloc_internal lowest highest hhdm n o s = Ret (0, s) /\ (forall o', o <= o' < 20 -> fl n o' = [])) \/
  exists s' fl' b, buddy_alloc_internal lowest highest hhdm n o s = Ret (b * PAGE_SIZE, s') /\ allocated n s s' fl fl' o b.
Proof.
  intros V Ez Ho. pose proof (v_core _ _ V) as C. unfold buddy_alloc_internal, MAX_ORDER. destruct (o >=? 20) eqn:?; reify_bools; [left; split; [done|lia]|].
  destruct (search_ok s fl n z 21 o C Ez) as (cur & -> & Hc & Hne & Hem); [lia|lia|]. rewrite ret_bind. cbn beta iota. destruct (cur =? 20) eqn:?; reify_bools.
  { left. subst cur. rewrite (no_publish s fl n z V Ez), ret_bind. done. }
  right. unfold zone_at at 1. rewrite Ez. cbn [deref]. rewrite ret_bind.
  destruct (first_block s fl n z cur C Ez ltac:(lia)) as (hh & -> & Enx). cbn [deref]. rewrite ret_bind, Enx.
  destruct (fl n cur) as [|b l] eqn:E; [by destruct (Hne ltac:(lia))|].
  destruct (take_first s fl n z cur b l o TraceAllocate V Ez E ltac:(lia)) as (s1 & -> & -> & s2 & E2 & s3 & E3 & s4 & fl4 & E4 & A).
  rewrite ret_bind, E2, ret_bind, E3, ret_bind, E4, ret_bind. by exists s4, fl4, b.
Qed.

(** [buddy_alloc_page_locked] does what an allocation of order 0 does, up to the trace. *)
Lemma pop_ok s fl n z fuel : forall o, inv s fl -> zones s !! n = Some z -> 0 <= o <= 20 -> 20 - o < Z.of_nat fuel ->
  pop_loop lowest highest hhdm fuel n o s = Ret (20, None, s) /\ (forall o', o <= o' < 20 -> fl n o' = []) \/
  exists cur b l s1, o <= cur < 20 /\ fl n cur = b :: l /\ buddy_list_unlink n (page_at b) s = Ret s1 /\ pop_loop lowest highest hhdm fuel n o s = Ret (cur, Some (page_at b), s1).
Proof.
  induction fuel as [|fuel IH]; intros o V Ez Ho Hf; [lia|]. pose proof (v_core _ _ V) as C. cbn [pop_loop]. unfold MAX_ORDER. destruct (o <? 20) eqn:?; reify_bools.
  2: { left. assert (o = 20) as -> by lia. split; [done|lia]. }
  unfold buddy_list_pop. rewrite (nonempty_ok s fl n z o C Ez) by lia. rewrite ret_bind. cbn beta iota. destruct (fl n o) as [|b l] eqn:E; cbn [negb].
  - rewrite ret_bind. cbn beta iota. destruct (IH (o + 1) V Ez) as [[-> Hem]|(cur & b & l & s1 & Hc & Eb & Eu & ->)]; [lia|lia| |].
    + left. split; [done|]. intros o' Ho'. destruct (decide (o' = o)) as [->|]; [done|]. apply Hem. lia.
    + right. exists cur, b, l, s1. split; [lia|done].
  - right. exists o, b, l. unfold zone_at. rewrite Ez. cbn [deref]. rewrite ret_bind. destruct (first_block s fl n z o C Ez ltac:(lia)) as (hh & -> & Enx). cbn [deref]. rewrite ret_bind, Enx, E.
    destruct (take_ok s fl n z o [] b l TraceRefill V Ez E) as (s1 & _ & _ & -> & _). exists s1. rewrite !ret_bind. split; [lia|done].
Qed.

Lemma page_locked_ok s fl n z : inv s fl -> zones s !! n = Some z ->
  (buddy_alloc_page_locked lowest highest hhdm n s = Ret (0, s) /\ (forall o', 0 <= o' < 20 -> fl n o' = [])) \/
  exists s' fl' b, buddy_alloc_page_locked lowest highest hhdm n s = Ret (b * PAGE_SIZE, s') /\ allocated n s s' fl fl' 0 b.
Proof.
  intros V Ez. unfold buddy_alloc_page_locked. destruct (pop_ok s fl n z 21 0 V Ez) as [[-> Hem]|(cur & b & l & s1 & Hc & E & Eu & ->)]; [lia|lia| |]; rewrite ret_bind; cbn beta iota.
  - left. rewrite (no_publish s fl n z V Ez), ret_bind. done.
  - right. destruct (take_first s fl n z cur b l 0 TraceRefill V Ez E ltac:(lia)) as (s1' & Eu' & -> & s2 & E2 & s3 & E3 & s4 & fl4 & E4 & A).
    rewrite Eu in Eu'. injection Eu' as <-. rewrite E2, ret_bind, E3, ret_bind, E4, ret_bind. by exists s4, fl4, b.
Qed.

(** ** Freeing *)

Lemma buddy_cases b o : 0 <= o -> 0 <= b -> (2 ^ o | b) ->
  Z.lxor b (2 ^ o) = b + 2 ^ o /\ (2 ^ (o + 1) | b) \/ Z.lxor b (2 ^ o) = b - 2 ^ o /\ (2 ^ (o + 1) | b - 2 ^ o).
Proof.
  intros Ho Hb [c ->]. pose proof (Z.pow_pos_nonneg 2 o) as Hp. rewrite Z.pow_add_r by lia. change (2 ^ 1) with 2.
  assert (E : Z.lxor (c * 2 ^ o) (2 ^ o) = Z.lxor c 1 * 2 ^ o) by (rewrite <- (Z.mul_1_l (2 ^ o)) at 2; rewrite <- !Z.shiftl_mul_pow2, <- Z.shiftl_lxor by lia; done).
  rewrite E. destruct (Z.Even_or_Odd c) as [[k ->]|[k ->]].
  - left. assert (Ex : Z.lxor (2 * k) 1 = 2 * k + 1).
    { symmetry. apply Z.add_nocarry_lxor. apply Z.bits_inj'. intros i Hi. rewrite Z.land_spec, Z.bits_0. destruct (decide (i = 0)) as [->|]; [by rewrite Z.testbit_even_0|].
      rewrite (Z.bits_above_log2 1 i), andb_false_r; [done|lia|cbn; lia]. }
    rewrite Ex. split; [lia|]. exists k. lia.
  - right. assert (Ex : Z.lxor (2 * k + 1) 1 = 2 * k).
    { assert (Ek : 2 * k + 1 = Z.lxor (2 * k) 1).
      { apply Z.add_nocarry_lxor. apply Z.bits_inj'. intros i Hi. rewrite Z.land_spec, Z.bits_0. destruct (decide (i = 0)) as [->|]; [by rewrite Z.testbit_even_0|].
        rewrite (Z.bits_above_log2 1 i), andb_false_r; [done|lia|cbn; lia]. }
      rewrite Ek, Z.lxor_assoc, Z.lxor_nilpotent, Z.lxor_0_r. done. }
    rewrite Ex. split; [lia|]. exists k. lia.
Qed.

Lemma loose_join s fl o b : loose s fl o b -> loose s fl o (b + 2 ^ o) -> (2 ^ (o + 1) | b) -> o + 1 < 20 -> loose s fl (o + 1) b.
Proof.
  intros (Ho & _ & H1 & _ & H3) (_ & _ & _ & K2 & K3) Ha Ho'. pose proof (pow2_half (o + 1) ltac:(lia)) as Hp. replace (o + 1 - 1) with o in Hp by lia.
  split; [lia|]. split; [done|]. split; [done|]. split; [lia|]. intros i Hi. unfold within in *. destruct (decide (i < b + 2 ^ o)); [apply H3; lia|apply K3; lia].
Qed.

(** Block [b] has been merged into block [b'], whose buddy is on no list. *)
Definition coalesced (n : nat) (fl fl' : lists) (b o b' o' : Z) : Prop :=
  (forall i, within b o i -> within b' o' i) /\ (forall i, covered fl i \/ within b o i <-> covered fl' i \/ within b' o' i) /\
  psum fl' n + 2 ^ o' = psum fl n + 2 ^ o /\ (o' < 19 -> Z.lxor b' (2 ^ o') ∉ fl' n o').

Lemma buddy_merge_ok n fuel : forall s fl z o b, core s fl -> zones s !! n = Some z -> loose s fl o b -> 19 - o < Z.of_nat fuel ->
  exists b' o' s' fl', merge_loop lowest highest hhdm fuel n b o s = Ret (b', o', s') /\ core s' fl' /\ frame n s s' /\ loose s' fl' o' b' /\
    coalesced n fl fl' b o b' o' /\ quiet (covered fl) s s'.
Proof.
  induction fuel as [|fuel IH]; intros s fl z o b C Ez Hl Hf; [destruct Hl as (? & _); lia|]. cbn [merge_loop]. unfold MAX_ORDER. change (20 - 1) with 19.
  pose proof Hl as (Ho & Ha & Hlo & Hhi & Hw). rewrite Z.shiftl_1_l. set (bud := Z.lxor b (2 ^ o)).
  assert (Hstop : (o < 19 -> bud ∉ fl n o) -> exists b' o' s' fl', Ret (b, o, s) = Ret (b', o', s') /\ core s' fl' /\ frame n s s' /\ loose s' fl' o' b' /\
    coalesced n fl fl' b o b' o' /\ quiet (covered fl) s s').
  { intros Hmax. exists b, o, s, fl. split; [done|]. split; [done|]. split; [apply frame_refl|]. split; [done|]. split; [|done]. split; [done|]. split; [done|]. split; [lia|done]. }
  destruct (o <? 19) eqn:?; reify_bools; [|apply Hstop; lia].
  destruct (cfg_low Hcfg) as [G1 _]. pose proof (Z.pow_pos_nonneg 2 o ltac:(lia) ltac:(lia)) as Hpp.
  pose proof (buddy_cases b o ltac:(lia) ltac:(lia) Ha) as Hbud. fold bud in Hbud.
  assert (Hba : (2 ^ o | bud)).
  { assert (Hd : (2 ^ o | 2 ^ o)) by apply Z.divide_refl. destruct Hbud as [[-> _]|[-> _]]; [by apply Z.divide_add_r|by apply Z.divide_sub_r]. }
  assert (Hfree : (if (bud <? lowest) || (bud >=? highest) then Ret false else mg ← pmm_is_managed lowest highest s (bud * PAGE_SIZE);
            if negb mg then Ret false else used ← pmm_bitmap_test (bitmap s) (bud - lowest); Ret (negb used)) =
          Ret (bool_decide (in_range bud) && mbit s bud && negb (ubit s bud))).
  { rewrite (is_managed_ok s fl bud C). unfold in_range. destruct (bud <? lowest) eqn:?, (bud >=? highest) eqn:?; reify_bools; cbn [orb];
      [rewrite bool_decide_eq_false_2 by lia; done..|]. rewrite bool_decide_eq_true_2, decide_True by lia. rewrite ret_bind. destruct (mbit s bud); [|done]. cbn [negb andb].
    rewrite (bitmap_test_ok s fl) by (done || unfold in_range; lia). done. }
  rewrite Hfree, ret_bind. destruct (bool_decide (in_range bud) && mbit s bud && negb (ubit s bud)) eqn:Efree; cbn [negb].
  2: { apply Hstop. intros _ Hin. destruct (block_first _ _ _ _ _ C Hin) as (Hr & Hm & Hu). rewrite bool_decide_eq_true_2, Hm, Hu in Efree by done. done. }
  apply andb_true_iff in Efree as [Efree Hu%negb_true_iff]. apply andb_true_iff in Efree as [Hr%bool_decide_eq_true Hm].
  rewrite (node_valid_ok s fl n z o bud C Ez Ho Hr Hm Hba), ret_bind. destruct (bool_decide (bud ∈ fl n o)) eqn:Hin; [apply bool_decide_eq_true in Hin|apply bool_decide_eq_false in Hin; by apply Hstop].
  pose proof Hin as Hin'. apply list_elem_of_split in Hin' as (l1 & l2 & E). destruct (unlink_ok s fl n z o l1 bud l2 C Ez E) as (s1 & -> & C1 & F1 & Q1). rewrite ret_bind.
  destruct (frame_zone _ _ _ _ F1 Ez) as (z1 & E1 & _). set (b1 := if b <? bud then b else bud).
  destruct (trace_ok s1 _ n z1 (b1 * PAGE_SIZE) (o + 1) TraceMerge C1 E1) as (s2 & -> & C2 & F2 & M2). rewrite ret_bind. pose proof (frame_trans _ _ _ _ F1 F2) as F12.
  destruct (frame_zone _ _ _ _ F12 Ez) as (z2 & E2 & _). pose proof (unlink_loose s s2 fl n o l1 bud l2 C E F12) as Lb.
  assert (Lo : loose s2 (upd fl n o (l1 ++ l2)) o b).
  { apply (loose_frame s s2 fl _ n o b Hl F12). intros i _ Hc. by apply (covered_remove s fl n o l1 bud l2 i C E) in Hc as [? _]. }
  assert (Hj : loose s2 (upd fl n o (l1 ++ l2)) (o + 1) b1 /\ forall i, within b1 (o + 1) i <-> within b o i \/ within bud o i).
  { pose proof (pow2_half (o + 1) ltac:(lia)) as Hp. replace (o + 1 - 1) with o in Hp by lia. subst b1. destruct Hbud as [[Eb Hd]|[Eb Hd]]; rewrite Eb in *.
    - rewrite (proj2 (Z.ltb_lt b _)) by lia. split; [apply loose_join; done || lia|]. intros i. unfold within. lia.
    - rewrite (proj2 (Z.ltb_ge b _)) by lia. split; [|intros i; unfold within; lia]. apply loose_join; [done| |done|lia]. by replace (b - 2 ^ o + 2 ^ o) with b by lia. }
  destruct Hj as [Lj Wj].
  destruct (IH s2 _ z2 (o + 1) b1 C2 E2 Lj ltac:(lia)) as (b' & o' & s' & fl' & -> & C' & F' & L' & (K1 & K2 & K3 & K4) & Q'). exists b', o', s', fl'.
  split; [done|]. split; [done|]. split; [by eapply frame_trans|]. split; [done|].
  pose proof (fun i => covered_remove s fl n o l1 bud l2 i C E) as Cov. split; [split; [|split; [|split; [|done]]]|].
  - intros i Hi. apply K1, Wj. by left.
  - intros i. rewrite <- K2, Wj, Cov. split; [|].
    + intros [Hc|Hc]; [|tauto]. destruct (decide (within bud o i)); tauto.
    + intros [[Hc _]|[Hc|Hc]]; [by left|by right|left; by exists n, o, bud].
  - rewrite (psum_remove fl n o l1 bud l2 Ho E) in K3. rewrite (pow2_half (o + 1)) in K3 by lia. replace (o + 1 - 1) with o in K3 by lia. lia.
  - apply (quiet_trans _ s s1 s'); [eapply quiet_mono; [exact Q1|]; intros i Hi; exists n, o, i; split; [done|]; apply within_first; lia|].
    intros i Hi Hnc. rewrite Q'; [by rewrite M2|done|]. intros Hc%Cov. tauto.
Qed.


(** What freeing the block [b] of order [o] does; the block that reaches the
    lists is [k] of order [p], and its buddy is on no list. *)
Record freed (n : nat) (s s' : pmm) (fl fl' : lists) (o b : Z) : Prop := mk_freed {
  r_inv : inv s' fl';
  r_step : block_step n s s' false None o b;
  r_quiet : quiet (fun i => covered fl i \/ within b o i) s s';
  r_count : psum fl' n = psum fl n + 2 ^ o;
  r_block : exists k p, k ∈ fl' n p /\ (forall i, within b o i -> within k p i) /\ (p < 19 -> Z.lxor k (2 ^ p) ∉ fl' n p) }.

(** The pages of an allocated block that nobody refers to any more. *)
Definition released (s : pmm) (o b : Z) : Prop :=
  0 <= o < 20 /\ (2 ^ o | b) /\ lowest <= b /\ b + 2 ^ o <= highest /\
  forall i, within b o i -> mbit s i = true /\ ubit s i = true /\ refcounts s !! Z.to_nat (i - lowest) = Some 0.

Lemma clear_ok s fl o b : core s fl -> 0 <= o < 20 /\ (2 ^ o | b) /\ lowest <= b /\ b + 2 ^ o <= highest /\ (forall i, within b o i -> mbit s i = true /\ ubit s i = true) ->
  exists bm, pmm_bitmap_clear_range lowest highest (bitmap s) b (2 ^ o) = Ret bm /\ core (set_bitmap bm s) fl /\
    (forall i, in_range i -> ubit (set_bitmap bm s) i = if decide (within b o i) then false else ubit s i) /\ loose (set_bitmap bm s) fl o b.
Proof.
  intros C (Ho & Ha & Hlo & Hhi & Hw). pose proof (Z.pow_pos_nonneg 2 o ltac:(lia) ltac:(lia)) as Hp.
  destruct Hcfg as [G1 G2 G3 _]. destruct (c_bm _ _ C) as [Hb1 Hb2]. unfold KERNEL_BASE, PAGE_SIZE in *.
  destruct (clear_range_ok lowest highest (bitmap s) b (2 ^ o) Hb1) as (bm & -> & B1 & B2 & B3); [lia..|unfold page_count in Hb2; lia|].
  assert (Hbit : forall i, in_range i -> bit_at bm (i - lowest) = if decide (within b o i) then false else ubit s i).
  { intros i Hi. unfold ubit, in_range, within in *. rewrite B3 by lia. destruct (decide _), (b - lowest <=? i - lowest) eqn:?, (i - lowest <? b - lowest + 2 ^ o) eqn:?; reify_bools; cbn; done || lia. }
  assert (Hnc : forall i, within b o i -> ~ covered fl i).
  { intros i Hi (n' & o' & c & Hc & W). destruct (block_range s fl n' o' c i C Hc W) as (_ & _ & Hu). destruct (Hw i Hi) as (_ & Hu'). congruence. }
  exists bm. split; [done|]. split; [|split; [done|]].
  - apply core_bitmap; [done|done|done|]. intros i Hc. destruct Hc as (n' & o' & c & Hc & W). destruct (block_range s fl n' o' c i C Hc W) as (Hir & _).
    rewrite Hbit by done. rewrite decide_False; [done|]. intros Hi. apply (Hnc i Hi). by exists n', o', c.
  - repeat (split; [done|]). intros i Hi. destruct (Hw i Hi) as (Hm & _). split; [done|]. split; [|by apply Hnc]. unfold ubit. cbn. rewrite Hbit, decide_True; [done|done|]. unfold in_range, within in *. lia.
Qed.

Lemma inv_free s s' fl fl' n z' o b : inv s fl -> core s' fl' -> zones s' !! n = Some z' -> free_pages z' = pages_in_lists z' -> released s o b ->
  block_step n s s' false None o b -> (forall i, covered fl i \/ within b o i -> covered fl' i) -> inv s' fl'.
Proof.
  intros [C V1 V2 V3 V4] C' Ez' Hpub (_ & _ & _ & _ & Hw) [S1 S2 S3 S4 _ S5] H1. constructor; [done| | | |].
  - intros i Hi Hm Hu. apply H1. unfold mbit in Hm. rewrite S1 in Hm. rewrite S3 in Hu by done. destruct (decide (within b o i)); [by right|]. left. by apply V1.
  - intros i Hi Hm Hu. unfold mbit in Hm. rewrite S1 in Hm. rewrite S3 in Hu by done. rewrite S4 by done. destruct (decide (within b o i)) as [W|W]; [by apply Hw|]. by apply V2.
  - intros i Hi Hm. unfold mbit in Hm. rewrite S1 in Hm. by apply V3.
  - intros n0 z0 E0. destruct (decide (n0 = n)) as [->|Hne]; [rewrite Ez' in E0; by injection E0 as <-|]. rewrite S5 in E0 by done. by apply (V4 n0).
Qed.

Lemma free_ok s fl n z o b : inv s fl -> zones s !! n = Some z -> released s o b ->
  exists s' fl', buddy_free_internal lowest highest hhdm n (b * PAGE_SIZE) o s = Ret s' /\ freed n s s' fl fl' o b.
Proof.
  intros V Ez Hr. pose proof Hr as (Ho & Ha & _). unfold buddy_free_internal. rewrite phys_pfn, !Z.shiftl_1_l.
  rewrite (land_aligned (b * PAGE_SIZE) (o + 12)); [|lia|rewrite Z.pow_add_r by lia; destruct Ha as [c ->]; exists c; unfold PAGE_SIZE; lia]. cbn [nz Z.eqb negb].
  destruct (clear_ok s fl o b (v_core _ _ V)) as (bm & -> & C1 & B1 & L1); [destruct Hr as (? & ? & ? & ? & Hw); repeat (split; [done|]); intros i Hi; by destruct (Hw i Hi) as (? & ? & _)|]. rewrite ret_bind. set (s1 := set_bitmap bm s) in *.
  destruct (trace_ok s1 fl n z (b * PAGE_SIZE) o TraceFree C1 Ez) as (s2 & -> & C2 & F2 & M2). rewrite ret_bind. destruct (frame_zone _ _ _ _ F2 Ez) as (z2 & E2 & _).
  assert (L2 : loose s2 fl o b) by (by apply (loose_frame s1 s2 fl fl n)).
  destruct (buddy_merge_ok n 20 s2 fl z2 o b C2 E2 L2 ltac:(lia)) as (k & p & s3 & fl3 & -> & C3 & F3 & L3 & (K1 & K2 & K3 & K4) & Q3). rewrite ret_bind. cbn beta iota.
  destruct (frame_zone _ _ _ _ F3 E2) as (z3 & E3 & _). pose proof (loose_first _ _ _ _ C3 L3) as (Hkr & Hkm & Hkn). pose proof L3 as (Hp & Hka & _).
  rewrite (node_valid_ok s3 fl3 n z3 p k C3 E3 Hp Hkr Hkm Hka), ret_bind. rewrite bool_decide_eq_false_2 by apply Hkn.
  destruct (link_ok s3 fl3 n z3 p k C3 E3 L3) as (s4 & -> & C4 & F4 & Q4). rewrite ret_bind. destruct (frame_zone _ _ _ _ F4 E3) as (z4 & E4 & _).
  destruct (publish_ok s4 _ n z4 C4 E4) as (z5 & -> & C5 & Z1 & Z2 & Z3 & Z4). pose proof (frame_trans _ _ _ _ (frame_trans _ _ _ _ F2 F3) F4) as F.
  assert (E5 : zones (set_zone n z5 s4) !! n = Some z5) by (cbn; apply list_lookup_insert_eq; by eapply lookup_lt_Some).
  assert (S : block_step n s (set_zone n z5 s4) false None o b).
  { constructor.
    - apply (f_managed _ _ _ F).
    - apply (f_reports _ _ _ F).
    - intros i Hi. unfold ubit at 1. cbn [set_zone bitmap]. rewrite (f_bitmap _ _ _ F). by apply B1.
    - intros i Hi. cbn [set_zone refcounts]. rewrite (f_refs _ _ _ F). by destruct (decide _).
    - intros z0 E0. destruct (f_zone _ _ _ F z0 E0) as (z1 & E1 & H1 & H2 & _). rewrite E4 in E1. injection E1 as <-. exists z5. split; [done|]. split; congruence.
    - intros n' Hne. cbn. rewrite list_lookup_insert_ne by done. by apply (f_others _ _ _ F). }
  assert (Cov : forall i, covered fl i \/ within b o i -> covered (upd fl3 n p (fl3 n p ++ [k])) i) by (intros i Hi; apply covered_add; by apply K2).
  eexists _, _. split; [done|]. constructor.
  - by apply (inv_free s _ fl _ n z5 o b).
  - done.
  - intros i Hi Hn. cbn [set_zone mem]. rewrite Q4; [|done|].
    + rewrite Q3; [by rewrite M2|done|tauto].
    + intros H. apply Hn, K2. destruct H as [->|H]; [right; apply within_first; lia|left]. exists n, p, i. split; [done|]. apply within_first. lia.
  - rewrite psum_add by lia. lia.
  - exists k, p. rewrite fl_upd_eq. split; [rewrite elem_of_app; right; by left|]. split; [done|]. intros Hp19. rewrite elem_of_app, list_elem_of_singleton. intros [H|H]; [by apply K4|].
    assert (Z.lxor (Z.lxor k (2 ^ p)) k = 0) as Hx by (by rewrite H, Z.lxor_nilpotent). rewrite Z.lxor_comm, <- Z.lxor_assoc, Z.lxor_nilpotent, Z.lxor_0_l in Hx.
    pose proof (Z.pow_pos_nonneg 2 p). lia.
Qed.

(** A block that is not aligned to its size is reported and not freed. *)
Lemma free_misaligned s n phys o : 0 <= o -> ~ (2 ^ (o + 12) | phys) -> buddy_free_internal lowest highest hhdm n phys o s = Ret (report s).
Proof.
  intros Ho Hd. unfold buddy_free_internal. rewrite Z.shiftl_1_l, land_ones_small by lia. destruct (nz _) eqn:E; [done|]. exfalso. apply Hd, Z.mod_divide; [by apply Z.pow_nonzero; lia|].
  unfold nz in E. by apply negb_false_iff, Z.eqb_eq in E.
Qed.

(** ** Allocating between bounds *)

Lemma fl_length s fl n o : core s fl -> Z.of_nat (length (fl n o)) <= page_count lowest highest.
Proof.
  intros C. destruct (cfg_low Hcfg) as [_ G]. unfold page_count. assert (Hs : fl n o ⊆+ seqZ lowest (highest - lowest)).
  { apply NoDup_submseteq; [by apply (fl_nodup s)|]. intros b Hb. apply elem_of_seqZ. destruct (block_first _ _ _ _ _ C Hb) as [Hr _]. unfold in_range in Hr. lia. }
  apply submseteq_length in Hs. rewrite length_seqZ in Hs. lia.
Qed.

(** The link after the blocks [l1] of a list. *)
Definition position (z : zone) (o : Z) (l : list Z) : Z := match l with [] => head_of z o | b :: _ => page_at b end.
Lemma next_position s fl n z o l1 b l2 : core s fl -> zones s !! n = Some z -> 0 <= o < 20 -> fl n o = l1 ++ b :: l2 ->
  exists h, mem s !! page_at b = Some h /\ next h = position z o l2.
Proof.
  intros C Ez Ho E. pose proof (c_dll _ _ C n z o Ez Ho) as D. rewrite E, map_app in D. cbn [map] in D. apply dll_next in D.
  destruct (nx_hdr _ _ _ D) as (h & Eh & En). exists h. split; [done|]. rewrite En. by destruct l2.
Qed.
Lemma position_block s fl n z o b : core s fl -> zones s !! n = Some z -> b ∈ fl n o -> page_at b <> head_of z o.
Proof. intros C Ez Hb E. destruct (block_first _ _ _ _ _ C Hb) as [Hr _]. destruct (fl_order _ _ _ _ _ C Hb) as [Ho _]. destruct (c_heads _ _ C n z o Ez Ho) as [_ Hp]. by apply (Hp b Hr). Qed.

Lemma validate_loop_ok s fl n z o fuel : forall l1 l2 pr, core s fl -> zones s !! n = Some z -> 0 <= o < 20 -> fl n o = l1 ++ l2 -> (length l2 < fuel)%nat ->
  validate_loop lowest highest hhdm fuel n o pr (position z o l2) (Z.of_nat (length l1)) s = Ret s.
Proof.
  induction fuel as [|fuel IH]; intros l1 l2 pr C Ez Ho E Hf; [lia|]. cbn [validate_loop]. unfold zone_at. rewrite Ez. cbn [deref]. rewrite ret_bind. destruct l2 as [|b l2]; cbn [position].
  - by rewrite Z.eqb_refl.
  - assert (Hb : b ∈ fl n o) by (rewrite E, elem_of_app; right; by left). rewrite (proj2 (Z.eqb_neq _ _)) by (by apply (position_block s fl n)).
    pose proof (fl_length s fl n o C) as Hlen. rewrite E, length_app in Hlen. cbn [length] in *. destruct (Z.of_nat (length l1) + 1 >? page_count lowest highest) eqn:?; reify_bools; [lia|].
    destruct (block_first _ _ _ _ _ C Hb) as (Hr & Hm & _). destruct (c_block _ _ C _ _ _ Hb) as (_ & _ & _ & Ha & _). rewrite (node_valid_ok s fl n z o b C Ez Ho Hr Hm Ha), ret_bind.
    rewrite bool_decide_eq_true_2 by done. destruct (next_position s fl n z o l1 b l2 C Ez Ho E) as (h & -> & En). cbn [deref]. rewrite ret_bind, En.
    replace (Z.of_nat (length l1) + 1) with (Z.of_nat (length (l1 ++ [b]))) by (rewrite length_app; cbn; lia). apply IH; [done..| |lia]. by rewrite <- app_assoc.
Qed.
Lemma validate_ok s fl n z o : core s fl -> zones s !! n = Some z -> 0 <= o < 20 -> buddy_list_validate lowest highest hhdm n o s = Ret s.
Proof.
  intros C Ez Ho. unfold buddy_list_validate, zone_at. rewrite Ez. cbn [deref]. rewrite ret_bind. destruct (first_block s fl n z o C Ez Ho) as (hh & -> & En). cbn [deref]. rewrite ret_bind, En.
  apply (validate_loop_ok s fl n z o _ [] (fl n o)); try done. pose proof (fl_length s fl n o C). lia.
Qed.

Lemma range_find_ok s fl n z min max o cur fuel : forall l1 l2, core s fl -> zones s !! n = Some z -> 0 <= cur < 20 -> fl n cur = l1 ++ l2 -> (length l2 < fuel)%nat ->
  range_find hhdm fuel (head_of z cur) (position z cur l2) min max o cur s = Ret None /\ (forall b, b ∈ l2 -> range_candidate min max o cur (b * PAGE_SIZE) = None) \/
  exists l3 b l4 c, fl n cur = l3 ++ b :: l4 /\ range_candidate min max o cur (b * PAGE_SIZE) = Some c /\
    range_find hhdm fuel (head_of z cur) (position z cur l2) min max o cur s = Ret (Some (page_at b, c)).
Proof.
  induction fuel as [|fuel IH]; intros l1 l2 C Ez Ho E Hf; [lia|]. cbn [range_find]. destruct l2 as [|b l2]; cbn [position].
  - left. rewrite Z.eqb_refl, orb_true_r. split; [done|]. intros b Hb. by apply elem_of_nil in Hb.
  - assert (Hb : b ∈ fl n cur) by (rewrite E, elem_of_app; right; by left). rewrite (proj2 (Z.eqb_neq _ (head_of z cur))) by (by apply (position_block s fl n)).
    destruct (block_first _ _ _ _ _ C Hb) as (Hr & _). pose proof (page_at_kernel b Hr) as Hk. rewrite (proj2 (Z.ltb_ge _ KERNEL_BASE)) by done. unfold KERNEL_BASE in Hk.
    rewrite (proj2 (Z.eqb_neq _ 0)) by lia. cbn [orb]. rewrite page_at_phys by done. destruct (range_candidate min max o cur (b * PAGE_SIZE)) as [c|] eqn:Ec.
    + right. by exists l1, b, l2, c.
    + destruct (next_position s fl n z cur l1 b l2 C Ez Ho E) as (h & -> & En). cbn [deref]. rewrite ret_bind, En. cbn [length] in Hf.
      destruct (IH (l1 ++ [b]) l2 C Ez Ho) as [[-> Hn]|H]; [by rewrite <- app_assoc|lia| |by right]. left. split; [done|]. intros x [->|Hx]%elem_of_cons; [done|]. by apply Hn.
Qed.

(** Rounding up to a power of two. *)
Lemma round_up x k : 0 <= x -> 0 <= k <= 64 -> x + 2 ^ k <= 2 ^ 64 -> let r := Z.land (u64 (x + 2 ^ k - 1)) (UINT64_MAX - (2 ^ k - 1)) in
  x <= r < x + 2 ^ k /\ (2 ^ k | r).
Proof.
  intros Hx Hk Hb. cbv zeta. pose proof (Z.pow_pos_nonneg 2 k) as Hp. rewrite u64_id by lia. set (y := x + 2 ^ k - 1). assert (Hy : 0 <= y < 2 ^ 64) by (subst y; lia).
  assert (E : Z.land y (UINT64_MAX - (2 ^ k - 1)) = y / 2 ^ k * 2 ^ k).
  { apply Z.bits_inj'. intros i Hi. rewrite Z.land_spec, <- (Z.shiftl_mul_pow2 (y / 2 ^ k)), <- Z.shiftr_div_pow2 by lia. rewrite Z.shiftl_spec by lia.
    replace (UINT64_MAX - (2 ^ k - 1)) with (Z.shiftl (Z.ones (64 - k)) k).
    2: { rewrite Z.shiftl_mul_pow2 by lia. rewrite Z.ones_equiv. rewrite Z.mul_pred_l, <- Z.pow_add_r by lia. replace (64 - k + k) with 64 by lia. unfold UINT64_MAX. lia. }
    rewrite Z.shiftl_spec by lia. destruct (decide (i < k)); [rewrite !(Z.testbit_neg_r _ (i - k)) by lia; apply andb_false_r|]. rewrite Z.shiftr_spec by lia.
    replace (i - k + k) with i by lia. destruct (decide (i < 64)); [rewrite Z.ones_spec_low by lia; apply andb_true_r|].
    destruct (decide (y = 0)) as [->|]; [by rewrite Z.bits_0|]. rewrite (Z.bits_above_log2 y i); [done|lia|]. apply Z.log2_lt_pow2; [lia|]. apply (Z.lt_le_trans _ (2 ^ 64)); [lia|]. apply Z.pow_le_mono_r; lia. }
  rewrite E. pose proof (Z.div_mod y (2 ^ k)) as Hd. pose proof (Z.mod_pos_bound y (2 ^ k)). split; [subst y; lia|]. by exists (y / 2 ^ k).
Qed.

(** An aligned place for [2^o] pages inside the block [b] and between the bounds. *)
Definition fits (min max o cur b k : Z) : Prop :=
  (2 ^ o | k) /\ b <= k /\ k + 2 ^ o <= b + 2 ^ cur /\ min <= k * PAGE_SIZE /\ (k + 2 ^ o) * PAGE_SIZE <= max.

Lemma candidate_ok min max o cur b : 0 <= min -> min + 2 ^ 32 <= 2 ^ 64 -> 0 <= o <= cur -> cur < 20 -> lowest <= b -> b + 2 ^ cur <= highest -> (2 ^ cur | b) ->
  match range_candidate min max o cur (b * PAGE_SIZE) with
  | Some c => exists k, c = k * PAGE_SIZE /\ fits min max o cur b k
  | None => forall k, ~ fits min max o cur b k
  end.
Proof.
  intros Hm1 Hm2 Ho Hc Hlo Hhi Hd. destruct Hcfg as [G1 G2 G3 _]. unfold range_candidate, fits. rewrite !Z.shiftl_1_l.
  assert (Hs : 2 ^ o * PAGE_SIZE = 2 ^ (o + 12)) by (rewrite Z.pow_add_r by lia; done). pose proof (Z.pow_pos_nonneg 2 o ltac:(lia) ltac:(lia)) as Hp. rewrite Hs.
  assert (Hs32 : 2 ^ (o + 12) <= 2 ^ 32) by (apply Z.pow_le_mono_r; lia). assert (Hcur : 2 ^ o <= 2 ^ cur) by (apply Z.pow_le_mono_r; lia). unfold KERNEL_BASE, PAGE_SIZE in *.
  rewrite (u64_id (b * 4096 + _)) by lia. set (x := if b * 4096 >? min then b * 4096 else min). assert (Hx : x = Z.max (b * 4096) min) by (subst x; destruct (b * 4096 >? min) eqn:?; reify_bools; lia).
  assert (Hxr : 0 <= x /\ x + 2 ^ (o + 12) <= 2 ^ 64) by lia.
  pose proof (round_up x (o + 12) (proj1 Hxr) ltac:(lia) (proj2 Hxr)) as [R1 R2]. set (r := Z.land _ _) in *. destruct R2 as [q R2]. rewrite R2, <- Hs in *.
  set (e := if b * 4096 + 2 ^ cur * 4096 <? max then b * 4096 + 2 ^ cur * 4096 else max). assert (He : e = Z.min (b * 4096 + 2 ^ cur * 4096) max) by (subst e; destruct (_ <? max) eqn:?; reify_bools; lia).
  destruct (_ && _) eqn:E.
  - apply andb_true_iff in E as [E1 E2]. reify_bools. exists (q * 2 ^ o). split; [lia|]. split; [by exists q|]. lia.
  - intros k ([c Ek] & H1 & H2 & H3 & H4). apply andb_false_iff in E. subst k.
    assert (Hqc : q <= c). { assert (q * (2 ^ o * 4096) < (c + 1) * (2 ^ o * 4096)) by lia. assert (q < c + 1) by (apply (Z.mul_lt_mono_pos_r (2 ^ o * 4096)); lia). lia. }
    assert (Hq2 : q * 2 ^ o <= c * 2 ^ o) by (apply Z.mul_le_mono_nonneg_r; lia). destruct E as [E|E]; reify_bools; lia.
Qed.

Lemma split_range_ok n o target fuel : forall s fl z cur b, core s fl -> zones s !! n = Some z -> 0 <= o <= cur -> cur - o < Z.of_nat fuel -> loose s fl cur b ->
  (2 ^ o | target) -> b <= target -> target + 2 ^ o <= b + 2 ^ cur ->
  exists s' fl', split_range hhdm fuel n b target cur o s = Ret (target, s') /\ core s' fl' /\ frame n s s' /\ loose s' fl' o target /\ quiet (fun i => covered fl i \/ within b cur i) s s' /\
    parted n fl fl' b cur target o.
Proof.
  induction fuel as [|fuel IH]; intros s fl z cur b C Ez Ho Hf Hl Ht H1 H2; [lia|]. cbn [split_range]. destruct (cur >? o) eqn:?; reify_bools.
  - rewrite Z.shiftl_1_l. pose proof (pow2_half cur ltac:(lia)) as Hp. pose proof (Z.pow_pos_nonneg 2 o ltac:(lia) ltac:(lia)) as Hpo.
    assert (Hle : 2 ^ o <= 2 ^ (cur - 1)) by (apply Z.pow_le_mono_r; lia).
    set (keep := if target >=? b + 2 ^ (cur - 1) then b + 2 ^ (cur - 1) else b). set (give := if target >=? b + 2 ^ (cur - 1) then b else b + 2 ^ (cur - 1)).
    assert (Hpair : (if target >=? b + 2 ^ (cur - 1) then (b, b + 2 ^ (cur - 1)) else (b + 2 ^ (cur - 1), b)) = (give, keep)) by (subst keep give; by destruct (_ >=? _)).
    rewrite Hpair. assert (Hk : keep = b /\ give = b + 2 ^ (cur - 1) /\ target < b + 2 ^ (cur - 1) \/ keep = b + 2 ^ (cur - 1) /\ give = b /\ b + 2 ^ (cur - 1) <= target).
    { subst keep give. destruct (_ >=? _) eqn:?; reify_bools; [right|left]; repeat split; lia. }
    destruct (split_step s fl n z cur b keep give C Ez Hl ltac:(lia)) as (s1 & -> & C1 & F1 & L1 & Q1 & P1); [tauto|]. rewrite ret_bind. destruct (frame_zone _ _ _ _ F1 Ez) as (z1 & E1 & _).
    assert (Hfit : keep <= target /\ target + 2 ^ o <= keep + 2 ^ (cur - 1)).
    { destruct Hk as [(-> & _ & Hlt)|(-> & _ & Hge)]; [|lia]. split; [lia|]. destruct Hl as (_ & [q Eq] & _). destruct Ht as [t Et].
      assert (Ew : 2 ^ (cur - 1) = 2 ^ (cur - 1 - o) * 2 ^ o) by (rewrite <- Z.pow_add_r by lia; f_equal; lia).
      assert (t + 1 <= q * 2 * 2 ^ (cur - 1 - o) + 2 ^ (cur - 1 - o)); [|nia]. assert (t * 2 ^ o < (q * 2 * 2 ^ (cur - 1 - o) + 2 ^ (cur - 1 - o)) * 2 ^ o) by nia.
      apply Z.mul_lt_mono_pos_r in H; lia. }
    destruct (IH s1 _ z1 (cur - 1) keep C1 E1 ltac:(lia) ltac:(lia) L1 Ht (proj1 Hfit) (proj2 Hfit)) as (s2 & fl2 & -> & C2 & F2 & L2 & Q2 & P2). exists s2, fl2.
    assert (Hw : forall i, within keep (cur - 1) i -> within b cur i) by (intros i Hi; unfold within in *; destruct Hk as [(-> & _)|(-> & _)]; lia).
    split; [done|]. split; [done|]. split; [by eapply frame_trans|]. split; [done|]. split.
    + eapply quiet_trans; [exact Q1|]. eapply quiet_mono; [exact Q2|]. cbn. intros i [Hi%P1|Hi]; [tauto|]. right. by apply Hw.
    + eapply parted_trans; [exact P1|exact P2|exact Hw|]. intros i Hi. unfold within in *. lia.
  - assert (cur = o) as -> by lia. assert (target = b) as -> by lia. exists s, fl. split; [done|]. split; [done|]. split; [apply frame_refl|]. split; [done|]. split; [done|].
    split; [|split; [lia|done]]. intros i. tauto.
Qed.

Lemma order_loop_ok count fuel : forall o, 0 <= o <= 20 -> 20 - o < Z.of_nat fuel -> (forall p, 0 <= p < o -> 2 ^ p < count) ->
  let r := order_loop fuel count (2 ^ o) o in o <= r <= 20 /\ (r < 20 -> count <= 2 ^ r) /\ (forall p, 0 <= p < r -> 2 ^ p < count).
Proof.
  induction fuel as [|fuel IH]; intros o Ho Hf Hp; [lia|]. cbn [order_loop]. unfold MAX_ORDER. destruct (2 ^ o <? count) eqn:?, (o <? 20) eqn:?; reify_bools; cbn [andb]; cbv zeta;
    try (split; [lia|]; split; [lia|done]).
  assert (E : u64 (2 ^ o * 2) = 2 ^ (o + 1)).
  { rewrite Z.pow_add_r by lia. apply u64_id. assert (2 ^ o <= 2 ^ 20) by (apply Z.pow_le_mono_r; lia). pose proof (Z.pow_pos_nonneg 2 o). lia. }
  rewrite E. destruct (IH (o + 1)) as (H1 & H2 & H3); [lia|lia| |split; [lia|done]]. intros p Hp'. destruct (decide (p = o)) as [->|]; [done|]. apply Hp. lia.
Qed.

(** The least order of a block of [count] pages, 20 if there is none. *)
Lemma get_order_ok count : let r := pmm_get_order count in 0 <= r <= 20 /\ (r < 20 -> count <= 2 ^ r) /\ (forall p, 0 <= p < r -> 2 ^ p < count).
Proof. apply (order_loop_ok count 21 0); lia. Qed.

Lemma range_orders_ok s fl n z min max o fuel : forall cur, inv s fl -> zones s !! n = Some z -> 0 <= min -> min + 2 ^ 32 <= 2 ^ 64 -> 0 <= o <= cur -> cur <= 20 -> 20 - cur < Z.of_nat fuel ->
  (range_orders lowest highest hhdm fuel n min max o cur s = Ret (0, s) /\ forall p b k, cur <= p < 20 -> b ∈ fl n p -> ~ fits min max o p b k) \/
  exists s' fl' k, range_orders lowest highest hhdm fuel n min max o cur s = Ret (k * PAGE_SIZE, s') /\ allocated n s s' fl fl' o k /\
    min <= k * PAGE_SIZE /\ (k + 2 ^ o) * PAGE_SIZE <= max.
Proof.
  induction fuel as [|fuel IH]; intros cur V Ez Hm1 Hm2 Ho Hc Hf; [lia|]. pose proof (v_core _ _ V) as C. cbn [range_orders]. unfold MAX_ORDER. destruct (cur <? 20) eqn:?; reify_bools.
  2: { left. rewrite (no_publish s fl n z V Ez), ret_bind. split; [done|lia]. }
  rewrite (validate_ok s fl n z cur C Ez) by lia. rewrite ret_bind. unfold zone_at. rewrite Ez. cbn [deref]. rewrite ret_bind.
  destruct (first_block s fl n z cur C Ez ltac:(lia)) as (hh & -> & En). cbn [deref]. rewrite ret_bind, En. fold (position z cur (fl n cur)).
  assert (Hcand : forall b, b ∈ fl n cur -> match range_candidate min max o cur (b * PAGE_SIZE) with Some c => exists k, c = k * PAGE_SIZE /\ fits min max o cur b k | None => forall k, ~ fits min max o cur b k end).
  { intros b Hb. destruct (c_block _ _ C _ _ _ Hb) as (_ & _ & ? & ? & ? & ? & _). by apply candidate_ok. }
  destruct (range_find_ok s fl n z min max o cur (S (S (Z.to_nat (page_count lowest highest)))) [] (fl n cur) C Ez) as [[-> Hn]|(l1 & b & l2 & c & E & Ec & ->)];
    [lia|done|pose proof (fl_length s fl n cur C); lia| |]; rewrite ret_bind.
  - destruct (IH (cur + 1)) as [[-> Hno]|H]; [done..|lia|lia|lia| |by right]. left. split; [done|]. intros p b k Hp Hb. destruct (decide (p = cur)) as [->|]; [|apply Hno; [lia|done]].
    pose proof (Hcand b Hb) as H. rewrite (Hn b Hb) in H. apply H.
  - right. assert (Hb : b ∈ fl n cur) by (rewrite E, elem_of_app; right; by left). pose proof (Hcand b Hb) as H. rewrite Ec in H. destruct H as (k & -> & Hk1 & Hk2 & Hk3 & Hk4 & Hk5).
    destruct (block_first _ _ _ _ _ C Hb) as (Hbr & _). destruct (take_ok s fl n z cur l1 b l2 TraceRange V Ez E) as (s1 & s2 & z2 & -> & E12 & E2 & C2 & F2 & L2 & Q2).
    rewrite ret_bind, page_at_phys, !phys_pfn, E12, ret_bind by done.
    destruct (split_range_ok n o k 21 s2 _ z2 cur b C2 E2 Ho ltac:(lia) L2 Hk1 Hk2 Hk3) as (s3 & fl3 & -> & C3 & F3 & L3 & Q3 & P3). rewrite ret_bind. cbn beta iota.
    destruct (finish_alloc s s2 s3 fl fl3 n z cur l1 b l2 o k V Ez E F2 Q2 C3 F3 L3 Q3 P3) as (s4 & -> & A); [intros i Hi; unfold within in *; lia|].
    rewrite ret_bind. exists s4, fl3, k. done.
Qed.

Lemma alloc_range_ok s fl n z count min max (o := pmm_get_order count) : inv s fl -> zones s !! n = Some z -> 0 < count -> 0 <= min -> min + 2 ^ 32 <= 2 ^ 64 ->
  (buddy_alloc_pages_range lowest highest hhdm n count min max s = Ret (0, s) /\ forall p b k, o <= p < 20 -> b ∈ fl n p -> ~ fits min max o p b k) \/
  exists s' fl' k, buddy_alloc_pages_range lowest highest hhdm n count min max s = Ret (k * PAGE_SIZE, s') /\ allocated n s s' fl fl' o k /\ count <= 2 ^ o /\
    min <= k * PAGE_SIZE /\ (k + 2 ^ o) * PAGE_SIZE <= max.
Proof.
  intros V Ez Hc Hm1 Hm2. unfold buddy_alloc_pages_range. rewrite (proj2 (Z.eqb_neq count 0)) by lia. destruct (get_order_ok count) as (Ho & Hle & _). fold o in Ho, Hle |- *. unfold MAX_ORDER.
  destruct (o >=? 20) eqn:?; reify_bools; [left; split; [done|lia]|].
  destruct (range_orders_ok s fl n z min max o 21 o V Ez) as [H|(s' & fl' & k & -> & A & H1 & H2)]; [lia..|by left|]. right. exists s', fl', k. split; [done|]. split; [done|]. split; [lia|done].
Qed.

(** ** The number of free pages *)

Definition block_pages (o b : Z) : list Z := seqZ b (2 ^ o).
Fixpoint zone_pages (k : nat) (fl : lists) (n : nat) : list Z :=
  match k with O => [] | S k => zone_pages k fl n ++ concat (map (block_pages (Z.of_nat k)) (fl n (Z.of_nat k))) end.

Lemma elem_of_blocks o l i : i ∈ concat (map (block_pages o) l) <-> exists b, b ∈ l /\ within b o i.
Proof.
  rewrite list_elem_of_In, in_concat. split.
  - intros (x & Hx & Hi). apply in_map_iff in Hx as (b & <- & Hb). exists b. split; [by apply list_elem_of_In|]. apply list_elem_of_In, elem_of_seqZ in Hi. done.
  - intros (b & Hb & W). exists (block_pages o b). split; [apply in_map, list_elem_of_In, Hb|]. by apply list_elem_of_In, elem_of_seqZ.
Qed.
Lemma elem_of_zone_pages k fl n i : i ∈ zone_pages k fl n <-> exists o b, 0 <= o < Z.of_nat k /\ b ∈ fl n o /\ within b o i.
Proof.
  induction k as [|k IH]; cbn [zone_pages]; [rewrite elem_of_nil; split; [done|intros (o & b & Ho & _); lia]|]. rewrite elem_of_app, IH, elem_of_blocks. split.
  - intros [(o & b & Ho & H)|(b & H)]; [exists o, b; split; [lia|done]|exists (Z.of_nat k), b; split; [lia|done]].
  - intros (o & b & Ho & H). destruct (decide (o = Z.of_nat k)) as [->|]; [right; eauto|left; exists o, b; split; [lia|done]].
Qed.
Lemma length_zone_pages k fl n : Z.of_nat (length (zone_pages k fl n)) = psum_below k fl n.
Proof.
  induction k as [|k IH]; cbn [zone_pages psum_below]; [done|]. rewrite length_app, Nat2Z.inj_add, IH. f_equal. unfold pages.
  induction (fl n (Z.of_nat k)) as [|b l IHl]; [done|]. cbn [map concat length]. rewrite length_app, Nat2Z.inj_add, IHl. unfold block_pages. rewrite length_seqZ.
  pose proof (Z.pow_pos_nonneg 2 (Z.of_nat k)). lia.
Qed.
Lemma NoDup_zone_pages s fl n k : core s fl -> NoDup (zone_pages k fl n).
Proof.
  intros C. induction k as [|k IH]; cbn [zone_pages]; [constructor|]. apply NoDup_app. split; [done|]. split.
  - intros i (o & b & Ho & Hb & W)%elem_of_zone_pages (b' & Hb' & W')%elem_of_blocks. destruct (c_disj _ _ C _ _ _ _ _ _ i Hb Hb' W W') as (_ & -> & _). lia.
  - clear IH. assert (Hsub : forall b, b ∈ fl n (Z.of_nat k) -> b ∈ fl n (Z.of_nat k)) by done. revert Hsub. pose proof (fl_nodup s fl n (Z.of_nat k) C) as Hnd. revert Hnd.
    generalize (fl n (Z.of_nat k)) at 1 2 4 as l. induction l as [|b l IHl]; intros Hnd Hsub; [constructor|]. cbn [map concat]. apply NoDup_cons in Hnd as [Hb Hnd].
    apply NoDup_app. split; [apply NoDup_seqZ|]. split; [|apply IHl; [done|]; intros c Hc; apply Hsub; by right].
    intros i Hi%elem_of_seqZ (c & Hc & W)%elem_of_blocks. destruct (c_disj _ _ C n (Z.of_nat k) b n (Z.of_nat k) c i) as (_ & _ & ->); [apply Hsub; by left|apply Hsub; by right|done..].
Qed.

(** The free pages of a zone, each once. *)
Definition free_set (fl : lists) (n : nat) : list Z := zone_pages 20 fl n.

Lemma length_free_set fl n : Z.of_nat (length (free_set fl n)) = psum fl n.
Proof. unfold free_set, psum. apply length_zone_pages. Qed.

Lemma psum_bound s fl n : core s fl -> 0 <= psum fl n <= page_count lowest highest.
Proof.
  intros C. pose proof (length_free_set fl n) as El. destruct (cfg_low Hcfg) as [_ G]. assert (Hs : free_set fl n ⊆+ seqZ lowest (highest - lowest)).
  { apply NoDup_submseteq; [by apply (NoDup_zone_pages s)|]. intros i (o & b & Ho & Hb & W)%elem_of_zone_pages. apply elem_of_seqZ.
    destruct (block_range s fl n o b i C Hb W) as [Hr _]. unfold in_range in Hr. lia. }
  apply submseteq_length in Hs. rewrite length_seqZ in Hs. unfold page_count. clear - Hs El G. lia.
Qed.

Lemma zone_free_pages_ok s fl n z : inv s fl -> zones s !! n = Some z -> buddy_zone_free_pages n s = Ret (Z.of_nat (length (free_set fl n))).
Proof.
  intros V Ez. unfold buddy_zone_free_pages, zone_at. rewrite Ez. cbn [deref]. rewrite ret_bind. f_equal. rewrite (v_pub _ _ V n z Ez).
  destruct (c_zone _ _ (v_core _ _ V) n z Ez) as (_ & _ & _ & _ & ->). rewrite length_free_set. pose proof (psum_bound s fl n (v_core _ _ V)) as Hb.
  apply u64_id. unfold page_count in Hb. destruct Hcfg as [G1 G2 G3 _]. unfold KERNEL_BASE, PAGE_SIZE in *. lia.
Qed.

End Buddy.
End PmmBuddy.
