(* ===== verification/PmmApi.v ===== *)
(** PmmApi: page allocation as the rest of the kernel sees it, over the buddy
    zones of [Pmm]: NUMA nodes ([kernel/src/mm/numa.c]), references and the
    allocation calls ([pmm.c]), and the per-CPU page caches with the pool of
    zeroed pages ([pmm_pcp.c]).

    A call runs to its end on one processor ([cpu] is what [cpu_get_current]
    returns), so the fast path of a cache, which is taken when its lock is free,
    and the locked path do the same. The stack [pages[0..count)] of a cache is a
    list, its top at the end. Of the contents of a page the model has the four
    words of [hdr]. The statistics keyed by call site are not part of the state. *)

From S2P Require Import Prelude Pmm.

Module PmmApi.
Import Pmm.

Definition MAX_NUMA_NODES : Z := 16.
Definition NUMA_NO_NODE : Z := -1.
Definition NUMA_LOCAL_DISTANCE : Z := 10.
Definition NUMA_REMOTE_DISTANCE : Z := 20.
Definition MAX_NUMA_MEM_RANGES : Z := 64.
Definition MAX_CPUS : Z := 64.
Definition PCP_CAPACITY : Z := 128.
Definition PCP_BATCH : nat := 32.
Definition ZERO_POOL_CAP : Z := 128.

(** [struct numa_node] without its zone, which is zone [node_id] of [pmm]. *)
Record numa_node := mk_node { online : bool; phys_start : Z; phys_end : Z; total_memory : Z; usable_memory : Z; cpu_mask : Z; cpu_count : Z;
  distance : list Z; fallback_order : list Z }.
Record numa_mem_range := mk_range { r_base : Z; r_length : Z; r_node : Z }.
Record topology := mk_topology { nodes : list numa_node; ranges : list numa_mem_range; cpu_nodes : list Z; apic_nodes : list Z; active_nodes : Z }.

Record machine := mk_machine { pm : pmm; topo : topology; pcp_initialized : bool; pcp_caches : list (list Z); zero_pool : list (list Z);
  zero_page_phys : Z; ref_errors : Z; mark_skips : Z; free_skips : Z; verify_tick : Z }.
Definition set_pm (p : pmm) (m : machine) : machine :=
  mk_machine p (topo m) (pcp_initialized m) (pcp_caches m) (zero_pool m) (zero_page_phys m) (ref_errors m) (mark_skips m) (free_skips m) (verify_tick m).
Definition set_pcp (c : list (list Z)) (m : machine) : machine :=
  mk_machine (pm m) (topo m) (pcp_initialized m) c (zero_pool m) (zero_page_phys m) (ref_errors m) (mark_skips m) (free_skips m) (verify_tick m).
Definition set_zpool (c : list (list Z)) (m : machine) : machine :=
  mk_machine (pm m) (topo m) (pcp_initialized m) (pcp_caches m) c (zero_page_phys m) (ref_errors m) (mark_skips m) (free_skips m) (verify_tick m).
Definition set_initialized (m : machine) : machine :=
  mk_machine (pm m) (topo m) true (pcp_caches m) (zero_pool m) (zero_page_phys m) (ref_errors m) (mark_skips m) (free_skips m) (verify_tick m).
Definition ref_error (m : machine) : machine :=
  mk_machine (pm m) (topo m) (pcp_initialized m) (pcp_caches m) (zero_pool m) (zero_page_phys m) (ref_errors m + 1) (mark_skips m) (free_skips m) (verify_tick m).
Definition mark_skip (m : machine) : machine :=
  mk_machine (pm m) (topo m) (pcp_initialized m) (pcp_caches m) (zero_pool m) (zero_page_phys m) (ref_errors m) (mark_skips m + 1) (free_skips m) (verify_tick m).
Definition free_skip (m : machine) : machine :=
  mk_machine (pm m) (topo m) (pcp_initialized m) (pcp_caches m) (zero_pool m) (zero_page_phys m) (ref_errors m) (mark_skips m) (free_skips m + 1) (verify_tick m).
Definition tick (m : machine) : machine :=
  mk_machine (pm m) (topo m) (pcp_initialized m) (pcp_caches m) (zero_pool m) (zero_page_phys m) (ref_errors m) (mark_skips m) (free_skips m) (u32 (verify_tick m + 1)).

(** ** NUMA nodes *)

Definition numa_node_count (t : topology) : Z := if active_nodes t >? 0 then active_nodes t else 1.

Definition node_online (t : topology) (id : Z) : outcome bool := n ← arr_get (nodes t) id; Ret (online n).

(** The index of the node [numa_get_node] returns. *)
Definition numa_get_node (t : topology) (node_id : Z) : outcome Z :=
  if (node_id <? 0) || (node_id >=? MAX_NUMA_NODES) then Ret 0
  else on ← node_online t node_id; Ret (if (on : bool) then node_id else 0).

Definition numa_cpu_to_node (t : topology) (cpu_id : Z) : outcome Z := if cpu_id >=? MAX_CPUS then Ret 0 else arr_get (cpu_nodes t) cpu_id.

Definition numa_distance (t : topology) (from_node to_node : Z) : outcome Z :=
  if (from_node <? 0) || (from_node >=? MAX_NUMA_NODES) || (to_node <? 0) || (to_node >=? MAX_NUMA_NODES) then Ret NUMA_REMOTE_DISTANCE
  else n ← arr_get (nodes t) from_node; arr_get (distance n) to_node.

Fixpoint range_node (rs : list numa_mem_range) (phys : Z) : Z :=
  match rs with
  | [] => 0
  | r :: rs => if (phys >=? r_base r) && (phys <? u64 (r_base r + r_length r)) then r_node r else range_node rs phys
  end.
Definition numa_phys_to_node (t : topology) (phys : Z) : Z := range_node (ranges t) phys.

Definition numa_register_memory_range (base length node_id : Z) (t : topology) : outcome topology :=
  if (node_id <? 0) || (node_id >=? MAX_NUMA_NODES) || (length =? 0) then Ret t
  else
    let rs := if Z.of_nat (List.length (ranges t)) <? MAX_NUMA_MEM_RANGES then ranges t ++ [mk_range base length node_id] else ranges t in
    n ← arr_get (nodes t) node_id;
    let st := if (phys_start n =? 0) || (base <? phys_start n) then base else phys_start n in
    let en := if u64 (base + length) >? phys_end n then u64 (base + length) else phys_end n in
    ns ← arr_set (nodes t) node_id (mk_node true st en (u64 (total_memory n + length)) (usable_memory n) (cpu_mask n) (cpu_count n) (distance n) (fallback_order n));
    Ret (mk_topology ns rs (cpu_nodes t) (apic_nodes t) (active_nodes t)).

Definition numa_register_cpu (cpu_id apic_id : Z) (t : topology) : outcome topology :=
  if cpu_id >=? MAX_CPUS then Ret t
  else
    node ← (if apic_id <? 256 then arr_get (apic_nodes t) apic_id else Ret 0);
    node ← numa_get_node t node;
    cn ← arr_set (cpu_nodes t) cpu_id node;
    n ← arr_get (nodes t) node;
    ns ← arr_set (nodes t) node (mk_node (online n) (phys_start n) (phys_end n) (total_memory n) (usable_memory n) (Z.lor (cpu_mask n) (bit (cpu_id mod 64)))
           (u32 (cpu_count n + 1)) (distance n) (fallback_order n));
    Ret (mk_topology ns (ranges t) cn (apic_nodes t) (active_nodes t)).

(** [numa_sort_fallback_order]: the nearest online node that is not in the order
    yet, the first of several at the same distance. *)
Fixpoint best_other (k : nat) (t : topology) (node_id : Z) (self : numa_node) (chosen : list Z) : outcome (Z * Z) :=
  match k with
  | O => Ret (-1, 255)
  | S k =>
    '(best, best_dist) ← best_other k t node_id self chosen;
    let other := Z.of_nat k in
    on ← node_online t other;
    if negb (on : bool) || (other =? node_id) then Ret (best, best_dist)
    else if existsb (Z.eqb other) chosen then Ret (best, best_dist)
    else d ← arr_get (distance self) other; Ret (if d <? best_dist then (other, d) else (best, best_dist))
  end.
Fixpoint fallback_passes (k : nat) (t : topology) (node_id : Z) (self : numa_node) (chosen : list Z) : outcome (list Z) :=
  match k with
  | O => Ret chosen
  | S k => '(best, _) ← best_other 16 t node_id self chosen; if best >=? 0 then fallback_passes k t node_id self (chosen ++ [best]) else Ret chosen
  end.
Definition numa_sort_fallback_order (node_id : Z) (t : topology) : outcome topology :=
  self ← arr_get (nodes t) node_id;
  chosen ← fallback_passes 16 t node_id self [node_id];
  let order := take 16 (chosen ++ replicate 16 NUMA_NO_NODE) in
  ns ← arr_set (nodes t) node_id (mk_node (online self) (phys_start self) (phys_end self) (total_memory self) (usable_memory self) (cpu_mask self) (cpu_count self) (distance self) order);
  Ret (mk_topology ns (ranges t) (cpu_nodes t) (apic_nodes t) (active_nodes t)).

Section Config.
Variables lowest highest hhdm : Z.
Notation buddy_alloc_internal := (buddy_alloc_internal lowest highest hhdm).
Notation buddy_alloc_page_locked := (buddy_alloc_page_locked lowest highest hhdm).
Notation buddy_alloc_pages_range := (buddy_alloc_pages_range lowest highest hhdm).
Notation buddy_free_internal := (buddy_free_internal lowest highest hhdm).
Notation pmm_is_managed := (pmm_is_managed lowest highest).

(** ** Allocation from nodes *)

(** Trying the other nodes in the order of [fallback_order]; [pick] says which
    node stands for one of the order. *)
Fixpoint try_nodes (pick : topology -> Z -> outcome Z) (alloc : nat -> pmm -> outcome (Z * pmm)) (allowed : Z -> bool) (node_id : Z) (fb : list Z) (m : machine) : outcome (Z * machine) :=
  match fb with
  | [] => Ret (0, m)
  | target :: fb =>
    if (target =? NUMA_NO_NODE) || (target =? node_id) then try_nodes pick alloc allowed node_id fb m
    else
      an ← pick (topo m) target;
      on ← node_online (topo m) an;
      if negb (on : bool) || negb (allowed target) then try_nodes pick alloc allowed node_id fb m
      else
        '(p, s) ← alloc (Z.to_nat an) (pm m);
        let m := set_pm s m in
        if nz p then Ret (p, m) else try_nodes pick alloc allowed node_id fb m
  end.

Definition mask_allows (nodemask id : Z) : bool := (nodemask =? 0) || Z.testbit nodemask (id mod 64).

Definition pmm_alloc_pages_nodemask (count node_id nodemask : Z) (m : machine) : outcome (Z * machine) :=
  if count =? 0 then Ret (0, m)
  else
    node_id ← numa_get_node (topo m) node_id;
    let o := pmm_get_order count in
    '(p, m) ← (if mask_allows nodemask node_id then '(p, s) ← buddy_alloc_internal (Z.to_nat node_id) o (pm m); Ret (p, set_pm s m) else Ret (0, m));
    if nz p then Ret (p, m)
    else
      n ← arr_get (nodes (topo m)) node_id;
      try_nodes (fun _ target => Ret target) (fun id s => buddy_alloc_internal id o s) (mask_allows nodemask) node_id (fallback_order n) m.
Definition pmm_alloc_pages_node (count node_id : Z) (m : machine) : outcome (Z * machine) := pmm_alloc_pages_nodemask count node_id 0 m.

(** The node of the current processor. *)
Definition current_node (cpu : option Z) (t : topology) : outcome Z :=
  match cpu with
  | Some c => if c <? MAX_CPUS then numa_cpu_to_node t c else Ret 0
  | None => Ret 0
  end.

Definition pmm_alloc_pages (cpu : option Z) (count : Z) (m : machine) : outcome (Z * machine) :=
  if count =? 0 then Ret (0, m)
  else node ← current_node cpu (topo m); pmm_alloc_pages_node count node m.

Definition pmm_alloc_pages_range (cpu : option Z) (count min max : Z) (m : machine) : outcome (Z * machine) :=
  node ← current_node cpu (topo m);
  n ← numa_get_node (topo m) node;
  '(res, s) ← buddy_alloc_pages_range (Z.to_nat n) count min max (pm m);
  let m := set_pm s m in
  if nz res then Ret (res, m)
  else
    nd ← arr_get (nodes (topo m)) n;
    try_nodes numa_get_node (fun id s => buddy_alloc_pages_range id count min max s) (fun _ => true) node (fallback_order nd) m.
Definition pmm_alloc_pages_constrained (cpu : option Z) (count max : Z) (m : machine) : outcome (Z * machine) := pmm_alloc_pages_range cpu count 0 max m.

(** ** References *)

Definition get_ref (i : Z) (m : machine) : outcome Z := arr_get (refcounts (pm m)) (i - lowest).
Definition put_refcount (i v : Z) (m : machine) : outcome machine :=
  r ← arr_set (refcounts (pm m)) (i - lowest) v; Ret (set_pm (set_refcounts r (pm m)) m).

Definition pmm_put_ref (phys : Z) (m : machine) : outcome (bool * machine) :=
  let i := phys / PAGE_SIZE in
  old ← get_ref i m;
  if old =? 0 then Ret (false, ref_error m)
  else if old =? UINT16_MAX then Ret (false, m)
  else m ← put_refcount i (old - 1) m; Ret (old =? 1, m).

(** The checks at the start of [pmm_incref] and [pmm_decref]. *)
Definition page_refs (ptr : Z) (m : machine) : outcome bool :=
  if (ptr =? 0) || (ptr =? zero_page_phys m) then Ret false
  else mg ← pmm_is_managed (pm m) ptr; Ret ((mg : bool) && (Z.land ptr (PAGE_SIZE - 1) =? 0)).

Definition pmm_incref (ptr : Z) (m : machine) : outcome machine :=
  ok ← page_refs ptr m;
  if negb (ok : bool) then Ret m
  else
    let i := ptr / PAGE_SIZE in
    old ← get_ref i m;
    if old =? UINT16_MAX then Ret m
    else if (old =? 0) || (old =? UINT16_MAX - 1) then Ret (ref_error m)
    else put_refcount i (old + 1) m.

Definition pmm_get_ref (ptr : Z) (m : machine) : outcome Z :=
  if ptr =? 0 then Ret 0
  else mg ← pmm_is_managed (pm m) ptr; if (mg : bool) then get_ref (ptr / PAGE_SIZE) m else Ret 1.

Definition free_to_node (phys o : Z) (m : machine) : outcome machine :=
  n ← numa_get_node (topo m) (numa_phys_to_node (topo m) phys);
  s ← buddy_free_internal (Z.to_nat n) phys o (pm m); Ret (set_pm s m).

(** ** Per-CPU caches *)

Definition pmm_pcp_init (m : machine) : machine := set_initialized (set_pcp (replicate 64 []) m).

Definition total_cached (cs : list (list Z)) : Z := fold_right (fun c t => Z.of_nat (length c) + t) 0 cs.
Definition pmm_pcp_total_cached (m : machine) : Z := total_cached (pcp_caches m).
Definition pmm_zero_pool_total_cached (m : machine) : Z := total_cached (zero_pool m).

(** The processor whose cache is used, if any. *)
Definition cache_of (cpu : option Z) : option Z := match cpu with Some c => if c <? MAX_CPUS then Some c else None | None => None end.

(** Handing out the top of a cache. *)
Definition hand_page (page : Z) (m : machine) : outcome (Z * machine) := m ← put_refcount (page / PAGE_SIZE) 1 m; Ret (page, m).
Definition pcp_pop (c : Z) (cache : list Z) (m : machine) : outcome (Z * machine) :=
  page ← deref (list.last cache);
  cs ← arr_set (pcp_caches m) c (take (length cache - 1) cache);
  hand_page page (set_pcp cs m).

(** The refill loop: at most [k] pages of zone [n], cached with no reference. *)
Fixpoint pcp_refill (k : nat) (c : Z) (n : nat) (m : machine) : outcome machine :=
  match k with
  | O => Ret m
  | S k =>
    '(p, s) ← buddy_alloc_page_locked n (pm m);
    let m := set_pm s m in
    if p =? 0 then Ret m
    else
      m ← put_refcount (p / PAGE_SIZE) 0 m;
      cache ← arr_get (pcp_caches m) c;
      if Z.of_nat (length cache) >=? PCP_CAPACITY then Fault
      else cs ← arr_set (pcp_caches m) c (cache ++ [p]); pcp_refill k c n (set_pcp cs m)
  end.
Fixpoint pcp_refill_others (c node : Z) (fb : list Z) (m : machine) : outcome machine :=
  match fb with
  | [] => Ret m
  | target :: fb =>
    if (target =? NUMA_NO_NODE) || (target =? node) then pcp_refill_others c node fb m
    else
      an ← numa_get_node (topo m) target;
      on ← node_online (topo m) an;
      if negb (on : bool) then pcp_refill_others c node fb m
      else
        m ← pcp_refill PCP_BATCH c (Z.to_nat an) m;
        cache ← arr_get (pcp_caches m) c;
        if (0 <? length cache)%nat then Ret m else pcp_refill_others c node fb m
  end.

Definition pmm_pcp_alloc_page (cpu : option Z) (m : machine) : outcome (Z * machine) :=
  if negb (pcp_initialized m) then Ret (0, m)
  else
    match cache_of cpu with
    | None => Ret (0, m)
    | Some c =>
      cache ← arr_get (pcp_caches m) c;
      if (0 <? length cache)%nat then pcp_pop c cache m
      else
        node ← numa_cpu_to_node (topo m) c;
        n ← numa_get_node (topo m) node;
        m ← pcp_refill PCP_BATCH c (Z.to_nat n) m;
        cache ← arr_get (pcp_caches m) c;
        m ← (if (0 <? length cache)%nat then Ret m else nd ← arr_get (nodes (topo m)) n; pcp_refill_others c node (fallback_order nd) m);
        cache ← arr_get (pcp_caches m) c;
        if (0 <? length cache)%nat then pcp_pop c cache m else Ret (0, m)
    end.

(** Returning cached pages to the zones of their nodes. *)
Fixpoint drain (pages : list Z) (m : machine) : outcome machine :=
  match pages with
  | [] => Ret m
  | p :: pages => m ← free_to_node p 0 m; drain pages m
  end.

Definition pmm_pcp_free_page (cpu : option Z) (ptr : Z) (m : machine) : outcome (bool * machine) :=
  if negb (pcp_initialized m) || (ptr =? 0) then Ret (false, m)
  else
    match cache_of cpu with
    | None => Ret (false, m)
    | Some c =>
      cache ← arr_get (pcp_caches m) c;
      if Z.of_nat (length cache) <? PCP_CAPACITY then cs ← arr_set (pcp_caches m) c (cache ++ [ptr]); Ret (true, set_pcp cs m)
      else
        let keep := (length cache - PCP_BATCH)%nat in
        cs ← arr_set (pcp_caches m) c (take keep cache ++ [ptr]);
        m ← drain (rev (drop keep cache)) (set_pcp cs m);
        Ret (true, m)
    end.

(** Emptying one cache. *)
Definition drain_cache (c : Z) (m : machine) : outcome machine :=
  cache ← arr_get (pcp_caches m) c;
  cs ← arr_set (pcp_caches m) c [];
  drain cache (set_pcp cs m).
Definition pmm_pcp_drain_local (cpu : option Z) (m : machine) : outcome machine :=
  if negb (pcp_initialized m) then Ret m
  else match cache_of cpu with None => Ret m | Some c => drain_cache c m end.

(** ** The pool of zeroed pages *)

Definition zero_hdr : hdr := mk_hdr 0 0 0 0.
Definition is_zero_hdr (h : hdr) : bool := (next h =? 0) && (prev h =? 0) && (order h =? 0) && (magic h =? 0).

(** Every eighth page is looked at, and zeroed if it is dirty. *)
Definition zero_pool_verify (page : Z) (m : machine) : outcome machine :=
  let t := verify_tick m in
  let m := tick m in
  if nz (Z.land t 7) then Ret m
  else
    let a := virt_to_buddy hhdm page in
    h ← deref (mem (pm m) !! a);
    if is_zero_hdr h then Ret m else Ret (set_pm (set_mem (<[a := zero_hdr]> (mem (pm m))) (pm m)) m).

Definition pmm_alloc_zeroed_page (cpu : option Z) (m : machine) : outcome (Z * machine) :=
  match cache_of cpu with
  | None => Ret (0, m)
  | Some c =>
    pool ← arr_get (zero_pool m) c;
    if (0 <? length pool)%nat then
      page ← deref (list.last pool);
      ps ← arr_set (zero_pool m) c (take (length pool - 1) pool);
      '(page, m) ← hand_page page (set_zpool ps m);
      m ← zero_pool_verify page m;
      Ret (page, m)
    else Ret (0, m)
  end.

Definition pmm_zero_pool_needs_refill (cpu : option Z) (m : machine) : outcome bool :=
  match cache_of cpu with None => Ret false | Some c => pool ← arr_get (zero_pool m) c; Ret (Z.of_nat (length pool) <? ZERO_POOL_CAP) end.

(** One batch of [pmm_zero_pool_refill]: taking up to [k] pages, zeroing them and
    dropping their reference. *)
Fixpoint take_pages (k : nat) (cpu : option Z) (m : machine) : outcome (list Z * machine) :=
  match k with
  | O => Ret ([], m)
  | S k =>
    '(p, m) ← pmm_pcp_alloc_page cpu m;
    if p =? 0 then Ret ([], m) else '(ps, m) ← take_pages k cpu m; Ret (p :: ps, m)
  end.
Fixpoint page_zero_batch (ps : list Z) (m : machine) : outcome machine :=
  match ps with
  | [] => Ret m
  | p :: ps => _ ← deref (mem (pm m) !! virt_to_buddy hhdm p); page_zero_batch ps (set_pm (set_mem (<[virt_to_buddy hhdm p := zero_hdr]> (mem (pm m))) (pm m)) m)
  end.
Fixpoint drop_refs (ps : list Z) (m : machine) : outcome machine :=
  match ps with
  | [] => Ret m
  | p :: ps => m ← put_refcount (p / PAGE_SIZE) 0 m; drop_refs ps m
  end.
Fixpoint give_back (ps : list Z) (cpu : option Z) (m : machine) : outcome machine :=
  match ps with
  | [] => Ret m
  | p :: ps => '(_, m) ← pmm_pcp_free_page cpu p m; give_back ps cpu m
  end.
Fixpoint zero_pool_refill_loop (fuel : nat) (cpu : option Z) (c max_pages : Z) (m : machine) : outcome machine :=
  match fuel with
  | O => OutOfFuel
  | S fuel =>
    if max_pages >? 0 then
      let batch := if max_pages >? 32 then 32 else max_pages in
      '(ps, m) ← take_pages (Z.to_nat batch) cpu m;
      if (length ps =? 0)%nat then Ret m
      else
        m ← page_zero_batch ps m;
        m ← drop_refs ps m;
        pool ← arr_get (zero_pool m) c;
        let space := if Z.of_nat (length pool) <? ZERO_POOL_CAP then ZERO_POOL_CAP - Z.of_nat (length pool) else 0 in
        let to_add := Z.to_nat (Z.min (Z.of_nat (length ps)) space) in
        zs ← arr_set (zero_pool m) c (pool ++ take to_add ps);
        m ← give_back (drop to_add ps) cpu (set_zpool zs m);
        if (to_add <? length ps)%nat then Ret m else zero_pool_refill_loop fuel cpu c (max_pages - Z.of_nat (length ps)) m
    else Ret m
  end.
Definition pmm_zero_pool_refill (cpu : option Z) (max_pages : Z) (m : machine) : outcome machine :=
  match cache_of cpu with None => Ret m | Some c => zero_pool_refill_loop (S (Z.to_nat max_pages)) cpu c max_pages m end.

(** Draining the pools of processors [c] to 63 into the cache of this one. *)
Fixpoint zero_drain_from (k : nat) (cpu : option Z) (m : machine) : outcome machine :=
  match k with
  | O => Ret m
  | S k' =>
    let c := 64 - Z.of_nat k in
    pool ← arr_get (zero_pool m) c;
    zs ← arr_set (zero_pool m) c [];
    m ← give_back (if Z.of_nat (length pool) <=? ZERO_POOL_CAP then pool else []) cpu (set_zpool zs m);
    zero_drain_from k' cpu m
  end.
Definition pmm_zero_pool_drain_all (cpu : option Z) (m : machine) : outcome machine := zero_drain_from 64 cpu m.

Fixpoint pcp_drain_from (k : nat) (m : machine) : outcome machine :=
  match k with
  | O => Ret m
  | S k' => m ← drain_cache (64 - Z.of_nat k) m; pcp_drain_from k' m
  end.
Definition pmm_pcp_drain_all (cpu : option Z) (m : machine) : outcome machine :=
  if negb (pcp_initialized m) then Ret m else m ← pmm_zero_pool_drain_all cpu m; pcp_drain_from 64 m.

(** ** Pages *)

Definition pmm_alloc_page (cpu : option Z) (m : machine) : outcome (Z * machine) :=
  '(page, m) ← pmm_pcp_alloc_page cpu m;
  if nz page then Ret (page, m) else pmm_alloc_pages cpu 1 m.

Definition pmm_decref (cpu : option Z) (ptr : Z) (m : machine) : outcome machine :=
  ok ← page_refs ptr m;
  if negb (ok : bool) then Ret m
  else
    '(last, m) ← pmm_put_ref ptr m;
    if negb (last : bool) then Ret m
    else
      used ← pmm_bitmap_test (bitmap (pm m)) (ptr / PAGE_SIZE - lowest);
      if negb (used : bool) then Ret m
      else '(parked, m) ← pmm_pcp_free_page cpu ptr m; if (parked : bool) then Ret m else free_to_node ptr 0 m.
Definition pmm_free_page (cpu : option Z) (ptr : Z) (m : machine) : outcome machine := pmm_decref cpu ptr m.

(** [for (i = 0; i < count; i++)] of [pmm_mark_used] *)
Fixpoint mark_loop (k : nat) (pfn : Z) (m : machine) : outcome machine :=
  match k with
  | O => Ret m
  | S k =>
    skip ← (if (pfn >=? lowest) && (pfn <? highest) then
              mg ← pmm_bitmap_test (managed (pm m)) (pfn - lowest);
              if negb (mg : bool) then Ret false else used ← pmm_bitmap_test (bitmap (pm m)) (pfn - lowest); Ret (negb used)
            else Ret false);
    if (skip : bool) then mark_loop k (u64 (pfn + 1)) (mark_skip m)
    else bm ← pmm_bitmap_set_range lowest highest (bitmap (pm m)) pfn 1; mark_loop k (u64 (pfn + 1)) (set_pm (set_bitmap bm (pm m)) m)
  end.
Definition pmm_mark_used (ptr count : Z) (m : machine) : outcome machine :=
  if (count =? 0) || (ptr =? 0) || (ptr =? zero_page_phys m) then Ret m else mark_loop (Z.to_nat count) (ptr / PAGE_SIZE) m.

(** The two checks of [pmm_free_pages] over the pages of the block. *)
Fixpoint all_pages (k : nat) (f : Z -> outcome bool) (addr : Z) : outcome bool :=
  match k with
  | O => Ret true
  | S k => ok ← f addr; if (ok : bool) then all_pages k f (u64 (addr + PAGE_SIZE)) else Ret false
  end.
Fixpoint free_loop (k : nat) (n : nat) (phys : Z) (m : machine) : outcome machine :=
  match k with
  | O => Ret m
  | S k =>
    '(last, m) ← pmm_put_ref phys m;
    m ← (if negb (last : bool) then Ret m
         else
           used ← pmm_bitmap_test (bitmap (pm m)) (phys / PAGE_SIZE - lowest);
           if negb (used : bool) then Ret (free_skip m)
           else s ← buddy_free_internal n phys 0 (pm m); Ret (set_pm s m));
    free_loop k n (u64 (phys + PAGE_SIZE)) m
  end.
Definition pmm_free_pages (ptr count : Z) (m : machine) : outcome machine :=
  if (ptr =? 0) || (count =? 0) || (ptr =? zero_page_phys m) then Ret m
  else
    let o := pmm_get_order count in
    if o >=? MAX_ORDER then Ret m
    else
      let pfn := ptr / PAGE_SIZE in
      let num_pages := Z.shiftl 1 o in
      if (pfn <? lowest) || (pfn >=? highest) || (num_pages >? highest - pfn) || nz (Z.land ptr (num_pages * PAGE_SIZE - 1)) then Ret m
      else
        ok ← all_pages (Z.to_nat num_pages) (pmm_is_managed (pm m)) ptr;
        if negb (ok : bool) then Ret m
        else
          let node := numa_phys_to_node (topo m) ptr in
          n ← numa_get_node (topo m) node;
          ok ← all_pages (Z.to_nat num_pages) (fun a => Ret (numa_phys_to_node (topo m) a =? node)) ptr;
          if negb (ok : bool) then Ret m else free_loop (Z.to_nat num_pages) (Z.to_nat n) ptr m.

Definition huge_page (r : Z * machine) : outcome (Z * machine) :=
  let '(phys, m) := r in
  if phys =? 0 then Ret (0, m)
  else if nz (Z.land phys 0x1FFFFF) then m ← pmm_free_pages phys 512 m; Ret (0, m)
  else Ret (phys, m).
Definition pmm_alloc_huge_page (cpu : option Z) (m : machine) : outcome (Z * machine) := r ← pmm_alloc_pages cpu 512 m; huge_page r.
Definition pmm_alloc_page_node (node_id : Z) (m : machine) : outcome (Z * machine) := pmm_alloc_pages_node 1 node_id m.
Definition pmm_alloc_huge_page_node (node_id : Z) (m : machine) : outcome (Z * machine) := r ← pmm_alloc_pages_node 512 node_id m; huge_page r.

(** [for (i = 0; i < numa_node_count(); i++)] *)
Fixpoint free_pages_below (k : nat) (m : machine) : outcome Z :=
  match k with
  | O => Ret 0
  | S k =>
    total ← free_pages_below k m;
    n ← numa_get_node (topo m) (Z.of_nat k);
    on ← node_online (topo m) n;
    if (on : bool) then f ← buddy_zone_free_pages (Z.to_nat n) (pm m); Ret (u64 (total + f)) else Ret total
  end.
Definition pmm_get_free_pages (m : machine) : outcome Z :=
  total ← free_pages_below (Z.to_nat (numa_node_count (topo m))) m;
  Ret (u64 (total + pmm_pcp_total_cached m + pmm_zero_pool_total_cached m)).

End Config.
End PmmApi.
