(* ===== verification/PmmSafe.v ===== *)
(** PmmSafe: the page allocator of [PmmApi] against reference counts.

    Callers see a count per page: an allocation takes pages whose count is 0 to
    1, [pmm_incref] and [pmm_decref] move it, and a count of 65535 stays. [safe]
    is the invariant of the whole allocator: the buddy zones satisfy [inv], and
    the pages parked in the per-CPU caches and the zero pool are distinct, not on
    a free list, and have no references. *)

From S2P Require Import Prelude Pmm PmmLists PmmBuddy PmmApi.
From stdpp Require Import list_relations.
#[local] Open Scope Z_scope.

Module PmmSafe.
Import Pmm PmmLists PmmBuddy PmmApi.

Section Safe.
Context (lowest highest hhdm : Z) (Hcfg : config lowest highest hhdm).
Notation page_at := (page_at hhdm).
Notation in_range := (in_range lowest highest).
Notation mbit := (mbit lowest).
Notation ubit := (ubit lowest).
Notation core := (core lowest highest hhdm).
Notation inv := (inv lowest highest hhdm).
Notation allocated := (allocated lowest highest hhdm).
Notation released := (released lowest highest).

Definition ref (m : machine) (i : Z) : option Z := refcounts (pm m) !! Z.to_nat (i - lowest).
Definition cached (m : machine) : list Z := concat (pcp_caches m) ++ concat (zero_pool m).

(** A managed page in use. *)
Definition taken (m : machine) (i : Z) : Prop := in_range i /\ mbit (pm m) i = true /\ ubit (pm m) i = true.
(** A page in a cache. *)
Definition parked (m : machine) (p : Z) : Prop := exists i, p = i * PAGE_SIZE /\ taken m i /\ ref m i = Some 0.
Definition stacks (cs : list (list Z)) : Prop := length cs = 64%nat /\ Forall (fun c => Z.of_nat (length c) <= 128) cs.

Record safe (m : machine) (fl : lists) : Prop := mk_safe {
  s_inv : inv (pm m) fl;
  s_refs : forall i v, in_range i -> ref m i = Some v -> 0 <= v <= UINT16_MAX;
  s_zones : forall id, 0 <= id < 16 -> exists z, zones (pm m) !! Z.to_nat id = Some z;
  s_nodes : length (nodes (topo m)) = 16%nat /\ Forall (fun n => Forall (fun x => -1 <= x < 16) (fallback_order n)) (nodes (topo m));
  s_cpus : length (cpu_nodes (topo m)) = 64%nat;
  s_pcp : stacks (pcp_caches m);
  s_zpool : stacks (zero_pool m);
  s_cached : NoDup (cached m) /\ Forall (parked m) (cached m);
  s_zero : zero_page_phys m = 0 \/ exists i, zero_page_phys m = i * PAGE_SIZE /\ taken m i /\ ref m i = Some UINT16_MAX;
  s_out : forall i, in_range i -> mbit (pm m) i = false -> ubit (pm m) i = true }.

(** What no call changes; in particular nothing is reported as corrupt. *)
Record keeps (m m' : machine) : Prop := mk_keeps {
  k_topo : topo m' = topo m; k_managed : managed (pm m') = managed (pm m); k_reports : reports (pm m') = reports (pm m);
  k_zero : zero_page_phys m' = zero_page_phys m; k_init : pcp_initialized m' = pcp_initialized m }.
Lemma keeps_refl m : keeps m m.
Proof. by constructor. Qed.
Lemma keeps_trans m1 m2 m3 : keeps m1 m2 -> keeps m2 m3 -> keeps m1 m3.
Proof. intros [? ? ? ? ?] [? ? ? ? ?]. constructor; congruence. Qed.

Definition same_refs (m m' : machine) : Prop := forall i, in_range i -> ref m' i = ref m i.
Lemma same_refs_trans m1 m2 m3 : same_refs m1 m2 -> same_refs m2 m3 -> same_refs m1 m3.
Proof. intros H1 H2 i Hi. by rewrite H2, H1. Qed.

(** ** Steps on the zones *)

Lemma inv_refs s fl r : inv s fl -> length r = length (refcounts s) ->
  (forall i, in_range i -> mbit s i = true -> ubit s i = false -> r !! Z.to_nat (i - lowest) = refcounts s !! Z.to_nat (i - lowest)) -> inv (set_refcounts r s) fl.
Proof. intros [C V1 V2 V3 V4] Hl Hr. constructor; try done; [by apply core_refs|]. intros i Hi Hm Hu. cbn. rewrite Hr by done. by apply V2. Qed.

(** Writing to a page in use, without the tag of a zone. *)
Lemma inv_write s fl i h : inv s fl -> in_range i -> mbit s i = true -> ubit s i = true -> (forall n z, zones s !! n = Some z -> magic h <> zmagic z) ->
  inv (set_mem (<[page_at i := h]> (mem s)) s) fl.
Proof.
  intros [C V1 V2 V3 V4] Hi Hm Hu Hmg. constructor; try done. set (m' := <[page_at i := h]> (mem s)).
  assert (Hfr : forall j, j <> i -> in_range j -> m' !! page_at j = mem s !! page_at j).
  { intros j Hj Hr. apply lookup_insert_ne. intros E. apply Hj. symmetry. by apply (page_at_inj lowest highest hhdm Hcfg). }
  assert (Hfl : forall n o b, b ∈ fl n o -> b <> i) by (intros n o b Hb ->; destruct (block_first lowest highest hhdm s fl n o i C Hb) as (_ & _ & ?); congruence).
  pose proof (fun n o b => block_first lowest highest hhdm s fl n o b C) as Hbf.
  destruct C as [C1 C2 C3 C4 C5 C6 C7 C8 C9 C10 C11 C12]. constructor; try done.
  - intros j Hj Hmj. destruct (decide (j = i)) as [->|Hne]; [exists h; apply lookup_insert_eq|]. cbn. fold m'. rewrite Hfr by done. by apply C8.
  - intros n z o Ez Ho. apply (dll_frame (mem s)); [by apply C9|]. intros x Hx. cbn. fold m'. assert (Ex : m' !! x = mem s !! x); [|unfold nx, pv; by rewrite Ex].
    apply elem_of_cons in Hx as [->|Hx]; [apply lookup_insert_ne; intros E; destruct (C5 n z o Ez Ho) as [_ Hp]; by apply (Hp i Hi)|].
    apply list_elem_of_fmap in Hx as (b & -> & Hb). apply Hfr; [by apply (Hfl n o)|]. by apply (Hbf n o).
  - intros n o b Hb. destruct (C10 _ _ _ Hb) as (z & Ez & Ho & Ha & B1 & B2 & B3 & B4). exists z. repeat (split; [done|]). unfold tag. cbn. fold m'. rewrite Hfr; [done|by apply (Hfl n o)|by apply (Hbf n o)].
  - intros n z j o Ez Hj Hmj Ht. unfold tag in Ht. cbn in Ht. fold m' in Ht. destruct (decide (j = i)) as [->|Hne]; [|rewrite Hfr in Ht by done; by apply (C12 n z j o)].
    unfold m' in Ht. rewrite lookup_insert_eq in Ht. injection Ht as _ Hz. by destruct (Hmg n z Ez).
Qed.

(** Marking pages that are not free. *)
Lemma inv_bits s fl bm : inv s fl -> bytes bm -> length bm = length (bitmap s) ->
  (forall i, in_range i -> mbit s i = true -> bit_at bm (i - lowest) = ubit s i) -> inv (set_bitmap bm s) fl.
Proof.
  intros [C V1 V2 V3 V4] Hb Hl Hs. constructor.
  - apply core_bitmap; [done..|]. intros i (n & o & b & Hin & W). destruct (block_range lowest highest hhdm s fl n o b i C Hin W) as (Hr & Hm & _). by apply Hs.
  - intros i Hi Hm Hu. apply V1; [done..|]. rewrite <- Hs by done. done.
  - intros i Hi Hm Hu. apply V2; [done..|]. rewrite <- Hs by done. done.
  - done.
  - done.
Qed.

(** ** Parked pages *)

Lemma parked_ref m i : Forall (parked m) (cached m) -> i * PAGE_SIZE ∈ cached m -> ref m i = Some 0.
Proof.
  intros Hp Hin. rewrite Forall_forall in Hp. destruct (Hp _ Hin) as (j & E & _ & Hr). assert (i = j) as -> by (unfold PAGE_SIZE in E; lia). done.
Qed.
Lemma cached_split m p : p ∈ cached m <-> (exists c l, pcp_caches m !! c = Some l /\ p ∈ l) \/ (exists c l, zero_pool m !! c = Some l /\ p ∈ l).
Proof.
  assert (H : forall (cs : list (list Z)), p ∈ concat cs <-> exists c l, cs !! c = Some l /\ p ∈ l).
  { intros cs. rewrite list_elem_of_In, in_concat. split.
    - intros (l & Hl%list_elem_of_In & Hp%list_elem_of_In). apply list_elem_of_lookup in Hl as [c Hc]. eauto.
    - intros (c & l & Hc & Hp). exists l. split; apply list_elem_of_In; [by eapply list_elem_of_lookup_2|done]. }
  unfold cached. rewrite elem_of_app, !H. done.
Qed.

(** Zone [n] exists. *)
Lemma zone_ok m fl id : safe m fl -> 0 <= id < 16 -> exists z, zones (pm m) !! Z.to_nat id = Some z.
Proof. intros S. apply (s_zones _ _ S). Qed.
Lemma block_zones n s s' u r o b id : block_step lowest highest n s s' u r o b -> (exists z, zones s !! id = Some z) -> exists z, zones s' !! id = Some z.
Proof.
  intros B [z Ez]. destruct (decide (id = n)) as [->|Hne]; [destruct (b_zone _ _ _ _ _ _ _ _ _ B z Ez) as (z' & E & _); eauto|]. exists z. by rewrite (b_others _ _ _ _ _ _ _ _ _ B).
Qed.

(** The block [b] of order [o], whose pages had no references and have one now. *)
Record got (m m' : machine) (o b : Z) : Prop := mk_got {
  g_range : 0 < b /\ (2 ^ o | b) /\ lowest <= b /\ b + 2 ^ o <= highest;
  g_new : forall i, within b o i -> mbit (pm m) i = true /\ ref m i = Some 0 /\ ref m' i = Some 1;
  g_old : forall i, in_range i -> ~ within b o i -> ref m' i = ref m i }.

Lemma zone_alloc_step m fl n s' fl' o b : safe m fl -> allocated n (pm m) s' fl fl' o b ->
  safe (set_pm s' m) fl' /\ keeps m (set_pm s' m) /\ got m (set_pm s' m) o b.
Proof.
  intros S [A1 A2 A3 A4 A5 A6]. pose proof A2 as [B1 B2 B3 B4 B5 B6]. destruct S as [S1 S2 S3 S4 S5 S6 S7 S8 S9 S10].
  assert (Hw : forall i, within b o i -> in_range i) by (intros i Hi; unfold within, PmmBuddy.in_range in *; lia).
  assert (Href : forall i, in_range i -> ref (set_pm s' m) i = if decide (within b o i) then Some 1 else ref m i).
  { intros i Hi. unfold ref at 1. cbn. rewrite B4 by done. by destruct (decide _). }
  assert (Htk : forall i, taken m i -> taken (set_pm s' m) i /\ ref (set_pm s' m) i = ref m i).
  { intros i (Hi & Hm & Hu). assert (Hn : ~ within b o i) by (intros Hi'; destruct (A4 i Hi') as [_ ?]; congruence). split; [|rewrite Href, decide_False by done; done].
    split; [done|]. split; [unfold PmmBuddy.mbit; cbn; by rewrite B1|]. cbn. rewrite B3, decide_False by done. done. }
  split; [constructor; try done|split; [by constructor|constructor; try done]].
  - intros i v Hi Hv. rewrite Href in Hv by done. destruct (decide _); [injection Hv as <-; unfold UINT16_MAX; lia|by apply (S2 i)].
  - intros id Hid. by apply (block_zones n (pm m) s' _ _ _ _ _ A2), S3.
  - destruct S8 as [Hnd Hp]. split; [done|]. apply (Forall_impl _ _ _ Hp). intros p (i & -> & Ht & Hr). exists i. split; [done|]. destruct (Htk i Ht) as [? ->]. done.
  - destruct S9 as [Hz|(i & Hz & Ht & Hr)]; [by left|right]. exists i. split; [done|]. destruct (Htk i Ht) as [? ->]. done.
  - intros i Hi Hm. cbn. rewrite B3 by done. destruct (decide _); [done|]. apply S10; [done|]. unfold PmmBuddy.mbit in *. cbn in Hm. by rewrite <- B1.
  - intros i Hi. destruct (A4 i Hi) as [Hm Hu]. split; [done|]. split; [|rewrite Href, decide_True; auto]. unfold ref. apply (v_refs _ _ _ _ _ S1); auto.
  - intros i Hi Hn. by rewrite Href, decide_False.
Qed.

Lemma free_step m fl n i : safe m fl -> 0 <= n < 16 -> taken m i -> ref m i = Some 0 -> i * PAGE_SIZE ∉ cached m ->
  exists s' fl', buddy_free_internal lowest highest hhdm (Z.to_nat n) (i * PAGE_SIZE) 0 (pm m) = Ret s' /\ safe (set_pm s' m) fl' /\ keeps m (set_pm s' m) /\ same_refs m (set_pm s' m) /\
    (forall j, taken m j -> j <> i -> taken (set_pm s' m) j).
Proof.
  intros S Hn (Hi & Hm & Hu) Hr Hc. destruct (zone_ok m fl n S Hn) as [z Ez].
  assert (Hone : forall j, within i 0 j -> j = i) by (intros j Hj; unfold within in Hj; change (2 ^ 0) with 1 in Hj; lia).
  destruct (free_ok lowest highest hhdm Hcfg (pm m) fl (Z.to_nat n) z 0 i (s_inv _ _ S) Ez) as (s' & fl' & -> & [R1 R2 R3 R4 R5]).
  { unfold PmmBuddy.released. change (2 ^ 0) with 1. unfold PmmBuddy.in_range in Hi. split; [lia|]. split; [apply Z.divide_1_l|]. split; [lia|]. split; [lia|]. intros j ->%Hone. done. }
  exists s', fl'. split; [done|]. pose proof R2 as [B1 B2 B3 B4 B5 B6]. destruct S as [S1 S2 S3 S4 S5 S6 S7 S8 S9 S10].
  assert (Href : forall j, in_range j -> ref (set_pm s' m) j = ref m j) by (intros j Hj; unfold ref; cbn; rewrite B4 by done; by destruct (decide _)).
  assert (Htk : forall j, taken m j -> j <> i -> taken (set_pm s' m) j).
  { intros j (Hj & Hmj & Huj) Hne. split; [done|]. split; [unfold PmmBuddy.mbit; cbn; by rewrite B1|]. cbn. rewrite B3 by done. rewrite decide_False; [done|]. intros Hw. by apply Hne, Hone. }
  split; [constructor; try done|split; [by constructor|split; done]].
  - intros j v Hj Hv. rewrite Href in Hv by done. by apply (S2 j).
  - intros id Hid. by apply (block_zones _ (pm m) s' _ _ _ _ _ R2), S3.
  - destruct S8 as [Hnd Hp]. split; [done|]. apply Forall_forall. intros p Hp'. rewrite Forall_forall in Hp. destruct (Hp p Hp') as (j & -> & Ht & Hrj). exists j. split; [done|].
    split; [apply Htk; [done|]; by intros ->|]. rewrite Href; [done|]. by destruct Ht.
  - destruct S9 as [Hz|(j & Hz & Ht & Hrj)]; [by left|right]. exists j. split; [done|]. split; [apply Htk; [done|]; intros ->; rewrite Hr in Hrj; done|]. rewrite Href; [done|]. by destruct Ht.
  - intros j Hj Hmj. cbn. unfold PmmBuddy.mbit in Hmj. cbn in Hmj. rewrite B1 in Hmj. rewrite B3 by done. rewrite decide_False; [by apply S10|]. intros ->%Hone. unfold PmmBuddy.mbit in Hm. congruence.
Qed.

(** ** References *)

Lemma ref_is_Some m fl i : safe m fl -> in_range i -> exists v, ref m i = Some v.
Proof.
  intros S Hi. apply lookup_lt_is_Some. pose proof (c_ref _ _ _ _ _ (v_core _ _ _ _ _ (s_inv _ _ S))) as Hl. unfold page_count, PmmBuddy.in_range in *. lia.
Qed.
Lemma get_ref_ok m i v : in_range i -> ref m i = Some v -> get_ref lowest i m = Ret v.
Proof. intros Hi Hv. apply arr_get_Some. unfold PmmBuddy.in_range in Hi. split; [lia|done]. Qed.

Lemma put_ref_step m fl i v : safe m fl -> taken m i -> 0 <= v <= UINT16_MAX -> (v = 0 \/ i * PAGE_SIZE ∉ cached m) -> i * PAGE_SIZE <> zero_page_phys m ->
  exists m', put_refcount lowest i v m = Ret m' /\ safe m' fl /\ keeps m m' /\ ref m' i = Some v /\ (forall j, in_range j -> j <> i -> ref m' j = ref m j) /\
    pcp_caches m' = pcp_caches m /\ zero_pool m' = zero_pool m /\ bitmap (pm m') = bitmap (pm m).
Proof.
  intros S (Hi & Hm & Hu) Hv Hc Hz. pose proof (ref_is_Some m fl i S Hi) as [v0 Hv0]. unfold ref in Hv0. pose proof (lookup_lt_Some _ _ _ Hv0) as Hlt. unfold put_refcount.
  assert (Hi' : 0 <= i - lowest) by (unfold PmmBuddy.in_range in Hi; lia). rewrite arr_set_Ret by lia. rewrite ret_bind. set (r := <[_ := _]> _). eexists. split; [done|].
  assert (Href : forall j, in_range j -> r !! Z.to_nat (j - lowest) = if decide (j = i) then Some v else ref m j).
  { intros j Hj. unfold r, ref. destruct (decide (j = i)) as [->|Hne]; [by apply list_lookup_insert_eq|]. unfold PmmBuddy.in_range in Hj. by rewrite list_lookup_insert_ne by lia. }
  destruct S as [S1 S2 S3 S4 S5 S6 S7 S8 S9 S10]. split; [constructor; try done|split; [by constructor|]].
  - apply inv_refs; [done|apply length_insert|]. intros j Hj Hmj Huj. rewrite Href by done. rewrite decide_False; [done|]. intros ->. congruence.
  - intros j w Hj Hw. unfold ref in Hw. cbn in Hw. rewrite Href in Hw by done. destruct (decide _); [by injection Hw as <-|by apply (S2 j)].
  - destruct S8 as [Hnd Hp]. split; [done|]. apply Forall_forall. intros p Hp'. rewrite Forall_forall in Hp. destruct (Hp p Hp') as (j & -> & Ht & Hrj). exists j. split; [done|]. split; [done|].
    unfold ref. cbn. rewrite Href by apply Ht. destruct (decide (j = i)) as [->|]; [|done]. destruct Hc as [->|Hc]; [done|]. by destruct Hc.
  - destruct S9 as [Hz0|(j & Hz0 & Ht & Hrj)]; [by left|right]. exists j. split; [done|]. split; [done|]. unfold ref. cbn. rewrite Href by apply Ht. rewrite decide_False; [done|]. intros ->. by apply Hz.
  - unfold ref at 1. cbn. rewrite Href by done. rewrite decide_True by done. split; [done|]. split; [|done]. intros j Hj Hne. unfold ref at 1. cbn. by rewrite Href, decide_False.
Qed.

(** Errors counted, and pages marked, do not matter. *)
Lemma safe_ext m m' fl : pm m' = pm m -> topo m' = topo m -> pcp_caches m' = pcp_caches m -> zero_pool m' = zero_pool m -> zero_page_phys m' = zero_page_phys m -> safe m fl -> safe m' fl.
Proof.
  intros E1 E2 E3 E4 E5 [S1 S2 S3 S4 S5 S6 S7 S8 S9 S10]. destruct m as [a1 a2 a3 a4 a5 a6 a7 a8 a9 a10], m' as [b1 b2 b3 b4 b5 b6 b7 b8 b9 b10]. cbn in *. subst. by constructor.
Qed.
Lemma keeps_ext m m' : pm m' = pm m -> topo m' = topo m -> zero_page_phys m' = zero_page_phys m -> pcp_initialized m' = pcp_initialized m -> keeps m m'.
Proof. intros E ? ? ?. constructor; try done; by rewrite E. Qed.

Lemma taken_ref m fl i v : safe m fl -> in_range i -> mbit (pm m) i = true -> ref m i = Some v -> v <> 0 -> taken m i.
Proof.
  intros S Hi Hm Hr Hv. split; [done|]. split; [done|]. destruct (ubit (pm m) i) eqn:Hu; [done|]. pose proof (v_refs _ _ _ _ _ (s_inv _ _ S) i Hi Hm Hu) as H0. unfold ref in Hr. congruence.
Qed.
(** The pinned zero page has the largest count. *)
Lemma not_zero_page m fl i v : safe m fl -> in_range i -> mbit (pm m) i = true -> ref m i = Some v -> v <> UINT16_MAX -> i * PAGE_SIZE <> zero_page_phys m.
Proof.
  intros S Hi Hm Hr Hv E. destruct (s_zero _ _ S) as [Hz|(j & Hz & T' & R')]; rewrite <- E in Hz.
  - pose proof (v_zero _ _ _ _ _ (s_inv _ _ S) i Hi Hm). unfold PAGE_SIZE in *. lia.
  - assert (i = j) as -> by (unfold PAGE_SIZE in *; lia). congruence.
Qed.

(** Losing a reference. *)
Definition decr (v : Z) : Z := if (v =? 0) || (v =? UINT16_MAX) then v else v - 1.
Lemma put_ok m fl i : safe m fl -> in_range i -> mbit (pm m) i = true -> exists v m', ref m i = Some v /\ 0 <= v <= UINT16_MAX /\
  pmm_put_ref lowest (i * PAGE_SIZE) m = Ret (v =? 1, m') /\ safe m' fl /\ keeps m m' /\ ref m' i = Some (decr v) /\
  (forall j, in_range j -> j <> i -> ref m' j = ref m j) /\ (v = 1 -> taken m' i /\ i * PAGE_SIZE ∉ cached m').
Proof.
  intros S Hi Hm. destruct (ref_is_Some m fl i S Hi) as [v Hv]. pose proof (s_refs _ _ S i v Hi Hv) as Hr. unfold pmm_put_ref, decr. rewrite phys_pfn, (get_ref_ok m i v) by done.
  rewrite ret_bind. destruct (v =? 0) eqn:?; reify_bools; [subst v|destruct (v =? UINT16_MAX) eqn:?; reify_bools; [subst v|]].
  - exists 0, (ref_error m). split; [done|]. split; [lia|]. split; [done|]. split; [by apply (safe_ext m)|]. split; [by apply keeps_ext|]. done.
  - exists UINT16_MAX, m. split; [done|]. split; [lia|]. split; [done|]. split; [done|]. split; [apply keeps_refl|]. done.
  - pose proof (taken_ref m fl i v S Hi Hm Hv ltac:(done)) as T. assert (Hp : i * PAGE_SIZE ∉ cached m) by (intros Hin; apply (parked_ref m i (proj2 (s_cached _ _ S))) in Hin; congruence).
    destruct (put_ref_step m fl i (v - 1) S T) as (m' & -> & S' & K & Hr' & Ho & E1 & E2 & E3); [lia|by right|by apply (not_zero_page m fl i v)|]. rewrite ret_bind. exists v, m'. split; [done|]. split; [done|]. split; [done|].
    split; [done|]. split; [done|]. rewrite (proj2 (Z.eqb_neq v 0)), (proj2 (Z.eqb_neq v UINT16_MAX)) by done. split; [done|]. split; [done|]. intros _.
    split; [destruct T as (_ & _ & Hu); split; [done|]; unfold PmmBuddy.mbit, PmmBuddy.ubit; by rewrite E3, (k_managed _ _ K)|]. unfold cached. by rewrite E1, E2.
Qed.

(** ** Nodes *)

Lemma node_online_ok m fl id : safe m fl -> 0 <= id < 16 -> exists b, node_online (topo m) id = Ret b.
Proof.
  intros S Hid. destruct (s_nodes _ _ S) as [Hl _]. destruct (lookup_lt_is_Some_2 (nodes (topo m)) (Z.to_nat id)) as [n Hn]; [lia|].
  exists (online n). unfold node_online. rewrite (proj2 (arr_get_Some _ _ _) (conj (proj1 Hid) Hn)). done.
Qed.
Lemma get_node_ok m fl id : safe m fl -> exists n, numa_get_node (topo m) id = Ret n /\ 0 <= n < 16.
Proof.
  intros S. unfold numa_get_node, MAX_NUMA_NODES. destruct (id <? 0) eqn:?, (id >=? 16) eqn:?; reify_bools; cbn [orb]; try (exists 0; split; [done|lia]).
  destruct (node_online_ok m fl id S) as [b ->]; [lia|]. rewrite ret_bind. destruct b; [exists id|exists 0]; split; try done; lia.
Qed.
Lemma nodes_get m fl id : safe m fl -> 0 <= id < 16 -> exists n, arr_get (nodes (topo m)) id = Ret n /\ Forall (fun x => -1 <= x < 16) (fallback_order n).
Proof.
  intros S Hid. destruct (s_nodes _ _ S) as [Hl Hf]. destruct (lookup_lt_is_Some_2 (nodes (topo m)) (Z.to_nat id)) as [n Hn]; [lia|]. exists n.
  split; [apply arr_get_Some; split; [lia|done]|]. rewrite Forall_forall in Hf. apply Hf. by eapply list_elem_of_lookup_2.
Qed.

Definition valid_cpu (cpu : option Z) : Prop := match cpu with Some c => 0 <= c | None => True end.
Lemma cpu_node_ok m fl c : safe m fl -> 0 <= c -> exists n, numa_cpu_to_node (topo m) c = Ret n.
Proof.
  intros S Hc. unfold numa_cpu_to_node, MAX_CPUS. destruct (c >=? 64) eqn:?; reify_bools; [by exists 0|]. pose proof (s_cpus _ _ S) as Hl.
  destruct (lookup_lt_is_Some_2 (cpu_nodes (topo m)) (Z.to_nat c)) as [n Hn]; [lia|]. exists n. apply arr_get_Some. done.
Qed.
Lemma current_node_ok m fl cpu : safe m fl -> valid_cpu cpu -> exists n, current_node cpu (topo m) = Ret n.
Proof. intros S Hc. unfold current_node. destruct cpu as [c|]; [|by exists 0]. destruct (c <? MAX_CPUS); [by apply (cpu_node_ok m fl)|by exists 0]. Qed.

(** ** Allocation *)

(** A call that returns 0 or a block of order [o] that satisfies [P]. *)
Definition alloc_spec (alloc : nat -> pmm -> outcome (Z * pmm)) (o : Z) (P : Z -> Prop) : Prop := forall s fl n z, inv s fl -> zones s !! n = Some z ->
  alloc n s = Ret (0, s) \/ exists s' fl' b, alloc n s = Ret (b * PAGE_SIZE, s') /\ allocated n s s' fl fl' o b /\ P b.
Definition gives (r : outcome (Z * machine)) (m : machine) (o : Z) (P : Z -> Prop) : Prop := exists p m' fl', r = Ret (p, m') /\ safe m' fl' /\ keeps m m' /\
  (p = 0 /\ same_refs m m' \/ exists b, p = b * PAGE_SIZE /\ got m m' o b /\ P b).

Lemma set_pm_id m : set_pm (pm m) m = m.
Proof. by destruct m. Qed.
Lemma gives_none m fl o P : safe m fl -> gives (Ret (0, m)) m o P.
Proof. intros S. exists 0, m, fl. split; [done|]. split; [done|]. split; [apply keeps_refl|by left]. Qed.
Lemma alloc_gives alloc o P m fl id (k : machine -> outcome (Z * machine)) : alloc_spec alloc o P -> safe m fl -> 0 <= id < 16 -> gives (k m) m o P ->
  gives ('(p, s) ← alloc (Z.to_nat id) (pm m); if nz p then Ret (p, set_pm s m) else k (set_pm s m)) m o P.
Proof.
  intros Ha S Hid Hk. destruct (zone_ok m fl id S Hid) as [z Ez]. destruct (Ha (pm m) fl (Z.to_nat id) z (s_inv _ _ S) Ez) as [->|(s' & fl' & b & -> & A & HP)]; rewrite ret_bind; cbn beta iota.
  - cbn [nz Z.eqb negb]. by rewrite set_pm_id.
  - destruct (zone_alloc_step m fl (Z.to_nat id) s' fl' o b S A) as (S' & K & G). destruct (g_range _ _ _ _ G) as [Hb _]. unfold nz. rewrite (proj2 (Z.eqb_neq _ 0)) by (unfold PAGE_SIZE; lia). cbn [negb].
    exists (b * PAGE_SIZE), (set_pm s' m), fl'. split; [done|]. split; [done|]. split; [done|]. right. by exists b.
Qed.

(** The node that stands for one of the fallback order. *)
Definition picks (pick : topology -> Z -> outcome Z) : Prop := forall m fl x, safe m fl -> 0 <= x < 16 -> exists n, pick (topo m) x = Ret n /\ 0 <= n < 16.
Lemma picks_itself : picks (fun _ x => Ret x).
Proof. intros m fl x _ Hx. by exists x. Qed.
Lemma picks_get_node : picks numa_get_node.
Proof. intros m fl x S _. by apply (get_node_ok m fl). Qed.

Lemma try_nodes_ok pick alloc o P allowed id fb m fl : picks pick -> alloc_spec alloc o P -> safe m fl -> Forall (fun x => -1 <= x < 16) fb -> gives (try_nodes pick alloc allowed id fb m) m o P.
Proof.
  intros Hp Ha S Hf. induction Hf as [|x fb Hx Hf IH]; cbn [try_nodes]; [by apply (gives_none m fl)|]. unfold NUMA_NO_NODE. destruct ((x =? -1) || (x =? id)) eqn:E; [done|].
  apply orb_false_iff in E as [E _]. reify_bools. destruct (Hp m fl x S) as (an & -> & Han); [lia|]. rewrite ret_bind. destruct (node_online_ok m fl an S Han) as [b ->]. rewrite ret_bind. destruct (negb b || negb (allowed x)); [done|].
  by apply (alloc_gives alloc o P m fl an (try_nodes pick alloc allowed id fb) Ha S).
Qed.

Lemma internal_spec count : alloc_spec (fun id s => buddy_alloc_internal lowest highest hhdm id (pmm_get_order count) s) (pmm_get_order count) (fun _ => True).
Proof.
  intros s fl n z V Ez. destruct (get_order_ok count) as [Ho _]. destruct (alloc_ok lowest highest hhdm Hcfg s fl n z (pmm_get_order count) V Ez) as [[-> _]|(s' & fl' & b & -> & A)]; [lia|by left|].
  right. by exists s', fl', b.
Qed.
(** The bounds of [pmm_alloc_pages_range]. *)
Definition between (count min max b : Z) : Prop := count <= 2 ^ pmm_get_order count /\ min <= b * PAGE_SIZE /\ (b + 2 ^ pmm_get_order count) * PAGE_SIZE <= max.
Lemma range_spec count min max : 0 <= count -> 0 <= min -> min + 2 ^ 32 <= 2 ^ 64 ->
  alloc_spec (fun id s => buddy_alloc_pages_range lowest highest hhdm id count min max s) (pmm_get_order count) (between count min max).
Proof.
  intros Hc H1 H2 s fl n z V Ez. destruct (decide (count = 0)) as [->|Hne]; [by left|].
  destruct (alloc_range_ok lowest highest hhdm Hcfg s fl n z count min max V Ez) as [[-> _]|(s' & fl' & b & -> & A & H3 & H4)]; [lia..|by left|]. right. exists s', fl', b. done.
Qed.
Lemma page_spec : alloc_spec (buddy_alloc_page_locked lowest highest hhdm) 0 (fun _ => True).
Proof. intros s fl n z V Ez. destruct (page_locked_ok lowest highest hhdm Hcfg s fl n z V Ez) as [[-> _]|(s' & fl' & b & -> & A)]; [by left|]. right. by exists s', fl', b. Qed.

Lemma fallback_ok pick alloc o P allowed id n m fl : picks pick -> alloc_spec alloc o P -> safe m fl -> 0 <= n < 16 ->
  gives (nd ← arr_get (nodes (topo m)) n; try_nodes pick alloc allowed id (fallback_order nd) m) m o P.
Proof. intros Hp Ha S Hn. destruct (nodes_get m fl n S Hn) as (nd & -> & Hf). rewrite ret_bind. by apply (try_nodes_ok _ _ _ _ _ _ _ _ fl). Qed.

Lemma nodemask_ok m fl count id mask : safe m fl -> gives (pmm_alloc_pages_nodemask lowest highest hhdm count id mask m) m (pmm_get_order count) (fun _ => True).
Proof.
  intros S. unfold pmm_alloc_pages_nodemask. destruct (count =? 0); [by apply (gives_none m fl)|]. destruct (get_node_ok m fl id S) as (n & -> & Hn). rewrite ret_bind.
  pose proof (fallback_ok _ _ _ _ (mask_allows mask) n n m fl picks_itself (internal_spec count) S Hn) as Hk. destruct (mask_allows mask n); [|rewrite ret_bind; exact Hk].
  pose proof (alloc_gives _ _ _ m fl n (fun m => nd ← arr_get (nodes (topo m)) n; try_nodes (fun _ x => Ret x) (fun id s => buddy_alloc_internal lowest highest hhdm id (pmm_get_order count) s) (mask_allows mask) n (fallback_order nd) m)
    (internal_spec count) S Hn Hk) as H. cbn beta in H. destruct (buddy_alloc_internal _ _ _ _ _ _) as [[p s]| | |]; exact H.
Qed.
Lemma alloc_pages_ok m fl cpu count : safe m fl -> valid_cpu cpu -> gives (pmm_alloc_pages lowest highest hhdm cpu count m) m (pmm_get_order count) (fun _ => True).
Proof.
  intros S Hc. unfold pmm_alloc_pages. destruct (count =? 0); [by apply (gives_none m fl)|]. destruct (current_node_ok m fl cpu S Hc) as [n ->]. rewrite ret_bind. by apply (nodemask_ok m fl).
Qed.
Lemma pages_range_ok m fl cpu count min max : safe m fl -> valid_cpu cpu -> 0 <= count -> 0 <= min -> min + 2 ^ 32 <= 2 ^ 64 ->
  gives (pmm_alloc_pages_range lowest highest hhdm cpu count min max m) m (pmm_get_order count) (between count min max).
Proof.
  intros S Hc Hn H1 H2. unfold pmm_alloc_pages_range. destruct (current_node_ok m fl cpu S Hc) as [node ->]. rewrite ret_bind. destruct (get_node_ok m fl node S) as (n & -> & Hn'). rewrite ret_bind.
  pose proof (fallback_ok _ _ _ _ (fun _ => true) node n m fl picks_get_node (range_spec count min max Hn H1 H2) S Hn') as Hk.
  exact (alloc_gives _ _ _ m fl n (fun m => nd ← arr_get (nodes (topo m)) n; try_nodes numa_get_node (fun id s => buddy_alloc_pages_range lowest highest hhdm id count min max s) (fun _ => true) node (fallback_order nd) m)
    (range_spec count min max Hn H1 H2) S Hn' Hk).
Qed.

(** ** Caches *)

(** The stacks in which the list of processor [c] is [l] instead of [l0]. *)
Lemma concat_insert (cs : list (list Z)) c l0 l : cs !! c = Some l0 -> exists a b, concat cs = a ++ l0 ++ b /\ concat (<[c := l]> cs) = a ++ l ++ b.
Proof.
  intros E. exists (concat (take c cs)), (concat (drop (S c) cs)). rewrite insert_take_drop by (by eapply lookup_lt_Some). rewrite <- (take_drop_middle cs c l0 E) at 1.
  by rewrite !concat_app.
Qed.
Lemma stacks_get cs c : stacks cs -> 0 <= c < 64 -> exists l, arr_get cs c = Ret l /\ cs !! Z.to_nat c = Some l /\ Z.of_nat (length l) <= 128.
Proof.
  intros [Hl Hf] Hc. destruct (lookup_lt_is_Some_2 cs (Z.to_nat c)) as [l E]; [lia|]. exists l. split; [apply arr_get_Some; split; [lia|done]|]. split; [done|].
  rewrite Forall_forall in Hf. apply Hf. by eapply list_elem_of_lookup_2.
Qed.
Lemma stacks_set cs c l : stacks cs -> 0 <= c < 64 -> Z.of_nat (length l) <= 128 -> arr_set cs c l = Ret (<[Z.to_nat c := l]> cs) /\ stacks (<[Z.to_nat c := l]> cs).
Proof. intros [Hl Hf] Hc Hn. split; [apply arr_set_Ret; lia|]. split; [by rewrite length_insert|]. by apply Forall_insert. Qed.
Lemma cache_of_ok cpu c : cache_of cpu = Some c -> valid_cpu cpu -> 0 <= c < 64.
Proof. unfold cache_of, MAX_CPUS. destruct cpu as [x|]; [|done]. destruct (x <? 64) eqn:?; [|done]. reify_bools. intros [= <-] ?. cbn in *. lia. Qed.

(** Replacing part of a list of distinct pages. *)
Lemma replace_pages (P : Z -> Prop) (a l0 b l : list Z) : NoDup (a ++ l0 ++ b) -> (forall p, p ∈ a ++ l0 ++ b -> P p) -> NoDup l -> (forall p, p ∈ l -> p ∈ l0 \/ P p /\ p ∉ a ++ l0 ++ b) ->
  NoDup (a ++ l ++ b) /\ (forall p, p ∈ a ++ l ++ b -> P p) /\ (forall p, p ∉ l -> p ∈ l0 \/ p ∉ a ++ l0 ++ b -> p ∉ a ++ l ++ b).
Proof.
  intros (N1 & N2 & N3)%NoDup_app F Hnd Hl. apply NoDup_app in N3 as (N3 & N4 & N5).
  assert (D : forall p, p ∈ l -> p ∉ a /\ p ∉ b).
  { intros p Hp. destruct (Hl p Hp) as [H|[_ H]]; [split; [intros Ha; apply (N2 p Ha); apply elem_of_app; by left|by apply N4]|]. rewrite !elem_of_app in *. tauto. }
  split; [|split].
  - apply NoDup_app. split; [done|]. split; [|apply NoDup_app; split; [done|]; split; [|done]; intros p Hp; by apply D].
    intros p Hp. rewrite elem_of_app. intros [H|H]; [by apply D in H as [? _]|]. apply (N2 p Hp). apply elem_of_app. by right.
  - intros p Hp. rewrite !elem_of_app in Hp. destruct (decide (p ∈ l)) as [Hpl|Hpl].
    + destruct (Hl p Hpl) as [H|[H _]]; [|done]. apply F. rewrite !elem_of_app. tauto.
    + apply F. rewrite !elem_of_app. tauto.
  - intros p Hp Hor Hin. rewrite !elem_of_app in *. destruct Hor as [H0|H0]; [|tauto]. destruct Hin as [H|[H|H]]; [|done|].
    + apply (N2 p H). apply elem_of_app. by left.
    + by apply (N4 p H0).
Qed.

(** A page with no references that is in no cache. *)
Definition spare (m : machine) (p : Z) : Prop := parked m p /\ p ∉ cached m.

(** The stack of processor [c] becomes [l]: pages of [l0] or spare ones. *)
Definition restacked (m m' : machine) (fl : lists) (l0 l : list Z) : Prop :=
  safe m' fl /\ keeps m m' /\ same_refs m m' /\ pm m' = pm m /\ (forall p, p ∉ l -> (p ∈ l0 /\ parked m p) \/ spare m p -> spare m' p).
Lemma restack m m' fl l0 l : safe m fl -> pm m' = pm m -> topo m' = topo m -> zero_page_phys m' = zero_page_phys m -> pcp_initialized m' = pcp_initialized m -> stacks (pcp_caches m') -> stacks (zero_pool m') ->
  NoDup (cached m') -> (forall p, p ∈ cached m' -> parked m p) -> (forall p, p ∉ l -> p ∈ l0 \/ p ∉ cached m -> p ∉ cached m') -> restacked m m' fl l0 l.
Proof.
  intros [S1 S2 S3 S4 S5 S6 S7 S8 S9 S10] E1 E2 E3 E4 H1 H2 H3 H4 H5. assert (Ep : forall p, parked m p -> parked m' p) by (intros p (i & -> & T & R); exists i; unfold taken, ref in *; by rewrite E1).
  split; [|split; [by apply keeps_ext|split; [intros i Hi; unfold ref; by rewrite E1|split; [done|]]]].
  - constructor; unfold ref, taken; rewrite ?E1, ?E2, ?E3; try done. split; [done|]. apply Forall_forall. auto.
  - intros p Hp [[Hl Hk]|[Hk Hc]]; (split; [by apply Ep|]); apply H5; auto.
Qed.

Lemma pcp_set m fl c l0 l : safe m fl -> 0 <= c < 64 -> pcp_caches m !! Z.to_nat c = Some l0 -> Z.of_nat (length l) <= 128 ->
  NoDup l -> (forall p, p ∈ l -> p ∈ l0 \/ spare m p) ->
  exists cs, arr_set (pcp_caches m) c l = Ret cs /\ cs !! Z.to_nat c = Some l /\ restacked m (set_pcp cs m) fl l0 l.
Proof.
  intros S Hc E Hn Hnd Hl. destruct (stacks_set (pcp_caches m) c l (s_pcp _ _ S) Hc Hn) as [Es Hs]. eexists. split; [done|]. split; [apply list_lookup_insert_eq; by eapply lookup_lt_Some|].
  destruct (s_cached _ _ S) as [N F]. rewrite Forall_forall in F. destruct (concat_insert (pcp_caches m) (Z.to_nat c) l0 l E) as (a & b & E1 & E2).
  assert (Ec : cached m = a ++ l0 ++ b ++ concat (zero_pool m)) by (unfold cached; by rewrite E1, <- !app_assoc).
  assert (Ec' : cached (set_pcp (<[Z.to_nat c := l]> (pcp_caches m)) m) = a ++ l ++ b ++ concat (zero_pool m)) by (unfold cached; cbn; by rewrite E2, <- !app_assoc).
  unfold spare in Hl. rewrite Ec in N, F, Hl. destruct (replace_pages (parked m) a l0 _ l N F Hnd Hl) as (R1 & R2 & R3). rewrite <- Ec in R3. rewrite <- Ec' in R1, R2, R3.
  apply restack; try done. apply (s_zpool _ _ S).
Qed.
Lemma zpool_set m fl c l0 l : safe m fl -> 0 <= c < 64 -> zero_pool m !! Z.to_nat c = Some l0 -> Z.of_nat (length l) <= 128 ->
  NoDup l -> (forall p, p ∈ l -> p ∈ l0 \/ spare m p) ->
  exists zs, arr_set (zero_pool m) c l = Ret zs /\ restacked m (set_zpool zs m) fl l0 l.
Proof.
  intros S Hc E Hn Hnd Hl. destruct (stacks_set (zero_pool m) c l (s_zpool _ _ S) Hc Hn) as [Es Hs]. eexists. split; [done|].
  destruct (s_cached _ _ S) as [N F]. rewrite Forall_forall in F. destruct (concat_insert (zero_pool m) (Z.to_nat c) l0 l E) as (a & b & E1 & E2).
  assert (Ec : cached m = (concat (pcp_caches m) ++ a) ++ l0 ++ b) by (unfold cached; by rewrite E1, <- !app_assoc).
  assert (Ec' : cached (set_zpool (<[Z.to_nat c := l]> (zero_pool m)) m) = (concat (pcp_caches m) ++ a) ++ l ++ b) by (unfold cached; cbn; by rewrite E2, <- !app_assoc).
  unfold spare in Hl. rewrite Ec in N, F, Hl. destruct (replace_pages (parked m) _ l0 b l N F Hnd Hl) as (R1 & R2 & R3). rewrite <- Ec in R3. rewrite <- Ec' in R1, R2, R3.
  apply restack; try done. apply (s_pcp _ _ S).
Qed.
Lemma stack_parked m fl c l p : safe m fl -> pcp_caches m !! c = Some l \/ zero_pool m !! c = Some l -> p ∈ l -> parked m p.
Proof. intros S E Hp. destruct (s_cached _ _ S) as [_ F]. rewrite Forall_forall in F. apply F, cached_split. destruct E; eauto. Qed.
Lemma stack_nodup m fl c l : safe m fl -> pcp_caches m !! c = Some l \/ zero_pool m !! c = Some l -> NoDup l.
Proof.
  intros S E. destruct (s_cached _ _ S) as [N _]. unfold cached in N. apply NoDup_app in N as (N1 & _ & N2).
  destruct E as [E|E]; destruct (concat_insert _ _ _ l E) as (a & b & Ec & _); [rewrite Ec in N1; clear N2; rename N1 into N|rewrite Ec in N2; clear N1; rename N2 into N];
    apply NoDup_app in N as (_ & _ & N); by apply NoDup_app in N as (N & _).
Qed.

Lemma parked_not_zero m fl p : safe m fl -> parked m p -> p <> zero_page_phys m.
Proof. intros S (i & -> & (Hi & Hm & _) & R). by apply (not_zero_page m fl i 0). Qed.

(** A spare page is given to a caller. *)
Lemma hand_page_ok m fl p : safe m fl -> spare m p -> gives (hand_page lowest p m) m 0 (fun _ => True).
Proof.
  intros S [(i & -> & T & R) Hc]. pose proof (parked_not_zero m fl (i * PAGE_SIZE) S) as Hz. unfold hand_page. rewrite phys_pfn.
  destruct (put_ref_step m fl i 1 S T) as (m' & -> & S' & K & R1 & R2 & E1 & E2 & E3); [unfold UINT16_MAX; lia|by right|apply Hz; by exists i|]. rewrite ret_bind.
  exists (i * PAGE_SIZE), m', fl. split; [done|]. split; [done|]. split; [done|]. right. exists i. split; [done|]. split; [|done]. destruct T as (Hi & Hm & Hu).
  assert (Hone : forall j, within i 0 j <-> j = i) by (intros j; unfold within; change (2 ^ 0) with 1; lia).
  constructor.
  - split; [by apply (v_zero _ _ _ _ _ (s_inv _ _ S))|]. split; [apply Z.divide_1_l|]. change (2 ^ 0) with 1. unfold PmmBuddy.in_range in Hi. lia.
  - intros j ->%Hone. done.
  - intros j Hj Hn. apply R2; [done|]. intros ->. by apply Hn, Hone.
Qed.
Lemma gives_via m m1 r o P : keeps m m1 -> same_refs m m1 -> gives r m1 o P -> gives r m o P.
Proof.
  intros K R (p & m' & fl' & -> & S' & K' & H). exists p, m', fl'. split; [done|]. split; [done|]. split; [by eapply keeps_trans|]. destruct H as [[-> H]|(b & -> & [G1 G2 G3] & HP)].
  - left. split; [done|]. by eapply same_refs_trans.
  - right. exists b. split; [done|]. split; [|done]. assert (Hw : forall i, within b o i -> in_range i) by (intros i Hi; unfold within, PmmBuddy.in_range in *; lia).
    constructor; [done| |].
    + intros i Hi. destruct (G2 i Hi) as (H1 & H2 & H3). split; [unfold PmmBuddy.mbit in *; by rewrite <- (k_managed _ _ K)|]. rewrite <- R by auto. done.
    + intros i Hi Hn. by rewrite G3, R.
Qed.

Lemma snoc_last (l : list Z) : (0 < length l)%nat -> exists l' p, l = l' ++ [p].
Proof. destruct l as [|x l] using rev_ind; cbn; [lia|eauto]. Qed.
Lemma take_snoc (l : list Z) p : take (length (l ++ [p]) - 1) (l ++ [p]) = l.
Proof. rewrite length_app. cbn. rewrite Nat.add_sub. by rewrite take_app_length. Qed.

(** Removing the top of a stack. *)
Lemma pcp_pop_ok m fl c l : safe m fl -> 0 <= c < 64 -> pcp_caches m !! Z.to_nat c = Some l -> (0 < length l)%nat -> gives (pcp_pop lowest c l m) m 0 (fun _ => True).
Proof.
  intros S Hc E (l' & p & ->)%snoc_last. unfold pcp_pop. rewrite last_snoc. cbn [deref]. rewrite ret_bind, take_snoc.
  pose proof (stack_nodup m fl _ _ S (or_introl E)) as Hnd. apply NoDup_app in Hnd as (N1 & N2 & _). pose proof (stacks_get _ c (s_pcp _ _ S) Hc) as (l0 & _ & E0 & Hlen). rewrite E in E0. injection E0 as <-.
  rewrite length_app in Hlen. cbn in Hlen. destruct (pcp_set m fl c _ l' S Hc E) as (cs & -> & _ & S' & K & R & Ep & Hsp); [lia|done|intros q Hq; left; apply elem_of_app; by left|]. rewrite ret_bind.
  apply (gives_via m (set_pcp cs m)); [done|done|]. apply (hand_page_ok _ fl); [done|]. apply Hsp; [intros Hin; apply (N2 p Hin); by left|]. left.
  assert (Hp : p ∈ l' ++ [p]) by (apply elem_of_app; right; by left). split; [done|]. by apply (stack_parked m fl (Z.to_nat c) (l' ++ [p])); [|left|].
Qed.

(** A page taken from a zone and put on a stack. *)
Lemma refill_step m fl c l n : safe m fl -> 0 <= c < 64 -> 0 <= n < 16 -> pcp_caches m !! Z.to_nat c = Some l -> Z.of_nat (length l) < 128 ->
  buddy_alloc_page_locked lowest highest hhdm (Z.to_nat n) (pm m) = Ret (0, pm m) \/
  exists s b m1 cs fl1, buddy_alloc_page_locked lowest highest hhdm (Z.to_nat n) (pm m) = Ret (b * PAGE_SIZE, s) /\ 0 < b /\ put_refcount lowest b 0 (set_pm s m) = Ret m1 /\
    pcp_caches m1 = pcp_caches m /\ arr_set (pcp_caches m1) c (l ++ [b * PAGE_SIZE]) = Ret cs /\ cs !! Z.to_nat c = Some (l ++ [b * PAGE_SIZE]) /\
    safe (set_pcp cs m1) fl1 /\ keeps m (set_pcp cs m1) /\ same_refs m (set_pcp cs m1).
Proof.
  intros S Hc Hn E Hl. destruct (zone_ok m fl n S Hn) as [z Ez]. destruct (page_spec (pm m) fl (Z.to_nat n) z (s_inv _ _ S) Ez) as [->|(s & fl1 & b & -> & A & _)]; [by left|right].
  destruct (zone_alloc_step m fl _ s fl1 0 b S A) as (S1 & K1 & G). destruct (g_range _ _ _ _ G) as (Hb & _ & Hlo & Hhi). change (2 ^ 0) with 1 in Hhi.
  assert (Hbr : in_range b) by (unfold PmmBuddy.in_range; lia). assert (Hw : forall j, within b 0 j <-> j = b) by (intros j; unfold within; change (2 ^ 0) with 1; lia).
  destruct (g_new _ _ _ _ G b (proj2 (Hw b) eq_refl)) as (Hm & R0 & R1).
  assert (T : taken (set_pm s m) b) by (apply (taken_ref _ fl1 b 1 S1); [done| |done|done]; unfold PmmBuddy.mbit in *; by rewrite (k_managed _ _ K1)).
  pose proof (not_zero_page _ fl1 b 1 S1 Hbr (proj1 (proj2 T)) R1 ltac:(done)) as Hz.
  destruct (put_ref_step (set_pm s m) fl1 b 0 S1 T) as (m1 & Epr & S2 & K2 & R2 & R3 & E1 & E2 & E3); [unfold UINT16_MAX; lia|by left|done|].
  assert (Hsp : spare m1 (b * PAGE_SIZE)).
  { split; [exists b; split; [done|]; split; [|done]; destruct T as (? & Hm1 & Hu1); split; [done|]; unfold PmmBuddy.mbit, PmmBuddy.ubit; by rewrite E3, (k_managed _ _ K2)|].
    unfold cached. rewrite E1, E2. intros Hin. apply (parked_ref (set_pm s m) b (proj2 (s_cached _ _ S1))) in Hin. congruence. }
  assert (E' : pcp_caches m1 !! Z.to_nat c = Some l) by (by rewrite E1).
  destruct (pcp_set m1 fl1 c l (l ++ [b * PAGE_SIZE]) S2 Hc E') as (cs & Ecs & Ecl & S3 & K3 & R4 & _).
  - rewrite length_app. cbn. lia.
  - apply NoDup_app. split; [by apply (stack_nodup m1 fl1 _ l S2 (or_introl E'))|]. split; [|apply NoDup_singleton]. intros p Hp ->%list_elem_of_singleton.
    destruct Hsp as [_ Hsp]. apply Hsp, cached_split. left. eauto.
  - intros p [Hp| ->%list_elem_of_singleton]%elem_of_app; [by left|by right].
  - exists s, b, m1, cs, fl1. split; [done|]. split; [done|]. split; [done|]. split; [done|]. split; [done|]. split; [done|]. split; [done|].
    split; [by eapply keeps_trans; [exact K1|]; eapply keeps_trans; [exact K2|]|]. intros j Hj. rewrite R4 by done. destruct (decide (j = b)) as [->|Hne]; [by rewrite R2, R0|].
    rewrite R3 by done. apply (g_old _ _ _ _ G); [done|]. by rewrite Hw.
Qed.

Lemma refill_ok k : forall m fl c l n, safe m fl -> 0 <= c < 64 -> 0 <= n < 16 -> pcp_caches m !! Z.to_nat c = Some l -> Z.of_nat (length l) + Z.of_nat k <= 128 ->
  exists m' fl' l', pcp_refill lowest highest hhdm k c (Z.to_nat n) m = Ret m' /\ safe m' fl' /\ keeps m m' /\ same_refs m m' /\ pcp_caches m' !! Z.to_nat c = Some l'.
Proof.
  induction k as [|k IH]; intros m fl c l n S Hc Hn E Hl; cbn [pcp_refill].
  { exists m, fl, l. split; [done|]. split; [done|]. split; [apply keeps_refl|done]. }
  destruct (refill_step m fl c l n S Hc Hn E) as [->|(s & b & m1 & cs & fl1 & -> & Hb & Ep & E1 & Es & Ecl & S1 & K1 & R1)]; [lia| |]; rewrite ret_bind; cbn beta iota.
  - rewrite set_pm_id. exists m, fl, l. split; [done|]. split; [done|]. split; [apply keeps_refl|done].
  - rewrite (proj2 (Z.eqb_neq _ 0)) by (unfold PAGE_SIZE; lia). rewrite phys_pfn, Ep, ret_bind, E1, (proj2 (arr_get_Some _ _ _) (conj (proj1 Hc) E)), ret_bind, <- E1. unfold PCP_CAPACITY.
    destruct (Z.of_nat (length l) >=? 128) eqn:Hge; [reify_bools; lia|]. rewrite Es, ret_bind.
    destruct (IH (set_pcp cs m1) fl1 c (l ++ [b * PAGE_SIZE]) n S1 Hc Hn Ecl) as (m' & fl' & l' & -> & S' & K' & R' & E'); [rewrite length_app; cbn; lia|].
    exists m', fl', l'. split; [done|]. split; [done|]. split; [by eapply keeps_trans|]. split; [by eapply same_refs_trans|done].
Qed.

Lemma refill_others_ok fb : forall m fl c node, safe m fl -> 0 <= c < 64 -> pcp_caches m !! Z.to_nat c = Some [] -> Forall (fun x => -1 <= x < 16) fb ->
  exists m' fl' l', pcp_refill_others lowest highest hhdm c node fb m = Ret m' /\ safe m' fl' /\ keeps m m' /\ same_refs m m' /\ pcp_caches m' !! Z.to_nat c = Some l'.
Proof.
  induction fb as [|x fb IH]; intros m fl c node S Hc E Hf; cbn [pcp_refill_others].
  { exists m, fl, []. split; [done|]. split; [done|]. split; [apply keeps_refl|done]. }
  apply Forall_cons in Hf as [Hx Hf]. unfold NUMA_NO_NODE. destruct ((x =? -1) || (x =? node)) eqn:Ex; [by apply (IH m fl)|].
  apply orb_false_iff in Ex as [Ex _]. reify_bools. destruct (get_node_ok m fl x S) as (an & -> & Han). rewrite ret_bind. destruct (node_online_ok m fl an S Han) as [b ->]. rewrite ret_bind. destruct (negb b); [by apply (IH m fl)|].
  destruct (refill_ok PCP_BATCH m fl c [] an S Hc Han E) as (m1 & fl1 & l1 & -> & S1 & K1 & R1 & E1); [unfold PCP_BATCH; cbn [length]; lia|]. rewrite ret_bind.
  rewrite (proj2 (arr_get_Some _ _ _) (conj (proj1 Hc) E1)), ret_bind. destruct (0 <? length l1)%nat eqn:Hl.
  - exists m1, fl1, l1. done.
  - apply Nat.ltb_ge in Hl. destruct l1; [|cbn in Hl; lia]. destruct (IH m1 fl1 c node S1 Hc E1 Hf) as (m' & fl' & l' & -> & S' & K' & R' & E').
    exists m', fl', l'. split; [done|]. split; [done|]. split; [by eapply keeps_trans|]. split; [by eapply same_refs_trans|done].
Qed.

Lemma pcp_alloc_ok m fl cpu : safe m fl -> valid_cpu cpu -> gives (pmm_pcp_alloc_page lowest highest hhdm cpu m) m 0 (fun _ => True).
Proof.
  intros S Hcpu. unfold pmm_pcp_alloc_page. destruct (negb _); [by apply (gives_none m fl)|]. destruct (cache_of cpu) as [c|] eqn:Ec; [|by apply (gives_none m fl)].
  pose proof (cache_of_ok cpu c Ec Hcpu) as Hc. destruct (stacks_get _ c (s_pcp _ _ S) Hc) as (l & -> & E & Hlen). rewrite ret_bind. destruct (0 <? length l)%nat eqn:Hl.
  { apply Nat.ltb_lt in Hl. by apply (pcp_pop_ok m fl). }
  apply Nat.ltb_ge in Hl. destruct l; [|cbn in Hl; lia]. destruct (cpu_node_ok m fl c S ltac:(lia)) as [node ->]. rewrite ret_bind. destruct (get_node_ok m fl node S) as (n & -> & Hn). rewrite ret_bind.
  destruct (refill_ok PCP_BATCH m fl c [] n S Hc Hn E) as (m1 & fl1 & l1 & -> & S1 & K1 & R1 & E1); [unfold PCP_BATCH; cbn [length]; lia|]. rewrite ret_bind.
  rewrite (proj2 (arr_get_Some _ _ _) (conj (proj1 Hc) E1)), ret_bind.
  assert (Hex : exists m2 fl2 l2, (if (0 <? length l1)%nat then Ret m1 else nd ← arr_get (nodes (topo m1)) n; pcp_refill_others lowest highest hhdm c node (fallback_order nd) m1) = Ret m2 /\
    safe m2 fl2 /\ keeps m1 m2 /\ same_refs m1 m2 /\ pcp_caches m2 !! Z.to_nat c = Some l2).
  { destruct (0 <? length l1)%nat eqn:Hl1; [exists m1, fl1, l1; split; [done|]; split; [done|]; split; [apply keeps_refl|done]|]. apply Nat.ltb_ge in Hl1. destruct l1; [|cbn in Hl1; lia].
    destruct (nodes_get m1 fl1 n S1 Hn) as (nd & -> & Hf). rewrite ret_bind. by apply (refill_others_ok _ m1 fl1). }
  destruct Hex as (m2 & fl2 & l2 & -> & S2 & K2 & R2 & E2). rewrite ret_bind, (proj2 (arr_get_Some _ _ _) (conj (proj1 Hc) E2)), ret_bind.
  apply (gives_via m m2); [by eapply keeps_trans|by eapply same_refs_trans|]. destruct (0 <? length l2)%nat eqn:Hl2; [|by apply (gives_none m2 fl2)]. apply Nat.ltb_lt in Hl2. by apply (pcp_pop_ok m2 fl2).
Qed.

(** ** Returning pages *)

(** A step that keeps all references, and keeps spare pages outside [ps] spare. *)
Definition returns (r : outcome machine) (m : machine) (ps : list Z) : Prop := exists m' fl', r = Ret m' /\ safe m' fl' /\ keeps m m' /\ same_refs m m' /\
  (forall q, q ∉ ps -> spare m q -> spare m' q).
Lemma returns_refl m fl ps : safe m fl -> returns (Ret m) m ps.
Proof. intros S. exists m, fl. split; [done|]. split; [done|]. split; [apply keeps_refl|]. done. Qed.

Lemma free_node_ok m fl p : safe m fl -> spare m p -> exists m' fl', free_to_node lowest highest hhdm p 0 m = Ret m' /\ safe m' fl' /\ keeps m m' /\ same_refs m m' /\
  pcp_caches m' = pcp_caches m /\ zero_pool m' = zero_pool m /\ (forall q, q <> p -> parked m q -> parked m' q).
Proof.
  intros S [(i & -> & T & R) Hc]. unfold free_to_node. destruct (get_node_ok m fl (numa_phys_to_node (topo m) (i * PAGE_SIZE)) S) as (n & -> & Hn). rewrite ret_bind.
  destruct (free_step m fl n i S Hn T R Hc) as (s' & fl' & -> & S' & K & R' & Htk). rewrite ret_bind. exists (set_pm s' m), fl'. repeat (split; [done|]).
  intros q Hq (j & -> & Tj & Rj). exists j. split; [done|]. split; [apply Htk; [done|]; intros ->; done|]. rewrite R'; [done|]. apply Tj.
Qed.

Lemma drain_ok ps : forall m fl, safe m fl -> NoDup ps -> (forall p, p ∈ ps -> spare m p) -> returns (drain lowest highest hhdm ps m) m ps.
Proof.
  induction ps as [|p ps IH]; intros m fl S Hnd Hsp; cbn [drain]; [by apply (returns_refl m fl)|]. apply NoDup_cons in Hnd as [Hp Hnd].
  destruct (free_node_ok m fl p S (Hsp p ltac:(by left))) as (m1 & fl1 & -> & S1 & K1 & R1 & E1 & E2 & H1). rewrite ret_bind.
  assert (Hk : forall q, q <> p -> spare m q -> spare m1 q) by (intros q Hq [Hq1 Hq2]; split; [by apply H1|]; unfold cached; by rewrite E1, E2).
  destruct (IH m1 fl1 S1 Hnd) as (m' & fl' & -> & S' & K' & R' & H').
  { intros q Hq. apply Hk; [by intros ->|]. apply Hsp. by right. }
  exists m', fl'. split; [done|]. split; [done|]. split; [by eapply keeps_trans|]. split; [by eapply same_refs_trans|]. intros q Hq Hs. rewrite elem_of_cons in Hq. apply H'; [tauto|]. apply Hk; tauto.
Qed.

Lemma drain_cache_ok m fl c : safe m fl -> 0 <= c < 64 -> returns (drain_cache lowest highest hhdm c m) m [].
Proof.
  intros S Hc. unfold drain_cache. destruct (stacks_get _ c (s_pcp _ _ S) Hc) as (l & -> & E & Hlen). rewrite ret_bind.
  destruct (pcp_set m fl c l [] S Hc E) as (cs & -> & _ & S1 & K1 & R1 & Ep & H1); [cbn; lia|constructor|by intros ? ?%elem_of_nil|]. rewrite ret_bind.
  destruct (drain_ok l (set_pcp cs m) fl S1) as (m' & fl' & -> & S' & K' & R' & H').
  - by apply (stack_nodup m fl (Z.to_nat c) l S (or_introl E)).
  - intros p Hp. apply H1; [apply not_elem_of_nil|]. left. split; [done|]. by apply (stack_parked m fl (Z.to_nat c) l p S (or_introl E)).
  - exists m', fl'. split; [done|]. split; [done|]. split; [by eapply keeps_trans|]. split; [by eapply same_refs_trans|]. intros q _ Hq. apply H'; [|apply H1; [apply not_elem_of_nil|by right]].
    intros Hin. destruct Hq as [_ Hq]. apply Hq, cached_split. left. eauto.
Qed.

Lemma pcp_free_ok m fl cpu p : safe m fl -> valid_cpu cpu -> spare m p -> exists b m' fl', pmm_pcp_free_page lowest highest hhdm cpu p m = Ret (b, m') /\ safe m' fl' /\ keeps m m' /\ same_refs m m' /\
  (b = false -> m' = m) /\ (forall q, q <> p -> spare m q -> spare m' q).
Proof.
  intros S Hcpu Hsp. assert (Hno : exists b m' fl', Ret (false, m) = Ret (b, m') /\ safe m' fl' /\ keeps m m' /\ same_refs m m' /\ (b = false -> m' = m) /\ (forall q, q <> p -> spare m q -> spare m' q)).
  { exists false, m, fl. split; [done|]. split; [done|]. split; [apply keeps_refl|]. done. }
  unfold pmm_pcp_free_page. destruct (_ || _); [done|]. destruct (cache_of cpu) as [c|] eqn:Ec; [|done]. pose proof (cache_of_ok cpu c Ec Hcpu) as Hc. clear Hno.
  destruct (stacks_get _ c (s_pcp _ _ S) Hc) as (l & -> & E & Hlen). rewrite ret_bind. pose proof (stack_nodup m fl (Z.to_nat c) l S (or_introl E)) as Hnd.
  assert (Hpl : p ∉ l) by (intros Hin; destruct Hsp as [_ Hq]; apply Hq, cached_split; left; eauto). unfold PCP_CAPACITY. destruct (Z.of_nat (length l) <? 128) eqn:Hl; reify_bools.
  - destruct (pcp_set m fl c l (l ++ [p]) S Hc E) as (cs & -> & _ & S1 & K1 & R1 & Ep & H1).
    + rewrite length_app. cbn. lia.
    + apply NoDup_app. split; [done|]. split; [|apply NoDup_singleton]. by intros q Hq ->%list_elem_of_singleton.
    + intros q [Hq| ->%list_elem_of_singleton]%elem_of_app; [by left|by right].
    + rewrite ret_bind. exists true, (set_pcp cs m), fl. repeat (split; [done|]). intros q Hq Hs. apply H1; [|by right]. rewrite elem_of_app, list_elem_of_singleton. intros [Hin|]; [|done].
      destruct Hs as [_ Hs]. apply Hs, cached_split. left. eauto.
  - set (keep := (length l - PCP_BATCH)%nat). pose proof (take_drop keep l) as Hsplit. rewrite <- Hsplit in Hnd. apply NoDup_app in Hnd as (N1 & N2 & N3).
    destruct (pcp_set m fl c l (take keep l ++ [p]) S Hc E) as (cs & -> & _ & S1 & K1 & R1 & Ep & H1).
    + rewrite length_app, length_take. cbn. unfold PCP_BATCH in *. lia.
    + apply NoDup_app. split; [done|]. split; [|apply NoDup_singleton]. intros q Hq ->%list_elem_of_singleton. apply Hpl. rewrite <- Hsplit. apply elem_of_app. by left.
    + intros q [Hq| ->%list_elem_of_singleton]%elem_of_app; [left|by right]. rewrite <- Hsplit. apply elem_of_app. by left.
    + rewrite ret_bind. assert (Hd : forall q, q ∈ drop keep l -> q ∈ l) by (intros q Hq; rewrite <- Hsplit; apply elem_of_app; by right).
      destruct (drain_ok (rev (drop keep l)) (set_pcp cs m) fl S1) as (m' & fl' & -> & S' & K' & R' & H').
      * by apply NoDup_ListNoDup, NoDup_rev, NoDup_ListNoDup.
      * intros q Hq%list_elem_of_In%in_rev%list_elem_of_In. apply H1; [rewrite elem_of_app, list_elem_of_singleton; intros [Hin| ->]; [by apply (N2 q Hin)|by apply Hpl, Hd]|].
        left. split; [by apply Hd|]. apply (stack_parked m fl (Z.to_nat c) l q S (or_introl E)). by apply Hd.
      * rewrite ret_bind. exists true, m', fl'. split; [done|]. split; [done|]. split; [by eapply keeps_trans|]. split; [by eapply same_refs_trans|]. split; [done|].
        intros q Hq Hs. assert (Hql : q ∉ l) by (intros Hin; destruct Hs as [_ Hs]; apply Hs, cached_split; left; eauto).
        apply H'; [intros Hin%list_elem_of_In%in_rev%list_elem_of_In; by apply Hql, Hd|]. apply H1; [|by right]. rewrite elem_of_app, list_elem_of_singleton. intros [Hin|]; [|done].
        apply Hql. rewrite <- Hsplit. apply elem_of_app. by left.
Qed.

(** ** The zero pool *)

(** Writing to a page in use. *)
Lemma write_step m fl i h : safe m fl -> taken m i -> (forall n z, zones (pm m) !! n = Some z -> magic h <> zmagic z) ->
  safe (set_pm (set_mem (<[page_at i := h]> (mem (pm m))) (pm m)) m) fl.
Proof. intros S (Hi & Hm & Hu) Hh. pose proof (inv_write (pm m) fl i h (s_inv _ _ S) Hi Hm Hu Hh) as V. destruct S as [S1 S2 S3 S4 S5 S6 S7 S8 S9 S10]. by constructor. Qed.
Lemma zero_step m fl i : safe m fl -> taken m i -> exists h, mem (pm m) !! page_at i = Some h /\ safe (set_pm (set_mem (<[page_at i := zero_hdr]> (mem (pm m))) (pm m)) m) fl.
Proof.
  intros S T. pose proof (v_core _ _ _ _ _ (s_inv _ _ S)) as C. destruct (c_mem _ _ _ _ _ C i (proj1 T) (proj1 (proj2 T))) as [h Eh]. exists h. split; [done|]. apply write_step; [done|done|].
  intros n z Ez E. destruct (c_zone _ _ _ _ _ C n z Ez) as (_ & _ & Hz & _). cbn in E. congruence.
Qed.
Lemma verify_ok m fl i : safe m fl -> taken m i -> exists m', zero_pool_verify hhdm (i * PAGE_SIZE) m = Ret m' /\ safe m' fl /\ keeps m m' /\ same_refs m m'.
Proof.
  intros S T. unfold zero_pool_verify. assert (S1 : safe (tick m) fl) by (by apply (safe_ext m)). destruct (nz _).
  - exists (tick m). split; [done|]. split; [done|]. split; [by apply keeps_ext|done].
  - fold (page_at i). destruct (zero_step (tick m) fl i S1 T) as (h & Eh & S2). rewrite Eh. cbn [deref]. rewrite ret_bind. destruct (is_zero_hdr h).
    + exists (tick m). split; [done|]. split; [done|]. split; [by apply keeps_ext|done].
    + eexists. split; [done|]. split; [done|]. split; [by constructor|done].
Qed.

Lemma zeroed_ok m fl cpu : safe m fl -> valid_cpu cpu -> gives (pmm_alloc_zeroed_page lowest hhdm cpu m) m 0 (fun _ => True).
Proof.
  intros S Hcpu. unfold pmm_alloc_zeroed_page. destruct (cache_of cpu) as [c|] eqn:Ec; [|by apply (gives_none m fl)]. pose proof (cache_of_ok cpu c Ec Hcpu) as Hc.
  destruct (stacks_get _ c (s_zpool _ _ S) Hc) as (l & -> & E & Hlen). rewrite ret_bind. destruct (0 <? length l)%nat eqn:Hl; [|by apply (gives_none m fl)]. apply Nat.ltb_lt in Hl.
  apply snoc_last in Hl as (l' & p & ->). rewrite last_snoc. cbn [deref]. rewrite ret_bind, take_snoc. rewrite length_app in Hlen. cbn in Hlen.
  pose proof (stack_nodup m fl _ _ S (or_intror E)) as Hnd. apply NoDup_app in Hnd as (N1 & N2 & _). assert (Hp : p ∈ l' ++ [p]) by (apply elem_of_app; right; by left).
  destruct (zpool_set m fl c _ l' S Hc E) as (zs & -> & S1 & K1 & R1 & Ep & H1); [lia|done|intros q Hq; left; apply elem_of_app; by left|]. rewrite ret_bind. apply (gives_via m (set_zpool zs m)); [done|done|].
  assert (Hsp : spare (set_zpool zs m) p).
  { apply H1; [intros Hin; apply (N2 p Hin); by left|]. left. split; [done|]. by apply (stack_parked m fl (Z.to_nat c) (l' ++ [p])); [|right|]. }
  destruct (hand_page_ok _ fl p S1 Hsp) as (q & m2 & fl2 & E2 & S2 & K2 & Hq). assert (p = q) as <-.
  { unfold hand_page in E2. destruct (put_refcount _ _ _ _); [|done..]. rewrite ret_bind in E2. congruence. }
  rewrite E2, ret_bind. cbn beta iota. destruct Hsp as [(i & -> & Ti & Ri) _]. destruct Hq as [[Hq _]|(b & Hb & G & _)].
  { pose proof (v_zero _ _ _ _ _ (s_inv _ _ S1) i (proj1 Ti) (proj1 (proj2 Ti))). unfold PAGE_SIZE in *. lia. }
  assert (b = i) as -> by (unfold PAGE_SIZE in *; lia). destruct (g_new _ _ _ _ G i) as (Hm & _ & R2); [apply within_first; lia|].
  assert (T2 : taken m2 i) by (apply (taken_ref m2 fl2 i 1 S2 (proj1 Ti)); [unfold PmmBuddy.mbit in *; by rewrite (k_managed _ _ K2)|done|done]).
  destruct (verify_ok m2 fl2 i S2 T2) as (m3 & -> & S3 & K3 & R3). rewrite ret_bind. exists (i * PAGE_SIZE), m3, fl2. split; [done|]. split; [done|]. split; [by eapply keeps_trans|].
  right. exists i. split; [done|]. split; [|done]. destruct G as [G1 G2 G3]. constructor; [done| |].
  - intros j Hj. destruct (G2 j Hj) as (? & ? & ?). assert (in_range j) by (unfold within, PmmBuddy.in_range in *; lia). rewrite R3 by done. done.
  - intros j Hj Hn. by rewrite R3, G3.
Qed.

(** Pages held by the refill: one reference each, none before. *)
Definition held (m m' : machine) (ps : list Z) : Prop := NoDup ps /\ (forall p, p ∈ ps -> exists i, p = i * PAGE_SIZE /\ in_range i /\ mbit (pm m') i = true /\ ref m i = Some 0 /\ ref m' i = Some 1) /\
  (forall j, in_range j -> j * PAGE_SIZE ∉ ps -> ref m' j = ref m j).

Lemma take_pages_ok cpu k : forall m fl, safe m fl -> valid_cpu cpu -> exists ps m' fl', take_pages lowest highest hhdm k cpu m = Ret (ps, m') /\ safe m' fl' /\ keeps m m' /\ held m m' ps /\ (length ps <= k)%nat.
Proof.
  induction k as [|k IH]; intros m fl S Hcpu; cbn [take_pages].
  { exists [], m, fl. split; [done|]. split; [done|]. split; [apply keeps_refl|]. split; [|done]. split; [constructor|]. split; [by intros p ?%elem_of_nil|done]. }
  destruct (pcp_alloc_ok m fl cpu S Hcpu) as (p & m1 & fl1 & -> & S1 & K1 & Hp). rewrite ret_bind. cbn beta iota. destruct Hp as [[-> R1]|(b & -> & G & _)].
  { exists [], m1, fl1. split; [done|]. split; [done|]. split; [done|]. split; [|cbn; lia]. split; [constructor|]. split; [by intros q ?%elem_of_nil|]. intros j Hj _. by apply R1. }
  destruct G as [(Hb & _ & Hlo & Hhi) G2 G3]. change (2 ^ 0) with 1 in Hhi. rewrite (proj2 (Z.eqb_neq _ 0)) by (unfold PAGE_SIZE; lia).
  assert (Hw : forall j, within b 0 j <-> j = b) by (intros j; unfold within; change (2 ^ 0) with 1; lia). assert (Hbr : in_range b) by (unfold PmmBuddy.in_range; lia).
  destruct (G2 b (proj2 (Hw b) eq_refl)) as (Hm & Hr0 & Hr1). destruct (IH m1 fl1 S1 Hcpu) as (ps & m' & fl' & -> & S' & K' & (N & H1 & H2) & Hlen). rewrite ret_bind. cbn beta iota.
  assert (Hbp : b * PAGE_SIZE ∉ ps) by (intros Hin; destruct (H1 _ Hin) as (i & Ei & _ & _ & Hi0 & _); assert (i = b) as -> by (unfold PAGE_SIZE in *; lia); congruence).
  exists (b * PAGE_SIZE :: ps), m', fl'. split; [done|]. split; [done|]. split; [by eapply keeps_trans|]. split; [|cbn; lia]. split; [by apply NoDup_cons|]. split.
  - intros p [->|Hp]%elem_of_cons.
    + exists b. split; [done|]. split; [done|]. split; [unfold PmmBuddy.mbit in *; rewrite (k_managed _ _ K'), (k_managed _ _ K1); done|]. split; [done|]. by rewrite H2.
    + destruct (H1 p Hp) as (i & -> & Hi & Hmi & Hi0 & Hi1). exists i. split; [done|]. split; [done|]. split; [done|]. split; [|done]. rewrite <- G3; [done|done|]. rewrite Hw. intros ->. done.
  - intros j Hj Hn. rewrite elem_of_cons in Hn. rewrite H2 by tauto. apply G3; [done|]. rewrite Hw. intros ->. tauto.
Qed.

Lemma held_taken m m' fl ps p : safe m' fl -> held m m' ps -> p ∈ ps -> exists i, p = i * PAGE_SIZE /\ taken m' i /\ ref m i = Some 0 /\ ref m' i = Some 1.
Proof. intros S (_ & H & _) Hp. destruct (H p Hp) as (i & -> & Hi & Hm & H0 & H1). exists i. split; [done|]. split; [by apply (taken_ref m' fl i 1)|done]. Qed.

Lemma zero_batch_ok ps : forall m fl, safe m fl -> (forall p, p ∈ ps -> exists i, p = i * PAGE_SIZE /\ taken m i) ->
  exists m', page_zero_batch hhdm ps m = Ret m' /\ safe m' fl /\ keeps m m' /\ same_refs m m' /\ (forall i, taken m i -> taken m' i).
Proof.
  induction ps as [|p ps IH]; intros m fl S H; cbn [page_zero_batch]; [exists m; split; [done|]; split; [done|]; split; [apply keeps_refl|done]|].
  destruct (H p ltac:(by left)) as (i & -> & T). fold (page_at i). destruct (zero_step m fl i S T) as (h & -> & S1). cbn [deref]. rewrite ret_bind.
  destruct (IH _ fl S1) as (m' & -> & S' & K' & R' & T'); [intros q Hq; apply H; by right|]. exists m'. split; [done|]. split; [done|]. split; [by eapply keeps_trans; [|exact K']; constructor|]. split; [done|].
  intros j Hj. by apply T'.
Qed.

Lemma drop_refs_ok ps : forall m fl, safe m fl -> NoDup ps -> (forall p, p ∈ ps -> exists i, p = i * PAGE_SIZE /\ taken m i /\ ref m i = Some 1) ->
  exists m', drop_refs lowest ps m = Ret m' /\ safe m' fl /\ keeps m m' /\ (forall p, p ∈ ps \/ spare m p -> spare m' p) /\ (forall j, in_range j -> j * PAGE_SIZE ∉ ps -> ref m' j = ref m j).
Proof.
  induction ps as [|p ps IH]; intros m fl S Hnd H; cbn [drop_refs].
  { exists m. split; [done|]. split; [done|]. split; [apply keeps_refl|]. split; [|done]. intros p [?%elem_of_nil|?]; done. }
  apply NoDup_cons in Hnd as [Hp Hnd]. destruct (H p ltac:(by left)) as (i & -> & T & Ri). rewrite phys_pfn.
  pose proof (not_zero_page m fl i 1 S (proj1 T) (proj1 (proj2 T)) Ri ltac:(done)) as Hz.
  destruct (put_ref_step m fl i 0 S T) as (m1 & -> & S1 & K1 & R1 & R2 & E1 & E2 & E3); [unfold UINT16_MAX; lia|by left|done|]. rewrite ret_bind.
  assert (Htk : forall j, taken m j -> taken m1 j) by (intros j (? & Hm & Hu); split; [done|]; unfold PmmBuddy.mbit, PmmBuddy.ubit; by rewrite E3, (k_managed _ _ K1)).
  assert (Hc : cached m1 = cached m) by (unfold cached; by rewrite E1, E2).
  destruct (IH m1 fl S1 Hnd) as (m' & -> & S' & K' & H1 & H2).
  { intros q Hq. destruct (H q ltac:(by right)) as (j & -> & Tj & Rj). exists j. split; [done|]. split; [by apply Htk|]. rewrite R2; [done|apply Tj|]. by intros ->. }
  exists m'. split; [done|]. split; [done|]. split; [by eapply keeps_trans|]. split.
  - intros q [[->|Hq]%elem_of_cons|[(j & -> & Tj & Rj) Hq]]; apply H1; [right|by left|right].
    + split; [exists i; split; [done|]; split; [by apply Htk|done]|]. rewrite Hc. intros Hin. apply (parked_ref m i (proj2 (s_cached _ _ S))) in Hin. congruence.
    + split; [|by rewrite Hc]. exists j. split; [done|]. split; [by apply Htk|]. rewrite R2; [done|apply Tj|]. intros ->. congruence.
  - intros j Hj Hn. rewrite elem_of_cons in Hn. rewrite H2 by tauto. apply R2; [done|]. intros ->. tauto.
Qed.

Lemma give_back_ok cpu ps : forall m fl, safe m fl -> valid_cpu cpu -> NoDup ps -> (forall p, p ∈ ps -> spare m p) -> returns (give_back lowest highest hhdm ps cpu m) m ps.
Proof.
  induction ps as [|p ps IH]; intros m fl S Hcpu Hnd Hsp; cbn [give_back]; [by apply (returns_refl m fl)|]. apply NoDup_cons in Hnd as [Hp Hnd].
  destruct (pcp_free_ok m fl cpu p S Hcpu (Hsp p ltac:(by left))) as (b & m1 & fl1 & -> & S1 & K1 & R1 & _ & H1). rewrite ret_bind. cbn beta iota.
  destruct (IH m1 fl1 S1 Hcpu Hnd) as (m' & fl' & -> & S' & K' & R' & H').
  { intros q Hq. apply H1; [by intros ->|]. apply Hsp. by right. }
  exists m', fl'. split; [done|]. split; [done|]. split; [by eapply keeps_trans|]. split; [by eapply same_refs_trans|]. intros q Hq Hs. rewrite elem_of_cons in Hq. apply H'; [tauto|]. apply H1; tauto.
Qed.

(** A call that keeps every reference count. *)
Definition quietly (r : outcome machine) (m : machine) : Prop := exists m' fl', r = Ret m' /\ safe m' fl' /\ keeps m m' /\ same_refs m m'.
Lemma quietly_refl m fl : safe m fl -> quietly (Ret m) m.
Proof. intros S. exists m, fl. split; [done|]. split; [done|]. split; [apply keeps_refl|done]. Qed.
Lemma quietly_via m m1 r : keeps m m1 -> same_refs m m1 -> quietly r m1 -> quietly r m.
Proof. intros K R (m' & fl' & -> & S & K' & R'). exists m', fl'. split; [done|]. split; [done|]. split; [by eapply keeps_trans|by eapply same_refs_trans]. Qed.
Lemma returns_bind r m ps k : returns r m ps -> (forall m1 fl1, safe m1 fl1 -> quietly (k m1) m1) -> quietly (m ← r; k m) m.
Proof. intros (m1 & fl1 & -> & S1 & K1 & R1 & _) Hk. rewrite ret_bind. by apply (quietly_via m m1), (Hk m1 fl1). Qed.

(** The pages of a batch are zeroed and lose their reference again. *)
Lemma batch_ok m m1 fl ps : safe m1 fl -> keeps m m1 -> held m m1 ps -> exists m2 m3, page_zero_batch hhdm ps m1 = Ret m2 /\ drop_refs lowest ps m2 = Ret m3 /\ safe m3 fl /\ keeps m m3 /\ same_refs m m3 /\
  (forall p, p ∈ ps -> spare m3 p).
Proof.
  intros S1 K1 H. assert (Ht : forall p, p ∈ ps -> exists i, p = i * PAGE_SIZE /\ taken m1 i /\ ref m i = Some 0 /\ ref m1 i = Some 1) by (intros p Hp; by apply (held_taken m m1 fl ps)).
  destruct (zero_batch_ok ps m1 fl S1) as (m2 & -> & S2 & K2 & R2 & T2); [intros p Hp; destruct (Ht p Hp) as (i & ? & ? & _); eauto|].
  destruct (drop_refs_ok ps m2 fl S2 (proj1 H)) as (m3 & E3 & S3 & K3 & Hsp & R3).
  { intros p Hp. destruct (Ht p Hp) as (i & -> & T & _ & Hr). exists i. split; [done|]. split; [by apply T2|]. rewrite R2; [done|]. apply T. }
  exists m2, m3. split; [done|]. split; [done|]. split; [done|]. split; [by eapply keeps_trans; [exact K1|]; eapply keeps_trans; [exact K2|]|]. split; [|auto].
  intros j Hj. destruct (decide (j * PAGE_SIZE ∈ ps)) as [Hin|Hin].
  - destruct (Ht _ Hin) as (i & Ei & _ & Hi0 & _). assert (i = j) as -> by (unfold PAGE_SIZE in *; lia). rewrite Hi0. assert (spare m3 (j * PAGE_SIZE)) as [(i & Ei' & _ & Hr) _] by auto.
    by assert (i = j) as -> by (unfold PAGE_SIZE in *; lia).
  - rewrite R3, R2 by done. by apply (proj2 (proj2 H)).
Qed.

Lemma refill_loop_ok cpu c fuel : forall m fl max, safe m fl -> valid_cpu cpu -> 0 <= c < 64 -> 0 <= max < Z.of_nat fuel -> quietly (zero_pool_refill_loop lowest highest hhdm fuel cpu c max m) m.
Proof.
  induction fuel as [|fuel IH]; intros m fl max S Hcpu Hc Hf; [lia|]. cbn [zero_pool_refill_loop]. destruct (max >? 0) eqn:?; reify_bools; [|by apply (quietly_refl m fl)].
  set (batch := if max >? 32 then 32 else max). assert (Hb : 0 < batch <= max) by (subst batch; destruct (max >? 32) eqn:?; reify_bools; lia).
  destruct (take_pages_ok cpu (Z.to_nat batch) m fl S Hcpu) as (ps & m1 & fl1 & -> & S1 & K1 & Hh & Hlen). rewrite ret_bind. cbn beta iota. destruct (length ps =? 0)%nat eqn:El.
  { apply Nat.eqb_eq in El. destruct ps; [|done]. exists m1, fl1. split; [done|]. split; [done|]. split; [done|]. intros j Hj. apply (proj2 (proj2 Hh)); [done|]. apply not_elem_of_nil. }
  apply Nat.eqb_neq in El. destruct (batch_ok m m1 fl1 ps S1 K1 Hh) as (m2 & m3 & -> & E3 & S3 & K3 & R3 & Hsp). rewrite ret_bind, E3, ret_bind. pose proof (proj1 Hh) as Hnd.
  destruct (stacks_get _ c (s_zpool _ _ S3) Hc) as (pool & -> & E & Hpl). rewrite ret_bind. unfold ZERO_POOL_CAP. set (space := if Z.of_nat (length pool) <? 128 then 128 - Z.of_nat (length pool) else 0).
  assert (Hs : 0 <= space /\ Z.of_nat (length pool) + space <= 128) by (subst space; destruct (_ <? _) eqn:?; reify_bools; lia). set (add := Z.to_nat (Z.min (Z.of_nat (length ps)) space)).
  assert (Hdis : forall p, p ∈ pool -> p ∉ ps) by (intros p Hp Hq; destruct (Hsp p Hq) as [_ Hn]; apply Hn, cached_split; right; eauto).
  pose proof (take_drop add ps) as Esplit. rewrite <- Esplit in Hnd. apply NoDup_app in Hnd as (N1 & N2 & N3).
  assert (Hsub : forall p, p ∈ take add ps \/ p ∈ drop add ps -> p ∈ ps) by (intros p Hp; rewrite <- Esplit; apply elem_of_app; tauto).
  destruct (zpool_set m3 fl1 c pool (pool ++ take add ps) S3 Hc E) as (zs & -> & S4 & K4 & R4 & Ep & H4).
  - rewrite length_app, length_take. lia.
  - apply NoDup_app. split; [by apply (stack_nodup m3 fl1 (Z.to_nat c) pool S3 (or_intror E))|]. split; [|done]. intros p Hp Hq. apply (Hdis p Hp). auto.
  - intros p [Hp|Hp]%elem_of_app; [by left|right]. auto.
  - rewrite ret_bind. destruct (give_back_ok cpu (drop add ps) (set_zpool zs m3) fl1 S4 Hcpu N3) as (m5 & fl5 & -> & S5 & K5 & R5 & _).
    { intros p Hp. apply H4; [|right; auto]. rewrite elem_of_app. intros [Hq|Hq]; [apply (Hdis p Hq); auto|by apply (N2 p Hq)]. }
    rewrite ret_bind. apply (quietly_via m m5); [by eapply keeps_trans; [exact K3|]; eapply keeps_trans; [exact K4|]|by eapply same_refs_trans; [exact R3|]; eapply same_refs_trans; [exact R4|]|].
    destruct (add <? length ps)%nat; [by apply (quietly_refl m5 fl5)|]. apply (IH m5 fl5); [done|done|done|lia].
Qed.

Lemma zero_refill_ok m fl cpu max : safe m fl -> valid_cpu cpu -> 0 <= max -> quietly (pmm_zero_pool_refill lowest highest hhdm cpu max m) m.
Proof.
  intros S Hcpu Hm. unfold pmm_zero_pool_refill. destruct (cache_of cpu) as [c|] eqn:Ec; [|by apply (quietly_refl m fl)]. apply (refill_loop_ok cpu c _ m fl); [done|done|by apply (cache_of_ok cpu)|lia].
Qed.

Lemma zero_drain_ok cpu k : forall m fl, safe m fl -> valid_cpu cpu -> (k <= 64)%nat -> quietly (zero_drain_from lowest highest hhdm k cpu m) m.
Proof.
  induction k as [|k IH]; intros m fl S Hcpu Hk; [by apply (quietly_refl m fl)|]. cbn [zero_drain_from]. set (c := 64 - Z.of_nat (Datatypes.S k)). assert (Hc : 0 <= c < 64) by lia.
  destruct (stacks_get _ c (s_zpool _ _ S) Hc) as (pool & -> & E & Hpl). rewrite ret_bind. unfold ZERO_POOL_CAP. rewrite (proj2 (Z.leb_le _ _) Hpl).
  destruct (zpool_set m fl c pool [] S Hc E) as (zs & -> & S1 & K1 & R1 & Ep & H1); [cbn; lia|constructor|by intros ? ?%elem_of_nil|]. rewrite ret_bind. apply (quietly_via m (set_zpool zs m)); [done|done|].
  eapply returns_bind; [apply (give_back_ok cpu pool _ fl S1 Hcpu)|].
  - by apply (stack_nodup m fl (Z.to_nat c) pool S (or_intror E)).
  - intros p Hp. apply H1; [apply not_elem_of_nil|]. left. split; [done|]. by apply (stack_parked m fl (Z.to_nat c) pool p S (or_intror E)).
  - intros m1 fl1 S2. apply (IH m1 fl1); [done|done|lia].
Qed.
Lemma pcp_drain_ok k : forall m fl, safe m fl -> (k <= 64)%nat -> quietly (pcp_drain_from lowest highest hhdm k m) m.
Proof.
  induction k as [|k IH]; intros m fl S Hk; [by apply (quietly_refl m fl)|]. cbn [pcp_drain_from]. eapply returns_bind; [apply (drain_cache_ok m fl); [done|lia]|]. intros m1 fl1 S1. apply (IH m1 fl1); [done|lia].
Qed.
Lemma drain_all_ok m fl cpu : safe m fl -> valid_cpu cpu -> quietly (pmm_pcp_drain_all lowest highest hhdm cpu m) m.
Proof.
  intros S Hcpu. unfold pmm_pcp_drain_all. destruct (negb _); [by apply (quietly_refl m fl)|]. destruct (zero_drain_ok cpu 64 m fl S Hcpu) as (m1 & fl1 & E & S1 & K1 & R1); [lia|].
  unfold pmm_zero_pool_drain_all. rewrite E, ret_bind. apply (quietly_via m m1); [done|done|]. by apply (pcp_drain_ok 64 m1 fl1).
Qed.
Lemma drain_local_ok m fl cpu : safe m fl -> valid_cpu cpu -> quietly (pmm_pcp_drain_local lowest highest hhdm cpu m) m.
Proof.
  intros S Hcpu. unfold pmm_pcp_drain_local. destruct (negb _); [by apply (quietly_refl m fl)|]. destruct (cache_of cpu) as [c|] eqn:Ec; [|by apply (quietly_refl m fl)].
  destruct (drain_cache_ok m fl c S (cache_of_ok cpu c Ec Hcpu)) as (m' & fl' & -> & S' & K' & R' & _). by exists m', fl'.
Qed.

(** ** Pages *)

Lemma alloc_page_ok m fl cpu : safe m fl -> valid_cpu cpu -> gives (pmm_alloc_page lowest highest hhdm cpu m) m 0 (fun _ => True).
Proof.
  intros S Hcpu. unfold pmm_alloc_page. destruct (pcp_alloc_ok m fl cpu S Hcpu) as (p & m1 & fl1 & -> & S1 & K1 & Hp). rewrite ret_bind. cbn beta iota. unfold nz. destruct Hp as [[-> R1]|(b & -> & G & HP)].
  - cbn [Z.eqb negb]. apply (gives_via m m1); [done|done|]. exact (alloc_pages_ok m1 fl1 cpu 1 S1 Hcpu).
  - destruct (g_range _ _ _ _ G) as [Hb _]. rewrite (proj2 (Z.eqb_neq _ 0)) by (unfold PAGE_SIZE; lia). cbn [negb]. exists (b * PAGE_SIZE), m1, fl1. repeat (split; [done|]). right. by exists b.
Qed.

Lemma page_refs_ok m fl ptr : safe m fl -> exists b, page_refs lowest highest ptr m = Ret b /\
  (b = true -> ptr = ptr / PAGE_SIZE * PAGE_SIZE /\ in_range (ptr / PAGE_SIZE) /\ mbit (pm m) (ptr / PAGE_SIZE) = true /\ ptr <> zero_page_phys m).
Proof.
  intros S. unfold page_refs. destruct (ptr =? 0) eqn:?, (ptr =? zero_page_phys m) eqn:?; reify_bools; cbn [orb]; try (by exists false).
  destruct (c_mg _ _ _ _ _ (v_core _ _ _ _ _ (s_inv _ _ S))) as [Hb Hl]. unfold pmm_is_managed, page_count in *. set (i := ptr / PAGE_SIZE).
  destruct (i <? lowest) eqn:?, (i >=? highest) eqn:?; reify_bools; cbn [orb]; rewrite ?ret_bind; try (by exists false).
  rewrite pmm_bitmap_test_ok by (done || lia). rewrite ret_bind. eexists. split; [done|]. intros [H1 H2]%andb_true_iff. reify_bools. split; [|split; [unfold PmmBuddy.in_range; lia|done]].
  change (PAGE_SIZE - 1) with (2 ^ 12 - 1) in H2. rewrite land_ones_small in H2 by lia. change (2 ^ 12) with PAGE_SIZE in H2. subst i. pose proof (Z.div_mod ptr PAGE_SIZE ltac:(done)). unfold PAGE_SIZE in *. lia.
Qed.

(** The count of page [i] becomes [f] of what it was. *)
Definition counts (r : outcome machine) (m : machine) (i : Z) (f : Z -> Z) : Prop := exists m' fl', r = Ret m' /\ safe m' fl' /\ keeps m m' /\
  (forall j, in_range j -> ref m' j = (if decide (j = i) then f <$> ref m j else ref m j)).
Lemma quietly_counts r m i : quietly r m -> counts r m i id.
Proof. intros (m' & fl' & E & S & K & R). exists m', fl'. repeat (split; [done|]). intros j Hj. rewrite R by done. destruct (decide _); [by destruct (ref m j)|done]. Qed.

(** Freeing a page whose count has become 0. *)
Lemma release_ok m fl cpu i : safe m fl -> valid_cpu cpu -> spare m (i * PAGE_SIZE) ->
  quietly ('(parked, m) ← pmm_pcp_free_page lowest highest hhdm cpu (i * PAGE_SIZE) m; if (parked : bool) then Ret m else free_to_node lowest highest hhdm (i * PAGE_SIZE) 0 m) m.
Proof.
  intros S Hcpu Hsp. destruct (pcp_free_ok m fl cpu _ S Hcpu Hsp) as (b & m1 & fl1 & -> & S1 & K1 & R1 & Hb & _). rewrite ret_bind. cbn beta iota. destruct b; [by exists m1, fl1|].
  rewrite (Hb eq_refl) in *. destruct (free_node_ok m fl _ S Hsp) as (m2 & fl2 & -> & S2 & K2 & R2 & _). by exists m2, fl2.
Qed.

Lemma decref_ok m fl cpu ptr : safe m fl -> valid_cpu cpu -> exists b, page_refs lowest highest ptr m = Ret b /\
  counts (pmm_decref lowest highest hhdm cpu ptr m) m (ptr / PAGE_SIZE) (if b then decr else id).
Proof.
  intros S Hcpu. destruct (page_refs_ok m fl ptr S) as (b & Eb & Hb). exists b. split; [done|]. unfold pmm_decref. rewrite Eb, ret_bind. destruct b; cbn [negb]; [|by apply quietly_counts, (quietly_refl m fl)].
  destruct (Hb eq_refl) as (Ep & Hi & Hm & Hz). set (i := ptr / PAGE_SIZE) in *. rewrite Ep in Hz. rewrite Ep.
  destruct (put_ok m fl i S Hi Hm) as (v & m1 & Hv & Hr & -> & S1 & K1 & R1 & R2 & H1). rewrite ret_bind. cbn beta iota.
  assert (Hcount : forall m', safe m' fl -> keeps m m' -> same_refs m1 m' -> counts (Ret m') m i decr).
  { intros m' S' K' R'. exists m', fl. repeat (split; [done|]). intros j Hj. rewrite R' by done. destruct (decide (j = i)) as [->|Hne]; [by rewrite R1, Hv|by apply R2]. }
  destruct (v =? 1) eqn:Ev; reify_bools; cbn [negb]; [|by apply Hcount]. destruct (H1 Ev) as [(_ & Hm1 & Hu1) Hc1].
  rewrite (bitmap_test_ok lowest highest hhdm (pm m1) fl) by (done || apply (v_core _ _ _ _ _ (s_inv _ _ S1))). rewrite ret_bind, Hu1. cbn [negb].
  destruct (release_ok m1 fl cpu i S1 Hcpu) as (m2 & fl2 & -> & S2 & K2 & R3).
  { split; [exists i; split; [done|]; split; [done|]; rewrite R1; subst v; done|done]. }
  exists m2, fl2. split; [done|]. split; [done|]. split; [by eapply keeps_trans|]. intros j Hj. rewrite R3 by done. destruct (decide (j = i)) as [->|Hne]; [by rewrite R1, Hv|by apply R2].
Qed.

(** Gaining a reference. *)
Definition incr (v : Z) : Z := if (v =? 0) || (v >=? UINT16_MAX - 1) then v else v + 1.
Lemma incref_ok m fl ptr : safe m fl -> exists b, page_refs lowest highest ptr m = Ret b /\ counts (pmm_incref lowest highest ptr m) m (ptr / PAGE_SIZE) (if b then incr else id).
Proof.
  intros S. destruct (page_refs_ok m fl ptr S) as (b & Eb & Hb). exists b. split; [done|]. unfold pmm_incref. rewrite Eb, ret_bind. destruct b; cbn [negb]; [|by apply quietly_counts, (quietly_refl m fl)].
  destruct (Hb eq_refl) as (Ep & Hi & Hm & Hz). set (i := ptr / PAGE_SIZE) in *. destruct (ref_is_Some m fl i S Hi) as [v Hv]. pose proof (s_refs _ _ S i v Hi Hv) as Hr.
  rewrite (get_ref_ok m i v) by done. rewrite ret_bind.
  assert (Hsame : forall m', safe m' fl -> keeps m m' -> same_refs m m' -> incr v = v -> counts (Ret m') m i incr).
  { intros m' S' K' R' Hn. exists m', fl. repeat (split; [done|]). intros j Hj. rewrite R' by done. destruct (decide (j = i)) as [->|Hne]; [rewrite Hv; cbn; by rewrite Hn|done]. }
  unfold UINT16_MAX, incr in *. change (2 ^ 16 - 1) with 65535 in *. destruct (v =? 65535) eqn:?; reify_bools; [apply Hsame; [done|apply keeps_refl|done|by subst v]|].
  destruct (v =? 0) eqn:E0; reify_bools; [apply Hsame; [by apply (safe_ext m)|by apply keeps_ext|done|by subst v]|]. cbn [orb]. destruct (v =? 65535 - 1) eqn:E1; reify_bools.
  { apply Hsame; [by apply (safe_ext m)|by apply keeps_ext|done|subst v; done]. }
  rewrite Ep in Hz. pose proof (taken_ref m fl i v S Hi Hm Hv ltac:(done)) as T. assert (Hp : i * PAGE_SIZE ∉ cached m) by (intros Hin; apply (parked_ref m i (proj2 (s_cached _ _ S))) in Hin; congruence).
  destruct (put_ref_step m fl i (v + 1) S T) as (m' & -> & S' & K & Hr' & Ho & _); [unfold UINT16_MAX; lia|by right|done|]. exists m', fl. repeat (split; [done|]).
  intros j Hj. destruct (decide (j = i)) as [->|Hne]; [|by apply Ho]. rewrite Hr', Hv. cbn. rewrite (proj2 (Z.eqb_neq v 0)) by done. cbn [orb]. unfold UINT16_MAX. destruct (v >=? 2 ^ 16 - 1 - 1) eqn:?; reify_bools; [lia|done].
Qed.

(** Freeing a block: every page of it loses a reference. *)
Lemma free_loop_ok n k : forall m fl i, safe m fl -> 0 <= n < 16 -> (forall j, i <= j < i + Z.of_nat k -> in_range j /\ mbit (pm m) j = true) -> 0 <= i -> (i + Z.of_nat k) * PAGE_SIZE < 2 ^ 64 ->
  exists m' fl', free_loop lowest highest hhdm k (Z.to_nat n) (i * PAGE_SIZE) m = Ret m' /\ safe m' fl' /\ keeps m m' /\
    (forall j, in_range j -> ref m' j = if decide (i <= j < i + Z.of_nat k) then decr <$> ref m j else ref m j).
Proof.
  induction k as [|k IH]; intros m fl i S Hn Hp Hi0 Htop; cbn [free_loop].
  { exists m, fl. split; [done|]. split; [done|]. split; [apply keeps_refl|]. intros j _. by rewrite decide_False by lia. }
  destruct (Hp i ltac:(lia)) as [Hi Hm]. destruct (put_ok m fl i S Hi Hm) as (v & m1 & Hv & Hr & -> & S1 & K1 & R1 & R2 & H1). rewrite ret_bind. cbn beta iota.
  assert (Hstep : exists m2 fl2, (if negb (v =? 1) then Ret m1 else used ← pmm_bitmap_test (bitmap (pm m1)) (i * PAGE_SIZE / PAGE_SIZE - lowest);
      if negb used then Ret (free_skip m1) else s ← buddy_free_internal lowest highest hhdm (Z.to_nat n) (i * PAGE_SIZE) 0 (pm m1); Ret (set_pm s m1)) = Ret m2 /\
      safe m2 fl2 /\ keeps m m2 /\ same_refs m1 m2).
  { destruct (v =? 1) eqn:Ev; reify_bools; cbn [negb]; [|by exists m1, fl]. destruct (H1 Ev) as [T1 Hc1]. rewrite phys_pfn.
    rewrite (bitmap_test_ok lowest highest hhdm (pm m1) fl) by (done || apply (v_core _ _ _ _ _ (s_inv _ _ S1))). rewrite ret_bind, (proj2 (proj2 T1)). cbn [negb].
    destruct (free_step m1 fl n i S1 Hn T1) as (s' & fl' & -> & S2 & K2 & R3 & _); [rewrite R1; by subst v|done|]. rewrite ret_bind. exists (set_pm s' m1), fl'. split; [done|]. split; [done|]. split; [by eapply keeps_trans|done]. }
  destruct Hstep as (m2 & fl2 & -> & S2 & K2 & R3). rewrite ret_bind. replace (u64 (i * PAGE_SIZE + PAGE_SIZE)) with ((i + 1) * PAGE_SIZE) by (unfold PAGE_SIZE in *; rewrite u64_id; lia).
  destruct (IH m2 fl2 (i + 1) S2 Hn) as (m' & fl' & -> & S' & K' & R'); [|lia|lia|].
  { intros j Hj. destruct (Hp j ltac:(lia)) as [Hjr Hjm]. split; [done|]. unfold PmmBuddy.mbit in *. by rewrite (k_managed _ _ K2). }
  exists m', fl'. split; [done|]. split; [done|]. split; [by eapply keeps_trans|]. intros j Hj. rewrite R' by done. destruct (decide (j = i)) as [->|Hne].
  - rewrite decide_False, decide_True by lia. rewrite R3, R1, Hv by done. done.
  - destruct (decide (i + 1 <= j < i + 1 + Z.of_nat k)), (decide (i <= j < i + Z.of_nat (Datatypes.S k))); try lia; rewrite R3 by done; by rewrite R2.
Qed.

Lemma all_pages_ok (f : Z -> outcome bool) (g : Z -> bool) k : forall i, (forall j, i <= j < i + Z.of_nat k -> f (j * PAGE_SIZE) = Ret (g j)) -> 0 <= i -> (i + Z.of_nat k) * PAGE_SIZE < 2 ^ 64 ->
  exists b, all_pages k f (i * PAGE_SIZE) = Ret b /\ (b = true <-> forall j, i <= j < i + Z.of_nat k -> g j = true).
Proof.
  induction k as [|k IH]; intros i Hf Hi Htop; cbn [all_pages]; [exists true; split; [done|]; split; [lia|done]|]. rewrite Hf by lia. rewrite ret_bind. destruct (g i) eqn:Eg.
  - replace (u64 (i * PAGE_SIZE + PAGE_SIZE)) with ((i + 1) * PAGE_SIZE) by (unfold PAGE_SIZE in *; rewrite u64_id; lia). destruct (IH (i + 1)) as (b & -> & Hb); [intros j Hj; apply Hf; lia|lia|lia|].
    exists b. split; [done|]. rewrite Hb. split; intros H j Hj; [|apply H; lia]. destruct (decide (j = i)) as [->|]; [done|]. apply H. lia.
  - exists false. split; [done|]. split; [done|]. intros H. rewrite H in Eg by lia. done.
Qed.

(** The block that [pmm_free_pages] releases, if the arguments are acceptable. *)
Definition freeable (m : machine) (ptr count o b : Z) : Prop := o = pmm_get_order count /\ ptr = b * PAGE_SIZE /\ ptr <> 0 /\ 0 < count /\ ptr <> zero_page_phys m /\ o < 20 /\ (2 ^ o | b) /\
  (forall j, within b o j -> in_range j /\ mbit (pm m) j = true /\ numa_phys_to_node (topo m) (j * PAGE_SIZE) = numa_phys_to_node (topo m) ptr).

Lemma free_pages_ok m fl ptr count : safe m fl -> 0 <= ptr -> 0 <= count -> exists m' fl', pmm_free_pages lowest highest hhdm ptr count m = Ret m' /\ safe m' fl' /\ keeps m m' /\
  (same_refs m m' /\ ~ (exists o b, freeable m ptr count o b) \/
   exists o b, freeable m ptr count o b /\ forall j, in_range j -> ref m' j = if decide (within b o j) then decr <$> ref m j else ref m j).
Proof.
  intros S Hptr Hcount. assert (Hno : ~ (exists o b, freeable m ptr count o b) -> exists m' fl', Ret m = Ret m' /\ safe m' fl' /\ keeps m m' /\
    (same_refs m m' /\ ~ (exists o b, freeable m ptr count o b) \/ exists o b, freeable m ptr count o b /\ forall j, in_range j -> ref m' j = if decide (within b o j) then decr <$> ref m j else ref m j)).
  { intros H. exists m, fl. split; [done|]. split; [done|]. split; [apply keeps_refl|by left]. }
  unfold pmm_free_pages. destruct ((ptr =? 0) || (count =? 0) || (ptr =? zero_page_phys m)) eqn:E0.
  { apply Hno. intros (o & b & _ & _ & F1 & F2 & F3 & _). destruct (ptr =? 0) eqn:?, (count =? 0) eqn:?, (ptr =? zero_page_phys m) eqn:?; reify_bools; try done; lia. }
  apply orb_false_iff in E0 as [[E0 E1]%orb_false_iff E2]. reify_bools. destruct (get_order_ok count) as (Ho & _). set (o := pmm_get_order count) in *. unfold MAX_ORDER.
  destruct (o >=? 20) eqn:?; reify_bools; [apply Hno; intros (o' & b & -> & _ & _ & _ & _ & F & _); fold o in F; lia|]. rewrite Z.shiftl_1_l. pose proof (Z.pow_pos_nonneg 2 o ltac:(lia) ltac:(lia)) as Hp.
  assert (Hs : 2 ^ o * PAGE_SIZE = 2 ^ (o + 12)) by (rewrite Z.pow_add_r by lia; done). rewrite Hs, land_ones_small by lia. set (i := ptr / PAGE_SIZE).
  assert (Hfi : forall o' b, freeable m ptr count o' b -> o' = o /\ b = i) by (intros o' b (-> & Eb & _); split; [done|]; subst i; by rewrite Eb, phys_pfn).
  destruct (_ || nz _) eqn:E3.
  { apply Hno. intros (o' & b & F). destruct (Hfi o' b F) as [-> ->]. destruct F as (_ & Eb & _ & _ & _ & _ & [q Fd] & Fj).
    assert (Hm0 : ptr mod 2 ^ (o + 12) = 0) by (rewrite Eb, Fd, <- Z.mul_assoc, Hs; apply Z.mod_mul; lia). rewrite Hm0 in E3.
    destruct (Fj i (within_first i o ltac:(lia))) as [F1 _]. destruct (Fj (i + 2 ^ o - 1)) as [F2 _]; [unfold within; lia|]. unfold PmmBuddy.in_range in *.
    destruct (i <? lowest) eqn:?, (i >=? highest) eqn:?, (2 ^ o >? highest - i) eqn:?; reify_bools; cbn in E3; done || lia. }
  apply orb_false_iff in E3 as [[[E3 E4]%orb_false_iff E5]%orb_false_iff E6]. reify_bools. unfold nz in E6. apply negb_false_iff, Z.eqb_eq in E6.
  apply Z.mod_divide in E6 as [q Eq]; [|rewrite <- Hs; unfold PAGE_SIZE; lia]. rewrite <- Hs in Eq. assert (Ei : i = q * 2 ^ o) by (subst i; rewrite Eq, Z.mul_assoc, phys_pfn; done).
  assert (Eptr : ptr = i * PAGE_SIZE) by (rewrite Eq, Ei; lia). destruct Hcfg as [G1 G2 G3 _]. pose proof (v_core _ _ _ _ _ (s_inv _ _ S)) as C. rewrite Eptr.
  assert (Htop : (i + Z.of_nat (Z.to_nat (2 ^ o))) * PAGE_SIZE < 2 ^ 64) by (unfold KERNEL_BASE, PAGE_SIZE in *; lia).
  assert (Hr : forall j, i <= j < i + Z.of_nat (Z.to_nat (2 ^ o)) <-> within i o j) by (intros j; unfold within; lia).
  destruct (all_pages_ok (pmm_is_managed lowest highest (pm m)) (mbit (pm m)) (Z.to_nat (2 ^ o)) i) as (b1 & -> & Hb1); [|lia|done|].
  { intros j Hj. rewrite (is_managed_ok lowest highest hhdm (pm m) fl) by done. rewrite decide_True; [done|]. unfold PmmBuddy.in_range. lia. }
  rewrite ret_bind. destruct b1; cbn [negb].
  2: { rewrite <- Eptr. apply Hno. intros (o' & b & F). destruct (Hfi o' b F) as [-> ->]. destruct F as (_ & _ & _ & _ & _ & _ & _ & Fj). assert (Hd : false = true); [|done]. apply Hb1. intros j Hj%Hr. by apply Fj. }
  destruct (get_node_ok m fl (numa_phys_to_node (topo m) (i * PAGE_SIZE)) S) as (n & -> & Hn). rewrite ret_bind.
  destruct (all_pages_ok (fun a => Ret (numa_phys_to_node (topo m) a =? numa_phys_to_node (topo m) (i * PAGE_SIZE))) (fun j => numa_phys_to_node (topo m) (j * PAGE_SIZE) =? numa_phys_to_node (topo m) (i * PAGE_SIZE)) (Z.to_nat (2 ^ o)) i) as (b2 & -> & Hb2); [done|lia|done|].
  rewrite ret_bind. destruct b2; cbn [negb].
  2: { rewrite <- Eptr. apply Hno. intros (o' & b & F). destruct (Hfi o' b F) as [-> ->]. destruct F as (_ & _ & _ & _ & _ & _ & _ & Fj). assert (Hd : false = true); [|done]. apply Hb2. intros j Hj%Hr.
       rewrite <- Eptr. by apply Z.eqb_eq, Fj. }
  assert (Hmb : forall j, i <= j < i + Z.of_nat (Z.to_nat (2 ^ o)) -> in_range j /\ mbit (pm m) j = true) by (intros j Hj; split; [unfold PmmBuddy.in_range; lia|by apply Hb1]).
  destruct (free_loop_ok n (Z.to_nat (2 ^ o)) m fl i S Hn Hmb ltac:(lia) Htop) as (m' & fl' & -> & S' & K' & R').
  exists m', fl'. split; [done|]. split; [done|]. split; [done|]. right. exists o, i. split.
  - unfold freeable. fold o. split; [done|]. split; [done|]. rewrite <- Eptr. split; [done|]. split; [lia|]. split; [done|]. split; [lia|]. split; [by exists q|].
    intros j Hj%Hr. destruct (Hmb j Hj) as [? ?]. split; [done|]. split; [done|]. rewrite Eptr. apply Z.eqb_eq. by apply Hb2.
  - intros j Hj. rewrite R' by done. destruct (decide (within i o j)) as [W|W]; destruct (decide _) as [W'|W']; try done; exfalso; [by apply W', Hr|by apply W, Hr].
Qed.

(** Marking pages that the allocator does not manage. *)
Lemma mark_step m fl i : safe m fl -> in_range i -> (mbit (pm m) i = true -> ubit (pm m) i = true) ->
  exists bm, pmm_bitmap_set_range lowest highest (bitmap (pm m)) i 1 = Ret bm /\ safe (set_pm (set_bitmap bm (pm m)) m) fl.
Proof.
  intros S Hi Hu. destruct (c_bm _ _ _ _ _ (v_core _ _ _ _ _ (s_inv _ _ S))) as [Hb Hl]. destruct Hcfg as [G1 G2 G3 _]. unfold page_count, PmmBuddy.in_range, KERNEL_BASE, PAGE_SIZE in *.
  destruct (set_range_ok lowest highest (bitmap (pm m)) i 1 Hb) as (bm & -> & B1 & B2 & B3); [lia..|]. exists bm. split; [done|].
  assert (Hbit : forall j, lowest <= j < highest -> bit_at bm (j - lowest) = if decide (j = i) then true else ubit (pm m) j).
  { intros j Hj. rewrite B3 by lia. unfold PmmBuddy.ubit. destruct (decide (j = i)), (i - lowest <=? j - lowest) eqn:?, (j - lowest <? i - lowest + 1) eqn:?; reify_bools; cbn [andb]; done || lia. }
  assert (Hman : forall j, lowest <= j < highest -> mbit (pm m) j = true -> bit_at bm (j - lowest) = ubit (pm m) j).
  { intros j Hj Hm. rewrite Hbit by done. destruct (decide (j = i)) as [->|]; [symmetry; by apply Hu|done]. }
  assert (Htk : forall j, taken m j -> taken (set_pm (set_bitmap bm (pm m)) m) j) by (intros j (Hj & Hm & Hu'); split; [done|]; split; [done|]; unfold PmmBuddy.ubit; cbn; by rewrite Hman).
  destruct S as [S1 S2 S3 S4 S5 S6 S7 S8 S9 S10]. constructor; try done.
  - by apply inv_bits.
  - destruct S8 as [Hnd Hp]. split; [done|]. apply (Forall_impl _ _ _ Hp). intros p (j & -> & Ht & Hr). exists j. split; [done|]. split; [by apply Htk|done].
  - destruct S9 as [Hz|(j & Hz & Ht & Hr)]; [by left|right]. exists j. split; [done|]. split; [by apply Htk|done].
  - intros j Hj Hm. unfold PmmBuddy.ubit. cbn. rewrite Hbit by done. destruct (decide _); [done|]. by apply S10.
Qed.

Lemma mark_loop_ok k : forall m fl pfn, safe m fl -> quietly (mark_loop lowest highest k pfn m) m.
Proof.
  induction k as [|k IH]; intros m fl pfn S; cbn [mark_loop]; [by apply (quietly_refl m fl)|]. pose proof (v_core _ _ _ _ _ (s_inv _ _ S)) as C.
  destruct (decide (in_range pfn)) as [Hi|Hi].
  - assert (Hskip : (if (pfn >=? lowest) && (pfn <? highest) then mg ← pmm_bitmap_test (managed (pm m)) (pfn - lowest);
        if negb mg then Ret false else used ← pmm_bitmap_test (bitmap (pm m)) (pfn - lowest); Ret (negb used) else Ret false) = Ret (mbit (pm m) pfn && negb (ubit (pm m) pfn))).
    { pose proof Hi as Hi'. unfold PmmBuddy.in_range in Hi'. destruct (pfn >=? lowest) eqn:?, (pfn <? highest) eqn:?; reify_bools; try lia. cbn [andb].
      destruct (c_mg _ _ _ _ _ C) as [Hb Hl]. unfold page_count in Hl. rewrite (pmm_bitmap_test_ok (managed (pm m)) (pfn - lowest)) by (done || lia). rewrite ret_bind. unfold PmmBuddy.mbit. destruct (bit_at _ _); cbn [negb andb]; [|done].
      by rewrite (bitmap_test_ok lowest highest hhdm (pm m) fl). }
    rewrite Hskip, ret_bind. destruct (mbit (pm m) pfn && negb (ubit (pm m) pfn)) eqn:E.
    + assert (S1 : safe (mark_skip m) fl) by (by apply (safe_ext m)). apply (quietly_via m (mark_skip m)); [by apply keeps_ext|done|]. by apply (IH _ fl).
    + destruct (mark_step m fl pfn S Hi) as (bm & -> & S1); [intros Hm; rewrite Hm in E; by destruct (ubit (pm m) pfn)|]. rewrite ret_bind.
      eapply quietly_via; [| |by apply (IH _ fl)]; [by constructor|done].
  - assert (Hskip : (pfn >=? lowest) && (pfn <? highest) = false) by (unfold PmmBuddy.in_range in Hi; destruct (pfn >=? lowest) eqn:?, (pfn <? highest) eqn:?; reify_bools; cbn; done || lia). rewrite Hskip, ret_bind.
    assert (Hset : pmm_bitmap_set_range lowest highest (bitmap (pm m)) pfn 1 = Ret (bitmap (pm m))).
    { unfold pmm_bitmap_set_range, bitmap_range, PmmBuddy.in_range in *. destruct (pfn <? lowest) eqn:?; [done|]. destruct (pfn >=? highest) eqn:?; [done|]. reify_bools. lia. }
    rewrite Hset, ret_bind. replace (set_pm (set_bitmap (bitmap (pm m)) (pm m)) m) with m by (destruct m as [p ? ? ? ? ? ? ? ? ?], p; done). by apply (IH m fl).
Qed.
Lemma mark_used_ok m fl ptr count : safe m fl -> quietly (pmm_mark_used lowest highest ptr count m) m.
Proof. intros S. unfold pmm_mark_used. destruct (_ || _); [by apply (quietly_refl m fl)|]. by apply (mark_loop_ok _ m fl). Qed.

(** A huge page is aligned to its size, so it is never given back. *)
Lemma huge_page_ok r m : gives r m 9 (fun _ => True) -> gives (x ← r; huge_page lowest highest hhdm x) m 9 (fun _ => True).
Proof.
  intros (p & m' & fl' & -> & S & K & H). rewrite ret_bind. unfold huge_page. destruct H as [[-> R]|(b & -> & G & _)].
  - exists 0, m', fl'. split; [done|]. split; [done|]. split; [done|by left].
  - destruct (g_range _ _ _ _ G) as (Hb & [q Ha] & _). rewrite (proj2 (Z.eqb_neq _ 0)) by (unfold PAGE_SIZE; lia). change 0x1FFFFF with (2 ^ 21 - 1). rewrite land_ones_small by lia.
    replace (b * PAGE_SIZE) with (q * 2 ^ 21) at 1 by (rewrite Ha; unfold PAGE_SIZE; change (2 ^ 9) with 512; change (2 ^ 21) with 2097152; lia). rewrite Z.mod_mul by done. cbn [nz Z.eqb negb].
    exists (b * PAGE_SIZE), m', fl'. repeat (split; [done|]). right. by exists b.
Qed.
Lemma alloc_huge_ok m fl cpu : safe m fl -> valid_cpu cpu -> gives (pmm_alloc_huge_page lowest highest hhdm cpu m) m 9 (fun _ => True).
Proof. intros S Hcpu. apply huge_page_ok. exact (alloc_pages_ok m fl cpu 512 S Hcpu). Qed.
Lemma alloc_huge_node_ok m fl id : safe m fl -> gives (pmm_alloc_huge_page_node lowest highest hhdm id m) m 9 (fun _ => True).
Proof. intros S. apply huge_page_ok. exact (nodemask_ok m fl 512 id 0 S). Qed.

Lemma pcp_init_ok m fl : safe m fl -> safe (pmm_pcp_init m) fl /\ same_refs m (pmm_pcp_init m) /\ pm (pmm_pcp_init m) = pm m.
Proof.
  intros [S1 S2 S3 S4 S5 S6 S7 S8 S9 S10]. split; [|done]. assert (Ec : cached (pmm_pcp_init m) = concat (zero_pool m)).
  { unfold cached. cbn. done. }
  constructor; try done.
  - split; [done|]. cbn. by repeat constructor.
  - rewrite Ec. destruct S8 as [N F]. unfold cached in *. apply NoDup_app in N as (_ & _ & N). apply Forall_app in F as [_ F]. done.
Qed.

(** The owner of a page writes to it. *)
Definition owner_write (i : Z) (h : hdr) (m : machine) : machine := set_pm (set_mem (<[page_at i := h]> (mem (pm m))) (pm m)) m.

End Safe.
End PmmSafe.
