(* ===== verification/PmmBoot.v ===== *)
(** PmmBoot: physical memory from boot on: the zones of the NUMA nodes
    ([numa_init] of [kernel/src/mm/numa.c]), [pmm_init] of [pmm_init.c], which
    places the allocator's tables and seeds the free lists from the boot loader's
    memory map, and [pmm_reclaim.c], which is to add the memory of the boot loader.

    The tables, and the temporary bitmap of the reclaim, are lists of their own;
    the memory the tables lie in is what [pmm_init] leaves out. What the reference count table holds before it is written is a
    parameter ([stale]), and so are the readings of the time stamp counter. *)

From S2P Require Import Prelude Pmm PmmLists PmmBuddy PmmApi PmmSafe.
From stdpp Require Import list_relations.
#[local] Open Scope Z_scope.

Module PmmBoot.
Import Pmm PmmApi.

Inductive memmap_type := USABLE | RESERVED | ACPI_RECLAIMABLE | ACPI_NVS | BAD_MEMORY | BOOTLOADER_RECLAIMABLE | EXECUTABLE_AND_MODULES | MEMMAP_FRAMEBUFFER.
#[global] Instance memmap_type_eq : EqDecision memmap_type.
Proof. solve_decision. Defined.
Record memmap_entry := mk_entry { e_base : Z; e_length : Z; e_type : memmap_type }.
Definition is_type (t : memmap_type) (e : memmap_entry) : bool := bool_decide (e_type e = t).

(** The zone of [b_zone], after those of the nodes. *)
Definition B_ZONE : nat := 16.

(** The loop over the nodes in [numa_init]. *)
Fixpoint init_zones (n : nat) (tscs : list Z) (s : pmm) : outcome pmm :=
  match tscs with
  | [] => Ret s
  | t :: tscs => s ← buddy_zone_init n t s; init_zones (S n) tscs s
  end.

(** The first loop of [pmm_init]: page bounds and total memory. *)
Definition counted (e : memmap_entry) : bool :=
  is_type USABLE e || is_type BOOTLOADER_RECLAIMABLE e || is_type EXECUTABLE_AND_MODULES e || is_type ACPI_RECLAIMABLE e || is_type ACPI_NVS e || is_type MEMMAP_FRAMEBUFFER e.
Definition bounded (e : memmap_entry) : bool := is_type USABLE e || is_type BOOTLOADER_RECLAIMABLE e.
Fixpoint memmap_scan (es : list memmap_entry) (lo hi total : Z) : Z * Z * Z :=
  match es with
  | [] => (lo, hi, total)
  | e :: es =>
    let total := if counted e then u64 (total + e_length e) else total in
    if bounded e then
      let lo := if e_base e / PAGE_SIZE <? lo then e_base e / PAGE_SIZE else lo in
      let top := u64 (u64 (e_base e + e_length e) + PAGE_SIZE - 1) / PAGE_SIZE in
      memmap_scan es lo (if top >? hi then top else hi) total
    else memmap_scan es lo hi total
  end.

Definition table_pages (lo hi : Z) : Z := if hi >? lo then hi - lo else 0.
Definition pmm_bitmap_size (pages : Z) : Z := pages / 8 + (if pages mod 8 =? 0 then 0 else 1).
Definition total_metadata_size (pages : Z) : Z := Z.land (u64 (pmm_bitmap_size pages * 2 + pages * 2 + PAGE_SIZE - 1)) (UINT64_MAX - (PAGE_SIZE - 1)).

Fixpoint find_metadata (size : Z) (es : list memmap_entry) : option Z :=
  match es with
  | [] => None
  | e :: es => if is_type USABLE e && (e_length e >=? size) then Some (e_base e) else find_metadata size es
  end.

(** [while (order < MAX_ORDER - 1)]: the largest block at [phys] inside the entry
    and clear of the tables. *)
Fixpoint seed_order (fuel : nat) (phys p length meta meta_size o : Z) : Z :=
  match fuel with
  | O => o
  | S fuel =>
    if o <? MAX_ORDER - 1 then
      let size := Z.shiftl 1 (o + 1) * PAGE_SIZE in
      if u64 (p + size) >? length then o
      else if nz (phys mod size) then o
      else if negb ((u64 (phys + size) <=? meta) || (phys >=? meta + meta_size)) then o
      else seed_order fuel phys p length meta meta_size (o + 1)
    else o
  end.

Definition add_usable (id amount : Z) (t : topology) : outcome topology :=
  n ← arr_get (nodes t) id;
  ns ← arr_set (nodes t) id (mk_node (online n) (phys_start n) (phys_end n) (total_memory n) (u64 (usable_memory n + amount)) (cpu_mask n) (cpu_count n) (distance n) (fallback_order n));
  Ret (mk_topology ns (ranges t) (cpu_nodes t) (apic_nodes t) (active_nodes t)).
Definition set_topo (t : topology) (m : machine) : machine :=
  mk_machine (pm m) t (pcp_initialized m) (pcp_caches m) (zero_pool m) (zero_page_phys m) (ref_errors m) (mark_skips m) (free_skips m) (verify_tick m).
Definition set_zero_page (p : Z) (m : machine) : machine :=
  mk_machine (pm m) (topo m) (pcp_initialized m) (pcp_caches m) (zero_pool m) p (ref_errors m) (mark_skips m) (free_skips m) (verify_tick m).

Section Config.
Variables lowest highest hhdm : Z.

(** Making a block known to the allocator and free. *)
Definition seed_block (n : nat) (pfn o : Z) (s : pmm) : outcome pmm :=
  mg ← pmm_bitmap_set_range lowest highest (managed s) pfn (Z.shiftl 1 o);
  bm ← pmm_bitmap_clear_range lowest highest (bitmap s) pfn (Z.shiftl 1 o);
  s ← set_refs lowest (Z.to_nat (Z.shiftl 1 o)) pfn 0 (set_bitmap bm (set_managed mg s));
  buddy_zone_seed_block hhdm n (pfn * PAGE_SIZE) o s.

(** [while (p < entry_length)] *)
Fixpoint seed_loop (fuel : nat) (base length meta meta_size p : Z) (m : machine) (usable : Z) : outcome (machine * Z) :=
  match fuel with
  | O => OutOfFuel
  | S fuel =>
    if p <? length then
      let phys := u64 (base + p) in
      if phys <? 0x100000 then seed_loop fuel base length meta meta_size (u64 (p + (0x100000 - phys))) m usable
      else if (phys >=? meta) && (phys <? meta + meta_size) then seed_loop fuel base length meta meta_size (u64 (p + (meta + meta_size - phys))) m usable
      else
        let o := seed_order 20 phys p length meta meta_size 0 in
        let size := Z.shiftl 1 o * PAGE_SIZE in
        n ← numa_get_node (topo m) (numa_phys_to_node (topo m) phys);
        s ← seed_block (Z.to_nat n) (phys / PAGE_SIZE) o (pm m);
        t ← add_usable n size (topo m);
        seed_loop fuel base length meta meta_size (u64 (p + size)) (set_topo t (set_pm s m)) (u64 (usable + size))
    else Ret (m, usable)
  end.
Fixpoint seed_entries (es : list memmap_entry) (meta meta_size : Z) (m : machine) (usable : Z) : outcome (machine * Z) :=
  match es with
  | [] => Ret (m, usable)
  | e :: es =>
    '(m, usable) ← (if is_type USABLE e then seed_loop (S (Z.to_nat (e_length e / PAGE_SIZE))) (e_base e) (e_length e) meta meta_size 0 m usable else Ret (m, usable));
    seed_entries es meta meta_size m usable
  end.

(** Allocating and pinning the zero page. *)
Definition pin_zero_page (cpu : option Z) (m : machine) : outcome machine :=
  '(zp, m) ← pmm_alloc_page lowest highest hhdm cpu m;
  if zp =? 0 then Ret m
  else
    _ ← deref (mem (pm m) !! virt_to_buddy hhdm zp);
    let m := set_pm (set_mem (<[virt_to_buddy hhdm zp := zero_hdr]> (mem (pm m))) (pm m)) m in
    put_refcount lowest (zp / PAGE_SIZE) 0xFFFF (set_zero_page zp m).

(** ** [pmm_reclaim.c] *)

Definition reclaimable_entry (phys : Z) (e : memmap_entry) : bool :=
  is_type BOOTLOADER_RECLAIMABLE e && (phys >=? e_base e) && (phys <? u64 (e_base e + e_length e)).
Definition pmm_is_reclaimable (memmap : option (list memmap_entry)) (phys : Z) : bool :=
  match memmap with None => false | Some es => existsb (reclaimable_entry phys) es end.

(** [for (page = start; page < limit; page += PAGE_SIZE)] *)
Fixpoint protect_pages (fuel : nat) (page limit : Z) (m : machine) : outcome machine :=
  match fuel with
  | O => OutOfFuel
  | S fuel => if page <? limit then m ← pmm_mark_used lowest highest page 1 m; protect_pages fuel (u64 (page + PAGE_SIZE)) limit m else Ret m
  end.
Fixpoint protect_entries (es : list memmap_entry) (phys end_ : Z) (m : machine) : outcome machine :=
  match es with
  | [] => Ret m
  | e :: es =>
    m ← (if is_type BOOTLOADER_RECLAIMABLE e then
           let start := if e_base e >? phys then e_base e else phys in
           let limit := u64 (e_base e + e_length e) in
           let limit := if limit >? end_ then end_ else limit in
           let start := Z.land (u64 (start + PAGE_SIZE - 1)) (UINT64_MAX - (PAGE_SIZE - 1)) in
           protect_pages (S (Z.to_nat ((limit - start + PAGE_SIZE - 1) / PAGE_SIZE))) start limit m
         else Ret m);
    protect_entries es phys end_ m
  end.
Definition pmm_protect_reclaimable_range (memmap : option (list memmap_entry)) (phys page_count : Z) (m : machine) : outcome machine :=
  match memmap with
  | None => Ret m
  | Some es => if page_count =? 0 then Ret m else protect_entries es phys (u64 (phys + page_count * PAGE_SIZE)) m
  end.

(** Step 1: the reclaimable regions above 1 MB, in the temporary bitmap. *)
Fixpoint mark_reclaimable (es : list memmap_entry) (temp : list Z) : outcome (list Z) :=
  match es with
  | [] => Ret temp
  | e :: es =>
    temp ← (if is_type BOOTLOADER_RECLAIMABLE e then
              let start := e_base e in
              let len := e_length e in
              if start <? 0x100000 then
                let diff := 0x100000 - start in
                if diff >=? len then Ret temp else pmm_bitmap_set_range lowest highest temp (0x100000 / PAGE_SIZE) ((len - diff) / PAGE_SIZE)
              else pmm_bitmap_set_range lowest highest temp (start / PAGE_SIZE) (len / PAGE_SIZE)
            else Ret temp);
    mark_reclaimable es temp
  end.

(** Step 3: pages that are marked as used stay; bit [b * 8 + i] is [idx]. *)
Fixpoint drop_used (k : nat) (bm temp : list Z) : outcome (list Z) :=
  match k with
  | O => Ret temp
  | S k =>
    temp ← drop_used k bm temp;
    let idx := Z.of_nat k in
    set_ ← pmm_bitmap_test temp idx;
    if negb (set_ : bool) then Ret temp
    else used ← pmm_bitmap_test bm idx; if (used : bool) then pmm_bitmap_clear temp idx else Ret temp
  end.

(** Step 4: the length of the run of set bits from [pfn] on, which are cleared. *)
Fixpoint take_run (fuel : nat) (pfn count : Z) (temp : list Z) : outcome (Z * list Z) :=
  match fuel with
  | O => OutOfFuel
  | S fuel =>
    if pfn <? highest then
      set_ ← pmm_bitmap_test temp (pfn - lowest);
      if (set_ : bool) then temp ← pmm_bitmap_clear temp (pfn - lowest); take_run fuel (pfn + 1) (count + 1) temp else Ret (count, temp)
    else Ret (count, temp)
  end.
Fixpoint reclaim_order (fuel : nat) (t : topology) (phys remaining o : Z) : Z :=
  match fuel with
  | O => o
  | S fuel =>
    if o <? MAX_ORDER - 1 then
      let n_pages := Z.shiftl 1 (o + 1) in
      if (n_pages >? remaining) || nz (phys mod (n_pages * PAGE_SIZE)) then o
      else if negb (numa_phys_to_node t phys =? numa_phys_to_node t (u64 (phys + n_pages * PAGE_SIZE - 1))) then o
      else reclaim_order fuel t phys remaining (o + 1)
    else o
  end.
Fixpoint reclaim_run (fuel : nat) (start count p : Z) (m : machine) (usable : Z) : outcome (machine * Z) :=
  match fuel with
  | O => OutOfFuel
  | S fuel =>
    if p <? count then
      let phys := (start + p) * PAGE_SIZE in
      let o := reclaim_order 20 (topo m) phys (count - p) 0 in
      let pages := Z.shiftl 1 o in
      let s := pm m in
      mg ← pmm_bitmap_set_range lowest highest (managed s) (phys / PAGE_SIZE) pages;
      s ← set_refs lowest (Z.to_nat pages) (phys / PAGE_SIZE) 0 (set_managed mg s);
      n ← numa_get_node (topo m) (numa_phys_to_node (topo m) phys);
      s ← buddy_free_internal lowest highest hhdm (Z.to_nat n) phys o s;
      t ← add_usable n (pages * PAGE_SIZE) (topo m);
      reclaim_run fuel start count (p + pages) (set_topo t (set_pm s m)) (u64 (usable + pages * PAGE_SIZE))
    else Ret (m, usable)
  end.
Fixpoint reclaim_bits (k : nat) (idx : Z) (temp : list Z) (m : machine) (usable : Z) : outcome (machine * Z) :=
  match k with
  | O => Ret (m, usable)
  | S k =>
    set_ ← pmm_bitmap_test temp idx;
    if (set_ : bool) then
      '(count, temp) ← take_run (S (Z.to_nat (page_count lowest highest))) (idx + lowest) 0 temp;
      '(m, usable) ← reclaim_run (S (Z.to_nat count)) (idx + lowest) count 0 m usable;
      reclaim_bits k (idx + 1) temp m usable
    else reclaim_bits k (idx + 1) temp m usable
  end.

(** [tables] are the calls that [vmm_protect_active_tables] makes, the mapped
    ranges it finds in the active page tables. *)
Fixpoint protect_tables (memmap : option (list memmap_entry)) (tables : list (Z * Z)) (m : machine) : outcome machine :=
  match tables with
  | [] => Ret m
  | (phys, n) :: tables => m ← pmm_protect_reclaimable_range memmap phys n m; protect_tables memmap tables m
  end.

Definition pmm_reclaim_bootloader (cpu : option Z) (memmap : option (list memmap_entry)) (tables : list (Z * Z)) (m : machine) (usable : Z) : outcome (machine * Z) :=
  match memmap with
  | None => Ret (m, usable)
  | Some es =>
    let es := take 128 es in
    let size := pmm_bitmap_size (page_count lowest highest) in
    let temp_count := (size + PAGE_SIZE - 1) / PAGE_SIZE in
    '(tp, m) ← pmm_alloc_pages lowest highest hhdm cpu temp_count m;
    if tp =? 0 then Ret (m, usable)
    else
      temp ← mark_reclaimable es (replicate (Z.to_nat size) 0);
      m ← protect_tables memmap tables m;
      temp ← drop_used (Z.to_nat (size * 8)) (bitmap (pm m)) temp;
      '(m, usable) ← reclaim_bits (Z.to_nat (size * 8)) 0 temp m usable;
      m ← pmm_free_pages lowest highest hhdm tp temp_count m;
      Ret (m, usable)
  end.

End Config.

(** [pmm_init]; without room for its tables the machine halts. *)
Definition pmm_init (hhdm : Z) (cpu : option Z) (tsc : Z) (stale : list Z) (memmap : list memmap_entry) (m : machine) : outcome (option (Z * Z * machine * Z)) :=
  let '(lo, hi, total) := memmap_scan memmap UINT64_MAX 0 0 in
  let pages := table_pages lo hi in
  let size := pmm_bitmap_size pages in
  let meta_size := total_metadata_size pages in
  match find_metadata meta_size memmap with
  | None => Ret None
  | Some meta =>
    let s := pm m in
    let s := mk_pmm (mem s) (replicate (Z.to_nat size) 255) (replicate (Z.to_nat size) 0) stale (zones s) (reports s) in
    s ← buddy_zone_init B_ZONE tsc s;
    '(m, usable) ← seed_entries lo hi hhdm memmap meta meta_size (set_pm s m) 0;
    m ← pin_zero_page lo hi hhdm cpu m;
    Ret (Some (lo, hi, m, usable))
  end.

End PmmBoot.
