(* ===== verification/PmmBootSafe.v ===== *)
(** PmmBootSafe: [PmmBoot] establishes the invariant of [PmmSafe]. After
    [pmm_init] the managed pages are those of the usable entries of the memory
    map above 1 MB and outside the allocator's tables. *)

From S2P Require Import Prelude Pmm PmmLists PmmBuddy PmmApi PmmSafe PmmBoot.
From stdpp Require Import list_relations.
#[local] Open Scope Z_scope.

Module PmmBootSafe.
Import Pmm PmmLists PmmBuddy PmmApi PmmSafe PmmBoot.

(** ** Zones *)

Lemma INIT_LIST_HEAD_ok l m h : m !! l = Some h -> INIT_LIST_HEAD l m = Ret (<[l := mk_hdr l l (order h) (magic h)]> m).
Proof.
  intros E. unfold INIT_LIST_HEAD, write_next, write_prev. rewrite E. cbn [deref]. rewrite !ret_bind, lookup_insert_eq. cbn [deref]. rewrite ret_bind. by rewrite insert_insert_eq.
Qed.

(** The list heads of zone [z]. *)
Definition is_head (z : zone) (a : Z) : Prop := exists o, 0 <= o < 20 /\ a = head_of z o.
Definition self_linked (m : gmap Z hdr) (z : zone) : Prop := forall o, 0 <= o < 20 -> dll m (head_of z o) [].

Lemma init_heads_ok z k m : (k <= 20)%nat -> (forall o, 0 <= o < 20 -> exists h, m !! head_of z o = Some h) ->
  exists m', init_heads k z m = Ret m' /\ (forall o, 0 <= o < Z.of_nat k -> dll m' (head_of z o) []) /\ (forall x, ~ is_head z x -> m' !! x = m !! x) /\
    (forall x h, m !! x = Some h -> exists h', m' !! x = Some h').
Proof.
  intros Hk Hh. induction k as [|k IH]; cbn [init_heads].
  { exists m. split; [done|]. split; [lia|]. split; [done|]. eauto. }
  destruct IH as (m1 & -> & H1 & H2 & H3); [lia|]. rewrite ret_bind. destruct (Hh (Z.of_nat k) ltac:(lia)) as [h Eh]. destruct (H3 _ _ Eh) as [h1 Eh1]. rewrite (INIT_LIST_HEAD_ok _ _ _ Eh1).
  eexists. split; [done|]. set (hk := head_of z (Z.of_nat k)). split; [|split].
  - intros o Ho. destruct (decide (o = Z.of_nat k)) as [->|Hne].
    + split; [|by apply NoDup_singleton]. unfold chain, links, nx, pv. fold hk. by rewrite !lookup_insert_eq.
    + apply (dll_frame m1); [apply H1; lia|]. intros x ->%list_elem_of_singleton. unfold nx, pv. rewrite lookup_insert_ne; [done|]. unfold hk, head_of. lia.
  - intros x Hx. rewrite lookup_insert_ne; [by apply H2|]. intros <-. apply Hx. exists (Z.of_nat k). split; [lia|done].
  - intros x hx Ex. destruct (H3 _ _ Ex) as [h' E']. destruct (decide (x = hk)) as [->|Hne]; [eexists; apply lookup_insert_eq|]. exists h'. by rewrite lookup_insert_ne.
Qed.

(** An empty zone. *)
Definition empty_zone (z : zone) : Prop := free_blocks z = replicate 20 0 /\ pages_in_lists z = 0 /\ free_pages z = 0 /\ length (trace z) = 64%nat /\ zmagic z <> 0.

Lemma magic_nonzero t : Z.lor (u32 t) 1 <> 0.
Proof. intros [_ H]%Z.lor_eq_0_iff. done. Qed.

(** The addresses of the list heads, and the pages outside them. *)
Record layout (s : pmm) : Prop := mk_layout {
  l_mem : forall n z o, zones s !! n = Some z -> 0 <= o < 20 -> exists h, mem s !! head_of z o = Some h;
  l_inj : forall n z o n' z' o', zones s !! n = Some z -> zones s !! n' = Some z' -> 0 <= o < 20 -> 0 <= o' < 20 -> head_of z o = head_of z' o' -> n = n' /\ o = o';
  l_trace : forall n z, zones s !! n = Some z -> length (trace z) = 64%nat }.

(** The zones below [k] are empty, with the tags of the counter readings [tscs]. *)
Definition emptied (s : pmm) (k : nat) (tag_of : nat -> Z) : Prop := forall n z, (n < k)%nat -> zones s !! n = Some z -> empty_zone z /\ self_linked (mem s) z /\ zmagic z = tag_of n.

Lemma zone_init_ok s n z t k tag_of : layout s -> emptied s k tag_of -> zones s !! n = Some z -> (n = k) -> Z.lor (u32 t) 1 = tag_of n ->
  exists s', buddy_zone_init n t s = Ret s' /\ layout s' /\ emptied s' (S k) tag_of /\ length (zones s') = length (zones s) /\ heads <$> zones s' = heads <$> zones s /\
    bitmap s' = bitmap s /\ managed s' = managed s /\ refcounts s' = refcounts s /\ reports s' = reports s /\
    (forall a, (forall n z, zones s !! n = Some z -> ~ is_head z a) -> mem s' !! a = mem s !! a) /\ (forall x h, mem s !! x = Some h -> exists h', mem s' !! x = Some h').
Proof.
  intros [L1 L2 L3] He Ez -> Htag. unfold buddy_zone_init, zone_at. rewrite Ez. cbn [deref]. rewrite ret_bind.
  destruct (init_heads_ok z 20 (mem s)) as (m' & -> & H1 & H2 & H3); [lia|intros o Ho; by apply (L1 k z)|]. rewrite ret_bind. set (z' := mk_zone _ _ _ _ _ _ _).
  pose proof (lookup_lt_Some _ _ _ Ez) as Hlt. exists (set_zone k z' (set_mem m' s)). split; [done|].
  assert (Zs : forall n0 z0, zones (set_zone k z' (set_mem m' s)) !! n0 = Some z0 -> exists z1, zones s !! n0 = Some z1 /\ heads z0 = heads z1 /\ length (trace z0) = length (trace z1) /\ (n0 <> k -> z0 = z1) /\ (n0 = k -> z0 = z')).
  { intros n0 z0 E0. cbn in E0. destruct (decide (n0 = k)) as [->|Hne].
    - rewrite list_lookup_insert_eq in E0 by done. injection E0 as <-. exists z. by repeat split.
    - rewrite list_lookup_insert_ne in E0 by done. exists z0. by repeat split. }
  split; [constructor|split; [|split; [|split; [|split; [done|split; [done|split; [done|split; [done|split]]]]]]]].
  - intros n0 z0 o E0 Ho. destruct (Zs _ _ E0) as (z1 & E1 & Hh & _). unfold head_of. rewrite Hh. fold (head_of z1 o). destruct (L1 _ _ o E1 Ho) as [h Eh]. by apply (H3 _ h).
  - intros n0 z0 o n1 z1 o1 E0 E1 Ho Ho1. destruct (Zs _ _ E0) as (y0 & F0 & Hh0 & _). destruct (Zs _ _ E1) as (y1 & F1 & Hh1 & _). unfold head_of. rewrite Hh0, Hh1. by apply (L2 n0 y0 o n1 y1 o1).
  - intros n0 z0 E0. destruct (Zs _ _ E0) as (z1 & E1 & _ & -> & _). by apply (L3 n0).
  - intros n0 z0 Hn E0. destruct (Zs _ _ E0) as (z1 & E1 & Hh & _ & Hne & Heq). destruct (decide (n0 = k)) as [->|Hk].
    + rewrite (Heq eq_refl). split; [split; [done|]; split; [done|]; split; [done|]; split; [exact (L3 k z Ez)|apply magic_nonzero]|]. split; [|done]. intros o Ho. apply H1. lia.
    + rewrite (Hne Hk). destruct (He n0 z1) as (G1 & G2 & G3); [lia|done|]. split; [done|]. split; [|done]. intros o Ho. apply (dll_frame (mem s)); [by apply G2|].
      intros x ->%list_elem_of_singleton. unfold nx, pv. cbn. rewrite H2; [done|]. intros (o1 & Ho1 & E). destruct (L2 n0 z1 o k z o1 E1 Ez Ho Ho1 E) as [? _]. done.
  - cbn. apply length_insert.
  - cbn. rewrite list_fmap_insert. cbn. apply list_insert_id. by rewrite list_lookup_fmap, Ez.
  - intros a Ha. cbn. apply H2. by apply (Ha k z).
  - done.
Qed.

(** The sixteen zones of [numa_init]. *)
Lemma init_zones_ok tag_of : forall tscs s k, layout s -> emptied s k tag_of -> (k + length tscs <= length (zones s))%nat ->
  (forall j t, tscs !! j = Some t -> Z.lor (u32 t) 1 = tag_of (k + j)%nat) ->
  exists s', init_zones k tscs s = Ret s' /\ layout s' /\ emptied s' (k + length tscs) tag_of /\ length (zones s') = length (zones s) /\ heads <$> zones s' = heads <$> zones s /\
    bitmap s' = bitmap s /\ managed s' = managed s /\ refcounts s' = refcounts s /\ reports s' = reports s /\
    (forall a, (forall n z, zones s !! n = Some z -> ~ is_head z a) -> mem s' !! a = mem s !! a) /\ (forall x h, mem s !! x = Some h -> exists h', mem s' !! x = Some h').
Proof.
  induction tscs as [|t tscs IH]; intros s k L He Hlen Ht; cbn [init_zones length] in *.
  { exists s. rewrite Nat.add_0_r. repeat (split; [done|]). eauto. }
  destruct (lookup_lt_is_Some_2 (zones s) k) as [z Ez]; [lia|].
  destruct (zone_init_ok s k z t k tag_of L He Ez eq_refl) as (s1 & -> & L1 & He1 & Hl1 & Hh1 & B1 & M1 & R1 & P1 & F1 & D1); [rewrite (Ht 0%nat t eq_refl); f_equal; lia|]. rewrite ret_bind.
  destruct (IH s1 (S k) L1 He1) as (s' & -> & L' & He' & Hl' & Hh' & B' & M' & R' & P' & F' & D'); [lia|intros j t' Hj; rewrite (Ht (S j) t' Hj); f_equal; lia|].
  exists s'. split; [done|]. split; [done|]. split; [by replace (k + S (length tscs))%nat with (S k + length tscs)%nat by lia|]. split; [congruence|]. split; [congruence|]. repeat (split; [congruence|]). split.
  - intros a Ha. rewrite F'; [by apply F1|]. intros n z1 E1 (o & Ho & ->). assert (Hz : (heads <$> zones s1) !! n = Some (heads z1)) by (by rewrite list_lookup_fmap, E1). rewrite Hh1, list_lookup_fmap in Hz.
    destruct (zones s !! n) as [z0|] eqn:E0; [|done]. injection Hz as Hz. apply (Ha n z0 E0). exists o. split; [done|]. unfold head_of. by rewrite Hz.
  - intros x h Ex. destruct (D1 x h Ex) as [h1 E1]. by apply (D' x h1).
Qed.

(** ** Tables *)

Lemma bitmap_size_ok pages : 0 <= pages -> 0 <= pmm_bitmap_size pages /\ pages <= pmm_bitmap_size pages * 8 <= pages + 7.
Proof. intros H. unfold pmm_bitmap_size. pose proof (Z.div_mod pages 8 ltac:(lia)). pose proof (Z.mod_pos_bound pages 8 ltac:(lia)). destruct (pages mod 8 =? 0) eqn:?; reify_bools; lia. Qed.
Lemma nth_replicate_z k n v d : nth k (replicate n v) d = if decide (k < n)%nat then v else d :> Z.
Proof. revert n. induction k as [|k IH]; intros [|n]; cbn; try done. rewrite IH. destruct (decide _), (decide _); done || lia. Qed.
Lemma bit_at_zero n i : bit_at (replicate n 0) i = false.
Proof. unfold bit_at. rewrite nth_replicate_z. destruct (decide _); apply Z.bits_0. Qed.
Lemma bit_at_ones n i : 0 <= i < Z.of_nat n * 8 -> bit_at (replicate n 255) i = true.
Proof.
  intros Hi. unfold bit_at. assert (i / 8 < Z.of_nat n) by (apply Z.div_lt_upper_bound; lia). pose proof (Z.div_pos i 8). rewrite nth_replicate_z, decide_True by lia.
  pose proof (Z.mod_pos_bound i 8 ltac:(lia)). change 255 with (Z.ones 8). apply Z.ones_spec_low. lia.
Qed.
Lemma bytes_replicate n v : 0 <= v < 256 -> bytes (replicate n v).
Proof. intros Hv. unfold bytes. by apply Forall_replicate. Qed.

Section Boot.
Context (lowest highest hhdm : Z) (Hcfg : config lowest highest hhdm).
Notation page_at := (page_at hhdm).
Notation in_range := (in_range lowest highest).
Notation mbit := (mbit lowest).
Notation ubit := (ubit lowest).
Notation core := (core lowest highest hhdm).
Notation inv := (inv lowest highest hhdm).
Notation safe := (safe lowest highest hhdm).
Notation ref := (ref lowest).

(** The list heads lie in the kernel's half and not in the pages. *)
Definition heads_outside (s : pmm) : Prop := forall n z o, zones s !! n = Some z -> 0 <= o < 20 -> KERNEL_BASE <= head_of z o /\ forall i, in_range i -> head_of z o <> page_at i.

Definition no_lists : lists := fun _ _ => [].

Lemma pmm_boot_inv s tag_of (size := pmm_bitmap_size (page_count lowest highest)) : layout s -> emptied s (length (zones s)) tag_of -> (forall n n', (n < length (zones s))%nat -> (n' < length (zones s))%nat -> tag_of n = tag_of n' -> n = n') ->
  heads_outside s -> bitmap s = replicate (Z.to_nat size) 255 -> managed s = replicate (Z.to_nat size) 0 -> Z.of_nat (length (refcounts s)) = page_count lowest highest -> inv s no_lists.
Proof.
  intros [L1 L2 L3] He Ht Ho Hb Hm Hr. assert (Hpc : 0 <= page_count lowest highest) by (destruct (cfg_low _ _ _ Hcfg); unfold page_count; lia). pose proof (bitmap_size_ok _ Hpc) as [Hs1 Hs2]. fold size in Hs1, Hs2.
  assert (Hmb : forall i, mbit s i = false) by (intros i; unfold PmmBuddy.mbit; rewrite Hm; apply bit_at_zero).
  assert (Hz : forall n z, zones s !! n = Some z -> empty_zone z /\ self_linked (mem s) z /\ zmagic z = tag_of n) by (intros n z Ez; apply He; [by eapply lookup_lt_Some|done]).
  constructor; try (intros i _ Hi; rewrite Hmb in Hi; done).
  2: { intros n z Ez. destruct (Hz n z Ez) as ((_ & -> & -> & _) & _). done. }
  constructor.
  - rewrite Hb. split; [by apply bytes_replicate|]. unfold bits. rewrite length_replicate. lia.
  - rewrite Hm. split; [by apply bytes_replicate|]. unfold bits. rewrite length_replicate. lia.
  - done.
  - intros n z Ez. destruct (Hz n z Ez) as ((-> & -> & _ & Htr & Hmg) & _). split; [done|]. split; [done|]. split; [done|]. split; [|done]. intros o Ho'. rewrite lookup_replicate_2 by lia. done.
  - done.
  - done.
  - intros n z n' z' Ez Ez' E. apply Ht; [by eapply lookup_lt_Some..|]. destruct (Hz n z Ez) as (_ & _ & <-). by destruct (Hz n' z' Ez') as (_ & _ & <-).
  - intros i _ Hi. rewrite Hmb in Hi. done.
  - intros n z o Ez Ho'. destruct (Hz n z Ez) as (_ & Hl & _). by apply Hl.
  - intros n o b Hb'. by apply elem_of_nil in Hb'.
  - intros n o b n' o' b' i Hb'. by apply elem_of_nil in Hb'.
  - intros n z i o _ _ Hi. rewrite Hmb in Hi. done.
Qed.

(** A page that is readable and carries no zone's tag. *)
Definition clean (s : pmm) (i : Z) : Prop := exists h, mem s !! page_at i = Some h /\ forall n z, zones s !! n = Some z -> magic h <> zmagic z.

Lemma core_manage s fl mg : core s fl -> bytes mg -> length mg = length (managed s) -> (forall i, in_range i -> bit_at mg (i - lowest) = true -> mbit s i = true \/ clean s i) ->
  (forall i, in_range i -> mbit s i = true -> bit_at mg (i - lowest) = true) -> core (set_managed mg s) fl.
Proof.
  intros C Hb Hl Hnew Hold. pose proof (fun n o b i => block_range lowest highest hhdm s fl n o b i C) as Hbr. destruct C as [C1 C2 C3 C4 C5 C6 C7 C8 C9 C10 C11 C12]. constructor; try done.
  - split; [done|]. cbn. unfold bits. rewrite Hl. apply C2.
  - intros i Hi Hm. destruct (Hnew i Hi Hm) as [H|(h & Eh & _)]; [by apply C8|by exists h].
  - intros n o b Hin. destruct (C10 _ _ _ Hin) as (z & Ez & Ho & Ha & B1 & B2 & B3 & B4). exists z. repeat (split; [done|]). split; [|done].
    intros i Hi. destruct (B3 i Hi) as [Hm Hu]. split; [|done]. apply Hold; [by apply (Hbr n o b)|done].
  - intros n z i o Ez Hi Hm Htag. destruct (Hnew i Hi Hm) as [H|(h & Eh & Hc)]; [by apply (C12 n z)|]. unfold tag in Htag. cbn in Htag. rewrite Eh in Htag. injection Htag as _ Hz. by destruct (Hc n z Ez).
Qed.

(** What seeding the block [b] of order [o] does. *)
Lemma seed_block_ok s fl n z o b : inv s fl -> zones s !! n = Some z -> 0 <= o < 20 -> (2 ^ o | b) -> 0 < b -> lowest <= b -> b + 2 ^ o <= highest ->
  (forall i, within b o i -> mbit s i = false /\ ubit s i = true /\ clean s i) ->
  exists s' fl', seed_block lowest highest hhdm n b o s = Ret s' /\ inv s' fl' /\ reports s' = reports s /\ length (refcounts s') = length (refcounts s) /\
    (forall i, in_range i -> mbit s' i = if decide (within b o i) then true else mbit s i) /\
    (forall i, in_range i -> ubit s' i = if decide (within b o i) then false else ubit s i) /\
    (forall i, in_range i -> refcounts s' !! Z.to_nat (i - lowest) = if decide (within b o i) then Some 0 else refcounts s !! Z.to_nat (i - lowest)) /\
    (forall i, in_range i -> ~ within b o i -> mbit s i = false -> mem s' !! page_at i = mem s !! page_at i) /\
    (forall n z, zones s !! n = Some z -> exists z', zones s' !! n = Some z' /\ heads z' = heads z /\ zmagic z' = zmagic z) /\
    (forall n z', zones s' !! n = Some z' -> exists z, zones s !! n = Some z).
Proof.
  intros V Ez Ho Ha Hb Hlo Hhi Hw. pose proof (v_core _ _ _ _ _ V) as C. pose proof (Z.pow_pos_nonneg 2 o ltac:(lia) ltac:(lia)) as Hp. unfold seed_block. rewrite Z.shiftl_1_l.
  assert (Hwr : forall i, within b o i -> in_range i) by (intros i Hi; unfold within, PmmBuddy.in_range in *; lia). pose proof Hcfg as [G1 G2 G3 _]. destruct (c_mg _ _ _ _ _ C) as [Hm1 Hm2].
  assert (Htop : highest < 2 ^ 64) by (unfold KERNEL_BASE, PAGE_SIZE in *; lia).
  destruct (set_range_ok lowest highest (managed s) b (2 ^ o) Hm1) as (mg & -> & M1 & M2 & M3); [lia..|unfold page_count in Hm2; lia|]. rewrite ret_bind.
  assert (Hmg : forall i, in_range i -> bit_at mg (i - lowest) = if decide (within b o i) then true else mbit s i).
  { intros i Hi. unfold PmmBuddy.mbit, PmmBuddy.in_range, within in *. rewrite M3 by lia. destruct (decide _), (b - lowest <=? i - lowest) eqn:?, (i - lowest <? b - lowest + 2 ^ o) eqn:?; reify_bools; cbn; done || lia. }
  assert (C1 : core (set_managed mg s) fl).
  { apply core_manage; [done..| |]; intros i Hi; rewrite Hmg by done; destruct (decide _) as [W|W]; [right; by apply Hw|by left|done|done]. }
  destruct (clear_ok lowest highest hhdm Hcfg (set_managed mg s) fl o b C1) as (bm & Ebm & C2 & B2 & L2).
  { repeat (split; [done|]). intros i Hi. split; [|by apply Hw]. unfold PmmBuddy.mbit. cbn. rewrite Hmg by auto. by rewrite decide_True. }
  cbn in Ebm. rewrite Ebm, ret_bind. set (s2 := set_bitmap bm (set_managed mg s)) in *.
  destruct (set_refs_ok lowest highest hhdm 0 b (Z.to_nat (2 ^ o)) s2 fl C2) as (r & -> & R1 & R2); [lia|lia|]. rewrite ret_bind. set (s3 := set_refcounts r s2).
  assert (C3 : core s3 fl) by (by apply core_refs). assert (L3 : loose lowest highest s3 fl o b) by exact L2. unfold buddy_zone_seed_block. fold (page_at b).
  destruct (link_ok lowest highest hhdm Hcfg s3 fl n z o b C3 Ez L3) as (s4 & -> & C4 & F4 & Q4). rewrite ret_bind. destruct (frame_zone _ _ _ _ F4 Ez) as (z4 & E4 & H4 & _).
  destruct (publish_ok lowest highest hhdm s4 _ n z4 C4 E4) as (z5 & -> & C5 & Z1 & Z2 & Z3 & Z4). pose proof (lookup_lt_Some _ _ _ E4) as Hlt4. pose proof (lookup_lt_Some _ _ _ Ez) as Hlt.
  set (s5 := set_zone n z5 s4) in *. assert (Hms : forall i, in_range i -> mbit s5 i = if decide (within b o i) then true else mbit s i).
  { intros i Hi. unfold PmmBuddy.mbit at 1. cbn. rewrite (f_managed _ _ _ F4). by apply Hmg. }
  assert (Hus : forall i, in_range i -> ubit s5 i = if decide (within b o i) then false else ubit s i) by (intros i Hi; unfold PmmBuddy.ubit at 1; cbn; rewrite (f_bitmap _ _ _ F4); by apply B2).
  assert (Hrs : forall i, in_range i -> refcounts s5 !! Z.to_nat (i - lowest) = if decide (within b o i) then Some 0 else refcounts s !! Z.to_nat (i - lowest)).
  { intros i Hi. cbn. rewrite (f_refs _ _ _ F4). cbn. rewrite R2 by done. unfold within. by rewrite Z2Nat.id by lia. }
  assert (Hzs : forall n0 z0, zones s !! n0 = Some z0 -> exists z', zones s5 !! n0 = Some z' /\ heads z' = heads z0 /\ zmagic z' = zmagic z0).
  { intros n0 z0 E0. cbn. destruct (decide (n0 = n)) as [->|Hne].
    - rewrite Ez in E0. injection E0 as <-. exists z5. rewrite list_lookup_insert_eq by done. split; [done|]. destruct (f_zone _ _ _ F4 z Ez) as (y & Ey & Y1 & Y2 & _). rewrite E4 in Ey. injection Ey as <-. split; congruence.
    - exists z0. rewrite list_lookup_insert_ne by done. rewrite (f_others _ _ _ F4) by done. done. }
  exists s5, (upd fl n o (fl n o ++ [b])). split; [done|]. split; [|split; [apply (f_reports _ _ _ F4)|split; [cbn; rewrite (f_refs _ _ _ F4); apply R1|split; [done|split; [done|split; [done|split; [|split; [done|]]]]]]]].
  - constructor; [done| | | |].
    + intros i Hi Hm Hu. apply covered_add. rewrite Hms in Hm by done. rewrite Hus in Hu by done. destruct (decide _); [by right|left]. by apply (v_free _ _ _ _ _ V).
    + intros i Hi Hm Hu. rewrite Hrs by done. rewrite Hms in Hm by done. rewrite Hus in Hu by done. destruct (decide _); [done|]. by apply (v_refs _ _ _ _ _ V).
    + intros i Hi Hm. rewrite Hms in Hm by done. destruct (decide (within b o i)); [unfold within in *; lia|by apply (v_zero _ _ _ _ _ V)].
    + intros n0 z0 E0. cbn in E0. destruct (decide (n0 = n)) as [->|Hne]; [rewrite list_lookup_insert_eq in E0 by done; by injection E0 as <-|].
      rewrite list_lookup_insert_ne in E0 by done. rewrite (f_others _ _ _ F4) in E0 by done. by apply (v_pub _ _ _ _ _ V n0).
  - intros i Hi Hn Hm. cbn. rewrite Q4; [done|done|]. intros [->|Hin]; [apply Hn, within_first; lia|]. destruct (block_first lowest highest hhdm s fl n o i C Hin) as (_ & ? & _). congruence.
  - intros n0 z0 E0. cbn in E0. destruct (decide (n0 = n)) as [->|Hne]; [by exists z|]. rewrite list_lookup_insert_ne in E0 by done. rewrite (f_others _ _ _ F4) in E0 by done. by exists z0.
Qed.

(** ** Seeding *)

(** The block of order [o] at offset [p] fits in its entry and is clear of the tables. *)
Definition seedable (phys p length meta meta_size o : Z) : Prop :=
  p + 2 ^ o * PAGE_SIZE <= length /\ (2 ^ o * PAGE_SIZE | phys) /\ (phys + 2 ^ o * PAGE_SIZE <= meta \/ meta + meta_size <= phys).

Lemma seed_order_ok phys p length meta meta_size fuel : 0 <= p -> 0 <= phys < 2 ^ 62 -> p <= length < 2 ^ 62 -> forall o, 0 <= o <= 19 -> seedable phys p length meta meta_size o ->
  let r := seed_order fuel phys p length meta meta_size o in o <= r <= 19 /\ seedable phys p length meta meta_size r.
Proof.
  intros Hp Hphys Hl. induction fuel as [|fuel IH]; intros o Ho Hs; cbn [seed_order]; [split; [lia|done]|]. unfold MAX_ORDER. destruct (o <? 20 - 1) eqn:?; reify_bools; [|split; [lia|done]].
  rewrite Z.shiftl_1_l. assert (Hb : 0 < 2 ^ (o + 1) <= 2 ^ 19) by (split; [apply Z.pow_pos_nonneg; lia|apply Z.pow_le_mono_r; lia]). unfold PAGE_SIZE.
  rewrite !u64_id by lia. destruct (p + 2 ^ (o + 1) * 4096 >? length) eqn:?; reify_bools; [split; [lia|done]|].
  destruct (nz (phys mod (2 ^ (o + 1) * 4096))) eqn:E; [split; [lia|done]|]. unfold nz in E. apply negb_false_iff, Z.eqb_eq in E.
  destruct (negb _) eqn:E2; [split; [lia|done]|]. apply negb_false_iff, orb_true_iff in E2. destruct (IH (o + 1)) as [H1 H2]; [lia| |split; [lia|done]].
  split; [unfold PAGE_SIZE; lia|]. split; [apply Z.mod_divide; [unfold PAGE_SIZE; lia|done]|]. unfold PAGE_SIZE. destruct E2; reify_bools; lia.
Qed.

(** Pages that may be given out. *)
Definition good (meta meta_size i : Z) : Prop := 0x100000 <= i * PAGE_SIZE /\ ~ (meta <= i * PAGE_SIZE < meta + meta_size).

(** The state while the memory map is read: the pages in [D] are free, all others
    are unknown to the allocator. *)
Record seeding (U D : Z -> Prop) (m0 m : machine) (fl : lists) : Prop := mk_seeding {
  g_inv : inv (pm m) fl;
  g_managed : forall i, in_range i -> mbit (pm m) i = true <-> D i;
  g_used : forall i, in_range i -> ubit (pm m) i = negb (mbit (pm m) i);
  g_zones : forall id, 0 <= id < 16 -> exists z, zones (pm m) !! Z.to_nat id = Some z;
  g_nodes : length (nodes (topo m)) = 16%nat /\ Forall (fun n => Forall (fun x => -1 <= x < 16) (fallback_order n)) (nodes (topo m));
  g_cpus : cpu_nodes (topo m) = cpu_nodes (topo m0);
  g_refs : forall i v, in_range i -> ref m i = Some v -> 0 <= v <= UINT16_MAX;
  g_clean : forall i, in_range i -> U i -> ~ D i -> clean (pm m) i;
  g_rest : pcp_initialized m = pcp_initialized m0 /\ pcp_caches m = pcp_caches m0 /\ zero_pool m = zero_pool m0 /\ zero_page_phys m = zero_page_phys m0 /\ reports (pm m) = reports (pm m0) }.

Lemma seeding_ext U D D' m0 m fl : (forall i, in_range i -> D i <-> D' i) -> seeding U D m0 m fl -> seeding U D' m0 m fl.
Proof.
  intros E [G1 G2 G3 G4 G5 G6 G9 G7 G8]. constructor; try done.
  - intros i Hi. by rewrite G2, E.
  - intros i Hi Hu Hn. apply G7; [done|done|]. by rewrite E.
Qed.

Lemma add_usable_ok t id amount : 0 <= id < 16 -> length (nodes t) = 16%nat -> Forall (fun n => Forall (fun x => -1 <= x < 16) (fallback_order n)) (nodes t) ->
  exists t', add_usable id amount t = Ret t' /\ length (nodes t') = 16%nat /\ Forall (fun n => Forall (fun x => -1 <= x < 16) (fallback_order n)) (nodes t') /\ cpu_nodes t' = cpu_nodes t.
Proof.
  intros Hid Hl Hf. unfold add_usable. destruct (lookup_lt_is_Some_2 (nodes t) (Z.to_nat id)) as [n Hn]; [lia|]. rewrite (proj2 (arr_get_Some _ _ _) (conj (proj1 Hid) Hn)), ret_bind. rewrite arr_set_Ret by lia. rewrite ret_bind.
  eexists. split; [done|]. cbn. rewrite length_insert. split; [done|]. split; [|done]. apply Forall_insert; [done|]. cbn. rewrite Forall_forall in Hf. apply Hf. by eapply list_elem_of_lookup_2.
Qed.
Lemma get_node_bound t id : length (nodes t) = 16%nat -> exists n, numa_get_node t id = Ret n /\ 0 <= n < 16.
Proof.
  intros Hl. unfold numa_get_node, MAX_NUMA_NODES. destruct (id <? 0) eqn:?, (id >=? 16) eqn:?; reify_bools; cbn [orb]; try (exists 0; split; [done|lia]).
  unfold node_online. destruct (lookup_lt_is_Some_2 (nodes t) (Z.to_nat id)) as [n Hn]; [lia|]. rewrite (proj2 (arr_get_Some _ _ _) (conj Heqb Hn)), !ret_bind.
  destruct (online n); [exists id|exists 0]; split; try done; lia.
Qed.

(** One block. *)
Lemma seed_step U D m0 m fl b o : seeding U D m0 m fl -> 0 <= o < 20 -> (2 ^ o | b) -> 0 < b -> lowest <= b -> b + 2 ^ o <= highest -> (forall i, within b o i -> U i /\ ~ D i) ->
  exists n s t fl', numa_get_node (topo m) (numa_phys_to_node (topo m) (b * PAGE_SIZE)) = Ret n /\ seed_block lowest highest hhdm (Z.to_nat n) b o (pm m) = Ret s /\
    add_usable n (2 ^ o * PAGE_SIZE) (topo m) = Ret t /\ seeding U (fun i => D i \/ within b o i) m0 (set_topo t (set_pm s m)) fl'.
Proof.
  intros [G1 G2 G3 G4 G5 G6 G9 G7 G8] Ho Ha Hb Hlo Hhi Hw. destruct G5 as [Hl Hf]. destruct (get_node_bound (topo m) (numa_phys_to_node (topo m) (b * PAGE_SIZE)) Hl) as (n & -> & Hn). destruct (G4 n Hn) as [z Ez].
  assert (Hwr : forall i, within b o i -> in_range i) by (intros i Hi; unfold within, PmmBuddy.in_range in *; lia).
  assert (Hnm : forall i, in_range i -> ~ D i -> mbit (pm m) i = false) by (intros i Hi Hd; apply not_true_iff_false; by rewrite G2).
  destruct (seed_block_ok (pm m) fl (Z.to_nat n) z o b G1 Ez Ho Ha Hb Hlo Hhi) as (s & fl' & Es & V & Rp & Rl & Hm & Hu & Hr & Hq & Z1 & Z2).
  { intros i Hi. destruct (Hw i Hi) as [Hu Hd]. split; [auto|]. split; [rewrite G3, Hnm by auto; done|]. apply G7; auto. }
  destruct (add_usable_ok (topo m) n (2 ^ o * PAGE_SIZE) Hn Hl Hf) as (t & Et & T1 & T2 & T3). exists n, s, t, fl'. split; [done|]. split; [done|]. split; [done|]. constructor; try done.
  - intros i Hi. cbn. rewrite Hm by done. destruct (decide _); [split; [by right|done]|]. rewrite G2 by done. tauto.
  - intros i Hi. cbn. rewrite Hu, Hm by done. destruct (decide _); [done|]. by apply G3.
  - intros id Hid. destruct (G4 id Hid) as [z0 E0]. destruct (Z1 _ _ E0) as (z1 & E1 & _). by exists z1.
  - cbn. by rewrite T3.
  - intros i v Hi Hv. unfold PmmSafe.ref in Hv. cbn in Hv. rewrite Hr in Hv by done. destruct (decide _); [injection Hv as <-; unfold UINT16_MAX; lia|by apply (G9 i)].
  - intros i Hi Hui Hd. destruct (G7 i Hi Hui ltac:(tauto)) as (h & Eh & Hc). exists h. cbn. rewrite Hq; [|done|tauto|apply Hnm; tauto]. split; [done|]. intros n0 z0 E0.
    destruct (Z2 n0 z0 E0) as (z1 & E1). destruct (Z1 n0 z1 E1) as (z2 & E2 & _ & Hmg). rewrite E0 in E2. injection E2 as <-. rewrite Hmg. by apply (Hc n0 z1).
  - cbn. rewrite Rp. done.
Qed.

Lemma seed_loop_ok U m0 base len meta meta_size fuel : lowest * PAGE_SIZE <= base -> base + len <= highest * PAGE_SIZE -> (PAGE_SIZE | base) -> (PAGE_SIZE | len) -> (PAGE_SIZE | meta) -> (PAGE_SIZE | meta_size) ->
  0 <= meta -> 0 <= meta_size -> meta + meta_size <= highest * PAGE_SIZE -> (forall i, base <= i * PAGE_SIZE < base + len -> U i) ->
  forall p D m fl usable, seeding U D m0 m fl -> 0 <= p -> (PAGE_SIZE | p) -> Z.max 0 (len - p) < Z.of_nat fuel * PAGE_SIZE -> (forall i, base + p <= i * PAGE_SIZE < base + len -> ~ D i) ->
  exists m' fl' u', seed_loop lowest highest hhdm fuel base len meta meta_size p m usable = Ret (m', u') /\
    seeding U (fun i => D i \/ (base + p <= i * PAGE_SIZE < base + len /\ good meta meta_size i)) m0 m' fl'.
Proof.
  intros B1 B2 [qb Hqb] [ql Hql] [qm Hqm] [qs Hqs] M1 M2 M3 HU. pose proof Hcfg as [G1 G2 G3 _]. assert (Htop : highest * PAGE_SIZE < 2 ^ 48) by (unfold KERNEL_BASE in *; lia).
  induction fuel as [|fuel IH]; intros p D m fl usable S Hp [qp Hqp] Hf Hd; [lia|]. cbn [seed_loop]. unfold PAGE_SIZE in *.
  destruct (p <? len) eqn:Hpl; reify_bools.
  2: { exists m, fl, usable. split; [done|]. apply (seeding_ext U D); [|done]. intros i Hi. split; [by left|]. intros [?|[? _]]; [done|lia]. }
  rewrite (u64_id (base + p)) by lia. set (phys := base + p).
  assert (Hskip : forall p', phys < base + p' -> 0 <= p' -> (4096 | p') -> p' < 2 ^ 62 -> (forall i, base + p <= i * 4096 < base + len -> good meta meta_size i -> base + p' <= i * 4096) ->
    exists m' fl' u', seed_loop lowest highest hhdm fuel base len meta meta_size p' m usable = Ret (m', u') /\ seeding U (fun i => D i \/ (base + p <= i * 4096 < base + len /\ good meta meta_size i)) m0 m' fl').
  { intros p' H1 H2 [q' H3] H4 H5. destruct (IH p' D m fl usable S H2) as (m' & fl' & u' & -> & S'); [by exists q'|lia|intros i Hi; apply Hd; lia|]. exists m', fl', u'. split; [done|].
    eapply seeding_ext; [|exact S']. intros i Hi. split; intros [?|[? ?]]; try (by left); right; (split; [|done]); [lia|]. pose proof (H5 i ltac:(lia) ltac:(done)). lia. }
  destruct (phys <? 0x100000) eqn:E1; reify_bools.
  { rewrite u64_id by lia. apply Hskip; [lia|lia|exists (256 - qb); lia|lia|]. intros i _ [Hg _]. unfold PAGE_SIZE in Hg. lia. }
  destruct ((phys >=? meta) && (phys <? meta + meta_size)) eqn:E2.
  { apply andb_true_iff in E2 as [E2 E3]. reify_bools. rewrite u64_id by lia. apply Hskip; [lia|lia|exists (qm + qs - qb); lia|lia|]. intros i Hi [_ Hg]. unfold PAGE_SIZE in Hg. lia. }
  assert (Hs0 : seedable phys p len meta meta_size 0).
  { unfold seedable, PAGE_SIZE. change (2 ^ 0) with 1. split; [lia|]. split; [exists (qb + qp); lia|]. apply andb_false_iff in E2. destruct E2; reify_bools; [left|right]; lia. }
  destruct (seed_order_ok phys p len meta meta_size 20 Hp ltac:(lia) ltac:(lia) 0 ltac:(lia) Hs0) as [Ho (Q1 & [qo Q2] & Q3)]. set (o := seed_order 20 phys p len meta meta_size 0) in *. unfold PAGE_SIZE in *.
  assert (Hpow : 0 < 2 ^ o <= 2 ^ 19) by (split; [apply Z.pow_pos_nonneg; lia|apply Z.pow_le_mono_r; lia]). set (b := phys / 4096). assert (Eb : b = qo * 2 ^ o) by (subst b; rewrite Q2; rewrite Z.mul_assoc; by rewrite Z.div_mul).
  assert (Ephys : phys = b * 4096) by (rewrite Q2, Eb; lia). rewrite Z.shiftl_1_l.
  assert (Hin : forall i, within b o i -> base + p <= i * 4096 < base + p + 2 ^ o * 4096 /\ base + p <= i * 4096 < base + len) by (intros i Hi; unfold within in Hi; lia).
  destruct (seed_step U D m0 m fl b o S) as (n & s & t & fl1 & En & Es & Et & S1); [lia|by exists qo|lia|lia|lia|intros i Hi; split; [apply HU|apply Hd]; destruct (Hin i Hi); lia|].
  unfold PAGE_SIZE in En, Et. rewrite <- Ephys in En. rewrite En, ret_bind, Es, ret_bind, Et, ret_bind. rewrite (u64_id (p + _)) by lia.
  destruct (IH (p + 2 ^ o * 4096) _ _ _ (u64 (usable + 2 ^ o * 4096)) S1) as (m' & fl' & u' & -> & S'); [lia|exists (qp + 2 ^ o); lia|lia|intros i Hi [HD|W]; [by apply (Hd i); [lia|]|destruct (Hin i W); lia]|].
  exists m', fl', u'. split; [done|]. eapply seeding_ext; [|exact S']. intros i Hi. unfold good, PAGE_SIZE. split.
  - intros [[HD|W]|[H1 H2]]; [by left| |right; split; [lia|done]]. right. destruct (Hin i W) as [H1 H2]. split; [lia|]. split; [lia|]. lia.
  - intros [HD|[H1 H2]]; [by left; left|]. destruct (decide (i * 4096 < base + p + 2 ^ o * 4096)); [left; right; unfold within; lia|right; split; [lia|done]].
Qed.

(** ** The memory map *)

Definition in_entry (e : memmap_entry) (i : Z) : Prop := e_base e <= i * PAGE_SIZE < e_base e + e_length e.
Definition usable_page (es : list memmap_entry) (i : Z) : Prop := exists e, e ∈ es /\ e_type e = USABLE /\ in_entry e i.

(** What the boot protocol promises of usable entries: they consist of whole
    pages and do not overlap. *)
Fixpoint memmap_ok (es : list memmap_entry) : Prop :=
  match es with
  | [] => True
  | e :: es => (e_type e = USABLE -> (PAGE_SIZE | e_base e) /\ (PAGE_SIZE | e_length e) /\ 0 <= e_base e /\ 0 <= e_length e /\ forall i, in_entry e i -> ~ usable_page es i) /\ memmap_ok es
  end.
Definition inside (es : list memmap_entry) : Prop := forall e, e ∈ es -> e_type e = USABLE -> lowest * PAGE_SIZE <= e_base e /\ e_base e + e_length e <= highest * PAGE_SIZE.

Lemma usable_cons e es i : usable_page (e :: es) i <-> (e_type e = USABLE /\ in_entry e i) \/ usable_page es i.
Proof.
  split.
  - intros (e' & [->|He]%elem_of_cons & Ht & Hi); [by left|right; by exists e'].
  - intros [[Ht Hi]|(e' & He & Ht & Hi)]; [exists e; split; [by left|done]|exists e'; split; [by right|done]].
Qed.

Lemma seed_entries_ok U m0 meta meta_size : (PAGE_SIZE | meta) -> (PAGE_SIZE | meta_size) -> 0 <= meta -> 0 <= meta_size -> meta + meta_size <= highest * PAGE_SIZE ->
  forall es D m fl usable, memmap_ok es -> inside es -> (forall i, usable_page es i -> U i) -> seeding U D m0 m fl -> (forall i, usable_page es i -> ~ D i) ->
  exists m' fl' u', seed_entries lowest highest hhdm es meta meta_size m usable = Ret (m', u') /\ seeding U (fun i => D i \/ (usable_page es i /\ good meta meta_size i)) m0 m' fl'.
Proof.
  intros M1 M2 M3 M4 M5. induction es as [|e es IH]; intros D m fl usable Hok Hin HU S Hd; cbn [seed_entries].
  { exists m, fl, usable. split; [done|]. eapply seeding_ext; [|exact S]. intros i _. split; [by left|]. intros [?|[(e & He & _) _]]; [done|by apply elem_of_nil in He]. }
  destruct Hok as [He Hok]. unfold is_type. destruct (bool_decide (e_type e = USABLE)) eqn:Et; [apply bool_decide_eq_true in Et|apply bool_decide_eq_false in Et].
  - destruct (He Et) as (A1 & A2 & A3 & A4 & A5). destruct (Hin e ltac:(by left) Et) as [B1 B2]. assert (Hlen : 0 <= e_length e / PAGE_SIZE) by (apply Z.div_pos; [done|unfold PAGE_SIZE; lia]).
    destruct (seed_loop_ok U m0 (e_base e) (e_length e) meta meta_size (Datatypes.S (Z.to_nat (e_length e / PAGE_SIZE))) B1 B2 A1 A2 M1 M2 M3 M4 M5) with (p := 0) (D := D) (m := m) (fl := fl) (usable := usable) as (m1 & fl1 & u1 & -> & S1).
    + intros i Hi. apply HU, usable_cons. left. split; [done|]. unfold in_entry. lia.
    + done.
    + lia.
    + apply Z.divide_0_r.
    + destruct A2 as [q Eq]. rewrite Eq, Z.div_mul in * by (unfold PAGE_SIZE; lia). unfold PAGE_SIZE in *. lia.
    + intros i Hi. apply Hd, usable_cons. left. split; [done|]. unfold in_entry. lia.
    + rewrite ret_bind. cbn beta iota.
      destruct (IH _ m1 fl1 u1 Hok ltac:(intros e' He'; apply Hin; by right) ltac:(intros i Hi; apply HU, usable_cons; by right) S1) as (m' & fl' & u' & -> & S').
      { intros i Hi [HD|[Hb _]]; [by apply (Hd i); [apply usable_cons; right|]|]. apply (A5 i); [unfold in_entry; lia|done]. }
      exists m', fl', u'. split; [done|]. eapply seeding_ext; [|exact S']. intros i _. cbn beta. rewrite usable_cons. unfold in_entry. rewrite Z.add_0_r. tauto.
  - rewrite ret_bind. cbn beta iota. destruct (IH D m fl usable Hok ltac:(intros e' He'; apply Hin; by right) ltac:(intros i Hi; apply HU, usable_cons; by right) S) as (m' & fl' & u' & -> & S').
    { intros i Hi. apply Hd, usable_cons. by right. }
    exists m', fl', u'. split; [done|]. eapply seeding_ext; [|exact S']. intros i _. cbn beta. rewrite usable_cons. tauto.
Qed.

(** ** The zero page *)

Lemma seeding_safe U D m0 m fl : seeding U D m0 m fl -> length (cpu_nodes (topo m0)) = 64%nat -> pcp_caches m0 = replicate 64 [] -> zero_pool m0 = replicate 64 [] -> zero_page_phys m0 = 0 -> safe m fl.
Proof.
  intros [G1 G2 G3 G4 G5 G6 G9 G7 (G81 & G82 & G83 & G84 & G85)] H1 H2 H3 H4.
  assert (Hst : stacks (replicate 64 [])) by (split; [done|]; apply Forall_replicate; cbn; lia).
  constructor; try done.
  - by rewrite G6.
  - by rewrite G82, H2.
  - by rewrite G83, H3.
  - unfold cached. rewrite G82, G83, H2, H3. split; constructor.
  - left. congruence.
  - intros i Hi Hm. rewrite G3, Hm by done. done.
Qed.

Lemma pin_ok m fl cpu : safe m fl -> valid_cpu cpu -> zero_page_phys m = 0 -> (forall i, in_range i -> mbit (pm m) i = true -> ref m i = Some 0) ->
  exists m' fl', pin_zero_page lowest highest hhdm cpu m = Ret m' /\ safe m' fl' /\ managed (pm m') = managed (pm m) /\ reports (pm m') = reports (pm m) /\ topo m' = topo m /\ pcp_initialized m' = pcp_initialized m /\
    (forall i, in_range i -> mbit (pm m) i = true -> ref m' i = Some (if decide (i * PAGE_SIZE = zero_page_phys m') then UINT16_MAX else 0)).
Proof.
  intros S Hcpu Hz Hfree. unfold pin_zero_page. destruct (alloc_page_ok lowest highest hhdm Hcfg m fl cpu S Hcpu) as (zp & m1 & fl1 & -> & S1 & K1 & H). rewrite ret_bind. cbn beta iota. destruct H as [[-> R]|(b & -> & G & _)].
  - exists m1, fl1. split; [done|]. split; [done|]. destruct K1 as [K1 K2 K3 K4 K5]. repeat (split; [done|]). intros i Hi Hm. rewrite R by done. rewrite decide_False; [by apply Hfree|].
    rewrite K4, Hz. pose proof (v_zero _ _ _ _ _ (s_inv _ _ _ _ _ S) i Hi Hm). unfold PAGE_SIZE. lia.
  - destruct G as [(Hb & _ & Hlo & Hhi) G2 G3]. change (2 ^ 0) with 1 in Hhi. rewrite (proj2 (Z.eqb_neq _ 0)) by (unfold PAGE_SIZE; lia). assert (Hbr : in_range b) by (unfold PmmBuddy.in_range; lia).
    destruct (G2 b (within_first b 0 ltac:(lia))) as (Hmb & _ & Hr1). assert (Hmb1 : mbit (pm m1) b = true) by (unfold PmmBuddy.mbit in *; by rewrite (k_managed _ _ K1)).
    pose proof (taken_ref lowest highest hhdm m1 fl1 b 1 S1 Hbr Hmb1 Hr1 ltac:(done)) as T. fold (page_at b).
    destruct (zero_step lowest highest hhdm Hcfg m1 fl1 b S1 T) as (h & -> & S2). cbn [deref]. rewrite ret_bind. set (m2 := set_pm _ m1) in *. rewrite phys_pfn.
    destruct (put_ref_step lowest highest hhdm m2 fl1 b UINT16_MAX S2 T) as (m3 & E3 & S3 & K3 & R3 & O3 & C3 & Z3 & B3); [unfold UINT16_MAX; lia| |exact (not_zero_page lowest highest hhdm m1 fl1 b 1 S1 Hbr Hmb1 Hr1 ltac:(done))|].
    { right. intros Hin. apply (parked_ref lowest highest m1 b (proj2 (s_cached _ _ _ _ _ S1))) in Hin. congruence. }
    assert (E4 : put_refcount lowest b 0xFFFF (set_zero_page (b * PAGE_SIZE) m2) = Ret (set_zero_page (b * PAGE_SIZE) m3)).
    { unfold put_refcount in *. change (pm (set_zero_page (b * PAGE_SIZE) m2)) with (pm m2). change 0xFFFF with UINT16_MAX. destruct (arr_set (refcounts (pm m2)) (b - lowest) UINT16_MAX); [|done..].
      rewrite ret_bind in *. by injection E3 as <-. }
    rewrite E4. exists (set_zero_page (b * PAGE_SIZE) m3), fl1. split; [done|]. destruct K1 as [K11 K12 K13 K14 K15], K3 as [K31 K32 K33 K34 K35]. split; [|split; [cbn; by rewrite K32|split; [cbn; by rewrite K33|split; [cbn; by rewrite K31|split; [cbn; by rewrite K35|]]]]].
    + destruct S3 as [S31 S32 S33 S34 S35 S36 S37 S38 S39 S40]. constructor; try done. right. exists b. split; [done|]. split; [|done]. destruct T as (_ & Ht1 & Ht2). split; [done|].
      split; [unfold PmmBuddy.mbit in *; cbn; by rewrite K32|unfold PmmBuddy.ubit in *; cbn; by rewrite B3].
    + intros i Hi Hm. cbn [zero_page_phys set_zero_page]. change (ref (set_zero_page (b * PAGE_SIZE) m3) i) with (ref m3 i). destruct (decide (i = b)) as [->|Hne]; [by rewrite decide_True|].
      rewrite decide_False by (unfold PAGE_SIZE; lia). rewrite O3 by done. change (ref m2 i) with (ref m1 i). rewrite G3; [by apply Hfree|done|]. unfold within. change (2 ^ 0) with 1. lia.
Qed.

(** ** The memory of the boot loader *)

Definition reclaimable_page (es : list memmap_entry) (i : Z) : Prop := exists e, e ∈ es /\ e_type e = BOOTLOADER_RECLAIMABLE /\ in_entry e i.
Definition bounded_entries (es : list memmap_entry) : Prop := forall e, e ∈ es -> e_type e = BOOTLOADER_RECLAIMABLE -> 0 <= e_base e /\ 0 <= e_length e /\ e_base e + e_length e < 2 ^ 62.

(** The bits of the temporary bitmap stand for pages with [P]. *)
Definition bits_in (P : Z -> Prop) (temp : list Z) : Prop := bytes temp /\ page_count lowest highest <= bits temp /\ forall k, 0 <= k -> bit_at temp k = true -> in_range (k + lowest) /\ P (k + lowest).

Lemma mark_reclaimable_ok P es : forall temp, bounded_entries es -> (forall i, reclaimable_page es i -> P i) -> (forall e, e ∈ es -> e_type e = BOOTLOADER_RECLAIMABLE -> (PAGE_SIZE | e_base e)) -> bits_in P temp ->
  exists temp', mark_reclaimable lowest highest es temp = Ret temp' /\ bits_in P temp' /\ length temp' = length temp.
Proof.
  induction es as [|e es IH]; intros temp Hb HP Hal Ht; cbn [mark_reclaimable]; [by exists temp|]. pose proof Hcfg as [G1 G2 G3 _].
  assert (Hrest : forall t, bits_in P t -> length t = length temp -> exists temp', mark_reclaimable lowest highest es t = Ret temp' /\ bits_in P temp' /\ length temp' = length temp).
  { intros t Hbt Hl. destruct (IH t) as (t' & -> & ? & ?); [intros e' He'; apply Hb; by right|intros i (e' & He' & R); apply HP; exists e'; split; [by right|done]|intros e' He'; apply Hal; by right|done|].
    exists t'. repeat (split; [done|]). lia. }
  unfold is_type. destruct (bool_decide (e_type e = BOOTLOADER_RECLAIMABLE)) eqn:Et; [apply bool_decide_eq_true in Et|rewrite ret_bind; by apply Hrest].
  destruct (Hb e ltac:(by left) Et) as (A1 & A2 & A3). destruct (Hal e ltac:(by left) Et) as [q Eq]. destruct Ht as (T1 & T2 & T3).
  assert (Hset : forall s c, 0 <= s -> 0 <= c -> s + c < 2 ^ 62 -> (forall i, s <= i < s + c -> in_entry e i) -> exists t, pmm_bitmap_set_range lowest highest temp s c = Ret t /\ bits_in P t /\ length t = length temp).
  { intros s c Hs Hc Hsc Hi. destruct (set_range_any lowest highest temp s c T1) as (t & -> & B1 & B2 & B3); [lia|lia|lia|lia|unfold KERNEL_BASE, PAGE_SIZE in *; lia|exact T2|]. exists t. split; [done|]. split; [|done].
    split; [done|]. split; [unfold bits in *; by rewrite B2|]. intros k Hk Hbit. destruct (B3 k Hk Hbit) as [H|[H1 H2]]; [by apply T3|]. split; [unfold PmmBuddy.in_range; lia|]. apply HP. exists e. split; [by left|]. split; [done|]. by apply Hi. }
  unfold PAGE_SIZE in *. assert (Hd : forall x, 0 <= x -> x / 4096 * 4096 <= x /\ 0 <= x / 4096) by (intros x Hx; pose proof (Z.div_mod x 4096 ltac:(lia)); pose proof (Z.mod_pos_bound x 4096 ltac:(lia)); split; [lia|by apply Z.div_pos]).
  destruct (e_base e <? 0x100000) eqn:?; reify_bools.
  - destruct (0x100000 - e_base e >=? e_length e) eqn:?; reify_bools; [rewrite ret_bind; apply Hrest; [by split|done]|]. change (0x100000 / 4096) with 256.
    destruct (Hd (e_length e - (0x100000 - e_base e)) ltac:(lia)) as [D1 D2]. destruct (Hset 256 ((e_length e - (0x100000 - e_base e)) / 4096)) as (t & -> & Bt & Lt); [lia|lia|lia|intros i Hi; unfold in_entry, PAGE_SIZE; lia|].
    rewrite ret_bind. by apply Hrest.
  - destruct (Hd (e_length e) A2) as [D1 D2]. replace (e_base e / 4096) with q by (rewrite Eq, Z.div_mul; lia). destruct (Hset q (e_length e / 4096)) as (t & -> & Bt & Lt); [lia|lia|lia|intros i Hi; unfold in_entry, PAGE_SIZE; lia|]. rewrite ret_bind. by apply Hrest.
Qed.

(** Every page the bitmap stands for is in use, so no bit is left. *)
Lemma drop_used_ok bm k : forall temp, bytes temp -> Z.of_nat k <= bits temp -> bytes bm -> (forall j, 0 <= j < Z.of_nat k -> bit_at temp j = true -> j < bits bm /\ bit_at bm j = true) ->
  exists temp', drop_used k bm temp = Ret temp' /\ bytes temp' /\ length temp' = length temp /\ (forall j, 0 <= j < Z.of_nat k -> bit_at temp' j = false) /\ (forall j, Z.of_nat k <= j -> bit_at temp' j = bit_at temp j).
Proof.
  induction k as [|k IH]; intros temp Ht Hk Hb Hbits; cbn [drop_used]; [exists temp; split; [done|]; split; [done|]; split; [done|]; split; [lia|done]|].
  destruct (IH temp Ht ltac:(lia) Hb) as (t & -> & T1 & T2 & T3 & T4); [intros j Hj; apply Hbits; lia|]. rewrite ret_bind. assert (Hbt : bits t = bits temp) by (unfold bits; by rewrite T2).
  rewrite (pmm_bitmap_test_ok t (Z.of_nat k)) by (done || lia). rewrite ret_bind, T4 by lia. destruct (bit_at temp (Z.of_nat k)) eqn:E; cbn [negb].
  - destruct (Hbits (Z.of_nat k) ltac:(lia) E) as [H1 H2]. rewrite (pmm_bitmap_test_ok bm (Z.of_nat k)) by (done || lia). rewrite ret_bind, H2. destruct (pmm_bitmap_clear_ok t (Z.of_nat k) T1 ltac:(lia)) as (t' & -> & B1 & B2 & B3).
    exists t'. split; [done|]. split; [done|]. split; [congruence|]. split; intros j Hj; rewrite B3 by lia.
    + destruct (Z.of_nat k <=? j) eqn:?, (j <? Z.of_nat k + 1) eqn:?; reify_bools; cbn [andb]; try done; try lia. apply T3. lia.
    + destruct (j <? Z.of_nat k + 1) eqn:?; reify_bools; [lia|]. rewrite andb_false_r. apply T4. lia.
  - exists t. split; [done|]. split; [done|]. split; [done|]. split; intros j Hj; [|apply T4; lia]. destruct (decide (j = Z.of_nat k)) as [->|]; [rewrite T4 by lia; done|apply T3; lia].
Qed.

Lemma reclaim_none temp m usable k : forall idx, bytes temp -> 0 <= idx -> idx + Z.of_nat k <= bits temp -> (forall j, 0 <= j -> bit_at temp j = true -> bits temp <= j) -> reclaim_bits lowest highest hhdm k idx temp m usable = Ret (m, usable).
Proof.
  induction k as [|k IH]; intros idx Hb Hi Hk Hz; cbn [reclaim_bits]; [done|]. rewrite pmm_bitmap_test_ok by (done || lia). rewrite ret_bind.
  destruct (bit_at temp idx) eqn:E; [apply Hz in E; lia|]. apply IH; [done|lia|lia|done].
Qed.

Lemma protect_pages_ok fuel : forall m fl page limit, safe m fl -> 0 <= page -> limit < 2 ^ 63 -> (0 < fuel)%nat /\ limit - page <= (Z.of_nat fuel - 1) * PAGE_SIZE ->
  quietly lowest highest hhdm (protect_pages lowest highest fuel page limit m) m.
Proof.
  induction fuel as [|fuel IH]; intros m fl page limit S Hp Hl Hf; [lia|]. cbn [protect_pages]. unfold PAGE_SIZE in *. destruct (page <? limit) eqn:?; reify_bools; [|by apply (quietly_refl lowest highest hhdm m fl)].
  destruct (mark_used_ok lowest highest hhdm Hcfg m fl page 1 S) as (m1 & fl1 & -> & S1 & K1 & R1). rewrite ret_bind. apply (quietly_via lowest highest hhdm m m1); [done|done|].
  rewrite u64_id by lia. apply (IH m1 fl1); [done|lia|lia|lia].
Qed.
Lemma protect_entries_ok es phys end_ : forall m fl, safe m fl -> bounded_entries es -> 0 <= phys < 2 ^ 62 -> 0 <= end_ < 2 ^ 62 -> quietly lowest highest hhdm (protect_entries lowest highest es phys end_ m) m.
Proof.
  induction es as [|e es IH]; intros m fl S Hb Hp He; cbn [protect_entries]; [by apply (quietly_refl lowest highest hhdm m fl)|].
  assert (Hbs : bounded_entries es) by (intros e' He'; apply Hb; by right).
  assert (Hrest : forall m1 fl1, safe m1 fl1 -> keeps m m1 -> same_refs lowest highest m m1 -> quietly lowest highest hhdm (m0 ← Ret m1; protect_entries lowest highest es phys end_ m0) m).
  { intros m1 fl1 S1 K R. rewrite ret_bind. apply (quietly_via lowest highest hhdm m m1); [done|done|]. by apply (IH m1 fl1). }
  unfold is_type. destruct (bool_decide (e_type e = BOOTLOADER_RECLAIMABLE)) eqn:Et; [apply bool_decide_eq_true in Et|apply (Hrest m fl); [done|apply keeps_refl|done]].
  destruct (Hb e ltac:(by left) Et) as (A1 & A2 & A3). set (start := if e_base e >? phys then e_base e else phys). assert (Hst : 0 <= start < 2 ^ 62) by (subst start; destruct (_ >? _); lia).
  rewrite (u64_id (e_base e + e_length e)) by lia. set (limit := if _ >? end_ then end_ else _). assert (Hlm : limit < 2 ^ 62) by (subst limit; destruct (_ >? end_) eqn:?; reify_bools; lia).
  change (UINT64_MAX - (PAGE_SIZE - 1)) with (UINT64_MAX - (2 ^ 12 - 1)). change (start + PAGE_SIZE - 1) with (start + 2 ^ 12 - 1). destruct (round_up start 12) as [R1 _]; [lia..|]. set (st := Z.land _ _) in *.
  destruct (protect_pages_ok (Datatypes.S (Z.to_nat ((limit - st + PAGE_SIZE - 1) / PAGE_SIZE))) m fl st limit S) as (m1 & fl1 & -> & S1 & K1 & Rf1); [lia|lia| |by apply (Hrest m1 fl1)].
  unfold PAGE_SIZE. pose proof (Z.div_mod (limit - st + 4096 - 1) 4096 ltac:(lia)). pose proof (Z.mod_pos_bound (limit - st + 4096 - 1) 4096 ltac:(lia)). lia.
Qed.
Lemma protect_tables_ok es tables : forall m fl, safe m fl -> bounded_entries es -> Forall (fun '(phys, n) => 0 <= phys /\ 0 <= n /\ phys + n * PAGE_SIZE < 2 ^ 62) tables ->
  quietly lowest highest hhdm (protect_tables lowest highest (Some es) tables m) m.
Proof.
  induction tables as [|[phys n] tables IH]; intros m fl S Hb Ht; cbn [protect_tables]; [by apply (quietly_refl lowest highest hhdm m fl)|]. apply Forall_cons in Ht as [(H1 & H2 & H3) Ht].
  assert (Hq : quietly lowest highest hhdm (pmm_protect_reclaimable_range lowest highest (Some es) phys n m) m).
  { unfold pmm_protect_reclaimable_range. destruct (n =? 0); [by apply (quietly_refl lowest highest hhdm m fl)|]. unfold PAGE_SIZE in *. rewrite u64_id by lia. apply (protect_entries_ok es phys _ m fl S Hb); lia. }
  destruct Hq as (m1 & fl1 & -> & S1 & K1 & R1). rewrite ret_bind. apply (quietly_via lowest highest hhdm m m1); [done|done|]. by apply (IH m1 fl1).
Qed.

(** Bit [k] of the temporary bitmap is a page that the allocator does not manage,
    and such a page is marked as used ever since [pmm_init]. *)
Lemma reclaim_ok m fl cpu es tables usable : safe m fl -> valid_cpu cpu -> bounded_entries es -> (forall e, e ∈ es -> e_type e = BOOTLOADER_RECLAIMABLE -> (PAGE_SIZE | e_base e)) ->
  (forall i, reclaimable_page es i -> in_range i -> mbit (pm m) i = false) -> Forall (fun '(phys, n) => 0 <= phys /\ 0 <= n /\ phys + n * PAGE_SIZE < 2 ^ 62) tables ->
  exists m' fl', pmm_reclaim_bootloader lowest highest hhdm cpu (Some es) tables m usable = Ret (m', usable) /\ safe m' fl' /\ keeps m m'.
Proof.
  intros S Hcpu Hb Hal Hrec Ht. unfold pmm_reclaim_bootloader. assert (Hpc : 0 <= page_count lowest highest) by (destruct (cfg_low _ _ _ Hcfg); unfold page_count; lia).
  set (size := pmm_bitmap_size (page_count lowest highest)). destruct (bitmap_size_ok _ Hpc) as [Hs1 Hs2]. fold size in Hs1, Hs2. set (tc := (size + PAGE_SIZE - 1) / PAGE_SIZE).
  destruct (alloc_pages_ok lowest highest hhdm Hcfg m fl cpu tc S Hcpu) as (tp & m1 & fl1 & -> & S1 & K1 & Htp). rewrite ret_bind. cbn beta iota. destruct (tp =? 0) eqn:E0; [by exists m1, fl1|]. reify_bools.
  assert (Hsub : forall e, e ∈ take 128 es -> e ∈ es) by (intros e He; rewrite <- (take_drop 128 es); apply elem_of_app; by left).
  set (P := fun i => in_range i -> mbit (pm m) i = false).
  destruct (mark_reclaimable_ok P (take 128 es) (replicate (Z.to_nat size) 0)) as (t1 & -> & (T1 & T2 & T3) & T4).
  { intros e He. apply Hb. auto. } { intros i (e & He & R) Hi. apply Hrec; [|done]. exists e. split; [by apply Hsub|done]. } { intros e He. apply Hal. auto. }
  { split; [by apply bytes_replicate|]. split; [unfold bits; rewrite length_replicate; lia|]. intros k _. rewrite bit_at_zero. done. }
  rewrite ret_bind. destruct (protect_tables_ok es tables m1 fl1 S1 Hb Ht) as (m2 & fl2 & -> & S2 & K2 & R2). rewrite ret_bind. rewrite length_replicate in T4. assert (Hbt : bits t1 = size * 8) by (unfold bits; lia).
  destruct (c_bm _ _ _ _ _ (v_core _ _ _ _ _ (s_inv _ _ _ _ _ S2))) as [Hbm1 Hbm2].
  destruct (drop_used_ok (bitmap (pm m2)) (Z.to_nat (size * 8)) t1 T1 ltac:(lia) Hbm1) as (t2 & -> & D1 & D2 & D3 & _).
  { intros j Hj Hbit. destruct (T3 j ltac:(lia) Hbit) as [Hr Hp]. unfold page_count, PmmBuddy.in_range in *. split; [lia|]. pose proof (s_out _ _ _ _ _ S2 (j + lowest) Hr) as Hout. unfold PmmBuddy.ubit in Hout.
    replace (j + lowest - lowest) with j in Hout by lia. apply Hout. unfold PmmBuddy.mbit. rewrite (k_managed _ _ K2), (k_managed _ _ K1). by apply Hp. }
  rewrite ret_bind. assert (Hb2 : bits t2 = size * 8) by (unfold bits in *; lia). rewrite (reclaim_none t2 m2 usable) by (done || lia || (intros j Hj Hbit; destruct (decide (j < bits t2)); [rewrite D3 in Hbit by lia; done|lia])).
  rewrite ret_bind. cbn beta iota. assert (Htc : 0 <= tc) by (apply Z.div_pos; unfold PAGE_SIZE; lia).
  assert (Hptr : 0 <= tp) by (destruct Htp as [[-> _]|(b & -> & G & _)]; [lia|]; destruct (g_range _ _ _ _ _ _ G); unfold PAGE_SIZE; lia).
  destruct (free_pages_ok lowest highest hhdm Hcfg m2 fl2 tp tc S2 Hptr Htc) as (m3 & fl3 & -> & S3 & K3 & _). rewrite ret_bind. exists m3, fl3. split; [done|]. split; [done|].
  eapply keeps_trans; [exact K1|]. by eapply keeps_trans.
Qed.

End Boot.

(** ** [pmm_init] *)

Lemma memmap_scan_ok es : forall lo hi total lo' hi' total', memmap_scan es lo hi total = (lo', hi', total') -> lo' <= lo /\ hi <= hi' /\
  forall e, e ∈ es -> e_type e = USABLE -> 0 <= e_base e -> 0 <= e_length e -> e_base e + e_length e + PAGE_SIZE < 2 ^ 64 -> lo' * PAGE_SIZE <= e_base e /\ e_base e + e_length e <= hi' * PAGE_SIZE.
Proof.
  induction es as [|e es IH]; intros lo hi total lo' hi' total' E; cbn [memmap_scan] in E.
  { injection E as <- <- <-. split; [lia|]. split; [lia|]. intros e He. by apply elem_of_nil in He. }
  assert (Hrest : forall lo1 hi1 t1, memmap_scan es lo1 hi1 t1 = (lo', hi', total') -> lo1 <= lo -> hi <= hi1 -> (e_type e = USABLE -> 0 <= e_base e -> 0 <= e_length e -> e_base e + e_length e + PAGE_SIZE < 2 ^ 64 ->
    lo1 * PAGE_SIZE <= e_base e /\ e_base e + e_length e <= hi1 * PAGE_SIZE) -> lo' <= lo /\ hi <= hi' /\
    forall e0, e0 ∈ e :: es -> e_type e0 = USABLE -> 0 <= e_base e0 -> 0 <= e_length e0 -> e_base e0 + e_length e0 + PAGE_SIZE < 2 ^ 64 -> lo' * PAGE_SIZE <= e_base e0 /\ e_base e0 + e_length e0 <= hi' * PAGE_SIZE).
  { intros lo1 hi1 t1 E1 H1 H2 He. destruct (IH _ _ _ _ _ _ E1) as (I1 & I2 & I3). split; [lia|]. split; [lia|]. intros e0 [->|H0]%elem_of_cons T A B C; [|by apply I3]. destruct (He T A B C). unfold PAGE_SIZE in *. lia. }
  destruct (bounded e) eqn:Eb; (eapply Hrest; [exact E| | |]).
  - destruct (_ <? lo) eqn:?; reify_bools; lia.
  - destruct (_ >? hi) eqn:?; reify_bools; lia.
  - intros T A B C. unfold PAGE_SIZE in *. rewrite (u64_id (e_base e + e_length e)), (u64_id (e_base e + e_length e + 4096 - 1)) by lia. pose proof (Z.div_mod (e_base e) 4096 ltac:(lia)). pose proof (Z.mod_pos_bound (e_base e) 4096 ltac:(lia)).
    pose proof (Z.div_mod (e_base e + e_length e + 4096 - 1) 4096 ltac:(lia)). pose proof (Z.mod_pos_bound (e_base e + e_length e + 4096 - 1) 4096 ltac:(lia)).
    clear E Hrest IH. destruct (_ <? lo) eqn:?, (_ >? hi) eqn:?; reify_bools; lia.
  - lia.
  - lia.
  - intros T. unfold bounded, is_type in Eb. rewrite T in Eb. done.
Qed.

Lemma find_metadata_ok size es meta : find_metadata size es = Some meta -> exists e, e ∈ es /\ e_type e = USABLE /\ e_base e = meta /\ size <= e_length e.
Proof.
  induction es as [|e es IH]; cbn [find_metadata]; [done|]. destruct (is_type USABLE e && (e_length e >=? size)) eqn:E.
  - intros [= <-]. apply andb_true_iff in E as [E1%bool_decide_eq_true E2]. reify_bools. exists e. split; [by left|done].
  - intros H. destruct (IH H) as (e' & He & R). exists e'. split; [by right|done].
Qed.

Lemma metadata_aligned pages : 0 <= pages < 2 ^ 52 -> 0 <= total_metadata_size pages /\ (PAGE_SIZE | total_metadata_size pages).
Proof.
  intros H. pose proof (bitmap_size_ok pages ltac:(lia)) as [H1 H2]. unfold total_metadata_size. change (UINT64_MAX - (PAGE_SIZE - 1)) with (UINT64_MAX - (2 ^ 12 - 1)). change PAGE_SIZE with (2 ^ 12) at 1 2.
  destruct (round_up (pmm_bitmap_size pages * 2 + pages * 2) 12) as [R1 R2]; [lia..|]. split; [lia|done].
Qed.

(** The tag of zone [n]. *)
Definition tag_of (tscs : list Z) (n : nat) : Z := Z.lor (u32 (nth n tscs 0)) 1.

(** The machine as the boot loader leaves it, with the readings [tscs] of the
    time stamp counter: RAM is readable and holds none of the new tags. *)
Record boot_ready (hhdm : Z) (tscs stale : list Z) (memmap : list memmap_entry) (m : machine) (lo hi total : Z) : Prop := mk_boot_ready {
  br_scan : memmap_scan memmap UINT64_MAX 0 0 = (lo, hi, total);
  br_cfg : config lo hi hhdm;
  br_map : memmap_ok memmap;
  br_top : forall e, e ∈ memmap -> e_type e = USABLE -> 0 <= e_base e /\ 0 <= e_length e /\ e_base e + e_length e + PAGE_SIZE < 2 ^ 64;
  br_layout : layout (pm m);
  br_zones : length (zones (pm m)) = 17%nat /\ length tscs = 17%nat;
  br_heads : heads_outside lo hi hhdm (pm m);
  br_tags : forall n n', (n < 17)%nat -> (n' < 17)%nat -> tag_of tscs n = tag_of tscs n' -> n = n';
  br_clean : forall i, lo <= i < hi -> usable_page memmap i -> exists h, mem (pm m) !! page_at hhdm i = Some h /\ forall n, (n < 17)%nat -> magic h <> tag_of tscs n;
  br_nodes : length (nodes (topo m)) = 16%nat /\ Forall (fun n => Forall (fun x => -1 <= x < 16) (fallback_order n)) (nodes (topo m)) /\ length (cpu_nodes (topo m)) = 64%nat;
  br_caches : pcp_caches m = replicate 64 [] /\ zero_pool m = replicate 64 [] /\ zero_page_phys m = 0 /\ pcp_initialized m = false;
  br_stale : Z.of_nat (length stale) = hi - lo /\ Forall (fun v => 0 <= v <= UINT16_MAX) stale }.

(** The zones are set up, [numa_init] those of the nodes and [pmm_init] the last. *)
Lemma zones_ready hhdm tscs stale memmap m lo hi total bm mg rf : boot_ready hhdm tscs stale memmap m lo hi total ->
  exists s16 s17, init_zones 0 (take 16 tscs) (pm m) = Ret s16 /\ buddy_zone_init B_ZONE (nth 16 tscs 0) (mk_pmm (mem s16) bm mg rf (zones s16) (reports s16)) = Ret s17 /\
    layout s17 /\ emptied s17 17 (tag_of tscs) /\ length (zones s17) = 17%nat /\ heads_outside lo hi hhdm s17 /\ bitmap s17 = bm /\ managed s17 = mg /\ refcounts s17 = rf /\ reports s17 = reports (pm m) /\
    (forall i, lo <= i < hi -> mem s17 !! page_at hhdm i = mem (pm m) !! page_at hhdm i).
Proof.
  intros B. destruct (br_zones _ _ _ _ _ _ _ _ B) as [Z1 Z2].
  destruct (init_zones_ok (tag_of tscs) (take 16 tscs) (pm m) 0 (br_layout _ _ _ _ _ _ _ _ B)) as (s16 & -> & L1 & E1 & Hl1 & Hh1 & _ & _ & _ & P1 & F1 & D1).
  { intros n z Hn. lia. } { rewrite length_take. lia. }
  { intros j t Hj. apply lookup_take_Some in Hj as [Hj _]. unfold tag_of. cbn. rewrite nth_lookup, Hj. done. }
  rewrite length_take, Z2 in E1. change (0 + 16 `min` 17)%nat with 16%nat in E1. set (s := mk_pmm (mem s16) bm mg rf (zones s16) (reports s16)).
  assert (Ls : layout s) by (destruct L1; by constructor). destruct (lookup_lt_is_Some_2 (zones s16) B_ZONE) as [z Ez]; [unfold B_ZONE; lia|].
  destruct (zone_init_ok s B_ZONE z (nth 16 tscs 0) 16 (tag_of tscs) Ls E1 Ez eq_refl eq_refl) as (s17 & E17 & L2 & E2 & Hl2 & Hh2 & B2 & M2 & R2 & P2 & F2 & D2).
  assert (Hheads : forall n z', zones s17 !! n = Some z' -> exists z0, zones (pm m) !! n = Some z0 /\ heads z' = heads z0).
  { intros n z' E. assert (Hz : (heads <$> zones s17) !! n = Some (heads z')) by (by rewrite list_lookup_fmap, E). rewrite Hh2 in Hz. cbn [zones s] in Hz. rewrite Hh1, list_lookup_fmap in Hz.
    destruct (zones (pm m) !! n) as [z0|]; [|done]. injection Hz as Hz. eauto. }
  assert (Hheads16 : forall n z', zones s16 !! n = Some z' -> exists z0, zones (pm m) !! n = Some z0 /\ heads z' = heads z0).
  { intros n z' E. assert (Hz : (heads <$> zones s16) !! n = Some (heads z')) by (by rewrite list_lookup_fmap, E). rewrite Hh1, list_lookup_fmap in Hz. destruct (zones (pm m) !! n) as [z0|]; [|done]. injection Hz as Hz. eauto. }
  pose proof (br_heads _ _ _ _ _ _ _ _ B) as Hout. exists s16, s17. split; [done|]. split; [done|]. split; [done|]. split; [done|]. split; [cbn in Hl2; lia|]. split; [|split; [done|split; [done|split; [done|split; [cbn in P2; congruence|]]]]].
  - intros n z' o E Ho. destruct (Hheads n z' E) as (z0 & E0 & Hh). unfold head_of. rewrite Hh. by apply (Hout n z0 o).
  - intros i Hi. rewrite F2; [cbn; apply F1|].
    + intros n z0 E0 (o & Ho & Ea). destruct (Hout n z0 o E0 Ho) as [_ Hp]. by apply (Hp i Hi).
    + intros n z' E (o & Ho & Ea). destruct (Hheads16 n z' E) as (z0 & E0 & Hh). destruct (Hout n z0 o E0 Ho) as [_ Hp]. apply (Hp i Hi). rewrite Ea. unfold head_of. by rewrite Hh.
Qed.

Lemma pmm_init_ok hhdm cpu tscs stale memmap m lo hi total meta (pages := hi - lo) : boot_ready hhdm tscs stale memmap m lo hi total -> valid_cpu cpu -> find_metadata (total_metadata_size pages) memmap = Some meta ->
  exists s m' fl usable, init_zones 0 (take 16 tscs) (pm m) = Ret s /\ pmm_init hhdm cpu (nth 16 tscs 0) stale memmap (set_pm s m) = Ret (Some (lo, hi, m', usable)) /\ safe lo hi hhdm m' fl /\ reports (pm m') = reports (pm m) /\
    (forall i, lo <= i < hi -> mbit lo (pm m') i = true <-> usable_page memmap i /\ good meta (total_metadata_size pages) i) /\
    (forall i, lo <= i < hi -> mbit lo (pm m') i = true -> ref lo m' i = Some (if decide (i * PAGE_SIZE = zero_page_phys m') then UINT16_MAX else 0)).
Proof.
  intros B Hcpu Hmeta. pose proof (br_cfg _ _ _ _ _ _ _ _ B) as Hcfg. pose proof Hcfg as [G1 G2 G3 _]. assert (Hpages : 0 <= pages < 2 ^ 36) by (subst pages; unfold KERNEL_BASE, PAGE_SIZE in *; lia).
  assert (Htp : table_pages lo hi = pages) by (unfold table_pages; destruct (hi >? lo) eqn:?; reify_bools; subst pages; lia).
  destruct (zones_ready hhdm tscs stale memmap m lo hi total (replicate (Z.to_nat (pmm_bitmap_size pages)) 255) (replicate (Z.to_nat (pmm_bitmap_size pages)) 0) stale B) as (s16 & s17 & E16 & Ez & L & Em & Hl & Ho & Bm & Mg & Rf & Rp & Fr). exists s16.
  pose proof (br_stale _ _ _ _ _ _ _ _ B) as [Hst1 Hst2]. pose proof (br_nodes _ _ _ _ _ _ _ _ B) as (N1 & N2 & N3). pose proof (br_caches _ _ _ _ _ _ _ _ B) as (K1 & K2 & K3 & K4).
  assert (V : inv lo hi hhdm s17 no_lists).
  { apply (pmm_boot_inv lo hi hhdm Hcfg s17 (tag_of tscs)); rewrite ?Hl; [done|done|apply (br_tags _ _ _ _ _ _ _ _ B)|done|by rewrite Bm|by rewrite Mg|by rewrite Rf]. }
  destruct (find_metadata_ok _ _ _ Hmeta) as (em & Hem & Tm & Bme & Lme). destruct (memmap_scan_ok _ _ _ _ _ _ _ (br_scan _ _ _ _ _ _ _ _ B)) as (_ & _ & Hscan).
  assert (Hin : inside lo hi memmap) by (intros e He T; destruct (br_top _ _ _ _ _ _ _ _ B e He T) as (? & ? & ?); by apply Hscan).
  destruct (metadata_aligned pages ltac:(lia)) as [Q1 Q2]. destruct (Hin em Hem Tm) as [I1 I2].
  assert (Hmal : (PAGE_SIZE | meta)) by (rewrite <- Bme; clear -Hem Tm B; pose proof (br_map _ _ _ _ _ _ _ _ B) as Hok; clear B; induction memmap as [|e es IH]; [by apply elem_of_nil in Hem|]; destruct Hok as [H1 H2]; apply elem_of_cons in Hem as [->|Hem]; [by apply H1|by apply IH]).
  unfold pmm_init. rewrite (br_scan _ _ _ _ _ _ _ _ B), Htp, Hmeta. cbn [pm set_pm]. rewrite Ez, ret_bind. set (m1 := set_pm s17 (set_pm s16 m)).
  assert (S0 : seeding lo hi hhdm (usable_page memmap) (fun _ => False) m1 m1 no_lists).
  { assert (Hmb : forall i, mbit lo s17 i = false) by (intros i; unfold mbit; rewrite Mg; apply bit_at_zero). constructor; try done.
    - intros i Hi. cbn. rewrite Hmb. done.
    - intros i Hi. cbn. rewrite Hmb. unfold ubit. rewrite Bm. apply bit_at_ones. pose proof (bitmap_size_ok pages ltac:(lia)). unfold in_range in Hi. lia.
    - intros id Hid. cbn. apply lookup_lt_is_Some_2. lia.
    - intros i v Hi Hv. unfold ref in Hv. cbn in Hv. rewrite Rf in Hv. rewrite Forall_forall in Hst2. apply Hst2. by eapply list_elem_of_lookup_2.
    - intros i Hi Hu _. destruct (br_clean _ _ _ _ _ _ _ _ B i Hi Hu) as (h & Eh & Hc). exists h. cbn. rewrite Fr by done. split; [done|]. intros n z E. pose proof (lookup_lt_Some _ _ _ E) as Hlt. rewrite Hl in Hlt.
      destruct (Em n z Hlt E) as (_ & _ & ->). by apply Hc. }
  destruct (seed_entries_ok lo hi hhdm Hcfg (usable_page memmap) m1 meta (total_metadata_size pages) Hmal Q2 ltac:(unfold PAGE_SIZE in *; lia) Q1 ltac:(lia) memmap _ m1 no_lists 0 (br_map _ _ _ _ _ _ _ _ B) Hin ltac:(done) S0 ltac:(tauto)) as (m2 & fl2 & u2 & -> & S2).
  rewrite ret_bind. cbn beta iota. pose proof (seeding_safe lo hi hhdm _ _ m1 m2 fl2 S2 N3 K1 K2 K3) as Sf. pose proof (g_rest _ _ _ _ _ _ _ _ S2) as (W1 & W2 & W3 & W4 & W5).
  destruct (pin_ok lo hi hhdm Hcfg m2 fl2 cpu Sf Hcpu) as (m3 & fl3 & -> & S3 & M3 & P3 & _ & _ & R3).
  - rewrite W4. exact K3.
  - intros i Hi Hm. unfold ref. apply (v_refs _ _ _ _ _ (g_inv _ _ _ _ _ _ _ _ S2)); [done|done|]. rewrite (g_used _ _ _ _ _ _ _ _ S2 i Hi), Hm. done.
  - rewrite ret_bind. exists m3, fl3, u2. split; [done|]. split; [done|]. split; [done|]. split; [rewrite P3, W5; exact Rp|]. assert (Hmm : forall i, mbit lo (pm m3) i = mbit lo (pm m2) i) by (intros i; unfold mbit; by rewrite M3). split.
    + intros i Hi. rewrite Hmm, (g_managed _ _ _ _ _ _ _ _ S2 i Hi). tauto.
    + intros i Hi Hm. rewrite Hmm in Hm. by apply R3.
Qed.

End PmmBootSafe.
