(* ===== verification/PmmCalls.v ===== *)
(** PmmCalls: sequences of calls to the page allocator, against an abstract
    allocator that has nothing but a reference count per page. *)

From S2P Require Import Prelude Pmm PmmLists PmmBuddy PmmApi PmmSafe PmmBoot PmmBootSafe.
From stdpp Require Import list_relations.
#[local] Open Scope Z_scope.

Module PmmCalls.
Import Pmm PmmLists PmmBuddy PmmApi PmmSafe PmmBoot PmmBootSafe.

(** The calls of the kernel, and what the owner of a page may do to it. *)
Inductive call :=
  | AllocPage (cpu : option Z) | AllocPages (cpu : option Z) (count : Z) | AllocNode (count node_id nodemask : Z) | AllocRange (cpu : option Z) (count min max : Z)
  | AllocHuge (cpu : option Z) | AllocHugeNode (node_id : Z) | AllocZeroed (cpu : option Z)
  | Incref (ptr : Z) | Decref (cpu : option Z) (ptr : Z) | FreePages (ptr count : Z)
  | MarkUsed (ptr count : Z) | DrainLocal (cpu : option Z) | DrainAll (cpu : option Z) | ZeroRefill (cpu : option Z) (max_pages : Z) | PcpInit
  | OwnerWrite (i : Z) (h : hdr).

Section Calls.
Context (lowest highest hhdm : Z).
Notation in_range := (in_range lowest highest).
Notation mbit := (mbit lowest).
Notation safe := (safe lowest highest hhdm).
Notation ref := (ref lowest).

Definition no_result (r : outcome machine) : outcome (Z * machine) := m ← r; Ret (0, m).
Definition exec (c : call) (m : machine) : outcome (Z * machine) :=
  match c with
  | AllocPage cpu => pmm_alloc_page lowest highest hhdm cpu m
  | AllocPages cpu count => pmm_alloc_pages lowest highest hhdm cpu count m
  | AllocNode count id mask => pmm_alloc_pages_nodemask lowest highest hhdm count id mask m
  | AllocRange cpu count min max => pmm_alloc_pages_range lowest highest hhdm cpu count min max m
  | AllocHuge cpu => pmm_alloc_huge_page lowest highest hhdm cpu m
  | AllocHugeNode id => pmm_alloc_huge_page_node lowest highest hhdm id m
  | AllocZeroed cpu => pmm_alloc_zeroed_page lowest hhdm cpu m
  | Incref p => no_result (pmm_incref lowest highest p m)
  | Decref cpu p => no_result (pmm_decref lowest highest hhdm cpu p m)
  | FreePages p count => no_result (pmm_free_pages lowest highest hhdm p count m)
  | MarkUsed p count => no_result (pmm_mark_used lowest highest p count m)
  | DrainLocal cpu => no_result (pmm_pcp_drain_local lowest highest hhdm cpu m)
  | DrainAll cpu => no_result (pmm_pcp_drain_all lowest highest hhdm cpu m)
  | ZeroRefill cpu n => no_result (pmm_zero_pool_refill lowest highest hhdm cpu n m)
  | PcpInit => Ret (0, pmm_pcp_init m)
  | OwnerWrite i h => Ret (0, owner_write hhdm i h m)
  end.

(** Arguments are not negative, a lower bound leaves room for the largest block
    below 2^64, and owners write only to pages they hold and do not forge tags. *)
Definition legal (m : machine) (c : call) : Prop :=
  match c with
  | AllocPage cpu | AllocPages cpu _ | AllocHuge cpu | AllocZeroed cpu | Decref cpu _ | DrainLocal cpu | DrainAll cpu => valid_cpu cpu
  | AllocRange cpu count min _ => valid_cpu cpu /\ 0 <= count /\ 0 <= min /\ min + 2 ^ 32 <= 2 ^ 64
  | FreePages ptr count => 0 <= ptr /\ 0 <= count
  | ZeroRefill cpu n => valid_cpu cpu /\ 0 <= n
  | OwnerWrite i h => in_range i /\ mbit (pm m) i = true /\ (exists v, ref m i = Some v /\ v <> 0) /\ forall n z, zones (pm m) !! n = Some z -> magic h <> zmagic z
  | AllocNode _ _ _ | AllocHugeNode _ | Incref _ | MarkUsed _ _ | PcpInit => True
  end.

(** The abstract allocator: [R] are the counts before a call and [R'] after it. *)
Definition handed (o : Z) (P : Z -> Prop) (R R' : Z -> option Z) (res : Z) : Prop :=
  res = 0 /\ (forall i, in_range i -> R' i = R i) \/
  exists b, res = b * PAGE_SIZE /\ 0 < b /\ (2 ^ o | b) /\ lowest <= b /\ b + 2 ^ o <= highest /\ P b /\
    forall i, in_range i -> if decide (within b o i) then R i = Some 0 /\ R' i = Some 1 else R' i = R i.
Definition kept (R R' : Z -> option Z) : Prop := forall i, in_range i -> R' i = R i.

Definition spec (c : call) (m : machine) (R R' : Z -> option Z) (res : Z) : Prop :=
  match c with
  | AllocPage _ | AllocZeroed _ => handed 0 (fun _ => True) R R' res
  | AllocPages _ count | AllocNode count _ _ => handed (pmm_get_order count) (fun _ => True) R R' res
  | AllocRange _ count min max => handed (pmm_get_order count) (between count min max) R R' res
  | AllocHuge _ | AllocHugeNode _ => handed 9 (fun _ => True) R R' res
  | Incref ptr => exists b, page_refs lowest highest ptr m = Ret b /\ forall j, in_range j -> R' j = if decide (j = ptr / PAGE_SIZE) then (if b then incr else id) <$> R j else R j
  | Decref _ ptr => exists b, page_refs lowest highest ptr m = Ret b /\ forall j, in_range j -> R' j = if decide (j = ptr / PAGE_SIZE) then (if b then decr else id) <$> R j else R j
  | FreePages ptr count =>
    kept R R' /\ ~ (exists o b, freeable lowest highest m ptr count o b) \/
    exists o b, freeable lowest highest m ptr count o b /\ forall j, in_range j -> R' j = if decide (within b o j) then decr <$> R j else R j
  | MarkUsed _ _ | DrainLocal _ | DrainAll _ | ZeroRefill _ _ | PcpInit | OwnerWrite _ _ => kept R R'
  end.

Context (Hcfg : config lowest highest hhdm).

(** One call: it returns, keeps the invariant and does what the abstract
    allocator does. *)
Definition steps (c : call) (m : machine) : Prop := exists res m' fl', exec c m = Ret (res, m') /\ safe m' fl' /\ spec c m (ref m) (ref m') res /\
  managed (pm m') = managed (pm m) /\ topo m' = topo m /\ zero_page_phys m' = zero_page_phys m /\ reports (pm m') = reports (pm m).

Lemma handed_got m m' o b P : got lowest highest m m' o b -> P b -> handed o P (ref m) (ref m') (b * PAGE_SIZE).
Proof.
  intros [(G1 & G2 & G3 & G4) G5 G6] HP. right. exists b. repeat (split; [done|]). intros i Hi. destruct (decide _) as [W|W]; [|by apply G6]. by destruct (G5 i W) as (_ & ? & ?).
Qed.
Lemma gives_steps c m o P : (forall R R' res, handed o P R R' res -> spec c m R R' res) -> gives lowest highest hhdm (exec c m) m o P -> steps c m.
Proof.
  intros Hs (p & m' & fl' & E & S & [K1 K2 K3 K4 K5] & H). exists p, m', fl'. split; [done|]. split; [done|]. split; [|done]. apply Hs. destruct H as [[-> R]|(b & -> & G & HP)]; [by left|by apply handed_got].
Qed.
Lemma quietly_steps c m r : exec c m = no_result r -> (forall R R' res, kept R R' -> spec c m R R' res) -> quietly lowest highest hhdm r m -> steps c m.
Proof.
  intros E Hs (m' & fl' & -> & S & [K1 K2 K3 K4 K5] & R). unfold no_result in E. rewrite ret_bind in E. exists 0, m', fl'. split; [done|]. split; [done|]. split; [|done]. by apply Hs.
Qed.
Lemma counts_steps c m r i f : exec c m = no_result r -> (forall R R' res, (forall j, in_range j -> R' j = if decide (j = i) then f <$> R j else R j) -> spec c m R R' res) ->
  counts lowest highest hhdm r m i f -> steps c m.
Proof.
  intros E Hs (m' & fl' & -> & S & [K1 K2 K3 K4 K5] & R). unfold no_result in E. rewrite ret_bind in E. exists 0, m', fl'. split; [done|]. split; [done|]. split; [|done]. by apply Hs.
Qed.

Lemma call_ok m fl c : safe m fl -> legal m c -> steps c m.
Proof.
  intros S L. destruct c; cbn [legal] in L.
  - apply (gives_steps _ m 0 (fun _ => True)); [done|]. by apply (alloc_page_ok lowest highest hhdm Hcfg m fl).
  - apply (gives_steps _ m (pmm_get_order count) (fun _ => True)); [done|]. by apply (alloc_pages_ok lowest highest hhdm Hcfg m fl).
  - apply (gives_steps _ m (pmm_get_order count) (fun _ => True)); [done|]. by apply (nodemask_ok lowest highest hhdm Hcfg m fl).
  - apply (gives_steps _ m (pmm_get_order count) (between count min max)); [done|]. destruct L as (? & ? & ? & ?). by apply (pages_range_ok lowest highest hhdm Hcfg m fl).
  - apply (gives_steps _ m 9 (fun _ => True)); [done|]. by apply (alloc_huge_ok lowest highest hhdm Hcfg m fl).
  - apply (gives_steps _ m 9 (fun _ => True)); [done|]. by apply (alloc_huge_node_ok lowest highest hhdm Hcfg m fl).
  - apply (gives_steps _ m 0 (fun _ => True)); [done|]. by apply (zeroed_ok lowest highest hhdm Hcfg m fl).
  - destruct (incref_ok lowest highest hhdm m fl ptr S) as (b & Eb & H). apply (counts_steps _ m (pmm_incref lowest highest ptr m) (ptr / PAGE_SIZE) (if b then incr else id)); [done| |done]. intros R R' res HR. by exists b.
  - destruct (decref_ok lowest highest hhdm Hcfg m fl cpu ptr S L) as (b & Eb & H).
    apply (counts_steps _ m (pmm_decref lowest highest hhdm cpu ptr m) (ptr / PAGE_SIZE) (if b then decr else id)); [done| |done]. intros R R' res HR. by exists b.
  - destruct L as [L1 L2]. destruct (free_pages_ok lowest highest hhdm Hcfg m fl ptr count S L1 L2) as (m' & fl' & E & S' & [K1 K2 K3 K4 K5] & H). exists 0, m', fl'. cbn [exec]. rewrite E. split; [done|]. split; [done|]. done.
  - apply (quietly_steps _ m (pmm_mark_used lowest highest ptr count m)); [done|done|]. by apply (mark_used_ok lowest highest hhdm Hcfg m fl).
  - apply (quietly_steps _ m (pmm_pcp_drain_local lowest highest hhdm cpu m)); [done|done|]. by apply (drain_local_ok lowest highest hhdm Hcfg m fl).
  - apply (quietly_steps _ m (pmm_pcp_drain_all lowest highest hhdm cpu m)); [done|done|]. by apply (drain_all_ok lowest highest hhdm Hcfg m fl).
  - destruct L as [L1 L2]. apply (quietly_steps _ m (pmm_zero_pool_refill lowest highest hhdm cpu max_pages m)); [done|done|]. by apply (zero_refill_ok lowest highest hhdm Hcfg m fl).
  - destruct (pcp_init_ok lowest highest hhdm m fl S) as (S' & R & E). exists 0, (pmm_pcp_init m), fl. split; [done|]. split; [done|]. split; [done|]. by rewrite E.
  - destruct L as (Hi & Hm & (v & Hv & Hnz) & Hh). exists 0, (owner_write hhdm i h m), fl. split; [done|]. split; [|done]. apply (write_step lowest highest hhdm Hcfg); [done| |done].
    by apply (taken_ref lowest highest hhdm m fl i v).
Qed.

(** The states that sequences of calls lead to. *)
Inductive reachable (m0 : machine) : machine -> Prop :=
  | reach_start : reachable m0 m0
  | reach_call m c res m' : reachable m0 m -> legal m c -> exec c m = Ret (res, m') -> reachable m0 m'.

Lemma reach_ok m0 fl0 m : safe m0 fl0 -> reachable m0 m -> exists fl, safe m fl /\ managed (pm m) = managed (pm m0) /\ reports (pm m) = reports (pm m0) /\ zero_page_phys m = zero_page_phys m0.
Proof.
  intros S0 R. induction R as [|m c res m' R IH L E]; [by exists fl0|]. destruct IH as (fl & S & Hm & Hr & Hz). destruct (call_ok m fl c S L) as (res1 & m1 & fl1 & E1 & S1 & _ & Hm1 & _ & Hz1 & Hr1).
  rewrite E in E1. injection E1 as <- <-. exists fl1. split; [done|]. split; [congruence|]. split; congruence.
Qed.

End Calls.
End PmmCalls.
