(* ===== verification/PmmClaims.v ===== *)
(** PmmClaims: what holds of the physical memory allocator, with the example of a
    machine of twenty pages. *)

From S2P Require Import Prelude Pmm PmmLists PmmBuddy PmmApi PmmSafe PmmBoot PmmBootSafe PmmCalls.
From stdpp Require Import list_relations.
#[local] Open Scope Z_scope.

Module PmmClaims.
Import Pmm PmmLists PmmBuddy PmmApi PmmSafe PmmBoot PmmBootSafe PmmCalls.

(** ** A small machine

    Sixteen usable pages from 1 MB on and four of the boot loader; the first page
    is taken by the allocator's tables. *)

Definition ex_hhdm : Z := KERNEL_BASE.
Definition ex_heads (n : Z) : Z := 0xFFFFFFFF80000000 + 4096 * n.
Definition ex_memmap : list memmap_entry := [mk_entry 0x100000 0x10000 USABLE; mk_entry 0x110000 0x4000 BOOTLOADER_RECLAIMABLE].
Definition ex_tscs : list Z := (fun n => 2 * n + 1) <$> seqZ 0 17.
Definition ex_addrs : list Z := flat_map (fun n => (fun o => ex_heads n + 16 * o) <$> seqZ 0 20) (seqZ 0 17) ++ ((fun i => i * 4096 + ex_hhdm) <$> seqZ 256 20).
Definition ex_mem : gmap Z hdr := list_to_map ((fun a => (a, zero_hdr)) <$> ex_addrs).
Definition ex_zone (n : nat) : zone := mk_zone (ex_heads (Z.of_nat n)) [] 0 0 0 0 (replicate 64 None).
Definition ex_pmm : pmm := mk_pmm ex_mem [] [] [] (ex_zone <$> seq 0 17) 0.
Definition ex_node : numa_node := mk_node false 0 0 0 0 0 0 (replicate 16 20) (replicate 16 NUMA_NO_NODE).
Definition ex_node0 : numa_node := mk_node true 0 0 0 0 1 1 (replicate 16 20) (0 :: replicate 15 NUMA_NO_NODE).
Definition ex_topo : topology := mk_topology (ex_node0 :: replicate 15 ex_node) [] (replicate 64 0) (replicate 256 0) 1.
Definition ex_machine : machine := mk_machine ex_pmm ex_topo false (replicate 64 []) (replicate 64 []) 0 0 0 0 0.
Definition ex_stale : list Z := replicate 20 7.

Lemma ex_mem_Some a : a ∈ ex_addrs -> ex_mem !! a = Some zero_hdr.
Proof.
  unfold ex_mem. induction ex_addrs as [|x l IH]; [by intros ?%elem_of_nil|]. cbn. intros [->|H]%elem_of_cons; [apply lookup_insert_eq|].
  destruct (decide (a = x)) as [->|Hne]; [apply lookup_insert_eq|]. rewrite lookup_insert_ne by done. by apply IH.
Qed.
Lemma ex_head_in n o : 0 <= n < 17 -> 0 <= o < 20 -> ex_heads n + 16 * o ∈ ex_addrs.
Proof.
  intros Hn Ho. unfold ex_addrs. apply elem_of_app. left. apply list_elem_of_In, in_flat_map. exists n. split; [apply list_elem_of_In, elem_of_seqZ; lia|].
  apply list_elem_of_In, list_elem_of_fmap. exists o. split; [done|]. apply elem_of_seqZ. lia.
Qed.
Lemma ex_page_in i : 256 <= i < 276 -> i * 4096 + ex_hhdm ∈ ex_addrs.
Proof. intros Hi. unfold ex_addrs. apply elem_of_app. right. apply list_elem_of_fmap. exists i. split; [done|]. apply elem_of_seqZ. lia. Qed.
Lemma ex_zone_inv n z : zones ex_pmm !! n = Some z -> (n < 17)%nat /\ z = ex_zone n.
Proof. cbn [zones ex_pmm]. rewrite list_lookup_fmap. intros (k & Hk & ->)%fmap_Some. apply lookup_seq in Hk as [-> Hk]. done. Qed.
Lemma ex_tag n : (n < 17)%nat -> tag_of ex_tscs n = 2 * Z.of_nat n + 1.
Proof. intros Hn. do 17 (destruct n as [|n]; [reflexivity|]). lia. Qed.

Lemma ex_config : config 256 276 ex_hhdm.
Proof. constructor; [lia|vm_compute; done|unfold ex_hhdm; lia|]. exists 8589869056. reflexivity. Qed.

Lemma ex_usable i : usable_page ex_memmap i <-> 256 <= i < 272.
Proof.
  unfold ex_memmap. rewrite !usable_cons. unfold in_entry, PAGE_SIZE. cbn [e_type e_base e_length]. split.
  - intros [[_ H]|[[? _]|(e & He & _)]]; [lia|done|by apply elem_of_nil in He].
  - intros H. left. split; [done|lia].
Qed.

Lemma ex_ready : boot_ready ex_hhdm ex_tscs ex_stale ex_memmap ex_machine 256 276 0x14000.
Proof.
  pose proof ex_config as Hcfg. assert (Hpa : forall i, 256 <= i < 276 -> page_at ex_hhdm i = i * 4096 + ex_hhdm) by (intros i Hi; by rewrite (page_at_eq 256 276 ex_hhdm Hcfg i Hi)).
  constructor; try done.
  - split; [|split; [done|exact I]]. intros _. split; [by exists 256|]. split; [by exists 16|]. split; [done|]. split; [done|]. intros i Hi (e & [->|He]%elem_of_cons & Ht & _); [done|by apply elem_of_nil in He].
  - intros e [->|[->|He]%elem_of_cons]%elem_of_cons; [|done|by apply elem_of_nil in He]. intros _. cbn. unfold PAGE_SIZE. lia.
  - constructor.
    + intros n z o [Hn ->]%ex_zone_inv Ho. exists zero_hdr. apply ex_mem_Some. apply ex_head_in; [lia|done].
    + intros n z o n' z' o' [Hn ->]%ex_zone_inv [Hn' ->]%ex_zone_inv Ho Ho'. unfold head_of, ex_zone, ex_heads. cbn [heads]. lia.
    + intros n z [Hn ->]%ex_zone_inv. done.
  - intros n z o [Hn ->]%ex_zone_inv Ho. unfold head_of, ex_zone, ex_heads, KERNEL_BASE. cbn [heads]. split; [lia|]. intros i Hi. rewrite Hpa by done. unfold ex_hhdm, KERNEL_BASE, in_range in *. lia.
  - intros n n' Hn Hn'. rewrite !ex_tag by done. lia.
  - intros i Hi _. exists zero_hdr. rewrite Hpa by done. split; [by apply ex_mem_Some, ex_page_in|]. intros n Hn. rewrite ex_tag by done. cbn. lia.
  - split; [done|]. split; [|done]. cbn. apply Forall_cons. split; [cbn; repeat constructor; unfold NUMA_NO_NODE; lia|]. by repeat constructor.
  - split; [done|]. unfold ex_stale. apply Forall_replicate. unfold UINT16_MAX. lia.
Qed.

Definition ex_boot : outcome (option (Z * Z * machine * Z)) := s ← init_zones 0 (take 16 ex_tscs) ex_pmm; pmm_init ex_hhdm (Some 0) (nth 16 ex_tscs 0) ex_stale ex_memmap (set_pm s ex_machine).
(** 15 pages are known, one of them is the zero page. *)
Example ex_boot_pages : (r ← ex_boot; match r with Some (lo, hi, m, usable) => f ← pmm_get_free_pages m; Ret (lo, hi, usable, zero_page_phys m, f) | None => Fault end) = Ret (256, 276, 15 * 4096, 0x101000, 14).
Proof. vm_compute. reflexivity. Qed.

(** The machine after [numa_init] and [pmm_init]. *)
Lemma ex_booted : exists m fl, safe 256 276 ex_hhdm m fl /\ (forall i, 256 <= i < 276 -> mbit 256 (pm m) i = true <-> 257 <= i < 272) /\ reports (pm m) = 0 /\
  zero_page_phys m = 0x101000 /\ (forall i, 257 <= i < 272 -> ref 256 m i = Some (if decide (i * PAGE_SIZE = zero_page_phys m) then UINT16_MAX else 0)).
Proof.
  destruct (pmm_init_ok ex_hhdm (Some 0) ex_tscs ex_stale ex_memmap ex_machine 256 276 0x14000 0x100000 ex_ready) as (s & m & fl & u & E1 & E2 & S & Rp & Hm & Hr); [cbn; lia|reflexivity|].
  assert (Hz : zero_page_phys m = 0x101000).
  { pose proof ex_boot_pages as E. unfold ex_boot in E. change ex_pmm with (pm ex_machine) in E. rewrite E1, ret_bind, E2, ret_bind in E. destruct (pmm_get_free_pages m) as [f| | |]; [|done..]. rewrite ret_bind in E. congruence. }
  assert (Hiff : forall i, 256 <= i < 276 -> mbit 256 (pm m) i = true <-> 257 <= i < 272).
  { intros i Hi. rewrite Hm, ex_usable by done. unfold good. change (total_metadata_size (276 - 256)) with 4096. unfold PAGE_SIZE. lia. }
  exists m, fl. split; [done|]. split; [done|]. split; [done|]. split; [done|]. intros i Hi. apply Hr; [lia|]. apply Hiff; lia.
Qed.

(** ** The buddy allocator *)

Section Buddy.
Context (lowest highest hhdm : Z).
Notation in_range := (in_range lowest highest).
Notation mbit := (mbit lowest).
Notation ubit := (ubit lowest).
Notation inv := (inv lowest highest hhdm).

(** The state of page [i]: is it marked as used, and its reference count. *)
Definition page_state (s : pmm) (i : Z) : bool * option Z := (ubit s i, refcounts s !! Z.to_nat (i - lowest)).

(** What a caller gets with the block [b] of order [o]. *)
Definition block_taken (n : nat) (s s' : pmm) (fl fl' : lists) (o b : Z) : Prop :=
  inv s' fl' /\ 0 < b /\ (2 ^ o | b) /\ lowest <= b /\ b + 2 ^ o <= highest /\ managed s' = managed s /\ reports s' = reports s /\
  (forall i, in_range i -> if decide (within b o i) then mbit s i = true /\ ubit s i = false /\ page_state s' i = (true, Some 1) else page_state s' i = page_state s i) /\
  (forall i, in_range i -> ~ covered fl i -> mem s' !! page_at hhdm i = mem s !! page_at hhdm i) /\
  (exists k, buddy_zone_free_pages n s = Ret k /\ buddy_zone_free_pages n s' = Ret (k - 2 ^ o)) /\
  (forall n', n' <> n -> zones s' !! n' = zones s !! n').

Lemma allocated_taken n s s' fl fl' o b z : config lowest highest hhdm -> inv s fl -> zones s !! n = Some z -> allocated lowest highest hhdm n s s' fl fl' o b -> block_taken n s s' fl fl' o b.
Proof.
  intros Hcfg V Ez [A1 [B1 B2 B3 B4 B5 B6] (A31 & A32 & A33 & A34) A4 A5 A6]. unfold block_taken. do 7 (split; [done|]). split; [|split; [done|split; [|done]]].
  - intros i Hi. unfold page_state. rewrite B3, B4 by done. destruct (decide (within b o i)) as [W|W]; [|done]. by destruct (A4 i W).
  - destruct (B5 z Ez) as (z' & Ez' & _). exists (psum fl n). rewrite (zone_free_pages_ok lowest highest hhdm Hcfg s fl n z V Ez), (zone_free_pages_ok lowest highest hhdm Hcfg s' fl' n z' A1 Ez'), !length_free_set. by rewrite A6.
Qed.

(** [buddy_alloc_internal] on well formed zones returns NULL with nothing
    changed only if no list of this order or above has a block; otherwise it
    returns a block that is aligned to its size, whose pages were managed and
    free and are now used with one reference. No other page, no header outside
    the free blocks and no other zone changes, the invariant holds again and the
    zone's free count drops by the block's size. *)
Theorem buddy_alloc_spec n s fl z o : config lowest highest hhdm -> inv s fl -> zones s !! n = Some z -> 0 <= o ->
  buddy_alloc_internal lowest highest hhdm n o s = Ret (0, s) /\ (forall o', o <= o' < 20 -> fl n o' = []) \/
  exists s' fl' b, buddy_alloc_internal lowest highest hhdm n o s = Ret (b * PAGE_SIZE, s') /\ block_taken n s s' fl fl' o b.
Proof.
  intros Hcfg V Ez Ho. destruct (alloc_ok lowest highest hhdm Hcfg s fl n z o V Ez Ho) as [H|(s' & fl' & b & E & A)]; [by left|right]. exists s', fl', b. split; [done|]. by apply (allocated_taken _ _ _ _ _ _ _ z).
Qed.

(** [buddy_alloc_pages_range] returns a block of the least order that holds
    [count] pages, inside the bounds; it fails only if no free block contains an
    aligned place of that size between the bounds. *)
Theorem buddy_range_spec n s fl z count min max (o := pmm_get_order count) : config lowest highest hhdm -> inv s fl -> zones s !! n = Some z -> 0 < count -> 0 <= min -> min + 2 ^ 32 <= 2 ^ 64 ->
  buddy_alloc_pages_range lowest highest hhdm n count min max s = Ret (0, s) /\
    (forall p b k, o <= p < 20 -> b ∈ fl n p -> (2 ^ o | k) -> b <= k -> k + 2 ^ o <= b + 2 ^ p -> ~ (min <= k * PAGE_SIZE /\ (k + 2 ^ o) * PAGE_SIZE <= max)) \/
  exists s' fl' b, buddy_alloc_pages_range lowest highest hhdm n count min max s = Ret (b * PAGE_SIZE, s') /\ block_taken n s s' fl fl' o b /\
    count <= 2 ^ o /\ (forall p, 0 <= p < o -> 2 ^ p < count) /\ min <= b * PAGE_SIZE /\ (b + 2 ^ o) * PAGE_SIZE <= max.
Proof.
  intros Hcfg V Ez Hc H1 H2. destruct (get_order_ok count) as (_ & _ & Hleast). destruct (alloc_range_ok lowest highest hhdm Hcfg s fl n z count min max V Ez Hc H1 H2) as [[E H]|(s' & fl' & b & E & A & H3 & H4 & H5)].
  - left. split; [done|]. intros p b k Hp Hb D1 D2 D3 [D4 D5]. apply (H p b k Hp Hb). done.
  - right. exists s', fl', b. split; [done|]. split; [by apply (allocated_taken _ _ _ _ _ _ _ z)|]. done.
Qed.

(** [buddy_free_internal] on a used, managed, aligned block without references
    puts its pages back: they are free afterwards, no other page changes, nothing
    is reported, and the block that reaches the lists contains the freed one and
    has no free buddy left to merge with. A block that is not aligned to its size
    is reported and not freed. *)
Theorem buddy_free_spec n s fl z o b : config lowest highest hhdm -> inv s fl -> zones s !! n = Some z -> 0 <= o < 20 ->
  (~ (2 ^ o * PAGE_SIZE | b) -> buddy_free_internal lowest highest hhdm n b o s = Ret (report s)) /\
  ((2 ^ o | b) -> lowest <= b -> b + 2 ^ o <= highest -> (forall i, within b o i -> mbit s i = true /\ page_state s i = (true, Some 0)) ->
   exists s' fl', buddy_free_internal lowest highest hhdm n (b * PAGE_SIZE) o s = Ret s' /\ inv s' fl' /\ managed s' = managed s /\ reports s' = reports s /\
     (forall i, in_range i -> page_state s' i = if decide (within b o i) then (false, Some 0) else page_state s i) /\
     (forall i, in_range i -> ~ covered fl i -> ~ within b o i -> mem s' !! page_at hhdm i = mem s !! page_at hhdm i) /\
     (exists k, buddy_zone_free_pages n s = Ret k /\ buddy_zone_free_pages n s' = Ret (k + 2 ^ o)) /\
     (exists k p, k ∈ fl' n p /\ (forall i, within b o i -> within k p i) /\ (p < 19 -> Z.lxor k (2 ^ p) ∉ fl' n p))).
Proof.
  intros Hcfg V Ez Ho. split; [intros Hd; apply free_misaligned; [lia|]; by rewrite Z.pow_add_r by lia|]. intros Ha Hlo Hhi Hw.
  assert (Hrel : released lowest highest s o b) by (repeat (split; [done|]); intros i Hi; destruct (Hw i Hi) as [Hm Hp]; unfold page_state in Hp; by injection Hp as -> ->).
  destruct (free_ok lowest highest hhdm Hcfg s fl n z o b V Ez Hrel) as (s' & fl' & E & [R1 [B1 B2 B3 B4 B5 B6] R3 R4 R5]). exists s', fl'. do 4 (split; [done|]). split; [|split; [|split; [|done]]].
  - intros i Hi. unfold page_state. rewrite B3, B4 by done. destruct (decide (within b o i)) as [W|W]; [|done]. destruct (Hw i W) as [_ Hp]. unfold page_state in Hp. by injection Hp as _ ->.
  - intros i Hi H1 H2. apply R3; [done|tauto].
  - destruct (B5 z Ez) as (z' & Ez' & _). exists (psum fl n). rewrite (zone_free_pages_ok lowest highest hhdm Hcfg s fl n z V Ez), (zone_free_pages_ok lowest highest hhdm Hcfg s' fl' n z' R1 Ez'), !length_free_set. by rewrite R4.
Qed.

End Buddy.

(** The zones of the example. *)
Lemma ex_zones : exists s fl z, inv 256 276 ex_hhdm s fl /\ zones s !! 0%nat = Some z /\ reports s = 0.
Proof. destruct ex_booted as (m & fl & S & _ & R & _). destruct (s_zones _ _ _ _ _ S 0 ltac:(lia)) as [z Ez]. exists (pm m), fl, z. split; [apply (s_inv _ _ _ _ _ S)|done]. Qed.

Lemma buddy_alloc_spec_witness : exists s fl, inv 256 276 ex_hhdm s fl /\
  (buddy_alloc_internal 256 276 ex_hhdm 0 2 s = Ret (0, s) /\ (forall o', 2 <= o' < 20 -> fl 0%nat o' = []) \/
   exists s' fl' b, buddy_alloc_internal 256 276 ex_hhdm 0 2 s = Ret (b * PAGE_SIZE, s') /\ block_taken 256 276 ex_hhdm 0 s s' fl fl' 2 b).
Proof. destruct ex_zones as (s & fl & z & V & Ez & _). exists s, fl. split; [exact V|]. apply (buddy_alloc_spec 256 276 ex_hhdm 0 s fl z 2 ex_config V Ez). lia. Defined.

Lemma buddy_range_spec_witness : exists s fl, inv 256 276 ex_hhdm s fl /\
  (buddy_alloc_pages_range 256 276 ex_hhdm 0 3 0x104000 0x110000 s = Ret (0, s) \/
   exists s' b, buddy_alloc_pages_range 256 276 ex_hhdm 0 3 0x104000 0x110000 s = Ret (b * PAGE_SIZE, s') /\ 0x104000 <= b * PAGE_SIZE /\ (b + 4) * PAGE_SIZE <= 0x110000).
Proof.
  destruct ex_zones as (s & fl & z & V & Ez & _). exists s, fl. split; [exact V|].
  destruct (buddy_range_spec 256 276 ex_hhdm 0 s fl z 3 0x104000 0x110000 ex_config V Ez) as [[E _]|(s' & fl' & b & E & _ & _ & _ & H1 & H2)]; [lia|lia|lia|left; exact E|].
  right. exists s', b. split; [exact E|]. split; [exact H1|exact H2].
Defined.

(** The zero page, had its reference been dropped. *)
Lemma ex_dropped : exists s fl z, inv 256 276 ex_hhdm s fl /\ zones s !! 0%nat = Some z /\ mbit 256 s 257 = true /\ page_state 256 s 257 = (true, Some 0).
Proof.
  destruct ex_booted as (m & fl & S & Hm & _ & Hz & _). destruct (s_zones _ _ _ _ _ S 0 ltac:(lia)) as [z Ez]. destruct (s_zero _ _ _ _ _ S) as [H0|(i & Hi & T & Hr)]; [rewrite Hz in H0; done|].
  assert (i = 257) as -> by (rewrite Hz in Hi; unfold PAGE_SIZE in Hi; lia). pose proof (lookup_lt_Some _ _ _ Hr) as Hlt. destruct T as (_ & T1 & T2).
  exists (set_refcounts (<[1%nat := 0]> (refcounts (pm m))) (pm m)), fl, z. split; [|split; [done|split; [done|apply pair_equal_spec; split; [exact T2|by apply (list_lookup_insert_eq _ 1%nat 0)]]]].
  apply inv_refs; [apply (s_inv _ _ _ _ _ S)|apply length_insert|]. intros i Hi' Hmi Hui. unfold in_range in Hi'. apply list_lookup_insert_ne. intros E. assert (i = 257) as -> by lia. congruence.
Qed.

Lemma buddy_free_spec_witness : exists s fl s' fl', inv 256 276 ex_hhdm s fl /\ buddy_free_internal 256 276 ex_hhdm 0 (257 * PAGE_SIZE) 0 s = Ret s' /\ inv 256 276 ex_hhdm s' fl' /\ page_state 256 s' 257 = (false, Some 0).
Proof.
  destruct ex_dropped as (s & fl & z & V & Ez & Hm & Hp). exists s, fl. destruct (buddy_free_spec 256 276 ex_hhdm 0 s fl z 0 257 ex_config V Ez ltac:(lia)) as [_ H].
  destruct H as (s' & fl' & E & V' & _ & _ & P & _).
  - apply Z.divide_1_l.
  - lia.
  - change (2 ^ 0) with 1. lia.
  - intros i Hi. unfold within in Hi. change (2 ^ 0) with 1 in Hi. assert (i = 257) as -> by lia. split; [exact Hm|exact Hp].
  - exists s', fl'. split; [exact V|]. split; [exact E|]. split; [exact V'|]. rewrite P by (unfold in_range; lia). rewrite decide_True; [reflexivity|]. unfold within. change (2 ^ 0) with 1. lia.
Defined.

(** ** Boot *)

(** C33: after [numa_init] has set up the zones, [pmm_init] either finds no usable
    entry for its tables and halts, or it returns with the invariant of the whole
    allocator established: the pages it manages are exactly those of usable
    entries above 1 MB outside the tables, none of them has references but the
    zero page, which is pinned, and nothing is reported. *)
Theorem pmm_init_spec hhdm cpu tscs stale memmap m lo hi total : boot_ready hhdm tscs stale memmap m lo hi total -> valid_cpu cpu ->
  exists s, init_zones 0 (take 16 tscs) (pm m) = Ret s /\
  match find_metadata (total_metadata_size (hi - lo)) memmap with
  | None => pmm_init hhdm cpu (nth 16 tscs 0) stale memmap (set_pm s m) = Ret None
  | Some meta => exists m' fl usable, pmm_init hhdm cpu (nth 16 tscs 0) stale memmap (set_pm s m) = Ret (Some (lo, hi, m', usable)) /\ safe lo hi hhdm m' fl /\ reports (pm m') = reports (pm m) /\
      (forall i, lo <= i < hi -> mbit lo (pm m') i = true <-> usable_page memmap i /\ 0x100000 <= i * PAGE_SIZE /\ ~ (meta <= i * PAGE_SIZE < meta + total_metadata_size (hi - lo))) /\
      (forall i, lo <= i < hi -> mbit lo (pm m') i = true -> ref lo m' i = Some (if decide (i * PAGE_SIZE = zero_page_phys m') then UINT16_MAX else 0))
  end.
Proof.
  intros B Hcpu. destruct (find_metadata _ _) as [meta|] eqn:E.
  - destruct (pmm_init_ok hhdm cpu tscs stale memmap m lo hi total meta B Hcpu E) as (s & m' & fl & u & E1 & E2 & S & R & Hm & Hr). exists s. split; [done|]. by exists m', fl, u.
  - destruct (zones_ready hhdm tscs stale memmap m lo hi total [] [] [] B) as (s16 & _ & E16 & _). exists s16. split; [done|]. unfold pmm_init. rewrite (br_scan _ _ _ _ _ _ _ _ B).
    destruct (cfg_low _ _ _ (br_cfg _ _ _ _ _ _ _ _ B)) as [_ Hle]. assert (Htp : table_pages lo hi = hi - lo) by (unfold table_pages; destruct (hi >? lo) eqn:?; reify_bools; lia). by rewrite Htp, E.
Qed.

Lemma pmm_init_spec_witness : exists s m' fl usable, init_zones 0 (take 16 ex_tscs) (pm ex_machine) = Ret s /\
  pmm_init ex_hhdm (Some 0) (nth 16 ex_tscs 0) ex_stale ex_memmap (set_pm s ex_machine) = Ret (Some (256, 276, m', usable)) /\ safe 256 276 ex_hhdm m' fl.
Proof.
  destruct (pmm_init_spec ex_hhdm (Some 0) ex_tscs ex_stale ex_memmap ex_machine 256 276 0x14000 ex_ready) as (s & E & H); [cbn; lia|].
  change (find_metadata (total_metadata_size (276 - 256)) ex_memmap) with (Some 0x100000) in H. cbv iota beta in H. destruct H as (m' & fl & u & E2 & S & _).
  exists s, m', fl, u. split; [exact E|]. split; [exact E2|exact S].
Defined.

(** [pmm_reclaim_bootloader] never adds a page. Whatever calls were made since
    [pmm_init], and whatever page tables are active, it returns with the same
    managed pages and the same amount of usable memory, because the pages of the
    boot loader have been marked as used since [pmm_init] filled the bitmap. *)
Theorem pmm_reclaim_adds_nothing hhdm cpu tscs stale memmap m lo hi total meta m1 tables usable : boot_ready hhdm tscs stale memmap m lo hi total -> valid_cpu cpu ->
  find_metadata (total_metadata_size (hi - lo)) memmap = Some meta ->
  (forall e, e ∈ memmap -> e_type e = BOOTLOADER_RECLAIMABLE -> (PAGE_SIZE | e_base e) /\ 0 <= e_base e /\ 0 <= e_length e /\ e_base e + e_length e < 2 ^ 62 /\ forall i, in_entry e i -> ~ usable_page memmap i) ->
  Forall (fun '(phys, n) => 0 <= phys /\ 0 <= n /\ phys + n * PAGE_SIZE < 2 ^ 62) tables ->
  exists s m0 u0, init_zones 0 (take 16 tscs) (pm m) = Ret s /\ pmm_init hhdm cpu (nth 16 tscs 0) stale memmap (set_pm s m) = Ret (Some (lo, hi, m0, u0)) /\
    (reachable lo hi hhdm m0 m1 ->
     exists m2, pmm_reclaim_bootloader lo hi hhdm cpu (Some memmap) tables m1 usable = Ret (m2, usable) /\ managed (pm m2) = managed (pm m1) /\ topo m2 = topo m1 /\ reports (pm m2) = reports (pm m1)).
Proof.
  intros B Hcpu Hmeta Hent Ht. pose proof (br_cfg _ _ _ _ _ _ _ _ B) as Hcfg. destruct (pmm_init_ok hhdm cpu tscs stale memmap m lo hi total meta B Hcpu Hmeta) as (s & m0 & fl & u & E1 & E2 & S & R & Hm & Hr).
  exists s, m0, u. split; [done|]. split; [done|]. intros Hreach. destruct (reach_ok lo hi hhdm Hcfg m0 fl m1 S Hreach) as (fl1 & S1 & Hmg & _).
  destruct (reclaim_ok lo hi hhdm Hcfg m1 fl1 cpu memmap tables usable S1 Hcpu) as (m2 & fl2 & E & _ & [K1 K2 K3 K4 K5]).
  - intros e He T. destruct (Hent e He T) as (_ & ? & ? & ? & _). done.
  - intros e He T. by apply (Hent e He T).
  - intros i (e & He & T & Hi) Hir. unfold mbit. rewrite Hmg. apply not_true_iff_false. fold (mbit lo (pm m0) i). rewrite (Hm i Hir). intros [Hu _]. by apply (proj2 (proj2 (proj2 (proj2 (Hent e He T)))) i).
  - done.
  - by exists m2.
Qed.

Lemma pmm_reclaim_adds_nothing_witness : exists s m0 u0 m2, init_zones 0 (take 16 ex_tscs) (pm ex_machine) = Ret s /\
  pmm_init ex_hhdm (Some 0) (nth 16 ex_tscs 0) ex_stale ex_memmap (set_pm s ex_machine) = Ret (Some (256, 276, m0, u0)) /\
  pmm_reclaim_bootloader 256 276 ex_hhdm (Some 0) (Some ex_memmap) [(0x110000, 1)] m0 0 = Ret (m2, 0) /\ managed (pm m2) = managed (pm m0).
Proof.
  destruct (pmm_init_ok ex_hhdm (Some 0) ex_tscs ex_stale ex_memmap ex_machine 256 276 0x14000 0x100000 ex_ready) as (s' & m0' & _ & u0' & E1' & E2' & _); [cbn; lia|reflexivity|].
  destruct (pmm_reclaim_adds_nothing ex_hhdm (Some 0) ex_tscs ex_stale ex_memmap ex_machine 256 276 0x14000 0x100000 m0' [(0x110000, 1)] 0 ex_ready) as (s & m0 & u0 & E1 & E2 & H); [cbn; lia|reflexivity| | |].
  - intros e He T. apply elem_of_cons in He as [->|He]; [discriminate T|]. apply elem_of_cons in He as [->|He]; [|apply elem_of_nil in He; destruct He].
    split; [exists 272; reflexivity|]. cbn [e_base e_length]. split; [lia|]. split; [lia|]. split; [lia|]. intros i Hi Hu. apply ex_usable in Hu. unfold in_entry, PAGE_SIZE in Hi. cbn [e_base e_length] in Hi. lia.
  - constructor; [|constructor]. unfold PAGE_SIZE. lia.
  - assert (E : m0' = m0) by (rewrite E1 in E1'; injection E1' as <-; rewrite E2 in E2'; injection E2' as -> _; reflexivity).
    destruct H as (m2 & E3 & E4 & _); [rewrite E; apply reach_start|]. rewrite E in E3, E4. exists s, m0, u0, m2. split; [exact E1|]. split; [exact E2|]. split; [exact E3|exact E4].
Defined.

(** ** Calls *)

Section Calls.
Context (lowest highest hhdm : Z).
Notation in_range := (in_range lowest highest).
Notation safe := (safe lowest highest hhdm).
Notation ref := (ref lowest).
Notation exec := (exec lowest highest hhdm).
Notation legal := (legal lowest highest).
Notation spec := (spec lowest highest).
Notation reachable := (reachable lowest highest hhdm).

(** C3: the page allocator implements the abstract allocator of reference counts.
    From a state with the invariant every call with legal arguments returns,
    without a fault and within its fuel, keeps the invariant, and changes the
    counts as the abstract allocator does: an allocation returns 0 and changes
    nothing, or takes the aligned pages of a block from 0 references to 1;
    [pmm_incref], [pmm_decref] and [pmm_free_pages] move the counts of the pages
    named by one, saturating; refilling, draining and marking change none. *)
Theorem pmm_calls_refine m fl c : config lowest highest hhdm -> safe m fl -> legal m c ->
  exists res m' fl', exec c m = Ret (res, m') /\ safe m' fl' /\ spec c m (ref m) (ref m') res /\
    managed (pm m') = managed (pm m) /\ topo m' = topo m /\ zero_page_phys m' = zero_page_phys m /\ reports (pm m') = reports (pm m).
Proof. intros Hcfg S L. exact (call_ok lowest highest hhdm Hcfg m fl c S L). Qed.

(** C15: over any sequence of legal calls the invariant holds, the managed pages and
    the pinned zero page stay, no corruption is reported, and the next call
    returns: no sequence of calls faults or runs out of fuel. *)
Theorem pmm_reachable_safe m0 fl0 m : config lowest highest hhdm -> safe m0 fl0 -> reachable m0 m ->
  (exists fl, safe m fl) /\ managed (pm m) = managed (pm m0) /\ reports (pm m) = reports (pm m0) /\ zero_page_phys m = zero_page_phys m0 /\
  (forall c, legal m c -> exists res m', exec c m = Ret (res, m')).
Proof.
  intros Hcfg S R. destruct (reach_ok lowest highest hhdm Hcfg m0 fl0 m S R) as (fl & S' & H1 & H2 & H3). split; [by exists fl|]. repeat (split; [done|]).
  intros c L. destruct (call_ok lowest highest hhdm Hcfg m fl c S' L) as (res & m' & _ & E & _). by exists res, m'.
Qed.

(** The order of the block an allocating call returns. *)
Definition order_of (c : call) : option Z :=
  match c with
  | AllocPage _ | AllocZeroed _ => Some 0
  | AllocPages _ count | AllocNode count _ _ | AllocRange _ count _ _ => Some (pmm_get_order count)
  | AllocHuge _ | AllocHugeNode _ => Some 9
  | _ => None
  end.
Definition releases (c : call) : bool := match c with Incref _ | Decref _ _ | FreePages _ _ => true | _ => false end.

(** a page that is referenced belongs to nobody else. In any state that calls
    lead to, no allocating call returns a block that contains a page with
    references, and no call but those that count references changes its count. *)
Theorem pmm_live_page_kept m0 fl0 m c res m' i v : config lowest highest hhdm -> safe m0 fl0 -> reachable m0 m -> legal m c -> exec c m = Ret (res, m') ->
  in_range i -> ref m i = Some v -> v <> 0 ->
  (releases c = false -> ref m' i = Some v) /\ (forall o, order_of c = Some o -> res <> 0 -> ~ within (res / PAGE_SIZE) o i).
Proof.
  intros Hcfg S R L E Hi Hv Hnz. destruct (reach_ok lowest highest hhdm Hcfg m0 fl0 m S R) as (fl & S1 & _). destruct (call_ok lowest highest hhdm Hcfg m fl c S1 L) as (res1 & m1 & _ & E1 & _ & Hspec & _).
  rewrite E in E1. injection E1 as <- <-.
  assert (Hh : forall o P, handed lowest highest o P (ref m) (ref m') res -> ref m' i = Some v /\ (res <> 0 -> ~ within (res / PAGE_SIZE) o i)).
  { intros o P [[-> H]|(b & -> & _ & _ & _ & _ & _ & H)]; [by rewrite H|]. rewrite phys_pfn. specialize (H i Hi). destruct (decide _) as [W|W]; [destruct H; congruence|]. by rewrite H. }
  destruct c; cbn [PmmCalls.spec order_of releases] in *; (split; [intros Hrel; try done|intros o' Ho'; try done]); try (injection Ho' as <-); first [by eapply Hh|by rewrite Hspec].
Qed.

End Calls.

(** The example machine and its first page. *)
Lemma ex_calls : exists m fl, safe 256 276 ex_hhdm m fl /\ ref 256 m 257 = Some UINT16_MAX.
Proof. destruct ex_booted as (m & fl & S & _ & _ & Hz & Hr). exists m, fl. split; [done|]. rewrite (Hr 257) by lia. by rewrite Hz. Qed.

Lemma pmm_calls_refine_witness : exists m fl res m', safe 256 276 ex_hhdm m fl /\ exec 256 276 ex_hhdm (AllocPages (Some 0) 3) m = Ret (res, m') /\ spec 256 276 (AllocPages (Some 0) 3) m (ref 256 m) (ref 256 m') res.
Proof.
  destruct ex_calls as (m & fl & S & _). destruct (pmm_calls_refine 256 276 ex_hhdm m fl (AllocPages (Some 0) 3) ex_config S) as (res & m' & fl' & E & _ & Hs & _); [cbn; lia|].
  exists m, fl, res, m'. split; [exact S|]. split; [exact E|exact Hs].
Defined.
Lemma pmm_reachable_safe_witness : exists m fl, safe 256 276 ex_hhdm m fl /\ exists res m', exec 256 276 ex_hhdm (DrainAll None) m = Ret (res, m').
Proof.
  destruct ex_calls as (m & fl & S & _). exists m, fl. split; [exact S|]. apply (pmm_reachable_safe 256 276 ex_hhdm m fl m ex_config S (reach_start _ _ _ m)). exact I.
Defined.
Lemma pmm_live_page_kept_witness : exists m fl res m', safe 256 276 ex_hhdm m fl /\ exec 256 276 ex_hhdm (AllocPage (Some 0)) m = Ret (res, m') /\ (res <> 0 -> res / PAGE_SIZE <> 257).
Proof.
  destruct ex_calls as (m & fl & S & Hr). destruct (call_ok 256 276 ex_hhdm ex_config m fl (AllocPage (Some 0)) S) as (res & m' & _ & E & _); [cbn; lia|]. exists m, fl, res, m'. split; [exact S|]. split; [exact E|].
  intros Hres Eq. destruct (pmm_live_page_kept 256 276 ex_hhdm m fl m (AllocPage (Some 0)) res m' 257 UINT16_MAX ex_config S (reach_start _ _ _ m)) as [_ H]; [cbn; lia|exact E|unfold in_range; lia|exact Hr|discriminate|].
  apply (H 0 eq_refl Hres). unfold within. change (2 ^ 0) with 1. lia.
Defined.

End PmmClaims.
