(* ===== verification/PmmPcpRace.v ===== *)
(** PmmPcpRace: the handshake between the lock-free fast path of a per-CPU page
    cache and a remote drain ([pmm_pcp_alloc_page] and [pmm_pcp_drain_all] of
    [kernel/src/mm/pmm_pcp.c]), one memory access at a time.

    The owner sets [active] and looks at the lock; the drainer takes the lock and
    waits for [active] to be clear. There is only a compiler barrier between the
    owner's store and its load. [tso] says whether a store may wait in the
    processor's store buffer, as x86 allows: a load sees the buffer of its own
    processor first, and a locked instruction empties it. *)

From S2P Require Import Prelude.

Module PmmPcpRace.

(** The fields of [struct pcp_cache] that both sides use. *)
Inductive field := Locked | Active | Count.
#[global] Instance field_eq : EqDecision field.
Proof. solve_decision. Defined.
Record memory := mk_memory { locked : Z; active : Z; count : Z }.
Definition load (f : field) (m : memory) : Z := match f with Locked => locked m | Active => active m | Count => count m end.
Definition store (f : field) (v : Z) (m : memory) : memory :=
  match f with Locked => mk_memory v (active m) (count m) | Active => mk_memory (locked m) v (count m) | Count => mk_memory (locked m) (active m) v end.

(** A processor's store buffer, oldest store first. *)
Definition buffer := list (field * Z).
Fixpoint buffered (f : field) (b : buffer) (v : Z) : Z := match b with [] => v | (g, w) :: b => buffered f b (if decide (g = f) then w else v) end.

(** [pmm_pcp_alloc_page] of the owner: the fast path, and the locked path that
    pops a page; [OwnerDone] after either. The argument is a count read before. *)
Inductive owner_pc := OTest1 | OSetActive | OTest2 | OReadCount | OPop (c : Z) | OClear (slow : bool) | OAcquire | OSlowRead | OSlowPop (c : Z) | ORelease | ODone.
(** The drain of this cache by [pmm_pcp_drain_all]. *)
Inductive drain_pc := DAcquire | DWait | DReadCount | DEmpty (c : Z) | DRelease | DDone.

(** [got] is the index of the page the owner took, [drained] how many pages, from
    index 0 on, the drainer took. *)
Record state := mk_state { mem : memory; obuf : buffer; dbuf : buffer; opc : owner_pc; dpc : drain_pc; got : option Z; drained : option Z }.
Definition initial (n : Z) : state := mk_state (mk_memory 0 0 n) [] [] OTest1 DAcquire None None.

Section Memory.
Variable tso : bool.

Definition oload (f : field) (s : state) : Z := buffered f (obuf s) (load f (mem s)).
Definition dload (f : field) (s : state) : Z := buffered f (dbuf s) (load f (mem s)).
Definition ostore (f : field) (v : Z) (s : state) : state :=
  if tso then mk_state (mem s) (obuf s ++ [(f, v)]) (dbuf s) (opc s) (dpc s) (got s) (drained s)
  else mk_state (store f v (mem s)) (obuf s) (dbuf s) (opc s) (dpc s) (got s) (drained s).
Definition dstore (f : field) (v : Z) (s : state) : state :=
  if tso then mk_state (mem s) (obuf s) (dbuf s ++ [(f, v)]) (opc s) (dpc s) (got s) (drained s)
  else mk_state (store f v (mem s)) (obuf s) (dbuf s) (opc s) (dpc s) (got s) (drained s).
Definition ogo (p : owner_pc) (s : state) : state := mk_state (mem s) (obuf s) (dbuf s) p (dpc s) (got s) (drained s).
Definition dgo (p : drain_pc) (s : state) : state := mk_state (mem s) (obuf s) (dbuf s) (opc s) p (got s) (drained s).
Definition take_page (k : Z) (s : state) : state := mk_state (mem s) (obuf s) (dbuf s) (opc s) (dpc s) (Some k) (drained s).
Definition take_all (c : Z) (s : state) : state := mk_state (mem s) (obuf s) (dbuf s) (opc s) (dpc s) (got s) (Some c).
Definition set_locked (s : state) : state := mk_state (store Locked 1 (mem s)) (obuf s) (dbuf s) (opc s) (dpc s) (got s) (drained s).

(** One access of the owner. [__atomic_test_and_set] waits for an empty buffer and
    is retried while the lock is held. *)
Definition owner_step (s : state) : state :=
  match opc s with
  | OTest1 => ogo (if oload Locked s =? 0 then OSetActive else OAcquire) s
  | OSetActive => ogo OTest2 (ostore Active 1 s)
  | OTest2 => ogo (if oload Locked s =? 0 then OReadCount else OClear true) s
  | OReadCount => ogo (if oload Count s >? 0 then OPop (oload Count s) else OClear true) s
  | OPop c => ogo (OClear false) (take_page (c - 1) (ostore Count (c - 1) s))
  | OClear slow => ogo (if slow then OAcquire else ODone) (ostore Active 0 s)
  | OAcquire => match obuf s with [] => if locked (mem s) =? 0 then ogo OSlowRead (set_locked s) else s | _ => s end
  | OSlowRead => ogo (if oload Count s >? 0 then OSlowPop (oload Count s) else ORelease) s
  | OSlowPop c => ogo ORelease (take_page (c - 1) (ostore Count (c - 1) s))
  | ORelease => ogo ODone (ostore Locked 0 s)
  | ODone => s
  end.

(** One access of the drainer. *)
Definition drain_step (s : state) : state :=
  match dpc s with
  | DAcquire => match dbuf s with [] => if locked (mem s) =? 0 then dgo DWait (set_locked s) else s | _ => s end
  | DWait => if dload Active s =? 0 then dgo DReadCount s else s
  | DReadCount => dgo (DEmpty (dload Count s)) s
  | DEmpty c => dgo DRelease (take_all c (dstore Count 0 s))
  | DRelease => dgo DDone (dstore Locked 0 s)
  | DDone => s
  end.

(** The oldest store of a buffer reaches memory. *)
Definition oflush (s : state) : state :=
  match obuf s with [] => s | (f, v) :: b => mk_state (store f v (mem s)) b (dbuf s) (opc s) (dpc s) (got s) (drained s) end.
Definition dflush (s : state) : state :=
  match dbuf s with [] => s | (f, v) :: b => mk_state (store f v (mem s)) (obuf s) b (opc s) (dpc s) (got s) (drained s) end.

Inductive actor := Owner | Drainer | OwnerFlush | DrainerFlush.
Definition step (a : actor) (s : state) : state :=
  match a with Owner => owner_step s | Drainer => drain_step s | OwnerFlush => oflush s | DrainerFlush => dflush s end.
Fixpoint run (schedule : list actor) (s : state) : state := match schedule with [] => s | a :: l => run l (step a s) end.

End Memory.

(** A page was handed out and drained as well. *)
Definition page_taken_twice (s : state) : Prop := exists k c, got s = Some k /\ drained s = Some c /\ 0 <= k < c.

(** ** Without store buffers *)

Definition fast (p : owner_pc) : bool := match p with OTest2 | OReadCount | OPop _ | OClear _ => true | _ => false end.
Definition popping (p : owner_pc) : bool := match p with OReadCount | OPop _ => true | _ => false end.
Definition oholds (p : owner_pc) : bool := match p with OSlowRead | OSlowPop _ | ORelease => true | _ => false end.
Definition dholds (p : drain_pc) : bool := match p with DWait | DReadCount | DEmpty _ | DRelease => true | _ => false end.
Definition draining (p : drain_pc) : bool := match p with DReadCount | DEmpty _ => true | _ => false end.

Record exclusive (s : state) : Prop := mk_exclusive {
  x_buf : obuf s = [] /\ dbuf s = [];
  x_active : active (mem s) = if fast (opc s) then 1 else 0;
  x_locked : locked (mem s) = if oholds (opc s) || dholds (dpc s) then 1 else 0;
  x_lock : oholds (opc s) = true -> dholds (dpc s) = false;
  x_crit : popping (opc s) = true -> draining (dpc s) = false;
  x_pop : forall c, opc s = OPop c \/ opc s = OSlowPop c -> c = count (mem s) /\ 0 < c;
  x_drain : forall c, dpc s = DEmpty c -> c = count (mem s);
  x_got : forall k, got s = Some k -> count (mem s) <= k;
  x_drained : forall c, drained s = Some c -> count (mem s) = 0;
  x_count : 0 <= count (mem s);
  x_once : ~ page_taken_twice s }.

Lemma exclusive_initial n : 0 <= n -> exclusive (initial n).
Proof. intros Hn. constructor; cbn; try done; try (intros c [?|?]; done). by intros (k & c & ? & _). Qed.

(** The cases of a step: the fields of the new state follow from those of the old. *)
Ltac race_cases := repeat match goal with
  | H : exclusive _ |- _ => destruct H as [[X1 X2] X3 X4 X5 X6 X7 X8 X9 X10 X11 X12]; cbn in X1, X2, X3, X4, X5, X6, X7, X8, X9, X10, X11; subst
  | |- context [if ?a =? ?b then _ else _] => destruct (a =? b) eqn:?; reify_bools
  | |- context [if ?a >? ?b then _ else _] => destruct (a >? b) eqn:?; reify_bools
  end.
Ltac race_field := cbn; intros; repeat match goal with
  | H : _ \/ _ |- _ => destruct H
  | H : Some _ = Some _ |- _ => injection H as H; subst
  | H : OPop _ = OPop _ |- _ => injection H as H; subst
  | H : OSlowPop _ = OSlowPop _ |- _ => injection H as H; subst
  | H : DEmpty _ = DEmpty _ |- _ => injection H as H; subst
  | H : forall c, OPop ?x = OPop c \/ _ -> _ |- _ => specialize (H x (or_introl eq_refl))
  | H : forall c, _ \/ OSlowPop ?x = OSlowPop c -> _ |- _ => specialize (H x (or_intror eq_refl))
  | H : forall c, DEmpty ?x = DEmpty c -> _ |- _ => specialize (H x eq_refl)
  end; try done; try lia.

Lemma taken_twice_ext s s' : got s' = got s -> drained s' = drained s -> ~ page_taken_twice s -> ~ page_taken_twice s'.
Proof. unfold page_taken_twice. intros -> ->. done. Qed.

Ltac race_close := cbn in *; try done; match goal with
  | X12 : ~ page_taken_twice _ |- ~ page_taken_twice _ => solve [eapply taken_twice_ext; [| |exact X12]; done
      | intros (k & c' & ? & ? & ?); cbn in *; simplify_eq;
        repeat match goal with H : forall c, Some ?x = Some c -> _ |- _ => specialize (H x eq_refl) end; lia]
  | H : forall c, ?x = Some c -> _, E : ?x = Some _ |- _ => specialize (H _ E); lia
  | H : forall c, ?x = DEmpty c -> _, E : ?x = DEmpty _ |- _ => by apply (H _ E)
  | H : true = true -> _ |- _ => specialize (H eq_refl); race_close
  | d : drain_pc |- _ => destruct d; done
  | b : bool |- _ => destruct b; race_close
  end.

Lemma owner_exclusive s : exclusive s -> exclusive (owner_step false s).
Proof.
  intros X. destruct s as [[l a c] ob db o d g dr]. destruct o as [| | | | | slow | | | | |]; try destruct slow; cbn [owner_step opc]; race_cases; cbn [oload buffered load mem obuf locked] in *; race_cases; try (constructor; race_field).
  all: race_close.
Qed.

Lemma drain_exclusive s : exclusive s -> exclusive (drain_step false s).
Proof.
  intros X. destruct s as [[l a c] ob db o d g dr]. destruct d, o; cbn [drain_step dpc]; race_cases; cbn [dload buffered load mem dbuf locked active] in *; race_cases; try (constructor; race_field).
  all: race_close.
Qed.

Lemma step_exclusive a s : exclusive s -> exclusive (step false a s).
Proof.
  intros X. destruct a; cbn [step]; [by apply owner_exclusive|by apply drain_exclusive| |].
  - unfold oflush. by rewrite (proj1 (x_buf _ X)).
  - unfold dflush. by rewrite (proj2 (x_buf _ X)).
Qed.

Lemma run_exclusive schedule : forall s, exclusive s -> exclusive (run false schedule s).
Proof. induction schedule as [|a l IH]; intros s X; [done|]. apply IH, step_exclusive, X. Qed.

(** The owner's store of [active] waits in its buffer while both of its tests of
    the lock and the drainer's test of [active] go by. *)
Definition bad_schedule : list actor :=
  [Owner; Owner; Owner; Drainer; Drainer; Drainer; Owner; Owner; Drainer].

(** C34: if every access reaches memory at once, then no interleaving of the owner's
    allocation and a remote drain, from a cache of any size, gives out a page the
    drainer takes back to the buddy allocator. With the store buffers of an x86
    processor the same code does it: the compiler barrier between the store to
    [active] and the second test of the lock does not order them. *)
Theorem pcp_handshake :
  (forall schedule n, ~ page_taken_twice (run false schedule (initial (Z.max 0 n)))) /\
  page_taken_twice (run true bad_schedule (initial 1)).
Proof.
  split.
  - intros schedule n. apply x_once, run_exclusive, exclusive_initial. lia.
  - exists 0, 1. vm_compute. done.
Qed.

End PmmPcpRace.
