(* ===== verification/ZramStore.v ===== *)
(** ZramStore: the store of compressed pages behind zram
    ([kernel/src/mm/zram/store.c]): slots with reference counts, and the pools of
    equal-sized objects that hold the compressed bytes.

    Descriptors ([pages]) and physical frames ([frames]) are heaps by address; a
    pointer 0 is NULL, and an access outside them is a fault. A call is cut at its
    locks: what a call does between two points at which other processors may run is
    one function, and [thread] has the local variables it keeps between them.
    [kmalloc] and [pmm_alloc] are arguments of the step that calls them. *)

From S2P Require Import Prelude Lz4.

Module ZramStore.

Definition PACKED_CLASSES : Z := 32.
Definition PACKED_CHARGE : Z := 4096 + 64.
(** [sizeof(struct slot)] *)
Definition SLOT_SIZE : Z := 40.

Record packed_page := mk_packed { phys : Z; pprev : Z; pnext : Z; free_mask : Z; psize : Z; bin : Z }.
Definition set_pprev (v : Z) (p : packed_page) : packed_page := mk_packed (phys p) v (pnext p) (free_mask p) (psize p) (bin p).
Definition set_pnext (v : Z) (p : packed_page) : packed_page := mk_packed (phys p) (pprev p) v (free_mask p) (psize p) (bin p).
Definition set_mask (v : Z) (p : packed_page) : packed_page := mk_packed (phys p) (pprev p) (pnext p) v (psize p) (bin p).

(** [struct slot], without [charge], which is not used. *)
Record slot := mk_slot { sdata : Z; spool : Z; same : Z; refs : Z; snext : Z; slength : Z }.
Definition zero_slot : slot := mk_slot 0 0 0 0 0 0.
Definition set_refs (v : Z) (x : slot) : slot := mk_slot (sdata x) (spool x) (same x) v (snext x) (slength x).
Definition set_snext (v : Z) (x : slot) : slot := mk_slot (sdata x) (spool x) (same x) (refs x) v (slength x).

(** The fields of [struct zram_stats] that the store keeps. *)
Record zram_stats := mk_stats { capacity_pages : Z; stored_pages : Z; compressed_bytes : Z; memory_bytes : Z; memory_limit : Z; same_pages : Z;
  peak_bytes : Z; allocation_failures : Z; enabled : bool }.

Record zram := mk_zram { slots : option (list slot); count : Z; free_head : Z; partial : list Z; pages : gmap Z packed_page; frames : gmap Z (list Z);
  stats : zram_stats; rejected : Z }.
Definition set_table (t : list slot) (s : zram) : zram := mk_zram (Some t) (count s) (free_head s) (partial s) (pages s) (frames s) (stats s) (rejected s).
Definition set_free_head (v : Z) (s : zram) : zram := mk_zram (slots s) (count s) v (partial s) (pages s) (frames s) (stats s) (rejected s).
Definition set_partial (v : list Z) (s : zram) : zram := mk_zram (slots s) (count s) (free_head s) v (pages s) (frames s) (stats s) (rejected s).
Definition set_pages (v : gmap Z packed_page) (s : zram) : zram := mk_zram (slots s) (count s) (free_head s) (partial s) v (frames s) (stats s) (rejected s).
Definition set_frames (v : gmap Z (list Z)) (s : zram) : zram := mk_zram (slots s) (count s) (free_head s) (partial s) (pages s) v (stats s) (rejected s).
Definition set_stats (v : zram_stats) (s : zram) : zram := mk_zram (slots s) (count s) (free_head s) (partial s) (pages s) (frames s) v (rejected s).
Definition reject (s : zram) : zram := mk_zram (slots s) (count s) (free_head s) (partial s) (pages s) (frames s) (stats s) (u64 (rejected s + 1)).
Definition set_memory (v : Z) (s : zram) : zram :=
  let t := stats s in
  set_stats (mk_stats (capacity_pages t) (stored_pages t) (compressed_bytes t) v (memory_limit t) (same_pages t) (peak_bytes t) (allocation_failures t) (enabled t)) s.
Definition alloc_failed (s : zram) : zram :=
  let t := stats s in
  set_stats (mk_stats (capacity_pages t) (stored_pages t) (compressed_bytes t) (memory_bytes t) (memory_limit t) (same_pages t) (peak_bytes t) (u64 (allocation_failures t + 1)) (enabled t)) s.
Definition count_stored (stored compressed same_ peak : Z) (s : zram) : zram :=
  let t := stats s in
  set_stats (mk_stats (capacity_pages t) stored compressed (memory_bytes t) (memory_limit t) same_ peak (allocation_failures t) (enabled t)) s.

Definition slot_at (s : zram) (id : Z) : outcome slot := t ← deref (slots s); arr_get t id.
Definition put_slot (id : Z) (x : slot) (s : zram) : outcome zram := t ← deref (slots s); t ← arr_set t id x; Ret (set_table t s).

(** ** [zram_store_init] *)

Definition table_bytes (capacity : Z) : Z := ((capacity + 1) * SLOT_SIZE + 64 + 4095) / 4096 * 4096.
Definition init_slot (capacity i : Z) : slot := mk_slot 0 0 0 0 (if (i =? 0) || (i =? capacity) then 0 else i + 1) 0.
(** [allocated] says whether [kmalloc] has memory for the table. *)
Definition zram_store_init (capacity limit : Z) (allocated : bool) (s : zram) : bool * zram :=
  match slots s with
  | Some _ => (false, s)
  | None =>
    if (capacity =? 0) || (capacity >? 524288) || (limit <? 4096) then (false, s)
    else if table_bytes capacity >? limit then (false, s)
    else if negb allocated then (false, s)
    else
      let t := stats s in
      (true, mk_zram (Some (init_slot capacity <$> seqZ 0 (capacity + 1))) capacity 1 (partial s) (pages s) (frames s)
        (mk_stats capacity (stored_pages t) (compressed_bytes t) (table_bytes capacity) limit (same_pages t) (table_bytes capacity) (allocation_failures t) true) (rejected s))
  end.

(** ** Lists of pages with free objects *)

Definition link_partial (p : Z) (s : zram) : outcome zram :=
  x ← deref (pages s !! p);
  head ← arr_get (partial s) (bin x);
  let m := <[p := set_pnext head (set_pprev 0 x)]> (pages s) in
  m ← (if head =? 0 then Ret m else h ← deref (m !! head); Ret (<[head := set_pprev p h]> m));
  l ← arr_set (partial s) (bin x) p;
  Ret (set_partial l (set_pages m s)).

Definition unlink_partial (p : Z) (s : zram) : outcome zram :=
  x ← deref (pages s !! p);
  s ← (if pprev x =? 0 then l ← arr_set (partial s) (bin x) (pnext x); Ret (set_partial l s)
       else q ← deref (pages s !! pprev x); Ret (set_pages (<[pprev x := set_pnext (pnext x) q]> (pages s)) s));
  s ← (if pnext x =? 0 then Ret s
       else q ← deref (pages s !! pnext x); Ret (set_pages (<[pnext x := set_pprev (pprev x) q]> (pages s)) s));
  x ← deref (pages s !! p);
  Ret (set_pages (<[p := set_pnext 0 (set_pprev 0 x)]> (pages s)) s).

(** ** Bits and bytes *)

(** [__builtin_ctzll], undefined at 0. *)
Fixpoint ctz_from (k : nat) (i m : Z) : outcome Z :=
  match k with
  | O => Fault
  | S k => if Z.testbit m i then Ret i else ctz_from k (i + 1) m
  end.
Definition ctzll (m : Z) : outcome Z := ctz_from 64 0 m.

(** [objects == 64 ? ~0ull : (1ull << objects) - 1] *)
Definition all_objects (size : Z) : Z := let objects := 4096 / size in if objects =? 64 then UINT64_MAX else u64 (Z.shiftl 1 objects - 1).

Section Memory.
(** [pmm_get_hhdm_offset()] *)
Variable hhdm : Z.

(** The frame and the offset a kernel address of the direct map points to. *)
Definition frame_of (a : Z) : Z := u64 (a - hhdm) / 4096 * 4096.
Definition offset_of (a : Z) : Z := u64 (a - hhdm) mod 4096.

Definition memcpy_to (a : Z) (bytes : list Z) (s : zram) : outcome zram :=
  f ← deref (frames s !! frame_of a);
  let o := Z.to_nat (offset_of a) in
  if (o + length bytes <=? length f)%nat then Ret (set_frames (<[frame_of a := take o f ++ bytes ++ drop (o + length bytes) f]> (frames s)) s) else Fault.
Definition memcpy_from (a : Z) (n : Z) (s : zram) : outcome (list Z) :=
  f ← deref (frames s !! frame_of a);
  let o := Z.to_nat (offset_of a) in
  if (o + Z.to_nat n <=? length f)%nat then Ret (take (Z.to_nat n) (drop o f)) else Fault.

(** ** [packed_alloc] *)

Definition bin_of (n : Z) : Z := if nz n then (n + 63) / 64 - 1 else 0.
Definition size_of (bin : Z) : Z := (bin + 1) * 64.
Definition object_at (p : Z) (i size : Z) : Z := u64 (p + hhdm + i * size).

(** The first locked part: an object of a partial page, or a reservation for a new
    page, or no room. *)
Inductive found := Found (pool data : Z) | Reserve | NoRoom.
Definition packed_find (n : Z) (s : zram) : outcome (found * zram) :=
  let b := bin_of n in
  p ← arr_get (partial s) b;
  if nz p then
    x ← deref (pages s !! p);
    i ← ctzll (free_mask x);
    let mask := Z.land (free_mask x) (u64 (Z.lnot (bit i))) in
    let s := set_pages (<[p := set_mask mask x]> (pages s)) s in
    s ← (if mask =? 0 then unlink_partial p s else Ret s);
    Ret (Found p (object_at (phys x) i (size_of b)), s)
  else if (memory_bytes (stats s) >? memory_limit (stats s)) || (PACKED_CHARGE >? memory_limit (stats s) - memory_bytes (stats s)) then Ret (NoRoom, s)
  else Ret (Reserve, set_memory (u64 (memory_bytes (stats s) + PACKED_CHARGE)) s).

(** After the reservation: [node] is what [kmalloc] returns, [frame] what [pmm_alloc]
    returns, with the bytes that are in it; the pool and data of the result are 0
    on failure. *)
Definition packed_grow (n : Z) (node : Z) (frame : Z * list Z) (s : zram) : outcome (Z * Z * zram) :=
  let '(ph, stale) := frame in
  let b := bin_of n in
  let size := size_of b in
  if (node =? 0) || (ph =? 0) then Ret (0, 0, set_memory (u64 (memory_bytes (stats s) - PACKED_CHARGE)) s)
  else
    let mask := Z.land (all_objects size) (u64 (Z.lnot 1)) in
    let s := set_frames (<[ph := stale]> (frames s)) (set_pages (<[node := mk_packed ph 0 0 mask (u16 size) (u16 b)]> (pages s)) s) in
    s ← link_partial node s;
    Ret (node, u64 (ph + hhdm), s).

(** ** [zram_store_page] *)

Fixpoint same_from (k : nat) (i : Z) (page : list Z) (pattern : Z) : bool :=
  match k with
  | O => true
  | S k => if le_at page i 8 =? pattern then same_from k (i + 8) page pattern else false
  end.
(** The bytes written, none for the return value 0. *)
Definition or_nothing (m : outcome (list Z)) : outcome (list Z) := match m with Err _ => Ret [] | _ => m end.

(** The unlocked part: the pattern and the compressed bytes, or [None] for a page
    that is rejected. *)
Definition compress_page (page : list Z) : outcome (option (Z * list Z)) :=
  let pattern := le_at page 0 8 in
  if same_from 511 8 page pattern then Ret (Some (pattern, []))
  else
    probe ← or_nothing (Lz4.zram_lz4_compress (take 1024 page) 640);
    match probe with
    | [] => Ret None
    | _ =>
      compressed ← or_nothing (Lz4.zram_lz4_compress page 2048);
      match compressed with [] => Ret None | _ => Ret (Some (pattern, compressed)) end
    end.

(** A processor in the store: between calls, with the last return value; in
    [zram_store_page] with its slot, the pattern and the compressed bytes; in
    [zram_slot_put] after the last reference is gone. *)
Record job := mk_job { jid : Z; jpage : list Z; jpattern : Z; jbytes : list Z }.
Inductive thread :=
  | Done (result : Z)
  | HasSlot (j : job)
  | Reserved (j : job)
  | HasData (j : job) (pool data : Z)
  | Copied (j : job) (pool data : Z)
  | Failing (j : job)
  | Dropping (id : Z)
  | Releasing (pool : Z).

(** Up to the first release of the lock. *)
Definition store_begin (page : list Z) (s : zram) : outcome (thread * zram) :=
  match slots s with
  | None => Ret (Done 0, s)
  | Some _ =>
    c ← compress_page page;
    match c with
    | None => Ret (Done 0, reject s)
    | Some (pattern, bytes) =>
      let id := free_head s in
      if id =? 0 then Ret (Done 0, alloc_failed s)
      else x ← slot_at s id; Ret (HasSlot (mk_job id page pattern bytes), set_free_head (snext x) s)
    end
  end.

(** [data = n ? packed_alloc(n, &pool) : NULL; if (n && !data)] *)
Definition with_data (j : job) (pool data : Z) : thread := if data =? 0 then Failing j else HasData j pool data.
Definition store_alloc (j : job) (s : zram) : outcome (thread * zram) :=
  match jbytes j with
  | [] => Ret (Copied j 0 0, s)
  | _ =>
    '(r, s) ← packed_find (Z.of_nat (length (jbytes j))) s;
    match r with
    | Found pool data => Ret (with_data j pool data, s)
    | Reserve => Ret (Reserved j, s)
    | NoRoom => Ret (Failing j, s)
    end
  end.
Definition store_grow (j : job) (node : Z) (frame : Z * list Z) (s : zram) : outcome (thread * zram) :=
  '(pool, data, s) ← packed_grow (Z.of_nat (length (jbytes j))) node frame s; Ret (with_data j pool data, s).
(** The slot goes back. *)
Definition store_fail (j : job) (s : zram) : outcome (thread * zram) :=
  let s := alloc_failed s in
  x ← slot_at s (jid j);
  s ← put_slot (jid j) (set_snext (free_head s) x) s;
  Ret (Done 0, set_free_head (jid j) s).
Definition store_copy (j : job) (pool data : Z) (s : zram) : outcome (thread * zram) := s ← memcpy_to data (jbytes j) s; Ret (Copied j pool data, s).
(** The last locked part. *)
Definition store_publish (j : job) (pool data : Z) (s : zram) : outcome (thread * zram) :=
  let n := Z.of_nat (length (jbytes j)) in
  x ← slot_at s (jid j);
  s ← put_slot (jid j) (mk_slot data pool (jpattern j) 1 (snext x) (u16 n)) s;
  let t := stats s in
  Ret (Done (jid j),
    count_stored (u64 (stored_pages t + 1)) (u64 (compressed_bytes t + n)) (if n =? 0 then u64 (same_pages t + 1) else same_pages t)
      (if memory_bytes t >? peak_bytes t then memory_bytes t else peak_bytes t) s).

(** ** References *)

Definition valid_id (s : zram) (id : Z) : bool := match slots s with None => false | Some _ => nz id && (id <=? count s) end.

Definition zram_slot_get (id : Z) (s : zram) : outcome (bool * zram) :=
  if negb (valid_id s id) then Ret (false, s)
  else
    x ← slot_at s id;
    if (refs x =? 0) || (refs x =? UINT32_MAX) then Ret (false, s)
    else s ← put_slot id (set_refs (refs x + 1) x) s; Ret (true, s).

(** Up to the decision whether this was the last reference. *)
Definition put_begin (id : Z) (s : zram) : outcome (thread * zram) :=
  if negb (valid_id s id) then Ret (Done 0, s)
  else
    x ← slot_at s id;
    if (refs x =? 0) || (refs x =? UINT32_MAX) then Ret (Done 0, s)
    else s ← put_slot id (set_refs (refs x - 1) x) s; Ret (if refs x - 1 =? 0 then Dropping id else Done 0, s).

(** The object of the slot becomes free; the page is to be released if it was the
    last one. *)
Definition free_object (p data : Z) (s : zram) : outcome (Z * zram) :=
  if p =? 0 then Ret (0, s)
  else
    x ← deref (pages s !! p);
    let i := u32 (u64 (data - phys x - hhdm) / psize x) in
    let mask := Z.lor (free_mask x) (bit i) in
    let s := set_pages (<[p := set_mask mask x]> (pages s)) s in
    s ← (if free_mask x =? 0 then link_partial p s else Ret s);
    if mask =? all_objects (psize x) then
      s ← unlink_partial p s; Ret (p, set_memory (u64 (memory_bytes (stats s) - PACKED_CHARGE)) s)
    else Ret (0, s).
Definition put_locked (id : Z) (s : zram) : outcome (thread * zram) :=
  x ← slot_at s id;
  '(release, s) ← free_object (spool x) (sdata x) s;
  let t := stats s in
  let s := count_stored (u64 (stored_pages t - 1)) (u64 (compressed_bytes t - slength x)) (if slength x =? 0 then u64 (same_pages t - 1) else same_pages t) (peak_bytes t) s in
  s ← put_slot id (set_snext (free_head s) zero_slot) s;
  Ret (if release =? 0 then Done 0 else Releasing release, set_free_head id s).
(** [pmm_free_page(release->phys); kfree(release)] *)
Definition put_release (p : Z) (s : zram) : outcome (thread * zram) :=
  x ← deref (pages s !! p);
  _ ← deref (frames s !! phys x);
  Ret (Done 0, set_frames (delete (phys x) (frames s)) (set_pages (delete p (pages s)) s)).

(** ** [zram_slot_read]

    The caller holds a reference, so the slot and its object do not change while the
    bytes are copied, and one step does it all. *)

Definition zram_slot_read (id : Z) (s : zram) : outcome (list Z) :=
  if negb (valid_id s id) then Err (-1)
  else
    x ← slot_at s id;
    if refs x =? 0 then Err (-1)
    else if slength x =? 0 then Ret (concat (replicate 512 (le_bytes 8 (same x))))
    else bytes ← memcpy_from (sdata x) (slength x) s; Lz4.zram_lz4_decompress bytes 4096.

(** ** [zram_store_stats]: the statistics, and [rejected_pages] *)

Definition zram_store_stats (s : zram) : zram_stats * Z := (stats s, rejected s).

(** ** Whole calls and interleavings *)

(** What a processor does next: a call, or the next part of the call it is in. *)
Inductive action := StorePage (page : list Z) | Get (id : Z) | Put (id : Z) | Continue | Allocate (node : Z) (frame : Z * list Z).
Definition thread_step (a : action) (th : thread) (s : zram) : outcome (thread * zram) :=
  match th, a with
  | Done _, StorePage page => store_begin page s
  | Done _, Get id => '(ok, s) ← zram_slot_get id s; Ret (Done (Z.b2z ok), s)
  | Done _, Put id => put_begin id s
  | HasSlot j, Continue => store_alloc j s
  | Reserved j, Allocate node frame => store_grow j node frame s
  | HasData j pool data, Continue => store_copy j pool data s
  | Copied j pool data, Continue => store_publish j pool data s
  | Failing j, Continue => store_fail j s
  | Dropping id, Continue => put_locked id s
  | Releasing p, Continue => put_release p s
  | _, _ => Ret (th, s)
  end.

(** A call that is not interrupted; [node] and [frame] are used if it allocates. *)
Fixpoint finish (k : nat) (node : Z) (frame : Z * list Z) (th : thread) (s : zram) : outcome (Z * zram) :=
  match k with
  | O => OutOfFuel
  | S k =>
    match th with
    | Done r => Ret (r, s)
    | Reserved _ => '(th, s) ← thread_step (Allocate node frame) th s; finish k node frame th s
    | _ => '(th, s) ← thread_step Continue th s; finish k node frame th s
    end
  end.
Definition zram_store_page (node : Z) (frame : Z * list Z) (page : list Z) (s : zram) : outcome (Z * zram) :=
  '(th, s) ← store_begin page s; finish 6 node frame th s.
Definition zram_slot_put (id : Z) (s : zram) : outcome zram :=
  '(th, s) ← put_begin id s; '(_, s) ← finish 3 0 (0, []) th s; Ret s.

End Memory.
End ZramStore.
