(* ===== verification/ZramArena.v ===== *)
(** ZramArena: the pools of the zram store. The invariant of the descriptors, their
    frames and the lists of pages with free objects, and what taking, returning and
    adding objects does to it. *)

From S2P Require Import Prelude Lz4 ZramStore.
From stdpp Require Import list_relations.
#[local] Open Scope Z_scope.

Module ZramArena.
Import ZramStore.

(** ** Masks *)

Definition objects (size : Z) : Z := 4096 / size.

Lemma objects_bounds b : 0 <= b < 32 -> 2 <= objects (size_of b) <= 64.
Proof.
  intros Hb. unfold objects, size_of. split; [apply Z.div_le_lower_bound; lia|]. assert (4096 / ((b + 1) * 64) <= 4096 / 64) by (apply Z.div_le_compat_l; lia).
  change (4096 / 64) with 64 in *. lia.
Qed.
Lemma objects_room b i : 0 <= b < 32 -> 0 <= i < objects (size_of b) -> 0 <= i * size_of b /\ i * size_of b + size_of b <= 4096.
Proof. intros Hb [H0 Hi]. pose proof (Z.mul_div_le 4096 (size_of b)) as Hm. unfold objects, size_of in *. nia. Qed.

Lemma all_bits b i : 0 <= b < 32 -> 0 <= i -> Z.testbit (all_objects (size_of b)) i = bool_decide (i < objects (size_of b)).
Proof.
  intros Hb Hi. pose proof (objects_bounds b Hb) as Ho. unfold all_objects. fold (objects (size_of b)). set (o := objects (size_of b)) in *.
  assert (E : (if o =? 64 then UINT64_MAX else u64 (Z.shiftl 1 o - 1)) = Z.ones o).
  { destruct (o =? 64) eqn:E; reify_bools; [by rewrite E|]. rewrite Z.shiftl_1_l, Z.ones_equiv. apply u64_id.
    pose proof (Z.pow_pos_nonneg 2 o). assert (2 ^ o <= 2 ^ 63) by (apply Z.pow_le_mono_r; lia). lia. }
  rewrite E. case_bool_decide as H; [apply Z.ones_spec_low; lia|apply Z.ones_spec_high; lia].
Qed.

Definition clear_bit (m i : Z) : Z := Z.land m (u64 (Z.lnot (bit i))).
Lemma clear_bit_spec m i j : 0 <= i -> 0 <= j -> (forall k, 64 <= k -> Z.testbit m k = false) -> Z.testbit (clear_bit m i) j = Z.testbit m j && bool_decide (j <> i).
Proof.
  intros Hi Hj Hm. unfold clear_bit, u64. rewrite Z.land_spec. destruct (decide (j < 64)) as [Hl|Hl]; [|by rewrite Hm by lia].
  rewrite Z.mod_pow2_bits_low, Z.lnot_spec, testbit_bit by lia. f_equal. by repeat case_bool_decide.
Qed.

Lemma ctz_from_ok k : forall i m, 0 <= i -> (exists j, i <= j < i + Z.of_nat k /\ Z.testbit m j = true) -> exists j, ctz_from k i m = Ret j /\ i <= j < i + Z.of_nat k /\ Z.testbit m j = true.
Proof.
  induction k as [|k IH]; intros i m Hi (j & Hj & Hb); cbn [ctz_from]; [lia|]. destruct (Z.testbit m i) eqn:E; [exists i; split; [done|]; split; [lia|done]|].
  assert (j <> i) by congruence. destruct (IH (i + 1) m) as (j' & -> & Hj' & Hb'); [lia|exists j; split; [lia|done]|]. exists j'. split; [done|]. split; [lia|done].
Qed.
Lemma ctzll_ok m : m <> 0 -> 0 <= m -> (forall k, 64 <= k -> Z.testbit m k = false) -> exists i, ctzll m = Ret i /\ 0 <= i < 64 /\ Z.testbit m i = true.
Proof.
  intros Hne H0 Hh. apply (ctz_from_ok 64 0 m); [lia|]. exists (Z.log2 m). pose proof (Z.bit_log2 m ltac:(lia)) as Hb. split; [|done].
  pose proof (Z.log2_nonneg m). destruct (decide (Z.log2 m < 64)); [lia|]. rewrite Hh in Hb by lia. done.
Qed.

(** ** Lists of descriptors *)

(** The descriptors [l] are linked from [head] on; [prev] comes before the first and
    [next] after the last. *)
Fixpoint pchain (m : gmap Z packed_page) (b prev : Z) (l : list Z) (head next : Z) : Prop :=
  match l with
  | [] => head = next
  | p :: l => head = p /\ p <> 0 /\ exists x, m !! p = Some x /\ pprev x = prev /\ bin x = b /\ pchain m b p l (pnext x) next
  end.

(** The fields of a descriptor that stay, and those a list uses. *)
Definition shape (x x' : packed_page) : Prop := phys x' = phys x /\ psize x' = psize x /\ bin x' = bin x.
Definition links (x x' : packed_page) : Prop := pprev x' = pprev x /\ pnext x' = pnext x /\ bin x' = bin x.

Lemma pchain_ext m m' b l : forall prev head next, (forall p x, p ∈ l -> m !! p = Some x -> exists x', m' !! p = Some x' /\ links x x') -> pchain m b prev l head next -> pchain m' b prev l head next.
Proof.
  induction l as [|p l IH]; intros prev head next H; cbn; [done|]. intros (-> & Hp & x & E & <- & <- & C). split; [done|]. split; [done|].
  destruct (H p x ltac:(left) E) as (x' & E' & H1 & H2 & H3). exists x'. split; [done|]. split; [done|]. split; [done|]. rewrite H2. apply IH; [|done]. intros q y Hq. apply H. by right.
Qed.
Lemma pchain_frame m p x b prev l head next : p ∉ l -> pchain m b prev l head next -> pchain (<[p := x]> m) b prev l head next.
Proof. intros Hp. apply pchain_ext. intros q y Hq E. exists y. split; [|done]. rewrite lookup_insert_ne; [done|]. by intros ->. Qed.
Lemma pchain_in m b l : forall prev head next p, pchain m b prev l head next -> p ∈ l -> p <> 0 /\ exists x, m !! p = Some x /\ bin x = b.
Proof.
  induction l as [|q l IH]; intros prev head next p; cbn; [by intros _ ?%elem_of_nil|]. intros (-> & Hq & x & E & _ & Hb & C) [->|Hin]%elem_of_cons; [split; [done|by exists x]|]. by apply (IH q (pnext x) next).
Qed.
Lemma pchain_app m b l1 l2 : forall prev head next, pchain m b prev (l1 ++ l2) head next <-> exists mid, pchain m b prev l1 head mid /\ pchain m b (List.last l1 prev) l2 mid next.
Proof.
  induction l1 as [|p l1 IH]; intros prev head next; [cbn; split; [intros H; by exists head|by intros (mid & -> & H)]|].
  assert (El : forall d, List.last (p :: l1) d = List.last l1 p) by (clear; intros d; revert d p; induction l1 as [|q l1 IH]; intros d p; [done|]; change (List.last (q :: l1) d = List.last (q :: l1) p); by rewrite !IH).
  rewrite El. cbn [app pchain]. split.
  - intros (-> & Hp & x & E & H1 & H2 & C). apply IH in C as (mid & C1 & C2). exists mid. split; [|done]. split; [done|]. split; [done|]. by exists x.
  - intros (mid & (-> & Hp & x & E & H1 & H2 & C1) & C2). split; [done|]. split; [done|]. exists x. repeat (split; [done|]). apply IH. by exists mid.
Qed.

(** The first node gets a new predecessor, the last one a new successor. *)
Lemma pchain_set_prev m b prev prev' l head next y : NoDup l -> l <> [] -> pchain m b prev l head next -> m !! head = Some y -> pchain (<[head := set_pprev prev' y]> m) b prev' l head next.
Proof.
  destruct l as [|p l]; cbn; [done|]. intros [Hp Hl]%NoDup_cons _ (-> & Hp0 & x & E & <- & <- & C) Ey. split; [done|]. split; [done|]. rewrite E in Ey. injection Ey as <-.
  exists (set_pprev prev' x). split; [apply lookup_insert_eq|]. split; [done|]. split; [done|]. by apply pchain_frame.
Qed.
Lemma pchain_set_next m b l q prev head next next' y : NoDup (l ++ [q]) -> pchain m b prev (l ++ [q]) head next -> m !! q = Some y -> pchain (<[q := set_pnext next' y]> m) b prev (l ++ [q]) head next'.
Proof.
  intros (_ & Hq & _)%NoDup_app. rewrite !pchain_app. intros (mid & C & (-> & Hq0 & x & E & H1 & H2 & _)) Ey. rewrite E in Ey. injection Ey as <-. exists q. split.
  - apply pchain_frame; [|done]. intros Hin. apply (Hq q Hin). by left.
  - split; [done|]. split; [done|]. exists (set_pnext next' x). split; [apply lookup_insert_eq|]. done.
Qed.

(** What linking and unlinking do to the descriptors: those of [l] may change, and
    only in their links. *)
Definition relinked (l : list Z) (m m' : gmap Z packed_page) : Prop :=
  (forall q y, m !! q = Some y -> exists y', m' !! q = Some y' /\ shape y y' /\ free_mask y' = free_mask y /\ (q ∉ l -> y' = y)) /\ (forall q, m !! q = None -> m' !! q = None).
Lemma relinked_refl l m : relinked l m m.
Proof. split; [|done]. intros q y E. by exists y. Qed.
Lemma relinked_insert l m p y y' : p ∈ l -> m !! p = Some y -> shape y y' -> free_mask y' = free_mask y -> relinked l m (<[p := y']> m).
Proof.
  intros Hp E Hs Hm. split.
  - intros q z Ez. destruct (decide (q = p)) as [->|Hq]; [|exists z; split; [by rewrite lookup_insert_ne|done]]. exists y'. rewrite E in Ez. injection Ez as ->. split; [apply lookup_insert_eq|]. done.
  - intros q Eq. rewrite lookup_insert_ne; [done|]. intros ->. congruence.
Qed.
Lemma relinked_trans l m1 m2 m3 : relinked l m1 m2 -> relinked l m2 m3 -> relinked l m1 m3.
Proof.
  intros [A1 A2] [B1 B2]. split; [|auto]. intros q y E. destruct (A1 q y E) as (y1 & E1 & (S1 & S2 & S3) & M1 & F1). destruct (B1 q y1 E1) as (y2 & E2 & (T1 & T2 & T3) & M2 & F2). exists y2.
  split; [done|]. split; [unfold shape; split_and!; congruence|]. split; [congruence|]. intros Hq. rewrite F2, F1 by done. done.
Qed.

(** [link_partial] and [unlink_partial] on a list. *)
Lemma arena_link_ok s b l head p x : 0 <= b -> partial s !! Z.to_nat b = Some head -> NoDup l -> p ∉ l -> p <> 0 -> pages s !! p = Some x -> bin x = b -> pchain (pages s) b 0 l head 0 ->
  exists m', link_partial p s = Ret (set_partial (<[Z.to_nat b := p]> (partial s)) (set_pages m' s)) /\ pchain m' b 0 (p :: l) p 0 /\ relinked (p :: l) (pages s) m'.
Proof.
  intros Hb0 Eh Hl Hp Hp0 Ep Hb C. unfold link_partial. rewrite Ep. cbn [deref]. rewrite ret_bind, Hb, (proj2 (arr_get_Some _ _ _) (conj Hb0 Eh)), ret_bind.
  set (m1 := <[p := set_pnext head (set_pprev 0 x)]> (pages s)). assert (C1 : pchain m1 b 0 l head 0) by by apply pchain_frame.
  assert (R1 : relinked (p :: l) (pages s) m1) by (apply (relinked_insert _ _ _ x); [left|done..]). assert (E1 : m1 !! p = Some (set_pnext head (set_pprev 0 x))) by apply lookup_insert_eq.
  assert (Es : forall m', (l ← arr_set (partial s) b p; Ret (set_partial l (set_pages m' s))) = Ret (set_partial (<[Z.to_nat b := p]> (partial s)) (set_pages m' s)))
    by (intros m'; rewrite arr_set_Ret; [done|]; apply lookup_lt_Some in Eh; lia).
  destruct l as [|h l].
  - cbn in C. subst head. cbn [Z.eqb]. rewrite ret_bind, Es. exists m1. split; [done|]. split; [|done]. split; [done|]. split; [done|]. by exists (set_pnext 0 (set_pprev 0 x)).
  - destruct C1 as (-> & Hh & y & E & H1 & H2 & C1). rewrite (proj2 (Z.eqb_neq h 0)) by done. rewrite E. cbn [deref]. rewrite !ret_bind, Es. exists (<[h := set_pprev p y]> m1). split; [done|].
    assert (Hph : p <> h) by (intros ->; apply Hp; left). split; [|eapply relinked_trans; [done|]; apply (relinked_insert _ _ _ y); [right; left|done..]].
    split; [done|]. split; [done|]. exists (set_pnext h (set_pprev 0 x)). split; [by rewrite lookup_insert_ne|]. split; [done|]. split; [done|].
    apply (pchain_set_prev _ _ 0); [done|done| |done]. split; [done|]. split; [done|]. by exists y.
Qed.

(** The second half of [unlink_partial]: the successor, and the node itself. *)
Lemma unlink_rest s b prev l p x : NoDup (p :: l) -> pages s !! p = Some x -> pchain (pages s) b p l (pnext x) 0 ->
  exists m', (s ← (if pnext x =? 0 then Ret s else q ← deref (pages s !! pnext x); Ret (set_pages (<[pnext x := set_pprev prev q]> (pages s)) s));
              x ← deref (pages s !! p); Ret (set_pages (<[p := set_pnext 0 (set_pprev 0 x)]> (pages s)) s)) = Ret (set_pages m' s) /\
    pchain m' b prev l (pnext x) 0 /\ relinked (p :: l) (pages s) m'.
Proof.
  intros [Hp Hl]%NoDup_cons Ep C. destruct l as [|h l].
  - cbn in C. rewrite C. cbn [Z.eqb]. rewrite ret_bind, Ep. cbn [deref]. rewrite ret_bind. eexists. split; [done|]. split; [done|]. apply (relinked_insert _ _ _ x); [left|done..].
  - pose proof C as (Eh & Hh & y & E & H1 & H2 & _). rewrite Eh in *. rewrite (proj2 (Z.eqb_neq _ 0)) by done. rewrite E. cbn [deref]. rewrite !ret_bind. cbn [pages set_pages]. assert (Hph : h <> p) by (intros ->; apply Hp; left).
    rewrite lookup_insert_ne, Ep by done. cbn [deref]. rewrite ret_bind. eexists. split; [done|]. split.
    + apply pchain_frame; [done|]. by apply (pchain_set_prev _ _ p).
    + eapply relinked_trans; [apply (relinked_insert _ _ h y (set_pprev prev y)); [right; left|done..]|]. apply (relinked_insert _ _ _ x); [left| |done..]. by rewrite lookup_insert_ne.
Qed.

Lemma arena_unlink_ok s b l1 p l2 head : 0 <= b -> partial s !! Z.to_nat b = Some head -> NoDup (l1 ++ p :: l2) -> pchain (pages s) b 0 (l1 ++ p :: l2) head 0 ->
  exists m' h', unlink_partial p s = Ret (set_partial (<[Z.to_nat b := h']> (partial s)) (set_pages m' s)) /\ pchain m' b 0 (l1 ++ l2) h' 0 /\ relinked (l1 ++ p :: l2) (pages s) m'.
Proof.
  intros Hb0 Eh Hl C. apply pchain_app in C as (mid & C1 & (-> & Hp0 & x & Ep & Hpr & Hb & C2)). unfold unlink_partial. rewrite Ep. cbn [deref]. rewrite ret_bind, Hpr, Hb.
  assert (Hx : pprev x = List.last l1 0) by done. pose proof (proj1 (NoDup_app _ _) Hl) as (Hl1 & Hd & Hl2). destruct l1 as [|q l1' _] using rev_ind.
  - cbn [List.last] in *. rewrite Z.eqb_refl. rewrite (arr_set_Ret (partial s)) by (apply lookup_lt_Some in Eh; lia). rewrite !ret_bind.
    destruct (unlink_rest (set_partial (<[Z.to_nat b := pnext x]> (partial s)) s) b 0 l2 p x Hl2 Ep C2) as (m' & -> & C & R). exists m', (pnext x). split; [done|]. split; [done|exact R].
  - rewrite last_last in *. pose proof (proj1 (pchain_app _ _ _ _ _ _ _) C1) as (mid & _ & (_ & Hq0 & y & Eq & _)). rewrite (proj2 (Z.eqb_neq q 0)) by done. rewrite Eq. cbn [deref]. rewrite !ret_bind.
    assert (Hqp : q <> p) by (intros ->; apply (Hd p); [apply elem_of_app; right; by left|left]). assert (Hq2 : q ∉ l2) by (intros Hin; apply (Hd q); [apply elem_of_app; right; by left|by right]).
    set (m1 := <[q := set_pnext (pnext x) y]> (pages s)). destruct (unlink_rest (set_pages m1 s) b q l2 p x Hl2) as (m' & -> & C & R).
    { unfold m1. cbn [pages set_pages]. by rewrite lookup_insert_ne. } { by apply pchain_frame. }
    cbn [pages set_pages] in R. exists m', head. split; [f_equal; unfold set_partial, set_pages; cbn; by rewrite list_insert_id by done|]. split.
    + apply pchain_app. exists (pnext x). rewrite last_last. split; [|done]. apply (pchain_ext m1).
      * intros r z Hr Ez. destruct R as [R _]. destruct (R r z Ez) as (z' & Ez' & _ & _ & F). exists z'. split; [done|]. rewrite F; [done|]. by apply Hd.
      * by apply (pchain_set_next _ _ _ _ _ _ p).
    + eapply relinked_trans; [apply (relinked_insert _ _ q y (set_pnext (pnext x) y)); [apply elem_of_app; left; apply elem_of_app; right; by left|done..]|]. split; [|apply R]. intros r z Ez. destruct R as [R _].
      destruct (R r z Ez) as (z' & Ez' & S1 & M1 & F). exists z'. split; [done|]. split; [done|]. split; [done|]. intros Hr. apply F. intros Hin. apply Hr. apply elem_of_app. by right.
Qed.

(** ** The invariant *)

(** Which object a slot has (its page and number), the pages that are charged, and
    for every size the pages with free objects. *)
Record arena := mk_arena { own : gmap Z (Z * Z); att : gset Z; ch : Z -> list Z }.

Section Arena.
Context (hhdm : Z) (Hhhdm : 0 <= hhdm).

Definition page_ok (a : arena) (s : zram) (p : Z) (x : packed_page) : Prop :=
  (p <> 0 /\ 0 <= bin x < 32 /\ psize x = size_of (bin x)) /\
  ((exists f, frames s !! phys x = Some f /\ length f = 4096%nat) /\ (4096 | phys x) /\ 0 < phys x /\ phys x + hhdm + 4096 <= 2 ^ 64) /\
  (0 <= free_mask x /\ forall i, 0 <= i -> Z.testbit (free_mask x) i = true <-> i < objects (psize x) /\ forall id, own a !! id <> Some (p, i)) /\
  (p ∈ att a <-> free_mask x <> all_objects (psize x)) /\ (p ∈ ch a (bin x) <-> p ∈ att a /\ free_mask x <> 0).
Definition chain_ok (m : gmap Z packed_page) (l : list Z) (b : Z) (c : list Z) : Prop := NoDup c /\ exists h, l !! Z.to_nat b = Some h /\ pchain m b 0 c h 0.

Record arena_ok (a : arena) (s : zram) : Prop := mk_arena_ok {
  ar_page : forall p x, pages s !! p = Some x -> page_ok a s p x;
  ar_frame : forall p x q y, pages s !! p = Some x -> pages s !! q = Some y -> phys x = phys y -> p = q;
  ar_att : forall p, p ∈ att a -> exists x, pages s !! p = Some x;
  ar_own : forall id p i, own a !! id = Some (p, i) -> exists x, pages s !! p = Some x /\ 0 <= i < objects (psize x);
  ar_inj : forall id id' o, own a !! id = Some o -> own a !! id' = Some o -> id = id';
  ar_len : length (partial s) = 32%nat;
  ar_chain : forall b, 0 <= b < 32 -> chain_ok (pages s) (partial s) b (ch a b) }.

Lemma page_frame a s p x : page_ok a s p x -> (exists f, frames s !! phys x = Some f /\ length f = 4096%nat) /\ (4096 | phys x) /\ 0 < phys x /\ phys x + hhdm + 4096 <= 2 ^ 64.
Proof. intros (_ & H & _). exact H. Qed.

(** *** Addresses *)

Lemma object_address a s p x i : page_ok a s p x -> 0 <= i < objects (psize x) ->
  object_at hhdm (phys x) i (psize x) <> 0 /\ frame_of hhdm (object_at hhdm (phys x) i (psize x)) = phys x /\ offset_of hhdm (object_at hhdm (phys x) i (psize x)) = i * psize x /\
  i * psize x + psize x <= 4096 /\ 0 <= i * psize x.
Proof.
  intros ((_ & Hb & Es) & (_ & [k Hk] & Hp & Hh) & _) Hi. rewrite Es in *. destruct (objects_room (bin x) i Hb Hi) as [H0 Hr]. assert (Hs : 64 <= size_of (bin x)) by (unfold size_of; lia).
  unfold frame_of, offset_of, object_at. rewrite (u64_id (phys x + hhdm + _)) by lia. rewrite u64_id by lia. replace (phys x + hhdm + i * size_of (bin x) - hhdm) with (i * size_of (bin x) + k * 4096) by lia.
  rewrite Z.div_add, Z.mod_add, Z.div_small, Z.mod_small by lia. lia.
Qed.

Lemma object_index a s p x i : page_ok a s p x -> 0 <= i < objects (psize x) -> u32 (u64 (object_at hhdm (phys x) i (psize x) - phys x - hhdm) / psize x) = i.
Proof.
  intros P Hi. pose proof P as ((_ & Hb & Es) & (_ & _ & Hp & Hh) & _). destruct (object_address a s p x i P Hi) as (_ & _ & _ & Hr & H0). assert (Hs : 64 <= psize x) by (rewrite Es; unfold size_of; lia).
  unfold object_at. rewrite (u64_id (phys x + hhdm + _)) by lia. rewrite u64_id by lia. replace (phys x + hhdm + i * psize x - phys x - hhdm) with (i * psize x) by lia. rewrite Z.div_mul by lia.
  apply u32_id. pose proof (objects_bounds (bin x) Hb). rewrite <- Es in *. lia.
Qed.

(** What is in an object after a copy into it, and that other objects stay. *)
Definition splice (k : nat) (bytes f : list Z) : list Z := take k f ++ bytes ++ drop (k + length bytes) f.
Lemma splice_length k bytes f : (k + length bytes <= length f)%nat -> length (splice k bytes f) = length f.
Proof. intros H. unfold splice. rewrite !length_app, length_take, length_drop. lia. Qed.
Lemma splice_same k bytes f : (k + length bytes <= length f)%nat -> take (length bytes) (drop k (splice k bytes f)) = bytes.
Proof.
  intros H. unfold splice. rewrite drop_app_ge by (rewrite length_take; lia). rewrite length_take, Nat.min_l by lia. rewrite Nat.sub_diag, drop_0. apply take_app_length.
Qed.
Lemma splice_other k bytes f o n : (k + length bytes <= length f)%nat -> (o + n <= k \/ k + length bytes <= o)%nat -> take n (drop o (splice k bytes f)) = take n (drop o f).
Proof.
  intros H Ho. apply list_eq. intros j. rewrite !lookup_take, !lookup_drop. case_decide as Hj; [|done]. unfold splice. destruct (decide (o + j < k)%nat) as [Hlt|Hge].
  - rewrite lookup_app_l by (rewrite length_take; lia). apply lookup_take_lt. lia.
  - rewrite lookup_app_r by (rewrite length_take; lia). rewrite length_take, Nat.min_l by lia. rewrite lookup_app_r by lia. rewrite lookup_drop. f_equal. lia.
Qed.

Lemma object_write a s p x i bytes : page_ok a s p x -> 0 <= i < objects (psize x) -> Z.of_nat (length bytes) <= psize x ->
  exists f, frames s !! phys x = Some f /\ length f = 4096%nat /\
    memcpy_to hhdm (object_at hhdm (phys x) i (psize x)) bytes s = Ret (set_frames (<[phys x := splice (Z.to_nat (i * psize x)) bytes f]> (frames s)) s).
Proof.
  intros P Hi Hn. destruct (object_address a s p x i P Hi) as (_ & Ef & Eo & Hr & H0). destruct (page_frame a s p x P) as ((f & E & Hl) & _). exists f. split; [done|]. split; [done|].
  unfold memcpy_to. rewrite Ef, Eo, E. cbn [deref]. rewrite ret_bind, (proj2 (Nat.leb_le _ _)) by lia. done.
Qed.
Lemma object_read a s p x i n : page_ok a s p x -> 0 <= i < objects (psize x) -> 0 <= n <= psize x -> forall f, frames s !! phys x = Some f -> length f = 4096%nat ->
  memcpy_from hhdm (object_at hhdm (phys x) i (psize x)) n s = Ret (take (Z.to_nat n) (drop (Z.to_nat (i * psize x)) f)).
Proof.
  intros P Hi Hn f E Hl. destruct (object_address a s p x i P Hi) as (_ & Ef & Eo & Hr & H0). unfold memcpy_from. rewrite Ef, Eo, E. cbn [deref]. rewrite ret_bind, (proj2 (Nat.leb_le _ _)) by lia. done.
Qed.

Lemma copy_ok a s p x i bytes : arena_ok a s -> pages s !! p = Some x -> 0 <= i < objects (psize x) -> Z.of_nat (length bytes) <= psize x ->
  exists fs, memcpy_to hhdm (object_at hhdm (phys x) i (psize x)) bytes s = Ret (set_frames fs s) /\ arena_ok a (set_frames fs s) /\
    memcpy_from hhdm (object_at hhdm (phys x) i (psize x)) (Z.of_nat (length bytes)) (set_frames fs s) = Ret bytes /\
    forall q y j n, pages s !! q = Some y -> 0 <= j < objects (psize y) -> 0 <= n <= psize y -> (q, j) <> (p, i) ->
      memcpy_from hhdm (object_at hhdm (phys y) j (psize y)) n (set_frames fs s) = memcpy_from hhdm (object_at hhdm (phys y) j (psize y)) n s.
Proof.
  intros A E Hi Hn. pose proof (ar_page _ _ A p x E) as P. destruct (object_write a s p x i bytes P Hi Hn) as (f & Ef & Hl & ->). destruct (object_address a s p x i P Hi) as (_ & _ & _ & Hr & H0).
  set (k := Z.to_nat (i * psize x)). set (fs := <[phys x := splice k bytes f]> (frames s)). assert (Hk : (k + length bytes <= length f)%nat) by lia. pose proof (splice_length k bytes f Hk) as Hsl.
  assert (A' : arena_ok a (set_frames fs s)).
  { destruct A as [A1 A2 A3 A4 A5 A6 A7]. constructor; try done. intros q y Ey. destruct (A1 q y Ey) as (H1 & ((g & Eg & Hg) & H2) & H3). split; [done|]. split; [|done]. split; [|done].
    unfold fs. cbn [frames set_frames]. destruct (decide (phys y = phys x)) as [->|Hne]; [|exists g; by rewrite lookup_insert_ne]. exists (splice k bytes f). rewrite lookup_insert_eq. split; [done|lia]. }
  exists fs. split; [done|]. split; [done|]. split.
  - rewrite (object_read a _ p x i (Z.of_nat (length bytes)) (ar_page _ _ A' p x E) Hi ltac:(lia) (splice k bytes f)); [|apply lookup_insert_eq|lia]. fold k. rewrite Nat2Z.id, splice_same by done. done.
  - intros q y j n Ey Hj Hn' Hne. pose proof (ar_page _ _ A q y Ey) as Py. destruct (page_frame a s q y Py) as ((g & Eg & Hg) & _). rewrite (object_read a s q y j n Py Hj Hn' g Eg Hg).
    destruct (decide (phys y = phys x)) as [Ep|Hp].
    + assert (q = p) as -> by by apply (ar_frame _ _ A q y p x). rewrite E in Ey. injection Ey as <-. rewrite Ef in Eg. injection Eg as <-.
      rewrite (object_read a _ p x j n (ar_page _ _ A' p x E) Hj Hn' (splice k bytes f)); [|apply lookup_insert_eq|lia]. f_equal. apply splice_other; [done|].
      destruct (object_address a s p x j P Hj) as (_ & _ & _ & _ & Hj0). assert (i <> j) by congruence. assert (0 <= psize x) by lia. unfold k. nia.
    + apply (object_read a _ q y j n (ar_page _ _ A' q y Ey) Hj Hn' g); [|done]. unfold fs. cbn [frames set_frames]. by rewrite lookup_insert_ne.
Qed.

(** ** Changing the mask of one page *)

(** The descriptors [m'] are those of [m] with the mask of [p] changed and with
    other links. *)
Definition remasked (p mask : Z) (m m' : gmap Z packed_page) : Prop :=
  (forall q y, m !! q = Some y -> exists y', m' !! q = Some y' /\ shape y y' /\ free_mask y' = if decide (q = p) then mask else free_mask y) /\ (forall q, m !! q = None -> m' !! q = None).
Lemma remasked_relinked p x mask l m m' : m !! p = Some x -> relinked l (<[p := set_mask mask x]> m) m' -> remasked p mask m m'.
Proof.
  intros E [R1 R2]. split.
  - intros q y Ey. destruct (decide (q = p)) as [->|Hq].
    + rewrite E in Ey. injection Ey as <-. destruct (R1 p (set_mask mask x) (lookup_insert_eq _ _ _)) as (y' & Ey' & S & Hm & _). exists y'. split; [done|]. split; [exact S|done].
    + destruct (R1 q y) as (y' & Ey' & S & Hm & _); [by rewrite lookup_insert_ne|]. by exists y'.
  - intros q Eq. apply R2. rewrite lookup_insert_ne; [done|]. intros ->. congruence.
Qed.

Lemma remasked_inv p mask m m' q y' : remasked p mask m m' -> m' !! q = Some y' -> exists y, m !! q = Some y /\ shape y y' /\ free_mask y' = if decide (q = p) then mask else free_mask y.
Proof. intros [R1 R2] E. destruct (m !! q) as [y|] eqn:Ey; [|by rewrite (R2 q Ey) in E]. destruct (R1 q y Ey) as (y2 & E2 & H). rewrite E in E2. injection E2 as <-. by exists y. Qed.

Lemma arena_update a s own' att' ch' m' l' p x mask :
  arena_ok a s -> pages s !! p = Some x -> remasked p mask (pages s) m' -> length l' = 32%nat -> (forall b, 0 <= b < 32 -> chain_ok m' l' b (ch' b)) ->
  (forall b q, q <> p -> q ∈ ch' b <-> q ∈ ch a b) -> (forall q, q <> p -> q ∈ att' <-> q ∈ att a) -> (forall id q i, q <> p -> own' !! id = Some (q, i) <-> own a !! id = Some (q, i)) ->
  0 <= mask -> (forall i, 0 <= i -> Z.testbit mask i = true <-> i < objects (psize x) /\ forall id, own' !! id <> Some (p, i)) ->
  (p ∈ att' <-> mask <> all_objects (psize x)) -> (p ∈ ch' (bin x) <-> p ∈ att' /\ mask <> 0) ->
  (forall id i, own' !! id = Some (p, i) -> 0 <= i < objects (psize x)) -> (forall id id' o, own' !! id = Some o -> own' !! id' = Some o -> id = id') ->
  arena_ok (mk_arena own' att' ch') (set_partial l' (set_pages m' s)).
Proof.
  intros [A1 A2 A3 A4 A5 A6 A7] E R Hl Hc Hch Hatt Hown Hm0 Hm Ha Hcp Hop Hinj. constructor; cbn [own att ch pages partial set_partial set_pages]; try done.
  - intros q y' Ey'. destruct (remasked_inv _ _ _ _ _ _ R Ey') as (y & Ey & (S1 & S2 & S3) & Hmy). destruct (A1 q y Ey) as (H1 & H2 & H3 & H4 & H5). unfold page_ok. cbn [own att ch]. rewrite S1, S2, S3, Hmy.
    destruct (decide (q = p)) as [->|Hq]; [rewrite E in Ey; injection Ey as <-; done|]. split; [done|]. split; [done|]. split; [|split; [rewrite Hatt by done; exact H4|rewrite Hch, Hatt by done; exact H5]].
    split; [apply H3|]. intros i Hi. rewrite (proj2 H3 i Hi). split; intros [B1 B2]; (split; [done|]); intros id He; apply (B2 id); by apply Hown.
  - intros q y' r z' Ey' Ez' Ep. destruct (remasked_inv _ _ _ _ _ _ R Ey') as (y & Ey & (S1 & _) & _). destruct (remasked_inv _ _ _ _ _ _ R Ez') as (z & Ez & (T1 & _) & _). apply (A2 q y r z); congruence.
  - intros q Hq. destruct (decide (q = p)) as [->|Hne]; [|apply Hatt in Hq; [|done]; apply A3 in Hq as [y Ey]]; [destruct (proj1 R p x E) as (x' & Ex' & _)|destruct (proj1 R q y Ey) as (x' & Ex' & _)]; by exists x'.
  - intros id q i He. destruct (decide (q = p)) as [->|Hne].
    + destruct (proj1 R p x E) as (x' & Ex' & (_ & S2 & _) & _). exists x'. rewrite S2. split; [done|]. by apply (Hop id).
    + apply Hown in He; [|done]. apply A4 in He as (y & Ey & Hi). destruct (proj1 R q y Ey) as (y' & Ey' & (_ & S2 & _) & _). exists y'. by rewrite S2.
Qed.

(** A chain of pages of another size is not affected. *)
Lemma chain_other a s p x mask l m' b l' : arena_ok a s -> pages s !! p = Some x -> relinked l (<[p := set_mask mask x]> (pages s)) m' -> (forall q, q ∈ l -> exists y, pages s !! q = Some y /\ bin y = bin x) ->
  0 <= b < 32 -> b <> bin x -> l' !! Z.to_nat b = partial s !! Z.to_nat b -> chain_ok m' l' b (ch a b).
Proof.
  intros A E [R _] Hl Hb Hne El. destruct (ar_chain _ _ A b Hb) as (Hnd & h & Eh & C). split; [done|]. exists h. split; [congruence|]. apply (pchain_ext (pages s)); [|done].
  intros q y Hq Ey. destruct (pchain_in _ _ _ _ _ _ q C Hq) as (_ & y0 & Ey0 & Hby). rewrite Ey in Ey0. injection Ey0 as <-. assert (Hqp : q <> p) by (intros ->; rewrite E in Ey; injection Ey as <-; congruence).
  destruct (R q y) as (y' & Ey' & _ & _ & F); [by rewrite lookup_insert_ne|]. exists y'. split; [done|]. rewrite F; [done|]. intros Hin. destruct (Hl q Hin) as (z & Ez & Hz). rewrite Ey in Ez. injection Ez as <-. congruence.
Qed.
(** The links of a descriptor do not depend on its mask. *)
Lemma pchain_mask m b prev l head next p x mask : m !! p = Some x -> pchain m b prev l head next -> pchain (<[p := set_mask mask x]> m) b prev l head next.
Proof.
  intros E. apply pchain_ext. intros q y Hq Ey. destruct (decide (q = p)) as [->|Hne]; [|exists y; split; [by rewrite lookup_insert_ne|done]]. rewrite E in Ey. injection Ey as <-.
  exists (set_mask mask x). split; [apply lookup_insert_eq|done].
Qed.

Lemma mask_high a s p x : page_ok a s p x -> forall k, 64 <= k -> Z.testbit (free_mask x) k = false.
Proof.
  intros ((_ & Hb & Es) & _ & (_ & Hm) & _) k Hk. apply not_true_iff_false. intros H. apply Hm in H as [H _]; [|lia]. pose proof (objects_bounds (bin x) Hb). rewrite <- Es in *. lia.
Qed.

(** ** The operations *)

Definition set_ch (f : Z -> list Z) (b : Z) (l : list Z) : Z -> list Z := fun b' => if decide (b' = b) then l else f b'.

Lemma chain_bins a s b : arena_ok a s -> 0 <= b < 32 -> forall q, q ∈ ch a b -> exists y, pages s !! q = Some y /\ bin y = b.
Proof. intros A Hb q Hq. destruct (ar_chain _ _ A b Hb) as (_ & h & _ & C). destruct (pchain_in _ _ _ _ _ _ q C Hq) as (_ & H). exact H. Qed.

(** The objects of [p] that are owned after a change of its mask; those of other
    pages stay. *)
Record own_change (a : arena) (p : Z) (x : packed_page) (mask : Z) (own' : gmap Z (Z * Z)) : Prop := mk_own_change {
  oc_other : forall id q i, q <> p -> own' !! id = Some (q, i) <-> own a !! id = Some (q, i);
  oc_mask : 0 <= mask /\ forall i, 0 <= i -> Z.testbit mask i = true <-> i < objects (psize x) /\ forall id, own' !! id <> Some (p, i);
  oc_range : forall id i, own' !! id = Some (p, i) -> 0 <= i < objects (psize x);
  oc_inj : forall id id' o, own' !! id = Some o -> own' !! id' = Some o -> id = id' }.

Lemma own_add a s id p x i : arena_ok a s -> own a !! id = None -> pages s !! p = Some x -> 0 <= i -> Z.testbit (free_mask x) i = true ->
  own_change a p x (clear_bit (free_mask x) i) (<[id := (p, i)]> (own a)) /\ clear_bit (free_mask x) i <> all_objects (psize x).
Proof.
  intros A Hid E Hi Hbit. pose proof (ar_page _ _ A p x E) as P. pose proof (mask_high a s p x P) as Hh. pose proof P as ((_ & Hb & Es) & _ & (Hm0 & Hm) & _). destruct (proj1 (Hm i Hi) Hbit) as [Hio Hfree]. split; [constructor|].
  - intros id' q j Hq. destruct (decide (id' = id)) as [->|Hne]; [rewrite lookup_insert_eq, Hid; split; congruence|by rewrite lookup_insert_ne].
  - split; [unfold clear_bit; apply Z.land_nonneg; lia|]. intros j Hj. rewrite clear_bit_spec, andb_true_iff, bool_decide_eq_true by done. rewrite (Hm j Hj). split.
    + intros [[H1 H2] H3]. split; [done|]. intros id'. destruct (decide (id' = id)) as [->|Hne]; [rewrite lookup_insert_eq; congruence|rewrite lookup_insert_ne by done; apply H2].
    + intros [H1 H2]. split; [split; [done|]|]; [|intros ->; apply (H2 id); apply lookup_insert_eq]. intros id' He. apply (H2 id'). rewrite lookup_insert_ne; [done|]. intros ->. congruence.
  - intros id' j. destruct (decide (id' = id)) as [->|Hne]; [rewrite lookup_insert_eq; intros [= <-]; lia|rewrite lookup_insert_ne by done]. intros He. apply (ar_own _ _ A) in He as (y & Ey & Hj). rewrite E in Ey. injection Ey as <-. done.
  - intros id1 id2 o. destruct (decide (id1 = id)) as [->|H1], (decide (id2 = id)) as [->|H2]; [done| | |]; rewrite ?lookup_insert_eq, ?lookup_insert_ne by done.
    + intros [= <-] He. by destruct (Hfree id2). + intros He [= <-]. by destruct (Hfree id1). + apply (ar_inj _ _ A).
  - intros Eq. assert (Hb2 : Z.testbit (all_objects (psize x)) i = true) by (rewrite Es, all_bits, bool_decide_eq_true, <- Es by done; done). rewrite <- Eq, clear_bit_spec, andb_true_iff, bool_decide_eq_true in Hb2 by done. by destruct Hb2.
Qed.

Lemma own_del a s id p x i : arena_ok a s -> own a !! id = Some (p, i) -> pages s !! p = Some x -> own_change a p x (Z.lor (free_mask x) (bit i)) (delete id (own a)) /\ p ∈ att a /\ Z.lor (free_mask x) (bit i) <> 0.
Proof.
  intros A Hid E. pose proof (ar_page _ _ A p x E) as ((_ & Hb & Es) & _ & (Hm0 & Hm) & Hatt & _). destruct (ar_own _ _ A _ _ _ Hid) as (y & Ey & Hi). rewrite E in Ey. injection Ey as <-.
  assert (Hbits : forall j, 0 <= j -> Z.testbit (Z.lor (free_mask x) (bit i)) j = true <-> j < objects (psize x) /\ forall id', delete id (own a) !! id' <> Some (p, j)).
  { intros j Hj. rewrite Z.lor_spec, orb_true_iff, testbit_bit, bool_decide_eq_true, (Hm j Hj) by done. split.
    - intros [[H1 H2]| ->]; (split; [lia|]); intros id' He; apply lookup_delete_Some in He as [Hne He]; [by apply (H2 id')|]. apply Hne. by apply (ar_inj _ _ A id id' (p, i)).
    - intros [H1 H2]. destruct (decide (j = i)) as [->|Hne]; [by right|left]. split; [done|]. intros id' He. apply (H2 id'). apply lookup_delete_Some. split; [|done]. intros ->. congruence. }
  split; [constructor|split].
  - intros id' q j Hq. rewrite lookup_delete_Some. split; [by intros [_ ?]|]. intros He. split; [|done]. intros ->. congruence.
  - split; [|exact Hbits]. apply Z.lor_nonneg. split; [done|]. unfold bit. apply Z.shiftl_nonneg. lia.
  - intros id' j He. apply lookup_delete_Some in He as [_ He]. apply (ar_own _ _ A) in He as (y & Ey & Hj). rewrite E in Ey. injection Ey as <-. done.
  - intros id1 id2 o H1 H2. apply lookup_delete_Some in H1 as [_ H1], H2 as [_ H2]. by apply (ar_inj _ _ A id1 id2 o).
  - apply Hatt. intros Eq. assert (Hb2 : Z.testbit (all_objects (psize x)) i = true) by (rewrite Es, all_bits, bool_decide_eq_true, <- Es by lia; lia). rewrite <- Eq in Hb2. apply Hm in Hb2 as [_ H]; [|lia]. by apply (H id).
  - intros E0. assert (H : Z.testbit (Z.lor (free_mask x) (bit i)) i = true) by (rewrite Z.lor_spec, testbit_bit, orb_true_iff by lia; right; by apply bool_decide_eq_true). rewrite E0, Z.bits_0 in H. done.
Qed.

(** The new state of the pool after the mask of [p] changed and its list became [c]. *)
Lemma relist_ok a s p x mask own' att' L m' h' c : arena_ok a s -> pages s !! p = Some x -> own_change a p x mask own' -> relinked L (<[p := set_mask mask x]> (pages s)) m' ->
  (forall q, q ∈ L -> exists y, pages s !! q = Some y /\ bin y = bin x) -> NoDup c -> pchain m' (bin x) 0 c h' 0 -> (forall q, q <> p -> q ∈ c <-> q ∈ ch a (bin x)) ->
  (forall q, q <> p -> q ∈ att' <-> q ∈ att a) -> (p ∈ att' <-> mask <> all_objects (psize x)) -> (p ∈ c <-> p ∈ att' /\ mask <> 0) ->
  remasked p mask (pages s) m' /\ arena_ok (mk_arena own' att' (set_ch (ch a) (bin x) c)) (set_partial (<[Z.to_nat (bin x) := h']> (partial s)) (set_pages m' s)).
Proof.
  intros A E [O1 [O2 O3] O4 O5] R HL Hnd C Hc Hatt Ha Hp. pose proof (remasked_relinked p x mask _ _ _ E R) as R'. split; [done|]. pose proof (ar_page _ _ A p x E) as ((_ & Hb & _) & _).
  apply (arena_update a s _ _ _ m' _ p x mask A E R'); try done.
  - by rewrite length_insert, (ar_len _ _ A).
  - intros b Hb'. unfold set_ch. destruct (decide (b = bin x)) as [->|Hne].
    + split; [done|]. exists h'. split; [|done]. apply list_lookup_insert_eq. rewrite (ar_len _ _ A). lia.
    + eapply (chain_other a s p x mask _ m'); try done. rewrite list_lookup_insert_ne by lia. done.
  - intros b q Hq. unfold set_ch. destruct (decide (b = bin x)) as [->|Hne]; [by apply Hc|done].
  - unfold set_ch. rewrite decide_True by done. done.
Qed.

(** Taking object [i] of page [p], which is the first of its list. *)
Lemma arena_take_ok a s id p x i : arena_ok a s -> own a !! id = None -> pages s !! p = Some x -> Z.testbit (free_mask x) i = true -> 0 <= i -> (exists l, ch a (bin x) = p :: l) ->
  exists m' l' c', (if clear_bit (free_mask x) i =? 0 then unlink_partial p (set_pages (<[p := set_mask (clear_bit (free_mask x) i) x]> (pages s)) s)
                    else Ret (set_pages (<[p := set_mask (clear_bit (free_mask x) i) x]> (pages s)) s)) = Ret (set_partial l' (set_pages m' s)) /\
    remasked p (clear_bit (free_mask x) i) (pages s) m' /\ arena_ok (mk_arena (<[id := (p, i)]> (own a)) (att a) c') (set_partial l' (set_pages m' s)).
Proof.
  intros A Hid E Hbit Hi [l Hl]. destruct (own_add a s id p x i A Hid E Hi Hbit) as [O Hall]. set (mask := clear_bit (free_mask x) i) in *. pose proof (ar_page _ _ A p x E) as ((_ & Hb & _) & _ & _ & Hatt & Hch).
  assert (Hpatt : p ∈ att a) by (apply Hch; rewrite Hl; left). destruct (ar_chain _ _ A (bin x) Hb) as (Hnd & h & Eh & C). rewrite Hl in Hnd, C. pose proof (proj1 (NoDup_cons _ _) Hnd) as [Hpl Hnd'].
  assert (HL : forall q, q ∈ p :: l -> exists y, pages s !! q = Some y /\ bin y = bin x) by (rewrite <- Hl; by apply chain_bins). destruct (mask =? 0) eqn:E0; reify_bools.
  - destruct (arena_unlink_ok (set_pages (<[p := set_mask mask x]> (pages s)) s) (bin x) [] p l h) as (m' & h' & -> & C' & R); [lia|done|done|by apply pchain_mask|]. eexists m', _, _. split; [done|].
    apply (relist_ok a s p x mask _ _ _ m' h' l A E O R HL Hnd' C'); try done; [intros q Hq; rewrite Hl, elem_of_cons; tauto|]. split; [done|by intros [_ ?]].
  - eexists _, (<[Z.to_nat (bin x) := h]> (partial s)), _. split; [by rewrite list_insert_id by done|].
    apply (relist_ok a s p x mask _ _ [] _ h (p :: l) A E O (relinked_refl _ _)); try done; [by intros q ?%elem_of_nil|by apply pchain_mask|intros q Hq; by rewrite Hl|]. split; [done|left].
Qed.

Lemma bin_of_bounds n : 0 < n <= 2048 -> 0 <= bin_of n < 32 /\ n <= size_of (bin_of n).
Proof.
  intros Hn. unfold bin_of, size_of, nz. rewrite (proj2 (Z.eqb_neq n 0)) by lia. cbn [negb]. pose proof (Z.div_mod (n + 63) 64 ltac:(lia)). pose proof (Z.mod_pos_bound (n + 63) 64 ltac:(lia)). lia.
Qed.

(** The locked part of [packed_alloc] that looks for an object. *)
Lemma arena_find_ok a s id n : arena_ok a s -> own a !! id = None -> 0 < n <= 2048 ->
  (exists p x i m' l' c', packed_find hhdm n s = Ret (Found p (object_at hhdm (phys x) i (psize x)), set_partial l' (set_pages m' s)) /\ pages s !! p = Some x /\ n <= psize x /\ 0 <= i < objects (psize x) /\
     (exists mask, remasked p mask (pages s) m') /\ arena_ok (mk_arena (<[id := (p, i)]> (own a)) (att a) c') (set_partial l' (set_pages m' s))) \/
  packed_find hhdm n s = Ret (if (memory_bytes (stats s) >? memory_limit (stats s)) || (PACKED_CHARGE >? memory_limit (stats s) - memory_bytes (stats s)) then (NoRoom, s)
                              else (Reserve, set_memory (u64 (memory_bytes (stats s) + PACKED_CHARGE)) s)) /\ ch a (bin_of n) = [].
Proof.
  intros A Hid Hn. destruct (bin_of_bounds n Hn) as [Hb Hsz]. destruct (ar_chain _ _ A _ Hb) as (Hnd & h & Eh & C). unfold packed_find. rewrite (proj2 (arr_get_Some _ _ _) (conj (proj1 Hb) Eh)), ret_bind.
  destruct (ch a (bin_of n)) as [|p l] eqn:Hl.
  { right. cbn in C. subst h. cbn [nz Z.eqb negb]. split; [|done]. by destruct (_ || _). }
  left. destruct C as (-> & Hp0 & x & E & _ & Hbx & _). unfold nz. rewrite (proj2 (Z.eqb_neq p 0)) by done. cbn [negb]. rewrite E. cbn [deref]. rewrite ret_bind.
  pose proof (ar_page _ _ A p x E) as P. pose proof P as ((_ & _ & Es) & _ & (Hm0 & Hm) & _ & Hch). assert (Hmne : free_mask x <> 0) by (apply Hch; rewrite Hbx, Hl; left).
  destruct (ctzll_ok (free_mask x) Hmne Hm0 (mask_high a s p x P)) as (i & -> & Hi & Hbit). rewrite ret_bind. destruct (proj1 (Hm i (proj1 Hi)) Hbit) as [Hio _].
  destruct (arena_take_ok a s id p x i A Hid E Hbit (proj1 Hi)) as (m' & l' & c' & Et & R & A'); [rewrite Hbx; by exists l|]. fold (clear_bit (free_mask x) i). rewrite Et, ret_bind.
  exists p, x, i, m', l', c'. rewrite Es, Hbx in *. split; [done|]. split; [done|]. split; [done|]. split; [lia|]. split; [by eexists|done].
Qed.

(** A descriptor outside the lists with no object in use. *)
Lemma arena_add_ok a s node ph stale b : arena_ok a s -> node <> 0 -> pages s !! node = None -> 0 < ph -> (4096 | ph) -> ph + hhdm + 4096 <= 2 ^ 64 -> length stale = 4096%nat ->
  (forall p x, pages s !! p = Some x -> phys x <> ph) -> 0 <= b < 32 ->
  arena_ok a (set_frames (<[ph := stale]> (frames s)) (set_pages (<[node := mk_packed ph 0 0 (all_objects (size_of b)) (size_of b) b]> (pages s)) s)).
Proof.
  intros A Hnode En Hph Hal Hhi Hst Hfr Hb. assert (Hnown : forall id i, own a !! id <> Some (node, i)) by (intros id i He; apply (ar_own _ _ A) in He as (y & Ey & _); congruence).
  assert (Hnatt : node ∉ att a) by (intros Hin; apply (ar_att _ _ A) in Hin as [y Ey]; congruence).
  assert (Hnch : node ∉ ch a b) by (intros Hin; destruct (chain_bins a s b A Hb node Hin) as (y & Ey & _); congruence). pose proof A as [A1 A2 A3 A4 A5 A6 A7]. constructor; cbn [pages partial set_pages set_frames]; try done.
  - intros q y. destruct (decide (q = node)) as [->|Hq].
    + rewrite lookup_insert_eq. intros [= <-]. unfold page_ok. cbn [phys psize bin free_mask frames set_frames]. split; [done|]. split; [split; [exists stale; split; [apply lookup_insert_eq|done]|done]|].
      split; [split|split; [done|split; [done|by intros [? _]]]].
      * pose proof (all_bits b) as Hab. unfold all_objects. destruct (_ =? 64); [done|apply u64_range].
      * intros i Hi. rewrite all_bits, bool_decide_eq_true by done. split; [intros H; split; [done|intros id; apply Hnown]|by intros [? _]].
    + rewrite lookup_insert_ne by done. intros Ey. destruct (A1 q y Ey) as (H1 & ((f & Ef & Hf) & H2) & H3). split; [done|]. split; [split; [|done]|done]. exists f. split; [|done]. cbn [frames set_frames].
      rewrite lookup_insert_ne; [done|]. intros Eq. by apply (Hfr q y).
  - intros q y r z. destruct (decide (q = node)) as [->|Hq], (decide (r = node)) as [->|Hr]; rewrite ?lookup_insert_eq, ?lookup_insert_ne by done; [done| | |apply A2].
    + intros [= <-] Ez Ep. by destruct (Hfr r z Ez). + intros Ey [= <-] Ep. by destruct (Hfr q y Ey).
  - intros q Hq. destruct (A3 q Hq) as [y Ey]. exists y. rewrite lookup_insert_ne; [done|]. by intros ->.
  - intros id q i He. destruct (A4 id q i He) as (y & Ey & Hi). exists y. rewrite lookup_insert_ne; [done|]. intros ->. congruence.
  - intros b' Hb'. destruct (A7 b' Hb') as (Hnd & h & Eh & C). split; [done|]. exists h. split; [done|]. apply pchain_frame; [|done]. intros Hin. destruct (chain_bins a s b' A Hb' node Hin) as (y & Ey & _). congruence.
Qed.

(** A new page, whose first object is taken. *)
Lemma grow_ok a s id n node ph stale : arena_ok a s -> own a !! id = None -> 0 < n <= 2048 -> node <> 0 -> pages s !! node = None -> 0 < ph -> (4096 | ph) -> ph + hhdm + 4096 <= 2 ^ 64 -> length stale = 4096%nat ->
  (forall p x, pages s !! p = Some x -> phys x <> ph) ->
  exists x m' l' c', packed_grow hhdm n node (ph, stale) s = Ret (node, object_at hhdm (phys x) 0 (psize x), set_partial l' (set_pages m' (set_frames (<[ph := stale]> (frames s)) s))) /\
    phys x = ph /\ n <= psize x /\ 0 < objects (psize x) /\ m' !! node = Some x /\ (forall q y, pages s !! q = Some y -> exists y', m' !! q = Some y' /\ shape y y') /\ (forall q, q <> node -> pages s !! q = None -> m' !! q = None) /\
    arena_ok (mk_arena (<[id := (node, 0)]> (own a)) ({[node]} ∪ att a) c') (set_partial l' (set_pages m' (set_frames (<[ph := stale]> (frames s)) s))).
Proof.
  intros A Hid Hn Hnode En Hph Hal Hhi Hst Hfr. destruct (bin_of_bounds n Hn) as [Hb Hsz]. set (b := bin_of n) in *. pose proof (objects_bounds b Hb) as Hob.
  unfold packed_grow. fold b. rewrite (proj2 (Z.eqb_neq node 0)), (proj2 (Z.eqb_neq ph 0)) by lia. cbn [orb]. rewrite (u16_id (size_of b)), (u16_id b) by (unfold size_of; lia). change (u64 (Z.lnot 1)) with (u64 (Z.lnot (bit 0))).
  fold (clear_bit (all_objects (size_of b)) 0). pose proof (arena_add_ok a s node ph stale b A Hnode En Hph Hal Hhi Hst Hfr Hb) as A1. set (x1 := mk_packed ph 0 0 (all_objects (size_of b)) (size_of b) b) in *.
  set (s1 := set_frames _ _) in A1. assert (E1 : pages s1 !! node = Some x1) by apply lookup_insert_eq. assert (Hbit : Z.testbit (free_mask x1) 0 = true) by (cbn [free_mask x1]; rewrite all_bits, bool_decide_eq_true by lia; lia).
  destruct (own_add a s1 id node x1 0 A1 Hid E1 ltac:(lia) Hbit) as [O Hall]. cbn [free_mask x1 psize] in O, Hall. set (mask := clear_bit (all_objects (size_of b)) 0) in *.
  assert (Hm0 : mask <> 0).
  { intros E0. destruct O as [_ [_ O] _ _]. assert (H1 : Z.testbit mask 1 = true) by (unfold mask; rewrite clear_bit_spec, all_bits; [by rewrite !bool_decide_true by lia|lia..|]; intros k Hk; rewrite all_bits by lia; apply bool_decide_eq_false; lia). rewrite E0, Z.bits_0 in H1. done. }
  assert (Em : <[node := mk_packed ph 0 0 mask (size_of b) b]> (pages s) = <[node := set_mask mask x1]> (pages s1)) by (unfold s1; cbn [pages set_frames set_pages]; rewrite insert_insert_eq; done). rewrite Em.
  change (set_frames (<[ph := stale]> (frames s)) (set_pages (<[node := set_mask mask x1]> (pages s1)) s)) with (set_pages (<[node := set_mask mask x1]> (pages s1)) s1). destruct (ar_chain _ _ A1 b Hb) as (Hnd & h & Eh & C).
  assert (Hnl : node ∉ ch a b) by (intros Hin; destruct (chain_bins a s b A Hb node Hin) as (y & Ey & _); congruence).
  destruct (arena_link_ok (set_pages (<[node := set_mask mask x1]> (pages s1)) s1) b (ch a b) h node (set_mask mask x1)) as (m' & -> & C' & R); [lia|done|done|done|done|apply lookup_insert_eq|done|by apply pchain_mask|]. rewrite ret_bind.
  destruct (relist_ok a s1 node x1 mask _ ({[node]} ∪ att a) _ m' node (node :: ch a b) A1 E1 O R) as [R' A']; try done.
  { intros q [->|Hq]%elem_of_cons; [by exists x1|]. by apply (chain_bins a s1 b A1 Hb). } { by apply NoDup_cons. } { intros q Hq. rewrite elem_of_cons. tauto. } { set_solver. } { set_solver. } { split; [set_solver|left]. }
  destruct (proj1 R' node x1 E1) as (x & Ex & (S1 & S2 & S3) & _). cbn [phys psize bin x1] in S1, S2. exists x, m', (<[Z.to_nat b := node]> (partial s)), (set_ch (ch a) b (node :: ch a b)).
  split; [do 3 f_equal; unfold object_at; rewrite S1, S2; f_equal; lia|]. split; [done|]. split; [by rewrite S2|]. split; [rewrite S2; lia|]. split; [done|]. split; [|split; [|exact A']].
  2:{ intros q Hq Eq. apply (proj2 R'). unfold s1. cbn [pages set_frames set_pages]. by rewrite lookup_insert_ne. }
  intros q y Ey. assert (Hq : q <> node) by congruence. destruct (proj1 R' q y) as (y' & Ey' & Sy & _); [unfold s1; cbn [pages set_frames set_pages]; by rewrite lookup_insert_ne|]. by exists y'.
Qed.

(** [link_partial] if the page was full: it is in its list then. *)
Lemma relink_ok a s p x mask : arena_ok a s -> pages s !! p = Some x -> p ∈ att a ->
  exists m' h' c, (if free_mask x =? 0 then link_partial p (set_pages (<[p := set_mask mask x]> (pages s)) s) else Ret (set_pages (<[p := set_mask mask x]> (pages s)) s)) =
      Ret (set_partial (<[Z.to_nat (bin x) := h']> (partial s)) (set_pages m' s)) /\
    p ∈ c /\ NoDup c /\ pchain m' (bin x) 0 c h' 0 /\ relinked (p :: ch a (bin x)) (<[p := set_mask mask x]> (pages s)) m' /\ (forall q, q <> p -> q ∈ c <-> q ∈ ch a (bin x)).
Proof.
  intros A E Hatt. pose proof (ar_page _ _ A p x E) as ((Hp0 & Hb & _) & _ & _ & _ & Hch). destruct (ar_chain _ _ A (bin x) Hb) as (Hnd & h & Eh & C). destruct (free_mask x =? 0) eqn:E0; reify_bools.
  - assert (Hp : p ∉ ch a (bin x)) by (intros Hin; apply Hch in Hin as [_ ?]; done).
    destruct (arena_link_ok (set_pages (<[p := set_mask mask x]> (pages s)) s) (bin x) (ch a (bin x)) h p (set_mask mask x)) as (m' & -> & C' & R); [lia|done|done|done|done|apply lookup_insert_eq|done|by apply pchain_mask|].
    exists m', p, (p :: ch a (bin x)). split; [done|]. split; [left|]. split; [by apply NoDup_cons|]. split; [done|]. split; [done|]. intros q Hq. rewrite elem_of_cons. tauto.
  - eexists _, h, (ch a (bin x)). split; [by rewrite list_insert_id by done|]. split; [by apply Hch|]. split; [done|]. split; [by apply pchain_mask|]. split; [apply relinked_refl|done].
Qed.

(** Returning an object; a page without objects leaves the lists. *)
Lemma arena_free_ok a s id p x i (mask := Z.lor (free_mask x) (bit i)) : arena_ok a s -> own a !! id = Some (p, i) -> pages s !! p = Some x ->
  exists m' l' c', remasked p mask (pages s) m' /\
    ((mask <> all_objects (psize x) /\ free_object hhdm p (object_at hhdm (phys x) i (psize x)) s = Ret (0, set_partial l' (set_pages m' s)) /\
      arena_ok (mk_arena (delete id (own a)) (att a) c') (set_partial l' (set_pages m' s))) \/
     (mask = all_objects (psize x) /\ free_object hhdm p (object_at hhdm (phys x) i (psize x)) s = Ret (p, set_memory (u64 (memory_bytes (stats s) - PACKED_CHARGE)) (set_partial l' (set_pages m' s))) /\
      arena_ok (mk_arena (delete id (own a)) (att a ∖ {[p]}) c') (set_partial l' (set_pages m' s)))).
Proof.
  intros A Hid E. destruct (own_del a s id p x i A Hid E) as (O & Hatt & Hm0). fold mask in O, Hm0. pose proof (ar_page _ _ A p x E) as P. pose proof P as ((Hp0 & Hb & _) & _). destruct (ar_own _ _ A _ _ _ Hid) as (y & Ey & Hi). rewrite E in Ey. injection Ey as <-.
  unfold free_object. rewrite (proj2 (Z.eqb_neq p 0)) by done. rewrite E. cbn [deref]. rewrite ret_bind, (object_index a s p x i P Hi). fold mask.
  destruct (relink_ok a s p x mask A E Hatt) as (m1 & h1 & c & -> & Hpc & Hnd & C & R & Hc). rewrite ret_bind.
  assert (HL : forall q, q ∈ p :: ch a (bin x) -> exists y, pages s !! q = Some y /\ bin y = bin x) by (intros q [->|Hq]%elem_of_cons; [by exists x|by apply (chain_bins a s (bin x) A Hb)]).
  destruct (mask =? all_objects (psize x)) eqn:Em; reify_bools.
  - apply list_elem_of_split in Hpc as (l1 & l2 & ->). destruct (arena_unlink_ok (set_partial (<[Z.to_nat (bin x) := h1]> (partial s)) (set_pages m1 s)) (bin x) l1 p l2 h1) as (m' & h' & -> & C' & R'); [lia| |done|done|].
    { cbn [partial set_partial]. apply list_lookup_insert_eq. rewrite (ar_len _ _ A). lia. }
    rewrite ret_bind. cbn [pages partial set_partial set_pages] in *. eexists m', (<[Z.to_nat (bin x) := h']> (partial s)), _.
    assert (Hndp : p ∉ l1 ++ l2 /\ NoDup (l1 ++ l2)) by (rewrite <- Permutation_middle in Hnd; by apply NoDup_cons in Hnd).
    assert (Hq12 : forall q, q <> p -> q ∈ l1 ++ l2 <-> q ∈ ch a (bin x)) by (intros q Hq; rewrite <- (Hc q Hq), !elem_of_app, elem_of_cons; tauto).
    destruct (relist_ok a s p x mask (delete id (own a)) (att a ∖ {[p]}) (p :: ch a (bin x)) m' h' (l1 ++ l2) A E O) as [Rm A']; [|done|tauto|done|done|set_solver|set_solver|set_solver|].
    { eapply relinked_trans; [exact R|]. split; [|apply R']. intros q z Ez. destruct (proj1 R' q z Ez) as (z' & Ez' & Sz & Mz & F). exists z'. split; [done|]. split; [done|]. split; [done|]. intros Hq. apply F.
      intros Hin. apply Hq. destruct (decide (q = p)) as [->|Hne]; [left|right]. by apply Hc. }
    split; [exact Rm|]. right. split; [done|]. split; [|exact A']. cbn [stats set_partial set_pages]. rewrite list_insert_insert_eq. done.
  - eexists m1, _, _. destruct (relist_ok a s p x mask (delete id (own a)) (att a) (p :: ch a (bin x)) m1 h1 c A E O R HL Hnd C Hc) as [Rm A']; [done|split; [done|intros _; done]|done|]. split; [exact Rm|]. left. split; [done|]. split; [done|exact A'].
Qed.

(** Freeing a page that no list has. *)
Lemma arena_release_ok a s p x : arena_ok a s -> pages s !! p = Some x -> p ∉ att a -> put_release p s = Ret (Done 0, set_frames (delete (phys x) (frames s)) (set_pages (delete p (pages s)) s)) /\
  arena_ok a (set_frames (delete (phys x) (frames s)) (set_pages (delete p (pages s)) s)) /\ (forall id i, own a !! id <> Some (p, i)).
Proof.
  intros A E Hatt. pose proof (ar_page _ _ A p x E) as ((Hp0 & Hb & Es) & ((f & Ef & Hf) & _) & (_ & Hm) & Ha & _). unfold put_release. rewrite E. cbn [deref]. rewrite ret_bind, Ef. cbn [deref]. rewrite ret_bind. split; [done|].
  assert (Emask : free_mask x = all_objects (psize x)) by (destruct (decide (free_mask x = all_objects (psize x))) as [?|Hne]; [done|]; apply Ha in Hne; done).
  assert (Hno : forall id i, own a !! id <> Some (p, i)).
  { intros id i He. destruct (ar_own _ _ A _ _ _ He) as (y & Ey & Hi). rewrite E in Ey. injection Ey as <-. assert (Hbt : Z.testbit (free_mask x) i = true) by (rewrite Emask, Es, all_bits, bool_decide_eq_true, <- Es by lia; lia).
    apply Hm in Hbt as [_ H]; [|lia]. by apply (H id). }
  split; [|done]. pose proof A as [A1 A2 A3 A4 A5 A6 A7]. constructor; cbn [pages partial set_pages set_frames]; try done.
  - intros q y [Hq Ey]%lookup_delete_Some. destruct (A1 q y Ey) as (H1 & ((g & Eg & Hg) & H2) & H3). split; [done|]. split; [split; [|done]|done]. exists g. split; [|done]. cbn [frames set_frames]. rewrite lookup_delete_ne; [done|].
    intros Eq. apply Hq. by apply (A2 p x q y).
  - intros q y r z H1 H2. apply lookup_delete_Some in H1 as [_ H1], H2 as [_ H2]. by apply A2.
  - intros q Hq. destruct (A3 q Hq) as [y Ey]. exists y. rewrite lookup_delete_ne; [done|]. by intros ->.
  - intros id q i He. destruct (A4 id q i He) as (y & Ey & Hi). exists y. rewrite lookup_delete_ne; [done|]. intros ->. by apply (Hno id i).
  - intros b Hb'. destruct (A7 b Hb') as (Hnd & h & Eh & C). split; [done|]. exists h. split; [done|]. apply (pchain_ext (pages s)); [|done]. intros q y Hq Ey. exists y. split; [|done]. rewrite lookup_delete_ne; [done|]. intros <-.
    destruct (chain_bins a s b A Hb' p Hq) as (z & Ez & <-). destruct (A1 p z Ez) as (_ & _ & _ & _ & Hc). apply Hc in Hq as [? _]. done.
Qed.

End Arena.
End ZramArena.
