(* ===== verification/ZramSafe.v ===== *)
(** ZramSafe: the invariant of the zram store with all processors that work in it, and
    that every step of every processor keeps it. *)

From S2P Require Import Prelude Lz4 ZramStore ZramArena.
From stdpp Require Import list_relations.
#[local] Open Scope Z_scope.

Module ZramSafe.
Import ZramStore ZramArena.

(** A slot is on the free list, held by a call that fills it, referenced, or held by
    the call that dropped the last reference. *)
Inductive role := RFree | RTaken | RLive | RDropping.
#[global] Instance role_eq : EqDecision role.
Proof. solve_decision. Defined.
(** The free list in order, the roles, the objects, and of every stored page its
    contents and compressed length. *)
Record ghost := mk_ghost { gfl : list Z; grole : Z -> role; gar : arena; gpages : gmap Z (list Z * Z) }.

Definition slotz (s : zram) (id : Z) : option slot := slots s ≫= fun t => t !! Z.to_nat id.
Fixpoint fchain (s : zram) (l : list Z) (head : Z) : Prop :=
  match l with
  | [] => head = 0
  | id :: l => head = id /\ exists x, slotz s id = Some x /\ fchain s l (snext x)
  end.
Lemma fchain_ext s s' l : forall head, (forall id, id ∈ l -> slotz s' id = slotz s id) -> fchain s l head -> fchain s' l head.
Proof.
  induction l as [|id l IH]; intros head H; cbn; [done|]. intros (-> & x & E & C). split; [done|]. exists x. rewrite H by left. split; [done|]. apply IH; [|done]. intros id' Hid. apply H. by right.
Qed.

(** Sums over the stored pages. *)
Definition msum (f : list Z * Z -> Z) (D : gmap Z (list Z * Z)) : Z := map_fold (fun _ v acc => f v + acc) 0 D.
Lemma msum_insert f D k v : D !! k = None -> msum f (<[k := v]> D) = f v + msum f D.
Proof. intros E. unfold msum. rewrite map_fold_insert_L; [done| |done]. intros. lia. Qed.
Lemma msum_delete f D k v : D !! k = Some v -> msum f D = f v + msum f (delete k D).
Proof. intros E. rewrite <- (insert_delete_id D k v E) at 1. apply msum_insert. apply lookup_delete_eq. Qed.

Definition repeated (pattern : Z) : list Z := concat (replicate 512 (le_bytes 8 pattern)).

(** ** Patterns *)

Definition le_value (l : list Z) : Z := foldr (fun b acc => b + 256 * acc) 0 l.
Lemma le_bytes_S n z : le_bytes (S n) z = u8 z :: le_bytes n (Z.shiftr z 8).
Proof.
  unfold le_bytes. cbn [seq map]. f_equal. rewrite <- seq_shift, map_map. apply map_ext. intros i. f_equal. rewrite Z.shiftr_shiftr by lia. f_equal. lia.
Qed.
Lemma le_bytes_value l : Lz4.bytes l -> le_bytes (length l) (le_value l) = l.
Proof.
  induction l as [|b l IH]; intros Hb; [done|]. apply Forall_cons in Hb as [Hb Hl]. cbn [length le_value foldr]. fold (le_value l). rewrite le_bytes_S. f_equal.
  - unfold u8. symmetry. apply (Z.mod_unique _ _ (le_value l)); lia.
  - rewrite <- (IH Hl) at 3. f_equal. rewrite Z.shiftr_div_pow2 by lia. symmetry. apply (Z.div_unique _ _ _ b); lia.
Qed.
Lemma le_at_value l off n : (off + n <= length l)%nat -> le_at l (Z.of_nat off) n = le_value (take n (drop off l)).
Proof.
  intros H. unfold le_at, le_value. f_equal. rewrite Nat2Z.id. apply list_eq. intros i. rewrite list_lookup_fmap, lookup_take, lookup_drop. case_decide as Hi.
  - rewrite lookup_seq_lt by done. cbn. destruct (lookup_lt_is_Some_2 l (off + i)) as [b Eb]; [lia|]. rewrite Eb. f_equal. by apply nth_lookup_Some.
  - by rewrite lookup_seq_ge by lia.
Qed.

Lemma take_eight l off : Lz4.bytes l -> (off + 8 <= length l)%nat -> take 8 (drop off l) = le_bytes 8 (le_at l (Z.of_nat off) 8).
Proof.
  intros Hb Hl. rewrite le_at_value by done. assert (E : length (take 8 (drop off l)) = 8%nat) by (rewrite length_take, length_drop; lia). rewrite <- E at 2. symmetry. apply le_bytes_value.
  apply Forall_take, Forall_drop, Hb.
Qed.
Lemma same_from_ok k : forall off page pattern, Lz4.bytes page -> (off + 8 * k = length page)%nat -> same_from k (Z.of_nat off) page pattern = true -> drop off page = concat (replicate k (le_bytes 8 pattern)).
Proof.
  induction k as [|k IH]; intros off page pattern Hb Hl; cbn [same_from].
  - intros _. rewrite drop_ge by lia. done.
  - destruct (_ =? pattern) eqn:E; [|done]. reify_bools. intros H. cbn [replicate concat]. rewrite <- (take_drop 8 (drop off page)), drop_drop. f_equal.
    + rewrite take_eight by (done || lia). by rewrite E.
    + apply IH; [done|lia|]. by replace (Z.of_nat (off + 8)) with (Z.of_nat off + 8) by lia.
Qed.

Lemma compress_page_ok page : Lz4.bytes page -> length page = 4096%nat -> compress_page page = Ret None \/ exists pattern bytes, compress_page page = Ret (Some (pattern, bytes)) /\
  ((bytes = [] /\ page = repeated pattern) \/ (bytes <> [] /\ Z.of_nat (length bytes) <= 2048 /\ Lz4.zram_lz4_decompress bytes 4096 = Ret page)).
Proof.
  intros Hb Hl. unfold compress_page. destruct (same_from 511 8 page (le_at page 0 8)) eqn:E.
  - right. exists (le_at page 0 8), []. split; [done|]. left. split; [done|]. unfold repeated. change (replicate 512 (le_bytes 8 (le_at page 0 8))) with (le_bytes 8 (le_at page 0 8) :: replicate 511 (le_bytes 8 (le_at page 0 8))).
    cbn [concat]. rewrite <- (same_from_ok 511 8 page _ Hb ltac:(lia) E). pose proof (take_eight page 0 Hb ltac:(lia)) as E8. change (Z.of_nat 0) with 0 in E8. rewrite <- E8, drop_0. by rewrite take_drop.
  - pose proof (Lz4.zram_lz4_compress_sat (take 1024 page) 640 ltac:(by apply Forall_take) ltac:(lia)) as H1. pose proof (Lz4.zram_lz4_compress_sat page 2048 Hb ltac:(lia)) as H2.
    destruct (Lz4.zram_lz4_compress (take 1024 page) 640) as [o1|e1| |]; cbn [sat] in H1; [|by left|done..]. cbn [or_nothing]. rewrite ret_bind. destruct o1 as [|b1 o1]; [by left|].
    destruct (Lz4.zram_lz4_compress page 2048) as [o2|e2| |]; cbn [sat] in H2; [|by left|done..]. cbn [or_nothing]. rewrite ret_bind. destruct o2 as [|b2 o2]; [by left|]. right. exists (le_at page 0 8), (b2 :: o2).
    split; [done|]. right. destruct H2 as (H3 & H4 & H5). split; [done|]. unfold Lz4.len in *. rewrite Hl in H5. done.
Qed.

Section Safe.
Context (hhdm : Z) (Hhhdm : 0 <= hhdm).
Notation arena_ok := (arena_ok hhdm).

Definition holds (g : ghost) (s : zram) (id pool data n : Z) : Prop :=
  exists i x, own (gar g) !! id = Some (pool, i) /\ pages s !! pool = Some x /\ 0 <= i < objects (psize x) /\ data = object_at hhdm (phys x) i (psize x) /\ 0 < n <= psize x.
Definition content (g : ghost) (s : zram) (id : Z) (page : list Z) (pool data pattern n : Z) : Prop :=
  if decide (n = 0) then own (gar g) !! id = None /\ pool = 0 /\ page = repeated pattern
  else holds g s id pool data n /\ exists bytes, memcpy_from hhdm data n s = Ret bytes /\ Lz4.zram_lz4_decompress bytes 4096 = Ret page.
Definition stored (g : ghost) (s : zram) (id : Z) (x : slot) : Prop :=
  exists page, gpages g !! id = Some (page, slength x) /\ content g s id page (spool x) (sdata x) (same x) (slength x).

Definition slot_ok (g : ghost) (s : zram) (id : Z) (x : slot) : Prop :=
  match grole g id with
  | RFree => id ∈ gfl g /\ refs x = 0 /\ own (gar g) !! id = None /\ gpages g !! id = None
  | RTaken => id ∉ gfl g /\ refs x = 0 /\ gpages g !! id = None
  | RLive => id ∉ gfl g /\ 0 < refs x <= UINT32_MAX /\ stored g s id x
  | RDropping => id ∉ gfl g /\ refs x = 0 /\ stored g s id x
  end.

Definition in_table (s : zram) (id : Z) : Prop := 1 <= id <= count s.

Record base_ok (g : ghost) (s : zram) : Prop := mk_base_ok {
  b_table : exists t, slots s = Some t /\ Z.of_nat (length t) = count s + 1;
  b_count : 1 <= count s <= 524288;
  b_slots : forall id, in_table s id -> exists x, slotz s id = Some x /\ slot_ok g s id x;
  b_free : NoDup (gfl g) /\ (forall id, id ∈ gfl g -> in_table s id) /\ fchain s (gfl g) (free_head s);
  b_pages : forall id v, gpages g !! id = Some v -> in_table s id /\ 0 <= snd v <= 2048;
  b_arena : arena_ok (gar g) s;
  b_stats : stored_pages (stats s) = u64 (Z.of_nat (size (gpages g))) /\ compressed_bytes (stats s) = u64 (msum snd (gpages g)) /\
    same_pages (stats s) = u64 (msum (fun v => Z.b2z (snd v =? 0)) (gpages g)) }.

(** ** Threads *)

Definition job_ok (j : job) : Prop :=
  (jbytes j = [] /\ jpage j = repeated (jpattern j)) \/ (jbytes j <> [] /\ Z.of_nat (length (jbytes j)) <= 2048 /\ Lz4.zram_lz4_decompress (jbytes j) 4096 = Ret (jpage j)).
Definition taken (g : ghost) (s : zram) (j : job) : Prop := grole g (jid j) = RTaken /\ in_table s (jid j) /\ job_ok j.
Definition blen (j : job) : Z := Z.of_nat (length (jbytes j)).
Definition thread_ok (g : ghost) (s : zram) (th : thread) : Prop :=
  match th with
  | Done _ => True
  | HasSlot j | Failing j => taken g s j /\ own (gar g) !! jid j = None
  | Reserved j => taken g s j /\ own (gar g) !! jid j = None /\ jbytes j <> []
  | HasData j pool data => taken g s j /\ jbytes j <> [] /\ holds g s (jid j) pool data (blen j)
  | Copied j pool data => taken g s j /\
      if decide (jbytes j = []) then own (gar g) !! jid j = None /\ pool = 0 else holds g s (jid j) pool data (blen j) /\ memcpy_from hhdm data (blen j) s = Ret (jbytes j)
  | Dropping id => in_table s id /\ grole g id = RDropping
  | Releasing p => (exists x, pages s !! p = Some x) /\ p ∉ att (gar g)
  end.

(** What a thread holds: a slot or a page. *)
Definition claim (th : thread) : option (Z + Z) :=
  match th with
  | Done _ => None
  | HasSlot j | Reserved j | HasData j _ _ | Copied j _ _ | Failing j => Some (inl (jid j))
  | Dropping id => Some (inl id)
  | Releasing p => Some (inr p)
  end.
Definition busy (g : ghost) (s : zram) (c : Z + Z) : Prop :=
  match c with
  | inl id => in_table s id /\ (grole g id = RTaken \/ grole g id = RDropping)
  | inr p => (exists x, pages s !! p = Some x) /\ p ∉ att (gar g)
  end.
Lemma thread_busy g s th c : thread_ok g s th -> claim th = Some c -> busy g s c.
Proof. destruct th; cbn; intros H [= <-]; cbn; unfold taken in H; tauto. Qed.

Definition reserving (th : thread) : bool := match th with Reserved _ => true | _ => false end.
Definition charged (T : list thread) (g : ghost) (s : zram) : Z := table_bytes (count s) + PACKED_CHARGE * (Z.of_nat (size (att (gar g))) + countb reserving T).

Record inv (T : list thread) (g : ghost) (s : zram) : Prop := mk_inv {
  i_base : base_ok g s;
  i_threads : forall t th, T !! t = Some th -> thread_ok g s th;
  i_busy : forall c, busy g s c -> exists t th, T !! t = Some th /\ claim th = Some c;
  i_unique : forall t th t' th' c, T !! t = Some th -> T !! t' = Some th' -> claim th = Some c -> claim th' = Some c -> t = t';
  i_memory : memory_bytes (stats s) = charged T g s /\ memory_bytes (stats s) <= memory_limit (stats s) < 2 ^ 64 }.

(** What a step of a thread with claim [c] leaves to the others. *)
Record frame (c : option (Z + Z)) (g : ghost) (s : zram) (g' : ghost) (s' : zram) : Prop := mk_frame {
  f_count : count s' = count s;
  f_role : forall id, in_table s id -> Some (inl id) <> c -> grole g id = RTaken \/ grole g id = RDropping -> grole g' id = grole g id;
  f_own : forall id, in_table s id -> Some (inl id) <> c -> grole g id = RTaken \/ grole g id = RDropping -> own (gar g') !! id = own (gar g) !! id;
  f_obj : forall id pool data n, Some (inl id) <> c -> holds g s id pool data n -> holds g' s' id pool data n /\ memcpy_from hhdm data n s' = memcpy_from hhdm data n s;
  f_page : forall p, Some (inr p) <> c -> (exists x, pages s !! p = Some x) -> p ∉ att (gar g) -> (exists x, pages s' !! p = Some x) /\ p ∉ att (gar g') }.

Lemma thread_frame c g s g' s' th : frame c g s g' s' -> claim th <> c -> thread_ok g s th -> thread_ok g' s' th.
Proof.
  intros [F1 F2 F3 F4 F5] Hc. assert (Ht : forall j, Some (inl (jid j)) <> c -> taken g s j -> taken g' s' j /\ own (gar g') !! jid j = own (gar g) !! jid j).
  { intros j Hj (R & I & J). unfold taken, in_table in *. rewrite F1. split; [split; [rewrite F2; auto|done]|apply F3; auto]. }
  destruct th; cbn in *; [done| | | | | | |].
  - intros (H & Ho). destruct (Ht j Hc H) as [? ->]. done.
  - intros (H & Ho & ?). destruct (Ht j Hc H) as [? ->]. done.
  - intros (H & ? & Ho). destruct (Ht j Hc H) as [? _]. split; [done|]. split; [done|]. by apply F4.
  - intros (H & Ho). destruct (Ht j Hc H) as [? E]. split; [done|]. destruct (decide _); [by rewrite E|]. destruct Ho as [Ho Hm]. destruct (F4 _ _ _ _ Hc Ho) as [? ->]. done.
  - intros (H & Ho). destruct (Ht j Hc H) as [? ->]. done.
  - intros [H1 H2]. unfold in_table in *. rewrite F1. split; [done|]. rewrite F2; auto.
  - intros [H1 H2]. apply F5; auto.
Qed.

(** One step of thread [t]. *)
Lemma inv_step T g s t th th' g' s' : inv T g s -> T !! t = Some th -> base_ok g' s' -> thread_ok g' s' th' -> frame (claim th) g s g' s' ->
  (forall c, busy g' s' c -> claim th' = Some c \/ (busy g s c /\ claim th <> Some c)) -> (forall c, claim th' = Some c -> claim th = Some c \/ ~ busy g s c) ->
  memory_bytes (stats s') - PACKED_CHARGE * (Z.of_nat (size (att (gar g'))) + Z.b2z (reserving th')) = memory_bytes (stats s) - PACKED_CHARGE * (Z.of_nat (size (att (gar g))) + Z.b2z (reserving th)) ->
  memory_limit (stats s') = memory_limit (stats s) -> memory_bytes (stats s') <= memory_limit (stats s) -> inv (<[t := th']> T) g' s'.
Proof.
  intros [I1 I2 I3 I4 [I5 I6]] Et B' Hth F Hb Hc Hm Hl Hle. pose proof (lookup_lt_Some _ _ _ Et) as Hlt.
  assert (Hget : forall t2 th2, <[t := th']> T !! t2 = Some th2 -> t2 = t /\ th2 = th' \/ t2 <> t /\ T !! t2 = Some th2).
  { intros t2 th2. destruct (decide (t2 = t)) as [->|Hne]; [rewrite list_lookup_insert_eq by done; intros [= <-]; by left|rewrite list_lookup_insert_ne by done; by right]. }
  constructor; [done| | | |].
  - intros t2 th2 E2. destruct (Hget t2 th2 E2) as [[-> ->]|[Hne E]]; [done|]. destruct (claim th2) as [c|] eqn:Ec; [|by destruct th2].
    apply (thread_frame (claim th) g s); [done| |by apply (I2 t2)]. intros Eq. rewrite Ec in Eq. apply Hne. by apply (I4 t2 th2 t th c).
  - intros c Hbusy. destruct (Hb c Hbusy) as [E|[Hold Hne]]; [exists t, th'; split; [by apply list_lookup_insert_eq|done]|]. destruct (I3 c Hold) as (t2 & th2 & E2 & Ec). exists t2, th2. split; [|done].
    rewrite list_lookup_insert_ne; [done|]. intros ->. congruence.
  - assert (Hnew : forall t2 th2 c, t2 <> t -> T !! t2 = Some th2 -> claim th2 = Some c -> claim th' = Some c -> False).
    { intros t2 th2 c Hne E Ec Ec'. destruct (Hc c Ec') as [Eo|Hno]; [apply Hne; by apply (I4 t2 th2 t th c)|]. apply Hno. by apply (thread_busy g s th2 c (I2 t2 th2 E)). }
    intros t1 th1 t2 th2 c E1 E2 C1 C2. destruct (Hget _ _ E1) as [[-> ->]|[N1 E1']], (Hget _ _ E2) as [[-> ->]|[N2 E2']]; [done| | |by apply (I4 t1 th1 t2 th2 c)]; exfalso; by eapply Hnew.
  - split; [|lia]. unfold charged in *. rewrite (count_insert reserving T t th' th Et), (f_count _ _ _ _ _ F). lia.
Qed.

(** ** The slots after a step *)

Lemma holds_frame g s g' s' id pool data n : own (gar g') !! id = own (gar g) !! id -> (forall x, pages s !! pool = Some x -> exists x', pages s' !! pool = Some x' /\ shape x x') -> holds g s id pool data n -> holds g' s' id pool data n.
Proof. intros Ho Hp (i & x & E & Ex & Hi & Hd & Hn). destruct (Hp x Ex) as (x' & Ex' & (S1 & S2 & S3)). exists i, x'. rewrite Ho, S1, S2. done. Qed.

(** The objects of the slots other than [id0] stay as they are. *)
Definition objects_kept (id0 : Z) (g : ghost) (s : zram) (g' : ghost) (s' : zram) : Prop := forall id pool data n, id <> id0 -> holds g s id pool data n ->
  holds g' s' id pool data n /\ memcpy_from hhdm data n s' = memcpy_from hhdm data n s.
(** Everything about the slots other than [id0] stays. *)
Definition slots_kept (id0 : Z) (g : ghost) (s : zram) (g' : ghost) (s' : zram) : Prop := forall id, id <> id0 -> in_table s id ->
  slotz s' id = slotz s id /\ grole g' id = grole g id /\ gpages g' !! id = gpages g !! id /\ (id ∈ gfl g' <-> id ∈ gfl g) /\ own (gar g') !! id = own (gar g) !! id.

Lemma slot_frame g s g' s' id0 id x : slots_kept id0 g s g' s' -> objects_kept id0 g s g' s' -> id <> id0 -> in_table s id -> slot_ok g s id x -> slot_ok g' s' id x.
Proof.
  intros K O Hne Hid. destruct (K id Hne Hid) as (_ & Er & Ep & Ef & Eo). unfold slot_ok. rewrite Er, Ep, Eo.
  assert (Hst : stored g s id x -> stored g' s' id x).
  { intros (page & E & C). exists page. rewrite Ep. split; [done|]. unfold content in *. destruct (decide _); [by rewrite Eo|]. destruct C as (H & bytes & Em & Ed). destruct (O id _ _ _ Hne H) as [H' Em']. split; [done|]. exists bytes. by rewrite Em'. }
  destruct (grole g id); tauto.
Qed.

Lemma base_update g s g' s' id0 : base_ok g s -> count s' = count s -> (exists t, slots s' = Some t /\ Z.of_nat (length t) = count s + 1) -> slots_kept id0 g s g' s' -> objects_kept id0 g s g' s' ->
  (in_table s id0 -> exists x, slotz s' id0 = Some x /\ slot_ok g' s' id0 x) ->
  NoDup (gfl g') /\ (forall id, id ∈ gfl g' -> in_table s id) /\ fchain s' (gfl g') (free_head s') -> (forall v, gpages g' !! id0 = Some v -> in_table s id0 /\ 0 <= snd v <= 2048) ->
  (forall id, ~ in_table s id -> gpages g' !! id = gpages g !! id) -> arena_ok (gar g') s' ->
  stored_pages (stats s') = u64 (Z.of_nat (size (gpages g'))) /\ compressed_bytes (stats s') = u64 (msum snd (gpages g')) /\ same_pages (stats s') = u64 (msum (fun v => Z.b2z (snd v =? 0)) (gpages g')) ->
  base_ok g' s'.
Proof.
  intros [B1 B2 B3 B4 B5 B6 B7] Ec Ht K O Hid0 Hf Hp Hout HA Hs. constructor; unfold in_table in *; rewrite ?Ec; try done.
  - intros id Hid. destruct (decide (id = id0)) as [->|Hne]; [by apply Hid0|]. destruct (B3 id Hid) as (x & E & H). exists x. rewrite (proj1 (K id Hne Hid)). split; [done|]. by apply (slot_frame g s g' s' id0).
  - intros id v E. destruct (decide (id = id0)) as [->|Hne]; [by apply Hp|]. apply B5. destruct (decide (1 <= id <= count s)) as [Hid|Hid]; [by rewrite <- (proj1 (proj2 (proj2 (K id Hne Hid))))|by rewrite <- (Hout id Hid)].
Qed.

Lemma slotz_at g s id : base_ok g s -> 0 <= id -> slot_at s id = deref (slotz s id).
Proof. intros B Hid. destruct (b_table _ _ B) as (t & E & _). unfold slot_at, slotz, arr_get. rewrite E. cbn. destruct (id <? 0) eqn:?; reify_bools; [lia|done]. Qed.
Lemma put_slot_ok g s s1 id x : base_ok g s -> slots s1 = slots s -> in_table s id -> exists t, put_slot id x s1 = Ret (set_table t s1) /\ Z.of_nat (length t) = count s + 1 /\
  (forall s2, slots s2 = Some t -> slotz s2 id = Some x /\ forall id', id' <> id -> 0 <= id' -> slotz s2 id' = slotz s id').
Proof.
  intros B E1 [H1 H2]. destruct (b_table _ _ B) as (t & E & Hl). exists (<[Z.to_nat id := x]> t). unfold put_slot. rewrite E1, E. cbn [deref]. rewrite ret_bind, arr_set_Ret by lia. split; [done|]. rewrite length_insert. split; [done|].
  intros s2 E2. unfold slotz. rewrite E2, E. cbn. split; [apply list_lookup_insert_eq; lia|]. intros id' Hne H0. apply list_lookup_insert_ne. lia.
Qed.
Lemma valid_ok g s id : base_ok g s -> 0 <= id -> valid_id s id = bool_decide (in_table s id).
Proof.
  intros B Hid. destruct (b_table _ _ B) as (t & E & _). unfold valid_id, in_table. rewrite E. unfold nz. destruct (id =? 0) eqn:E0, (id <=? count s) eqn:E1; reify_bools; cbn; symmetry; first [apply bool_decide_eq_true; lia|apply bool_decide_eq_false; lia].
Qed.

(** A step that changes neither the pools nor their objects. *)
Lemma same_objects id0 g s g' s' : gar g' = gar g -> pages s' = pages s -> frames s' = frames s -> objects_kept id0 g s g' s'.
Proof.
  intros E1 E2 E3 id pool data n _ H. split; [|unfold memcpy_from; by rewrite E3]. apply (holds_frame g s); [by rewrite E1| |done]. intros x Ex. exists x. by rewrite E2.
Qed.
Lemma arena_same a s s' : pages s' = pages s -> frames s' = frames s -> partial s' = partial s -> arena_ok a s -> arena_ok a s'.
Proof. intros E1 E2 E3 [A1 A2 A3 A4 A5 A6 A7]. constructor; rewrite ?E1, ?E3; try done. intros p x Ex. destruct (A1 p x Ex) as (H1 & H2 & H3). split; [done|]. rewrite E2. done. Qed.
Lemma content_same g s g' s' id page pool data pattern n : gar g' = gar g -> pages s' = pages s -> frames s' = frames s -> content g s id page pool data pattern n -> content g' s' id page pool data pattern n.
Proof.
  intros E1 E2 E3. unfold content. destruct (decide _); [by rewrite E1|]. intros (H & bytes & Em & Ed). destruct (same_objects (id - 1) g s g' s' E1 E2 E3 id pool data n ltac:(lia) H) as [H' Em']. split; [done|]. exists bytes. by rewrite Em'.
Qed.

(** The frame of a step that leaves the pools alone and changes slot [id0] only. *)
Lemma frame_same c id0 g s g' s' : count s' = count s -> slots_kept id0 g s g' s' -> gar g' = gar g -> pages s' = pages s -> frames s' = frames s -> (c = Some (inl id0) \/ ~ busy g s (inl id0)) -> frame c g s g' s'.
Proof.
  intros Ec K E1 E2 E3 Hc. assert (Hne : forall id, in_table s id -> Some (inl id) <> c -> grole g id = RTaken \/ grole g id = RDropping -> id <> id0).
  { intros id Hid Hn Hr ->. destruct Hc as [->|Hb]; [done|]. apply Hb. done. }
  constructor; [done| | | |].
  - intros id Hid Hn Hr. apply (K id); [by apply Hne|done]. - intros id Hid Hn Hr. by rewrite E1.
  - intros id pool data n _ H. apply (same_objects (id - 1) g s); [done..|lia|done]. - intros p _. rewrite E1, E2. done.
Qed.

(** ** What the store shows *)

(** The page and the count of a referenced slot. *)
Definition view (g : ghost) (s : zram) (id : Z) : option (list Z * Z) :=
  match grole g id with RLive => x ← slotz s id; v ← gpages g !! id; Some (fst v, refs x) | _ => None end.
Definition same_view (g : ghost) (s : zram) (g' : ghost) (s' : zram) : Prop := forall id, in_table s id -> view g' s' id = view g s id.
Lemma view_kept id0 g s g' s' : slots_kept id0 g s g' s' -> forall id, id <> id0 -> in_table s id -> view g' s' id = view g s id.
Proof. intros K id Hne Hid. destruct (K id Hne Hid) as (E1 & E2 & E3 & _). unfold view. by rewrite E1, E2, E3. Qed.
Lemma view_dead g s id : grole g id <> RLive -> view g s id = None.
Proof. unfold view. by destruct (grole g id). Qed.

Definition set_role (f : Z -> role) (id : Z) (r : role) : Z -> role := fun id' => if decide (id' = id) then r else f id'.
Lemma set_role_eq f id r : set_role f id r id = r.
Proof. unfold set_role. by rewrite decide_True. Qed.
Lemma set_role_ne f id r id' : id' <> id -> set_role f id r id' = f id'.
Proof. intros. unfold set_role. by rewrite decide_False. Qed.

(** Steps that change counters only. *)
Lemma inv_quiet T g s t th th' s' : inv T g s -> T !! t = Some th -> claim th = claim th' -> reserving th = reserving th' -> thread_ok g s th' ->
  slots s' = slots s -> count s' = count s -> free_head s' = free_head s -> partial s' = partial s -> pages s' = pages s -> frames s' = frames s ->
  stored_pages (stats s') = stored_pages (stats s) -> compressed_bytes (stats s') = compressed_bytes (stats s) -> same_pages (stats s') = same_pages (stats s) ->
  memory_bytes (stats s') = memory_bytes (stats s) -> memory_limit (stats s') = memory_limit (stats s) -> inv (<[t := th']> T) g s' /\ same_view g s g s'.
Proof.
  intros I Et Hc Hr Hth E1 E2 E3 E4 E5 E6 E7 E8 E9 E10 E11. assert (Hz : forall id, slotz s' id = slotz s id) by (intros id; unfold slotz; by rewrite E1).
  assert (K : slots_kept 0 g s g s') by (intros id _ _; by rewrite Hz). pose proof (i_base _ _ _ I) as B. assert (H0 : ~ in_table s 0) by (unfold in_table; lia).
  split; [|intros id Hid; apply (view_kept 0); [done|unfold in_table in Hid; lia|done]]. assert (F : forall c, frame c g s g s') by (intros c; apply (frame_same c 0); try done; right; intros [? _]; done).
  assert (Hth' : thread_ok g s' th') by (apply (thread_frame (match claim th' with None => Some (inl 0) | _ => None end) g s); [apply F|by destruct (claim th')|done]).
  apply (inv_step T g s t th th' g s' I Et); try done.
  - apply (base_update g s g s' 0 B); try done; rewrite ?E7, ?E8, ?E9.
    + rewrite E1. exact (b_table _ _ B). + by apply same_objects. + destruct (b_free _ _ B) as (? & ? & Hch). split; [done|]. split; [done|]. rewrite E3. by apply (fchain_ext s).
    + intros v Ev. by destruct (b_pages _ _ B _ _ Ev). + apply (arena_same _ s); try done. apply (b_arena _ _ B). + apply (b_stats _ _ B).
  - intros c Hb. assert (Hb' : busy g s c) by (destruct c; unfold busy, in_table in *; by rewrite ?E2, ?E5 in Hb). destruct (claim th') as [c'|] eqn:Ec; [|right; by rewrite Hc]. destruct (decide (c' = c)) as [->|Hne]; [by left|right]. rewrite Hc. split; [done|congruence].
  - intros c Ec. left. congruence. - rewrite E10, Hr. lia. - rewrite E10. apply (i_memory _ _ _ I).
Qed.

(** A step that changes one slot and leaves the pools alone. *)
Lemma slot_step T g s t th th' id x' fl' r' D' s' (g' := mk_ghost fl' (set_role (grole g) id r') (gar g) D') :
  inv T g s -> T !! t = Some th -> in_table s id -> count s' = count s -> partial s' = partial s -> pages s' = pages s -> frames s' = frames s ->
  (exists tb, slots s' = Some tb /\ Z.of_nat (length tb) = count s + 1) -> slotz s' id = Some x' /\ (forall id', id' <> id -> 0 <= id' -> slotz s' id' = slotz s id') ->
  (forall id', id' <> id -> id' ∈ fl' <-> id' ∈ gfl g) -> (forall id', id' <> id -> D' !! id' = gpages g !! id') -> slot_ok g' s' id x' ->
  NoDup fl' /\ fchain s' fl' (free_head s') -> (forall v, D' !! id = Some v -> 0 <= snd v <= 2048) ->
  stored_pages (stats s') = u64 (Z.of_nat (size D')) /\ compressed_bytes (stats s') = u64 (msum snd D') /\ same_pages (stats s') = u64 (msum (fun v => Z.b2z (snd v =? 0)) D') ->
  memory_bytes (stats s') = memory_bytes (stats s) /\ memory_limit (stats s') = memory_limit (stats s) ->
  (claim th = Some (inl id) \/ claim th = None /\ ~ busy g s (inl id)) -> (claim th' = Some (inl id) \/ claim th' = None /\ r' <> RTaken /\ r' <> RDropping) -> reserving th = reserving th' -> thread_ok g' s' th' ->
  inv (<[t := th']> T) g' s' /\ forall id', id' <> id -> in_table s id' -> view g' s' id' = view g s id'.
Proof.
  intros I Et Hid Ec E1 E2 E3 Ht [Ex Hz] Hfl HD Hok [Hnd Hch] Hv Hst [Hm Hl] Hc Hc' Hr Hth. pose proof (i_base _ _ _ I) as B. destruct (b_free _ _ B) as (_ & Hrange & _).
  assert (K : slots_kept id g s g' s'). { intros id' Hne Hid'. cbn [g' grole gfl gpages gar]. rewrite set_role_ne by done. unfold in_table in Hid'. rewrite Hz by (done || lia). split; [done|]. split; [done|]. split; [by apply HD|]. split; [by apply Hfl|done]. }
  split; [|by apply view_kept]. apply (inv_step T g s t th th' g' s' I Et); try done.
  - apply (base_update g s g' s' id B); [done|done|exact K|by apply same_objects|intros _; by exists x'| | | | |done].
    + split; [done|]. split; [|done]. intros id' Hin. destruct (decide (id' = id)) as [->|Hne]; [done|]. apply Hrange. by apply Hfl.
    + intros v Ev. split; [done|by apply Hv].
    + intros id' Hn. apply HD. by intros ->.
    + apply (arena_same _ s); try done. apply (b_arena _ _ B).
  - apply (frame_same _ id); try done. tauto.
  - intros [id'|p] Hb; cbn [busy g' grole gar] in Hb; rewrite ?E2 in Hb.
    + unfold in_table in Hb. rewrite Ec in Hb. destruct (decide (id' = id)) as [->|Hne].
      * rewrite set_role_eq in Hb. destruct Hc' as [?|(_ & ? & ?)]; [by left|tauto].
      * rewrite set_role_ne in Hb by done. right. split; [exact Hb|]. destruct Hc as [->|[-> _]]; congruence.
    + right. split; [exact Hb|]. destruct Hc as [->|[-> _]]; congruence.
  - intros c Ecl. destruct Hc' as [E|[E _]]; [|congruence]. rewrite E in Ecl. injection Ecl as <-. tauto.
  - rewrite Hm, Hr. cbn [g' gar]. lia.
  - rewrite Hm. apply (i_memory _ _ _ I).
Qed.

(** The slot of a thread or of an id, with its facts. *)
Lemma slot_of g s id : base_ok g s -> in_table s id -> exists x, slotz s id = Some x /\ slot_at s id = Ret x /\ slot_ok g s id x.
Proof. intros B Hid. destruct (b_slots _ _ B id Hid) as (x & E & H). exists x. split; [done|]. split; [|done]. rewrite (slotz_at g s id B) by (unfold in_table in Hid; lia). by rewrite E. Qed.

(** Taking the head of the free list, and giving a slot back to it. *)
Lemma begin_ok T g s t r page : inv T g s -> T !! t = Some (Done r) -> Lz4.bytes page -> length page = 4096%nat ->
  exists th' s' g', store_begin page s = Ret (th', s') /\ inv (<[t := th']> T) g' s' /\ same_view g s g' s'.
Proof.
  intros I Et Hb Hl. pose proof (i_base _ _ _ I) as B. unfold store_begin. destruct (b_table _ _ B) as (tb & Etb & _). rewrite Etb. destruct (compress_page_ok page Hb Hl) as [->|(pattern & bytes & -> & Hj)]; rewrite ret_bind.
  { exists (Done 0), (reject s), g. split; [done|]. by apply (inv_quiet T g s t (Done r)). }
  destruct (free_head s =? 0) eqn:E0; reify_bools.
  { exists (Done 0), (alloc_failed s), g. split; [done|]. by apply (inv_quiet T g s t (Done r)). }
  destruct (b_free _ _ B) as (Hnd & Hrange & Hch). destruct (gfl g) as [|id l] eqn:Efl; [done|]. destruct Hch as (-> & x & Ex & Hch). assert (Hid : in_table s id) by (apply Hrange; left).
  destruct (slot_of g s id B Hid) as (x' & Ex' & -> & Hok). rewrite Ex in Ex'. injection Ex' as <-. rewrite ret_bind. apply NoDup_cons in Hnd as [Hni Hnd].
  assert (Hrole : grole g id = RFree /\ own (gar g) !! id = None /\ gpages g !! id = None /\ refs x = 0) by (unfold slot_ok in Hok; rewrite Efl in Hok; destruct (grole g id); [tauto| | |]; destruct Hok as [Hn _]; contradict Hn; left).
  destruct Hrole as (Hr & Ho & Hp & Hx). destruct (slot_step T g s t (Done r) (HasSlot (mk_job id page pattern bytes)) id x l RTaken (gpages g) (set_free_head (snext x) s)) as [I' V]; try done.
  - exact (b_table _ _ B). - intros id' Hne. rewrite Efl, elem_of_cons. tauto. - unfold slot_ok. cbn [grole gfl gpages]. by rewrite set_role_eq.
  - split; [done|]. by apply (fchain_ext s). - intros v Ev. congruence. - apply (b_stats _ _ B). - right. split; [done|]. intros [_ [?|?]]; congruence. - by left.
  - split; [|done]. split; [apply set_role_eq|]. done.
  - eexists _, _, _. split; [done|]. split; [exact I'|]. intros id' Hid'. destruct (decide (id' = id)) as [->|Hne]; [|by apply V]. rewrite !view_dead; [done|congruence|]. cbn [grole]. by rewrite set_role_eq.
Qed.

Lemma fail_ok T g s t j : inv T g s -> T !! t = Some (Failing j) -> exists s' g', store_fail j s = Ret (Done 0, s') /\ inv (<[t := Done 0]> T) g' s' /\ same_view g s g' s'.
Proof.
  intros I Et. pose proof (i_base _ _ _ I) as B. destruct (i_threads _ _ _ I t _ Et) as ((Hr & Hid & Hj) & Ho). set (id := jid j) in *. destruct (slot_of g s id B Hid) as (x & Ex & Ea & Hok). unfold slot_ok in Hok. rewrite Hr in Hok. destruct Hok as (Hfl & Hx & HD).
  unfold store_fail. change (slot_at (alloc_failed s) (jid j)) with (slot_at s id). rewrite Ea, ret_bind. cbn [free_head alloc_failed set_stats]. fold id.
  destruct (put_slot_ok g s (alloc_failed s) id (set_snext (free_head s) x) B eq_refl Hid) as (tb & -> & Hl & Hz). rewrite ret_bind. destruct (b_free _ _ B) as (Hnd & Hrange & Hch). set (s' := set_free_head id (set_table tb (alloc_failed s))). destruct (Hz s' eq_refl) as [Hz1 Hz2].
  destruct (slot_step T g s t (Failing j) (Done 0) id (set_snext (free_head s) x) (id :: gfl g) RFree (gpages g) s') as [I' V]; try done.
  - by exists tb. - intros id' Hne. rewrite elem_of_cons. tauto. - unfold slot_ok. cbn [grole gfl gpages gar]. rewrite set_role_eq. split; [left|done].
  - split; [by apply NoDup_cons|]. split; [done|]. exists (set_snext (free_head s) x). split; [done|]. apply (fchain_ext s); [|done]. intros id' Hin. apply Hz2; [by intros ->|]. apply Hrange in Hin. unfold in_table in Hin. lia.
  - intros v Ev. congruence. - apply (b_stats _ _ B). - by left. - by right.
  - exists s', (mk_ghost (id :: gfl g) (set_role (grole g) id RFree) (gar g) (gpages g)). split; [done|]. split; [exact I'|]. intros id' Hid'. destruct (decide (id' = id)) as [->|Hne]; [|by apply V]. rewrite !view_dead; [done|congruence|]. cbn [grole]. by rewrite set_role_eq.
Qed.

Lemma u64_add a b : u64 (u64 a + b) = u64 (a + b).
Proof. unfold u64. apply Z.add_mod_idemp_l. lia. Qed.
Lemma u64_sub a b : u64 (u64 a - b) = u64 (a - b).
Proof. unfold u64. by rewrite Zminus_mod_idemp_l. Qed.
(** The statistics with one page more or less. *)
Lemma stats_insert D id v : D !! id = None -> u64 (u64 (Z.of_nat (size D)) + 1) = u64 (Z.of_nat (size (<[id := v]> D))) /\ u64 (u64 (msum snd D) + snd v) = u64 (msum snd (<[id := v]> D)) /\
  (if snd v =? 0 then u64 (u64 (msum (fun v => Z.b2z (snd v =? 0)) D) + 1) else u64 (msum (fun v => Z.b2z (snd v =? 0)) D)) = u64 (msum (fun v => Z.b2z (snd v =? 0)) (<[id := v]> D)).
Proof.
  intros E. rewrite !msum_insert by done. rewrite map_size_insert_None by done. rewrite !u64_add. split; [f_equal; lia|]. split; [f_equal; lia|]. destruct (snd v =? 0); cbn [Z.b2z]; f_equal; lia.
Qed.
Lemma stats_delete D id v : D !! id = Some v -> u64 (u64 (Z.of_nat (size D)) - 1) = u64 (Z.of_nat (size (delete id D))) /\ u64 (u64 (msum snd D) - snd v) = u64 (msum snd (delete id D)) /\
  (if snd v =? 0 then u64 (u64 (msum (fun v => Z.b2z (snd v =? 0)) D) - 1) else u64 (msum (fun v => Z.b2z (snd v =? 0)) D)) = u64 (msum (fun v => Z.b2z (snd v =? 0)) (delete id D)).
Proof.
  intros E. rewrite (msum_delete snd D id v E), (msum_delete (fun v => Z.b2z (snd v =? 0)) D id v E). rewrite map_size_delete_Some by by exists v. assert (size D <> 0%nat) by (rewrite map_size_ne_0_lookup; by exists id, v).
  rewrite !u64_sub. split; [f_equal; lia|]. split; [f_equal; lia|]. destruct (snd v =? 0); cbn [Z.b2z]; rewrite ?u64_sub; f_equal; lia.
Qed.

(** A page becomes visible. *)
Lemma store_publish_ok T g s t j pool data : inv T g s -> T !! t = Some (Copied j pool data) -> exists s' g', store_publish j pool data s = Ret (Done (jid j), s') /\ inv (<[t := Done (jid j)]> T) g' s' /\
  in_table s (jid j) /\ view g s (jid j) = None /\ forall id, in_table s id -> view g' s' id = if decide (id = jid j) then Some (jpage j, 1) else view g s id.
Proof.
  intros I Et. pose proof (i_base _ _ _ I) as B. destruct (i_threads _ _ _ I t _ Et) as ((Hr & Hid & Hj) & Ho). set (id := jid j) in *. destruct (slot_of g s id B Hid) as (x & Ex & Ea & Hok). unfold slot_ok in Hok. rewrite Hr in Hok. destruct Hok as (Hfl & Hx & HD).
  assert (Hn : 0 <= blen j <= 2048) by (unfold blen; destruct Hj as [[-> _]|(_ & H & _)]; cbn; lia). unfold store_publish. fold id (blen j). rewrite Ea, ret_bind, (u16_id (blen j)) by lia.
  set (x' := mk_slot data pool (jpattern j) 1 (snext x) (blen j)). destruct (put_slot_ok g s s id x' B eq_refl Hid) as (tb & -> & Hl & Hz). rewrite ret_bind. destruct (b_free _ _ B) as (Hnd & Hrange & Hch). destruct (b_stats _ _ B) as (S1 & S2 & S3).
  set (D' := <[id := (jpage j, blen j)]> (gpages g)). destruct (stats_insert (gpages g) id (jpage j, blen j) HD) as (N1 & N2 & N3). cbn [stats set_table snd] in *. rewrite S1, S2, S3, N1, N2, N3. set (s' := count_stored _ _ _ _ _). destruct (Hz s' eq_refl) as [Hz1 Hz2].
  assert (Hb0 : jbytes j = [] <-> blen j = 0) by (unfold blen; destruct (jbytes j); cbn; split; done || lia).
  destruct (slot_step T g s t (Copied j pool data) (Done id) id x' (gfl g) RLive D' s') as [I' V]; try done.
  - by exists tb. - intros id' Hne. by apply lookup_insert_ne.
  - unfold slot_ok. cbn [grole gfl]. rewrite set_role_eq. split; [done|]. split; [cbn; unfold UINT32_MAX; lia|]. exists (jpage j). split; [apply lookup_insert_eq|]. cbn [x' spool sdata same slength].
    apply (content_same g s); try done. unfold content. destruct (decide (jbytes j = [])) as [E|E].
    + rewrite decide_True by by apply Hb0. destruct Ho as [Ho ->]. split; [done|]. split; [done|]. by destruct Hj as [[_ ?]|[? _]].
    + rewrite decide_False by (rewrite <- Hb0; done). destruct Ho as [Ho Hm]. split; [done|]. exists (jbytes j). split; [done|]. by destruct Hj as [[? _]|(_ & _ & ?)].
  - split; [done|]. apply (fchain_ext s); [|done]. intros id' Hin. apply Hz2; [by intros ->|]. apply Hrange in Hin. unfold in_table in Hin. lia.
  - intros v Ev. unfold D' in Ev. rewrite lookup_insert_eq in Ev. by injection Ev as <-. - by left. - by right.
  - eexists s', _. split; [done|]. split; [exact I'|]. split; [done|]. split; [apply view_dead; congruence|]. intros id' Hid'. destruct (decide (id' = id)) as [->|Hne]; [|by apply V].
    unfold view. cbn [grole gpages]. rewrite set_role_eq, Hz1. unfold D'. rewrite lookup_insert_eq. done.
Qed.

(** ** References *)

(** Changing the count of a referenced slot; at 0 the thread that did it keeps it. *)
Lemma recount_ok T g s t r th' id x v : inv T g s -> T !! t = Some (Done r) -> in_table s id -> slotz s id = Some x -> grole g id = RLive -> 0 <= v <= UINT32_MAX ->
  th' = (if v =? 0 then Dropping id else th') -> (v <> 0 -> exists r', th' = Done r') ->
  exists s' g', put_slot id (set_refs v x) s = Ret s' /\ inv (<[t := th']> T) g' s' /\
    forall id', in_table s id' -> view g' s' id' = if decide (id' = id) then (if v =? 0 then None else option_map (fun p => (fst p, v)) (view g s id)) else view g s id'.
Proof.
  intros I Et Hid Ex Hr Hv Hth Hth'. pose proof (i_base _ _ _ I) as B. destruct (b_slots _ _ B id Hid) as (x0 & Ex0 & Hok). rewrite Ex in Ex0. injection Ex0 as <-. unfold slot_ok in Hok. rewrite Hr in Hok. destruct Hok as (Hfl & Hx & page & HD & C).
  destruct (put_slot_ok g s s id (set_refs v x) B eq_refl Hid) as (tb & -> & Hl & Hz). set (s' := set_table tb s). destruct (Hz s' eq_refl) as [Hz1 Hz2]. destruct (b_free _ _ B) as (Hnd & Hrange & Hch). set (r' := if v =? 0 then RDropping else RLive).
  destruct (slot_step T g s t (Done r) th' id (set_refs v x) (gfl g) r' (gpages g) s') as [I' V]; try done.
  - by exists tb.
  - unfold slot_ok. cbn [grole gfl]. rewrite set_role_eq. assert (St : stored (mk_ghost (gfl g) (set_role (grole g) id r') (gar g) (gpages g)) s' id (set_refs v x)) by (exists page; split; [done|by apply (content_same g s)]).
    unfold r'. destruct (v =? 0) eqn:E0; reify_bools; [done|]. split; [done|]. split; [cbn; lia|done].
  - split; [done|]. apply (fchain_ext s); [|done]. intros id' Hin. apply Hz2; [by intros ->|]. apply Hrange in Hin. unfold in_table in Hin. lia.
  - intros w Ew. by destruct (b_pages _ _ B _ _ Ew). - apply (b_stats _ _ B). - right. split; [done|]. intros [_ [?|?]]; congruence.
  - unfold r'. destruct (v =? 0) eqn:E0; reify_bools; [rewrite Hth; by left|]. destruct (Hth' E0) as [r1 ->]. by right.
  - destruct (v =? 0) eqn:E0; reify_bools; [by rewrite Hth|]. by destruct (Hth' E0) as [r1 ->].
  - unfold r'. destruct (v =? 0) eqn:E0; reify_bools; [rewrite Hth; split; [done|apply set_role_eq]|]. by destruct (Hth' E0) as [r1 ->].
  - eexists s', _. split; [done|]. split; [exact I'|]. intros id' Hid'. destruct (decide (id' = id)) as [->|Hne]; [|by apply V]. unfold view. cbn [grole gpages]. rewrite set_role_eq, Hr, Hz1, Ex, HD. unfold r'. by destruct (v =? 0).
Qed.

(** [zram_slot_get] and [zram_slot_put] on the counts. *)
Definition get_spec (w : option (list Z * Z)) : bool * option (list Z * Z) := match w with Some (page, r) => if r =? UINT32_MAX then (false, w) else (true, Some (page, r + 1)) | None => (false, None) end.
Definition put_spec (w : option (list Z * Z)) : option (list Z * Z) := match w with Some (page, r) => if r =? UINT32_MAX then w else if r =? 1 then None else Some (page, r - 1) | None => None end.

(** The count of a slot as the code reads it. *)
Lemma view_refs g s id x : base_ok g s -> in_table s id -> slotz s id = Some x -> (refs x = 0 /\ view g s id = None) \/ (grole g id = RLive /\ 0 < refs x <= UINT32_MAX /\ exists page, view g s id = Some (page, refs x)).
Proof.
  intros B Hid Ex. destruct (b_slots _ _ B id Hid) as (x0 & Ex0 & Hok). rewrite Ex in Ex0. injection Ex0 as <-. unfold slot_ok in Hok. destruct (grole g id) eqn:Er; try (left; split; [tauto|apply view_dead; congruence]).
  right. split; [done|]. destruct Hok as (_ & Hx & page & HD & _). split; [done|]. exists page. unfold view. rewrite Er, Ex, HD. done.
Qed.
Lemma view_out g s id : base_ok g s -> ~ in_table s id -> view g s id = None.
Proof. intros B Hid. unfold view. destruct (grole g id); try done. destruct (slotz s id); [|done]. cbn. destruct (gpages g !! id) as [v|] eqn:E; [|done]. by destruct (b_pages _ _ B _ _ E). Qed.

Lemma get_ok T g s t r id : inv T g s -> T !! t = Some (Done r) -> 0 <= id -> exists s' g', zram_slot_get id s = Ret (fst (get_spec (view g s id)), s') /\ inv (<[t := Done (Z.b2z (fst (get_spec (view g s id))))]> T) g' s' /\
  forall id', in_table s id' -> view g' s' id' = if decide (id' = id) then snd (get_spec (view g s id)) else view g s id'.
Proof.
  intros I Et H0. pose proof (i_base _ _ _ I) as B. unfold zram_slot_get. rewrite (valid_ok g s id B H0).
  assert (Hq : forall w, get_spec (view g s id) = (false, w) -> w = view g s id -> exists s' g', Ret (false, s) = Ret (fst (get_spec (view g s id)), s') /\ inv (<[t := Done (Z.b2z (fst (get_spec (view g s id))))]> T) g' s' /\
    forall id', in_table s id' -> view g' s' id' = if decide (id' = id) then snd (get_spec (view g s id)) else view g s id').
  { intros w -> ->. exists s, g. split; [done|]. destruct (inv_quiet T g s t (Done r) (Done 0) s I Et) as [I' V]; try done. split; [exact I'|]. intros id' Hid'. by destruct (decide (id' = id)) as [->|]. }
  case_bool_decide as Hid; cbn [negb]; [|apply (Hq None); by rewrite (view_out g s id B Hid)]. destruct (slot_of g s id B Hid) as (x & Ex & -> & _). rewrite ret_bind.
  destruct (view_refs g s id x B Hid Ex) as [[Hx Ev]|(Hr & Hx & page & Ev)]; [rewrite Hx; cbn [Z.eqb orb]; apply (Hq None); by rewrite Ev|]. rewrite (proj2 (Z.eqb_neq (refs x) 0)) by lia. cbn [orb]. destruct (refs x =? UINT32_MAX) eqn:Em; reify_bools.
  { apply (Hq (Some (page, refs x))); rewrite Ev; [|done]. cbn. by rewrite (proj2 (Z.eqb_eq _ _) Em). }
  assert (Eg : get_spec (view g s id) = (true, Some (page, refs x + 1))) by (rewrite Ev; cbn; by rewrite (proj2 (Z.eqb_neq _ _) Em)).
  destruct (recount_ok T g s t r (Done 1) id x (refs x + 1) I Et Hid Ex Hr) as (s' & g' & -> & I' & V); [lia|by rewrite (proj2 (Z.eqb_neq _ 0)) by lia|by exists 1|]. rewrite ret_bind, Eg. exists s', g'. split; [done|]. split; [exact I'|].
  intros id' Hid'. rewrite (V id' Hid'). destruct (decide (id' = id)); [|done]. rewrite (proj2 (Z.eqb_neq _ 0)) by lia. by rewrite Ev.
Qed.

Lemma put_begin_ok T g s t r id : inv T g s -> T !! t = Some (Done r) -> 0 <= id -> exists th' s' g', put_begin id s = Ret (th', s') /\ inv (<[t := th']> T) g' s' /\
  forall id', in_table s id' -> view g' s' id' = if decide (id' = id) then put_spec (view g s id) else view g s id'.
Proof.
  intros I Et H0. pose proof (i_base _ _ _ I) as B. unfold put_begin. rewrite (valid_ok g s id B H0).
  assert (Hq : put_spec (view g s id) = view g s id -> exists th' s' g', Ret (Done 0, s) = Ret (th', s') /\ inv (<[t := th']> T) g' s' /\ forall id', in_table s id' -> view g' s' id' = if decide (id' = id) then put_spec (view g s id) else view g s id').
  { intros ->. exists (Done 0), s, g. split; [done|]. destruct (inv_quiet T g s t (Done r) (Done 0) s I Et) as [I' V]; try done. split; [exact I'|]. intros id' Hid'. by destruct (decide (id' = id)) as [->|]. }
  case_bool_decide as Hid; cbn [negb]; [|apply Hq; by rewrite (view_out g s id B Hid)]. destruct (slot_of g s id B Hid) as (x & Ex & -> & _). rewrite ret_bind.
  destruct (view_refs g s id x B Hid Ex) as [[Hx Ev]|(Hr & Hx & page & Ev)]; [rewrite Hx; cbn [Z.eqb orb]; apply Hq; by rewrite Ev|]. rewrite (proj2 (Z.eqb_neq (refs x) 0)) by lia. cbn [orb]. destruct (refs x =? UINT32_MAX) eqn:Em; reify_bools.
  { apply Hq. rewrite Ev. cbn. by rewrite (proj2 (Z.eqb_eq _ _) Em). }
  destruct (recount_ok T g s t r (if refs x - 1 =? 0 then Dropping id else Done 0) id x (refs x - 1) I Et Hid Ex Hr) as (s' & g' & -> & I' & V); [lia|by destruct (_ =? 0)|intros Hne; rewrite (proj2 (Z.eqb_neq _ 0)) by lia; by exists 0|].
  rewrite ret_bind. eexists _, s', g'. split; [done|]. split; [exact I'|]. intros id' Hid'. rewrite (V id' Hid'). destruct (decide (id' = id)); [|done]. rewrite Ev. cbn. rewrite (proj2 (Z.eqb_neq _ _) Em).
  destruct (refs x - 1 =? 0) eqn:E1, (refs x =? 1) eqn:E2; reify_bools; done || lia.
Qed.

(** ** Steps in the pools *)

Lemma pool_step T g s t th th' id a' s' (g' := mk_ghost (gfl g) (grole g) a' (gpages g)) : inv T g s -> T !! t = Some th -> claim th = Some (inl id) -> claim th' = Some (inl id) -> grole g id = RTaken ->
  slots s' = slots s -> count s' = count s -> free_head s' = free_head s ->
  stored_pages (stats s') = stored_pages (stats s) /\ compressed_bytes (stats s') = compressed_bytes (stats s) /\ same_pages (stats s') = same_pages (stats s) ->
  objects_kept id g s g' s' -> (forall id', id' <> id -> own a' !! id' = own (gar g) !! id') -> arena_ok a' s' ->
  (forall p, ((exists x, pages s' !! p = Some x) /\ p ∉ att a') <-> (exists x, pages s !! p = Some x) /\ p ∉ att (gar g)) ->
  memory_bytes (stats s') - PACKED_CHARGE * (Z.of_nat (size (att a')) + Z.b2z (reserving th')) = memory_bytes (stats s) - PACKED_CHARGE * (Z.of_nat (size (att (gar g))) + Z.b2z (reserving th)) ->
  memory_limit (stats s') = memory_limit (stats s) -> memory_bytes (stats s') <= memory_limit (stats s) -> thread_ok g' s' th' ->
  inv (<[t := th']> T) g' s' /\ same_view g s g' s'.
Proof.
  intros I Et Ec Ec' Hr E1 E2 E3 (S1 & S2 & S3) O Ho HA Hp Hm Hl Hle Hth. pose proof (i_base _ _ _ I) as B. assert (Hz : forall id', slotz s' id' = slotz s id') by (intros id'; unfold slotz; by rewrite E1).
  assert (K : slots_kept id g s g' s') by (intros id' Hne _; cbn [g' grole gfl gpages gar]; rewrite Hz, Ho by done; done). split.
  2:{ intros id' Hid'. unfold view. cbn [g' grole gpages]. by rewrite Hz. }
  assert (Hid : in_table s id) by (pose proof (thread_busy g s th _ (i_threads _ _ _ I t th Et) Ec) as [? _]; done).
  apply (inv_step T g s t th th' g' s' I Et); try done.
  - apply (base_update g s g' s' id B); [done| |exact K|exact O| | | |done|exact HA|].
    + rewrite E1. exact (b_table _ _ B).
    + intros _. destruct (b_slots _ _ B id Hid) as (x & Ex & Hok). exists x. rewrite Hz. split; [done|]. unfold slot_ok in *. cbn [g' grole gfl gpages]. rewrite Hr in *. done.
    + destruct (b_free _ _ B) as (? & ? & Hch). split; [done|]. split; [done|]. rewrite E3. by apply (fchain_ext s).
    + intros v Ev. apply (b_pages _ _ B _ _ Ev).
    + rewrite S1, S2, S3. apply (b_stats _ _ B).
  - rewrite Ec. constructor; [done|done| | |].
    + intros id' _ Hne _. apply Ho. congruence. + intros id' pool data n Hne. apply O. congruence. + intros p _ H1 H2. by apply Hp.
  - intros [id'|p] Hb; cbn [busy g' grole gar] in Hb.
    + unfold in_table in Hb. rewrite E2 in Hb. destruct (decide (id' = id)) as [->|Hne]; [by left|right]. split; [exact Hb|]. rewrite Ec. congruence.
    + right. split; [by apply Hp|]. rewrite Ec. congruence.
  - intros c Hc. left. congruence.
Qed.

Lemma remasked_shape p mask m m' : remasked p mask m m' -> forall q, (forall x, m !! q = Some x -> exists x', m' !! q = Some x' /\ shape x x') /\ ((exists x, m' !! q = Some x) <-> exists x, m !! q = Some x).
Proof.
  intros R q. split; [intros x E; destruct (proj1 R q x E) as (x' & ? & ? & _); by exists x'|]. split; [intros [x E]; destruct (remasked_inv _ _ _ _ _ _ R E) as (y & ? & _); by exists y|].
  intros [x E]. destruct (proj1 R q x E) as (x' & ? & _). by exists x'.
Qed.

Lemma with_data_ok g s p x i j pool : arena_ok (gar g) s -> pages s !! p = Some x -> 0 <= i < objects (psize x) -> with_data j pool (object_at hhdm (phys x) i (psize x)) = HasData j pool (object_at hhdm (phys x) i (psize x)).
Proof. intros A E Hi. unfold with_data. destruct (object_address hhdm Hhhdm (gar g) s p x i (ar_page _ _ _ A p x E) Hi) as (Hne & _). by rewrite (proj2 (Z.eqb_neq _ 0)). Qed.

Lemma store_alloc_ok T g s t j : inv T g s -> T !! t = Some (HasSlot j) -> exists th' s' g', store_alloc hhdm j s = Ret (th', s') /\ inv (<[t := th']> T) g' s' /\ same_view g s g' s' /\
  (th' = Failing j -> memory_limit (stats s) - memory_bytes (stats s) < PACKED_CHARGE).
Proof.
  intros I Et. pose proof (i_base _ _ _ I) as B. destruct (i_threads _ _ _ I t _ Et) as (Ht & Ho). pose proof Ht as (Hr & Hid & Hj). unfold store_alloc. destruct (jbytes j) as [|b0 bs] eqn:Eb.
  { exists (Copied j 0 0), s, g. split; [done|]. destruct (inv_quiet T g s t (HasSlot j) (Copied j 0 0) s I Et) as [I' V]; try done. split; [done|]. by rewrite decide_True. }
  rewrite <- Eb. fold (blen j). assert (Hne : jbytes j <> []) by (rewrite Eb; done). assert (Hn : 0 < blen j <= 2048) by (unfold blen; rewrite Eb; destruct Hj as [[Hj _]|(_ & Hj & _)]; [congruence|]; rewrite Eb in Hj; cbn in *; lia).
  destruct (arena_find_ok hhdm (gar g) s (jid j) (blen j) (b_arena _ _ B) Ho Hn) as [(p & x & i & m' & l' & c' & -> & E & Hs & Hi & [mask R] & A')|[-> _]]; rewrite ret_bind.
  - rewrite (with_data_ok g s p x i j p (b_arena _ _ B) E Hi). set (s' := set_partial l' (set_pages m' s)) in *. set (a' := mk_arena _ _ _) in *.
    destruct (pool_step T g s t (HasSlot j) (HasData j p (object_at hhdm (phys x) i (psize x))) (jid j) a' s') as [I' V]; try done.
    + intros id pool data n Hne' H. split; [|done]. apply (holds_frame g s); [cbn [gar a' own]; by rewrite lookup_insert_ne| |done]. intros y. apply (remasked_shape _ _ _ _ R).
    + intros id' Hne'. cbn [a' own]. by rewrite lookup_insert_ne.
    + intros q. cbn [a' att s' pages set_partial set_pages]. destruct (remasked_shape _ _ _ _ R q) as [_ ->]. done. + apply (i_memory _ _ _ I).
    + split; [done|]. split; [done|]. destruct (proj1 R p x E) as (x' & Ex' & (S1 & S2 & S3) & _). exists i, x'. split; [apply lookup_insert_eq|]. rewrite S1, S2. split; [done|]. split; [done|]. split; [done|lia].
    + eexists _, s', _. split; [done|]. split; [exact I'|]. split; [exact V|done].
  - destruct (_ || _) eqn:Ef.
    + exists (Failing j), s, g. split; [done|]. destruct (inv_quiet T g s t (HasSlot j) (Failing j) s I Et) as [I' V]; try done. split; [exact I'|]. split; [exact V|]. intros _. destruct (i_memory _ _ _ I). reify_bools; unfold PACKED_CHARGE in *; lia.
    + reify_bools. destruct (i_memory _ _ _ I) as [_ Hlim]. assert (H0m : 0 <= memory_bytes (stats s)).
      { rewrite (proj1 (i_memory _ _ _ I)). unfold charged, table_bytes, SLOT_SIZE, PACKED_CHARGE. pose proof (count_nonneg reserving T). destruct (b_count _ _ B). pose proof (Z.div_pos ((count s + 1) * 40 + 64 + 4095) 4096). lia. }
      unfold PACKED_CHARGE in *. rewrite (u64_id (memory_bytes (stats s) + _)) by lia. set (s' := set_memory _ s).
      destruct (pool_step T g s t (HasSlot j) (Reserved j) (jid j) (gar g) s') as [I' V]; try done.
      * apply (arena_same _ s); try done. apply (b_arena _ _ B). * cbn [reserving Z.b2z stats s' set_memory set_stats memory_bytes]. unfold PACKED_CHARGE. lia. * cbn [stats s' set_memory set_stats memory_bytes]. lia.
      * eexists _, s', _. split; [done|]. split; [exact I'|]. split; [exact V|done].
Qed.

(** What [kmalloc] and [pmm_alloc] return: 0, or memory that the store does not have. *)
Definition fresh_memory (s : zram) (node : Z) (frame : Z * list Z) : Prop :=
  (node <> 0 -> pages s !! node = None) /\
  (fst frame <> 0 -> frames s !! fst frame = None /\ 0 < fst frame /\ (4096 | fst frame) /\ fst frame + hhdm + 4096 <= 2 ^ 64 /\ length (snd frame) = 4096%nat).

(** A copy of other frames does not change an object. *)
Lemma object_frame g s fs id pool data n : arena_ok (gar g) s -> holds g s id pool data n -> (forall x, pages s !! pool = Some x -> fs !! phys x = frames s !! phys x) -> memcpy_from hhdm data n (set_frames fs s) = memcpy_from hhdm data n s.
Proof.
  intros A (i & x & _ & E & Hi & -> & _) Hf. destruct (object_address hhdm Hhhdm (gar g) s pool x i (ar_page _ _ _ A pool x E) Hi) as (_ & Ef & _). unfold memcpy_from. rewrite Ef. cbn [frames set_frames]. by rewrite (Hf x E).
Qed.

Lemma memory_reserved T g s t j : inv T g s -> T !! t = Some (Reserved j) -> PACKED_CHARGE <= memory_bytes (stats s).
Proof.
  intros I Et. rewrite (proj1 (i_memory _ _ _ I)). unfold charged, table_bytes, SLOT_SIZE, PACKED_CHARGE. pose proof (count_pos reserving T t _ Et eq_refl). destruct (b_count _ _ (i_base _ _ _ I)).
  pose proof (Z.div_pos ((count s + 1) * 40 + 64 + 4095) 4096). lia.
Qed.

Lemma store_grow_ok T g s t j node frame : inv T g s -> T !! t = Some (Reserved j) -> fresh_memory s node frame ->
  exists th' s' g', store_grow hhdm j node frame s = Ret (th', s') /\ inv (<[t := th']> T) g' s' /\ same_view g s g' s' /\
    (th' = Failing j -> node = 0 \/ fst frame = 0).
Proof.
  intros I Et [Hf1 Hf2]. pose proof (i_base _ _ _ I) as B. destruct (i_threads _ _ _ I t _ Et) as (Ht & Ho & Hne). pose proof Ht as (Hr & Hid & Hj). destruct frame as [ph stale]. cbn [fst snd] in *. unfold store_grow. fold (blen j).
  assert (Hn : 0 < blen j <= 2048) by (unfold blen; destruct Hj as [[Hj _]|(_ & Hj & _)]; [done|]; destruct (jbytes j); [done|cbn in *; lia]). destruct (i_memory _ _ _ I) as [_ Hlim]. pose proof (memory_reserved T g s t j I Et) as Hres.
  destruct (decide (node = 0 \/ ph = 0)) as [Hz|Hz].
  - unfold packed_grow. assert (E0 : (node =? 0) || (ph =? 0) = true) by (destruct Hz as [-> | ->]; [done|apply orb_true_r]). rewrite E0, ret_bind. cbn [with_data Z.eqb]. unfold PACKED_CHARGE in *. rewrite u64_id by lia. set (s' := set_memory _ s).
    destruct (pool_step T g s t (Reserved j) (Failing j) (jid j) (gar g) s') as [I' V]; try done.
    + apply (arena_same _ s); try done. apply (b_arena _ _ B). + cbn [reserving Z.b2z stats s' set_memory set_stats memory_bytes]. unfold PACKED_CHARGE. lia. + cbn [stats s' set_memory set_stats memory_bytes]. lia.
    + eexists _, s', _. split; [done|]. split; [exact I'|]. split; [exact V|done].
  - destruct (decide (node = 0)) as [?|Hn0]; [tauto|]. destruct (decide (ph = 0)) as [?|Hp0]; [tauto|]. specialize (Hf1 Hn0). destruct (Hf2 Hp0) as (Hfr & Hpos & Hal & Hhi & Hst).
    assert (Hph : forall p x, pages s !! p = Some x -> phys x <> ph) by (intros p x E Eq; destruct (page_frame _ _ _ _ _ (ar_page _ _ _ (b_arena _ _ B) p x E)) as ((f & Ef & _) & _); congruence).
    destruct (grow_ok hhdm Hhhdm (gar g) s (jid j) (blen j) node ph stale (b_arena _ _ B) Ho Hn Hn0 Hf1 Hpos Hal Hhi Hst Hph) as (x & m' & l' & c' & -> & Ex & Hs & Hob & Em & Hsh & Hnew & A').
    rewrite ret_bind. set (s' := set_partial l' (set_pages m' (set_frames (<[ph := stale]> (frames s)) s))) in *. set (a' := mk_arena _ _ _) in *. set (g' := mk_ghost (gfl g) (grole g) a' (gpages g)).
    rewrite (with_data_ok g' s' node x 0 j node A' Em) by lia. assert (Hna : node ∉ att (gar g)) by (intros Hin; apply (ar_att _ _ _ (b_arena _ _ B)) in Hin as [y Ey]; congruence).
    destruct (pool_step T g s t (Reserved j) (HasData j node (object_at hhdm (phys x) 0 (psize x))) (jid j) a' s') as [I' V]; try done.
    + intros id pool data n Hid' H. split; [apply (holds_frame g s); [cbn [gar a' own]; by rewrite lookup_insert_ne|intros y; apply Hsh|done]|]. apply (object_frame g s (<[ph := stale]> (frames s)) id pool data n (b_arena _ _ B) H).
      intros y Ey. rewrite lookup_insert_ne; [done|]. intros Eq. by apply (Hph pool y).
    + intros id' Hne'. cbn [a' own]. by rewrite lookup_insert_ne.
    + intros q. cbn [a' att s' pages set_partial set_pages]. destruct (decide (q = node)) as [->|Hq]; [split; [set_solver|intros [[y Ey] _]; congruence]|].
      assert (Hex : (exists y, m' !! q = Some y) <-> exists y, pages s !! q = Some y).
      { split; intros [y Ey]; [destruct (pages s !! q) as [z|] eqn:Ez; [by exists z|rewrite (Hnew q Hq Ez) in Ey; done]|destruct (Hsh q y Ey) as (y' & ? & _); by exists y']. }
      rewrite Hex. set_solver.
    + cbn [reserving Z.b2z a' att s' stats set_partial set_pages set_frames]. rewrite size_union by set_solver. rewrite size_singleton. unfold PACKED_CHARGE. lia.
    + apply (i_memory _ _ _ I).
    + split; [done|]. split; [done|]. exists 0, x. split; [apply lookup_insert_eq|]. split; [done|]. split; [lia|]. split; [done|lia].
    + eexists _, s', _. split; [done|]. split; [exact I'|]. split; [exact V|done].
Qed.

Lemma store_copy_ok T g s t j pool data : inv T g s -> T !! t = Some (HasData j pool data) -> exists s' g', store_copy hhdm j pool data s = Ret (Copied j pool data, s') /\ inv (<[t := Copied j pool data]> T) g' s' /\ same_view g s g' s'.
Proof.
  intros I Et. pose proof (i_base _ _ _ I) as B. destruct (i_threads _ _ _ I t _ Et) as (Ht & Hne & Hh). pose proof Hh as (i & x & Eo & Ex & Hi & -> & Hn). unfold store_copy.
  destruct (copy_ok hhdm Hhhdm (gar g) s pool x i (jbytes j) (b_arena _ _ B) Ex Hi) as (fs & -> & A' & Er & Hother); [unfold blen in Hn; lia|]. rewrite ret_bind. set (s' := set_frames fs s) in *.
  destruct (pool_step T g s t (HasData j pool (object_at hhdm (phys x) i (psize x))) (Copied j pool (object_at hhdm (phys x) i (psize x))) (jid j) (gar g) s') as [I' V]; try done.
  - apply Ht.
  - intros id pool' data n Hid H. split; [apply (holds_frame g s); [done| |done]; intros y Ey; by exists y|]. destruct H as (i' & y & Eo' & Ey & Hi' & -> & Hn'). apply (Hother pool' y i' n Ey Hi'); [lia|].
    intros Eq. apply Hid. apply (ar_inj _ _ _ (b_arena _ _ B) id (jid j) (pool, i)); congruence.
  - apply (i_memory _ _ _ I).
  - split; [done|]. rewrite decide_False by done. split; [|exact Er]. by exists i, x.
  - eexists s', _. split; [done|]. split; [exact I'|exact V].
Qed.

(** ** Dropping a slot *)

Lemma drop_object g s id page pool data pattern n : arena_ok (gar g) s -> content g s id page pool data pattern n ->
  exists r m' l' a' (s1 := set_partial l' (set_pages m' s)), free_object hhdm pool data s = Ret (r, if r =? 0 then s1 else set_memory (u64 (memory_bytes (stats s) - PACKED_CHARGE)) s1) /\
    own a' = delete id (own (gar g)) /\ att a' = (if r =? 0 then att (gar g) else att (gar g) ∖ {[r]}) /\ arena_ok a' s1 /\ (r <> 0 -> r ∈ att (gar g)) /\
    forall q, (forall x, pages s !! q = Some x -> exists x', m' !! q = Some x' /\ shape x x') /\ ((exists x, m' !! q = Some x) <-> exists x, pages s !! q = Some x).
Proof.
  intros A. unfold content. destruct (decide (n = 0)) as [_|_].
  - intros (Ho & -> & _). exists 0, (pages s), (partial s), (gar g). cbn [free_object Z.eqb]. assert (Es : set_partial (partial s) (set_pages (pages s) s) = s) by by destruct s. rewrite Es. split; [done|]. rewrite delete_id by done. split; [done|]. split; [done|].
    split; [done|]. split; [done|]. intros q. split; [|done]. intros x E. by exists x.
  - intros ((i & x & Eo & Ex & Hi & -> & Hn) & _). destruct (arena_free_ok hhdm Hhhdm (gar g) s id pool x i A Eo Ex) as (m' & l' & c' & R & [(Hm & -> & A')|(Hm & -> & A')]).
    + exists 0, m', l', (mk_arena (delete id (own (gar g))) (att (gar g)) c'). split; [done|]. split; [done|]. split; [done|]. split; [done|]. split; [done|]. exact (remasked_shape _ _ _ _ R).
    + pose proof (ar_page _ _ _ A pool x Ex) as ((Hp0 & _) & _). destruct (own_del hhdm (gar g) s id pool x i A Eo Ex) as (_ & Hatt & _). exists pool, m', l', (mk_arena (delete id (own (gar g))) (att (gar g) ∖ {[pool]}) c'). rewrite (proj2 (Z.eqb_neq pool 0)) by done.
      split; [done|]. split; [done|]. split; [done|]. split; [done|]. split; [done|]. exact (remasked_shape _ _ _ _ R).
Qed.

Lemma charge_attached T g s p : inv T g s -> p ∈ att (gar g) -> PACKED_CHARGE <= memory_bytes (stats s).
Proof.
  intros I Hp. rewrite (proj1 (i_memory _ _ _ I)). unfold charged, table_bytes, SLOT_SIZE, PACKED_CHARGE. pose proof (count_nonneg reserving T). destruct (b_count _ _ (i_base _ _ _ I)).
  pose proof (Z.div_pos ((count s + 1) * 40 + 64 + 4095) 4096). assert (size (att (gar g)) <> 0%nat) by (apply size_non_empty_iff; set_solver). lia.
Qed.

Lemma put_locked_ok T g s t id : inv T g s -> T !! t = Some (Dropping id) -> exists th' s' g', put_locked hhdm id s = Ret (th', s') /\ inv (<[t := th']> T) g' s' /\ same_view g s g' s'.
Proof.
  intros I Et. pose proof (i_base _ _ _ I) as B. destruct (i_threads _ _ _ I t _ Et) as (Hid & Hr). destruct (slot_of g s id B Hid) as (x & Ex & Ea & Hok). unfold slot_ok in Hok. rewrite Hr in Hok. destruct Hok as (Hfl & Hx & page & HD & C).
  unfold put_locked. rewrite Ea, ret_bind. destruct (drop_object g s id page _ _ _ _ (b_arena _ _ B) C) as (r & m' & l' & a' & -> & Eown & Eatt & A' & Hatt & Hsh). rewrite ret_bind. set (s1 := set_partial l' (set_pages m' s)) in *. set (s2 := if r =? 0 then s1 else _).
  assert (E2 : slots s2 = slots s /\ count s2 = count s /\ free_head s2 = free_head s /\ pages s2 = m' /\ frames s2 = frames s /\ partial s2 = l') by (unfold s2; by destruct (r =? 0)).
  assert (E3 : stored_pages (stats s2) = stored_pages (stats s) /\ compressed_bytes (stats s2) = compressed_bytes (stats s) /\ same_pages (stats s2) = same_pages (stats s) /\ memory_limit (stats s2) = memory_limit (stats s)) by (unfold s2; by destruct (r =? 0)).
  destruct E2 as (Es & Ec & Eh & Ep & Ef & El), E3 as (F1 & F2 & F3 & F4). destruct (b_stats _ _ B) as (S1 & S2 & S3). destruct (stats_delete (gpages g) id _ HD) as (N1 & N2 & N3). cbn [snd] in *. rewrite F1, F2, F3, S1, S2, S3, N1, N2, N3. set (s3 := count_stored _ _ _ _ s2).
  change (free_head s3) with (free_head s2). rewrite Eh. destruct (put_slot_ok g s s3 id (set_snext (free_head s) zero_slot) B Es Hid) as (tb & -> & Hl & Hz). rewrite ret_bind. set (s' := set_free_head id (set_table tb s3)). destruct (Hz s' eq_refl) as [Hz1 Hz2].
  set (g' := mk_ghost (id :: gfl g) (set_role (grole g) id RFree) a' (delete id (gpages g))). destruct (b_free _ _ B) as (Hnd & Hrange & Hch).
  assert (Hm : memory_bytes (stats s') = if r =? 0 then memory_bytes (stats s) else memory_bytes (stats s) - PACKED_CHARGE).
  { cbn [s' stats set_free_head set_table s3 count_stored set_stats memory_bytes]. unfold s2. destruct (r =? 0) eqn:E0; reify_bools; [done|]. cbn [stats set_memory set_stats memory_bytes]. pose proof (charge_attached T g s r I (Hatt E0)). destruct (i_memory _ _ _ I) as [_ Hlim]. rewrite u64_id; [done|]. unfold PACKED_CHARGE in *. lia. }
  assert (Aar : arena_ok a' s') by (apply (arena_same a' s1); [exact Ep|exact Ef|exact El|exact A']).
  assert (K : slots_kept id g s g' s'). { intros id' Hne Hid'. cbn [g' grole gfl gpages gar]. rewrite set_role_ne, Eown, !lookup_delete_ne by done. unfold in_table in Hid'. rewrite Hz2 by (done || lia). split; [done|]. split; [done|]. split; [done|]. rewrite elem_of_cons. tauto. }
  assert (O : objects_kept id g s g' s').
  { intros id' pool data n Hne H. split; [|unfold memcpy_from; change (frames s') with (frames s2); by rewrite Ef]. apply (holds_frame g s); [cbn [g' gar]; rewrite Eown; by apply lookup_delete_ne| |done]. intros y. change (pages s') with (pages s2). rewrite Ep. apply Hsh. }
  assert (Hpg : forall q, (exists y, pages s' !! q = Some y) <-> exists y, pages s !! q = Some y) by (intros q; change (pages s') with (pages s2); rewrite Ep; apply Hsh).
  exists (if r =? 0 then Done 0 else Releasing r), s', g'. split; [done|]. split.
  2:{ intros id' Hid'. destruct (decide (id' = id)) as [->|Hne]; [|by apply (view_kept id g s)]. rewrite !view_dead; [done|congruence|]. cbn [g' grole]. by rewrite set_role_eq. }
  apply (inv_step T g s t (Dropping id) _ g' s' I Et).
  - apply (base_update g s g' s' id B Ec); [by exists tb|exact K|exact O| | | | |exact Aar|done].
    + intros _. exists (set_snext (free_head s) zero_slot). split; [done|]. unfold slot_ok. cbn [g' grole gfl gar gpages]. rewrite set_role_eq, Eown, !lookup_delete_eq. split; [left|done].
    + split; [by apply NoDup_cons|]. split; [intros id' [->|Hin]%elem_of_cons; [done|by apply Hrange]|]. split; [done|]. exists (set_snext (free_head s) zero_slot). split; [done|]. apply (fchain_ext s); [|done].
      intros id' Hin. apply Hz2; [by intros ->|]. apply Hrange in Hin. unfold in_table in Hin. lia.
    + intros v Ev. cbn [g' gpages] in Ev. by rewrite lookup_delete_eq in Ev.
    + intros id' Hn. cbn [g' gpages]. apply lookup_delete_ne. by intros <-.
  - destruct (r =? 0) eqn:E0; reify_bools; [done|]. split; [apply Hpg, (ar_att _ _ _ (b_arena _ _ B) r (Hatt E0))|]. cbn [g' gar]. rewrite Eatt. set_solver.
  - constructor; [exact Ec| | | |].
    + intros id' Hid' Hne _. apply (K id'); [|done]. cbn [claim] in Hne. congruence.
    + intros id' Hid' Hne _. apply (K id'); [|done]. cbn [claim] in Hne. congruence.
    + intros id' pool data n Hne. apply O. cbn [claim] in Hne. congruence.
    + intros p _ H1 H2. split; [by apply Hpg|]. cbn [g' gar]. rewrite Eatt. destruct (r =? 0); set_solver.
  - intros [id'|p] Hb; cbn [busy] in Hb.
    + right. unfold in_table in Hb. change (count s') with (count s2) in Hb. rewrite Ec in Hb. cbn [g' grole] in Hb. destruct (decide (id' = id)) as [->|Hne]; [rewrite set_role_eq in Hb; destruct Hb as [_ [?|?]]; done|]. rewrite set_role_ne in Hb by done. split; [exact Hb|]. cbn. congruence.
    + cbn [g' gar] in Hb. rewrite Hpg, Eatt in Hb. destruct (r =? 0) eqn:E0; [right; split; [exact Hb|done]|]. destruct (decide (p = r)) as [->|Hne]; [by left|right]. split; [|done]. split; [apply Hb|]. set_solver.
  - intros c Hc. right. destruct (r =? 0) eqn:E0; [done|]. cbn [claim] in Hc. injection Hc as <-. reify_bools. intros [_ Hn]. by apply Hn, Hatt.
  - rewrite Hm. cbn [g' gar reserving]. rewrite Eatt. destruct (r =? 0) eqn:E0; [cbn; lia|]. reify_bools. rewrite size_difference by (apply singleton_subseteq_l, Hatt, E0). rewrite size_singleton.
    assert (size (att (gar g)) <> 0%nat) by (apply size_non_empty_iff; pose proof (Hatt E0); set_solver). cbn [reserving Z.b2z]. unfold PACKED_CHARGE. lia.
  - exact F4.
  - rewrite Hm. destruct (i_memory _ _ _ I) as [_ Hlim]. unfold PACKED_CHARGE. destruct (r =? 0); lia.
Qed.

Lemma put_release_ok T g s t p : inv T g s -> T !! t = Some (Releasing p) -> exists s', put_release p s = Ret (Done 0, s') /\ inv (<[t := Done 0]> T) g s' /\ same_view g s g s'.
Proof.
  intros I Et. pose proof (i_base _ _ _ I) as B. pose proof (b_arena _ _ B) as A. destruct (i_threads _ _ _ I t _ Et) as ([x Ex] & Hp). destruct (arena_release_ok hhdm (gar g) s p x A Ex Hp) as (-> & A' & Hno).
  set (s' := set_frames _ _) in *. exists s'. split; [done|]. assert (Hz : forall id, slotz s' id = slotz s id) by done. split; [|intros id _; unfold view; by rewrite Hz].
  assert (O : forall id0, objects_kept id0 g s g s').
  { intros id0 id pool data n _ H. pose proof H as (i & y & Eo & Ey & _). assert (Hne : pool <> p) by (intros ->; by apply (Hno id i)). split.
    - apply (holds_frame g s); [done| |done]. intros z Ez. exists z. split; [|done]. cbn [s' pages set_frames set_pages]. by rewrite lookup_delete_ne.
    - apply (object_frame g s (delete (phys x) (frames s)) id pool data n A H). intros z Ez. apply lookup_delete_ne. intros Eq. apply Hne. symmetry. by apply (ar_frame _ _ _ A p x pool z). }
  assert (Hpg : forall q, q <> p -> (exists y, pages s' !! q = Some y) <-> exists y, pages s !! q = Some y) by (intros q Hq; cbn [s' pages set_frames set_pages]; by rewrite lookup_delete_ne).
  assert (K : slots_kept 0 g s g s') by (intros id _ _; done). assert (H0 : ~ in_table s 0) by (unfold in_table; lia).
  apply (inv_step T g s t (Releasing p) (Done 0) g s' I Et); try done.
  - apply (base_update g s g s' 0 B); [done|exact (b_table _ _ B)|exact K|apply O|done| | |done|exact A'|exact (b_stats _ _ B)]; [destruct (b_free _ _ B) as (? & ? & ?); split; [done|]; split; [done|]; by apply (fchain_ext s)|]. intros v Ev. by destruct (b_pages _ _ B _ _ Ev).
  - constructor; try done; [intros id pool data n _; by apply (O (id - 1)); lia|]. intros q Hq H1 H2. split; [|done]. apply Hpg; [|done]. intros ->. done.
  - intros [id|q] Hb; right; [done|]. cbn [busy] in Hb. destruct (decide (q = p)) as [->|Hne]; [destruct Hb as [[y Ey] _]; cbn [s' pages set_frames set_pages] in Ey; by rewrite lookup_delete_eq in Ey|].
    split; [split; [apply (Hpg q Hne), Hb|apply Hb]|]. cbn. congruence.
  - apply (i_memory _ _ _ I).
Qed.

(** ** Reading *)

Lemma read_ok g s id : base_ok g s -> 0 <= id -> zram_slot_read hhdm id s = match view g s id with Some (page, _) => Ret page | None => Err (-1) end.
Proof.
  intros B H0. unfold zram_slot_read. rewrite (valid_ok g s id B H0). case_bool_decide as Hid; cbn [negb]; [|by rewrite (view_out g s id B Hid)]. destruct (slot_of g s id B Hid) as (x & Ex & -> & Hok). rewrite ret_bind.
  destruct (view_refs g s id x B Hid Ex) as [[-> Ev]|(Hr & Hx & page & Ev)]; rewrite Ev; [done|]. rewrite (proj2 (Z.eqb_neq (refs x) 0)) by lia. unfold slot_ok in Hok. rewrite Hr in Hok. destruct Hok as (_ & _ & page' & HD & C).
  assert (page' = page) as -> by (unfold view in Ev; rewrite Hr, Ex, HD in Ev; cbn in Ev; by injection Ev). unfold content in C. destruct (decide (slength x = 0)) as [E|E].
  - rewrite E. destruct C as (_ & _ & ->). done.
  - rewrite (proj2 (Z.eqb_neq _ 0)) by done. destruct C as (_ & bytes & -> & Hd). by rewrite ret_bind.
Qed.

End Safe.
End ZramSafe.
