(* ===== verification/ZramClaims.v ===== *)
(** ZramClaims: the properties of the zram store: what its calls show is a map from
    slots to pages with reference counts, in every interleaving of the processors
    that use it. *)

From S2P Require Import Prelude Lz4 ZramStore ZramArena ZramSafe.
From stdpp Require Import list_relations.
#[local] Open Scope Z_scope.

Module ZramClaims.
Import ZramStore ZramArena ZramSafe.

(** ** The abstract store *)

Definition amap := Z -> option (list Z * Z).
Definition updated (m m' : amap) (id : Z) (v : option (list Z * Z)) : Prop := forall id', 0 <= id' -> m' id' = if decide (id' = id) then v else m id'.
Definition unchanged (m m' : amap) : Prop := forall id, 0 <= id -> m' id = m id.

(** A processor between calls, storing a page, or finishing [zram_slot_put]. *)
Inductive call := Idle (result : Z) | Storing (page : list Z) | Putting.
Definition call_of (th : thread) : call :=
  match th with
  | Done r => Idle r
  | HasSlot j | Reserved j | HasData j _ _ | Copied j _ _ | Failing j => Storing (jpage j)
  | Dropping _ | Releasing _ => Putting
  end.

(** A page appears in an unused slot with one reference; [zram_slot_get] and
    [zram_slot_put] count (not at the largest count); nothing else changes the map. *)
Inductive spec : action -> call -> amap -> call -> amap -> Prop :=
  | spec_store r page m m' : unchanged m m' -> spec (StorePage page) (Idle r) m (Storing page) m'
  | spec_refuse r page m m' : unchanged m m' -> spec (StorePage page) (Idle r) m (Idle 0) m'
  | spec_get r id m m' : updated m m' id (snd (get_spec (m id))) -> spec (Get id) (Idle r) m (Idle (Z.b2z (fst (get_spec (m id))))) m'
  | spec_put r id m m' c : updated m m' id (put_spec (m id)) -> c = Idle 0 \/ c = Putting -> spec (Put id) (Idle r) m c m'
  | spec_publish page id m m' : 0 < id -> m id = None -> updated m m' id (Some (page, 1)) -> spec Continue (Storing page) m (Idle id) m'
  | spec_fail page m m' : unchanged m m' -> spec Continue (Storing page) m (Idle 0) m'
  | spec_release m m' : unchanged m m' -> spec Continue Putting m (Idle 0) m'
  | spec_work a c m m' : unchanged m m' -> spec a c m c m'.

(** What the calls of the store show of it. *)
Definition contents (hhdm : Z) (s : zram) : amap := fun id => match zram_slot_read hhdm id s, slot_at s id with Ret page, Ret x => Some (page, refs x) | _, _ => None end.

(** ** Runs *)

(** The static data at boot. *)
Definition zram_boot : zram := mk_zram None 0 0 (replicate 32 0) ∅ ∅ (mk_stats 0 0 0 0 0 0 0 0 false) 0.

Definition legal (hhdm : Z) (s : zram) (a : action) : Prop :=
  match a with
  | StorePage page => Lz4.bytes page /\ length page = 4096%nat
  | Get id | Put id => 0 <= id
  | Continue => True
  | Allocate node frame => fresh_memory hhdm s node frame
  end.

Inductive step (hhdm : Z) : list thread -> zram -> nat -> action -> list thread -> zram -> Prop :=
  | step_thread T s t a th th' s' : T !! t = Some th -> legal hhdm s a -> thread_step hhdm a th s = Ret (th', s') -> step hhdm T s t a (<[t := th']> T) s'.

(** [n] processors after [zram_store_init] has succeeded. *)
Inductive reachable (hhdm : Z) (n : nat) : list thread -> zram -> Prop :=
  | reach_init capacity limit s : 0 <= capacity -> limit < 2 ^ 64 -> zram_store_init capacity limit true zram_boot = (true, s) -> reachable hhdm n (replicate n (Done 0)) s
  | reach_step T s t a T' s' : reachable hhdm n T s -> step hhdm T s t a T' s' -> reachable hhdm n T' s'.

(** Steps among which no processor puts [id]. *)
Inductive runs_keeping (hhdm id : Z) : list thread -> zram -> list thread -> zram -> Prop :=
  | runs_nil T s : runs_keeping hhdm id T s T s
  | runs_cons T s t a T1 s1 T' s' : step hhdm T s t a T1 s1 -> a <> Put id -> runs_keeping hhdm id T1 s1 T' s' -> runs_keeping hhdm id T s T' s'.

Section Claims.
Context (hhdm : Z) (Hhhdm : 0 <= hhdm).
Notation inv := (inv hhdm).

Lemma contents_view T g s : inv T g s -> forall id, 0 <= id -> contents hhdm s id = view g s id.
Proof.
  intros I id H0. pose proof (i_base _ _ _ _ I) as B. unfold contents. rewrite (read_ok hhdm g s id B H0). destruct (decide (in_table s id)) as [Hid|Hid]; [|by rewrite (view_out hhdm g s id B Hid)].
  destruct (slot_of hhdm g s id B Hid) as (x & Ex & -> & _). by destruct (view_refs hhdm g s id x B Hid Ex) as [[_ ->]|(_ & _ & page & ->)].
Qed.

(** ** The first state *)

Lemma init_fchain capacity s k : forall i, 1 <= i -> i + Z.of_nat k = capacity + 1 -> (forall id, 0 <= id <= capacity -> slotz s id = Some (init_slot capacity id)) -> fchain s (seqZ i (Z.of_nat k)) (if i =? capacity + 1 then 0 else i).
Proof.
  induction k as [|k IH]; intros i H1 Hk Hs.
  - rewrite (proj2 (Z.eqb_eq _ _)) by lia. done.
  - rewrite (proj2 (Z.eqb_neq _ _)) by lia. rewrite seqZ_cons by lia. cbn [fchain]. split; [done|]. exists (init_slot capacity i). split; [apply Hs; lia|]. replace (Z.pred (Z.of_nat (S k))) with (Z.of_nat k) by lia.
    specialize (IH (Z.succ i) ltac:(lia) ltac:(lia) Hs). cbn [init_slot snext]. rewrite (proj2 (Z.eqb_neq i 0)) by lia. cbn [orb]. destruct (i =? capacity) eqn:E1, (Z.succ i =? capacity + 1) eqn:E2; reify_bools; done || lia.
Qed.

Lemma empty_arena s : pages s = ∅ -> partial s = replicate 32 0 -> arena_ok hhdm (mk_arena ∅ ∅ (fun _ => [])) s.
Proof.
  intros Ep El. constructor; cbn [own att ch]; rewrite ?Ep, ?El; try done. intros b Hb. split; [constructor|]. exists 0. split; [|done]. apply lookup_replicate_2. lia.
Qed.

Lemma init_ok n capacity limit s : 0 <= capacity -> limit < 2 ^ 64 -> zram_store_init capacity limit true zram_boot = (true, s) -> exists g, inv (replicate n (Done 0)) g s.
Proof.
  intros H0 Hl. unfold zram_store_init. cbn [slots zram_boot negb]. destruct (_ || _) eqn:E1; [done|]. destruct (table_bytes capacity >? limit) eqn:E2; [done|]. reify_bools. intros [= <-]. set (s := mk_zram _ _ _ _ _ _ _ _).
  exists (mk_ghost (seqZ 1 capacity) (fun _ => RFree) (mk_arena ∅ ∅ (fun _ => [])) ∅).
  assert (Hz : forall id, 0 <= id <= capacity -> slotz s id = Some (init_slot capacity id)).
  { intros id Hid. unfold slotz. cbn. rewrite list_lookup_fmap, lookup_seqZ_lt by lia. cbn. f_equal. f_equal. lia. }
  assert (Hc : forall th t, replicate n (Done 0) !! t = Some th -> th = Done 0) by (intros th t [-> _]%lookup_replicate; done).
  constructor.
  - constructor; cbn [gfl grole gar gpages].
    + eexists. split; [done|]. rewrite length_fmap, length_seqZ. cbn [count s]. lia.
    + cbn [count s]. lia.
    + intros id Hid. unfold in_table in Hid. cbn [count s] in Hid. exists (init_slot capacity id). split; [apply Hz; lia|]. unfold slot_ok. cbn. split; [apply elem_of_seqZ; lia|done].
    + split; [apply NoDup_seqZ|]. split; [intros id; rewrite elem_of_seqZ; unfold in_table; cbn [count s]; lia|]. pose proof (init_fchain capacity s (Z.to_nat capacity) 1 ltac:(lia) ltac:(lia) Hz) as Hfc. rewrite Z2Nat.id in Hfc by lia.
      rewrite (proj2 (Z.eqb_neq _ _)) in Hfc by lia. exact Hfc.
    + done.
    + by apply empty_arena.
    + done.
  - intros t th Et. by rewrite (Hc th t Et).
  - intros [id|p] [Hb1 Hb2]; [destruct Hb2; done|]. destruct Hb1 as [x Hx]. by cbn in Hx.
  - intros t th t' th' c Et _ Ec. by rewrite (Hc th t Et) in Ec.
  - cbn [stats s memory_bytes memory_limit]. split; [|lia]. unfold charged. cbn [count s gar att]. rewrite count_none; [rewrite size_empty; lia|]. intros th [t Et]%list_elem_of_lookup. by rewrite (Hc th t Et).
Qed.

(** ** What the steps return *)

Ltac run H := repeat (first [apply bind_Ret in H as (? & ? & H)|apply deref_bind_Ret in H as (? & ? & H)|c_case_in H]).

Lemma put_slot_count id x s s' : put_slot id x s = Ret s' -> count s' = count s.
Proof. unfold put_slot. intros H. run H. by injection H as <-. Qed.
Lemma link_count p s s' : link_partial p s = Ret s' -> count s' = count s.
Proof. unfold link_partial. intros H. do 4 apply bind_Ret in H as (? & _ & H). by injection H as <-. Qed.
Lemma unlink_count p s s' : unlink_partial p s = Ret s' -> count s' = count s.
Proof.
  unfold unlink_partial. intros H. apply bind_Ret in H as (x & _ & H). apply bind_Ret in H as (s1 & H1 & H). apply bind_Ret in H as (s2 & H2 & H). apply bind_Ret in H as (y & _ & H). injection H as <-. change (count s2 = count s).
  destruct (pprev x =? 0); apply bind_Ret in H1 as (? & _ & H1); injection H1 as <-; (destruct (pnext x =? 0); [by injection H2 as <-|]); apply bind_Ret in H2 as (? & _ & H2); by injection H2 as <-.
Qed.

Lemma begin_shape page s th' s' : store_begin page s = Ret (th', s') -> count s' = count s /\ (th' = Done 0 \/ exists j, jpage j = page /\ th' = HasSlot j).
Proof.
  unfold store_begin. destruct (slots s); [|intros [= <- <-]; auto]. intros H. apply bind_Ret in H as (c & _ & H). destruct c as [[pattern bytes]|]; [|injection H as <- <-; auto]. destruct (_ =? 0); [injection H as <- <-; auto|].
  apply bind_Ret in H as (x & _ & H). injection H as <- <-. split; [done|]. right. eexists. split; [|done]. done.
Qed.
Lemma with_data_shape j pool data : call_of (with_data j pool data) = Storing (jpage j).
Proof. unfold with_data. by destruct (_ =? 0). Qed.
Lemma alloc_shape j s th' s' : store_alloc hhdm j s = Ret (th', s') -> count s' = count s /\ call_of th' = Storing (jpage j).
Proof.
  unfold store_alloc. destruct (jbytes j); [intros [= <- <-]; auto|]. intros H. apply bind_Ret in H as ([r s1] & H1 & H).
  assert (Ec : count s1 = count s).
  { unfold packed_find in H1. apply bind_Ret in H1 as (p & _ & H1). destruct (nz p); [|destruct (_ || _); by injection H1 as <- <-]. apply bind_Ret in H1 as (x & _ & H1). apply bind_Ret in H1 as (i & _ & H1). apply bind_Ret in H1 as (s2 & H2 & H1).
    injection H1 as <- <-. destruct (_ =? 0); [by rewrite (unlink_count _ _ _ H2)|by injection H2 as <-]. }
  destruct r; injection H as <- <-; rewrite Ec; [|done..]. split; [done|apply with_data_shape].
Qed.
Lemma grow_shape j node frame s th' s' : store_grow hhdm j node frame s = Ret (th', s') -> count s' = count s /\ call_of th' = Storing (jpage j).
Proof.
  unfold store_grow. intros H. apply bind_Ret in H as ([[pool data] s1] & H1 & H). injection H as <- <-. split; [|apply with_data_shape]. unfold packed_grow in H1. destruct frame as [ph stale]. destruct (_ || _); [by injection H1 as <- <- <-|].
  apply bind_Ret in H1 as (s2 & H2 & H1). injection H1 as <- <- <-. by rewrite (link_count _ _ _ H2).
Qed.
Lemma copy_count j pool data s th' s' : store_copy hhdm j pool data s = Ret (th', s') -> count s' = count s.
Proof. unfold store_copy, memcpy_to. intros H. apply bind_Ret in H as (s1 & H1 & H). injection H as _ <-. apply bind_Ret in H1 as (f & _ & H1). destruct (_ <=? _)%nat; [by injection H1 as <-|done]. Qed.
Lemma publish_count j pool data s th' s' : store_publish j pool data s = Ret (th', s') -> count s' = count s.
Proof. unfold store_publish. intros H. apply bind_Ret in H as (x & _ & H). apply bind_Ret in H as (s1 & H1 & H). injection H as _ <-. apply (put_slot_count _ _ _ _ H1). Qed.
Lemma fail_count j s th' s' : store_fail j s = Ret (th', s') -> count s' = count s.
Proof. unfold store_fail. intros H. apply bind_Ret in H as (x & _ & H). apply bind_Ret in H as (s1 & H1 & H). injection H as _ <-. apply (put_slot_count _ _ _ _ H1). Qed.
Lemma get_count id s ok s' : zram_slot_get id s = Ret (ok, s') -> count s' = count s.
Proof. unfold zram_slot_get. intros H. destruct (negb _); [by injection H as _ <-|]. apply bind_Ret in H as (x & _ & H). destruct (_ || _); [by injection H as _ <-|]. apply bind_Ret in H as (s1 & H1 & H). injection H as _ <-. apply (put_slot_count _ _ _ _ H1). Qed.
Lemma put_begin_shape id s th' s' : put_begin id s = Ret (th', s') -> count s' = count s /\ (call_of th' = Idle 0 \/ call_of th' = Putting).
Proof.
  unfold put_begin. intros H. destruct (negb _); [injection H as <- <-; auto|]. apply bind_Ret in H as (x & _ & H). destruct (_ || _); [injection H as <- <-; auto|]. apply bind_Ret in H as (s1 & H1 & H). injection H as <- <-.
  split; [apply (put_slot_count _ _ _ _ H1)|]. destruct (_ =? 0); auto.
Qed.
Lemma put_locked_shape id s th' s' : put_locked hhdm id s = Ret (th', s') -> count s' = count s /\ (call_of th' = Idle 0 \/ call_of th' = Putting).
Proof.
  unfold put_locked. intros H. apply bind_Ret in H as (x & _ & H). apply bind_Ret in H as ([r s1] & H1 & H). apply bind_Ret in H as (s2 & H2 & H). injection H as <- <-. split; [|destruct (r =? 0); auto]. change (count s2 = count s). rewrite (put_slot_count _ _ _ _ H2). change (count s1 = count s).
  unfold free_object in H1. destruct (spool x =? 0); [by injection H1 as _ <-|]. apply bind_Ret in H1 as (y & _ & H1). apply bind_Ret in H1 as (s3 & H3 & H1).
  assert (Ec : count s3 = count s) by (destruct (_ =? 0); [by rewrite (link_count _ _ _ H3)|by injection H3 as <-]). destruct (_ =? all_objects _); [|by injection H1 as _ <-]. apply bind_Ret in H1 as (s4 & H4 & H1). injection H1 as _ <-. change (count s4 = count s). by rewrite (unlink_count _ _ _ H4).
Qed.

(** ** Every step of the store is a step of the map *)

Lemma unchanged_view T g s T' g' s' : inv T g s -> inv T' g' s' -> count s' = count s -> same_view g s g' s' -> unchanged (contents hhdm s) (contents hhdm s').
Proof.
  intros I I' Ec V id H0. rewrite (contents_view _ _ _ I id H0), (contents_view _ _ _ I' id H0). destruct (decide (in_table s id)) as [Hid|Hid]; [by apply V|].
  rewrite (view_out hhdm g s id (i_base _ _ _ _ I) Hid). apply (view_out hhdm g' s' id (i_base _ _ _ _ I')). unfold in_table. by rewrite Ec.
Qed.
Lemma updated_view T g s T' g' s' id v : inv T g s -> inv T' g' s' -> count s' = count s -> 0 <= id -> (~ in_table s id -> v = None) ->
  (forall id', in_table s id' -> view g' s' id' = if decide (id' = id) then v else view g s id') -> updated (contents hhdm s) (contents hhdm s') id v.
Proof.
  intros I I' Ec Hi Hv V id' H0. rewrite (contents_view _ _ _ I id' H0), (contents_view _ _ _ I' id' H0). destruct (decide (in_table s id')) as [Hid|Hid]; [by apply V|].
  rewrite (view_out hhdm g s id' (i_base _ _ _ _ I) Hid), (view_out hhdm g' s' id' (i_base _ _ _ _ I')) by (unfold in_table; by rewrite Ec). destruct (decide (id' = id)) as [->|]; [by rewrite Hv|done].
Qed.

Lemma step_ok T g s t th a : inv T g s -> T !! t = Some th -> legal hhdm s a -> exists th' s' g', thread_step hhdm a th s = Ret (th', s') /\ inv (<[t := th']> T) g' s' /\ spec a (call_of th) (contents hhdm s) (call_of th') (contents hhdm s').
Proof.
  intros I Et L. pose proof (i_base _ _ _ _ I) as B.
  assert (Hstay : exists th' s' g', Ret (th, s) = Ret (th', s') /\ inv (<[t := th']> T) g' s' /\ spec a (call_of th) (contents hhdm s) (call_of th') (contents hhdm s')).
  { exists th, s, g. split; [done|]. rewrite list_insert_id by done. split; [done|]. apply spec_work. by intros id _. }
  destruct th as [r|j|j|j pool data|j pool data|j|id|p], a as [page|id'|id'| |node frame]; cbn [thread_step]; try exact Hstay; clear Hstay; cbn [legal] in L.
  - destruct L as [L1 L2]. destruct (begin_ok hhdm T g s t r page I Et L1 L2) as (th' & s' & g' & E & I' & V). destruct (begin_shape page s th' s' E) as [Ec Hth]. exists th', s', g'. split; [done|]. split; [done|].
    pose proof (unchanged_view _ _ _ _ _ _ I I' Ec V). destruct Hth as [->|(j & <- & ->)]; by constructor.
  - destruct (get_ok hhdm T g s t r id' I Et L) as (s' & g' & E & I' & V). rewrite E, ret_bind. eexists _, s', g'. split; [done|]. split; [exact I'|]. rewrite <- (contents_view _ _ _ I id' L). constructor. rewrite (contents_view _ _ _ I id' L).
    apply (updated_view _ _ _ _ _ _ _ _ I I' (get_count _ _ _ _ E) L); [|done]. intros Hn. by rewrite (view_out hhdm g s id' B Hn).
  - destruct (put_begin_ok hhdm T g s t r id' I Et L) as (th' & s' & g' & E & I' & V). destruct (put_begin_shape _ _ _ _ E) as [Ec Hth]. exists th', s', g'. split; [done|]. split; [done|]. constructor; [|done]. rewrite (contents_view _ _ _ I id' L).
    apply (updated_view _ _ _ _ _ _ _ _ I I' Ec L); [|done]. intros Hn. by rewrite (view_out hhdm g s id' B Hn).
  - destruct (store_alloc_ok hhdm Hhhdm T g s t j I Et) as (th' & s' & g' & E & I' & V & _). destruct (alloc_shape _ _ _ _ E) as [Ec Hth]. exists th', s', g'. split; [done|]. split; [done|]. rewrite Hth. apply spec_work. exact (unchanged_view _ _ _ _ _ _ I I' Ec V).
  - destruct (store_grow_ok hhdm Hhhdm T g s t j node frame I Et L) as (th' & s' & g' & E & I' & V & _). destruct (grow_shape _ _ _ _ _ _ E) as [Ec Hth]. exists th', s', g'. split; [done|]. split; [done|]. rewrite Hth. apply spec_work. exact (unchanged_view _ _ _ _ _ _ I I' Ec V).
  - destruct (store_copy_ok hhdm Hhhdm T g s t j pool data I Et) as (s' & g' & E & I' & V). eexists _, s', g'. split; [done|]. split; [done|]. apply spec_work. apply (unchanged_view T g s _ g' s' I I' (copy_count _ _ _ _ _ _ E) V).
  - destruct (store_publish_ok hhdm T g s t j pool data I Et) as (s' & g' & E & I' & Hid & Hv & V). eexists _, s', g'. split; [done|]. split; [done|]. assert (H1 : 1 <= jid j) by apply Hid.
    apply spec_publish; [lia|rewrite (contents_view _ _ _ I) by lia; done|]. apply (updated_view T g s _ g' s' _ _ I I' (publish_count _ _ _ _ _ _ E)); [lia|done|done].
  - destruct (fail_ok hhdm T g s t j I Et) as (s' & g' & E & I' & V). eexists _, s', g'. split; [done|]. split; [done|]. apply spec_fail. apply (unchanged_view T g s _ g' s' I I' (fail_count _ _ _ _ E) V).
  - destruct (put_locked_ok hhdm Hhhdm T g s t id I Et) as (th' & s' & g' & E & I' & V). destruct (put_locked_shape _ _ _ _ E) as [Ec Hth]. exists th', s', g'. split; [done|]. split; [done|].
    pose proof (unchanged_view _ _ _ _ _ _ I I' Ec V). destruct Hth as [-> | ->]; by constructor.
  - destruct (put_release_ok hhdm Hhhdm T g s t p I Et) as (s' & E & I' & V). assert (Ec : count s' = count s) by (unfold put_release in E; apply bind_Ret in E as (x & _ & E); apply bind_Ret in E as (f & _ & E); by injection E as <-).
    eexists _, s', g. split; [done|]. split; [done|]. apply spec_release. apply (unchanged_view T g s _ g s' I I' Ec V).
Qed.

Lemma zram_step_inv T g s t a T' s' : inv T g s -> step hhdm T s t a T' s' -> exists g', inv T' g' s'.
Proof. intros I St. destruct St as [T s t a th th' s' Et L E]. destruct (step_ok T g s t th a I Et L) as (th1 & s1 & g1 & E1 & I1 & _). rewrite E in E1. injection E1 as <- <-. by exists g1. Qed.
Lemma zram_reachable_inv n T s : reachable hhdm n T s -> exists g, inv T g s.
Proof. induction 1 as [capacity limit s H1 H2 E|T s t a T' s' _ [g I] St]; [by apply (init_ok n capacity limit)|by apply (zram_step_inv T g s t a)]. Qed.

(** ** Calls that are not interrupted *)

Section Call.
Context (node : Z) (frame : Z * list Z).

Definition next (th : thread) : action := match th with Reserved _ => Allocate node frame | _ => Continue end.
Definition rank (th : thread) : nat := match th with HasSlot _ => 5 | Reserved _ => 4 | HasData _ _ _ => 3 | Copied _ _ _ | Failing _ => 2 | Dropping _ => 3 | Releasing _ => 2 | Done _ => 1 end.
Definition idle (th : thread) : bool := match th with Done _ => true | _ => false end.
(** The call allocates memory later on. *)
Definition wants (th : thread) : bool := match th with HasSlot _ | Reserved _ => true | _ => false end.

Lemma finish_S k th s : idle th = false -> finish hhdm (S k) node frame th s = (thread_step hhdm (next th) th s ≫= fun '(th', s') => finish hhdm k node frame th' s').
Proof. by destruct th. Qed.

Lemma with_data_rank j pool data : (rank (with_data j pool data) <= 3)%nat /\ wants (with_data j pool data) = false.
Proof. unfold with_data. destruct (_ =? 0); cbn; split; done || lia. Qed.
Lemma next_rank th s th' s' : idle th = false -> thread_step hhdm (next th) th s = Ret (th', s') -> (rank th' < rank th)%nat /\ (wants th' = true -> pages s' = pages s /\ frames s' = frames s).
Proof.
  destruct th as [r|j|j|j pool data|j pool data|j|id|p]; [easy|..]; intros _; cbn [thread_step next]; intros H.
  - unfold store_alloc in H. destruct (jbytes j); [injection H as <- <-; cbn; split; [lia|done]|]. apply bind_Ret in H as ([r s1] & H1 & H). destruct r as [pool data| |]; injection H as <- <-.
    + destruct (with_data_rank j pool data) as [? ->]. cbn [rank]. split; [lia|done].
    + split; [cbn; lia|]. intros _. unfold packed_find in H1. apply bind_Ret in H1 as (p & _ & H1). destruct (nz p); [|destruct (_ || _); [done|by injection H1 as <-]].
      apply bind_Ret in H1 as (x & _ & H1). apply bind_Ret in H1 as (i & _ & H1). by apply bind_Ret in H1 as (s2 & _ & H1).
    + split; [cbn; lia|done].
  - unfold store_grow in H. apply bind_Ret in H as ([[pool data] s1] & _ & H). injection H as <- <-. destruct (with_data_rank j pool data) as [? ->]. cbn [rank]. split; [lia|done].
  - unfold store_copy in H. apply bind_Ret in H as (s1 & _ & H). injection H as <- <-. cbn. split; [lia|done].
  - unfold store_publish in H. apply bind_Ret in H as (x & _ & H). apply bind_Ret in H as (s1 & _ & H). injection H as <- <-. cbn. split; [lia|done].
  - unfold store_fail in H. apply bind_Ret in H as (x & _ & H). apply bind_Ret in H as (s1 & _ & H). injection H as <- <-. cbn. split; [lia|done].
  - unfold put_locked in H. apply bind_Ret in H as (x & _ & H). apply bind_Ret in H as ([r s1] & _ & H). apply bind_Ret in H as (s2 & _ & H). injection H as <- <-. destruct (r =? 0); cbn; split; done || lia.
  - unfold put_release in H. apply bind_Ret in H as (x & _ & H). apply bind_Ret in H as (f & _ & H). injection H as <- <-. cbn. split; [lia|done].
Qed.

(** What a call has done when it returns [r]. *)
Definition final (c : call) (m : amap) (r : Z) (m' : amap) : Prop :=
  match c with
  | Idle r0 => r = r0 /\ unchanged m m'
  | Storing page => (r = 0 /\ unchanged m m') \/ (0 < r /\ m r = None /\ updated m m' r (Some (page, 1)))
  | Putting => r = 0 /\ unchanged m m'
  end.
Lemma unchanged_trans m1 m2 m3 : unchanged m1 m2 -> unchanged m2 m3 -> unchanged m1 m3.
Proof. intros H1 H2 id H0. by rewrite H2, H1. Qed.
Lemma final_before c m1 m2 r m3 : unchanged m1 m2 -> final c m2 r m3 -> final c m1 r m3.
Proof.
  intros U. pose proof (unchanged_trans m1 m2 m3 U) as Ut. destruct c; cbn [final]; [tauto| |tauto]. intros [[? ?]|(? & Hn & Hu)]; [left; auto|right].
  split; [done|]. split; [rewrite <- U by lia; done|]. intros id H0. rewrite (Hu id H0). destruct (decide (id = r)); [done|by apply U].
Qed.
Lemma final_step th m c' m' r m'' : idle th = false -> spec (next th) (call_of th) m c' m' -> final c' m' r m'' -> final (call_of th) m r m''.
Proof.
  intros Hd Sp. assert (Hn : forall page, next th <> StorePage page) by (intros page; by destruct th). inversion Sp as [r0 page m0 m0' U|r0 page m0 m0' U|r0 id m0 m0' U|r0 id m0 m0' c U|page id m0 m0' H1 H2 U|page m0 m0' U|m0 m0' U|a0 c m0 m0' U]; subst; try (by destruct th).
  - cbn [final]. intros [-> U']. right. split; [done|]. split; [done|]. intros id' Hid'. by rewrite (U' id' Hid'), (U id' Hid').
  - cbn [final]. intros [-> U']. left. split; [done|]. by apply (unchanged_trans _ m').
  - cbn [final]. intros [-> U']. split; [done|]. by apply (unchanged_trans _ m').
  - by apply final_before.
Qed.

(** The call will not fail. *)
Definition lucky (th : thread) (s : zram) : Prop :=
  match th with
  | HasSlot _ => PACKED_CHARGE <= memory_limit (stats s) - memory_bytes (stats s) /\ node <> 0 /\ fst frame <> 0
  | Reserved _ => node <> 0 /\ fst frame <> 0
  | HasData _ _ _ | Copied _ _ _ => True
  | Done r => r <> 0
  | _ => False
  end.
Lemma lucky_step T g s t th th' s' : inv T g s -> T !! t = Some th -> idle th = false -> (wants th = true -> fresh_memory hhdm s node frame) -> lucky th s -> thread_step hhdm (next th) th s = Ret (th', s') -> lucky th' s'.
Proof.
  intros I Et Hd Hf L E. destruct th as [r|j|j|j pool data|j pool data|j|id|p]; try done; cbn [thread_step next] in E.
  - destruct (store_alloc_ok hhdm Hhhdm T g s t j I Et) as (th1 & s1 & g1 & E1 & _ & _ & HF). rewrite E in E1. injection E1 as <- <-. destruct L as (L1 & L2 & L3). unfold store_alloc in E. destruct (jbytes j); [by injection E as <- <-|].
    apply bind_Ret in E as ([r s1] & _ & E). assert (HN : th' <> Failing j) by (intros Eq; specialize (HF Eq); lia). destruct r as [pool data| |]; injection E as <- <-; [|done|done]. unfold with_data in *. by destruct (data =? 0).
  - destruct (store_grow_ok hhdm Hhhdm T g s t j node frame I Et (Hf eq_refl)) as (th1 & s1 & g1 & E1 & _ & _ & HF). rewrite E in E1. injection E1 as <- <-. destruct L as (L2 & L3). unfold store_grow in E. apply bind_Ret in E as ([[pool data] s1] & _ & E).
    assert (HN : th' <> Failing j) by (intros Eq; destruct (HF Eq); done). injection E as <- <-. unfold with_data in *. by destruct (data =? 0).
  - unfold store_copy in E. apply bind_Ret in E as (s1 & _ & E). by injection E as <- <-.
  - destruct (i_threads _ _ _ _ I t _ Et) as ((_ & Hid & _) & _). unfold store_publish in E. apply bind_Ret in E as (x & _ & E). apply bind_Ret in E as (s1 & _ & E). injection E as <- <-. cbn. unfold in_table in Hid. lia.
Qed.

Lemma finish_ok k : forall T g s t th, inv T g s -> T !! t = Some th -> (rank th <= k)%nat -> (wants th = true -> fresh_memory hhdm s node frame) ->
  exists r s' g', finish hhdm k node frame th s = Ret (r, s') /\ inv (<[t := Done r]> T) g' s' /\ final (call_of th) (contents hhdm s) r (contents hhdm s') /\ (forall n, reachable hhdm n T s -> reachable hhdm n (<[t := Done r]> T) s') /\ (lucky th s -> r <> 0).
Proof.
  induction k as [|k IH]; intros T g s t th I Et Hk Hf; [destruct th; cbn in Hk; lia|]. destruct (idle th) eqn:Hd.
  - destruct th as [r| | | | | | |]; try discriminate. exists r, s, g. cbn [finish]. split; [easy|]. rewrite list_insert_id by done. split; [easy|]. split; [split; [easy|by intros id _]|]. easy.
  - rewrite finish_S by done. assert (L : legal hhdm s (next th)) by (destruct th; cbn [next legal wants] in *; auto). destruct (step_ok T g s t th (next th) I Et L) as (th' & s1 & g1 & E & I1 & Sp). rewrite E, ret_bind.
    destruct (next_rank th s th' s1 Hd E) as [Hr Hpf]. pose proof (lookup_lt_Some _ _ _ Et) as Hlt. destruct (IH (<[t := th']> T) g1 s1 t th' I1) as (r & s' & g' & -> & I' & F & R & Lk); [by apply list_lookup_insert_eq|lia| |].
    { intros Hw. destruct (Hpf Hw) as [E1 E2]. unfold fresh_memory. rewrite E1, E2. apply Hf. destruct th, th'; cbn in Hr, Hw; done || lia. }
    rewrite list_insert_insert_eq in I', R. exists r, s', g'. split; [easy|]. split; [easy|]. split; [by apply (final_step th _ _ _ _ _ Hd Sp)|]. split.
    + intros n Hn. apply R. apply (reach_step hhdm n T s t (next th)); [done|]. by apply (step_thread hhdm T s t (next th) th).
    + intros Hl. apply Lk. by apply (lucky_step T g s t th).
Qed.
End Call.

(** ** Counting *)

Definition releasing (th : thread) : option Z := match th with Releasing p => Some p | _ => None end.
Definition dropping (th : thread) : option Z := match th with Dropping id => Some id | _ => None end.
Definition storing (th : thread) : option Z := match th with HasSlot j | Reserved j | HasData j _ _ | Copied j _ _ | Failing j => Some (jid j) | _ => None end.
Definition some {A} (o : option A) : bool := match o with Some _ => true | None => false end.

(** The threads that hold something are as many as the things they hold. *)
Lemma claimed_size (f : thread -> option Z) T : forall X : gset Z, (forall c, c ∈ X <-> exists t th, T !! t = Some th /\ f th = Some c) ->
  (forall t th t' th' c, T !! t = Some th -> T !! t' = Some th' -> f th = Some c -> f th' = Some c -> t = t') -> Z.of_nat (size X) = countb (fun th => some (f th)) T.
Proof.
  induction T as [|th T IH]; intros X HX HU; cbn [countb].
  - assert (X = ∅) as ->; [|by rewrite size_empty]. apply set_eq. intros c. rewrite HX. split; [intros (t & th & E & _); done|set_solver].
  - assert (HT : forall t1 th1 t2 th2 c, T !! t1 = Some th1 -> T !! t2 = Some th2 -> f th1 = Some c -> f th2 = Some c -> t1 = t2) by (intros t1 th1 t2 th2 c E1 E2 F1 F2; pose proof (HU (S t1) th1 (S t2) th2 c E1 E2 F1 F2); lia).
    destruct (f th) as [c0|] eqn:E0; cbn [some Z.b2z].
    + rewrite <- (IH (X ∖ {[c0]})); [|intros c; rewrite elem_of_difference, elem_of_singleton, HX; split|done].
      * assert (Hin : c0 ∈ X) by (apply HX; by exists 0%nat, th). rewrite size_difference by set_solver. rewrite size_singleton. assert (size X <> 0%nat) by (apply size_non_empty_iff; set_solver). lia.
      * intros [([|t] & th1 & E & F) Hne]; [cbn in E; congruence|by exists t, th1].
      * intros (t & th1 & E & F). split; [by exists (S t), th1|]. intros ->. by pose proof (HU 0%nat th (S t) th1 c0 eq_refl E E0 F).
    + rewrite <- (IH X); [lia| |done]. intros c. rewrite HX. split; [intros ([|t] & th1 & E & F); [cbn in E; congruence|by exists t, th1]|intros (t & th1 & E & F); by exists (S t), th1].
Qed.
Lemma filter_size (p : Z -> bool) l : NoDup l -> countb p l = Z.of_nat (size (list_to_set (filter (fun x => p x = true) l) : gset Z)).
Proof.
  intros Hn. rewrite size_list_to_set by by apply NoDup_filter. clear Hn. induction l as [|x l IH]; cbn [countb]; [done|]. rewrite filter_cons, IH. destruct (p x); cbn [Z.b2z]; [rewrite decide_True by done; cbn; lia|rewrite decide_False by done; lia].
Qed.

Lemma page_count T g s : inv T g s -> Z.of_nat (size (pages s)) = Z.of_nat (size (att (gar g))) + countb (fun th => some (releasing th)) T.
Proof.
  intros I. pose proof (b_arena _ _ _ (i_base _ _ _ _ I)) as A. assert (Hsub : att (gar g) ⊆ dom (pages s)) by (intros p Hp; apply elem_of_dom, (ar_att _ _ _ A p Hp)).
  rewrite <- (claimed_size releasing T (dom (pages s) ∖ att (gar g))).
  - rewrite size_difference, size_dom by done. pose proof (subseteq_size _ _ Hsub) as Hs. rewrite size_dom in Hs. lia.
  - intros p. rewrite elem_of_difference, elem_of_dom. split.
    + intros [[x Hx] Hp]. destruct (i_busy _ _ _ _ I (inr p)) as (t & th & Et & Ec); [split; [by exists x|done]|]. exists t, th. split; [done|]. destruct th; cbn in *; congruence.
    + intros (t & th & Et & Ec). pose proof (i_threads _ _ _ _ I t th Et) as Hth. destruct th; cbn in *; [done..|]. by injection Ec as ->.
  - intros t th t' th' c Et Et' Ec Ec'. apply (i_unique _ _ _ _ I t th t' th' (inr c)); [done|done| |]; destruct th, th'; cbn in *; congruence.
Qed.

(** The ids with a role. *)
Lemma claimed_slots T g s (f : thread -> option Z) (r : role) : inv T g s -> (forall th id, f th = Some id -> claim th = Some (inl id)) ->
  (forall t th id, T !! t = Some th -> claim th = Some (inl id) -> f th = Some id <-> grole g id = r) -> r = RTaken \/ r = RDropping ->
  countb (fun id => bool_decide (grole g id = r)) (seqZ 1 (count s)) = countb (fun th => some (f th)) T.
Proof.
  intros I Hf Hr Hr'. rewrite filter_size by apply NoDup_seqZ. apply claimed_size.
  - intros id. rewrite elem_of_list_to_set, list_elem_of_filter, bool_decide_eq_true, elem_of_seqZ. split.
    + intros [E Hid]. destruct (i_busy _ _ _ _ I (inl id)) as (t & th & Et & Ec); [split; [unfold in_table; lia|destruct Hr' as [-> | ->]; auto]|]. exists t, th. split; [done|]. by apply (Hr t th id Et Ec).
    + intros (t & th & Et & F). pose proof (Hf th id F) as Ec. split; [by apply (Hr t th id Et Ec)|]. destruct (thread_busy hhdm g s th _ (i_threads _ _ _ _ I t th Et) Ec) as [Hid _]. unfold in_table in Hid. lia.
  - intros t th t' th' c Et Et' Ec Ec'. apply (i_unique _ _ _ _ I t th t' th' (inl c)); auto.
Qed.

Lemma count_ext {A} (f f' : A -> bool) l : (forall x, x ∈ l -> f x = f' x) -> countb f l = countb f' l.
Proof. induction l as [|x l IH]; intros H; cbn [countb]; [done|]. rewrite (H x) by left. rewrite IH; [done|]. intros y Hy. apply H. by right. Qed.
Definition with_role (g : ghost) (s : zram) (r : role) : Z := countb (fun id => bool_decide (grole g id = r)) (seqZ 1 (count s)).
Lemma roles_partition g s : 0 <= count s -> with_role g s RFree + with_role g s RTaken + with_role g s RLive + with_role g s RDropping = count s.
Proof.
  intros H. unfold with_role. rewrite <- (Z2Nat.id (count s) H) at 5. rewrite <- (length_seqZ 1 (count s)). generalize (seqZ 1 (count s)) as l. induction l as [|id l IH]; [done|]. cbn [countb length]. destruct (grole g id); repeat case_bool_decide; try congruence; cbn [Z.b2z]; lia.
Qed.
Lemma role_size g s (X : gset Z) r : (forall id, id ∈ X <-> in_table s id /\ grole g id = r) -> Z.of_nat (size X) = with_role g s r.
Proof.
  intros H. unfold with_role. rewrite filter_size by apply NoDup_seqZ. f_equal. f_equal. apply set_eq. intros id. rewrite elem_of_list_to_set, list_elem_of_filter, bool_decide_eq_true, elem_of_seqZ, H. unfold in_table. lia || intuition lia.
Qed.

Lemma slot_counts T g s : inv T g s -> Z.of_nat (length (gfl g)) = with_role g s RFree /\ Z.of_nat (size (gpages g)) = with_role g s RLive + with_role g s RDropping /\
  with_role g s RLive = countb (fun id => some (contents hhdm s id)) (seqZ 1 (count s)) /\ with_role g s RTaken = countb (fun th => some (storing th)) T /\ with_role g s RDropping = countb (fun th => some (dropping th)) T.
Proof.
  intros I. pose proof (i_base _ _ _ _ I) as B. destruct (b_free _ _ _ B) as (Hnd & Hrange & _).
  assert (Hok : forall id, in_table s id -> exists x, slotz s id = Some x /\ slot_ok hhdm g s id x) by apply (b_slots _ _ _ B).
  split; [|split; [|split; [|split]]].
  - rewrite <- (size_list_to_set (C := gset Z) (gfl g) Hnd). apply role_size. intros id. rewrite elem_of_list_to_set. split.
    + intros Hin. split; [by apply Hrange|]. destruct (Hok id (Hrange id Hin)) as (x & _ & H). unfold slot_ok in H. destruct (grole g id); [done|..]; by destruct H as [? _].
    + intros [Hid Hr]. destruct (Hok id Hid) as (x & _ & H). unfold slot_ok in H. rewrite Hr in H. apply H.
  - rewrite <- size_dom. set (L := filter (fun id => grole g id = RLive) (dom (gpages g))). set (D := filter (fun id => grole g id = RDropping) (dom (gpages g))).
    assert (Hst : forall id, in_table s id -> grole g id = RLive \/ grole g id = RDropping <-> id ∈ dom (gpages g)).
    { intros id Hid. destruct (Hok id Hid) as (x & _ & H). unfold slot_ok in H. rewrite elem_of_dom. destruct (grole g id); (split; [intros [?|?]; try done|]).
      - intros [v Ev]. destruct H as (_ & _ & _ & H). congruence. - intros [v Ev]. destruct H as (_ & _ & H). congruence.
      - destruct H as (_ & _ & page & E & _). by eexists. - auto. - destruct H as (_ & _ & page & E & _). by eexists. - auto. }
    assert (Hin : forall id, id ∈ dom (gpages g) -> in_table s id) by (intros id [v Ev]%elem_of_dom; by destruct (b_pages _ _ _ B _ _ Ev)).
    assert (E : dom (gpages g) = L ∪ D) by (apply set_eq; intros id; unfold L, D; rewrite elem_of_union, !elem_of_filter; split; [intros Hd; destruct (proj2 (Hst id (Hin id Hd)) Hd); auto|tauto]).
    rewrite E, size_union by (intros id; unfold L, D; rewrite !elem_of_filter; intros [? _] [? _]; congruence). rewrite Nat2Z.inj_add. f_equal; apply role_size; intros id; unfold L, D; rewrite elem_of_filter; split.
    + intros [? Hd]. auto. + intros [? ?]. split; [done|]. apply Hst; auto. + intros [? Hd]. auto. + intros [? ?]. split; [done|]. apply Hst; auto.
  - apply count_ext. intros id Hid%elem_of_seqZ. assert (Hid' : in_table s id) by (unfold in_table; lia). rewrite (contents_view T g s I) by lia. destruct (Hok id Hid') as (x & Ex & H). unfold slot_ok, view in *. destruct (grole g id); try done.
    destruct H as (_ & _ & page & E & _). by rewrite Ex, E.
  - apply (claimed_slots T g s storing RTaken I); [intros th id; destruct th; cbn; congruence| |auto]. intros t th id Et. pose proof (i_threads _ _ _ _ I t th Et) as Hth. destruct th; cbn in *; unfold taken in *; intros [= <-]; try (split; [intros _; tauto|done]).
    split; [done|]. intros ?. destruct Hth. congruence.
  - apply (claimed_slots T g s dropping RDropping I); [intros th id; destruct th; cbn; congruence| |auto]. intros t th id Et. pose proof (i_threads _ _ _ _ I t th Et) as Hth. destruct th; cbn in *; unfold taken in *; intros [= <-]; (split; [intros E; try done; tauto|intros E]); try done;
    exfalso; destruct Hth as [[? _] _]; congruence.
Qed.

(** ** Keeping a page *)

Lemma spec_keeps a c m c' m' id page r : spec a c m c' m' -> 0 <= id -> a <> Put id -> m id = Some (page, r) -> exists r', m' id = Some (page, r').
Proof.
  intros Sp H0 Ha E. destruct Sp as [r0 p m m' U|r0 p m m' U|r0 i m m' U|r0 i m m' c U _|p i m m' _ Hn U|p m m' U|m m' U|a c m m' U]; rewrite (U id H0); try (rewrite E; by eexists).
  - destruct (decide (id = i)) as [<-|]; [|rewrite E; by eexists]. rewrite E. cbn. destruct (r =? _); by eexists.
  - destruct (decide (id = i)) as [<-|]; [congruence|rewrite E; by eexists].
  - destruct (decide (id = i)) as [<-|]; [congruence|rewrite E; by eexists].
Qed.
Lemma runs_keep id page T s T' s' : runs_keeping hhdm id T s T' s' -> forall g r, inv T g s -> 0 <= id -> contents hhdm s id = Some (page, r) -> zram_slot_read hhdm id s' = Ret page.
Proof.
  induction 1 as [T s|T s t a T1 s1 T' s' St Ha _ IH]; intros g r I H0 E.
  - unfold contents in E. destruct (zram_slot_read hhdm id s), (slot_at s id); try done. by injection E as <- _.
  - destruct St as [T s t a th th' s1 Et L Es]. destruct (step_ok T g s t th a I Et L) as (th1 & s2 & g1 & E1 & I1 & Sp). rewrite Es in E1. injection E1 as <- <-. destruct (spec_keeps _ _ _ _ _ id page r Sp H0 Ha E) as [r' E']. by apply (IH g1 r').
Qed.

(** [zram_store_page] as one call. *)
Lemma store_page_ok n T g s t r page node frame : inv T g s -> reachable hhdm n T s -> T !! t = Some (Done r) -> Lz4.bytes page -> length page = 4096%nat -> fresh_memory hhdm s node frame ->
  exists id s' g', zram_store_page hhdm node frame page s = Ret (id, s') /\ inv (<[t := Done id]> T) g' s' /\ reachable hhdm n (<[t := Done id]> T) s' /\ final (Storing page) (contents hhdm s) id (contents hhdm s') /\
    (forall pattern bytes, compress_page page = Ret (Some (pattern, bytes)) -> free_head s <> 0 -> PACKED_CHARGE <= memory_limit (stats s) - memory_bytes (stats s) -> node <> 0 -> fst frame <> 0 -> id <> 0).
Proof.
  intros I R Et Hb Hl Hf. destruct (step_ok T g s t (Done r) (StorePage page) I Et (conj Hb Hl)) as (th & s1 & g1 & E & I1 & Sp). unfold zram_store_page. change (thread_step _ _ _ _) with (store_begin page s) in E. rewrite E, ret_bind.
  pose proof (lookup_lt_Some _ _ _ Et) as Hlt. destruct (begin_shape page s th s1 E) as [_ Hth]. assert (Hpf : pages s1 = pages s /\ frames s1 = frames s /\ stats s1 = stats s \/ th = Done 0).
  { unfold store_begin in E. destruct (slots s); [|injection E as <- _; by right]. apply bind_Ret in E as (c & _ & E). destruct c as [[pattern bytes]|]; [|injection E as <- _; by right]. destruct (_ =? 0); [injection E as <- _; by right|].
    apply bind_Ret in E as (x & _ & E). injection E as _ <-. by left. }
  destruct (finish_ok node frame 6 (<[t := th]> T) g1 s1 t th I1) as (id & s' & g' & -> & I' & F & R' & Lk); [by apply list_lookup_insert_eq|destruct th; cbn; lia| |].
  { intros Hw. destruct Hpf as [(E1 & E2 & _)|E1]; [|by rewrite E1 in Hw]. unfold fresh_memory. by rewrite E1, E2. }
  rewrite list_insert_insert_eq in I', R'. exists id, s', g'. split; [done|]. split; [done|]. split; [|split].
  - apply R'. apply (reach_step hhdm n T s t (StorePage page)); [done|]. apply (step_thread hhdm T s t (StorePage page) (Done r)); done.
  - assert (U : unchanged (contents hhdm s) (contents hhdm s1)) by (destruct Hth as [->|(j & <- & ->)]; inversion Sp; congruence || done). destruct Hth as [->|(j & <- & ->)]; [|exact (final_before frame (Storing (jpage j)) _ _ _ _ U F)].
    destruct F as [-> U']. left. split; [done|]. by apply (unchanged_trans _ (contents hhdm s1)).
  - intros pattern bytes Ec H1 H2 H3 H4. apply Lk. unfold store_begin in E. destruct (b_table _ _ _ (i_base _ _ _ _ I)) as (tb & Etb & _). rewrite Etb, Ec, ret_bind, (proj2 (Z.eqb_neq _ 0)) in E by done. apply bind_Ret in E as (x & _ & E). injection E as <- <-. done.
Qed.

End Claims.

(** ** Properties *)

(** C8: From [zram_store_init] on, every step of every processor in the store returns
    and is a step of the abstract map from slots to pages with reference counts, as
    [zram_slot_read] and the counts show it: only the last step of a successful
    [zram_store_page] adds its page, with one reference, at a slot that was not used;
    [zram_slot_get] and [zram_slot_put] count; nothing else changes the map. *)
Theorem zram_refines hhdm n T s t th a : 0 <= hhdm -> reachable hhdm n T s -> T !! t = Some th -> legal hhdm s a ->
  exists th' s', thread_step hhdm a th s = Ret (th', s') /\ reachable hhdm n (<[t := th']> T) s' /\ spec a (call_of th) (contents hhdm s) (call_of th') (contents hhdm s').
Proof.
  intros H R Et L. destruct (zram_reachable_inv hhdm H n T s R) as [g I]. destruct (step_ok hhdm H T g s t th a I Et L) as (th' & s' & g' & E & _ & Sp). exists th', s'. split; [done|]. split; [|done].
  apply (reach_step hhdm n T s t a); [done|]. by apply (step_thread hhdm T s t a th).
Qed.

(** C9: [zram_store_page] returns for every page; the id 0 means that the store is as
    before, and under any other id the same bytes are read back, whatever all
    processors do in between, as long as none of them puts that id. *)
Theorem zram_roundtrip hhdm n T s t r page node frame : 0 <= hhdm -> reachable hhdm n T s -> T !! t = Some (Done r) -> Lz4.bytes page -> length page = 4096%nat -> fresh_memory hhdm s node frame ->
  exists id s1, zram_store_page hhdm node frame page s = Ret (id, s1) /\ (id = 0 -> unchanged (contents hhdm s) (contents hhdm s1)) /\
    (id <> 0 -> forall T' s', runs_keeping hhdm id (<[t := Done id]> T) s1 T' s' -> zram_slot_read hhdm id s' = Ret page).
Proof.
  intros H R Et Hb Hl Hf. destruct (zram_reachable_inv hhdm H n T s R) as [g I]. destruct (store_page_ok hhdm H n T g s t r page node frame I R Et Hb Hl Hf) as (id & s1 & g1 & E & I1 & _ & F & _). exists id, s1. split; [done|].
  split; [intros ->; destruct F as [[_ U]|[? _]]; [done|lia]|]. intros Hid T' s' Runs. destruct F as [[? _]|(H0 & _ & U)]; [done|]. apply (runs_keep hhdm H id page _ s1 T' s' Runs g1 1 I1); [lia|]. rewrite (U id) by lia. by rewrite decide_True.
Qed.

(** A page that compresses is stored when there is a free slot, room for one more
    pool page under the limit, and memory from the allocators. *)
Theorem zram_store_succeeds hhdm n T s t r page node frame pattern bytes : 0 <= hhdm -> reachable hhdm n T s -> T !! t = Some (Done r) -> Lz4.bytes page -> length page = 4096%nat -> fresh_memory hhdm s node frame ->
  compress_page page = Ret (Some (pattern, bytes)) -> free_head s <> 0 -> PACKED_CHARGE <= memory_limit (stats s) - memory_bytes (stats s) -> node <> 0 -> fst frame <> 0 ->
  exists id s', zram_store_page hhdm node frame page s = Ret (id, s') /\ 0 < id /\ contents hhdm s id = None /\ updated (contents hhdm s) (contents hhdm s') id (Some (page, 1)).
Proof.
  intros H R Et Hb Hl Hf Hc H1 H2 H3 H4. destruct (zram_reachable_inv hhdm H n T s R) as [g I]. destruct (store_page_ok hhdm H n T g s t r page node frame I R Et Hb Hl Hf) as (id & s1 & g1 & E & _ & _ & F & Lk). exists id, s1. split; [done|].
  destruct F as [[-> _]|F]; [|done]. by destruct (Lk pattern bytes Hc H1 H2 H3 H4).
Qed.

(** The books of the store are exact in every interleaving: the memory counted is the
    table plus 4160 bytes for each pool page that is not about to be freed and for
    each reservation, and it never passes the limit; [stored_pages] counts the slots
    that can be read and those whose last reference was just dropped; and every slot
    is one of these, on the free list, or held by a call that fills it. *)
Theorem zram_accounting hhdm n T s : 0 <= hhdm -> reachable hhdm n T s ->
  memory_bytes (stats s) = table_bytes (count s) + PACKED_CHARGE * (Z.of_nat (size (pages s)) - countb (fun th => some (releasing th)) T + countb reserving T) /\
  memory_bytes (stats s) <= memory_limit (stats s) /\
  stored_pages (stats s) = countb (fun id => some (contents hhdm s id)) (seqZ 1 (count s)) + countb (fun th => some (dropping th)) T /\
  exists l, NoDup l /\ fchain s l (free_head s) /\ Z.of_nat (length l) + stored_pages (stats s) + countb (fun th => some (storing th)) T = count s.
Proof.
  intros H R. destruct (zram_reachable_inv hhdm H n T s R) as [g I]. pose proof (i_base _ _ _ _ I) as B. destruct (slot_counts hhdm H T g s I) as (C1 & C2 & C3 & C4 & C5). destruct (i_memory _ _ _ _ I) as [M1 M2].
  pose proof (page_count hhdm H T g s I) as Pc. destruct (b_stats _ _ _ B) as (S1 & _). destruct (b_free _ _ _ B) as (Hnd & _ & Hch). pose proof (b_count _ _ _ B) as Hcnt. pose proof (roles_partition g s ltac:(lia)) as Hp.
  assert (Hu : stored_pages (stats s) = Z.of_nat (size (gpages g))). { rewrite S1. apply u64_id. pose proof (count_nonneg (fun th => some (storing th)) T). lia. }
  split; [rewrite M1; unfold charged; lia|]. split; [lia|]. split; [lia|]. exists (gfl g). split; [done|]. split; [done|]. lia.
Qed.

(** ** A small store *)

Definition demo_hhdm : Z := 18446603336221196288.
Definition demo_init : zram := snd (zram_store_init 8 20000 true zram_boot).
Definition demo_page : list Z := replicate 2048 1 ++ replicate 2048 2.
Definition demo_frame : Z * list Z := (65536, replicate 4096 0).

Lemma demo_reachable : reachable demo_hhdm 2 [Done 0; Done 0] demo_init.
Proof. apply (reach_init demo_hhdm 2 8 20000); [lia|lia|]. vm_compute. reflexivity. Qed.
Lemma demo_bytes : Lz4.bytes demo_page.
Proof. apply Forall_app. split; apply Forall_replicate; lia. Qed.
Lemma demo_fresh : fresh_memory demo_hhdm demo_init 4660 demo_frame.
Proof. split; [reflexivity|]. intros _. split; [reflexivity|]. split; [cbn; lia|]. split; [exists 16; reflexivity|]. split; [unfold demo_hhdm; cbn [fst demo_frame]; lia|reflexivity]. Qed.
(** The result of storing the page. *)
Lemma demo_stored : match zram_store_page demo_hhdm 4660 demo_frame demo_page demo_init with Ret (id, _) => id = 1 | _ => False end.
Proof. vm_compute. reflexivity. Qed.

Lemma zram_refines_witness : exists th' s', thread_step demo_hhdm (StorePage demo_page) (Done 0) demo_init = Ret (th', s') /\ reachable demo_hhdm 2 [th'; Done 0] s' /\
  spec (StorePage demo_page) (Idle 0) (contents demo_hhdm demo_init) (call_of th') (contents demo_hhdm s').
Proof. apply (zram_refines demo_hhdm 2 [Done 0; Done 0] demo_init 0 (Done 0) (StorePage demo_page)); [unfold demo_hhdm; lia|exact demo_reachable|reflexivity|]. split; [exact demo_bytes|reflexivity]. Defined.

Lemma zram_roundtrip_witness : exists s1, zram_store_page demo_hhdm 4660 demo_frame demo_page demo_init = Ret (1, s1) /\
  forall T' s', runs_keeping demo_hhdm 1 [Done 1; Done 0] s1 T' s' -> zram_slot_read demo_hhdm 1 s' = Ret demo_page.
Proof.
  destruct (zram_roundtrip demo_hhdm 2 [Done 0; Done 0] demo_init 0 0 demo_page 4660 demo_frame) as (id & s1 & E & _ & H); [unfold demo_hhdm; lia|exact demo_reachable|reflexivity|exact demo_bytes|reflexivity|exact demo_fresh|].
  pose proof demo_stored as D. rewrite E in D. subst id. exists s1. split; [exact E|]. apply H. lia.
Defined.

Lemma zram_store_succeeds_witness : exists id s', zram_store_page demo_hhdm 4660 demo_frame demo_page demo_init = Ret (id, s') /\ 0 < id /\ contents demo_hhdm demo_init id = None /\
  updated (contents demo_hhdm demo_init) (contents demo_hhdm s') id (Some (demo_page, 1)).
Proof.
  assert (Hc : exists pattern bytes, compress_page demo_page = Ret (Some (pattern, bytes))) by (eexists _, _; vm_compute; reflexivity). destruct Hc as (pattern & bytes & Hc).
  apply (zram_store_succeeds demo_hhdm 2 [Done 0; Done 0] demo_init 0 0 demo_page 4660 demo_frame pattern bytes);
    [unfold demo_hhdm; lia|exact demo_reachable|reflexivity|exact demo_bytes|reflexivity|exact demo_fresh|exact Hc|vm_compute; discriminate|vm_compute; discriminate|lia|cbn; lia].
Defined.

Lemma zram_accounting_witness : memory_bytes (stats demo_init) = 4096 /\ memory_bytes (stats demo_init) <= memory_limit (stats demo_init) /\ stored_pages (stats demo_init) = 0.
Proof. destruct (zram_accounting demo_hhdm 2 [Done 0; Done 0] demo_init) as (H1 & H2 & H3 & _); [unfold demo_hhdm; lia|exact demo_reachable|]. split; [rewrite H1; vm_compute; reflexivity|]. split; [exact H2|]. rewrite H3. vm_compute. reflexivity. Defined.

End ZramClaims.
