(* ===== verification/RbTree.v ===== *)
(** RbTree: red-black trees with parent pointers and augmentation
    ([kernel/src/lib/rbtree.c], [lib/rbtree.h]).

    A heap maps addresses to nodes; 0 is NULL, and an access to an address the heap
    does not have is a fault. [__rb_parent_color] is one word as in the source. A node
    is embedded in an object: [payload] and [summary] are the rest of it, and the
    augmentation callback computes the summary of a node from its payload and the
    summaries of its children. The source has each rebalancing step twice, for the
    two sides; here a step has the side as an argument, and [L] and [R] give the two
    texts. *)

From S2P Require Import Prelude.

Module RbTree.

(** ** Nodes *)

Definition RB_RED : Z := 0.
Definition RB_BLACK : Z := 1.

Inductive dir := L | R.
#[global] Instance dir_eq : EqDecision dir.
Proof. solve_decision. Defined.
Definition opp (d : dir) : dir := match d with L => R | R => L end.

Section RbTree.
Context {P V : Type}.

Record rb_node := mk_node { pc : Z; right : Z; left : Z; payload : P; summary : V }.
Record rbtree := mk_tree { root : Z; nodes : gmap Z rb_node }.

Definition child (d : dir) (x : rb_node) : Z := match d with L => left x | R => right x end.
Definition set_pc (v : Z) (x : rb_node) : rb_node := mk_node v (right x) (left x) (payload x) (summary x).
Definition with_child (d : dir) (v : Z) (x : rb_node) : rb_node :=
  match d with L => mk_node (pc x) (right x) v (payload x) (summary x) | R => mk_node (pc x) v (left x) (payload x) (summary x) end.
Definition set_summary (v : V) (x : rb_node) : rb_node := mk_node (pc x) (right x) (left x) (payload x) v.

Definition rb_parent (x : rb_node) : Z := Z.land (pc x) (Z.lnot 3).
Definition rb_color (x : rb_node) : Z := Z.land (pc x) 1.
Definition rb_is_red (x : rb_node) : bool := negb (nz (rb_color x)).
Definition rb_is_black (x : rb_node) : bool := nz (rb_color x).

Definition get (s : rbtree) (a : Z) : outcome rb_node := deref (nodes s !! a).
Definition put (a : Z) (x : rb_node) (s : rbtree) : rbtree := mk_tree (root s) (<[a := x]> (nodes s)).
Definition set_root (a : Z) (s : rbtree) : rbtree := mk_tree a (nodes s).
Definition update (a : Z) (f : rb_node -> rb_node) (s : rbtree) : outcome rbtree := x ← get s a; Ret (put a (f x) s).

Definition rb_set_parent (a p : Z) : rbtree -> outcome rbtree := update a (fun x => set_pc (Z.lor (rb_color x) p) x).
Definition rb_set_color (a c : Z) : rbtree -> outcome rbtree := update a (fun x => set_pc (Z.lor (Z.land (pc x) (Z.lnot 1)) c) x).
Definition rb_set_parent_color (a p c : Z) : rbtree -> outcome rbtree := update a (set_pc (Z.lor p c)).
Definition set_child (d : dir) (a v : Z) : rbtree -> outcome rbtree := update a (with_child d v).
Definition parent_of (s : rbtree) (a : Z) : outcome Z := x ← get s a; Ret (rb_parent x).
Definition child_of (d : dir) (s : rbtree) (a : Z) : outcome Z := x ← get s a; Ret (child d x).
Definition color_of (s : rbtree) (a : Z) : outcome Z := x ← get s a; Ret (rb_color x).
(** [if (p) f(p)] *)
Definition unless_null (p : Z) (f : rbtree -> outcome rbtree) (s : rbtree) : outcome rbtree := if p =? 0 then Ret s else f s.
(** [p && rb_is_red(p)], and [!p || rb_is_black(p)] *)
Definition red_at (s : rbtree) (p : Z) : outcome bool := if p =? 0 then Ret false else x ← get s p; Ret (rb_is_red x).
Definition black_at (s : rbtree) (p : Z) : outcome bool := if p =? 0 then Ret true else x ← get s p; Ret (rb_is_black x).

(** ** Augmentation *)

Definition callback := P -> option V -> option V -> V.
Definition summary_at (s : rbtree) (p : Z) : outcome (option V) := if p =? 0 then Ret None else x ← get s p; Ret (Some (summary x)).
Definition run_cb (cb : callback) (a : Z) (s : rbtree) : outcome rbtree :=
  x ← get s a; l ← summary_at s (left x); r ← summary_at s (right x); Ret (put a (set_summary (cb (payload x) l r) x) s).
Definition augment (cb : option callback) (a : Z) (s : rbtree) : outcome rbtree := match cb with None => Ret s | Some cb => run_cb cb a s end.

Fixpoint propagate_loop (fuel : nat) (cb : callback) (node : Z) (s : rbtree) : outcome rbtree :=
  match fuel with
  | O => OutOfFuel
  | S fuel => if node =? 0 then Ret s else s ← run_cb cb node s; p ← parent_of s node; propagate_loop fuel cb p s
  end.
Definition fuel_of (s : rbtree) : nat := S (S (size (nodes s))).
Definition rb_augment_propagate (cb : option callback) (node : Z) (s : rbtree) : outcome rbtree := match cb with None => Ret s | Some cb => propagate_loop (fuel_of s) cb node s end.

(** ** Links *)

(** Where a link to a child is: in the root, or on one side of a node. *)
Inductive place := At_root | Under (parent : Z) (d : dir).
Definition rb_link_node (node parent : Z) (link : place) (s : rbtree) : outcome rbtree :=
  s ← update node (fun x => mk_node parent 0 0 (payload x) (summary x)) s;
  match link with At_root => Ret (set_root node s) | Under p d => set_child d p node s end.

(** The link of [parent] to [node] becomes [new]; the side [d] is tested first. *)
Definition replace_child (d : dir) (parent node new : Z) (s : rbtree) : outcome rbtree :=
  if parent =? 0 then Ret (set_root new s)
  else c ← child_of d s parent; if c =? node then set_child d parent new s else set_child (opp d) parent new s.

(** [__rb_rotate_left] for [L], [__rb_rotate_right] for [R]. *)
Definition rb_rotate (d : dir) (cb : option callback) (node : Z) (s : rbtree) : outcome rbtree :=
  up ← child_of (opp d) s node;
  parent ← parent_of s node;
  inner ← child_of d s up;
  s ← set_child (opp d) node inner s;
  inner ← child_of d s up;
  s ← unless_null inner (rb_set_parent inner node) s;
  s ← set_child d up node s;
  s ← rb_set_parent up parent s;
  s ← replace_child d parent node up s;
  s ← rb_set_parent node up s;
  s ← augment cb node s;
  augment cb up s.

(** ** Insertion *)

(** One iteration, with the parent on side [d] of the grandparent. *)
Definition insert_side (d : dir) (cb : option callback) (node parent gparent : Z) (s : rbtree) : outcome (Z * Z * rbtree) :=
  uncle ← child_of (opp d) s gparent;
  u ← red_at s uncle;
  if u : bool then
    s ← rb_set_color uncle RB_BLACK s; s ← rb_set_color parent RB_BLACK s; s ← rb_set_color gparent RB_RED s;
    p ← parent_of s gparent; Ret (gparent, p, s)
  else
    inner ← child_of (opp d) s parent;
    '(node, parent, s) ← ((if inner =? node then s ← rb_rotate d cb parent s; Ret (parent, node, s) else Ret (node, parent, s)) : outcome (Z * Z * rbtree));
    s ← rb_set_color parent RB_BLACK s; s ← rb_set_color gparent RB_RED s;
    s ← rb_rotate (opp d) cb gparent s;
    Ret (node, parent, s).

Fixpoint insert_loop (fuel : nat) (cb : option callback) (node parent : Z) (s : rbtree) : outcome rbtree :=
  match fuel with
  | O => OutOfFuel
  | S fuel =>
    red ← red_at s parent;
    if red : bool then
      gparent ← parent_of s parent;
      if gparent =? 0 then Ret s
      else
        l ← child_of L s gparent;
        '(node, parent, s) ← insert_side (if parent =? l then L else R) cb node parent gparent s;
        insert_loop fuel cb node parent s
    else Ret s
  end.

Definition rb_insert_augmented (cb : option callback) (node : Z) (s : rbtree) : outcome rbtree :=
  parent ← parent_of s node;
  s ← rb_augment_propagate cb node s;
  s ← insert_loop (fuel_of s) cb node parent s;
  rb_set_color (root s) RB_BLACK s.
Definition rb_insert_color : Z -> rbtree -> outcome rbtree := rb_insert_augmented None.

(** ** Removal *)

(** One iteration, with the node on side [d] of the parent; the flag says whether the
    loop goes on. The second part has the sibling [other], which is not red. *)
Definition erase_rest (d : dir) (cb : option callback) (parent other : Z) (s : rbtree) : outcome (bool * Z * Z * rbtree) :=
  if other =? 0 then p ← parent_of s parent; Ret (true, parent, p, s)
  else
    near ← child_of d s other; far ← child_of (opp d) s other;
    nb ← black_at s near; fb ← black_at s far;
    if nb && fb then s ← rb_set_color other RB_RED s; p ← parent_of s parent; Ret (true, parent, p, s)
    else
      '(other, s) ← ((if fb : bool then
          s ← unless_null near (rb_set_color near RB_BLACK) s; s ← rb_set_color other RB_RED s; s ← rb_rotate (opp d) cb other s;
          other ← child_of (opp d) s parent; Ret (other, s)
        else Ret (other, s)) : outcome (Z * rbtree));
      s ← unless_null other (fun s => c ← color_of s parent; s ← rb_set_color other c s; far ← child_of (opp d) s other; unless_null far (rb_set_color far RB_BLACK) s) s;
      s ← rb_set_color parent RB_BLACK s;
      s ← rb_rotate d cb parent s;
      Ret (false, root s, parent, s).
Definition erase_side (d : dir) (cb : option callback) (parent : Z) (s : rbtree) : outcome (bool * Z * Z * rbtree) :=
  other ← child_of (opp d) s parent;
  red ← red_at s other;
  '(other, s) ← ((if red : bool then
      s ← rb_set_color other RB_BLACK s; s ← rb_set_color parent RB_RED s; s ← rb_rotate d cb parent s;
      other ← child_of (opp d) s parent; Ret (other, s)
    else Ret (other, s)) : outcome (Z * rbtree));
  erase_rest d cb parent other s.

Fixpoint erase_loop (fuel : nat) (cb : option callback) (node parent : Z) (s : rbtree) : outcome (Z * rbtree) :=
  match fuel with
  | O => OutOfFuel
  | S fuel =>
    black ← black_at s node;
    if black && negb (node =? root s) then
      l ← child_of L s parent;
      '(more, node, parent, s) ← erase_side (if l =? node then L else R) cb parent s;
      if more : bool then erase_loop fuel cb node parent s else Ret (node, s)
    else Ret (node, s)
  end.
Definition rb_erase_color (cb : option callback) (node parent : Z) (s : rbtree) : outcome rbtree :=
  '(node, s) ← erase_loop (fuel_of s) cb node parent s; unless_null node (rb_set_color node RB_BLACK) s.

Fixpoint extreme_loop (fuel : nat) (d : dir) (node : Z) (s : rbtree) : outcome Z :=
  match fuel with
  | O => OutOfFuel
  | S fuel => c ← child_of d s node; if c =? 0 then Ret node else extreme_loop fuel d c s
  end.

(** A node with at most one child is replaced by [child]. *)
Definition erase_one (cb : option callback) (node child : Z) (s : rbtree) : outcome (Z * Z * rbtree) :=
  parent ← parent_of s node;
  color ← color_of s node;
  s ← unless_null child (rb_set_parent child parent) s;
  s ← replace_child L parent node child s;
  s ← rb_augment_propagate cb parent s;
  Ret (parent, color, s).
(** [node] takes the parent, the colour and the left child of [old]. *)
Definition take_place (old node : Z) (s : rbtree) : outcome rbtree :=
  x ← get s old;
  s ← rb_set_parent_color node (rb_parent x) (rb_color x) s;
  l ← child_of L s old;
  s ← set_child L node l s;
  p ← parent_of s old;
  s ← replace_child L p old node s;
  l ← child_of L s old;
  rb_set_parent l node s.
(** A node with two children is replaced by its successor. *)
Definition erase_two (cb : option callback) (old : Z) (s : rbtree) : outcome (Z * Z * Z * rbtree) :=
  node ← child_of R s old;
  node ← extreme_loop (fuel_of s) L node s;
  child ← child_of R s node;
  parent ← parent_of s node;
  color ← color_of s node;
  s ← unless_null child (rb_set_parent child parent) s;
  s ← replace_child L parent node child s;
  p ← parent_of s node;
  '(parent, s) ← ((if p =? old then s ← unless_null child (rb_set_parent child node) s; Ret (node, s)
    else r ← child_of R s old; s ← set_child R node r s; r ← child_of R s old; s ← rb_set_parent r node s; Ret (parent, s)) : outcome (Z * rbtree));
  s ← take_place old node s;
  s ← augment cb node s;
  s ← rb_augment_propagate cb parent s;
  Ret (child, parent, color, s).

Definition rb_erase_augmented (cb : option callback) (node : Z) (s : rbtree) : outcome rbtree :=
  l ← child_of L s node; r ← child_of R s node;
  '(child, parent, color, s) ← ((
    if l =? 0 then '(parent, color, s) ← erase_one cb node r s; Ret (r, parent, color, s)
    else if r =? 0 then '(parent, color, s) ← erase_one cb node l s; Ret (l, parent, color, s)
    else erase_two cb node s) : outcome (Z * Z * Z * rbtree));
  if color =? RB_BLACK then rb_erase_color cb child parent s else Ret s.
Definition rb_erase : Z -> rbtree -> outcome rbtree := rb_erase_augmented None.

(** ** Replacing a node, and walks *)

Definition rb_replace_node (victim new_node : Z) (s : rbtree) : outcome rbtree :=
  parent ← parent_of s victim;
  s ← replace_child L parent victim new_node s;
  l ← child_of L s victim;
  s ← unless_null l (rb_set_parent l new_node) s;
  r ← child_of R s victim;
  s ← unless_null r (rb_set_parent r new_node) s;
  x ← get s victim;
  update new_node (fun y => mk_node (pc x) (right x) (left x) (payload y) (summary y)) s.

(** [rb_first] for [L], [rb_last] for [R]. *)
Definition rb_extreme (d : dir) (s : rbtree) : outcome Z := if root s =? 0 then Ret 0 else extreme_loop (fuel_of s) d (root s) s.

(** Up from a child on side [d]. *)
Fixpoint climb (fuel : nat) (d : dir) (node : Z) (s : rbtree) : outcome Z :=
  match fuel with
  | O => OutOfFuel
  | S fuel =>
    parent ← parent_of s node;
    if parent =? 0 then Ret 0 else c ← child_of d s parent; if node =? c then climb fuel d parent s else Ret parent
  end.
(** [rb_next] for [R], [rb_prev] for [L]. *)
Definition rb_step (d : dir) (node : Z) (s : rbtree) : outcome Z :=
  p ← parent_of s node;
  if p =? node then Ret 0
  else
    c ← child_of d s node;
    if c =? 0 then climb (fuel_of s) d node s else extreme_loop (fuel_of s) (opp d) c s.
Definition rb_first := rb_extreme L.
Definition rb_last := rb_extreme R.
Definition rb_next := rb_step R.
Definition rb_prev := rb_step L.

(** The black height, or [None] where the validation fails. *)
Fixpoint validate_subtree (fuel : nat) (s : rbtree) (node : Z) : outcome (option Z) :=
  match fuel with
  | O => OutOfFuel
  | S fuel =>
    if node =? 0 then Ret (Some 1)
    else
      x ← get s node;
      lr ← red_at s (left x); rr ← red_at s (right x);
      if rb_is_red x && (lr || rr) then Ret None
      else
        lp ← (if left x =? 0 then Ret true else p ← parent_of s (left x); Ret (p =? node));
        rp ← (if right x =? 0 then Ret true else p ← parent_of s (right x); Ret (p =? node));
        if negb lp || negb rp then Ret None
        else
          lh ← validate_subtree fuel s (left x);
          match lh with
          | None => Ret None
          | Some lh =>
            rh ← validate_subtree fuel s (right x);
            match rh with
            | None => Ret None
            | Some rh => if lh =? rh then Ret (Some (lh + (if rb_is_black x then 1 else 0))) else Ret None
            end
          end
  end.
Definition rb_validate_tree (s : rbtree) : outcome bool :=
  if root s =? 0 then Ret true
  else
    x ← get s (root s);
    if negb (rb_is_black x) then Ret false
    else h ← validate_subtree (fuel_of s) s (root s); Ret (match h with Some _ => true | None => false end).

Fixpoint left_deepest (fuel : nat) (node : Z) (s : rbtree) : outcome Z :=
  match fuel with
  | O => OutOfFuel
  | S fuel => x ← get s node; if negb (left x =? 0) then left_deepest fuel (left x) s else if negb (right x =? 0) then left_deepest fuel (right x) s else Ret node
  end.
Definition rb_next_postorder (node : Z) (s : rbtree) : outcome Z :=
  if node =? 0 then Ret 0
  else
    parent ← parent_of s node;
    if parent =? 0 then Ret 0
    else p ← get s parent; if (node =? left p) && negb (right p =? 0) then left_deepest (fuel_of s) (right p) s else Ret parent.
Definition rb_first_postorder (s : rbtree) : outcome Z := if root s =? 0 then Ret 0 else left_deepest (fuel_of s) (root s) s.

End RbTree.
Arguments rb_node : clear implicits.
Arguments rbtree : clear implicits.
Arguments callback : clear implicits.
End RbTree.
