(* ===== verification/RbRep.v ===== *)
(** RbRep: the tree that a heap of red-black nodes represents, contexts of a subtree,
    and what the primitive steps of [RbTree] (recolouring, relinking, rotation,
    augmentation) do to it. *)

From S2P Require Import Prelude RbTree.
From stdpp Require Import list_relations.
#[local] Open Scope Z_scope.

Module RbRep.
Import RbTree.

(** ** Parent and colour in one word *)

Definition word (p : Z) (c : bool) : Z := p + Z.b2z c.
Lemma word_shift p c : (4 | p) -> word p c = Z.lor (Z.b2z c) (Z.shiftl (p / 4) 2).
Proof. intros [k ->]. unfold word. rewrite Z.div_mul, lor_shiftl_add by (try destruct c; cbn; lia). lia. Qed.
Lemma word_parent p c : (4 | p) -> Z.land (word p c) (Z.lnot 3) = p.
Proof.
  intros H. change 3 with (Z.ones 2). rewrite <- Z.ldiff_land, Z.ldiff_ones_r by lia. destruct H as [k ->]. unfold word. rewrite Z.shiftr_div_pow2, Z.shiftl_mul_pow2 by lia. change (2 ^ 2) with 4. f_equal. symmetry. apply (Z.div_unique _ _ _ (Z.b2z c)); [destruct c; cbn; lia|lia].
Qed.
Lemma word_color p c : (4 | p) -> Z.land (word p c) 1 = Z.b2z c.
Proof.
  intros [k ->]. change 1 with (2 ^ 1 - 1) at 1. rewrite land_ones_small by lia. unfold word. symmetry. apply (Z.mod_unique _ _ (2 * k)); destruct c; cbn; lia.
Qed.
Lemma word_make p c : (4 | p) -> Z.lor (Z.b2z c) p = word p c.
Proof. intros H. rewrite word_shift by done. f_equal. destruct H as [k ->]. rewrite Z.div_mul, Z.shiftl_mul_pow2 by lia. lia. Qed.
Lemma word_recolor p c c' : (4 | p) -> Z.lor (Z.land (word p c) (Z.lnot 1)) (Z.b2z c') = word p c'.
Proof.
  intros H. rewrite <- (word_make p c') by done. rewrite Z.lor_comm. f_equal. change 1 with (Z.ones 1). rewrite <- Z.ldiff_land, Z.ldiff_ones_r by lia. destruct H as [k ->]. unfold word. rewrite Z.shiftr_div_pow2, Z.shiftl_mul_pow2 by lia. change (2 ^ 1) with 2.
  rewrite <- (Z.div_unique (k * 4 + Z.b2z c) 2 (k * 2) (Z.b2z c)); [lia|destruct c; cbn; lia|lia].
Qed.

Section Rep.
Context {P V : Type}.

(** ** Trees and contexts *)

(** [true] is black; a node has its address, its payload and its summary. *)
Inductive tree := Leaf | Node (c : bool) (l : tree) (a : Z) (x : P * V) (r : tree).
(** The node with [t1] on side [d] and [t2] on the other. *)
Definition nd (d : dir) (c : bool) (t1 : tree) (a : Z) (x : P * V) (t2 : tree) : tree := match d with L => Node c t1 a x t2 | R => Node c t2 a x t1 end.
Definition ptr (t : tree) : Z := match t with Leaf => 0 | Node _ _ a _ _ => a end.
Fixpoint elems (t : tree) : list (Z * P) := match t with Leaf => [] | Node _ l a x r => elems l ++ (a, fst x) :: elems r end.
Definition addrs (t : tree) : list Z := (elems t).*1.

(** A subtree on side [fd] of a node. *)
Record frm := Frm { fd : dir; fc : bool; fa : Z; fx : P * V; fs : tree }.
Definition fill (f : frm) (t : tree) : tree := nd (fd f) (fc f) t (fa f) (fx f) (fs f).
Fixpoint plug (K : list frm) (t : tree) : tree := match K with [] => t | f :: K => plug K (fill f t) end.
Definition up (K : list frm) : Z := match K with [] => 0 | f :: _ => fa f end.
Fixpoint kaddrs (K : list frm) : list Z := match K with [] => [] | f :: K => fa f :: addrs (fs f) ++ kaddrs K end.

Lemma addrs_nd d c t1 a x t2 : addrs (nd d c t1 a x t2) ≡ₚ a :: addrs t1 ++ addrs t2.
Proof. unfold addrs. destruct d; cbn; rewrite fmap_app; cbn; rewrite <- Permutation_middle; [done|]. by rewrite (Permutation_app_comm (elems t2).*1). Qed.
Lemma addrs_fill f t : addrs (fill f t) ≡ₚ fa f :: addrs (fs f) ++ addrs t.
Proof. unfold fill. rewrite addrs_nd. by rewrite (Permutation_app_comm (addrs t)). Qed.
Lemma addrs_plug K : forall t, addrs (plug K t) ≡ₚ kaddrs K ++ addrs t.
Proof.
  induction K as [|f K IH]; intros t; cbn [plug kaddrs]; [done|]. rewrite IH, addrs_fill. cbn. rewrite <- Permutation_middle. f_equiv. rewrite !(assoc_L (++)). f_equiv. apply Permutation_app_comm.
Qed.
Lemma plug_app K1 K2 t : plug (K1 ++ K2) t = plug K2 (plug K1 t).
Proof. revert t. induction K1 as [|f K IH]; intros t; cbn; [done|apply IH]. Qed.
(** The root of a tree does not depend on what is deep inside. *)
Lemma ptr_plug K t t' : K <> [] \/ ptr t = ptr t' -> ptr (plug K t) = ptr (plug K t').
Proof. revert t t'. induction K as [|f K IH]; intros t t' H; cbn; [by destruct H|]. apply IH. right. by destruct f as [[] ? ? ? ?]. Qed.
Lemma elems_plug K t t' : elems t = elems t' -> elems (plug K t) = elems (plug K t').
Proof. revert t t'. induction K as [|f K IH]; intros t t' H; cbn; [done|]. apply IH. destruct f as [[] ? ? ? ?]; cbn; by rewrite H. Qed.

(** ** Representation *)

Definition cell (d : dir) (par : Z) (c : bool) (x : P * V) (p1 p2 : Z) : rb_node P V := match d with L => mk_node (word par c) p2 p1 (fst x) (snd x) | R => mk_node (word par c) p1 p2 (fst x) (snd x) end.
Fixpoint rep (h : gmap Z (rb_node P V)) (par : Z) (t : tree) : Prop :=
  match t with
  | Leaf => True
  | Node c l a x r => h !! a = Some (cell L par c x (ptr l) (ptr r)) /\ rep h a l /\ rep h a r
  end.
(** The context of a subtree whose root is at [p]. *)
Fixpoint repk (h : gmap Z (rb_node P V)) (K : list frm) (p : Z) : Prop :=
  match K with
  | [] => True
  | f :: K => h !! fa f = Some (cell (fd f) (up K) (fc f) (fx f) p (ptr (fs f))) /\ rep h (fa f) (fs f) /\ repk h K (fa f)
  end.
Definition addr (a : Z) : Prop := 0 < a /\ (4 | a).

Record holds (s : rbtree P V) (T : tree) : Prop := mk_holds {
  h_root : root s = ptr T;
  h_rep : rep (nodes s) 0 T;
  h_nodup : NoDup (addrs T);
  h_addr : Forall addr (addrs T) }.

Lemma rep_nd h par d c t1 a x t2 : rep h par (nd d c t1 a x t2) <-> h !! a = Some (cell d par c x (ptr t1) (ptr t2)) /\ rep h a t1 /\ rep h a t2.
Proof. destruct d; cbn; [done|]. unfold cell. tauto. Qed.
Lemma ptr_nd d c t1 a x t2 : ptr (nd d c t1 a x t2) = a.
Proof. by destruct d. Qed.
Lemma rep_plug h K : forall t, rep h 0 (plug K t) <-> repk h K (ptr t) /\ rep h (up K) t.
Proof. induction K as [|f K IH]; intros t; cbn [plug repk up]; [tauto|]. rewrite IH. unfold fill. rewrite rep_nd, ptr_nd. tauto. Qed.
Lemma rep_ext h h' t : forall par, (forall a, a ∈ addrs t -> h' !! a = h !! a) -> rep h par t -> rep h' par t.
Proof.
  induction t as [|c l IHl a x r IHr]; intros par H; cbn; [done|]. intros (E & Hl & Hr). unfold addrs in H. cbn in H. rewrite fmap_app in H. cbn in H. rewrite H by set_solver. split; [done|]. split; [apply IHl|apply IHr]; try done; intros b Hb; apply H; unfold addrs in Hb; set_solver.
Qed.
Lemma repk_ext h h' K : forall p, (forall a, a ∈ kaddrs K -> h' !! a = h !! a) -> repk h K p -> repk h' K p.
Proof.
  induction K as [|f K IH]; intros p H; cbn; [done|]. intros (E & Hs & HK). cbn in H. rewrite H by set_solver. split; [done|]. split; [apply (rep_ext h); [set_solver|done]|]. apply IH; [|done]. intros a Ha. apply H. set_solver.
Qed.

(** The addresses of a subtree in a context. *)
Lemma holds_disjoint s K t : holds s (plug K t) -> NoDup (kaddrs K ++ addrs t) /\ Forall addr (kaddrs K) /\ Forall addr (addrs t).
Proof. intros [_ _ Hn Ha]. rewrite addrs_plug in Hn, Ha. apply Forall_app in Ha. tauto. Qed.
Lemma up_addr K : Forall addr (kaddrs K) -> (4 | up K).
Proof. destruct K as [|f K]; cbn; [exists 0; lia|]. intros H. apply Forall_cons in H as [[_ ?] _]. done. Qed.
Lemma ptr_in t : t <> Leaf -> ptr t ∈ addrs t.
Proof. destruct t; [done|]. intros _. unfold addrs. cbn. rewrite fmap_app. cbn. set_solver. Qed.
Lemma ptr_zero t : Forall addr (addrs t) -> ptr t = 0 <-> t = Leaf.
Proof.
  intros H. split; [|by intros ->]. destruct t as [|c l a x r]; [done|]. intros E. pose proof (ptr_in (Node c l a x r) ltac:(done)) as Hin. rewrite E in Hin. rewrite Forall_forall in H. destruct (H 0 Hin). lia.
Qed.

(** Changing what is in a context. *)
Lemma holds_local s s' K t t' : holds s (plug K t) -> root s' = ptr (plug K t') -> (forall a, a ∈ kaddrs K -> nodes s' !! a = nodes s !! a) -> ptr t' = ptr t -> rep (nodes s') (up K) t' -> NoDup (addrs t') -> addrs t' ⊆ addrs t -> holds s' (plug K t').
Proof.
  intros H Hr Hk Hp Ht Hn Hs. pose proof (holds_disjoint s K t H) as (D & F1 & F2). destruct H as [_ Hrep _ _]. apply rep_plug in Hrep as [Hrk _]. constructor; [done| | |].
  - apply rep_plug. split; [|done]. rewrite Hp. by apply (repk_ext (nodes s)).
  - rewrite addrs_plug. apply NoDup_app in D as (D1 & D2 & D3). apply NoDup_app. split; [done|]. split; [|done]. intros a Ha Ha'. apply (D2 a Ha). by apply Hs.
  - rewrite addrs_plug. apply Forall_app. split; [done|]. rewrite Forall_forall in *. intros a Ha. by apply F2, Hs.
Qed.

(** ** Reading *)

Lemma get_at s K d c t1 a x t2 : holds s (plug K (nd d c t1 a x t2)) -> get s a = Ret (cell d (up K) c x (ptr t1) (ptr t2)).
Proof. intros H. apply h_rep, rep_plug in H as [_ H]. apply rep_nd in H as (E & _). unfold get. by rewrite E. Qed.
Lemma cell_child d par c x p1 p2 : child d (cell d par c x p1 p2) = p1.
Proof. by destruct d. Qed.
Lemma cell_other d par c x p1 p2 : child (opp d) (cell d par c x p1 p2) = p2.
Proof. by destruct d. Qed.
Lemma cell_pc d par c x p1 p2 : pc (cell d par c x p1 p2) = word par c.
Proof. by destruct d. Qed.
Lemma cell_flip d par c x p1 p2 : cell (opp d) par c x p1 p2 = cell d par c x p2 p1.
Proof. by destruct d. Qed.
Lemma nd_flip d c t1 a x t2 : nd (opp d) c t1 a x t2 = nd d c t2 a x t1.
Proof. by destruct d. Qed.

Lemma child_at s K d c t1 a x t2 : holds s (plug K (nd d c t1 a x t2)) -> child_of d s a = Ret (ptr t1) /\ child_of (opp d) s a = Ret (ptr t2).
Proof. intros H. unfold child_of. rewrite (get_at s K d c t1 a x t2 H), !ret_bind, cell_child, cell_other. done. Qed.
Lemma parent_at s K d c t1 a x t2 : holds s (plug K (nd d c t1 a x t2)) -> parent_of s a = Ret (up K).
Proof. intros H. unfold parent_of. rewrite (get_at s K d c t1 a x t2 H), ret_bind. unfold rb_parent. destruct (holds_disjoint s _ _ H) as (_ & F & _). by rewrite cell_pc, word_parent by by apply up_addr. Qed.
Lemma color_at s K d c t1 a x t2 : holds s (plug K (nd d c t1 a x t2)) -> color_of s a = Ret (Z.b2z c).
Proof. intros H. unfold color_of. rewrite (get_at s K d c t1 a x t2 H), ret_bind. unfold rb_color. destruct (holds_disjoint s _ _ H) as (_ & F & _). by rewrite cell_pc, word_color by by apply up_addr. Qed.

Definition black (t : tree) : bool := match t with Leaf => true | Node c _ _ _ _ => c end.
Lemma black_ok s K t : holds s (plug K t) -> black_at s (ptr t) = Ret (black t) /\ red_at s (ptr t) = Ret (negb (black t)).
Proof.
  intros H. destruct (holds_disjoint s _ _ H) as (_ & F1 & F2). unfold black_at, red_at. destruct t as [|c l a x r]; [done|]. destruct (ptr (Node c l a x r) =? 0) eqn:E; reify_bools; [by apply ptr_zero in E|]. cbn [ptr]. rewrite (get_at s K L c l a x r H), !ret_bind.
  unfold rb_is_black, rb_is_red, rb_color, nz. rewrite cell_pc, word_color by by apply up_addr. by destruct c.
Qed.

(** ** Steps *)

(** The tree of [s] becomes that of [s'], with the same elements. *)
Record evolves (s : rbtree P V) (T : tree) (s' : rbtree P V) (T' : tree) : Prop := mk_evolves {
  e_holds : holds s' T';
  e_elems : elems T' = elems T;
  e_out : forall a, a ∉ addrs T -> nodes s' !! a = nodes s !! a }.
Lemma evolves_refl s T : holds s T -> evolves s T s T.
Proof. done. Qed.
Lemma evolves_trans s1 T1 s2 T2 s3 T3 : evolves s1 T1 s2 T2 -> evolves s2 T2 s3 T3 -> evolves s1 T1 s3 T3.
Proof. intros [A1 A2 A3] [B1 B2 B3]. constructor; [done|congruence|]. intros a Ha. rewrite B3, A3; [done|done|]. unfold addrs. by rewrite A2. Qed.

(** A new cell at the root of a subtree, with the same links. *)
Lemma rewrite_cell s K d c c' t1 a x x' t2 : holds s (plug K (nd d c t1 a x t2)) -> fst x' = fst x ->
  evolves s (plug K (nd d c t1 a x t2)) (put a (cell d (up K) c' x' (ptr t1) (ptr t2)) s) (plug K (nd d c' t1 a x' t2)).
Proof.
  intros H Hx. destruct (holds_disjoint s _ _ H) as (D & F1 & F2). assert (Ea : addrs (nd d c' t1 a x' t2) = addrs (nd d c t1 a x t2)) by (unfold addrs; destruct d; cbn; by rewrite Hx). pose proof D as (_ & Dk & Dt)%NoDup_app. pose proof Dt as Dt'. rewrite addrs_nd in Dt'. apply NoDup_cons in Dt' as [Da _].
  assert (Hin : a ∈ addrs (nd d c t1 a x t2)) by (rewrite addrs_nd; left). constructor.
  - apply (holds_local s _ K (nd d c t1 a x t2)); [done| | | | | |].
    + cbn [root put]. rewrite (h_root _ _ H). apply ptr_plug. right. by rewrite !ptr_nd.
    + intros b Hb. cbn [nodes put]. rewrite lookup_insert_ne; [done|]. intros <-. by apply (Dk a).
    + by rewrite !ptr_nd.
    + apply h_rep, rep_plug in H as [_ H]. apply rep_nd in H as (_ & H1 & H2). apply rep_nd. cbn [nodes put]. rewrite lookup_insert_eq. split; [done|]. split; (eapply rep_ext; [|done]); intros b Hb; rewrite lookup_insert_ne; try done; intros <-; apply Da; set_solver.
    + by rewrite Ea.
    + by rewrite Ea.
  - apply elems_plug. destruct d; cbn; by rewrite Hx.
  - intros b Hb. cbn [nodes put]. rewrite lookup_insert_ne; [done|]. intros <-. apply Hb. rewrite addrs_plug. set_solver.
Qed.

Lemma recolor_ok s K d c c' t1 a x t2 : holds s (plug K (nd d c t1 a x t2)) -> exists s', rb_set_color a (Z.b2z c') s = Ret s' /\ evolves s (plug K (nd d c t1 a x t2)) s' (plug K (nd d c' t1 a x t2)).
Proof.
  intros H. eexists. split; [|by apply (rewrite_cell s K d c c' t1 a x x t2 H)]. destruct (holds_disjoint s _ _ H) as (_ & F & _). unfold rb_set_color, update. rewrite (get_at _ _ _ _ _ _ _ _ H), ret_bind. rewrite cell_pc, word_recolor by by apply up_addr. by destruct d.
Qed.

(** ** Augmentation *)

Definition sum (t : tree) : option V := match t with Leaf => None | Node _ _ _ x _ => Some (snd x) end.
Fixpoint augmented (f : callback P V) (t : tree) : Prop := match t with Leaf => True | Node _ l _ x r => snd x = f (fst x) (sum l) (sum r) /\ augmented f l /\ augmented f r end.
Definition aug (cb : option (callback P V)) (t : tree) : Prop := match cb with None => True | Some f => augmented f t end.

Lemma augmented_nd f d c t1 a x t2 : augmented f (nd d c t1 a x t2) <-> snd x = match d with L => f (fst x) (sum t1) (sum t2) | R => f (fst x) (sum t2) (sum t1) end /\ augmented f t1 /\ augmented f t2.
Proof. destruct d; cbn; tauto. Qed.
Lemma sum_nd d c t1 a x t2 : sum (nd d c t1 a x t2) = Some (snd x).
Proof. by destruct d. Qed.
Lemma aug_plug cb K : forall t t', sum t' = sum t -> (aug cb t -> aug cb t') -> aug cb (plug K t) -> aug cb (plug K t').
Proof.
  destruct cb as [f|]; [|done]. cbn [aug]. induction K as [|g K IH]; intros t t' Hs Ha; cbn [plug]; [done|]. apply IH; unfold fill; [by rewrite !sum_nd|]. rewrite !augmented_nd, Hs. tauto.
Qed.

Lemma summary_ok s K t : holds s (plug K t) -> summary_at s (ptr t) = Ret (sum t).
Proof.
  intros H. destruct (holds_disjoint s _ _ H) as (_ & _ & F). unfold summary_at. destruct t as [|c l a x r]; [done|]. destruct (ptr (Node c l a x r) =? 0) eqn:E; reify_bools; [by apply ptr_zero in E|]. cbn [ptr]. by rewrite (get_at s K L c l a x r H), ret_bind.
Qed.
Definition summed (d : dir) (f : callback P V) (t1 : tree) (x : P * V) (t2 : tree) : P * V := (fst x, match d with L => f (fst x) (sum t1) (sum t2) | R => f (fst x) (sum t2) (sum t1) end).
Lemma run_cb_ok s K f d c t1 a x t2 : holds s (plug K (nd d c t1 a x t2)) -> exists s', run_cb f a s = Ret s' /\ evolves s (plug K (nd d c t1 a x t2)) s' (plug K (nd d c t1 a (summed d f t1 x t2) t2)).
Proof.
  intros H. eexists. split; [|by apply (rewrite_cell s K d c c t1 a x (summed d f t1 x t2) t2 H)]. unfold run_cb. rewrite (get_at _ _ _ _ _ _ _ _ H), ret_bind.
  pose proof (summary_ok s (Frm d c a x t2 :: K) t1 H) as E1. assert (H2 : holds s (plug (Frm (opp d) c a x t1 :: K) t2)) by (cbn [plug]; unfold fill; cbn [fd fc fa fx fs]; rewrite nd_flip; exact H).
  pose proof (summary_ok s _ t2 H2) as E2. destruct d; cbn [cell left right payload]; [rewrite E1, ret_bind, E2, ret_bind|rewrite E2, ret_bind, E1, ret_bind]; done.
Qed.

(** ** Relinking *)

Lemma reparent_ok h par q t s : nodes s = h -> rep h par t -> NoDup (addrs t) -> Forall addr (addrs t) -> (4 | par) -> (4 | q) ->
  exists s', unless_null (ptr t) (rb_set_parent (ptr t) q) s = Ret s' /\ root s' = root s /\ rep (nodes s') q t /\ (forall a, a ∉ addrs t -> nodes s' !! a = nodes s !! a).
Proof.
  intros <- H Hn Ha Hp Hq. unfold unless_null. destruct t as [|c l a x r]; [exists s; done|]. destruct (ptr (Node c l a x r) =? 0) eqn:E; reify_bools; [by apply ptr_zero in E|]. cbn [ptr]. pose proof (addrs_nd L c l a x r) as Pa. cbn [nd] in Pa. rewrite Pa in Hn. apply NoDup_cons in Hn as [Hna _].
  destruct H as (E0 & H1 & H2). unfold rb_set_parent, update, get. rewrite E0. cbn [deref]. rewrite ret_bind. eexists. split; [done|]. split; [done|]. split; [|intros b Hb; cbn [nodes put]; rewrite lookup_insert_ne; [done|]; intros <-; apply Hb; rewrite Pa; left].
  cbn [nodes put]. unfold rb_color. rewrite cell_pc, word_color, word_make by done. split; [by rewrite lookup_insert_eq|]. split; (eapply rep_ext; [|done]); intros b Hb; rewrite lookup_insert_ne; try done; intros <-; apply Hna; set_solver.
Qed.

Lemma replace_child_ok s d K a q : repk (nodes s) K a -> Forall addr (kaddrs K) -> a <> 0 -> a ∉ kaddrs K -> NoDup (kaddrs K) ->
  exists s', replace_child d (up K) a q s = Ret s' /\ root s' = (match K with [] => q | _ => root s end) /\ repk (nodes s') K q /\ (forall b, b ∉ kaddrs K -> nodes s' !! b = nodes s !! b).
Proof.
  intros H Ha Ha0 Hna Hn. unfold replace_child. destruct K as [|f K]; cbn [up]; [exists (set_root q s); done|]. cbn in H, Hna, Hn, Ha. destruct H as (E & Hs & HK). apply Forall_cons in Ha as [[Hf _] Ha]. apply NoDup_cons in Hn as [Hnf Hn]. rewrite (proj2 (Z.eqb_neq _ 0)) by lia.
  apply not_elem_of_cons in Hna as [Hfa Hna]. assert (Hptr : ptr (fs f) <> a) by (intros Eq; destruct (fs f) as [|c l b x r] eqn:Ef; [done|]; cbn in Eq; subst b; apply Hna; rewrite <- Ef; apply elem_of_app; left; pose proof (ptr_in (fs f)) as Hin; rewrite Ef in *; by apply Hin).
  set (x' := cell (fd f) (up K) (fc f) (fx f) q (ptr (fs f))). assert (Hfin : forall s', s' = put (fa f) x' s -> root s' = root s /\ repk (nodes s') (f :: K) q /\ forall b, b ∉ kaddrs (f :: K) -> nodes s' !! b = nodes s !! b).
  { intros s' ->. split; [done|]. cbn [repk nodes put]. split; [|intros b Hb; rewrite lookup_insert_ne; [done|]; intros <-; apply Hb; left]. rewrite lookup_insert_eq. split; [done|]. split; [eapply rep_ext; [|done]|eapply repk_ext; [|done]]; intros b Hb; rewrite lookup_insert_ne; try done; intros <-; apply Hnf; set_solver. }
  unfold child_of, set_child, update, get. rewrite E. cbn [deref]. rewrite !ret_bind. eexists. split; [|apply Hfin; reflexivity]. unfold x'. destruct d, (fd f); cbn [cell child opp left right with_child]; try (rewrite Z.eqb_refl; done); rewrite (proj2 (Z.eqb_neq _ _)) by done; done.
Qed.

(** ** Rotation *)

Lemma with_child_cell d par c x p1 p2 q : with_child d q (cell d par c x p1 p2) = cell d par c x q p2 /\ with_child (opp d) q (cell d par c x p1 p2) = cell d par c x p1 q.
Proof. by destruct d. Qed.
Lemma set_pc_cell d par par' c c' x p1 p2 : set_pc (word par' c') (cell d par c x p1 p2) = cell d par' c' x p1 p2.
Proof. by destruct d. Qed.
Lemma rotated_elems d c t1 a x c' t2 b y t3 x' y' : fst x' = fst x -> fst y' = fst y -> elems (nd d c' (nd d c t1 a x' t2) b y' t3) = elems (nd d c t1 a x (nd d c' t2 b y t3)).
Proof. intros E1 E2. destruct d; cbn; rewrite E1, E2; rewrite <- ?(assoc_L (++)); cbn; by rewrite <- ?(assoc_L (++)). Qed.

Lemma child_get (s : rbtree P V) d a x : nodes s !! a = Some x -> child_of d s a = Ret (child d x).
Proof. intros E. unfold child_of, get. by rewrite E. Qed.
Lemma update_get (s : rbtree P V) a f x : nodes s !! a = Some x -> update a f s = Ret (put a (f x) s).
Proof. intros E. unfold update, get. by rewrite E. Qed.
Lemma set_parent_get (s : rbtree P V) a q d par c x p1 p2 : nodes s !! a = Some (cell d par c x p1 p2) -> (4 | par) -> (4 | q) -> rb_set_parent a q s = Ret (put a (cell d q c x p1 p2) s).
Proof. intros E H1 H2. unfold rb_set_parent. rewrite (update_get _ _ _ _ E). unfold rb_color. by rewrite cell_pc, word_color, word_make, set_pc_cell. Qed.

Lemma rotate_links s d K c t1 a x c' t2 b y t3 : holds s (plug K (nd d c t1 a x (nd d c' t2 b y t3))) -> exists s', rb_rotate d None a s = Ret s' /\
  evolves s (plug K (nd d c t1 a x (nd d c' t2 b y t3))) s' (plug K (nd d c' (nd d c t1 a x t2) b y t3)).
Proof.
  intros H. destruct (holds_disjoint s _ _ H) as (D & F1 & F2). pose proof D as (Dk & Dkt & Dt)%NoDup_app. pose proof (rotated_elems d c t1 a x c' t2 b y t3 x y eq_refl eq_refl) as Eel.
  assert (Pa : addrs (nd d c t1 a x (nd d c' t2 b y t3)) ≡ₚ a :: b :: addrs t1 ++ addrs t2 ++ addrs t3) by (rewrite !addrs_nd; cbn; rewrite <- Permutation_middle; done). rewrite Pa in Dt, F2. setoid_rewrite Pa in Dkt.
  apply NoDup_cons in Dt as [Na Dt], Dt as [Nb Dt]. apply NoDup_app in Dt as (D1 & D12 & Dt), Dt as (D2 & D23 & D3). apply Forall_cons in F2 as [[Ha0 Ha] F2], F2 as [[Hb0 Hb] F2]. apply Forall_app in F2 as [G1 F2], F2 as [G2 G3].
  pose proof (h_rep _ _ H) as Hrep. apply rep_plug in Hrep as [HK Ht]. rewrite ptr_nd in HK. apply rep_nd in Ht as (Ea & R1 & Ht). rewrite ptr_nd in Ea. apply rep_nd in Ht as (Eb & R2 & R3). pose proof (up_addr K F1) as Hup. assert (Hab : a <> b) by set_solver.
  unfold rb_rotate. rewrite (proj2 (child_at _ _ _ _ _ _ _ _ H)), ptr_nd, ret_bind, (parent_at _ _ _ _ _ _ _ _ H), ret_bind. rewrite (child_get s d b _ Eb), ret_bind, cell_child.
  rewrite (update_get _ _ (with_child (opp d) (ptr t2)) _ Ea : set_child (opp d) a (ptr t2) s = _), ret_bind, (proj2 (with_child_cell _ _ _ _ _ _ _)). set (s1 := put a _ s). assert (Eb1 : nodes s1 !! b = nodes s !! b) by (cbn [s1 nodes put]; by rewrite lookup_insert_ne).
  rewrite (child_get s1 d b _ (eq_trans Eb1 Eb)), ret_bind, cell_child.
  destruct (reparent_ok (nodes s1) b a t2 s1 eq_refl) as (s2 & -> & Q2 & R2' & O2); [apply (rep_ext (nodes s)); [|done]; intros z Hz; cbn [s1 nodes put]; rewrite lookup_insert_ne; [done|]; intros <-; apply Na; set_solver|done|done|done|done|]. rewrite ret_bind.
  assert (Eb2 : nodes s2 !! b = Some (cell d a c' y (ptr t2) (ptr t3))) by (rewrite O2, Eb1 by set_solver; done). rewrite (update_get _ _ (with_child d a) _ Eb2 : set_child d b a s2 = _), ret_bind, (proj1 (with_child_cell _ _ _ _ _ _ _)). set (s3 := put b _ s2).
  rewrite (set_parent_get s3 b (up K) d a c' y a (ptr t3)), ret_bind by (done || apply lookup_insert_eq). set (s4 := put b _ s3).
  assert (O4 : forall z, z <> b -> z <> a -> z ∉ addrs t2 -> nodes s4 !! z = nodes s !! z) by (intros z Z1 Z2 Z3; cbn [s4 s3 nodes put]; rewrite !lookup_insert_ne by done; rewrite O2 by done; cbn [s1 nodes put]; by rewrite lookup_insert_ne).
  assert (HK4 : repk (nodes s4) K a) by (apply (repk_ext (nodes s)); [|done]; intros z Hz; pose proof (Dkt z Hz); apply O4; set_solver).
  destruct (replace_child_ok s4 d K a b HK4 F1) as (s5 & -> & Q5 & HK5 & O5); [lia|intros Hin; apply (Dkt a Hin); left|done|]. rewrite ret_bind.
  assert (Hin : forall z, z ∈ a :: b :: addrs t1 ++ addrs t2 ++ addrs t3 -> nodes s5 !! z = nodes s4 !! z).
  { intros z Hz. apply O5. intros Hz'. by apply (Dkt z). }
  assert (Ea5 : nodes s5 !! a = Some (cell d (up K) c x (ptr t1) (ptr t2))) by (rewrite Hin by left; cbn [s4 s3 nodes put]; rewrite !lookup_insert_ne by done; rewrite O2 by set_solver; apply lookup_insert_eq).
  assert (Eb5 : nodes s5 !! b = Some (cell d (up K) c' y a (ptr t3))) by (rewrite Hin by (right; left); apply lookup_insert_eq).
  rewrite (set_parent_get s5 a b d _ c x _ _ Ea5), ret_bind by done. cbn [augment]. rewrite ret_bind. eexists. split; [done|]. constructor.
  - assert (Enew : addrs (plug K (nd d c' (nd d c t1 a x t2) b y t3)) = addrs (plug K (nd d c t1 a x (nd d c' t2 b y t3)))) by (unfold addrs; by rewrite (elems_plug K _ _ Eel)).
    constructor; [| |rewrite Enew; apply (h_nodup _ _ H)|rewrite Enew; apply (h_addr _ _ H)].
    + cbn [root put]. rewrite Q5. destruct K as [|f K]; [cbn; by rewrite ptr_nd|]. change (root s4) with (root s2). rewrite Q2. change (root s1) with (root s). rewrite (h_root _ _ H). apply ptr_plug. by left.
    + apply rep_plug. rewrite ptr_nd. cbn [nodes put]. split; [apply (repk_ext (nodes s5)); [|done]; intros z Hz; rewrite lookup_insert_ne; [done|]; intros <-; apply (Dkt a Hz); left|].
      assert (Rr : forall par t, (forall z, z ∈ addrs t -> z <> a /\ z <> b /\ z ∈ addrs t1 ++ addrs t2 ++ addrs t3) -> rep (nodes s2) par t -> rep (<[a := cell d b c x (ptr t1) (ptr t2)]> (nodes s5)) par t).
      { intros par t Hz. apply rep_ext. intros z Hz'. destruct (Hz z Hz') as (Z1 & Z2 & Z3). rewrite lookup_insert_ne by done. rewrite Hin by (rewrite !elem_of_cons; auto). cbn [s4 s3 nodes put]. by rewrite !lookup_insert_ne. }
      rewrite !not_elem_of_cons, !not_elem_of_app in Na. rewrite !not_elem_of_app in Nb. destruct Na as (_ & Na1 & Na2 & Na3), Nb as (Nb1 & Nb2 & Nb3). assert (Hz3 : forall t, a ∉ addrs t -> b ∉ addrs t -> (forall z, z ∈ addrs t -> z ∈ addrs t1 ++ addrs t2 ++ addrs t3) -> forall z, z ∈ addrs t -> z <> a /\ z <> b /\ z ∈ addrs t1 ++ addrs t2 ++ addrs t3) by (intros t Ta Tb Ts z Hz; split; [by intros ->|]; split; [by intros ->|auto]).
      assert (Rs : forall par t, (forall z, z ∈ addrs t -> z <> a /\ z ∉ addrs t2) -> rep (nodes s) par t -> rep (nodes s2) par t).
      { intros par t Hz. apply rep_ext. intros z Hz'. destruct (Hz z Hz') as (Z1 & Z2). rewrite O2 by done. cbn [s1 nodes put]. by rewrite lookup_insert_ne. }
      rewrite !rep_nd, ptr_nd. rewrite lookup_insert_ne by done. rewrite lookup_insert_eq. split; [done|]. split; [split; [done|split]|].
      * apply Rr; [apply Hz3; try done; intros z Hz; rewrite !elem_of_app; auto|]. apply Rs; [|done]. intros z Hz. split; [by intros ->|]. intros Hz'. apply (D12 z Hz). apply elem_of_app. auto.
      * apply Rr; [apply Hz3; try done; intros z Hz; rewrite !elem_of_app; auto|done].
      * apply Rr; [apply Hz3; try done; intros z Hz; rewrite !elem_of_app; auto|]. apply Rs; [|done]. intros z Hz. split; [by intros ->|]. intros Hz'. by apply (D23 z Hz').
  - by apply elems_plug.
  - intros z Hz. rewrite addrs_plug, Pa in Hz. cbn [nodes put]. rewrite !not_elem_of_app, !not_elem_of_cons, !not_elem_of_app in Hz. destruct Hz as (Hz1 & Hz2 & Hz3 & _ & Hz4 & _). rewrite lookup_insert_ne by done. rewrite O5; [by apply O4|done].
Qed.

(** A callback that does not depend on the shape of the tree. *)
Definition associative (cb : option (callback P V)) : Prop := match cb with None => True | Some f => forall p q u v w, f q (Some (f p u v)) w = f p u (Some (f q v w)) end.

Lemma rotate_augment d cb a (s : rbtree P V) : rb_rotate d cb a s = (up ← child_of (opp d) s a; s ← rb_rotate d None a s; s ← augment cb a s; augment cb up s).
Proof.
  unfold rb_rotate. cbn [augment]. do 11 (lazymatch goal with |- (?m ≫= _) = _ => destruct m; [rewrite !ret_bind|reflexivity..] end). reflexivity.
Qed.

Lemma rotate_ok s K d cb c t1 a x c' t2 b y t3 : holds s (plug K (nd d c t1 a x (nd d c' t2 b y t3))) -> associative cb -> exists s' x' y', rb_rotate d cb a s = Ret s' /\
  evolves s (plug K (nd d c t1 a x (nd d c' t2 b y t3))) s' (plug K (nd d c' (nd d c t1 a x' t2) b y' t3)) /\
  (aug cb (plug K (nd d c t1 a x (nd d c' t2 b y t3))) -> aug cb (plug K (nd d c' (nd d c t1 a x' t2) b y' t3))).
Proof.
  intros H Ha. destruct (rotate_links s d K c t1 a x c' t2 b y t3 H) as (s1 & E1 & V1). rewrite rotate_augment, (proj2 (child_at _ _ _ _ _ _ _ _ H)), ptr_nd, ret_bind, E1, ret_bind. destruct cb as [f|]; [|by exists s1, x, y]. cbn [augment].
  pose proof (e_holds _ _ _ _ V1) as H1. destruct (run_cb_ok s1 (Frm d c' b y t3 :: K) f d c t1 a x t2 H1) as (s2 & -> & V2). rewrite ret_bind. set (x' := summed d f t1 x t2) in *. pose proof (e_holds _ _ _ _ V2) as H2.
  destruct (run_cb_ok s2 K f d c' (nd d c t1 a x' t2) b y t3 H2) as (s3 & -> & V3). set (y' := summed d f (nd d c t1 a x' t2) y t3) in *. exists s3, x', y'. split; [done|]. split; [by eapply evolves_trans; [exact V1|]; eapply evolves_trans; [exact V2|exact V3]|].
  assert (Ey : augmented f (nd d c t1 a x (nd d c' t2 b y t3)) -> snd y' = snd x) by (rewrite !augmented_nd, sum_nd; intros (-> & _ & -> & _); unfold y', x', summed; rewrite sum_nd; cbn [snd fst]; destruct d; by rewrite Ha).
  intros Haug. assert (Hin : augmented f (nd d c t1 a x (nd d c' t2 b y t3))).
  { revert Haug. cbn [aug]. generalize (nd d c t1 a x (nd d c' t2 b y t3)) as t. clear. induction K as [|g K IH]; intros t; cbn [plug]; [done|]. intros Hg%IH. unfold fill in Hg. apply augmented_nd in Hg. tauto. }
  revert Haug. apply aug_plug; [rewrite !sum_nd, (Ey Hin); done|]. cbn [aug]. intros _. rewrite !augmented_nd in Hin. rewrite !augmented_nd. unfold y', x', summed. cbn [fst snd]. tauto.
Qed.

(** Recomputing the summaries from a node up to the root. *)
Fixpoint resum (f : callback P V) (K : list frm) (v : option V) : list frm :=
  match K with
  | [] => []
  | g :: K => let w := match fd g with L => f (fst (fx g)) v (sum (fs g)) | R => f (fst (fx g)) (sum (fs g)) v end in Frm (fd g) (fc g) (fa g) (fst (fx g), w) (fs g) :: resum f K (Some w)
  end.
Lemma resum_shape f K : forall v, up (resum f K v) = up K /\ kaddrs (resum f K v) = kaddrs K /\ length (resum f K v) = length K.
Proof. induction K as [|g K IH]; intros v; cbn; [done|]. destruct (IH (Some (match fd g with L => f (fst (fx g)) v (sum (fs g)) | R => f (fst (fx g)) (sum (fs g)) v end))) as (_ & -> & ->). done. Qed.

Lemma propagate_up f K : forall fuel s t, holds s (plug K t) -> (length K < fuel)%nat -> exists s', propagate_loop fuel f (up K) s = Ret s' /\ evolves s (plug K t) s' (plug (resum f K (sum t)) t).
Proof.
  induction K as [|g K IH]; intros fuel s t H Hf; (destruct fuel as [|fuel]; [cbn in Hf; lia|]); cbn [propagate_loop up]; [exists s; split; [done|by apply evolves_refl]|]. destruct (holds_disjoint _ _ _ H) as (_ & F & _). cbn in F. apply Forall_cons in F as [[Hg _] _].
  rewrite (proj2 (Z.eqb_neq _ 0)) by lia. cbn [plug] in H. unfold fill in H. destruct (run_cb_ok s K f (fd g) (fc g) t (fa g) (fx g) (fs g) H) as (s1 & -> & V1). rewrite ret_bind. pose proof (e_holds _ _ _ _ V1) as H1. rewrite (parent_at _ _ _ _ _ _ _ _ H1), ret_bind.
  destruct (IH fuel s1 _ H1) as (s2 & -> & V2); [cbn in Hf; lia|]. exists s2. split; [done|]. eapply evolves_trans; [exact V1|]. rewrite sum_nd in V2. exact V2.
Qed.
Lemma propagate_aug f K : forall t, augmented f t -> Forall (fun g => augmented f (fs g)) K -> augmented f (plug (resum f K (sum t)) t).
Proof.
  induction K as [|g K IH]; intros t Ht HK; cbn [resum plug]; [done|]. apply Forall_cons in HK as [Hg HK]. set (w := match fd g with L => _ | R => _ end). set (g' := Frm (fd g) (fc g) (fa g) (fst (fx g), w) (fs g)).
  replace (Some w) with (sum (fill g' t)) by (unfold fill; by rewrite sum_nd). apply IH; [|done]. unfold fill. apply augmented_nd. cbn [g' fd fx fs fst snd]. unfold w. destruct (fd g); done.
Qed.
Lemma aug_parts f K : forall t, augmented f (plug K t) -> augmented f t /\ Forall (fun g => augmented f (fs g)) K.
Proof. induction K as [|g K IH]; intros t; cbn [plug]; [done|]. intros H%IH. destruct H as [H HK]. unfold fill in H. apply augmented_nd in H as (_ & H1 & H2). split; [done|]. by apply Forall_cons. Qed.

(** There are fewer nodes above a subtree than in the heap. *)
Lemma context_size s K t : holds s (plug K t) -> (length K + length (addrs t) <= size (nodes s))%nat.
Proof.
  intros H. pose proof (h_nodup _ _ H) as Hn. assert (Hs : (length (addrs (plug K t)) <= size (nodes s))%nat).
  { rewrite <- size_dom. rewrite <- (size_list_to_set (C := gset Z) _ Hn). apply subseteq_size. intros a Ha%elem_of_list_to_set. pose proof (h_rep _ _ H) as Hr. clear H Hn. revert Ha Hr. generalize 0 (plug K t). intros par T. revert par.
    induction T as [|c l IHl b x r IHr]; intros par; unfold addrs; cbn; [intros []%elem_of_nil|]. rewrite fmap_app. intros [Ha|[->|Ha]%elem_of_cons]%elem_of_app (E & Hl & Hr); [by apply (IHl b)|apply elem_of_dom; by eexists|by apply (IHr b)]. }
  rewrite addrs_plug, length_app in Hs. assert (length K <= length (kaddrs K))%nat; [|lia]. clear. induction K as [|g K IH]; cbn; [lia|]. rewrite length_app. lia.
Qed.

(** The same context up to summaries. *)
Definition resummed (g g' : frm) : Prop := fd g' = fd g /\ fc g' = fc g /\ fa g' = fa g /\ fs g' = fs g /\ fst (fx g') = fst (fx g).
Lemma propagate_ok s K cb t : holds s (plug K t) -> exists s' K', rb_augment_propagate cb (up K) s = Ret s' /\ evolves s (plug K t) s' (plug K' t) /\ Forall2 resummed K K' /\
  (aug cb t -> Forall (fun g => aug cb (fs g)) K -> aug cb (plug K' t)).
Proof.
  intros H. unfold rb_augment_propagate. destruct cb as [f|]; [|exists s, K; split; [done|]; split; [by apply evolves_refl|]; split; [|done]; clear; induction K; constructor; done].
  pose proof (context_size s K t H) as Hc. destruct (propagate_up f K (fuel_of s) s t H) as (s' & -> & V'); [unfold fuel_of; lia|]. exists s', (resum f K (sum t)). split; [done|]. split; [done|]. split; [|by apply propagate_aug].
  clear. generalize (sum t) as v. induction K as [|g K IH]; intros v; cbn [resum]; constructor; [done|apply IH].
Qed.
Lemma resummed_up K K' : Forall2 resummed K K' -> up K' = up K /\ length K' = length K.
Proof. intros H. split; [|symmetry; by eapply Forall2_length]. destruct H as [|g g' K K' Hg _]; [done|]. cbn. apply Hg. Qed.

End Rep.
End RbRep.
