(* ===== verification/RbInsert.v ===== *)
(** RbInsert: the red-black invariant, and that inserting a node keeps it. *)

From S2P Require Import Prelude RbTree RbRep.
From stdpp Require Import list_relations.
#[local] Open Scope Z_scope.

Module RbInsert.
Import RbTree RbRep.

Section Insert.
Context {P V : Type}.
Notation tree := (@tree P V).
Notation frm := (@frm P V).

(** ** The invariant *)

(** Every path to a leaf has [n] black nodes, and a red node has black children. *)
Fixpoint rb (t : tree) (n : nat) : Prop :=
  match t with
  | Leaf => n = 0%nat
  | Node true l _ _ r => match n with O => False | S m => rb l m /\ rb r m end
  | Node false l _ _ r => black l = true /\ black r = true /\ rb l n /\ rb r n
  end.
(** A context whose hole wants a subtree of black height [n]; a red node has a black
    parent, so the root is black. *)
Definition black_top (K : list frm) : bool := match K with [] => false | g :: _ => fc g end.
Fixpoint fits (K : list frm) (n : nat) : Prop :=
  match K with
  | [] => True
  | g :: K => rb (fs g) n /\ if fc g then fits K (S n) else black (fs g) = true /\ black_top K = true /\ fits K n
  end.

Lemma rb_nd d c t1 a x t2 n : rb (nd d c t1 a x t2) n <-> if c then (match n with O => False | S m => rb t1 m /\ rb t2 m end) else black t1 = true /\ black t2 = true /\ rb t1 n /\ rb t2 n.
Proof. destruct d, c; cbn; [done|done|destruct n; tauto|tauto]. Qed.
Lemma black_nd d c t1 a x t2 : black (nd d c t1 a x t2 : tree) = c.
Proof. by destruct d. Qed.
Lemma node_nd d c (l : tree) a x r : exists t1 t2, Node c l a x r = nd d c t1 a x t2.
Proof. destruct d; [by exists l, r|by exists r, l]. Qed.

Lemma plug_rb K : forall n t, fits K n -> rb t n -> black t = true \/ K = [] \/ black_top K = true -> exists N, rb (plug K t) N.
Proof.
  induction K as [|g K IH]; intros n t HK Ht Hb; cbn [plug]; [by exists n|]. cbn in HK, Hb. destruct HK as [Hs HK]. unfold fill. destruct (fc g) eqn:Ec.
  - apply (IH (S n)); [done|by apply rb_nd|left; apply black_nd].
  - destruct HK as (Hbs & Htop & HK). apply (IH n); [done| |by right; right]. apply rb_nd. destruct Hb as [?|[?|?]]; done.
Qed.
Lemma black_plug K : forall n t, fits K n -> K <> [] -> black (plug K t) = true.
Proof.
  induction K as [|g K IH]; intros n t HK Hne; [done|]. cbn [fits] in HK. cbn [plug]. destruct HK as [_ HK]. destruct K as [|g' K]; [|destruct (fc g); [by apply (IH (S n))|apply (IH n); [tauto|done]]]. cbn [plug]. unfold fill. rewrite black_nd. destruct (fc g); [done|]. by destruct HK as (_ & ? & _).
Qed.
Lemma unplug_rb K : forall t N, rb (plug K t) N -> black (plug K t) = true -> exists n, fits K n /\ rb t n /\ (black t = true \/ black_top K = true).
Proof.
  induction K as [|g K IH]; intros t N HT Hb; cbn [plug] in *; [exists N; split; [done|]; split; [done|by left]|]. destruct (IH (fill g t) N HT Hb) as (n & HK & Ht & Hor). unfold fill in Ht, Hor. rewrite black_nd in Hor. apply rb_nd in Ht. cbn [fits black_top]. destruct (fc g).
  - destruct n as [|m]; [done|]. exists m. destruct Ht. split; [done|]. split; [done|by right].
  - exists n. destruct Ht as (? & ? & ? & ?). destruct Hor as [?|Htop]; [done|]. split; [done|]. split; [done|]. by left.
Qed.
Lemma fits_resummed K K' : Forall2 resummed K K' -> forall n, fits K n -> fits K' n.
Proof.
  induction 1 as [|g g' K K' (E1 & E2 & E3 & E4 & E5) HKK IH]; intros n; [done|]. cbn. rewrite E2, E4. intros [Hs HK]. split; [done|]. destruct (fc g); [by apply IH|]. destruct HK as (? & Ht & ?). split; [done|]. split; [|by apply IH].
  destruct HKK as [|h h' ? ? (_ & Eh & _)]; [done|]. cbn in *. congruence.
Qed.

(** ** Steps that keep the summaries *)

Definition advances (cb : option (callback P V)) (s : rbtree P V) (T : tree) (s' : rbtree P V) (T' : tree) : Prop := evolves s T s' T' /\ (aug cb T -> aug cb T').
Lemma advances_trans cb s1 T1 s2 T2 s3 T3 : advances cb s1 T1 s2 T2 -> advances cb s2 T2 s3 T3 -> advances cb s1 T1 s3 T3.
Proof. intros [A1 A2] [B1 B2]. split; [by eapply evolves_trans|auto]. Qed.
Lemma recolor_adv cb s K d c c' t1 a x t2 : holds s (plug K (nd d c t1 a x t2)) -> exists s', rb_set_color a (Z.b2z c') s = Ret s' /\ advances cb s (plug K (nd d c t1 a x t2)) s' (plug K (nd d c' t1 a x t2)).
Proof.
  intros H. destruct (recolor_ok s K d c c' t1 a x t2 H) as (s' & E & V'). exists s'. split; [done|]. split; [done|]. apply aug_plug; [by rewrite !sum_nd|]. destruct cb as [f|]; [|done]. cbn [aug]. by rewrite !augmented_nd.
Qed.
Lemma rotate_adv s K d cb c t1 a x c' t2 b y t3 : holds s (plug K (nd d c t1 a x (nd d c' t2 b y t3))) -> associative cb -> exists s' x' y', rb_rotate d cb a s = Ret s' /\
  advances cb s (plug K (nd d c t1 a x (nd d c' t2 b y t3))) s' (plug K (nd d c' (nd d c t1 a x' t2) b y' t3)).
Proof. intros H Ha. destruct (rotate_ok s K d cb c t1 a x c' t2 b y t3 H Ha) as (s' & x' & y' & E & V' & A'). by exists s', x', y'. Qed.

(** The side of a frame as the code finds it. *)
Lemma side_ok s (g : frm) K (t : tree) : holds s (plug K (fill g t)) -> t <> Leaf -> exists l, child_of L s (fa g) = Ret l /\ (if ptr t =? l then L else R) = fd g /\ (if l =? ptr t then L else R) = fd g.
Proof.
  intros H Ht. pose proof (child_at s K (fd g) (fc g) t (fa g) (fx g) (fs g) H) as [E1 E2]. destruct (holds_disjoint s (g :: K) t H) as (D & _ & F). destruct (fd g) eqn:Ed; cbn [opp] in *.
  - exists (ptr t). by rewrite Z.eqb_refl.
  - exists (ptr (fs g)). split; [done|]. assert (Hne : ptr t <> ptr (fs g)).
    { intros Eq. apply NoDup_app in D as (_ & D & _). destruct (fs g) as [|c l a x r] eqn:El; [by apply (ptr_zero t F) in Eq|]. apply (D (ptr t)); [|by apply ptr_in]. rewrite Eq, <- El. cbn. right. apply elem_of_app. left. apply ptr_in. by rewrite El. }
    rewrite !(proj2 (Z.eqb_neq _ _)) by congruence. done.
Qed.

(** ** Rebalancing *)

(** The last recolouring and rotation, with a red node under a red parent on the same
    side. *)
Lemma insert_outer s K d cb t1 b y t2 g x u : holds s (plug K (nd d true (nd d false t1 b y t2) g x u)) -> associative cb -> exists s' x' y',
  (s ← rb_set_color b RB_BLACK s; s ← rb_set_color g RB_RED s; rb_rotate (opp d) cb g s) = Ret s' /\
  advances cb s (plug K (nd d true (nd d false t1 b y t2) g x u)) s' (plug K (nd (opp d) true (nd (opp d) false u g x' t2) b y' t1)).
Proof.
  intros H Ha. destruct (recolor_adv cb s (Frm d true g x u :: K) d false true t1 b y t2 H) as (s1 & E1 & A1). change RB_BLACK with (Z.b2z true). rewrite E1, ret_bind.
  destruct (recolor_adv cb s1 K d true false (nd d true t1 b y t2) g x u) as (s2 & E2 & A2); [apply (e_holds _ _ _ _ (proj1 A1))|]. change RB_RED with (Z.b2z false). rewrite E2, ret_bind.
  assert (Eq : nd d false (nd d true t1 b y t2) g x u = nd (opp d) false u g x (nd (opp d) true t2 b y t1)) by by rewrite !nd_flip. pose proof (e_holds _ _ _ _ (proj1 A2)) as H2. rewrite Eq in H2, A2.
  destruct (rotate_adv s2 K (opp d) cb false u g x true t2 b y t1 H2 Ha) as (s3 & x' & y' & E3 & A3). exists s3, x', y'. split; [done|]. eapply advances_trans; [exact A1|]. eapply advances_trans; [exact A2|exact A3].
Qed.

(** One iteration under a red parent and a black grandparent: two levels up, or the
    end. *)
Lemma insert_side_ok s K cb g g2 n l a x r : holds s (plug K (fill g2 (fill g (Node false l a x r)))) -> associative cb -> fc g = false -> fc g2 = true -> rb (Node false l a x r) n -> rb (fs g) n -> black (fs g) = true -> rb (fs g2) n ->
  exists node parent s' t', insert_side (fd g2) cb a (fa g) (fa g2) s = Ret (node, parent, s') /\ advances cb s (plug K (fill g2 (fill g (Node false l a x r)))) s' (plug K t') /\ rb t' (S n) /\
    ((node = ptr t' /\ parent = up K /\ black t' = false) \/ (black t' = true /\ red_at s' parent = Ret false)).
Proof.
  intros H Ha Hg Hg2 Ht Hs Hsb Hu. set (t := Node false l a x r) in *. destruct g as [d' c' p px ps], g2 as [d c2 q qx u]. cbn [fd fc fa fx fs] in *. subst c' c2. unfold fill in *. cbn [fd fc fa fx fs] in *.
  unfold insert_side. rewrite (proj2 (child_at s K d true _ q qx u H)), ret_bind. assert (Hu' : holds s (plug (Frm (opp d) true q qx (nd d' false t p px ps) :: K) u)) by (cbn [plug]; unfold fill; cbn [fd fc fa fx fs]; rewrite nd_flip; exact H).
  rewrite (proj2 (black_ok s _ u Hu')), ret_bind. destruct (black u) eqn:Eu; cbn [negb].
  - (* rotations *)
    assert (Hp : holds s (plug (Frm d true q qx u :: K) (nd d' false t p px ps))) by exact H. destruct (holds_disjoint s (Frm d' false p px ps :: Frm d true q qx u :: K) t H) as (D & _ & F). cbn [rb t] in Ht. destruct Ht as (Hbl & Hbr & Hl & Hr).
    assert (Hdone : forall s1 t1 b y t2 node, advances cb s (plug K (nd d true (nd d' false t p px ps) q qx u)) s1 (plug K (nd d true (nd d false t1 b y t2) q qx u)) -> rb t1 n -> rb t2 n -> black t2 = true ->
      exists node' parent s' t', (s ← rb_set_color b RB_BLACK s1; s ← rb_set_color q RB_RED s; s ← rb_rotate (opp d) cb q s; Ret (node, b, s)) = Ret (node', parent, s') /\
        advances cb s (plug K (nd d true (nd d' false t p px ps) q qx u)) s' (plug K t') /\ rb t' (S n) /\ ((node' = ptr t' /\ parent = up K /\ black t' = false) \/ (black t' = true /\ red_at s' parent = Ret false))).
    { intros s1 t1 b y t2 node A1 R1 R2 B2. destruct (insert_outer s1 K d cb t1 b y t2 q qx u (e_holds _ _ _ _ (proj1 A1)) Ha) as (s2 & qx' & y' & E2 & A2). set (t' := nd (opp d) true (nd (opp d) false u q qx' t2) b y' t1) in *. exists node, b, s2, t'.
      split. { revert E2. destruct (rb_set_color b RB_BLACK s1) as [s3| | |]; cbn; try done. destruct (rb_set_color q RB_RED s3) as [s4| | |]; cbn; try done. by intros ->. }
      split; [by eapply advances_trans|]. split; [apply rb_nd; split; [apply rb_nd; done|done]|]. right. split; [apply black_nd|]. replace b with (ptr t') by (unfold t'; by rewrite ptr_nd).
      rewrite (proj2 (black_ok s2 K t' (e_holds _ _ _ _ (proj1 A2)))). unfold t'. by rewrite black_nd. }
    destruct (decide (d' = d)) as [->|Hd].
    + rewrite (proj2 (child_at s _ d false t p px ps Hp)), ret_bind. assert (Hne : ptr ps <> a).
      { intros Eq. apply NoDup_app in D as (_ & D & _). destruct ps as [|c0 l0 a0 x0 r0]; [symmetry in Eq; apply (ptr_zero t F) in Eq; done|]. apply (D a); [|apply (ptr_in t); done]. cbn [kaddrs fa fs]. right. apply elem_of_app. left. rewrite <- Eq. by apply ptr_in. }
      rewrite (proj2 (Z.eqb_neq _ _) Hne), ret_bind. apply (Hdone s t p px ps a); [by split; [apply evolves_refl|]|done|done|done].
    + assert (d' = opp d) as -> by (destruct d, d'; done). rewrite nd_flip in Hp. rewrite (proj2 (child_at s _ d false ps p px t Hp)), ret_bind. rewrite Z.eqb_refl. destruct (node_nd d false l a x r) as (ta & tb & Et). fold t in Et. rewrite Et in Hp.
      destruct (rotate_adv s (Frm d true q qx u :: K) d cb false ps p px false ta a x tb Hp Ha) as (s1 & px' & x' & E1 & A1). rewrite E1, ret_bind. assert (Hab : black ta = true /\ black tb = true /\ rb ta n /\ rb tb n) by (assert (R0 : rb t n) by (cbn; done); rewrite Et in R0; by apply rb_nd in R0).
      apply (Hdone s1 (nd d false ps p px' ta) a x' tb p); [|apply rb_nd; tauto|tauto|tauto]. rewrite Et, nd_flip. exact A1.
  - (* recolouring *)
    destruct u as [|[] ul ua ux ur]; [done..|]. destruct (recolor_adv cb s _ L false true ul ua ux ur Hu') as (s1 & E1 & A1). change RB_BLACK with (Z.b2z true). cbn [ptr]. rewrite E1, ret_bind. set (u' := nd L true ul ua ux ur) in *.
    assert (H1 : holds s1 (plug (Frm d true q qx u' :: K) (nd d' false t p px ps))) by (pose proof (e_holds _ _ _ _ (proj1 A1)) as H1; cbn [plug] in *; unfold fill in *; cbn [fd fc fa fx fs] in *; rewrite nd_flip in H1; exact H1).
    destruct (recolor_adv cb s1 _ d' false true t p px ps H1) as (s2 & E2 & A2). rewrite E2, ret_bind. destruct (recolor_adv cb s2 K d true false (nd d' true t p px ps) q qx u') as (s3 & E3 & A3); [apply (e_holds _ _ _ _ (proj1 A2))|]. change RB_RED with (Z.b2z false). rewrite E3, ret_bind.
    rewrite (parent_at s3 K d false _ q qx u' (e_holds _ _ _ _ (proj1 A3))), ret_bind. eexists _, _, s3, (nd d false (nd d' true t p px ps) q qx u'). split; [done|]. split.
    { eapply advances_trans; [|eapply advances_trans; [exact A2|exact A3]]. cbn [plug] in A1. unfold fill in A1. cbn [fd fc fa fx fs] in A1. rewrite !nd_flip in A1. exact A1. }
    split; [|left; rewrite ptr_nd, black_nd; done]. apply rb_nd. rewrite black_nd. split; [done|]. split; [done|]. split; [apply rb_nd; done|]. cbn in Hu. unfold u'. cbn. tauto.
Qed.

Lemma insert_loop_ok cb : associative cb -> forall fuel K s n l a x r, holds s (plug K (Node false l a x r)) -> rb (Node false l a x r) n -> fits K n -> (length K < fuel)%nat ->
  exists s' T' N, insert_loop fuel cb a (up K) s = Ret s' /\ advances cb s (plug K (Node false l a x r)) s' T' /\ rb T' N.
Proof.
  intros Ha. induction fuel as [|fuel IH]; intros K s n l a x r H Ht HK Hf; [lia|]. cbn [insert_loop]. set (t := Node false l a x r) in *. assert (Hrefl : advances cb s (plug K t) s (plug K t)) by (split; [by apply evolves_refl|done]).
  destruct K as [|g K]; [exists s, t, n; done|]. cbn [up]. pose proof (black_ok s K (fill g t) H) as [_ Er]. unfold fill in Er. rewrite ptr_nd, black_nd in Er. rewrite Er, ret_bind. destruct (fc g) eqn:Eg; cbn [negb].
  { destruct (plug_rb (g :: K) n t HK Ht) as [N HN]; [right; right; by cbn|]. exists s, (plug (g :: K) t), N. done. }
  cbn in HK. rewrite Eg in HK. destruct HK as (Hs & Hsb & Htop & HK). destruct K as [|g2 K]; [done|]. cbn [black_top] in Htop. cbn [fits] in HK. rewrite Htop in HK. destruct HK as [Hs2 HK].
  rewrite (parent_at s (g2 :: K) (fd g) (fc g) t (fa g) (fx g) (fs g) H), ret_bind. cbn [up]. destruct (holds_disjoint s _ _ H) as (_ & F & _). cbn in F. apply Forall_cons in F as [_ F]. apply Forall_app in F as [_ F]. apply Forall_cons in F as [[Hg0 _] _].
  rewrite (proj2 (Z.eqb_neq _ 0)) by lia. assert (Hne : fill g t <> Leaf) by (unfold fill; by destruct (fd g)). destruct (side_ok s g2 K (fill g t) H Hne) as (lc & -> & Eside & _). assert (Efa : ptr (fill g t) = fa g) by (unfold fill; apply ptr_nd). rewrite Efa in Eside. rewrite ret_bind, Eside.
  destruct (insert_side_ok s K cb g g2 n l a x r H Ha Eg Htop Ht Hs Hsb Hs2) as (node & parent & s1 & t' & -> & A1 & Rt & Hend). rewrite ret_bind. destruct Hend as [(-> & -> & Hb)|(Hb & Hr)].
  - destruct t' as [|[] l' a' x' r']; try done. cbn [ptr]. destruct (IH K s1 (S n) l' a' x' r' (e_holds _ _ _ _ (proj1 A1)) Rt HK) as (s2 & T2 & N & -> & A2 & R2); [cbn in Hf; lia|]. exists s2, T2, N. split; [done|]. split; [by eapply advances_trans|done].
  - destruct fuel as [|fuel]; [cbn in Hf; lia|]. cbn [insert_loop]. rewrite Hr, ret_bind. destruct (plug_rb K (S n) t' HK Rt) as [N HN]; [by left|]. by exists s1, (plug K t'), N.
Qed.

(** ** A node in the tree *)

Definition rb_ok (T : tree) : Prop := black T = true /\ exists N, rb T N.
Lemma blacken_root cb s T N : holds s T -> T <> Leaf -> rb T N -> exists s' T', rb_set_color (root s) RB_BLACK s = Ret s' /\ advances cb s T s' T' /\ rb_ok T'.
Proof.
  intros H Ht HR. destruct T as [|c l a x r]; [done|]. rewrite (h_root _ _ H). cbn [ptr]. change RB_BLACK with (Z.b2z true). destruct (recolor_adv cb s [] L c true l a x r H) as (s' & -> & A). exists s', (Node true l a x r). split; [done|]. split; [done|]. split; [done|].
  destruct c; [by exists N|]. exists (S N). cbn in *. tauto.
Qed.

Fixpoint kleft (K : list frm) : list (Z * P) := match K with [] => [] | g :: K => kleft K ++ match fd g with L => [] | R => elems (fs g) ++ [(fa g, fst (fx g))] end end.
Fixpoint kright (K : list frm) : list (Z * P) := match K with [] => [] | g :: K => (match fd g with L => (fa g, fst (fx g)) :: elems (fs g) | R => [] end) ++ kright K end.
Lemma elems_context K : forall t, elems (plug K t) = kleft K ++ elems t ++ kright K.
Proof. induction K as [|g K IH]; intros t; cbn [plug kleft kright]; [by rewrite app_nil_r|]. rewrite IH. unfold fill. destruct (fd g); cbn; rewrite <- ?(assoc_L (++)); cbn; rewrite <- ?(assoc_L (++)); done. Qed.

Definition place_of (K : list frm) : place := match K with [] => At_root | g :: _ => Under (fa g) (fd g) end.
Lemma link_node_ok s K a x : holds s (plug K Leaf) -> nodes s !! a = Some x -> addr a -> a ∉ addrs (plug K (Leaf : tree)) ->
  exists s', rb_link_node a (up K) (place_of K) s = Ret s' /\ holds s' (plug K (Node false Leaf a (payload x, summary x) Leaf)) /\ (forall b, b <> a -> b ∉ addrs (plug K (Leaf : tree)) -> nodes s' !! b = nodes s !! b).
Proof.
  intros H Ex Ha Hna. destruct (holds_disjoint s _ _ H) as (D & F & _). rewrite app_nil_r in D. rewrite addrs_plug, app_nil_r in Hna. set (t := Node false Leaf a (payload x, summary x) Leaf : tree). unfold rb_link_node. rewrite (update_get _ _ _ _ Ex), ret_bind.
  set (s1 := put a _ s). pose proof (h_rep _ _ H) as Hr. apply rep_plug in Hr as [Hk _].
  assert (Hk1 : repk (nodes s1) K 0) by (apply (repk_ext (nodes s)); [|done]; intros b Hb; cbn [s1 nodes put]; rewrite lookup_insert_ne; [done|by intros <-]).
  assert (Hfin : forall s', root s' = ptr (plug K t) -> repk (nodes s') K a -> nodes s' !! a = nodes s1 !! a -> holds s' (plug K t)).
  { intros s' Q1 Q2 Q3. constructor; [done| | |].
    - apply rep_plug. split; [done|]. cbn [t rep]. split; [|done]. rewrite Q3. cbn [s1 nodes put]. rewrite lookup_insert_eq. unfold cell, word. cbn. by rewrite Z.add_0_r.
    - rewrite addrs_plug. apply NoDup_app. split; [done|]. split; [|apply NoDup_singleton]. intros b Hb ->%list_elem_of_singleton. done.
    - rewrite addrs_plug. apply Forall_app. split; [done|]. by apply Forall_singleton. }
  destruct K as [|g K]; cbn [place_of up].
  - eexists. split; [done|]. split; [by apply Hfin|]. intros b Hb _. cbn [set_root s1 nodes put]. by rewrite lookup_insert_ne.
  - cbn [repk] in Hk1. destruct Hk1 as (E1 & R1 & K1). unfold set_child. rewrite (update_get _ _ _ _ E1), (proj1 (with_child_cell _ _ _ _ _ _ _)). cbn [kaddrs] in D, Hna. apply NoDup_cons in D as [Dg D]. apply not_elem_of_cons in Hna as [Hga Hna].
    eexists. split; [done|]. split.
    + apply Hfin.
      * transitivity (root s); [done|]. rewrite (h_root _ _ H). apply ptr_plug. by left.
      * cbn [repk nodes put]. rewrite lookup_insert_eq. split; [done|]. split; [eapply rep_ext; [|done]|eapply repk_ext; [|done]]; intros b Hb; rewrite lookup_insert_ne; try done; intros <-; apply Dg; apply elem_of_app; auto.
      * cbn [nodes put]. by rewrite lookup_insert_ne.
    + intros b Hb Hb'. rewrite addrs_plug, app_nil_r in Hb'. cbn [kaddrs] in Hb'. apply not_elem_of_cons in Hb' as [Hb1 _]. cbn [nodes put s1]. by rewrite !lookup_insert_ne by done.
Qed.

Lemma aug_frames cb K (t : tree) : aug cb (plug K t) -> Forall (fun g => aug cb (fs g)) K.
Proof. destruct cb as [f|]; cbn [aug]; [intros H; by apply (aug_parts f K t)|]. intros _. clear. induction K; constructor; done. Qed.

(** Linking a node at a leaf and rebalancing. *)
Lemma insert_ok cb s K a x : associative cb -> holds s (plug K Leaf) -> rb_ok (plug K Leaf) -> aug cb (plug K Leaf) -> nodes s !! a = Some x -> addr a -> a ∉ addrs (plug K (Leaf : tree)) ->
  exists s1 s' T', rb_link_node a (up K) (place_of K) s = Ret s1 /\ rb_insert_augmented cb a s1 = Ret s' /\ holds s' T' /\ rb_ok T' /\ aug cb T' /\ elems T' = kleft K ++ (a, payload x) :: kright K /\
    (forall b, b <> a -> b ∉ addrs (plug K (Leaf : tree)) -> nodes s' !! b = nodes s !! b).
Proof.
  intros Hcb H [Hb [N HN]] HA Ex Ha Hna. destruct (link_node_ok s K a x H Ex Ha Hna) as (s1 & E1 & H1 & O1). exists s1. set (t := Node false Leaf a (payload x, summary x) Leaf : tree) in *. destruct (unplug_rb K Leaf N HN Hb) as (n & HK & Hn & _). cbn in Hn. subst n.
  unfold rb_insert_augmented. rewrite (parent_at s1 K L false Leaf a (payload x, summary x) Leaf H1), ret_bind.
  destruct (propagate_ok s1 (Frm L false a (payload x, summary x) Leaf :: K) cb Leaf H1) as (s2 & K2 & E2 & V2 & F2 & A2). cbn [up fa] in E2. rewrite E2, ret_bind. inversion F2 as [|g0 g0' K0 K' (Q1 & Q2 & Q3 & Q4 & Q5) FK]; subst. destruct g0' as [d0 c0 a0 x0 t0]. cbn [fd fc fa fs fx] in *. subst d0 c0 a0 t0. cbn [plug] in V2. unfold fill in V2. cbn [fd fc fa fs fx nd] in V2.
  destruct (resummed_up K K' FK) as [EK El]. rewrite <- EK. pose proof (context_size _ _ _ (e_holds _ _ _ _ V2)) as Hc.
  destruct (insert_loop_ok cb Hcb (fuel_of s2) K' s2 0 Leaf a x0 Leaf (e_holds _ _ _ _ V2)) as (s3 & T3 & N3 & -> & A3 & R3); [done|by apply (fits_resummed K)|unfold fuel_of; lia|]. rewrite ret_bind.
  assert (Hel : elems T3 = kleft K ++ (a, payload x) :: kright K) by (rewrite (e_elems _ _ _ _ (proj1 A3)), (e_elems _ _ _ _ V2), elems_context; done).
  destruct (blacken_root cb s3 T3 N3 (e_holds _ _ _ _ (proj1 A3))) as (s4 & T4 & -> & A4 & R4); [intros ->; cbn in Hel; by destruct (kleft K)|done|]. exists s4, T4. split; [by rewrite EK|]. split; [done|]. split; [apply (e_holds _ _ _ _ (proj1 A4))|]. split; [done|].
  split; [|split; [by rewrite (e_elems _ _ _ _ (proj1 A4))|]].
  - apply A4, A3. cbn [plug] in A2. unfold fill in A2. cbn [fd fc fa fs fx nd] in A2. apply A2; [by destruct cb|]. apply Forall_cons. split; [by destruct cb|]. by apply (aug_frames cb K Leaf).
  - intros b Hb1 Hb2. pose proof (advances_trans _ _ _ _ _ _ _ A3 A4) as [V4 _]. rewrite (e_out _ _ _ _ (evolves_trans _ _ _ _ _ _ V2 V4)); [by apply O1|]. rewrite addrs_plug. rewrite addrs_plug, app_nil_r in Hb2. intros [?|Hin]%elem_of_app; [done|]. by apply list_elem_of_singleton in Hin.
Qed.

End Insert.
End RbInsert.
