(* ===== verification/RbErase.v ===== *)
(** RbErase: removing a node keeps the red-black invariant and the summaries. *)

From S2P Require Import Prelude RbTree RbRep RbInsert.
From stdpp Require Import list_relations.
#[local] Open Scope Z_scope.

Module RbErase.
Import RbTree RbRep RbInsert.

Section Erase.
Context {P V : Type}.
Notation tree := (@tree P V).
Notation frm := (@frm P V).

(** ** Rebalancing *)

Definition paint (t : tree) : tree := match t with Leaf => Leaf | Node _ l a x r => Node true l a x r end.
(** A subtree that is one black node short, or a red one that becomes right when it is
    painted black. *)
Definition pending (K : list frm) (t : tree) : Prop := exists n, fits K (S n) /\ ((black t = true /\ rb t n) \/ (black t = false /\ rb (paint t) (S n))).

Lemma paint_nd d c t1 a x t2 : paint (nd d c t1 a x t2) = nd d true t1 a x t2.
Proof. by destruct d. Qed.
Lemma tree_nd d (t : tree) : t <> Leaf -> exists c t1 a x t2, t = nd d c t1 a x t2.
Proof. destruct t as [|c l a x r]; [done|]. intros _. destruct (node_nd d c l a x r) as (t1 & t2 & ->). by eexists _, _, _, _, _. Qed.

Lemma plug_flip d K c (t : tree) p px t0 : plug K (nd d c t p px t0) = plug (Frm (opp d) c p px t :: K) t0.
Proof. by destruct d. Qed.

(** The sibling is black and its far child red: one rotation ends it. *)
Lemma erase_last s K d cb c t p px near o ox far : holds s (plug K (nd d c t p px (nd d true near o ox far))) -> associative cb -> black far = false -> exists s' px' ox',
  (s ← unless_null o (fun s => c ← color_of s p; s ← rb_set_color o c s; far ← child_of (opp d) s o; unless_null far (rb_set_color far RB_BLACK) s) s; s ← rb_set_color p RB_BLACK s; rb_rotate d cb p s) = Ret s' /\
  advances cb s (plug K (nd d c t p px (nd d true near o ox far))) s' (plug K (nd d c (nd d true t p px' near) o ox' (paint far))).
Proof.
  intros H Ha Hf. destruct far as [|[] fl fa0 fx0 fr]; try done. set (far := Node false fl fa0 fx0 fr) in *. assert (Hk : forall c0 t0, plug K (nd d c0 t p px t0) = plug (Frm (opp d) c0 p px t :: K) t0) by (intros; apply plug_flip).
  assert (Ho : o <> 0 /\ ptr far <> 0). { destruct (holds_disjoint s _ _ H) as (_ & _ & F). rewrite addrs_nd in F. apply Forall_cons in F as [_ F]. apply Forall_app in F as [_ F]. rewrite addrs_nd in F. apply Forall_cons in F as [[? _] F]. apply Forall_app in F as [_ F]. split; [lia|]. by rewrite (ptr_zero far F). }
  destruct Ho as [Ho Hfar]. unfold unless_null at 1. rewrite (proj2 (Z.eqb_neq o 0)) by done. rewrite (color_at s K d c _ _ _ _ H), ret_bind. rewrite Hk in H. destruct (recolor_adv cb s _ d true c near o ox far H) as (s1 & -> & A1). rewrite ret_bind. pose proof (e_holds _ _ _ _ (proj1 A1)) as H1.
  rewrite (proj2 (child_at _ _ _ _ _ _ _ _ H1)), ret_bind. unfold unless_null. rewrite (proj2 (Z.eqb_neq (ptr far) 0)) by done.
  assert (Hk2 : forall t0, plug (Frm (opp d) c p px t :: K) (nd d c near o ox t0) = plug (Frm (opp d) c o ox near :: Frm (opp d) c p px t :: K) t0) by (intros; apply plug_flip). rewrite Hk2 in H1.
  destruct (recolor_adv cb s1 _ L false true fl fa0 fx0 fr H1) as (s2 & E2 & A2). cbn [ptr far]. change RB_BLACK with (Z.b2z true). rewrite E2, ret_bind. pose proof (e_holds _ _ _ _ (proj1 A2)) as H2. change (nd L true fl fa0 fx0 fr) with (paint far) in *. rewrite <- Hk2, <- Hk in H2.
  destruct (recolor_adv cb s2 K d c true t p px _ H2) as (s3 & -> & A3). rewrite ret_bind. destruct (rotate_adv s3 K d cb true t p px c near o ox (paint far) (e_holds _ _ _ _ (proj1 A3)) Ha) as (s4 & px' & ox' & E4 & A4). exists s4, px', ox'. split; [done|].
  rewrite Hk. eapply advances_trans; [exact A1|]. rewrite Hk2. change (plug (Frm (opp d) c o ox near :: Frm (opp d) c p px t :: K) (nd L false fl fa0 fx0 fr)) with (plug (Frm (opp d) c o ox near :: Frm (opp d) c p px t :: K) far) in A2. eapply advances_trans; [exact A2|]. rewrite <- Hk2, <- Hk. eapply advances_trans; [exact A3|exact A4].
Qed.

(** The sibling is black, its near child red and the far one black. *)
Lemma erase_inner s K d cb c (t : tree) p px na near1 nx near2 o ox far : holds s (plug K (nd d c t p px (nd d true (nd d false near1 na nx near2) o ox far))) -> associative cb -> exists s' nx' ox',
  (s ← unless_null na (rb_set_color na RB_BLACK) s; s ← rb_set_color o RB_RED s; rb_rotate (opp d) cb o s) = Ret s' /\
  advances cb s (plug K (nd d c t p px (nd d true (nd d false near1 na nx near2) o ox far))) s' (plug K (nd d c t p px (nd d true near1 na nx' (nd d false near2 o ox' far)))).
Proof.
  intros H Ha. assert (Hk : forall t0, plug K (nd d c t p px t0) = plug (Frm (opp d) c p px t :: K) t0) by (intros; apply plug_flip). rewrite Hk in *.
  assert (Hna : na <> 0). { destruct (holds_disjoint s _ _ H) as (_ & _ & F). rewrite addrs_nd in F. apply Forall_cons in F as [_ F]. apply Forall_app in F as [F _]. rewrite addrs_nd in F. apply Forall_cons in F as [[? _] _]. lia. }
  unfold unless_null. rewrite (proj2 (Z.eqb_neq na 0)) by done. change RB_BLACK with (Z.b2z true). destruct (recolor_adv cb s (Frm d true o ox far :: Frm (opp d) c p px t :: K) d false true near1 na nx near2 H) as (s1 & -> & A1). rewrite ret_bind. change RB_RED with (Z.b2z false).
  destruct (recolor_adv cb s1 (Frm (opp d) c p px t :: K) d true false (nd d true near1 na nx near2) o ox far (e_holds _ _ _ _ (proj1 A1))) as (s2 & -> & A2). rewrite ret_bind.
  assert (Eq : nd d false (nd d true near1 na nx near2) o ox far = nd (opp d) false far o ox (nd (opp d) true near2 na nx near1)) by by rewrite !nd_flip. pose proof (e_holds _ _ _ _ (proj1 A2)) as H2. rewrite Eq in H2.
  destruct (rotate_adv s2 _ (opp d) cb false far o ox true near2 na nx near1 H2 Ha) as (s3 & ox' & nx' & E3 & A3). exists s3, nx', ox'. split; [done|]. rewrite Hk. eapply advances_trans; [exact A1|]. eapply advances_trans; [exact A2|]. rewrite Eq. rewrite !nd_flip in A3. rewrite !nd_flip. exact A3.
Qed.

Lemma not_leaf t n : rb (t : tree) (S n) -> t <> Leaf.
Proof. by intros H ->. Qed.
Lemma nonzero s K d c (t1 : tree) a x t2 : holds s (plug K (nd d c t1 a x t2)) -> a <> 0.
Proof. intros H. destruct (holds_disjoint s _ _ H) as (_ & _ & F). rewrite addrs_nd in F. apply Forall_cons in F as [[? _] _]. lia. Qed.

(** What is above a node of colour [c] whose subtrees have black height [n]. *)
Definition above (K : list frm) (c : bool) (n : nat) : Prop := if c then fits K (S n) else black_top K = true /\ fits K n.
Lemma above_rb K c n d t1 a x t2 : above K c n -> rb t1 n -> rb t2 n -> black t1 = true -> black t2 = true -> rb_ok (plug K (nd d c t1 a x t2)).
Proof.
  intros Hab R1 R2 B1 B2. unfold above in Hab. split.
  - destruct K as [|g K]; [cbn; rewrite black_nd; destruct c; [done|by destruct Hab]|]. destruct c; [by apply (black_plug _ (S n))|apply (black_plug _ n); [tauto|done]].
  - destruct c; [apply (plug_rb K (S n)); [done|by apply rb_nd|left; apply black_nd]|]. destruct Hab. apply (plug_rb K n); [done|by apply rb_nd|auto].
Qed.

Lemma erase_rest_ok s K d cb c t p px sib n : holds s (plug K (nd d c t p px sib)) -> associative cb -> black sib = true -> rb sib (S n) -> black t = true -> rb t n -> above K c (S n) ->
  exists more node parent s' K' t', erase_rest d cb p (ptr sib) s = Ret (more, node, parent, s') /\ advances cb s (plug K (nd d c t p px sib)) s' (plug K' t') /\ node = ptr t' /\
    (more = true -> parent = up K' /\ K' = K /\ pending K t' /\ black t' = c) /\ (more = false -> K' = [] /\ rb_ok t').
Proof.
  intros H Ha Hsb Hs Ht Rt Hab. destruct (tree_nd d sib (not_leaf _ _ Hs)) as (c0 & near & o & ox & far & ->). rewrite black_nd in Hsb. subst c0. apply rb_nd in Hs as [Rn Rf]. pose proof H as Hsib. rewrite plug_flip in Hsib. set (Ks := Frm (opp d) c p px t :: K) in *.
  unfold erase_rest. rewrite ptr_nd, (proj2 (Z.eqb_neq o 0)) by by apply (nonzero _ _ _ _ _ _ _ _ Hsib). destruct (child_at _ _ _ _ _ _ _ _ Hsib) as [-> ->]. rewrite !ret_bind. rewrite (proj1 (black_ok s (Frm d true o ox far :: Ks) near Hsib)), ret_bind.
  assert (Hfar : holds s (plug (Frm (opp d) true o ox near :: Ks) far)) by (rewrite <- plug_flip; exact Hsib). rewrite (proj1 (black_ok s _ far Hfar)), ret_bind.
  (* the last rotation *)
  assert (Hlast : forall s1 near1 o1 ox1 far1, advances cb s (plug K (nd d c t p px (nd d true near o ox far))) s1 (plug K (nd d c t p px (nd d true near1 o1 ox1 far1))) -> black far1 = false -> rb near1 n -> rb far1 n ->
    exists more node parent s' K' t', (s ← unless_null o1 (fun s => c ← color_of s p; s ← rb_set_color o1 c s; far ← child_of (opp d) s o1; unless_null far (rb_set_color far RB_BLACK) s) s1;
        s ← rb_set_color p RB_BLACK s; s ← rb_rotate d cb p s; Ret (false, root s, p, s)) = Ret (more, node, parent, s') /\
      advances cb s (plug K (nd d c t p px (nd d true near o ox far))) s' (plug K' t') /\ node = ptr t' /\ (more = true -> parent = up K' /\ K' = K /\ pending K t' /\ black t' = c) /\ (more = false -> K' = [] /\ rb_ok t')).
  { intros s1 near1 o1 ox1 far1 A1 B1 R1 R2. destruct (erase_last s1 K d cb c t p px near1 o1 ox1 far1 (e_holds _ _ _ _ (proj1 A1)) Ha B1) as (s2 & px' & ox' & E2 & A2). exists false, (root s2), p, s2, [], (plug K (nd d c (nd d true t p px' near1) o1 ox' (paint far1))).
    split; [revert E2; destruct (unless_null o1 _ s1) as [s3| | |]; cbn; try done; destruct (rb_set_color p RB_BLACK s3); cbn; try done; by intros ->|]. split; [by eapply advances_trans|]. split; [apply (h_root _ _ (e_holds _ _ _ _ (proj1 A2)))|]. split; [done|]. intros _. split; [done|].
    apply (above_rb K c (S n)); [done|by apply rb_nd| |apply black_nd|]; destruct far1 as [|[] ? ? ? ?]; try done. cbn in *. tauto. }
  destruct (black near) eqn:Bn, (black far) eqn:Bf; cbn [andb].
  - change RB_RED with (Z.b2z false). destruct (recolor_adv cb s Ks d true false near o ox far Hsib) as (s1 & -> & A1). rewrite ret_bind. unfold Ks in A1. rewrite <- !plug_flip in A1. rewrite (parent_at s1 K d c t p px _ (e_holds _ _ _ _ (proj1 A1))), ret_bind.
    exists true, p, (up K), s1, K, (nd d c t p px (nd d false near o ox far)). split; [done|]. split; [done|]. split; [by rewrite ptr_nd|]. split; [|done]. intros _. split; [done|]. split; [done|]. split; [|apply black_nd]. assert (Ro : rb (nd d false near o ox far) n) by by apply rb_nd. unfold above in Hab. destruct c.
    + exists (S n). split; [done|]. left. rewrite black_nd. split; [done|]. by apply rb_nd.
    + exists n. split; [tauto|]. right. rewrite black_nd, paint_nd. split; [done|]. by apply rb_nd.
  - rewrite ret_bind. apply (Hlast s near o ox far); [by split; [apply evolves_refl|]|done|done|done].
  - destruct near as [|[] nl na nx nr]; try done. destruct (node_nd d false nl na nx nr) as (near1 & near2 & En). cbn [ptr]. rewrite En in *. apply rb_nd in Rn as (Bn1 & Bn2 & Rn1 & Rn2). destruct (erase_inner s K d cb c t p px na near1 nx near2 o ox far H Ha) as (s1 & nx' & ox' & E1 & A1).
    assert (Hc : child_of (opp d) s1 p = Ret na) by (rewrite (proj2 (child_at _ _ _ _ _ _ _ _ (e_holds _ _ _ _ (proj1 A1)))); by rewrite ptr_nd). revert E1. destruct (unless_null na _ s) as [s2| | |]; cbn [mbind outcome_bind]; try done. destruct (rb_set_color o RB_RED s2) as [s3| | |]; cbn [mbind outcome_bind]; try done. intros ->.
    cbn [mbind outcome_bind]. rewrite Hc. cbn [mbind outcome_bind]. apply (Hlast s1 near1 na nx' (nd d false near2 o ox' far)); [exact A1|apply black_nd|done|by apply rb_nd].
  - rewrite ret_bind. apply (Hlast s near o ox far); [by split; [apply evolves_refl|]|done|done|done].
Qed.

Lemma erase_side_ok s K d cb c t p px sib n : holds s (plug K (nd d c t p px sib)) -> associative cb -> fits (Frm d c p px sib :: K) (S n) -> black t = true -> rb t n ->
  exists more node parent s' K' t', erase_side d cb p s = Ret (more, node, parent, s') /\ advances cb s (plug K (nd d c t p px sib)) s' (plug K' t') /\ node = ptr t' /\
    (more = true -> parent = up K' /\ pending K' t' /\ (K' = K \/ black t' = false)) /\ (more = false -> K' = [] /\ rb_ok t').
Proof.
  intros H Ha HK Ht Rt. cbn [fits fs fc] in HK. destruct HK as [Rs HK]. pose proof H as Hs. rewrite plug_flip in Hs. unfold erase_side. rewrite (proj2 (child_at _ _ _ _ _ _ _ _ H)), ret_bind, (proj2 (black_ok s _ sib Hs)), ret_bind. destruct (black sib) eqn:Bs; cbn [negb].
  - rewrite ret_bind. assert (Hab : above K c (S n)) by (unfold above; destruct c; tauto). destruct (erase_rest_ok s K d cb c t p px sib n H Ha Bs Rs Ht Rt Hab) as (more & node & parent & s' & K' & t' & E & A & En & Hm & Hn). exists more, node, parent, s', K', t'.
    split; [done|]. split; [done|]. split; [done|]. split; [|done]. intros Hmore. destruct (Hm Hmore) as (-> & -> & ? & ?). auto.
  - assert (c = true) as -> by (destruct c; [done|]; destruct HK as [? _]; congruence). destruct (tree_nd d sib (not_leaf _ _ Rs)) as (c0 & near & o & ox & far & ->). rewrite black_nd in Bs. subst c0. apply rb_nd in Rs as (Bn & Bf & Rn & Rf). rewrite ptr_nd.
    change RB_BLACK with (Z.b2z true). destruct (recolor_adv cb s _ d false true near o ox far Hs) as (s1 & -> & A1). rewrite ret_bind. rewrite <- !plug_flip in A1. change RB_RED with (Z.b2z false). destruct (recolor_adv cb s1 K d true false t p px _ (e_holds _ _ _ _ (proj1 A1))) as (s2 & -> & A2). rewrite ret_bind.
    destruct (rotate_adv s2 K d cb false t p px true near o ox far (e_holds _ _ _ _ (proj1 A2)) Ha) as (s3 & px' & ox' & -> & A3). rewrite ret_bind. set (K3 := Frm d true o ox' far :: K). assert (H3 : holds s3 (plug K3 (nd d false t p px' near))) by apply (e_holds _ _ _ _ (proj1 A3)).
    rewrite (proj2 (child_at _ _ _ _ _ _ _ _ H3)), !ret_bind. destruct (erase_rest_ok s3 K3 d cb false t p px' near n H3 Ha Bn Rn Ht Rt) as (more & node & parent & s' & K' & t' & E & A & En & Hm & Hn); [unfold above; cbn; done|]. exists more, node, parent, s', K', t'.
    split; [done|]. split; [eapply advances_trans; [exact A1|]; eapply advances_trans; [exact A2|]; eapply advances_trans; [exact A3|exact A]|]. split; [done|]. split; [|done]. intros Hmore. destruct (Hm Hmore) as (-> & -> & Hp & Hb). auto.
Qed.

(** The loop ends at a red subtree or at the root. *)
Lemma root_differs s K (t : tree) : holds s (plug K t) -> K <> [] -> ptr t <> root s.
Proof.
  intros H HK Eq. rewrite (h_root _ _ H) in Eq. destruct (holds_disjoint s _ _ H) as (D & F1 & F2). assert (Hr : ptr (plug K t) ∈ kaddrs K).
  { clear - HK. revert t. induction K as [|g K IH]; intros t; [done|]. cbn [plug kaddrs]. destruct K as [|g' K]; [cbn; unfold fill; rewrite ptr_nd; left|]. right. apply elem_of_app. right. by apply IH. }
  destruct (decide (ptr t = 0)) as [E0|E0].
  - rewrite <- Eq, E0 in Hr. rewrite Forall_forall in F1. destruct (F1 0 Hr). lia.
  - apply NoDup_app in D as (_ & D & _). apply (D (ptr t)); [by rewrite Eq|]. apply ptr_in. by intros ->.
Qed.
Lemma erase_loop_ok cb : associative cb -> forall fuel K s t, holds s (plug K t) -> pending K t -> (length K < fuel \/ black t = false /\ 0 < fuel)%nat ->
  exists s' K' t', erase_loop fuel cb (ptr t) (up K) s = Ret (ptr t', s') /\ advances cb s (plug K t) s' (plug K' t') /\ rb_ok (plug K' (paint t')).
Proof.
  intros Ha. induction fuel as [|fuel IH]; intros K s t H Hp Hf; [lia|]. cbn [erase_loop]. rewrite (proj1 (black_ok s K t H)), ret_bind. destruct Hp as (n & HK & Ht). assert (Hrefl : advances cb s (plug K t) s (plug K t)) by (split; [by apply evolves_refl|done]).
  destruct Ht as [[Hb Rt]|[Hb Rt]]; rewrite Hb.
  - destruct K as [|g K].
    + rewrite (h_root _ _ H). cbn [plug]. rewrite Z.eqb_refl. cbn [negb andb]. exists s, [], t. split; [done|]. split; [done|]. cbn [plug]. destruct t as [|[] l a x r]; try done; [split; [done|by exists n]|]. split; [done|]. by exists n.
    + rewrite (proj2 (Z.eqb_neq _ _) (root_differs s (g :: K) t H ltac:(done))). cbn [negb andb up].
      assert (Hside : exists l, child_of L s (fa g) = Ret l /\ (if l =? ptr t then L else R) = fd g).
      { destruct (decide (ptr t = 0)) as [E0|E0]; [|destruct (side_ok s g K t H) as (l & ? & _ & ?); [by intros ->|by exists l]]. assert (t = Leaf) as -> by (destruct (holds_disjoint _ _ _ H) as (_ & _ & F); by apply (ptr_zero t F)). cbn in Rt. subst n.
        destruct (child_at s K (fd g) (fc g) Leaf (fa g) (fx g) (fs g) H) as [E1 E2]. destruct (fd g); cbn [opp ptr] in *; [by exists 0|]. exists (ptr (fs g)). split; [done|]. destruct HK as [Rs _]. rewrite (proj2 (Z.eqb_neq _ _)); [done|]. destruct (holds_disjoint _ _ _ H) as (_ & F & _).
        cbn in F. apply Forall_cons in F as [_ F]. apply Forall_app in F as [F _]. rewrite (ptr_zero _ F). by apply (not_leaf _ 0). }
      destruct Hside as (l & -> & Es). rewrite ret_bind, Es. destruct g as [d c p px sib]. cbn [fd fa]. destruct (erase_side_ok s K d cb c t p px sib n H Ha HK Hb Rt) as (more & node & parent & s1 & K1 & t1 & -> & A1 & -> & Hm & Hn). rewrite ret_bind. destruct more.
      * destruct (Hm eq_refl) as (-> & Hp1 & Hor). destruct (IH K1 s1 t1 (e_holds _ _ _ _ (proj1 A1)) Hp1) as (s2 & K2 & t2 & -> & A2 & R2). { destruct Hf as [Hf|[? _]]; [|congruence]. cbn in Hf. destruct Hor as [->|?]; [left; lia|right; split; [done|lia]]. }
        exists s2, K2, t2. split; [done|]. split; [by eapply advances_trans|done].
      * destruct (Hn eq_refl) as (-> & B1 & N1 & R1). exists s1, [], t1. split; [done|]. split; [done|]. cbn [plug]. destruct t1 as [|[] l1 a1 x1 r1]; try done; (split; [done|]); by exists N1.
  - cbn [andb]. exists s, K, t. split; [done|]. split; [done|]. split; [|apply (plug_rb K (S n)); [done|done|left; by destruct t]]. destruct K as [|g K]; [by destruct t|by apply (black_plug _ (S n))].
Qed.
Lemma erase_color_ok cb s K t : associative cb -> holds s (plug K t) -> pending K t -> exists s' T', rb_erase_color cb (ptr t) (up K) s = Ret s' /\ advances cb s (plug K t) s' T' /\ rb_ok T'.
Proof.
  intros Ha H Hp. unfold rb_erase_color. pose proof (context_size s K t H) as Hc. destruct (erase_loop_ok cb Ha (fuel_of s) K s t H Hp) as (s1 & K1 & t1 & -> & A1 & R1); [unfold fuel_of; lia|]. rewrite ret_bind. pose proof (e_holds _ _ _ _ (proj1 A1)) as H1. unfold unless_null. destruct t1 as [|c l a x r].
  - exists s1, (plug K1 Leaf). done.
  - cbn [ptr]. rewrite (proj2 (Z.eqb_neq a 0)) by by apply (nonzero s1 K1 L c l a x r). change RB_BLACK with (Z.b2z true). destruct (recolor_adv cb s1 K1 L c true l a x r H1) as (s2 & -> & A2). exists s2, (plug K1 (Node true l a x r)). split; [done|]. split; [by eapply advances_trans|done].
Qed.

(** ** Taking a node out *)

(** A node with at most one child is replaced by it. *)
Lemma splice_ok (s : rbtree P V) K d c a x (ch : tree) : holds s (plug K (nd d c Leaf a x ch)) -> exists s1 s2, unless_null (ptr ch) (rb_set_parent (ptr ch) (up K)) s = Ret s1 /\ replace_child L (up K) a (ptr ch) s1 = Ret s2 /\ holds s2 (plug K ch) /\
  (forall b, b ∉ kaddrs K -> b ∉ addrs ch -> nodes s2 !! b = nodes s !! b).
Proof.
  intros H. destruct (holds_disjoint s _ _ H) as (D & F1 & F2). pose proof (nonzero _ _ _ _ _ _ _ _ H) as Ha0. assert (Pa : addrs (nd d c Leaf a x ch) ≡ₚ a :: addrs ch) by by rewrite addrs_nd. rewrite Pa in D, F2. apply NoDup_app in D as (Dk & Dkt & Dt). apply NoDup_cons in Dt as [Na Dt]. apply Forall_cons in F2 as [[_ Ha] F2].
  pose proof (h_rep _ _ H) as Hr. apply rep_plug in Hr as [HK Ht]. rewrite ptr_nd in HK. apply rep_nd in Ht as (Ea & _ & Hch). destruct (reparent_ok (nodes s) a (up K) ch s eq_refl Hch Dt F2 Ha (up_addr K F1)) as (s1 & E1 & Q1 & R1 & O1). exists s1.
  destruct (replace_child_ok s1 L K a (ptr ch)) as (s2 & E2 & Q2 & R2 & O2); [apply (repk_ext (nodes s)); [|done]; intros b Hb; apply O1; intros Hb'; apply (Dkt b Hb); by right|done|done|intros Hin; apply (Dkt a Hin); left|done|]. exists s2. split; [done|]. split; [done|].
  split; [|intros b Hb1 Hb2; by rewrite O2, O1]. constructor.
  - rewrite Q2. destruct K as [|g K]; [done|]. rewrite Q1, (h_root _ _ H). apply ptr_plug. by left.
  - apply rep_plug. split; [done|]. apply (rep_ext (nodes s1)); [|done]. intros b Hb. apply O2. intros Hb'. apply (Dkt b Hb'). by right.
  - rewrite addrs_plug. apply NoDup_app. split; [done|]. split; [|done]. intros b Hb Hb'. apply (Dkt b Hb). by right.
  - rewrite addrs_plug. by apply Forall_app.
Qed.

(** What is left of the tree without the node. *)
Definition removed (s : rbtree P V) (K : list frm) (t : tree) (s' : rbtree P V) (T' : tree) (a : Z) : Prop :=
  holds s' T' /\ elems T' = kleft K ++ elems t ++ kright K /\ (forall b, b ∉ kaddrs K -> b ∉ addrs t -> nodes s' !! b = nodes s !! b).

(** The propagation after a splice at [K], with everything below in order. *)
Lemma settle_ok cb (s : rbtree P V) K (t : tree) : holds s (plug K t) -> aug cb t -> Forall (fun g => aug cb (fs g)) K -> exists s' K', rb_augment_propagate cb (up K) s = Ret s' /\ evolves s (plug K t) s' (plug K' t) /\ Forall2 resummed K K' /\ aug cb (plug K' t).
Proof. intros H Ht HK. destruct (propagate_ok s K cb t H) as (s' & K' & E & V' & F & A). exists s', K'. split; [done|]. split; [done|]. split; [done|]. by apply A. Qed.
Lemma pending_resummed K K' t : Forall2 resummed K K' -> pending K t -> pending K' t.
Proof. intros F (n & HK & Ht). exists n. split; [by apply (fits_resummed K)|done]. Qed.

(** The end of a removal: [t] took the place of a node of colour [c] in [K]. *)
Lemma finish_erase cb (s : rbtree P V) K (t : tree) (c : bool) : associative cb -> holds s (plug K t) -> aug cb (plug K t) -> (if c then pending K t else rb_ok (plug K t)) ->
  exists s' T', (if Z.b2z c =? RB_BLACK then rb_erase_color cb (ptr t) (up K) s else Ret s) = Ret s' /\ evolves s (plug K t) s' T' /\ rb_ok T' /\ aug cb T'.
Proof.
  intros Ha H HA Hp. destruct c; cbn [Z.b2z]; unfold RB_BLACK; cbn [Z.eqb].
  - destruct (erase_color_ok cb s K t Ha H Hp) as (s' & T' & E & [V' A'] & R'). exists s', T'. auto.
  - exists s, (plug K t). split; [done|]. split; [by apply evolves_refl|]. done.
Qed.

(** A node with a leaf below leaves a subtree that [finish_erase] can take. *)
Lemma spliced_rb K d c a x (ch : tree) : rb_ok (plug K (nd d c Leaf a x ch)) -> if c then pending K ch else rb_ok (plug K ch).
Proof.
  intros [Hb [N HN]]. destruct (unplug_rb K _ N HN Hb) as (n & HK & Hn & Hor). apply rb_nd in Hn. destruct c.
  - destruct n as [|m]; [done|]. destruct Hn as [Hm Hch]. cbn in Hm. subst m. exists 0%nat. split; [done|]. destruct ch as [|[] l b y r]; [left; done|done|right; split; [done|]]. cbn in *. tauto.
  - destruct Hn as (_ & Hbc & Hn0 & Hch). cbn in Hn0. subst n. destruct ch as [|[] l b y r]; [|done|done]. rewrite black_nd in Hor. destruct Hor as [?|Htop]; [done|]. split; [|apply (plug_rb K 0); [done|done|by left]]. destruct K as [|g K]; [done|by apply (black_plug _ 0)].
Qed.

Lemma leaf_dec (t : tree) : t = Leaf \/ t <> Leaf.
Proof. destruct t; [by left|by right]. Qed.
(** The extreme node of a subtree. *)
Lemma extreme_ok d : forall (t : tree) K s fuel, holds s (plug K t) -> t <> Leaf -> (length (addrs t) <= fuel)%nat -> exists K' c b y ch, t = plug K' (nd d c Leaf b y ch) /\ Forall (fun g => fd g = d) K' /\ extreme_loop fuel d (ptr t) s = Ret b.
Proof.
  induction t as [|c l IHl a x r IHr]; intros K s fuel H Ht Hf; [done|]. destruct (node_nd d c l a x r) as (t1 & t2 & E). rewrite E in *. assert (Hlen : (length (addrs t1) < length (addrs (nd d c t1 a x t2)))%nat) by (rewrite addrs_nd; cbn; rewrite length_app; lia).
  destruct fuel as [|fuel]; [lia|]. rewrite ptr_nd. cbn [extreme_loop]. rewrite (proj1 (child_at _ _ _ _ _ _ _ _ H)), ret_bind. destruct (leaf_dec t1) as [->|Hne]; [cbn [ptr Z.eqb]; exists [], c, a, x, t2; done|].
  assert (H1 : holds s (plug (Frm d c a x t2 :: K) t1)) by exact H. destruct (holds_disjoint _ _ _ H1) as (_ & _ & F). rewrite (proj2 (Z.eqb_neq _ 0)) by by rewrite (ptr_zero t1 F).
  assert (IH : forall K s fuel, holds s (plug K t1) -> t1 <> Leaf -> (length (addrs t1) <= fuel)%nat -> exists K' c b y ch, t1 = plug K' (nd d c Leaf b y ch) /\ Forall (fun g => fd g = d) K' /\ extreme_loop fuel d (ptr t1) s = Ret b) by (destruct d; cbn in E; injection E as -> ->; done).
  destruct (IH _ s fuel H1 Hne ltac:(lia)) as (K' & c' & b & y & ch & -> & FK & ->). exists (K' ++ [Frm d c a x t2]), c', b, y, ch. split; [by rewrite plug_app|]. split; [|done]. apply Forall_app. split; [done|]. by apply Forall_singleton.
Qed.

Lemma erase_one_ok cb (s : rbtree P V) K d c a x (ch : tree) : holds s (plug K (nd d c Leaf a x ch)) -> aug cb (plug K (nd d c Leaf a x ch)) -> exists s' K', erase_one cb a (ptr ch) s = Ret (up K', Z.b2z c, s') /\ holds s' (plug K' ch) /\ aug cb (plug K' ch) /\ Forall2 resummed K K' /\
  elems (plug K' ch) = kleft K ++ elems ch ++ kright K /\ (forall b, b ∉ kaddrs K -> b ∉ addrs ch -> nodes s' !! b = nodes s !! b).
Proof.
  intros H HA. unfold erase_one. rewrite (parent_at _ _ _ _ _ _ _ _ H), ret_bind, (color_at _ _ _ _ _ _ _ _ H), ret_bind. destruct (splice_ok s K d c a x ch H) as (s1 & s2 & -> & E2 & H2 & O2). rewrite ret_bind, E2, ret_bind.
  assert (Hch : aug cb ch) by (destruct cb as [f|]; [|done]; cbn [aug] in *; destruct (aug_parts f K _ HA) as [Hn _]; apply augmented_nd in Hn; tauto). destruct (settle_ok cb s2 K ch H2 Hch (aug_frames _ _ _ HA)) as (s3 & K' & -> & V3 & F & A3). rewrite ret_bind. exists s3, K'.
  rewrite (proj1 (resummed_up K K' F)). split; [done|]. split; [apply (e_holds _ _ _ _ V3)|]. split; [done|]. split; [done|]. split; [rewrite (e_elems _ _ _ _ V3); apply elems_context|]. intros b Hb1 Hb2. rewrite (e_out _ _ _ _ V3); [by apply O2|]. rewrite addrs_plug. by apply not_elem_of_app.
Qed.

(** The successor [b] takes the links of [a], with the right subtree already below it. *)
Lemma take_place_ok (s : rbtree P V) K c (l : tree) a x r b y B : root s = ptr (plug K (Node c l a x r)) -> repk (nodes s) K a -> nodes s !! a = Some (cell L (up K) c x (ptr l) (ptr r)) -> rep (nodes s) a l -> rep (nodes s) b r -> l <> Leaf ->
  nodes s !! b = Some B -> right B = ptr r -> payload B = fst y -> summary B = snd y -> NoDup (b :: a :: kaddrs K ++ addrs l ++ addrs r) -> Forall addr (b :: a :: kaddrs K ++ addrs l ++ addrs r) ->
  exists s', take_place a b s = Ret s' /\ holds s' (plug K (Node c l b y r)) /\ (forall z, z <> b -> z ∉ kaddrs K -> z ∉ addrs l -> nodes s' !! z = nodes s !! z).
Proof.
  intros Hroot HK Ea Rl Rr Hl Eb B1 B2 B3 D F. apply NoDup_cons in D as [Nb D], D as [Na D]. apply NoDup_app in D as (Dk & Dkl & D). apply NoDup_app in D as (Dl & Dlr & Dr). apply not_elem_of_cons in Nb as [Nba Nb]. rewrite !not_elem_of_app in Na, Nb. destruct Na as (Nak & Nal & Nar), Nb as (Nbk & Nbl & Nbr).
  apply Forall_cons in F as [[Hb0 Hb] F], F as [[Ha0 Ha] F]. apply Forall_app in F as [Fk F]. apply Forall_app in F as [Fl Fr]. pose proof (up_addr K Fk) as Hup. unfold take_place, get. rewrite Ea. cbn [deref]. rewrite ret_bind. unfold rb_parent, rb_color. rewrite cell_pc, word_parent, word_color by done.
  unfold rb_set_parent_color. rewrite (update_get _ _ _ _ Eb), ret_bind, Z.lor_comm, word_make by done. set (s1 := put b _ s). assert (Ea1 : nodes s1 !! a = Some (cell L (up K) c x (ptr l) (ptr r))) by (cbn [s1 nodes put]; by rewrite lookup_insert_ne). rewrite (child_get s1 L a _ Ea1), ret_bind. cbn [cell child left].
  unfold set_child. rewrite (update_get s1 b _ (set_pc (word (up K) c) B)) by apply lookup_insert_eq. rewrite ret_bind. set (s2 := put b _ s1). assert (Ea2 : nodes s2 !! a = nodes s1 !! a) by (cbn [s2 nodes put]; by rewrite lookup_insert_ne).
  unfold parent_of, get. rewrite Ea2, Ea1. cbn [deref]. rewrite !ret_bind. unfold rb_parent. rewrite cell_pc, word_parent by done. assert (O2 : forall z, z <> b -> nodes s2 !! z = nodes s !! z) by (intros z Hz; cbn [s2 s1 nodes put]; by rewrite !lookup_insert_ne by done).
  destruct (replace_child_ok s2 L K a b) as (s3 & -> & Q3 & R3 & O3); [apply (repk_ext (nodes s)); [|done]; intros z Hz; apply O2; by intros ->|done|lia|done|done|]. rewrite ret_bind. rewrite (child_get s3 L a (cell L (up K) c x (ptr l) (ptr r))) by (rewrite O3, Ea2 by done; done). rewrite ret_bind. cbn [cell child left].
  assert (Hl0 : ptr l <> 0) by by rewrite (ptr_zero l Fl). destruct (reparent_ok (nodes s3) a b l s3 eq_refl) as (s4 & E4 & Q4 & R4 & O4); [|done|done|done|done|].
  { apply (rep_ext (nodes s)); [|done]. intros z Hz. rewrite O3; [apply O2; by intros ->|]. intros Hz'. apply (Dkl z Hz'). apply elem_of_app. auto. }
  unfold unless_null in E4. rewrite (proj2 (Z.eqb_neq _ 0) Hl0) in E4. exists s4. split; [done|]. assert (Pa : addrs (Node c l b y r) ≡ₚ b :: addrs l ++ addrs r) by apply (addrs_nd L). split; [|intros z Hz1 Hz2 Hz3; rewrite O4, O3 by done; by apply O2]. constructor.
  - rewrite Q4, Q3. destruct K as [|g K]; [done|]. change (root s2) with (root s). rewrite Hroot. apply ptr_plug. by left.
  - apply rep_plug. cbn [ptr]. split; [apply (repk_ext (nodes s3)); [|done]; intros z Hz; apply O4; intros Hz'; apply (Dkl z Hz); apply elem_of_app; auto|]. cbn [rep]. split; [|split; [done|]].
    + rewrite O4, O3 by done. cbn [s2 nodes put]. rewrite lookup_insert_eq. unfold cell, with_child, set_pc. cbn. by rewrite B1, B2, B3.
    + apply (rep_ext (nodes s)); [|done]. intros z Hz. assert (z ∉ kaddrs K) by (intros Hz'; apply (Dkl z Hz'); apply elem_of_app; auto). assert (z ∉ addrs l) by (intros Hz'; by apply (Dlr z)). rewrite O4, O3 by done. apply O2. by intros ->.
  - rewrite addrs_plug, Pa. apply NoDup_app. split; [done|]. split; [|apply NoDup_cons; split; [by apply not_elem_of_app|by apply NoDup_app]]. intros z Hz [->|Hz']%elem_of_cons; [done|by apply (Dkl z)].
  - rewrite addrs_plug, Pa. apply Forall_app. split; [done|]. apply Forall_cons. split; [done|]. by apply Forall_app.
Qed.

(** The right subtree goes below the successor: it is what is left of it after the
    splice at the context [Kr ++ Frm R c a x l :: K]. *)
Lemma move_right_ok (s : rbtree P V) K Kr c l a x b y c2 ch (KK := Kr ++ Frm R c a x l :: K) : holds s (plug KK ch) -> nodes s !! b = Some (cell L (up KK) c2 y 0 (ptr ch)) -> b ∉ addrs (plug KK ch) -> addr b -> exists s' B,
  ((if up KK =? a then s ← unless_null (ptr ch) (rb_set_parent (ptr ch) b) s; Ret (b, s)
    else r ← child_of R s a; s ← set_child R b r s; r ← child_of R s a; s ← rb_set_parent r b s; Ret (up KK, s)) : outcome (Z * rbtree P V)) = Ret (up (Kr ++ Frm R c b y l :: K), s') /\
  root s' = root s /\ rep (nodes s') b (plug Kr ch) /\ nodes s' !! b = Some B /\ right B = ptr (plug Kr ch) /\ payload B = fst y /\ summary B = snd y /\ (forall z, z <> b -> z ∉ addrs (plug Kr ch) -> nodes s' !! z = nodes s !! z).
Proof.
  intros H Eb Nb Hb. unfold KK in *. rewrite plug_app in *. cbn [plug] in *. unfold fill in *. cbn [fd fc fa fx fs nd] in *. set (r := plug Kr ch) in *. destruct (holds_disjoint s (Frm R c a x l :: K) r H) as (D & F1 & F2). apply NoDup_app in D as (Dk & Dkr & Dr). cbn [kaddrs fa fs] in *. apply Forall_cons in F1 as [[Ha0 Ha] F1].
  pose proof (h_rep _ _ H) as Hr. apply rep_plug in Hr as [_ (_ & _ & Hr)]. assert (Nbr : b ∉ addrs r) by (intros Hin; apply Nb; rewrite addrs_plug; apply elem_of_app; right; rewrite (addrs_nd L c l a x r); apply elem_of_cons; right; apply elem_of_app; auto).
  destruct Kr as [|g Kr]; cbn [up app fa].
  - cbn [plug] in r. subst r. rewrite Z.eqb_refl. destruct (reparent_ok (nodes s) a b ch s eq_refl Hr Dr F2 Ha (proj2 Hb)) as (s1 & -> & Q1 & R1 & O1). rewrite ret_bind. eexists s1, _. split; [done|]. split; [done|]. split; [done|]. split; [rewrite O1 by done; exact Eb|]. cbn. split; [done|]. split; [done|]. split; [done|]. intros z _ Hz. by apply O1.
  - assert (Hne : fa g <> a).
    { intros Eq. apply (Dkr a); [left|]. rewrite <- Eq. unfold r. cbn [plug]. rewrite addrs_plug. apply elem_of_app. right. rewrite addrs_fill. left. }
    assert (Hrl : r <> Leaf). { intros Er. assert (Hin : fa g ∈ addrs r) by (unfold r; cbn [plug]; rewrite addrs_plug, addrs_fill; apply elem_of_app; right; left). rewrite Er in Hin. by apply elem_of_nil in Hin. }
    rewrite (proj2 (Z.eqb_neq _ _) Hne). rewrite (proj2 (child_at s K L c l a x r H) : child_of R s a = _), ret_bind. unfold set_child. rewrite (update_get _ _ _ _ Eb), ret_bind. cbn [cell with_child]. set (s1 := put b _ s). assert (Hba : b <> a) by (intros ->; apply Nb; rewrite addrs_plug, (addrs_nd L c l a x r); apply elem_of_app; right; left).
    assert (Ea1 : child_of R s1 a = Ret (ptr r)) by (rewrite <- (proj2 (child_at s K L c l a x r H) : child_of R s a = _); unfold child_of, get; cbn [s1 nodes put opp]; by rewrite lookup_insert_ne). rewrite Ea1, ret_bind.
    destruct (reparent_ok (nodes s1) a b r s1 eq_refl) as (s2 & E2 & Q2 & R2 & O2); [apply (rep_ext (nodes s)); [|done]; intros z Hz; cbn [s1 nodes put]; rewrite lookup_insert_ne; [done|by intros <-]|done|done|done|apply Hb|].
    unfold unless_null in E2. rewrite (proj2 (Z.eqb_neq _ 0)) in E2 by by rewrite (ptr_zero r F2). rewrite E2, ret_bind. eexists s2, _. split; [done|]. split; [done|]. split; [done|]. split; [rewrite O2 by done; apply lookup_insert_eq|]. cbn. split; [done|]. split; [done|]. split; [done|].
    intros z Hz1 Hz2. rewrite O2 by done. cbn [s1 nodes put]. by rewrite lookup_insert_ne.
Qed.

(** Contexts with the same colours and siblings. *)
Definition alike (g g' : frm) : Prop := fc g' = fc g /\ fs g' = fs g.
Lemma fits_alike K K' : Forall2 alike K K' -> forall n, fits K n -> fits K' n.
Proof.
  induction 1 as [|g g' K K' (E2 & E4) HKK IH]; intros n; [done|]. cbn. rewrite E2, E4. intros [Hs HK]. split; [done|]. destruct (fc g); [by apply IH|]. destruct HK as (? & Ht & ?). split; [done|]. split; [|by apply IH]. destruct HKK as [|h h' ? ? (Eh & _)]; [done|]. cbn in *. congruence.
Qed.
Lemma alike_resummed K K' : Forall2 resummed K K' -> Forall2 alike K K'.
Proof. intros H. eapply Forall2_impl; [exact H|]. intros g g' (_ & ? & _ & ? & _). done. Qed.
Lemma spliced_alike K K' (c : bool) (t : tree) : Forall2 alike K K' -> (if c then pending K t else rb_ok (plug K t)) -> if c then pending K' t else rb_ok (plug K' t).
Proof.
  intros F. destruct c; [intros (n & HK & Ht); exists n; split; [by apply (fits_alike K)|done]|]. intros [Hb [N HN]]. destruct (unplug_rb K t N HN Hb) as (n & HK & Hn & Hor). pose proof (fits_alike K K' F n HK) as HK'. destruct K' as [|g' K']; [apply Forall2_nil_inv_r in F as ->; split; [done|by exists N]|].
  split; [by apply (black_plug _ n)|]. apply (plug_rb _ n); [done|done|]. destruct Hor as [?|Ht]; [by left|]. right. right. destruct F as [|g g2 ? ? (E & _) _]; cbn in *; congruence.
Qed.
Lemma all_left (K : list frm) : Forall (fun g => fd g = L) K -> kleft K = [].
Proof. induction 1 as [|g K E _ IH]; cbn; [done|]. by rewrite IH, E. Qed.

Lemma erase_two_ok cb (s : rbtree P V) K c l a x r : holds s (plug K (Node c l a x r)) -> aug cb (plug K (Node c l a x r)) -> rb_ok (plug K (Node c l a x r)) -> l <> Leaf -> r <> Leaf ->
  exists s' K' ch (c2 : bool), erase_two cb a s = Ret (ptr ch, up K', Z.b2z c2, s') /\ holds s' (plug K' ch) /\ aug cb (plug K' ch) /\ (if c2 then pending K' ch else rb_ok (plug K' ch)) /\
    elems (plug K' ch) = kleft K ++ elems l ++ elems r ++ kright K /\ (forall z, z ∉ addrs (plug K (Node c l a x r)) -> nodes s' !! z = nodes s !! z).
Proof.
  intros H HA HR Hl Hr. unfold erase_two. rewrite (proj2 (child_at s K L c l a x r H) : child_of R s a = _), ret_bind. assert (Hr0 : holds s (plug (Frm R c a x l :: K) r)) by exact H. pose proof (context_size _ _ _ Hr0) as Hc.
  destruct (extreme_ok L r _ s (fuel_of s) Hr0 Hr) as (Kr & c2 & b & y & ch & -> & FK & ->); [unfold fuel_of; lia|]. rewrite ret_bind. set (KK := Kr ++ Frm R c a x l :: K). assert (Epl : plug K (Node c l a x (plug Kr (nd L c2 Leaf b y ch))) = plug KK (nd L c2 Leaf b y ch)) by (unfold KK; by rewrite plug_app).
  rewrite Epl in *. rewrite (proj2 (child_at s KK L c2 Leaf b y ch H) : child_of R s b = _), ret_bind. rewrite (parent_at _ _ _ _ _ _ _ _ H), ret_bind, (color_at _ _ _ _ _ _ _ _ H), ret_bind.
  destruct (splice_ok s KK L c2 b y ch H) as (s1 & s2 & -> & E2 & H2 & O2). rewrite ret_bind, E2, ret_bind. destruct (holds_disjoint s _ _ H) as (D & F1 & F2). apply NoDup_app in D as (Dk & Dkt & Dt). rewrite addrs_nd in Dt, F2. setoid_rewrite addrs_nd in Dkt. cbn [addrs elems fmap list_fmap app] in Dt, F2. apply NoDup_cons in Dt as [Nbch Dch]. apply Forall_cons in F2 as [Hb F2].
  assert (NbK : b ∉ kaddrs KK) by (intros Hin; apply (Dkt b Hin); left). assert (Eb : nodes s2 !! b = Some (cell L (up KK) c2 y 0 (ptr ch))) by (rewrite O2 by done; apply h_rep, rep_plug in H as [_ (E & _)]; exact E). assert (Hpb : parent_of s2 b = Ret (up KK)) by (unfold parent_of, get; rewrite Eb; cbn [deref]; rewrite ret_bind; unfold rb_parent; by rewrite cell_pc, word_parent by by apply up_addr).
  rewrite Hpb, ret_bind. assert (NbT : b ∉ addrs (plug KK ch)) by (rewrite addrs_plug; by apply not_elem_of_app). destruct (move_right_ok s2 K Kr c l a x b y c2 ch H2 Eb NbT Hb) as (s3 & B & E3 & Q3 & Rr & EB & B1 & B2 & B3 & O3). fold KK in E3. rewrite E3, ret_bind. set (r' := plug Kr ch) in *.
  assert (H2' : holds s2 (plug K (Node c l a x r'))) by (unfold KK in H2; rewrite plug_app in H2; exact H2). destruct (holds_disjoint s2 _ _ H2') as (D2 & G1 & G2). rewrite (addrs_nd L c l a x r') in D2, G2.
  assert (Hperm : b :: a :: kaddrs K ++ addrs l ++ addrs r' ≡ₚ b :: kaddrs K ++ a :: addrs l ++ addrs r') by (constructor; apply Permutation_middle).
  assert (Hbn : b ∉ kaddrs K ++ a :: addrs l ++ addrs r') by (intros Hin; apply NbT; unfold KK; rewrite plug_app; fold r'; cbn [plug]; rewrite addrs_plug; unfold fill; cbn [fd fc fa fx fs]; by rewrite (addrs_nd L c l a x r')).
  apply NoDup_app in D2 as (Dk2 & Dkt2 & Dt2). assert (Hsame : forall z, z ∈ kaddrs K ++ a :: addrs l -> nodes s3 !! z = nodes s2 !! z).
  { intros z Hz. apply O3; [intros ->; apply Hbn; apply elem_of_app in Hz as [?|?]; apply elem_of_app; [by left|right]; rewrite app_comm_cons; apply elem_of_app; by left|]. intros Hz'. apply elem_of_app in Hz as [Hz|Hz]; [apply (Dkt2 z Hz); right; apply elem_of_app; by right|].
    rewrite app_comm_cons in Dt2. apply NoDup_app in Dt2 as (_ & Dt2 & _). by apply (Dt2 z). }
  pose proof (h_rep _ _ H2') as HR2. apply rep_plug in HR2 as [HK2 (Ea2 & Rl2 & _)]. cbn [ptr] in HK2.
  destruct (take_place_ok s3 K c l a x r' b y B) as (s4 & -> & H4 & O4); [by rewrite Q3, (h_root _ _ H2')|apply (repk_ext (nodes s2)); [|done]; intros z Hz; apply Hsame; apply elem_of_app; by left|rewrite Hsame by (apply elem_of_app; right; left); exact Ea2
    |apply (rep_ext (nodes s2)); [|done]; intros z Hz; apply Hsame; apply elem_of_app; right; by right|done|done|done|done|done|done|rewrite Hperm; apply NoDup_cons; split; [done|]; by apply NoDup_app|rewrite Hperm; apply Forall_cons; split; [done|]; by apply Forall_app|].
  rewrite ret_bind. assert (H5 : exists s5 y', augment cb b s4 = Ret s5 /\ evolves s4 (plug K (Node c l b y r')) s5 (plug K (Node c l b y' r'))).
  { destruct cb as [f|]; [|exists s4, y; split; [done|by apply evolves_refl]]. destruct (run_cb_ok s4 K f L c l b y r' H4) as (s5 & E5 & V5). by eexists s5, _. }
  destruct H5 as (s5 & y' & -> & V5). rewrite ret_bind. set (K5 := Kr ++ Frm R c b y' l :: K). assert (E5 : plug K (Node c l b y' r') = plug K5 ch) by (unfold K5; by rewrite plug_app). assert (Eup : up (Kr ++ Frm R c b y l :: K) = up K5) by by destruct Kr. rewrite Eup. pose proof (e_holds _ _ _ _ V5) as H5. rewrite E5 in H5.
  pose proof (aug_frames cb KK _ HA) as HF. assert (HF5 : Forall (fun g => aug cb (fs g)) K5) by (unfold KK, K5 in *; rewrite Forall_app, Forall_cons in *; done). assert (Hch : aug cb ch) by (destruct cb as [f|]; [|done]; cbn [aug] in *; destruct (aug_parts f KK _ HA) as [(_ & _ & ?) _]; done).
  destruct (settle_ok cb s5 K5 ch H5 Hch HF5) as (s6 & K6 & -> & V6 & F6 & A6). rewrite ret_bind. exists s6, K6, ch, c2. rewrite (proj1 (resummed_up K5 K6 F6)). split; [done|]. split; [apply (e_holds _ _ _ _ V6)|]. split; [done|]. split; [|split].
  - apply (spliced_alike K5); [by apply alike_resummed|]. apply (spliced_alike KK); [unfold KK, K5; apply Forall2_app; [clear; induction Kr; by constructor|]; constructor; [done|clear; induction K; by constructor]|]. by apply (spliced_rb KK L c2 b y ch).
  - rewrite (e_elems _ _ _ _ V6), <- E5, (e_elems _ _ _ _ V5), !elems_context. unfold r'. cbn [elems nd]. rewrite elems_context, (all_left Kr FK). cbn. rewrite <- !(assoc_L (++)). cbn. by rewrite <- !(assoc_L (++)).
  - intros z Hz. rewrite addrs_plug, (addrs_nd L c2 Leaf b y ch) in Hz. apply not_elem_of_app in Hz as [Hz1 Hz2]. apply not_elem_of_cons in Hz2 as [Hzb Hz2]. assert (HzT : z ∉ addrs (plug K (Node c l a x r'))) by (rewrite <- (plug_app Kr (Frm R c a x l :: K) ch : _ = plug K (Node c l a x r')), addrs_plug; by apply not_elem_of_app).
    rewrite addrs_plug, (addrs_nd L c l a x r') in HzT. apply not_elem_of_app in HzT as [HzK HzT]. apply not_elem_of_cons in HzT as [_ HzT]. apply not_elem_of_app in HzT as [Hzl Hzr]. assert (HzN : forall y0, z ∉ addrs (plug K (Node c l b y0 r'))) by (intros y0; rewrite addrs_plug, (addrs_nd L c l b y0 r'), not_elem_of_app, not_elem_of_cons, not_elem_of_app; done).
    rewrite (e_out _ _ _ _ V6) by (rewrite <- E5; apply HzN). rewrite (e_out _ _ _ _ V5) by apply HzN. rewrite O4, O3, O2 by done. done.
Qed.

(** Removing a node leaves its neighbours in order. *)
Lemma erase_ok cb (s : rbtree P V) K c l a x r : associative cb -> holds s (plug K (Node c l a x r)) -> rb_ok (plug K (Node c l a x r)) -> aug cb (plug K (Node c l a x r)) ->
  exists s' T', rb_erase_augmented cb a s = Ret s' /\ holds s' T' /\ rb_ok T' /\ aug cb T' /\ elems T' = kleft K ++ elems l ++ elems r ++ kright K /\ (forall z, z ∉ addrs (plug K (Node c l a x r)) -> nodes s' !! z = nodes s !! z).
Proof.
  intros Ha H HR HA. unfold rb_erase_augmented. destruct (child_at s K L c l a x r H) as [-> E2]. cbn [opp] in E2. rewrite ret_bind, E2, ret_bind. destruct (holds_disjoint s _ _ H) as (D & _ & F). rewrite (addrs_nd L c l a x r) in F. apply Forall_cons in F as [_ F]. apply Forall_app in F as [Fl Fr].
  assert (Hend : forall s1 K1 ch (c2 : bool), holds s1 (plug K1 ch) -> aug cb (plug K1 ch) -> (if c2 then pending K1 ch else rb_ok (plug K1 ch)) -> elems (plug K1 ch) = kleft K ++ elems l ++ elems r ++ kright K -> (forall z, z ∉ addrs (plug K (Node c l a x r)) -> nodes s1 !! z = nodes s !! z) ->
    exists s' T', (if Z.b2z c2 =? RB_BLACK then rb_erase_color cb (ptr ch) (up K1) s1 else Ret s1) = Ret s' /\ holds s' T' /\ rb_ok T' /\ aug cb T' /\ elems T' = kleft K ++ elems l ++ elems r ++ kright K /\ (forall z, z ∉ addrs (plug K (Node c l a x r)) -> nodes s' !! z = nodes s !! z)).
  { intros s1 K1 ch c2 H1 A1 P1 El O1. destruct (finish_erase cb s1 K1 ch c2 Ha H1 A1 P1) as (s' & T' & E & V' & R' & A'). exists s', T'. split; [done|]. split; [apply (e_holds _ _ _ _ V')|]. split; [done|]. split; [done|]. split; [by rewrite (e_elems _ _ _ _ V')|].
    intros z Hz. rewrite (e_out _ _ _ _ V'); [by apply O1|]. intros Hin. apply Hz. unfold addrs in *. rewrite El in Hin. rewrite elems_context. cbn [elems]. revert Hin. rewrite !fmap_app. cbn. rewrite !elem_of_app, elem_of_cons. tauto. }
  assert (Hone : forall d ch, Node c l a x r = nd d c Leaf a x ch -> elems ch = elems l ++ elems r -> exists s' T', ('(child, parent, color, s) ← ('(parent, color, s) ← erase_one cb a (ptr ch) s; Ret (ptr ch, parent, color, s)); if color =? RB_BLACK then rb_erase_color cb child parent s else Ret s) = Ret s' /\
    holds s' T' /\ rb_ok T' /\ aug cb T' /\ elems T' = kleft K ++ elems l ++ elems r ++ kright K /\ (forall z, z ∉ addrs (plug K (Node c l a x r)) -> nodes s' !! z = nodes s !! z)).
  { intros d ch E Ee. pose proof H as H1. rewrite E in H1. pose proof HA as HA1. rewrite E in HA1. pose proof HR as HR1. rewrite E in HR1. destruct (erase_one_ok cb s K d c a x ch H1 HA1) as (s1 & K1 & -> & Q1 & Q2 & Q3 & Q4 & Q5). rewrite !ret_bind. apply (Hend s1 K1 ch c); [done|done| | |].
    - apply (spliced_alike K); [by apply alike_resummed|]. by apply (spliced_rb K d c a x ch).
    - rewrite Q4, Ee. by rewrite <- !(assoc_L (++)).
    - intros z Hz. rewrite addrs_plug in Hz. rewrite E in Hz. rewrite addrs_nd in Hz. apply not_elem_of_app in Hz as [Hz1 Hz2]. apply Q5; [done|]. intros Hin. apply Hz2. right. by apply elem_of_app; right. }
  destruct (leaf_dec l) as [->|Hl]; [exact (Hone L r eq_refl eq_refl)|]. rewrite (proj2 (Z.eqb_neq _ 0)) by by rewrite (ptr_zero l Fl). destruct (leaf_dec r) as [->|Hr]; [cbn [ptr Z.eqb]; apply (Hone R l eq_refl); by rewrite app_nil_r|].
  rewrite (proj2 (Z.eqb_neq _ 0)) by by rewrite (ptr_zero r Fr). destruct (erase_two_ok cb s K c l a x r H HA HR Hl Hr) as (s1 & K1 & ch & c2 & -> & Q1 & Q2 & Q3 & Q4 & Q5). rewrite ret_bind. by apply (Hend s1 K1 ch c2).
Qed.

End Erase.
End RbErase.
