(* ===== verification/RbWalk.v ===== *)
(** RbWalk: the walks over a red-black tree, its validation, and replacing a node. *)

From S2P Require Import Prelude RbTree RbRep RbInsert RbErase.
From stdpp Require Import list_relations.
#[local] Open Scope Z_scope.

Module RbWalk.
Import RbTree RbRep RbInsert RbErase.

Section Walk.
Context {P V : Type}.
Notation tree := (@tree P V).
Notation frm := (@frm P V).

(** ** Where an element is *)

Lemma locate (T : tree) a : a ∈ addrs T -> exists K c l x r, T = plug K (Node c l a x r).
Proof.
  induction T as [|c l IHl b x r IHr]; unfold addrs; cbn; [intros []%elem_of_nil|]. rewrite fmap_app. cbn. intros [Hl|[->|Hr]%elem_of_cons]%elem_of_app.
  - destruct (IHl Hl) as (K & c' & l' & x' & r' & ->). exists (K ++ [Frm L c b x r]), c', l', x', r'. by rewrite plug_app.
  - by exists [], c, l, x, r.
  - destruct (IHr Hr) as (K & c' & l' & x' & r' & ->). exists (K ++ [Frm R c b x l]), c', l', x', r'. by rewrite plug_app.
Qed.
Lemma elems_split (T : tree) K c l a x r A p B : NoDup (addrs T) -> T = plug K (Node c l a x r) -> elems T = A ++ (a, p) :: B -> p = fst x /\ A = kleft K ++ elems l /\ B = elems r ++ kright K.
Proof.
  intros Hn -> E. unfold addrs in Hn. rewrite elems_context in E. cbn [elems] in E. rewrite elems_context in Hn. cbn [elems] in Hn. rewrite <- (assoc_L (++)) in E, Hn. cbn in E, Hn. rewrite (assoc_L (++)) in E, Hn.
  set (A' := kleft K ++ elems l) in *. set (B' := elems r ++ kright K) in *. clearbody A' B'. clear -Hn E. revert A E. induction A' as [|z A' IH]; intros A E; destruct A as [|w A]; cbn in E.
  - by simplify_eq.
  - simplify_eq. cbn in Hn. apply NoDup_cons in Hn as [Hn _]. exfalso. apply Hn. rewrite fmap_app. apply elem_of_app. right. left.
  - simplify_eq. cbn in Hn. apply NoDup_cons in Hn as [Hn _]. exfalso. apply Hn. rewrite fmap_app. apply elem_of_app. right. left.
  - injection E as -> E. cbn in Hn. apply NoDup_cons in Hn as [_ Hn]. destruct (IH Hn A E) as (-> & -> & ->). done.
Qed.

(** ** First, last, next and previous *)

Definition first_addr (l : list (Z * P)) : Z := match l with [] => 0 | (a, _) :: _ => a end.
Definition last_addr (l : list (Z * P)) : Z := first_addr (reverse l).
Lemma last_addr_snoc l a p : last_addr (l ++ [(a, p)]) = a.
Proof. unfold last_addr. by rewrite reverse_snoc. Qed.
(** The end of a list on a side. *)
Definition end_of (d : dir) (l : list (Z * P)) : Z := match d with L => first_addr l | R => last_addr l end.

Lemma all_right (K : list frm) : Forall (fun g => fd g = R) K -> kright K = [].
Proof. induction 1 as [|g K E _ IH]; cbn; [done|]. by rewrite IH, E. Qed.
Lemma extreme_end d (s : rbtree P V) K t fuel : holds s (plug K t) -> t <> Leaf -> (length (addrs t) <= fuel)%nat -> extreme_loop fuel d (ptr t) s = Ret (end_of d (elems t)).
Proof.
  intros H Ht Hf. destruct (extreme_ok d t K s fuel H Ht Hf) as (K' & c & b & y & ch & -> & FK & ->). f_equal. rewrite elems_context. destruct d; cbn [nd elems end_of].
  - by rewrite (all_left K' FK).
  - rewrite (all_right K' FK), app_nil_r, (assoc_L (++)). by rewrite last_addr_snoc.
Qed.
Lemma extreme_rep d (s : rbtree P V) T : holds s T -> rb_extreme d s = Ret (end_of d (elems T)).
Proof.
  intros H. unfold rb_extreme. rewrite (h_root _ _ H). destruct (leaf_dec T) as [->|Ht]; [by destruct d|]. rewrite (proj2 (Z.eqb_neq _ 0)) by by rewrite (ptr_zero T (h_addr _ _ H)). apply (extreme_end d s [] T); [done|done|]. pose proof (context_size s [] T H). unfold fuel_of. cbn in *. lia.
Qed.

(** The nearest ancestor on the side [d], where the subtree is on the other one. *)
Fixpoint next_up (d : dir) (K : list frm) : Z := match K with [] => 0 | g :: K => if decide (fd g = d) then next_up d K else fa g end.
Lemma climb_ok d : forall K (s : rbtree P V) t fuel, holds s (plug K t) -> t <> Leaf -> (length K < fuel)%nat -> climb fuel d (ptr t) s = Ret (next_up d K).
Proof.
  induction K as [|g K IH]; intros s t fuel H Ht Hf; (destruct fuel as [|fuel]; [cbn in Hf; lia|]); cbn [climb next_up].
  - destruct (tree_nd L t Ht) as (c & t1 & a & x & t2 & ->). rewrite ptr_nd, (parent_at s [] L c t1 a x t2 H), ret_bind. done.
  - destruct (tree_nd L t Ht) as (c & t1 & a & x & t2 & Et). assert (Hp : parent_of s (ptr t) = Ret (fa g)) by (rewrite Et in *; rewrite ptr_nd; apply (parent_at s (g :: K) L c t1 a x t2 H)). rewrite Hp, ret_bind. destruct (holds_disjoint s _ _ H) as (D & F & Ft). cbn [kaddrs] in F, D. apply Forall_cons in F as [[Hg _] _].
    rewrite (proj2 (Z.eqb_neq _ 0)) by lia. pose proof (child_at s K (fd g) (fc g) t (fa g) (fx g) (fs g) H) as [E1 E2]. case_decide as Ed.
    + rewrite Ed in E1. rewrite E1, ret_bind, Z.eqb_refl. assert (Efa : fa g = ptr (fill g t)) by (unfold fill; by rewrite ptr_nd). rewrite Efa. apply IH; [done|unfold fill; by destruct (fd g)|cbn in Hf; lia].
    + assert (d = opp (fd g)) as -> by (destruct d, (fd g); done). rewrite E2, ret_bind. rewrite (proj2 (Z.eqb_neq _ _)); [done|]. intros Eq. apply NoDup_app in D as (_ & D & _). destruct (fs g) as [|c0 l0 a0 x0 r0] eqn:Ef; [by apply (ptr_zero t Ft) in Eq|].
      apply (D (ptr t)); [|by apply ptr_in]. rewrite Eq. right. apply elem_of_app. left. by apply ptr_in.
Qed.
Lemma next_up_right (K : list frm) : next_up R K = first_addr (kright K).
Proof. induction K as [|g K IH]; cbn; [done|]. case_decide as E; [by rewrite E|]. by destruct (fd g). Qed.
Lemma next_up_left (K : list frm) : next_up L K = last_addr (kleft K).
Proof. induction K as [|g K IH]; cbn; [done|]. case_decide as E; [by rewrite E, app_nil_r|]. destruct (fd g); [done|]. rewrite (assoc_L (++)). by rewrite last_addr_snoc. Qed.
Lemma first_addr_app l1 l2 : first_addr (l1 ++ l2) = match l1 with [] => first_addr l2 | _ => first_addr l1 end.
Proof. by destruct l1 as [|[]]. Qed.
Lemma last_addr_app l1 l2 : last_addr (l1 ++ l2) = match l2 with [] => last_addr l1 | _ => last_addr l2 end.
Proof. unfold last_addr. rewrite reverse_app, first_addr_app. destruct l2 as [|x l2]; [done|]. destruct (reverse (x :: l2)) eqn:E; [|done]. apply (f_equal length) in E. by rewrite length_reverse in E. Qed.
Lemma elems_nil (t : tree) : elems t = [] <-> t = Leaf.
Proof. split; [|by intros ->]. destruct t; [done|]. cbn. intros E. by apply app_eq_nil in E as [_ ?]. Qed.

(** The neighbour of an element is the next or the previous one in order. *)
Lemma step_rep d (s : rbtree P V) T A a p B : holds s T -> elems T = A ++ (a, p) :: B -> rb_step d a s = Ret (match d with R => first_addr B | L => last_addr A end).
Proof.
  intros H E. assert (Hin : a ∈ addrs T) by (unfold addrs; rewrite E, fmap_app; apply elem_of_app; right; left). destruct (locate T a Hin) as (K & c & l & x & r & ET). destruct (elems_split T K c l a x r A p B (h_nodup _ _ H) ET E) as (_ & -> & ->). subst T. clear E Hin.
  unfold rb_step. rewrite (parent_at s K L c l a x r H), ret_bind. destruct (holds_disjoint s _ _ H) as (D & Fk & Ft). pose proof (nonzero s K L c l a x r H) as Ha0.
  assert (Hne : up K <> a). { intros Eq. destruct K as [|g K]; [cbn in Eq; congruence|]. apply NoDup_app in D as (_ & D & _). apply (D (fa g)); [left|]. cbn in Eq. rewrite Eq. by apply (ptr_in (Node c l a x r)). }
  rewrite (proj2 (Z.eqb_neq _ _) Hne). pose proof (context_size _ _ _ H) as Hc. assert (Hclimb : forall d, climb (fuel_of s) d a s = Ret (next_up d K)) by (intros d'; apply (climb_ok d' K s (Node c l a x r)); [done|done|unfold fuel_of; lia]).
  rewrite (addrs_nd L c l a x r) in Ft, Hc. apply Forall_cons in Ft as [_ Ft]. apply Forall_app in Ft as [Fl Fr]. cbn in Hc. rewrite length_app in Hc. destruct (child_at s K L c l a x r H) as [E1 E2]. cbn [opp] in E2. destruct d; cbn [opp].
  - rewrite E1, ret_bind. destruct (leaf_dec l) as [->|Hl]; [cbn [ptr Z.eqb elems]; by rewrite app_nil_r, Hclimb, next_up_left|]. rewrite (proj2 (Z.eqb_neq _ 0)) by by rewrite (ptr_zero l Fl). rewrite (extreme_end R s (Frm L c a x r :: K) l); [|done|done|unfold fuel_of; lia]. cbn [end_of]. rewrite last_addr_app.
    destruct (elems l) eqn:El; [by apply elems_nil in El|done].
  - rewrite E2, ret_bind. destruct (leaf_dec r) as [->|Hr]; [cbn [ptr Z.eqb elems app]; by rewrite Hclimb, next_up_right|]. rewrite (proj2 (Z.eqb_neq _ 0)) by by rewrite (ptr_zero r Fr). rewrite (extreme_end L s (Frm R c a x l :: K) r); [|done|done|unfold fuel_of; lia]. cbn [end_of]. rewrite first_addr_app.
    destruct (elems r) eqn:El; [by apply elems_nil in El|done].
Qed.

(** ** Validation *)

(** The black height that [__rb_validate_subtree] computes, less one. *)
Fixpoint height (t : tree) : option nat :=
  match t with
  | Leaf => Some 0%nat
  | Node c l _ _ r =>
    if negb c && (negb (black l) || negb (black r)) then None
    else match height l, height r with Some m, Some n => if decide (m = n) then Some (if c then S m else m) else None | _, _ => None end
  end.
Lemma height_rb t : forall n, rb (t : tree) n <-> height t = Some n.
Proof.
  induction t as [|c l IHl a x r IHr]; intros n; cbn [rb height]; [split; congruence|]. destruct c; cbn [negb andb].
  - destruct n as [|m]; [|rewrite IHl, IHr]; destruct (height l) as [hl|], (height r) as [hr|]; try case_decide; naive_solver.
  - rewrite IHl, IHr. destruct (black l), (black r); cbn [negb orb]; try naive_solver. destruct (height l) as [hl|], (height r) as [hr|]; try case_decide; naive_solver.
Qed.

Lemma validate_subtree_ok : forall t K (s : rbtree P V) fuel, holds s (plug K t) -> (length (addrs t) < fuel)%nat -> validate_subtree fuel s (ptr t) = Ret (option_map (fun n => Z.of_nat n + 1) (height t)).
Proof.
  induction t as [|c l IHl a x r IHr]; intros K s fuel H Hf; (destruct fuel as [|fuel]; [lia|]); cbn [validate_subtree]; [done|]. cbn [ptr]. rewrite (proj2 (Z.eqb_neq a 0)) by by apply (nonzero s K L c l a x r). rewrite (get_at s K L c l a x r H), ret_bind. cbn [cell left right].
  assert (Hl : holds s (plug (Frm L c a x r :: K) l)) by exact H. assert (Hr : holds s (plug (Frm R c a x l :: K) r)) by exact H. rewrite (proj2 (black_ok s _ l Hl)), ret_bind, (proj2 (black_ok s _ r Hr)), ret_bind.
  destruct (holds_disjoint s _ _ H) as (_ & Fk & Ft). assert (Hred : rb_is_red (mk_node (word (up K) c) (ptr r) (ptr l) (fst x) (snd x)) = negb c /\ rb_is_black (mk_node (word (up K) c) (ptr r) (ptr l) (fst x) (snd x)) = c) by (unfold rb_is_red, rb_is_black, rb_color, nz; cbn [pc]; rewrite word_color by (by apply up_addr); by destruct c).
  destruct Hred as [-> ->]. cbn [height]. destruct (negb c && _); [done|]. rewrite (addrs_nd L c l a x r) in Ft, Hf. apply Forall_cons in Ft as [_ Ft]. apply Forall_app in Ft as [Fl Fr]. cbn in Hf. rewrite length_app in Hf.
  assert (Hpar : forall d t, holds s (plug (Frm d c a x (match d with L => r | R => l end) :: K) t) -> Forall addr (addrs t) -> (if ptr t =? 0 then Ret true else p ← parent_of s (ptr t); Ret (p =? a)) = Ret true).
  { intros d t Ht Fa. destruct (leaf_dec t) as [->|Hne]; [done|]. rewrite (proj2 (Z.eqb_neq _ 0)) by by rewrite (ptr_zero t Fa). destruct (tree_nd L t Hne) as (c0 & t1 & b & y & t2 & ->). rewrite ptr_nd, (parent_at s _ L c0 t1 b y t2 Ht), ret_bind. cbn [up fa]. by rewrite Z.eqb_refl. }
  rewrite (Hpar L l Hl Fl), ret_bind, (Hpar R r Hr Fr), ret_bind. cbn [negb orb]. rewrite (IHl _ s fuel Hl), ret_bind by lia. destruct (height l) as [hl|]; cbn [option_map]; [|done]. rewrite (IHr _ s fuel Hr), ret_bind by lia. destruct (height r) as [hr|]; cbn [option_map]; [|done].
  case_decide as E; [subst; rewrite Z.eqb_refl|rewrite (proj2 (Z.eqb_neq _ _)) by lia; done]. cbn [option_map]. destruct c; do 2 f_equal; lia.
Qed.
(** [rb_validate_tree] accepts exactly the red-black trees. *)
Lemma validates_ok (s : rbtree P V) T : holds s T -> exists b : bool, rb_validate_tree s = Ret b /\ (b = true <-> rb_ok T).
Proof.
  intros H. unfold rb_validate_tree. rewrite (h_root _ _ H). destruct (leaf_dec T) as [->|Ht]; [exists true; split; [done|]; split; [|done]; intros _; split; [done|by exists 0%nat]|]. rewrite (proj2 (Z.eqb_neq _ 0)) by by rewrite (ptr_zero T (h_addr _ _ H)).
  pose proof (proj1 (black_ok s [] T H)) as Hb. unfold black_at in Hb. rewrite (proj2 (Z.eqb_neq _ 0)) in Hb by by rewrite (ptr_zero T (h_addr _ _ H)). apply bind_Ret in Hb as (x & Ex & Hx). rewrite Ex, ret_bind. injection Hx as Hx. rewrite Hx. pose proof (context_size s [] T H) as Hc. cbn in Hc.
  unfold rb_ok. destruct (black T) eqn:Eb; cbn [negb]; [|exists false; split; [done|]; split; [done|]; intros [? _]; done]. rewrite (validate_subtree_ok T [] s (fuel_of s) H) by (unfold fuel_of; lia). rewrite ret_bind. eexists. split; [done|]. setoid_rewrite height_rb. destruct (height T) as [n|]; cbn; split; try done; [intros _; split; [done|by exists n]|].
  by intros [_ [? ?]].
Qed.

(** ** Postorder *)

Fixpoint post (t : tree) : list Z := match t with Leaf => [] | Node _ l a _ r => post l ++ post r ++ [a] end.
Definition first (l : list Z) : Z := match l with [] => 0 | a :: _ => a end.
Fixpoint before (K : list frm) : list Z := match K with [] => [] | g :: K => before K ++ match fd g with L => [] | R => post (fs g) end end.
Fixpoint after (K : list frm) : list Z := match K with [] => [] | g :: K => (match fd g with L => post (fs g) | R => [] end) ++ fa g :: after K end.
Lemma post_context K : forall t, post (plug K t) = before K ++ post t ++ after K.
Proof. induction K as [|g K IH]; intros t; cbn [plug before after]; [by rewrite app_nil_r|]. rewrite IH. unfold fill. destruct (fd g); cbn; rewrite <- ?(assoc_L (++)); cbn; rewrite ?app_nil_r, <- ?(assoc_L (++)); done. Qed.
Lemma post_addrs t : post (t : tree) ≡ₚ addrs t.
Proof. induction t as [|c l IHl a x r IHr]; [done|]. rewrite (addrs_nd L c l a x r), <- IHl, <- IHr. cbn. rewrite (assoc_L (++)). by rewrite <- Permutation_cons_append. Qed.
Lemma post_leaf t : post (t : tree) = [] <-> t = Leaf.
Proof. split; [|by intros ->]. destruct t as [|c l a x r]; [done|]. cbn. intros E. apply app_eq_nil in E as [_ E]. by apply app_eq_nil in E as [_ ?]. Qed.
Lemma first_app l1 l2 : l1 <> [] -> first (l1 ++ l2) = first l1.
Proof. by destruct l1. Qed.

Lemma deepest_ok : forall t K (s : rbtree P V) fuel, holds s (plug K t) -> t <> Leaf -> (length (addrs t) <= fuel)%nat -> left_deepest fuel (ptr t) s = Ret (first (post t)).
Proof.
  induction t as [|c l IHl a x r IHr]; intros K s fuel H Ht Hf; [done|]. destruct (holds_disjoint s _ _ H) as (_ & _ & F). rewrite (addrs_nd L c l a x r) in F, Hf. apply Forall_cons in F as [_ F]. apply Forall_app in F as [Fl Fr]. cbn in Hf. rewrite length_app in Hf. destruct fuel as [|fuel]; [lia|].
  cbn [left_deepest ptr post]. rewrite (get_at s K L c l a x r H), ret_bind. cbn [cell left right]. destruct (leaf_dec l) as [->|Hl]; [cbn [ptr Z.eqb negb post app]|].
  - destruct (leaf_dec r) as [->|Hr]; [done|]. rewrite (proj2 (Z.eqb_neq _ 0)) by by rewrite (ptr_zero r Fr). cbn [negb]. rewrite (IHr (Frm R c a x Leaf :: K) s fuel H Hr) by lia. rewrite first_app; [done|]. by rewrite post_leaf.
  - rewrite (proj2 (Z.eqb_neq _ 0)) by by rewrite (ptr_zero l Fl). cbn [negb]. rewrite (IHl (Frm L c a x r :: K) s fuel H Hl) by lia. rewrite first_app; [done|]. by rewrite post_leaf.
Qed.
Lemma postorder_next (s : rbtree P V) K t : holds s (plug K t) -> t <> Leaf -> rb_next_postorder (ptr t) s = Ret (first (after K)).
Proof.
  intros H Ht. unfold rb_next_postorder. destruct (holds_disjoint s _ _ H) as (D & Fk & Ft). rewrite (proj2 (Z.eqb_neq _ 0)) by by rewrite (ptr_zero t Ft). destruct (tree_nd L t Ht) as (c & t1 & a & x & t2 & Et). assert (Hp : parent_of s (ptr t) = Ret (up K)) by (rewrite Et in *; rewrite ptr_nd; apply (parent_at s K L c t1 a x t2 H)). rewrite Hp, ret_bind.
  destruct K as [|g K]; [done|]. cbn [up after]. cbn [kaddrs] in D, Fk. apply Forall_cons in Fk as [[Hg _] Fk]. apply Forall_app in Fk as [Fs _]. rewrite (proj2 (Z.eqb_neq _ 0)) by lia. rewrite (get_at s K (fd g) (fc g) t (fa g) (fx g) (fs g) H), ret_bind. pose proof (context_size s (g :: K) t H) as Hc. destruct (fd g) eqn:Ed; cbn [cell left right].
  - rewrite Z.eqb_refl. cbn [andb]. destruct (leaf_dec (fs g)) as [->|Hs]; [done|]. rewrite (proj2 (Z.eqb_neq _ 0)) by by rewrite (ptr_zero _ Fs). cbn [negb]. assert (Hs' : holds s (plug (Frm R (fc g) (fa g) (fx g) t :: K) (fs g))) by (cbn [plug] in H; unfold fill in H; rewrite Ed in H; exact H).
    pose proof (context_size _ _ _ Hs') as Hc'. rewrite (deepest_ok (fs g) _ s (fuel_of s) Hs' Hs) by (unfold fuel_of; lia). rewrite first_app; [done|]. by rewrite post_leaf.
  - rewrite (proj2 (Z.eqb_neq _ _)); [done|]. intros Eq. apply NoDup_app in D as (_ & D & _). destruct (fs g) as [|c0 l0 a0 x0 r0] eqn:Ef; [by apply (ptr_zero t Ft) in Eq|]. apply (D (ptr t)); [|by apply ptr_in]. rewrite Eq. right. apply elem_of_app. left. by apply ptr_in.
Qed.
(** The walk visits the nodes in postorder. *)
Lemma postorder_ok (s : rbtree P V) T : holds s T -> rb_first_postorder s = Ret (first (post T)) /\ forall A a B, post T = A ++ a :: B -> rb_next_postorder a s = Ret (first B).
Proof.
  intros H. split.
  - unfold rb_first_postorder. rewrite (h_root _ _ H). destruct (leaf_dec T) as [->|Ht]; [done|]. rewrite (proj2 (Z.eqb_neq _ 0)) by by rewrite (ptr_zero T (h_addr _ _ H)). pose proof (context_size s [] T H) as Hc. apply (deepest_ok T [] s (fuel_of s) H Ht). unfold fuel_of. cbn in Hc. lia.
  - intros A a B E. assert (Hin : a ∈ addrs T) by (rewrite <- post_addrs, E; apply elem_of_app; right; left). destruct (locate T a Hin) as (K & c & l & x & r & ->). pose proof (postorder_next s K (Node c l a x r) H ltac:(done)) as Hnx. cbn [ptr] in Hnx. rewrite Hnx. do 2 f_equal.
    pose proof (h_nodup _ _ H) as Hn. rewrite <- post_addrs in Hn. pose proof Hn as Hn'. rewrite E in Hn'. assert (E' : post (plug K (Node c l a x r)) = (before K ++ post l ++ post r) ++ a :: after K) by (rewrite post_context; cbn [post]; rewrite <- !(assoc_L (++)); done). rewrite E' in E, Hn.
    apply NoDup_app in Hn as (_ & Hn & _), Hn' as (_ & Hn' & _). apply not_elem_of_app_cons_inv_l in E as (_ & _ & ?); [done| |]; intros Hin'; [apply (Hn' a Hin')|apply (Hn a Hin')]; left.
Qed.

(** ** Payloads *)

(** No operation writes what a node is embedded in. *)
Definition kept (s s' : rbtree P V) : Prop := forall z, payload <$> nodes s' !! z = payload <$> nodes s !! z.
Lemma kept_refl s : kept s s.
Proof. done. Qed.
Lemma kept_trans s1 s2 s3 : kept s1 s2 -> kept s2 s3 -> kept s1 s3.
Proof. intros H1 H2 z. by rewrite H2. Qed.
Lemma put_kept s a x x' : nodes s !! a = Some x -> payload x' = payload x -> kept s (put a x' s).
Proof. intros E Ex z. cbn [nodes put]. destruct (decide (z = a)) as [->|Hne]; [by rewrite lookup_insert_eq, E; cbn; rewrite Ex|by rewrite lookup_insert_ne]. Qed.
Lemma get_some (s : rbtree P V) a x : get s a = Ret x -> nodes s !! a = Some x.
Proof. unfold get. destruct (nodes s !! a); cbn; congruence. Qed.
Lemma update_kept a f (s s' : rbtree P V) : (forall x, payload (f x) = payload x) -> update a f s = Ret s' -> kept s s'.
Proof. intros Hf H. unfold update in H. apply bind_Ret in H as (x & Ex & H). injection H as <-. apply (put_kept s a x); [by apply get_some|apply Hf]. Qed.
Lemma set_child_kept d a v (s s' : rbtree P V) : set_child d a v s = Ret s' -> kept s s'.
Proof. apply update_kept. by destruct d. Qed.
Lemma set_pc_kept a f (s s' : rbtree P V) : update a (fun x => set_pc (f x) x) s = Ret s' -> kept s s'.
Proof. by apply update_kept. Qed.
Lemma unless_kept p f (s s' : rbtree P V) : (forall s1 s2, f s1 = Ret s2 -> kept s1 s2) -> unless_null p f s = Ret s' -> kept s s'.
Proof. unfold unless_null. intros Hf. destruct (p =? 0); [by intros [= <-]|apply Hf]. Qed.
Lemma run_cb_kept f a (s s' : rbtree P V) : run_cb f a s = Ret s' -> kept s s'.
Proof. unfold run_cb. intros H. apply bind_Ret in H as (x & Ex & H). apply bind_Ret in H as (l & _ & H). apply bind_Ret in H as (r & _ & H). injection H as <-. by apply (put_kept s a x); [apply get_some|]. Qed.
Lemma augment_kept cb a (s s' : rbtree P V) : augment cb a s = Ret s' -> kept s s'.
Proof. destruct cb; [apply run_cb_kept|by intros [= <-]]. Qed.
Lemma propagate_kept cb a (s s' : rbtree P V) : rb_augment_propagate cb a s = Ret s' -> kept s s'.
Proof.
  unfold rb_augment_propagate. destruct cb as [f|]; [|by intros [= <-]]. generalize (fuel_of s) as n. intros n. revert a s. induction n as [|n IH]; intros a s; cbn [propagate_loop]; [done|]. destruct (a =? 0); [by intros [= <-]|]. intros H. apply bind_Ret in H as (s1 & H1 & H). apply bind_Ret in H as (p & _ & H).
  apply (kept_trans _ s1); [by apply (run_cb_kept f a)|by apply (IH p)].
Qed.
Lemma replace_child_kept d p a b (s s' : rbtree P V) : replace_child d p a b s = Ret s' -> kept s s'.
Proof. unfold replace_child. destruct (p =? 0); [by intros [= <-]|]. intros H. apply bind_Ret in H as (c & _ & H). by destruct (c =? a); apply set_child_kept in H. Qed.

(** Follows the states backwards. *)
Ltac binds H := repeat (lazymatch type of H with (_ ≫= _) = _ => apply bind_Ret in H as (? & ? & H) end).
Ltac back :=
  match goal with
  | |- kept ?s ?s => apply kept_refl
  | H : kept ?s1 ?s2 |- kept _ ?s2 => apply (kept_trans _ s1 _); [|exact H]
  | H : set_child _ _ _ ?s1 = Ret ?s2 |- kept _ ?s2 => apply (kept_trans _ s1 _); [|exact (set_child_kept _ _ _ _ _ H)]
  | H : rb_set_parent _ _ ?s1 = Ret ?s2 |- kept _ ?s2 => apply (kept_trans _ s1 _); [|exact (set_pc_kept _ _ _ _ H)]
  | H : rb_set_color _ _ ?s1 = Ret ?s2 |- kept _ ?s2 => apply (kept_trans _ s1 _); [|exact (set_pc_kept _ _ _ _ H)]
  | H : rb_set_parent_color _ _ _ ?s1 = Ret ?s2 |- kept _ ?s2 => apply (kept_trans _ s1 _); [|exact (set_pc_kept _ _ _ _ H)]
  | H : unless_null _ (rb_set_parent _ _) ?s1 = Ret ?s2 |- kept _ ?s2 => apply (kept_trans _ s1 _); [|exact (unless_kept _ _ _ _ (fun _ _ E => set_pc_kept _ _ _ _ E) H)]
  | H : unless_null _ (rb_set_color _ _) ?s1 = Ret ?s2 |- kept _ ?s2 => apply (kept_trans _ s1 _); [|exact (unless_kept _ _ _ _ (fun _ _ E => set_pc_kept _ _ _ _ E) H)]
  | H : replace_child _ _ _ _ ?s1 = Ret ?s2 |- kept _ ?s2 => apply (kept_trans _ s1 _); [|exact (replace_child_kept _ _ _ _ _ _ H)]
  | H : augment _ _ ?s1 = Ret ?s2 |- kept _ ?s2 => apply (kept_trans _ s1 _); [|exact (augment_kept _ _ _ _ H)]
  | H : rb_augment_propagate _ _ ?s1 = Ret ?s2 |- kept _ ?s2 => apply (kept_trans _ s1 _); [|exact (propagate_kept _ _ _ _ H)]
  end.

Lemma rotate_kept d cb a (s s' : rbtree P V) : rb_rotate d cb a s = Ret s' -> kept s s'.
Proof. unfold rb_rotate. intros H. binds H. repeat back. Qed.
Lemma take_place_kept a b (s s' : rbtree P V) : take_place a b s = Ret s' -> kept s s'.
Proof. unfold take_place. intros H. binds H. repeat back. Qed.
Lemma erase_rest_kept d cb p o (s : rbtree P V) more node par s' : erase_rest d cb p o s = Ret (more, node, par, s') -> kept s s'.
Proof.
  unfold erase_rest. intros H. destruct (o =? 0); [binds H; simplify_eq; apply kept_refl|]. binds H. destruct (_ && _); [binds H; simplify_eq; repeat back|]. apply bind_Ret in H as ([o1 s1] & Hq & H). assert (K1 : kept s s1).
  { match type of Hq with (if ?b then _ else _) = _ => destruct b end; [|by injection Hq as <- <-]. binds Hq. injection Hq as <- <-. match goal with H : rb_rotate _ _ _ _ = Ret _ |- _ => apply rotate_kept in H end. repeat back. }
  apply bind_Ret in H as (s2 & Hr & H). assert (K2 : kept s1 s2). { revert Hr. apply unless_kept. intros sa sb Hs. binds Hs. repeat back. }
  binds H. injection H as <- <- <- <-. match goal with H : rb_rotate _ _ _ _ = Ret _ |- _ => apply rotate_kept in H end. repeat back.
Qed.
Lemma erase_side_kept d cb p (s : rbtree P V) more node par s' : erase_side d cb p s = Ret (more, node, par, s') -> kept s s'.
Proof.
  unfold erase_side. intros H. apply bind_Ret in H as (o & _ & H). apply bind_Ret in H as (red & _ & H). apply bind_Ret in H as ([o1 s1] & H1 & H). apply erase_rest_kept in H. apply (kept_trans _ s1); [|done]. destruct red; [|by injection H1 as <- <-]. binds H1. injection H1 as <- <-.
  match goal with H : rb_rotate _ _ _ _ = Ret _ |- _ => apply rotate_kept in H end. repeat back.
Qed.
Lemma erase_color_kept cb node p (s s' : rbtree P V) : rb_erase_color cb node p s = Ret s' -> kept s s'.
Proof.
  unfold rb_erase_color. intros H. apply bind_Ret in H as ([n1 s1] & H1 & H). apply (kept_trans _ s1); [|revert H; apply unless_kept; intros sa sb; apply set_pc_kept]. clear H. revert H1. generalize (fuel_of s) as n. intros n. revert node p s.
  induction n as [|n IH]; intros node p s; cbn [erase_loop]; [done|]. intros H. apply bind_Ret in H as (b & _ & H). destruct (_ && _); [|by injection H as _ <-]. apply bind_Ret in H as (l & _ & H). apply bind_Ret in H as ([[[more n2] p2] s2] & H2 & H). apply erase_side_kept in H2. destruct more; [|injection H as _ <-; done]. apply (kept_trans _ s2); [done|by apply (IH n2 p2)].
Qed.
Lemma erase_kept cb a (s s' : rbtree P V) : rb_erase_augmented cb a s = Ret s' -> kept s s'.
Proof.
  unfold rb_erase_augmented. intros H. apply bind_Ret in H as (l & _ & H). apply bind_Ret in H as (r & _ & H). apply bind_Ret in H as ([[[ch p] c] s1] & Hq & H). apply (kept_trans _ s1); [clear H|destruct (c =? _); [by apply erase_color_kept in H|by injection H as <-]].
  assert (Hone : forall ch s2 c2 p2, erase_one cb a ch s = Ret (p2, c2, s2) -> kept s s2) by (intros ch0 s2 c2 p2 E; unfold erase_one in E; binds E; injection E as <- <- <-; repeat back).
  destruct (l =? 0); [apply bind_Ret in Hq as ([[p2 c2] s2] & E & Hq); injection Hq as <- <- <- <-; by apply (Hone r s2 c2 p2)|]. destruct (r =? 0); [apply bind_Ret in Hq as ([[p2 c2] s2] & E & Hq); injection Hq as <- <- <- <-; by apply (Hone l s2 c2 p2)|].
  unfold erase_two in Hq. do 8 apply bind_Ret in Hq as (? & ? & Hq). apply bind_Ret in Hq as ([p3 s3] & Hm & Hq). binds Hq. injection Hq as <- <- <- <-. match goal with H : take_place _ _ _ = Ret _ |- _ => apply take_place_kept in H end. repeat back.
  match type of Hm with (if ?b then _ else _) = _ => destruct b end; binds Hm; injection Hm as <- <-; repeat back.
Qed.

(** ** Replacing a node *)

Lemma replace_ok (s : rbtree P V) K c l a x r b y : holds s (plug K (Node c l a x r)) -> nodes s !! b = Some y -> b ∉ addrs (plug K (Node c l a x r)) -> addr b ->
  exists s', rb_replace_node a b s = Ret s' /\ holds s' (plug K (Node c l b (payload y, summary y) r)) /\ (forall z, z <> b -> z ∉ addrs (plug K (Node c l a x r)) -> nodes s' !! z = nodes s !! z).
Proof.
  intros H Eb Nb Hb. pose proof (nonzero s K L c l a x r H) as Ha0. destruct (holds_disjoint s _ _ H) as (D & Fk & Ft). rewrite addrs_plug in Nb. rewrite (addrs_nd L c l a x r) in D, Ft, Nb. apply NoDup_app in D as (Dk & Dkt & Dt). apply NoDup_cons in Dt as [Na Dt]. apply NoDup_app in Dt as (Dl & Dlr & Dr). apply Forall_cons in Ft as [[_ Ha] Ft]. apply Forall_app in Ft as [Fl Fr].
  rewrite !not_elem_of_app, !not_elem_of_cons, !not_elem_of_app in Nb. destruct Nb as (Nbk & Nba & Nbl & Nbr). apply not_elem_of_app in Na as [Nal Nar]. assert (Nak : a ∉ kaddrs K) by (intros Hin; apply (Dkt a Hin); left).
  assert (Dkl : forall z, z ∈ kaddrs K -> z ∉ addrs l /\ z ∉ addrs r) by (intros z Hz; split; intros Hz'; apply (Dkt z Hz); right; apply elem_of_app; auto). pose proof (h_rep _ _ H) as Hr. apply rep_plug in Hr as [HK (Ea & Rl & Rr)]. cbn [ptr] in HK.
  unfold rb_replace_node. rewrite (parent_at s K L c l a x r H), ret_bind. destruct (replace_child_ok s L K a b HK Fk Ha0 Nak Dk) as (s1 & -> & Q1 & R1 & O1). rewrite ret_bind. assert (Ea1 : nodes s1 !! a = Some (cell L (up K) c x (ptr l) (ptr r))) by (rewrite O1 by done; exact Ea). rewrite (child_get s1 L a _ Ea1), ret_bind. cbn [cell child left].
  destruct (reparent_ok (nodes s1) a b l s1 eq_refl) as (s2 & -> & Q2 & R2 & O2); [apply (rep_ext (nodes s)); [|done]; intros z Hz; apply O1; intros Hz'; by destruct (Dkl z Hz')|done|done|done|apply Hb|]. rewrite ret_bind. assert (Ea2 : nodes s2 !! a = Some (cell L (up K) c x (ptr l) (ptr r))) by (rewrite O2 by done; exact Ea1). rewrite (child_get s2 R a _ Ea2), ret_bind. cbn [cell child right].
  destruct (reparent_ok (nodes s2) a b r s2 eq_refl) as (s3 & -> & Q3 & R3 & O3); [apply (rep_ext (nodes s)); [|done]; intros z Hz; rewrite O2 by (intros Hz'; by apply (Dlr z)); apply O1; intros Hz'; by destruct (Dkl z Hz')|done|done|done|apply Hb|]. rewrite ret_bind. assert (Ea3 : nodes s3 !! a = Some (cell L (up K) c x (ptr l) (ptr r))) by (rewrite O3 by done; exact Ea2).
  unfold get. rewrite Ea3. cbn [deref]. rewrite ret_bind. assert (Eb3 : nodes s3 !! b = Some y) by (rewrite O3, O2, O1 by done; exact Eb). rewrite (update_get _ _ _ _ Eb3). eexists. split; [done|]. assert (Pa : addrs (Node c l b (payload y, summary y) r) ≡ₚ b :: addrs l ++ addrs r) by apply (addrs_nd L). split.
  - constructor.
    + transitivity (root s3); [done|]. rewrite Q3, Q2, Q1. destruct K as [|g K]; [done|]. rewrite (h_root _ _ H). apply ptr_plug. by left.
    + apply rep_plug. cbn [ptr nodes put]. split; [apply (repk_ext (nodes s1)); [|done]; intros z Hz; rewrite lookup_insert_ne by (intros <-; done); by rewrite O3, O2 by apply (Dkl z Hz)|]. cbn [rep]. rewrite lookup_insert_eq. split; [done|]. split.
      * apply (rep_ext (nodes s2)); [|done]. intros z Hz. rewrite lookup_insert_ne by (intros <-; done). apply O3. intros Hz'. by apply (Dlr z).
      * apply (rep_ext (nodes s3)); [|done]. intros z Hz. by rewrite lookup_insert_ne by (intros <-; done).
    + rewrite addrs_plug, Pa. apply NoDup_app. split; [done|]. split; [|apply NoDup_cons; split; [by apply not_elem_of_app|by apply NoDup_app]]. intros z Hz [->|Hz']%elem_of_cons; [done|]. apply elem_of_app in Hz'. destruct (Dkl z Hz). tauto.
    + rewrite addrs_plug, Pa. apply Forall_app. split; [done|]. apply Forall_cons. split; [done|]. by apply Forall_app.
  - intros z Hzb Hz. rewrite addrs_plug, (addrs_nd L c l a x r), !not_elem_of_app, !not_elem_of_cons, !not_elem_of_app in Hz. destruct Hz as (Z1 & _ & Z2 & Z3). cbn [nodes put]. rewrite lookup_insert_ne by done. by rewrite O3, O2, O1.
Qed.

(** ** Depth *)

Lemma rb_size t : forall n, rb (t : tree) n -> (2 ^ n <= S (length (elems t)))%nat.
Proof.
  induction t as [|c l IHl a x r IHr]; intros n; cbn [rb elems]; [intros ->; cbn; lia|]. rewrite length_app. cbn [length]. destruct c.
  - destruct n as [|m]; [done|]. intros [Hl Hr]. specialize (IHl m Hl). specialize (IHr m Hr). cbn. lia.
  - intros (_ & _ & Hl & Hr). specialize (IHl n Hl). lia.
Qed.
(** A position has at most twice as many nodes above it as there are black ones on the
    path, and one more below a red root. *)
Lemma rb_depth K : forall (t : tree) N, rb (plug K t) N -> (length K <= 2 * N + (if black (plug K t) then 0 else 1))%nat.
Proof.
  assert (Hrev : forall K' t N, rb (plug (rev K') t : tree) N -> (length (rev K') <= 2 * N + (if black (plug (rev K') t) then 0 else 1))%nat).
  { induction K' as [|g K' IH]; intros t N; [cbn; lia|]. cbn [rev]. rewrite plug_app. cbn [plug]. unfold fill. rewrite black_nd, length_app. cbn [length]. intros H. apply rb_nd in H. destruct (fc g).
    - destruct N as [|m]; [done|]. destruct H as [H _]. specialize (IH t m H). destruct (black (plug (rev K') t)); lia.
    - destruct H as (Hb & _ & H & _). specialize (IH t N H). rewrite Hb in IH. lia. }
  intros t N. rewrite <- (rev_involutive K). apply Hrev.
Qed.

(** ** Sound trees *)

(** A well-formed tree in memory: the nodes hold it, it is red-black, and every summary
    is the callback's value. *)
Record sound (cb : option (callback P V)) (s : rbtree P V) (T : tree) : Prop := mk_sound {
  sd_holds : holds s T; sd_balanced : rb_ok T; sd_summaries : aug cb T }.

Lemma erase_at cb (s : rbtree P V) T A a p B : associative cb -> sound cb s T -> elems T = A ++ (a, p) :: B ->
  exists s' T', rb_erase_augmented cb a s = Ret s' /\ sound cb s' T' /\ elems T' = A ++ B /\ kept s s' /\ (forall z, z ∉ addrs T -> nodes s' !! z = nodes s !! z).
Proof.
  intros Hcb [H HR HA] E. assert (Hin : a ∈ addrs T) by (unfold addrs; rewrite E, fmap_app; apply elem_of_app; right; left). destruct (locate T a Hin) as (K & c & l & x & r & ET). destruct (elems_split T K c l a x r A p B (h_nodup _ _ H) ET E) as (_ & -> & ->). subst T.
  destruct (erase_ok cb s K c l a x r Hcb H HR HA) as (s' & T' & E' & H' & HR' & HA' & El & O). exists s', T'. split; [done|]. split; [by split|]. split; [by rewrite El, !(assoc_L (++))|]. split; [exact (erase_kept cb a s s' E')|done].
Qed.

(** Memory outside the tree does not matter. *)
Lemma sound_ext cb r m m' T : (forall z, z ∈ addrs T -> m' !! z = m !! z) -> sound cb (mk_tree r m) T -> sound cb (mk_tree r m') T.
Proof. intros E [[Hr Hrep Hn Ha] HR HA]. split; [|done|done]. split; [done| |done|done]. by apply (rep_ext m). Qed.
Lemma elem_payload (s : rbtree P V) T a p : holds s T -> (a, p) ∈ elems T -> exists x, nodes s !! a = Some x /\ payload x = p.
Proof.
  intros H Hin. apply list_elem_of_split in Hin as (A & B & E). assert (Hin : a ∈ addrs T) by (unfold addrs; rewrite E, fmap_app; apply elem_of_app; right; left). destruct (locate T a Hin) as (K & c & l & x & r & ET). destruct (elems_split T K c l a x r A p B (h_nodup _ _ H) ET E) as (-> & _ & _). subst T.
  pose proof (get_some _ _ _ (get_at s K L c l a x r H)) as Eg. by eexists.
Qed.

Lemma black_same K : forall t t' : tree, black t = black t' -> black (plug K t) = black (plug K t').
Proof. induction K as [|g K IH]; intros t t' E; cbn [plug]; [done|]. apply IH. unfold fill. by rewrite !black_nd. Qed.
(** A new payload that the callback does not tell from the old one. *)
Lemma payload_at f (s : rbtree P V) T A a x p' B : sound (Some f) s T -> nodes s !! a = Some x -> elems T = A ++ (a, payload x) :: B -> (forall u v, f p' u v = f (payload x) u v) ->
  exists T', sound (Some f) (put a (mk_node (pc x) (right x) (left x) p' (summary x)) s) T' /\ elems T' = A ++ (a, p') :: B.
Proof.
  intros [H HR HA] Ex E Hf. assert (Hin : a ∈ addrs T) by (unfold addrs; rewrite E, fmap_app; apply elem_of_app; right; left). destruct (locate T a Hin) as (K & c & l & y & r & ET). destruct (elems_split T K c l a y r A _ B (h_nodup _ _ H) ET E) as (Ey & EA & EB). subst T.
  pose proof (get_some _ _ _ (get_at s K L c l a y r H)) as Eg. assert (x = cell L (up K) c y (ptr l) (ptr r)) as -> by congruence. cbn [cell pc right left summary payload] in *. set (s' := put _ _ s). exists (plug K (Node c l a (p', snd y) r)).
  assert (Ea : addrs (Node c l a (p', snd y) r) = addrs (Node c l a y r)) by (unfold addrs; cbn; by rewrite !fmap_app). split; [split|].
  - destruct (holds_disjoint s _ _ H) as (D & _ & _). pose proof D as (_ & Dk & Dt)%NoDup_app. pose proof Dt as Dt'. rewrite (addrs_nd L c l a y r) in Dt'. apply NoDup_cons in Dt' as [Da _]. apply not_elem_of_app in Da as [Dal Dar].
    apply (holds_local s s' K (Node c l a y r)); [done| | |done| |by rewrite Ea|by rewrite Ea].
    + transitivity (root s); [done|]. rewrite (h_root _ _ H). apply ptr_plug. by right.
    + intros b Hb. subst s'. cbn [nodes put]. rewrite lookup_insert_ne; [done|]. intros <-. apply (Dk a Hb). rewrite (addrs_nd L c l a y r). left.
    + apply h_rep, rep_plug in H as [_ (_ & H1 & H2)]. subst s'. cbn [nodes put rep]. rewrite lookup_insert_eq. split; [done|]. split; (eapply rep_ext; [|done]); intros b Hb; rewrite lookup_insert_ne; try done; congruence.
  - destruct HR as [Hb [N HN]]. destruct (unplug_rb K _ N HN Hb) as (n & HK & Hn & Hc). split; [by rewrite (black_same K _ (Node c l a y r))|]. apply (plug_rb K n); [done|done|]. destruct Hc; auto.
  - revert HA. apply (aug_plug (Some f)); [done|]. cbn. rewrite Hf. auto.
  - rewrite elems_context. cbn [elems fst]. rewrite EA, EB, <- !(assoc_L (++)). done.
Qed.

End Walk.
End RbWalk.
