(* ===== verification/RbClaims.v ===== *)
(** RbClaims: what the red-black trees of [lib/rbtree.c] promise to their users: they are
    sequences with insertion at a link and removal of a node, balanced, with exact
    summaries, and the walks follow the sequence. *)

From S2P Require Import Prelude RbTree RbRep RbInsert RbErase RbWalk.
From stdpp Require Import list_relations.
#[local] Open Scope Z_scope.

Module RbClaims.
Import RbTree RbRep RbInsert RbErase RbWalk.

Section Claims.
Context {P V : Type}.
Notation tree := (@tree P V).
Notation frm := (@frm P V).

(** C11: Linking a node at an empty place of a red-black tree and rebalancing with
    [rb_insert_augmented] terminates without a fault, leaves a red-black tree with
    exact summaries, puts the node into the sequence exactly at that place, keeps
    the order and the payloads of all others, and touches no memory outside the tree. *)
Theorem rb_insert_spec cb (s : rbtree P V) K a x : associative cb -> sound cb s (plug K Leaf) ->
  nodes s !! a = Some x -> addr a -> a ∉ addrs (plug K Leaf : tree) ->
  exists s' T', (s1 ← rb_link_node a (up K) (place_of K) s; rb_insert_augmented cb a s1) = Ret s' /\ sound cb s' T' /\
    elems (plug K Leaf) = kleft K ++ kright K /\ elems T' = kleft K ++ (a, payload x) :: kright K /\
    (forall b, b <> a -> b ∉ addrs (plug K Leaf : tree) -> nodes s' !! b = nodes s !! b).
Proof.
  intros Hcb [H HR HA] Ex Ha Hn. destruct (insert_ok cb s K a x Hcb H HR HA Ex Ha Hn) as (s1 & s' & T' & E1 & E2 & H' & HR' & HA' & El & O). exists s', T'. rewrite E1, ret_bind. split; [done|]. split; [by split|]. split; [by rewrite elems_context|]. by split.
Qed.

(** C6: [rb_erase_augmented] of any node of a red-black tree terminates without a fault,
    leaves a red-black tree with exact summaries whose sequence is the old one without
    that node, keeps the payload of every object, and touches no memory outside the
    tree. *)
Theorem rb_erase_spec cb (s : rbtree P V) T A a p B : associative cb -> sound cb s T -> elems T = A ++ (a, p) :: B ->
  exists s' T', rb_erase_augmented cb a s = Ret s' /\ sound cb s' T' /\ elems T' = A ++ B /\
    (forall z, payload <$> nodes s' !! z = payload <$> nodes s !! z) /\ (forall z, z ∉ addrs T -> nodes s' !! z = nodes s !! z).
Proof. apply erase_at. Qed.

(** On every tree in memory, balanced or not, [rb_first] and [rb_last] give the ends
    of the sequence, [rb_next] and [rb_prev] the neighbours, NULL past the ends. *)
Theorem rb_walk_spec (s : rbtree P V) T : holds s T ->
  rb_first s = Ret (first_addr (elems T)) /\ rb_last s = Ret (last_addr (elems T)) /\
  (forall A a p B, elems T = A ++ (a, p) :: B -> rb_next a s = Ret (first_addr B) /\ rb_prev a s = Ret (last_addr A)).
Proof. intros H. split; [by apply (extreme_rep L)|]. split; [by apply (extreme_rep R)|]. intros A a p B E. split; [by apply (step_rep R s T A a p B)|by apply (step_rep L s T A a p B)]. Qed.

(** [rb_validate_tree] always answers on a tree in memory, and answers yes exactly
    when the tree is red-black: black root, no red child of a red node, the same
    number of black nodes on every path. *)
Theorem rb_validate_exact (s : rbtree P V) T : holds s T -> exists b : bool, rb_validate_tree s = Ret b /\ (b = true <-> rb_ok T).
Proof. apply validates_ok. Qed.

(** A red-black tree is balanced: a place with [k] nodes above it in a tree of [n]
    nodes has [2^k <= (n+1)^2], so a path has at most [2 log2 (n+1)] nodes. *)
Theorem rb_height_bound K (t : tree) : rb_ok (plug K t) -> (2 ^ length K <= S (length (elems (plug K t))) ^ 2)%nat.
Proof.
  intros [Hb [N HN]]. pose proof (rb_depth K t N HN) as Hd. rewrite Hb in Hd. pose proof (rb_size _ N HN) as Hs. etransitivity; [apply (Nat.pow_le_mono_r 2 _ (2 * N)); lia|]. rewrite Nat.mul_comm, Nat.pow_mul_r. by apply Nat.pow_le_mono_l.
Qed.

End Claims.

(** ** A small tree: keys are payloads, the summary is the least key *)

Definition least : callback Z Z := fun k l r => Z.min k (Z.min (default k l) (default k r)).
Lemma demo_associative : associative (Some least).
Proof. intros p q [u|] [v|] [w|]; unfold least; cbn; lia. Qed.
Definition demo_tree : @tree Z Z := Node true (Node false Leaf 8 (3, 3) Leaf) 16 (5, 3) (Node false Leaf 24 (7, 7) Leaf).
Definition demo_heap : rbtree Z Z := mk_tree 16 {[ 8 := mk_node 16 0 0 3 3; 16 := mk_node 1 24 8 5 3; 24 := mk_node 16 0 0 7 7; 32 := mk_node 0 0 0 9 0 ]}.
Lemma demo_holds : holds demo_heap demo_tree.
Proof.
  split; [reflexivity|vm_compute; repeat split; reflexivity| |].
  - apply (bool_decide_unpack _). vm_compute. exact I.
  - repeat constructor; try lia; [exists 2|exists 4|exists 6]; reflexivity.
Qed.
Lemma demo_sound : sound (Some least) demo_heap demo_tree.
Proof. split; [exact demo_holds|split; [reflexivity|exists 1%nat; cbn; auto]|cbn; auto]. Qed.
(** The place to the right of 24. *)
Definition demo_place : list (@frm Z Z) := [Frm R false 24 (7, 7) Leaf; Frm R true 16 (5, 3) (Node false Leaf 8 (3, 3) Leaf)].

Lemma rb_insert_spec_witness : exists s' T', (s1 ← rb_link_node 32 24 (Under 24 R) demo_heap; rb_insert_augmented (Some least) 32 s1) = Ret s' /\ sound (Some least) s' T' /\ elems T' = [(8, 3); (16, 5); (24, 7); (32, 9)].
Proof.
  destruct (rb_insert_spec (Some least) demo_heap demo_place 32 (mk_node 0 0 0 9 0) demo_associative demo_sound) as (s' & T' & E & S & _ & El & _); [reflexivity|split; [lia|exists 8; reflexivity]|apply (bool_decide_unpack _); vm_compute; exact I|].
  exists s', T'. auto.
Defined.
Lemma rb_erase_spec_witness : exists s' T', rb_erase_augmented (Some least) 16 demo_heap = Ret s' /\ sound (Some least) s' T' /\ elems T' = [(8, 3); (24, 7)].
Proof. destruct (rb_erase_spec (Some least) demo_heap demo_tree [(8, 3)] 16 5 [(24, 7)] demo_associative demo_sound) as (s' & T' & E & S & El & _); [reflexivity|]. exists s', T'. auto. Defined.
Lemma rb_walk_spec_witness : rb_first demo_heap = Ret 8 /\ rb_last demo_heap = Ret 24 /\ rb_next 16 demo_heap = Ret 24 /\ rb_prev 16 demo_heap = Ret 8.
Proof. destruct (rb_walk_spec demo_heap demo_tree demo_holds) as (H1 & H2 & H3). destruct (H3 [(8, 3)] 16 5 [(24, 7)]) as [H4 H5]; [reflexivity|]. auto. Defined.
Lemma rb_validate_exact_witness : rb_validate_tree demo_heap = Ret true.
Proof. destruct (rb_validate_exact demo_heap demo_tree demo_holds) as (b & E & H). rewrite E. f_equal. apply H. apply (sd_balanced _ _ _ demo_sound). Defined.
Lemma rb_height_bound_witness : (2 ^ length demo_place <= S (length (elems demo_tree)) ^ 2)%nat.
Proof. exact (rb_height_bound demo_place Leaf (sd_balanced _ _ _ demo_sound)). Defined.

End RbClaims.
