(* ===== verification/Eevfd.v ===== *)
(** Eevfd: the EEVFD run queue ([kernel/src/sched/eevfd.c], [eevfd.h],
    [eevfd_math.h]): entities in a red-black tree by virtual runtime, augmented with
    the earliest deadline of each subtree.

    [rb_node] is the first member of [struct sched_entity], so an entity and its node
    have the same address: memory is the heap of [RbTree], with [min_deadline] as the
    summary and the other members as the payload. The run queue itself is a record;
    its address is taken to be valid. Time comes as an argument. *)

From S2P Require Import Prelude RbTree.

Module Eevfd.
Import RbTree.

(** ** [eevfd_math.h] *)

Definition EEVFD_NICE_0_WEIGHT : Z := 1024.
Definition EEVFD_BASE_SLICE_NS : Z := 3000000.
Definition EEVFD_MIN_SLICE_NS : Z := 500000.
Definition EEVFD_MAX_SLICE_NS : Z := 20000000.
Definition EEVFD_INTERACTIVE_SLICE_NS : Z := 1000000.
Definition EEVFD_BATCH_SLICE_NS : Z := 6000000.
Definition EEVFD_MIN_GRANULARITY_NS : Z := 500000.
Definition EEVFD_INTERACTIVE_MIN_GRANULARITY_NS : Z := 100000.
Definition EEVFD_WAKEUP_GRANULARITY_NS : Z := 500000.

Definition eevfd_calc_slice_for_nice (nice : Z) : Z :=
  if nice <=? -10 then EEVFD_INTERACTIVE_SLICE_NS
  else if nice <? 0 then u64 (EEVFD_INTERACTIVE_SLICE_NS + u64 (u64 (nice + 10) * 200000))
  else if nice =? 0 then EEVFD_BASE_SLICE_NS
  else if nice >=? 10 then EEVFD_BATCH_SLICE_NS
  else u64 (EEVFD_BASE_SLICE_NS + u64 (u64 nice * 300000)).

Definition prio_to_weight : list Z :=
  [88761; 71755; 56483; 46273; 36291; 29154; 23254; 18705; 14949; 11916; 9548; 7620; 6100; 4904; 3906; 3121; 2501; 1991; 1586; 1277;
   1024; 820; 655; 526; 423; 335; 272; 215; 172; 137; 110; 87; 70; 56; 45; 36; 29; 23; 18; 15].
Definition prio_to_wmult : list Z :=
  [48388; 59856; 76040; 92818; 118348; 147320; 184698; 229616; 287308; 360437; 449829; 563644; 704093; 875809; 1099582; 1376151; 1717300; 2157191; 2708050; 3363326;
   4194304; 5237765; 6557202; 8165337; 10153587; 12820798; 15790321; 19976592; 24970740; 31350126; 39045157; 49367440; 61356676; 76695845; 95443718; 119304647; 148102321; 186737709; 238609294; 286331153].
Definition clamp_nice (nice : Z) : Z := let nice := if nice <? -20 then -20 else nice in if nice >? 19 then 19 else nice.
Definition nice_to_weight (nice : Z) : outcome Z := arr_get prio_to_weight (clamp_nice nice + 20).
Definition nice_to_wmult (nice : Z) : outcome Z := arr_get prio_to_wmult (clamp_nice nice + 20).

Definition calc_delta_vruntime (delta_exec_ns weight wmult : Z) : Z :=
  if weight =? EEVFD_NICE_0_WEIGHT then delta_exec_ns
  else if delta_exec_ns <=? Z.shiftr UINT64_MAX 29 then Z.shiftr (u64 (delta_exec_ns * wmult)) 22
  else Z.shiftr (u64 (Z.shiftr delta_exec_ns 10 * wmult)) 12.
Definition calc_delta_sys_vtime (delta_exec_ns total_weight : Z) : Z :=
  if total_weight =? 0 then 0
  else if total_weight =? EEVFD_NICE_0_WEIGHT then delta_exec_ns
  else u64 (u64 (delta_exec_ns * 1024) + Z.shiftr total_weight 1) / total_weight.
Definition calc_slice_vruntime : Z -> Z -> Z -> Z := calc_delta_vruntime.
Definition calc_deadline (vruntime slice_ns weight wmult : Z) : Z := u64 (vruntime + calc_slice_vruntime slice_ns weight wmult).

(** ** Entities and run queues *)

Record sched_entity := mk_se { vruntime : Z; deadline : Z; slice_ns : Z; weight : Z; wmult : Z; lag : Z; exec_start_ns : Z; prev_sum_exec_ns : Z;
  nice_value : Z; on_rq : bool; custom_slice : bool; critical_depth : Z; burst_exec_us : Z }.
Definition place_se (vr dl lg : Z) (e : sched_entity) : sched_entity := mk_se vr dl (slice_ns e) (weight e) (wmult e) lg (exec_start_ns e) (prev_sum_exec_ns e) (nice_value e) (on_rq e) (custom_slice e) (critical_depth e) (burst_exec_us e).
Definition set_lag (v : Z) (e : sched_entity) : sched_entity := place_se (vruntime e) (deadline e) v e.
Definition set_slice (v : Z) (e : sched_entity) : sched_entity := mk_se (vruntime e) (deadline e) v (weight e) (wmult e) (lag e) (exec_start_ns e) (prev_sum_exec_ns e) (nice_value e) (on_rq e) (custom_slice e) (critical_depth e) (burst_exec_us e).
Definition set_burst (v : Z) (e : sched_entity) : sched_entity := mk_se (vruntime e) (deadline e) (slice_ns e) (weight e) (wmult e) (lag e) (exec_start_ns e) (prev_sum_exec_ns e) (nice_value e) (on_rq e) (custom_slice e) (critical_depth e) v.
Definition set_exec_start (v : Z) (e : sched_entity) : sched_entity := mk_se (vruntime e) (deadline e) (slice_ns e) (weight e) (wmult e) (lag e) v (prev_sum_exec_ns e) (nice_value e) (on_rq e) (custom_slice e) (critical_depth e) (burst_exec_us e).
Definition set_sum_exec (v : Z) (e : sched_entity) : sched_entity := mk_se (vruntime e) (deadline e) (slice_ns e) (weight e) (wmult e) (lag e) (exec_start_ns e) v (nice_value e) (on_rq e) (custom_slice e) (critical_depth e) (burst_exec_us e).
Definition set_on_rq (v : bool) (e : sched_entity) : sched_entity := mk_se (vruntime e) (deadline e) (slice_ns e) (weight e) (wmult e) (lag e) (exec_start_ns e) (prev_sum_exec_ns e) (nice_value e) v (custom_slice e) (critical_depth e) (burst_exec_us e).

Notation entity := (rb_node sched_entity Z).
Notation memory := (gmap Z entity).
Definition min_deadline (x : entity) : Z := summary x.
Definition se_of (m : memory) (a : Z) : outcome sched_entity := x ← deref (m !! a); Ret (payload x).
(** Writes to an entity; [f] also gives [min_deadline] where it is written. *)
Definition write (a : Z) (f : sched_entity -> sched_entity) (m : memory) : outcome memory := x ← deref (m !! a); Ret (<[a := mk_node (pc x) (right x) (left x) (f (payload x)) (summary x)]> m).
Definition write_min (a : Z) (f : sched_entity -> sched_entity) (m : memory) : outcome memory :=
  x ← deref (m !! a); let e := f (payload x) in Ret (<[a := mk_node (pc x) (right x) (left x) e (deadline e)]> m).

Record eevfd_rq := mk_rq { tasks_tree : Z; rb_leftmost : Z; vtime : Z; total_weight : Z; nr_running : Z; min_vruntime : Z; curr : Z; curr_start_exec_ns : Z }.
Definition set_tree (t l : Z) (q : eevfd_rq) : eevfd_rq := mk_rq t l (vtime q) (total_weight q) (nr_running q) (min_vruntime q) (curr q) (curr_start_exec_ns q).
Definition set_vtime (v : Z) (q : eevfd_rq) : eevfd_rq := mk_rq (tasks_tree q) (rb_leftmost q) v (total_weight q) (nr_running q) (min_vruntime q) (curr q) (curr_start_exec_ns q).
Definition set_min_vruntime (v : Z) (q : eevfd_rq) : eevfd_rq := mk_rq (tasks_tree q) (rb_leftmost q) (vtime q) (total_weight q) (nr_running q) v (curr q) (curr_start_exec_ns q).
Definition set_load (w n : Z) (q : eevfd_rq) : eevfd_rq := mk_rq (tasks_tree q) (rb_leftmost q) (vtime q) w n (min_vruntime q) (curr q) (curr_start_exec_ns q).
Definition set_curr (c : Z) (q : eevfd_rq) : eevfd_rq := mk_rq (tasks_tree q) (rb_leftmost q) (vtime q) (total_weight q) (nr_running q) (min_vruntime q) c (curr_start_exec_ns q).
Definition set_start (v : Z) (q : eevfd_rq) : eevfd_rq := mk_rq (tasks_tree q) (rb_leftmost q) (vtime q) (total_weight q) (nr_running q) (min_vruntime q) (curr q) v.

Definition eevfd_ptr_sane (p : Z) : bool := p >=? 18446603336221196288.

(** [eevfd_update_min_deadline] *)
Definition eevfd_update_min_deadline : callback sched_entity Z := fun e l r =>
  let m := deadline e in
  let m := match l with Some v => if v <? m then v else m | None => m end in
  match r with Some v => if v <? m then v else m | None => m end.

Definition eevfd_curr_runtime (q : eevfd_rq) (a : Z) (m : memory) (now_ns : Z) : outcome Z :=
  if negb (curr q =? a) then Ret 0
  else
    e ← se_of m a;
    let used := if prev_sum_exec_ns e >=? curr_start_exec_ns q then prev_sum_exec_ns e - curr_start_exec_ns q else 0 in
    Ret (if nz (exec_start_ns e) && (now_ns >? exec_start_ns e) then u64 (used + (now_ns - exec_start_ns e)) else used).

Definition eevfd_rq_init (q : eevfd_rq) : eevfd_rq := mk_rq 0 0 0 0 0 0 0 0.

Definition s8 (z : Z) : Z := (z + 2 ^ 7) mod 2 ^ 8 - 2 ^ 7.
Definition eevfd_entity_init (a nice slice : Z) (m : memory) : outcome memory :=
  if a =? 0 then Ret m
  else
    x ← deref (m !! a);
    w ← nice_to_weight nice; wm ← nice_to_wmult nice;
    let sl := if nz slice then slice else eevfd_calc_slice_for_nice nice in
    Ret (<[a := mk_node 0 0 0 (mk_se 0 0 sl w wm 0 0 0 (s8 nice) false (nz slice) 0 0) 0]> m).

(** [eevfd_set_nice] and [eevfd_set_slice] write the deadline without the tree. *)
Definition eevfd_set_nice (a nice : Z) (m : memory) : outcome memory :=
  if a =? 0 then Ret m
  else
    e ← se_of m a;
    let effective := if nz (critical_depth e) then -20 else nice in
    w ← nice_to_weight effective; wm ← nice_to_wmult effective;
    let sl := if custom_slice e then slice_ns e else eevfd_calc_slice_for_nice nice in
    write_min a (fun e => mk_se (vruntime e) (calc_deadline (vruntime e) sl w wm) sl w wm (lag e) (exec_start_ns e) (prev_sum_exec_ns e) (s8 nice) (on_rq e) (custom_slice e) (critical_depth e) (burst_exec_us e)) m.
Definition eevfd_set_slice (a slice : Z) (m : memory) : outcome memory :=
  if a =? 0 then Ret m
  else
    let slice := if slice <? EEVFD_MIN_SLICE_NS then EEVFD_MIN_SLICE_NS else slice in
    let slice := if slice >? EEVFD_MAX_SLICE_NS then EEVFD_MAX_SLICE_NS else slice in
    write_min a (fun e => mk_se (vruntime e) (calc_deadline (vruntime e) slice (weight e) (wmult e)) slice (weight e) (wmult e) (lag e) (exec_start_ns e) (prev_sum_exec_ns e) (nice_value e) (on_rq e) true (critical_depth e) (burst_exec_us e)) m.
Definition eevfd_note_sleep (a : Z) (m : memory) : outcome memory :=
  if a =? 0 then Ret m
  else
    write a (fun e =>
      set_burst 0 (if negb (custom_slice e) && negb (nz (critical_depth e)) then
        let base := eevfd_calc_slice_for_nice (nice_value e) in
        let predicted := u64 (burst_exec_us e * 4000) in
        let predicted := if predicted <? EEVFD_MIN_SLICE_NS then EEVFD_MIN_SLICE_NS else predicted in
        set_slice (if predicted <? base then predicted else base) e
      else e)) m.

(** ** Placement *)

(** The lag within one slice, and the virtual runtime it gives. *)
Definition clamp_lag (lg slice_v : Z) : Z := if lg >? s64 slice_v then s64 slice_v else if lg <? s64 (- s64 slice_v) then s64 (- s64 slice_v) else lg.
Definition lagged (vt minv lg : Z) : Z :=
  let vr := if s64 vt >=? lg then u64 (s64 vt - lg) else 0 in if vr <? minv then minv else vr.
Definition eevfd_place_entity (q : eevfd_rq) (a : Z) (initial_spawn : bool) (m : memory) : outcome memory :=
  if (a =? 0) || negb (eevfd_ptr_sane a) then Ret m
  else
    e ← se_of m a;
    let slice_v := calc_slice_vruntime (slice_ns e) (weight e) (wmult e) in
    if initial_spawn then write_min a (fun e => place_se (vtime q) (u64 (vtime q + slice_v)) 0 e) m
    else
      let lg := clamp_lag (lag e) slice_v in
      let vr := lagged (vtime q) (min_vruntime q) lg in
      write_min a (fun e => place_se vr (u64 (vr + slice_v)) lg e) m.

(** [eevfd_migrate_entity]; [src] may be NULL. *)
Definition migrate_lag (lg slice_v : Z) : Z := if lg <? s64 (- s64 slice_v) then s64 (- s64 slice_v) else if lg >? s64 slice_v then s64 slice_v else lg.
Definition eevfd_migrate_entity (src : option eevfd_rq) (dst : eevfd_rq) (a : Z) (m : memory) : outcome memory :=
  if a =? 0 then Ret m
  else
    e ← se_of m a;
    let slice_v := calc_slice_vruntime (slice_ns e) (weight e) (wmult e) in
    let lg := match src with Some src => if vtime src >? 0 then s64 (s64 (vtime src) - s64 (vruntime e)) else 0 | None => 0 end in
    let lg := migrate_lag lg slice_v in
    let vr := lagged (vtime dst) (min_vruntime dst) lg in
    write_min a (fun e => place_se vr (calc_deadline vr (slice_ns e) (weight e) (wmult e)) lg e) m.

(** ** The queue *)

Definition eevfd_update_min_vruntime (q : eevfd_rq) (m : memory) : outcome eevfd_rq :=
  left ← (if rb_leftmost q =? 0 then Ret None else e ← se_of m (rb_leftmost q); Ret (Some (vruntime e)));
  run ← (if curr q =? 0 then Ret None else e ← se_of m (curr q); Ret (Some (vruntime e)));
  match run, left with
  | None, None => Ret q
  | Some v, None | None, Some v =>
    let q := if v >? min_vruntime q then set_min_vruntime v q else q in Ret (if vtime q <? min_vruntime q then set_vtime (min_vruntime q) q else q)
  | Some c, Some l =>
    let v := if l <? c then l else c in
    let q := if v >? min_vruntime q then set_min_vruntime v q else q in Ret (if vtime q <? min_vruntime q then set_vtime (min_vruntime q) q else q)
  end.

(** Whether entity [a] goes to the left of [b]. *)
Definition goes_left (a : Z) (e : sched_entity) (b : Z) (c : sched_entity) : bool :=
  if vruntime e <? vruntime c then true
  else if vruntime e >? vruntime c then false
  else (deadline e <? deadline c) || ((deadline e =? deadline c) && (a <? b)).
Fixpoint find_place (fuel : nat) (a : Z) (e : sched_entity) (link : place) (parent node : Z) (leftmost : bool) (m : memory) : outcome (place * Z * bool) :=
  match fuel with
  | O => OutOfFuel
  | S fuel =>
    if node =? 0 then Ret (link, parent, leftmost)
    else
      x ← deref (m !! node);
      if goes_left a e node (payload x) then find_place fuel a e (Under node L) node (left x) leftmost m
      else find_place fuel a e (Under node R) node (right x) false m
  end.

Definition eevfd_enqueue_entity (q : eevfd_rq) (a : Z) (m : memory) : outcome (eevfd_rq * memory) :=
  if (a =? 0) || negb (eevfd_ptr_sane a) then Ret (q, m)
  else
    x ← deref (m !! a);
    if on_rq (payload x) then Ret (q, m)
    else if nz (pc x) || nz (left x) || nz (right x) then Ret (q, m)
    else
      '(link, parent, leftmost) ← find_place (S (S (size m))) a (payload x) At_root 0 (tasks_tree q) true m;
      m ← write_min a id m;
      s ← rb_link_node a parent link (mk_tree (tasks_tree q) m);
      s ← rb_insert_augmented (Some eevfd_update_min_deadline) a s;
      let q := set_tree (root s) (if leftmost : bool then a else rb_leftmost q) q in
      q ← eevfd_update_min_vruntime q (nodes s);
      e ← se_of (nodes s) a;
      let q := set_load (u64 (total_weight q + weight e)) (u32 (nr_running q + 1)) q in
      m ← write a (set_on_rq true) (nodes s);
      Ret (q, m).

Definition eevfd_dequeue_entity (q : eevfd_rq) (a : Z) (m : memory) : outcome (eevfd_rq * memory) :=
  if (a =? 0) || negb (eevfd_ptr_sane a) then Ret (q, m)
  else
    e ← se_of m a;
    if negb (on_rq e) then Ret (q, m)
    else
      m ← write a (set_lag (s64 (s64 (vtime q) - s64 (vruntime e)))) m;
      let s := mk_tree (tasks_tree q) m in
      leftmost ← (if rb_leftmost q =? a then rb_next a s else Ret (rb_leftmost q));
      s ← rb_erase_augmented (Some eevfd_update_min_deadline) a s;
      e ← se_of (nodes s) a;
      let q := set_load (u64 (total_weight q - weight e)) (u32 (nr_running q - 1)) (set_tree (root s) leftmost q) in
      x ← deref (nodes s !! a);
      let m := <[a := mk_node 0 0 0 (set_on_rq false (payload x)) (summary x)]> (nodes s) in
      q ← eevfd_update_min_vruntime q m;
      Ret (q, m).

Definition eevfd_update_curr (q : eevfd_rq) (now_ns : Z) (m : memory) : outcome (eevfd_rq * memory) :=
  if curr q =? 0 then Ret (q, m)
  else
    e ← se_of m (curr q);
    if exec_start_ns e =? 0 then m ← write (curr q) (set_exec_start now_ns) m; Ret (q, m)
    else if now_ns <=? exec_start_ns e then Ret (q, m)
    else
      let delta := now_ns - exec_start_ns e in
      let burst := u64 (burst_exec_us e + u64 (delta + 999) / 1000) in
      let e1 := set_burst (if burst >? UINT16_MAX then UINT16_MAX else burst) (set_sum_exec (u64 (prev_sum_exec_ns e + delta)) (set_exec_start now_ns e)) in
      let e2 := if negb (custom_slice e1) && negb (nz (critical_depth e1)) && (u64 (burst_exec_us e1 * 4000) >=? eevfd_calc_slice_for_nice (nice_value e1)) then set_slice (eevfd_calc_slice_for_nice (nice_value e1)) e1 else e1 in
      let vr := u64 (vruntime e2 + calc_delta_vruntime delta (weight e2) (wmult e2)) in
      let active_weight := u64 (total_weight q + (if on_rq e2 then 0 else weight e2)) in
      let q := set_vtime (u64 (vtime q + calc_delta_sys_vtime delta active_weight)) q in
      m ← write (curr q) (fun _ => place_se vr (deadline e2) (s64 (s64 (vtime q) - s64 vr)) e2) m;
      min_vr ← (if rb_leftmost q =? 0 then Ret vr else l ← se_of m (rb_leftmost q); Ret (if vruntime l <? vr then vruntime l else vr));
      let q := if min_vr >? min_vruntime q then set_min_vruntime min_vr q else q in
      Ret (if vtime q <? min_vruntime q then set_vtime (min_vruntime q) q else q, m).

(** ** The choice of the next entity *)

(** [__pick_eevfd_candidate]; the best so far is 0 for NULL. *)
Fixpoint pick_candidate (fuel : nat) (node vt best : Z) (m : memory) : outcome Z :=
  match fuel with
  | O => OutOfFuel
  | S fuel =>
    if node =? 0 then Ret best
    else
      x ← deref (m !! node);
      let e := payload x in
      prune ← (if best =? 0 then Ret false else b ← se_of m best; Ret (min_deadline x >=? deadline b));
      if prune : bool then Ret best
      else
        best ← (if left x =? 0 then Ret best else pick_candidate fuel (left x) vt best m);
        if vruntime e <=? vt then
          best ← (if best =? 0 then Ret node else b ← se_of m best; Ret (if deadline e <? deadline b then node else best));
          if right x =? 0 then Ret best else pick_candidate fuel (right x) vt best m
        else Ret best
  end.
Definition pick_fuel (m : memory) : nat := S (S (size m)).

Definition eevfd_peek_eligible_entity (q : eevfd_rq) (m : memory) : outcome Z :=
  if (tasks_tree q =? 0) || (rb_leftmost q =? 0) then Ret 0
  else
    l ← se_of m (rb_leftmost q);
    if vruntime l >? vtime q then Ret 0
    else
      x ← deref (m !! tasks_tree q);
      if deadline l <=? min_deadline x then Ret (rb_leftmost q) else pick_candidate (pick_fuel m) (tasks_tree q) (vtime q) (rb_leftmost q) m.

Definition eevfd_pick_next_entity (q : eevfd_rq) (m : memory) : outcome (Z * eevfd_rq) :=
  if tasks_tree q =? 0 then Ret (0, q)
  else if (nr_running q =? 1) && nz (rb_leftmost q) then Ret (rb_leftmost q, q)
  else
    eligible ← (if rb_leftmost q =? 0 then Ret None else l ← se_of m (rb_leftmost q); Ret (if vruntime l <=? vtime q then Some l else None));
    x ← deref (m !! tasks_tree q);
    let search (best : Z) :=
      best ← pick_candidate (pick_fuel m) (tasks_tree q) (vtime q) best m;
      if (best =? 0) && nz (rb_leftmost q) then
        l ← se_of m (rb_leftmost q); Ret (rb_leftmost q, if vtime q <? vruntime l then set_vtime (vruntime l) q else q)
      else Ret (best, q) in
    match eligible with
    | Some l => if deadline l <=? min_deadline x then Ret (rb_leftmost q, q) else search (rb_leftmost q)
    | None => search 0
    end.

Definition eevfd_set_next_entity (q : eevfd_rq) (a : Z) (m : memory) : outcome (eevfd_rq * memory) :=
  if a =? 0 then Ret (q, m)
  else
    '(q, m) ← eevfd_dequeue_entity (set_curr a q) a m;
    e ← se_of m a;
    m ← write a (set_exec_start 0) m;
    Ret (set_start (prev_sum_exec_ns e) q, m).
Definition eevfd_put_prev_entity (q : eevfd_rq) (a : Z) (m : memory) : outcome (eevfd_rq * memory) :=
  if a =? 0 then Ret (q, m) else m ← write a (set_exec_start 0) m; Ret (if curr q =? a then set_curr 0 q else q, m).

Definition eevfd_check_preempt (q : eevfd_rq) (c w : Z) (m : memory) (now_ns : Z) : outcome bool :=
  if (c =? 0) || (w =? 0) then Ret false
  else
    ec ← se_of m c; ew ← se_of m w;
    if (nice_value ec =? 19) && (weight ec =? 15) then Ret true
    else if vruntime ec >=? deadline ec then Ret true
    else
      let interactive := (weight ew >? weight ec) || (nice_value ew <? 0) || (slice_ns ew <? slice_ns ec) in
      let min_gran := if interactive then EEVFD_INTERACTIVE_MIN_GRANULARITY_NS else EEVFD_MIN_GRANULARITY_NS in
      used ← eevfd_curr_runtime q c m now_ns;
      if used <? min_gran then Ret false
      else
        let gran_v := if interactive && (deadline ew <=? deadline ec) then 0 else calc_slice_vruntime EEVFD_WAKEUP_GRANULARITY_NS (weight ew) (wmult ew) in
        Ret ((vruntime ew <=? vtime q) && (u64 (deadline ew + gran_v) <=? deadline ec)).

Fixpoint count_loop (fuel : nat) (n : Z) (m : memory) (t c w : Z) : outcome (option (Z * Z)) :=
  match fuel with
  | O => OutOfFuel
  | S fuel =>
    if n =? 0 then Ret (Some (c, w))
    else
      e ← se_of m n;
      if negb (on_rq e) then Ret None
      else n ← rb_next n (mk_tree t m); count_loop fuel n m t (u32 (c + 1)) (u64 (w + weight e))
  end.
Definition eevfd_validate_rq (q : eevfd_rq) (m : memory) : outcome bool :=
  let s := mk_tree (tasks_tree q) m in
  v ← rb_validate_tree s;
  if negb v then Ret false
  else if tasks_tree q =? 0 then Ret ((nr_running q =? 0) && (total_weight q =? 0) && (rb_leftmost q =? 0))
  else
    n ← rb_first s;
    if negb (n =? rb_leftmost q) then Ret false
    else
      r ← count_loop (S (S (size m))) n m (tasks_tree q) 0 0;
      Ret (match r with None => false | Some (c, w) => (c =? nr_running q) && (w =? total_weight q) end).

End Eevfd.
