(* ===== verification/EevfdSafe.v ===== *)
(** EevfdSafe: the invariant of a run queue and what each operation of [eevfd.c] does to
    the ordered list of entities it holds. *)

From S2P Require Import Prelude RbTree RbRep RbInsert RbErase RbWalk Eevfd.
From Stdlib Require Import Sorted.
From stdpp Require Import list_relations.
#[local] Open Scope Z_scope.

Module EevfdSafe.
Import RbTree RbRep RbInsert RbErase RbWalk Eevfd.

Notation item := (Z * sched_entity)%type.
Notation least := (Some eevfd_update_min_deadline).

(** ** The order of a queue *)

(** By virtual runtime, then deadline, then address. *)
Definition before (x y : item) : Prop :=
  vruntime x.2 < vruntime y.2 \/ vruntime x.2 = vruntime y.2 /\ (deadline x.2 < deadline y.2 \/ deadline x.2 = deadline y.2 /\ x.1 < y.1).
#[global] Instance before_dec x y : Decision (before x y).
Proof. unfold before. apply _. Defined.
Lemma before_trans x y z : before x y -> before y z -> before x z.
Proof. unfold before. lia. Qed.
Lemma before_total x y : x.1 <> y.1 -> before x y \/ before y x.
Proof. unfold before. lia. Qed.
Lemma goes_left_spec a e b c : goes_left a e b c = true <-> before (a, e) (b, c).
Proof.
  unfold goes_left, before. cbn. destruct (vruntime e <? vruntime c) eqn:E1; reify_bools; [split; [lia|done]|]. destruct (vruntime e >? vruntime c) eqn:E2; reify_bools; [split; [done|lia]|].
  rewrite orb_true_iff, andb_true_iff, !Z.ltb_lt, Z.eqb_eq. lia.
Qed.
Lemma goes_right a e b c : a <> b -> goes_left a e b c = false -> before (b, c) (a, e).
Proof. intros Hne H. destruct (before_total (a, e) (b, c)) as [Hb|Hb]; [done| |done]. apply goes_left_spec in Hb. congruence. Qed.
Notation sorted := (StronglySorted before).

Lemma sorted_app l1 l2 : sorted (l1 ++ l2) <-> sorted l1 /\ sorted l2 /\ (forall x y, x ∈ l1 -> y ∈ l2 -> before x y).
Proof.
  induction l1 as [|x l1 IH]; cbn.
  - split; [|tauto]. intros H. split; [constructor|]. split; [done|]. intros x y Hx. by apply elem_of_nil in Hx.
  - split.
    + intros H. apply StronglySorted_inv in H as [H F]. apply IH in H as (H1 & H2 & H3). apply Forall_app in F as [F1 F2]. split; [by constructor|]. split; [done|]. intros a b [->|Ha]%elem_of_cons Hb; [|by apply H3]. rewrite Forall_forall in F2. by apply F2.
    + intros (H1 & H2 & H3). apply StronglySorted_inv in H1 as [H1 F]. constructor; [apply IH; split; [done|]; split; [done|]; intros a b Ha Hb; apply H3; [by right|done]|]. apply Forall_app. split; [done|]. apply Forall_forall. intros b Hb. apply H3; [left|done].
Qed.
Lemma sorted_cons x l : sorted (x :: l) <-> sorted l /\ (forall y, y ∈ l -> before x y).
Proof. split; [intros [H F]%StronglySorted_inv; rewrite Forall_forall in F; done|intros [H F]; constructor; [done|by apply Forall_forall]]. Qed.
Lemma sorted_at l1 x l2 : sorted (l1 ++ x :: l2) <-> sorted (l1 ++ l2) /\ (forall y, y ∈ l1 -> before y x) /\ (forall y, y ∈ l2 -> before x y).
Proof.
  rewrite !sorted_app, sorted_cons. split.
  - intros (H1 & (H2 & H3) & H4). split; [split; [done|]; split; [done|]; intros a b Ha Hb; apply H4; [done|by right]|]. split; [|done]. intros y Hy. apply H4; [done|left].
  - intros ((H1 & H2 & H3) & H4 & H5). split; [done|]. split; [done|]. intros a b Ha [->|Hb]%elem_of_cons; [by apply H4|by apply H3].
Qed.

(** The reference: insertion into the ordered list, and removal. *)
Fixpoint insert_item (x : item) (l : list item) : list item := match l with [] => [x] | y :: l => if decide (before x y) then x :: y :: l else y :: insert_item x l end.
Definition remove_item (a : Z) (l : list item) : list item := filter (fun x => x.1 <> a) l.
Lemma insert_item_at x l1 l2 : (forall y, y ∈ l1 -> before y x) -> (forall y, y ∈ l2 -> before x y) -> insert_item x (l1 ++ l2) = l1 ++ x :: l2.
Proof.
  intros H1 H2. induction l1 as [|y l1 IH]; cbn.
  - destruct l2 as [|y l2]; [done|]. cbn. rewrite decide_True; [done|]. apply H2. left.
  - rewrite decide_False; [|intros Hb; specialize (H1 y ltac:(left)); unfold before in *; lia]. f_equal. apply IH. intros z Hz. apply H1. by right.
Qed.
Lemma remove_item_at l1 a e l2 : a ∉ l1.*1 -> a ∉ l2.*1 -> remove_item a (l1 ++ (a, e) :: l2) = l1 ++ l2.
Proof.
  intros H1 H2. unfold remove_item. assert (Hf : forall l : list item, a ∉ l.*1 -> filter (fun x : item => x.1 <> a) l = l).
  { induction l as [|y l IH]; [done|]. rewrite fmap_cons, not_elem_of_cons. intros [Hy Hl]. rewrite filter_cons_True by congruence. by rewrite IH. }
  rewrite filter_app, filter_cons_False by (cbn; tauto). by rewrite !Hf.
Qed.

(** ** The augmentation *)

Lemma least_min e l r : eevfd_update_min_deadline e l r = Z.min (deadline e) (Z.min (default (deadline e) l) (default (deadline e) r)).
Proof. unfold eevfd_update_min_deadline. destruct l as [u|], r as [v|]; cbn; [destruct (u <? deadline e) eqn:E; reify_bools; [destruct (v <? u) eqn:E'|destruct (v <? deadline e) eqn:E']| | |]; try c_case; reify_bools; lia. Qed.
Lemma least_associative : associative least.
Proof. intros p q u v w. rewrite !least_min. destruct u, v, w; cbn; rewrite ?least_min; cbn; lia. Qed.
Lemma least_payload e e' u v : deadline e' = deadline e -> eevfd_update_min_deadline e' u v = eevfd_update_min_deadline e u v.
Proof. unfold eevfd_update_min_deadline. by intros ->. Qed.

(** The summary of a tree is the least deadline in it. *)
Lemma least_sum (t : @tree sched_entity Z) : aug least t -> match sum t with None => t = Leaf | Some v => (exists x, x ∈ elems t /\ deadline x.2 = v) /\ (forall x, x ∈ elems t -> v <= deadline x.2) end.
Proof.
  induction t as [|c l IHl a [e v] r IHr]; [done|]. cbn [aug augmented sum snd fst elems]. intros (E & Hl & Hr). specialize (IHl Hl). specialize (IHr Hr).
  assert (Hcases : (v = deadline e \/ sum l = Some v \/ sum r = Some v) /\ v <= deadline e /\ (forall u, sum l = Some u -> v <= u) /\ (forall u, sum r = Some u -> v <= u)).
  { rewrite least_min in E. destruct (sum l) as [u|], (sum r) as [w|]; cbn in E; (split; [|split; [lia|split; intros ? [= <-]; lia]]).
    - assert (v = deadline e \/ v = u \/ v = w) as [->|[->| ->]] by lia; auto.
    - assert (v = deadline e \/ v = u) as [->| ->] by lia; auto.
    - assert (v = deadline e \/ v = w) as [->| ->] by lia; auto.
    - left. lia. }
  destruct Hcases as (Hv & Hle & Hu & Hw). split.
  - destruct Hv as [->|[El|Er]].
    + exists (a, e). split; [apply elem_of_app; right; left|done].
    + rewrite El in IHl. destruct IHl as [(x & Hx & Ex) _]. exists x. split; [apply elem_of_app; by left|done].
    + rewrite Er in IHr. destruct IHr as [(x & Hx & Ex) _]. exists x. split; [apply elem_of_app; right; by right|done].
  - intros x [Hx|[->|Hx]%elem_of_cons]%elem_of_app; [|done|].
    + destruct (sum l) as [u|]; [|subst l; by apply elem_of_nil in Hx]. specialize (Hu u eq_refl). destruct IHl as [_ IHl]. specialize (IHl x Hx). lia.
    + destruct (sum r) as [u|]; [|subst r; by apply elem_of_nil in Hx]. specialize (Hw u eq_refl). destruct IHr as [_ IHr]. specialize (IHr x Hx). lia.
Qed.

(** ** The place of a new entity *)

Notation tree := (@tree sched_entity Z).
Notation frm := (@frm sched_entity Z).
Lemma find_place_ok a e s : forall (t : tree) (K : list frm) fuel, holds s (plug K t) -> sorted (elems (plug K t)) -> a ∉ addrs (plug K t) -> (length (addrs t) < fuel)%nat ->
  (forall y, y ∈ kleft K -> before y (a, e)) -> (forall y, y ∈ kright K -> before (a, e) y) ->
  exists K', find_place fuel a e (place_of K) (up K) (ptr t) (bool_decide (kleft K = [])) (nodes s) = Ret (place_of K', up K', bool_decide (kleft K' = [])) /\ plug K' Leaf = plug K t /\
    (forall y, y ∈ kleft K' -> before y (a, e)) /\ (forall y, y ∈ kright K' -> before (a, e) y).
Proof.
  induction t as [|c l IHl b x r IHr]; intros K fuel H HS Hn Hf HL HR; (destruct fuel as [|fuel]; [cbn in Hf; lia|]); cbn [find_place].
  - exists K. done.
  - cbn [ptr]. rewrite (proj2 (Z.eqb_neq b 0)) by by apply (nonzero s K L c l b x r). pose proof (get_at s K L c l b x r H) as Eg. unfold get in Eg. rewrite Eg, ret_bind. cbn [cell payload left right].
    assert (Hs := HS). rewrite elems_context in Hs. cbn [elems] in Hs. rewrite <- (assoc_L (++)) in Hs. cbn [app] in Hs. rewrite !sorted_app, sorted_cons in Hs. destruct Hs as (_ & (_ & (_ & Hbr) & Hlb) & _).
    rewrite (addrs_nd L c l b x r) in Hf. cbn in Hf. rewrite length_app in Hf. assert (Hab : a <> b) by (intros ->; apply Hn; rewrite addrs_plug; apply elem_of_app; right; rewrite (addrs_nd L c l b x r); left).
    destruct (goes_left a e b (fst x)) eqn:Eg2.
    + apply goes_left_spec in Eg2. assert (Ek : kleft (Frm L c b x r :: K) = kleft K) by (cbn; by rewrite app_nil_r). destruct (IHl (Frm L c b x r :: K) fuel) as (K' & E & E' & Q1 & Q2); [done|done|done|lia| | |].
      * by rewrite Ek.
      * cbn [kright fd fa fx fs]. intros y [[->|Hy]%elem_of_cons|Hy]%elem_of_app; [done| |by apply HR]. eapply before_trans; [exact Eg2|]. apply Hbr. apply elem_of_app. by left.
      * exists K'. rewrite Ek in E. done.
    + apply goes_right in Eg2; [|done]. destruct (IHr (Frm R c b x l :: K) fuel) as (K' & E & E' & Q1 & Q2); [done|done|done|lia| | |].
      * cbn [kleft fd fa fx fs]. intros y [Hy|[Hy|Hy]%elem_of_app]%elem_of_app; [by apply HL| |apply list_elem_of_singleton in Hy as ->; done]. eapply before_trans; [|exact Eg2]. apply Hlb; [done|left].
      * done.
      * exists K'. rewrite (bool_decide_eq_false_2 (kleft (Frm R c b x l :: K) = [])) in E by (cbn; intros Q; apply app_eq_nil in Q as [_ Q]; by apply app_eq_nil in Q as [_ Q]). done.
Qed.

(** ** Reading and writing entities *)

Lemma se_at (m : memory) a x : m !! a = Some x -> se_of m a = Ret (payload x).
Proof. unfold se_of. by intros ->. Qed.
Lemma write_at (m : memory) a x f : m !! a = Some x -> write a f m = Ret (<[a := mk_node (pc x) (right x) (left x) (f (payload x)) (summary x)]> m).
Proof. unfold write. by intros ->. Qed.
Lemma write_min_at (m : memory) a x f : m !! a = Some x -> write_min a f m = Ret (<[a := mk_node (pc x) (right x) (left x) (f (payload x)) (deadline (f (payload x)))]> m).
Proof. unfold write_min. by intros ->. Qed.

(** ** The invariant *)

Fixpoint load (Q : list item) : Z := match Q with [] => 0 | x :: Q => weight x.2 + load Q end.
Lemma load_app Q1 Q2 : load (Q1 ++ Q2) = load Q1 + load Q2.
Proof. induction Q1; cbn; lia. Qed.

(** Run queue [q] holds the entities [Q], in order. *)
Record queued (q : eevfd_rq) (m : memory) (Q : list item) : Prop := mk_queued {
  qd_tree : exists T : tree, sound least (mk_tree (tasks_tree q) m) T /\ elems T = Q;
  qd_sorted : sorted Q;
  qd_left : rb_leftmost q = first_addr Q;
  qd_weight : total_weight q = u64 (load Q);
  qd_count : nr_running q = u32 (Z.of_nat (length Q));
  qd_on : forall x, x ∈ Q -> on_rq x.2 = true /\ eevfd_ptr_sane x.1 = true;
  qd_floor : min_vruntime q <= vtime q }.

Definition same_queue (q q' : eevfd_rq) : Prop := tasks_tree q' = tasks_tree q /\ rb_leftmost q' = rb_leftmost q /\ total_weight q' = total_weight q /\ nr_running q' = nr_running q.
Lemma queued_same q q' m Q : same_queue q q' -> min_vruntime q' <= vtime q' -> queued q m Q -> queued q' m Q.
Proof. intros (E1 & E2 & E3 & E4) Hf [T S L W C O _]. by split; rewrite ?E1, ?E2, ?E3, ?E4. Qed.
Lemma queued_elem q m Q a e : queued q m Q -> (a, e) ∈ Q -> (exists x, m !! a = Some x /\ payload x = e) /\ addr a.
Proof.
  intros [(T & [H _ _] & <-) _ _ _ _ _ _] Hin. split; [apply (elem_payload _ T a e H Hin)|]. pose proof (h_addr _ _ H) as F. rewrite Forall_forall in F. apply F. unfold addrs. apply list_elem_of_fmap. by exists (a, e).
Qed.
Lemma queued_nodup q m Q : queued q m Q -> NoDup Q.*1.
Proof. intros [(T & [H _ _] & <-) _ _ _ _ _ _]. apply (h_nodup _ _ H). Qed.
(** Memory outside the queue does not matter. *)
Lemma queued_ext q m m' Q : (forall z, z ∈ Q.*1 -> m' !! z = m !! z) -> queued q m Q -> queued q m' Q.
Proof. intros E [(T & S & <-) ? ? ? ? ? ?]. split; try done. exists T. split; [|done]. by apply (sound_ext _ _ m). Qed.
Lemma queued_on q m Q a x : queued q m Q -> m !! a = Some x -> a ∈ Q.*1 -> on_rq (payload x) = true /\ (a, payload x) ∈ Q.
Proof.
  intros H Ex Hin. apply list_elem_of_fmap in Hin as ([b e] & -> & Hin). destruct (queued_elem q m Q b e H Hin) as [(y & Ey & Ep) _]. cbn in Ex. assert (x = y) as -> by congruence. rewrite Ep. split; [apply (qd_on _ _ _ H (b, e) Hin)|done].
Qed.

(** ** The floor of the virtual times *)

(** The virtual runtime of the running entity and of the first queued one. *)
Definition running (q : eevfd_rq) (m : memory) : option Z := if curr q =? 0 then None else (fun x => vruntime (payload x)) <$> m !! curr q.
Definition foremost (Q : list item) : option Z := (fun x : item => vruntime x.2) <$> head Q.
Definition floor_of (q : eevfd_rq) (run : option Z) (Q : list item) : Z :=
  Z.max (min_vruntime q) (match run, foremost Q with None, None => min_vruntime q | Some v, None | None, Some v => v | Some c, Some l => Z.min c l end).
Definition floored (F : Z) (q : eevfd_rq) : eevfd_rq := set_vtime (Z.max (vtime q) F) (set_min_vruntime F q).
Lemma floored_same F q : same_queue q (floored F q).
Proof. done. Qed.

Definition valid_curr (q : eevfd_rq) (m : memory) : Prop := curr q = 0 \/ is_Some (m !! curr q).
(** Every queued entity is in memory. *)
Definition present (m : memory) (Q : list item) : Prop := forall a e, (a, e) ∈ Q -> a <> 0 /\ exists x, m !! a = Some x /\ payload x = e.
Lemma queued_present q m Q : queued q m Q -> present m Q.
Proof. intros H a e Hin. destruct (queued_elem q m Q a e H Hin) as [? [? _]]. split; [lia|done]. Qed.
Lemma raise_max (q : eevfd_rq) v :
  (let q1 := if v >? min_vruntime q then set_min_vruntime v q else q in if vtime q1 <? min_vruntime q1 then set_vtime (min_vruntime q1) q1 else q1) = floored (Z.max (min_vruntime q) v) q.
Proof.
  destruct q as [t l vt tw n mv c st]. unfold floored. cbn. destruct (v >? mv) eqn:E; reify_bools; cbn; (destruct (vt <? _) eqn:E'; reify_bools; cbn; f_equal; unfold set_vtime, set_min_vruntime; cbn; f_equal; lia).
Qed.
Lemma update_min_ok q m Q : rb_leftmost q = first_addr Q -> present m Q -> valid_curr q m -> min_vruntime q <= vtime q -> eevfd_update_min_vruntime q m = Ret (floored (floor_of q (running q m) Q) q).
Proof.
  intros HL HP HC HF. unfold eevfd_update_min_vruntime, floor_of, running, foremost.
  assert (El : (if rb_leftmost q =? 0 then Ret None else e ← se_of m (rb_leftmost q); Ret (Some (vruntime e))) = Ret ((fun x : item => vruntime x.2) <$> head Q)).
  { rewrite HL. destruct Q as [|[a e] Q]; [done|]. cbn [first_addr head]. destruct (HP a e ltac:(left)) as (H0 & x & Ex & Ep). rewrite (proj2 (Z.eqb_neq a 0) H0). unfold se_of. rewrite Ex. cbn. by rewrite Ep. }
  assert (Er : (if curr q =? 0 then Ret None else e ← se_of m (curr q); Ret (Some (vruntime e))) = Ret (if curr q =? 0 then None else (fun x => vruntime (payload x)) <$> m !! curr q)).
  { destruct (curr q =? 0) eqn:E; [done|]. reify_bools. destruct HC as [HC|[x Ex]]; [done|]. unfold se_of. by rewrite Ex. }
  rewrite El, ret_bind, Er, ret_bind. destruct (if curr q =? 0 then None else _) as [c|], (_ <$> head Q) as [l|]; cbn [fmap option_fmap option_map]; rewrite ?raise_max; f_equal.
  - f_equal. destruct (l <? c) eqn:E; reify_bools; f_equal; lia.
  - unfold floored. rewrite !Z.max_id. destruct q; cbn in *. unfold set_vtime, set_min_vruntime. cbn. f_equal. lia.
Qed.

(** ** Enqueueing *)

(** Payloads do not change when the entities of the queue are all present before and
    after, and nothing else is touched. *)
Lemma payload_kept (m m' : memory) Q : present m Q -> present m' Q -> (forall b, b ∉ Q.*1 -> m' !! b = m !! b) -> forall b, payload <$> m' !! b = payload <$> m !! b.
Proof.
  intros H H' O b. destruct (decide (b ∈ Q.*1)) as [Hin|Hn]; [|by rewrite O]. apply list_elem_of_fmap in Hin as ([c e] & -> & Hin). destruct (H c e Hin) as (_ & x & Ex & Ep), (H' c e Hin) as (_ & y & Ey & Eq). cbn. rewrite Ex, Ey. cbn. congruence.
Qed.
Definition same_runtime (m m' : memory) : Prop := forall b, (fun x : entity => vruntime (payload x)) <$> m' !! b = (fun x : entity => vruntime (payload x)) <$> m !! b.
Lemma kept_runtime (m m' : memory) : (forall b, payload <$> m' !! b = payload <$> m !! b) -> same_runtime m m'.
Proof. intros H b. specialize (H b). destruct (m' !! b), (m !! b); cbn in *; congruence. Qed.
Lemma write_runtime (m : memory) a x y : m !! a = Some x -> vruntime (payload y) = vruntime (payload x) -> same_runtime m (<[a := y]> m).
Proof. intros Ex E b. destruct (decide (b = a)) as [->|Hb]; [rewrite lookup_insert_eq, Ex; cbn; by rewrite E|by rewrite lookup_insert_ne]. Qed.
Lemma same_runtime_trans (m1 m2 m3 : memory) : same_runtime m1 m2 -> same_runtime m2 m3 -> same_runtime m1 m3.
Proof. intros H1 H2 b. by rewrite H2. Qed.
Lemma running_kept q q' m m' : curr q' = curr q -> same_runtime m m' -> running q' m' = running q m.
Proof. intros E H. unfold running. rewrite E. destruct (curr q =? 0); [done|]. apply H. Qed.
Lemma valid_kept q q' m m' : curr q' = curr q -> same_runtime m m' -> valid_curr q m -> valid_curr q' m'.
Proof. unfold valid_curr. intros E H. rewrite E. intros [?|[x Ex]]; [by left|right]. specialize (H (curr q)). rewrite Ex in H. destruct (m' !! curr q); [done|by cbn in H]. Qed.
Lemma holds_present s (K : list frm) (t : tree) : holds s (plug K t) -> present (nodes s) (elems t).
Proof.
  intros H a e Hin. split; [|apply (elem_payload s (plug K t) a e H); rewrite elems_context; apply elem_of_app; right; apply elem_of_app; by left]. destruct (holds_disjoint _ _ _ H) as (_ & _ & F). rewrite Forall_forall in F. assert (Ha : addr a) by (apply F; unfold addrs; apply list_elem_of_fmap; by exists (a, e)). destruct Ha. lia.
Qed.
Lemma sound_present r m (T : tree) : sound least (mk_tree r m) T -> present m (elems T).
Proof. intros [H _ _]. apply (holds_present _ [] T H). Qed.
Lemma floor_of_key q run Q1 a e e' Q2 : vruntime e' = vruntime e -> floor_of q run (Q1 ++ (a, e') :: Q2) = floor_of q run (Q1 ++ (a, e) :: Q2).
Proof. intros E. unfold floor_of, foremost. destruct Q1; cbn; by rewrite ?E. Qed.

Lemma enqueue_ok q m Q a x : queued q m Q -> addr a -> eevfd_ptr_sane a = true -> m !! a = Some x -> on_rq (payload x) = false -> pc x = 0 -> left x = 0 -> right x = 0 -> valid_curr q m ->
  let Q' := insert_item (a, set_on_rq true (payload x)) Q in
  exists q' m', eevfd_enqueue_entity q a m = Ret (q', m') /\ queued q' m' Q' /\ (forall b, b <> a -> b ∉ Q.*1 -> m' !! b = m !! b) /\
    min_vruntime q' = floor_of q (running q m) Q' /\ vtime q' = Z.max (vtime q) (min_vruntime q') /\ curr q' = curr q /\ curr_start_exec_ns q' = curr_start_exec_ns q.
Proof.
  intros HQ Ha Hsane Ex Eon E1 E2 E3 HC Q'. assert (Hna : a ∉ Q.*1) by (intros Hin; destruct (queued_on q m Q a x HQ Ex Hin); congruence). destruct HQ as [(T & HS & ET) Hsrt HL HW HN HO HF]. pose proof (sd_holds _ _ _ HS) as Hh.
  unfold eevfd_enqueue_entity. destruct Ha as [Ha0 Ha4]. rewrite (proj2 (Z.eqb_neq a 0)) by lia. rewrite Hsane. cbn [orb negb]. rewrite Ex. cbn [deref mbind outcome_bind]. rewrite ?ret_bind, Eon. unfold nz. rewrite E1, E2, E3. cbn [Z.eqb negb orb].
  assert (Hnt : a ∉ addrs T) by (unfold addrs; by rewrite ET). assert (Hsz : (length (addrs T) < S (S (size m)))%nat) by (pose proof (context_size (mk_tree (tasks_tree q) m) [] T Hh) as Hc; cbn in Hc; lia).
  destruct (find_place_ok a (payload x) (mk_tree (tasks_tree q) m) T [] (S (S (size m))) Hh) as (K & Ef & EK & Q1 & Q2); [cbn [plug]; by rewrite ET|done|done|cbn; intros y []%elem_of_nil|cbn; intros y []%elem_of_nil|].
  cbn [place_of up kleft plug nodes] in Ef. rewrite (bool_decide_eq_true_2 ([] = [])) in Ef by done. pose proof (h_root _ _ Hh) as Hroot. cbn [root] in Hroot. rewrite <- Hroot in Ef. rewrite Ef, ret_bind. clear Ef. cbn [plug] in EK.
  rewrite (write_min_at m a x _ Ex), ret_bind. set (m1 := <[a := _]> m). assert (Hm1 : forall z, z <> a -> m1 !! z = m !! z) by (intros z Hz; subst m1; by rewrite lookup_insert_ne).
  assert (HS1 : sound least (mk_tree (tasks_tree q) m1) (plug K Leaf)). { rewrite EK. apply (sound_ext _ _ m); [|done]. intros z Hz. apply Hm1. by intros ->. }
  destruct (insert_ok least (mk_tree (tasks_tree q) m1) K a (mk_node (pc x) (right x) (left x) (payload x) (deadline (payload x))) least_associative (sd_holds _ _ _ HS1) (sd_balanced _ _ _ HS1) (sd_summaries _ _ _ HS1)) as (s1 & s2 & T2 & Ei1 & Ei2 & H2 & R2 & A2 & El2 & O2); [subst m1; cbn [nodes]; by rewrite lookup_insert_eq|done|by rewrite EK|].
  rewrite Ei1, ret_bind, Ei2, ret_bind. cbn [payload] in El2. cbn [nodes] in O2. rewrite EK in O2. destruct s2 as [r2 m2]. cbn [root nodes] in *. assert (HS2 : sound least (mk_tree r2 m2) T2) by done. clear Ei1 Ei2 H2 R2 A2 s1.
  assert (EQ : Q = kleft K ++ kright K) by (rewrite <- ET, <- EK, elems_context; done). assert (EQ' : Q' = kleft K ++ (a, set_on_rq true (payload x)) :: kright K) by (subst Q'; rewrite EQ; apply insert_item_at; intros y Hy; [by apply Q1|by apply Q2]).
  pose proof (sound_present _ _ _ HS2) as P2. assert (O3 : forall b, b <> a -> b ∉ Q.*1 -> m2 !! b = m !! b). { intros b Hb Hq. rewrite O2 by (try done; unfold addrs; by rewrite ET). by apply Hm1. }
  assert (Hpk : forall b, payload <$> m2 !! b = payload <$> m !! b). { apply (payload_kept _ _ (elems T2)); [|done|].
    - intros b e. rewrite El2. intros [Hb|[[= -> ->]|Hb]%elem_of_cons]%elem_of_app; [|split; [lia|by exists x]|]; (apply (sound_present _ _ _ HS); rewrite ET, EQ; apply elem_of_app; auto).
    - intros b. rewrite El2, fmap_app, fmap_cons, not_elem_of_app, not_elem_of_cons. intros (? & ? & ?). apply O3; [done|]. by rewrite EQ, fmap_app, not_elem_of_app. }
  apply kept_runtime in Hpk. assert (HL2 : (if bool_decide (kleft K = []) then a else rb_leftmost q) = first_addr (elems T2)). { rewrite El2, HL, EQ. destruct (kleft K) as [|[]]; done. }
  rewrite (update_min_ok _ m2 (elems T2)); [|done|done|by apply (valid_kept q _ m)|done]. rewrite ret_bind. destruct (P2 a (payload x)) as (_ & y & Ey & Epy); [rewrite El2; apply elem_of_app; right; left|]. rewrite (se_at m2 a y Ey), ret_bind, (write_at m2 a y _ Ey), ret_bind. eexists _, _. split; [done|].
  destruct (payload_at eevfd_update_min_deadline (mk_tree r2 m2) T2 (kleft K) a y (set_on_rq true (payload y)) (kright K)) as (T3 & HS3 & El3); [done|done|by rewrite Epy|done|]. rewrite Epy in El3. cbn [nodes root put] in HS3.
  assert (Hfl : floor_of q (running q m) Q' = floor_of q (running q m) (elems T2)) by (rewrite EQ', El2; by apply floor_of_key).
  rewrite (running_kept q _ m m2) by done. split; [split|].
  - exists T3. split; [exact HS3|]. by rewrite El3, EQ'.
  - rewrite EQ'. rewrite EQ in Hsrt. apply sorted_at. done.
  - cbn [rb_leftmost set_load floored set_vtime set_min_vruntime set_tree]. rewrite HL2, El2, EQ'. by destruct (kleft K) as [|[]].
  - cbn. rewrite HW, Epy, u64_sum, EQ', EQ, !load_app. cbn. f_equal. lia.
  - cbn. rewrite HN, u32_sum, EQ', EQ, !length_app. cbn. f_equal. lia.
  - intros z. rewrite EQ'. intros [Hz|[->|Hz]%elem_of_cons]%elem_of_app; [| done |]; (apply HO; rewrite EQ; apply elem_of_app; auto).
  - cbn. lia.
  - split; [|split; [|split; [|split]]].
    + intros b Hb Hq. rewrite lookup_insert_ne by done. by apply O3.
    + by rewrite Hfl.
    + done.
    + done.
    + done.
Qed.

(** ** Dequeueing *)

(** What the entity is when it has left the queue. *)
Definition departed (q : eevfd_rq) (e : sched_entity) : sched_entity := set_on_rq false (set_lag (s64 (s64 (vtime q) - s64 (vruntime e))) e).

Lemma dequeue_ok q m Q1 a e Q2 : queued q m (Q1 ++ (a, e) :: Q2) -> valid_curr q m ->
  exists q' m' v, eevfd_dequeue_entity q a m = Ret (q', m') /\ queued q' m' (Q1 ++ Q2) /\ m' !! a = Some (mk_node 0 0 0 (departed q e) v) /\ (forall b, b ∉ (Q1 ++ (a, e) :: Q2).*1 -> m' !! b = m !! b) /\
    min_vruntime q' = floor_of q (running q m) (Q1 ++ Q2) /\ vtime q' = Z.max (vtime q) (min_vruntime q') /\ curr q' = curr q /\ curr_start_exec_ns q' = curr_start_exec_ns q.
Proof.
  intros HQ HC. assert (Hin : (a, e) ∈ Q1 ++ (a, e) :: Q2) by (apply elem_of_app; right; left). destruct (queued_elem _ _ _ _ _ HQ Hin) as [(x & Ex & Ep) [Ha _]]. destruct (qd_on _ _ _ HQ _ Hin) as [Eon Hsane]. cbn [fst snd] in Eon, Hsane. pose proof (queued_nodup _ _ _ HQ) as Hnd.
  destruct HQ as [(T & HS & ET) Hsrt HL HW HN HO HF]. unfold eevfd_dequeue_entity. rewrite (proj2 (Z.eqb_neq a 0)) by lia. rewrite Hsane. cbn [orb negb]. rewrite (se_at m a x Ex), ret_bind, Ep, Eon. cbn [negb]. rewrite (write_at m a x _ Ex), ret_bind, Ep.
  set (e1 := set_lag _ e). set (m1 := <[a := _]> m). destruct (payload_at eevfd_update_min_deadline (mk_tree (tasks_tree q) m) T Q1 a x e1 Q2) as (T1 & HS1 & El1); [done|done|by rewrite Ep|intros u v; rewrite Ep; by apply least_payload|]. change (put a _ _) with (mk_tree (tasks_tree q) m1) in HS1. pose proof (sd_holds _ _ _ HS1) as H1.
  rewrite fmap_app, fmap_cons in Hnd. cbn [fst] in Hnd. apply NoDup_app in Hnd as (_ & Hn1 & Hn2). apply NoDup_cons in Hn2 as [Hn2 _]. assert (Hn1' : a ∉ Q1.*1) by (intros Hin'; apply (Hn1 a Hin'); left).
  assert (EL : (if rb_leftmost q =? a then rb_next a (mk_tree (tasks_tree q) m1) else Ret (rb_leftmost q)) = Ret (first_addr (Q1 ++ Q2))).
  { destruct (rb_leftmost q =? a) eqn:E; reify_bools; rewrite HL in E.
    - destruct Q1 as [|[b f] Q1]; [apply (step_rep R _ T1 [] a e1 Q2 H1 El1)|]. cbn in E. subst b. exfalso. apply Hn1'. left.
    - destruct Q1 as [|[b f] Q1]; [done|]. by rewrite HL. }
  rewrite EL, ret_bind. destruct (erase_at least _ T1 Q1 a e1 Q2 least_associative HS1 El1) as (s2 & T2 & E2 & HS2 & El2 & Hk & O2). rewrite E2, ret_bind. destruct s2 as [r2 m2]. unfold kept in Hk. cbn [root nodes] in *.
  assert (Ey : exists y, m2 !! a = Some y /\ payload y = e1). { specialize (Hk a). subst m1. rewrite lookup_insert_eq in Hk. cbn in Hk. destruct (m2 !! a) as [y|]; [|done]. injection Hk as Hk. by exists y. }
  destruct Ey as (y & Ey & Epy). rewrite (se_at m2 a y Ey), ret_bind, Ey. cbn [deref]. rewrite ret_bind, Epy. set (m3 := <[a := _]> m2). set (q1 := set_load _ _ _).
  assert (HS3 : sound least (mk_tree r2 m3) T2). { apply (sound_ext _ _ m2); [|done]. intros z Hz. subst m3. rewrite lookup_insert_ne; [done|]. intros <-. unfold addrs in Hz. rewrite El2, fmap_app in Hz. apply elem_of_app in Hz. tauto. }
  assert (Hrt : same_runtime m m3). { apply (same_runtime_trans m m1); [by apply (write_runtime m a x); [|rewrite Ep]|]. apply (same_runtime_trans m1 m2); [by apply kept_runtime|]. apply (write_runtime m2 a y); [done|by rewrite Epy]. }
  rewrite (update_min_ok q1 m3 (Q1 ++ Q2)); [|done|rewrite <- El2; by apply (sound_present r2)|by apply (valid_kept q _ m)|done]. rewrite ret_bind. eexists _, _, (summary y). split; [done|]. rewrite (running_kept q q1 m m3) by done.
  apply sorted_at in Hsrt as (Hsrt & _). split; [split|].
  - exists T2. done.
  - done.
  - done.
  - subst q1. cbn. rewrite HW, !load_app. cbn. rewrite u64_diff. f_equal. lia.
  - subst q1. cbn. rewrite HN, !length_app. cbn. rewrite u32_diff. f_equal. lia.
  - intros z Hz. apply HO. apply elem_of_app in Hz as [?|?]; apply elem_of_app; [by left|right; by right].
  - cbn. lia.
  - split; [subst m3; by rewrite lookup_insert_eq|]. split; [|done]. intros b Hb. assert (Hba : b <> a) by (intros ->; apply Hb; rewrite fmap_app, fmap_cons; apply elem_of_app; right; left). subst m3. rewrite lookup_insert_ne by done. rewrite O2; [subst m1; by rewrite lookup_insert_ne|].
    unfold addrs. rewrite El1. rewrite !fmap_app, !fmap_cons in *. done.
Qed.

(** ** The choice of the next entity *)

(** The reference: of the entities whose virtual runtime is not past [vt], the first
    with the earliest deadline. *)
Definition choose (vt : Z) (best : option item) (x : item) : option item :=
  if vruntime x.2 <=? vt then match best with None => Some x | Some b => if deadline x.2 <? deadline b.2 then Some x else best end else best.
Definition earliest (vt : Z) (Q : list item) : option item := foldl (choose vt) None Q.
Definition address (best : option item) : Z := match best with None => 0 | Some x => x.1 end.

Lemma choose_spec vt Q : forall best, match foldl (choose vt) best Q with
  | None => best = None /\ (forall y, y ∈ Q -> vt < vruntime y.2)
  | Some x => (best = Some x \/ x ∈ Q /\ vruntime x.2 <= vt) /\ (forall b, best = Some b -> deadline x.2 <= deadline b.2) /\ (forall y, y ∈ Q -> vruntime y.2 <= vt -> deadline x.2 <= deadline y.2)
  end.
Proof.
  induction Q as [|z Q IH]; intros best; cbn [foldl]; [destruct best as [b|]; [split; [by left|]; split; [by intros ? [= <-]|]|split; [done|]]; intros y []%elem_of_nil|]. specialize (IH (choose vt best z)). destruct (foldl (choose vt) (choose vt best z) Q) as [x|].
  - destruct IH as (H1 & H2 & H3). assert (Hz : (vruntime z.2 <= vt -> exists b, choose vt best z = Some b /\ deadline b.2 <= deadline z.2) /\ (choose vt best z = best \/ choose vt best z = Some z /\ vruntime z.2 <= vt) /\ (forall b, best = Some b -> exists b', choose vt best z = Some b' /\ deadline b'.2 <= deadline b.2)).
    { unfold choose. destruct (vruntime z.2 <=? vt) eqn:E; reify_bools; [|split; [lia|]; split; [by left|]; intros b ->; exists b; split; [done|lia]]. destruct best as [b|]; [destruct (deadline z.2 <? deadline b.2) eqn:E'; reify_bools|].
      - split; [intros _; exists z; split; [done|lia]|]. split; [by right|]. intros ? [= <-]. exists z. split; [done|lia].
      - split; [intros _; exists b; split; [done|lia]|]. split; [by left|]. intros ? [= <-]. exists b. split; [done|lia].
      - split; [intros _; exists z; split; [done|lia]|]. split; [by right|]. done. }
    destruct Hz as (Z1 & Z2 & Z3). split; [|split].
    + destruct H1 as [H1|[H1 H1']]; [|right; split; [by right|done]]. destruct Z2 as [Z2|[Z2 Z2']]; [left; congruence|right]. assert (x = z) as -> by congruence. split; [left|done].
    + intros b Hb. destruct (Z3 b Hb) as (b' & Eb & Hd). specialize (H2 b' Eb). lia.
    + intros y [->|Hy]%elem_of_cons Hv; [|by apply H3]. destruct (Z1 Hv) as (b & Eb & Hd). specialize (H2 b Eb). lia.
  - destruct IH as [H1 H2]. unfold choose in H1. destruct (vruntime z.2 <=? vt) eqn:E; reify_bools; [|split; [done|]; intros y [->|Hy]%elem_of_cons; [lia|by apply H2]]. destruct best as [b|]; [destruct (deadline z.2 <? deadline b.2)|]; done.
Qed.
(** Entities that are not eligible or not earlier change nothing. *)
Lemma choose_none vt Q best : (forall y, y ∈ Q -> vt < vruntime y.2 \/ exists b, best = Some b /\ deadline b.2 <= deadline y.2) -> foldl (choose vt) best Q = best.
Proof.
  induction Q as [|z Q IH]; intros H; cbn [foldl]; [done|]. assert (choose vt best z = best) as ->; [|apply IH; intros y Hy; apply H; by right]. unfold choose. destruct (H z ltac:(left)) as [Hz|(b & -> & Hd)].
  - destruct (vruntime z.2 <=? vt) eqn:E; reify_bools; [lia|done].
  - destruct (vruntime z.2 <=? vt); [|done]. destruct (deadline z.2 <? deadline b.2) eqn:E; reify_bools; [lia|done].
Qed.
Lemma earliest_seed vt x Q : vruntime x.2 <= vt -> foldl (choose vt) (Some x) (x :: Q) = earliest vt (x :: Q).
Proof. intros H. unfold earliest. cbn [foldl]. f_equal. unfold choose. rewrite (proj2 (Z.leb_le _ _) H). by destruct (deadline x.2 <? deadline x.2). Qed.

(** A candidate in memory. *)
Definition known (m : memory) (best : option item) : Prop := match best with None => True | Some x => present m [x] end.
Lemma known_seek (m : memory) vt Q best : known m best -> present m Q -> known m (foldl (choose vt) best Q).
Proof.
  intros Hb HQ. pose proof (choose_spec vt Q best) as H. destruct (foldl _ _ _) as [[a e]|]; [|done]. destruct H as [[->|[H _]] _]; [done|]. intros b f Hin. apply list_elem_of_singleton in Hin as [= -> ->]. by apply HQ.
Qed.
Lemma pick_candidate_ok r (m : memory) vt : forall (t : tree) (K : list frm) fuel best, holds (mk_tree r m) (plug K t) -> aug least t -> sorted (elems t) -> known m best -> (length (addrs t) < fuel)%nat ->
  pick_candidate fuel (ptr t) vt (address best) m = Ret (address (foldl (choose vt) best (elems t))).
Proof.
  induction t as [|c l IHl a [e v] u IHu]; intros K fuel best H HA HS HB Hf; (destruct fuel as [|fuel]; [cbn in Hf; lia|]); cbn [pick_candidate]; [done|]. cbn [ptr]. rewrite (proj2 (Z.eqb_neq a 0)) by by apply (nonzero (mk_tree r m) K L c l a (e, v) u). pose proof (get_at _ K L c l a (e, v) u H) as Eg. unfold get in Eg. cbn [nodes] in Eg. rewrite Eg, ret_bind. cbn [cell payload left right fst snd].
  assert (Hl : holds (mk_tree r m) (plug (Frm L c a (e, v) u :: K) l)) by exact H. assert (Hu : holds (mk_tree r m) (plug (Frm R c a (e, v) l :: K) u)) by exact H. pose proof (least_sum _ HA) as Hsum. cbn [sum snd] in Hsum. destruct Hsum as [_ Hsum]. unfold min_deadline. cbn [summary].
  pose proof (holds_present _ K _ H) as HP. cbn [nodes] in HP.
  destruct (holds_disjoint _ _ _ H) as (_ & _ & F). rewrite (addrs_nd L c l a (e, v) u) in F, Hf. apply Forall_cons in F as [_ F]. apply Forall_app in F as [Fl Fu]. cbn in Hf. rewrite length_app in Hf. cbn [aug augmented] in HA. destruct HA as (_ & HAl & HAu). cbn [elems] in HS, HP. apply sorted_app in HS as (HSl & HSu & _). apply sorted_cons in HSu as [HSu Hau].
  assert (Hprune : (if address best =? 0 then Ret false else b ← se_of m (address best); Ret (v >=? deadline b)) = Ret (match best with None => false | Some b => v >=? deadline b.2 end)).
  { destruct best as [[b f]|]; [|done]. destruct (HB b f ltac:(left)) as (H0 & x & Ex & Ep). cbn [address fst snd]. rewrite (proj2 (Z.eqb_neq b 0) H0), (se_at m b x Ex), ret_bind, Ep. done. }
  rewrite Hprune, ret_bind. destruct (match best with None => false | Some b => v >=? deadline b.2 end) eqn:Epr.
  - destruct best as [b|]; [|done]. reify_bools. rewrite choose_none; [done|]. intros y Hy. right. exists b. split; [done|]. specialize (Hsum y Hy). lia.
  - clear Hprune Epr. cbn [elems]. rewrite foldl_app. cbn [foldl fst]. set (best1 := foldl (choose vt) best (elems l)). assert (HB1 : known m best1) by (apply known_seek; [done|]; intros b f Hb; apply HP; apply elem_of_app; by left).
    assert (El : (if ptr l =? 0 then Ret (address best) else pick_candidate fuel (ptr l) vt (address best) m) = Ret (address best1)).
    { destruct (leaf_dec l) as [->|Hne]; [done|]. rewrite (proj2 (Z.eqb_neq _ 0)) by by rewrite (ptr_zero l Fl). apply (IHl _ fuel best Hl HAl HSl HB). lia. }
    rewrite El, ret_bind. unfold choose at 2. cbn [snd]. destruct (vruntime e <=? vt) eqn:Ev; reify_bools.
    + assert (Eb : (if address best1 =? 0 then Ret a else b ← se_of m (address best1); Ret (if deadline e <? deadline b then a else address best1)) = Ret (address (choose vt best1 (a, e)))).
      { unfold choose. cbn [snd]. rewrite (proj2 (Z.leb_le _ _) Ev). destruct best1 as [[b f]|]; [|done]. destruct (HB1 b f ltac:(left)) as (H0 & x & Ex & Ep). cbn [address fst snd]. rewrite (proj2 (Z.eqb_neq b 0) H0), (se_at m b x Ex), ret_bind, Ep. by destruct (deadline e <? deadline f). }
      rewrite Eb, ret_bind. assert (Ec : match best1 with None => Some (a, e) | Some b => if deadline e <? deadline b.2 then Some (a, e) else best1 end = choose vt best1 (a, e)) by (unfold choose; cbn [snd]; by rewrite (proj2 (Z.leb_le _ _) Ev)). rewrite Ec.
      assert (HB2 : known m (choose vt best1 (a, e))) by (apply (known_seek m vt [(a, e)] best1 HB1); intros b f Hb; apply list_elem_of_singleton in Hb as [= -> ->]; apply HP; apply elem_of_app; right; left).
      destruct (leaf_dec u) as [->|Hne]; [done|]. rewrite (proj2 (Z.eqb_neq _ 0)) by by rewrite (ptr_zero u Fu). apply (IHu _ fuel _ Hu HAu HSu HB2). lia.
    + rewrite choose_none; [done|]. intros y Hy. left. specialize (Hau y Hy). unfold before in Hau. cbn in Hau. lia.
Qed.

(** ** Picking *)

Lemma queued_root q m Q : queued q m Q -> (tasks_tree q =? 0) = bool_decide (Q = []).
Proof.
  intros [(T & [H _ _] & <-) _ _ _ _ _ _]. rewrite <- (h_root _ _ H : tasks_tree q = ptr T) || rewrite (h_root _ _ H : tasks_tree q = ptr T). case_bool_decide as E; [apply elems_nil in E; by subst T|]. apply Z.eqb_neq. rewrite (ptr_zero T (h_addr _ _ H)). by rewrite <- elems_nil.
Qed.
(** The least deadline of the queue is in the root. *)
Lemma queued_least q m Q : queued q m Q -> Q <> [] -> exists x, m !! tasks_tree q = Some x /\ forall y, y ∈ Q -> min_deadline x <= deadline y.2.
Proof.
  intros [(T & [H _ HA] & <-) _ _ _ _ _ _] Hne. rewrite elems_nil in Hne. rewrite (h_root _ _ H : tasks_tree q = ptr T). destruct T as [|c l a [e v] r]; [done|]. pose proof (get_some _ _ _ (get_at _ [] L c l a (e, v) r H)) as Eg. eexists. split; [exact Eg|]. intros y Hy. pose proof (least_sum _ HA) as [_ Hs]. by apply Hs.
Qed.
Lemma queued_first q m a e Q : queued q m ((a, e) :: Q) -> rb_leftmost q = a /\ a <> 0 /\ (exists x, m !! a = Some x /\ payload x = e) /\ (forall y, y ∈ (a, e) :: Q -> vruntime e <= vruntime y.2).
Proof.
  intros H. pose proof (qd_left _ _ _ H) as HL. destruct (queued_present _ _ _ H a e ltac:(left)) as [H0 Hx]. split; [done|]. split; [done|]. split; [done|]. intros y [->|Hy]%elem_of_cons; [done|]. pose proof (qd_sorted _ _ _ H) as HS. apply sorted_cons in HS as [_ HS]. specialize (HS y Hy). unfold before in HS. cbn in HS. lia.
Qed.
Lemma pick_search_ok q m Q best : queued q m Q -> known m best -> pick_candidate (pick_fuel m) (tasks_tree q) (vtime q) (address best) m = Ret (address (foldl (choose (vtime q)) best Q)).
Proof.
  intros [(T & [H _ HA] & <-) HS _ _ _ _ _] HB. rewrite (h_root _ _ H : tasks_tree q = ptr T). apply (pick_candidate_ok (tasks_tree q) m _ T []); [done|done|done|done|]. unfold pick_fuel. pose proof (context_size _ [] T H) as Hc. cbn in Hc. lia.
Qed.
Lemma earliest_none vt a e Q : vt < vruntime e -> (forall y, y ∈ (a, e) :: Q -> vruntime e <= vruntime y.2) -> earliest vt ((a, e) :: Q) = None.
Proof. intros H Hy. apply choose_none. intros y Hin. left. specialize (Hy y Hin). lia. Qed.
Lemma earliest_first vt a e Q d : vruntime e <= vt -> (forall y, y ∈ (a, e) :: Q -> d <= deadline y.2) -> deadline e <= d -> earliest vt ((a, e) :: Q) = Some (a, e).
Proof. intros H Hy Hd. rewrite <- earliest_seed by done. apply choose_none. intros y Hin. right. exists (a, e). split; [done|]. specialize (Hy y Hin). cbn. lia. Qed.

Lemma peek_ok q m Q : queued q m Q -> eevfd_peek_eligible_entity q m = Ret (address (earliest (vtime q) Q)).
Proof.
  intros H. unfold eevfd_peek_eligible_entity. rewrite (queued_root _ _ _ H). destruct Q as [|[a e] Q]; [done|]. destruct (queued_first _ _ _ _ _ H) as (-> & H0 & (x & Ex & Ep) & Hle). rewrite (bool_decide_eq_false_2 (_ = [])) by done. rewrite (proj2 (Z.eqb_neq a 0) H0). cbn [orb]. rewrite (se_at m a x Ex), ret_bind, Ep.
  destruct (vruntime e >? vtime q) eqn:Ev; reify_bools; [by rewrite earliest_none|]. destruct (queued_least _ _ _ H) as (y & Ey & Hy); [done|]. rewrite Ey. cbn [deref]. rewrite ret_bind. destruct (deadline e <=? min_deadline y) eqn:Ed; reify_bools; [by rewrite (earliest_first _ _ _ _ (min_deadline y))|].
  rewrite <- earliest_seed by done. apply (pick_search_ok q m _ (Some (a, e)) H). intros b f Hb. apply list_elem_of_singleton in Hb as [= -> ->]. split; [done|]. by exists x.
Qed.

(** The entity to run and the queue after the choice. *)
Definition next_of (vt : Z) (Q : list item) : Z := match earliest vt Q with Some x => x.1 | None => first_addr Q end.
Definition caught_up (q : eevfd_rq) (Q : list item) : eevfd_rq := match earliest (vtime q) Q with Some _ => q | None => match Q with x :: _ :: _ => set_vtime (vruntime x.2) q | _ => q end end.
Lemma pick_ok q m Q : queued q m Q -> Z.of_nat (length Q) < 2 ^ 32 -> eevfd_pick_next_entity q m = Ret (next_of (vtime q) Q, caught_up q Q).
Proof.
  intros H Hlen. unfold eevfd_pick_next_entity. rewrite (queued_root _ _ _ H). destruct Q as [|[a e] Q]; [done|]. destruct (queued_first _ _ _ _ _ H) as (EL & H0 & (x & Ex & Ep) & Hle). rewrite EL. unfold nz. rewrite (bool_decide_eq_false_2 (_ = [])) by done. rewrite (proj2 (Z.eqb_neq a 0) H0). cbn [negb]. rewrite !andb_true_r.
  rewrite (qd_count _ _ _ H), u32_id by (cbn in *; lia). destruct (Z.of_nat (length ((a, e) :: Q)) =? 1) eqn:En; reify_bools.
  { destruct Q; [|cbn in En; lia]. unfold next_of, caught_up, earliest, choose. cbn. by destruct (vruntime e <=? vtime q). }
  rewrite (se_at m a x Ex), !ret_bind, Ep. destruct (queued_least _ _ _ H) as (y & Ey & Hy); [done|]. rewrite Ey. cbn [deref]. rewrite !ret_bind. destruct (vruntime e <=? vtime q) eqn:Ev; reify_bools.
  - assert (Hk : known m (Some (a, e))) by (intros b f Hb; apply list_elem_of_singleton in Hb as [= -> ->]; split; [done|]; by exists x).
    destruct (deadline e <=? min_deadline y) eqn:Ed; reify_bools; [by unfold next_of, caught_up; rewrite (earliest_first _ _ _ _ (min_deadline y)) by done|].
    rewrite (pick_search_ok q m _ (Some (a, e)) H Hk : pick_candidate (pick_fuel m) (tasks_tree q) (vtime q) a m = _), ret_bind, earliest_seed by done. pose proof (known_seek m (vtime q) ((a, e) :: Q) None I (queued_present _ _ _ H)) as Hk'. fold (earliest (vtime q) ((a, e) :: Q)) in Hk'. unfold next_of, caught_up.
    pose proof (choose_spec (vtime q) ((a, e) :: Q) None) as Hc. fold (earliest (vtime q) ((a, e) :: Q)) in Hc. destruct (earliest (vtime q) ((a, e) :: Q)) as [[b f]|]; [|destruct Hc as [_ Hc]; specialize (Hc (a, e) ltac:(left)); cbn in Hc; lia].
    cbn [address fst]. destruct (Hk' b f ltac:(left)) as [Hb0 _]. rewrite (proj2 (Z.eqb_neq b 0) Hb0). done.
  - rewrite (pick_search_ok q m _ None H I : pick_candidate (pick_fuel m) (tasks_tree q) (vtime q) 0 m = _), ret_bind. fold (earliest (vtime q) ((a, e) :: Q)). unfold next_of, caught_up. rewrite earliest_none by done. cbn [address Z.eqb andb]. rewrite (proj2 (Z.ltb_lt _ _)) by lia. destruct Q; [cbn in En; lia|]. done.
Qed.

(** ** Validation *)

Lemma count_loop_ok q m (T : tree) : sound least (mk_tree (tasks_tree q) m) T -> forall B A fuel c w, elems T = A ++ B -> (forall x, x ∈ B -> on_rq x.2 = true) -> (length B < fuel)%nat ->
  count_loop fuel (first_addr B) m (tasks_tree q) (u32 c) (u64 w) = Ret (Some (u32 (c + Z.of_nat (length B)), u64 (w + load B))).
Proof.
  intros HS. induction B as [|[a e] B IH]; intros A fuel c w E HO Hf; (destruct fuel as [|fuel]; [cbn in Hf; lia|]); cbn [count_loop first_addr]; [cbn; by rewrite !Z.add_0_r|].
  destruct (sound_present _ _ _ HS a e) as (H0 & x & Ex & Ep); [rewrite E; apply elem_of_app; right; left|]. rewrite (proj2 (Z.eqb_neq a 0) H0), (se_at m a x Ex), ret_bind, Ep, (HO (a, e) ltac:(left) : on_rq e = true). cbn [negb]. pose proof (step_rep R _ T A a e B (sd_holds _ _ _ HS) E) as Hn. unfold rb_next. rewrite Hn, ret_bind, u32_sum, u64_sum.
  rewrite (IH (A ++ [(a, e)])); [cbn [length load snd]; do 3 f_equal; f_equal; lia|by rewrite E, <- (assoc_L (++))|intros z Hz; apply HO; by right|cbn in Hf; lia].
Qed.
Lemma validate_rq_ok q m Q : queued q m Q -> eevfd_validate_rq q m = Ret true.
Proof.
  intros H. unfold eevfd_validate_rq. rewrite (queued_root _ _ _ H). destruct H as [(T & HS & ET) _ HL HW HN HO _]. destruct (validates_ok _ T (sd_holds _ _ _ HS)) as (b & Eb & Hb). rewrite Eb, ret_bind. rewrite (proj2 Hb (sd_balanced _ _ _ HS)). cbn [negb]. rewrite HL, HW, HN. case_bool_decide as E; [by rewrite E|].
  pose proof (extreme_rep L _ T (sd_holds _ _ _ HS)) as Hf. cbn [end_of] in Hf. unfold rb_first. rewrite Hf, ret_bind, ET, Z.eqb_refl. cbn [negb]. pose proof (count_loop_ok q m T HS Q [] (S (S (size m))) 0 0 ET) as Hc. change (u32 0) with 0 in Hc. change (u64 0) with 0 in Hc. rewrite Hc; [|intros x Hx; apply (HO x Hx)|].
  - rewrite ret_bind, !Z.add_0_l, !Z.eqb_refl. done.
  - pose proof (context_size _ [] T (sd_holds _ _ _ HS)) as Hs. cbn [plug nodes] in Hs. unfold addrs in Hs. rewrite length_fmap, ET in Hs. cbn in Hs. lia.
Qed.

(** ** Charging the running entity *)

(** The running entity after [delta] nanoseconds; [vt] is the virtual time then. *)
Definition charged (vt now delta : Z) (e : sched_entity) : sched_entity :=
  let burst := Z.min UINT16_MAX (u64 (burst_exec_us e + u64 (delta + 999) / 1000)) in
  let vr := u64 (vruntime e + calc_delta_vruntime delta (weight e) (wmult e)) in
  let normal := eevfd_calc_slice_for_nice (nice_value e) in
  mk_se vr (deadline e) (if negb (custom_slice e) && negb (nz (critical_depth e)) && (u64 (burst * 4000) >=? normal) then normal else slice_ns e) (weight e) (wmult e)
    (s64 (s64 vt - s64 vr)) now (u64 (prev_sum_exec_ns e + delta)) (nice_value e) (on_rq e) (custom_slice e) (critical_depth e) burst.
Definition advanced (q : eevfd_rq) (delta : Z) (e : sched_entity) : Z := u64 (vtime q + calc_delta_sys_vtime delta (u64 (total_weight q + (if on_rq e then 0 else weight e)))).

(** The code's two writes of the entity make [charged]. *)
Lemma charged_eq q delta now e :
  let burst := u64 (burst_exec_us e + u64 (delta + 999) / 1000) in
  let e1 := set_burst (if burst >? UINT16_MAX then UINT16_MAX else burst) (set_sum_exec (u64 (prev_sum_exec_ns e + delta)) (set_exec_start now e)) in
  let e2 := if negb (custom_slice e1) && negb (nz (critical_depth e1)) && (u64 (burst_exec_us e1 * 4000) >=? eevfd_calc_slice_for_nice (nice_value e1)) then set_slice (eevfd_calc_slice_for_nice (nice_value e1)) e1 else e1 in
  u64 (vruntime e2 + calc_delta_vruntime delta (weight e2) (wmult e2)) = vruntime (charged (advanced q delta e) now delta e) /\
  u64 (vtime q + calc_delta_sys_vtime delta (u64 (total_weight q + (if on_rq e2 then 0 else weight e2)))) = advanced q delta e /\
  place_se (vruntime (charged (advanced q delta e) now delta e)) (deadline e2) (s64 (s64 (advanced q delta e) - s64 (vruntime (charged (advanced q delta e) now delta e)))) e2 = charged (advanced q delta e) now delta e.
Proof.
  intros burst e1 e2. assert (Eb : burst_exec_us e1 = Z.min UINT16_MAX burst) by (subst e1; cbn [burst_exec_us set_burst]; destruct (burst >? UINT16_MAX) eqn:E; reify_bools; lia).
  assert (E2 : e2 = mk_se (vruntime e) (deadline e) (slice_ns (charged (advanced q delta e) now delta e)) (weight e) (wmult e) (lag e) now (u64 (prev_sum_exec_ns e + delta)) (nice_value e) (on_rq e) (custom_slice e) (critical_depth e) (Z.min UINT16_MAX burst)).
  { subst e2. rewrite Eb. unfold charged. cbn [slice_ns]. fold burst. change (custom_slice e1) with (custom_slice e). change (critical_depth e1) with (critical_depth e). change (nice_value e1) with (nice_value e). rewrite <- Eb. destruct (_ && _ && _); done. }
  rewrite E2. done.
Qed.

Lemma charge_ok q m Q now x : queued q m Q -> curr q <> 0 -> curr q ∉ Q.*1 -> m !! curr q = Some x -> exec_start_ns (payload x) <> 0 -> exec_start_ns (payload x) < now ->
  let e := payload x in let vt := advanced q (now - exec_start_ns e) e in let e' := charged vt now (now - exec_start_ns e) e in
  let F := floor_of q (Some (vruntime e')) Q in
  let q' := set_vtime (Z.max vt F) (set_min_vruntime F q) in let m' := <[curr q := mk_node (pc x) (right x) (left x) e' (summary x)]> m in
  eevfd_update_curr q now m = Ret (q', m') /\ queued q' m' Q.
Proof.
  intros HQ H0 Hn Ex Hs Hlt e vt e' F q' m'. assert (HQ' : queued q' m' Q). { apply (queued_same q); [done|cbn; lia|]. apply (queued_ext q m); [|done]. intros z Hz. subst m'. rewrite lookup_insert_ne; [done|]. intros <-. done. }
  split; [|done]. unfold eevfd_update_curr. rewrite (proj2 (Z.eqb_neq _ 0) H0), (se_at m _ x Ex), ret_bind. fold e in Hs, Hlt |- *. rewrite (proj2 (Z.eqb_neq _ 0) Hs), (proj2 (Z.leb_gt _ _) Hlt). cbv zeta.
  destruct (charged_eq q (now - exec_start_ns e) now e) as (E1 & E2 & E3). cbv zeta in E1, E2, E3. rewrite E1, E2. cbn [vtime curr rb_leftmost set_vtime]. rewrite E3. fold vt e'. rewrite (write_at m _ x _ Ex), ret_bind. fold m'.
  assert (El : (if rb_leftmost q =? 0 then Ret (vruntime e') else l ← se_of m' (rb_leftmost q); Ret (if vruntime l <? vruntime e' then vruntime l else vruntime e')) = Ret (match foremost Q with None => vruntime e' | Some l => Z.min (vruntime e') l end)).
  { rewrite (qd_left _ _ _ HQ). destruct Q as [|[b f] Q]; [done|]. cbn [first_addr]. destruct (queued_present _ _ _ HQ' b f ltac:(left)) as (Hb & y & Ey & Ep). rewrite (proj2 (Z.eqb_neq b 0) Hb), (se_at m' b y Ey), ret_bind, Ep. unfold foremost. cbn. f_equal. destruct (vruntime f <? _) eqn:E; reify_bools; lia. }
  rewrite El, ret_bind. pose proof (raise_max (set_vtime vt q) (match foremost Q with None => vruntime e' | Some l => Z.min (vruntime e') l end)) as Hr. cbv zeta in Hr. rewrite Hr. done.
Qed.

(** Every branch of [eevfd_update_curr] keeps the queue. *)
Lemma update_curr_ok q m Q now : queued q m Q -> valid_curr q m -> curr q ∉ Q.*1 ->
  exists q' m', eevfd_update_curr q now m = Ret (q', m') /\ queued q' m' Q /\ (forall b, b <> curr q -> m' !! b = m !! b) /\ curr q' = curr q /\ min_vruntime q <= min_vruntime q' /\
    (curr q = 0 /\ m' = m \/ exists x e, m !! curr q = Some x /\ m' !! curr q = Some (mk_node (pc x) (right x) (left x) e (summary x)) /\ on_rq e = on_rq (payload x)).
Proof.
  intros HQ HC Hn. destruct (decide (curr q = 0)) as [E0|H0].
  { exists q, m. unfold eevfd_update_curr. rewrite E0 at 1. do 5 (split; [done|]). by left. }
  destruct HC as [?|[x Ex]]; [done|]. assert (Hsame : exists x0 e, m !! curr q = Some x0 /\ m !! curr q = Some (mk_node (pc x0) (right x0) (left x0) e (summary x0)) /\ on_rq e = on_rq (payload x0)) by (exists x, (payload x); by destruct x).
  assert (Hext : forall y, queued q (<[curr q := y]> m) Q) by (intros y; apply (queued_ext q m); [|done]; intros z Hz; rewrite lookup_insert_ne; [done|]; intros <-; done).
  assert (Hne : forall b (y : entity), b <> curr q -> <[curr q := y]> m !! b = m !! b) by (intros b y Hb; by rewrite lookup_insert_ne).
  destruct (decide (exec_start_ns (payload x) = 0)) as [Es|Hs].
  - unfold eevfd_update_curr. rewrite (proj2 (Z.eqb_neq _ 0) H0), (se_at m _ x Ex), ret_bind, Es. cbn [Z.eqb]. rewrite (write_at m _ x _ Ex), ret_bind. eexists _, _. split; [done|]. split; [apply Hext|]. split; [intros b Hb; by apply Hne|]. split; [done|]. split; [done|]. right. exists x. eexists. split; [done|]. split; [by rewrite lookup_insert_eq|done].
  - destruct (decide (exec_start_ns (payload x) < now)) as [Hlt|Hge].
    + destruct (charge_ok q m Q now x HQ H0 Hn Ex Hs Hlt) as [E HQ']. eexists _, _. split; [exact E|]. split; [done|]. split; [intros b Hb; by apply Hne|]. split; [done|]. split; [cbn; unfold floor_of; lia|]. right. exists x. eexists. split; [done|]. split; [by rewrite lookup_insert_eq|done].
    + unfold eevfd_update_curr. rewrite (proj2 (Z.eqb_neq _ 0) H0), (se_at m _ x Ex), ret_bind, (proj2 (Z.eqb_neq _ 0) Hs), (proj2 (Z.leb_le now _)) by lia. exists q, m. do 5 (split; [done|]). by right.
Qed.

End EevfdSafe.
