(* ===== verification/EevfdMachine.v ===== *)
(** EevfdMachine: the run queues of all CPUs over one memory of entities, and the
    operations of [eevfd.c] as the scheduler calls them ([sched/sched.c]). The abstract
    state is one ordered list of entities for each CPU; every operation is shown to
    implement a step on these lists. *)

From S2P Require Import Prelude RbTree RbRep RbInsert RbErase RbWalk Eevfd EevfdSafe.
From stdpp Require Import list_relations.
#[local] Open Scope Z_scope.

Module EevfdMachine.
Import RbTree RbRep RbInsert RbErase RbWalk Eevfd EevfdSafe.

(** ** The machine *)

Record machine := mk_machine { cpus : list eevfd_rq; mem : memory }.

Inductive op :=
| Create (a : Z) (x : entity) (nice slice : Z)
| Nice (a nice : Z)
| Slice (a slice : Z)
| Sleep (a : Z)
| Place (i : nat) (a : Z) (initial_spawn : bool)
| Migrate (src : option nat) (dst : nat) (a : Z)
| Enqueue (i : nat) (a : Z)
| Dequeue (i : nat) (a : Z)
| Tick (i : nat) (now : Z)
| Pick (i : nat)
| SetNext (i : nat) (a : Z)
| PutPrev (i : nat) (a : Z).

Definition in_memory (w : machine) (f : memory -> outcome memory) : outcome machine := m ← f (mem w); Ret (mk_machine (cpus w) m).
Definition on_cpu (i : nat) (w : machine) (f : eevfd_rq -> memory -> outcome (eevfd_rq * memory)) : outcome machine :=
  q ← deref (cpus w !! i); '(q, m) ← f q (mem w); Ret (mk_machine (<[i := q]> (cpus w)) m).
Definition exec (o : op) (w : machine) : outcome machine :=
  match o with
  | Create a x nice slice => in_memory w (fun m => eevfd_entity_init a nice slice (<[a := x]> m))
  | Nice a nice => in_memory w (eevfd_set_nice a nice)
  | Slice a slice => in_memory w (eevfd_set_slice a slice)
  | Sleep a => in_memory w (eevfd_note_sleep a)
  | Place i a b => q ← deref (cpus w !! i); in_memory w (eevfd_place_entity q a b)
  | Migrate src dst a => q ← deref (cpus w !! dst); in_memory w (eevfd_migrate_entity (src ≫= (fun i => cpus w !! i)) q a)
  | Enqueue i a => on_cpu i w (fun q => eevfd_enqueue_entity q a)
  | Dequeue i a => on_cpu i w (fun q => eevfd_dequeue_entity q a)
  | Tick i now => on_cpu i w (fun q => eevfd_update_curr q now)
  | Pick i => on_cpu i w (fun q m => '(_, q) ← eevfd_pick_next_entity q m; Ret (q, m))
  | SetNext i a => on_cpu i w (fun q => eevfd_set_next_entity q a)
  | PutPrev i a => on_cpu i w (fun q => eevfd_put_prev_entity q a)
  end.

(** ** The abstract machine *)

Notation queues := (list (list item)).
(** An entity that is in no tree. *)
Definition idle (x : entity) : Prop := on_rq (payload x) = false /\ pc x = 0 /\ left x = 0 /\ right x = 0.
Definition free_of (Qs : queues) (a : Z) : Prop := forall i Q, Qs !! i = Some Q -> a ∉ Q.*1.
Record machine_ok (w : machine) (Qs : queues) : Prop := mk_ok {
  ok_length : length Qs = length (cpus w);
  ok_queued : forall i q Q, cpus w !! i = Some q -> Qs !! i = Some Q -> queued q (mem w) Q;
  ok_disjoint : forall i j Q1 Q2 a, Qs !! i = Some Q1 -> Qs !! j = Some Q2 -> a ∈ Q1.*1 -> a ∈ Q2.*1 -> i = j;
  ok_memory : forall a x, mem w !! a = Some x -> addr a /\ (free_of Qs a -> idle x);
  ok_curr : forall i q, cpus w !! i = Some q -> curr q = 0 \/ is_Some (mem w !! curr q) /\ free_of Qs (curr q) }.

(** What the scheduler makes sure of: it changes the parameters of an entity only when
    the entity is off the queues, queues no entity that runs, and dequeues from the
    CPU that holds the entity. *)
Definition resting (w : machine) (a : Z) : Prop := a = 0 \/ exists x, mem w !! a = Some x /\ on_rq (payload x) = false.
Definition owned (w : machine) (Qs : queues) (i : nat) (a : Z) : Prop := resting w a \/ exists Q, Qs !! i = Some Q /\ a ∈ Q.*1.
Definition permitted (o : op) (w : machine) (Qs : queues) : Prop :=
  match o with
  | Create a x _ _ => mem w !! a = None /\ addr a
  | Nice a _ | Slice a _ | Sleep a => resting w a
  | Place i a _ => (i < length (cpus w))%nat /\ resting w a
  | Migrate src dst a => (dst < length (cpus w))%nat /\ resting w a
  | Enqueue i a => (i < length (cpus w))%nat /\ (a = 0 \/ is_Some (mem w !! a)) /\ (forall j q, cpus w !! j = Some q -> curr q = a -> a = 0)
  | Dequeue i a | SetNext i a => (i < length (cpus w))%nat /\ owned w Qs i a
  | Tick i now => (i < length (cpus w))%nat
  | Pick i => (exists Q, Qs !! i = Some Q /\ Z.of_nat (length Q) < 2 ^ 32) /\ (i < length (cpus w))%nat
  | PutPrev i a => (i < length (cpus w))%nat /\ resting w a
  end.

(** The step on the lists. *)
Definition at_cpu (i : nat) (f : list item -> list item) (Qs : queues) : queues := match Qs !! i with Some Q => <[i := f Q]> Qs | None => Qs end.
Definition spec (o : op) (w : machine) (Qs : queues) : queues :=
  match o with
  | Enqueue i a => match mem w !! a with Some x => if eevfd_ptr_sane a && negb (on_rq (payload x)) then at_cpu i (insert_item (a, set_on_rq true (payload x))) Qs else Qs | None => Qs end
  | Dequeue i a | SetNext i a => at_cpu i (remove_item a) Qs
  | _ => Qs
  end.

(** ** Steps that only write an entity off the queues *)

Lemma resting_free w Qs a x : machine_ok w Qs -> mem w !! a = Some x -> on_rq (payload x) = false -> free_of Qs a.
Proof.
  intros H Ex Eon i Q EQ Hin. destruct (cpus w !! i) as [q|] eqn:Eq; [|apply lookup_lt_Some in EQ; apply lookup_ge_None in Eq; rewrite (ok_length _ _ H) in EQ; lia]. destruct (queued_on q (mem w) Q a x (ok_queued _ _ H i q Q Eq EQ) Ex Hin). congruence.
Qed.
Lemma memory_step w Qs a y : machine_ok w Qs -> free_of Qs a -> addr a -> idle y -> machine_ok (mk_machine (cpus w) (<[a := y]> (mem w))) Qs.
Proof.
  intros [H1 H2 H3 H4 H5] Hf Ha Hy. split; cbn [cpus mem].
  - done.
  - intros i q Q Eq EQ. apply (queued_ext q (mem w)); [|by apply (H2 i)]. intros z Hz. rewrite lookup_insert_ne; [done|]. intros <-. by apply (Hf i Q).
  - done.
  - intros b x. destruct (decide (b = a)) as [->|Hb]; [rewrite lookup_insert_eq; intros [= <-]; done|rewrite lookup_insert_ne by done; apply H4].
  - intros i q Eq. destruct (H5 i q Eq) as [?|[Hs ?]]; [by left|right]. split; [|done]. destruct (decide (curr q = a)) as [->|Hb]; [rewrite lookup_insert_eq; by eexists|by rewrite lookup_insert_ne].
Qed.

(** Rewriting an entity that rests keeps it out of the trees. *)
Lemma rest_step w Qs f a : machine_ok w Qs -> resting w a ->
  (forall m, a = 0 -> f m = Ret m) -> (forall m x, a <> 0 -> m !! a = Some x -> exists e v, f m = Ret (<[a := mk_node (pc x) (right x) (left x) e v]> m) /\ on_rq e = on_rq (payload x)) ->
  exists w', in_memory w f = Ret w' /\ machine_ok w' Qs /\ cpus w' = cpus w.
Proof.
  intros H HR F0 F1. unfold in_memory. assert (Hw : w = mk_machine (cpus w) (mem w)) by by destruct w. destruct (decide (a = 0)) as [E0|H0].
  { rewrite (F0 _ E0), ret_bind. exists w. by rewrite <- Hw. }
  destruct HR as [?|(x & Ex & Eon)]; [done|]. destruct (F1 (mem w) x H0 Ex) as (e & v & Ef & Eo). rewrite Ef, ret_bind. eexists. split; [done|]. split; [|done]. pose proof (resting_free w Qs a x H Ex Eon) as Hf. destruct (ok_memory _ _ H a x Ex) as [Ha Hi]. specialize (Hi Hf).
  apply memory_step; [done|done|done|]. destruct Hi as (_ & ? & ? & ?). split; [cbn; congruence|done].
Qed.

Lemma clamp_nice_range n : 0 <= clamp_nice n + 20 < 40.
Proof. unfold clamp_nice. destruct (n <? -20) eqn:E; reify_bools; [cbn; lia|]. cbn. destruct (n >? 19) eqn:E2; reify_bools; lia. Qed.
Lemma table_get (l : list Z) i : length l = 40%nat -> 0 <= i < 40 -> exists v, arr_get l i = Ret v.
Proof. intros Hl Hi. unfold arr_get. assert (Hlt : (Z.to_nat i < length l)%nat) by (rewrite Hl; lia). destruct (lookup_lt_is_Some_2 l _ Hlt) as [v Ev]. exists v. destruct (i <? 0) eqn:E; reify_bools; [lia|]. by rewrite Ev. Qed.
Lemma nice_tables n : exists w wm, nice_to_weight n = Ret w /\ nice_to_wmult n = Ret wm.
Proof. destruct (table_get prio_to_weight _ eq_refl (clamp_nice_range n)) as [w E]. destruct (table_get prio_to_wmult _ eq_refl (clamp_nice_range n)) as [wm E']. by exists w, wm. Qed.

(** ** Steps of one CPU *)

(** CPU [i] goes from [Q] to [Q'], and at most entity [a] comes, goes or is written. *)
Lemma cpu_step w Qs i q Q a q' m' Q' : machine_ok w Qs -> cpus w !! i = Some q -> Qs !! i = Some Q -> queued q' m' Q' ->
  (forall b, b <> a -> b ∉ Q.*1 -> m' !! b = mem w !! b) -> (forall b, b <> a -> b ∈ Q'.*1 <-> b ∈ Q.*1) -> (forall j Qj, j <> i -> Qs !! j = Some Qj -> a ∉ Qj.*1) ->
  (a ∈ Q'.*1 -> forall j qj, cpus w !! j = Some qj -> curr qj <> a) -> (a ∉ Q'.*1 -> m' !! a = mem w !! a /\ a ∉ Q.*1 \/ exists y, m' !! a = Some y /\ addr a /\ idle y) ->
  (curr q' = curr q \/ curr q' = 0 \/ curr q' = a /\ a ∉ Q'.*1 /\ is_Some (m' !! a)) -> machine_ok (mk_machine (<[i := q']> (cpus w)) m') (<[i := Q']> Qs).
Proof.
  intros H Eq EQ HQ Hout Hiff Hoth Hcur Hgone Hc. destruct H as [H1 H2 H3 H4 H5]. pose proof (lookup_lt_Some _ _ _ Eq) as Hi. pose proof (lookup_lt_Some _ _ _ EQ) as Hi'.
  assert (Hfree : forall b, b <> a -> free_of (<[i := Q']> Qs) b <-> free_of Qs b).
  { intros b Hb. unfold free_of. split; intros Hf j Qj Ej.
    - destruct (decide (j = i)) as [->|Hj]; [|apply (Hf j); by rewrite list_lookup_insert_ne]. rewrite EQ in Ej. injection Ej as <-. rewrite <- Hiff by done. apply (Hf i). by apply list_lookup_insert_eq.
    - destruct (decide (j = i)) as [->|Hj]; [rewrite list_lookup_insert_eq in Ej by done; injection Ej as <-; rewrite Hiff by done; by apply (Hf i)|rewrite list_lookup_insert_ne in Ej by done; by apply (Hf j)]. }
  assert (Hfa : free_of (<[i := Q']> Qs) a <-> a ∉ Q'.*1).
  { split; [intros Hf; apply (Hf i); by apply list_lookup_insert_eq|]. intros Hn j Qj Ej. destruct (decide (j = i)) as [->|Hj]; [rewrite list_lookup_insert_eq in Ej by done; by injection Ej as <-|rewrite list_lookup_insert_ne in Ej by done; by apply (Hoth j)]. }
  assert (Hkeep : forall c, is_Some (mem w !! c) -> free_of Qs c -> (c = a -> a ∉ Q'.*1) -> is_Some (m' !! c) /\ free_of (<[i := Q']> Qs) c).
  { intros c Hs Hf Ha. destruct (decide (c = a)) as [->|Hne]; [|split; [rewrite Hout by (try done; by apply (Hf i)); done|by apply Hfree]]. specialize (Ha eq_refl). split; [|by apply Hfa]. destruct (Hgone Ha) as [[-> _]|(y & -> & _)]; [done|by eexists]. }
  split; cbn [cpus mem].
  - by rewrite !length_insert.
  - intros j qj Qj Ej EQj. destruct (decide (j = i)) as [->|Hj]; [rewrite list_lookup_insert_eq in Ej by done; rewrite list_lookup_insert_eq in EQj by done; by simplify_eq|]. rewrite list_lookup_insert_ne in Ej by done. rewrite list_lookup_insert_ne in EQj by done. apply (queued_ext qj (mem w)); [|by apply (H2 j)]. intros z Hz. assert (z <> a) by (intros ->; by apply (Hoth j Qj)). apply Hout; [done|]. intros Hz'. by apply Hj, (H3 j i Qj Q z).
  - intros j k Qj Qk b Ej Ek Hj Hk. destruct (decide (j = i)) as [->|Nj], (decide (k = i)) as [->|Nk]; [done| | |]; rewrite ?list_lookup_insert_ne in Ej by done; rewrite ?list_lookup_insert_eq in Ej by done; rewrite ?list_lookup_insert_ne in Ek by done; rewrite ?list_lookup_insert_eq in Ek by done; simplify_eq.
    + assert (b <> a) by (intros ->; by apply (Hoth k Qk)). apply Hiff in Hj; [|done]. by apply (H3 i k Q Qk b).
    + assert (b <> a) by (intros ->; by apply (Hoth j Qj)). apply Hiff in Hk; [|done]. by apply (H3 j i Qj Q b).
    + by apply (H3 j k Qj Qk b).
  - intros b x Eb. destruct (decide (b = a)) as [->|Hb].
    + destruct (decide (a ∈ Q'.*1)) as [Hin|Hn]; [split; [|by rewrite Hfa]; apply list_elem_of_fmap in Hin as ([c e] & -> & Hin); apply (queued_elem q' m' Q' c e HQ Hin)|]. destruct (Hgone Hn) as [[E Hn']|(y & Ey & Ha & Hy)]; [|assert (x = y) as -> by congruence; done].
      rewrite E in Eb. destruct (H4 a x Eb) as [Ha Hx]. split; [done|]. intros _. apply Hx. intros j Qj Ej. destruct (decide (j = i)) as [->|Hj]; [by simplify_eq|by apply (Hoth j)].
    + rewrite Hfree by done. destruct (decide (b ∈ Q'.*1)) as [Hin|Hn]; [|rewrite Hout in Eb; [by apply H4|done|by rewrite <- Hiff]]. split; [|intros Hf; exfalso; apply (Hf i Q EQ); by apply Hiff]. apply list_elem_of_fmap in Hin as ([c e] & -> & Hin). apply (queued_elem q' m' Q' c e HQ Hin).
  - assert (Hold : forall j qj, cpus w !! j = Some qj -> curr qj = 0 \/ is_Some (m' !! curr qj) /\ free_of (<[i := Q']> Qs) (curr qj)). { intros j qj Ej. destruct (H5 j qj Ej) as [?|[? ?]]; [by left|right]. apply Hkeep; [done|done|]. intros Ec Hin. by apply (Hcur Hin j qj). }
    intros j qj Ej. destruct (decide (j = i)) as [->|Hj]; [rewrite list_lookup_insert_eq in Ej by done; injection Ej as <-|rewrite list_lookup_insert_ne in Ej by done; by apply (Hold j)]. destruct Hc as [->|[->|(-> & Ha & Hs)]]; [by apply (Hold i)|by left|right; split; [done|by apply Hfa]].
Qed.

Lemma ok_cpu w Qs i : machine_ok w Qs -> (i < length (cpus w))%nat -> exists q Q, cpus w !! i = Some q /\ Qs !! i = Some Q /\ queued q (mem w) Q.
Proof.
  intros H Hi. destruct (lookup_lt_is_Some_2 _ _ Hi) as [q Eq]. assert (Hi' : (i < length Qs)%nat) by by rewrite (ok_length _ _ H). destruct (lookup_lt_is_Some_2 _ _ Hi') as [Q EQ]. exists q, Q. split; [done|]. split; [done|]. by apply (ok_queued _ _ H i).
Qed.
Lemma ok_valid w Qs i q : machine_ok w Qs -> cpus w !! i = Some q -> valid_curr q (mem w).
Proof. intros H Eq. destruct (ok_curr _ _ H i q Eq) as [?|[? _]]; [by left|by right]. Qed.
(** The queue of a CPU changes only in its own terms. *)
Lemma same_step w Qs i q Q q' : machine_ok w Qs -> cpus w !! i = Some q -> Qs !! i = Some Q -> queued q' (mem w) Q -> curr q' = curr q \/ curr q' = 0 -> machine_ok (mk_machine (<[i := q']> (cpus w)) (mem w)) Qs.
Proof.
  intros H Eq EQ HQ Hc. rewrite <- (list_insert_id Qs i Q EQ). assert (H0 : mem w !! 0 = None) by (destruct (mem w !! 0) as [x|] eqn:E; [destruct (ok_memory _ _ H 0 x E) as [[? _] _]; lia|done]).
  assert (Hz : forall j Qj, Qs !! j = Some Qj -> 0 ∉ Qj.*1). { intros j Qj Ej Hin. destruct (cpus w !! j) as [qj|] eqn:Eqj; [|apply lookup_lt_Some in Ej; apply lookup_ge_None in Eqj; rewrite (ok_length _ _ H) in Ej; lia]. apply list_elem_of_fmap in Hin as ([c e] & Ec & Hin). destruct (queued_present _ _ _ (ok_queued _ _ H j qj Qj Eqj Ej) c e Hin) as [? _]. by cbn in Ec. }
  apply (cpu_step w Qs i q Q 0 q' (mem w) Q); try done.
  - intros j Qj _ Ej. by apply (Hz j).
  - intros Hin. by apply (Hz i Q) in Hin.
  - intros Hn. by left.
  - tauto.
Qed.

(** ** Every operation *)

(** The floors of the virtual times never fall. *)
Definition floors_rise (w w' : machine) : Prop := forall i q q', cpus w !! i = Some q -> cpus w' !! i = Some q' -> min_vruntime q <= min_vruntime q'.
Definition simulates (o : op) (w : machine) (Qs : queues) : Prop := exists w', exec o w = Ret w' /\ machine_ok w' (spec o w Qs) /\ floors_rise w w'.
Lemma floors_same w m : floors_rise w (mk_machine (cpus w) m).
Proof. intros i q q' E E'. cbn in E'. assert (q = q') by congruence. subst. lia. Qed.
Lemma floors_cpu w i q q' m : cpus w !! i = Some q -> min_vruntime q <= min_vruntime q' -> floors_rise w (mk_machine (<[i := q']> (cpus w)) m).
Proof.
  intros Eq H j qj qj' E E'. cbn in E'. destruct (decide (j = i)) as [->|Hj]; [rewrite list_lookup_insert_eq in E' by (by apply lookup_lt_Some in Eq); by simplify_eq|rewrite list_lookup_insert_ne in E' by done; simplify_eq; lia].
Qed.

Lemma nice_ok a nice (m : memory) x : a <> 0 -> m !! a = Some x -> exists e v, eevfd_set_nice a nice m = Ret (<[a := mk_node (pc x) (right x) (left x) e v]> m) /\ on_rq e = on_rq (payload x).
Proof.
  intros H0 Ex. unfold eevfd_set_nice. rewrite (proj2 (Z.eqb_neq a 0) H0), (se_at m a x Ex), ret_bind. cbv zeta. destruct (nice_tables (if nz (critical_depth (payload x)) then -20 else nice)) as (wt & wm & -> & ->). rewrite !ret_bind, (write_min_at m a x _ Ex). by eexists _, _.
Qed.
Lemma slice_ok a slice (m : memory) x : a <> 0 -> m !! a = Some x -> exists e v, eevfd_set_slice a slice m = Ret (<[a := mk_node (pc x) (right x) (left x) e v]> m) /\ on_rq e = on_rq (payload x).
Proof. intros H0 Ex. unfold eevfd_set_slice. rewrite (proj2 (Z.eqb_neq a 0) H0). cbv zeta. rewrite (write_min_at m a x _ Ex). by eexists _, _. Qed.
Lemma sleep_ok a (m : memory) x : a <> 0 -> m !! a = Some x -> exists e v, eevfd_note_sleep a m = Ret (<[a := mk_node (pc x) (right x) (left x) e v]> m) /\ on_rq e = on_rq (payload x).
Proof. intros H0 Ex. unfold eevfd_note_sleep. rewrite (proj2 (Z.eqb_neq a 0) H0), (write_at m a x _ Ex). eexists _, _. split; [done|]. cbv zeta. by destruct (_ && _). Qed.
Lemma place_ok q a b (m : memory) x : a <> 0 -> m !! a = Some x -> exists e v, eevfd_place_entity q a b m = Ret (<[a := mk_node (pc x) (right x) (left x) e v]> m) /\ on_rq e = on_rq (payload x).
Proof.
  intros H0 Ex. unfold eevfd_place_entity. rewrite (proj2 (Z.eqb_neq a 0) H0). cbn [orb]. destruct (eevfd_ptr_sane a); cbn [negb].
  - rewrite (se_at m a x Ex), ret_bind. cbv zeta. destruct b; rewrite (write_min_at m a x _ Ex); by eexists _, _.
  - exists (payload x), (summary x). split; [|done]. rewrite insert_id; [done|]. rewrite Ex. by destruct x.
Qed.
Lemma migrate_ok src dst a (m : memory) x : a <> 0 -> m !! a = Some x -> exists e v, eevfd_migrate_entity src dst a m = Ret (<[a := mk_node (pc x) (right x) (left x) e v]> m) /\ on_rq e = on_rq (payload x).
Proof. intros H0 Ex. unfold eevfd_migrate_entity. rewrite (proj2 (Z.eqb_neq a 0) H0), (se_at m a x Ex), ret_bind. cbv zeta. rewrite (write_min_at m a x _ Ex). by eexists _, _. Qed.

Lemma create_step w Qs a x nice slice : machine_ok w Qs -> permitted (Create a x nice slice) w Qs -> simulates (Create a x nice slice) w Qs.
Proof.
  intros H [Hn Ha]. unfold simulates. cbn [exec spec]. unfold in_memory, eevfd_entity_init. destruct Ha as [Ha0 Ha4]. rewrite (proj2 (Z.eqb_neq a 0)) by lia. rewrite lookup_insert_eq. cbn [deref]. rewrite ret_bind. destruct (nice_tables nice) as (wt & wm & -> & ->). rewrite !ret_bind. eexists. split; [done|]. split; [|apply floors_same]. rewrite insert_insert_eq.
  apply memory_step; [done| |done|done]. intros i Q EQ Hin. destruct (cpus w !! i) as [q|] eqn:Eq; [|apply lookup_lt_Some in EQ; apply lookup_ge_None in Eq; rewrite (ok_length _ _ H) in EQ; lia]. apply list_elem_of_fmap in Hin as ([c e] & -> & Hin). destruct (queued_elem _ _ _ c e (ok_queued _ _ H i q Q Eq EQ) Hin) as [(y & Ey & _) _]. cbn in Hn. congruence.
Qed.
Lemma resting_step w Qs o f a : exec o w = in_memory w f -> spec o w Qs = Qs -> machine_ok w Qs -> resting w a ->
  (forall m, a = 0 -> f m = Ret m) -> (forall m x, a <> 0 -> m !! a = Some x -> exists e v, f m = Ret (<[a := mk_node (pc x) (right x) (left x) e v]> m) /\ on_rq e = on_rq (payload x)) -> simulates o w Qs.
Proof.
  intros E ES H HR F0 F1. destruct (rest_step w Qs f a H HR F0 F1) as (w' & Ew & H' & Ec). exists w'. rewrite E, ES. split; [done|]. split; [done|]. destruct w' as [c m]. cbn in Ec. subst c. apply floors_same.
Qed.

Lemma enqueue_step w Qs i a : machine_ok w Qs -> permitted (Enqueue i a) w Qs -> simulates (Enqueue i a) w Qs.
Proof.
  intros H (Hi & Ha & Hnc). unfold simulates. cbn [exec spec]. destruct (ok_cpu w Qs i H Hi) as (q & Q & Eq & EQ & HQ). unfold on_cpu. rewrite Eq. cbn [deref]. rewrite ret_bind. unfold at_cpu. rewrite EQ.
  assert (Hskip : eevfd_enqueue_entity q a (mem w) = Ret (q, mem w) -> exists w', ('(q0, m) ← eevfd_enqueue_entity q a (mem w); Ret (mk_machine (<[i := q0]> (cpus w)) m)) = Ret w' /\ machine_ok w' Qs /\ floors_rise w w').
  { intros ->. rewrite ret_bind. eexists. split; [done|]. split; [by apply (same_step w Qs i q Q); [done|done|done|done|left]|]. by apply (floors_cpu w i q). }
  destruct (mem w !! a) as [x|] eqn:Ex.
  - destruct (ok_memory _ _ H a x Ex) as [Haddr Hidle]. assert (H0 : a <> 0) by (destruct Haddr; lia). destruct (eevfd_ptr_sane a) eqn:Es; [|apply Hskip; unfold eevfd_enqueue_entity; by rewrite Es, orb_true_r]. destruct (on_rq (payload x)) eqn:Eon; cbn [negb andb].
    { apply Hskip. unfold eevfd_enqueue_entity. rewrite (proj2 (Z.eqb_neq a 0) H0), Es, Ex. cbn [orb negb deref]. by rewrite ret_bind, Eon. }
    pose proof (resting_free w Qs a x H Ex Eon) as Hf. destruct (Hidle Hf) as (_ & E1 & E2 & E3). destruct (enqueue_ok q (mem w) Q a x HQ Haddr Es Ex Eon E1 E2 E3 (ok_valid w Qs i q H Eq)) as (q' & m' & E & HQ' & Hout & Hmin & Hvt & Hc & _). rewrite E, ret_bind. eexists. split; [done|]. split; [|apply (floors_cpu w i q); [done|rewrite Hmin; unfold floor_of; lia]].
    assert (Hperm : (insert_item (a, set_on_rq true (payload x)) Q).*1 ≡ₚ a :: Q.*1). { clear. induction Q as [|y Q IH]; [done|]. cbn. case_decide; [done|]. cbn. rewrite IH. apply perm_swap. }
    apply (cpu_step w Qs i q Q a); [done|done|done|done|done| | | | |by left].
    + intros b Hb. rewrite Hperm, elem_of_cons. naive_solver.
    + intros j Qj _ Ej. by apply (Hf j).
    + intros _ j qj Ej Ec. by apply H0, (Hnc j qj).
    + rewrite Hperm. intros Hn. exfalso. apply Hn. left.
  - destruct Ha as [->|[? ?]]; [|done]. by apply Hskip.
Qed.

Lemma remove_item_spec a Q : a ∉ (remove_item a Q).*1 /\ (forall b, b <> a -> b ∈ (remove_item a Q).*1 <-> b ∈ Q.*1).
Proof.
  unfold remove_item. split.
  - intros Hin. apply list_elem_of_fmap in Hin as ([c e] & -> & Hin). by apply list_elem_of_filter in Hin as [Hc _].
  - intros b Hb. rewrite !list_elem_of_fmap. split; intros ([c e] & -> & Hin); exists (c, e); (split; [done|]); [by apply list_elem_of_filter in Hin as [_ ?]|by apply list_elem_of_filter].
Qed.
Lemma remove_item_none a (Q : list item) : a ∉ Q.*1 -> remove_item a Q = Q.
Proof. unfold remove_item. induction Q as [|y Q IH]; [done|]. rewrite fmap_cons, not_elem_of_cons. intros [Hy Hl]. rewrite filter_cons_True by congruence. by rewrite IH. Qed.

(** Dequeueing what is on the queue, or rests. *)
Lemma dequeue_any q (m : memory) Q a x : queued q m Q -> valid_curr q m -> a <> 0 -> m !! a = Some x -> a ∈ Q.*1 \/ on_rq (payload x) = false ->
  exists q' m', eevfd_dequeue_entity q a m = Ret (q', m') /\ queued q' m' (remove_item a Q) /\ (forall b, b <> a -> b ∉ Q.*1 -> m' !! b = m !! b) /\ (m' = m /\ a ∉ Q.*1 \/ exists y, m' !! a = Some y /\ idle y) /\ curr q' = curr q /\ min_vruntime q <= min_vruntime q'.
Proof.
  intros HQ HC H0 Ex Hin. destruct (decide (a ∈ Q.*1)) as [Ha|Ha].
  - destruct (queued_on q m Q a x HQ Ex Ha) as [_ He]. apply list_elem_of_split in He as (Q1 & Q2 & ->). pose proof (queued_nodup _ _ _ HQ) as Hnd. rewrite fmap_app, fmap_cons in Hnd. apply NoDup_app in Hnd as (_ & Hn1 & Hn2). apply NoDup_cons in Hn2 as [Hn2 _]. cbn [fst] in *.
    destruct (dequeue_ok q m Q1 a (payload x) Q2 HQ HC) as (q' & m' & v & E & HQ' & Em & Hout & Hmin & Hvt & Hc & _). exists q', m'. rewrite remove_item_at by (try done; intros Hz; apply (Hn1 a Hz); left). split; [done|]. split; [done|]. split; [intros b _; apply Hout|]. split; [right; by eexists|]. split; [done|]. rewrite Hmin. unfold floor_of. lia.
  - destruct Hin as [?|Eon]; [done|]. exists q, m. rewrite remove_item_none by done. split; [|split; [done|]; split; [done|]; split; [by left|done]]. unfold eevfd_dequeue_entity. rewrite (proj2 (Z.eqb_neq a 0) H0). cbn [orb]. destruct (eevfd_ptr_sane a); cbn [negb]; [|done]. by rewrite (se_at m a x Ex), ret_bind, Eon.
Qed.

Lemma zero_free w Qs i Q : machine_ok w Qs -> Qs !! i = Some Q -> 0 ∉ Q.*1.
Proof.
  intros H EQ Hin. assert (Hi : (i < length (cpus w))%nat) by (rewrite <- (ok_length _ _ H); by apply lookup_lt_Some in EQ). destruct (ok_cpu w Qs i H Hi) as (q & Q' & _ & EQ' & HQ). assert (Q' = Q) as -> by congruence. apply list_elem_of_fmap in Hin as ([c e] & Ec & Hin). destruct (queued_present _ _ _ HQ c e Hin) as [? _]. by cbn in Ec.
Qed.
(** An entity the CPU may take: in memory, on its queue or on none, and on no other. *)
Lemma owned_spec w Qs i Q a : machine_ok w Qs -> (i < length (cpus w))%nat -> Qs !! i = Some Q -> owned w Qs i a -> a <> 0 ->
  exists x, mem w !! a = Some x /\ addr a /\ (a ∈ Q.*1 \/ on_rq (payload x) = false) /\ (forall j Qj, j <> i -> Qs !! j = Some Qj -> a ∉ Qj.*1) /\ (a ∉ Q.*1 -> idle x).
Proof.
  intros H Hi EQ Hown H0. destruct Hown as [[?|(x & Ex & Eon)]|(Q' & EQ' & Hin)]; [done| |].
  - pose proof (resting_free w Qs a x H Ex Eon) as Hf. destruct (ok_memory _ _ H a x Ex) as [Ha Hx]. exists x. split; [done|]. split; [done|]. split; [by right|]. split; [intros j Qj _; apply Hf|]. intros _. by apply Hx.
  - assert (Q' = Q) as -> by congruence. destruct (ok_cpu w Qs i H Hi) as (q & Q' & _ & EQ'' & HQ). assert (Q' = Q) as -> by congruence. pose proof Hin as Hin'. apply list_elem_of_fmap in Hin' as ([c e] & -> & He). destruct (queued_elem _ _ _ c e HQ He) as [(x & Ex & _) Ha]. exists x. split; [done|]. split; [done|]. split; [by left|]. split; [|done].
    intros j Qj Hj Ej Hin'. apply Hj. by apply (ok_disjoint _ _ H j i Qj Q c).
Qed.

Lemma dequeue_step w Qs i a : machine_ok w Qs -> permitted (Dequeue i a) w Qs -> simulates (Dequeue i a) w Qs.
Proof.
  intros H [Hi Ho]. unfold simulates. cbn [exec spec]. destruct (ok_cpu w Qs i H Hi) as (q & Q & Eq & EQ & HQ). unfold on_cpu, at_cpu. rewrite Eq, EQ. cbn [deref]. rewrite ret_bind. destruct (decide (a = 0)) as [->|H0].
  { rewrite remove_item_none by by apply (zero_free w Qs i). rewrite (list_insert_id Qs i Q EQ). cbn. eexists. split; [done|]. split; [by apply (same_step w Qs i q Q); [done|done|done|done|left]|]. by apply (floors_cpu w i q). }
  destruct (owned_spec w Qs i Q a H Hi EQ Ho H0) as (x & Ex & Ha & Hin & Hoth & Hx). destruct (dequeue_any q (mem w) Q a x HQ (ok_valid w Qs i q H Eq) H0 Ex Hin) as (q' & m' & E & HQ' & Hout & Hm & Hc & Hmin). rewrite E, ret_bind. eexists. split; [done|]. split; [|by apply (floors_cpu w i q)].
  destruct (remove_item_spec a Q) as [Hn Hiff]. apply (cpu_step w Qs i q Q a); [done|done|done|done|done|done|done|done| |by left]. intros _. destruct Hm as [[-> ?]|(y & Ey & Hy)]; [by left|right; by exists y].
Qed.

Lemma set_next_step w Qs i a : machine_ok w Qs -> permitted (SetNext i a) w Qs -> simulates (SetNext i a) w Qs.
Proof.
  intros H [Hi Ho]. unfold simulates. cbn [exec spec]. destruct (ok_cpu w Qs i H Hi) as (q & Q & Eq & EQ & HQ). unfold on_cpu, at_cpu. rewrite Eq, EQ. cbn [deref]. rewrite ret_bind. unfold eevfd_set_next_entity. destruct (decide (a = 0)) as [->|H0].
  { rewrite remove_item_none by by apply (zero_free w Qs i). rewrite (list_insert_id Qs i Q EQ). cbn. eexists. split; [done|]. split; [by apply (same_step w Qs i q Q); [done|done|done|done|left]|]. by apply (floors_cpu w i q). }
  rewrite (proj2 (Z.eqb_neq a 0) H0). destruct (owned_spec w Qs i Q a H Hi EQ Ho H0) as (x & Ex & Ha & Hin & Hoth & Hx). assert (HQc : queued (set_curr a q) (mem w) Q) by (apply (queued_same q); [done|apply (qd_floor _ _ _ HQ)|done]).
  destruct (dequeue_any (set_curr a q) (mem w) Q a x HQc) as (q' & m' & E & HQ' & Hout & Hm & Hc & Hmin); [right; by eexists|done|done|done|]. rewrite E, ret_bind. destruct (remove_item_spec a Q) as [Hn Hiff].
  assert (Hy : exists y, m' !! a = Some y /\ idle y) by (destruct Hm as [[-> Hn']|?]; [exists x; split; [done|by apply Hx]|done]). destruct Hy as (y & Ey & Hy). rewrite (se_at m' a y Ey), ret_bind, (write_at m' a y _ Ey), !ret_bind. eexists. split; [done|]. split; [|apply (floors_cpu w i q); [done|exact Hmin]].
  apply (cpu_step w Qs i q Q a); [done|done|done| | |done|done|done| |].
  - apply (queued_same q'); [done|apply (qd_floor _ _ _ HQ')|]. apply (queued_ext q' m'); [|done]. intros z Hz. rewrite lookup_insert_ne; [done|]. by intros <-.
  - intros b Hb Hb'. rewrite lookup_insert_ne by done. by apply Hout.
  - intros _. right. rewrite lookup_insert_eq. by eexists.
  - right. right. split; [exact Hc|]. split; [done|]. rewrite lookup_insert_eq. by eexists.
Qed.

Lemma tick_step w Qs i now : machine_ok w Qs -> permitted (Tick i now) w Qs -> simulates (Tick i now) w Qs.
Proof.
  intros H Hi. unfold simulates. cbn [exec spec]. destruct (ok_cpu w Qs i H Hi) as (q & Q & Eq & EQ & HQ). unfold on_cpu. rewrite Eq. cbn [deref]. rewrite ret_bind.
  assert (Hn : curr q ∉ Q.*1) by (destruct (ok_curr _ _ H i q Eq) as [->|[_ Hf]]; [by apply (zero_free w Qs i)|by apply (Hf i)]). destruct (update_curr_ok q (mem w) Q now HQ (ok_valid w Qs i q H Eq) Hn) as (q' & m' & E & HQ' & Hout & Hc & Hmin & Hx). rewrite E, ret_bind. eexists. split; [done|]. split; [|by apply (floors_cpu w i q)].
  destruct Hx as [[H0 ->]|(x & e & Ex & Ex' & Eo)]; [by apply (same_step w Qs i q Q); [done|done|done|done|left]|]. rewrite <- (list_insert_id Qs i Q EQ). assert (H0 : curr q <> 0) by (destruct (ok_memory _ _ H _ x Ex) as [[? _] _]; lia). destruct (ok_curr _ _ H i q Eq) as [?|[_ Hf]]; [done|]. destruct (ok_memory _ _ H _ x Ex) as [Ha Hi']. destruct (Hi' Hf) as (I1 & I2).
  apply (cpu_step w Qs i q Q (curr q)); [done|done|done|done|intros b Hb _; by apply Hout|done|intros j Qj _; apply Hf|done| |by left]. intros _. right. eexists. split; [exact Ex'|]. split; [done|]. split; [cbn; congruence|done].
Qed.

Lemma pick_step w Qs i : machine_ok w Qs -> permitted (Pick i) w Qs -> simulates (Pick i) w Qs.
Proof.
  intros H ((Q & EQ & Hlen) & Hi). unfold simulates. cbn [exec spec]. destruct (ok_cpu w Qs i H Hi) as (q & Q' & Eq & EQ' & HQ). assert (Q' = Q) as -> by congruence. unfold on_cpu. rewrite Eq. cbn [deref]. rewrite ret_bind, (pick_ok q (mem w) Q HQ Hlen), !ret_bind. eexists. split; [done|].
  assert (Hs : same_queue q (caught_up q Q) /\ min_vruntime (caught_up q Q) = min_vruntime q /\ curr (caught_up q Q) = curr q /\ vtime q <= vtime (caught_up q Q)).
  { unfold caught_up. pose proof (choose_spec (vtime q) Q None) as Hc. fold (earliest (vtime q) Q) in Hc. destruct (earliest (vtime q) Q); [done|]. destruct Hc as [_ Hc]. destruct Q as [|y [|z Q]]; [done|done|]. split; [done|]. split; [done|]. split; [done|]. cbn. specialize (Hc y ltac:(left)). lia. }
  destruct Hs as (S1 & S2 & S3 & S4). split; [|apply (floors_cpu w i q); [done|lia]]. apply (same_step w Qs i q Q); [done|done|done| |by left]. apply (queued_same q); [done| |done]. pose proof (qd_floor _ _ _ HQ). lia.
Qed.

Lemma put_prev_step w Qs i a : machine_ok w Qs -> permitted (PutPrev i a) w Qs -> simulates (PutPrev i a) w Qs.
Proof.
  intros H [Hi Hr]. unfold simulates. cbn [exec spec]. destruct (ok_cpu w Qs i H Hi) as (q & Q & Eq & EQ & HQ). unfold on_cpu. rewrite Eq. cbn [deref]. rewrite ret_bind. unfold eevfd_put_prev_entity. destruct (decide (a = 0)) as [->|H0].
  { cbn. eexists. split; [done|]. split; [by apply (same_step w Qs i q Q); [done|done|done|done|left]|]. by apply (floors_cpu w i q). }
  rewrite (proj2 (Z.eqb_neq a 0) H0). destruct Hr as [?|(x & Ex & Eon)]; [done|]. pose proof (resting_free w Qs a x H Ex Eon) as Hf. destruct (ok_memory _ _ H a x Ex) as [Ha Hx]. destruct (Hx Hf) as (_ & I2). rewrite (write_at (mem w) a x _ Ex), !ret_bind. eexists. split; [done|]. split; [|apply (floors_cpu w i q); [done|by destruct (curr q =? a)]].
  rewrite <- (list_insert_id Qs i Q EQ). apply (cpu_step w Qs i q Q a); [done|done|done| |intros b Hb _; by rewrite lookup_insert_ne|done|intros j Qj _; apply Hf|by intros Hin%(Hf i Q EQ)| |destruct (curr q =? a); [right; by left|by left]].
  - apply (queued_same q); [by destruct (curr q =? a)|destruct (curr q =? a); apply (qd_floor _ _ _ HQ)|]. apply (queued_ext q (mem w)); [|done]. intros z Hz. rewrite lookup_insert_ne; [done|]. intros <-. by apply (Hf i Q).
  - intros _. right. rewrite lookup_insert_eq. by eexists.
Qed.

(** Every operation the scheduler may call returns and implements its step. *)
Lemma machine_step o w Qs : machine_ok w Qs -> permitted o w Qs -> simulates o w Qs.
Proof.
  intros H HP. destruct o as [a x nice slice|a nice|a slice|a|i a b|src dst a|i a|i a|i now|i|i a|i a].
  - by apply create_step.
  - apply (resting_step w Qs _ (eevfd_set_nice a nice) a); [done|done|done|done|intros m ->; done|apply nice_ok].
  - apply (resting_step w Qs _ (eevfd_set_slice a slice) a); [done|done|done|done|intros m ->; done|apply slice_ok].
  - apply (resting_step w Qs _ (eevfd_note_sleep a) a); [done|done|done|done|intros m ->; done|apply sleep_ok].
  - destruct HP as [Hi HR]. destruct (lookup_lt_is_Some_2 _ _ Hi) as [q Eq]. apply (resting_step w Qs _ (eevfd_place_entity q a b) a); [cbn [exec]; by rewrite Eq|done|done|done|intros m ->; done|apply place_ok].
  - destruct HP as [Hi HR]. destruct (lookup_lt_is_Some_2 _ _ Hi) as [q Eq]. apply (resting_step w Qs _ (eevfd_migrate_entity (src ≫= (fun i => cpus w !! i)) q a) a); [cbn [exec]; by rewrite Eq|done|done|done|intros m ->; done|apply migrate_ok].
  - by apply enqueue_step.
  - by apply dequeue_step.
  - by apply tick_step.
  - by apply pick_step.
  - by apply set_next_step.
  - by apply put_prev_step.
Qed.

(** The machine at boot: [n] CPUs, and no entity yet. *)
Definition boot_rq : eevfd_rq := eevfd_rq_init (mk_rq 0 0 0 0 0 0 0 0).
Definition boot_machine (n : nat) : machine := mk_machine (replicate n boot_rq) ∅.
Lemma empty_queued m : queued boot_rq m [].
Proof.
  split; try done.
  - exists Leaf. split; [|done]. split; [|split; [done|by exists 0%nat]|done]. split; [done|done|constructor|constructor].
  - constructor.
  - intros x []%elem_of_nil.
Qed.
Lemma boot_ok n : machine_ok (boot_machine n) (replicate n []).
Proof.
  split; cbn [boot_machine cpus mem].
  - by rewrite !length_replicate.
  - intros i q Q [-> _]%lookup_replicate [-> _]%lookup_replicate. apply empty_queued.
  - intros i j Q1 Q2 a [-> _]%lookup_replicate _ []%elem_of_nil.
  - intros a x. by rewrite lookup_empty.
  - intros i q [-> _]%lookup_replicate. by left.
Qed.

(** The states the scheduler can bring about. *)
Inductive reachable (n : nat) : machine -> queues -> Prop :=
| reach_boot : reachable n (boot_machine n) (replicate n [])
| reach_step w Qs o w' : reachable n w Qs -> permitted o w Qs -> exec o w = Ret w' -> reachable n w' (spec o w Qs).
Lemma machine_reachable_ok n w Qs : reachable n w Qs -> machine_ok w Qs.
Proof. induction 1 as [|w Qs o w' _ IH HP E]; [apply boot_ok|]. destruct (machine_step o w Qs IH HP) as (w2 & E2 & H2 & _). assert (w2 = w') as <- by congruence. done. Qed.

End EevfdMachine.
