(* ===== verification/EevfdClaims.v ===== *)
(** EevfdClaims: what the EEVFD scheduler class promises: the run queues refine ordered
    lists, the next entity is the eligible one with the earliest deadline, and the
    virtual clocks are exact within stated bounds. *)

From S2P Require Import Prelude RbTree RbRep RbInsert RbErase RbWalk Eevfd EevfdSafe EevfdMachine.
From stdpp Require Import list_relations.
#[local] Open Scope Z_scope.

Module EevfdClaims.
Import RbTree RbRep RbInsert RbErase RbWalk Eevfd EevfdSafe EevfdMachine.

(** C5: The run queues of all CPUs implement one ordered list of entities per CPU: from
    every state the scheduler can reach, each operation it may call returns without a
    fault, enqueueing inserts the entity into the list of that CPU by virtual runtime,
    deadline and address, dequeueing and dispatching remove it, everything else keeps
    the lists; trees, summaries, cached first entity, weights and counts agree with the
    lists, and the floor of each queue's virtual time never falls. *)
Theorem eevfd_refines n w Qs o : reachable n w Qs -> permitted o w Qs -> exists w', exec o w = Ret w' /\ reachable n w' (spec o w Qs) /\ machine_ok w' (spec o w Qs) /\ floors_rise w w'.
Proof. intros R HP. destruct (machine_step o w Qs (machine_reachable_ok n w Qs R) HP) as (w' & E & H & F). exists w'. split; [done|]. split; [by apply (reach_step n w Qs o w')|]. done. Qed.

(** [eevfd_validate_rq] answers yes for every CPU in every state the scheduler can
    reach. *)
Theorem eevfd_validates n w Qs i q : reachable n w Qs -> cpus w !! i = Some q -> eevfd_validate_rq q (mem w) = Ret true.
Proof.
  intros R Eq. pose proof (machine_reachable_ok n w Qs R) as H. destruct (ok_cpu w Qs i H (lookup_lt_Some _ _ _ Eq)) as (q' & Q & Eq' & EQ & HQ). assert (q' = q) as -> by congruence. by apply (validate_rq_ok q (mem w) Q).
Qed.

Definition eligible (vt : Z) (x : item) : Prop := vruntime x.2 <= vt.

(** C10: [eevfd_pick_next_entity], with its fast paths and its pruned search of the tree,
    chooses what a scan of the whole list would: an eligible entity whose deadline no
    eligible one beats, and without any eligible one the entity with the least virtual
    runtime; [eevfd_peek_eligible_entity] answers the same entity when one is eligible
    and NULL otherwise. *)
Theorem eevfd_pick_spec q m Q : queued q m Q -> Z.of_nat (length Q) < 2 ^ 32 ->
  exists a q', eevfd_pick_next_entity q m = Ret (a, q') /\ a = next_of (vtime q) Q /\
    (Q = [] -> a = 0) /\ (Q <> [] -> exists e, (a, e) ∈ Q /\
      (eligible (vtime q) (a, e) /\ (forall y, y ∈ Q -> eligible (vtime q) y -> deadline e <= deadline y.2) /\ eevfd_peek_eligible_entity q m = Ret a /\ q' = q \/
       (forall y, y ∈ Q -> ~ eligible (vtime q) y /\ vruntime e <= vruntime y.2) /\ eevfd_peek_eligible_entity q m = Ret 0 /\ vtime q <= vtime q')).
Proof.
  intros H Hlen. rewrite (pick_ok q m Q H Hlen), (peek_ok q m Q H). eexists _, _. split; [done|]. split; [done|]. unfold next_of, caught_up, eligible. pose proof (choose_spec (vtime q) Q None) as Hc. fold (earliest (vtime q) Q) in Hc. split; [by intros ->|]. intros Hne. destruct (earliest (vtime q) Q) as [[a e]|].
  - destruct Hc as ([?|[Hin Hv]] & _ & Hd); [done|]. exists e. split; [done|]. left. done.
  - destruct Hc as [_ Hc]. destruct Q as [|[a e] Q]; [done|]. destruct (queued_first _ _ _ _ _ H) as (_ & _ & _ & Hle). exists e. split; [left|]. right. split; [intros y Hy; specialize (Hc y Hy); split; [lia|by apply Hle]|]. split; [done|]. specialize (Hc (a, e) ltac:(left)). destruct Q; cbn in *; lia.
Qed.

(** Enqueueing an entity that rests and dequeueing it again gives back the same
    queue; in between it is in its place in the order, and the entity leaves with its
    lag to the virtual time and all links cleared. *)
Theorem eevfd_enqueue_dequeue q m Q a x : queued q m Q -> addr a -> eevfd_ptr_sane a = true -> m !! a = Some x -> idle x -> valid_curr q m ->
  exists q1 m1 q2 m2 y, eevfd_enqueue_entity q a m = Ret (q1, m1) /\ queued q1 m1 (insert_item (a, set_on_rq true (payload x)) Q) /\
    eevfd_dequeue_entity q1 a m1 = Ret (q2, m2) /\ queued q2 m2 Q /\ m2 !! a = Some y /\ idle y /\ payload y = set_lag (s64 (s64 (vtime q1) - s64 (vruntime (payload x)))) (payload x).
Proof.
  intros HQ Ha Hs Ex (I1 & I2 & I3 & I4) HC. destruct (enqueue_ok q m Q a x HQ Ha Hs Ex I1 I2 I3 I4 HC) as (q1 & m1 & E1 & HQ1 & Hout & _ & _ & Hc & _). set (it := (a, set_on_rq true (payload x))) in *.
  assert (Hna : a ∉ Q.*1) by (intros Hin; destruct (queued_on q m Q a x HQ Ex Hin); congruence). assert (Hsplit : exists Q1 Q2, Q = Q1 ++ Q2 /\ insert_item it Q = Q1 ++ it :: Q2). { clear -it. induction Q as [|y Q IH]; [by exists [], []|]. cbn. case_decide; [by exists [], (y :: Q)|]. destruct IH as (Q1 & Q2 & -> & ->). by exists (y :: Q1), Q2. }
  destruct Hsplit as (Q1 & Q2 & -> & EI). assert (HC1 : valid_curr q1 m1). { destruct HC as [?|Hc1]; [left; congruence|right]. rewrite Hc. destruct (decide (curr q ∈ (insert_item it (Q1 ++ Q2)).*1)) as [Hin|Hn]; [apply list_elem_of_fmap in Hin as ([c e] & -> & Hin); destruct (queued_elem _ _ _ c e HQ1 Hin) as [(z & Ez & _) _]; by exists z|].
    rewrite EI, fmap_app, fmap_cons, not_elem_of_app, not_elem_of_cons in Hn. destruct Hn as (? & ? & ?). rewrite Hout; [done|done|]. by rewrite fmap_app, not_elem_of_app. }
  pose proof HQ1 as HQ1'. rewrite EI in HQ1'. destruct (dequeue_ok q1 m1 Q1 a _ Q2 HQ1' HC1) as (q2 & m2 & v & E2 & HQ2 & Ey & _). exists q1, m1, q2, m2. eexists. split; [done|]. split; [done|]. split; [done|]. split; [done|]. split; [exact Ey|]. split; [done|]. cbn [payload]. unfold departed. destruct (payload x) as [? ? ? ? ? ? ? ? ? b ? ? ?]. cbn in I1. subst b. done.
Qed.

(** Charging the running entity: after [delta] nanoseconds its virtual runtime, its
    execution time and its lag are exactly those of [charged], the queue's virtual time
    advances by [delta * 1024 / weight], and the floor becomes the least virtual
    runtime of the running and the queued entities if that is higher. *)
Theorem eevfd_update_curr_spec q m Q now x : queued q m Q -> curr q <> 0 -> curr q ∉ Q.*1 -> m !! curr q = Some x -> exec_start_ns (payload x) <> 0 -> exec_start_ns (payload x) < now ->
  let e := payload x in let vt := advanced q (now - exec_start_ns e) e in let e' := charged vt now (now - exec_start_ns e) e in
  let F := floor_of q (Some (vruntime e')) Q in
  let q' := set_vtime (Z.max vt F) (set_min_vruntime F q) in let m' := <[curr q := mk_node (pc x) (right x) (left x) e' (summary x)]> m in
  eevfd_update_curr q now m = Ret (q', m') /\ queued q' m' Q.
Proof. apply charge_ok. Qed.

(** ** Virtual time *)

(** The weight and the inverse weight of each nice value. *)
Definition inverse_ok (w wm : Z) : bool := (0 <? w) && (0 <? wm) && (wm <? 2 ^ 29) && (2 * (w * wm) <=? 2 ^ 33 + w) && (2 ^ 33 - w <=? 2 * (w * wm)).
Lemma tables_inverse : forallb (fun p => inverse_ok p.1 p.2) (zip prio_to_weight prio_to_wmult) = true.
Proof. vm_compute. reflexivity. Qed.
Lemma nice_inverse n : exists w wm, nice_to_weight n = Ret w /\ nice_to_wmult n = Ret wm /\ 0 < w /\ 0 < wm < 2 ^ 29 /\ 2 * (w * wm) <= 2 ^ 33 + w /\ 2 ^ 33 - w <= 2 * (w * wm).
Proof.
  unfold nice_to_weight, nice_to_wmult. pose proof (clamp_nice_range n) as Hr. set (i := clamp_nice n + 20) in *. destruct (table_get prio_to_weight i eq_refl Hr) as [w Ew], (table_get prio_to_wmult i eq_refl Hr) as [wm Em]. exists w, wm. split; [done|]. split; [done|].
  apply arr_get_Some in Ew as [_ Ew], Em as [_ Em]. pose proof tables_inverse as HT. rewrite forallb_forall in HT. specialize (HT (w, wm)). cbn [fst snd] in HT. assert (Hin : In (w, wm) (zip prio_to_weight prio_to_wmult)). { apply list_elem_of_In, list_elem_of_lookup. exists (Z.to_nat i). apply lookup_zip_with_Some. by exists w, wm. }
  specialize (HT Hin). unfold inverse_ok in HT. reify_bools. lia.
Qed.

(** The virtual runtime charged for [delta] nanoseconds, up to 34 seconds, is
    computed without overflow for every nice value, and differs from
    [delta * 1024 / weight] by less than one nanosecond plus [delta / 2^23]. *)
Theorem eevfd_charge_bounds nice delta : 0 <= delta <= Z.shiftr UINT64_MAX 29 ->
  exists w wm, nice_to_weight nice = Ret w /\ nice_to_wmult nice = Ret wm /\ let r := calc_delta_vruntime delta w wm in
    0 <= r /\ 2 ^ 23 * (w * r) <= 2 ^ 33 * delta + w * delta /\ 2 ^ 33 * delta < 2 ^ 23 * (w * (r + 1)) + w * delta.
Proof.
  intros Hd. destruct (nice_inverse nice) as (w & wm & Ew & Em & Hw & Hwm & H1 & H2). exists w, wm. split; [done|]. split; [done|]. change (Z.shiftr UINT64_MAX 29) with 34359738367 in Hd. unfold calc_delta_vruntime. destruct (w =? EEVFD_NICE_0_WEIGHT) eqn:E; reify_bools; [rewrite E; unfold EEVFD_NICE_0_WEIGHT; lia|]. change (Z.shiftr UINT64_MAX 29) with 34359738367. rewrite (proj2 (Z.leb_le delta 34359738367)) by lia.
  rewrite Z.shiftr_div_pow2, u64_id by nia. pose proof (Z.div_mod (delta * wm) (2 ^ 22) ltac:(lia)) as Hq. pose proof (Z.mod_pos_bound (delta * wm) (2 ^ 22) ltac:(lia)) as Hm. set (r := delta * wm / 2 ^ 22) in *. assert (0 <= r) by nia. cbv zeta. split; [done|]. split; nia.
Qed.

(** For a longer run the product can still overflow: 2^47 nanoseconds (39 hours) at nice 19
    are charged less than 17 hours of it. *)
Lemma charge_overflow : calc_delta_vruntime (2 ^ 47) 15 286331153 < calc_delta_vruntime (2 ^ 46 - 2 ^ 43) 15 286331153.
Proof. vm_compute. reflexivity. Qed.

(** ** Placement *)

Definition bounded_clock (q : eevfd_rq) (slice_v : Z) : Prop := 0 <= min_vruntime q <= vtime q /\ 0 <= slice_v /\ vtime q + slice_v < 2 ^ 63.
Lemma clamp_lag_spec lg v : 0 <= v < 2 ^ 63 -> clamp_lag lg v = Z.max (- v) (Z.min v lg).
Proof. intros H. unfold clamp_lag. rewrite (s64_id v), (s64_id (- v)) by lia. destruct (lg >? v) eqn:E; reify_bools; [lia|]. destruct (lg <? - v) eqn:E'; reify_bools; lia. Qed.
Lemma migrate_lag_spec lg v : 0 <= v < 2 ^ 63 -> migrate_lag lg v = Z.max (- v) (Z.min v lg).
Proof. intros H. unfold migrate_lag. rewrite (s64_id v), (s64_id (- v)) by lia. destruct (lg <? - v) eqn:E; reify_bools; [lia|]. destruct (lg >? v) eqn:E'; reify_bools; lia. Qed.
Lemma lagged_spec q v lg : bounded_clock q v -> - v <= lg <= v -> lagged (vtime q) (min_vruntime q) lg = Z.max (min_vruntime q) (vtime q - lg).
Proof.
  intros (H1 & H2 & H3) Hl. unfold lagged. rewrite (s64_id (vtime q)) by lia. destruct (vtime q >=? lg) eqn:E; reify_bools; [rewrite u64_id by lia|]; cbn; (destruct (_ <? min_vruntime q) eqn:E'; reify_bools; lia).
Qed.

(** Placing a waking entity or one that comes from another CPU puts it within one
    slice of the queue's virtual time and not below its floor, with the lag it earned
    cut to one slice either way and its deadline one slice later; a new entity starts
    at the virtual time with no lag. [slice_v] is the slice in virtual time. *)
Theorem eevfd_placement q src a m x initial_spawn : eevfd_ptr_sane a = true -> m !! a = Some x ->
  let e := payload x in let slice_v := calc_slice_vruntime (slice_ns e) (weight e) (wmult e) in bounded_clock q slice_v ->
  let earned := match src with Some s => if vtime s >? 0 then s64 (s64 (vtime s) - s64 (vruntime e)) else 0 | None => 0 end in
  let put lg := place_se (Z.max (min_vruntime q) (vtime q - lg)) (Z.max (min_vruntime q) (vtime q - lg) + slice_v) lg e in
  let cut lg := Z.max (- slice_v) (Z.min slice_v lg) in
  let into e' := Ret (<[a := mk_node (pc x) (right x) (left x) e' (deadline e')]> m) in
  eevfd_place_entity q a initial_spawn m = into (put (if initial_spawn then 0 else cut (lag e))) /\ eevfd_migrate_entity src q a m = into (put (cut earned)) /\
  (forall lg, vtime q - slice_v <= vruntime (put (cut lg)) <= vtime q + slice_v).
Proof.
  intros Hs Ex e slice_v HB earned put cut into. destruct HB as (H1 & H2 & H3). assert (H0 : a <> 0) by (intros ->; done). assert (Hcut : forall lg, - slice_v <= cut lg <= slice_v) by (intros lg; subst cut; cbn; lia). split; [|split].
  - unfold eevfd_place_entity. rewrite (proj2 (Z.eqb_neq a 0) H0), Hs. cbn [orb negb]. rewrite (se_at m a x Ex), ret_bind. fold e. fold slice_v. cbv zeta. subst into put. cbn beta. destruct initial_spawn.
    + rewrite (write_min_at m a x _ Ex). fold e. rewrite u64_id by lia. replace (Z.max (min_vruntime q) (vtime q - 0)) with (vtime q) by lia. done.
    + rewrite (write_min_at m a x _ Ex). fold e. rewrite clamp_lag_spec by lia. fold (cut (lag e)). rewrite (lagged_spec q slice_v) by (done || apply Hcut). pose proof (Hcut (lag e)). rewrite u64_id by lia. done.
  - unfold eevfd_migrate_entity. rewrite (proj2 (Z.eqb_neq a 0) H0), (se_at m a x Ex), ret_bind. fold e. fold slice_v. cbv zeta. fold earned. rewrite (write_min_at m a x _ Ex). fold e. rewrite migrate_lag_spec by lia. fold (cut earned). rewrite (lagged_spec q slice_v) by (done || apply Hcut). unfold calc_deadline. fold slice_v. pose proof (Hcut earned). rewrite u64_id by lia. done.
  - intros lg. pose proof (Hcut lg). subst put. cbn. lia.
Qed.

(** ** Preemption *)

Lemma calc_nonneg d w wm : 0 <= d -> 0 <= calc_slice_vruntime d w wm.
Proof. intros H. unfold calc_slice_vruntime, calc_delta_vruntime. destruct (w =? _); [done|]. destruct (d <=? _); apply Z.shiftr_nonneg; apply u64_range. Qed.

(** [eevfd_check_preempt] preempts only the idle thread, an entity that has used up
    its request, or one that ran for the minimum granularity (0.1 ms against an
    interactive entity, 0.5 ms otherwise) in favour of an eligible entity whose deadline
    is not later, and earlier by the wakeup granularity unless it is interactive. *)
Theorem eevfd_preempt_justified q c w m now ec ew : c <> 0 -> w <> 0 -> se_of m c = Ret ec -> se_of m w = Ret ew -> 0 <= deadline ew -> deadline ew + calc_slice_vruntime EEVFD_WAKEUP_GRANULARITY_NS (weight ew) (wmult ew) < 2 ^ 64 ->
  exists used b, eevfd_curr_runtime q c m now = Ret used /\ eevfd_check_preempt q c w m now = Ret b /\
    (b = true <-> nice_value ec = 19 /\ weight ec = 15 \/ deadline ec <= vruntime ec \/
      let interactive := weight ec < weight ew \/ nice_value ew < 0 \/ slice_ns ew < slice_ns ec in
      EEVFD_INTERACTIVE_MIN_GRANULARITY_NS <= used /\ (EEVFD_MIN_GRANULARITY_NS <= used \/ interactive) /\ vruntime ew <= vtime q /\
      (deadline ew + calc_slice_vruntime EEVFD_WAKEUP_GRANULARITY_NS (weight ew) (wmult ew) <= deadline ec \/ interactive /\ deadline ew <= deadline ec)).
Proof.
  intros Hc Hw Ec Ew Hd Hov. set (gr := calc_slice_vruntime EEVFD_WAKEUP_GRANULARITY_NS (weight ew) (wmult ew)) in *. assert (Hgr : 0 <= gr) by (apply calc_nonneg; unfold EEVFD_WAKEUP_GRANULARITY_NS; lia).
  assert (Eu : exists used, eevfd_curr_runtime q c m now = Ret used) by (unfold eevfd_curr_runtime; destruct (curr q =? c); cbn [negb]; [rewrite Ec, ret_bind|]; by eexists). destruct Eu as [used Eu]. exists used. unfold eevfd_check_preempt. rewrite (proj2 (Z.eqb_neq c 0) Hc), (proj2 (Z.eqb_neq w 0) Hw). cbn [orb]. rewrite Ec, ret_bind, Ew, ret_bind. fold gr.
  destruct ((nice_value ec =? 19) && (weight ec =? 15)) eqn:E1; [exists true; split; [done|]; split; [done|]; reify_bools; tauto|]. assert (N1 : ~ (nice_value ec = 19 /\ weight ec = 15)) by (intros [A B]; rewrite A, B in E1; done).
  destruct (vruntime ec >=? deadline ec) eqn:E2; reify_bools; [exists true; split; [done|]; split; [done|]; tauto|]. cbv zeta. set (inter := (weight ew >? weight ec) || _ || _). assert (Hi : inter = true <-> weight ec < weight ew \/ nice_value ew < 0 \/ slice_ns ew < slice_ns ec) by (subst inter; rewrite !orb_true_iff, Z.gtb_ltb, !Z.ltb_lt; tauto).
  rewrite Eu, ret_bind. unfold EEVFD_INTERACTIVE_MIN_GRANULARITY_NS, EEVFD_MIN_GRANULARITY_NS. set (I := weight ec < weight ew \/ nice_value ew < 0 \/ slice_ns ew < slice_ns ec) in *. clearbody inter I.
  assert (HI : if inter then I else ~ I) by (destruct inter; [by apply Hi|intros HI; by apply Hi in HI]). clear Hi. destruct (used <? (if inter then 100000 else 500000)) eqn:E3; reify_bools.
  - exists false. split; [done|]. split; [done|]. split; [done|]. intros [?|[?|(? & [?|?] & _)]]; [tauto|lia|destruct inter; lia|destruct inter; [lia|tauto]].
  - eexists. split; [done|]. split; [done|]. rewrite andb_true_iff, !Z.leb_le. destruct inter; cbn [andb].
    + destruct (deadline ew <=? deadline ec) eqn:E4; reify_bools; rewrite ?Z.add_0_r, u64_id by lia; (split; [intros [? ?]; right; right; split; [lia|]; tauto|intros [?|[?|(? & ? & ? & [?|[? ?]])]]; [tauto|lia|lia|lia]]).
    + rewrite u64_id by lia. split; [intros [? ?]; right; right; split; [lia|]; tauto|]. intros [?|[?|(? & ? & ? & [?|[? ?]])]]; [tauto|lia|lia|tauto].
Qed.

(** ** A small machine *)

Definition demo_a : Z := 18446603336221200384.
Definition demo_b : Z := 18446603336221204480.
Definition demo_junk : entity := mk_node 3 5 7 (mk_se 1 2 3 4 5 6 7 8 9 true true 1 2) 9.
Definition after (o : op) (w : machine) : machine := match exec o w with Ret w' => w' | _ => w end.
Lemma after_reach n w Qs o : reachable n w Qs -> permitted o w Qs -> reachable n (after o w) (spec o w Qs).
Proof. intros R HP. destruct (machine_step o w Qs (machine_reachable_ok n w Qs R) HP) as (w' & E & _). apply (reach_step n w Qs o); [done|done|]. unfold after. by rewrite E. Qed.
Definition demo1 : machine := after (Create demo_a demo_junk 0 0) (boot_machine 1).
Definition demo2 : machine := after (Create demo_b demo_junk 5 0) demo1.
Definition demo3 : machine := after (Enqueue 0 demo_a) demo2.
Definition demo4 : machine := after (Enqueue 0 demo_b) demo3.
Definition demo_queues : queues := spec (Enqueue 0 demo_b) demo3 (spec (Enqueue 0 demo_a) demo2 [[]]).
Lemma demo2_reachable : reachable 1 demo2 [[]].
Proof.
  assert (Ha : addr demo_a) by (split; [reflexivity|exists 4611650834055300096; reflexivity]). assert (Hb : addr demo_b) by (split; [reflexivity|exists 4611650834055301120; reflexivity]).
  apply (after_reach 1 demo1 [[]] (Create demo_b demo_junk 5 0)); [|split; [vm_compute; reflexivity|exact Hb]]. apply (after_reach 1 (boot_machine 1) [[]] (Create demo_a demo_junk 0 0)); [apply (reach_boot 1)|split; [reflexivity|exact Ha]].
Qed.
Lemma demo_enqueue_a : permitted (Enqueue 0 demo_a) demo2 [[]].
Proof. split; [vm_compute; lia|]. split; [right; vm_compute; by eexists|]. intros [|j] q E Ec; vm_compute in E; [injection E as <-; vm_compute in Ec; discriminate|discriminate]. Qed.
Lemma demo_enqueue_b : permitted (Enqueue 0 demo_b) demo3 (spec (Enqueue 0 demo_a) demo2 [[]]).
Proof. split; [vm_compute; lia|]. split; [right; vm_compute; by eexists|]. intros [|j] q E Ec; vm_compute in E; [injection E as <-; vm_compute in Ec; discriminate|discriminate]. Qed.
Lemma demo4_reachable : reachable 1 demo4 demo_queues.
Proof. apply after_reach; [apply after_reach; [exact demo2_reachable|exact demo_enqueue_a]|exact demo_enqueue_b]. Qed.
Definition demo_rq : eevfd_rq := default boot_rq (cpus demo4 !! 0%nat).
Definition demo_list : list item := default [] (demo_queues !! 0%nat).
Lemma demo_queued : queued demo_rq (mem demo4) demo_list.
Proof. apply (ok_queued _ _ (machine_reachable_ok 1 _ _ demo4_reachable) 0); vm_compute; reflexivity. Qed.

Lemma eevfd_refines_witness : exists w', exec (Enqueue 0 demo_a) demo2 = Ret w' /\ machine_ok w' (spec (Enqueue 0 demo_a) demo2 [[]]).
Proof. destruct (eevfd_refines 1 demo2 [[]] (Enqueue 0 demo_a) demo2_reachable demo_enqueue_a) as (w' & E & _ & H & _). exists w'. split; assumption. Defined.
Lemma eevfd_validates_witness : eevfd_validate_rq demo_rq (mem demo4) = Ret true.
Proof. apply (eevfd_validates 1 demo4 demo_queues 0 demo_rq demo4_reachable). vm_compute. reflexivity. Defined.
Lemma eevfd_pick_spec_witness : exists a q', eevfd_pick_next_entity demo_rq (mem demo4) = Ret (a, q') /\ a = next_of (vtime demo_rq) demo_list.
Proof. destruct (eevfd_pick_spec demo_rq (mem demo4) demo_list demo_queued) as (a & q' & E & Ea & _); [vm_compute; reflexivity|]. exists a, q'. split; assumption. Defined.

Definition demo_se : sched_entity := mk_se 0 3000000 3000000 1024 4194304 0 0 0 0 false false 0 0.
Definition demo_running : sched_entity := set_exec_start 5 demo_se.
Lemma eevfd_enqueue_dequeue_witness : exists q1 m1 q2 m2, eevfd_enqueue_entity boot_rq demo_a {[demo_a := mk_node 0 0 0 demo_se 0]} = Ret (q1, m1) /\ eevfd_dequeue_entity q1 demo_a m1 = Ret (q2, m2) /\ queued q2 m2 [].
Proof.
  destruct (eevfd_enqueue_dequeue boot_rq {[demo_a := mk_node 0 0 0 demo_se 0]} [] demo_a (mk_node 0 0 0 demo_se 0)) as (q1 & m1 & q2 & m2 & y & E1 & _ & E2 & H & _); [apply empty_queued|split; [reflexivity|exists 4611650834055300096; reflexivity]|reflexivity|apply lookup_singleton_eq|repeat split|left; reflexivity|].
  exists q1, m1, q2, m2. split; [exact E1|]. split; [exact E2|exact H].
Defined.
Lemma eevfd_update_curr_spec_witness : exists q' m', eevfd_update_curr (set_curr demo_a boot_rq) 1005 {[demo_a := mk_node 0 0 0 demo_running 0]} = Ret (q', m') /\ queued q' m' [] /\ vtime q' = 1000.
Proof.
  destruct (eevfd_update_curr_spec (set_curr demo_a boot_rq) {[demo_a := mk_node 0 0 0 demo_running 0]} [] 1005 (mk_node 0 0 0 demo_running 0)) as [E H];
    [apply (queued_same boot_rq); [repeat split|vm_compute; discriminate|apply empty_queued]|discriminate|intros Hin; apply elem_of_nil in Hin; exact Hin|apply lookup_singleton_eq|discriminate|reflexivity|].
  eexists _, _. split; [exact E|]. split; [exact H|vm_compute; reflexivity].
Defined.
Lemma eevfd_charge_bounds_witness : exists w wm, nice_to_weight 5 = Ret w /\ nice_to_wmult 5 = Ret wm /\ 2 ^ 33 * 1000000 < 2 ^ 23 * (w * (calc_delta_vruntime 1000000 w wm + 1)) + w * 1000000.
Proof. destruct (eevfd_charge_bounds 5 1000000) as (w & wm & E1 & E2 & _ & _ & H); [split; vm_compute; discriminate|]. exists w, wm. split; [exact E1|]. split; [exact E2|exact H]. Defined.
Lemma eevfd_placement_witness : eevfd_place_entity boot_rq demo_a true {[demo_a := mk_node 0 0 0 demo_se 0]} = Ret {[demo_a := mk_node 0 0 0 demo_se 3000000]}.
Proof.
  destruct (eevfd_placement boot_rq None demo_a {[demo_a := mk_node 0 0 0 demo_se 0]} (mk_node 0 0 0 demo_se 0) true) as [E _]; [reflexivity|apply lookup_singleton_eq|split; [vm_compute; split; discriminate|split; [vm_compute; discriminate|vm_compute; reflexivity]]|].
  rewrite E. vm_compute. reflexivity.
Defined.

Lemma eevfd_preempt_justified_witness : exists used b, eevfd_curr_runtime (set_curr demo_a boot_rq) demo_a (mem demo2) 0 = Ret used /\ eevfd_check_preempt (set_curr demo_a boot_rq) demo_a demo_b (mem demo2) 0 = Ret b.
Proof.
  destruct (eevfd_preempt_justified (set_curr demo_a boot_rq) demo_a demo_b (mem demo2) 0 (mk_se 0 0 3000000 1024 4194304 0 0 0 0 false false 0 0) (mk_se 0 0 4500000 335 12820798 0 0 0 5 false false 0 0)) as (used & b & E1 & E2 & _);
    [discriminate|discriminate|vm_compute; reflexivity|vm_compute; reflexivity|vm_compute; discriminate|vm_compute; reflexivity|exists used, b; split; assumption].
Defined.

End EevfdClaims.
