(* ===== verification/RadixTree.v ===== *)
(** RadixTree: the radix tree of the page cache ([kernel/src/lib/radix_tree.c],
    [radix_tree.h]).

    The memory of nodes maps addresses to nodes; 0 is NULL. Which addresses are managed
    RAM ([pmm_kernel_ptr_is_managed]) and whether a deferred-free hook is set are
    arguments; the allocator is an argument of the insertion, the list of addresses it
    will return. A deferred node keeps its memory and is in [retired]. *)

From S2P Require Import Prelude.

Module RadixTree.

Definition RADIX_TREE_BITS : Z := 6.
Definition RADIX_TREE_SLOTS : Z := 64.
Definition RADIX_TREE_MAX_HEIGHT : Z := 11.
Definition RADIX_ENOMEM : Z := 12.
Definition RADIX_EEXIST : Z := 17.
Definition RADIX_EINVAL : Z := 22.

(** ** Nodes and trees *)

Record asc_radix_tree_node := mk_node { slots : list Z; count : Z }.
Notation memory := (gmap Z asc_radix_tree_node).
Record radix_tree := mk_radix { root : Z; entries : Z; nodes : Z; height : Z; seq_ : Z; heap : memory; retired : list Z }.

Definition set_root (v h : Z) (t : radix_tree) : radix_tree := mk_radix v (entries t) (nodes t) h (seq_ t) (heap t) (retired t).
Definition set_entries (v : Z) (t : radix_tree) : radix_tree := mk_radix (root t) v (nodes t) (height t) (seq_ t) (heap t) (retired t).
Definition set_nodes (v : Z) (t : radix_tree) : radix_tree := mk_radix (root t) (entries t) v (height t) (seq_ t) (heap t) (retired t).
Definition set_heap (h : memory) (t : radix_tree) : radix_tree := mk_radix (root t) (entries t) (nodes t) (height t) (seq_ t) h (retired t).
Definition set_retired (l : list Z) (t : radix_tree) : radix_tree := mk_radix (root t) (entries t) (nodes t) (height t) (seq_ t) (heap t) l.
(** Half of [radix_mut_lock] and [radix_mut_unlock]: the other half is the lock. *)
Definition bump (t : radix_tree) : radix_tree := mk_radix (root t) (entries t) (nodes t) (height t) (u32 (seq_ t + 1)) (heap t) (retired t).
Definition radix_mut_lock : radix_tree -> radix_tree := bump.
Definition radix_mut_unlock : radix_tree -> radix_tree := bump.

Definition slot_of (h : memory) (p i : Z) : outcome Z := n ← deref (h !! p); arr_get (slots n) i.
Definition set_slot (p i v : Z) (h : memory) : outcome memory := n ← deref (h !! p); l ← arr_set (slots n) i v; Ret (<[p := mk_node l (count n)]> h).
Definition set_count (p c : Z) (h : memory) : outcome memory := n ← deref (h !! p); Ret (<[p := mk_node (slots n) (u8 c)]> h).
(** [p->count += d] *)
Definition add_count (p d : Z) (h : memory) : outcome memory := n ← deref (h !! p); set_count p (count n + d) h.

Definition zero_node : asc_radix_tree_node := mk_node (replicate 64 0) 0.

Definition asc_radix_tree_init (h : memory) : radix_tree := mk_radix 0 0 0 0 0 h [].

Fixpoint required_loop (fuel : nat) (index height : Z) : Z :=
  match fuel with
  | O => height
  | S fuel => if (height <? RADIX_TREE_MAX_HEIGHT) && nz (Z.shiftr index (height * RADIX_TREE_BITS)) then required_loop fuel index (height + 1) else height
  end.
Definition radix_required_height (index : Z) : Z := required_loop 11 index 1.

(** A shift by 64 or more is undefined. *)
Definition radix_slot (index level : Z) : outcome Z :=
  if level * RADIX_TREE_BITS <? 64 then Ret (Z.land (Z.shiftr index (level * RADIX_TREE_BITS)) (RADIX_TREE_SLOTS - 1)) else Fault.

Definition radix_reset_corrupt_tree (t : radix_tree) : radix_tree := mk_radix 0 0 0 0 (seq_ t) (heap t) (retired t).

Section Radix.
Variable managed : Z -> bool.
Variable deferred_free : bool.

Definition radix_ptr_is_node (p : Z) : bool := negb ((p =? 0) || nz (Z.land p 7)) && managed p.

Definition radix_node_free (p : Z) (t : radix_tree) : radix_tree := if deferred_free then set_retired (p :: retired t) t else set_heap (delete p (heap t)) t.

(** ** Lookup *)

(** The levels from [level] down to the leaf; NULL where a child is no node. *)
Fixpoint walk (level : nat) (index node : Z) (h : memory) : outcome (option Z) :=
  match level with
  | O => Ret (Some node)
  | S below =>
    i ← radix_slot index (Z.of_nat level);
    c ← slot_of h node i;
    if radix_ptr_is_node c then walk below index c h else Ret None
  end.
(** [uint8_t level = tree->height - 1] *)
Definition top_level (t : radix_tree) : nat := Z.to_nat (u8 (height t - 1)).
Definition find_leaf (t : radix_tree) (index : Z) : outcome (option Z) :=
  if negb (radix_ptr_is_node (root t)) || (radix_required_height index >? height t) then Ret None else walk (top_level t) index (root t) (heap t).
Definition radix_lookup_locked (t : radix_tree) (index : Z) : outcome Z :=
  leaf ← find_leaf t index;
  match leaf with None => Ret 0 | Some p => i ← radix_slot index 0; slot_of (heap t) p i end.

(** The three cache arguments, all given. *)
Record cache := mk_cache { cached_chunk : Z; cached_leaf : Z; cached_seq : Z }.
Definition radix_lookup_locked_cached (t : radix_tree) (index : Z) (c : option cache) : outcome (Z * option cache) :=
  let chunk := Z.shiftr index RADIX_TREE_BITS in
  let slot := Z.land index (RADIX_TREE_SLOTS - 1) in
  let hit := match c with Some c => (cached_chunk c =? chunk) && nz (cached_leaf c) && (cached_seq c =? seq_ t) | None => false end in
  match c, hit with
  | Some c, true => v ← slot_of (heap t) (cached_leaf c) slot; Ret (v, Some c)
  | _, _ =>
    leaf ← find_leaf t index;
    match leaf with
    | None => Ret (0, c)
    | Some p => v ← slot_of (heap t) p slot; Ret (v, match c with Some _ => Some (mk_cache chunk p (seq_ t)) | None => None end)
    end
  end.
Definition asc_radix_tree_lookup : radix_tree -> Z -> outcome Z := radix_lookup_locked.
Definition asc_radix_tree_lookup_cached : radix_tree -> Z -> option cache -> outcome (Z * option cache) := radix_lookup_locked_cached.

(** ** Insertion *)

(** The first missing child on the way down, or the leaf. *)
Fixpoint find_attach (level : nat) (index node : Z) (h : memory) : outcome (option (Z * Z * nat) * Z) :=
  match level with
  | O => Ret (None, node)
  | S below =>
    i ← radix_slot index (Z.of_nat level);
    c ← slot_of h node i;
    if radix_ptr_is_node c then find_attach below index c h else Ret (Some (node, i, level), node)
  end.

Fixpoint radix_free_allocated (fresh : list Z) (t : radix_tree) : radix_tree := match fresh with [] => t | p :: fresh => radix_node_free p (radix_free_allocated fresh t) end.
(** [total] nodes from the allocator; [fresh] has those so far. *)
Fixpoint alloc_nodes (total : nat) (supply fresh : list Z) (t : radix_tree) : option (list Z) * radix_tree :=
  match total with
  | O => (Some fresh, t)
  | S total =>
    match supply with
    | [] => (None, radix_free_allocated fresh t)
    | p :: supply => alloc_nodes total supply (fresh ++ [p]) (set_heap (<[p := zero_node]> (heap t)) t)
    end
  end.

(** The branch of new nodes from [level] to the leaf, each the only child. *)
Fixpoint link_branch (level : Z) (index value : Z) (fresh : list Z) (h : memory) : outcome memory :=
  match fresh with
  | [] => Fault
  | p :: below =>
    match below with
    | [] => i ← radix_slot index 0; h ← set_slot p i value h; set_count p 1 h
    | c :: _ => i ← radix_slot index level; h ← set_slot p i c h; h ← set_count p 1 h; link_branch (level - 1) index value below h
    end
  end.
(** New nodes above the root. *)
Fixpoint link_wrappers (old_root : Z) (fresh : list Z) (h : memory) : outcome memory :=
  match fresh with
  | [] => Ret h
  | p :: fresh => h ← set_slot p 0 (match fresh with [] => old_root | c :: _ => c end) h; h ← set_count p 1 h; link_wrappers old_root fresh h
  end.

(** How the new nodes will be linked. *)
Inductive plan := New_tree | Grow (wrappers : nat) | Attach (parent slot : Z) (level : nat) | Fill (leaf : Z).
Definition make_plan (t : radix_tree) (index : Z) : outcome plan :=
  let needed := radix_required_height index in
  if root t =? 0 then Ret New_tree
  else if needed >? height t then Ret (Grow (Z.to_nat (needed - height t)))
  else
    '(a, leaf) ← find_attach (top_level t) index (root t) (heap t);
    Ret (match a with Some (parent, slot, level) => Attach parent slot level | None => Fill leaf end).
Definition branch_count (needed : Z) (p : plan) : nat := match p with New_tree => Z.to_nat needed | Grow _ => Z.to_nat (needed - 1) | Attach _ _ level => level | Fill _ => 0 end.
Definition wrapper_count (p : plan) : nat := match p with Grow w => w | _ => 0 end.

Definition link_plan (p : plan) (index value : Z) (fresh : list Z) (t : radix_tree) : outcome radix_tree :=
  let needed := radix_required_height index in
  match p with
  | New_tree => h ← link_branch (needed - 1) index value fresh (heap t); r ← arr_get fresh 0; Ret (set_root r needed (set_heap h t))
  | Grow w =>
    h ← link_wrappers (root t) (take w fresh) (heap t);
    new_root ← arr_get fresh 0; branch ← arr_get fresh (Z.of_nat w);
    top ← radix_slot index (needed - 1);
    h ← set_slot new_root top branch h; h ← add_count new_root 1 h;
    h ← link_branch (needed - 2) index value (drop w fresh) h;
    Ret (set_root new_root needed (set_heap h t))
  | Attach parent slot level =>
    branch ← arr_get fresh 0;
    h ← set_slot parent slot branch (heap t); h ← add_count parent 1 h;
    h ← link_branch (Z.of_nat level - 1) index value fresh h;
    Ret (set_heap h t)
  | Fill leaf => Ret t
  end.

(** The new nodes, kept in an array of [RADIX_TREE_MAX_HEIGHT * 2], allocated all or
    none, and linked. *)
Definition insert_nodes (supply : list Z) (p : plan) (index value : Z) (t : radix_tree) : outcome (Z * radix_tree) :=
  let total := (wrapper_count p + branch_count (radix_required_height index) p)%nat in
  if Z.of_nat total >? RADIX_TREE_MAX_HEIGHT * 2 then Fault
  else
    match alloc_nodes total supply [] t with
    | (None, t) => Ret (- RADIX_ENOMEM, radix_mut_unlock t)
    | (Some fresh, t) =>
      t ← link_plan p index value fresh t;
      Ret (0, radix_mut_unlock (set_entries (u64 (entries t + 1)) (set_nodes (u64 (nodes t + Z.of_nat total)) t)))
    end.

Definition asc_radix_tree_insert (supply : list Z) (index value : Z) (t : radix_tree) : outcome (Z * radix_tree) :=
  if value =? 0 then Ret (- RADIX_EINVAL, t)
  else
    let t := radix_mut_lock t in
    let t := if nz (root t) && negb (radix_ptr_is_node (root t)) then radix_reset_corrupt_tree t else t in
    v ← radix_lookup_locked t index;
    if nz v then Ret (- RADIX_EEXIST, radix_mut_unlock t)
    else
      p ← make_plan t index;
      match p with
      | Fill leaf =>
        i ← radix_slot index 0;
        h ← set_slot leaf i value (heap t); h ← add_count leaf 1 h;
        Ret (0, radix_mut_unlock (set_entries (u64 (entries t + 1)) (set_heap h t)))
      | _ => insert_nodes supply p index value t
      end.

Definition asc_radix_tree_replace (index value : Z) (t : radix_tree) : outcome (Z * radix_tree) :=
  if value =? 0 then Ret (0, t)
  else
    let t := radix_mut_lock t in
    leaf ← find_leaf t index;
    match leaf with
    | None => Ret (0, radix_mut_unlock t)
    | Some p =>
      i ← radix_slot index 0;
      old ← slot_of (heap t) p i;
      if nz old then h ← set_slot p i value (heap t); Ret (old, radix_mut_unlock (set_heap h t)) else Ret (0, radix_mut_unlock t)
    end.

(** ** Deletion *)

(** The leaf, and its ancestors from below with the slots of the way. *)
Fixpoint descend (level : nat) (index node : Z) (path : list (Z * Z)) (h : memory) : outcome (option (Z * list (Z * Z))) :=
  match level with
  | O => Ret (Some (node, path))
  | S below =>
    i ← radix_slot index (Z.of_nat level);
    c ← slot_of h node i;
    if radix_ptr_is_node c then descend below index c ((node, i) :: path) h else Ret None
  end.
(** Frees the nodes that became empty. *)
Fixpoint prune (node : Z) (path : list (Z * Z)) (t : radix_tree) : outcome radix_tree :=
  match path with
  | [] => Ret t
  | (parent, i) :: path =>
    n ← deref (heap t !! node);
    if nz (count n) then Ret t
    else
      h ← set_slot parent i 0 (heap t); h ← add_count parent (-1) h;
      let t := radix_node_free node (set_heap h t) in
      prune parent path (set_nodes (u64 (nodes t - 1)) t)
  end.
(** Drops root nodes that only have a child 0. *)
Fixpoint shrink (fuel : nat) (t : radix_tree) : outcome radix_tree :=
  match fuel with
  | O => OutOfFuel
  | S fuel =>
    if height t >? 1 then
      n ← deref (heap t !! root t);
      c ← arr_get (slots n) 0;
      if (count n =? 1) && nz c then
        let old_root := root t in
        let t := radix_node_free old_root (set_root c (u8 (height t - 1)) t) in
        shrink fuel (set_nodes (u64 (nodes t - 1)) t)
      else Ret t
    else Ret t
  end.
Definition asc_radix_tree_delete (index : Z) (t : radix_tree) : outcome (Z * radix_tree) :=
  let t := radix_mut_lock t in
  let t := if nz (root t) && negb (radix_ptr_is_node (root t)) then radix_reset_corrupt_tree t else t in
  if negb (radix_ptr_is_node (root t)) || (radix_required_height index >? height t) then Ret (0, radix_mut_unlock t)
  else
    d ← descend (top_level t) index (root t) [] (heap t);
    match d with
    | None => Ret (0, radix_mut_unlock t)
    | Some (leaf, path) =>
      i ← radix_slot index 0;
      old ← slot_of (heap t) leaf i;
      if old =? 0 then Ret (0, radix_mut_unlock t)
      else
        h ← set_slot leaf i 0 (heap t); h ← add_count leaf (-1) h;
        let t := set_entries (u64 (entries t - 1)) (set_heap h t) in
        t ← prune leaf path t;
        t ← shrink (S (Z.to_nat (height t))) t;
        let t := if entries t =? 0 then let t := set_root 0 0 (radix_node_free (root t) t) in set_nodes (u64 (nodes t - 1)) t else t in
        Ret (old, radix_mut_unlock t)
    end.

(** ** Whole trees *)

(** A loop over the slots of a node, empty ones skipped. *)
Fixpoint over_slots {A} (f : Z -> Z -> A -> outcome (bool * A)) (i : Z) (l : list Z) (a : A) : outcome (bool * A) :=
  match l with
  | [] => Ret (true, a)
  | v :: l =>
    if v =? 0 then over_slots f (i + 1) l a
    else '(go, a) ← f i v a; if go : bool then over_slots f (i + 1) l a else Ret (false, a)
  end.

(** [release] appends to the list of released values. *)
Fixpoint radix_destroy_node (level : nat) (node : Z) (st : radix_tree * list Z) : outcome (radix_tree * list Z) :=
  if negb (radix_ptr_is_node node) then Ret st
  else
    n ← deref (heap (fst st) !! node);
    '(_, st) ← over_slots (fun _ v st => match level with O => Ret (true, (fst st, snd st ++ [v])) | S below => st ← radix_destroy_node below v st; Ret (true, st) end) 0 (slots n) st;
    Ret (radix_node_free node (fst st), snd st).
Definition asc_radix_tree_destroy (t : radix_tree) : outcome (radix_tree * list Z) :=
  let t := radix_mut_lock t in
  let t := if nz (root t) && negb (radix_ptr_is_node (root t)) then radix_reset_corrupt_tree t else t in
  '(t, released) ← (if root t =? 0 then Ret (t, []) else radix_destroy_node (top_level t) (root t) (t, []));
  Ret (radix_mut_unlock (set_entries 0 (set_nodes 0 (set_root 0 0 t))), released).

(** [prefix | ((uint64_t)i << (level * RADIX_TREE_BITS))] *)
Definition radix_key (prefix i level : Z) : outcome Z :=
  if level * RADIX_TREE_BITS <? 64 then Ret (Z.lor prefix (u64 (Z.shiftl i (level * RADIX_TREE_BITS)))) else Fault.

Section Iter.
Context {C : Type}.
Variable callback : Z -> Z -> C -> bool * C.
Fixpoint radix_iter_node (level : nat) (node prefix first last : Z) (h : memory) (c : C) : outcome (bool * C) :=
  if negb (radix_ptr_is_node node) then Ret (false, c)
  else
    n ← deref (h !! node);
    over_slots (fun i v c =>
      key ← radix_key prefix i (Z.of_nat level);
      match level with
      | O => if (key >=? first) && (key <=? last) then Ret (callback key v c) else Ret (true, c)
      | S below => if negb (radix_ptr_is_node v) then Ret (true, c) else radix_iter_node below v key first last h c
      end) 0 (slots n) c.
Definition asc_radix_tree_for_each_range (t : radix_tree) (first last : Z) (c : C) : outcome (bool * C) :=
  if first >? last then Ret (false, c)
  else if root t =? 0 then Ret (true, c) else radix_iter_node (top_level t) (root t) 0 first last (heap t) c.
Definition asc_radix_tree_for_each (t : radix_tree) (c : C) : outcome (bool * C) := asc_radix_tree_for_each_range t 0 UINT64_MAX c.
End Iter.

(** The counters are (nodes, entries). *)
Fixpoint radix_validate_node (level : nat) (node : Z) (h : memory) (c : Z * Z) : outcome (bool * (Z * Z)) :=
  if negb (radix_ptr_is_node node) then Ret (false, c)
  else
    n ← deref (h !! node);
    '(ok, (count', c)) ← over_slots (fun _ v '(k, c) =>
      match level with
      | O => Ret (true, (u32 (k + 1), (fst c, u64 (snd c + 1))))
      | S below => '(ok, c) ← radix_validate_node below v h c; Ret (ok, (u32 (k + 1), c))
      end) 0 (slots n) (0, c);
    if ok : bool then Ret ((count' =? count n) && nz count', (u64 (fst c + 1), snd c)) else Ret (false, c).
Definition asc_radix_tree_validate (t : radix_tree) : outcome bool :=
  if root t =? 0 then Ret ((height t =? 0) && (nodes t =? 0) && (entries t =? 0))
  else if (height t =? 0) || (height t >? RADIX_TREE_MAX_HEIGHT) || (entries t =? 0) then Ret false
  else '(ok, (n, e)) ← radix_validate_node (top_level t) (root t) (heap t) (0, 0); Ret (ok && (n =? nodes t) && (e =? entries t)).

End Radix.
End RadixTree.
