(* ===== verification/RadixSafe.v ===== *)
(** RadixSafe: the invariant of the radix tree. A tree for the contents [M] is in a
    canonical form: there is a node at level [l] for a prefix exactly if an index of
    [M] has that prefix, and the height is the least one that fits. [pos] gives the
    address of the node at each level and prefix. *)

From S2P Require Import Prelude RadixTree.
From stdpp Require Import list_relations.
#[local] Open Scope Z_scope.

Module RadixSafe.
Import RadixTree.

(** ** Prefixes *)

(** The index without its lowest [l] digits. *)
Definition up (i : Z) (l : nat) : Z := Z.shiftr i (6 * Z.of_nat l).
Lemma up_div i l : up i l = i / 2 ^ (6 * Z.of_nat l).
Proof. unfold up. by rewrite Z.shiftr_div_pow2 by lia. Qed.
Lemma up_0 i : up i 0 = i.
Proof. done. Qed.
Lemma up_S i l : up i (S l) = up i l / 64.
Proof. unfold up. replace (6 * Z.of_nat (S l)) with (6 * Z.of_nat l + 6) by lia. rewrite <- Z.shiftr_shiftr by lia. by rewrite (Z.shiftr_div_pow2 _ 6) by lia. Qed.
Lemma up_nonneg i l : 0 <= i -> 0 <= up i l.
Proof. intros H. unfold up. by apply Z.shiftr_nonneg. Qed.
Lemma up_eq i j l l' : up i l = up j l -> (l <= l')%nat -> up i l' = up j l'.
Proof. intros E H. induction H as [|l' _ IH]; [done|]. by rewrite !up_S, IH. Qed.
Lemma up_zero i l l' : up i l = 0 -> (l <= l')%nat -> up i l' = 0.
Proof. intros E H. rewrite (up_eq i 0 l l'); [|by rewrite E; unfold up; rewrite Z.shiftr_0_l|done]. unfold up. apply Z.shiftr_0_l. Qed.
Lemma up_top i : 0 <= i < 2 ^ 64 -> up i 11 = 0.
Proof. intros H. rewrite up_div. apply Z.div_small. cbn. lia. Qed.
Lemma up_split i l : up i l = 64 * up i (S l) + up i l mod 64.
Proof. rewrite up_S. apply Z.div_mod. lia. Qed.

Lemma slot_up i (l : nat) : (l <= 10)%nat -> radix_slot i (Z.of_nat l) = Ret (up i l mod 64).
Proof.
  intros H. unfold radix_slot, RADIX_TREE_BITS, RADIX_TREE_SLOTS. rewrite (proj2 (Z.ltb_lt _ _)) by lia. f_equal. change (64 - 1) with (2 ^ 6 - 1). rewrite land_ones_small by lia. unfold up. by replace (Z.of_nat l * 6) with (6 * Z.of_nat l) by lia.
Qed.

Lemma required_loop_spec i : 0 <= i < 2 ^ 64 -> forall fuel h, (1 <= h)%nat -> (h + fuel = 12)%nat -> (h = 1%nat \/ up i (h - 1) <> 0) ->
  exists h' : nat, required_loop fuel i (Z.of_nat h) = Z.of_nat h' /\ (1 <= h' <= 11)%nat /\ up i h' = 0 /\ (h' = 1%nat \/ up i (h' - 1) <> 0).
Proof.
  intros Hi. induction fuel as [|fuel IH]; intros h H1 Hf Hp; cbn [required_loop].
  - exfalso. destruct Hp as [->|Hp]; [lia|]. apply Hp. replace (h - 1)%nat with 11%nat by lia. by apply up_top.
  - unfold RADIX_TREE_MAX_HEIGHT, RADIX_TREE_BITS. replace (Z.of_nat h * 6) with (6 * Z.of_nat h) by lia. fold (up i h). destruct (Z.of_nat h <? 11) eqn:E; cbn [andb]; reify_bools.
    + unfold nz. destruct (up i h =? 0) eqn:Eu; cbn [negb]; reify_bools; [exists h; split; [done|]; split; [lia|done]|]. replace (Z.of_nat h + 1) with (Z.of_nat (S h)) by lia. apply IH; [lia|lia|]. right. by replace (S h - 1)%nat with h by lia.
    + assert (h = 11%nat \/ h = 12%nat) as [->| ->] by lia; [|lia]. exists 11%nat. split; [done|]. split; [lia|]. split; [by apply up_top|]. done.
Qed.
(** The least height whose digits cover an index. *)
Definition needed (i : Z) : nat := Z.to_nat (radix_required_height i).
Lemma needed_spec i : 0 <= i < 2 ^ 64 -> radix_required_height i = Z.of_nat (needed i) /\ (1 <= needed i <= 11)%nat /\ up i (needed i) = 0 /\ (needed i = 1%nat \/ up i (needed i - 1) <> 0).
Proof.
  intros Hi. destruct (required_loop_spec i Hi 11 1) as (h & E & H1 & H2 & H3); [lia|lia|by left|]. unfold needed, radix_required_height. change (Z.of_nat 1) with 1 in E. rewrite E, Nat2Z.id. done.
Qed.
Lemma needed_le i H : 0 <= i < 2 ^ 64 -> (1 <= H)%nat -> (needed i <= H)%nat <-> up i H = 0.
Proof.
  intros Hi H1. destruct (needed_spec i Hi) as (_ & _ & E & Hm). split; [intros Hle; by apply (up_zero i (needed i))|]. intros E0. destruct (decide (needed i <= H)%nat); [done|]. exfalso. destruct Hm as [Hm|Hm]; [lia|]. apply Hm. apply (up_zero i H); [done|lia].
Qed.

(** ** Nodes as functions of the contents *)

Notation contents := (gmap Z Z).
Notation positions := (gmap (nat * Z) Z).
(** What is in slot [i] of the node at level [l] for prefix [k]. *)
Definition content (M : contents) (pos : positions) (l : nat) (k i : Z) : Z :=
  match l with O => default 0 (M !! (64 * k + i)) | S l' => default 0 (pos !! (l', 64 * k + i)) end.
Definition nonzero (l : list Z) : Z := countb nz l.
Definition table (f : Z -> Z) : list Z := map f (seqZ 0 64).
Definition node_at (M : contents) (pos : positions) (l : nat) (k : Z) : asc_radix_tree_node := let s := table (content M pos l k) in mk_node s (nonzero s).

Lemma radix_table_get f i : 0 <= i < 64 -> arr_get (table f) i = Ret (f i).
Proof.
  intros Hi. unfold arr_get, table. destruct (i <? 0) eqn:E; reify_bools; [lia|]. rewrite list_lookup_fmap, lookup_seqZ_lt by lia. cbn. do 2 f_equal. lia.
Qed.
Lemma table_lookup f i : 0 <= i < 64 -> table f !! Z.to_nat i = Some (f i).
Proof. intros Hi. unfold table. rewrite list_lookup_fmap, lookup_seqZ_lt by lia. cbn. do 2 f_equal. lia. Qed.
Lemma table_ext f g : (forall i, 0 <= i < 64 -> f i = g i) -> table f = table g.
Proof. intros H. unfold table. apply map_ext_in. intros i Hi. apply H. apply list_elem_of_In, elem_of_seqZ in Hi. lia. Qed.
Lemma table_insert f g i v : 0 <= i < 64 -> g i = v -> (forall j, 0 <= j < 64 -> j <> i -> g j = f j) -> <[Z.to_nat i := v]> (table f) = table g.
Proof.
  intros Hi Hv Hg. apply list_eq. intros n. destruct (decide (n < 64)%nat) as [Hn|Hn].
  - destruct (decide (n = Z.to_nat i)) as [->|Hne].
    + rewrite list_lookup_insert_eq by (unfold table; rewrite length_map, length_seqZ; lia). rewrite table_lookup by done. by rewrite Hv.
    + rewrite list_lookup_insert_ne by done. replace n with (Z.to_nat (Z.of_nat n)) by lia. rewrite !table_lookup by lia. f_equal. symmetry. apply Hg; lia.
  - rewrite !lookup_ge_None_2; [done| |]; rewrite ?length_insert; unfold table; rewrite length_map, length_seqZ; lia.
Qed.
Lemma table_set f g i v : 0 <= i < 64 -> g i = v -> (forall j, 0 <= j < 64 -> j <> i -> g j = f j) -> arr_set (table f) i v = Ret (table g).
Proof.
  intros Hi Hv Hg. rewrite arr_set_Ret by (unfold table; rewrite length_map, length_seqZ; lia). by rewrite (table_insert f g i v).
Qed.
Lemma nonzero_range f : 0 <= nonzero (table f) <= 64.
Proof.
  unfold nonzero. split; [apply count_nonneg|]. assert (H : forall l, countb nz l <= Z.of_nat (length l)) by (induction l as [|x l IH]; cbn [countb length]; [lia|]; destruct (nz x); cbn [Z.b2z]; lia). specialize (H (table f)). unfold table in *. rewrite length_map, length_seqZ in H. lia.
Qed.

Lemma nonzero_insert f g i v : 0 <= i < 64 -> g i = v -> (forall j, 0 <= j < 64 -> j <> i -> g j = f j) -> nonzero (table g) = nonzero (table f) + Z.b2z (nz v) - Z.b2z (nz (f i)).
Proof. intros Hi Hv Hg. rewrite <- (table_insert f g i v) by done. unfold nonzero. rewrite (count_insert nz _ _ v (f i)) by (by apply table_lookup). lia. Qed.
Lemma nonzero_zero f : (forall i, 0 <= i < 64 -> f i = 0) -> table f = replicate 64 0 /\ nonzero (table f) = 0.
Proof. intros H. assert (E : table f = replicate 64 0) by (rewrite (table_ext f (fun _ => 0) H); done). split; [done|]. rewrite E. done. Qed.
Lemma nonzero_some f : nonzero (table f) <> 0 -> exists i, 0 <= i < 64 /\ f i <> 0.
Proof.
  intros H. destruct (decide (Exists (fun i => f i <> 0) (seqZ 0 64))) as [E|E].
  - apply Exists_exists in E as (i & Hi & Hf). apply elem_of_seqZ in Hi. exists i. split; [lia|done].
  - exfalso. apply H. apply nonzero_zero. intros i Hi. destruct (decide (f i = 0)); [done|]. exfalso. apply E. apply Exists_exists. exists i. split; [apply elem_of_seqZ; lia|done].
Qed.
Lemma nonzero_pos f i : 0 <= i < 64 -> f i <> 0 -> 0 < nonzero (table f).
Proof. intros Hi Hf. pose proof (count_pos nz (table f) (Z.to_nat i) (f i) (table_lookup f i Hi)) as H. unfold nonzero. unfold nz in H at 1. rewrite (proj2 (Z.eqb_neq _ 0) Hf) in H. specialize (H eq_refl). lia. Qed.

(** ** The memory of a tree *)

(** Every node of [pos] has exactly what the contents and the positions say. *)
Record built (h : memory) (M : contents) (pos : positions) : Prop := mk_built {
  bu_node : forall l k p, pos !! (l, k) = Some p -> h !! p = Some (node_at M pos l k);
  bu_inj : forall x y p, pos !! x = Some p -> pos !! y = Some p -> x = y }.
Definition unused (pos : positions) (p : Z) : Prop := forall x, pos !! x <> Some p.

Lemma slot_at h M pos l k p i : built h M pos -> pos !! (l, k) = Some p -> 0 <= i < 64 -> slot_of h p i = Ret (content M pos l k i).
Proof. intros B E Hi. unfold slot_of. rewrite (bu_node _ _ _ B l k p E). cbn [deref]. rewrite ret_bind. by apply radix_table_get. Qed.

Lemma set_count_at (h : memory) q n c : h !! q = Some n -> set_count q c h = Ret (<[q := mk_node (slots n) (u8 c)]> h).
Proof. unfold set_count. by intros ->. Qed.
Lemma add_count_at (h : memory) q n d : h !! q = Some n -> add_count q d h = Ret (<[q := mk_node (slots n) (u8 (count n + d))]> h).
Proof. intros E. unfold add_count. rewrite E. cbn [deref]. rewrite ret_bind. by apply set_count_at. Qed.

(** A write to one slot with the count adjusted, as a change of the table. *)
Lemma write_slot h q f g i v d : h !! q = Some (mk_node (table f) (nonzero (table f))) -> 0 <= i < 64 -> g i = v -> (forall j, 0 <= j < 64 -> j <> i -> g j = f j) -> d = Z.b2z (nz v) - Z.b2z (nz (f i)) ->
  exists h1, set_slot q i v h = Ret h1 /\ add_count q d h1 = Ret (<[q := mk_node (table g) (nonzero (table g))]> h) /\ (nonzero (table f) = 0 -> d = 1 -> set_count q 1 h1 = Ret (<[q := mk_node (table g) (nonzero (table g))]> h)).
Proof.
  intros Eq Hi Hv Hg Hd. unfold set_slot. rewrite Eq. cbn [deref]. rewrite ret_bind. cbn [slots count]. rewrite (table_set f g i v) by done. rewrite ret_bind. eexists. split; [done|]. pose proof (nonzero_insert f g i v Hi Hv Hg) as Hn. pose proof (nonzero_range g).
  erewrite add_count_at, set_count_at by (by rewrite lookup_insert_eq). cbn [slots count]. rewrite !insert_insert_eq. split; [|intros H0 H1]; do 3 f_equal; rewrite u8_id; lia.
Qed.

Lemma content_pos_insert M pos l k p l' k' i : (l', k') <> (S l, k / 64) \/ i <> k mod 64 -> 0 <= i < 64 -> content M (<[(l, k) := p]> pos) l' k' i = content M pos l' k' i.
Proof.
  intros Hne Hi. destruct l' as [|l']; cbn [content]; [done|]. rewrite lookup_insert_ne; [done|]. intros [= <- E]. subst k. assert ((64 * k' + i) / 64 = k') by (symmetry; apply (Z.div_unique _ 64 k' i); lia). assert ((64 * k' + i) mod 64 = i) by (symmetry; apply (Z.mod_unique _ 64 k' i); lia). destruct Hne as [Hne|Hne]; [apply Hne; congruence|congruence].
Qed.
Lemma content_pos_delete M pos l k l' k' i : (l', k') <> (S l, k / 64) \/ i <> k mod 64 -> 0 <= i < 64 -> content M (delete (l, k) pos) l' k' i = content M pos l' k' i.
Proof.
  intros Hne Hi. destruct l' as [|l']; cbn [content]; [done|]. rewrite lookup_delete_ne; [done|]. intros [= <- E]. subst k. assert ((64 * k' + i) / 64 = k') by (symmetry; apply (Z.div_unique _ 64 k' i); lia). assert ((64 * k' + i) mod 64 = i) by (symmetry; apply (Z.mod_unique _ 64 k' i); lia). destruct Hne as [Hne|Hne]; [apply Hne; congruence|congruence].
Qed.
Lemma content_parent M pos l k : content M pos (S l) (k / 64) (k mod 64) = default 0 (pos !! (l, k)).
Proof. cbn [content]. by rewrite <- (Z.div_mod k 64) by lia. Qed.
Lemma node_ext M pos M' pos' l k : (forall i, 0 <= i < 64 -> content M' pos' l k i = content M pos l k i) -> node_at M' pos' l k = node_at M pos l k.
Proof. intros H. unfold node_at. by rewrite (table_ext _ _ H). Qed.

(** A new empty node below an existing one. *)
Lemma attach_node h M pos l k p q : built h M pos -> pos !! (S l, k / 64) = Some q -> pos !! (l, k) = None -> unused pos p -> p <> 0 -> h !! p = Some zero_node -> (forall i, 0 <= i < 64 -> content M pos l k i = 0) ->
  exists h1 h2, set_slot q (k mod 64) p h = Ret h1 /\ add_count q 1 h1 = Ret h2 /\ built h2 M (<[(l, k) := p]> pos) /\ (nonzero (table (content M pos (S l) (k / 64))) = 0 -> set_count q 1 h1 = Ret h2) /\ (forall z, z <> q -> h2 !! z = h !! z).
Proof.
  intros B Eq En Hu Hp Ez Hz. pose proof (Z.mod_pos_bound k 64 ltac:(lia)) as Hm. set (g := content M (<[(l, k) := p]> pos) (S l) (k / 64)).
  destruct (write_slot h q (content M pos (S l) (k / 64)) g (k mod 64) p 1) as (h1 & E1 & E2 & E3); [apply (bu_node _ _ _ B _ _ _ Eq)|done|subst g; by rewrite content_parent, lookup_insert_eq|intros j Hj Hne; apply content_pos_insert; auto|rewrite content_parent, En; unfold nz; by rewrite (proj2 (Z.eqb_neq p 0) Hp)|].
  exists h1. eexists. split; [done|]. split; [done|]. split; [|split; [intros H0; by apply E3|intros z Hne; by rewrite lookup_insert_ne]]. assert (Hqp : q <> p) by (intros ->; by apply (Hu (S l, k / 64))). split.
  - intros l' k' p' E'. destruct (decide ((l', k') = (l, k))) as [[= -> ->]|Hne].
    + rewrite lookup_insert_eq in E'. injection E' as <-. rewrite lookup_insert_ne by done. rewrite Ez. f_equal. unfold zero_node, node_at. assert (Hz' : forall i, 0 <= i < 64 -> content M (<[(l, k):=p]> pos) l k i = 0) by (intros i Hi; rewrite content_pos_insert; [by apply Hz|left; intros [= ?]; lia|done]). destruct (nonzero_zero _ Hz') as [-> ->]. done.
    + rewrite lookup_insert_ne in E' by congruence. destruct (decide (p' = q)) as [->|Hq].
      * assert ((l', k') = (S l, k / 64)) as [= -> ->] by (apply (bu_inj _ _ _ B _ _ q); done). by rewrite lookup_insert_eq.
      * rewrite lookup_insert_ne by done. rewrite (bu_node _ _ _ B l' k' p' E'). f_equal. symmetry. apply node_ext. intros i Hi. apply content_pos_insert; [|done]. left. intros [= -> ->]. congruence.
  - intros x y r Ex Ey. destruct (decide (x = (l, k))) as [->|Hx], (decide (y = (l, k))) as [->|Hy]; rewrite ?lookup_insert_eq in Ex; rewrite ?lookup_insert_eq in Ey; rewrite ?lookup_insert_ne in Ex by done; rewrite ?lookup_insert_ne in Ey by done; [done| | |by apply (bu_inj _ _ _ B _ _ r)]; simplify_eq; exfalso; by eapply Hu.
Qed.

(** An empty node leaves its parent. *)
Lemma detach_node h M pos l k p q : built h M pos -> pos !! (S l, k / 64) = Some q -> pos !! (l, k) = Some p -> p <> 0 ->
  exists h1 h2, set_slot q (k mod 64) 0 h = Ret h1 /\ add_count q (-1) h1 = Ret h2 /\ built h2 M (delete (l, k) pos) /\ (forall z, z <> q -> h2 !! z = h !! z).
Proof.
  intros B Eq Ep Hp. pose proof (Z.mod_pos_bound k 64 ltac:(lia)) as Hm. set (g := content M (delete (l, k) pos) (S l) (k / 64)).
  destruct (write_slot h q (content M pos (S l) (k / 64)) g (k mod 64) 0 (-1)) as (h1 & E1 & E2 & _); [apply (bu_node _ _ _ B _ _ _ Eq)|done|subst g; by rewrite content_parent, lookup_delete_eq|intros j Hj Hne; apply content_pos_delete; auto|rewrite content_parent, Ep; cbn; unfold nz; by rewrite (proj2 (Z.eqb_neq p 0) Hp)|].
  exists h1. eexists. split; [done|]. split; [done|]. split; [|intros z Hne; by rewrite lookup_insert_ne]. split.
  - intros l' k' p' E'. apply lookup_delete_Some in E' as [Hne E']. destruct (decide (p' = q)) as [->|Hq].
    + assert ((l', k') = (S l, k / 64)) as [= -> ->] by (apply (bu_inj _ _ _ B _ _ q); done). by rewrite lookup_insert_eq.
    + rewrite lookup_insert_ne by done. rewrite (bu_node _ _ _ B l' k' p' E'). f_equal. symmetry. apply node_ext. intros i Hi. apply content_pos_delete; [|done]. left. intros [= -> ->]. congruence.
  - intros x y r [_ Ex]%lookup_delete_Some [_ Ey]%lookup_delete_Some. by apply (bu_inj _ _ _ B _ _ r).
Qed.

(** A value in a leaf: [v] is 0 to clear it. *)
Definition put_value (i v : Z) (M : contents) : contents := if v =? 0 then delete i M else <[i := v]> M.
Lemma put_value_eq i v M : default 0 (put_value i v M !! i) = v.
Proof. unfold put_value. destruct (v =? 0) eqn:E; reify_bools; [subst; by rewrite lookup_delete_eq|by rewrite lookup_insert_eq]. Qed.
Lemma put_value_ne i j v M : j <> i -> put_value i v M !! j = M !! j.
Proof. intros H. unfold put_value. destruct (v =? 0); [by rewrite lookup_delete_ne|by rewrite lookup_insert_ne]. Qed.
Lemma leaf_write h M pos i v q d : built h M pos -> pos !! (0%nat, i / 64) = Some q -> d = Z.b2z (nz v) - Z.b2z (nz (default 0 (M !! i))) ->
  exists h1 h2, set_slot q (i mod 64) v h = Ret h1 /\ add_count q d h1 = Ret h2 /\ built h2 (put_value i v M) pos /\ (d = 0 -> built h1 (put_value i v M) pos) /\ (nonzero (table (content M pos 0 (i / 64))) = 0 -> d = 1 -> set_count q 1 h1 = Ret h2) /\ (forall z, z <> q -> h2 !! z = h !! z /\ h1 !! z = h !! z).
Proof.
  intros B Eq Hd. pose proof (Z.mod_pos_bound i 64 ltac:(lia)) as Hm. set (M' := put_value i v M). assert (Ei : 64 * (i / 64) + i mod 64 = i) by (symmetry; apply Z.div_mod; lia). assert (Ev : content M' pos 0 (i / 64) (i mod 64) = v) by (cbn [content]; rewrite Ei; apply put_value_eq).
  assert (Ho : forall k' j, 0 <= j < 64 -> (k' <> i / 64 \/ j <> i mod 64) -> content M' pos 0 k' j = content M pos 0 k' j).
  { intros k' j Hj Hne. cbn [content]. subst M'. rewrite put_value_ne; [done|]. intros E. assert (k' = i / 64) by (apply (Z.div_unique _ 64 k' j); lia). assert (j = i mod 64) by (apply (Z.mod_unique _ 64 k' j); lia). tauto. }
  destruct (write_slot h q (content M pos 0 (i / 64)) (content M' pos 0 (i / 64)) (i mod 64) v d) as (h1 & E1 & E2 & E3); [apply (bu_node _ _ _ B _ _ _ Eq)|done|done|intros j Hj Hne; apply Ho; auto|cbn [content]; by rewrite Ei|].
  assert (HB : built (<[q := node_at M' pos 0 (i / 64)]> h) M' pos).
  { split; [|apply (bu_inj _ _ _ B)]. intros l' k' p' E'. destruct (decide (p' = q)) as [->|Hq].
    - assert ((l', k') = (0%nat, i / 64)) as [= -> ->] by (apply (bu_inj _ _ _ B _ _ q); done). by rewrite lookup_insert_eq.
    - rewrite lookup_insert_ne by done. rewrite (bu_node _ _ _ B l' k' p' E'). f_equal. symmetry. apply node_ext. intros j Hj. destruct l'; [|done]. apply Ho; [done|]. left. intros ->. congruence. }
  exists h1. eexists. split; [done|]. split; [done|]. split; [exact HB|]. split; [|split; [done|]].
  - intros ->. assert (h1 = <[q := node_at M' pos 0 (i / 64)]> h) as ->; [|done]. unfold set_slot in E1. rewrite (bu_node _ _ _ B _ _ _ Eq) in E1. cbn [deref] in E1. rewrite ret_bind in E1. apply bind_Ret in E1 as (l & El & E1). injection E1 as <-. erewrite add_count_at in E2 by (by rewrite lookup_insert_eq). cbn [slots count node_at] in *. rewrite Z.add_0_r, insert_insert_eq in E2. rewrite u8_id in E2 by (pose proof (nonzero_range (content M pos 0 (i / 64))); lia). by injection E2.
  - intros z Hz. rewrite lookup_insert_ne by done. split; [done|]. unfold set_slot in E1. rewrite (bu_node _ _ _ B _ _ _ Eq) in E1. cbn [deref] in E1. rewrite ret_bind in E1. apply bind_Ret in E1 as (l & El & E1). injection E1 as <-. by rewrite lookup_insert_ne.
Qed.
(** Memory that is not of the tree does not matter. *)
Lemma built_ext h h' M pos : (forall x p, pos !! x = Some p -> h' !! p = h !! p) -> built h M pos -> built h' M pos.
Proof. intros E [B I]. split; [|done]. intros l k p Ep. rewrite (E _ _ Ep). by apply B. Qed.

(** ** The shape of a tree *)

(** Levels below [H], for the contents [M]. *)
Record shape (M : contents) (H : nat) (pos : positions) : Prop := mk_shape {
  sh_keys : forall i v, M !! i = Some v -> 0 <= i < 2 ^ 64 /\ v <> 0;
  sh_dom : forall l k, is_Some (pos !! (l, k)) <-> (l < H)%nat /\ exists i, is_Some (M !! i) /\ up i (S l) = k;
  sh_fit : forall i, is_Some (M !! i) -> up i H = 0;
  sh_max : (H <= 11)%nat;
  sh_min : H = 0%nat /\ M = ∅ \/ M <> ∅ /\ (H = 1%nat \/ (1 < H)%nat /\ exists i, is_Some (M !! i) /\ up i (H - 1) <> 0) }.

Lemma shape_up M H pos i l l' : shape M H pos -> is_Some (pos !! (l, up i (S l))) -> (l <= l' < H)%nat -> is_Some (pos !! (l', up i (S l'))).
Proof.
  intros S Hl Hle. apply (sh_dom _ _ _ S) in Hl as [_ (j & Hj & E)]. apply (sh_dom _ _ _ S). split; [lia|]. exists j. split; [done|]. apply (up_eq j i (Datatypes.S l)); [done|lia].
Qed.
Lemma shape_top M H pos : shape M H pos -> (0 < H)%nat -> is_Some (pos !! ((H - 1)%nat, 0)).
Proof.
  intros S HH. apply (sh_dom _ _ _ S). split; [lia|]. destruct (sh_min _ _ _ S) as [[? _]|[Hne _]]; [lia|]. apply map_choose in Hne as (i & v & Ei). exists i. split; [by exists v|]. replace (Datatypes.S (H - 1)) with H by lia. apply (sh_fit _ _ _ S). by exists v.
Qed.
Lemma shape_leaf M H pos i v : shape M H pos -> M !! i = Some v -> is_Some (pos !! (0%nat, i / 64)).
Proof.
  intros S Ei. apply (sh_dom _ _ _ S). split; [|exists i; split; [by exists v|]; by rewrite up_S, up_0]. destruct (sh_min _ _ _ S) as [[_ ->]|[_ [?|[? _]]]]; [by rewrite lookup_empty in Ei|lia|lia].
Qed.
(** A position that is not there has nothing below it. *)
Lemma shape_below M H pos i l : shape M H pos -> (l < H)%nat -> pos !! (l, up i (S l)) = None -> (forall l' j, (l' <= l)%nat -> up j (S l) = up i (S l) -> pos !! (l', up j (S l')) = None) /\ (forall j, up j (S l) = up i (S l) -> M !! j = None).
Proof.
  intros S Hl E. assert (HM : forall j, up j (Datatypes.S l) = up i (Datatypes.S l) -> M !! j = None).
  { intros j Ej. destruct (M !! j) as [v|] eqn:Em; [|done]. assert (Hs : is_Some (pos !! (l, up i (Datatypes.S l)))) by (apply (sh_dom _ _ _ S); split; [done|]; exists j; split; [by exists v|done]). rewrite E in Hs. by destruct Hs. }
  split; [|done]. intros l' j Hle Ej. destruct (pos !! (l', up j (Datatypes.S l'))) as [p|] eqn:Ep; [|done]. exfalso. assert (Hs : is_Some (pos !! (l', up j (Datatypes.S l')))) by by exists p. apply (shape_up M H pos j l' l S) in Hs; [|lia]. rewrite Ej, E in Hs. by destruct Hs.
Qed.

Section Safe.
Variable managed : Z -> bool.
Variable deferred_free : bool.
Notation is_node := (radix_ptr_is_node managed).
Notation radix_node_free := (radix_node_free deferred_free).

(** The tree [t] holds the contents [M], with its nodes at [pos]. *)
Record holds (t : radix_tree) (M : contents) (pos : positions) : Prop := mk_holds {
  ho_height : height t = Z.of_nat (Z.to_nat (height t));
  ho_shape : shape M (Z.to_nat (height t)) pos;
  ho_built : built (heap t) M pos;
  ho_node : forall x p, pos !! x = Some p -> is_node p = true;
  ho_root : root t = match Z.to_nat (height t) with O => 0 | S h => default 0 (pos !! (h, 0)) end;
  ho_entries : entries t = u64 (Z.of_nat (size M));
  ho_nodes : nodes t = u64 (Z.of_nat (size pos));
  ho_size : Z.of_nat (size M) < 2 ^ 64 }.

Lemma is_node_zero : is_node 0 = false.
Proof. done. Qed.
Lemma is_node_nonzero p : is_node p = true -> p <> 0.
Proof. by intros H ->. Qed.

(** ** Walks *)

Definition closed (H : nat) (pos : positions) (i : Z) : Prop := forall l l', (l <= l' < H)%nat -> is_Some (pos !! (l, up i (S l))) -> is_Some (pos !! (l', up i (S l'))).
Lemma path_content M pos i l : content M pos (S l) (up i (S (S l))) (up i (S l) mod 64) = default 0 (pos !! (l, up i (S l))).
Proof. rewrite (up_S i (S l)). apply content_parent. Qed.

Lemma walk_ok h M pos H i : built h M pos -> closed H pos i -> (forall x p, pos !! x = Some p -> is_node p = true) -> (H <= 11)%nat -> forall l p, (l < H)%nat -> pos !! (l, up i (S l)) = Some p -> walk managed l i p h = Ret (pos !! (0%nat, up i 1)).
Proof.
  intros B C N H11. induction l as [|l IH]; intros p Hl Ep; cbn [walk]; [by rewrite Ep|]. rewrite slot_up, ret_bind by lia. rewrite (slot_at h M pos (S l) _ p _ B Ep) by (apply Z.mod_pos_bound; lia). rewrite ret_bind, path_content. destruct (pos !! (l, up i (S l))) as [q|] eqn:Eq; cbn [from_option id].
  - rewrite (N _ _ Eq). apply IH; [lia|done].
  - rewrite is_node_zero. destruct (pos !! (0%nat, up i 1)) as [q|] eqn:E0; [|done]. exfalso. destruct (C 0%nat l) as [r Er]; [lia|by exists q|]. congruence.
Qed.

Lemma holds_closed t M pos i : holds t M pos -> closed (Z.to_nat (height t)) pos i.
Proof. intros Ho l l' Hl Hs. by apply (shape_up M _ pos i l l' (ho_shape _ _ _ Ho)). Qed.
(** The height in one go: zero for the empty tree, or the root is a node. *)
Lemma holds_cases t M pos : holds t M pos -> height t = 0 /\ root t = 0 /\ M = ∅ /\ pos = ∅ \/
  exists h, height t = Z.of_nat (S h) /\ Z.to_nat (height t) = S h /\ (h <= 10)%nat /\ pos !! (h, 0) = Some (root t) /\ is_node (root t) = true /\ M <> ∅ /\ top_level t = h.
Proof.
  intros Ho. pose proof (ho_shape _ _ _ Ho) as Sh. pose proof (ho_root _ _ _ Ho) as Hr. pose proof (ho_height _ _ _ Ho) as Hh. destruct (Z.to_nat (height t)) as [|h] eqn:E.
  - left. split; [lia|]. split; [done|]. split; [destruct (sh_min _ _ _ Sh) as [[_ ?]|[_ [?|[? _]]]]; [done|lia|lia]|]. apply map_eq. intros [l k]. rewrite lookup_empty. destruct (pos !! (l, k)) eqn:Ep; [|done]. exfalso. assert (Hs : is_Some (pos !! (l, k))) by by eexists. apply (sh_dom _ _ _ Sh) in Hs as [? _]. lia.
  - right. exists h. pose proof (shape_top _ _ _ Sh ltac:(lia)) as Ht. replace (S h - 1)%nat with h in Ht by lia. destruct Ht as [p Ep]. rewrite Ep in Hr. cbn in Hr. pose proof (sh_max _ _ _ Sh). split; [lia|]. split; [done|]. split; [lia|]. split; [congruence|]. split; [rewrite Hr; by apply (ho_node _ _ _ Ho _ _ Ep)|].
    split; [destruct (sh_min _ _ _ Sh) as [[? _]|[? _]]; [lia|done]|]. unfold top_level. rewrite u8_id by lia. lia.
Qed.
Lemma height_fits t M pos i : holds t M pos -> 0 <= i < 2 ^ 64 -> (0 < Z.to_nat (height t))%nat -> (radix_required_height i >? height t) = negb (bool_decide (up i (Z.to_nat (height t)) = 0)).
Proof.
  intros Ho Hi HH. destruct (needed_spec i Hi) as (-> & _). rewrite (ho_height _ _ _ Ho). rewrite Z.gtb_ltb. pose proof (needed_le i (Z.to_nat (height t)) Hi ltac:(lia)) as Hn. rewrite Nat2Z.id. case_bool_decide as E; cbn [negb]; [apply Z.ltb_ge; apply Hn in E; lia|]. apply Z.ltb_lt. destruct (decide (needed i <= Z.to_nat (height t))%nat) as [Hle|]; [by apply Hn in Hle|lia].
Qed.

Lemma find_leaf_ok t M pos i : holds t M pos -> 0 <= i < 2 ^ 64 -> find_leaf managed t i = Ret (pos !! (0%nat, i / 64)).
Proof.
  intros Ho Hi. unfold find_leaf. destruct (holds_cases t M pos Ho) as [(Hh & Hr & -> & ->)|(h & Hh & Eh & Hh10 & Er & Hn & Hne & Et)].
  - rewrite Hr, is_node_zero. cbn [negb orb]. by rewrite lookup_empty.
  - rewrite Hn. cbn [negb orb]. rewrite (height_fits t M pos i Ho Hi) by lia. rewrite Eh. case_bool_decide as E; cbn [negb].
    + rewrite Et. rewrite (walk_ok (heap t) M pos (S h) i (ho_built _ _ _ Ho)); [by rewrite up_S, up_0|rewrite <- Eh; by apply (holds_closed t M)|apply (ho_node _ _ _ Ho)|lia|lia|by rewrite E].
    + destruct (pos !! (0%nat, i / 64)) as [p|] eqn:Ep; [|done]. exfalso. apply E. assert (Hs : is_Some (pos !! (0%nat, i / 64))) by by exists p. pose proof (ho_shape _ _ _ Ho) as Sh. rewrite Eh in Sh. apply (sh_dom _ _ _ Sh) in Hs as [_ (j & Hj & Ej)]. rewrite <- (sh_fit _ _ _ Sh j Hj). symmetry. apply (up_eq j i 1); [by rewrite Ej, up_S, up_0|lia].
Qed.
Lemma leaf_content M pos i : content M pos 0 (i / 64) (i mod 64) = default 0 (M !! i).
Proof. cbn [content]. by rewrite <- (Z.div_mod i 64) by lia. Qed.
Lemma slot_leaf i : radix_slot i 0 = Ret (i mod 64).
Proof. apply (slot_up i 0). lia. Qed.
Lemma lookup_ok t M pos i : holds t M pos -> 0 <= i < 2 ^ 64 -> radix_lookup_locked managed t i = Ret (default 0 (M !! i)).
Proof.
  intros Ho Hi. unfold radix_lookup_locked. rewrite (find_leaf_ok t M pos i Ho Hi), ret_bind. destruct (pos !! (0%nat, i / 64)) as [p|] eqn:Ep.
  - rewrite slot_leaf, ret_bind, (slot_at _ M pos 0 _ p _ (ho_built _ _ _ Ho) Ep) by (apply Z.mod_pos_bound; lia). by rewrite leaf_content.
  - destruct (M !! i) as [v|] eqn:Em; [|done]. destruct (shape_leaf _ _ _ _ _ (ho_shape _ _ _ Ho) Em). congruence.
Qed.

End Safe.
End RadixSafe.
