(* ===== verification/RadixInsert.v ===== *)
(** RadixInsert: insertion and replacement in the radix tree keep its canonical form. *)

From S2P Require Import Prelude RadixTree RadixSafe.
From stdpp Require Import list_relations.
#[local] Open Scope Z_scope.

Module RadixInsert.
Import RadixTree RadixSafe.

Section Insert.
Variable managed : Z -> bool.
Variable deferred_free : bool.
Notation is_node := (radix_ptr_is_node managed).
Notation holds := (holds managed).

(** ** A branch of new nodes *)

(** The positions of new nodes below level [l] on the way to [i]. *)
Fixpoint chain_pos (i : Z) (l : nat) (fresh : list Z) (pos : positions) : positions :=
  match fresh, l with p :: fresh, S l => chain_pos i l fresh (<[(l, up i (S l)) := p]> pos) | _, _ => pos end.
(** Nothing below the node at level [l] on the way to [i]. *)
Definition bare (M : contents) (pos : positions) (i : Z) (l : nat) : Prop :=
  (forall l' j, (l' < l)%nat -> up j (S l) = up i (S l) -> pos !! (l', up j (S l')) = None) /\ (forall j, up j (S l) = up i (S l) -> M !! j = None).
(** Memory the allocator handed out. *)
Definition handed (h : memory) (pos : positions) (fresh : list Z) : Prop := NoDup fresh /\ (forall p, p ∈ fresh -> unused pos p /\ is_node p = true /\ h !! p = Some zero_node).

Lemma up_app i a b : up (up i a) b = up i (a + b).
Proof. unfold up. rewrite Z.shiftr_shiftr by lia. f_equal. lia. Qed.
(** Every prefix is that of some index. *)
Lemma up_inv k l : up (Z.shiftl k (6 * Z.of_nat l)) l = k.
Proof. unfold up. rewrite Z.shiftr_shiftl_l, Z.sub_diag by lia. apply Z.shiftl_0_r. Qed.
Lemma up_pred j k s l : up j (S l) = 64 * k + s -> 0 <= s < 64 -> up j (S (S l)) = k.
Proof. intros E Hs. rewrite up_S, E. symmetry. apply (Z.div_unique _ 64 k s); lia. Qed.

Lemma bare_content M pos i l s : bare M pos i l -> 0 <= s < 64 -> content M pos l (up i (S l)) s = 0.
Proof.
  intros [Hp HM] Hs. destruct l as [|l]; cbn [content].
  - rewrite HM; [done|]. rewrite up_S, up_0. symmetry. apply (Z.div_unique _ 64 _ s); [lia|done].
  - set (k := 64 * up i (S (S l)) + s). assert (Ej : up (Z.shiftl k (6 * Z.of_nat (S l))) (S l) = k) by apply up_inv. rewrite <- Ej. rewrite Hp; [done|lia|]. by apply (up_pred _ _ s).
Qed.
Lemma bare_attach M pos i l p : bare M pos i (S l) -> bare M (<[(l, up i (S l)) := p]> pos) i l.
Proof.
  intros [Hp HM]. split.
  - intros l' j Hl Ej. rewrite lookup_insert_ne by (intros [= ? ?]; lia). apply Hp; [lia|]. by rewrite !(up_S _ (S l)), Ej.
  - intros j Ej. apply HM. by rewrite !(up_S _ (S l)), Ej.
Qed.

Lemma set_count_one h q : set_count q 1 h = set_count q (0 + 1) h.
Proof. done. Qed.
Lemma link_branch_ok i v : v <> 0 -> forall l p rest h M pos, (l <= 10)%nat -> length rest = l -> built h M pos -> pos !! (l, up i (S l)) = Some p -> bare M pos i l -> handed h pos rest ->
  exists h', link_branch (Z.of_nat l) i v (p :: rest) h = Ret h' /\ built h' (<[i := v]> M) (chain_pos i l rest pos) /\ (forall z, z ∉ p :: rest -> h' !! z = h !! z).
Proof.
  intros Hv. induction l as [|l IH]; intros p rest h M pos Hl Hlen B Ep Hb [Hnd Hf].
  - destruct rest; [|done]. cbn [link_branch chain_pos]. rewrite slot_leaf, ret_bind. assert (Em : M !! i = None) by (apply Hb; done). rewrite up_S, up_0 in Ep.
    destruct (leaf_write h M pos i v p 1) as (h1 & h2 & E1 & _ & B2 & _ & E3 & O); [done|done|rewrite Em; unfold nz; by rewrite (proj2 (Z.eqb_neq v 0) Hv)|]. rewrite E1, ret_bind. exists h2. split; [|split].
    + apply E3; [|done]. apply nonzero_zero. intros s Hs. pose proof (bare_content M pos i 0 s Hb Hs) as E. by rewrite up_S, up_0 in E.
    + unfold put_value in B2. by rewrite (proj2 (Z.eqb_neq v 0) Hv) in B2.
    + intros z Hz. apply O. intros ->. apply Hz. left.
  - destruct rest as [|c rest]; [done|]. cbn [link_branch chain_pos]. rewrite slot_up, ret_bind by lia. destruct (Hf c ltac:(left)) as (Hu & Hc & Ec). apply NoDup_cons in Hnd as [Hnc Hnd].
    assert (Eq : pos !! (S l, up i (S l) / 64) = Some p) by (by rewrite <- up_S). destruct (attach_node h M pos l (up i (S l)) c p) as (h1 & h2 & E1 & _ & B2 & E3 & O); [done|done|apply Hb; [lia|done]|done|by apply is_node_nonzero in Hc|done| |].
    { intros s Hs. apply (bare_content M (<[(l, up i (S l)) := c]> pos) i l s) in Hs as E; [|by apply bare_attach]. destruct l; cbn [content] in *; [done|]. rewrite lookup_insert_ne in E by (intros [= ? ?]; lia). done. }
    rewrite E1, ret_bind, E3, ret_bind; [|apply nonzero_zero; intros s Hs; rewrite <- up_S; by apply bare_content]. replace (Z.of_nat (S l) - 1) with (Z.of_nat l) by lia.
    assert (Hpf : p ∉ c :: rest) by (intros Hin; destruct (Hf p Hin) as (Hu' & _); by apply (Hu' (S l, up i (S (S l))))).
    destruct (IH c rest h2 M (<[(l, up i (S l)) := c]> pos)) as (h' & E' & B' & O'); [lia|by injection Hlen|done|by rewrite lookup_insert_eq|by apply bare_attach| |].
    + split; [done|]. intros q Hq. destruct (Hf q ltac:(by right)) as (Hu' & Hq' & Eq'). split; [|split; [done|]].
      * intros x. destruct (decide (x = (l, up i (S l)))) as [->|Hx]; [rewrite lookup_insert_eq; intros [= ->]; done|rewrite lookup_insert_ne by done; apply Hu'].
      * rewrite O; [done|]. intros ->. apply Hpf. by right.
    + exists h'. split; [done|]. split; [done|]. intros z Hz. rewrite O'; [apply O; intros ->; apply Hz; left|]. intros Hin. apply Hz. by right.
Qed.

Lemma chain_dom i : forall fresh l pos l' k, length fresh = l -> is_Some (chain_pos i l fresh pos !! (l', k)) <-> is_Some (pos !! (l', k)) \/ (l' < l)%nat /\ k = up i (S l').
Proof.
  induction fresh as [|p fresh IH]; intros l pos l' k Hl; destruct l as [|l]; try done; cbn [chain_pos].
  - split; [by left|]. intros [?|[? _]]; [done|lia].
  - rewrite (IH l) by (by injection Hl). destruct (decide ((l', k) = (l, up i (S l)))) as [[= -> ->]|Hne]; [rewrite lookup_insert_eq; split; [intros _; right; split; [lia|done]|intros _; left; by eexists]|].
    rewrite lookup_insert_ne by congruence. split; (intros [?|[? ->]]; [by left|]); [right; split; [lia|done]|]. destruct (decide (l' = l)) as [->|?]; [done|]. right. split; [lia|done].
Qed.
Lemma chain_above i : forall fresh l pos l' k, (l <= l')%nat -> chain_pos i l fresh pos !! (l', k) = pos !! (l', k).
Proof. induction fresh as [|p fresh IH]; intros l pos l' k Hl; destruct l as [|l]; cbn [chain_pos]; try done. rewrite IH by lia. by rewrite lookup_insert_ne by (intros [= ? ?]; lia). Qed.
Lemma chain_size i : forall fresh l pos, length fresh = l -> (forall l', (l' < l)%nat -> pos !! (l', up i (S l')) = None) -> size (chain_pos i l fresh pos) = (size pos + l)%nat.
Proof.
  induction fresh as [|p fresh IH]; intros l pos Hl Hn; destruct l as [|l]; try done; cbn [chain_pos]. rewrite (IH l); [|by injection Hl|intros l' Hl'; rewrite lookup_insert_ne by (intros [= ? ?]; lia); apply Hn; lia]. rewrite map_size_insert_None by (apply Hn; lia). lia.
Qed.
Lemma chain_nodes i : forall fresh l pos x p, chain_pos i l fresh pos !! x = Some p -> pos !! x = Some p \/ p ∈ fresh.
Proof.
  induction fresh as [|q fresh IH]; intros l pos x p; destruct l as [|l]; cbn [chain_pos]; auto. intros E. apply IH in E as [E|E]; [|right; by right]. destruct (decide (x = (l, up i (S l)))) as [->|Hx]; [rewrite lookup_insert_eq in E; injection E as ->; right; left|rewrite lookup_insert_ne in E by done; by left].
Qed.

(** ** New nodes above the root *)

Fixpoint wrap_pos (top : nat) (ws : list Z) (pos : positions) : positions := match ws with [] => pos | p :: ws => <[(top, 0) := p]> (wrap_pos (top - 1) ws pos) end.
Lemma wrap_dom H : forall ws top pos l k, (S top = H + length ws)%nat -> is_Some (wrap_pos top ws pos !! (l, k)) <-> is_Some (pos !! (l, k)) \/ (H <= l <= top)%nat /\ ws <> [] /\ k = 0.
Proof.
  induction ws as [|p ws IH]; intros top pos l k Ht; cbn [wrap_pos length] in *; [split; [by left|]; intros [?|(_ & ? & _)]; done|]. destruct (decide ((l, k) = (top, 0))) as [[= -> ->]|Hne]; [rewrite lookup_insert_eq; split; [intros _; right; split; [lia|done]|by eexists]|].
  rewrite lookup_insert_ne by congruence. destruct ws as [|w ws].
  - cbn [wrap_pos]. cbn in Ht. split; [by left|]. intros [?|(? & _ & ->)]; [done|]. exfalso. apply Hne. f_equal. lia.
  - rewrite IH by (cbn in *; lia). split; (intros [?|(? & ? & ->)]; [by left|]); right; (split; [|done]); [lia|]. destruct (decide (l = top)) as [->|]; [done|]. lia.
Qed.
Lemma wrap_nodes : forall ws top pos x p, wrap_pos top ws pos !! x = Some p -> pos !! x = Some p \/ p ∈ ws.
Proof. induction ws as [|q ws IH]; intros top pos x p; cbn [wrap_pos]; auto. destruct (decide (x = (top, 0))) as [->|Hx]; [rewrite lookup_insert_eq; intros [= ->]; right; left|rewrite lookup_insert_ne by done; intros E; apply IH in E as [?|?]; [by left|right; by right]]. Qed.
Lemma wrap_size H : forall ws top pos, (S top = H + length ws)%nat -> (forall l k, is_Some (pos !! (l, k)) -> (l < H)%nat) -> size (wrap_pos top ws pos) = (size pos + length ws)%nat.
Proof.
  induction ws as [|p ws IH]; intros top pos Ht Hp; cbn [wrap_pos length] in *; [lia|]. destruct (wrap_pos (top - 1) ws pos !! (top, 0)) as [q|] eqn:E.
  - exfalso. destruct ws as [|w ws]; [cbn in *; assert (Hs : is_Some (pos !! (top, 0))) by (by exists q); apply Hp in Hs; lia|]. assert (Hs : is_Some (wrap_pos (top - 1) (w :: ws) pos !! (top, 0))) by by exists q. apply (wrap_dom H) in Hs as [Hs|[Hs _]]; [apply Hp in Hs; cbn in *; lia|cbn in *; lia|cbn in *; lia].
  - rewrite map_size_insert_None by done. destruct ws as [|w ws]; [cbn; lia|]. rewrite IH; [cbn; lia|cbn in *; lia|done].
Qed.

Lemma wrappers_ok H : (1 <= H)%nat -> forall ws top h M pos r, (S top = H + length ws)%nat -> built h M pos -> handed h pos ws -> pos !! ((H - 1)%nat, 0) = Some r -> r <> 0 -> (forall l k, is_Some (pos !! (l, k)) -> (l < H)%nat /\ (l = (H - 1)%nat -> k = 0)) ->
  exists h', link_wrappers r ws h = Ret h' /\ built h' M (wrap_pos top ws pos) /\ (forall z, z ∉ ws -> h' !! z = h !! z).
Proof.
  intros HH. induction ws as [|p ws IH]; intros top h M pos r Ht B [Hnd Hf] Er Hr Hp; cbn [link_wrappers wrap_pos]; [by exists h|]. destruct (Hf p ltac:(left)) as (Hu & Hp' & Ep). apply NoDup_cons in Hnd as [Hnp Hnd].
  set (next := match ws with [] => r | c :: _ => c end). set (f := fun s => if s =? 0 then next else 0). assert (Hnx : next <> 0) by (subst next; destruct ws as [|c ws]; [done|]; destruct (Hf c ltac:(right; left)) as (_ & Hc & _); by apply is_node_nonzero in Hc).
  destruct (write_slot h p (fun _ => 0) f 0 next 1) as (h1 & E1 & _ & E3); [by rewrite Ep|lia|done|intros s Hs Hne; subst f; cbn; by rewrite (proj2 (Z.eqb_neq s 0) Hne)|unfold nz; by rewrite (proj2 (Z.eqb_neq next 0) Hnx)|]. rewrite E1, ret_bind, E3, ret_bind; [|done|done]. set (h2 := <[p := _]> h).
  assert (Ho : forall z, z <> p -> h2 !! z = h !! z) by (intros z Hz; subst h2; by rewrite lookup_insert_ne). assert (B2 : built h2 M pos) by (apply (built_ext h); [|done]; intros x q Eq; apply Ho; intros ->; by apply (Hu x)).
  assert (Hrest : exists h', link_wrappers r ws h2 = Ret h' /\ built h' M (wrap_pos (top - 1) ws pos) /\ (forall z, z ∉ ws -> h' !! z = h2 !! z)).
  { destruct ws as [|c ws]; [by exists h2|]. apply (IH (top - 1)%nat h2 M pos r); [cbn in *; lia|done| |done|done|done]. split; [done|]. intros q Hq. destruct (Hf q ltac:(by right)) as (? & ? & ?). split; [done|]. split; [done|]. rewrite Ho; [done|]. by intros ->. }
  destruct Hrest as (h' & E' & B' & O'). exists h'. split; [done|]. set (wp := wrap_pos (top - 1) ws pos) in *. assert (Hlow : forall l k, is_Some (wp !! (l, k)) -> (l < top)%nat /\ (l = (top - 1)%nat -> k = 0)).
  { intros l k Hs. subst wp. destruct ws as [|c ws]; [cbn in *; apply Hp in Hs; replace (top - 1)%nat with (H - 1)%nat by lia; split; [lia|tauto]|]. apply (wrap_dom H) in Hs as [Hs|(Hs & _ & ->)]; [|split; [cbn in *; lia|done]|cbn in *; lia]. apply Hp in Hs as [Hs _]. split; cbn in *; lia. }
  assert (Hnext : wp !! ((top - 1)%nat, 0) = Some next). { subst wp next. destruct ws as [|c ws]; [cbn in *; by replace (top - 1)%nat with (H - 1)%nat by lia|]. cbn [wrap_pos]. by rewrite lookup_insert_eq. }
  assert (Htop : top = S (top - 1)) by (cbn in Ht; lia). split; [split|].
  - intros l k q Eq. destruct (decide ((l, k) = (top, 0))) as [[= -> ->]|Hne].
    + rewrite lookup_insert_eq in Eq. injection Eq as <-. rewrite O' by done. subst h2. rewrite lookup_insert_eq. f_equal. unfold node_at. assert (Et : table f = table (content M (<[(top, 0):=p]> wp) top 0)).
      { apply table_ext. intros s Hs. rewrite Htop at 2. cbn [content]. rewrite lookup_insert_ne by (intros [= ? ?]; lia). subst f. cbn beta. destruct (s =? 0) eqn:E0; reify_bools; [subst s; by rewrite Z.mul_0_r, Z.add_0_l, Hnext|]. destruct (wp !! ((top - 1)%nat, 64 * 0 + s)) as [z|] eqn:Ez; [|done]. exfalso. assert (Hs' : is_Some (wp !! ((top - 1)%nat, 64 * 0 + s))) by by exists z. apply Hlow in Hs' as [_ Hk]. specialize (Hk eq_refl). lia. }
      by rewrite Et.
    + rewrite lookup_insert_ne in Eq by congruence. rewrite (bu_node _ _ _ B' l k q Eq). f_equal. apply node_ext. intros s Hs. symmetry. destruct l as [|l]; cbn [content]; [done|]. rewrite lookup_insert_ne; [done|]. intros [= <- _]. assert (Hs' : is_Some (wp !! (S top, k))) by by exists q. apply Hlow in Hs'. lia.
  - assert (Hup : forall x, wp !! x <> Some p). { intros x E. apply wrap_nodes in E as [E|E]; [by apply (Hu x)|done]. }
    intros x y q Ex Ey. destruct (decide (x = (top, 0))) as [->|Hx], (decide (y = (top, 0))) as [->|Hy]; rewrite ?lookup_insert_eq in Ex; rewrite ?lookup_insert_eq in Ey; rewrite ?lookup_insert_ne in Ex by done; rewrite ?lookup_insert_ne in Ey by done; [done| | |by apply (bu_inj _ _ _ B' _ _ q)]; simplify_eq; exfalso; by eapply Hup.
  - intros z Hz. rewrite O'; [apply Ho; intros ->; apply Hz; left|]. intros Hin. apply Hz. by right.
Qed.

(** ** Allocation *)

Definition zeroed (ps : list Z) (h : memory) : memory := foldl (fun h p => <[p := zero_node]> h) h ps.
Lemma zeroed_in ps : forall h p, p ∈ ps -> zeroed ps h !! p = Some zero_node.
Proof.
  unfold zeroed. induction ps as [|q ps IH] using rev_ind; intros h p; [by intros []%elem_of_nil|]. rewrite foldl_snoc. destruct (decide (p = q)) as [->|Hne]; [by rewrite lookup_insert_eq|]. rewrite lookup_insert_ne by done. intros [Hin|Hin%list_elem_of_singleton]%elem_of_app; [by apply IH|done].
Qed.
Lemma zeroed_out ps : forall h p, p ∉ ps -> zeroed ps h !! p = h !! p.
Proof. unfold zeroed. induction ps as [|q ps IH]; intros h p Hp; [done|]. cbn [foldl]. apply not_elem_of_cons in Hp as [Hq Hp]. rewrite IH by done. by rewrite lookup_insert_ne. Qed.
Lemma alloc_enough total : forall supply fresh t, (total <= length supply)%nat -> alloc_nodes deferred_free total supply fresh t = (Some (fresh ++ take total supply), set_heap (zeroed (take total supply) (heap t)) t).
Proof.
  induction total as [|total IH]; intros supply fresh t Hl; cbn [alloc_nodes]; [rewrite take_0, app_nil_r; by destruct t|]. destruct supply as [|p supply]; [cbn in Hl; lia|]. rewrite IH by (cbn in Hl; lia). rewrite <- (assoc_L (++)). done.
Qed.
Lemma alloc_short total : forall supply fresh t, (length supply < total)%nat -> alloc_nodes deferred_free total supply fresh t = (None, radix_free_allocated deferred_free (fresh ++ supply) (set_heap (zeroed supply (heap t)) t)).
Proof.
  induction total as [|total IH]; intros supply fresh t Hl; cbn [alloc_nodes]; [lia|]. destruct supply as [|p supply]; [rewrite app_nil_r; by destruct t|]. rewrite IH by (cbn in Hl; lia). rewrite <- (assoc_L (++)). done.
Qed.
(** Releasing new nodes leaves the tree alone. *)
Lemma free_allocated_ok ps : forall t, let t' := radix_free_allocated deferred_free ps t in
  root t' = root t /\ entries t' = entries t /\ nodes t' = nodes t /\ height t' = height t /\ seq_ t' = seq_ t /\ (forall z, z ∉ ps -> heap t' !! z = heap t !! z) /\ (deferred_free = false -> forall z, z ∈ ps -> heap t' !! z = None).
Proof.
  induction ps as [|p ps IH]; intros t; cbn [radix_free_allocated]; [do 6 (split; [done|]); intros _ z []%elem_of_nil|]. destruct (IH t) as (E1 & E2 & E3 & E4 & E5 & E6 & E7). unfold radix_node_free. destruct deferred_free; cbn [root entries nodes height seq_ heap set_retired set_heap]; do 5 (split; [done|]).
  - split; [|done]. intros z Hz. apply E6. intros Hin. apply Hz. by right.
  - split.
    + intros z Hz. apply not_elem_of_cons in Hz as [Hz1 Hz2]. rewrite lookup_delete_ne by done. by apply E6.
    + intros _ z Hz. destruct (decide (z = p)) as [->|Hne]; [by rewrite lookup_delete_eq|]. rewrite lookup_delete_ne by done. apply E7; [done|]. by apply elem_of_cons in Hz as [?|?].
Qed.
Lemma free_allocated_retired ps t : retired (radix_free_allocated deferred_free ps t) = if deferred_free then ps ++ retired t else retired t.
Proof. induction ps as [|p ps IH]; cbn [radix_free_allocated app]; [by destruct deferred_free|]. unfold radix_node_free. by destruct deferred_free; cbn [retired set_retired set_heap]; rewrite IH. Qed.
(** What an allocation that falls short has taken is free again, or waits for its grace
    period. *)
Definition given_back (t : radix_tree) (supply : list Z) (t' : radix_tree) : Prop := if deferred_free then retired t' = supply ++ retired t else heap t' = heap t.
Lemma short_given_back t supply : (forall p, p ∈ supply -> heap t !! p = None) -> given_back t supply (bump (radix_free_allocated deferred_free supply (set_heap (zeroed supply (heap t)) t))).
Proof.
  intros Hs. unfold given_back. destruct (free_allocated_ok supply (set_heap (zeroed supply (heap t)) t)) as (_ & _ & _ & _ & _ & F6 & F7). pose proof (free_allocated_retired supply (set_heap (zeroed supply (heap t)) t)) as R. destruct deferred_free; [exact R|]. apply map_eq. intros z. cbn [heap bump set_heap] in *. destruct (decide (z ∈ supply)) as [Hin|Hn]; [by rewrite F7, Hs|rewrite F6 by done; by apply zeroed_out].
Qed.

(** ** Where a new branch goes *)

Lemma find_attach_ok h M pos H i : built h M pos -> (forall x p, pos !! x = Some p -> is_node p = true) -> (H <= 11)%nat -> forall l p, (l < H)%nat -> pos !! (l, up i (S l)) = Some p ->
  (exists leaf, find_attach managed l i p h = Ret (None, leaf) /\ pos !! (0%nat, up i 1) = Some leaf) \/
  (exists a q z, find_attach managed l i p h = Ret (Some (q, up i (S a) mod 64, S a), z) /\ (S a <= l)%nat /\ pos !! (S a, up i (S (S a))) = Some q /\ pos !! (a, up i (S a)) = None).
Proof.
  intros B N H11. induction l as [|l IH]; intros p Hl Ep; cbn [find_attach]; [left; by exists p|]. rewrite slot_up, ret_bind by lia. rewrite (slot_at h M pos (S l) _ p _ B Ep) by (apply Z.mod_pos_bound; lia). rewrite ret_bind, path_content. destruct (pos !! (l, up i (S l))) as [q|] eqn:Eq; cbn [from_option id].
  - rewrite (N _ _ Eq). destruct (IH q) as [?|(a & q' & z & E & Ha & ?)]; [lia|done|by left|]. right. exists a, q', z. split; [done|]. split; [lia|done].
  - rewrite is_node_zero. right. exists l, p, p. done.
Qed.

Lemma shape_insert M H pos i v H' pos' : shape M H pos -> 0 <= i < 2 ^ 64 -> v <> 0 -> H' = Nat.max H (needed i) ->
  (forall l k, is_Some (pos' !! (l, k)) <-> is_Some (pos !! (l, k)) \/ (l < H')%nat /\ k = up i (S l) \/ M <> ∅ /\ (H <= l < H')%nat /\ k = 0) -> shape (<[i := v]> M) H' pos'.
Proof.
  intros S Hi Hv -> HD. destruct (needed_spec i Hi) as (_ & Hr & E0 & Hm). set (H' := Nat.max H (needed i)) in *.
  assert (Hfit : forall j, is_Some (<[i := v]> M !! j) -> up j H' = 0). { intros j Hj. destruct (decide (j = i)) as [->|Hne]; [apply (up_zero i (needed i)); [done|lia]|]. rewrite lookup_insert_ne in Hj by done. apply (up_zero j H); [by apply (sh_fit _ _ _ S)|lia]. }
  split.
  - intros j w Ej. destruct (decide (j = i)) as [->|Hne]; [rewrite lookup_insert_eq in Ej; by injection Ej as <-|rewrite lookup_insert_ne in Ej by done; by apply (sh_keys _ _ _ S j)].
  - intros l k. rewrite HD. split.
    + intros [Hs|[[Hl ->]|(Hne & Hl & ->)]].
      * apply (sh_dom _ _ _ S) in Hs as [Hl (j & Hj & Ej)]. split; [lia|]. exists j. split; [|done]. destruct (decide (j = i)) as [->|?]; [rewrite lookup_insert_eq; by eexists|by rewrite lookup_insert_ne].
      * split; [done|]. exists i. split; [rewrite lookup_insert_eq; by eexists|done].
      * split; [lia|]. apply map_choose in Hne as (j & w & Ej). exists j. split; [destruct (decide (j = i)) as [->|?]; [rewrite lookup_insert_eq; by eexists|rewrite lookup_insert_ne by done; by exists w]|]. apply (up_zero j H); [apply (sh_fit _ _ _ S); by exists w|lia].
    + intros [Hl (j & Hj & Ej)]. destruct (decide (j = i)) as [->|Hne]; [right; left; done|]. rewrite lookup_insert_ne in Hj by done. destruct (decide (l < H)%nat); [left; apply (sh_dom _ _ _ S); split; [done|]; by exists j|]. right. right. split; [intros ->; rewrite lookup_empty in Hj; by destruct Hj|]. split; [lia|]. rewrite <- Ej. apply (up_zero j H); [by apply (sh_fit _ _ _ S)|lia].
  - done.
  - pose proof (sh_max _ _ _ S). lia.
  - right. split; [apply insert_non_empty|]. destruct (decide (H' = 1)%nat) as [?|Hne]; [by left|]. right. split; [lia|]. destruct (decide (needed i <= H)%nat) as [Hle|Hlt].
    + replace H' with H in * by lia. destruct (sh_min _ _ _ S) as [[? _]|[_ [?|[_ (j & Hj & Ej)]]]]; [lia|lia|]. exists j. split; [|done]. destruct (decide (j = i)) as [->|?]; [rewrite lookup_insert_eq; by eexists|by rewrite lookup_insert_ne].
    + replace H' with (needed i) in * by lia. destruct Hm as [?|Hm]; [lia|]. exists i. split; [rewrite lookup_insert_eq; by eexists|done].
Qed.

(** ** The three ways to link *)

Definition supplied (t : radix_tree) (supply : list Z) : Prop := NoDup supply /\ (forall p, p ∈ supply -> is_node p = true /\ heap t !! p = None).
Lemma supplied_handed t M pos supply n : holds t M pos -> supplied t supply -> handed (zeroed (take n supply) (heap t)) pos (take n supply).
Proof.
  intros Ho [Hnd Hs]. split; [apply (sublist_NoDup _ supply); [done|apply sublist_take]|]. intros p Hp. assert (Hin : p ∈ supply) by (rewrite <- (take_drop n supply); apply elem_of_app; by left). destruct (Hs p Hin) as [Hn Hh]. split; [|split; [done|by apply zeroed_in]]. intros [l k] Ex. pose proof (bu_node _ _ _ (ho_built _ _ _ _ Ho) l k p Ex). congruence.
Qed.
Lemma zeroed_built t M pos supply n : holds t M pos -> supplied t supply -> built (zeroed (take n supply) (heap t)) M pos.
Proof.
  intros Ho Hs. apply (built_ext (heap t)); [|apply (ho_built _ _ _ _ Ho)]. intros x p Ex. apply zeroed_out. intros Hin. destruct (supplied_handed t M pos supply n Ho Hs) as [_ Hh]. by destruct (Hh p Hin) as [Hu _]; apply (Hu x).
Qed.
(** What one insertion makes of the tree, before the counters. *)
Definition linked (t : radix_tree) (M : contents) (pos : positions) (i v : Z) (fresh : list Z) (t' : radix_tree) (pos' : positions) : Prop :=
  height t' = Z.of_nat (Z.to_nat (height t')) /\ shape (<[i := v]> M) (Z.to_nat (height t')) pos' /\ built (heap t') (<[i := v]> M) pos' /\ (forall x p, pos' !! x = Some p -> pos !! x = Some p \/ p ∈ fresh) /\
  root t' = match Z.to_nat (height t') with O => 0 | S h => default 0 (pos' !! (h, 0)) end /\ size pos' = (size pos + length fresh)%nat /\ entries t' = entries t /\ nodes t' = nodes t /\ seq_ t' = seq_ t /\ (forall z, unused pos z -> z ∉ fresh -> heap t' !! z = heap t !! z).

Lemma radix_attach_ok t M pos i v supply a q : holds t M pos -> 0 <= i < 2 ^ 64 -> v <> 0 -> supplied t supply -> up i (Z.to_nat (height t)) = 0 -> (S a < Z.to_nat (height t))%nat -> pos !! (S a, up i (S (S a))) = Some q -> pos !! (a, up i (S a)) = None -> (S a <= length supply)%nat ->
  exists t' pos', link_plan (Attach q (up i (S a) mod 64) (S a)) i v (take (S a) supply) (set_heap (zeroed (take (S a) supply) (heap t)) t) = Ret t' /\ linked t M pos i v (take (S a) supply) t' pos'.
Proof.
  intros Ho Hi Hv Hs Hfit Ha Eq En Hlen. pose proof (supplied_handed t M pos supply (S a) Ho Hs) as [Hnd Hh]. pose proof (zeroed_built t M pos supply (S a) Ho Hs) as B. assert (Hl : length (take (S a) supply) = S a) by (rewrite length_take; lia). set (fresh := take (S a) supply) in *. set (h := zeroed fresh (heap t)) in *. destruct fresh as [|p rest] eqn:Ef; [done|].
  pose proof (ho_shape _ _ _ _ Ho) as Sh. destruct (shape_below M _ pos i a Sh ltac:(lia) En) as [Hb1 Hb2]. unfold link_plan. cbn [heap set_heap]. assert (Eg : arr_get (p :: rest) 0 = Ret p) by done. rewrite Eg, ret_bind. destruct (Hh p ltac:(left)) as (Hu & Hpn & Ep). apply NoDup_cons in Hnd as [Hnp Hnd].
  assert (Hbare : bare M (<[(a, up i (S a)) := p]> pos) i a) by (split; [intros l' j Hl' Ej; rewrite lookup_insert_ne by (intros [= ? ?]; lia); apply Hb1; [lia|done]|done]).
  destruct (attach_node h M pos a (up i (S a)) p q) as (h1 & h2 & E1 & E2 & B2 & _ & O); [done|by rewrite <- up_S|done|done|by apply is_node_nonzero in Hpn|done| |].
  { intros s Hs'. apply (bare_content _ _ _ _ s) in Hbare as Hc; [|done]. destruct a; cbn [content] in *; [done|]. rewrite lookup_insert_ne in Hc by (intros [= ? ?]; lia). done. }
  rewrite E1, ret_bind, E2, ret_bind. assert (Hqf : q ∉ p :: rest) by (intros Hin; destruct (Hh q Hin) as (Hu' & _); by apply (Hu' (S a, up i (S (S a))))). replace (Z.of_nat (S a) - 1) with (Z.of_nat a) by lia. pose proof (sh_max _ _ _ Sh) as Hmax.
  destruct (link_branch_ok i v Hv a p rest h2 M (<[(a, up i (S a)) := p]> pos)) as (h3 & E3 & B3 & O3); [lia|by injection Hl|done|by rewrite lookup_insert_eq|done| |].
  { split; [done|]. intros z Hz. destruct (Hh z ltac:(by right)) as (Hu' & ? & ?). split; [|split; [done|rewrite O; [done|intros ->; apply Hqf; by right]]]. intros x. destruct (decide (x = (a, up i (S a)))) as [->|Hx]; [rewrite lookup_insert_eq; intros [= ->]; done|rewrite lookup_insert_ne by done; apply Hu']. }
  rewrite E3, ret_bind. eexists _, (chain_pos i a rest (<[(a, up i (S a)) := p]> pos)). split; [done|]. cbn [length] in Hl. injection Hl as Hl. destruct (needed_spec i Hi) as (_ & Hn & _). assert (Hmx : Z.to_nat (height t) = Nat.max (Z.to_nat (height t)) (needed i)) by (pose proof (proj2 (needed_le i (Z.to_nat (height t)) Hi ltac:(lia)) Hfit); lia).
  unfold linked. cbn [height root entries nodes seq_ heap set_heap]. split; [apply (ho_height _ _ _ _ Ho)|]. split; [|split; [done|]; split; [|split; [|split; [|do 3 (split; [done|])]]]].
  - apply (shape_insert M (Z.to_nat (height t)) pos); [done|done|done|done|]. intros l k. rewrite chain_dom by done. destruct (decide ((l, k) = (a, up i (S a)))) as [[= -> ->]|Hne]; [rewrite lookup_insert_eq; split; [intros _; right; left; split; [lia|done]|intros _; left; by eexists]|]. rewrite lookup_insert_ne by congruence. split.
    + intros [?|[? ->]]; [by left|right; left; split; [lia|done]].
    + intros [?|[[Hl' ->]|(_ & ? & _)]]; [by left| |lia]. destruct (decide (l < a)%nat); [right; split; [lia|done]|]. left. destruct (decide (l = a)) as [->|?]; [done|]. apply (shape_up M (Z.to_nat (height t)) pos i (S a) l Sh); [by exists q|lia].
  - intros x z Ez. apply chain_nodes in Ez as [Ez|Ez]; [|right; by right]. destruct (decide (x = (a, up i (S a)))) as [->|Hx]; [rewrite lookup_insert_eq in Ez; injection Ez as <-; right; left|rewrite lookup_insert_ne in Ez by done; by left].
  - rewrite (ho_root _ _ _ _ Ho). destruct (Z.to_nat (height t)) as [|hh] eqn:Eh; [done|]. f_equal. assert (Hs' : is_Some (pos !! (hh, 0))) by (pose proof (shape_top _ _ _ Sh ltac:(lia)) as Ht; by replace (S hh - 1)%nat with hh in Ht by lia). destruct Hs' as [z Ez]. rewrite Ez. symmetry. rewrite chain_above by lia. rewrite lookup_insert_ne by (intros [= ? ?]; lia). done.
  - rewrite chain_size; [|done|intros l' Hl'; rewrite lookup_insert_ne by (intros [= ? ?]; lia); apply Hb1; [lia|done]]. rewrite map_size_insert_None by done. cbn. lia.
  - intros z Hz Hzf. rewrite O3 by done. rewrite O by (intros ->; by apply (Hz (S a, up i (S (S a))))). subst h. by apply zeroed_out.
Qed.

Lemma new_tree_ok t i v supply : holds t ∅ ∅ -> 0 <= i < 2 ^ 64 -> v <> 0 -> supplied t supply -> (needed i <= length supply)%nat ->
  exists t' pos', link_plan New_tree i v (take (needed i) supply) (set_heap (zeroed (take (needed i) supply) (heap t)) t) = Ret t' /\ linked t ∅ ∅ i v (take (needed i) supply) t' pos'.
Proof.
  intros Ho Hi Hv Hs Hlen. destruct (needed_spec i Hi) as (Er & Hn & E0 & _). pose proof (supplied_handed t ∅ ∅ supply (needed i) Ho Hs) as [Hnd Hh]. destruct (holds_cases _ t _ _ Ho) as [(Hht & _)|(h & _ & _ & _ & _ & _ & ? & _)]; [|done]. destruct (needed i) as [|n] eqn:Enn; [lia|].
  assert (Hl : length (take (S n) supply) = S n) by (rewrite length_take; lia). set (fresh := take (S n) supply) in *. set (h := zeroed fresh (heap t)) in *. destruct fresh as [|p rest] eqn:Ef; [done|]. cbn [length] in Hl. injection Hl as Hl. destruct (Hh p ltac:(left)) as (Hu & Hpn & Ep). apply NoDup_cons in Hnd as [Hnp Hnd].
  unfold link_plan. rewrite Er. replace (Z.of_nat (S n) - 1) with (Z.of_nat n) by lia. set (pos0 := {[(n, 0) := p]} : positions).
  destruct (link_branch_ok i v Hv n p rest h ∅ pos0) as (h3 & E3 & B3 & O3); [lia|done| |by rewrite E0; apply lookup_singleton_eq| | |].
  { split; [|intros x y z Ex Ey; apply lookup_singleton_Some in Ex as [<- _]; by apply lookup_singleton_Some in Ey as [<- _]]. intros l k q Eq. apply lookup_singleton_Some in Eq as [[= <- <-] <-]. rewrite Ep. f_equal. unfold zero_node, node_at. assert (Hz : forall s, 0 <= s < 64 -> content ∅ pos0 n 0 s = 0) by (intros s Hs'; destruct n; cbn [content]; [by rewrite lookup_empty|]; subst pos0; rewrite lookup_singleton_ne by (intros [= ? ?]; lia); done). destruct (nonzero_zero _ Hz) as [-> ->]. done. }
  { split; [intros l' j Hl' _; apply lookup_singleton_ne; intros [= ? ?]; lia|intros j _; apply lookup_empty]. }
  { split; [done|]. intros z Hz. destruct (Hh z ltac:(by right)) as (_ & ? & ?). split; [|done]. intros x Ex. apply lookup_singleton_Some in Ex as [_ ->]. done. }
  cbn [heap set_heap]. rewrite E3, ret_bind. assert (Eg : arr_get (p :: rest) 0 = Ret p) by done. rewrite Eg, ret_bind. eexists _, (chain_pos i n rest pos0). split; [done|]. unfold linked. cbn [height root entries nodes seq_ heap set_heap set_root]. rewrite !Nat2Z.id. split; [done|]. split; [|split; [done|]; split; [|split; [|split; [|do 3 (split; [done|])]]]].
  - apply (shape_insert ∅ 0 ∅); [pose proof (ho_shape _ _ _ _ Ho) as Sh; by rewrite Hht in Sh|done|done|by rewrite Enn|]. intros l k. rewrite chain_dom by done. rewrite lookup_empty. subst pos0. split.
    + intros [[z Ez]|[? ->]]; [apply lookup_singleton_Some in Ez as [[= <- <-] _]; right; left; split; [lia|by rewrite E0]|right; left; split; [lia|done]].
    + intros [[? ?]|[[Hl' ->]|(? & _)]]; [done| |done]. destruct (decide (l = n)) as [->|?]; [left; rewrite E0, lookup_singleton_eq; by eexists|right; split; [lia|done]].
  - intros x z Ez. right. apply chain_nodes in Ez as [Ez|Ez]; [|by right]. apply lookup_singleton_Some in Ez as [_ ->]. left.
  - rewrite chain_above by done. subst pos0. by rewrite lookup_singleton_eq.
  - rewrite chain_size; [|done|intros l' Hl'; apply lookup_singleton_ne; intros [= ? ?]; lia]. subst pos0. rewrite map_size_singleton, map_size_empty. cbn. lia.
  - intros z _ Hzf. rewrite O3 by done. subst h. by apply zeroed_out.
Qed.

Lemma radix_grow_ok t M pos i v supply w : holds t M pos -> M <> ∅ -> 0 <= i < 2 ^ 64 -> v <> 0 -> supplied t supply -> needed i = (Z.to_nat (height t) + w)%nat -> (0 < w)%nat -> (w + (needed i - 1) <= length supply)%nat ->
  exists t' pos', link_plan (Grow w) i v (take (w + (needed i - 1)) supply) (set_heap (zeroed (take (w + (needed i - 1)) supply) (heap t)) t) = Ret t' /\ linked t M pos i v (take (w + (needed i - 1)) supply) t' pos'.
Proof.
  intros Ho HM Hi Hv Hs Hw Hw0 Hlen. destruct (needed_spec i Hi) as (Er & Hn & E0 & Hm). destruct (holds_cases _ t _ _ Ho) as [(_ & _ & ? & _)|(h0 & Hht & Eh & Hh10 & Eroot & Hnode & _ & _)]; [done|]. rewrite Eh in Hw. pose proof (ho_shape _ _ _ _ Ho) as Sh. rewrite Eh in Sh.
  set (total := (w + (needed i - 1))%nat) in *. pose proof (supplied_handed t M pos supply total Ho Hs) as [Hnd Hh]. pose proof (zeroed_built t M pos supply total Ho Hs) as B. assert (Hl : length (take total supply) = total) by (rewrite length_take; lia). set (fresh := take total supply) in *. set (h := zeroed fresh (heap t)) in *.
  assert (Hsplit : fresh = take w fresh ++ drop w fresh) by by rewrite take_drop. set (ws := take w fresh) in *. set (br := drop w fresh) in *. assert (Hlw : length ws = w) by (subst ws; rewrite length_take; lia). assert (Hlb : length br = (needed i - 1)%nat) by (subst br; rewrite length_drop; lia). rewrite Hsplit in Hnd, Hh. apply NoDup_app in Hnd as (Hndw & Hdis & Hndb).
  destruct (needed i) as [|[|n]] eqn:En; [lia|lia|]. destruct ws as [|w0 ws'] eqn:Ews; [cbn in Hlw; lia|]. destruct br as [|b0 br'] eqn:Ebr; [cbn in Hlb; lia|].
  destruct (wrappers_ok (S h0) ltac:(lia) (w0 :: ws') (S n) h M pos (root t)) as (h1 & E1 & B1 & O1); [cbn in *; lia|done|split; [done|]; intros z Hz; apply Hh; apply elem_of_app; by left|by replace (S h0 - 1)%nat with h0 by lia|by apply (is_node_nonzero managed)| |].
  { intros l k Hlk. apply (sh_dom _ _ _ Sh) in Hlk as [Hl' (j & Hj & <-)]. split; [done|]. intros ->. replace (S (S h0 - 1)) with (S h0) by lia. by apply (sh_fit _ _ _ Sh). }
  set (pw := wrap_pos (S n) (w0 :: ws') pos) in *. unfold link_plan. cbn [heap root set_heap]. fold ws. rewrite Ews. rewrite E1, ret_bind. assert (Eg : arr_get fresh 0 = Ret w0) by (rewrite Hsplit; done). rewrite Eg, ret_bind.
  assert (Eg2 : arr_get fresh (Z.of_nat w) = Ret b0). { unfold arr_get. rewrite (proj2 (Z.ltb_ge _ _)) by lia. rewrite Nat2Z.id, Hsplit, lookup_app_r by lia. rewrite Hlw, Nat.sub_diag. done. } rewrite Eg2, ret_bind, Er. replace (Z.of_nat (S (S n)) - 1) with (Z.of_nat (S n)) by lia. rewrite slot_up, ret_bind by lia.
  assert (Hpw : forall l k, is_Some (pw !! (l, k)) <-> is_Some (pos !! (l, k)) \/ (S h0 <= l <= S n)%nat /\ k = 0). { intros l k. subst pw. rewrite (wrap_dom (S h0)) by (cbn in *; lia). naive_solver. }
  assert (Htop : pw !! (S n, 0) = Some w0) by (subst pw; cbn [wrap_pos]; by rewrite lookup_insert_eq).
  assert (Hup : up i (S n) <> 0) by (destruct Hm as [?|Hm]; [lia|]; by replace (S (S n) - 1)%nat with (S n) in Hm by lia).
  assert (Hpath : forall l' j, (l' <= n)%nat -> up j (S n) = up i (S n) -> pw !! (l', up j (S l')) = None).
  { intros l' j Hl' Ej. destruct (pw !! (l', up j (S l'))) as [z|] eqn:Ez; [|done]. exfalso. assert (Hz : is_Some (pw !! (l', up j (S l')))) by by exists z. apply Hpw in Hz as [Hz|[Hz Hz0]].
    - apply (sh_dom _ _ _ Sh) in Hz as [Hlt (j' & Hj' & Ej')]. apply Hup. rewrite <- Ej, <- (up_eq j' j (S l') (S n) Ej') by lia. apply (up_zero j' (S h0)); [by apply (sh_fit _ _ _ Sh)|lia].
    - apply Hup. rewrite <- Ej. by apply (up_zero j (S l')); [|lia]. }
  assert (HMn : forall j, up j (S n) = up i (S n) -> M !! j = None). { intros j Ej. destruct (M !! j) as [u|] eqn:Eu; [|done]. exfalso. apply Hup. rewrite <- Ej. apply (up_zero j (S h0)); [apply (sh_fit _ _ _ Sh); by exists u|lia]. }
  destruct (Hh b0 ltac:(apply elem_of_app; right; left)) as (Hub & Hbn & Eb). assert (Hbw : b0 ∉ w0 :: ws') by (intros Hin; apply (Hdis b0 Hin); left).
  assert (Hfree : forall z, z ∈ b0 :: br' -> unused pw z) by (intros z Hz x Ex; apply wrap_nodes in Ex as [Ex|Ex]; [destruct (Hh z ltac:(apply elem_of_app; by right)) as [Hu _]; by apply (Hu x)|by apply (Hdis z)]).
  assert (Hbare : bare M (<[(n, up i (S n)) := b0]> pw) i n) by (split; [intros l' j Hl' Ej; rewrite lookup_insert_ne by (intros [= ? ?]; lia); apply Hpath; [lia|done]|done]).
  assert (E00 : up i (S n) / 64 = 0) by (rewrite <- up_S; exact E0). destruct (attach_node h1 M pw n (up i (S n)) b0 w0) as (h2 & h3 & E2 & E3 & B3 & _ & O3); [done|by rewrite E00|apply Hpath; [lia|done]|apply Hfree; left|by apply is_node_nonzero in Hbn|by rewrite O1| |].
  { intros s Hs'. apply (bare_content _ _ _ _ s) in Hbare as Hc; [|done]. destruct n; cbn [content] in *; [done|]. rewrite lookup_insert_ne in Hc by (intros [= ? ?]; lia). done. }
  rewrite E2, ret_bind, E3, ret_bind. replace (Z.of_nat (S (S n)) - 2) with (Z.of_nat n) by lia. fold br. rewrite Ebr. assert (Hw0b : w0 ∉ b0 :: br') by (intros Hin; apply (Hdis w0); [left|done]).
  destruct (link_branch_ok i v Hv n b0 br' h3 M (<[(n, up i (S n)) := b0]> pw)) as (h4 & E4 & B4 & O4); [lia|cbn in Hlb; lia|done|by rewrite lookup_insert_eq|done| |].
  { apply NoDup_cons in Hndb as [Hnb Hndb]. split; [done|]. intros z Hz. destruct (Hh z ltac:(apply elem_of_app; right; by right)) as (Hu' & Hz2 & Hz3). split; [|split; [done|rewrite O3 by (intros ->; apply Hw0b; by right); rewrite O1 by (intros Hin; apply (Hdis z Hin); by right); done]].
    intros x. destruct (decide (x = (n, up i (S n)))) as [->|Hx]; [rewrite lookup_insert_eq; intros [= ->]; done|rewrite lookup_insert_ne by done; apply Hfree; by right]. }
  rewrite E4, ret_bind. eexists _, (chain_pos i n br' (<[(n, up i (S n)) := b0]> pw)). split; [done|]. unfold linked. cbn [height root entries nodes seq_ heap set_heap set_root]. rewrite !Nat2Z.id. split; [done|]. cbn [length] in Hlb. split; [|split; [done|]; split; [|split; [|split; [|do 3 (split; [done|])]]]].
  - apply (shape_insert M (S h0) pos); [done|done|done|lia|]. intros l k. rewrite chain_dom by lia. destruct (decide ((l, k) = (n, up i (S n)))) as [[= -> ->]|Hne]; [rewrite lookup_insert_eq; split; [intros _; right; left; split; [lia|done]|intros _; left; by eexists]|]. rewrite lookup_insert_ne by congruence. rewrite Hpw. split.
    + intros [[?|[? ->]]|[? ->]]; [by left|right; right; split; [done|]; split; [lia|done]|right; left; split; [lia|done]].
    + intros [?|[[Hl' ->]|(_ & ? & ->)]]; [by left; left| |left; right; split; [lia|done]]. destruct (decide (l < n)%nat); [right; split; [lia|done]|]. destruct (decide (l = n)) as [->|?]; [done|]. left. right. assert (l = S n) as -> by lia. split; [lia|exact E0].
  - intros x z Ez. rewrite Hsplit. apply chain_nodes in Ez as [Ez|Ez]; [|right; apply elem_of_app; right; by right]. destruct (decide (x = (n, up i (S n)))) as [->|Hx]; [rewrite lookup_insert_eq in Ez; injection Ez as <-; right; apply elem_of_app; right; left|]. rewrite lookup_insert_ne in Ez by done. apply wrap_nodes in Ez as [Ez|Ez]; [by left|right; apply elem_of_app; by left].
  - rewrite chain_above by lia. rewrite lookup_insert_ne by (intros [= ? ?]; lia). by rewrite Htop.
  - rewrite chain_size; [|lia|intros l' Hl'; rewrite lookup_insert_ne by (intros [= ? ?]; lia); apply Hpath; [lia|done]]. rewrite map_size_insert_None by (apply Hpath; [lia|done]). subst pw. rewrite (wrap_size (S h0)) by (first [cbn in *; lia|intros l k Hlk; by apply (sh_dom _ _ _ Sh) in Hlk as [? _]]). rewrite Hl. cbn in *. lia.
  - intros z Hz Hzf. rewrite Hsplit, not_elem_of_app in Hzf. destruct Hzf as [Hz1 Hz2]. rewrite O4 by done. rewrite O3 by (intros ->; apply Hz1; left). rewrite O1 by done. subst h. apply zeroed_out. rewrite Hsplit, not_elem_of_app. done.
Qed.

(** ** Insertion *)

Lemma bump_holds t M pos : holds t M pos -> holds (bump t) M pos.
Proof. intros [? ? ? ? ? ? ? ?]. by split. Qed.
Lemma reset_holds t M pos : holds t M pos -> (if nz (root t) && negb (is_node (root t)) then radix_reset_corrupt_tree t else t) = t.
Proof. intros Ho. destruct (holds_cases _ t M pos Ho) as [(_ & -> & _)|(h & _ & _ & _ & _ & Hn & _)]; [done|]. by rewrite Hn, andb_false_r. Qed.
Lemma unused_ext t M pos h' : holds t M pos -> (forall z, ~ unused pos z -> h' !! z = heap t !! z) -> built h' M pos.
Proof. intros Ho E. apply (built_ext (heap t)); [|apply (ho_built _ _ _ _ Ho)]. intros x p Ex. apply E. intros Hu. by apply (Hu x). Qed.
Lemma linked_holds t M pos i v fresh t' pos' n : holds t M pos -> linked t M pos i v fresh t' pos' -> (forall p, p ∈ fresh -> is_node p = true) -> M !! i = None -> Z.of_nat (size M) + 1 < 2 ^ 64 -> length fresh = n ->
  holds (set_entries (u64 (entries t' + 1)) (set_nodes (u64 (nodes t' + Z.of_nat n)) t')) (<[i := v]> M) pos'.
Proof.
  intros Ho (L1 & L2 & L3 & L4 & L5 & L6 & L7 & L8 & L9 & L10) Hf Em Hsz Hn. split; cbn [height heap root entries nodes set_entries set_nodes]; try done.
  - intros x p Ep. apply L4 in Ep as [Ep|Ep]; [by apply (ho_node _ _ _ _ Ho x)|by apply Hf].
  - rewrite L7, (ho_entries _ _ _ _ Ho), u64_sum. f_equal. rewrite map_size_insert_None by done. lia.
  - rewrite L8, (ho_nodes _ _ _ _ Ho), u64_sum. f_equal. lia.
  - rewrite map_size_insert_None by done. lia.
Qed.

(** Every node of the new tree is one of the old tree or a new one, so none is left over. *)
Lemma linked_uses t M pos i v fresh t' pos' z : holds t M pos -> linked t M pos i v fresh t' pos' -> unused pos' z -> unused pos z /\ z ∉ fresh.
Proof.
  intros Ho (_ & _ & L3 & L4 & _ & L6 & _) Hz. set (l1 := map snd (map_to_list pos')). set (l2 := map snd (map_to_list pos) ++ fresh).
  assert (Hin : forall (q : positions) y, y ∈ map snd (map_to_list q) <-> exists x, q !! x = Some y). { intros q y. rewrite list_elem_of_In, in_map_iff. split; [intros ([x y'] & <- & H); exists x; by apply elem_of_map_to_list, list_elem_of_In|intros [x H]; exists (x, y); split; [done|]; by apply list_elem_of_In, elem_of_map_to_list]. }
  assert (Hsub : l1 ⊆+ l2). { apply NoDup_submseteq; [|intros y Hy; apply Hin in Hy as [x Hx]; apply elem_of_app; destruct (L4 x y Hx) as [H|H]; [left; apply Hin; by exists x|by right]].
    unfold l1. change (NoDup (snd <$> map_to_list pos')). apply NoDup_fmap_2_strong; [|apply NoDup_map_to_list]. intros [x y] [x' y'] H1 H2 E. cbn in E. subst y'. apply elem_of_map_to_list in H1, H2. by rewrite (bu_inj _ _ _ L3 x x' y H1 H2). }
  assert (HP : l1 ≡ₚ l2) by (apply submseteq_length_Permutation; [done|]; unfold l1, l2; rewrite length_app, !length_map, !length_map_to_list; lia).
  assert (Hn : z ∉ l2) by (rewrite <- HP; intros H; apply Hin in H as [x Hx]; by apply (Hz x)). unfold l2 in Hn. apply not_elem_of_app in Hn as [Hn1 Hn2]. split; [|done]. intros x Hx. apply Hn1, Hin. by exists x.
Qed.
End Insert.

(** ** How many nodes are missing *)

(** The number of nodes the new contents need beyond those of the tree: it does not depend on
    the allocator, so it can be seen with one that never runs out. *)
Definition grows_by (M : contents) (pos : positions) (i v : Z) (total : nat) : Prop := exists H' pos', shape (<[i := v]> M) H' pos' /\ size pos' = (size pos + total)%nat.
Definition spare (h : memory) (n : nat) : list Z := map (fun k => 8 * (Z.of_nat k + 1 + foldr Z.max 0 (map fst (map_to_list h)))) (seq 0 n).
Definition anywhere (_ : Z) : bool := true.
Lemma max_above l x : x ∈ l -> x <= foldr Z.max 0 l.
Proof. induction l as [|y l IH]; [by intros ?%not_elem_of_nil|]. cbn. intros [->|H]%elem_of_cons; [lia|]. specialize (IH H). lia. Qed.
Lemma max_nonneg l : 0 <= foldr Z.max 0 l.
Proof. induction l; cbn; lia. Qed.
Lemma spare_supplied t n : supplied anywhere t (spare (heap t) n).
Proof.
  unfold spare. set (top := foldr Z.max 0 (map fst (map_to_list (heap t)))). assert (H0 : 0 <= top) by apply max_nonneg. split.
  - change (NoDup ((fun k => 8 * (Z.of_nat k + 1 + top)) <$> seq 0 n)). apply NoDup_fmap_2_strong; [|apply NoDup_ListNoDup, seq_NoDup]. intros x y _ _ E. lia.
  - intros p Hp. apply list_elem_of_In, in_map_iff in Hp as (k & <- & _). split.
    + unfold radix_ptr_is_node, anywhere. rewrite (proj2 (Z.eqb_neq _ 0)) by lia. change 7 with (2 ^ 3 - 1). rewrite land_ones_small by lia. replace (8 * (Z.of_nat k + 1 + top)) with ((Z.of_nat k + 1 + top) * 2 ^ 3) by lia. by rewrite Z.mod_mul.
    + destruct (heap t !! _) as [x|] eqn:E; [|done]. exfalso. assert (Hin : 8 * (Z.of_nat k + 1 + top) ∈ map fst (map_to_list (heap t))) by (apply list_elem_of_In, in_map_iff; eexists (_, x); split; [done|]; by apply list_elem_of_In, elem_of_map_to_list). apply max_above in Hin. fold top in Hin. lia.
Qed.
Lemma holds_anywhere managed t M pos : holds managed t M pos -> holds anywhere t M pos.
Proof.
  intros [H1 H2 H3 H4 H5 H6 H7 H8]. split; try done. intros x p Ep. specialize (H4 x p Ep). unfold radix_ptr_is_node in *. apply andb_true_iff in H4 as [-> _]. done.
Qed.
Lemma spare_length h n : length (spare h n) = n.
Proof. unfold spare. by rewrite length_map, length_seq. Qed.
Lemma linked_grows t M pos i v fresh t' pos' : linked t M pos i v fresh t' pos' -> grows_by M pos i v (length fresh).
Proof. intros (_ & L2 & _ & _ & _ & L6 & _). by exists (Z.to_nat (height t')), pos'. Qed.

Lemma attach_grows managed t M pos i v a q : holds managed t M pos -> 0 <= i < 2 ^ 64 -> v <> 0 -> up i (Z.to_nat (height t)) = 0 -> (S a < Z.to_nat (height t))%nat -> pos !! (S a, up i (S (S a))) = Some q -> pos !! (a, up i (S a)) = None -> grows_by M pos i v (S a).
Proof.
  intros Ho Hi Hv Hfit Ha Eq En. destruct (radix_attach_ok anywhere t M pos i v (spare (heap t) (S a)) a q) as (t' & pos' & _ & L); try done; [by apply holds_anywhere in Ho|apply spare_supplied|by rewrite spare_length|]. apply linked_grows in L. by rewrite take_ge, spare_length in L by (by rewrite spare_length).
Qed.
Lemma new_tree_grows managed t i v : holds managed t ∅ ∅ -> 0 <= i < 2 ^ 64 -> v <> 0 -> grows_by ∅ ∅ i v (needed i).
Proof.
  intros Ho Hi Hv. destruct (new_tree_ok anywhere t i v (spare (heap t) (needed i))) as (t' & pos' & _ & L); try done; [by apply holds_anywhere in Ho|apply spare_supplied|by rewrite spare_length|]. apply linked_grows in L. by rewrite take_ge, spare_length in L by (by rewrite spare_length).
Qed.
Lemma grow_grows managed t M pos i v w : holds managed t M pos -> M <> ∅ -> 0 <= i < 2 ^ 64 -> v <> 0 -> needed i = (Z.to_nat (height t) + w)%nat -> (0 < w)%nat -> grows_by M pos i v (w + (needed i - 1)).
Proof.
  intros Ho HM Hi Hv Hw Hw0. destruct (radix_grow_ok anywhere t M pos i v (spare (heap t) (w + (needed i - 1))) w) as (t' & pos' & _ & L); try done; [by apply holds_anywhere in Ho|apply spare_supplied|by rewrite spare_length|]. apply linked_grows in L. by rewrite take_ge, spare_length in L by (by rewrite spare_length).
Qed.

Section Calls.
Variable managed : Z -> bool.
Variable deferred_free : bool.
Notation is_node := (radix_ptr_is_node managed).
Notation holds := (holds managed).
Notation supplied := (supplied managed).
Notation linked_holds := (linked_holds managed).
Notation bump_holds := (bump_holds managed).
Notation reset_holds := (reset_holds managed).
Notation find_attach_ok := (find_attach_ok managed).
Notation free_allocated_ok := (free_allocated_ok deferred_free).
Notation given_back := (given_back deferred_free).
Notation short_given_back := (short_given_back deferred_free).
Notation new_tree_ok := (new_tree_ok managed).
Notation radix_attach_ok := (radix_attach_ok managed).
Notation radix_grow_ok := (radix_grow_ok managed).

(** Room for the nodes: enough, and the rest of the call is [link_plan]. *)
(** What a successful insertion does to the memory: it takes no more nodes than it was
    supplied with, and outside the nodes of the new tree nothing changes. *)
Definition placed (t : radix_tree) (pos : positions) (supply : list Z) (t' : radix_tree) (pos' : positions) : Prop := (size pos' <= size pos + length supply)%nat /\ forall z, unused pos' z -> heap t' !! z = heap t !! z.
Lemma insert_alloc t M pos i v supply (p : plan) total : holds t M pos -> 0 <= i < 2 ^ 64 -> v <> 0 -> M !! i = None -> Z.of_nat (size M) + 1 < 2 ^ 64 -> supplied t supply -> total = (wrapper_count p + branch_count (radix_required_height i) p)%nat -> (total <= 20)%nat ->
  ((total <= length supply)%nat -> exists t' pos', link_plan p i v (take total supply) (set_heap (zeroed (take total supply) (heap t)) t) = Ret t' /\ linked t M pos i v (take total supply) t' pos') ->
  exists r t', insert_nodes deferred_free supply p i v t = Ret (r, t') /\ seq_ t' = u32 (seq_ t + 1) /\ (forall z, unused pos z -> z ∉ supply -> heap t' !! z = heap t !! z) /\
    (r = - RADIX_ENOMEM /\ (length supply < total)%nat /\ holds t' M pos /\ given_back t supply t' \/ r = 0 /\ exists pos', holds t' (<[i := v]> M) pos' /\ placed t pos supply t' pos').
Proof.
  intros Ho Hi Hv Em Hsz Hs Et Ht Hlink. unfold insert_nodes. rewrite <- Et. unfold RADIX_TREE_MAX_HEIGHT. destruct (Z.of_nat total >? 11 * 2) eqn:E; reify_bools; [lia|]. destruct (decide (total <= length supply)%nat) as [Hle|Hlt].
  - rewrite alloc_enough by done. cbn [app]. destruct (Hlink Hle) as (t' & pos' & El & HL). rewrite El, ret_bind. eexists _, _. split; [done|]. pose proof HL as (_ & _ & _ & _ & _ & _ & _ & _ & L9 & L10). split; [cbn; by rewrite L9|]. split; [intros z Hz Hzs; cbn; apply L10; [done|]; intros Hin; apply Hzs; rewrite <- (take_drop total supply); apply elem_of_app; by left|].
    right. split; [done|]. exists pos'. split; [|split; [destruct HL as (_ & _ & _ & _ & _ & -> & _); rewrite length_take; lia|intros z Hz; cbn; destruct (linked_uses managed t M pos i v _ t' pos' z Ho HL Hz); by apply L10]]. apply bump_holds. apply (linked_holds t M pos i v (take total supply)); [done|done| |done|done|rewrite length_take; lia]. intros q Hq. apply Hs. rewrite <- (take_drop total supply). apply elem_of_app. by left.
  - rewrite alloc_short by lia. cbn [app]. eexists _, _. split; [done|]. set (t1 := set_heap (zeroed supply (heap t)) t). destruct (free_allocated_ok supply t1) as (F1 & F2 & F3 & F4 & F5 & F6 & F7). set (t2 := radix_free_allocated deferred_free supply t1) in *. split; [cbn; by rewrite F5|].
    assert (Hout : forall z, z ∉ supply -> heap t2 !! z = heap t !! z) by (intros z Hz; rewrite F6 by done; subst t1; cbn; by apply zeroed_out). split; [intros z _ Hz; by apply Hout|]. left. split; [done|]. split; [lia|].
    assert (Hb : built (heap t2) M pos). { apply (built_ext (heap t)); [|apply (ho_built _ _ _ _ Ho)]. intros x q Ex. apply Hout. intros Hin. destruct (proj2 Hs q Hin) as [_ Hn]. destruct x as [l k]. pose proof (bu_node _ _ _ (ho_built _ _ _ _ Ho) l k q Ex). congruence. }
    split; [|apply short_given_back; intros q Hq; by destruct (proj2 Hs q Hq)]. apply bump_holds. destruct Ho as [? ? ? ? ? ? ? ?]. split; rewrite ?F1, ?F2, ?F3, ?F4; done.
Qed.

Lemma radix_insert_ok t M pos i v supply : holds t M pos -> 0 <= i < 2 ^ 64 -> v <> 0 -> Z.of_nat (size M) + 1 < 2 ^ 64 -> supplied t supply ->
  exists r t', asc_radix_tree_insert managed deferred_free supply i v t = Ret (r, t') /\ seq_ t' = u32 (seq_ t + 2) /\ (forall z, unused pos z -> z ∉ supply -> heap t' !! z = heap t !! z) /\
    (r = - RADIX_EEXIST /\ is_Some (M !! i) /\ holds t' M pos /\ heap t' = heap t \/
     r = - RADIX_ENOMEM /\ M !! i = None /\ (exists total, grows_by M pos i v total /\ (length supply < total <= 20)%nat) /\ holds t' M pos /\ given_back t supply t' \/
     r = 0 /\ M !! i = None /\ exists pos', holds t' (<[i := v]> M) pos' /\ placed t pos supply t' pos').
Proof.
  intros Ho Hi Hv Hsz Hs. unfold asc_radix_tree_insert. rewrite (proj2 (Z.eqb_neq v 0) Hv). cbv zeta. unfold radix_mut_lock, radix_mut_unlock. pose proof (bump_holds t M pos Ho) as Ho1. rewrite (reset_holds (bump t) M pos Ho1). assert (Hseq : forall s, u32 (u32 (s + 1) + 1) = u32 (s + 2)) by (intros s; rewrite u32_sum; f_equal; lia).
  rewrite (lookup_ok managed (bump t) M pos i Ho1 Hi), ret_bind. destruct (M !! i) as [u|] eqn:Em.
  { cbn [from_option id]. destruct (sh_keys _ _ _ (ho_shape _ _ _ _ Ho) i u Em) as [_ Hu]. unfold nz. rewrite (proj2 (Z.eqb_neq u 0) Hu). cbn [negb]. eexists _, _. split; [done|]. split; [apply Hseq|]. split; [done|]. left. split; [done|]. split; [by eexists|]. split; [by apply bump_holds|done]. }
  cbn [from_option nz Z.eqb negb]. destruct (needed_spec i Hi) as (Er & Hn & E0 & Hm). assert (Hs1 : supplied (bump t) supply) by exact Hs. unfold make_plan.
  assert (Hend : forall p total, grows_by M pos i v total -> total = (wrapper_count p + branch_count (radix_required_height i) p)%nat -> (total <= 20)%nat ->
    ((total <= length supply)%nat -> exists t' pos', link_plan p i v (take total supply) (set_heap (zeroed (take total supply) (heap (bump t))) (bump t)) = Ret t' /\ linked (bump t) M pos i v (take total supply) t' pos') ->
    exists r t', insert_nodes deferred_free supply p i v (bump t) = Ret (r, t') /\ seq_ t' = u32 (seq_ t + 2) /\ (forall z, unused pos z -> z ∉ supply -> heap t' !! z = heap t !! z) /\
      (r = - RADIX_EEXIST /\ is_Some (None : option Z) /\ holds t' M pos /\ heap t' = heap t \/ r = - RADIX_ENOMEM /\ (None : option Z) = None /\ (exists total, grows_by M pos i v total /\ (length supply < total <= 20)%nat) /\ holds t' M pos /\ given_back t supply t' \/ r = 0 /\ (None : option Z) = None /\ exists pos', holds t' (<[i := v]> M) pos' /\ placed t pos supply t' pos')).
  { intros p total Hg Et H20 Hl. destruct (insert_alloc (bump t) M pos i v supply p total Ho1 Hi Hv Em Hsz Hs1 Et H20 Hl) as (r & t' & E & Es & O & Hc). exists r, t'. split; [done|]. split; [rewrite Es; apply Hseq|]. split; [exact O|]. right. destruct Hc as [(-> & Hlt & Hh & Hd)|(-> & pos' & Hh)]; [left|right]; (split; [done|]); (split; [done|]); [|by exists pos']. split; [by exists total; auto|]. split; [done|exact Hd]. }
  destruct (holds_cases managed (bump t) M pos Ho1) as [(Hht & Hr & -> & ->)|(h & Hht & Eh & Hh10 & Eroot & Hnode & HM & Etop)].
  - rewrite Hr. cbn [Z.eqb]. rewrite ret_bind. apply (Hend New_tree (needed i)); [by apply (new_tree_grows managed (bump t))|cbn [wrapper_count branch_count]; rewrite Er; lia|lia|]. by apply new_tree_ok.
  - rewrite (proj2 (Z.eqb_neq _ 0)) by by apply is_node_nonzero in Hnode. pose proof (height_fits managed (bump t) M pos i Ho1 Hi ltac:(lia)) as Hfit. rewrite Eh in Hfit. rewrite Er in Hfit |- *. rewrite Hfit. case_bool_decide as Eu; cbn [negb].
    + pose proof (ho_shape _ _ _ _ Ho1) as Sh. rewrite Eh in Sh. rewrite Etop. destruct (find_attach_ok (heap (bump t)) M pos (S h) i (ho_built _ _ _ _ Ho1) (ho_node _ _ _ _ Ho1) ltac:(lia) h (root (bump t))) as [(leaf & Ef & El)|(a & q & z & Ef & Ha & Eq & En)]; [lia|by rewrite Eu| |].
      * rewrite Ef, ret_bind, ret_bind, slot_leaf, ret_bind. rewrite up_S, up_0 in El. destruct (leaf_write (heap (bump t)) M pos i v leaf 1 (ho_built _ _ _ _ Ho1) El) as (h1 & h2 & E1 & E2 & B2 & _ & _ & O); [rewrite Em; unfold nz; by rewrite (proj2 (Z.eqb_neq v 0) Hv)|]. rewrite E1, ret_bind, E2, ret_bind. eexists _, _. split; [done|]. split; [apply Hseq|]. split; [intros y Hy _; apply O; intros ->; by apply (Hy (0%nat, i / 64))|].
        right. right. split; [done|]. split; [done|]. exists pos. split; [|split; [lia|intros y Hy; cbn; apply O; intros ->; by apply (Hy (0%nat, i / 64))]]. apply bump_holds. unfold put_value in B2. rewrite (proj2 (Z.eqb_neq v 0) Hv) in B2. split; cbn [height heap root entries nodes set_entries set_heap]; [apply (ho_height _ _ _ _ Ho1)| |done|apply (ho_node _ _ _ _ Ho1)|apply (ho_root _ _ _ _ Ho1)| |apply (ho_nodes _ _ _ _ Ho1)|rewrite map_size_insert_None by done; lia].
        -- rewrite Eh. apply (shape_insert M (S h) pos); [done|done|done|apply needed_le in Eu; lia|]. intros l k. split; [by left|]. intros [?|[[Hl ->]|(_ & ? & _)]]; [done| |lia]. apply (shape_up M (S h) pos i 0 l Sh); [rewrite up_S, up_0; by exists leaf|lia].
        -- rewrite (ho_entries _ _ _ _ Ho1), u64_sum. f_equal. rewrite map_size_insert_None by done. lia.
      * rewrite Ef, ret_bind, ret_bind. apply (Hend (Attach q (up i (S a) mod 64) (S a)) (S a)); [apply (attach_grows managed (bump t) M pos i v a q); [done|done|done|by rewrite Eh|rewrite Eh; lia|done|done]|done|lia|]. intros Hle. apply (radix_attach_ok (bump t) M pos i v supply a q Ho1 Hi Hv Hs1); [by rewrite Eh|rewrite Eh; lia|done|done|done].
    + rewrite ret_bind. assert (Hgt : (S h < needed i)%nat). { destruct (decide (needed i <= S h)%nat) as [Hle|]; [|lia]. exfalso. apply Eu. by apply (needed_le i (S h) Hi ltac:(lia)). } rewrite Hht. set (w := (needed i - S h)%nat). replace (Z.to_nat (Z.of_nat (needed i) - Z.of_nat (S h))) with w by lia.
      apply (Hend (Grow w) (w + (needed i - 1))%nat); [apply (grow_grows managed (bump t)); [done|done|done|done|rewrite Eh; lia|lia]|cbn [wrapper_count branch_count]; rewrite Er; lia|lia|]. intros Hle. apply (radix_grow_ok (bump t) M pos i v supply w Ho1 HM Hi Hv Hs1); [rewrite Eh; lia|lia|done].
Qed.

(** ** Replacement *)

Lemma radix_replace_ok t M pos i v : holds t M pos -> 0 <= i < 2 ^ 64 -> v <> 0 ->
  exists t', asc_radix_tree_replace managed i v t = Ret (default 0 (M !! i), t') /\ seq_ t' = u32 (seq_ t + 2) /\ holds t' (match M !! i with Some _ => <[i := v]> M | None => M end) pos /\ (forall z, unused pos z -> heap t' !! z = heap t !! z).
Proof.
  intros Ho Hi Hv. unfold asc_radix_tree_replace. rewrite (proj2 (Z.eqb_neq v 0) Hv). cbv zeta. unfold radix_mut_lock, radix_mut_unlock. pose proof (bump_holds t M pos Ho) as Ho1. assert (Hseq : forall s, u32 (u32 (s + 1) + 1) = u32 (s + 2)) by (intros s; rewrite u32_sum; f_equal; lia). rewrite (find_leaf_ok managed (bump t) M pos i Ho1 Hi), ret_bind. destruct (pos !! (0%nat, i / 64)) as [p|] eqn:Ep.
  - rewrite slot_leaf, ret_bind, (slot_at _ M pos 0 _ p _ (ho_built _ _ _ _ Ho1) Ep) by (apply Z.mod_pos_bound; lia). rewrite ret_bind, leaf_content. destruct (M !! i) as [u|] eqn:Em; cbn [from_option id].
    + destruct (sh_keys _ _ _ (ho_shape _ _ _ _ Ho) i u Em) as [_ Hu]. unfold nz. rewrite (proj2 (Z.eqb_neq u 0) Hu). cbn [negb]. destruct (leaf_write (heap (bump t)) M pos i v p 0 (ho_built _ _ _ _ Ho1) Ep) as (h1 & h2 & E1 & _ & _ & B1 & _ & O); [rewrite Em; cbn; unfold nz; by rewrite (proj2 (Z.eqb_neq v 0) Hv), (proj2 (Z.eqb_neq u 0) Hu)|]. rewrite E1, ret_bind. eexists. split; [done|]. split; [apply Hseq|].
      split; [|intros z Hz; cbn; apply O; intros ->; by apply (Hz (0%nat, i / 64))]. specialize (B1 eq_refl). unfold put_value in B1. rewrite (proj2 (Z.eqb_neq v 0) Hv) in B1. apply bump_holds. assert (Hsz : size (<[i := v]> M) = size M) by (apply map_size_insert_Some; by eexists). pose proof (ho_shape _ _ _ _ Ho1) as Sh.
      assert (Hdom : forall j, is_Some (<[i := v]> M !! j) <-> is_Some (M !! j)) by (intros j; destruct (decide (j = i)) as [->|?]; [rewrite lookup_insert_eq, Em; split; by eexists|by rewrite lookup_insert_ne]).
      split; cbn [height heap root entries nodes set_entries set_heap]; rewrite ?Hsz; try apply Ho1; [|done]. destruct Sh as [S1 S2 S3 S4 S5]. split; [| | |done|].
      * intros j w Ej. destruct (decide (j = i)) as [->|?]; [rewrite lookup_insert_eq in Ej; injection Ej as <-; split; [done|done]|rewrite lookup_insert_ne in Ej by done; by apply (S1 j)].
      * intros l k. rewrite S2. setoid_rewrite Hdom. done.
      * intros j. rewrite Hdom. apply S3.
      * destruct S5 as [[_ ->]|[_ S5]]; [by rewrite lookup_empty in Em|]. right. split; [apply insert_non_empty|]. setoid_rewrite Hdom. done.
    + cbn [nz Z.eqb negb]. eexists. split; [done|]. split; [apply Hseq|]. split; [by apply bump_holds|done].
  - destruct (M !! i) as [u|] eqn:Em; [exfalso; destruct (shape_leaf _ _ _ _ _ (ho_shape _ _ _ _ Ho) Em); congruence|]. eexists. split; [done|]. split; [apply Hseq|]. split; [by apply bump_holds|done].
Qed.

End Calls.
End RadixInsert.
