(* ===== verification/RadixDelete.v ===== *)
(** RadixDelete: deletion from the radix tree keeps its canonical form: empty nodes go,
    and the height falls to the least one that fits. *)

From S2P Require Import Prelude RadixTree RadixSafe RadixInsert.
From stdpp Require Import list_relations.
#[local] Open Scope Z_scope.

Module RadixDelete.
Import RadixTree RadixSafe RadixInsert.

Section Delete.
Variable managed : Z -> bool.
Variable deferred_free : bool.
Notation is_node := (radix_ptr_is_node managed).
Notation holds := (holds managed).
Notation radix_node_free := (radix_node_free deferred_free).

(** ** The way down *)

(** The ancestors of the node at level [l] on the way to [i]. *)
Fixpoint ancestors (pos : positions) (i : Z) (l : nat) (path : list (Z * Z)) : Prop :=
  match path with [] => True | (q, s) :: path => pos !! (S l, up i (S (S l))) = Some q /\ s = up i (S l) mod 64 /\ ancestors pos i (S l) path end.
Lemma descend_ok h M pos H i : built h M pos -> closed H pos i -> (forall x p, pos !! x = Some p -> is_node p = true) -> (H <= 11)%nat -> forall l p path, (l < H)%nat -> pos !! (l, up i (S l)) = Some p -> ancestors pos i l path ->
  match pos !! (0%nat, up i 1) with
  | Some leaf => exists path', descend managed l i p path h = Ret (Some (leaf, path')) /\ ancestors pos i 0 path' /\ length path' = (l + length path)%nat
  | None => descend managed l i p path h = Ret None
  end.
Proof.
  intros B C N H11. induction l as [|l IH]; intros p path Hl Ep HA; cbn [descend]; [rewrite Ep; by exists path|]. rewrite slot_up, ret_bind by lia. rewrite (slot_at h M pos (S l) _ p _ B Ep) by (apply Z.mod_pos_bound; lia). rewrite ret_bind, path_content. destruct (pos !! (l, up i (S l))) as [q|] eqn:Eq; cbn [from_option id].
  - rewrite (N _ _ Eq). specialize (IH q ((p, up i (S l) mod 64) :: path) ltac:(lia) eq_refl). cbn [ancestors] in IH. specialize (IH ltac:(done)). destruct (pos !! (0%nat, up i 1)); [|done]. destruct IH as (path' & E & A & Hlen). exists path'. split; [done|]. split; [done|]. rewrite Hlen. cbn. lia.
  - rewrite is_node_zero. destruct (pos !! (0%nat, up i 1)) as [q|] eqn:E0; [|done]. exfalso. destruct (C 0%nat l) as [r Er]; [lia|by exists q|]. congruence.
Qed.

(** ** Pruning *)

Lemma free_built p t M pos : built (heap t) M pos -> unused pos p -> built (heap (radix_node_free p t)) M pos.
Proof.
  intros B Hu. unfold RadixTree.radix_node_free. destruct deferred_free; [done|]. cbn. apply (built_ext (heap t)); [|done]. intros x q Ex. rewrite lookup_delete_ne; [done|]. intros ->. by apply (Hu x).
Qed.
Lemma free_fields p t : root (radix_node_free p t) = root t /\ entries (radix_node_free p t) = entries t /\ nodes (radix_node_free p t) = nodes t /\ height (radix_node_free p t) = height t /\ seq_ (radix_node_free p t) = seq_ t /\ (forall z, z <> p -> heap (radix_node_free p t) !! z = heap t !! z).
Proof. unfold RadixTree.radix_node_free. destruct deferred_free; cbn; do 5 (split; [done|]); [done|]. intros z Hz. by rewrite lookup_delete_ne. Qed.
Lemma delete_unused (pos : positions) h M x p : built h M pos -> pos !! x = Some p -> unused (delete x pos) p.
Proof. intros B E y Ey. apply lookup_delete_Some in Ey as [Hne Ey]. by apply Hne, (bu_inj _ _ _ B _ _ p). Qed.

(** The positions while the branch of [i], which is no longer in [M], is pruned: below
    level [l] it is gone. *)
Definition pruned (M : contents) (H : nat) (pos : positions) (i : Z) (l : nat) : Prop :=
  forall l' k, is_Some (pos !! (l', k)) <-> (l' < H)%nat /\ ((exists j, is_Some (M !! j) /\ up j (S l') = k) \/ (l <= l')%nat /\ k = up i (S l')).

(** A node with something in it has an index of [M] below it. *)
Lemma pruned_key M H pos i l : pruned M H pos i l -> (l < H)%nat -> nonzero (table (content M pos l (up i (S l)))) <> 0 -> exists j, is_Some (M !! j) /\ up j (S l) = up i (S l).
Proof.
  intros D Hl Hn. apply nonzero_some in Hn as (s & Hs & Hc). destruct l as [|l]; cbn [content] in Hc.
  - destruct (M !! (64 * up i 1 + s)) as [v|] eqn:E; [|done]. exists (64 * up i 1 + s). split; [by exists v|]. rewrite up_S, up_0. symmetry. apply (Z.div_unique _ 64 _ s); lia.
  - destruct (pos !! (l, 64 * up i (S (S l)) + s)) as [p|] eqn:E; [|done]. assert (Hp : is_Some (pos !! (l, 64 * up i (S (S l)) + s))) by by exists p. apply D in Hp as [_ [(j & Hj & Ej)|[? _]]]; [|lia]. exists j. split; [done|]. by apply (up_pred _ _ s).
Qed.
Lemma pruned_empty M H pos i l j : pruned M H pos i l -> (l < H)%nat -> nonzero (table (content M pos l (up i (S l)))) = 0 -> (forall j v, M !! j = Some v -> v <> 0) -> (forall x p, pos !! x = Some p -> p <> 0) -> is_Some (M !! j) -> up j (S l) <> up i (S l).
Proof.
  intros D Hl Hn HM HP Hj E. pose proof (Z.mod_pos_bound (up j l) 64 ltac:(lia)) as Hm. assert (Hc : content M pos l (up i (S l)) (up j l mod 64) <> 0); [|pose proof (nonzero_pos _ _ Hm Hc); lia]. rewrite <- E. destruct l as [|l]; cbn [content]; rewrite <- (up_split j).
  - rewrite up_0. destruct Hj as [v Ev]. rewrite Ev. cbn. by apply (HM j).
  - assert (Hp : is_Some (pos !! (l, up j (S l)))) by (apply D; split; [lia|]; left; by exists j). destruct Hp as [p Ep]. rewrite Ep. cbn. by apply (HP _ _ Ep).
Qed.

Lemma prune_ok i M H : (forall j v, M !! j = Some v -> v <> 0) -> (H <= 11)%nat -> forall path l p t pos, (l + length path = H - 1)%nat -> (l < H)%nat -> built (heap t) M pos -> (forall x p, pos !! x = Some p -> is_node p = true) -> pruned M H pos i l -> pos !! (l, up i (S l)) = Some p -> ancestors pos i l path -> nodes t = u64 (Z.of_nat (size pos)) ->
  exists t' pos', prune deferred_free p path t = Ret t' /\ built (heap t') M pos' /\ (forall x p, pos' !! x = Some p -> pos !! x = Some p) /\ nodes t' = u64 (Z.of_nat (size pos')) /\
    root t' = root t /\ entries t' = entries t /\ height t' = height t /\ seq_ t' = seq_ t /\ (forall z, unused pos z -> heap t' !! z = heap t !! z) /\ pos' !! ((H - 1)%nat, up i H) = pos !! ((H - 1)%nat, up i H) /\ pruned M H pos' i (H - 1).
Proof.
  intros HM H11. induction path as [|[q s] path IH]; intros l p t pos Hlen Hl B N D Ep HA Hno; cbn [prune].
  - exists t, pos. do 9 (split; [done|]). split; [done|]. cbn in Hlen. by replace (H - 1)%nat with l by lia.
  - destruct HA as (Eq & -> & HA). cbn in Hlen. rewrite (bu_node _ _ _ B _ _ _ Ep). cbn [deref]. rewrite ret_bind. cbn [count node_at]. unfold nz. destruct (nonzero (table (content M pos l (up i (S l)))) =? 0) eqn:E0; cbn [negb]; reify_bools.
    + destruct (detach_node (heap t) M pos l (up i (S l)) p q B) as (h1 & h2 & E1 & E2 & B2 & O); [by rewrite <- up_S|done|by apply (is_node_nonzero managed), (N _ _ Ep)|]. rewrite E1, ret_bind, E2, ret_bind. set (t1 := set_heap h2 t). destruct (free_fields p t1) as (F1 & F2 & F3 & F4 & F5 & F6). pose proof (delete_unused pos (heap t) M _ p B Ep) as Hu.
      assert (HA' : forall path l0 pos0, (l < S l0)%nat -> ancestors pos0 i l0 path -> ancestors (delete (l, up i (S l)) pos0) i l0 path). { induction path0 as [|[q0 s0] path0 IHp]; intros l0 pos0 Hl0; cbn [ancestors]; [done|]. intros (X1 & X2 & X3). rewrite lookup_delete_ne by (intros [= ? ?]; lia). split; [done|]. split; [done|]. apply IHp; [lia|done]. }
      destruct (IH (S l) q (set_nodes (u64 (nodes (radix_node_free p t1) - 1)) (radix_node_free p t1)) (delete (l, up i (S l)) pos)) as (t' & pos' & E' & B' & Hsub & Hno' & R1 & R2 & R3 & R4 & O' & Htop & D'); [lia|lia|by apply free_built|intros x z Ez; apply lookup_delete_Some in Ez as [_ Ez]; by apply (N x)| |by rewrite lookup_delete_ne by (intros [= ? ?]; lia)|apply HA'; [lia|done]| |].
      * intros l' k. destruct (decide ((l', k) = (l, up i (S l)))) as [[= -> ->]|Hne].
        -- rewrite lookup_delete_eq. split; [by intros [? ?]|]. intros [_ [(j & Hj & Ej)|[? _]]]; [|lia]. exfalso. by apply (pruned_empty M H pos i l j D Hl E0 HM); [intros x z Ez; by apply (is_node_nonzero managed), (N x)|done|].
        -- rewrite lookup_delete_ne by congruence. rewrite (D l' k). split; (intros [? [?|[? ->]]]; (split; [done|]); [by left|]); right; (split; [|done]); [|lia]. destruct (decide (l' = l)) as [->|]; [done|lia].
      * cbn. rewrite F3. subst t1. cbn. rewrite Hno, u64_diff. f_equal. rewrite map_size_delete, Ep. assert (0 < size pos)%nat; [|lia]. destruct (size pos) eqn:Es; [|lia]. apply map_size_empty_iff in Es. by rewrite Es, lookup_empty in Ep.
      * exists t', pos'. split; [exact E'|]. split; [done|]. split; [intros x z Ez; apply Hsub in Ez; by apply lookup_delete_Some in Ez as [_ ?]|]. split; [done|]. split; [rewrite R1; cbn; by rewrite F1|]. split; [rewrite R2; cbn; by rewrite F2|]. split; [rewrite R3; cbn; by rewrite F4|]. split; [rewrite R4; cbn; by rewrite F5|].
        split; [|split; [|done]].
        -- intros z Hz. rewrite O' by (intros x Ex; apply lookup_delete_Some in Ex as [_ Ex]; by apply (Hz x)). cbn. rewrite F6 by (intros ->; by apply (Hz (l, up i (S l)))). subst t1. cbn. apply O. intros ->. by apply (Hz (S l, up i (S (S l)))).
        -- rewrite Htop. rewrite lookup_delete_ne by (intros [= ? ?]; lia). done.
    + exists t, pos. do 10 (split; [done|]). destruct (pruned_key M H pos i l D Hl E0) as (j & Hj & Ej). intros l' k. rewrite (D l' k). split; (intros [Hl' [?|[? ->]]]; (split; [done|])); [by left| |by left|right; split; [lia|done]]. left. exists j. split; [done|]. apply (up_eq j i (S l)); [done|lia].
Qed.

(** ** Shrinking *)

Lemma nonzero_two f a b : 0 <= a < 64 -> 0 <= b < 64 -> a <> b -> f a <> 0 -> f b <> 0 -> 2 <= nonzero (table f).
Proof.
  intros Ha Hb Hab Fa Fb. set (g := fun s => if s =? a then 0 else f s). assert (Hg : forall s, s <> a -> g s = f s) by (intros s Hs; subst g; cbn; by rewrite (proj2 (Z.eqb_neq s a) Hs)). pose proof (nonzero_insert f g a 0 Ha ltac:(subst g; cbn; by rewrite Z.eqb_refl) ltac:(intros j _; apply Hg)) as E. unfold nz in E. rewrite (proj2 (Z.eqb_neq (f a) 0) Fa) in E. cbn in E. assert (0 < nonzero (table g)) by (apply (nonzero_pos g b Hb); rewrite Hg; [done|lia]). lia.
Qed.
Lemma nonzero_single f : f 0 <> 0 -> (forall s, 0 < s < 64 -> f s = 0) -> nonzero (table f) = 1.
Proof.
  intros F0 Fs. pose proof (nonzero_insert (fun _ => 0) f 0 (f 0) ltac:(lia) eq_refl ltac:(intros j Hj Hne; apply Fs; lia)) as E. rewrite (proj2 (nonzero_zero (fun _ => 0) ltac:(done))) in E. unfold nz in E. rewrite (proj2 (Z.eqb_neq (f 0) 0) F0) in E. exact E.
Qed.

(** The positions when only the root may be without an index below it. *)
Definition rooted (M : contents) (H : nat) (pos : positions) : Prop := forall l k, is_Some (pos !! (l, k)) <-> (l < H)%nat /\ ((exists j, is_Some (M !! j) /\ up j (S l) = k) \/ l = (H - 1)%nat /\ k = 0).
Definition least_height (M : contents) (H : nat) : Prop := H = 1%nat \/ M = ∅ \/ exists j, is_Some (M !! j) /\ up j (H - 1) <> 0.

Lemma drop_root M H pos h p : built h M pos -> rooted M (S H) pos -> pos !! (H, 0) = Some p -> built h M (delete (H, 0) pos).
Proof.
  intros B D Ep. split; [|intros x y z [_ Ex]%lookup_delete_Some [_ Ey]%lookup_delete_Some; by apply (bu_inj _ _ _ B _ _ z)]. intros l k q Eq. apply lookup_delete_Some in Eq as [Hne Eq]. rewrite (bu_node _ _ _ B l k q Eq). f_equal. apply node_ext. intros s Hs. symmetry. destruct l as [|l]; cbn [content]; [done|]. rewrite lookup_delete_ne; [done|]. intros [= <- _]. assert (Hl : is_Some (pos !! (S H, k))) by by exists q. apply D in Hl as [? _]. lia.
Qed.
Lemma size_pos (pos : positions) x p : pos !! x = Some p -> (0 < size pos)%nat.
Proof. intros E. destruct (size pos) eqn:Es; [|lia]. apply map_size_empty_iff in Es. by rewrite Es, lookup_empty in E. Qed.

Lemma shrink_ok M : (forall j v, M !! j = Some v -> 0 <= j) -> forall H fuel t pos, (S H < fuel)%nat -> (S H <= 11)%nat -> height t = Z.of_nat (S H) -> pos !! (H, 0) = Some (root t) -> built (heap t) M pos -> (forall x p, pos !! x = Some p -> is_node p = true) -> rooted M (S H) pos -> (forall j, is_Some (M !! j) -> up j (S H) = 0) -> nodes t = u64 (Z.of_nat (size pos)) ->
  exists t' pos' H', shrink deferred_free fuel t = Ret t' /\ (S H' <= S H)%nat /\ height t' = Z.of_nat (S H') /\ pos' !! (H', 0) = Some (root t') /\ built (heap t') M pos' /\ (forall x p, pos' !! x = Some p -> pos !! x = Some p) /\ rooted M (S H') pos' /\ (forall j, is_Some (M !! j) -> up j (S H') = 0) /\ least_height M (S H') /\
    nodes t' = u64 (Z.of_nat (size pos')) /\ entries t' = entries t /\ seq_ t' = seq_ t /\ (forall z, unused pos z -> heap t' !! z = heap t !! z).
Proof.
  intros Hpos. induction H as [|H IH]; intros fuel t pos Hfu H11 Hh Er B N D Hfit Hno; (destruct fuel as [|fuel]; [lia|]); cbn [shrink].
  - rewrite Hh. cbn [Z.of_nat Pos.of_succ_nat Z.gtb Z.compare Pos.compare Pos.compare_cont]. exists t, pos, 0%nat. do 7 (split; [done|]). split; [done|]. split; [by left|]. done.
  - rewrite (proj2 (Z.gtb_lt _ _)) by lia. rewrite (bu_node _ _ _ B _ _ _ Er). cbn [deref]. rewrite ret_bind. cbn [slots count node_at]. rewrite radix_table_get, ret_bind by lia. change (content M pos (S H) 0 0) with (default 0 (pos !! (H, 0))). set (f := content M pos (S H) 0) in *.
    assert (Hf : forall s, 0 <= s < 64 -> f s = default 0 (pos !! (H, s))) by (intros s Hs; done).
    destruct ((nonzero (table f) =? 1) && nz (default 0 (pos !! (H, 0)))) eqn:Ec.
    + apply andb_true_iff in Ec as [E1 E2]. reify_bools. unfold nz in E2. destruct (pos !! (H, 0)) as [c|] eqn:E0; [|done]. cbn [from_option id] in *. clear E2.
      assert (Hfit' : forall j, is_Some (M !! j) -> up j (S H) = 0). { intros j Hj. destruct (decide (up j (S H) = 0)) as [|Hne]; [done|]. exfalso. assert (Hs : is_Some (pos !! (H, up j (S H)))) by (apply D; split; [lia|]; left; by exists j). destruct Hs as [q Eq]. pose proof (Hfit j Hj) as Hz. rewrite up_S in Hz. destruct Hj as [w Ew]. pose proof (up_nonneg j (S H) (Hpos j w Ew)). assert (up j (S H) < 64) by (apply Z.div_small_iff in Hz; lia).
        pose proof (nonzero_two f 0 (up j (S H)) ltac:(lia) ltac:(lia) ltac:(lia)) as H2. rewrite !Hf, E0, Eq in H2 by lia. cbn in H2. specialize (H2 (is_node_nonzero managed _ (N _ _ E0)) (is_node_nonzero managed _ (N _ _ Eq))). lia. }
      set (t1 := set_root c (u8 (height t - 1)) t). destruct (free_fields (root t) t1) as (F1 & F2 & F3 & F4 & F5 & F6). pose proof (delete_unused pos (heap t) M _ (root t) B Er) as Hu. pose proof (drop_root M (S H) pos (heap t) (root t) B D Er) as B1.
      destruct (IH fuel (set_nodes (u64 (nodes (radix_node_free (root t) t1) - 1)) (radix_node_free (root t) t1)) (delete (S H, 0) pos)) as (t' & pos' & H' & E' & Hle & Hh' & Er' & B' & Hsub & D' & Fit' & Lh & Hno' & Hen & Hsq & O'); [lia|lia| | | | | |done| |].
      * cbn. rewrite F4. subst t1. cbn. rewrite Hh, u8_id by lia. lia.
      * cbn. rewrite F1. subst t1. cbn. rewrite lookup_delete_ne by (intros [= ?]; lia). exact E0.
      * cbn. by apply free_built.
      * intros x z Ez. apply lookup_delete_Some in Ez as [_ Ez]. by apply (N x).
      * intros l k. destruct (decide ((l, k) = (S H, 0))) as [E|Hne]; [injection E as -> ->; rewrite lookup_delete_eq; split; [by intros [? ?]|intros [? _]; lia]|]. rewrite lookup_delete_ne by congruence. rewrite (D l k). split.
        -- intros [Hl [(j & Hj & Ej)|[-> ->]]]; [|exfalso; apply Hne; f_equal; lia]. split; [|left; by exists j]. destruct (decide (l = S H)) as [->|]; [|lia]. exfalso. apply Hne. by rewrite <- Ej, (Hfit j Hj).
        -- intros [Hl [?|[-> ->]]]; (split; [lia|]); [by left|]. left. replace (S H - 1)%nat with H by lia. assert (Hs : is_Some (pos !! (H, 0))) by by exists c. apply D in Hs as [_ [?|[? _]]]; [done|lia].
      * cbn. rewrite F3. subst t1. cbn. rewrite Hno, u64_diff. f_equal. rewrite map_size_delete, Er. pose proof (size_pos pos _ _ Er). lia.
      * exists t', pos', H'. split; [exact E'|]. split; [lia|]. do 3 (split; [done|]). split; [intros x z Ez; apply Hsub in Ez; by apply lookup_delete_Some in Ez as [_ ?]|]. do 4 (split; [done|]). split; [rewrite Hen; cbn; by rewrite F2|]. split; [rewrite Hsq; cbn; by rewrite F5|]. intros z Hz. rewrite O' by (intros x Ex; apply lookup_delete_Some in Ex as [_ Ex]; by apply (Hz x)). cbn. rewrite F6 by (intros ->; by apply (Hz (S H, 0))). done.
    + exists t, pos, (S H). do 7 (split; [done|]). split; [done|]. split; [|done]. right. destruct (decide (M = ∅)) as [?|HM]; [by left|right]. replace (S (S H) - 1)%nat with (S H) by lia. destruct (decide (map_Exists (fun j _ => up j (S H) <> 0) M)) as [(j & w & Ej & Hj)|HE]; [exists j; split; [by exists w|done]|]. exfalso.
      assert (Hz : forall j, is_Some (M !! j) -> up j (S H) = 0) by (intros j [w Ew]; destruct (decide (up j (S H) = 0)); [done|]; exfalso; apply HE; by exists j, w). apply map_choose in HM as (j & w & Ej). assert (Hs0 : is_Some (pos !! (H, 0))) by (apply D; split; [lia|]; left; exists j; split; [by exists w|apply Hz; by exists w]). destruct Hs0 as [c Ec0]. rewrite Ec0 in Ec. cbn in Ec.
      assert (E1 : nonzero (table f) = 1). { apply nonzero_single; [rewrite Hf, Ec0 by lia; by apply (is_node_nonzero managed), (N _ _ Ec0)|]. intros s Hs. rewrite Hf by lia. destruct (pos !! (H, s)) as [q|] eqn:Eq; [|done]. exfalso. assert (Hs' : is_Some (pos !! (H, s))) by by exists q. apply D in Hs' as [_ [(j' & Hj' & Ej')|[? _]]]; [|lia]. rewrite Hz in Ej' by done. lia. }
      rewrite E1 in Ec. unfold nz in Ec. rewrite (proj2 (Z.eqb_neq c 0)) in Ec by by apply (is_node_nonzero managed), (N _ _ Ec0). done.
Qed.

(** ** Deletion *)

Lemma rooted_shape M H pos : (forall j v, M !! j = Some v -> 0 <= j < 2 ^ 64 /\ v <> 0) -> M <> ∅ -> rooted M (S H) pos -> (forall j, is_Some (M !! j) -> up j (S H) = 0) -> (S H <= 11)%nat -> least_height M (S H) -> shape M (S H) pos.
Proof.
  intros HK HM D Hf H11 Hlh. split; [done| |done|done|].
  - intros l k. rewrite (D l k). split; [|intros [? ?]; split; [done|by left]]. intros [Hl [?|[-> ->]]]; [done|]. split; [done|]. apply map_choose in HM as (j & w & Ej). exists j. split; [by exists w|]. replace (S (S H - 1)) with (S H) by lia. apply Hf. by exists w.
  - right. split; [done|]. destruct Hlh as [?|[?|(j & Hj & Ej)]]; [by left|done|]. destruct (decide (H = 0%nat)) as [->|]; [by left|]. right. split; [lia|]. exists j. done.
Qed.

Lemma radix_delete_ok t M pos i : holds t M pos -> 0 <= i < 2 ^ 64 ->
  exists t' pos', asc_radix_tree_delete managed deferred_free i t = Ret (default 0 (M !! i), t') /\ seq_ t' = u32 (seq_ t + 2) /\ holds t' (delete i M) pos' /\ (forall x p, pos' !! x = Some p -> pos !! x = Some p) /\ (forall z, unused pos z -> heap t' !! z = heap t !! z).
Proof.
  intros Ho Hi. unfold asc_radix_tree_delete. cbv zeta. unfold radix_mut_lock, radix_mut_unlock. pose proof (bump_holds managed t M pos Ho) as Ho1. rewrite (reset_holds managed (bump t) M pos Ho1). assert (Hseq : forall s, u32 (u32 (s + 1) + 1) = u32 (s + 2)) by (intros s; rewrite u32_sum; f_equal; lia).
  assert (Hskip : M !! i = None -> exists t' pos', Ret (0, bump (bump t)) = Ret (default 0 (M !! i), t') /\ seq_ t' = u32 (seq_ t + 2) /\ holds t' (delete i M) pos' /\ (forall x p, pos' !! x = Some p -> pos !! x = Some p) /\ (forall z, unused pos z -> heap t' !! z = heap t !! z)).
  { intros Em. exists (bump (bump t)), pos. rewrite Em, delete_id by done. split; [done|]. split; [apply Hseq|]. split; [by apply bump_holds|done]. }
  pose proof (ho_shape _ _ _ _ Ho1) as Sh. destruct (holds_cases managed (bump t) M pos Ho1) as [(_ & Hr & -> & ->)|(h & Hht & Eh & Hh10 & Eroot & Hnode & HM & Etop)].
  { rewrite Hr, is_node_zero. cbn [negb orb]. apply Hskip. apply lookup_empty. }
  rewrite Eh in Sh. rewrite Hnode. cbn [negb orb]. rewrite (height_fits managed (bump t) M pos i Ho1 Hi) by lia. rewrite Eh. case_bool_decide as Eu; cbn [negb]; [|apply Hskip; destruct (M !! i) as [v|] eqn:Em; [|done]; exfalso; apply Eu; apply (sh_fit _ _ _ Sh); by exists v].
  assert (Hcl : closed (S h) pos i) by (rewrite <- Eh; by apply (holds_closed managed (bump t) M)). pose proof (descend_ok (heap (bump t)) M pos (S h) i (ho_built _ _ _ _ Ho1) Hcl (ho_node _ _ _ _ Ho1) ltac:(lia) h (root (bump t)) [] ltac:(lia) ltac:(by rewrite Eu) I) as Hd. rewrite Etop. rewrite up_S, up_0 in Hd. destruct (pos !! (0%nat, i / 64)) as [leaf|] eqn:El; [|rewrite Hd, ret_bind; apply Hskip; destruct (M !! i) as [v|] eqn:Em; [|done]; destruct (shape_leaf _ _ _ _ _ Sh Em); congruence].
  destruct Hd as (path & Ed & HA & Hlp). rewrite Ed, ret_bind, slot_leaf, ret_bind, (slot_at _ M pos 0 _ leaf _ (ho_built _ _ _ _ Ho1) El) by (apply Z.mod_pos_bound; lia). rewrite ret_bind, leaf_content. destruct (M !! i) as [v|] eqn:Em; cbn [from_option id]; [|by apply Hskip]. clear Hskip. destruct (sh_keys _ _ _ Sh i v Em) as [_ Hv]. rewrite (proj2 (Z.eqb_neq v 0) Hv).
  destruct (leaf_write (heap (bump t)) M pos i 0 leaf (-1) (ho_built _ _ _ _ Ho1) El) as (h1 & h2 & E1 & E2 & B2 & _ & _ & O); [rewrite Em; cbn; unfold nz; by rewrite (proj2 (Z.eqb_neq v 0) Hv)|]. rewrite E1, ret_bind, E2, ret_bind. cbn [put_value Z.eqb] in B2. change (put_value i 0 M) with (delete i M) in B2. set (M' := delete i M) in *. set (t1 := set_entries _ (set_heap h2 (bump t))).
  assert (HK : forall j w, M' !! j = Some w -> 0 <= j < 2 ^ 64 /\ w <> 0) by (intros j w Ej; apply lookup_delete_Some in Ej as [_ Ej]; by apply (sh_keys _ _ _ Sh j)). assert (Hfit : forall j, is_Some (M' !! j) -> up j (S h) = 0) by (intros j [w Ew]; apply lookup_delete_Some in Ew as [_ Ew]; apply (sh_fit _ _ _ Sh); by exists w).
  destruct (prune_ok i M' (S h) ltac:(intros j w Ej; by apply (HK j)) ltac:(lia) path 0 leaf t1 pos) as (t2 & pos2 & Ep2 & Bp & Hsub & Hno2 & R1 & R2 & R3 & R4 & Op & Htop & D2); [cbn in *; lia|lia|done|apply (ho_node _ _ _ _ Ho1)| |by rewrite up_S, up_0|done|apply (ho_nodes _ _ _ _ Ho1)|].
  { intros l k. rewrite (sh_dom _ _ _ Sh l k). split.
    - intros [Hl (j & Hj & Ej)]. split; [done|]. destruct (decide (j = i)) as [->|Hne]; [right; split; [lia|done]|left]. exists j. split; [by subst M'; rewrite lookup_delete_ne|done].
    - intros [Hl [(j & [w Ew] & Ej)|[_ ->]]]; (split; [done|]); [exists j; apply lookup_delete_Some in Ew as [_ Ew]; split; [by exists w|done]|exists i; split; [by exists v|done]]. }
  rewrite Ep2, ret_bind. replace (S h - 1)%nat with h in * by lia. rewrite Eu in Htop. assert (Dr : rooted M' (S h) pos2). { intros l k. rewrite (D2 l k). replace (S h - 1)%nat with h by lia. split; (intros [? [?|[? ->]]]; (split; [done|]); [by left|right]); assert (l = h) as -> by lia; [by rewrite Eu|split; [lia|by rewrite Eu]]. }
  assert (Hh2 : height t2 = Z.of_nat (S h)) by (rewrite R3; exact Hht). rewrite Hh2, Nat2Z.id.
  destruct (shrink_ok M' ltac:(intros j w Ej; by apply (HK j w)) h (S (S h)) t2 pos2) as (t3 & pos3 & h3 & Es & Hle & Hh3 & Er3 & B3 & Hsub3 & D3 & Fit3 & Lh3 & Hno3 & Hen3 & Hsq3 & O3); [lia|lia|done|rewrite Htop, R1; exact Eroot|done|intros x z Ez; apply (ho_node _ _ _ _ Ho1 x); by apply Hsub|done|done|done|]. rewrite Es, ret_bind.
  assert (Hsize : size M = S (size M')) by (subst M'; rewrite map_size_delete, Em; assert (0 < size M)%nat; [destruct (size M) eqn:Ez; [apply map_size_empty_iff in Ez; by rewrite Ez, lookup_empty in Em|lia]|lia]). pose proof (ho_size _ _ _ _ Ho) as Hsz.
  assert (Hent : entries t3 = Z.of_nat (size M')). { rewrite Hen3, R2. subst t1. cbn [entries set_entries]. rewrite (ho_entries _ _ _ _ Ho1), u64_diff, Hsize. rewrite u64_id; lia. }
  assert (Hfr : forall z, unused pos z -> heap t3 !! z = heap t !! z). { intros z Hz. rewrite O3 by (intros x Ex; apply Hsub in Ex; by apply (Hz x)). rewrite Op by done. subst t1. cbn. apply O. intros ->. by apply (Hz (0%nat, i / 64)). }
  assert (Hsub13 : forall x p, pos3 !! x = Some p -> pos !! x = Some p) by (intros x p Ex; by apply Hsub, Hsub3). assert (Hsq : seq_ t3 = u32 (seq_ t + 1)) by (rewrite Hsq3, R4; done). rewrite Hent. destruct (decide (M' = ∅)) as [HMe|HMne].
  - rewrite HMe, map_size_empty. change (Z.of_nat 0 =? 0) with true. cbv iota. destruct (free_fields (root t3) t3) as (F1 & F2 & F3 & F4 & F5 & F6). assert (Hone : pos3 = {[(h3, 0) := root t3]}).
    { apply map_eq. intros [l k]. destruct (decide ((l, k) = (h3, 0))) as [->|Hne]; [by rewrite lookup_singleton_eq|]. rewrite lookup_singleton_ne by congruence. destruct (pos3 !! (l, k)) as [q|] eqn:Eq; [|done]. exfalso. assert (Hs : is_Some (pos3 !! (l, k))) by by exists q. apply D3 in Hs as [_ [(j & Hj & _)|[-> ->]]]; [rewrite HMe, lookup_empty in Hj; by destruct Hj|]. apply Hne. f_equal. lia. }
    eexists _, ∅. split; [reflexivity|]. split; [cbn [seq_ bump set_nodes set_root]; rewrite F5, Hsq; apply Hseq|]. split; [|split; [intros x p; by rewrite lookup_empty|intros z Hz; cbn [heap bump set_nodes set_root]; rewrite F6; [by apply Hfr|intros ->; by apply (Hz (h3, 0)), Hsub13]]].
    apply bump_holds. split; cbn [height heap root entries nodes set_nodes set_root]; [done| |split; intros l k; by rewrite lookup_empty|intros x p; by rewrite lookup_empty|done| | |rewrite map_size_empty; done].
    + split; [intros j w; by rewrite lookup_empty| |intros j; rewrite lookup_empty; by intros [? ?]|cbn; lia|by left]. intros l k. rewrite lookup_empty. split; [by intros [? ?]|intros [? _]; cbn in *; lia].
    + rewrite F2, Hent, HMe, map_size_empty. done.
    + rewrite F3, Hno3, u64_diff, Hone, map_size_singleton, map_size_empty. done.
  - rewrite (proj2 (Z.eqb_neq _ 0)) by (intros Ez; apply HMne; apply map_size_empty_iff; lia). exists (bump t3), pos3. split; [done|]. split; [cbn; rewrite Hsq; apply Hseq|]. split; [|done]. apply bump_holds. split; rewrite ?Hh3, ?Nat2Z.id; [done| |done|intros x p Ex; apply (ho_node _ _ _ _ Ho1 x); by apply Hsub13|by rewrite Er3|rewrite Hent, u64_id; [done|lia]|done|lia]. apply rooted_shape; try done. lia.
Qed.

End Delete.
End RadixDelete.
