(* ===== verification/RadixWalk.v ===== *)
(** RadixWalk: what the traversals of a whole radix tree do: the order of the visits,
    the validation and the destruction. *)

From S2P Require Import Prelude RadixTree RadixSafe RadixInsert RadixDelete.
From stdpp Require Import list_relations.
From Stdlib Require Import Sorted.
#[local] Open Scope Z_scope.

Module RadixWalk.
Import RadixTree RadixSafe RadixInsert RadixDelete.
#[local] Notation contents := (gmap Z Z).
#[local] Notation positions := (gmap (nat * Z) Z).
#[local] Notation digits := (seqZ 0 64).

(** ** The entries and the nodes below a position, in the order of a traversal *)

Fixpoint entries_of (M : contents) (pos : positions) (l : nat) (k : Z) : list (Z * Z) :=
  match l with
  | O => flat_map (fun i => match M !! (64 * k + i) with Some v => [(64 * k + i, v)] | None => [] end) digits
  | S l => flat_map (fun i => match pos !! (l, 64 * k + i) with Some _ => entries_of M pos l (64 * k + i) | None => [] end) digits
  end.
(** A node after the nodes below it. *)
Fixpoint nodes_of (pos : positions) (l : nat) (k : Z) : list (nat * Z) :=
  match l with
  | O => [(O, k)]
  | S l => flat_map (fun i => match pos !! (l, 64 * k + i) with Some _ => nodes_of pos l (64 * k + i) | None => [] end) digits ++ [(S l, k)]
  end.

Lemma digit_in i : i ∈ digits <-> 0 <= i < 64.
Proof. rewrite elem_of_seqZ. lia. Qed.
Lemma flat_in {A B} (f : A -> list B) l y : y ∈ flat_map f l <-> exists x, x ∈ l /\ y ∈ f x.
Proof. rewrite list_elem_of_In, in_flat_map. split; intros (x & H1 & H2); exists x; rewrite ?list_elem_of_In in *; done. Qed.
Lemma digit_split k i x : 0 <= i < 64 -> 64 * k + i = x <-> x / 64 = k /\ x mod 64 = i.
Proof.
  intros Hi. split; [intros <-|intros [<- <-]; symmetry; apply Z.div_mod; lia]. split; [symmetry; apply (Z.div_unique _ 64 k i); lia|symmetry; apply (Z.mod_unique _ 64 k i); lia].
Qed.

Lemma entries_in M H pos : shape M H pos -> forall l k j v, (l < H)%nat -> (j, v) ∈ entries_of M pos l k <-> M !! j = Some v /\ up j (S l) = k.
Proof.
  intros Sh. induction l as [|l IH]; intros k j v Hl; cbn [entries_of]; rewrite flat_in.
  - rewrite up_S, up_0. split.
    + intros (i & Hi & Hin). apply digit_in in Hi. destruct (M !! (64 * k + i)) as [w|] eqn:Em; [|by apply not_elem_of_nil in Hin]. apply list_elem_of_singleton in Hin as [= -> ->]. split; [done|]. by apply (digit_split k i _ Hi).
    + intros [Em <-]. exists (j mod 64). split; [apply digit_in, Z.mod_pos_bound; lia|]. rewrite <- Z.div_mod by lia. rewrite Em. by apply list_elem_of_singleton.
  - split.
    + intros (i & Hi & Hin). apply digit_in in Hi. destruct (pos !! (l, 64 * k + i)) as [p|] eqn:Ep; [|by apply not_elem_of_nil in Hin]. apply IH in Hin as [Em Eu]; [|lia]. split; [done|]. rewrite up_S. symmetry in Eu. by apply (digit_split k i _ Hi).
    + intros [Em <-]. exists (up j (S l) mod 64). split; [apply digit_in, Z.mod_pos_bound; lia|]. rewrite (up_S j (S l)), <- Z.div_mod by lia. assert (Hs : is_Some (pos !! (l, up j (S l)))) by (apply (sh_dom _ _ _ Sh); split; [lia|]; exists j; split; [by exists v|done]). destruct Hs as [p ->]. apply IH; [lia|done].
Qed.
Lemma nodes_in M H pos : shape M H pos -> forall l k l' k', (l < H)%nat -> is_Some (pos !! (l, k)) -> (l', k') ∈ nodes_of pos l k <-> (l' <= l)%nat /\ is_Some (pos !! (l', k')) /\ up k' (l - l') = k.
Proof.
  intros Sh. induction l as [|l IH]; intros k l' k' Hl Hk; cbn [nodes_of].
  - rewrite list_elem_of_singleton. split; [intros [= -> ->]; done|]. intros (Hle & _ & E). assert (l' = 0%nat) as -> by lia. by rewrite <- E.
  - rewrite elem_of_app, list_elem_of_singleton, flat_in. split.
    + intros [(i & Hi & Hin)|[= -> ->]]; [|split; [done|]; split; [done|]; by rewrite Nat.sub_diag]. apply digit_in in Hi. destruct (pos !! (l, 64 * k + i)) as [p|] eqn:Ep; [|by apply not_elem_of_nil in Hin]. apply IH in Hin as (Hle & Hs & E); [|lia|by exists p]. split; [lia|]. split; [done|]. replace (S l - l')%nat with (S (l - l')) by lia. rewrite up_S. symmetry in E. by apply (digit_split k i _ Hi).
    + intros (Hle & Hs & E). destruct (decide (l' = S l)) as [->|Hne]; [right; rewrite Nat.sub_diag in E; by rewrite <- E|left]. replace (S l - l')%nat with (S (l - l')) in E by lia. rewrite up_S in E. exists (up k' (l - l') mod 64). split; [apply digit_in, Z.mod_pos_bound; lia|]. rewrite <- E, <- Z.div_mod by lia.
      assert (Hp : is_Some (pos !! (l, up k' (l - l')))). { pose proof Hs as Hs'. apply (sh_dom _ _ _ Sh) in Hs' as [_ (j & Hj & Ej)]. apply (sh_dom _ _ _ Sh). split; [lia|]. exists j. split; [done|]. rewrite <- Ej, !up_div, Z.div_div by lia. f_equal. rewrite <- Z.pow_add_r by lia. f_equal. lia. }
      destruct Hp as [p Ep]. rewrite Ep. apply IH; [lia|by exists p|]. split; [lia|done].
Qed.

(** Lists joined over ordered keys are ordered. *)
Lemma sorted_flat {A} (R : A -> A -> Prop) (f : Z -> list A) l : StronglySorted Z.lt l -> (forall i, i ∈ l -> StronglySorted R (f i)) -> (forall i j x y, i < j -> x ∈ f i -> y ∈ f j -> R x y) -> StronglySorted R (flat_map f l).
Proof.
  intros Hl Hf HR. induction Hl as [|i l Hl IH HF]; cbn; [constructor|]. assert (Hi : StronglySorted R (f i)) by (apply Hf; left). assert (Hrest : StronglySorted R (flat_map f l)) by (apply IH; intros j Hj; apply Hf; by right).
  assert (Hx : forall x, x ∈ f i -> Forall (R x) (flat_map f l)). { intros x Hx. apply Forall_forall. intros y Hy. apply flat_in in Hy as (j & Hj & Hy). rewrite List.Forall_forall in HF. apply (HR i j); [apply HF; by apply list_elem_of_In|done|done]. }
  clear Hf HF. induction Hi as [|x l' Hl' IH' HF']; cbn; [done|]. constructor; [apply IH'; intros y Hy; apply Hx; by right|]. apply Forall_app. split; [done|]. apply Hx. left.
Qed.
Lemma digits_sorted : StronglySorted Z.lt digits.
Proof.
  assert (H : forall n i, StronglySorted Z.lt (seqZ i (Z.of_nat n))); [|apply (H 64%nat)]. induction n as [|n IH]; intros i; [constructor|]. rewrite seqZ_cons by lia. replace (Z.pred (Z.of_nat (S n))) with (Z.of_nat n) by lia. constructor; [apply IH|]. apply List.Forall_forall. intros x Hx. apply list_elem_of_In, elem_of_seqZ in Hx. lia.
Qed.
Definition key_lt (a b : Z * Z) : Prop := fst a < fst b.
Lemma entries_sorted M H pos : shape M H pos -> forall l k, (l < H)%nat -> StronglySorted key_lt (entries_of M pos l k).
Proof.
  intros Sh. assert (Hup : forall j j' l, up j l < up j' l -> j < j'). { intros j j' l. rewrite !up_div. intros Hlt. destruct (decide (j < j')); [done|]. exfalso. pose proof (Z.div_le_mono j' j (2 ^ (6 * Z.of_nat l)) ltac:(apply Z.pow_pos_nonneg; lia) ltac:(lia)). lia. }
  induction l as [|l IH]; intros k Hl; cbn [entries_of]; apply sorted_flat; try apply digits_sorted.
  - intros i _. destruct (M !! _); repeat constructor.
  - intros i j x y Hij Hx Hy. destruct (M !! (64 * k + i)); [|by apply not_elem_of_nil in Hx]. destruct (M !! (64 * k + j)); [|by apply not_elem_of_nil in Hy]. apply list_elem_of_singleton in Hx, Hy. subst. unfold key_lt. cbn. lia.
  - intros i _. destruct (pos !! _); [apply IH; lia|constructor].
  - intros i j [x v] [y w] Hij Hx Hy. destruct (pos !! (l, 64 * k + i)); [|by apply not_elem_of_nil in Hx]. destruct (pos !! (l, 64 * k + j)); [|by apply not_elem_of_nil in Hy]. apply (entries_in M H pos Sh) in Hx as [_ Ex], Hy as [_ Ey]; [|lia|lia]. unfold key_lt. cbn. apply (Hup _ _ (S l)). lia.
Qed.
Lemma sorted_nodup (l : list (Z * Z)) : StronglySorted key_lt l -> NoDup l.
Proof. induction 1 as [|x l _ IH HF]; constructor; [|done]. intros Hin. rewrite List.Forall_forall in HF. apply list_elem_of_In in Hin. specialize (HF x Hin). unfold key_lt in HF. lia. Qed.

Lemma nodup_flat {A B} (f : A -> list B) l : NoDup l -> (forall x y z, x ∈ l -> y ∈ l -> z ∈ f x -> z ∈ f y -> x = y) -> (forall x, x ∈ l -> NoDup (f x)) -> NoDup (flat_map f l).
Proof.
  intros Hl Hd Hf. induction Hl as [|x l Hx Hl IH]; cbn; [constructor|]. apply NoDup_app. split; [apply Hf; left|]. split; [|apply IH; [intros a b z Ha Hb; apply Hd; by right|intros a Ha; apply Hf; by right]]. intros z Hz Hin. apply flat_in in Hin as (y & Hy & Hz'). apply Hx. rewrite (Hd x y z); [done|left|by right|done|done].
Qed.
Lemma nodes_nodup M H pos : shape M H pos -> forall l k, (l < H)%nat -> is_Some (pos !! (l, k)) -> NoDup (nodes_of pos l k).
Proof.
  intros Sh. induction l as [|l IH]; intros k Hl Hk; cbn [nodes_of]; [apply NoDup_singleton|].
  assert (Hin : forall i x, x ∈ match pos !! (l, 64 * k + i) with Some _ => nodes_of pos l (64 * k + i) | None => [] end -> (fst x <= l)%nat /\ up (snd x) (l - fst x) = 64 * k + i).
  { intros i [l' k'] Hx. destruct (pos !! (l, 64 * k + i)) as [p|] eqn:Ep; [|by apply not_elem_of_nil in Hx]. apply (nodes_in M H pos Sh) in Hx as (H1 & _ & H3); [done|lia|by exists p]. }
  apply NoDup_app. split; [|split; [|apply NoDup_singleton]].
  - apply nodup_flat; [apply NoDup_seqZ|intros i j x _ _ Hi Hj; apply Hin in Hi, Hj; lia|]. intros i _. destruct (pos !! (l, 64 * k + i)) as [p|] eqn:Ep; [apply IH; [lia|by exists p]|constructor].
  - intros x Hx ->%list_elem_of_singleton. apply flat_in in Hx as (i & _ & Hx). apply Hin in Hx as [? _]. cbn in *. lia.
Qed.

(** ** Visits that can stop *)

Fixpoint visit {B A} (G : B -> A -> bool * A) (l : list B) (a : A) : bool * A :=
  match l with [] => (true, a) | x :: l => let '(go, a) := G x a in if go then visit G l a else (false, a) end.
Lemma visit_app {B A} (G : B -> A -> bool * A) l1 l2 a : visit G (l1 ++ l2) a = let '(go, a) := visit G l1 a in if go then visit G l2 a else (false, a).
Proof. revert a. induction l1 as [|x l1 IH]; intros a; cbn; [done|]. destruct (G x a) as [[|] b]; [apply IH|done]. Qed.
Lemma visit_one {B A} (G : B -> A -> bool * A) x a : visit G [x] a = G x a.
Proof. cbn. by destruct (G x a) as [[|] b]. Qed.
Lemma visit_flat {B C A} (G : C -> A -> bool * A) (g : B -> list C) l a : visit G (flat_map g l) a = visit (fun i => visit G (g i)) l a.
Proof. revert a. induction l as [|x l IH]; intros a; cbn; [done|]. rewrite visit_app. destruct (visit G (g x) a) as [[|] b]; [apply IH|done]. Qed.
Lemma visit_filter {B A} (G : B -> A -> bool * A) (f : B -> bool) l a : visit (fun x a => if f x then G x a else (true, a)) l a = visit G (List.filter f l) a.
Proof. revert a. induction l as [|x l IH]; intros a; cbn; [done|]. destruct (f x); cbn; [|apply IH]. destruct (G x a) as [[|] b]; [apply IH|done]. Qed.

Lemma slots_visit {A} (F : Z -> Z -> A -> outcome (bool * A)) (G : Z -> A -> bool * A) f a :
  (forall i a, 0 <= i < 64 -> f i = 0 -> G i a = (true, a)) -> (forall i a, 0 <= i < 64 -> f i <> 0 -> F i (f i) a = Ret (G i a)) -> over_slots F 0 (table f) a = Ret (visit G digits a).
Proof.
  intros H0 H1. unfold table. assert (H : forall n i a, 0 <= i -> i + Z.of_nat n <= 64 -> over_slots F i (map f (seqZ i (Z.of_nat n))) a = Ret (visit G (seqZ i (Z.of_nat n)) a)); [|apply (H 64%nat 0 a); lia].
  induction n as [|n IH]; intros i b Hi Hn; [done|]. rewrite seqZ_cons by lia. replace (Z.pred (Z.of_nat (S n))) with (Z.of_nat n) by lia. cbn [map over_slots visit]. replace (Z.succ i) with (i + 1) by lia. destruct (f i =? 0) eqn:E; reify_bools.
  - rewrite H0 by (lia || done). apply IH; lia.
  - rewrite H1, ret_bind by (lia || done). destruct (G i b) as [[|] b']; [apply IH; lia|done].
Qed.

(** ** Iteration *)

Section Trees.
Variable managed : Z -> bool.
Variable deferred_free : bool.
Notation is_node := (radix_ptr_is_node managed).
Notation holds := (RadixSafe.holds managed).

Lemma content_zero M H pos l k i : shape M H pos -> (forall x p, pos !! x = Some p -> is_node p = true) -> content M pos l k i = 0 -> match l with O => M !! (64 * k + i) = None | S l => pos !! (l, 64 * k + i) = None end.
Proof.
  intros Sh N. destruct l as [|l]; cbn [content]; intros E.
  - destruct (M !! (64 * k + i)) as [v|] eqn:Em; [|done]. by apply (sh_keys _ _ _ Sh) in Em as [_ ?].
  - destruct (pos !! (l, 64 * k + i)) as [p|] eqn:Ep; [|done]. by apply (is_node_nonzero managed _ (N _ _ Ep)) in E.
Qed.

(** The first index below a child. *)
Lemma child_key k i l j : (l <= 10)%nat -> 0 <= k -> 0 <= i < 64 -> up j l = 64 * k + i -> 0 <= j < 2 ^ 64 -> radix_key (Z.shiftl k (6 * Z.of_nat (S l))) i (Z.of_nat l) = Ret (Z.shiftl (64 * k + i) (6 * Z.of_nat l)).
Proof.
  intros Hl Hk Hi Hj Hb. unfold radix_key, RADIX_TREE_BITS. rewrite (proj2 (Z.ltb_lt _ _)) by lia. f_equal. replace (Z.of_nat l * 6) with (6 * Z.of_nat l) by lia. set (e := 6 * Z.of_nat l). rewrite (Z.shiftl_mul_pow2 i), (Z.shiftl_mul_pow2 (64 * k + i)) by lia. assert (He : 0 < 2 ^ e) by (apply Z.pow_pos_nonneg; lia).
  assert (Hle : (64 * k + i) * 2 ^ e <= j). { rewrite <- Hj, up_div. fold e. rewrite Z.mul_comm. apply Z.mul_div_le. done. }
  rewrite u64_id by nia. rewrite Z.lor_comm. replace (6 * Z.of_nat (S l)) with (e + 6) by lia. rewrite lor_shiftl_add by (rewrite ?Z.pow_add_r by lia; nia). rewrite Z.pow_add_r by lia. change (2 ^ 6) with 64. lia.
Qed.

Section Iter.
Context {C : Type}.
Variable callback : Z -> Z -> C -> bool * C.
Variables first last : Z.
(** The callback for the indices in the range. *)
Definition range_step (e : Z * Z) (c : C) : bool * C := if (fst e >=? first) && (fst e <=? last) then callback (fst e) (snd e) c else (true, c).

Lemma iter_ok h M H pos : shape M H pos -> built h M pos -> (forall x p, pos !! x = Some p -> is_node p = true) ->
  forall l k p c, (l < H)%nat -> pos !! (l, k) = Some p -> radix_iter_node managed callback l p (Z.shiftl k (6 * Z.of_nat (S l))) first last h c = Ret (visit range_step (entries_of M pos l k) c).
Proof.
  intros Sh B N. induction l as [|l IH]; intros k p c Hl Ep; cbn [radix_iter_node entries_of]; rewrite (N _ _ Ep); cbn [negb]; rewrite (bu_node _ _ _ B _ _ _ Ep); cbn [deref]; rewrite ret_bind, visit_flat; cbn [slots node_at];
  (assert (Hk : 0 <= k) by (assert (Hs : is_Some (pos !! (_, k))) by (by exists p); apply (sh_dom _ _ _ Sh) in Hs as [_ (j & [w Ew] & <-)]; apply up_nonneg; by apply (sh_keys _ _ _ Sh j w))); apply slots_visit.
  - intros i b Hi E. apply (content_zero M H pos 0 k i Sh N) in E. by rewrite E.
  - intros i b Hi E. cbn [content] in *. destruct (M !! (64 * k + i)) as [v|] eqn:Em; [|done]. cbn [from_option id] in *. rewrite visit_one. assert (Hj : up (64 * k + i) 0 = 64 * k + i) by apply up_0. rewrite (child_key k i 0 (64 * k + i)), ret_bind by (lia || done || apply (sh_keys _ _ _ Sh _ _ Em)). change (6 * Z.of_nat 0) with 0. rewrite Z.shiftl_0_r. unfold range_step. cbn [fst snd]. by destruct (_ && _).
  - intros i b Hi E. apply (content_zero M H pos (S l) k i Sh N) in E. by rewrite E.
  - intros i b Hi E. cbn [content] in *. destruct (pos !! (l, 64 * k + i)) as [q|] eqn:Eq; [|done]. cbn [from_option id] in *. rewrite <- IH with (p := q) by (done || lia). assert (Hs : is_Some (pos !! (l, 64 * k + i))) by (by exists q). apply (sh_dom _ _ _ Sh) in Hs as [_ (j & [w Ew] & Ej)]. rewrite (child_key k i (S l) j), ret_bind by (done || apply (sh_keys _ _ _ Sh _ _ Ew) || (pose proof (sh_max _ _ _ Sh); lia)). by rewrite (N _ _ Eq).
Qed.
End Iter.

(** The entries of a tree in order. *)
Definition listing (M : contents) (l : list (Z * Z)) : Prop := StronglySorted key_lt l /\ forall j v, (j, v) ∈ l <-> M !! j = Some v.
Lemma listing_top M h pos : shape M (S h) pos -> listing M (entries_of M pos h 0).
Proof.
  intros Sh. split; [apply (entries_sorted M (S h) pos Sh); lia|]. intros j v. rewrite (entries_in M (S h) pos Sh) by lia. split; [by intros [? _]|]. intros E. split; [done|]. apply (sh_fit _ _ _ Sh). by exists v.
Qed.
Lemma listing_length M l : listing M l -> length l = size M.
Proof.
  intros [Hs Hin]. rewrite <- length_map_to_list. apply Permutation_length. apply NoDup_Permutation; [by apply sorted_nodup|apply NoDup_map_to_list|]. intros [j v]. by rewrite Hin, elem_of_map_to_list.
Qed.
Lemma listing_unique M l l' : listing M l -> listing M l' -> l = l'.
Proof.
  intros [H1 I1] [H2 I2]. assert (I : forall x, x ∈ l <-> x ∈ l') by (intros [j v]; by rewrite I1, I2). clear I1 I2. revert l' H2 I. induction H1 as [|x l H1 IH F1]; intros l' H2 I.
  - destruct l' as [|y l']; [done|]. assert (Hy : y ∈ @nil (Z * Z)) by (apply I; left). by apply not_elem_of_nil in Hy.
  - destruct H2 as [|y l' H2 F2]; [assert (Hx : x ∈ @nil (Z * Z)) by (apply I; left); by apply not_elem_of_nil in Hx|]. rewrite List.Forall_forall in F1, F2. unfold key_lt in F1, F2. assert (x = y) as ->.
    { assert (Hx : x ∈ y :: l') by (apply I; left). assert (Hy : y ∈ x :: l) by (apply I; left). apply elem_of_cons in Hx as [?|Hx]; [done|]. apply elem_of_cons in Hy as [?|Hy]; [done|]. apply list_elem_of_In in Hx, Hy. specialize (F1 _ Hy). specialize (F2 _ Hx). lia. }
    f_equal. apply IH; [done|]. intros z. specialize (I z). rewrite !elem_of_cons in I. split; intros Hz.
    + destruct (proj1 I (or_intror Hz)) as [->|]; [|done]. apply list_elem_of_In in Hz. specialize (F1 _ Hz). lia.
    + destruct (proj2 I (or_intror Hz)) as [->|]; [|done]. apply list_elem_of_In in Hz. specialize (F2 _ Hz). lia.
Qed.

Lemma for_each_range_ok {C} (callback : Z -> Z -> C -> bool * C) t M pos first last c : holds t M pos -> first <= last ->
  exists l, listing M l /\ asc_radix_tree_for_each_range managed callback t first last c = Ret (visit (range_step callback first last) l c).
Proof.
  intros Ho Hr. unfold asc_radix_tree_for_each_range. rewrite Z.gtb_ltb, (proj2 (Z.ltb_ge _ _)) by lia. destruct (holds_cases managed t M pos Ho) as [(_ & -> & -> & _)|(h & _ & Eh & _ & Er & Hn & _ & Et)].
  - exists []. split; [|done]. split; [constructor|]. intros j v. rewrite lookup_empty. split; [by intros ?%not_elem_of_nil|done].
  - pose proof (ho_shape _ _ _ _ Ho) as Sh. rewrite Eh in Sh. exists (entries_of M pos h 0). split; [by apply listing_top|]. rewrite (proj2 (Z.eqb_neq _ _)) by by apply (is_node_nonzero managed). rewrite Et. rewrite <- (iter_ok callback first last (heap t) M (S h) pos Sh (ho_built _ _ _ _ Ho) (ho_node _ _ _ _ Ho) h 0 (root t) c) by (lia || done). by rewrite Z.shiftl_0_l.
Qed.

(** ** Validation *)

(** A loop that does not stop, by its state before each digit. *)
Lemma slots_run {A} (F : Z -> Z -> A -> outcome (bool * A)) f (st : Z -> A) : (forall i, 0 <= i < 64 -> f i = 0 -> st (i + 1) = st i) -> (forall i, 0 <= i < 64 -> f i <> 0 -> F i (f i) (st i) = Ret (true, st (i + 1))) -> over_slots F 0 (table f) (st 0) = Ret (true, st 64).
Proof.
  intros H0 H1. unfold table. assert (H : forall n i, 0 <= i -> i + Z.of_nat n = 64 -> over_slots F i (map f (seqZ i (Z.of_nat n))) (st i) = Ret (true, st 64)); [|apply (H 64%nat 0); lia].
  induction n as [|n IH]; intros i Hi Hn; [by replace i with 64 by lia|]. rewrite seqZ_cons by lia. replace (Z.pred (Z.of_nat (S n))) with (Z.of_nat n) by lia. cbn [map over_slots]. replace (Z.succ i) with (i + 1) by lia. destruct (f i =? 0) eqn:E; reify_bools.
  - rewrite <- H0 by (lia || done). apply IH; lia.
  - rewrite H1, ret_bind by (lia || done). apply IH; lia.
Qed.
Lemma digits_snoc i : 0 <= i -> seqZ 0 (i + 1) = seqZ 0 i ++ [i].
Proof. intros Hi. rewrite seqZ_app by lia. by rewrite Z.add_0_l. Qed.
Lemma flat_snoc {A} (g : Z -> list A) i : 0 <= i -> flat_map g (seqZ 0 (i + 1)) = flat_map g (seqZ 0 i) ++ g i.
Proof. intros Hi. rewrite digits_snoc by done. rewrite flat_map_app. cbn. by rewrite app_nil_r. Qed.

Lemma node_used M H pos l k : shape M H pos -> (forall x p, pos !! x = Some p -> is_node p = true) -> is_Some (pos !! (l, k)) -> 0 < nonzero (table (content M pos l k)) <= 64.
Proof.
  intros Sh N Hs. pose proof (nonzero_range (content M pos l k)). split; [|lia]. pose proof Hs as Hs'. apply (sh_dom _ _ _ Sh) in Hs' as [Hl (j & [v Ej] & <-)]. apply (nonzero_pos _ (up j l mod 64)); [apply Z.mod_pos_bound; lia|]. rewrite up_S. destruct l as [|l]; [rewrite up_0, leaf_content, Ej; by apply (sh_keys _ _ _ Sh) in Ej as [_ ?]|]. rewrite content_parent.
  assert (Hp : is_Some (pos !! (l, up j (S l)))) by (apply (sh_dom _ _ _ Sh); split; [lia|]; exists j; split; [by exists v|done]). destruct Hp as [q Eq]. rewrite Eq. by apply (is_node_nonzero managed _ (N _ _ Eq)).
Qed.

Lemma radix_validate_ok h M H pos : shape M H pos -> built h M pos -> (forall x p, pos !! x = Some p -> is_node p = true) ->
  forall l k p a b, (l < H)%nat -> pos !! (l, k) = Some p -> radix_validate_node managed l p h (u64 a, u64 b) = Ret (true, (u64 (a + Z.of_nat (length (nodes_of pos l k))), u64 (b + Z.of_nat (length (entries_of M pos l k))))).
Proof.
  intros Sh B N. induction l as [|l IH]; intros k p a b Hl Ep; cbn [radix_validate_node entries_of nodes_of]; rewrite (N _ _ Ep); cbn [negb]; rewrite (bu_node _ _ _ B _ _ _ Ep); cbn [deref]; rewrite ret_bind; cbn [slots count node_at]; (pose proof (node_used M H pos _ k Sh N (ex_intro _ _ Ep)) as Hu); set (f := content _ _ _ _) in *.
  - set (st := fun i => (u32 (countb nz (map f (seqZ 0 i))), (u64 a, u64 (b + Z.of_nat (length (flat_map (fun i => match M !! (64 * k + i) with Some v => [(64 * k + i, v)] | None => [] end) (seqZ 0 i))))))).
    replace (0, (u64 a, u64 b)) with (st 0) by (unfold st; cbn; by rewrite Z.add_0_r). rewrite (slots_run _ f st); [| |].
    + rewrite ret_bind. unfold st. cbn [fst snd]. change (countb nz (map f digits)) with (nonzero (table f)). rewrite u32_id by lia. rewrite Z.eqb_refl. unfold nz. rewrite (proj2 (Z.eqb_neq _ 0)) by lia. by rewrite u64_sum.
    + intros i Hi E. unfold st. rewrite flat_snoc, digits_snoc by lia. apply (content_zero M H pos 0 k i Sh N) in E as E'. rewrite E', app_nil_r, map_app. cbn [map]. rewrite E. by rewrite countb_app, Z.add_0_r.
    + intros i Hi E. unfold st. rewrite flat_snoc, digits_snoc by lia. rewrite map_app, countb_app, length_app. cbn [map countb fst snd]. unfold nz at 3. rewrite (proj2 (Z.eqb_neq _ _) E). subst f. cbn [content] in E. destruct (M !! (64 * k + i)) as [v|] eqn:Em; [|done]. cbn [length negb Z.b2z]. rewrite u32_sum, u64_sum, Z.add_0_r. do 5 f_equal. lia.
  - set (gn := fun i => match pos !! (l, 64 * k + i) with Some _ => nodes_of pos l (64 * k + i) | None => [] end). set (ge := fun i => match pos !! (l, 64 * k + i) with Some _ => entries_of M pos l (64 * k + i) | None => [] end).
    set (st := fun i => (u32 (countb nz (map f (seqZ 0 i))), (u64 (a + Z.of_nat (length (flat_map gn (seqZ 0 i)))), u64 (b + Z.of_nat (length (flat_map ge (seqZ 0 i))))))).
    replace (0, (u64 a, u64 b)) with (st 0) by (unfold st; cbn; by rewrite !Z.add_0_r). rewrite (slots_run _ f st); [| |].
    + rewrite ret_bind. unfold st. cbn [fst snd]. change (countb nz (map f digits)) with (nonzero (table f)). rewrite u32_id by lia. rewrite Z.eqb_refl. unfold nz. rewrite (proj2 (Z.eqb_neq _ 0)) by lia. rewrite u64_sum, length_app. cbn [length]. do 4 f_equal. lia.
    + intros i Hi E. unfold st. rewrite !flat_snoc, digits_snoc by lia. apply (content_zero M H pos (S l) k i Sh N) in E as E'. unfold gn at 2, ge at 2. rewrite E', !app_nil_r, map_app. cbn [map]. rewrite E. by rewrite countb_app, Z.add_0_r.
    + intros i Hi E. unfold st. rewrite !flat_snoc, digits_snoc by lia. rewrite map_app, countb_app, !length_app. cbn [map countb fst snd]. unfold nz at 3. rewrite (proj2 (Z.eqb_neq _ _) E). unfold gn at 3, ge at 3. subst f. cbn [content] in *. destruct (pos !! (l, 64 * k + i)) as [q|] eqn:Eq; [|done]. cbn [from_option id] in *. rewrite (IH _ q) by (lia || done). rewrite ret_bind. cbn [negb Z.b2z]. rewrite u32_sum, Z.add_0_r. repeat (f_equal; try lia).
Qed.

Lemma nodes_top M h pos x : shape M (S h) pos -> x ∈ nodes_of pos h 0 <-> is_Some (pos !! x).
Proof.
  intros Sh. assert (Ht : is_Some (pos !! (h, 0))) by (pose proof (shape_top _ _ _ Sh ltac:(lia)) as Ht; by replace (S h - 1)%nat with h in Ht by lia). destruct x as [l k]. rewrite (nodes_in M (S h) pos Sh) by (lia || done). split; [by intros (_ & ? & _)|]. intros Hs. pose proof Hs as Hs'. apply (sh_dom _ _ _ Sh) in Hs' as [Hl (j & Hj & <-)]. split; [lia|]. split; [done|].
  rewrite <- (sh_fit _ _ _ Sh j Hj), !up_div, Z.div_div by lia. f_equal. rewrite <- Z.pow_add_r by lia. f_equal. lia.
Qed.
Lemma nodes_length M h pos : shape M (S h) pos -> length (nodes_of pos h 0) = size pos.
Proof.
  intros Sh. rewrite <- (size_dom pos). unfold size, set_size. apply Permutation_length. apply NoDup_Permutation; [apply (nodes_nodup M (S h) pos Sh); [lia|]|apply NoDup_elements|].
  - pose proof (shape_top _ _ _ Sh ltac:(lia)) as Ht. by replace (S h - 1)%nat with h in Ht by lia.
  - intros x. by rewrite (nodes_top M h pos x Sh), elem_of_elements, elem_of_dom.
Qed.

Lemma tree_valid t M pos : holds t M pos -> asc_radix_tree_validate managed t = Ret true.
Proof.
  intros Ho. unfold asc_radix_tree_validate. rewrite (ho_nodes _ _ _ _ Ho), (ho_entries _ _ _ _ Ho). destruct (holds_cases managed t M pos Ho) as [(-> & -> & -> & ->)|(h & Hh & Eh & H10 & Er & Hn & HM & Et)]; [done|]. pose proof (ho_shape _ _ _ _ Ho) as Sh. rewrite Eh in Sh. pose proof (ho_size _ _ _ _ Ho) as Hsz.
  rewrite (proj2 (Z.eqb_neq (root t) 0)) by by apply (is_node_nonzero managed). rewrite Hh. rewrite (proj2 (Z.eqb_neq _ 0)) by lia. unfold RADIX_TREE_MAX_HEIGHT. rewrite Z.gtb_ltb, (proj2 (Z.ltb_ge _ _)) by lia. assert (size M <> 0%nat) by (intros ?%map_size_empty_iff; done). rewrite u64_id by lia. rewrite (proj2 (Z.eqb_neq _ 0)) by lia. cbn [orb]. rewrite Et.
  change (0, 0) with (u64 0, u64 0). rewrite (radix_validate_ok (heap t) M (S h) pos Sh (ho_built _ _ _ _ Ho) (ho_node _ _ _ _ Ho) h 0) by (lia || done). rewrite ret_bind, (nodes_length M h pos Sh), (listing_length M _ (listing_top M h pos Sh)), !Z.add_0_l, (u64_id (Z.of_nat (size M))) by lia. by rewrite !Z.eqb_refl.
Qed.

(** ** Destruction *)

Definition free_list (l : list Z) (t : radix_tree) : radix_tree := fold_left (fun t p => radix_node_free deferred_free p t) l t.
Lemma free_list_app l1 l2 t : free_list (l1 ++ l2) t = free_list l2 (free_list l1 t).
Proof. apply fold_left_app. Qed.
Lemma free_list_heap l t z : heap (free_list l t) !! z = if bool_decide (z ∈ l) && negb deferred_free then None else heap t !! z.
Proof.
  revert t. induction l as [|p l IH]; intros t; cbn [free_list fold_left]; [done|]. unfold free_list in IH. rewrite IH. unfold RadixTree.radix_node_free. destruct deferred_free; cbn [negb heap set_retired set_heap]; rewrite ?andb_false_r, ?andb_true_r; [done|]. destruct (decide (z = p)) as [->|Hne].
  - rewrite lookup_delete_eq, (bool_decide_eq_true_2 (p ∈ p :: l)) by left. by destruct (bool_decide _).
  - rewrite lookup_delete_ne by done. rewrite (bool_decide_ext (z ∈ p :: l) (z ∈ l)); [done|]. rewrite elem_of_cons. tauto.
Qed.
Lemma free_list_retired l t : retired (free_list l t) = if deferred_free then rev l ++ retired t else retired t.
Proof.
  revert t. induction l as [|p l IH]; intros t; cbn [free_list fold_left]; [by destruct deferred_free|]. unfold free_list in IH. rewrite IH. unfold RadixTree.radix_node_free. destruct deferred_free; cbn [retired set_retired set_heap rev]; [|done]. by rewrite <- app_assoc.
Qed.
Lemma free_list_seq l t : seq_ (free_list l t) = seq_ t.
Proof. revert t. induction l as [|p l IH]; intros t; cbn [free_list fold_left]; [done|]. unfold free_list in IH. rewrite IH. by destruct (free_fields deferred_free p t) as (_ & _ & _ & _ & ? & _). Qed.

Definition address (pos : positions) (x : nat * Z) : Z := default 0 (pos !! x).
Lemma destroy_node_ok M H pos : shape M H pos -> (forall x y p, pos !! x = Some p -> pos !! y = Some p -> x = y) -> (forall x p, pos !! x = Some p -> is_node p = true) ->
  forall l k p t rel, (l < H)%nat -> pos !! (l, k) = Some p -> (forall l' k' q, (l', k') ∈ nodes_of pos l k -> pos !! (l', k') = Some q -> heap t !! q = Some (node_at M pos l' k')) ->
  radix_destroy_node managed deferred_free l p (t, rel) = Ret (free_list (map (address pos) (nodes_of pos l k)) t, rel ++ map snd (entries_of M pos l k)).
Proof.
  intros Sh Inj N. induction l as [|l IH]; intros k p t rel Hl Ep Hh; cbn [radix_destroy_node entries_of nodes_of] in *; rewrite (N _ _ Ep); cbn [negb fst].
  - rewrite (Hh 0%nat k p ltac:(left) Ep). cbn [deref]. rewrite ret_bind. cbn [slots node_at]. set (f := content _ _ _ _). set (ge := fun i => match M !! (64 * k + i) with Some v => [(64 * k + i, v)] | None => [] end).
    set (st := fun i => (t, rel ++ map snd (flat_map ge (seqZ 0 i)))). replace (t, rel) with (st 0) by (unfold st; cbn; by rewrite app_nil_r). rewrite (slots_run _ f st).
    + rewrite ret_bind. unfold st. cbn [fst snd map free_list fold_left]. unfold address. by rewrite Ep.
    + intros i Hi E. unfold st. rewrite flat_snoc by lia. apply (content_zero M H pos 0 k i Sh N) in E. unfold ge at 2. by rewrite E, app_nil_r.
    + intros i Hi E. unfold st. rewrite flat_snoc by lia. subst f. cbn [content fst snd] in *. unfold ge at 3. destruct (M !! (64 * k + i)) as [v|] eqn:Em; [|done]. rewrite map_app. cbn. by rewrite app_assoc.
  - assert (Hself : (S l, k) ∈ nodes_of pos (S l) k) by (apply (nodes_in M H pos Sh); [done|by exists p|split; [done|split; [by exists p|by rewrite Nat.sub_diag]]]). rewrite (Hh (S l) k p Hself Ep). cbn [deref]. rewrite ret_bind. cbn [slots node_at]. set (f := content _ _ _ _).
    set (gn := fun i => match pos !! (l, 64 * k + i) with Some _ => nodes_of pos l (64 * k + i) | None => [] end) in *. set (ge := fun i => match pos !! (l, 64 * k + i) with Some _ => entries_of M pos l (64 * k + i) | None => [] end).
    set (st := fun i => (free_list (map (address pos) (flat_map gn (seqZ 0 i))) t, rel ++ map snd (flat_map ge (seqZ 0 i)))). replace (t, rel) with (st 0) by (unfold st; cbn; by rewrite app_nil_r). rewrite (slots_run _ f st).
    + rewrite ret_bind. unfold st. cbn [fst snd]. rewrite map_app, free_list_app. cbn [map free_list fold_left]. unfold address at 2. by rewrite Ep.
    + intros i Hi E. unfold st. rewrite !flat_snoc by lia. apply (content_zero M H pos (S l) k i Sh N) in E. unfold gn at 2, ge at 2. by rewrite E, !app_nil_r.
    + intros i Hi E. unfold st. rewrite !flat_snoc by lia. subst f. cbn [content] in *. unfold gn at 3, ge at 3. destruct (pos !! (l, 64 * k + i)) as [q|] eqn:Eq; [|done]. cbn [from_option id]. rewrite (IH (64 * k + i) q) by (lia || done || (intros l' k' r Hin Er; rewrite free_list_heap; rewrite bool_decide_eq_false_2; [cbn [andb]; apply Hh; [|done]; apply elem_of_app; left; apply flat_in; exists i; split; [by apply digit_in|]; unfold gn; by rewrite Eq|];
        intros Hf; apply list_elem_of_In, in_map_iff in Hf as (x & Ex & Hx); apply list_elem_of_In, flat_in in Hx as (i' & Hi' & Hx); apply elem_of_seqZ in Hi'; unfold gn in Hx; destruct (pos !! (l, 64 * k + i')) as [q'|] eqn:Eq'; [|by apply not_elem_of_nil in Hx]; destruct x as [l2 k2]; apply (nodes_in M H pos Sh) in Hx as (Hle2 & [r2 Er2] & Hu2); [|lia|by exists q']; unfold address in Ex; rewrite Er2 in Ex; cbn in Ex; subst r2; assert ((l2, k2) = (l', k')) as [= -> ->] by (by apply (Inj _ _ r)); apply (nodes_in M H pos Sh) in Hin as (_ & _ & Hu); [lia|lia|by exists q])).
      rewrite ret_bind, !map_app, free_list_app. by rewrite app_assoc.
Qed.

(** Every value is released once, in the order of the indices; every node is freed or
    handed to the hook once. *)
Lemma radix_destroy_ok t M pos : holds t M pos -> exists t' l freed, asc_radix_tree_destroy managed deferred_free t = Ret (t', map snd l) /\ listing M l /\ holds t' ∅ ∅ /\ seq_ t' = u32 (seq_ t + 2) /\
  NoDup freed /\ (forall p, p ∈ freed <-> exists x, pos !! x = Some p) /\ (forall z, heap t' !! z = if bool_decide (z ∈ freed) && negb deferred_free then None else heap t !! z) /\ retired t' = (if deferred_free then freed else []) ++ retired t.
Proof.
  intros Ho. unfold asc_radix_tree_destroy. cbv zeta. pose proof (bump_holds managed t M pos Ho) as Ho1. unfold radix_mut_lock, radix_mut_unlock. rewrite (reset_holds managed (bump t) M pos Ho1).
  assert (Hseq : forall s, u32 (u32 (s + 1) + 1) = u32 (s + 2)) by (intros s; rewrite u32_sum; f_equal; lia).
  assert (Hempty : forall t', RadixSafe.holds managed (bump (set_entries 0 (set_nodes 0 (set_root 0 0 t')))) ∅ ∅).
  { intros t'. split; cbn; try done. split; [intros i v; by rewrite lookup_empty| |intros i [v Ev]; by rewrite lookup_empty in Ev|lia|by left]. intros l k. rewrite lookup_empty. split; [by intros [? ?]|intros [? _]; lia]. }
  destruct (holds_cases managed (bump t) M pos Ho1) as [(_ & Hr & -> & ->)|(h & _ & Eh & H10 & Er & Hn & HM & Et)].
  - rewrite Hr. cbn [Z.eqb]. rewrite ret_bind. eexists _, [], []. split; [reflexivity|]. split; [split; [constructor|intros j v; rewrite lookup_empty; split; [by intros ?%not_elem_of_nil|done]]|]. split; [apply Hempty|]. split; [apply Hseq|]. split; [constructor|]. split; [intros p; split; [by intros ?%not_elem_of_nil|intros [x Ex]; by rewrite lookup_empty in Ex]|]. split; [done|by destruct deferred_free].
  - pose proof (ho_shape _ _ _ _ Ho1) as Sh. rewrite Eh in Sh. rewrite (proj2 (Z.eqb_neq _ 0)) by by apply (is_node_nonzero managed). rewrite Et. rewrite (destroy_node_ok M (S h) pos Sh (bu_inj _ _ _ (ho_built _ _ _ _ Ho1)) (ho_node _ _ _ _ Ho1) h 0 (root (bump t))) by (lia || done || (intros l' k' q _ Eq; by apply (bu_node _ _ _ (ho_built _ _ _ _ Ho1)))). rewrite ret_bind.
    assert (Hin : forall x, x ∈ nodes_of pos h 0 <-> is_Some (pos !! x)) by (intros x; by apply (nodes_top M)).
    set (freed := map (address pos) (nodes_of pos h 0)). assert (Hmem : forall p, p ∈ freed <-> exists x, pos !! x = Some p). { intros p. unfold freed. rewrite list_elem_of_In, in_map_iff. split; [intros (x & Ex & Hx); apply list_elem_of_In, Hin in Hx as [q Eq]; exists x; unfold address in Ex; rewrite Eq in Ex; cbn in Ex; congruence|]. intros [x Ex]. exists x. split; [unfold address; by rewrite Ex|]. apply list_elem_of_In, Hin. by exists p. }
    assert (Hnd : NoDup freed). { apply NoDup_fmap_2_strong; [|apply (nodes_nodup M (S h) pos Sh); [lia|by exists (root (bump t))]]. intros x y Hx Hy E. apply Hin in Hx as [p Ex], Hy as [q Ey]. unfold address in E. rewrite Ex, Ey in E. cbn in E. subst q. by apply (bu_inj _ _ _ (ho_built _ _ _ _ Ho1) _ _ p). }
    eexists _, (entries_of M pos h 0), (rev freed). split; [reflexivity|]. split; [by apply listing_top|]. split; [apply Hempty|]. split; [cbn; rewrite free_list_seq; apply Hseq|]. split; [by apply NoDup_ListNoDup, NoDup_rev, NoDup_ListNoDup|]. split; [intros p; by rewrite list_elem_of_In, <- in_rev, <- list_elem_of_In|]. split.
    + intros z. cbn [heap bump set_entries set_nodes set_root]. rewrite free_list_heap. rewrite (bool_decide_ext (z ∈ rev freed) (z ∈ freed)) by (by rewrite !list_elem_of_In, <- in_rev). done.
    + cbn [retired bump set_entries set_nodes set_root]. rewrite free_list_retired. by destruct deferred_free.
Qed.
End Trees.
End RadixWalk.
