(* ===== verification/RadixReader.v ===== *)
(** RadixReader: the lookups of the radix tree without its lock, as a reader that takes
    its loads one at a time between the steps of the mutations
    ([asc_radix_tree_lookup_lockless] and [asc_radix_tree_lookup_lockless_cached]).

    The loads and the writes interleave in one order. A mutation makes the sequence
    count odd, changes the tree in any way, and makes the count even again with a tree
    that holds some contents. A load from memory that is not a node (any more) gives any
    word: managed memory can always be read. *)

From S2P Require Import Prelude RadixTree RadixSafe RadixInsert.
From stdpp Require Import list_relations.
From stdpp Require relations.
#[local] Open Scope Z_scope.

Module RadixReader.
Import RadixTree RadixSafe RadixInsert.

(** ** The reader *)

(** What the reader will load next. *)
Inductive reader :=
  | Load_seq
  | Load_cached (s1 leaf : Z)
  | Load_root (s1 : Z)
  | Load_height (s1 node : Z)
  | Load_slot (s1 : Z) (level : nat) (node : Z)
  | Load_seq_again (s1 value : Z)
  | Returned (stable : bool) (value : Z).

Definition load (junk : Z) (h : memory) (p i : Z) : Z := match slot_of h p i with Ret v => v | _ => junk end.

Section Reader.
Variable managed : Z -> bool.
Variable index : Z.

(** Without a cache this is [asc_radix_tree_lookup_lockless]. *)
Definition lockless_step (junk : Z) (t : radix_tree) (st : reader * option cache) : outcome (reader * option cache) :=
  let '(r, c) := st in
  let chunk := Z.shiftr index RADIX_TREE_BITS in
  let slot := Z.land index (RADIX_TREE_SLOTS - 1) in
  match r with
  | Load_seq =>
    let s1 := seq_ t in
    if nz (Z.land s1 1) then Ret (Returned false 0, c)
    else
      match c with
      | Some k => if (cached_chunk k =? chunk) && nz (cached_leaf k) && (cached_seq k =? s1) then Ret (Load_cached s1 (cached_leaf k), c) else Ret (Load_root s1, c)
      | None => Ret (Load_root s1, c)
      end
  | Load_cached s1 leaf => Ret (Load_seq_again s1 (load junk (heap t) leaf slot), c)
  | Load_root s1 => Ret (Load_height s1 (root t), c)
  | Load_height s1 node =>
    let height := height t in
    if nz node && ((height =? 0) || (height >? RADIX_TREE_MAX_HEIGHT) || negb (radix_ptr_is_node managed node)) then Ret (Returned false 0, c)
    else if nz node && (radix_required_height index <=? height) then Ret (Load_slot s1 (Z.to_nat (u8 (height - 1))) node, c)
    else Ret (Load_seq_again s1 0, c)
  | Load_slot s1 (S below as level) node =>
    i ← radix_slot index (Z.of_nat level);
    let child := load junk (heap t) node i in
    if radix_ptr_is_node managed child then Ret (Load_slot s1 below child, c) else Ret (Load_seq_again s1 0, c)
  | Load_slot s1 O node =>
    i ← radix_slot index 0;
    let value := load junk (heap t) node i in
    Ret (Load_seq_again s1 value, match c with Some _ => Some (mk_cache chunk node s1) | None => None end)
  | Load_seq_again s1 value => Ret (if s1 =? seq_ t then Returned true value else Returned false 0, c)
  | Returned _ _ => Ret (r, c)
  end.

(** The loads that may still come. *)
Definition remaining (r : reader) : nat :=
  match r with Load_seq => 15 | Load_root _ => 14 | Load_height _ _ => 13 | Load_slot _ l _ => S (S l) | Load_cached _ _ => 2 | Load_seq_again _ _ => 1 | Returned _ _ => 0 end.
(** Levels that can be shifted to. *)
Definition in_levels (r : reader) : Prop := match r with Load_slot _ l _ => (l <= 10)%nat | _ => True end.

(** ** Mutations and readers *)

(** The tree with the number of halves of mutations so far. *)
Inductive env_step : Z * radix_tree -> Z * radix_tree -> Prop :=
  | Mut_lock n t : Z.even n = true -> env_step (n, t) (n + 1, radix_mut_lock t)
  | Mut_write n t t' : Z.even n = false -> seq_ t' = seq_ t -> env_step (n, t) (n, t')
  | Mut_unlock n t M pos : Z.even n = false -> holds managed (radix_mut_unlock t) M pos -> env_step (n, t) (n + 1, radix_mut_unlock t).
Inductive sys_step : (Z * radix_tree) * (reader * option cache) -> (Z * radix_tree) * (reader * option cache) -> Prop :=
  | By_writer w w' st : env_step w w' -> sys_step (w, st) (w', st)
  | By_reader n t st st' junk : lockless_step junk t st = Ret st' -> sys_step ((n, t), st) ((n, t), st').

Definition writer_ok (w : Z * radix_tree) : Prop := seq_ (snd w) = u32 (fst w) /\ (Z.even (fst w) = true -> exists M pos, holds managed (snd w) M pos).

(** A count sampled at an even [n1] since [base]; [P] holds as long as it is current. *)
Definition sampled (base : Z) (w : Z * radix_tree) (s1 : Z) (P : contents -> positions -> Prop) : Prop :=
  exists n1, s1 = u32 n1 /\ Z.even n1 = true /\ base <= n1 <= fst w /\ (n1 = fst w -> forall M pos, holds managed (snd w) M pos -> P M pos).
Definition cache_ok (base : Z) (w : Z * radix_tree) (c : option cache) : Prop :=
  match c with Some k => sampled base w (cached_seq k) (fun _ pos => 0 <= cached_chunk k -> nz (cached_leaf k) = true -> pos !! (0%nat, cached_chunk k) = Some (cached_leaf k)) | None => True end.
Definition reader_ok (base : Z) (w : Z * radix_tree) (r : reader) : Prop :=
  match r with
  | Load_seq | Returned _ _ => True
  | Load_cached s1 leaf => sampled base w s1 (fun _ pos => pos !! (0%nat, index / 64) = Some leaf)
  | Load_root s1 => sampled base w s1 (fun _ _ => True)
  | Load_height s1 node => sampled base w s1 (fun _ _ => node = root (snd w))
  | Load_slot s1 l node => sampled base w s1 (fun _ pos => (l < Z.to_nat (height (snd w)))%nat /\ pos !! (l, up index (S l)) = Some node)
  | Load_seq_again s1 value => sampled base w s1 (fun M _ => value = default 0 (M !! index))
  end.
Definition sys_ok (base : Z) (s : (Z * radix_tree) * (reader * option cache)) : Prop :=
  writer_ok (fst s) /\ base <= fst (fst s) /\ reader_ok base (fst s) (fst (snd s)) /\ cache_ok base (fst s) (snd (snd s)) /\ in_levels (fst (snd s)).

(** ** Writers keep what readers rely on *)

Lemma sampled_weaken (base : Z) (w : Z * radix_tree) (s1 : Z) (P Q : contents -> positions -> Prop) : (forall M pos, holds managed (snd w) M pos -> P M pos -> Q M pos) -> sampled base w s1 P -> sampled base w s1 Q.
Proof. intros HPQ (n1 & E & Hev & Hb & HP). exists n1. do 3 (split; [done|]). intros -> M pos Ho. apply HPQ; [done|]. by apply HP. Qed.
Lemma env_count w w' : env_step w w' -> fst w <= fst w'.
Proof. intros []; cbn; lia. Qed.
(** The tree does not change as long as a sampled count is current. *)
Lemma env_sampled (base : Z) (w w' : Z * radix_tree) (s1 : Z) (P Q : contents -> positions -> Prop) : env_step w w' -> sampled base w s1 P -> sampled base w' s1 Q.
Proof.
  intros E (n1 & Es & Hev & Hb & _). exists n1. split; [done|]. split; [done|]. destruct E as [n t He|n t t' He Hs|n t M pos He Ho]; cbn [fst snd] in *; (split; [lia|]); intros ->; [lia|congruence|lia].
Qed.
Lemma env_writer w w' : env_step w w' -> writer_ok w -> writer_ok w'.
Proof.
  intros E [Hs Hh]. unfold writer_ok in *. destruct E as [n t He|n t t' He Hq|n t M pos He Ho]; cbn [fst snd] in *.
  - split; [cbn; rewrite Hs; apply u32_sum|]. intros He'. rewrite Z.even_add, He in He'. done.
  - split; [congruence|]. intros ?. congruence.
  - split; [cbn; rewrite Hs; apply u32_sum|]. intros _. by exists M, pos.
Qed.
Lemma env_sys base w w' st : env_step w w' -> sys_ok base (w, st) -> sys_ok base (w', st).
Proof.
  intros E (Hw & Hb & Hr & Hc & Hl). pose proof (env_count _ _ E). split; [by apply (env_writer w)|]. split; [cbn in *; lia|]. split; [|split; [|done]]; cbn [fst snd] in *.
  - destruct (fst st); cbn [reader_ok] in *; try done; by apply (env_sampled base w w' _ _ _ E Hr).
  - destruct (snd st); cbn [cache_ok] in *; [|done]. by apply (env_sampled base w w' _ _ _ E Hc).
Qed.

(** ** The steps of the reader *)

Hypothesis index_range : 0 <= index < 2 ^ 64.

Lemma load_at junk t M pos l k p i : holds managed t M pos -> pos !! (l, k) = Some p -> 0 <= i < 64 -> load junk (heap t) p i = content M pos l k i.
Proof. intros Ho Ep Hi. unfold load. by rewrite (slot_at _ M pos l k p i (ho_built _ _ _ _ Ho) Ep Hi). Qed.
Lemma load_leaf junk t M pos p : holds managed t M pos -> pos !! (0%nat, index / 64) = Some p -> load junk (heap t) p (index mod 64) = default 0 (M !! index).
Proof. intros Ho Ep. rewrite (load_at junk t M pos 0 _ p _ Ho Ep) by (apply Z.mod_pos_bound; lia). by rewrite leaf_content. Qed.
Lemma leaf_none t M pos : holds managed t M pos -> pos !! (0%nat, index / 64) = None -> default 0 (M !! index) = 0.
Proof. intros Ho E. destruct (M !! index) as [v|] eqn:Em; [|done]. destruct (shape_leaf _ _ _ _ _ (ho_shape _ _ _ _ Ho) Em). congruence. Qed.
Lemma chunk_of : Z.shiftr index RADIX_TREE_BITS = index / 64.
Proof. unfold RADIX_TREE_BITS. by rewrite Z.shiftr_div_pow2 by lia. Qed.
Lemma slot_in_leaf : Z.land index (RADIX_TREE_SLOTS - 1) = index mod 64.
Proof. unfold RADIX_TREE_SLOTS. change (64 - 1) with (2 ^ 6 - 1). by rewrite land_ones_small by lia. Qed.
Lemma u32_near m n : u32 m = u32 n -> m <= n < m + 2 ^ 32 -> m = n.
Proof. unfold u32. intros E H. pose proof (Z.div_mod m (2 ^ 32) ltac:(lia)). pose proof (Z.div_mod n (2 ^ 32) ltac:(lia)). nia. Qed.
Lemma even_u32 n : nz (Z.land (u32 n) 1) = negb (Z.even n).
Proof.
  unfold nz. f_equal. change 1 with (2 ^ 1 - 1). rewrite land_ones_small by lia. change (2 ^ 1) with 2. unfold u32. rewrite Z.mod_mod_divide by (by exists (2 ^ 31)). rewrite Zmod_even. by destruct (Z.even n).
Qed.

(** The walk: from a node on the way to its child or to the absence of the leaf. *)
Lemma radix_slot_step junk n t M pos l node : holds managed t M pos -> (S l < Z.to_nat (height t))%nat -> pos !! (S l, up index (S (S l))) = Some node ->
  let child := load junk (heap t) node (up index (S l) mod 64) in
  if radix_ptr_is_node managed child then (l < Z.to_nat (height (snd (n : Z, t))))%nat /\ pos !! (l, up index (S l)) = Some child else 0 = default 0 (M !! index).
Proof.
  intros Ho Hl Ep. cbv zeta. rewrite (load_at junk t M pos (S l) _ node _ Ho Ep) by (apply Z.mod_pos_bound; lia). rewrite path_content. destruct (pos !! (l, up index (S l))) as [q|] eqn:Eq; cbn [from_option id].
  - rewrite (ho_node _ _ _ _ Ho _ _ Eq). split; [cbn; lia|done].
  - rewrite is_node_zero. symmetry. apply (leaf_none t M pos Ho). destruct (pos !! (0%nat, index / 64)) as [q|] eqn:E0; [|done]. exfalso. destruct (holds_closed managed t M pos index Ho 0%nat l) as [r Er]; [lia|rewrite up_S, up_0; by exists q|]. congruence.
Qed.

Lemma height_step base n t s1 node c : writer_ok (n, t) -> sampled base (n, t) s1 (fun _ _ => node = root t) -> exists st', lockless_step 0 t (Load_height s1 node, c) = Ret st' /\ reader_ok base (n, t) (fst st') /\ snd st' = c /\ in_levels (fst st') /\ (remaining (fst st') < 13)%nat /\ (forall v, fst st' <> Returned true v).
Proof.
  intros Hw Hs. cbn [lockless_step]. cbv zeta. destruct (nz node && _) eqn:E1; [eexists; do 4 (split; [done|]); split; [cbn; lia|done]|]. destruct (nz node && (radix_required_height index <=? height t)) eqn:E2.
  - apply andb_true_iff in E2 as [E2 E3]. rewrite E2 in E1. cbn [andb] in E1. apply orb_false_iff in E1 as [E1 _]. apply orb_false_iff in E1 as [E1 E1']. unfold RADIX_TREE_MAX_HEIGHT in E1'. rewrite Z.gtb_ltb in E1'. reify_bools. pose proof (needed_spec index index_range) as (Hneed & Hn1 & _). assert (Hu : u8 (height t - 1) = height t - 1) by (apply u8_id; lia). rewrite Hu.
    eexists. split; [done|]. split; [|split; [done|]; split; [cbn; lia|]; split; [cbn; lia|done]]. cbn [fst reader_ok snd]. revert Hs. apply sampled_weaken. intros M pos Ho ->. cbn [snd] in Ho. destruct (holds_cases managed t M pos Ho) as [(Hz & _)|(h & Hh & Eh & H10 & Er & _)]; [lia|]. split; [lia|]. replace (Z.to_nat (height t - 1)) with h by lia. pose proof (proj1 (needed_le index (S h) index_range ltac:(lia)) ltac:(lia)) as Hz. by rewrite Hz.
  - eexists. split; [done|]. split; [|do 2 (split; [done|]); split; [cbn; lia|done]]. cbn [fst reader_ok snd]. revert Hs. apply sampled_weaken. intros M pos Ho ->. cbn [snd] in Ho. symmetry. pose proof (find_leaf_ok managed t M pos index Ho index_range) as Hf. unfold find_leaf in Hf. apply (leaf_none t M pos Ho). destruct (holds_cases managed t M pos Ho) as [(_ & _ & _ & ->)|(h & Hh & Eh & H10 & Er & Hnode & _)]; [by rewrite lookup_empty|]. rewrite Hnode in Hf. cbn [negb orb] in Hf.
    unfold nz in E2. rewrite (proj2 (Z.eqb_neq _ 0) (is_node_nonzero managed _ Hnode)) in E2. cbn [negb andb] in E2. rewrite Z.gtb_ltb, (proj2 (Z.ltb_lt _ _)) in Hf by (apply Z.leb_gt in E2; lia). by injection Hf.
Qed.

Lemma reader_sys base junk n t st : sys_ok base ((n, t), st) -> n < base + 2 ^ 32 -> exists st', lockless_step junk t st = Ret st' /\ sys_ok base ((n, t), st') /\ (remaining (fst st) <> 0 -> remaining (fst st') < remaining (fst st))%nat /\
  (forall v, fst st' = Returned true v -> fst st <> fst st' -> Z.even n = true /\ exists M pos, holds managed t M pos /\ v = default 0 (M !! index)).
Proof.
  intros (Hw & Hb & Hr & Hc & Hl) Hn. destruct st as [r c]. cbn [fst snd] in *. destruct Hw as [Hseq Hh] eqn:EHw. cbn [fst snd] in Hseq, Hh. clear EHw.
  assert (Hdone : forall st', lockless_step junk t (r, c) = Ret st' -> reader_ok base (n, t) (fst st') -> snd st' = c -> in_levels (fst st') -> (remaining r <> 0 -> remaining (fst st') < remaining r)%nat -> (forall v, fst st' <> Returned true v) ->
    exists st', lockless_step junk t (r, c) = Ret st' /\ sys_ok base ((n, t), st') /\ (remaining r <> 0 -> remaining (fst st') < remaining r)%nat /\ (forall v, fst st' = Returned true v -> r <> fst st' -> Z.even n = true /\ exists M pos, holds managed t M pos /\ v = default 0 (M !! index))).
  { intros st' E H1 H2 H3 H4 H5. exists st'. split; [done|]. split; [|split; [done|intros v Ev; by apply H5 in Ev]]. split; [done|]. split; [done|]. split; [done|]. split; [cbn; by rewrite H2|done]. }
  destruct r as [|s1 leaf|s1|s1 node|s1 [|l] node|s1 value|stable v].
  - cbn [lockless_step] in *. cbv zeta in *. rewrite Hseq in *. rewrite even_u32 in *. destruct (Z.even n) eqn:Eev; cbn [negb] in *; [|by (eapply Hdone; [reflexivity|done|done|done|cbn; lia|done])]. assert (Hnow : forall P : contents -> positions -> Prop, (forall M pos, holds managed t M pos -> P M pos) -> sampled base (n, t) (u32 n) P) by (intros P HP; exists n; do 2 (split; [done|]); split; [cbn; lia|]; intros _; exact HP).
    assert (Hroot : reader_ok base (n, t) (Load_root (u32 n))) by (cbn; apply Hnow; done). destruct c as [k|]; [|eapply Hdone; [reflexivity|exact Hroot|done|done|cbn; lia|done]].
    destruct ((cached_chunk k =? _) && nz (cached_leaf k) && (cached_seq k =? u32 n)) eqn:Ek; [|eapply Hdone; [reflexivity|exact Hroot|done|done|cbn; lia|done]]. apply andb_true_iff in Ek as [[Ek1 Ek2]%andb_true_iff Ek3]. reify_bools. eapply Hdone; [reflexivity| |done|done|cbn; lia|done]. cbn [fst reader_ok]. cbn [cache_ok] in Hc. destruct Hc as (nc & Es & Hev & Hcb & HP). cbn [fst snd] in *. assert (nc = n) as -> by (apply u32_near; [congruence|lia]).
    apply Hnow. intros M pos Ho. rewrite chunk_of in Ek1. rewrite <- Ek1. apply (HP eq_refl M pos Ho); [|done]. rewrite Ek1. apply Z.div_pos; lia.
  - eapply Hdone; [reflexivity| |done|done|cbn; lia|done]. cbn [fst reader_ok]. revert Hr. apply sampled_weaken. intros M pos Ho Ep. rewrite slot_in_leaf. cbn [snd] in *. by rewrite (load_leaf junk t M pos leaf).
  - eapply Hdone; [reflexivity| |done|done|cbn; lia|done]. cbn [fst reader_ok]. revert Hr. by apply sampled_weaken.
  - destruct (height_step base n t s1 node c (conj Hseq Hh) Hr) as (st' & E & H1 & H2 & H3 & H4 & H5). by apply (Hdone st').
  - cbn [lockless_step] in *. rewrite slot_leaf, ret_bind in *. eexists. split; [reflexivity|]. split; [|split; [cbn; lia|done]]. split; [done|]. split; [done|]. split; [|split; [|done]]; cbn [fst snd reader_ok cache_ok].
    + revert Hr. apply sampled_weaken. intros M pos Ho [_ Ep]. cbn [snd] in Ho. rewrite up_S, up_0 in Ep. by rewrite (load_leaf junk t M pos node).
    + destruct c as [k|]; [|done]. cbn [cached_seq cached_leaf cached_chunk]. revert Hr. apply sampled_weaken. intros M pos Ho [_ Ep] _ _. rewrite chunk_of. by rewrite up_S, up_0 in Ep.
  - cbn [lockless_step] in *. rewrite slot_up, ret_bind in * by (cbn in Hl; lia). cbv zeta in *. destruct (radix_ptr_is_node managed (load junk (heap t) node (up index (S l) mod 64))) eqn:Ec; (eapply Hdone; [reflexivity| |done|cbn in *; lia|cbn; lia|done]); cbn [fst reader_ok]; revert Hr; apply sampled_weaken; intros M pos Ho [Hlt Ep]; cbn [snd] in *; pose proof (radix_slot_step junk n t M pos l node Ho Hlt Ep) as Hstep; cbv zeta in Hstep; by rewrite Ec in Hstep.
  - cbn [lockless_step]. eexists. split; [reflexivity|]. cbn [reader_ok] in Hr. split; [|split; [destruct (s1 =? seq_ t); cbn; lia|]].
    + split; [done|]. split; [done|]. split; [by destruct (s1 =? seq_ t)|]. split; [done|by destruct (s1 =? seq_ t)].
    + intros v Ev _. cbn [fst] in Ev. destruct (s1 =? seq_ t) eqn:Es; [|done]. reify_bools. injection Ev as ->. destruct Hr as (n1 & E1 & Hev & Hb1 & HP). cbn [fst snd] in *. assert (n1 = n) as -> by (apply u32_near; [congruence|lia]). split; [done|]. destruct (Hh Hev) as (M & pos & Ho). exists M, pos. split; [done|]. by apply (HP eq_refl M pos).
  - cbn [lockless_step]. exists (Returned stable v, c). split; [done|]. split; [done|]. split; [done|]. intros w _ []. done.
Qed.


Lemma sys_reach base s s' : relations.rtc sys_step s s' -> sys_ok base s -> fst (fst s') < base + 2 ^ 32 -> sys_ok base s'.
Proof.
  intros Hr Hok. revert s' Hr. apply (relations.rtc_ind_r (fun s' => fst (fst s') < base + 2 ^ 32 -> sys_ok base s')); [done|]. intros s1 s2 Hr Hs IH Hn. destruct Hs as [w w' st E|n t st st' junk E]; cbn [fst snd] in *.
  - pose proof (env_count _ _ E). apply (env_sys base w w' st E). apply IH. lia.
  - specialize (IH Hn). destruct (reader_sys base junk n t st IH Hn) as (st2 & E2 & H2 & _). congruence.
Qed.

(** ** Operations are mutations *)

Lemma operation_steps n t t' M pos : Z.even n = true -> seq_ t' = u32 (seq_ t + 2) -> holds managed t' M pos -> relations.rtc env_step (n, t) (n + 2, t').
Proof.
  intros He Hq Ho. set (t1 := mk_radix (root t') (entries t') (nodes t') (height t') (seq_ (radix_mut_lock t)) (heap t') (retired t')). assert (Et : t' = radix_mut_unlock t1). { subst t1. unfold radix_mut_unlock, radix_mut_lock, bump. cbn. rewrite u32_sum. replace (seq_ t + 1 + 1) with (seq_ t + 2) by lia. rewrite <- Hq. by destruct t'. }
  assert (Ho' : Z.even (n + 1) = false) by (rewrite Z.even_add, He; done). eapply relations.rtc_l; [by apply Mut_lock|]. eapply relations.rtc_l; [by apply (Mut_write _ _ t1)|]. apply relations.rtc_once. replace (n + 2) with (n + 1 + 1) by lia. rewrite Et. apply (Mut_unlock _ _ M pos); [done|]. by rewrite <- Et.
Qed.

(** ** Without mutations *)

Fixpoint lockless_run (fuel : nat) (junk : Z) (t : radix_tree) (st : reader * option cache) : outcome (reader * option cache) :=
  match fuel with O => Ret st | S fuel => st ← lockless_step junk t st; lockless_run fuel junk t st end.

(** The reader of a tree that does not change. *)
Definition quiet (t : radix_tree) (r : reader) : Prop :=
  match r with
  | Load_seq => True
  | Load_cached s1 _ | Load_root s1 | Load_slot s1 _ _ | Load_seq_again s1 _ => s1 = seq_ t
  | Load_height s1 node => s1 = seq_ t /\ node = root t
  | Returned stable _ => stable = true
  end.
Lemma quiet_step junk t M pos r c st' : holds managed t M pos -> nz (Z.land (seq_ t) 1) = false -> quiet t r -> lockless_step junk t (r, c) = Ret st' -> quiet t (fst st').
Proof.
  intros Ho Hev Hq E. destruct r as [|s1 leaf|s1|s1 node|s1 [|l] node|s1 value|stable v]; cbn [lockless_step quiet] in *; cbv zeta in E.
  - rewrite Hev in E. destruct c as [k|]; [destruct (_ && _ && _) in E|]; by injection E as <-.
  - by injection E as <-.
  - by injection E as <-.
  - destruct Hq as [-> ->]. assert (Hc : nz (root t) && ((height t =? 0) || (height t >? RADIX_TREE_MAX_HEIGHT) || negb (radix_ptr_is_node managed (root t))) = false).
    { destruct (holds_cases managed t M pos Ho) as [(_ & -> & _)|(h & Hh & _ & H10 & _ & Hn & _)]; [done|]. rewrite Hn, Hh, (proj2 (Z.eqb_neq _ _)) by lia. unfold RADIX_TREE_MAX_HEIGHT. rewrite Z.gtb_ltb, (proj2 (Z.ltb_ge _ _)) by lia. apply andb_false_r. }
    rewrite Hc in E. destruct (_ && _) in E; by injection E as <-.
  - apply bind_Ret in E as (i & _ & E). by injection E as <-.
  - apply bind_Ret in E as (i & _ & E). destruct (radix_ptr_is_node _ _) in E; by injection E as <-.
  - subst s1. rewrite Z.eqb_refl in E. by injection E as <-.
  - injection E as <-. done.
Qed.
Lemma contents_agree t M pos M' pos' : holds managed t M pos -> holds managed t M' pos' -> default 0 (M !! index) = default 0 (M' !! index).
Proof. intros H1 H2. pose proof (lookup_ok managed t M pos index H1 index_range) as E. rewrite (lookup_ok managed t M' pos' index H2 index_range) in E. by injection E. Qed.

Lemma quiet_run base junk n t M pos : holds managed t M pos -> Z.even n = true -> n < base + 2 ^ 32 -> forall fuel r c, sys_ok base ((n, t), (r, c)) -> quiet t r -> (0 < remaining r <= fuel)%nat ->
  exists c', lockless_run fuel junk t (r, c) = Ret (Returned true (default 0 (M !! index)), c') /\ cache_ok base (n, t) c'.
Proof.
  intros Ho Hev Hn. assert (Hstay : forall fuel v c, lockless_run fuel junk t (Returned true v, c) = Ret (Returned true v, c)) by (induction fuel as [|fuel IH]; intros v c; [done|]; cbn [lockless_run lockless_step]; rewrite ret_bind; apply IH).
  induction fuel as [|fuel IH]; intros r c Hok Hq Hr; [lia|]. cbn [lockless_run]. destruct (reader_sys base junk n t (r, c) Hok Hn) as ([r' c'] & E & Hok' & Hm & Hret). cbn [fst snd] in *. rewrite E, ret_bind. assert (Hq' : quiet t r'). { apply (quiet_step junk t M pos r c (r', c') Ho); [|done|done]. destruct Hok as [[Hs _] _]. cbn in Hs. rewrite Hs, even_u32, Hev. done. }
  destruct (decide (remaining r' = 0%nat)) as [Hz|Hz]; [|apply IH; [done|done|lia]]. destruct r' as [| | | | | |stable v]; try (cbn in Hz; lia). cbn in Hq'. subst stable. rewrite Hstay. destruct (Hret v eq_refl) as (_ & M' & pos' & Ho' & ->); [intros ->; cbn in Hr; lia|]. exists c'. split; [by rewrite (contents_agree t M pos M' pos')|]. by destruct Hok' as (_ & _ & _ & ? & _).
Qed.

(** ** The locked lookup with a cache *)

Lemma cached_ok base n t M pos c : holds managed t M pos -> writer_ok (n, t) -> Z.even n = true -> base <= n < base + 2 ^ 32 -> cache_ok base (n, t) c ->
  exists c', radix_lookup_locked_cached managed t index c = Ret (default 0 (M !! index), c') /\ cache_ok base (n, t) c'.
Proof.
  intros Ho [Hseq _] Hev Hn Hc. unfold radix_lookup_locked_cached. cbv zeta. rewrite chunk_of, slot_in_leaf. cbn [fst snd] in Hseq.
  assert (Hmiss : exists c', (leaf ← find_leaf managed t index; match leaf with None => Ret (0, c) | Some p => v ← slot_of (heap t) p (index mod 64); Ret (v, match c with Some _ => Some (mk_cache (index / 64) p (seq_ t)) | None => None end) end) = Ret (default 0 (M !! index), c') /\ cache_ok base (n, t) c').
  { rewrite (find_leaf_ok managed t M pos index Ho index_range), ret_bind. destruct (pos !! (0%nat, index / 64)) as [p|] eqn:Ep; [|exists c; by rewrite (leaf_none t M pos Ho Ep)]. rewrite (slot_at _ M pos 0 _ p _ (ho_built _ _ _ _ Ho) Ep) by (apply Z.mod_pos_bound; lia). rewrite ret_bind, leaf_content. eexists. split; [reflexivity|]. destruct c as [k|]; [|done]. cbn [cache_ok cached_seq cached_chunk cached_leaf]. exists n. do 2 (split; [done|]). split; [cbn; lia|]. intros _ M' pos' Ho' _ _. cbn [snd] in Ho'.
    pose proof (find_leaf_ok managed t M pos index Ho index_range) as E. rewrite (find_leaf_ok managed t M' pos' index Ho' index_range), Ep in E. by injection E. }
  destruct c as [k|]; [|exact Hmiss]. destruct ((cached_chunk k =? index / 64) && nz (cached_leaf k) && (cached_seq k =? seq_ t)) eqn:Ek; [|exact Hmiss]. apply andb_true_iff in Ek as [[Ek1 Ek2]%andb_true_iff Ek3]. reify_bools. pose proof Hc as (nc & Es & _ & Hcb & HP). cbn [fst snd] in *. assert (nc = n) as -> by (apply u32_near; [congruence|lia]). assert (Ep : pos !! (0%nat, index / 64) = Some (cached_leaf k)) by (rewrite <- Ek1; apply (HP eq_refl M pos Ho); [rewrite Ek1; apply Z.div_pos; lia|done]).
  rewrite (slot_at _ M pos 0 _ _ _ (ho_built _ _ _ _ Ho) Ep) by (apply Z.mod_pos_bound; lia). rewrite ret_bind, leaf_content. exists (Some k). done.
Qed.
End Reader.
End RadixReader.
