(* ===== verification/RadixClaims.v ===== *)
(** RadixClaims: the properties of the radix tree. *)

From S2P Require Import Prelude RadixTree RadixSafe RadixInsert RadixDelete RadixWalk RadixReader.
From stdpp Require Import list_relations.
From stdpp Require relations.
From Stdlib Require Import Sorted.
#[local] Open Scope Z_scope.

Module RadixClaims.
Import RadixTree RadixSafe RadixInsert RadixDelete RadixWalk RadixReader.

(** ** The abstract map *)

Inductive op := Op_lookup (i : Z) | Op_insert (supply : list Z) (i v : Z) | Op_replace (i v : Z) | Op_delete (i : Z) | Op_destroy.

(** What an operation may answer on the map [M], and the map after it. *)
Inductive spec_op (M : contents) : op -> list Z -> contents -> Prop :=
  | Spec_lookup i : spec_op M (Op_lookup i) [default 0 (M !! i)] M
  | Spec_insert_invalid supply i : spec_op M (Op_insert supply i 0) [- RADIX_EINVAL] M
  | Spec_insert_exists supply i v : v <> 0 -> is_Some (M !! i) -> spec_op M (Op_insert supply i v) [- RADIX_EEXIST] M
  | Spec_insert_memory supply i v : v <> 0 -> M !! i = None -> (length supply < 20)%nat -> spec_op M (Op_insert supply i v) [- RADIX_ENOMEM] M
  | Spec_insert supply i v : v <> 0 -> M !! i = None -> spec_op M (Op_insert supply i v) [0] (<[i := v]> M)
  | Spec_replace_null i : spec_op M (Op_replace i 0) [0] M
  | Spec_replace i v : v <> 0 -> spec_op M (Op_replace i v) [default 0 (M !! i)] (match M !! i with Some _ => <[i := v]> M | None => M end)
  | Spec_delete i : spec_op M (Op_delete i) [default 0 (M !! i)] (delete i M)
  | Spec_destroy l : listing M l -> spec_op M Op_destroy (map snd l) ∅.
Inductive spec_trace : list (op * list Z) -> contents -> Prop :=
  | Trace_nil : spec_trace [] ∅
  | Trace_snoc tr M o a M' : spec_trace tr M -> spec_op M o a M' -> spec_trace (tr ++ [(o, a)]) M'.
Lemma spec_size M o a M' : spec_op M o a M' -> (size M' <= S (size M))%nat.
Proof.
  intros []; try lia.
  - rewrite map_size_insert_None by done. lia.
  - destruct (M !! i) eqn:E; [rewrite (map_size_insert_Some _ _ _ (ex_intro _ _ E))|]; lia.
  - rewrite map_size_delete. destruct (M !! i); cbn; lia.
  - rewrite map_size_empty. lia.
Qed.
Lemma trace_size tr M : spec_trace tr M -> (size M <= length tr)%nat.
Proof. induction 1 as [|tr M o a M' _ IH Hs]; [done|]. apply spec_size in Hs. rewrite length_app. cbn. lia. Qed.

Section Claims.
Variable managed : Z -> bool.
Variable deferred_free : bool.
Notation holds := (RadixSafe.holds managed).

Definition run_op (o : op) (t : radix_tree) : outcome (list Z * radix_tree) :=
  match o with
  | Op_lookup i => v ← asc_radix_tree_lookup managed t i; Ret ([v], t)
  | Op_insert supply i v => '(r, t) ← asc_radix_tree_insert managed deferred_free supply i v t; Ret ([r], t)
  | Op_replace i v => '(r, t) ← asc_radix_tree_replace managed i v t; Ret ([r], t)
  | Op_delete i => '(r, t) ← asc_radix_tree_delete managed deferred_free i t; Ret ([r], t)
  | Op_destroy => '(t, l) ← asc_radix_tree_destroy managed deferred_free t; Ret (l, t)
  end.
(** Indices are 64 bits wide; the allocator hands out memory that is not in use. *)
Definition allowed (o : op) (t : radix_tree) : Prop :=
  match o with
  | Op_lookup i | Op_replace i _ | Op_delete i => 0 <= i < 2 ^ 64
  | Op_insert supply i _ => 0 <= i < 2 ^ 64 /\ supplied managed t supply
  | Op_destroy => True
  end.
Inductive executed (h : memory) : list (op * list Z) -> radix_tree -> Prop :=
  | Executed_nil : executed h [] (asc_radix_tree_init h)
  | Executed_snoc tr t o a t' : executed h tr t -> allowed o t -> run_op o t = Ret (a, t') -> executed h (tr ++ [(o, a)]) t'.

Lemma run_op_ok o t M pos : holds t M pos -> Z.of_nat (size M) + 1 < 2 ^ 64 -> allowed o t -> exists a t' M' pos', run_op o t = Ret (a, t') /\ spec_op M o a M' /\ holds t' M' pos'.
Proof.
  intros Ho Hs Ha. destruct o as [i|supply i v|i v|i|]; cbn [run_op allowed] in *.
  - unfold asc_radix_tree_lookup. rewrite (lookup_ok managed t M pos i Ho Ha), ret_bind. exists [default 0 (M !! i)], t, M, pos. split; [done|]. split; [constructor|done].
  - destruct Ha as [Hi Hsup]. destruct (decide (v = 0)) as [->|Hv]; [exists [- RADIX_EINVAL], t, M, pos; split; [done|]; split; [constructor|done]|]. destruct (radix_insert_ok managed deferred_free t M pos i v supply Ho Hi Hv Hs Hsup) as (r & t' & -> & _ & _ & Hr). rewrite ret_bind. destruct Hr as [(-> & H1 & H2 & _)|[(-> & H1 & H2 & H3 & _)|(-> & H1 & pos' & H2 & _)]].
    + exists [- RADIX_EEXIST], t', M, pos. split; [done|]. split; [by constructor|done].
    + exists [- RADIX_ENOMEM], t', M, pos. split; [done|]. split; [|done]. destruct H2 as (total & _ & H2). constructor; [done|done|lia].
    + exists [0], t', (<[i := v]> M), pos'. split; [done|]. split; [by constructor|done].
  - destruct (decide (v = 0)) as [->|Hv]; [exists [0], t, M, pos; split; [done|]; split; [constructor|done]|]. destruct (radix_replace_ok managed t M pos i v Ho Ha Hv) as (t' & -> & _ & H & _). rewrite ret_bind. eexists _, t', _, pos. split; [done|]. split; [by constructor|done].
  - destruct (radix_delete_ok managed deferred_free t M pos i Ho Ha) as (t' & pos' & -> & _ & H & _). rewrite ret_bind. eexists _, t', _, pos'. split; [done|]. split; [constructor|done].
  - destruct (radix_destroy_ok managed deferred_free t M pos Ho) as (t' & l & freed & -> & Hl & H & _). rewrite ret_bind. eexists _, t', ∅, ∅. split; [done|]. split; [by constructor|done].
Qed.
Lemma init_holds h : holds (asc_radix_tree_init h) ∅ ∅.
Proof.
  split; cbn; try done. split; [intros i v; by rewrite lookup_empty| |intros i [v Ev]; by rewrite lookup_empty in Ev|lia|by left]. intros l k. rewrite lookup_empty. split; [by intros [? ?]|intros [? _]; lia].
Qed.
Lemma executed_ok h tr t : executed h tr t -> Z.of_nat (length tr) + 1 < 2 ^ 64 -> exists M pos, spec_trace tr M /\ holds t M pos.
Proof.
  induction 1 as [|tr t o a t' _ IH Ha E]; intros Hl; [exists ∅, ∅; split; [constructor|apply init_holds]|]. rewrite length_app in Hl. cbn in Hl. destruct IH as (M & pos & Htr & Ho); [lia|]. pose proof (trace_size _ _ Htr). destruct (run_op_ok o t M pos Ho) as (a' & t2 & M' & pos' & E' & Hs & Ho'); [lia|done|]. rewrite E' in E. injection E as -> ->. exists M', pos'. split; [by apply (Trace_snoc tr M)|done].
Qed.

(** C18: The radix tree refines a map from 64-bit indices to pointers. After any sequence
    of lookups, insertions, replacements, deletions and destructions of a new tree, in
    which the allocator hands out unused memory, every answer was one the map gives, the
    tree is in the canonical form for the map, [asc_radix_tree_validate] accepts it, and
    the next operation returns, with an answer of the map. *)
Theorem radix_refines h tr t : executed h tr t -> Z.of_nat (length tr) + 2 < 2 ^ 64 -> exists M pos, spec_trace tr M /\ holds t M pos /\ asc_radix_tree_validate managed t = Ret true /\
  forall o, allowed o t -> exists a t' M' pos', run_op o t = Ret (a, t') /\ spec_op M o a M' /\ holds t' M' pos' /\ asc_radix_tree_validate managed t' = Ret true.
Proof.
  intros He Hl. destruct (executed_ok h tr t He) as (M & pos & Htr & Ho); [lia|]. exists M, pos. split; [done|]. split; [done|]. split; [by apply (tree_valid managed t M pos)|]. intros o Ha. pose proof (trace_size _ _ Htr). destruct (run_op_ok o t M pos Ho) as (a & t' & M' & pos' & H1 & H2 & H3); [lia|done|]. exists a, t', M', pos'. do 3 (split; [done|]). by apply (tree_valid managed t' M' pos').
Qed.

(** C24: [asc_radix_tree_insert] on every path. NULL is refused with -EINVAL and the tree is
    as it was. An index that is there gives -EEXIST. -ENOMEM comes exactly when the canonical
    tree of the new contents has more nodes than the tree and the allocator have, and then
    the tree holds what it held and the nodes allocated are free again or, with deferred
    frees, all waiting for their grace period. Otherwise 0: a lookup
    finds the value at the index and what was there at any other, and outside the nodes of
    the new tree no memory changes, so no node is taken without being used. *)
Theorem radix_insert_errors t M pos i v supply : holds t M pos -> 0 <= i < 2 ^ 64 -> Z.of_nat (size M) + 1 < 2 ^ 64 -> supplied managed t supply ->
  exists r t', asc_radix_tree_insert managed deferred_free supply i v t = Ret (r, t') /\
    (v = 0 /\ r = - RADIX_EINVAL /\ t' = t \/
     v <> 0 /\ is_Some (M !! i) /\ r = - RADIX_EEXIST /\ holds t' M pos /\ heap t' = heap t \/
     v <> 0 /\ M !! i = None /\ r = - RADIX_ENOMEM /\ (exists H' pos', shape (<[i := v]> M) H' pos' /\ (size pos + length supply < size pos')%nat) /\ holds t' M pos /\ given_back deferred_free t supply t' \/
     v <> 0 /\ M !! i = None /\ r = 0 /\ (exists pos', holds t' (<[i := v]> M) pos' /\ (size pos' <= size pos + length supply)%nat /\ forall z, unused pos' z -> heap t' !! z = heap t !! z) /\ (forall j, 0 <= j < 2 ^ 64 -> asc_radix_tree_lookup managed t' j = if j =? i then Ret v else asc_radix_tree_lookup managed t j)).
Proof.
  intros Ho Hi Hs Hsup. destruct (decide (v = 0)) as [->|Hv]; [exists (- RADIX_EINVAL), t; split; [done|by left]|]. destruct (radix_insert_ok managed deferred_free t M pos i v supply Ho Hi Hv Hs Hsup) as (r & t' & E & _ & _ & Hr). exists r, t'. split; [done|]. right. destruct Hr as [(-> & H1 & H2 & H3)|[(-> & H1 & (total & (H' & pos' & Hsh & Hz) & Hlt) & H3 & H4)|(-> & H1 & pos' & H2 & H3 & H4)]]; [left|right; left|right; right]; try done.
  { do 3 (split; [done|]). split; [|done]. exists H', pos'. split; [done|lia]. }
  do 3 (split; [done|]). split; [by exists pos'|]. intros j Hj. unfold asc_radix_tree_lookup. rewrite (lookup_ok managed t' _ pos' j H2 Hj), (lookup_ok managed t M pos j Ho Hj). destruct (j =? i) eqn:Ej; reify_bools; [subst; by rewrite lookup_insert_eq|]. by rewrite lookup_insert_ne by done.
Qed.

(** The shape of a tree depends on its contents only. *)
Lemma shape_height M H pos H' pos' : shape M H pos -> shape M H' pos' -> (H <= H')%nat.
Proof.
  intros S1 S2. destruct (sh_min _ _ _ S1) as [[-> _]|[HM [->|(H1 & i & Hi & Hu)]]]; [lia| |].
  - destruct (sh_min _ _ _ S2) as [[_ ->]|[_ [->|[? _]]]]; [done|lia|lia].
  - destruct (decide (H <= H')%nat) as [|Hlt]; [done|]. exfalso. apply Hu. apply (up_zero i H'); [by apply (sh_fit _ _ _ S2)|lia].
Qed.
Lemma shape_size M H pos pos' : shape M H pos -> shape M H pos' -> size pos = size pos'.
Proof.
  intros S1 S2. rewrite <- !size_dom. f_equal. apply set_eq. intros [l k]. rewrite !elem_of_dom. by rewrite (sh_dom _ _ _ S1), (sh_dom _ _ _ S2).
Qed.
Lemma holds_same t M pos t' pos' : holds t M pos -> holds t' M pos' -> height t' = height t /\ nodes t' = nodes t /\ entries t' = entries t.
Proof.
  intros H1 H2. pose proof (ho_shape _ _ _ _ H1) as S1. pose proof (ho_shape _ _ _ _ H2) as S2. pose proof (shape_height _ _ _ _ _ S1 S2). pose proof (shape_height _ _ _ _ _ S2 S1). assert (Eh : Z.to_nat (height t') = Z.to_nat (height t)) by lia. rewrite Eh in S2. split; [rewrite (ho_height _ _ _ _ H1), (ho_height _ _ _ _ H2); lia|]. split; [rewrite (ho_nodes _ _ _ _ H1), (ho_nodes _ _ _ _ H2); by rewrite (shape_size _ _ _ _ S1 S2)|]. by rewrite (ho_entries _ _ _ _ H1), (ho_entries _ _ _ _ H2).
Qed.

(** C23: Deleting an index that was just inserted returns the inserted pointer and gives
    back a tree of the same contents, height, number of nodes and number of entries: the
    nodes added for it are pruned and the height it forced is undone. No memory outside
    the tree and the nodes supplied changes. *)
Theorem radix_insert_delete t M pos i v supply t1 : holds t M pos -> 0 <= i < 2 ^ 64 -> v <> 0 -> Z.of_nat (size M) + 1 < 2 ^ 64 -> supplied managed t supply -> asc_radix_tree_insert managed deferred_free supply i v t = Ret (0, t1) ->
  exists t2 pos2, asc_radix_tree_delete managed deferred_free i t1 = Ret (v, t2) /\ holds t2 M pos2 /\ height t2 = height t /\ nodes t2 = nodes t /\ entries t2 = entries t /\ seq_ t2 = u32 (seq_ t + 4).
Proof.
  intros Ho Hi Hv Hs Hsup E. destruct (radix_insert_ok managed deferred_free t M pos i v supply Ho Hi Hv Hs Hsup) as (r & t' & E' & Hq & _ & Hr). rewrite E' in E. injection E as -> ->. destruct Hr as [(? & _)|[(? & _)|(_ & Hn & pos1 & Ho1 & _)]]; [done|done|]. destruct (radix_delete_ok managed deferred_free t1 _ pos1 i Ho1 Hi) as (t2 & pos2 & E2 & Hq2 & Ho2 & _). rewrite lookup_insert_eq in E2. rewrite delete_insert_id in Ho2 by done. exists t2, pos2. split; [done|]. split; [done|]. destruct (holds_same t M pos t2 pos2 Ho Ho2) as (H1 & H2 & H3). do 3 (split; [done|]). rewrite Hq2, Hq, u32_sum. f_equal. lia.
Qed.

(** [asc_radix_tree_for_each_range] calls the callback on exactly the entries of the
    tree between [first] and [last], each once, in ascending order of the indices, until
    a call returns false; it returns true exactly if no call did. *)
Theorem radix_for_each_order {C} (callback : Z -> Z -> C -> bool * C) t M pos first last c : holds t M pos -> first <= last ->
  exists l, StronglySorted key_lt l /\ (forall j v, (j, v) ∈ l <-> M !! j = Some v /\ first <= j <= last) /\ asc_radix_tree_for_each_range managed callback t first last c = Ret (visit (fun e => callback (fst e) (snd e)) l c).
Proof.
  intros Ho Hr. destruct (for_each_range_ok managed callback t M pos first last c Ho Hr) as (l & [Hs Hin] & E). set (f := fun e : Z * Z => (fst e >=? first) && (fst e <=? last)). exists (List.filter f l). split; [|split].
  - clear E Hin. induction Hs as [|x l Hs IH HF]; cbn; [constructor|]. destruct (f x); [|done]. constructor; [done|]. rewrite List.Forall_forall in *. intros y [Hy _]%List.filter_In. by apply HF.
  - intros j v. rewrite list_elem_of_In, List.filter_In, <- list_elem_of_In, Hin. unfold f. cbn [fst]. rewrite andb_true_iff, Z.geb_le, Z.leb_le. tauto.
  - rewrite E. f_equal. apply (visit_filter (fun e => callback (fst e) (snd e)) f).
Qed.

(** [asc_radix_tree_destroy] passes every value to [release] once, in the order of
    the indices, and every node to the allocator once, or to the hook when there is one,
    and nothing else; the tree is then empty. *)
Theorem radix_destroy_releases t M pos : holds t M pos -> exists t' l freed, asc_radix_tree_destroy managed deferred_free t = Ret (t', map snd l) /\ StronglySorted key_lt l /\ (forall j v, (j, v) ∈ l <-> M !! j = Some v) /\ root t' = 0 /\ holds t' ∅ ∅ /\
  NoDup freed /\ (forall p, p ∈ freed <-> exists x, pos !! x = Some p) /\ (deferred_free = true -> heap t' = heap t /\ retired t' = freed ++ retired t) /\ (deferred_free = false -> forall z, heap t' !! z = if bool_decide (z ∈ freed) then None else heap t !! z).
Proof.
  intros Ho. destruct (radix_destroy_ok managed deferred_free t M pos Ho) as (t' & l & freed & E & [Hs Hin] & Ho' & _ & Hnd & Hf & Hh & Hret). exists t', l, freed. do 3 (split; [done|]). split; [destruct (holds_cases managed t' ∅ ∅ Ho') as [(_ & ? & _)|(h & _ & _ & _ & Er & _)]; [done|by rewrite lookup_empty in Er]|]. do 3 (split; [done|]). split; intros ->.
  - split; [|done]. apply map_eq. intros z. rewrite Hh, andb_false_r. done.
  - intros z. rewrite Hh, andb_true_r. done.
Qed.

(** C22: The lookups without the lock. However the loads of a reader interleave with
    mutations, whatever the tree looks like in the middle of one and whatever stale
    memory holds, every step of the reader is defined and brings it nearer to the end,
    at most 15 loads away; and if it returns stable, no mutation is in progress and the
    value is the one the locked lookup gives. The leaf it leaves in the cache is
    valid for later lookups. The sequence count must not wrap around, that is 2^31
    mutations during one lookup or since the cache was filled. *)
Theorem radix_lockless_stable index base n0 t0 c0 n t r c junk : 0 <= index < 2 ^ 64 -> writer_ok managed (n0, t0) -> base <= n0 -> cache_ok managed base (n0, t0) c0 ->
  relations.rtc (sys_step managed index) ((n0, t0), (Load_seq, c0)) ((n, t), (r, c)) -> n < base + 2 ^ 32 ->
  exists r' c', lockless_step managed index junk t (r, c) = Ret (r', c') /\ cache_ok managed base (n, t) c' /\ (remaining r <= 15)%nat /\ (remaining r <> 0 -> remaining r' < remaining r)%nat /\
    (forall v, r' = Returned true v -> r <> r' -> asc_radix_tree_lookup managed t index = Ret v /\ Z.even n = true).
Proof.
  intros Hi Hw Hb Hc Hr Hn. pose proof (sys_reach managed index Hi base _ _ Hr (conj Hw (conj Hb (conj I (conj Hc I)))) Hn) as Hok. destruct (reader_sys managed index Hi base junk n t (r, c) Hok Hn) as ([r' c'] & E & Hok' & Hm & Hret). exists r', c'. split; [done|]. split; [by destruct Hok' as (_ & _ & _ & ? & _)|]. split; [destruct Hok as (_ & _ & _ & _ & Hl); destruct r; cbn in *; lia|]. split; [done|].
  intros v -> Hne. destruct (Hret v eq_refl Hne) as (Hev & M & pos & Ho & ->). split; [|done]. by apply (lookup_ok managed t M pos).
Qed.

(** On a tree that no mutation changes, all the lookups agree: the locked one, the
    locked one with a cache and the two without the lock return the value of the index,
    the latter stable and within 15 loads, and leave a valid cache. *)
Theorem radix_lookups_agree index base n t M pos c junk : 0 <= index < 2 ^ 64 -> holds t M pos -> writer_ok managed (n, t) -> Z.even n = true -> base <= n < base + 2 ^ 32 -> cache_ok managed base (n, t) c ->
  let v := default 0 (M !! index) in
  asc_radix_tree_lookup managed t index = Ret v /\ (exists c', asc_radix_tree_lookup_cached managed t index c = Ret (v, c') /\ cache_ok managed base (n, t) c') /\
  (exists c', lockless_run managed index 15 junk t (Load_seq, c) = Ret (Returned true v, c') /\ cache_ok managed base (n, t) c').
Proof.
  intros Hi Ho Hw Hev Hn Hc. cbv zeta. split; [by apply (lookup_ok managed t M pos)|]. split; [by apply (cached_ok managed index Hi base n t M pos c)|]. apply (quiet_run managed index Hi base junk n t M pos); [done|done|lia| |done|cbn; lia]. split; [done|]. split; [cbn; lia|done].
Qed.
End Claims.

(** ** Concrete trees *)

Definition ram (p : Z) : bool := p <? 2 ^ 32.
Definition ex_insert : op := Op_insert [4096] 5 77.
Definition ex_tree : radix_tree := match run_op ram false ex_insert (asc_radix_tree_init ∅) with Ret (_, t) => t | _ => asc_radix_tree_init ∅ end.
Definition ex_supply : list Z := [8192; 12288; 16384; 20480; 24576].
Lemma ex_executed : executed ram false ∅ [(ex_insert, [0])] ex_tree.
Proof.
  apply (Executed_snoc ram false ∅ [] (asc_radix_tree_init ∅) ex_insert [0]); [constructor| |vm_compute; reflexivity]. split; [lia|]. split; [apply NoDup_singleton|]. intros p ->%list_elem_of_singleton. done.
Qed.
Lemma ex_holds : exists M pos, RadixSafe.holds ram ex_tree M pos /\ Z.of_nat (size M) + 1 < 2 ^ 64.
Proof. destruct (executed_ok ram false ∅ _ _ ex_executed) as (M & pos & Htr & Ho); [cbn; lia|]. exists M, pos. split; [done|]. apply trace_size in Htr. cbn in Htr. lia. Qed.
Lemma ex_supplied : supplied ram ex_tree ex_supply.
Proof. split; [apply (bool_decide_unpack _); vm_compute; exact I|]. assert (H : Forall (fun p => radix_ptr_is_node ram p = true /\ heap ex_tree !! p = None) ex_supply) by (repeat constructor; vm_compute; reflexivity). intros p Hp. rewrite Forall_forall in H. by apply H. Qed.
Lemma ex_writer : writer_ok ram (2, ex_tree).
Proof. split; [done|]. intros _. destruct ex_holds as (M & pos & Ho & _). by exists M, pos. Qed.

Lemma radix_refines_witness : asc_radix_tree_validate ram ex_tree = Ret true /\ exists a t', run_op ram false (Op_insert ex_supply 70000 99) ex_tree = Ret (a, t').
Proof.
  destruct (radix_refines ram false ∅ [(ex_insert, [0])] ex_tree ex_executed) as (M & pos & _ & _ & H1 & H2); [cbn; lia|]. split; [exact H1|]. destruct (H2 (Op_insert ex_supply 70000 99)) as (a & t' & M' & pos' & H & _); [split; [lia|exact ex_supplied]|]. exists a, t'. exact H.
Defined.
Lemma radix_insert_errors_witness : exists t', asc_radix_tree_insert ram false [8192] 70000 99 ex_tree = Ret (- RADIX_ENOMEM, t') /\ heap t' = heap ex_tree.
Proof.
  destruct ex_holds as (M & pos & Ho & Hs). destruct (radix_insert_errors ram false ex_tree M pos 70000 99 [8192] Ho) as (r & t' & E & H); [lia|exact Hs|split; [apply NoDup_singleton|intros p ->%list_elem_of_singleton; done]|]. exists t'. assert (Er : r = - RADIX_ENOMEM). { assert (E' : match asc_radix_tree_insert ram false [8192] 70000 99 ex_tree with Ret (r, _) => r = - RADIX_ENOMEM | _ => True end) by (vm_compute; reflexivity). rewrite E in E'. exact E'. }
  rewrite Er in *. split; [exact E|]. destruct H as [(? & _)|[(_ & _ & ? & _)|[(_ & _ & _ & _ & _ & H)|(_ & _ & ? & _)]]]; [done|done|by apply H|done].
Defined.
Definition ex_grown : radix_tree := match asc_radix_tree_insert ram false ex_supply 70000 99 ex_tree with Ret (_, t) => t | _ => ex_tree end.
Lemma radix_insert_delete_witness : height ex_grown = 3 /\ exists t2, asc_radix_tree_delete ram false 70000 ex_grown = Ret (99, t2) /\ height t2 = 1.
Proof.
  split; [vm_compute; reflexivity|]. destruct ex_holds as (M & pos & Ho & Hs). destruct (radix_insert_delete ram false ex_tree M pos 70000 99 ex_supply ex_grown Ho) as (t2 & pos2 & E & _ & Hh & _); [lia|lia|exact Hs|exact ex_supplied|vm_compute; reflexivity|]. exists t2. split; [exact E|]. rewrite Hh. vm_compute. reflexivity.
Defined.
Lemma radix_for_each_order_witness : exists l, StronglySorted key_lt l /\ asc_radix_tree_for_each_range ram (fun j v (n : Z) => (true, n + v)) ex_tree 0 10 1 = Ret (visit (fun e n => (true, n + snd e)) l 1).
Proof.
  destruct ex_holds as (M & pos & Ho & _). destruct (radix_for_each_order ram (fun j v (n : Z) => (true, n + v)) ex_tree M pos 0 10 1 Ho) as (l & H1 & _ & H2); [lia|]. exists l. split; [exact H1|exact H2].
Defined.
Lemma radix_destroy_releases_witness : exists t' l, asc_radix_tree_destroy ram false ex_tree = Ret (t', l) /\ root t' = 0.
Proof. destruct ex_holds as (M & pos & Ho & _). destruct (radix_destroy_releases ram false ex_tree M pos Ho) as (t' & l & freed & H & _ & _ & Hr & _). exists t', (map snd l). split; [exact H|exact Hr]. Defined.
Lemma radix_lockless_stable_witness : exists r c', lockless_step ram 5 0 ex_tree (Load_seq_again 2 77, None) = Ret (r, c') /\ (forall v, r = Returned true v -> asc_radix_tree_lookup ram ex_tree 5 = Ret v).
Proof.
  destruct (radix_lockless_stable ram 5 2 2 ex_tree None 2 ex_tree (Load_seq_again 2 77) None 0) as (r' & c' & H1 & _ & _ & _ & H2); [lia|exact ex_writer|lia|exact I| |lia|].
  - do 4 (eapply relations.rtc_l; [eapply (By_reader ram 5 2 ex_tree) with (junk := 0); vm_compute; reflexivity|]). apply relations.rtc_refl.
  - exists r', c'. split; [exact H1|]. intros v Hv. apply H2; [exact Hv|]. rewrite Hv. discriminate.
Defined.
Lemma radix_lookups_agree_witness : exists v, asc_radix_tree_lookup ram ex_tree 5 = Ret v /\ exists c', lockless_run ram 5 15 0 ex_tree (Load_seq, None) = Ret (Returned true v, c').
Proof.
  destruct ex_holds as (M & pos & Ho & _). destruct (radix_lookups_agree ram 5 2 2 ex_tree M pos None 0) as (H1 & _ & c' & H3 & _); [lia|exact Ho|exact ex_writer|reflexivity|lia|exact I|]. eexists. split; [exact H1|]. exists c'. exact H3.
Defined.
End RadixClaims.
