(* ===== verification/Heap.v ===== *)
(** Heap: the kernel heap ([kernel/src/mm/heap.c], [heap_slab.c], [heap_big.c],
    [heap_trace.c], [heap_internal.h]).

    The pages of the heap are a map from the virtual address of a page to the header at
    its start; the bytes behind the headers are the function [data]. The page allocator,
    the other reclaim hooks and [pmm_kernel_ptr_is_managed] are arguments; so is the first
    word of a page that is not of the heap. A locked section is one step, and so is a call. *)

From S2P Require Import Prelude.
#[local] Open Scope Z_scope.

Module Heap.

Definition SLAB_MAGIC : Z := 0x51ABCAFECAFE51AB.
Definition BIG_MAGIC : Z := 0xB16A110CB16A110C.
Definition PAGE_SIZE : Z := 4096.
Definition CACHE_COUNT : Z := 6.
Definition MAX_CPUS : Z := 64.
Definition HEAP_PCPU_CLASSES : Z := 4.
Definition HEAP_PCPU_CAPACITY : Z := 8.
Definition HEAP_PCPU_BATCH : nat := 4.
Definition SIZEOF_SLAB : Z := 64.
Definition SIZEOF_BIG : Z := 64.
Definition SIZE_MAX : Z := UINT64_MAX.

(** ** The log of frees *)

(** The 256 entries of [kfree_trace], object and caller, by index. *)
Definition KFREE_TRACE_DEPTH : Z := 256.
Record free_log := mk_log { kfree_trace : Z -> Z * Z; kfree_trace_next : Z }.
Definition heap_trace_record (ptr caller : Z) (t : free_log) : free_log :=
  let n := u32 (kfree_trace_next t + 1) in
  let slot := n mod KFREE_TRACE_DEPTH in
  mk_log (fun i => if i =? slot then (ptr, caller) else kfree_trace t i) n.
(** The callers in the log for [ptr], in the order the scans meet them. *)
Fixpoint trace_scan (k : nat) (n ptr : Z) (t : free_log) : list Z :=
  match k with
  | O => []
  | S k =>
    let '(p, c) := kfree_trace t (u32 (kfree_trace_next t - n) mod KFREE_TRACE_DEPTH) in
    (if (p =? ptr) && nz c then [c] else []) ++ trace_scan k (n + 1) ptr t
  end.
Definition heap_last_free_caller (ptr : Z) (t : free_log) : option Z := if ptr =? 0 then None else head (trace_scan 256 1 ptr t).
(** The callers [heap_trace_warn_double] names: of this free, and of the free before. *)
Definition heap_trace_warn_double (ptr : Z) (t : free_log) : Z * Z := match trace_scan 256 1 ptr t with c :: p :: _ => (c, p) | [c] => (c, 0) | [] => (0, 0) end.

(** ** State *)

(** [cache] is the index in [heap_caches]. *)
Record slab := mk_slab { magic : Z; next : Z; prev : Z; free_count : Z; total_count : Z; cache : Z; bitmap : list Z }.
Record big_alloc := mk_big { bmagic : Z; pages : Z; bnext : Z; bprev : Z }.
Inductive header := Slab (s : slab) | Big (b : big_alloc).
Record slab_cache := mk_cache { obj_size : Z; partial : Z; full : Z; free : Z }.
(** [magazines] are the entries of the per-CPU caches, by CPU and class. *)
Record heap (P : Type) := mk_heap { mem : gmap Z header; caches : list slab_cache; big_head : Z; magazines : list (list (list Z)); dbg_on : bool; initialized : bool; pmm : P; data : Z -> Z; log : free_log }.
Arguments mk_heap {P}. Arguments mem {P}. Arguments caches {P}. Arguments big_head {P}. Arguments magazines {P}. Arguments dbg_on {P}. Arguments initialized {P}. Arguments pmm {P}. Arguments data {P}. Arguments log {P}.

(** What a call finds: the number of its CPU, whether one of the two tests sees the lock of
    the per-CPU cache taken, and the return address of the call. *)
Record env := mk_env { cpu : option Z; pcpu_locked : bool; caller : Z }.

(** ** Bitmaps *)

Definition BITMAP_SET (l : list Z) (i : Z) : outcome (list Z) := w ← arr_get l (i / 32); arr_set l (i / 32) (Z.lor w (bit (i mod 32))).
Definition BITMAP_CLEAR (l : list Z) (i : Z) : outcome (list Z) := w ← arr_get l (i / 32); arr_set l (i / 32) (Z.land w (u32 (Z.lnot (bit (i mod 32))))).
Definition BITMAP_TEST (l : list Z) (i : Z) : outcome bool := w ← arr_get l (i / 32); Ret (nz (Z.land w (bit (i mod 32)))).

(** [__builtin_ctz] of a word that is not 0. *)
Fixpoint ctz (n : nat) (i w : Z) : Z := match n with O => i | S n => if Z.testbit w i then i else ctz n (i + 1) w end.
Fixpoint find_word (w : Z) (l : list Z) (total : Z) : Z :=
  match l with
  | [] => -1
  | word :: l =>
    if word =? UINT32_MAX then find_word (w + 1) l total
    else let idx := Z.lor (Z.shiftl w 5) (ctz 32 0 (u32 (Z.lnot word))) in if idx <? total then idx else -1
  end.
Definition slab_find_first_free_idx (s : slab) : Z := find_word 0 (bitmap s) (total_count s).

(** [31 - __builtin_clz(x)] is the logarithm. *)
Definition heap_cache_index (size : Z) : Z :=
  if size <=? 32 then 0 else if size >? 1024 then -1 else Z.log2 (u32 (size - 1)) - 4.

Section Heap.
Context {P : Type}.
Notation heap := (heap P).

Definition set_mem (m : gmap Z header) (h : heap) : heap := mk_heap m (caches h) (big_head h) (magazines h) (dbg_on h) (initialized h) (pmm h) (data h) (log h).
Definition set_caches (c : list slab_cache) (h : heap) : heap := mk_heap (mem h) c (big_head h) (magazines h) (dbg_on h) (initialized h) (pmm h) (data h) (log h).
Definition set_big_head (a : Z) (h : heap) : heap := mk_heap (mem h) (caches h) a (magazines h) (dbg_on h) (initialized h) (pmm h) (data h) (log h).
Definition set_magazines (l : list (list (list Z))) (h : heap) : heap := mk_heap (mem h) (caches h) (big_head h) l (dbg_on h) (initialized h) (pmm h) (data h) (log h).
Definition set_pmm (p : P) (h : heap) : heap := mk_heap (mem h) (caches h) (big_head h) (magazines h) (dbg_on h) (initialized h) p (data h) (log h).
Definition set_data (f : Z -> Z) (h : heap) : heap := mk_heap (mem h) (caches h) (big_head h) (magazines h) (dbg_on h) (initialized h) (pmm h) f (log h).
Definition set_log (t : free_log) (h : heap) : heap := mk_heap (mem h) (caches h) (big_head h) (magazines h) (dbg_on h) (initialized h) (pmm h) (data h) t.

Definition memset (a v n : Z) (f : Z -> Z) : Z -> Z := fun x => if (a <=? x) && (x <? a + n) then v else f x.
Definition memcpy (dst src n : Z) (f : Z -> Z) : Z -> Z := fun x => if (dst <=? x) && (x <? dst + n) then f (src + (x - dst)) else f x.

(** ** Slabs and their lists *)

Definition slab_at (h : heap) (a : Z) : outcome slab := match mem h !! a with Some (Slab s) => Ret s | _ => Fault end.
Definition put_slab (a : Z) (s : slab) (h : heap) : heap := set_mem (<[a := Slab s]> (mem h)) h.
Definition set_next (a v : Z) (h : heap) : outcome heap := s ← slab_at h a; Ret (put_slab a (mk_slab (magic s) v (prev s) (free_count s) (total_count s) (cache s) (bitmap s)) h).
Definition set_prev (a v : Z) (h : heap) : outcome heap := s ← slab_at h a; Ret (put_slab a (mk_slab (magic s) (next s) v (free_count s) (total_count s) (cache s) (bitmap s)) h).

Inductive which := Partial | Full | Free.
Definition head_of (w : which) (c : slab_cache) : Z := match w with Partial => partial c | Full => full c | Free => free c end.
Definition with_head (w : which) (v : Z) (c : slab_cache) : slab_cache :=
  match w with Partial => mk_cache (obj_size c) v (full c) (free c) | Full => mk_cache (obj_size c) (partial c) v (free c) | Free => mk_cache (obj_size c) (partial c) (full c) v end.
Definition get_head (ci : Z) (w : which) (h : heap) : outcome Z := c ← arr_get (caches h) ci; Ret (head_of w c).
Definition set_head (ci : Z) (w : which) (v : Z) (h : heap) : outcome heap := c ← arr_get (caches h) ci; l ← arr_set (caches h) ci (with_head w v c); Ret (set_caches l h).

(** [if (s->prev) s->prev->next = s->next; else c->list = s->next; if (s->next) ...] *)
Definition unlink (ci : Z) (w : which) (a : Z) (h : heap) : outcome heap :=
  s ← slab_at h a;
  h ← (if nz (prev s) then set_next (prev s) (next s) h else set_head ci w (next s) h);
  s ← slab_at h a;
  if nz (next s) then set_prev (next s) (prev s) h else Ret h.
(** [s->next = c->list; s->prev = NULL; if (c->list) c->list->prev = s; c->list = s;] *)
Definition push (ci : Z) (w : which) (a : Z) (h : heap) : outcome heap :=
  first ← get_head ci w h;
  h ← set_next a first h; h ← set_prev a 0 h;
  h ← (if nz first then set_prev first a h else Ret h);
  set_head ci w a h.
(** The first slab of the list of empty slabs, taken off it. *)
Definition pop_free (ci a : Z) (h : heap) : outcome heap :=
  s ← slab_at h a;
  h ← set_head ci Free (next s) h;
  if nz (next s) then set_prev (next s) 0 h else Ret h.

Section Calls.
Variable hhdm : Z.
Variable pmm_alloc_page : P -> outcome (Z * P).
Variable pmm_alloc_pages : Z -> P -> outcome (Z * P).
Variable pmm_free_page : Z -> P -> outcome P.
Variable pmm_free_pages : Z -> Z -> P -> outcome P.
(** [kmem_cache_shrink_all], and the hooks after [heap_shrink_empty]. They act on the page
    allocator; that the hooks of other subsystems can call [kfree] on the way is left out. *)
Variable kmem_cache_shrink_all : P -> outcome P.
Variable other_reclaim : P -> outcome P.
Variable managed : Z -> bool.
(** The first word of a page that is not of the heap. *)
Variable foreign_word : Z -> Z.

(** The page is no longer of the heap. Its bytes, the header included, stay as they are until
    its next owner writes; [foreign_word] stands for what [kfree] would read there. *)
Definition free_page_at (a : Z) (h : heap) : outcome heap := p ← pmm_free_page (a - hhdm) (pmm h); Ret (set_mem (delete a (mem h)) (set_pmm p h)).

Definition allocate_new_slab (ci : Z) (h : heap) : outcome (Z * heap) :=
  '(frame, p) ← pmm_alloc_page (pmm h);
  let h := set_pmm p h in
  if frame =? 0 then Ret (0, h)
  else
    let vaddr := u64 (frame + hhdm) in
    c ← arr_get (caches h) ci;
    let total := Z.min 128 (u32 ((PAGE_SIZE - SIZEOF_SLAB) / obj_size c)) in
    let h := set_data (memset vaddr 0 PAGE_SIZE (data h)) h in
    Ret (vaddr, put_slab vaddr (mk_slab SLAB_MAGIC 0 0 total total ci [0; 0; 0; 0]) h).

(** Takes slot [idx] of the slab [a] of the list [partial]. *)
Definition take_slot (ci a idx : Z) (h : heap) : outcome (Z * heap) :=
  s ← slab_at h a;
  b ← BITMAP_SET (bitmap s) idx;
  let fc := if free_count s >? 0 then free_count s - 1 else free_count s in
  let h := put_slab a (mk_slab (magic s) (next s) (prev s) fc (total_count s) (cache s) b) h in
  h ← (if fc =? 0 then h ← unlink ci Partial a h; push ci Full a h else Ret h);
  c ← arr_get (caches h) ci;
  Ret (a + SIZEOF_SLAB + idx * obj_size c, h).
(** The first slab of the list with a free slot. *)
Fixpoint scan_partial (fuel : nat) (a : Z) (h : heap) : outcome (option (Z * Z)) :=
  match fuel with
  | O => OutOfFuel
  | S fuel =>
    if a =? 0 then Ret None
    else
      s ← slab_at h a;
      let idx := slab_find_first_free_idx s in
      if idx =? -1 then scan_partial fuel (next s) h else Ret (Some (a, idx))
  end.
Definition slab_alloc_from_cache_locked (ci : Z) (h : heap) : outcome (Z * heap) :=
  first ← get_head ci Partial h;
  found ← scan_partial (S (size (mem h))) first h;
  match found with
  | Some (a, idx) => take_slot ci a idx h
  | None =>
    e ← get_head ci Free h;
    '(a, h) ← (if nz e then h ← pop_free ci e h; h ← set_next e 0 h; h ← set_prev e 0 h; Ret (e, h) else allocate_new_slab ci h);
    if a =? 0 then Ret (0, h)
    else
      h ← push ci Partial a h;
      s ← slab_at h a;
      let idx := slab_find_first_free_idx s in
      if idx =? -1 then h ← unlink ci Partial a h; h ← push ci Free a h; Ret (0, h)
      else take_slot ci a idx h
  end.

(** Invalid and free objects are reported and nothing changes. *)
Definition slab_free_to_cache_locked (ci a ptr : Z) (h : heap) : outcome heap :=
  let object_base := u64 (a + SIZEOF_SLAB) in
  if ptr <? object_base then Ret h
  else
    let offset := ptr - object_base in
    c ← arr_get (caches h) ci;
    if nz (Z.land offset (u64 (obj_size c - 1))) then Ret h
    else
      let idx := u32 (offset / obj_size c) in
      s ← slab_at h a;
      if idx >=? total_count s then Ret h
      else
        used ← BITMAP_TEST (bitmap s) idx;
        if negb (used : bool) then Ret h
        else
          b ← BITMAP_CLEAR (bitmap s) idx;
          let fc := u32 (free_count s + 1) in
          let h := put_slab a (mk_slab (magic s) (next s) (prev s) fc (total_count s) (cache s) b) h in
          if fc =? total_count s then h ← unlink ci Partial a h; free_page_at a h
          else if fc =? 1 then h ← unlink ci Full a h; push ci Partial a h
          else Ret h.

(** ** Per-CPU caches *)

Definition page_of (ptr : Z) : Z := Z.land ptr (u64 (Z.lnot 4095)).
Definition magazine (c ci : Z) (h : heap) : outcome (list Z) := m ← arr_get (magazines h) c; arr_get m ci.
Definition set_magazine (c ci : Z) (l : list Z) (h : heap) : outcome heap := m ← arr_get (magazines h) c; m ← arr_set m ci l; ms ← arr_set (magazines h) c m; Ret (set_magazines ms h).
Fixpoint free_batch (ci : Z) (l : list Z) (h : heap) : outcome heap :=
  match l with [] => Ret h | ptr :: l => h ← slab_free_to_cache_locked ci (page_of ptr) ptr h; free_batch ci l h end.
Fixpoint flush_classes (c : Z) (classes : list Z) (h : heap) : outcome heap :=
  match classes with
  | [] => Ret h
  | ci :: classes => l ← magazine c ci h; h ← set_magazine c ci [] h; h ← free_batch ci l h; flush_classes c classes h
  end.
Definition heap_pcpu_flush_cpu (c : Z) (h : heap) : outcome heap := if c >=? MAX_CPUS then Ret h else flush_classes c (seqZ 0 HEAP_PCPU_CLASSES) h.
Fixpoint flush_cpus (l : list Z) (h : heap) : outcome heap := match l with [] => Ret h | c :: l => h ← heap_pcpu_flush_cpu c h; flush_cpus l h end.
Definition heap_pcpu_flush_all (h : heap) : outcome heap := flush_cpus (seqZ 0 MAX_CPUS) h.

(** [while (c->free)] *)
Fixpoint shrink_cache (fuel : nat) (ci : Z) (h : heap) : outcome heap :=
  match fuel with
  | O => OutOfFuel
  | S fuel => a ← get_head ci Free h; if a =? 0 then Ret h else h ← pop_free ci a h; h ← free_page_at a h; shrink_cache fuel ci h
  end.
Fixpoint shrink_caches (l : list Z) (h : heap) : outcome heap := match l with [] => Ret h | ci :: l => h ← shrink_cache (S (size (mem h))) ci h; shrink_caches l h end.
Definition heap_shrink_empty (h : heap) : outcome heap := h ← heap_pcpu_flush_all h; shrink_caches (seqZ 0 CACHE_COUNT) h.
Definition heap_oom_reclaim (h : heap) : outcome heap :=
  p ← kmem_cache_shrink_all (pmm h);
  h ← heap_shrink_empty (set_pmm p h);
  p ← other_reclaim (pmm h);
  Ret (set_pmm p h).

(** The per-CPU cache a call may use. *)
Definition usable_cpu (e : env) : option Z := match cpu e with Some c => if (c <? MAX_CPUS) && negb (pcpu_locked e) then Some c else None | None => None end.

Definition heap_slab_slow (ci : Z) (h : heap) : outcome (Z * heap) :=
  '(ptr, h) ← slab_alloc_from_cache_locked ci h;
  if nz ptr then Ret (ptr, h) else h ← heap_oom_reclaim h; slab_alloc_from_cache_locked ci h.
Definition heap_slab_alloc (e : env) (size : Z) (h : heap) : outcome (Z * heap) :=
  let ci := heap_cache_index size in
  if ci <? 0 then Ret (0, h)
  else
    match (if (ci <? HEAP_PCPU_CLASSES) && initialized h then usable_cpu e else None) with
    | Some c =>
      l ← magazine c ci h;
      match l !! (length l - 1)%nat with
      | Some obj => h ← set_magazine c ci (take (length l - 1) l) h; Ret (obj, h)
      | None => heap_slab_slow ci h
      end
    | None => heap_slab_slow ci h
    end.

(** An object parked in the per-CPU cache; a full one is drained by a batch first. *)
Definition park (c ci ptr : Z) (h : heap) : outcome heap :=
  l ← magazine c ci h;
  if dbg_on h && bool_decide (ptr ∈ l) then Ret h
  else if Z.of_nat (length l) <? HEAP_PCPU_CAPACITY then set_magazine c ci (l ++ [ptr]) h
  else
    let keep := (length l - HEAP_PCPU_BATCH)%nat in
    h ← set_magazine c ci (take keep l ++ [ptr]) h;
    free_batch ci (rev (drop keep l)) h.
Definition heap_slab_free (e : env) (ptr page_base : Z) (h : heap) : outcome (bool * heap) :=
  s ← slab_at h page_base;
  let ci := cache s in
  if (ci <? 0) || (ci >=? CACHE_COUNT) then Ret (false, h)
  else
    c ← arr_get (caches h) ci;
    let slow := h ← slab_free_to_cache_locked ci page_base ptr h; Ret (true, h) in
    if (ci <? HEAP_PCPU_CLASSES) && initialized h then
      let object_base := u64 (page_base + SIZEOF_SLAB) in
      if ptr <? object_base then Ret (false, h)
      else
        let offset := ptr - object_base in
        if nz (Z.land offset (u64 (obj_size c - 1))) then Ret (false, h)
        else if u32 (offset / obj_size c) >=? total_count s then Ret (false, h)
        else match usable_cpu e with Some k => h ← park k ci ptr h; Ret (true, h) | None => slow end
    else slow.

Definition heap_slab_ksize (ptr page_base : Z) (h : heap) : outcome Z :=
  s ← slab_at h page_base;
  let object_base := u64 (page_base + SIZEOF_SLAB) in
  if ptr <? object_base then Ret 0
  else
    let offset := ptr - object_base in
    c ← arr_get (caches h) (cache s);
    if nz (Z.land offset (u64 (obj_size c - 1))) then Ret 0
    else if u32 (offset / obj_size c) >=? total_count s then Ret 0 else Ret (obj_size c).

(** The length of a list of slabs. *)
Fixpoint list_length (fuel : nat) (a : Z) (h : heap) : outcome Z :=
  match fuel with
  | O => OutOfFuel
  | S fuel => if a =? 0 then Ret 0 else s ← slab_at h a; n ← list_length fuel (next s) h; Ret (u64 (n + 1))
  end.
Fixpoint count_slabs (ws : list which) (cis : list Z) (h : heap) : outcome Z :=
  match cis with
  | [] => Ret 0
  | ci :: cis =>
    n ← foldr (fun w acc => a ← get_head ci w h; n ← list_length (S (size (mem h))) a h; m ← acc; Ret (u64 (n + m))) (Ret 0) ws;
    m ← count_slabs ws cis h; Ret (u64 (n + m))
  end.
Definition heap_slab_total_slabs (h : heap) : outcome Z := count_slabs [Partial; Full; Free] (seqZ 0 CACHE_COUNT) h.
Definition heap_slab_free_slabs (h : heap) : outcome Z := count_slabs [Free] (seqZ 0 CACHE_COUNT) h.

(** ** Big allocations *)

Definition big_at (h : heap) (a : Z) : outcome big_alloc := match mem h !! a with Some (Big b) => Ret b | _ => Fault end.
Definition put_big (a : Z) (b : big_alloc) (h : heap) : heap := set_mem (<[a := Big b]> (mem h)) h.
Definition set_bnext (a v : Z) (h : heap) : outcome heap := b ← big_at h a; Ret (put_big a (mk_big (bmagic b) (pages b) v (bprev b)) h).
Definition set_bprev (a v : Z) (h : heap) : outcome heap := b ← big_at h a; Ret (put_big a (mk_big (bmagic b) (pages b) (bnext b) v) h).

Definition heap_big_alloc (size : Z) (h : heap) : outcome (Z * heap) :=
  let total_size := u64 (size + SIZEOF_BIG) in
  let pages := u64 (total_size + PAGE_SIZE - 1) / PAGE_SIZE in
  '(blocks, p) ← pmm_alloc_pages pages (pmm h);
  let h := set_pmm p h in
  '(blocks, h) ← (if blocks =? 0 then h ← heap_oom_reclaim h; '(blocks, p) ← pmm_alloc_pages pages (pmm h); Ret (blocks, set_pmm p h) else Ret (blocks, h));
  if blocks =? 0 then Ret (0, h)
  else
    let b := u64 (blocks + hhdm) in
    let h := put_big b (mk_big BIG_MAGIC pages (big_head h) 0) h in
    h ← (if nz (big_head h) then set_bprev (big_head h) b h else Ret h);
    Ret (b + SIZEOF_BIG, set_big_head b h).

Definition heap_big_free (ptr page_base : Z) (h : heap) : outcome (bool * heap) :=
  b ← big_at h page_base;
  if negb (ptr =? u64 (page_base + SIZEOF_BIG)) then Ret (false, h)
  else if pages b =? 0 then Ret (false, h)
  else
    h ← (if nz (bprev b) then set_bnext (bprev b) (bnext b) h else Ret (set_big_head (bnext b) h));
    h ← (if nz (bnext b) then set_bprev (bnext b) (bprev b) h else Ret h);
    p ← pmm_free_pages (page_base - hhdm) (pages b) (pmm h);
    Ret (true, set_mem (delete page_base (mem h)) (set_pmm p h)).

Definition heap_big_ksize (ptr page_base : Z) (h : heap) : outcome Z :=
  b ← big_at h page_base;
  if negb (ptr =? u64 (page_base + SIZEOF_BIG)) then Ret 0
  else if u64 (pages b * PAGE_SIZE) <? SIZEOF_BIG then Ret 0
  else Ret (u64 (pages b * PAGE_SIZE) - SIZEOF_BIG).

(** ** The interface of the heap *)

Definition heap_slab_init (h : heap) : heap := set_magazines (replicate 64 (replicate 4 [])) h.
Definition heap_big_init (h : heap) : heap := set_big_head 0 h.
Definition heap_init (h : heap) : heap := let h := heap_big_init (heap_slab_init h) in mk_heap (mem h) (caches h) (big_head h) (magazines h) (dbg_on h) true (pmm h) (data h) (log h).

Definition kmalloc (e : env) (size : Z) (h : heap) : outcome (Z * heap) :=
  if size =? 0 then Ret (0, h)
  else
    '(ptr, h) ← (if size <=? 1024 then heap_slab_alloc e size h else Ret (0, h));
    if nz ptr then Ret (ptr, h) else heap_big_alloc size h.

Definition magic_of (h : heap) (page_base : Z) : Z := match mem h !! page_base with Some (Slab s) => magic s | Some (Big b) => bmagic b | None => foreign_word page_base end.
Definition kfree (e : env) (ptr : Z) (h : heap) : outcome heap :=
  if ptr =? 0 then Ret h
  else
    let h := set_log (heap_trace_record ptr (caller e) (log h)) h in
    if negb (managed ptr) then Ret h
    else
    let page_base := page_of ptr in
    if magic_of h page_base =? SLAB_MAGIC then '(_, h) ← heap_slab_free e ptr page_base h; Ret h
    else if magic_of h page_base =? BIG_MAGIC then '(_, h) ← heap_big_free ptr page_base h; Ret h
    else Ret h.

Definition heap_ksize (ptr : Z) (h : heap) : outcome Z :=
  if (ptr =? 0) || negb (managed ptr) then Ret 0
  else
    let page_base := page_of ptr in
    if magic_of h page_base =? SLAB_MAGIC then heap_slab_ksize ptr page_base h
    else if magic_of h page_base =? BIG_MAGIC then heap_big_ksize ptr page_base h
    else Ret 0.

Definition kcalloc (e : env) (num size : Z) (h : heap) : outcome (Z * heap) :=
  if nz size && (num >? SIZE_MAX / size) then Ret (0, h)
  else
    let total := u64 (num * size) in
    '(ptr, h) ← kmalloc e total h;
    Ret (ptr, if nz ptr then set_data (memset ptr 0 total (data h)) h else h).

Definition krealloc (e : env) (ptr new_size : Z) (h : heap) : outcome (Z * heap) :=
  if ptr =? 0 then kmalloc e new_size h
  else if new_size =? 0 then h ← kfree e ptr h; Ret (0, h)
  else
    old_size ← heap_ksize ptr h;
    if old_size =? 0 then Ret (0, h)
    else if new_size <=? old_size then Ret (ptr, h)
    else
      '(new_ptr, h) ← kmalloc e new_size h;
      if nz new_ptr then h ← kfree e ptr (set_data (memcpy new_ptr ptr old_size (data h)) h); Ret (new_ptr, h)
      else Ret (new_ptr, h).

End Calls.
End Heap.

(** The caches as the file initialises them. *)
Definition heap_caches : list slab_cache := map (fun n => mk_cache n 0 0 0) [32; 64; 128; 256; 512; 1024].
End Heap.
