(* ===== verification/HeapSafe.v ===== *)
(** HeapSafe: the invariant of the kernel heap. The slabs of a class are on its list of
    partial or of full slabs, as their counts say; the lists are linked both ways; every
    page of the heap is a block of the page allocator. The operations are described by the
    slots they take and give back. *)

From S2P Require Import Prelude Heap.
From stdpp Require Import list_relations.
#[local] Open Scope Z_scope.

Module HeapSafe.
Import Heap.

(** ** Bitmaps *)

Definition good_bm (l : list Z) : Prop := length l = 4%nat /\ Forall (fun w => 0 <= w < 2 ^ 32) l.
Definition bm_test (l : list Z) (i : Z) : bool := Z.testbit (nth (Z.to_nat (i / 32)) l 0) (i mod 32).

Lemma word_at l i : good_bm l -> 0 <= i < 128 -> exists w, arr_get l (i / 32) = Ret w /\ l !! Z.to_nat (i / 32) = Some w /\ nth (Z.to_nat (i / 32)) l 0 = w /\ 0 <= w < 2 ^ 32 /\ 0 <= i / 32 < 4.
Proof.
  intros [Hl Hw] Hi. assert (Hd : 0 <= i / 32 < 4) by (split; [apply Z.div_pos; lia|apply Z.div_lt_upper_bound; lia]). destruct (lookup_lt_is_Some_2 l (Z.to_nat (i / 32))) as [w Ew]; [lia|]. exists w. unfold arr_get. rewrite (proj2 (Z.ltb_ge _ _)), Ew by lia. split; [done|]. split; [done|]. split; [by apply nth_lookup_Some with (d := 0) in Ew|]. split; [|done]. rewrite Forall_lookup in Hw. by apply (Hw _ _ Ew).
Qed.
Lemma bit_test n k : 0 <= n -> 0 <= k -> Z.testbit (bit n) k = (k =? n).
Proof. intros Hn Hk. unfold bit. rewrite Z.shiftl_1_l. rewrite Z.pow2_bits_eqb by done. apply Z.eqb_sym. Qed.
Lemma nz_land_bit w n : 0 <= n -> nz (Z.land w (bit n)) = Z.testbit w n.
Proof.
  intros Hn. unfold nz. destruct (Z.testbit w n) eqn:E.
  - destruct (Z.land w (bit n) =? 0) eqn:Ez; [|done]. apply Z.eqb_eq in Ez. assert (H : Z.testbit (Z.land w (bit n)) n = false) by (rewrite Ez; apply Z.bits_0). rewrite Z.land_spec, E, bit_test, Z.eqb_refl in H by done. done.
  - assert (Z.land w (bit n) = 0) as ->; [|done]. apply Z.bits_inj'. intros k Hk. rewrite Z.land_spec, bit_test, Z.bits_0 by done. destruct (k =? n) eqn:Ek; [apply Z.eqb_eq in Ek; subst; by rewrite E|apply andb_false_r].
Qed.

Lemma test_ok l i : good_bm l -> 0 <= i < 128 -> BITMAP_TEST l i = Ret (bm_test l i).
Proof. intros Hg Hi. destruct (word_at l i Hg Hi) as (w & E & _ & En & _). unfold BITMAP_TEST, bm_test. rewrite E, ret_bind, En. f_equal. apply nz_land_bit. apply Z.mod_pos_bound. lia. Qed.

(** A write to one word, seen bit by bit. *)
Lemma write_word l i w w' v : good_bm l -> 0 <= i < 128 -> l !! Z.to_nat (i / 32) = Some w -> 0 <= w' < 2 ^ 32 -> (forall k, 0 <= k < 32 -> Z.testbit w' k = if k =? i mod 32 then v else Z.testbit w k) ->
  exists l', arr_set l (i / 32) w' = Ret l' /\ good_bm l' /\ (forall j, 0 <= j < 128 -> bm_test l' j = if j =? i then v else bm_test l j).
Proof.
  intros [Hl Hw] Hi Ew Hw' Hb. assert (Hd : 0 <= i / 32 < 4) by (split; [apply Z.div_pos; lia|apply Z.div_lt_upper_bound; lia]). rewrite arr_set_Ret by lia. eexists. split; [done|]. split; [split; [by rewrite length_insert|apply Forall_insert; [done|done]]|]. intros j Hj. unfold bm_test. assert (Hjd : 0 <= j / 32 < 4) by (split; [apply Z.div_pos; lia|apply Z.div_lt_upper_bound; lia]). pose proof (Z.mod_pos_bound j 32 ltac:(lia)) as Hjm. pose proof (Z.mod_pos_bound i 32 ltac:(lia)). pose proof (Z.div_mod i 32 ltac:(lia)) as Ei. pose proof (Z.div_mod j 32 ltac:(lia)) as Ej. destruct (decide (j / 32 = i / 32)) as [E|E].
  - rewrite E. rewrite (nth_lookup_Some (<[_ := w']> l) _ 0 w') by (apply list_lookup_insert_eq; lia). rewrite (nth_lookup_Some l _ 0 w Ew). rewrite Hb by done. destruct (j =? i) eqn:E1; reify_bools; [subst; by rewrite Z.eqb_refl|]. rewrite (proj2 (Z.eqb_neq _ _)) by lia. done.
  - rewrite (proj2 (Z.eqb_neq j i)) by congruence. f_equal. destruct (lookup_lt_is_Some_2 l (Z.to_nat (j / 32))) as [u Eu]; [lia|]. rewrite (nth_lookup_Some l _ 0 u Eu). apply nth_lookup_Some. rewrite list_lookup_insert_ne by lia. done.
Qed.
Lemma set_ok l i : good_bm l -> 0 <= i < 128 -> exists l', BITMAP_SET l i = Ret l' /\ good_bm l' /\ (forall j, 0 <= j < 128 -> bm_test l' j = if j =? i then true else bm_test l j).
Proof.
  intros Hg Hi. destruct (word_at l i Hg Hi) as (w & E & Ew & _ & Hw & _). unfold BITMAP_SET. rewrite E, ret_bind. pose proof (Z.mod_pos_bound i 32 ltac:(lia)). apply (write_word l i w); [done|done|done| |].
  - apply lor_below; [lia|done|]. unfold bit. rewrite Z.shiftl_1_l. split; [by apply Z.pow_nonneg|apply Z.pow_lt_mono_r; lia].
  - intros k Hk. rewrite Z.lor_spec, bit_test by lia. destruct (k =? i mod 32); [apply orb_true_r|apply orb_false_r].
Qed.
Lemma u32_lnot_test w k : 0 <= k < 32 -> Z.testbit (u32 (Z.lnot w)) k = negb (Z.testbit w k).
Proof. intros Hk. unfold u32. rewrite Z.mod_pow2_bits_low by lia. by rewrite Z.lnot_spec by lia. Qed.
Lemma heap_clear_ok l i : good_bm l -> 0 <= i < 128 -> exists l', BITMAP_CLEAR l i = Ret l' /\ good_bm l' /\ (forall j, 0 <= j < 128 -> bm_test l' j = if j =? i then false else bm_test l j).
Proof.
  intros Hg Hi. destruct (word_at l i Hg Hi) as (w & E & Ew & _ & Hw & _). unfold BITMAP_CLEAR. rewrite E, ret_bind. pose proof (Z.mod_pos_bound i 32 ltac:(lia)). apply (write_word l i w); [done|done|done| |].
  - apply land_below; [lia|]. unfold u32. apply Z.mod_pos_bound. lia.
  - intros k Hk. rewrite Z.land_spec, u32_lnot_test, bit_test by lia. destruct (k =? i mod 32); [apply andb_false_r|apply andb_true_r].
Qed.

Lemma ctz_spec n : forall i w, (exists k, i <= k < i + Z.of_nat n /\ Z.testbit w k = true) -> i <= ctz n i w < i + Z.of_nat n /\ Z.testbit w (ctz n i w) = true /\ (forall k, i <= k < ctz n i w -> Z.testbit w k = false).
Proof.
  induction n as [|n IH]; intros i w (k & Hk & E); [lia|]. cbn [ctz]. destruct (Z.testbit w i) eqn:Ei; [split; [lia|]; split; [done|lia]|]. destruct (IH (i + 1) w) as (H1 & H2 & H3); [exists k; split; [|done]; assert (k <> i) by (intros ->; congruence); lia|]. split; [lia|]. split; [done|]. intros j Hj. destruct (decide (j = i)) as [->|]; [done|]. apply H3. lia.
Qed.
Lemma word_full w : 0 <= w < 2 ^ 32 -> (forall k, 0 <= k < 32 -> Z.testbit w k = true) -> w = UINT32_MAX.
Proof.
  intros Hw H. apply Z.bits_inj'. intros k Hk. unfold UINT32_MAX. change (2 ^ 32 - 1) with (Z.ones 32). destruct (decide (k < 32)); [rewrite H, Z.ones_spec_low by lia; done|]. rewrite Z.ones_spec_high by lia. apply Z.bits_above_log2; [lia|]. destruct (decide (w = 0)) as [->|]; [cbn; lia|]. apply Z.lt_le_trans with 32; [apply Z.log2_lt_pow2; lia|lia].
Qed.
Lemma full_word k : 0 <= k < 32 -> Z.testbit UINT32_MAX k = true.
Proof. intros Hk. unfold UINT32_MAX. change (2 ^ 32 - 1) with (Z.ones 32). by rewrite Z.ones_spec_low by lia. Qed.

Lemma lor_index w b : 0 <= w -> 0 <= b < 32 -> Z.lor (Z.shiftl w 5) b = 32 * w + b.
Proof. intros Hw Hb. rewrite Z.lor_comm, lor_shiftl_add by (cbn; lia). lia. Qed.
Lemma test_split l w b : 0 <= w -> 0 <= b < 32 -> bm_test l (32 * w + b) = Z.testbit (nth (Z.to_nat w) l 0) b.
Proof. intros Hw Hb. unfold bm_test. rewrite (Z.mul_comm 32), Z.div_add_l, (Z.div_small b), Z.add_0_r by lia. rewrite Z.add_comm, Z.mod_add, Z.mod_small by lia. done. Qed.

Lemma find_word_ok l total : good_bm l -> total <= 128 -> forall k w, Z.of_nat k + w = 4 -> 0 <= w -> (forall i, 0 <= i < 32 * w -> bm_test l i = true) ->
  let r := find_word w (drop (Z.to_nat w) l) total in r = -1 /\ (forall i, 0 <= i < total -> bm_test l i = true) \/ 0 <= r < total /\ bm_test l r = false.
Proof.
  intros [Hl Hw] Ht. induction k as [|k IH]; intros w Hk H0 Hb; cbv zeta.
  - rewrite drop_ge by lia. left. split; [done|]. intros i Hi. apply Hb. lia.
  - destruct (lookup_lt_is_Some_2 l (Z.to_nat w)) as [word Ew]; [lia|]. rewrite (drop_S l word _ Ew). cbn [find_word]. pose proof (nth_lookup_Some l _ 0 word Ew) as En. rewrite Forall_lookup in Hw. pose proof (Hw _ _ Ew) as Hword. destruct (word =? UINT32_MAX) eqn:E; reify_bools.
    + replace (S (Z.to_nat w)) with (Z.to_nat (w + 1)) by lia. apply IH; [lia|lia|]. intros i Hi. destruct (decide (i < 32 * w)); [apply Hb; lia|]. replace i with (32 * w + (i - 32 * w)) by lia. rewrite test_split, En, E by lia. apply full_word. lia.
    + destruct (ctz_spec 32 0 (u32 (Z.lnot word))) as (H1 & H2 & H3).
      { destruct (decide (Exists (fun k => Z.testbit word k = false) (seqZ 0 32))) as [Hx|Hx]; [apply Exists_exists in Hx as (j & Hj & Ej); apply elem_of_seqZ in Hj; exists j; split; [lia|]; rewrite u32_lnot_test, Ej by lia; done|]. exfalso. apply E. apply word_full; [done|]. intros j Hj. destruct (Z.testbit word j) eqn:Ej; [done|]. exfalso. apply Hx. apply Exists_exists. exists j. split; [apply elem_of_seqZ; lia|done]. }
      set (b := ctz 32 0 (u32 (Z.lnot word))) in *. rewrite lor_index by lia. destruct (32 * w + b <? total) eqn:Et; reify_bools.
      * right. split; [lia|]. rewrite test_split, En by lia. rewrite u32_lnot_test in H2 by lia. by destruct (Z.testbit word b).
      * left. split; [done|]. intros i Hi. destruct (decide (i < 32 * w)); [apply Hb; lia|]. replace i with (32 * w + (i - 32 * w)) by lia. rewrite test_split, En by lia. specialize (H3 (i - 32 * w) ltac:(lia)). rewrite u32_lnot_test in H3 by lia. by destruct (Z.testbit word (i - 32 * w)).
Qed.

(** The used slots of a bitmap. *)
Definition used (l : list Z) (total : Z) : Z := countb (bm_test l) (seqZ 0 total).
Lemma used_range l total : 0 <= total -> 0 <= used l total <= total.
Proof. intros H. unfold used. split; [apply count_nonneg|]. assert (Hc : forall m, countb (bm_test l) m <= Z.of_nat (length m)) by (induction m as [|x m IH]; cbn [countb length]; [lia|]; destruct (bm_test l x); cbn [Z.b2z]; lia). specialize (Hc (seqZ 0 total)). rewrite length_seqZ in Hc. lia. Qed.
Lemma count_point (f g : Z -> bool) l i : NoDup l -> (forall j, j ∈ l -> j <> i -> g j = f j) -> countb g l = countb f l + (if bool_decide (i ∈ l) then Z.b2z (g i) - Z.b2z (f i) else 0).
Proof.
  induction l as [|x l IH]; intros Hn H; [done|]. apply NoDup_cons in Hn as [Hx Hn]. cbn [countb]. rewrite IH by (done || (intros j Hj; apply H; by right)). destruct (decide (x = i)) as [->|Hne].
  - rewrite (bool_decide_eq_false_2 (i ∈ l)) by done. rewrite (bool_decide_eq_true_2 (i ∈ i :: l)) by left. lia.
  - rewrite (H x) by (done || left). rewrite (bool_decide_ext (i ∈ x :: l) (i ∈ l)); [lia|]. rewrite elem_of_cons. split; [by intros [?|?]|by right].
Qed.
Lemma used_change l l' total i v : 0 <= i < total -> total <= 128 -> (forall j, 0 <= j < 128 -> bm_test l' j = if j =? i then v else bm_test l j) -> used l' total = used l total + Z.b2z v - Z.b2z (bm_test l i).
Proof.
  intros Hi Ht H. unfold used. rewrite (count_point (bm_test l) (bm_test l') _ i (NoDup_seqZ _ _)); [|intros j Hj Hne; apply elem_of_seqZ in Hj; rewrite H by lia; by rewrite (proj2 (Z.eqb_neq j i))]. rewrite bool_decide_eq_true_2 by (apply elem_of_seqZ; lia). rewrite H, Z.eqb_refl by lia. lia.
Qed.
Lemma used_full l total : 0 <= total -> (forall i, 0 <= i < total -> bm_test l i = true) -> used l total = total.
Proof.
  intros H0 H. unfold used. assert (Hc : forall m, (forall i, i ∈ m -> bm_test l i = true) -> countb (bm_test l) m = Z.of_nat (length m)) by (induction m as [|x m IH]; intros Hm; cbn [countb length]; [done|]; rewrite IH by (intros i Hi; apply Hm; by right); rewrite Hm by left; cbn; lia). rewrite Hc, length_seqZ; [lia|]. intros i Hi. apply elem_of_seqZ in Hi. apply H. lia.
Qed.
Lemma used_none l total i : used l total = 0 -> 0 <= i < total -> bm_test l i = false.
Proof.
  intros H Hi. destruct (bm_test l i) eqn:E; [|done]. exfalso. unfold used in H. pose proof (count_pos (bm_test l) (seqZ 0 total) (Z.to_nat i) i) as Hc. rewrite lookup_seqZ_lt in Hc by lia. replace (0 + Z.of_nat (Z.to_nat i)) with i in Hc by lia. specialize (Hc eq_refl E). lia.
Qed.
Lemma first_free_ok s : good_bm (bitmap s) -> 0 <= total_count s <= 128 -> let r := slab_find_first_free_idx s in r = -1 /\ used (bitmap s) (total_count s) = total_count s \/ 0 <= r < total_count s /\ bm_test (bitmap s) r = false.
Proof.
  intros Hg Ht. unfold slab_find_first_free_idx. destruct (find_word_ok (bitmap s) (total_count s) Hg ltac:(lia) 4 0) as [[E H]|H]; [lia|lia|intros i Hi; lia| |].
  - left. split; [exact E|]. apply used_full; [lia|done].
  - right. exact H.
Qed.

Section Safe.
Context {P : Type}.
Notation heap := (heap P).

Definition link_of (h : heap) (a : Z) : option (Z * Z) := match mem h !! a with Some (Slab s) => Some (next s, prev s) | _ => None end.
(** A slab without its links. *)
Definition strip (s : slab) : slab := mk_slab (magic s) 0 0 (free_count s) (total_count s) (cache s) (bitmap s).
Definition core_of (h : heap) (a : Z) : option slab := match mem h !! a with Some (Slab s) => Some (strip s) | _ => None end.
Definition big_of (h : heap) (a : Z) : option big_alloc := match mem h !! a with Some (Big b) => Some b | _ => None end.

(** What a change of links or slabs leaves alone. *)
Record rest (h h' : heap) : Prop := mk_rest { re_head : big_head h' = big_head h; re_mag : magazines h' = magazines h; re_dbg : dbg_on h' = dbg_on h; re_init : initialized h' = initialized h; re_pmm : pmm h' = pmm h; re_data : data h' = data h; re_big : forall x, big_of h' x = big_of h x }.
Definition relinks (h h' : heap) (l : list Z) : Prop := rest h h' /\ (forall x, core_of h' x = core_of h x) /\ (forall x, x ∉ l -> link_of h' x = link_of h x).
Lemma rest_refl h : rest h h.
Proof. by split. Qed.
Lemma rest_trans h1 h2 h3 : rest h1 h2 -> rest h2 h3 -> rest h1 h3.
Proof. intros [] []. split; congruence. Qed.
Lemma relinks_trans h1 h2 h3 l : relinks h1 h2 l -> relinks h2 h3 l -> relinks h1 h3 l.
Proof. intros (R1 & C1 & L1) (R2 & C2 & L2). split; [by apply (rest_trans _ h2)|]. split; [intros x; congruence|]. intros x Hx. rewrite L2, L1 by done. done. Qed.
Lemma relinks_sub h h' l l' : (forall x, x ∈ l -> x ∈ l') -> relinks h h' l -> relinks h h' l'.
Proof. intros H (R & C & L). split; [done|]. split; [done|]. intros x Hx. apply L. auto. Qed.

Lemma link_slab h a n p : link_of h a = Some (n, p) -> exists s, mem h !! a = Some (Slab s) /\ next s = n /\ prev s = p.
Proof. unfold link_of. destruct (mem h !! a) as [[s|b]|] eqn:E; [|done|done]. intros [= <- <-]. by exists s. Qed.

Lemma slab_at_ok (h : heap) a s : mem h !! a = Some (Slab s) -> slab_at h a = Ret s.
Proof. unfold slab_at. by intros ->. Qed.
Lemma set_next_ok h a v n p : link_of h a = Some (n, p) -> exists h', set_next a v h = Ret h' /\ relinks h h' [a] /\ link_of h' a = Some (v, p) /\ caches h' = caches h.
Proof.
  intros E. destruct (link_slab h a n p E) as (s & Es & <- & <-). unfold set_next, slab_at. rewrite Es, ret_bind. eexists. split; [done|]. split; [|unfold link_of; cbn; by rewrite lookup_insert_eq].
  split; [split; try done|split]; unfold big_of, core_of, link_of; cbn [mem put_slab set_mem].
  - intros x. destruct (decide (x = a)) as [->|]; [by rewrite lookup_insert_eq, Es|by rewrite lookup_insert_ne].
  - intros x. destruct (decide (x = a)) as [->|]; [by rewrite lookup_insert_eq, Es|by rewrite lookup_insert_ne].
  - intros x Hx. rewrite lookup_insert_ne; [done|]. intros ->. apply Hx. left.
Qed.
Lemma set_prev_ok h a v n p : link_of h a = Some (n, p) -> exists h', set_prev a v h = Ret h' /\ relinks h h' [a] /\ link_of h' a = Some (n, v) /\ caches h' = caches h.
Proof.
  intros E. destruct (link_slab h a n p E) as (s & Es & <- & <-). unfold set_prev, slab_at. rewrite Es, ret_bind. eexists. split; [done|]. split; [|unfold link_of; cbn; by rewrite lookup_insert_eq].
  split; [split; try done|split]; unfold big_of, core_of, link_of; cbn [mem put_slab set_mem].
  - intros x. destruct (decide (x = a)) as [->|]; [by rewrite lookup_insert_eq, Es|by rewrite lookup_insert_ne].
  - intros x. destruct (decide (x = a)) as [->|]; [by rewrite lookup_insert_eq, Es|by rewrite lookup_insert_ne].
  - intros x Hx. rewrite lookup_insert_ne; [done|]. intros ->. apply Hx. left.
Qed.
Lemma set_head_ok (h : heap) ci w v c : 0 <= ci -> caches h !! Z.to_nat ci = Some c -> exists h', set_head ci w v h = Ret h' /\ relinks h h' [] /\ (forall x, link_of h' x = link_of h x) /\ caches h' = <[Z.to_nat ci := with_head w v c]> (caches h).
Proof.
  intros Hci Ec. unfold set_head, arr_get. rewrite (proj2 (Z.ltb_ge _ _)), Ec by done. cbn [deref]. rewrite ret_bind. apply lookup_lt_Some in Ec as Hlt. rewrite arr_set_Ret by lia. rewrite ret_bind. by eexists.
Qed.
Lemma head_ok (h : heap) ci w c : 0 <= ci -> caches h !! Z.to_nat ci = Some c -> get_head ci w h = Ret (head_of w c).
Proof. intros Hci Ec. unfold get_head, arr_get. rewrite (proj2 (Z.ltb_ge _ _)), Ec by done. done. Qed.
Lemma with_head_same w c : with_head w (head_of w c) c = c.
Proof. by destruct w, c. Qed.

(** A list with its head. *)
Definition listed (h : heap) (l : list Z) : Prop := dseg (link_of h) 0 l 0 /\ NoDup l /\ 0 ∉ l.

Lemma heap_unlink_ok h ci w a c l1 l2 : 0 <= ci -> caches h !! Z.to_nat ci = Some c -> head_of w c = hd 0 (l1 ++ a :: l2) -> listed h (l1 ++ a :: l2) ->
  exists h', unlink ci w a h = Ret h' /\ relinks h h' (l1 ++ l2) /\ listed h' (l1 ++ l2) /\ caches h' = <[Z.to_nat ci := with_head w (hd 0 (l1 ++ l2)) c]> (caches h).
Proof.
  intros Hci Ec Eh (D & Hn & H0). apply NoDup_app in Hn as (N1 & N12 & N2). apply NoDup_cons in N2 as [Na N2]. apply dseg_app in D as [D1 D2]. cbn [dseg] in D2. destruct D2 as [La D2]. assert (Ha1 : a ∉ l1) by (intros Hx; apply (N12 a Hx); left).
  destruct (link_slab h a _ _ La) as (s & Es & En & Ep). unfold unlink. rewrite (slab_at_ok h a s Es), ret_bind, Ep. assert (Hno : NoDup (l1 ++ l2)) by (apply NoDup_app; split; [done|]; split; [intros x Hx Hx2; apply (N12 x Hx); by right|done]). assert (H0' : 0 ∉ l1 ++ l2) by (intros Hx; apply H0; apply elem_of_app in Hx as [?|?]; apply elem_of_app; [by left|right; by right]).
  (* the first write *)
  assert (S1 : exists h1, (if nz (List.last l1 0) then set_next (List.last l1 0) (next s) h else set_head ci w (next s) h) = Ret h1 /\ relinks h h1 l1 /\ dseg (link_of h1) 0 l1 (hd 0 l2) /\ caches h1 = <[Z.to_nat ci := with_head w (hd 0 (l1 ++ l2)) c]> (caches h)).
  { rewrite En. destruct l1 as [|b l0 _] using rev_ind.
    - cbn [List.last nz]. change (nz 0) with false. cbv iota. destruct (set_head_ok h ci w (hd 0 l2) c Hci Ec) as (h1 & E1 & R1 & L1 & C1). exists h1. split; [done|]. split; [done|]. done.
    - assert (Hb : b <> 0) by (intros ->; apply H0; rewrite <- app_assoc; apply elem_of_app; right; left). rewrite List.last_last. unfold nz. rewrite (proj2 (Z.eqb_neq b 0) Hb). cbn [negb]. pose proof D1 as D1'. apply dseg_app in D1' as [_ [Lb _]]. cbn in Lb. destruct (set_next_ok h b (hd 0 l2) _ _ Lb) as (h1 & E1 & R1 & L1 & C1). exists h1. split; [done|]. split; [apply (relinks_sub _ _ [b]); [|done]; intros x ->%list_elem_of_singleton; apply elem_of_app; right; left|].
      apply NoDup_app in N1 as (_ & N1b & _). assert (Hbl : b ∉ l0) by (intros Hx; apply (N1b b Hx); left). split.
      + destruct R1 as (_ & _ & L). apply (dseg_end (link_of h) _ l0 b 0 a); [done|intros x Hx; apply L; intros ->%list_elem_of_singleton; done| |exact D1]. intros n q E. rewrite L1. rewrite Lb in E. by injection E as <- <-.
      + rewrite C1. symmetry. apply list_insert_id. replace (hd 0 ((l0 ++ [b]) ++ l2)) with (head_of w c); [by rewrite with_head_same|]. rewrite Eh, !hd_app. destruct l0; done. }
  destruct S1 as (h1 & E1 & R1 & D1' & C1). rewrite E1, ret_bind. destruct R1 as (R1 & K1 & L1). assert (Lah : link_of h1 a = link_of h a) by (by apply L1). rewrite La in Lah. destruct (link_slab h1 a _ _ Lah) as (s1 & Es1 & En1 & Ep1). rewrite (slab_at_ok h1 a s1 Es1), ret_bind, En1, Ep1.
  assert (D2' : dseg (link_of h1) a l2 0) by (apply (dseg_ext (link_of h)); [|done]; intros x Hx; apply L1; intros Hx1; apply (N12 x Hx1); by right). destruct l2 as [|d l3].
  - cbn [hd]. change (nz 0) with false. cbv iota. exists h1. split; [done|]. split; [|split; [|done]]. { split; [done|]. split; [done|]. intros x Hx. apply L1. intros Hx1. apply Hx. apply elem_of_app. by left. } split; [|done]. rewrite app_nil_r. exact D1'.
  - cbn [hd] in *. assert (Hd : d <> 0) by (intros ->; apply H0'; apply elem_of_app; right; left). unfold nz. rewrite (proj2 (Z.eqb_neq d 0) Hd). cbn [negb]. cbn [dseg] in D2'. destruct D2' as [Ld D3]. destruct (set_prev_ok h1 d (List.last l1 0) _ _ Ld) as (h2 & E2 & (R2 & K2 & L2) & L2d & C2). exists h2. split; [done|]. apply NoDup_cons in N2 as [Nd N3]. assert (Hd1 : d ∉ l1) by (intros Hx; apply (N12 d Hx); right; left).
    split; [|split; [|by rewrite C2]].
    + split; [by apply (rest_trans _ h1)|]. split; [intros x; by rewrite K2, K1|]. intros x Hx. rewrite L2, L1; [done|intros Hx1; apply Hx; apply elem_of_app; by left|intros ->%list_elem_of_singleton; apply Hx; apply elem_of_app; right; left].
    + split; [|done]. apply dseg_app. cbn [hd]. split; [apply (dseg_ext (link_of h1)); [|done]; intros x Hx; apply L2; intros ->%list_elem_of_singleton; done|]. apply (dseg_start (link_of h1) _ d l3 a); [done|intros x Hx; apply L2; intros ->%list_elem_of_singleton; done| |by split]. intros n q E. rewrite Ld in E. injection E as <- <-. done.
Qed.

Lemma push_ok h ci w a c l : 0 <= ci -> caches h !! Z.to_nat ci = Some c -> head_of w c = hd 0 l -> listed h l -> is_Some (link_of h a) -> a ∉ l -> a <> 0 ->
  exists h', push ci w a h = Ret h' /\ relinks h h' (a :: l) /\ listed h' (a :: l) /\ caches h' = <[Z.to_nat ci := with_head w a c]> (caches h).
Proof.
  intros Hci Ec Eh (D & Hn & H0) [[n p] La] Ha Ha0. unfold push. rewrite (head_ok h ci w c Hci Ec), ret_bind, Eh. destruct (set_next_ok h a (hd 0 l) n p La) as (h1 & E1 & (R1 & K1 & L1) & La1 & C1). rewrite E1, ret_bind. destruct (set_prev_ok h1 a 0 _ _ La1) as (h2 & E2 & (R2 & K2 & L2) & La2 & C2). rewrite E2, ret_bind.
  assert (Hl : forall x, x ∈ l -> link_of h2 x = link_of h x) by (intros x Hx; rewrite L2, L1; [done|intros ->%list_elem_of_singleton; done|intros ->%list_elem_of_singleton; done]).
  assert (S3 : exists h3, (if nz (hd 0 l) then set_prev (hd 0 l) a h2 else Ret h2) = Ret h3 /\ relinks h2 h3 l /\ dseg (link_of h3) a l 0 /\ link_of h3 a = Some (hd 0 l, 0) /\ caches h3 = caches h2).
  { destruct l as [|d l']; [exists h2; done|]. cbn [hd] in *. assert (Hd : d <> 0) by (intros ->; apply H0; left). unfold nz. rewrite (proj2 (Z.eqb_neq d 0) Hd). cbn [negb]. apply NoDup_cons in Hn as [Hd' Hn]. cbn [dseg] in D. destruct D as [Ld D]. destruct (set_prev_ok h2 d a (hd 0 l') 0) as (h3 & E3 & (R3 & K3 & L3) & Ld3 & C3); [rewrite Hl by left; done|]. exists h3. split; [done|]. split; [apply (relinks_sub _ _ [d]); [intros x ->%list_elem_of_singleton; left|done]|].
    split; [|split; [|done]].
    - split; [done|]. apply (dseg_ext (link_of h)); [|done]. intros x Hx. rewrite L3 by (intros ->%list_elem_of_singleton; done). apply Hl. by right.
    - rewrite L3; [done|]. intros ->%list_elem_of_singleton. apply Ha. left. }
  destruct S3 as (h3 & E3 & (R3 & K3 & L3) & D3 & La3 & C3). rewrite E3, ret_bind. destruct (set_head_ok h3 ci w a c Hci) as (h4 & E4 & (R4 & K4 & _) & L4 & C4); [by rewrite C3, C2, C1|]. exists h4. split; [done|]. split; [|split; [|by rewrite C4, C3, C2, C1]].
  - split; [apply (rest_trans _ h3); [|done]; apply (rest_trans _ h2); [|done]; by apply (rest_trans _ h1)|]. split; [intros x; by rewrite K4, K3, K2, K1|]. intros x Hx. apply not_elem_of_cons in Hx as [Hx1 Hx2]. rewrite L4, L3, L2, L1; [done|by intros ->%list_elem_of_singleton|by intros ->%list_elem_of_singleton|done].
  - split; [|split; [by apply NoDup_cons|by apply not_elem_of_cons]]. split; [by rewrite L4|]. apply (dseg_ext (link_of h3)); [intros x _; apply L4|done].
Qed.

(** ** Slabs *)

Definition osize (ci : Z) : Z := 2 ^ (ci + 5).
Definition objs (ci : Z) : Z := Z.min 128 (4032 / osize ci).
Lemma class_cases (Q : Z -> Prop) : Q 0 -> Q 1 -> Q 2 -> Q 3 -> Q 4 -> Q 5 -> forall ci, 0 <= ci < 6 -> Q ci.
Proof. intros ? ? ? ? ? ? ci Hci. assert (ci = 0 \/ ci = 1 \/ ci = 2 \/ ci = 3 \/ ci = 4 \/ ci = 5) as [->|[->|[->|[->|[->| ->]]]]] by lia; done. Qed.
Lemma class_facts ci : 0 <= ci < 6 -> 32 <= osize ci <= 1024 /\ 3 <= objs ci <= 126 /\ 64 + objs ci * osize ci <= 4096.
Proof. revert ci. apply class_cases; vm_compute; intuition discriminate. Qed.

(** The slab [c] of class [ci] with between [lo] and [hi] free slots. *)
Record slab_ok (c : slab) (ci lo hi : Z) : Prop := mk_slab_ok {
  sl_magic : magic c = SLAB_MAGIC; sl_total : total_count c = objs ci; sl_cache : cache c = ci; sl_bm : good_bm (bitmap c);
  sl_count : free_count c = objs ci - used (bitmap c) (objs ci); sl_range : lo <= free_count c <= hi }.

(** All slabs are right, apart from [skip]; [vp] and [vf] are the lists. *)
Record slabs (skip : option Z) (h : heap) (vp vf : Z -> list Z) : Prop := mk_slabs {
  so_length : length (caches h) = 6%nat;
  so_cache : forall ci, 0 <= ci < 6 -> caches h !! Z.to_nat ci = Some (mk_cache (osize ci) (hd 0 (vp ci)) (hd 0 (vf ci)) 0);
  so_partial : forall ci, 0 <= ci < 6 -> listed h (vp ci);
  so_full : forall ci, 0 <= ci < 6 -> listed h (vf ci);
  so_pc : forall ci a, 0 <= ci < 6 -> a ∈ vp ci -> skip <> Some a -> exists c, core_of h a = Some c /\ slab_ok c ci 1 (objs ci - 1);
  so_fc : forall ci a, 0 <= ci < 6 -> a ∈ vf ci -> skip <> Some a -> exists c, core_of h a = Some c /\ slab_ok c ci 0 0;
  so_all : forall a c, core_of h a = Some c -> skip <> Some a -> exists ci, 0 <= ci < 6 /\ (a ∈ vp ci \/ a ∈ vf ci) }.
Lemma slabs_skip skip h vp vf : slabs None h vp vf -> slabs skip h vp vf.
Proof. intros [S1 S2 S3 S4 S5 S6 S7]. split; try done; [intros ci a Hci Ha _; by apply S5|intros ci a Hci Ha _; by apply S6|intros a c Ec _; by apply (S7 a c)]. Qed.

Definition upd {A} (f : Z -> A) (i : Z) (x : A) : Z -> A := fun j => if j =? i then x else f j.
Lemma heap_upd_eq {A} (f : Z -> A) i x : upd f i x i = x.
Proof. unfold upd. by rewrite Z.eqb_refl. Qed.
Lemma heap_upd_ne {A} (f : Z -> A) i j x : j <> i -> upd f i x j = f j.
Proof. intros H. unfold upd. by rewrite (proj2 (Z.eqb_neq j i) H). Qed.

(** A slab is in the lists of its class only, and only in the one its count says. *)
Lemma slabs_class skip h vp vf ci a : slabs skip h vp vf -> 0 <= ci < 6 -> a ∈ vp ci \/ a ∈ vf ci -> skip <> Some a -> exists c, core_of h a = Some c /\ slab_ok c ci 0 (objs ci - 1) /\ (a ∈ vp ci <-> free_count c <> 0) /\ (a ∈ vf ci <-> free_count c = 0).
Proof.
  intros S Hci Hin Hs. pose proof (class_facts ci Hci) as (_ & Ho & _). destruct Hin as [Hin|Hin].
  - destruct (so_pc _ _ _ _ S ci a Hci Hin Hs) as (c & Ec & [H1 H2 H3 H4 H5 H6]). exists c. split; [done|]. split; [split; try done; lia|]. split; [split; [lia|done]|]. split; [|lia]. intros Hf. destruct (so_fc _ _ _ _ S ci a Hci Hf Hs) as (c' & Ec' & [_ _ _ _ _ H']). rewrite Ec in Ec'. injection Ec' as <-. lia.
  - destruct (so_fc _ _ _ _ S ci a Hci Hin Hs) as (c & Ec & [H1 H2 H3 H4 H5 H6]). exists c. split; [done|]. split; [split; try done; lia|]. split; [|split; [lia|done]]. split; [|lia]. intros Hf. destruct (so_pc _ _ _ _ S ci a Hci Hf Hs) as (c' & Ec' & [_ _ _ _ _ H']). rewrite Ec in Ec'. injection Ec' as <-. lia.
Qed.
Lemma slabs_one_class skip h vp vf ci ci' a : slabs skip h vp vf -> 0 <= ci < 6 -> 0 <= ci' < 6 -> a ∈ vp ci \/ a ∈ vf ci -> a ∈ vp ci' \/ a ∈ vf ci' -> skip <> Some a -> ci = ci'.
Proof.
  intros S Hci Hci' H1 H2 Hs. destruct (slabs_class skip h vp vf ci a S Hci H1 Hs) as (c & Ec & K & _). destruct (slabs_class skip h vp vf ci' a S Hci' H2 Hs) as (c' & Ec' & K' & _). rewrite Ec in Ec'. injection Ec' as <-. rewrite <- (sl_cache _ _ _ _ K). apply (sl_cache _ _ _ _ K').
Qed.

(** The lists of one class and the slab [a] change. *)
Lemma slabs_change (sk : option Z) h h' vp vf ci lp lf a : slabs (Some a) h vp vf -> 0 <= ci < 6 ->
  caches h' = <[Z.to_nat ci := mk_cache (osize ci) (hd 0 lp) (hd 0 lf) 0]> (caches h) -> listed h' lp -> listed h' lf ->
  (forall b, b <> a -> b ∉ vp ci -> b ∉ vf ci -> link_of h' b = link_of h b) -> (forall b, b <> a -> core_of h' b = core_of h b) ->
  (forall b, b <> a -> (b ∈ lp <-> b ∈ vp ci) /\ (b ∈ lf <-> b ∈ vf ci)) -> (forall ci', 0 <= ci' < 6 -> a ∈ vp ci' \/ a ∈ vf ci' -> ci' = ci) ->
  (sk <> Some a -> a ∈ lp -> exists c, core_of h' a = Some c /\ slab_ok c ci 1 (objs ci - 1)) -> (sk <> Some a -> a ∈ lf -> exists c, core_of h' a = Some c /\ slab_ok c ci 0 0) -> (sk <> Some a -> is_Some (core_of h' a) -> a ∈ lp \/ a ∈ lf) ->
  slabs sk h' (upd vp ci lp) (upd vf ci lf).
Proof.
  intros S Hci Ec Lp Lf Hk Hc Hin Hcl Hp Hf Hall. pose proof (so_length _ _ _ _ S) as Hlen.
  assert (Hoth : forall ci' b, 0 <= ci' < 6 -> ci' <> ci -> b ∈ vp ci' \/ b ∈ vf ci' -> b <> a /\ link_of h' b = link_of h b).
  { intros ci' b Hci' Hne Hb. assert (Hba : b <> a) by (intros ->; apply Hne; by apply Hcl). split; [done|]. assert (Hs : Some a <> Some b) by congruence. apply Hk; [done| |]; intros Hx; apply Hne; symmetry; apply (slabs_one_class (Some a) h vp vf ci ci' b S Hci Hci'); auto. }
  split.
  - by rewrite Ec, length_insert.
  - intros ci' Hci'. rewrite Ec. destruct (decide (ci' = ci)) as [->|Hne]; [rewrite !heap_upd_eq, list_lookup_insert_eq by lia; done|]. rewrite !heap_upd_ne, list_lookup_insert_ne by (done || lia). by apply (so_cache _ _ _ _ S).
  - intros ci' Hci'. destruct (decide (ci' = ci)) as [->|Hne]; [by rewrite heap_upd_eq|]. rewrite heap_upd_ne by done. destruct (so_partial _ _ _ _ S ci' Hci') as [D N]. split; [|done]. apply (dseg_ext (link_of h)); [|done]. intros b Hb. apply (Hoth ci'); auto.
  - intros ci' Hci'. destruct (decide (ci' = ci)) as [->|Hne]; [by rewrite heap_upd_eq|]. rewrite heap_upd_ne by done. destruct (so_full _ _ _ _ S ci' Hci') as [D N]. split; [|done]. apply (dseg_ext (link_of h)); [|done]. intros b Hb. apply (Hoth ci'); auto.
  - intros ci' b Hci' Hb Hsk. destruct (decide (b = a)) as [->|Hba].
    + destruct (decide (ci' = ci)) as [->|Hne]; [rewrite heap_upd_eq in Hb; by apply Hp|]. rewrite heap_upd_ne in Hb by done. exfalso. apply Hne. apply Hcl; auto.
    + rewrite Hc by done. apply (so_pc _ _ _ _ S); [done| |congruence]. destruct (decide (ci' = ci)) as [->|Hne]; [rewrite heap_upd_eq in Hb; by apply Hin|by rewrite heap_upd_ne in Hb].
  - intros ci' b Hci' Hb Hsk. destruct (decide (b = a)) as [->|Hba].
    + destruct (decide (ci' = ci)) as [->|Hne]; [rewrite heap_upd_eq in Hb; by apply Hf|]. rewrite heap_upd_ne in Hb by done. exfalso. apply Hne. apply Hcl; auto.
    + rewrite Hc by done. apply (so_fc _ _ _ _ S); [done| |congruence]. destruct (decide (ci' = ci)) as [->|Hne]; [rewrite heap_upd_eq in Hb; by apply Hin|by rewrite heap_upd_ne in Hb].
  - intros b c Eb Hsk. destruct (decide (b = a)) as [->|Hba]; [exists ci; split; [done|]; rewrite !heap_upd_eq; apply Hall; [done|by exists c]|]. rewrite Hc in Eb by done. destruct (so_all _ _ _ _ S b c Eb) as (ci' & Hci' & Hb); [congruence|]. exists ci'. split; [done|]. destruct (decide (ci' = ci)) as [->|Hne]; [rewrite !heap_upd_eq; destruct (Hin b Hba) as [H1 H2]; by rewrite H1, H2|by rewrite !heap_upd_ne].
Qed.
Lemma slabs_rebuild h h' vp vf ci lp lf a : slabs (Some a) h vp vf -> 0 <= ci < 6 ->
  caches h' = <[Z.to_nat ci := mk_cache (osize ci) (hd 0 lp) (hd 0 lf) 0]> (caches h) -> listed h' lp -> listed h' lf ->
  (forall b, b <> a -> b ∉ vp ci -> b ∉ vf ci -> link_of h' b = link_of h b) -> (forall b, b <> a -> core_of h' b = core_of h b) ->
  (forall b, b <> a -> (b ∈ lp <-> b ∈ vp ci) /\ (b ∈ lf <-> b ∈ vf ci)) -> (forall ci', 0 <= ci' < 6 -> a ∈ vp ci' \/ a ∈ vf ci' -> ci' = ci) ->
  (a ∈ lp -> exists c, core_of h' a = Some c /\ slab_ok c ci 1 (objs ci - 1)) -> (a ∈ lf -> exists c, core_of h' a = Some c /\ slab_ok c ci 0 0) -> (is_Some (core_of h' a) -> a ∈ lp \/ a ∈ lf) ->
  slabs None h' (upd vp ci lp) (upd vf ci lf).
Proof. intros S Hci H1 H2 H3 H4 H5 H6 H7 H8 H9 H10. by apply (slabs_change None h h' vp vf ci lp lf a). Qed.

(** ** Taking and giving back a slot *)

Lemma core_slab h a c : core_of h a = Some c -> exists s, mem h !! a = Some (Slab s) /\ strip s = c.
Proof. unfold core_of. destruct (mem h !! a) as [[s|b]|]; [|done|done]. intros [= <-]. by exists s. Qed.
Lemma put_slab_ok h a s s' : mem h !! a = Some (Slab s) -> next s' = next s -> prev s' = prev s ->
  rest h (put_slab a s' h) /\ (forall x, link_of (put_slab a s' h) x = link_of h x) /\ core_of (put_slab a s' h) a = Some (strip s') /\ (forall x, x <> a -> core_of (put_slab a s' h) x = core_of h x) /\ caches (put_slab a s' h) = caches h.
Proof.
  intros Es En Ep. split; [split; try done; intros x; unfold big_of; cbn; destruct (decide (x = a)) as [->|]; [by rewrite lookup_insert_eq, Es|by rewrite lookup_insert_ne]|]. unfold link_of, core_of. cbn [mem put_slab set_mem]. split; [|split; [by rewrite lookup_insert_eq|split; [|done]]].
  - intros x. destruct (decide (x = a)) as [->|]; [rewrite lookup_insert_eq, Es; congruence|by rewrite lookup_insert_ne].
  - intros x Hx. by rewrite lookup_insert_ne.
Qed.
Lemma listed_ext h h' l : (forall x, x ∈ l -> link_of h' x = link_of h x) -> listed h l -> listed h' l.
Proof. intros H [D N]. split; [|done]. by apply (dseg_ext (link_of h)). Qed.
Lemma listed_link h l a : listed h l -> a ∈ l -> is_Some (link_of h a) /\ a <> 0.
Proof. intros (D & _ & H0) Ha. apply list_elem_of_split in Ha as (l1 & l2 & ->). apply dseg_app in D as [_ [E _]]. split; [by rewrite E|]. intros ->. apply H0. apply elem_of_app. right. left. Qed.

(** The links of [a] move from one list of the class to the other, or away. *)
Lemma move_slab h ci w w' a cc l1 l2 l : 0 <= ci -> caches h !! Z.to_nat ci = Some cc -> w <> w' -> head_of w cc = hd 0 (l1 ++ a :: l2) -> head_of w' cc = hd 0 l -> listed h (l1 ++ a :: l2) -> listed h l -> (forall x, x ∈ l1 ++ a :: l2 -> x ∉ l) ->
  exists h', (h ← unlink ci w a h; push ci w' a h) = Ret h' /\ rest h h' /\ (forall x, core_of h' x = core_of h x) /\ listed h' (l1 ++ l2) /\ listed h' (a :: l) /\ (forall x, x ∉ l1 ++ l2 -> x ∉ a :: l -> link_of h' x = link_of h x) /\ caches h' = <[Z.to_nat ci := with_head w' a (with_head w (hd 0 (l1 ++ l2)) cc)]> (caches h).
Proof.
  intros Hci Ec Hww Eh Eh' L L' Hd. assert (Hlt : (Z.to_nat ci < length (caches h))%nat) by (by apply lookup_lt_Some in Ec). destruct (heap_unlink_ok h ci w a cc l1 l2 Hci Ec Eh L) as (h1 & E1 & (R1 & K1 & L1) & D1 & C1). rewrite E1, ret_bind. assert (Hal : a ∉ l) by (apply Hd; apply elem_of_app; right; left). pose proof L as (_ & Hn & _). assert (Ha12 : a ∉ l1 ++ l2). { apply NoDup_app in Hn as (N1 & N12 & N2). apply NoDup_cons in N2 as [Na _]. intros [Hx|Hx]%elem_of_app; [apply (N12 a Hx); left|done]. }
  assert (Hsub : forall x, x ∈ l1 ++ l2 -> x ∉ l) by (intros x Hx; apply Hd; apply elem_of_app in Hx as [?|?]; apply elem_of_app; [by left|right; by right]). destruct (listed_link h _ a L) as [La Ha0]; [apply elem_of_app; right; left|].
  destruct (push_ok h1 ci w' a (with_head w (hd 0 (l1 ++ l2)) cc) l Hci) as (h2 & E2 & (R2 & K2 & L2) & D2 & C2); [by rewrite C1, list_lookup_insert_eq|destruct w, w'; done|apply (listed_ext h); [|done]; intros x Hx; apply L1; intros Hx'; by apply (Hsub x)|by rewrite L1|done|done|].
  exists h2. split; [done|]. split; [by apply (rest_trans _ h1)|]. split; [intros x; by rewrite K2, K1|]. split; [apply (listed_ext h1); [|done]; intros x Hx; apply L2; apply not_elem_of_cons; split; [by intros ->|by apply Hsub]|]. split; [done|]. split; [|by rewrite C2, C1, list_insert_insert_eq]. intros x Hx1 Hx2. rewrite L2, L1 by done. done.
Qed.

Lemma take_slot_ok h vp vf ci a idx c : slabs (Some a) h vp vf -> 0 <= ci < 6 -> a ∈ vp ci -> a ∉ vf ci -> (forall ci', 0 <= ci' < 6 -> a ∈ vp ci' \/ a ∈ vf ci' -> ci' = ci) -> core_of h a = Some c -> slab_ok c ci 1 (objs ci) -> 0 <= idx < objs ci -> bm_test (bitmap c) idx = false ->
  exists h' vp' vf' c', take_slot ci a idx h = Ret (a + 64 + idx * osize ci, h') /\ rest h h' /\ slabs None h' vp' vf' /\ (forall b, b <> a -> core_of h' b = core_of h b) /\ core_of h' a = Some c' /\ cache c' = ci /\ (forall j, 0 <= j < 128 -> bm_test (bitmap c') j = if j =? idx then true else bm_test (bitmap c) j).
Proof.
  intros S Hci Hap Haf Hcl Ec K Hidx Hfree. pose proof (class_facts ci Hci) as (Hos & Ho & _). destruct (core_slab h a c Ec) as (s & Es & <-). destruct K as [K1 K2 K3 K4 K5 K6]. cbn [magic total_count cache bitmap free_count strip] in *. destruct (set_ok (bitmap s) idx K4 ltac:(lia)) as (b' & Eb & Gb & Hb). pose proof (used_change _ b' (objs ci) idx true Hidx ltac:(lia) Hb) as Hu. rewrite Hfree in Hu. cbn [Z.b2z] in Hu.
  unfold take_slot. rewrite (slab_at_ok h a s Es), ret_bind, Eb, ret_bind. rewrite (proj2 (Z.gtb_lt _ _)) by lia. set (s' := mk_slab _ _ _ _ _ _ _). destruct (put_slab_ok h a s s' Es) as (R1 & L1 & K1a & K1b & C1); [done|done|]. set (h1 := put_slab a s' h) in *. cbv zeta.
  assert (Lp : listed h1 (vp ci)) by (apply (listed_ext h); [intros x _; apply L1|by apply (so_partial _ _ _ _ S)]). assert (Lf : listed h1 (vf ci)) by (apply (listed_ext h); [intros x _; apply L1|by apply (so_full _ _ _ _ S)]). pose proof (so_cache _ _ _ _ S ci Hci) as Ecc. rewrite <- C1 in Ecc.
  assert (Hk' : slab_ok (strip s') ci (objs ci - used b' (objs ci)) (objs ci - used b' (objs ci))) by (split; cbn; try done; lia).
  destruct (free_count s - 1 =? 0) eqn:Ef; reify_bools.
  - apply list_elem_of_split in Hap as Hsp. destruct Hsp as (l1 & l2 & Evp). assert (Hdisj : forall x, x ∈ l1 ++ a :: l2 -> x ∉ vf ci). { intros x Hx Hxf. destruct (decide (x = a)) as [->|Hne]; [done|]. rewrite <- Evp in Hx. assert (Some a <> Some x) by congruence. destruct (slabs_class (Some a) h vp vf ci x S Hci (or_introl Hx)) as (c & _ & _ & P1 & P2); [done|]. apply P1 in Hx. apply P2 in Hxf. done. }
    rewrite Evp in Lp, Ecc. destruct (move_slab h1 ci Partial Full a _ l1 l2 (vf ci) ltac:(lia) Ecc) as (h2 & E2 & R2 & K2' & D2 & D2' & L2 & C2); [done|done|done|done|done|done|]. rewrite E2, ret_bind. cbn [with_head obj_size partial full free] in C2. unfold arr_get. rewrite (proj2 (Z.ltb_ge _ _)), C2, list_lookup_insert_eq by (try lia; rewrite C1, (so_length _ _ _ _ S); lia). cbn [deref]. rewrite ret_bind. cbn [obj_size].
    assert (Ha12 : a ∉ l1 ++ l2). { destruct Lp as (_ & Hn & _). apply NoDup_app in Hn as (N1 & N12 & N2). apply NoDup_cons in N2 as [Na _]. intros [Hx|Hx]%elem_of_app; [apply (N12 a Hx); left|done]. }
    exists h2, (upd vp ci (l1 ++ l2)), (upd vf ci (a :: vf ci)), (strip s'). split; [done|]. split; [by apply (rest_trans _ h1)|]. split; [|split; [intros x Hx; rewrite K2'; by apply K1b|split; [by rewrite K2'|done]]].
    apply (slabs_rebuild h h2 vp vf ci (l1 ++ l2) (a :: vf ci) a S Hci); [by rewrite C2, C1|done|done| | | |done| | |].
    + intros x Hxa Hxp Hxf. rewrite <- L1. apply L2; [|by apply not_elem_of_cons]. intros Hx. apply Hxp. rewrite Evp. apply elem_of_app in Hx as [?|?]; apply elem_of_app; [by left|right; by right].
    + intros x Hx. rewrite K2'. by apply K1b.
    + intros x Hx. rewrite Evp. rewrite elem_of_cons, !elem_of_app, elem_of_cons. tauto.
    + done.
    + intros _. exists (strip s'). rewrite K2'. split; [done|]. destruct Hk' as [J1 J2 J3 J4 J5 J6]. split; try done. lia.
    + intros _. right. left.
  - rewrite ret_bind. unfold arr_get. rewrite (proj2 (Z.ltb_ge _ _)), Ecc by lia. cbn [deref]. rewrite ret_bind. cbn [obj_size]. exists h1, (upd vp ci (vp ci)), (upd vf ci (vf ci)), (strip s'). split; [done|]. split; [done|]. split; [|split; [done|split; [done|done]]].
    apply (slabs_rebuild h h1 vp vf ci (vp ci) (vf ci) a S Hci); try done.
    + rewrite C1. symmetry. apply list_insert_id. by rewrite <- C1.
    + intros _. exists (strip s'). split; [done|]. destruct Hk' as [J1 J2 J3 J4 J5 J6]. split; try done. lia.
    + intros _. by left.
Qed.

(** The page of an address. *)
Lemma page_of_offset a off : a mod 4096 = 0 -> 0 <= a -> a + 4096 <= 2 ^ 64 -> 0 <= off < 4096 -> page_of (a + off) = a.
Proof.
  intros Ham Ha0 Hat Hoff. unfold page_of. change (u64 (Z.lnot 4095)) with (Z.shiftl (Z.ones 52) 12). set (q := a + off). apply Z.bits_inj'. intros k Hk. rewrite Z.land_spec. pose proof (Z.div_mod a 4096 ltac:(lia)) as Ed. assert (Eq : q = a / 4096 * 2 ^ 12 + off) by (subst q; change (2 ^ 12) with 4096; lia). assert (Ea : a = Z.shiftl (a / 4096) 12) by (rewrite Z.shiftl_mul_pow2 by lia; change (2 ^ 12) with 4096; lia). destruct (decide (k < 12)).
  - rewrite (Z.shiftl_spec_low (Z.ones 52)) by lia. rewrite andb_false_r. rewrite Ea. by rewrite Z.shiftl_spec_low by lia.
  - rewrite (Z.shiftl_spec (Z.ones 52)) by lia. assert (Eqk : Z.testbit q k = Z.testbit (a / 4096) (k - 12)). { replace k with ((k - 12) + 12) at 1 by lia. rewrite <- Z.shiftr_spec by lia. f_equal. rewrite Z.shiftr_div_pow2 by lia. rewrite Eq, Z.div_add_l by lia. rewrite (Z.div_small off) by (change (2 ^ 12) with 4096; lia). lia. }
    rewrite Eqk. rewrite Ea at 2. rewrite (Z.shiftl_spec (a / 4096)) by lia. destruct (decide (k - 12 < 52)); [rewrite Z.ones_spec_low by lia; apply andb_true_r|]. rewrite Z.ones_spec_high by lia. rewrite andb_false_r. symmetry. apply Z.bits_above_log2; [apply Z.div_pos; lia|]. assert (a / 4096 < 2 ^ 52) by (apply Z.div_lt_upper_bound; lia). destruct (decide (a / 4096 = 0)) as [->|]; [cbn; lia|]. apply Z.lt_le_trans with 52; [apply Z.log2_lt_pow2; [pose proof (Z.div_pos a 4096); lia|lia]|lia].
Qed.

(** ** The page allocator *)

(** The block of [n] pages at [a] is clear of the blocks [B]. *)
Definition clear_of (B : gmap Z Z) (a n : Z) : Prop := forall b k, B !! b = Some k -> b + PAGE_SIZE * k <= a \/ a + PAGE_SIZE * n <= b.

Section Source.
Variable hhdm : Z.
Variable pmm_alloc_page : P -> outcome (Z * P).
Variable pmm_alloc_pages : Z -> P -> outcome (Z * P).
Variable pmm_free_page : Z -> P -> outcome P.
Variable pmm_free_pages : Z -> Z -> P -> outcome P.
Variable managed : Z -> bool.
(** The allocator state, with the heap holding the blocks [B] (address and pages). *)
Variable owns : P -> gmap Z Z -> Prop.

(** What the heap relies on. *)
Class PageSource : Prop := {
  src_hhdm : 0 < hhdm /\ hhdm mod PAGE_SIZE = 0;
  src_page : forall p B, owns p B -> exists a p', pmm_alloc_page p = Ret (a, p') /\ (a = 0 /\ owns p' B \/ a <> 0 /\ clear_of B a 1 /\ owns p' (<[a := 1]> B));
  src_pages : forall p B n, owns p B -> 0 <= n < 2 ^ 52 -> exists a p', pmm_alloc_pages n p = Ret (a, p') /\ (a = 0 /\ owns p' B \/ a <> 0 /\ clear_of B a n /\ owns p' (<[a := n]> B));
  src_free_page : forall p B a, owns p B -> B !! a = Some 1 -> exists p', pmm_free_page a p = Ret p' /\ owns p' (delete a B);
  src_free_pages : forall p B a n, owns p B -> B !! a = Some n -> exists p', pmm_free_pages a n p = Ret p' /\ owns p' (delete a B);
  src_block : forall p B a n, owns p B -> B !! a = Some n -> 0 < n /\ 0 < a /\ a mod PAGE_SIZE = 0 /\ a + hhdm + PAGE_SIZE * n <= 2 ^ 64 /\ (forall x, a <= x < a + PAGE_SIZE * n -> managed (x + hhdm) = true);
  src_disjoint : forall p B a n b k, owns p B -> B !! a = Some n -> B !! b = Some k -> a <> b -> b + PAGE_SIZE * k <= a \/ a + PAGE_SIZE * n <= b }.
Context `{Source : PageSource}.

(** The pages of the heap are the blocks [B]. *)
Record tied (h : heap) (B : gmap Z Z) : Prop := mk_tied {
  ti_owns : owns (pmm h) B;
  ti_slab : forall a c, core_of h a = Some c -> B !! (a - hhdm) = Some 1;
  ti_big : forall a b, big_of h a = Some b -> B !! (a - hhdm) = Some (pages b);
  ti_all : forall x n, B !! x = Some n -> is_Some (mem h !! (x + hhdm)) }.
Definition page_at (B : gmap Z Z) (x : Z) : Prop := exists b n, B !! b = Some n /\ b + hhdm <= x < b + hhdm + PAGE_SIZE * n.

Record kept (h h' : heap) : Prop := mk_kept { ke_head : big_head h' = big_head h; ke_mag : magazines h' = magazines h; ke_dbg : dbg_on h' = dbg_on h; ke_init : initialized h' = initialized h; ke_big : forall x, big_of h' x = big_of h x }.
Lemma rest_kept h h' : rest h h' -> kept h h'.
Proof. by intros []. Qed.
Lemma heap_kept_refl h : kept h h.
Proof. by split. Qed.
Lemma heap_kept_trans h1 h2 h3 : kept h1 h2 -> kept h2 h3 -> kept h1 h3.
Proof. intros [] []. split; congruence. Qed.

Lemma slab_page h B a c : tied h B -> core_of h a = Some c -> 0 < a /\ a mod 4096 = 0 /\ a + 4096 <= 2 ^ 64.
Proof.
  intros T Ec. destruct (src_block (pmm h) B (a - hhdm) 1 (ti_owns _ _ T) (ti_slab _ _ T a c Ec)) as (_ & H0 & Hm & Hb & _). destruct src_hhdm as [Hh Hhm]. unfold PAGE_SIZE in *. split; [lia|]. split; [|lia]. replace a with ((a - hhdm) + hhdm) by lia. rewrite Z.add_mod, Hm, Hhm by lia. done.
Qed.

(** ** Slots *)

Definition slot_used (h : heap) (ci q : Z) : Prop := exists a i c, core_of h a = Some c /\ cache c = ci /\ 0 <= i < objs ci /\ bm_test (bitmap c) i = true /\ q = a + 64 + i * osize ci.
Lemma slot_unique ci ci' a a' i i' : 0 <= ci < 6 -> 0 <= ci' < 6 -> a mod 4096 = 0 -> a' mod 4096 = 0 -> 0 <= i < objs ci -> 0 <= i' < objs ci' -> a + 64 + i * osize ci = a' + 64 + i' * osize ci' -> a = a' /\ (ci = ci' -> i = i').
Proof.
  intros Hci Hci' Ha Ha' Hi Hi' E. pose proof (class_facts ci Hci) as (H1 & H2 & H3). pose proof (class_facts ci' Hci') as (H1' & H2' & H3'). assert (Hb : 0 <= i * osize ci < 4032) by nia. assert (Hb' : 0 <= i' * osize ci' < 4032) by nia. pose proof (Z.div_mod a 4096 ltac:(lia)). pose proof (Z.div_mod a' 4096 ltac:(lia)). assert (Ea : a = a') by nia. split; [done|]. intros <-. subst a'. nia.
Qed.
Lemma slabs_cache h vp vf a c : slabs None h vp vf -> core_of h a = Some c -> 0 <= cache c < 6 /\ (a ∈ vp (cache c) \/ a ∈ vf (cache c)) /\ slab_ok c (cache c) 0 (objs (cache c) - 1).
Proof.
  intros S Ec. destruct (so_all _ _ _ _ S a c Ec) as (ci & Hci & Hin); [done|]. destruct (slabs_class None h vp vf ci a S Hci Hin) as (c' & Ec' & K & _); [done|]. rewrite Ec in Ec'. injection Ec' as <-. pose proof (sl_cache _ _ _ _ K) as ->. done.
Qed.
Lemma slot_bounds h vp vf B ci q : slabs None h vp vf -> tied h B -> slot_used h ci q -> 0 <= ci < 6 /\ exists a c, core_of h a = Some c /\ cache c = ci /\ page_of q = a /\ a + 64 <= q /\ q + osize ci <= a + 4096 /\ q mod 32 = 0.
Proof.
  intros S T (a & i & c & Ec & Hc & Hi & Hb & ->). destruct (slabs_cache h vp vf a c S Ec) as (Hci & _ & _). rewrite Hc in Hci. split; [done|]. exists a, c. destruct (slab_page h B a c T Ec) as (Ha0 & Ham & Hat). pose proof (class_facts ci Hci) as (H1 & H2 & H3). split; [done|]. split; [done|]. assert (Hib : 0 <= i * osize ci /\ 64 + i * osize ci + osize ci <= 4096) by nia. split; [|split; [lia|split; [lia|]]].
  - replace (a + 64 + i * osize ci) with (a + (64 + i * osize ci)) by lia. apply page_of_offset; lia.
  - assert (Hos : (32 | osize ci)) by (unfold osize; replace (ci + 5) with (5 + ci) by lia; rewrite Z.pow_add_r by lia; exists (2 ^ ci); lia). apply Z.mod_divide; [lia|]. apply Z.divide_add_r; [apply Z.divide_add_r; [apply Z.divide_trans with 4096; [by exists 128|by apply Z.mod_divide]|by exists 2]|by apply Z.divide_mul_r].
Qed.
End Source.
End Safe.
End HeapSafe.
