(* ===== verification/HeapSlab.v ===== *)
(** HeapSlab: allocation from and release to the slabs of the heap. *)

From S2P Require Import Prelude Heap HeapSafe.
From stdpp Require Import list_relations.
#[local] Open Scope Z_scope.

Module HeapSlab.
Import Heap HeapSafe.

Section Slab.
Context {P : Type} (hhdm : Z) (pmm_alloc_page : P -> outcome (Z * P)) (pmm_alloc_pages : Z -> P -> outcome (Z * P)) (pmm_free_page : Z -> P -> outcome P) (pmm_free_pages : Z -> Z -> P -> outcome P) (managed : Z -> bool) (owns : P -> gmap Z Z -> Prop).
Context {Source : PageSource hhdm pmm_alloc_page pmm_alloc_pages pmm_free_page pmm_free_pages managed owns}.
Notation heap := (heap P).
Notation tied := (tied hhdm owns).
Notation slab_page := (slab_page hhdm pmm_alloc_page pmm_alloc_pages pmm_free_page pmm_free_pages managed owns).
Notation src_page := (src_page hhdm pmm_alloc_page pmm_alloc_pages pmm_free_page pmm_free_pages managed owns).
Notation src_free_page := (src_free_page hhdm pmm_alloc_page pmm_alloc_pages pmm_free_page pmm_free_pages managed owns).
Notation src_block := (src_block hhdm pmm_alloc_page pmm_alloc_pages pmm_free_page pmm_free_pages managed owns).
Notation src_hhdm := (src_hhdm hhdm pmm_alloc_page pmm_alloc_pages pmm_free_page pmm_free_pages managed owns).

(** ** Release *)

(** An object pointer passes the checks of its slab. *)
Lemma offset_ok ci i : 0 <= ci < 6 -> 0 <= i < objs ci -> nz (Z.land (i * osize ci) (u64 (osize ci - 1))) = false /\ u32 (i * osize ci / osize ci) = i.
Proof.
  intros Hci Hi. pose proof (class_facts ci Hci) as (H1 & H2 & _). split; [|rewrite Z.div_mul by lia; apply u32_id; lia]. rewrite u64_id by lia. unfold osize at 2. rewrite land_ones_small by lia. fold (osize ci). by rewrite Z.mod_mul by lia.
Qed.
Lemma tied_rest h h' B : rest h h' -> (forall x, core_of h' x = core_of h x) -> tied h B -> tied h' B.
Proof.
  intros R K [T1 T2 T3 T4]. split; [by rewrite (re_pmm _ _ R)|intros a c; rewrite K; apply T2|intros a b; rewrite (re_big _ _ R); apply T3|]. intros x n E. destruct (T4 x n E) as [hd Eh]. pose proof (K (x + hhdm)) as K1. pose proof (re_big _ _ R (x + hhdm)) as K2. unfold core_of, big_of in K1, K2. rewrite Eh in K1, K2. destruct (mem h' !! (x + hhdm)); [by eexists|]. by destruct hd.
Qed.
Lemma tied_core h h' B a : rest h h' -> (forall x, x <> a -> core_of h' x = core_of h x) -> is_Some (core_of h a) -> is_Some (core_of h' a) -> tied h B -> tied h' B.
Proof.
  intros R K [c Ec] [c' Ec'] [T1 T2 T3 T4]. split; [by rewrite (re_pmm _ _ R)| |intros x b; rewrite (re_big _ _ R); apply T3|].
  - intros x d Ed. destruct (decide (x = a)) as [->|Hne]; [by apply (T2 a c)|]. rewrite K in Ed by done. by apply (T2 x d).
  - intros x n E. destruct (decide (x + hhdm = a)) as [Ex|Hne]; [rewrite Ex; unfold core_of in Ec'; destruct (mem h' !! a); [by eexists|done]|]. destruct (T4 x n E) as [hd Eh]. pose proof (K (x + hhdm) Hne) as K1. pose proof (re_big _ _ R (x + hhdm)) as K2. unfold core_of, big_of in K1, K2. rewrite Eh in K1, K2. destruct (mem h' !! (x + hhdm)); [by eexists|]. by destruct hd.
Qed.

(** The last slot of a slab is free: its page goes back. *)
Lemma drop_page_ok h vp vf B ci a l1 l2 : slabs (Some a) h vp vf -> 0 <= ci < 6 -> (forall ci', 0 <= ci' < 6 -> a ∈ vp ci' \/ a ∈ vf ci' -> ci' = ci) -> vp ci = l1 ++ a :: l2 -> a ∉ vf ci -> tied h B -> is_Some (core_of h a) ->
  exists h' vp' vf' B', (h ← unlink ci Partial a h; free_page_at hhdm pmm_free_page a h) = Ret h' /\ kept h h' /\ data h' = data h /\ slabs None h' vp' vf' /\ tied h' B' /\ (forall b, b <> a -> core_of h' b = core_of h b) /\ core_of h' a = None.
Proof.
  intros S Hci Hcl Evp Haf T [c Ec]. pose proof (so_cache _ _ _ _ S ci Hci) as Ecc. pose proof (so_partial _ _ _ _ S ci Hci) as L. rewrite Evp in L. destruct (heap_unlink_ok h ci Partial a _ l1 l2 ltac:(lia) Ecc) as (h1 & E1 & (R1 & K1 & L1) & D1 & C1); [cbn; by rewrite Evp|done|]. rewrite E1, ret_bind. pose proof (tied_rest h h1 B R1 K1 T) as T1.
  unfold free_page_at. rewrite <- (K1 a) in Ec. destruct (src_free_page (pmm h1) B (a - hhdm) (ti_owns _ _ _ _ T1) (ti_slab _ _ _ _ T1 a c Ec)) as (p' & Ep & Ho). rewrite Ep, ret_bind. set (h2 := set_mem _ _). assert (Hbig : big_of h1 a = None) by (unfold core_of in Ec; unfold big_of; by destruct (mem h1 !! a) as [[?|?]|]).
  assert (Hcore : forall x, core_of h2 x = if decide (x = a) then None else core_of h1 x) by (intros x; unfold core_of; cbn; destruct (decide (x = a)) as [->|]; [by rewrite lookup_delete_eq|by rewrite lookup_delete_ne]). assert (Hlink : forall x, x <> a -> link_of h2 x = link_of h1 x) by (intros x Hx; unfold link_of; cbn; by rewrite lookup_delete_ne).
  assert (Hb2 : forall x, big_of h2 x = big_of h1 x) by (intros x; unfold big_of in *; cbn; destruct (decide (x = a)) as [->|]; [rewrite lookup_delete_eq; symmetry; exact Hbig|by rewrite lookup_delete_ne]).
  assert (Ha12 : a ∉ l1 ++ l2). { destruct L as (_ & Hn & _). apply NoDup_app in Hn as (N1 & N12 & N2). apply NoDup_cons in N2 as [Na _]. intros [Hx|Hx]%elem_of_app; [apply (N12 a Hx); left|done]. }
  assert (Hdisj : forall x, x ∈ vf ci -> x ∉ l1 ++ l2). { intros x Hx Hp. assert (x <> a) by (by intros ->). assert (Hp' : x ∈ vp ci) by (rewrite Evp; apply elem_of_app in Hp as [?|?]; apply elem_of_app; [by left|right; by right]). assert (Some a <> Some x) by congruence. destruct (slabs_class (Some a) h vp vf ci x S Hci (or_introl Hp')) as (d & _ & _ & P1 & P2); [done|]. apply P1 in Hp'. apply P2 in Hx. done. }
  exists h2, (upd vp ci (l1 ++ l2)), (upd vf ci (vf ci)), (delete (a - hhdm) B). split; [done|]. split; [apply (heap_kept_trans _ h1); [by apply rest_kept|by split]|]. split; [apply (re_data _ _ R1)|]. split; [|split; [|split; [intros b Hb; rewrite Hcore, decide_False by done; apply K1|by rewrite Hcore, decide_True]]].
  - apply (slabs_rebuild h h2 vp vf ci (l1 ++ l2) (vf ci) a S Hci).
    + change (caches h2) with (caches h1). by rewrite C1.
    + apply (listed_ext h1); [|done]. intros x Hx. apply Hlink. by intros ->.
    + apply (listed_ext h); [|by apply (so_full _ _ _ _ S)]. intros x Hx. rewrite Hlink by (by intros ->). apply L1. by apply Hdisj.
    + intros b Hba Hbp Hbf. rewrite Hlink by done. apply L1. intros Hx. apply Hbp. rewrite Evp. apply elem_of_app in Hx as [?|?]; apply elem_of_app; [by left|right; by right].
    + intros b Hb. rewrite Hcore, decide_False by done. apply K1.
    + intros b Hb. rewrite Evp. rewrite !elem_of_app, elem_of_cons. tauto.
    + done.
    + done.
    + done.
    + rewrite Hcore, decide_True by done. by intros [? ?].
  - destruct T1 as [T1 T2 T3 T4]. split; [done| | |].
    + intros x d Ed. rewrite Hcore in Ed. destruct (decide (x = a)) as [|Hne]; [done|]. rewrite lookup_delete_ne by lia. by apply (T2 x d).
    + intros x b Eb. rewrite Hb2 in Eb. rewrite lookup_delete_ne; [by apply T3|]. intros Hx. assert (x = a) as -> by lia. congruence.
    + intros x n Ex. apply lookup_delete_Some in Ex as [Hne Ex]. cbn. rewrite lookup_delete_ne by lia. by apply (T4 x n).
Qed.

Lemma slab_free_ok (h : heap) vp vf B a i c : slabs None h vp vf -> tied h B -> core_of h a = Some c -> 0 <= i < objs (cache c) -> bm_test (bitmap c) i = true ->
  exists h' vp' vf' B', slab_free_to_cache_locked hhdm pmm_free_page (cache c) a (a + 64 + i * osize (cache c)) h = Ret h' /\ kept h h' /\ data h' = data h /\ slabs None h' vp' vf' /\ tied h' B' /\ (forall b, b <> a -> core_of h' b = core_of h b) /\
    (core_of h' a = None /\ (forall j, 0 <= j < objs (cache c) -> j <> i -> bm_test (bitmap c) j = false) \/ exists c', core_of h' a = Some c' /\ cache c' = cache c /\ (forall j, 0 <= j < 128 -> bm_test (bitmap c') j = if j =? i then false else bm_test (bitmap c) j)).
Proof.
  intros S T Ec Hi Hb. destruct (slabs_cache h vp vf a c S Ec) as (Hci & Hin & K). set (ci := cache c) in *. pose proof (class_facts ci Hci) as (Hos & Hob & Hfit). destruct (slab_page h B a c T Ec) as (Ha0 & Ham & Hat). destruct (slabs_class None h vp vf ci a S Hci Hin) as (c0 & Ec0 & _ & Pp & Pf); [done|]. rewrite Ec in Ec0. injection Ec0 as <-.
  unfold slab_free_to_cache_locked, SIZEOF_SLAB. rewrite (u64_id (a + 64)) by nia. rewrite (proj2 (Z.ltb_ge _ _)) by nia. replace (a + 64 + i * osize ci - (a + 64)) with (i * osize ci) by lia. unfold arr_get. rewrite (proj2 (Z.ltb_ge _ _)), (so_cache _ _ _ _ S ci Hci) by lia. cbn [deref]. rewrite ret_bind. cbn [obj_size]. destruct (offset_ok ci i Hci Hi) as [-> ->]. cbv zeta.
  destruct (core_slab h a c Ec) as (s & Es & Hs). rewrite (slab_at_ok h a s Es), ret_bind. destruct K as [K1 K2 K3 K4 K5 K6]. assert (Et : total_count s = objs ci) by (rewrite <- K2, <- Hs; done). assert (Ebm : bitmap s = bitmap c) by (rewrite <- Hs; done). assert (Efc : free_count s = free_count c) by (rewrite <- Hs; done). assert (Eca : cache s = ci) by (rewrite <- K3, <- Hs; done). assert (Emg : magic s = SLAB_MAGIC) by (rewrite <- K1, <- Hs; done).
  rewrite Et, Z.geb_leb, (proj2 (Z.leb_gt _ _)) by lia. rewrite Ebm, (test_ok _ i K4), ret_bind, Hb by lia. cbn [negb]. destruct (heap_clear_ok (bitmap c) i K4 ltac:(lia)) as (b' & Eb' & Gb & Hb'). rewrite Eb', ret_bind. pose proof (used_change _ b' (objs ci) i false Hi ltac:(lia) Hb') as Hu. rewrite Hb in Hu. cbn [Z.b2z] in Hu. rewrite Efc, (u32_id (free_count c + 1)) by lia. set (s' := mk_slab _ _ _ _ _ _ _).
  destruct (put_slab_ok h a s s' Es) as (R1 & L1 & K1a & K1b & C1); [done|done|]. set (h1 := put_slab a s' h) in *. assert (Hk' : slab_ok (strip s') ci (free_count c + 1) (free_count c + 1)) by (split; cbn; try done; lia). pose proof (used_range (bitmap c) (objs ci) ltac:(lia)) as Hur. pose proof (used_range b' (objs ci) ltac:(lia)) as Hur'.
  assert (Hcl : forall ci', 0 <= ci' < 6 -> a ∈ vp ci' \/ a ∈ vf ci' -> ci' = ci) by (intros ci' Hci' Hx; symmetry; by apply (slabs_one_class None h vp vf ci ci' a)).
  assert (S1 : slabs (Some a) h1 vp vf). { pose proof (slabs_skip (Some a) h vp vf S) as [S1 S2 S3 S4 S5 S6 S7]. split; rewrite ?C1; [done|done|intros ci' Hci'; apply (listed_ext h); [intros x _; apply L1|by apply S3]|intros ci' Hci'; apply (listed_ext h); [intros x _; apply L1|by apply S4]| | |].
    - intros ci' x Hci' Hx Hne. rewrite K1b by congruence. by apply S5.
    - intros ci' x Hci' Hx Hne. rewrite K1b by congruence. by apply S6.
    - intros x d Ed Hne. rewrite K1b in Ed by congruence. by apply (S7 x d). }
  assert (T1 : tied h1 B) by (apply (tied_core h h1 B a); [done|done|by exists c|by eexists|done]). destruct (free_count c + 1 =? objs ci) eqn:Ef; reify_bools.
  - assert (Hap : a ∈ vp ci) by (apply Pp; lia). assert (Haf : a ∉ vf ci) by (intros Hx; apply Pf in Hx; lia). apply list_elem_of_split in Hap as (l1 & l2 & Evp). destruct (drop_page_ok h1 vp vf B ci a l1 l2 S1 Hci Hcl Evp Haf T1) as (h2 & vp2 & vf2 & B2 & E2 & Ke & Da & S2 & T2 & Co & Cn); [by eexists|]. rewrite E2. exists h2, vp2, vf2, B2. split; [done|]. split; [apply (heap_kept_trans _ h1); [by apply rest_kept|done]|]. split; [rewrite Da; apply (re_data _ _ R1)|]. do 2 (split; [done|]). split; [intros b Hb0; rewrite Co by done; by apply K1b|]. left. split; [done|]. intros j Hj Hne. assert (Hz : used b' (objs ci) = 0) by lia. pose proof (used_none b' (objs ci) j Hz Hj) as Hn. rewrite Hb' in Hn by lia. by rewrite (proj2 (Z.eqb_neq j i) Hne) in Hn.
  - destruct (free_count c + 1 =? 1) eqn:Ef1; reify_bools.
    + assert (Haf : a ∈ vf ci) by (apply Pf; lia). assert (Hap : a ∉ vp ci) by (intros Hx; apply Pp in Hx; lia). apply list_elem_of_split in Haf as Hsp. destruct Hsp as (l1 & l2 & Evf). pose proof (so_cache _ _ _ _ S1 ci Hci) as Ecc. pose proof (so_full _ _ _ _ S1 ci Hci) as Lf. pose proof (so_partial _ _ _ _ S1 ci Hci) as Lp. rewrite Evf in Lf, Ecc.
      assert (Hdisj : forall x, x ∈ l1 ++ a :: l2 -> x ∉ vp ci). { intros x Hx Hxp. rewrite <- Evf in Hx. destruct (slabs_class None h vp vf ci x S Hci (or_introl Hxp)) as (d & _ & _ & P1 & P2); [done|]. apply P1 in Hxp. apply P2 in Hx. done. }
      destruct (move_slab h1 ci Full Partial a _ l1 l2 (vp ci) ltac:(lia) Ecc) as (h2 & E2 & R2 & K2' & D2 & D2' & L2 & C2); [done|done|done|done|done|done|]. rewrite E2. cbn [with_head obj_size partial full free] in C2.
      assert (Ha12 : a ∉ l1 ++ l2). { destruct Lf as (_ & Hn & _). apply NoDup_app in Hn as (N1 & N12 & N2). apply NoDup_cons in N2 as [Na _]. intros [Hx|Hx]%elem_of_app; [apply (N12 a Hx); left|done]. }
      exists h2, (upd vp ci (a :: vp ci)), (upd vf ci (l1 ++ l2)), B. split; [done|]. split; [apply (heap_kept_trans _ h1); by apply rest_kept|]. split; [rewrite (re_data _ _ R2); apply (re_data _ _ R1)|]. split; [|split; [by apply (tied_rest h1)|split; [intros b Hb0; rewrite K2'; by apply K1b|right; exists (strip s'); by rewrite K2']]].
      apply (slabs_rebuild h1 h2 vp vf ci (a :: vp ci) (l1 ++ l2) a S1 Hci); [done|done|done| |intros b _; apply K2'| |done| |done|intros _; left; left].
      * intros b Hba Hbp Hbf. apply L2; [|by apply not_elem_of_cons]. intros Hx. apply Hbf. rewrite Evf. apply elem_of_app in Hx as [?|?]; apply elem_of_app; [by left|right; by right].
      * intros b Hba. rewrite Evf. rewrite elem_of_cons, !elem_of_app, elem_of_cons. tauto.
      * intros _. exists (strip s'). rewrite K2'. split; [done|]. destruct Hk' as [J1 J2 J3 J4 J5 J6]. split; try done. lia.
    + assert (Hap : a ∈ vp ci) by (apply Pp; lia). assert (Haf : a ∉ vf ci) by (intros Hx; apply Pf in Hx; lia). exists h1, (upd vp ci (vp ci)), (upd vf ci (vf ci)), B. split; [done|]. split; [by apply rest_kept|]. split; [apply (re_data _ _ R1)|]. split; [|split; [done|split; [done|right; by exists (strip s')]]].
      apply (slabs_rebuild h1 h1 vp vf ci (vp ci) (vf ci) a S1 Hci); [rewrite C1; symmetry; apply list_insert_id; by apply (so_cache _ _ _ _ S)|by apply (so_partial _ _ _ _ S1)|by apply (so_full _ _ _ _ S1)|done|done|done|done| |done|intros _; by left]. intros _. exists (strip s'). split; [done|]. destruct Hk' as [J1 J2 J3 J4 J5 J6]. split; try done. lia.
Qed.

(** ** Allocation *)

Lemma first_in_partial (h : heap) vp vf ci a l : slabs None h vp vf -> 0 <= ci < 6 -> vp ci = a :: l -> exists s c idx, mem h !! a = Some (Slab s) /\ core_of h a = Some c /\ slab_ok c ci 1 (objs ci - 1) /\ slab_find_first_free_idx s = idx /\ 0 <= idx < objs ci /\ bm_test (bitmap c) idx = false.
Proof.
  intros S Hci Evp. destruct (so_pc _ _ _ _ S ci a Hci) as (c & Ec & K); [rewrite Evp; left|done|]. destruct (core_slab h a c Ec) as (s & Es & Hs). pose proof (class_facts ci Hci) as (_ & Ho & _). pose proof K as [K1 K2 K3 K4 K5 K6]. assert (Eb : bitmap s = bitmap c) by (by rewrite <- Hs). assert (Et : total_count s = objs ci) by (rewrite <- K2; by rewrite <- Hs). exists s, c, (slab_find_first_free_idx s). do 4 (split; [done|]). destruct (first_free_ok s) as [[_ Hu]|H]; [by rewrite Eb|lia| |].
  - rewrite Eb, Et in Hu. lia.
  - by rewrite Eb, Et in H.
Qed.
Lemma new_count ci : 0 <= ci < 6 -> Z.min 128 (u32 ((PAGE_SIZE - SIZEOF_SLAB) / osize ci)) = objs ci.
Proof. revert ci. apply class_cases; reflexivity. Qed.
Lemma empty_bm j : 0 <= j < 128 -> bm_test [0; 0; 0; 0] j = false.
Proof.
  intros Hj. unfold bm_test. assert (Hd : 0 <= j / 32 < 4) by (split; [apply Z.div_pos; lia|apply Z.div_lt_upper_bound; lia]). assert (nth (Z.to_nat (j / 32)) [0; 0; 0; 0] 0 = 0) as ->; [|apply Z.bits_0]. destruct (Z.to_nat (j / 32)) as [|[|[|[|[|n]]]]]; done.
Qed.
Lemma empty_used n : n <= 128 -> used [0; 0; 0; 0] n = 0.
Proof. intros Hn. unfold used. apply count_none. intros x Hx. apply elem_of_seqZ in Hx. apply empty_bm. lia. Qed.

(** A new slab, on the list of partial ones. *)
Lemma new_slab_ok (h : heap) vp vf B ci : slabs None h vp vf -> tied h B -> 0 <= ci < 6 -> vp ci = [] ->
  exists a h1, allocate_new_slab hhdm pmm_alloc_page ci h = Ret (a, h1) /\ kept h h1 /\
    (a = 0 /\ (exists p', pmm_alloc_page (pmm h) = Ret (0, p')) /\ slabs None h1 vp vf /\ tied h1 B /\ (forall b, core_of h1 b = core_of h b) /\ data h1 = data h \/
     a <> 0 /\ exists h2 c, push ci Partial a h1 = Ret h2 /\ kept h h2 /\ slabs (Some a) h2 (upd vp ci [a]) (upd vf ci (vf ci)) /\ (forall ci', 0 <= ci' < 6 -> a ∉ vp ci' /\ a ∉ vf ci') /\ tied h2 (<[a - hhdm := 1]> B) /\ (forall b, b <> a -> core_of h2 b = core_of h b) /\ core_of h a = None /\ core_of h2 a = Some c /\ slab_ok c ci 1 (objs ci) /\ bitmap c = [0; 0; 0; 0] /\ (forall x, page_at hhdm B x -> data h2 x = data h x)).
Proof.
  intros S T Hci Evp. unfold allocate_new_slab. destruct (src_page (pmm h) B (ti_owns _ _ _ _ T)) as (f & p' & Ef & Hf). rewrite Ef, ret_bind. cbv zeta. destruct Hf as [[-> Ho]|(Hf & Hclear & Ho)].
  - cbn [Z.eqb]. exists 0, (set_pmm p' h). split; [done|]. split; [by split|]. left. split; [done|]. split; [by exists p'|]. split; [destruct S; by split|]. split; [destruct T; by split|done].
  - rewrite (proj2 (Z.eqb_neq f 0) Hf). destruct (src_block p' (<[f := 1]> B) f 1 Ho) as (_ & Hf0 & Hfm & Hft & _); [apply lookup_insert_eq|]. destruct src_hhdm as [Hh Hhm]. unfold PAGE_SIZE in *. rewrite (u64_id (f + hhdm)) by lia. set (a := f + hhdm) in *. pose proof (class_facts ci Hci) as (Hos & Hob & _).
    unfold arr_get. cbn [caches set_pmm]. rewrite (proj2 (Z.ltb_ge _ _)), (so_cache _ _ _ _ S ci Hci) by lia. cbn [deref]. rewrite ret_bind. cbn [obj_size]. pose proof (new_count ci Hci) as Hnc. unfold PAGE_SIZE in Hnc. rewrite !Hnc. set (s := mk_slab _ _ _ _ _ _ _). set (h1 := put_slab a s _). assert (Emem : mem h !! a = None).
    { destruct (mem h !! a) as [[s0|b0]|] eqn:Em; [| |done]; exfalso.
      - assert (Eb : B !! (a - hhdm) = Some 1) by (apply (ti_slab _ _ _ _ T a (strip s0)); unfold core_of; by rewrite Em). destruct (Hclear _ _ Eb) as [?|?]; unfold PAGE_SIZE in *; lia.
      - assert (Eb : B !! (a - hhdm) = Some (pages b0)) by (apply (ti_big _ _ _ _ T a b0); unfold big_of; by rewrite Em). destruct (src_block (pmm h) B _ _ (ti_owns _ _ _ _ T) Eb) as (Hp & _). destruct (Hclear _ _ Eb) as [?|?]; unfold PAGE_SIZE in *; lia. }
    assert (Ec0 : core_of h a = None) by (unfold core_of; by rewrite Emem). assert (Eb0 : big_of h a = None) by (unfold big_of; by rewrite Emem).
    assert (Hcore : forall x, core_of h1 x = if decide (x = a) then Some (strip s) else core_of h x) by (intros x; unfold core_of; cbn; destruct (decide (x = a)) as [->|]; [by rewrite lookup_insert_eq|by rewrite lookup_insert_ne]). assert (Hlink : forall x, link_of h1 x = if decide (x = a) then Some (0, 0) else link_of h x) by (intros x; unfold link_of; cbn; destruct (decide (x = a)) as [->|]; [by rewrite lookup_insert_eq|by rewrite lookup_insert_ne]).
    assert (Hbig : forall x, big_of h1 x = big_of h x) by (intros x; unfold big_of in *; cbn; destruct (decide (x = a)) as [->|]; [rewrite lookup_insert_eq; symmetry; exact Eb0|by rewrite lookup_insert_ne]). exists a, h1. split; [done|]. assert (Ke1 : kept h h1) by by split. split; [done|]. right. split; [lia|].
    assert (Hnew : forall ci', 0 <= ci' < 6 -> a ∉ vp ci' /\ a ∉ vf ci'). { intros ci' Hci'. split; intros Hx; destruct (slabs_class None h vp vf ci' a S Hci') as (c & Ec & _); auto; congruence. }
    assert (S1 : slabs (Some a) h1 vp vf). { destruct S as [S1 S2 S3 S4 S5 S6 S7]. split; [done|done|intros ci' Hci'; apply (listed_ext h); [|by apply S3]; intros x Hx; rewrite Hlink, decide_False; [done|]; intros ->; by apply (proj1 (Hnew ci' Hci'))|intros ci' Hci'; apply (listed_ext h); [|by apply S4]; intros x Hx; rewrite Hlink, decide_False; [done|]; intros ->; by apply (proj2 (Hnew ci' Hci'))| | |].
      - intros ci' x Hci' Hx Hne. rewrite Hcore, decide_False by congruence. by apply S5.
      - intros ci' x Hci' Hx Hne. rewrite Hcore, decide_False by congruence. by apply S6.
      - intros x d Ed Hne. rewrite Hcore, decide_False in Ed by congruence. by apply (S7 x d). }
    assert (T1 : tied h1 (<[a - hhdm := 1]> B)). { replace (a - hhdm) with f by lia. destruct T as [T1 T2 T3 T4]. split; [done| | |].
      - intros x d Ed. rewrite Hcore in Ed. destruct (decide (x = a)) as [->|Hne]; [replace (a - hhdm) with f by lia; apply lookup_insert_eq|]. rewrite lookup_insert_ne by lia. by apply (T2 x d).
      - intros x b Eb. rewrite Hbig in Eb. rewrite lookup_insert_ne; [by apply T3|]. intros Hx. assert (x = a) as -> by lia. congruence.
      - intros x n Ex. cbn. destruct (decide (x = f)) as [->|Hne]; [rewrite lookup_insert_eq; by eexists|]. rewrite lookup_insert_ne in Ex by done. rewrite lookup_insert_ne by lia. by apply (T4 x n). }
    destruct (push_ok h1 ci Partial a (mk_cache (osize ci) (hd 0 (vp ci)) (hd 0 (vf ci)) 0) [] ltac:(lia)) as (h2 & E2 & (R2 & K2 & L2) & D2 & C2); [by apply (so_cache _ _ _ _ S)|cbn; by rewrite Evp|split; [done|split; [constructor|apply not_elem_of_nil]]|rewrite Hlink, decide_True by done; by eexists|apply not_elem_of_nil|lia|].
    exists h2, (strip s). split; [done|]. split; [apply (heap_kept_trans _ h1); [done|by apply rest_kept]|]. split.
    { apply (slabs_change (Some a) h1 h2 vp vf ci [a] (vf ci) a S1 Hci); [by rewrite C2, Evp|done| | |intros b _; apply K2| |intros ci' Hci' [Hx|Hx]; [by apply (proj1 (Hnew ci' Hci')) in Hx|by apply (proj2 (Hnew ci' Hci')) in Hx]|done|done|done].
      - apply (listed_ext h1); [|by apply (so_full _ _ _ _ S1)]. intros x Hx. apply L2. intros ->%list_elem_of_singleton. by apply (proj2 (Hnew ci Hci)).
      - intros b Hb _ _. apply L2. by intros ->%list_elem_of_singleton.
      - intros b Hb. rewrite Evp, list_elem_of_singleton. split; [|done]. split; [done|]. by intros ?%not_elem_of_nil. }
    split; [done|]. split; [by apply (tied_rest h1)|]. split; [intros b Hb; by rewrite K2, Hcore, decide_False|]. split; [done|]. split; [by rewrite K2, Hcore, decide_True|]. split; [|split; [done|]].
    + split; cbn; try done; [split; [done|repeat constructor; lia]|rewrite empty_used by lia; lia|lia].
    + intros x (b & n & Eb & Hx). rewrite (re_data _ _ R2). cbn. unfold memset. destruct ((a <=? x) && (x <? a + 4096)) eqn:Ex; [|done]. exfalso. apply andb_true_iff in Ex as [Ex1 Ex2]. reify_bools. destruct (Hclear b n Eb); unfold PAGE_SIZE in *; lia.
Qed.

Lemma slab_alloc_ok (h : heap) vp vf B ci : slabs None h vp vf -> tied h B -> 0 <= ci < 6 ->
  exists r h' vp' vf' B', slab_alloc_from_cache_locked hhdm pmm_alloc_page ci h = Ret (r, h') /\ kept h h' /\ slabs None h' vp' vf' /\ tied h' B' /\ (forall x, page_at hhdm B x -> data h' x = data h x) /\
    (r = 0 /\ (exists p', pmm_alloc_page (pmm h) = Ret (0, p')) /\ (forall b, core_of h' b = core_of h b) \/
     exists a i c', r = a + 64 + i * osize ci /\ 0 <= i < objs ci /\ (forall b, b <> a -> core_of h' b = core_of h b) /\ core_of h' a = Some c' /\ cache c' = ci /\ (forall c, core_of h a = Some c -> cache c = ci /\ bm_test (bitmap c) i = false) /\
       (forall j, 0 <= j < objs ci -> bm_test (bitmap c') j = if j =? i then true else match core_of h a with Some c => bm_test (bitmap c) j | None => false end)).
Proof.
  intros S T Hci. pose proof (class_facts ci Hci) as (Hos & Hob & _). unfold slab_alloc_from_cache_locked. pose proof (so_cache _ _ _ _ S ci Hci) as Ecc. rewrite (head_ok h ci Partial _ ltac:(lia) Ecc), ret_bind. cbn [head_of partial]. destruct (vp ci) as [|a l] eqn:Evp.
  - cbn [hd scan_partial]. change (0 =? 0) with true. cbv iota. rewrite ret_bind. rewrite (head_ok h ci Free _ ltac:(lia) Ecc), ret_bind. cbn [head_of free]. change (nz 0) with false. cbv iota. destruct (new_slab_ok h vp vf B ci S T Hci Evp) as (a & h1 & E1 & Ke1 & [(-> & Np & S1 & T1 & K1 & D1)|(Ha & h2 & c & E2 & Ke2 & S2 & Hnew & T2 & K2 & Ec0 & Ec2 & Hk & Hbm & D2)]); rewrite E1, ret_bind.
    + cbn [Z.eqb]. exists 0, h1, vp, vf, B. split; [done|]. do 3 (split; [done|]). split; [intros x _; by rewrite D1|]. by left.
    + rewrite (proj2 (Z.eqb_neq a 0) Ha). rewrite E2, ret_bind. destruct (core_slab h2 a c Ec2) as (s & Es & Hs). rewrite (slab_at_ok h2 a s Es), ret_bind. cbv zeta. assert (Eb : bitmap s = bitmap c) by (by rewrite <- Hs). assert (Et : total_count s = objs ci) by (rewrite <- (sl_total _ _ _ _ Hk); by rewrite <- Hs). destruct (first_free_ok s) as [[_ Hu]|[Hr Hb]]; [rewrite Eb; apply (sl_bm _ _ _ _ Hk)|lia|rewrite Eb, Et, Hbm, empty_used in Hu; lia|]. set (i := slab_find_first_free_idx s) in *. rewrite (proj2 (Z.eqb_neq i (-1))) by lia. rewrite Et in Hr. rewrite Eb in Hb.
      destruct (take_slot_ok h2 (upd vp ci [a]) (upd vf ci (vf ci)) ci a i c S2 Hci) as (h3 & vp3 & vf3 & c3 & E3 & R3 & S3 & K3 & Ec3 & Hc3 & Hb3); [rewrite heap_upd_eq; left|rewrite heap_upd_eq; by apply (proj2 (Hnew ci Hci))| |done|done|done|done|].
      { intros ci' Hci' Hx. destruct (decide (ci' = ci)) as [|Hne]; [done|]. rewrite !heap_upd_ne in Hx by done. exfalso. destruct (Hnew ci' Hci'). tauto. }
      rewrite E3. exists (a + 64 + i * osize ci), h3, vp3, vf3, (<[a - hhdm := 1]> B). split; [done|]. split; [apply (heap_kept_trans _ h2); [done|by apply rest_kept]|]. split; [done|]. split; [apply (tied_core h2 h3 _ a); [done|done|by exists c|by exists c3|done]|]. split; [intros x Hx; rewrite (re_data _ _ R3); by apply D2|]. right. exists a, i, c3. split; [done|]. split; [done|]. split; [intros b Hb0; rewrite K3 by done; by apply K2|]. split; [done|]. split; [done|]. split; [intros d Ed; congruence|]. intros j Hj. rewrite Ec0, Hb3 by lia. destruct (j =? i); [done|]. rewrite Hbm. apply empty_bm. lia.
  - destruct (first_in_partial h vp vf ci a l S Hci Evp) as (s & c & i & Es & Ec & K & Ei & Hi & Hb). assert (Ha : a <> 0) by (pose proof (so_partial _ _ _ _ S ci Hci) as L; rewrite Evp in L; destruct (listed_link h _ a L) as [_ ?]; [left|done]). cbn [hd]. cbn [scan_partial]. rewrite (proj2 (Z.eqb_neq a 0) Ha). rewrite (slab_at_ok h a s Es), ret_bind. cbv zeta. rewrite Ei, (proj2 (Z.eqb_neq i (-1))) by lia. rewrite ret_bind. assert (Hap : a ∈ vp ci) by (rewrite Evp; left).
    destruct (take_slot_ok h vp vf ci a i c (slabs_skip _ _ _ _ S) Hci Hap) as (h3 & vp3 & vf3 & c3 & E3 & R3 & S3 & K3 & Ec3 & Hc3 & Hb3); [|intros ci' Hci' Hx; symmetry; apply (slabs_one_class None h vp vf ci ci' a); auto|done| |done|done|].
    { intros Hx. destruct (slabs_class None h vp vf ci a S Hci (or_introl Hap)) as (d & _ & _ & P1 & P2); [done|]. apply P1 in Hap. by apply P2 in Hx. }
    { destruct K as [J1 J2 J3 J4 J5 J6]. split; try done. lia. }
    rewrite E3. exists (a + 64 + i * osize ci), h3, vp3, vf3, B. split; [done|]. split; [by apply rest_kept|]. split; [done|]. split; [apply (tied_core h h3 _ a); [done|done|by exists c|by exists c3|done]|]. split; [intros x Hx; by rewrite (re_data _ _ R3)|]. right. exists a, i, c3. split; [done|]. split; [done|]. split; [done|]. split; [done|]. split; [done|]. split; [intros d Ed; rewrite Ec in Ed; injection Ed as <-; split; [apply (sl_cache _ _ _ _ K)|done]|]. intros j Hj. rewrite Ec, Hb3 by lia. done.
Qed.
End Slab.
End HeapSlab.
