(* ===== verification/HeapMag.v ===== *)
(** HeapMag: slots in use, the per-CPU caches of free objects, and the reclaim. *)

From S2P Require Import Prelude Heap HeapSafe HeapSlab.
From stdpp Require Import list_relations.
#[local] Open Scope Z_scope.

Module HeapMag.
Import Heap HeapSafe HeapSlab.

Section Mag.
Context {P : Type} (hhdm : Z) (pmm_alloc_page : P -> outcome (Z * P)) (pmm_alloc_pages : Z -> P -> outcome (Z * P)) (pmm_free_page : Z -> P -> outcome P) (pmm_free_pages : Z -> Z -> P -> outcome P) (managed : Z -> bool) (owns : P -> gmap Z Z -> Prop).
Context {Source : PageSource hhdm pmm_alloc_page pmm_alloc_pages pmm_free_page pmm_free_pages managed owns}.
Notation heap := (heap P).
Notation tied := (tied hhdm owns).
Notation slab_page := (slab_page hhdm pmm_alloc_page pmm_alloc_pages pmm_free_page pmm_free_pages managed owns).
Notation slab_free := (slab_free_to_cache_locked hhdm pmm_free_page).

(** ** Slots *)

(** The slots of the heap after one bitmap changed at one place. *)
Lemma slots_change (h h' : heap) vp vf B a i v ci : slabs None h vp vf -> tied h B -> 0 <= ci < 6 -> 0 <= i < objs ci -> a mod 4096 = 0 -> (forall b, b <> a -> core_of h' b = core_of h b) -> (forall c, core_of h a = Some c -> cache c = ci) -> (forall c, core_of h' a = Some c -> cache c = ci) ->
  (forall j, 0 <= j < objs ci -> match core_of h' a with Some c => bm_test (bitmap c) j | None => false end = if j =? i then v else match core_of h a with Some c => bm_test (bitmap c) j | None => false end) ->
  forall ci' q, slot_used h' ci' q <-> if decide (ci' = ci /\ q = a + 64 + i * osize ci) then v = true else slot_used h ci' q.
Proof.
  intros S T Hci Hi Ham Ho Hc Hc' Hb ci' q. assert (Hother : forall b c, core_of h b = Some c -> b <> a -> forall k, 0 <= k < objs (cache c) -> b + 64 + k * osize (cache c) <> a + 64 + i * osize ci).
  { intros b c Ec Hne k Hk E. destruct (slabs_cache h vp vf b c S Ec) as (Hcc & _). destruct (slab_page h B b c T Ec) as (_ & Hbm & _). destruct (slot_unique (cache c) ci b a k i) as [-> _]; done. }
  assert (Hsame : forall k, 0 <= k < objs ci -> a + 64 + k * osize ci = a + 64 + i * osize ci -> k = i) by (intros k Hk E; pose proof (class_facts ci Hci) as (? & _ & _); nia). destruct (decide (ci' = ci /\ q = a + 64 + i * osize ci)) as [[-> ->]|Hne].
  - split.
    + intros (b & k & c & Ec & Hcc & Hk & Ht & E). destruct (decide (b = a)) as [->|Hba].
      * assert (k = i) as -> by (apply Hsame; [done|lia]). specialize (Hb i Hi). rewrite Ec, Z.eqb_refl in Hb. congruence.
      * exfalso. rewrite Ho in Ec by done. subst ci. by apply (Hother b c Ec Hba k Hk).
    + intros ->. specialize (Hb i Hi). rewrite Z.eqb_refl in Hb. destruct (core_of h' a) as [c|] eqn:Ec; [|done]. exists a, i, c. split; [done|]. split; [by apply Hc'|done].
  - split.
    + intros (b & k & c & Ec & Hcc & Hk & Ht & E). destruct (decide (b = a)) as [->|Hba].
      * assert (ci' = ci) as -> by (rewrite <- Hcc; by apply Hc'). specialize (Hb k Hk). rewrite Ec, Ht in Hb. rewrite (proj2 (Z.eqb_neq k i)) in Hb by (intros ->; apply Hne; done). destruct (core_of h a) as [c0|] eqn:Ec0; [|done]. exists a, k, c0. split; [done|]. split; [by apply Hc|done].
      * rewrite Ho in Ec by done. by exists b, k, c.
    + intros (b & k & c & Ec & Hcc & Hk & Ht & E). destruct (decide (b = a)) as [->|Hba].
      * assert (ci' = ci) as -> by (rewrite <- Hcc; by apply Hc). specialize (Hb k Hk). rewrite Ec, Ht in Hb. rewrite (proj2 (Z.eqb_neq k i)) in Hb by (intros ->; apply Hne; done). destruct (core_of h' a) as [c0|] eqn:Ec0; [|done]. exists a, k, c0. split; [done|]. split; [by apply Hc'|done].
      * exists b, k, c. rewrite Ho by done. done.
Qed.

Lemma free_slot_ok (h : heap) vp vf B ci q : slabs None h vp vf -> tied h B -> slot_used h ci q ->
  exists h' vp' vf' B', slab_free ci (page_of q) q h = Ret h' /\ kept h h' /\ data h' = data h /\ slabs None h' vp' vf' /\ tied h' B' /\ (forall ci' x, slot_used h' ci' x <-> slot_used h ci' x /\ x <> q).
Proof.
  intros S T Hq. destruct (slot_bounds hhdm pmm_alloc_page pmm_alloc_pages pmm_free_page pmm_free_pages managed owns h vp vf B ci q S T Hq) as (Hci & a2 & c2 & Ec2 & _ & Epg & L1 & L2 & _). pose proof Hq as (a & i & c & Ec & Hc & Hi & Hb & Eq). destruct (slab_page h B a c T Ec) as (_ & Ham & _). destruct (slab_page h B a2 c2 T Ec2) as (_ & Ham2 & _). assert (Ea : page_of q = a) by (rewrite Epg; pose proof (class_facts ci Hci) as (O1 & O2 & O3); pose proof (Z.div_mod a 4096 ltac:(lia)); pose proof (Z.div_mod a2 4096 ltac:(lia)); nia).
  rewrite Ea. clear a2 c2 Ec2 Epg L1 L2 Ham2. subst ci. destruct (slab_free_ok hhdm pmm_alloc_page pmm_alloc_pages pmm_free_page pmm_free_pages managed owns h vp vf B a i c S T Ec Hi Hb) as (h' & vp' & vf' & B' & E & Ke & Da & S' & T' & Ho & Hcase). rewrite <- Eq in E. exists h', vp', vf', B'. do 5 (split; [done|]). intros ci' x.
  rewrite (slots_change h h' vp vf B a i false (cache c) S T Hci Hi Ham Ho); [| | |].
  - destruct (decide (ci' = cache c /\ x = a + 64 + i * osize (cache c))) as [[-> ->]|Hne]; [split; [done|intros [_ Hx]; congruence]|]. split; [|by intros [? _]]. intros Hx. split; [done|]. intros ->. apply Hne. split; [|done]. destruct Hx as (b & k & d & Ed & Hd & Hk & Ht & E2). destruct (slabs_cache h vp vf b d S Ed) as (Hdc & _). rewrite Hd in Hdc. destruct (slab_page h B b d T Ed) as (_ & Hbm & _). destruct (slot_unique ci' (cache c) b a k i) as [-> _]; [done|done|done|done|done|done|congruence|]. rewrite Ec in Ed. injection Ed as <-. done.
  - intros d Ed. rewrite Ec in Ed. by injection Ed as <-.
  - intros d Ed. destruct Hcase as [[En _]|(c2 & Ec2 & Hc2 & _)]; [congruence|]. rewrite Ec2 in Ed. by injection Ed as <-.
  - pose proof (class_facts (cache c) Hci) as (_ & Hob & _). intros j Hj. rewrite Ec. destruct Hcase as [[-> Hz]|(c2 & -> & _ & H2)]; [|by apply H2; lia]. destruct (j =? i) eqn:Ej; reify_bools; [done|]. symmetry. by apply Hz.
Qed.

Lemma alloc_slot_ok (h : heap) vp vf B ci : slabs None h vp vf -> tied h B -> 0 <= ci < 6 ->
  exists r h' vp' vf' B', slab_alloc_from_cache_locked hhdm pmm_alloc_page ci h = Ret (r, h') /\ kept h h' /\ slabs None h' vp' vf' /\ tied h' B' /\ (forall x, page_at hhdm B x -> data h' x = data h x) /\
    (r = 0 /\ (exists p', pmm_alloc_page (pmm h) = Ret (0, p')) /\ (forall ci' x, slot_used h' ci' x <-> slot_used h ci' x) \/ r <> 0 /\ (forall ci', ~ slot_used h ci' r) /\ (forall ci' x, slot_used h' ci' x <-> slot_used h ci' x \/ ci' = ci /\ x = r)).
Proof.
  intros S T Hci. destruct (slab_alloc_ok hhdm pmm_alloc_page pmm_alloc_pages pmm_free_page pmm_free_pages managed owns h vp vf B ci S T Hci) as (r & h' & vp' & vf' & B' & E & Ke & S' & T' & Da & Hr). exists r, h', vp', vf', B'. do 5 (split; [done|]). destruct Hr as [(-> & Np & Hc)|(a & i & c' & -> & Hi & Ho & Ec' & Hc' & Hold & Hb)].
  - left. split; [done|]. split; [done|]. intros ci' x. unfold slot_used. split; intros (b & k & c & Ec & H); exists b, k, c; [rewrite Hc in Ec|rewrite Hc]; done.
  - right. destruct (slab_page h' B' a c' T' Ec') as (Ha0 & Ham & _). pose proof (class_facts ci Hci) as (Hos & _ & _). split; [nia|]. assert (Hfresh : forall ci', ~ slot_used h ci' (a + 64 + i * osize ci)).
    { intros ci' (b & k & d & Ed & Hd & Hk & Ht & E2). destruct (slabs_cache h vp vf b d S Ed) as (Hdc & _). rewrite Hd in Hdc. destruct (slab_page h B b d T Ed) as (_ & Hbm & _). destruct (slot_unique ci' ci b a k i) as [-> Hki]; [done|done|done|done|done|done|congruence|]. destruct (Hold d Ed) as [Hdc' Hf]. assert (ci' = ci) by congruence. rewrite Hki in Ht by done. congruence. }
    split; [done|]. intros ci' x. rewrite (slots_change h h' vp vf B a i true ci S T Hci Hi Ham Ho); [|intros d Ed; by apply Hold|intros d Ed; congruence|intros j Hj; rewrite Ec'; by apply Hb]. destruct (decide (ci' = ci /\ x = a + 64 + i * osize ci)) as [?|Hne]; [tauto|]. tauto.
Qed.

Lemma free_batch_ok ci l : forall (h : heap) vp vf B, slabs None h vp vf -> tied h B -> Forall (slot_used h ci) l -> NoDup l ->
  exists h' vp' vf' B', free_batch hhdm pmm_free_page ci l h = Ret h' /\ kept h h' /\ data h' = data h /\ slabs None h' vp' vf' /\ tied h' B' /\ (forall ci' x, slot_used h' ci' x <-> slot_used h ci' x /\ x ∉ l).
Proof.
  induction l as [|q l IH]; intros h vp vf B S T HF Hn; cbn [free_batch].
  - exists h, vp, vf, B. do 5 (split; [done|]). intros ci' x. split; [|by intros [? _]]. intros Hx. split; [done|]. apply not_elem_of_nil.
  - apply Forall_cons in HF as [Hq HF]. apply NoDup_cons in Hn as [Hql Hn]. destruct (free_slot_ok h vp vf B ci q S T Hq) as (h1 & vp1 & vf1 & B1 & E1 & Ke1 & Da1 & S1 & T1 & U1). rewrite E1, ret_bind. destruct (IH h1 vp1 vf1 B1 S1 T1) as (h2 & vp2 & vf2 & B2 & E2 & Ke2 & Da2 & S2 & T2 & U2); [|done|].
    + rewrite Forall_forall in *. intros x Hx. apply U1. split; [by apply HF|]. by intros ->.
    + exists h2, vp2, vf2, B2. split; [done|]. split; [by apply (heap_kept_trans _ h1)|]. split; [congruence|]. do 2 (split; [done|]). intros ci' x. rewrite U2, U1, not_elem_of_cons. tauto.
Qed.

(** ** Per-CPU caches *)

Definition parked (h : heap) : list Z := concat (concat (magazines h)).
Record mags_ok (h : heap) : Prop := mk_mags {
  mg_cpus : length (magazines h) = 64%nat;
  mg_classes : forall c m, magazines h !! c = Some m -> length m = 4%nat;
  mg_entries : forall c m k l, magazines h !! c = Some m -> m !! k = Some l -> (length l <= 8)%nat /\ Forall (slot_used h (Z.of_nat k)) l;
  mg_once : NoDup (parked h) }.

Lemma concat_at {A} (m : list (list A)) k l : m !! k = Some l -> exists l1 l2, concat m = l1 ++ l ++ l2 /\ forall l', concat (<[k := l']> m) = l1 ++ l' ++ l2.
Proof.
  intros E. exists (concat (take k m)), (concat (drop (S k) m)). pose proof (lookup_lt_Some _ _ _ E) as Hlt. split; [rewrite <- (take_drop_middle m k l E) at 1; by rewrite concat_app|]. intros l'. rewrite insert_take_drop by done. by rewrite concat_app.
Qed.
Lemma mags_mono (h h' : heap) : mags_ok h -> magazines h' = magazines h -> (forall k q, q ∈ parked h -> slot_used h k q -> slot_used h' k q) -> mags_ok h'.
Proof.
  intros [M1 M2 M3 M4] E H. split; [by rewrite E|intros c m; rewrite E; apply M2| |unfold parked; by rewrite E]. intros c m k l Ec Ek. rewrite E in Ec. destruct (M3 c m k l Ec Ek) as [Hl HF]. split; [done|]. rewrite Forall_forall in *. intros q Hq. apply H; [|by apply HF]. unfold parked. apply list_elem_of_In, in_concat. exists l. split; [apply in_concat; exists m; split; [apply list_elem_of_In; by apply list_elem_of_lookup_2 in Ec|apply list_elem_of_In; by apply list_elem_of_lookup_2 in Ek]|by apply list_elem_of_In].
Qed.

Lemma magazine_ok (h : heap) c ci : mags_ok h -> 0 <= c < 64 -> 0 <= ci < 4 -> exists l l1 l2, magazine c ci h = Ret l /\ parked h = l1 ++ l ++ l2 /\ (length l <= 8)%nat /\ Forall (slot_used h ci) l /\
  forall l', (length l' <= 8)%nat -> Forall (slot_used h ci) l' -> NoDup (l1 ++ l' ++ l2) ->
    exists h', set_magazine c ci l' h = Ret h' /\ h' = set_magazines (magazines h') h /\ parked h' = l1 ++ l' ++ l2 /\ mags_ok h'.
Proof.
  intros M Hc Hci. pose proof M as [M1 M2 M3 M4]. destruct (lookup_lt_is_Some_2 (magazines h) (Z.to_nat c)) as [m Em]; [lia|]. pose proof (M2 _ m Em) as Hm. destruct (lookup_lt_is_Some_2 m (Z.to_nat ci)) as [l El]; [lia|]. destruct (concat_at (magazines h) _ m Em) as (a1 & a2 & Ea & Ha). destruct (concat_at m _ l El) as (b1 & b2 & Eb & Hb). destruct (M3 _ _ _ _ Em El) as [Hl HF]. rewrite Z2Nat.id in HF by lia.
  assert (Epk : parked h = (concat a1 ++ b1) ++ l ++ (b2 ++ concat a2)) by (unfold parked; rewrite Ea, !concat_app, Eb; by rewrite !app_assoc). assert (Hget : arr_get (magazines h) c = Ret m /\ arr_get m ci = Ret l) by (unfold arr_get; rewrite !(proj2 (Z.ltb_ge _ _)), Em, El by lia; done).
  exists l, (concat a1 ++ b1), (b2 ++ concat a2). split; [unfold magazine; destruct Hget as [-> H2]; by rewrite ret_bind|]. do 3 (split; [done|]). intros l' Hl' HF' Hn. unfold set_magazine. destruct Hget as [-> _]. rewrite ret_bind, arr_set_Ret, ret_bind, arr_set_Ret, ret_bind by lia. eexists. split; [reflexivity|]. split; [done|]. cbn [magazines set_magazines].
  set (m' := <[Z.to_nat ci := l']> m). set (ms' := <[Z.to_nat c := m']> (magazines h)). assert (Epk' : concat (concat ms') = (concat a1 ++ b1) ++ l' ++ b2 ++ concat a2) by (subst ms' m'; rewrite Ha, !concat_app, Hb; by rewrite !app_assoc). split; [done|]. split; cbn [magazines set_magazines]; [by subst ms'; rewrite length_insert| | |unfold parked; cbn [magazines set_magazines]; by rewrite Epk'].
  - intros c0 m0 E0. subst ms'. destruct (decide (c0 = Z.to_nat c)) as [->|Hne]; [rewrite list_lookup_insert_eq in E0 by lia; injection E0 as <-; subst m'; by rewrite length_insert|]. rewrite list_lookup_insert_ne in E0 by done. by apply (M2 c0).
  - intros c0 m0 k l0 E0 Ek. assert (Hin : forall q, q ∈ l0 -> (Z.of_nat k = ci /\ l0 = l') \/ (exists m1, magazines h !! c0 = Some m1 /\ m1 !! k = Some l0)).
    { intros q _. subst ms'. destruct (decide (c0 = Z.to_nat c)) as [->|Hne]; [|rewrite list_lookup_insert_ne in E0 by done; right; by exists m0]. rewrite list_lookup_insert_eq in E0 by lia. injection E0 as <-. subst m'. destruct (decide (k = Z.to_nat ci)) as [->|Hk]; [rewrite list_lookup_insert_eq in Ek by lia; injection Ek as <-; left; split; [lia|done]|]. rewrite list_lookup_insert_ne in Ek by done. right. by exists m. }
    destruct l0 as [|q0 l0']; [split; [cbn; lia|constructor]|]. destruct (Hin q0) as [[Hk ->]|(m1 & Em1 & Ek1)]; [left| |].
    + split; [done|]. rewrite Hk. exact HF'.
    + exact (M3 _ _ _ _ Em1 Ek1).
Qed.

(** ** Big allocations and the whole heap *)

Definition blink_of (h : heap) (a : Z) : option (Z * Z) := match big_of h a with Some b => Some (bnext b, bprev b) | None => None end.
Record bigs (h : heap) (vb : list Z) : Prop := mk_bigs {
  bo_head : big_head h = hd 0 vb;
  bo_list : dseg (blink_of h) 0 vb 0 /\ NoDup vb /\ 0 ∉ vb;
  bo_all : forall a b, big_of h a = Some b -> a ∈ vb /\ bmagic b = BIG_MAGIC }.
Lemma bigs_kept (h h' : heap) vb : kept h h' -> bigs h vb -> bigs h' vb.
Proof.
  intros [K1 _ _ _ K5] [B1 (B2 & B3 & B4) B5]. split; [congruence| |intros a b; rewrite K5; apply B5]. split; [|done]. apply (dseg_ext (blink_of h)); [|done]. intros a _. unfold blink_of. by rewrite K5.
Qed.

Definition whole (h : heap) : Prop := exists vp vf vb B, slabs None h vp vf /\ tied h B /\ bigs h vb /\ mags_ok h.

(** The objects handed out, with their sizes. *)
Definition live_slot (h : heap) (ci q : Z) : Prop := slot_used h ci q /\ q ∉ parked h.
Definition live (h : heap) (p sz : Z) : Prop := (exists ci, live_slot h ci p /\ sz = osize ci) \/ (exists b, big_of h (p - 64) = Some b /\ sz = pages b * PAGE_SIZE - 64).
(** Nothing changes for the owners of objects. *)
Record keeps (h h' : heap) : Prop := mk_keeps {
  kp_live : forall p sz, live h' p sz <-> live h p sz;
  kp_data : forall p sz x, live h p sz -> p <= x < p + sz -> data h' x = data h x;
  kp_dbg : dbg_on h' = dbg_on h; kp_init : initialized h' = initialized h }.
Lemma heap_keeps_refl h : keeps h h.
Proof. by split. Qed.
Lemma heap_keeps_trans h1 h2 h3 : keeps h1 h2 -> keeps h2 h3 -> keeps h1 h3.
Proof.
  intros [A1 A2 A3 A4] [B1 B2 B3 B4]. split; [intros p sz; by rewrite B1|intros p sz x Hl Hx; rewrite (B2 p sz x); [by apply (A2 p sz)|by apply A1|done]|congruence|congruence].
Qed.
Lemma live_in_page h vp vf vb B p sz x : slabs None h vp vf -> tied h B -> bigs h vb -> live h p sz -> p <= x < p + sz -> page_at hhdm B x.
Proof.
  intros S T Hb [(ci & [Hu _] & ->)|(b & Eb & ->)] Hx.
  - destruct (slot_bounds hhdm pmm_alloc_page pmm_alloc_pages pmm_free_page pmm_free_pages managed owns h vp vf B ci p S T Hu) as (_ & a & c & Ec & _ & _ & L1 & L2 & _). exists (a - hhdm), 1. split; [by apply (ti_slab _ _ _ _ T a c)|]. unfold PAGE_SIZE. lia.
  - exists (p - 64 - hhdm), (pages b). split; [by apply (ti_big _ _ _ _ T)|]. lia.
Qed.
(** Slots come and go with their place in the per-CPU caches. *)
Lemma keeps_slots (h h' : heap) : (forall ci q, live_slot h' ci q <-> live_slot h ci q) -> (forall x, big_of h' x = big_of h x) -> (forall p sz x, live h p sz -> p <= x < p + sz -> data h' x = data h x) -> dbg_on h' = dbg_on h -> initialized h' = initialized h -> keeps h h'.
Proof.
  intros Hs Hb Hd H1 H2. split; [|done|done|done]. intros p sz. unfold live. rewrite Hb. split; intros [(ci & Hc & Hz)|Hx]; [left; exists ci; split; [by apply Hs|done]|by right|left; exists ci; split; [by apply Hs|done]|by right].
Qed.

(** ** Flush and reclaim *)

Lemma flush_class_ok h c ci : whole h -> 0 <= c < 64 -> 0 <= ci < 4 -> exists l h1 h2, magazine c ci h = Ret l /\ set_magazine c ci [] h = Ret h1 /\ free_batch hhdm pmm_free_page ci l h1 = Ret h2 /\ whole h2 /\ keeps h h2 /\ magazines h2 = magazines h1.
Proof.
  intros (vp & vf & vb & B & S & T & Hb & M) Hc Hci. destruct (magazine_ok h c ci M Hc Hci) as (l & l1 & l2 & El & Epk & Hl & HF & Hset). pose proof (mg_once _ M) as Hn. rewrite Epk in Hn. assert (Hn' : NoDup (l1 ++ [] ++ l2)). { apply NoDup_app in Hn as (N1 & N2 & N3). apply NoDup_app in N3 as (N4 & N5 & N6). cbn [app]. apply NoDup_app. split; [done|]. split; [|done]. intros x Hx Hx2. apply (N2 x Hx). apply elem_of_app. by right. }
  assert (Hnl : NoDup l) by (apply NoDup_app in Hn as (_ & _ & Hn); by apply NoDup_app in Hn as (Hn & _)). assert (Hdis : forall x, x ∈ l1 ++ l2 -> x ∉ l). { apply NoDup_app in Hn as (N1 & N2 & N3). apply NoDup_app in N3 as (N4 & N5 & N6). intros x [Hx|Hx]%elem_of_app Hxl; [apply (N2 x Hx); apply elem_of_app; by left|by apply (N5 x)]. }
  destruct (Hset []) as (h1 & E1 & Eh1 & Epk1 & M1); [cbn; lia|constructor|done|]. assert (S1 : slabs None h1 vp vf) by (rewrite Eh1; destruct S; by split). assert (T1 : tied h1 B) by (rewrite Eh1; destruct T; by split). assert (U1 : forall k q, slot_used h1 k q <-> slot_used h k q) by (rewrite Eh1; done). assert (Hb1 : bigs h1 vb) by (rewrite Eh1; destruct Hb; by split).
  destruct (free_batch_ok ci l h1 vp vf B S1 T1) as (h2 & vp2 & vf2 & B2 & E2 & Ke2 & Da2 & S2 & T2 & U2); [rewrite Eh1; done|done|]. cbn [app] in Epk1. assert (Epk2 : parked h2 = l1 ++ l2) by (unfold parked; rewrite (ke_mag _ _ Ke2); exact Epk1). exists l, h1, h2. do 3 (split; [done|]). split; [|split; [|apply (ke_mag _ _ Ke2)]].
  - exists vp2, vf2, vb, B2. split; [done|]. split; [done|]. split; [by apply (bigs_kept h1)|]. apply (mags_mono h1); [done|by apply (ke_mag _ _ Ke2)|]. intros k q Hq Hu. apply U2. split; [done|]. apply Hdis. by rewrite <- Epk1.
  - apply keeps_slots; [|intros x; rewrite (ke_big _ _ Ke2), Eh1; done|intros p sz x _ _; rewrite Da2, Eh1; done|rewrite (ke_dbg _ _ Ke2), Eh1; done|rewrite (ke_init _ _ Ke2), Eh1; done]. intros k q. unfold live_slot. rewrite U2, U1, Epk2, Epk, !not_elem_of_app. tauto.
Qed.
Lemma flush_classes_ok c : 0 <= c < 64 -> forall cis h, Forall (fun ci => 0 <= ci < 4) cis -> whole h -> exists h', flush_classes hhdm pmm_free_page c cis h = Ret h' /\ whole h' /\ keeps h h'.
Proof.
  intros Hc. induction cis as [|ci cis IH]; intros h HF Hw; cbn [flush_classes]; [exists h; split; [done|]; split; [done|apply heap_keeps_refl]|]. apply Forall_cons in HF as [Hci HF]. destruct (flush_class_ok h c ci Hw Hc Hci) as (l & h1 & h2 & E1 & E2 & E3 & Hw2 & K2 & _). rewrite E1, ret_bind, E2, ret_bind, E3, ret_bind. destruct (IH h2 HF Hw2) as (h3 & E4 & Hw3 & K3). exists h3. split; [done|]. split; [done|]. by apply (heap_keeps_trans _ h2).
Qed.
Lemma flush_all_ok h : whole h -> exists h', heap_pcpu_flush_all hhdm pmm_free_page h = Ret h' /\ whole h' /\ keeps h h'.
Proof.
  unfold heap_pcpu_flush_all. assert (H : forall l h, Forall (fun c => 0 <= c < 64) l -> whole h -> exists h', flush_cpus hhdm pmm_free_page l h = Ret h' /\ whole h' /\ keeps h h').
  { induction l as [|c l IH]; intros h1 HF Hw; cbn [flush_cpus]; [exists h1; split; [done|]; split; [done|apply heap_keeps_refl]|]. apply Forall_cons in HF as [Hc HF]. unfold heap_pcpu_flush_cpu, MAX_CPUS. rewrite Z.geb_leb, (proj2 (Z.leb_gt _ _)) by lia. destruct (flush_classes_ok c Hc (seqZ 0 HEAP_PCPU_CLASSES) h1) as (h2 & E2 & Hw2 & K2); [apply Forall_forall; intros x Hx; apply elem_of_seqZ in Hx; unfold HEAP_PCPU_CLASSES in Hx; lia|done|]. rewrite E2, ret_bind. destruct (IH h2 HF Hw2) as (h3 & E3 & Hw3 & K3). exists h3. split; [done|]. split; [done|]. by apply (heap_keeps_trans _ h2). }
  intros Hw. apply H; [|done]. apply Forall_forall. intros x Hx. apply elem_of_seqZ in Hx. unfold MAX_CPUS in Hx. lia.
Qed.

(** The lists of empty slabs stay empty. *)
Lemma shrink_caches_ok h vp vf l : slabs None h vp vf -> Forall (fun ci => 0 <= ci < 6) l -> shrink_caches hhdm pmm_free_page l h = Ret h.
Proof.
  intros S. induction l as [|ci l IH]; intros HF; cbn [shrink_caches]; [done|]. apply Forall_cons in HF as [Hci HF]. cbn [shrink_cache]. rewrite (head_ok h ci Free _ ltac:(lia) (so_cache _ _ _ _ S ci Hci)), ret_bind. cbn [head_of free]. change (0 =? 0) with true. cbv iota. rewrite ret_bind. by apply IH.
Qed.
Lemma shrink_empty_ok h : whole h -> exists h', heap_shrink_empty hhdm pmm_free_page h = Ret h' /\ whole h' /\ keeps h h'.
Proof.
  intros Hw. unfold heap_shrink_empty. destruct (flush_all_ok h Hw) as (h1 & E1 & Hw1 & K1). rewrite E1, ret_bind. pose proof Hw1 as (vp & vf & vb & B & S & _). rewrite (shrink_caches_ok h1 vp vf _ S); [by exists h1|]. apply Forall_forall. intros x Hx. apply elem_of_seqZ in Hx. unfold CACHE_COUNT in Hx. lia.
Qed.

(** The other hooks give pages back or do nothing; the blocks of the heap stay. *)
Class Reclaimer (f : P -> outcome P) : Prop := reclaims : forall p B, owns p B -> exists p', f p = Ret p' /\ owns p' B.
Lemma hook_ok f h : Reclaimer f -> whole h -> exists p', f (pmm h) = Ret p' /\ whole (set_pmm p' h) /\ keeps h (set_pmm p' h).
Proof.
  intros Hf (vp & vf & vb & B & S & T & Hb & M). destruct (Hf (pmm h) B (ti_owns _ _ _ _ T)) as (p' & E & Ho). exists p'. split; [done|]. split; [|by split]. exists vp, vf, vb, B. split; [destruct S; by split|]. split; [destruct T; by split|]. split; [destruct Hb; by split|]. destruct M. by split.
Qed.
Lemma heap_reclaim_ok f g h : Reclaimer f -> Reclaimer g -> whole h -> exists h', heap_oom_reclaim hhdm pmm_free_page f g h = Ret h' /\ whole h' /\ keeps h h'.
Proof.
  intros Hf Hg Hw. unfold heap_oom_reclaim. destruct (hook_ok f h Hf Hw) as (p1 & E1 & Hw1 & K1). rewrite E1, ret_bind. destruct (shrink_empty_ok _ Hw1) as (h2 & E2 & Hw2 & K2). rewrite E2, ret_bind. destruct (hook_ok g h2 Hg Hw2) as (p3 & E3 & Hw3 & K3). rewrite E3, ret_bind. eexists. split; [done|]. split; [done|]. apply (heap_keeps_trans _ (set_pmm p1 h)); [done|]. by apply (heap_keeps_trans _ h2).
Qed.
End Mag.
End HeapMag.
