(* ===== verification/HeapCalls.v ===== *)
(** HeapCalls: what the calls of the heap do to the objects handed out. *)

From S2P Require Import Prelude Heap HeapSafe HeapSlab HeapMag.
From stdpp Require Import list_relations.
#[local] Open Scope Z_scope.

Module HeapCalls.
Import Heap HeapSafe HeapSlab HeapMag.

Section Calls.
Context {P : Type} (hhdm : Z) (pmm_alloc_page : P -> outcome (Z * P)) (pmm_alloc_pages : Z -> P -> outcome (Z * P)) (pmm_free_page : Z -> P -> outcome P) (pmm_free_pages : Z -> Z -> P -> outcome P) (managed : Z -> bool) (owns : P -> gmap Z Z -> Prop).
Context {Source : PageSource hhdm pmm_alloc_page pmm_alloc_pages pmm_free_page pmm_free_pages managed owns}.
Context (kmem_cache_shrink_all other_reclaim : P -> outcome P) {Shrink : Reclaimer owns kmem_cache_shrink_all} {Other : Reclaimer owns other_reclaim}.
Notation heap := (heap P).
Notation tied := (tied hhdm owns).
Notation whole := (whole hhdm owns).
Notation slab_page := (slab_page hhdm pmm_alloc_page pmm_alloc_pages pmm_free_page pmm_free_pages managed owns).
Notation slot_bounds := (slot_bounds hhdm pmm_alloc_page pmm_alloc_pages pmm_free_page pmm_free_pages managed owns).
Notation src_block := (src_block hhdm pmm_alloc_page pmm_alloc_pages pmm_free_page pmm_free_pages managed owns).
Notation src_hhdm := (src_hhdm hhdm pmm_alloc_page pmm_alloc_pages pmm_free_page pmm_free_pages managed owns).
Notation live_in_page := (live_in_page hhdm pmm_alloc_page pmm_alloc_pages pmm_free_page pmm_free_pages managed owns).

(** The page source has no page, or no block of [n] pages. *)
Definition no_page (h : heap) : Prop := exists p', pmm_alloc_page (pmm h) = Ret (0, p').
Definition no_pages (n : Z) (h : heap) : Prop := exists p', pmm_alloc_pages n (pmm h) = Ret (0, p').

(** An object is handed out, or given back. *)
Record adds (h h' : heap) (p sz : Z) : Prop := mk_adds {
  ad_live : forall q s, live h' q s <-> live h q s \/ q = p /\ s = sz;
  ad_new : forall s, ~ live h p s;
  ad_data : forall q s x, live h q s -> q <= x < q + s -> data h' x = data h x;
  ad_dbg : dbg_on h' = dbg_on h; ad_init : initialized h' = initialized h }.
Record removes (h h' : heap) (p : Z) : Prop := mk_removes {
  rm_live : forall q s, live h' q s <-> live h q s /\ q <> p;
  rm_data : data h' = data h;
  rm_dbg : dbg_on h' = dbg_on h; rm_init : initialized h' = initialized h }.
Lemma keeps_adds h1 h2 h3 p sz : keeps h1 h2 -> adds h2 h3 p sz -> adds h1 h3 p sz.
Proof.
  intros [A1 A2 A3 A4] [B1 B2 B3 B4 B5]. split; [intros q s; by rewrite B1, A1|intros s; rewrite <- A1; apply B2|intros q s x Hl Hx; rewrite (B3 q s x); [by apply (A2 q s)|by apply A1|done]|congruence|congruence].
Qed.

(** A pointer is an object of one kind and size. *)
Lemma slot_not_big h vp vf B ci q b : slabs None h vp vf -> tied h B -> slot_used h ci q -> big_of h (q - 64) = Some b -> False.
Proof.
  intros S T Hq Eb. destruct (slot_bounds h vp vf B ci q S T Hq) as (_ & a & c & Ec & _ & Epg & L1 & L2 & _). destruct (slab_page h B a c T Ec) as (Ha0 & Ham & Hat). destruct (src_block (pmm h) B (q - 64 - hhdm) (pages b) (ti_owns _ _ _ _ T) (ti_big _ _ _ _ T _ _ Eb)) as (Hn & H0 & Hm & Ht & _). destruct src_hhdm as [Hh Hhm]. unfold PAGE_SIZE in *. assert (Hqm : (q - 64) mod 4096 = 0) by (replace (q - 64) with ((q - 64 - hhdm) + hhdm) by lia; rewrite Z.add_mod, Hm, Hhm by lia; done).
  assert (Eq : page_of (q - 64 + 64) = q - 64) by (apply page_of_offset; [done|lia|lia|lia]). replace (q - 64 + 64) with q in Eq by lia. assert (Ea : a = q - 64) by congruence. rewrite Ea in Ec. unfold core_of in Ec. unfold big_of in Eb. revert Ec Eb. destruct (mem h !! (q - 64)) as [[?|?]|]; congruence.
Qed.
Lemma slot_one_class h vp vf B ci ci' q : slabs None h vp vf -> tied h B -> slot_used h ci q -> slot_used h ci' q -> ci = ci'.
Proof.
  intros S T H1 H2. destruct (slot_bounds h vp vf B ci q S T H1) as (_ & a & c & Ec & Hc & Ep & _). destruct (slot_bounds h vp vf B ci' q S T H2) as (_ & a' & c' & Ec' & Hc' & Ep' & _). assert (a = a') as <- by congruence. rewrite Ec in Ec'. injection Ec' as <-. congruence.
Qed.
Lemma live_size h p s s' : whole h -> live h p s -> live h p s' -> s = s'.
Proof.
  intros (vp & vf & vb & B & S & T & _ & _) [(ci & [Hu _] & ->)|(b & Eb & ->)] [(ci' & [Hu' _] & ->)|(b' & Eb' & ->)].
  - by rewrite (slot_one_class h vp vf B ci ci' p).
  - exfalso. by apply (slot_not_big h vp vf B ci p b').
  - exfalso. by apply (slot_not_big h vp vf B ci' p b).
  - congruence.
Qed.

(** ** Slab objects *)

Lemma parked_used (h : heap) q : mags_ok h -> q ∈ parked h -> exists ci, slot_used h ci q.
Proof.
  intros M Hq. unfold parked in Hq. apply list_elem_of_In, in_concat in Hq as (l & Hl & Hq). apply in_concat in Hl as (m & Hm & Hl). apply list_elem_of_In, list_elem_of_lookup_1 in Hm as [c Hm]. apply list_elem_of_In, list_elem_of_lookup_1 in Hl as [k Hl]. destruct (mg_entries _ M c m k l Hm Hl) as [_ HF]. rewrite Forall_forall in HF. exists (Z.of_nat k). apply HF. by apply list_elem_of_In.
Qed.

Lemma alloc_adds h ci : whole h -> 0 <= ci < 6 -> exists r h', slab_alloc_from_cache_locked hhdm pmm_alloc_page ci h = Ret (r, h') /\ whole h' /\ (r = 0 /\ no_page h /\ keeps h h' \/ r <> 0 /\ adds h h' r (osize ci)).
Proof.
  intros (vp & vf & vb & B & S & T & Hb & M) Hci. destruct (alloc_slot_ok hhdm pmm_alloc_page pmm_alloc_pages pmm_free_page pmm_free_pages managed owns h vp vf B ci S T Hci) as (r & h' & vp' & vf' & B' & E & Ke & S' & T' & Da & Hr). exists r, h'. split; [done|]. assert (Hd : forall p sz x, live h p sz -> p <= x < p + sz -> data h' x = data h x) by (intros p sz x Hl Hx; apply Da; by apply (live_in_page h vp vf vb B p sz)). assert (Hpk : parked h' = parked h) by (unfold parked; by rewrite (ke_mag _ _ Ke)).
  assert (Hgrow : forall k q, slot_used h k q -> slot_used h' k q) by (destruct Hr as [(_ & _ & U)|(_ & _ & U)]; intros k q Hu; apply U; [done|by left]). split; [exists vp', vf', vb, B'; split; [done|]; split; [done|]; split; [by apply (bigs_kept h)|]; apply (mags_mono h); [done|apply (ke_mag _ _ Ke)|by intros k q _; apply Hgrow]|].
  destruct Hr as [(-> & Np & U)|(Hr & Hnew & U)]; [left|right]; (split; [done|]).
  - split; [exact Np|]. apply keeps_slots; [|apply (ke_big _ _ Ke)|done|apply (ke_dbg _ _ Ke)|apply (ke_init _ _ Ke)]. intros k q. unfold live_slot. by rewrite U, Hpk.
  - assert (Hrp : r ∉ parked h) by (intros Hx; destruct (parked_used h r M Hx) as [k Hk]; by apply (Hnew k)). split; [| |done|apply (ke_dbg _ _ Ke)|apply (ke_init _ _ Ke)].
    + intros q s. unfold live. rewrite (ke_big _ _ Ke). unfold live_slot. rewrite Hpk. split.
      * intros [(k & [Hu Hp] & Hs)|Hx]; [|left; by right]. apply U in Hu as [Hu|[-> ->]]; [left; left; by exists k|by right].
      * intros [[(k & [Hu Hp] & Hs)|Hx]|[-> ->]]; [left; exists k; split; [split; [apply U; by left|done]|done]|by right|left; exists ci; split; [split; [apply U; by right|done]|done]].
    + intros s [(k & [Hu _] & _)|(b & Eb & _)]; [by apply (Hnew k)|]. apply (slot_not_big h' vp' vf' B' ci r b S' T'); [apply U; by right|by rewrite (ke_big _ _ Ke)].
Qed.

Lemma slow_ok h ci : whole h -> 0 <= ci < 6 -> exists r h', heap_slab_slow hhdm pmm_alloc_page pmm_free_page kmem_cache_shrink_all other_reclaim ci h = Ret (r, h') /\ whole h' /\ (r = 0 /\ no_page h /\ keeps h h' \/ r <> 0 /\ adds h h' r (osize ci)).
Proof.
  intros Hw Hci. unfold heap_slab_slow. destruct (alloc_adds h ci Hw Hci) as (r & h1 & E1 & Hw1 & [(-> & Np & K1)|[Hr A1]]); rewrite E1, ret_bind.
  - change (nz 0) with false. cbv iota. destruct (heap_reclaim_ok hhdm pmm_alloc_page pmm_alloc_pages pmm_free_page pmm_free_pages managed owns kmem_cache_shrink_all other_reclaim h1 Shrink Other Hw1) as (h2 & E2 & Hw2 & K2). rewrite E2, ret_bind. destruct (alloc_adds h2 ci Hw2 Hci) as (r & h3 & E3 & Hw3 & H3). exists r, h3. split; [done|]. split; [done|]. pose proof (heap_keeps_trans _ _ _ K1 K2) as K. destruct H3 as [(-> & _ & K3)|[Hr A3]]; [left; split; [done|split; [done|by apply (heap_keeps_trans _ h2)]]|right; split; [done|by apply (keeps_adds _ h2)]].
  - unfold nz. rewrite (proj2 (Z.eqb_neq r 0) Hr). cbn [negb]. exists r, h1. split; [done|]. split; [done|]. by right.
Qed.

Lemma index_ok size : 0 < size -> size <= 1024 -> 0 <= heap_cache_index size < 6 /\ size <= osize (heap_cache_index size).
Proof.
  intros H0 H1. unfold heap_cache_index. destruct (size <=? 32) eqn:E; reify_bools; [split; [lia|]; change (osize 0) with 32; lia|]. rewrite Z.gtb_ltb, (proj2 (Z.ltb_ge _ _)) by lia. rewrite u32_id by lia. assert (Hl : 5 <= Z.log2 (size - 1) < 10) by (split; [apply Z.log2_le_pow2; lia|apply Z.log2_lt_pow2; lia]). split; [lia|]. unfold osize. replace (Z.log2 (size - 1) - 4 + 5) with (Z.succ (Z.log2 (size - 1))) by lia. pose proof (Z.log2_spec (size - 1) ltac:(lia)). lia.
Qed.
Definition valid_env (e : env) : Prop := match cpu e with Some c => 0 <= c | None => True end.
Lemma usable_range e c : valid_env e -> usable_cpu e = Some c -> 0 <= c < 64.
Proof. unfold valid_env, usable_cpu, MAX_CPUS. destruct (cpu e) as [k|]; [|done]. intros Hk. destruct ((k <? 64) && negb (pcpu_locked e)) eqn:E; [|done]. intros [= <-]. apply andb_true_iff in E as [E _]. reify_bools. lia. Qed.

Lemma set_mag_frame (h : heap) ms : forall vp vf vb B, slabs None h vp vf -> tied h B -> bigs h vb -> slabs None (set_magazines ms h) vp vf /\ tied (set_magazines ms h) B /\ bigs (set_magazines ms h) vb.
Proof. intros vp vf vb B S T Hb. split; [destruct S; by split|]. split; [destruct T; by split|destruct Hb; by split]. Qed.

Lemma slab_alloc_call e size h : whole h -> valid_env e -> 0 < size <= 1024 -> exists r h', heap_slab_alloc hhdm pmm_alloc_page pmm_free_page kmem_cache_shrink_all other_reclaim e size h = Ret (r, h') /\ whole h' /\ (r = 0 /\ no_page h /\ keeps h h' \/ r <> 0 /\ adds h h' r (osize (heap_cache_index size))).
Proof.
  intros Hw He Hs. destruct (index_ok size ltac:(lia) ltac:(lia)) as [Hci _]. unfold heap_slab_alloc. cbv zeta. set (ci := heap_cache_index size) in *. rewrite (proj2 (Z.ltb_ge _ _)) by lia. destruct (if (ci <? HEAP_PCPU_CLASSES) && initialized h then usable_cpu e else None) as [c|] eqn:Ec; [|by apply slow_ok]. assert (Hc4 : 0 <= ci < 4 /\ usable_cpu e = Some c) by (destruct ((ci <? HEAP_PCPU_CLASSES) && initialized h) eqn:E4; [|done]; apply andb_true_iff in E4 as [E4 _]; unfold HEAP_PCPU_CLASSES in E4; reify_bools; split; [lia|done]). destruct Hc4 as [Hc4 Hu]. pose proof (usable_range e c He Hu) as Hc.
  pose proof Hw as (vp & vf & vb & B & S & T & Hb & M). destruct (magazine_ok h c ci M Hc Hc4) as (l & l1 & l2 & El & Epk & Hl & HF & Hset). rewrite El, ret_bind. destruct l as [|obj l0 _] using rev_ind; [cbn [length lookup list_lookup]; by apply slow_ok|]. rewrite length_app. cbn [length]. replace (length l0 + 1 - 1)%nat with (length l0) by lia. rewrite lookup_app_r, Nat.sub_diag by lia. cbn [lookup list_lookup]. rewrite take_app_length. apply Forall_app in HF as [HF0 HF1]. apply Forall_cons in HF1 as [Hobj _]. pose proof (mg_once _ M) as Hn. rewrite Epk in Hn. rewrite length_app in Hl. cbn in Hl.
  assert (Hperm : NoDup (obj :: l1 ++ l0 ++ l2)) by (eapply NoDup_Permutation_proper in Hn; [exact Hn|]; solve_Permutation). apply NoDup_cons in Hperm as [Hnew Hn0]. destruct (Hset l0) as (h' & E' & Eh' & Epk' & M'); [lia|done|done|]. rewrite E', ret_bind. exists obj, h'. split; [done|]. destruct (set_mag_frame h (magazines h') vp vf vb B S T Hb) as (S' & T' & Hb'). rewrite <- Eh' in S', T', Hb'. split; [exists vp, vf, vb, B; done|]. right. destruct (slot_bounds h vp vf B ci obj S T Hobj) as (_ & a & cc & Ecc & _ & _ & L1 & _). destruct (slab_page h B a cc T Ecc) as (Ha0 & _). split; [lia|].
  assert (Hmem : forall q, q ∈ parked h <-> q = obj \/ q ∈ parked h') by (intros q; rewrite Epk, Epk', !elem_of_app, list_elem_of_singleton; tauto). assert (Hno : obj ∉ parked h') by (by rewrite Epk'). split; [| |by rewrite Eh'|by rewrite Eh'|by rewrite Eh'].
  - intros q s. unfold live. assert (big_of h' = big_of h) as -> by (by rewrite Eh'). unfold live_slot. assert (U : forall k x, slot_used h' k x <-> slot_used h k x) by (rewrite Eh'; done). split.
    + intros [(k & [Hk Hq] & Hs')|Hx]; [|left; by right]. apply U in Hk. destruct (decide (q = obj)) as [->|Hne]; [right; split; [done|]; rewrite (slot_one_class h vp vf B k ci obj) in Hs' by done; done|]. left. left. exists k. split; [|done]. split; [done|]. rewrite Hmem. tauto.
    + intros [[(k & [Hk Hq] & Hs')|Hx]|[-> ->]]; [left; exists k; split; [|done]; split; [by apply U|rewrite Hmem in Hq; tauto]|by right|left; exists ci; split; [|done]; split; [by apply U|done]].
  - intros s [(k & [_ Hq] & _)|(b & Eb & _)]; [apply Hq, Hmem; by left|]. by apply (slot_not_big h vp vf B ci obj b).
Qed.

(** An object leaves the used slots. *)
Lemma free_removes h ci q : whole h -> live_slot h ci q -> exists h', slab_free_to_cache_locked hhdm pmm_free_page ci (page_of q) q h = Ret h' /\ whole h' /\ removes h h' q.
Proof.
  intros (vp & vf & vb & B & S & T & Hb & M) [Hu Hp]. destruct (free_slot_ok hhdm pmm_alloc_page pmm_alloc_pages pmm_free_page pmm_free_pages managed owns h vp vf B ci q S T Hu) as (h' & vp' & vf' & B' & E & Ke & Da & S' & T' & U). assert (Hpk : parked h' = parked h) by (unfold parked; by rewrite (ke_mag _ _ Ke)). exists h'. split; [done|]. split.
  - exists vp', vf', vb, B'. do 2 (split; [done|]). split; [by apply (bigs_kept h)|]. apply (mags_mono h); [done|apply (ke_mag _ _ Ke)|]. intros k x Hx Hk. apply U. split; [done|]. by intros ->.
  - split; [|done|apply (ke_dbg _ _ Ke)|apply (ke_init _ _ Ke)]. intros x s. unfold live, live_slot. rewrite (ke_big _ _ Ke), Hpk. split.
    + intros [(k & [Hk Hx] & Hs)|(b & Eb & Hs)]; [apply U in Hk as [Hk Hne]; split; [left; by exists k|done]|]. split; [right; by exists b|]. intros ->. by apply (slot_not_big h vp vf B ci q b).
    + intros [[(k & [Hk Hx] & Hs)|Hx] Hne]; [left; exists k; split; [split; [by apply U|done]|done]|by right].
Qed.
(** An object goes to a per-CPU cache. *)
Lemma park_removes h c ci q : whole h -> 0 <= c < 64 -> 0 <= ci < 4 -> live_slot h ci q -> exists h', park hhdm pmm_free_page c ci q h = Ret h' /\ whole h' /\ removes h h' q.
Proof.
  intros (vp & vf & vb & B & S & T & Hb & M) Hc Hci [Hu Hp]. destruct (magazine_ok h c ci M Hc Hci) as (l & l1 & l2 & El & Epk & Hl & HF & Hset). unfold park. rewrite El, ret_bind. assert (Hql : q ∉ l) by (intros Hx; apply Hp; rewrite Epk; apply elem_of_app; right; apply elem_of_app; by left). rewrite bool_decide_eq_false_2 by done. rewrite andb_false_r. pose proof (mg_once _ M) as Hn. rewrite Epk in Hn, Hp.
  assert (Hgo : forall l0 ld, l = l0 ++ ld -> (length l0 < 8)%nat -> exists h1 h', set_magazine c ci (l0 ++ [q]) h = Ret h1 /\ free_batch hhdm pmm_free_page ci (rev ld) h1 = Ret h' /\ whole h' /\ removes h h' q).
  { intros l0 ld -> Hlen. apply Forall_app in HF as [HF0 HFd]. assert (Hall : NoDup (q :: ld ++ l1 ++ l0 ++ l2)) by (apply NoDup_cons; split; [intros Hx; apply Hp; rewrite !elem_of_app in *; tauto|]; eapply NoDup_Permutation_proper in Hn; [exact Hn|]; solve_Permutation). apply NoDup_cons in Hall as [Hq Hall]. apply NoDup_app in Hall as (Nd & Ndis & Nrest).
    destruct (Hset (l0 ++ [q])) as (h1 & E1 & Eh1 & Epk1 & M1); [rewrite length_app; cbn; lia|apply Forall_app; split; [done|by constructor]|assert (Hp1 : NoDup (q :: l1 ++ l0 ++ l2)) by (apply NoDup_cons; split; [intros Hx; apply Hq; apply elem_of_app; by right|done]); eapply NoDup_Permutation_proper in Hp1; [exact Hp1|]; solve_Permutation|].
    destruct (set_mag_frame h (magazines h1) vp vf vb B S T Hb) as (S1 & T1 & Hb1). rewrite <- Eh1 in S1, T1, Hb1. assert (U1 : forall k x, slot_used h1 k x <-> slot_used h k x) by (rewrite Eh1; done). destruct (free_batch_ok hhdm pmm_alloc_page pmm_alloc_pages pmm_free_page pmm_free_pages managed owns ci (rev ld) h1 vp vf B S1 T1) as (h2 & vp2 & vf2 & B2 & E2 & Ke2 & Da2 & S2 & T2 & U2).
    { apply Forall_forall. intros x Hx. apply U1. rewrite Forall_forall in HFd. apply HFd. apply list_elem_of_In. apply in_rev. by apply list_elem_of_In. }
    { apply NoDup_ListNoDup, NoDup_rev, NoDup_ListNoDup. done. }
    assert (Hrev : forall x, x ∈ rev ld <-> x ∈ ld) by (intros x; by rewrite !list_elem_of_In, <- in_rev). exists h1, h2. do 2 (split; [done|]). assert (Epk2 : parked h2 = l1 ++ (l0 ++ [q]) ++ l2) by (unfold parked; rewrite (ke_mag _ _ Ke2); exact Epk1). split.
    - exists vp2, vf2, vb, B2. do 2 (split; [done|]). split; [by apply (bigs_kept h1)|]. apply (mags_mono h1); [done|apply (ke_mag _ _ Ke2)|]. intros k x Hx Hk. apply U2. split; [done|]. rewrite Hrev. intros Hxd. rewrite Epk1 in Hx. rewrite !elem_of_app, list_elem_of_singleton in Hx. assert (x <> q) by (intros ->; apply Hq; apply elem_of_app; by left). apply (Ndis x Hxd). rewrite !elem_of_app. tauto.
    - split; [|rewrite Da2, Eh1; done|rewrite (ke_dbg _ _ Ke2), Eh1; done|rewrite (ke_init _ _ Ke2), Eh1; done]. intros x s. unfold live, live_slot. rewrite (ke_big _ _ Ke2). assert (big_of h1 x = big_of h x /\ big_of h1 (x - 64) = big_of h (x - 64)) as [_ ->] by (rewrite Eh1; done). split.
      + intros [(k & [Hk Hx] & Hs)|(b & Eb & Hs)].
        * apply U2 in Hk as [Hk Hxd]. apply U1 in Hk. rewrite Epk2 in Hx. rewrite !elem_of_app, list_elem_of_singleton in Hx. rewrite Hrev in Hxd. split; [|tauto]. left. exists k. split; [|done]. split; [done|]. rewrite Epk, !elem_of_app. tauto.
        * split; [right; by exists b|]. intros ->. by apply (slot_not_big h vp vf B ci q b).
      + intros [[(k & [Hk Hx] & Hs)|Hx] Hne]; [|by right]. left. exists k. split; [|done]. rewrite Epk, !elem_of_app in Hx. split; [apply U2; rewrite Hrev; split; [by apply U1|tauto]|]. rewrite Epk2, !elem_of_app, list_elem_of_singleton. tauto. }
  destruct (Z.of_nat (length l) <? HEAP_PCPU_CAPACITY) eqn:Elen; unfold HEAP_PCPU_CAPACITY in Elen; reify_bools.
  - destruct (Hgo l []) as (h1 & h' & E1 & E2 & H); [by rewrite app_nil_r|lia|]. cbn in E2. injection E2 as <-. exists h1. done.
  - destruct (Hgo (take (length l - HEAP_PCPU_BATCH) l) (drop (length l - HEAP_PCPU_BATCH) l)) as (h1 & h' & E1 & E2 & H); [by rewrite take_drop|rewrite length_take; unfold HEAP_PCPU_BATCH; lia|]. rewrite E1, ret_bind. by exists h'.
Qed.

Lemma slab_free_call e ci q h : whole h -> valid_env e -> live_slot h ci q -> exists h', heap_slab_free hhdm pmm_free_page e q (page_of q) h = Ret (true, h') /\ whole h' /\ removes h h' q.
Proof.
  intros Hw He Hl. pose proof Hw as (vp & vf & vb & B & S & T & Hb & M). pose proof Hl as [Hu Hp]. destruct (slot_bounds h vp vf B ci q S T Hu) as (Hci & a & c & Ec & Hc & Epg & L1 & L2 & _). pose proof Hu as (a' & i & c' & Ec' & Hc' & Hi & Hbit & Eq). destruct (slab_page h B a c T Ec) as (Ha0 & Ham & Hat). destruct (slab_page h B a' c' T Ec') as (_ & Ham' & _). pose proof (class_facts ci Hci) as (O1 & O2 & O3).
  assert (Ea : a' = a) by (pose proof (Z.div_mod a 4096 ltac:(lia)); pose proof (Z.div_mod a' 4096 ltac:(lia)); nia). subst a'. rewrite Epg. destruct (core_slab h a c Ec) as (s & Es & Hs). unfold heap_slab_free. rewrite (slab_at_ok h a s Es), ret_bind. assert (Ecs : cache s = ci) by (rewrite <- Hc, <- Hs; done). rewrite Ecs. cbv zeta. unfold CACHE_COUNT. rewrite (proj2 (Z.ltb_ge _ _)), Z.geb_leb, (proj2 (Z.leb_gt _ _)) by lia. cbn [orb]. unfold arr_get. rewrite (proj2 (Z.ltb_ge ci 0)), (so_cache _ _ _ _ S ci Hci) by lia. cbn [deref]. rewrite ret_bind. cbn [obj_size].
  destruct (free_removes h ci q Hw Hl) as (hs & Es' & Hws & Hrs). rewrite Epg in Es'. rewrite Es', ret_bind. destruct ((ci <? HEAP_PCPU_CLASSES) && initialized h) eqn:Ef; [|by exists hs]. apply andb_true_iff in Ef as [Ef _]. unfold HEAP_PCPU_CLASSES in Ef. reify_bools. unfold SIZEOF_SLAB. rewrite (u64_id (a + 64)) by lia. rewrite (proj2 (Z.ltb_ge _ _)) by lia. replace (q - (a + 64)) with (i * osize ci) by lia. destruct (offset_ok ci i Hci Hi) as [-> ->].
  destruct (slabs_cache h vp vf a c S Ec) as (_ & _ & K). assert (Et : total_count s = objs ci) by (rewrite <- Hc, <- (sl_total _ _ _ _ K), <- Hs; done). rewrite Et, Z.geb_leb, (proj2 (Z.leb_gt _ _)) by lia. destruct (usable_cpu e) as [k|] eqn:Eu; [|by exists hs]. destruct (park_removes h k ci q Hw (usable_range e k He Eu) ltac:(lia) Hl) as (h' & E' & H'). rewrite E', ret_bind. by exists h'.
Qed.

(** ** Big allocations *)

(** A change of the big allocations only. *)
Record bigger (h h' : heap) : Prop := mk_bigger { bg_caches : caches h' = caches h; bg_mag : magazines h' = magazines h; bg_dbg : dbg_on h' = dbg_on h; bg_init : initialized h' = initialized h; bg_data : data h' = data h; bg_core : forall x, core_of h' x = core_of h x; bg_link : forall x, link_of h' x = link_of h x }.
Lemma bigger_trans h1 h2 h3 : bigger h1 h2 -> bigger h2 h3 -> bigger h1 h3.
Proof. intros [] []. split; congruence. Qed.
Lemma bigger_slabs h h' vp vf : bigger h h' -> slabs None h vp vf -> slabs None h' vp vf.
Proof.
  intros [G1 _ _ _ _ G5 G6] [S1 S2 S3 S4 S5 S6 S7]. split; rewrite ?G1; [done|done|intros ci Hci; apply (listed_ext h); [intros x _; apply G6|by apply S3]|intros ci Hci; apply (listed_ext h); [intros x _; apply G6|by apply S4]|intros ci a; rewrite G5; apply S5|intros ci a; rewrite G5; apply S6|intros a c; rewrite G5; apply S7].
Qed.
Lemma bigger_slots h h' : bigger h h' -> forall k q, slot_used h' k q <-> slot_used h k q.
Proof. intros G k q. unfold slot_used. split; intros (a & i & c & Ec & H); exists a, i, c; [rewrite (bg_core _ _ G) in Ec|rewrite (bg_core _ _ G)]; done. Qed.
Lemma bigger_mags h h' : bigger h h' -> mags_ok h -> mags_ok h'.
Proof. intros G M. apply (mags_mono h); [done|apply (bg_mag _ _ G)|]. intros k q _. by apply bigger_slots. Qed.
Lemma bigger_live h h' : bigger h h' -> forall k q, live_slot h' k q <-> live_slot h k q.
Proof. intros G k q. unfold live_slot, parked. by rewrite (bigger_slots h h' G), (bg_mag _ _ G). Qed.

Lemma set_blink_ok (h : heap) a b b' : big_of h a = Some b -> let h' := put_big a b' h in bigger h h' /\ (forall x, big_of h' x = if decide (x = a) then Some b' else big_of h x) /\ big_head h' = big_head h /\ pmm h' = pmm h.
Proof.
  intros Eb. cbv zeta. assert (Em : exists b0, mem h !! a = Some (Big b0)) by (revert Eb; unfold big_of; destruct (mem h !! a) as [[?|b0]|]; [done|intros _; by exists b0|done]). destruct Em as [b0 Em]. split; [|split; [|done]].
  - split; try done; intros x; unfold core_of, link_of; cbn; (destruct (decide (x = a)) as [->|]; [by rewrite lookup_insert_eq, Em|by rewrite lookup_insert_ne]).
  - intros x. unfold big_of. cbn. destruct (decide (x = a)) as [->|]; [by rewrite lookup_insert_eq|by rewrite lookup_insert_ne].
Qed.
Lemma big_at_ok (h : heap) a b : big_of h a = Some b -> big_at h a = Ret b.
Proof. unfold big_of, big_at. destruct (mem h !! a) as [[?|b0]|]; [done|by intros [= <-]|done]. Qed.

Definition big_pages (size : Z) : Z := u64 (u64 (size + SIZEOF_BIG) + PAGE_SIZE - 1) / PAGE_SIZE.
Lemma link_big h vp vf vb B f n p' : slabs None h vp vf -> tied h B -> bigs h vb -> mags_ok h -> f <> 0 -> clear_of B f n -> owns p' (<[f := n]> B) ->
  exists h', (let b := u64 (f + hhdm) in let h := put_big b (mk_big BIG_MAGIC n (big_head h) 0) (set_pmm p' h) in h ← (if nz (big_head h) then set_bprev (big_head h) b h else Ret h); Ret (b + SIZEOF_BIG, set_big_head b h)) = Ret (f + hhdm + 64, h') /\ whole h' /\ adds h h' (f + hhdm + 64) (n * PAGE_SIZE - 64).
Proof.
  intros S T Hb M Hf Hclear Ho. destruct (src_block p' (<[f := n]> B) f n Ho (lookup_insert_eq _ _ _)) as (Hn & Hf0 & Hfm & Hft & _). destruct src_hhdm as [Hh Hhm]. unfold PAGE_SIZE in *. cbv zeta. rewrite (u64_id (f + hhdm)) by lia. set (a := f + hhdm) in *.
  assert (Emem : mem h !! a = None). { destruct (mem h !! a) as [[s0|b0]|] eqn:Em; [| |done]; exfalso.
    - assert (Eb : B !! (a - hhdm) = Some 1) by (apply (ti_slab _ _ _ _ T a (strip s0)); unfold core_of; by rewrite Em). destruct (Hclear _ _ Eb) as [?|?]; unfold PAGE_SIZE in *; lia.
    - assert (Eb : B !! (a - hhdm) = Some (pages b0)) by (apply (ti_big _ _ _ _ T a b0); unfold big_of; by rewrite Em). destruct (src_block (pmm h) B _ _ (ti_owns _ _ _ _ T) Eb) as (Hp & _). destruct (Hclear _ _ Eb) as [?|?]; unfold PAGE_SIZE in *; lia. }
  set (nb := mk_big BIG_MAGIC n (big_head h) 0). set (h2 := put_big a nb (set_pmm p' h)). assert (G2 : bigger h h2) by (split; try done; intros x; unfold core_of, link_of; cbn; (destruct (decide (x = a)) as [->|]; [by rewrite lookup_insert_eq, Emem|by rewrite lookup_insert_ne])). assert (F2 : forall x, big_of h2 x = if decide (x = a) then Some nb else big_of h x) by (intros x; unfold big_of; cbn; destruct (decide (x = a)) as [->|]; [by rewrite lookup_insert_eq|by rewrite lookup_insert_ne]).
  destruct Hb as [B1 (B2 & B3 & B4) B5]. assert (Hav : a ∉ vb). { intros Hx. apply list_elem_of_split in Hx as (l1 & l2 & ->). apply dseg_app in B2 as [_ [E _]]. unfold blink_of, big_of in E. rewrite Emem in E. done. }
  assert (S3 : exists h3, (if nz (big_head h2) then set_bprev (big_head h2) a h2 else Ret h2) = Ret h3 /\ bigger h2 h3 /\ pmm h3 = p' /\ dseg (blink_of h3) a vb 0 /\ blink_of h3 a = Some (hd 0 vb, 0) /\ (forall x, match big_of h3 x with Some b => Some (bmagic b, pages b) | None => None end = match big_of h2 x with Some b => Some (bmagic b, pages b) | None => None end)).
  { change (big_head h2) with (big_head h). rewrite B1. assert (Hst : forall x, x ∈ vb -> blink_of h2 x = blink_of h x) by (intros x Hx; unfold blink_of; rewrite F2, decide_False by (by intros ->); done). destruct vb as [|d l].
    - cbn [hd]. change (nz 0) with false. cbv iota. exists h2. split; [done|]. split; [by split|]. split; [done|]. split; [done|]. split; [|done]. unfold blink_of. rewrite F2, decide_True by done. cbn. by rewrite B1.
    - cbn [hd]. assert (Hd0 : d <> 0) by (intros ->; apply B4; left). unfold nz. rewrite (proj2 (Z.eqb_neq d 0) Hd0). cbn [negb]. assert (Hda : d <> a) by (intros ->; apply Hav; left). pose proof B2 as [Ed _]. cbn in Ed. destruct (big_of h d) as [bd|] eqn:Ebd; [|unfold blink_of in Ed; by rewrite Ebd in Ed]. assert (Ebd2 : big_of h2 d = Some bd) by (by rewrite F2, decide_False). unfold set_bprev. rewrite (big_at_ok h2 d bd Ebd2), ret_bind. destruct (set_blink_ok h2 d bd (mk_big (bmagic bd) (pages bd) (bnext bd) a) Ebd2) as (G3 & F3 & H3 & P3). eexists. split; [reflexivity|]. split; [done|]. split; [done|]. apply NoDup_cons in B3 as [Nd N3]. split; [|split].
      + apply (dseg_start (blink_of h) _ d l 0); [done| | |done].
        * intros x Hx. unfold blink_of. rewrite F3, decide_False by (by intros ->). rewrite F2, decide_False; [done|]. intros ->. apply Hav. by right.
        * intros n0 q0 E0. unfold blink_of in *. rewrite F3, decide_True by done. rewrite Ebd in E0. cbn. by injection E0 as -> _.
      + unfold blink_of. rewrite F3, decide_False by done. rewrite F2, decide_True by done. cbn. by rewrite B1.
      + intros x. rewrite F3. destruct (decide (x = d)) as [->|]; [by rewrite Ebd2|done]. }
  destruct S3 as (h3 & E3 & G3 & P3 & D3 & La & F3). rewrite E3, ret_bind. set (h4 := set_big_head a h3). assert (G4 : bigger h h4) by (apply (bigger_trans _ h2); [done|]; destruct G3; by split). assert (F4 : forall x, match big_of h4 x with Some b => Some (bmagic b, pages b) | None => None end = if decide (x = a) then Some (BIG_MAGIC, n) else match big_of h x with Some b => Some (bmagic b, pages b) | None => None end) by (intros x; change (big_of h4 x) with (big_of h3 x); rewrite F3, F2; by destruct (decide (x = a))).
  exists h4. split; [done|]. split.
  - exists vp, vf, (a :: vb), (<[f := n]> B). split; [by apply (bigger_slabs h)|]. split; [|split; [|by apply (bigger_mags h)]].
    + destruct T as [T1 T2 T3 T4]. split; [change (pmm h4) with (pmm h3); by rewrite P3| | |].
      * intros x c Ec. rewrite (bg_core _ _ G4) in Ec. rewrite lookup_insert_ne; [by apply (T2 x c)|]. intros Hx. assert (x = a) as -> by lia. unfold core_of in Ec. by rewrite Emem in Ec.
      * intros x b Eb. specialize (F4 x). rewrite Eb in F4. destruct (decide (x = a)) as [->|Hne]; [injection F4 as _ ->; replace (a - hhdm) with f by lia; apply lookup_insert_eq|]. rewrite lookup_insert_ne by lia. destruct (big_of h x) as [b0|] eqn:Eb0; [|done]. injection F4 as _ ->. by apply T3.
      * intros x k Ex. destruct (decide (x = f)) as [->|Hne].
        -- specialize (F4 (f + hhdm)). rewrite decide_True in F4 by done. unfold big_of in F4. destruct (mem h4 !! (f + hhdm)); [by eexists|done].
        -- rewrite lookup_insert_ne in Ex by done. destruct (T4 x k Ex) as [hd0 Ehd]. specialize (F4 (x + hhdm)). rewrite decide_False in F4 by lia. pose proof (bg_core _ _ G4 (x + hhdm)) as F5. unfold big_of in F4. unfold core_of in F5. rewrite Ehd in F4, F5. destruct (mem h4 !! (x + hhdm)); [by eexists|]. by destruct hd0.
    + split; [done|split; [|split; [by apply NoDup_cons|apply not_elem_of_cons; split; [lia|done]]]|].
      * split; [exact La|exact D3].
      * intros x b Eb. specialize (F4 x). rewrite Eb in F4. destruct (decide (x = a)) as [->|Hne]; [injection F4 as -> _; split; [left|done]|]. destruct (big_of h x) as [b0|] eqn:Eb0; [|done]. injection F4 as -> _. destruct (B5 x b0 Eb0) as [Hx Hmg]. split; [by right|done].
  - assert (Hlv : forall q s, (exists b, big_of h4 (q - 64) = Some b /\ s = pages b * 4096 - 64) <-> (exists b, big_of h (q - 64) = Some b /\ s = pages b * 4096 - 64) \/ q = a + 64 /\ s = n * 4096 - 64).
    { intros q s. specialize (F4 (q - 64)). split.
      - intros (b & Eb & ->). rewrite Eb in F4. destruct (decide (q - 64 = a)); [injection F4 as _ ->; right; split; [lia|done]|]. left. destruct (big_of h (q - 64)) as [b0|] eqn:Eb0; [|done]. injection F4 as _ ->. by exists b0.
      - intros [(b & Eb & ->)|[-> ->]].
        + rewrite Eb in F4. destruct (decide (q - 64 = a)) as [Hx|]; [rewrite Hx in Eb; unfold big_of in Eb; by rewrite Emem in Eb|]. destruct (big_of h4 (q - 64)) as [b4|]; [|done]. injection F4 as _ E4. exists b4. by rewrite E4.
        + rewrite decide_True in F4 by lia. destruct (big_of h4 (a + 64 - 64)) as [b4|]; [|done]. injection F4 as _ E4. exists b4. by rewrite E4. }
    split; [| |intros q s x _ _; by rewrite (bg_data _ _ G4)|apply (bg_dbg _ _ G4)|apply (bg_init _ _ G4)].
    + intros q s. unfold live, PAGE_SIZE. rewrite Hlv. split; [intros [(k & Hk & Hs)|[H|H]]; [left; left; exists k; split; [by apply (bigger_live h h4 G4)|done]|left; by right|by right]|intros [[(k & Hk & Hs)|H]|H]; [left; exists k; split; [by apply (bigger_live h h4 G4)|done]|right; by left|right; by right]].
    + intros s [(k & [Hk _] & _)|(b & Eb & _)].
      * destruct (slot_bounds h vp vf B k _ S T Hk) as (_ & a' & c & Ec & _ & Epg & L1 & L2 & _). rewrite page_of_offset in Epg; [|subst a; rewrite Z.add_mod, Hfm, Hhm by lia; done|lia|lia|lia]. subst a'. unfold core_of in Ec. by rewrite Emem in Ec.
      * replace (a + 64 - 64) with a in Eb by lia. unfold big_of in Eb. by rewrite Emem in Eb.
Qed.

Lemma big_pages_range size : 0 <= big_pages size < 2 ^ 52.
Proof. unfold big_pages, PAGE_SIZE, u64. set (x := (_ + 4096 - 1) mod 2 ^ 64). assert (0 <= x < 2 ^ 64) by (apply Z.mod_pos_bound; lia). split; [apply Z.div_pos; lia|apply Z.div_lt_upper_bound; lia]. Qed.
Notation big_alloc_fn := (heap_big_alloc hhdm pmm_alloc_pages pmm_free_page kmem_cache_shrink_all other_reclaim).
Lemma big_alloc_call size h : whole h -> exists r h', big_alloc_fn size h = Ret (r, h') /\ whole h' /\ (r = 0 /\ no_pages (big_pages size) h /\ keeps h h' \/ r <> 0 /\ adds h h' r (big_pages size * PAGE_SIZE - 64)).
Proof.
  intros Hw. unfold heap_big_alloc. cbv zeta. fold (big_pages size). pose proof (big_pages_range size) as Hn.
  assert (Htry : forall h1, whole h1 -> exists f p', pmm_alloc_pages (big_pages size) (pmm h1) = Ret (f, p') /\ (f = 0 /\ whole (set_pmm p' h1) /\ keeps h1 (set_pmm p' h1) \/ f <> 0 /\ exists r h', (let b := u64 (f + hhdm) in let h := put_big b (mk_big BIG_MAGIC (big_pages size) (big_head h1) 0) (set_pmm p' h1) in h ← (if nz (big_head h) then set_bprev (big_head h) b h else Ret h); Ret (b + SIZEOF_BIG, set_big_head b h)) = Ret (r, h') /\ r <> 0 /\ whole h' /\ adds h1 h' r (big_pages size * PAGE_SIZE - 64))).
  { intros h1 (vp & vf & vb & B & S & T & Hb & M). destruct (src_pages hhdm pmm_alloc_page pmm_alloc_pages pmm_free_page pmm_free_pages managed owns (pmm h1) B (big_pages size) (ti_owns _ _ _ _ T) Hn) as (f & p' & E & Hf). exists f, p'. split; [done|]. destruct Hf as [[-> Ho]|(Hf & Hclear & Ho)].
    - left. split; [done|]. split; [|by split]. exists vp, vf, vb, B. split; [destruct S; by split|]. split; [destruct T; by split|]. split; [destruct Hb; by split|]. destruct M. by split.
    - right. split; [done|]. destruct (link_big h1 vp vf vb B f (big_pages size) p' S T Hb M Hf Hclear Ho) as (h' & E' & Hw' & A'). exists (f + hhdm + 64), h'. split; [exact E'|]. split; [|done]. destruct (src_block p' (<[f := big_pages size]> B) f (big_pages size) Ho (lookup_insert_eq _ _ _)) as (_ & Hf0 & _). destruct src_hhdm. lia. }
  destruct (Htry h Hw) as (f & p' & E & [(-> & Hw1 & K1)|(Hf & r & h' & E' & Hr & Hw' & A')]); rewrite E, ret_bind.
  - cbn [Z.eqb]. destruct (heap_reclaim_ok hhdm pmm_alloc_page pmm_alloc_pages pmm_free_page pmm_free_pages managed owns kmem_cache_shrink_all other_reclaim _ Shrink Other Hw1) as (h2 & E2 & Hw2 & K2). rewrite E2, ret_bind. destruct (Htry h2 Hw2) as (f & p2 & E3 & [(-> & Hw3 & K3)|(Hf & r & h' & E' & Hr & Hw' & A')]); rewrite E3, !ret_bind.
    + cbn [Z.eqb]. eexists 0, _. split; [done|]. split; [done|]. left. split; [done|]. split; [by exists p'|]. apply (heap_keeps_trans _ (set_pmm p' h)); [done|]. by apply (heap_keeps_trans _ h2).
    + rewrite (proj2 (Z.eqb_neq f 0) Hf). exists r, h'. split; [exact E'|]. split; [done|]. right. split; [done|]. apply (keeps_adds _ (set_pmm p' h)); [done|]. by apply (keeps_adds _ h2).
  - rewrite (proj2 (Z.eqb_neq f 0) Hf). rewrite ret_bind. rewrite (proj2 (Z.eqb_neq f 0) Hf). exists r, h'. split; [exact E'|]. split; [done|]. by right.
Qed.

(** The list of big allocations without [a]. *)
Lemma unlink_big h vb a b : bigs h vb -> big_of h a = Some b -> exists h1 h2 vb', (if nz (bprev b) then set_bnext (bprev b) (bnext b) h else Ret (set_big_head (bnext b) h)) = Ret h1 /\ (if nz (bnext b) then set_bprev (bnext b) (bprev b) h1 else Ret h1) = Ret h2 /\
  bigger h h2 /\ pmm h2 = pmm h /\ big_head h2 = hd 0 vb' /\ dseg (blink_of h2) 0 vb' 0 /\ NoDup vb' /\ 0 ∉ vb' /\ a ∉ vb' /\ (forall x, x ∈ vb -> x <> a -> x ∈ vb') /\ (forall x, match big_of h2 x with Some b => Some (bmagic b, pages b) | None => None end = match big_of h x with Some b => Some (bmagic b, pages b) | None => None end).
Proof.
  intros [B1 (B2 & B3 & B4) B5] Eb. destruct (B5 a b Eb) as [Hin _]. apply list_elem_of_split in Hin as (l1 & l2 & ->). apply NoDup_app in B3 as (N1 & N12 & N2). apply NoDup_cons in N2 as [Na N2]. apply dseg_app in B2 as [D1 D2]. cbn [dseg] in D2. destruct D2 as [La D2]. assert (Ha1 : a ∉ l1) by (intros Hx; apply (N12 a Hx); left). unfold blink_of in La. rewrite Eb in La. injection La as En Ep. rewrite En, Ep.
  assert (Hno : NoDup (l1 ++ l2)) by (apply NoDup_app; split; [done|]; split; [intros x Hx Hx2; apply (N12 x Hx); by right|done]). assert (H0' : 0 ∉ l1 ++ l2) by (intros Hx; apply B4; apply elem_of_app in Hx as [?|?]; apply elem_of_app; [by left|right; by right]).
  assert (S1 : exists h1, (if nz (List.last l1 0) then set_bnext (List.last l1 0) (hd 0 l2) h else Ret (set_big_head (hd 0 l2) h)) = Ret h1 /\ bigger h h1 /\ pmm h1 = pmm h /\ big_head h1 = hd 0 (l1 ++ l2) /\ dseg (blink_of h1) 0 l1 (hd 0 l2) /\ (forall x, x ∉ l1 -> big_of h1 x = big_of h x) /\ (forall x, match big_of h1 x with Some b => Some (bmagic b, pages b) | None => None end = match big_of h x with Some b => Some (bmagic b, pages b) | None => None end)).
  { destruct l1 as [|d l0 _] using rev_ind.
    - cbn [List.last]. change (nz 0) with false. cbv iota. eexists. split; [reflexivity|]. split; [by split|]. done.
    - assert (Hd : d <> 0) by (intros ->; apply B4; rewrite <- app_assoc; apply elem_of_app; right; left). rewrite List.last_last. unfold nz. rewrite (proj2 (Z.eqb_neq d 0) Hd). cbn [negb]. pose proof D1 as D1'. apply dseg_app in D1' as [_ [Ld _]]. cbn in Ld. destruct (big_of h d) as [bd|] eqn:Ebd; [|unfold blink_of in Ld; by rewrite Ebd in Ld]. unfold set_bnext. rewrite (big_at_ok h d bd Ebd), ret_bind. destruct (set_blink_ok h d bd (mk_big (bmagic bd) (pages bd) (hd 0 l2) (bprev bd)) Ebd) as (G & F & Hh & Hp). eexists. split; [reflexivity|]. do 2 (split; [done|]). apply NoDup_app in N1 as (_ & N1b & _). assert (Hdl : d ∉ l0) by (intros Hx; apply (N1b d Hx); left).
      split; [rewrite Hh, B1, !hd_app; by destruct l0|]. split; [|split].
      + apply (dseg_end (blink_of h) _ l0 d 0 a); [done|intros x Hx; unfold blink_of; rewrite F, decide_False; [done|by intros ->]| |exact D1]. intros n q E. unfold blink_of in *. rewrite F, decide_True by done. rewrite Ebd in E. cbn. by injection E as _ ->.
      + intros x Hx. rewrite F, decide_False; [done|]. intros ->. apply Hx. apply elem_of_app. right. left.
      + intros x. rewrite F. destruct (decide (x = d)) as [->|]; [by rewrite Ebd|done]. }
  destruct S1 as (h1 & E1 & G1 & P1 & Hh1 & D1' & F1 & C1). exists h1. rewrite E1. assert (D2' : dseg (blink_of h1) a l2 0) by (apply (dseg_ext (blink_of h)); [|done]; intros x Hx; unfold blink_of; rewrite F1; [done|]; intros Hx1; apply (N12 x Hx1); by right).
  assert (Hrest : forall x, x ∈ l1 ++ a :: l2 -> x <> a -> x ∈ l1 ++ l2) by (intros x [Hx|[->|Hx]%elem_of_cons]%elem_of_app Hne; [apply elem_of_app; by left|done|apply elem_of_app; by right]). assert (Ha12 : a ∉ l1 ++ l2) by (intros [?|?]%elem_of_app; done). destruct l2 as [|d l3].
  - cbn [hd] in *. change (nz 0) with false. cbv iota. exists h1, (l1 ++ []). rewrite app_nil_r in *. do 5 (split; [done|]). split; [exact D1'|]. done.
  - cbn [hd] in *. assert (Hd : d <> 0) by (intros ->; apply H0'; apply elem_of_app; right; left). unfold nz. rewrite (proj2 (Z.eqb_neq d 0) Hd). cbn [negb]. cbn [dseg] in D2'. destruct D2' as [Ld D3]. destruct (big_of h1 d) as [bd|] eqn:Ebd; [|unfold blink_of in Ld; by rewrite Ebd in Ld]. unfold set_bprev. rewrite (big_at_ok h1 d bd Ebd), ret_bind. destruct (set_blink_ok h1 d bd (mk_big (bmagic bd) (pages bd) (bnext bd) (List.last l1 0)) Ebd) as (G & F & Hh & Hp). apply NoDup_cons in N2 as [Nd N3]. assert (Hd1 : d ∉ l1) by (intros Hx; apply (N12 d Hx); right; left).
    eexists _, (l1 ++ d :: l3). split; [done|]. split; [reflexivity|]. split; [by apply (bigger_trans _ h1)|]. split; [congruence|]. split; [by rewrite Hh|]. split; [|do 4 (split; [done|]); intros x; rewrite F; destruct (decide (x = d)) as [->|]; [rewrite <- C1, Ebd; done|by rewrite <- C1]].
    apply dseg_app. cbn [hd]. split; [apply (dseg_ext (blink_of h1)); [|done]; intros x Hx; unfold blink_of; rewrite F, decide_False; [done|by intros ->]|]. apply (dseg_start (blink_of h1) _ d l3 a); [done|intros x Hx; unfold blink_of; rewrite F, decide_False; [done|by intros ->]| |by split]. intros n q E. unfold blink_of in *. rewrite F, decide_True by done. rewrite Ebd in E. cbn. by injection E as -> _.
Qed.

Lemma big_free_call q b h : whole h -> big_of h (q - 64) = Some b -> exists h', heap_big_free hhdm pmm_free_pages q (q - 64) h = Ret (true, h') /\ whole h' /\ removes h h' q.
Proof.
  intros (vp & vf & vb & B & S & T & Hb & M) Eb. destruct (src_block (pmm h) B (q - 64 - hhdm) (pages b) (ti_owns _ _ _ _ T) (ti_big _ _ _ _ T _ _ Eb)) as (Hn & H0 & Hm & Ht & _). destruct src_hhdm as [Hh Hhm]. unfold PAGE_SIZE in *. set (a := q - 64) in *. unfold heap_big_free. rewrite (big_at_ok h a b Eb), ret_bind. unfold SIZEOF_BIG. rewrite (u64_id (a + 64)) by lia. replace (a + 64) with q by lia. rewrite Z.eqb_refl. cbn [negb]. rewrite (proj2 (Z.eqb_neq (pages b) 0)) by lia.
  destruct (unlink_big h vb a b Hb Eb) as (h1 & h2 & vb' & E1 & E2 & G & Pm & Hhd & D & N & H0' & Ha & Hsub & C). rewrite E1, ret_bind, E2, ret_bind. destruct (src_free_pages hhdm pmm_alloc_page pmm_alloc_pages pmm_free_page pmm_free_pages managed owns (pmm h) B (a - hhdm) (pages b) (ti_owns _ _ _ _ T) (ti_big _ _ _ _ T _ _ Eb)) as (p' & Ep & Ho). rewrite Pm, Ep, ret_bind. set (h3 := set_mem _ _).
  assert (Ea2 : exists b2, mem h2 !! a = Some (Big b2)) by (pose proof (C a) as Ca; rewrite Eb in Ca; revert Ca; unfold big_of; destruct (mem h2 !! a) as [[?|b2]|]; [done|intros _; by exists b2|done]). destruct Ea2 as [b2 Ea2]. assert (G3 : bigger h h3) by (apply (bigger_trans _ h2); [done|]; split; try done; intros x; unfold core_of, link_of; cbn; (destruct (decide (x = a)) as [->|]; [by rewrite lookup_delete_eq, Ea2|by rewrite lookup_delete_ne])).
  assert (F3 : forall x, big_of h3 x = if decide (x = a) then None else big_of h2 x) by (intros x; unfold big_of; cbn; destruct (decide (x = a)) as [->|]; [by rewrite lookup_delete_eq|by rewrite lookup_delete_ne]). destruct Hb as [B1 _ B5]. exists h3. split; [done|]. split.
  - exists vp, vf, vb', (delete (a - hhdm) B). split; [by apply (bigger_slabs h)|]. split; [|split; [|by apply (bigger_mags h)]].
    + destruct T as [T1 T2 T3 T4]. split; [done| | |].
      * intros x c Ec. rewrite (bg_core _ _ G3) in Ec. rewrite lookup_delete_ne; [by apply (T2 x c)|]. intros Hx. assert (x = a) as -> by lia. revert Ec Eb. unfold core_of, big_of. by destruct (mem h !! a) as [[?|?]|].
      * intros x d Ed. rewrite F3 in Ed. destruct (decide (x = a)) as [|Hne]; [done|]. rewrite lookup_delete_ne by lia. pose proof (C x) as Cx. rewrite Ed in Cx. destruct (big_of h x) as [d0|] eqn:Ed0; [|done]. injection Cx as _ ->. by apply T3.
      * intros x k Ex. apply lookup_delete_Some in Ex as [Hne Ex]. destruct (T4 x k Ex) as [hd0 Ehd]. pose proof (C (x + hhdm)) as Cx. pose proof (bg_core _ _ G (x + hhdm)) as Gx. unfold big_of in Cx. unfold core_of in Gx. rewrite Ehd in Cx, Gx. cbn. rewrite lookup_delete_ne by lia. destruct (mem h2 !! (x + hhdm)); [by eexists|]. by destruct hd0.
    + split; [exact Hhd|split; [|done]|].
      * apply (dseg_ext (blink_of h2)); [|done]. intros x Hx. unfold blink_of. rewrite F3, decide_False; [done|]. by intros ->.
      * intros x d Ed. rewrite F3 in Ed. destruct (decide (x = a)) as [|Hne]; [done|]. pose proof (C x) as Cx. rewrite Ed in Cx. destruct (big_of h x) as [d0|] eqn:Ed0; [|done]. injection Cx as -> _. destruct (B5 x d0 Ed0) as [Hx Hmg]. split; [by apply Hsub|done].
  - split; [|apply (bg_data _ _ G3)|apply (bg_dbg _ _ G3)|apply (bg_init _ _ G3)]. intros x s. unfold live. rewrite F3. pose proof (C (x - 64)) as Cx. split.
    + intros [(k & Hk & Hs)|(d & Ed & Hs)].
      * apply (bigger_live h h3 G3) in Hk. split; [left; by exists k|]. intros ->. destruct Hk as [Hk _]. by apply (slot_not_big h vp vf B k q b).
      * destruct (decide (x - 64 = a)); [done|]. split; [|lia]. right. rewrite Ed in Cx. destruct (big_of h (x - 64)) as [d0|] eqn:Ed0; [|done]. injection Cx as _ E0. exists d0. by rewrite <- E0.
    + intros [[(k & Hk & Hs)|(d & Ed & Hs)] Hne]; [left; exists k; split; [by apply (bigger_live h h3 G3)|done]|]. right. rewrite decide_False by lia. rewrite Ed in Cx. destruct (big_of h2 (x - 64)) as [d0|]; [|done]. injection Cx as _ E0. exists d0. by rewrite E0.
Qed.
End Calls.
End HeapCalls.
