(* ===== verification/HeapApi.v ===== *)
(** HeapApi: [kmalloc], [kfree], [kcalloc], [krealloc] and [heap_ksize] on the objects
    handed out. *)

From S2P Require Import Prelude Heap HeapSafe HeapSlab HeapMag HeapCalls.
From stdpp Require Import list_relations.
#[local] Open Scope Z_scope.

Module HeapApi.
Import Heap HeapSafe HeapSlab HeapMag HeapCalls.

Section Api.
Context {P : Type} (hhdm : Z) (pmm_alloc_page : P -> outcome (Z * P)) (pmm_alloc_pages : Z -> P -> outcome (Z * P)) (pmm_free_page : Z -> P -> outcome P) (pmm_free_pages : Z -> Z -> P -> outcome P) (managed : Z -> bool) (owns : P -> gmap Z Z -> Prop).
Context {Source : PageSource hhdm pmm_alloc_page pmm_alloc_pages pmm_free_page pmm_free_pages managed owns}.
Context (kmem_cache_shrink_all other_reclaim : P -> outcome P) {Shrink : Reclaimer owns kmem_cache_shrink_all} {Other : Reclaimer owns other_reclaim}.
Context (foreign_word : Z -> Z).
Notation heap := (heap P).
Notation tied := (tied hhdm owns).
Notation whole := (whole hhdm owns).
Notation slab_page := (slab_page hhdm pmm_alloc_page pmm_alloc_pages pmm_free_page pmm_free_pages managed owns).
Notation slot_bounds := (slot_bounds hhdm pmm_alloc_page pmm_alloc_pages pmm_free_page pmm_free_pages managed owns).
Notation src_block := (src_block hhdm pmm_alloc_page pmm_alloc_pages pmm_free_page pmm_free_pages managed owns).
Notation src_hhdm := (src_hhdm hhdm pmm_alloc_page pmm_alloc_pages pmm_free_page pmm_free_pages managed owns).
Notation src_disjoint := (src_disjoint hhdm pmm_alloc_page pmm_alloc_pages pmm_free_page pmm_free_pages managed owns).
Notation kmalloc := (kmalloc hhdm pmm_alloc_page pmm_alloc_pages pmm_free_page kmem_cache_shrink_all other_reclaim).
Notation kfree := (kfree hhdm pmm_free_page pmm_free_pages managed foreign_word).
Notation heap_ksize := (heap_ksize managed foreign_word).
Notation kcalloc := (kcalloc hhdm pmm_alloc_page pmm_alloc_pages pmm_free_page kmem_cache_shrink_all other_reclaim).
Notation krealloc := (krealloc hhdm pmm_alloc_page pmm_alloc_pages pmm_free_page pmm_free_pages kmem_cache_shrink_all other_reclaim managed foreign_word).

(** The sizes for which [size + 64 + 4095] does not wrap. *)
Definition sane (size : Z) : Prop := 0 <= size <= 2 ^ 64 - 64 - 4096.
Lemma big_pages_fit size : sane size -> size <= big_pages size * PAGE_SIZE - 64.
Proof.
  unfold sane, big_pages, PAGE_SIZE, SIZEOF_BIG. intros H. rewrite (u64_id (size + 64)), u64_id by lia. pose proof (Z.div_mod (size + 64 + 4096 - 1) 4096 ltac:(lia)). pose proof (Z.mod_pos_bound (size + 64 + 4096 - 1) 4096 ltac:(lia)). lia.
Qed.

(** The sizes for which [size + 64] wraps: such a request asks for one page. *)
Lemma big_pages_wraps size : 2 ^ 64 - 64 < size < 2 ^ 64 -> big_pages size = 1.
Proof.
  intros Hs. unfold big_pages, SIZEOF_BIG, PAGE_SIZE. replace (u64 (size + 64)) with (size + 64 - 2 ^ 64) by (unfold u64; replace (size + 64) with ((size + 64 - 2 ^ 64) + 1 * 2 ^ 64) at 2 by lia; rewrite Z.mod_add, Z.mod_small by lia; done).
  rewrite u64_id by lia. symmetry. apply (Z.div_unique _ _ 1 (size + 64 - 2 ^ 64 - 1)); lia.
Qed.

(** No memory for a request. *)
Definition refused (size : Z) (h : heap) : Prop := size <> 0 -> if decide (size <= 1024) then no_page pmm_alloc_page h else no_pages pmm_alloc_pages (big_pages size) h.

(** The sizes of the blocks for a request. *)
Definition block_size (size sz : Z) : Prop := size <= 1024 /\ sz = osize (heap_cache_index size) \/ sz = big_pages size * PAGE_SIZE - 64.
Lemma block_fits size sz : 0 < size -> sane size -> block_size size sz -> size <= sz.
Proof. intros H0 Hs [[H1 ->]| ->]; [by apply index_ok|by apply big_pages_fit]. Qed.
Lemma block_wraps size sz : 2 ^ 64 - 64 < size < 2 ^ 64 -> block_size size sz -> sz = 4032.
Proof. intros Hs [[H1 _]| ->]; [lia|by rewrite (big_pages_wraps size Hs)]. Qed.

Lemma kmalloc_ok e size h : whole h -> valid_env e -> 0 <= size -> exists r h', kmalloc e size h = Ret (r, h') /\ whole h' /\ (r = 0 /\ refused size h /\ keeps h h' \/ r <> 0 /\ 0 < size /\ exists sz, adds h h' r sz /\ block_size size sz).
Proof.
  intros Hw He Hs. unfold Heap.kmalloc. destruct (size =? 0) eqn:E0; reify_bools; [exists 0, h; split; [done|]; split; [done|]; left; split; [done|]; split; [by intros ?|apply heap_keeps_refl]|].
  assert (Hbig : forall h1, whole h1 -> keeps h h1 -> exists r h', heap_big_alloc hhdm pmm_alloc_pages pmm_free_page kmem_cache_shrink_all other_reclaim size h1 = Ret (r, h') /\ whole h' /\ (r = 0 /\ no_pages pmm_alloc_pages (big_pages size) h1 /\ keeps h h' \/ r <> 0 /\ 0 < size /\ exists sz, adds h h' r sz /\ block_size size sz)).
  { intros h1 Hw1 K1. destruct (big_alloc_call hhdm pmm_alloc_page pmm_alloc_pages pmm_free_page pmm_free_pages managed owns kmem_cache_shrink_all other_reclaim size h1 Hw1) as (r & h' & E & Hw' & H). exists r, h'. split; [done|]. split; [done|]. destruct H as [(-> & Np & K)|[Hr A]]; [left; split; [done|split; [done|by apply (heap_keeps_trans _ h1)]]|right; split; [done|]; split; [lia|]; eexists; split; [by apply (keeps_adds _ h1)|by right]]. }
  destruct (size <=? 1024) eqn:E1; reify_bools; [|rewrite ret_bind; change (nz 0) with false; cbv iota; destruct (Hbig h Hw (heap_keeps_refl h)) as (r & h' & E & Hw' & [(-> & Np & K)|A]); [exists 0, h'|exists r, h']; (split; [done|]; split; [done|]); [left; split; [done|]; split; [intros _; by rewrite decide_False by lia|done]|by right]].
  destruct (slab_alloc_call hhdm pmm_alloc_page pmm_alloc_pages pmm_free_page pmm_free_pages managed owns kmem_cache_shrink_all other_reclaim e size h Hw He ltac:(lia)) as (r & h1 & E & Hw1 & [(-> & Np & K)|[Hr A]]); rewrite E, ret_bind; [change (nz 0) with false; cbv iota; destruct (Hbig h1 Hw1 K) as (r & h' & E' & Hw' & [(-> & _ & K')|A]); [exists 0, h'|exists r, h']; (split; [done|]; split; [done|]); [left; split; [done|]; split; [intros _; by rewrite decide_True by lia|done]|by right]|].
  unfold nz. rewrite (proj2 (Z.eqb_neq r 0) Hr). cbn [negb]. exists r, h1. split; [done|]. split; [done|]. right. split; [done|]. split; [lia|]. eexists. split; [done|]. left. split; [lia|done].
Qed.

(** ** Where the objects are *)

(** The page of a big allocation. *)
Lemma big_page h B p b : tied h B -> big_of h (p - 64) = Some b -> page_of p = p - 64 /\ p mod 32 = 0 /\ 0 < p - 64 /\ 0 < pages b /\ p - 64 + 4096 * pages b <= 2 ^ 64.
Proof.
  intros T Eb. destruct (src_block (pmm h) B (p - 64 - hhdm) (pages b) (ti_owns _ _ _ _ T) (ti_big _ _ _ _ T _ _ Eb)) as (Hn & H0 & Hm & Ht & _). destruct src_hhdm as [Hh Hhm]. unfold PAGE_SIZE in *. assert (Hpm : (p - 64) mod 4096 = 0) by (replace (p - 64) with ((p - 64 - hhdm) + hhdm) by lia; rewrite Z.add_mod, Hm, Hhm by lia; done).
  split; [replace p with ((p - 64) + 64) at 1 by lia; apply page_of_offset; lia|]. split; [|lia]. apply Z.mod_divide; [lia|]. replace p with ((p - 64) + 64) by lia. apply Z.divide_add_r; [apply Z.divide_trans with 4096; [by exists 128|by apply Z.mod_divide]|by exists 2].
Qed.
(** An object lies in one block of the heap, behind the header. *)
Lemma live_block h vp vf vb B p sz : slabs None h vp vf -> tied h B -> bigs h vb -> live h p sz -> exists a n, B !! (a - hhdm) = Some n /\ page_of p = a /\ a + 64 <= p /\ p + sz <= a + 4096 * n /\ 0 < sz /\ p mod 32 = 0.
Proof.
  intros S T Hb [(ci & [Hu _] & ->)|(b & Eb & ->)].
  - destruct (slot_bounds h vp vf B ci p S T Hu) as (Hci & a & c & Ec & _ & Epg & L1 & L2 & L3). exists a, 1. pose proof (class_facts ci Hci) as (? & _). split; [by apply (ti_slab _ _ _ _ T a c)|]. split; [done|]. split; [done|]. split; [lia|]. split; [lia|done].
  - exists (p - 64), (pages b). destruct (big_page h B p b T Eb) as (Ep & Hm & H0 & Hn & _). split; [by apply (ti_big _ _ _ _ T)|]. unfold PAGE_SIZE. split; [done|]. split; [lia|]. split; [lia|]. split; [lia|done].
Qed.
Lemma live_managed h p sz : whole h -> live h p sz -> p <> 0 /\ forall x, p <= x < p + sz -> managed x = true.
Proof.
  intros (vp & vf & vb & B & S & T & Hb & M) Hl. destruct (live_block h vp vf vb B p sz S T Hb Hl) as (a & n & HB & _ & L1 & L2 & _). destruct (src_block (pmm h) B (a - hhdm) n (ti_owns _ _ _ _ T) HB) as (Hn & H0 & Hm & Ht & Hman). destruct src_hhdm as [Hh _]. unfold PAGE_SIZE in *. split; [lia|]. intros x Hx. replace x with ((x - hhdm) + hhdm) by lia. apply Hman. lia.
Qed.

Lemma slot_disjoint ci a i j : 0 <= ci < 6 -> i <> j -> a + 64 + i * osize ci + osize ci <= a + 64 + j * osize ci \/ a + 64 + j * osize ci + osize ci <= a + 64 + i * osize ci.
Proof. intros Hci Hij. pose proof (class_facts ci Hci) as (? & _). nia. Qed.
(** Two objects share no byte. *)
Lemma live_disjoint h p s q t : whole h -> live h p s -> live h q t -> p <> q -> p + s <= q \/ q + t <= p.
Proof.
  intros Hw Hp Hq Hne. pose proof Hw as (vp & vf & vb & B & S & T & Hb & M). destruct (live_block h vp vf vb B p s S T Hb Hp) as (a & n & HB & Epg & L1 & L2 & _). destruct (live_block h vp vf vb B q t S T Hb Hq) as (a' & n' & HB' & Epg' & L1' & L2' & _). destruct (decide (a = a')) as [<-|Ha].
  - destruct Hp as [(ci & [Hu _] & ->)|(b & Eb & ->)], Hq as [(ci' & [Hu' _] & ->)|(b' & Eb' & ->)].
    + destruct (slot_bounds h vp vf B ci p S T Hu) as (Hci & _). destruct Hu as (x & i & c & Ec & Hc & Hi & Hbit & ->). destruct Hu' as (x' & i' & c' & Ec' & Hc' & Hi' & Hbit' & ->). destruct (slab_page h B x c T Ec) as (X0 & Xm & Xt). destruct (slab_page h B x' c' T Ec') as (X0' & Xm' & Xt'). destruct (slabs_cache h vp vf x' c' S Ec') as (Hci' & _). rewrite Hc' in Hci'. pose proof (class_facts ci Hci) as (? & ? & ?). pose proof (class_facts ci' Hci') as (? & ? & ?).
      assert (x = a). { rewrite <- Epg. symmetry. replace (x + 64 + i * osize ci) with (x + (64 + i * osize ci)) by lia. apply page_of_offset; nia. } assert (x' = a). { rewrite <- Epg'. symmetry. replace (x' + 64 + i' * osize ci') with (x' + (64 + i' * osize ci')) by lia. apply page_of_offset; nia. } subst x x'. rewrite Ec in Ec'. injection Ec' as <-. assert (ci' = ci) as -> by congruence. apply slot_disjoint; [done|]. by intros ->.
    + exfalso. destruct (slot_bounds h vp vf B ci p S T Hu) as (_ & x & c & Ec & _ & Ep & _). destruct (big_page h B q b' T Eb') as (Eq & _). assert (x = q - 64) as -> by congruence. revert Ec Eb'. unfold core_of, big_of. by destruct (mem h !! (q - 64)) as [[?|?]|].
    + exfalso. destruct (slot_bounds h vp vf B ci' q S T Hu') as (_ & x & c & Ec & _ & Ep & _). destruct (big_page h B p b T Eb) as (Eq & _). assert (x = p - 64) as -> by congruence. revert Ec Eb. unfold core_of, big_of. by destruct (mem h !! (p - 64)) as [[?|?]|].
    + exfalso. destruct (big_page h B p b T Eb) as (E1 & _). destruct (big_page h B q b' T Eb') as (E2 & _). apply Hne. lia.
  - destruct (src_disjoint (pmm h) B (a - hhdm) n (a' - hhdm) n' (ti_owns _ _ _ _ T) HB HB' ltac:(lia)) as [H|H]; unfold PAGE_SIZE in H; lia.
Qed.

(** ** Free and size *)

Lemma whole_log t (h : heap) : whole h -> whole (set_log t h).
Proof. intros (vp & vf & vb & B & S & T & Hb & M). exists vp, vf, vb, B. split; [destruct S; by split|]. split; [destruct T; by split|]. split; [destruct Hb; by split|]. destruct M. by split. Qed.
Lemma removes_log t (h h' : heap) p : removes (set_log t h) h' p -> removes h h' p.
Proof. intros []. by split. Qed.

(** The slab of a slot. *)
Lemma slot_view h vp vf B ci q : slabs None h vp vf -> tied h B -> slot_used h ci q -> exists a i s, mem h !! a = Some (Slab s) /\ page_of q = a /\ cache s = ci /\ total_count s = objs ci /\ magic s = SLAB_MAGIC /\ 0 <= ci < 6 /\ 0 <= i < objs ci /\ q = a + 64 + i * osize ci /\ u64 (a + 64) = a + 64.
Proof.
  intros S T Hu. destruct (slot_bounds h vp vf B ci q S T Hu) as (Hci & a & c & Ec & Hc & Epg & L1 & L2 & _). destruct Hu as (a' & i & c' & Ec' & Hc' & Hi & Hbit & Eq). destruct (slab_page h B a c T Ec) as (Ha0 & Ham & Hat). destruct (slab_page h B a' c' T Ec') as (Hb0 & Hbm & Hbt). pose proof (class_facts ci Hci) as (O1 & O2 & O3). assert (Ea : a' = a) by (rewrite <- Epg, Eq; symmetry; replace (a' + 64 + i * osize ci) with (a' + (64 + i * osize ci)) by lia; apply page_of_offset; nia). subst a'. rewrite Ec in Ec'. injection Ec' as <-.
  destruct (core_slab h a c Ec) as (s & Es & Hs). destruct (slabs_cache h vp vf a c S Ec) as (_ & _ & K). exists a, i, s. split; [done|]. split; [done|]. split; [by rewrite <- Hc, <- Hs|]. split; [by rewrite <- Hc, <- (sl_total _ _ _ _ K), <- Hs|]. split; [by rewrite <- (sl_magic _ _ _ _ K), <- Hs|]. do 3 (split; [done|]). apply u64_id. lia.
Qed.
Lemma cache_at (h : heap) vp vf ci : slabs None h vp vf -> 0 <= ci < 6 -> exists c, arr_get (caches h) ci = Ret c /\ obj_size c = osize ci.
Proof. intros S Hci. unfold arr_get. rewrite (proj2 (Z.ltb_ge _ _)), (so_cache _ _ _ _ S ci Hci) by lia. by eexists. Qed.

Lemma kfree_ok e h p sz : whole h -> valid_env e -> live h p sz -> exists h', kfree e p h = Ret h' /\ whole h' /\ removes h h' p.
Proof.
  intros Hw He Hl. destruct (live_managed h p sz Hw Hl) as [Hp0 Hman]. pose proof Hw as (vp & vf & vb & B & S & T & Hb & M). destruct (live_block h vp vf vb B p sz S T Hb Hl) as (_ & _ & _ & _ & _ & _ & Hsz & _). unfold Heap.kfree. rewrite (proj2 (Z.eqb_neq p 0) Hp0), (Hman p) by lia. cbn [negb]. cbv zeta. set (h1 := set_log _ h). assert (Hw1 : whole h1) by (by apply whole_log). destruct Hl as [(ci & Hls & ->)|(b & Eb & ->)].
  - destruct (slot_view h vp vf B ci p S T (proj1 Hls)) as (a & i & s & Es & Epg & Hc & Ht & Hmg & _). assert (Emg : magic_of foreign_word h1 (page_of p) = SLAB_MAGIC) by (unfold magic_of; rewrite Epg; cbn [mem h1 set_log]; by rewrite Es). rewrite Emg, Z.eqb_refl. destruct (slab_free_call hhdm pmm_alloc_page pmm_alloc_pages pmm_free_page pmm_free_pages managed owns e ci p h1 Hw1 He Hls) as (h' & E & Hw' & Hr). rewrite E, ret_bind. exists h'. split; [done|]. split; [done|]. by eapply removes_log.
  - destruct (big_page h B p b T Eb) as (Ep & _). destruct (bo_all _ _ Hb _ _ Eb) as [_ Hmg]. assert (Emg : magic_of foreign_word h1 (page_of p) = BIG_MAGIC) by (unfold magic_of; rewrite Ep; cbn [mem h1 set_log]; unfold big_of in Eb; destruct (mem h !! (p - 64)) as [[?|?]|]; [done|by injection Eb as ->|done]). rewrite Emg. change (BIG_MAGIC =? SLAB_MAGIC) with false. rewrite Z.eqb_refl, Ep. destruct (big_free_call hhdm pmm_alloc_page pmm_alloc_pages pmm_free_page pmm_free_pages managed owns p b h1 Hw1 Eb) as (h' & E & Hw' & Hr). rewrite E, ret_bind. exists h'. split; [done|]. split; [done|]. by eapply removes_log.
Qed.

(** The pointers that are the start of a slot or of a big allocation. *)
Definition starts (h : heap) (ptr : Z) : Prop := match mem h !! page_of ptr with Some (Slab s) => exists i, 0 <= i < total_count s /\ ptr = page_of ptr + 64 + i * osize (cache s) | Some (Big b) => ptr = page_of ptr + 64 | None => False end.
Lemma page_of_range ptr : 0 <= ptr < 2 ^ 64 -> page_of ptr <= ptr < page_of ptr + 4096 /\ 0 <= page_of ptr /\ page_of ptr + 4096 <= 2 ^ 64.
Proof.
  intros Hp. pose proof (Z.div_mod ptr 4096 ltac:(lia)). pose proof (Z.mod_pos_bound ptr 4096 ltac:(lia)). assert (0 <= ptr / 4096 < 2 ^ 52) by (split; [apply Z.div_pos; lia|apply Z.div_lt_upper_bound; lia]). assert (E : page_of (4096 * (ptr / 4096) + ptr mod 4096) = 4096 * (ptr / 4096)) by (apply page_of_offset; [rewrite Z.mul_comm; apply Z.mod_mul; lia|lia|lia|done]). rewrite <- H in E. lia.
Qed.
(** A pointer to a slab page that is no start of a slot fails a check. *)
Lemma not_start ci a ptr total : 0 <= ci < 6 -> a <= ptr < a + 4096 -> 0 <= a -> a + 4096 <= 2 ^ 64 -> ~ (exists i, 0 <= i < total /\ ptr = a + 64 + i * osize ci) ->
  ptr < u64 (a + SIZEOF_SLAB) \/ u64 (a + SIZEOF_SLAB) <= ptr /\ nz (Z.land (ptr - u64 (a + SIZEOF_SLAB)) (u64 (osize ci - 1))) = true \/ u64 (a + SIZEOF_SLAB) <= ptr /\ nz (Z.land (ptr - u64 (a + SIZEOF_SLAB)) (u64 (osize ci - 1))) = false /\ total <= u32 ((ptr - u64 (a + SIZEOF_SLAB)) / osize ci).
Proof.
  intros Hci Hp Ha Hat Hno. pose proof (class_facts ci Hci) as (O1 & _ & _). unfold SIZEOF_SLAB. rewrite (u64_id (a + 64)), (u64_id (osize ci - 1)) by lia. destruct (decide (ptr < a + 64)); [by left|right]. set (o := ptr - (a + 64)). assert (El : Z.land o (osize ci - 1) = o mod osize ci) by (unfold osize; apply land_ones_small; lia). rewrite El. unfold nz. destruct (o mod osize ci =? 0) eqn:Em; cbn [negb]; [right|left; split; [lia|done]]. reify_bools. split; [lia|]. split; [done|]. pose proof (Z.div_mod o (osize ci) ltac:(lia)) as Hd. assert (0 <= o / osize ci < 4096) by (split; [apply Z.div_pos; lia|apply Z.div_lt_upper_bound; lia]). rewrite u32_id by lia. destruct (decide (total <= o / osize ci)); [done|]. exfalso. apply Hno. exists (o / osize ci). split; [lia|]. nia.
Qed.
(** The pointers into a managed page that the heap does not own but whose first word is one
    of the tags of the heap: a former slab page keeps the tag that [slab_free_to_cache_locked]
    leaves in it, and a page in the middle of a big allocation holds what its client wrote. *)
Definition tagged (h : heap) (ptr : Z) : bool :=
  managed ptr && match mem h !! page_of ptr with None => (foreign_word (page_of ptr) =? SLAB_MAGIC) || (foreign_word (page_of ptr) =? BIG_MAGIC) | Some _ => false end.
(** Every other pointer that starts no object is reported, and nothing but the log changes. *)
Lemma kfree_rejects e h ptr : whole h -> 0 < ptr < 2 ^ 64 -> ~ starts h ptr -> tagged h ptr = false -> kfree e ptr h = Ret (set_log (heap_trace_record ptr (caller e) (log h)) h).
Proof.
  intros Hw Hp Hno Hf. pose proof Hw as (vp & vf & vb & B & S & T & Hb & M). destruct (page_of_range ptr ltac:(lia)) as (L1 & L2 & L3). unfold tagged in Hf. unfold Heap.kfree. rewrite (proj2 (Z.eqb_neq ptr 0)) by lia. cbv zeta. set (h1 := set_log _ h). destruct (managed ptr); [|done]. cbn [negb]. cbn [andb] in Hf. unfold starts in Hno. set (a := page_of ptr) in *. unfold magic_of. cbn [mem h1 set_log]. destruct (mem h !! a) as [[s|b]|] eqn:Em; [| |apply orb_false_iff in Hf as [H1 H2]; by rewrite H1, H2].
  - assert (Ec : core_of h a = Some (strip s)) by (unfold core_of; by rewrite Em). destruct (slabs_cache h vp vf a _ S Ec) as (Hci & _ & K). cbn [cache strip] in Hci, K. pose proof (sl_magic _ _ _ _ K) as Hmg. cbn in Hmg. rewrite Hmg, Z.eqb_refl. unfold heap_slab_free. rewrite (slab_at_ok h1 a s Em), ret_bind. cbv zeta. unfold CACHE_COUNT. rewrite (proj2 (Z.ltb_ge (cache s) 0)), Z.geb_leb, (proj2 (Z.leb_gt 6 (cache s))) by lia. cbn [orb]. destruct (cache_at h vp vf (cache s) S Hci) as (cc & Ecc & Eos). change (caches h1) with (caches h). rewrite Ecc, ret_bind, Eos.
    assert (Hslow : slab_free_to_cache_locked hhdm pmm_free_page (cache s) a ptr h1 = Ret h1 /\ ((ptr <? u64 (a + SIZEOF_SLAB)) || nz (Z.land (ptr - u64 (a + SIZEOF_SLAB)) (u64 (osize (cache s) - 1))) || (u32 ((ptr - u64 (a + SIZEOF_SLAB)) / osize (cache s)) >=? total_count s)) = true).
    { unfold slab_free_to_cache_locked. cbv zeta. change (caches h1) with (caches h). rewrite Ecc, !ret_bind, Eos, (slab_at_ok h1 a s Em), !ret_bind. destruct (not_start (cache s) a ptr (total_count s) Hci L1 L2 L3 Hno) as [H|[[H1 H2]|(H1 & H2 & H3)]].
      - by rewrite (proj2 (Z.ltb_lt _ _) H).
      - rewrite (proj2 (Z.ltb_ge _ _) H1), H2. done.
      - rewrite (proj2 (Z.ltb_ge _ _) H1), H2, Z.geb_leb, (proj2 (Z.leb_le _ _) H3). done. }
    destruct Hslow as [-> Hchk]. rewrite ret_bind. destruct ((cache s <? HEAP_PCPU_CLASSES) && initialized h1); [|by rewrite ret_bind]. destruct (ptr <? u64 (a + SIZEOF_SLAB)); [by rewrite ret_bind|]. cbn [orb] in Hchk. destruct (nz _); [by rewrite ret_bind|]. cbn [orb] in Hchk. rewrite Hchk. by rewrite ret_bind.
  - assert (Eb : big_of h a = Some b) by (unfold big_of; by rewrite Em). destruct (bo_all _ _ Hb _ _ Eb) as [_ Hmg]. rewrite Hmg. change (BIG_MAGIC =? SLAB_MAGIC) with false. rewrite Z.eqb_refl. unfold heap_big_free, big_at. cbn [mem h1 set_log]. rewrite Em, ret_bind. unfold SIZEOF_BIG. rewrite u64_id by lia. rewrite (proj2 (Z.eqb_neq _ _) Hno). cbn [negb]. by rewrite ret_bind.
Qed.
(** For a tagged page [kfree] goes on to read the header it takes the page to begin with. *)
Lemma kfree_tagged e h ptr : ptr <> 0 -> tagged h ptr = true -> kfree e ptr h = Fault.
Proof.
  intros H0 Ht. unfold tagged in Ht. apply andb_true_iff in Ht as [Hm Ht]. unfold Heap.kfree. rewrite (proj2 (Z.eqb_neq ptr 0) H0), Hm. cbn [negb]. cbv zeta. set (h1 := set_log _ h). unfold magic_of. cbn [mem h1 set_log]. destruct (mem h !! page_of ptr) eqn:Em; [done|]. destruct (_ =? SLAB_MAGIC).
  - unfold heap_slab_free, slab_at. cbn [mem h1 set_log]. by rewrite Em.
  - destruct (_ =? BIG_MAGIC); [|done]. unfold heap_big_free, big_at. cbn [mem h1 set_log]. by rewrite Em.
Qed.
Lemma ksize_ok h p sz : whole h -> live h p sz -> heap_ksize p h = Ret sz.
Proof.
  intros Hw Hl. destruct (live_managed h p sz Hw Hl) as [Hp0 Hman]. pose proof Hw as (vp & vf & vb & B & S & T & Hb & M). destruct (live_block h vp vf vb B p sz S T Hb Hl) as (_ & _ & _ & _ & _ & _ & Hsz & _). unfold Heap.heap_ksize. rewrite (proj2 (Z.eqb_neq p 0) Hp0), (Hman p) by lia. cbn [orb negb]. cbv zeta. destruct Hl as [(ci & [Hu _] & ->)|(b & Eb & ->)].
  - destruct (slot_view h vp vf B ci p S T Hu) as (a & i & s & Es & Epg & Hc & Ht & Hmg & Hci & Hi & Eq & Eu). rewrite Epg. unfold magic_of. rewrite Es, Hmg, Z.eqb_refl. unfold heap_slab_ksize, slab_at. rewrite Es, ret_bind. unfold SIZEOF_SLAB. rewrite Eu. pose proof (class_facts ci Hci) as (O1 & _). rewrite (proj2 (Z.ltb_ge _ _)) by nia. destruct (cache_at h vp vf ci S Hci) as (cc & Ecc & Eos). rewrite Hc, Ecc, ret_bind, Eos. replace (p - (a + 64)) with (i * osize ci) by lia. destruct (offset_ok ci i Hci Hi) as [-> ->]. rewrite Ht, Z.geb_leb, (proj2 (Z.leb_gt _ _)) by lia. done.
  - destruct (big_page h B p b T Eb) as (Ep & _ & H0 & Hn & Ht). destruct (bo_all _ _ Hb _ _ Eb) as [_ Hmg]. rewrite Ep. unfold magic_of. unfold big_of in Eb. destruct (mem h !! (p - 64)) as [[?|b']|] eqn:Em; [done| |done]. injection Eb as ->. rewrite Hmg. change (BIG_MAGIC =? SLAB_MAGIC) with false. rewrite Z.eqb_refl. unfold heap_big_ksize, big_at. rewrite Em, ret_bind. unfold SIZEOF_BIG, PAGE_SIZE. rewrite (u64_id (p - 64 + 64)) by lia. replace (p - 64 + 64) with p by lia. rewrite Z.eqb_refl. cbn [negb]. rewrite u64_id by lia. rewrite (proj2 (Z.ltb_ge _ _)) by lia. done.
Qed.
End Api.
End HeapApi.
