(* ===== verification/HeapSpec.v ===== *)
(** HeapSpec: the heap as a map from the objects handed out to their bytes, and the calls
    on it. *)

From S2P Require Import Prelude Heap HeapSafe HeapSlab HeapMag HeapCalls HeapApi.
From stdpp Require Import list_relations.
#[local] Open Scope Z_scope.

Module HeapSpec.
Import Heap HeapSafe HeapSlab HeapMag HeapCalls HeapApi.

(** ** Abstract specification *)

Notation objects := (gmap Z (list Z)).
Inductive call := Kmalloc (e : env) (size : Z) | Kfree (e : env) (p : Z) | Kcalloc (e : env) (num size : Z) | Krealloc (e : env) (p size : Z) | Ksize (p : Z) | Store (p i v : Z) | Flush | Reclaim.

Definition is_size (n : Z) : Prop := 0 <= n < 2 ^ 64.
Definition allowed (c : call) (m : objects) : Prop :=
  match c with
  | Kmalloc e size => valid_env e /\ sane size
  | Kfree e p => valid_env e /\ (p = 0 \/ is_Some (m !! p))
  | Kcalloc e num size => valid_env e /\ is_size num /\ is_size size /\ (num * size < 2 ^ 64 -> sane (num * size))
  | Krealloc e p size => valid_env e /\ sane size /\ (p = 0 \/ is_Some (m !! p))
  | Ksize p => p = 0 \/ is_Some (m !! p)
  | Store p i v => exists l, m !! p = Some l /\ 0 <= i < Z.of_nat (length l)
  | Flush | Reclaim => True
  end.


(** The result of an allocation of [size] bytes with contents that satisfy [Q]. *)
Definition allocates (size : Z) (Q : list Z -> Prop) (r : Z) (m m' : objects) : Prop :=
  r = 0 /\ m' = m \/ r <> 0 /\ 0 < size /\ m !! r = None /\ exists l, m' = <[r := l]> m /\ Q l /\ size <= Z.of_nat (length l).
Definition spec (c : call) (r : Z) (m m' : objects) : Prop :=
  match c with
  | Kmalloc _ size => allocates size (fun _ => True) r m m'
  | Kfree _ p => r = 0 /\ m' = delete p m
  | Kcalloc _ num size => if num * size <? 2 ^ 64 then allocates (num * size) (fun l => forall i, 0 <= i < num * size -> l !! Z.to_nat i = Some 0) r m m' else r = 0 /\ m' = m
  | Krealloc _ p size =>
    match m !! p with
    | None => allocates size (fun _ => True) r m m'
    | Some l =>
      if size =? 0 then r = 0 /\ m' = delete p m
      else if size <=? Z.of_nat (length l) then r = p /\ m' = m
      else r = 0 /\ m' = m \/ r <> 0 /\ m !! r = None /\ exists l', m' = <[r := l']> (delete p m) /\ size <= Z.of_nat (length l') /\ take (length l) l' = l
    end
  | Ksize p => r = match m !! p with Some l => Z.of_nat (length l) | None => 0 end /\ m' = m
  | Store p i v => m' = alter (fun l => <[Z.to_nat i := v]> l) p m
  | Flush | Reclaim => m' = m
  end.

(** ** The calls *)

Section Spec.
Context {P : Type} (hhdm : Z) (pmm_alloc_page : P -> outcome (Z * P)) (pmm_alloc_pages : Z -> P -> outcome (Z * P)) (pmm_free_page : Z -> P -> outcome P) (pmm_free_pages : Z -> Z -> P -> outcome P) (managed : Z -> bool) (owns : P -> gmap Z Z -> Prop).
Context (kmem_cache_shrink_all other_reclaim : P -> outcome P) (foreign_word : Z -> Z).
Notation heap := (heap P).
Notation whole := (whole hhdm owns).
Notation kmalloc := (kmalloc hhdm pmm_alloc_page pmm_alloc_pages pmm_free_page kmem_cache_shrink_all other_reclaim).
Notation kfree := (kfree hhdm pmm_free_page pmm_free_pages managed foreign_word).
Notation heap_ksize := (heap_ksize managed foreign_word).
Notation kcalloc := (kcalloc hhdm pmm_alloc_page pmm_alloc_pages pmm_free_page kmem_cache_shrink_all other_reclaim).
Notation krealloc := (krealloc hhdm pmm_alloc_page pmm_alloc_pages pmm_free_page pmm_free_pages kmem_cache_shrink_all other_reclaim managed foreign_word).

Definition heap_call (c : call) (h : heap) : outcome (Z * heap) :=
  match c with
  | Kmalloc e size => kmalloc e size h
  | Kfree e p => h ← kfree e p h; Ret (0, h)
  | Kcalloc e num size => kcalloc e num size h
  | Krealloc e p size => krealloc e p size h
  | Ksize p => n ← heap_ksize p h; Ret (n, h)
  | Store p i v => Ret (0, set_data (memset (p + i) v 1 (data h)) h)
  | Flush => h ← heap_pcpu_flush_all hhdm pmm_free_page h; Ret (0, h)
  | Reclaim => h ← heap_oom_reclaim hhdm pmm_free_page kmem_cache_shrink_all other_reclaim h; Ret (0, h)
  end.

(** ** The relation *)

Definition bytes (h : heap) (p sz : Z) : list Z := map (fun i => data h (p + i)) (seqZ 0 sz).
Definition holds (h : heap) (m : objects) : Prop := whole h /\ forall p l, m !! p = Some l <-> exists sz, live h p sz /\ l = bytes h p sz.

Context {Source : PageSource hhdm pmm_alloc_page pmm_alloc_pages pmm_free_page pmm_free_pages managed owns} {Shrink : Reclaimer owns kmem_cache_shrink_all} {Other : Reclaimer owns other_reclaim}.

Lemma bytes_length (h : heap) p sz : 0 <= sz -> Z.of_nat (length (bytes h p sz)) = sz.
Proof. intros H. unfold bytes. rewrite length_map, length_seqZ. lia. Qed.
Lemma bytes_ext (h h' : heap) p sz : (forall x, p <= x < p + sz -> data h' x = data h x) -> bytes h' p sz = bytes h p sz.
Proof. intros H. unfold bytes. apply map_ext_in. intros i Hi. apply list_elem_of_In, elem_of_seqZ in Hi. apply H. lia. Qed.
Lemma bytes_at (h : heap) p sz i : 0 <= i < sz -> bytes h p sz !! Z.to_nat i = Some (data h (p + i)).
Proof. intros H. unfold bytes. rewrite list_lookup_fmap, lookup_seqZ_lt by lia. cbn. do 2 f_equal. lia. Qed.
Lemma live_pos h p sz : whole h -> live h p sz -> 0 < sz.
Proof. intros (vp & vf & vb & B & S & T & Hb & M) Hl. by destruct (live_block hhdm pmm_alloc_page pmm_alloc_pages pmm_free_page pmm_free_pages managed owns h vp vf vb B p sz S T Hb Hl) as (_ & _ & _ & _ & _ & _ & ? & _). Qed.

Lemma holds_live h m p l : holds h m -> m !! p = Some l -> live h p (Z.of_nat (length l)) /\ l = bytes h p (Z.of_nat (length l)).
Proof. intros [Hw H] E. apply H in E as (sz & Hl & ->). pose proof (live_pos h p sz Hw Hl). by rewrite bytes_length by lia. Qed.
Lemma holds_not h m p : holds h m -> m !! p = None <-> forall sz, ~ live h p sz.
Proof.
  intros [Hw H]. split.
  - intros E sz Hl. assert (m !! p = Some (bytes h p sz)) by (apply H; by exists sz). congruence.
  - intros Hn. destruct (m !! p) as [l|] eqn:E; [|done]. apply H in E as (sz & Hl & _). by destruct (Hn sz).
Qed.
Lemma holds_keeps h h' m : holds h m -> whole h' -> keeps h h' -> holds h' m.
Proof.
  intros [Hw H] Hw' [K1 K2 _ _]. split; [done|]. intros p l. rewrite H. split; intros (sz & Hl & ->); exists sz; [split; [by apply K1|]|apply K1 in Hl; split; [done|]]; [symmetry|]; (apply bytes_ext; intros x; by apply (K2 p)).
Qed.
Lemma holds_adds h h' m p sz : holds h m -> whole h' -> adds h h' p sz -> m !! p = None /\ holds h' (<[p := bytes h' p sz]> m).
Proof.
  intros Hh Hw' [A1 A2 A3 _ _]. split; [by apply (holds_not h)|]. destruct Hh as [Hw H]. split; [done|]. intros q l. destruct (decide (q = p)) as [->|Hne].
  - rewrite lookup_insert_eq. split; [intros [= <-]; exists sz; split; [apply A1; by right|done]|]. intros (s & Hl & ->). apply A1 in Hl as [Hl|[_ ->]]; [by destruct (A2 s)|done].
  - rewrite lookup_insert_ne, H by done. split; intros (s & Hl & ->); exists s; [split; [apply A1; by left|]; symmetry|apply A1 in Hl as [Hl|[? _]]; [|done]; split; [done|]]; (apply bytes_ext; intros x; by apply (A3 q)).
Qed.
Lemma holds_removes h h' m p : holds h m -> whole h' -> removes h h' p -> holds h' (delete p m).
Proof.
  intros [Hw H] Hw' [R1 R2 _ _]. split; [done|]. intros q l. rewrite lookup_delete_Some, H. split.
  - intros [Hne (s & Hl & ->)]. exists s. split; [apply R1; split; [done|congruence]|]. symmetry. apply bytes_ext. intros x _. by rewrite R2.
  - intros (s & Hl & ->). apply R1 in Hl as [Hl Hne]. split; [done|]. exists s. split; [done|]. apply bytes_ext. intros x _. by rewrite R2.
Qed.

Lemma whole_data f h : whole h -> whole (set_data f h).
Proof. intros (vp & vf & vb & B & S & T & Hb & M). exists vp, vf, vb, B. split; [destruct S; by split|]. split; [destruct T; by split|]. split; [destruct Hb; by split|]. destruct M. by split. Qed.
(** Writes to one object. *)
Lemma holds_data h m p sz f : holds h m -> live h p sz -> (forall x, ~ (p <= x < p + sz) -> f x = data h x) -> holds (set_data f h) (<[p := bytes (set_data f h) p sz]> m).
Proof.
  intros [Hw H] Hl Hf. split; [by apply whole_data|]. intros q l. destruct (decide (q = p)) as [->|Hne].
  - rewrite lookup_insert_eq. split; [intros [= <-]; by exists sz|]. intros (s & Hs & ->). by rewrite (live_size hhdm pmm_alloc_page pmm_alloc_pages pmm_free_page pmm_free_pages managed owns h p s sz).
  - rewrite lookup_insert_ne, H by done. assert (Hx : forall s, live h q s -> bytes (set_data f h) q s = bytes h q s). { intros s Hs. apply bytes_ext. intros x Hx. cbn. apply Hf. destruct (live_disjoint hhdm pmm_alloc_page pmm_alloc_pages pmm_free_page pmm_free_pages managed owns h q s p sz Hw Hs Hl Hne); lia. } split; intros (s & Hs & ->); exists s; (split; [done|]); [symmetry|]; by apply Hx.
Qed.

Lemma memset_out a v n f p sz x : p <= a -> a + n <= p + sz -> ~ (p <= x < p + sz) -> memset a v n f x = f x.
Proof. intros H1 H2 Hx. unfold memset. destruct (a <=? x) eqn:E1, (x <? a + n) eqn:E2; reify_bools; cbn [andb]; [lia|done|done|done]. Qed.
Lemma memset_in a v n f x : a <= x < a + n -> memset a v n f x = v.
Proof. intros H. unfold memset. by rewrite (proj2 (Z.leb_le _ _)), (proj2 (Z.ltb_lt _ _)) by lia. Qed.

(** ** Simulation *)

Lemma malloc_call e size h m : holds h m -> valid_env e -> sane size -> exists r h' m', kmalloc e size h = Ret (r, h') /\ holds h' m' /\ allocates size (fun _ => True) r m m'.
Proof.
  intros Hh He Hs. destruct (kmalloc_ok hhdm pmm_alloc_page pmm_alloc_pages pmm_free_page pmm_free_pages managed owns kmem_cache_shrink_all other_reclaim e size h (proj1 Hh) He (proj1 Hs)) as (r & h' & E & Hw' & H). destruct H as [(-> & _ & K)|(Hr & H0 & sz & A & Hbs)].
  - exists 0, h', m. split; [done|]. split; [by apply (holds_keeps h)|]. by left.
  - destruct (holds_adds h h' m r sz Hh Hw' A) as [En Hh']. exists r, h', (<[r := bytes h' r sz]> m). split; [done|]. split; [done|]. right. do 3 (split; [done|]). eexists. split; [done|]. split; [done|]. rewrite bytes_length; [by apply block_fits|]. pose proof (block_fits size sz H0 Hs Hbs). lia.
Qed.
Lemma free_call e h m p : holds h m -> valid_env e -> p = 0 \/ is_Some (m !! p) -> exists h', kfree e p h = Ret h' /\ holds h' (delete p m).
Proof.
  intros Hh He [-> |[l El]].
  - exists h. split; [done|]. rewrite delete_id; [done|]. apply (holds_not h); [done|]. intros sz Hl. by destruct (live_managed hhdm pmm_alloc_page pmm_alloc_pages pmm_free_page pmm_free_pages managed owns h 0 sz (proj1 Hh) Hl).
  - destruct (holds_live h m p l Hh El) as [Hl _]. destruct (kfree_ok hhdm pmm_alloc_page pmm_alloc_pages pmm_free_page pmm_free_pages managed owns foreign_word e h p _ (proj1 Hh) He Hl) as (h' & E & Hw' & R). exists h'. split; [done|]. by apply (holds_removes h).
Qed.
Lemma null_not h m : holds h m -> m !! 0 = None.
Proof. intros Hh. apply (holds_not h); [done|]. intros sz Hl. by destruct (live_managed hhdm pmm_alloc_page pmm_alloc_pages pmm_free_page pmm_free_pages managed owns h 0 sz (proj1 Hh) Hl). Qed.

Lemma calloc_call e num size h m : holds h m -> allowed (Kcalloc e num size) m -> exists r h' m', kcalloc e num size h = Ret (r, h') /\ holds h' m' /\ spec (Kcalloc e num size) r m m'.
Proof.
  intros Hh (He & Hn & Hs & Hsane). unfold is_size in *. cbn [spec]. unfold Heap.kcalloc. assert (Eov : nz size && (num >? SIZE_MAX / size) = negb (num * size <? 2 ^ 64)).
  { unfold nz, SIZE_MAX, UINT64_MAX. destruct (size =? 0) eqn:E0; reify_bools; [subst size; rewrite Z.mul_0_r; done|]. cbn [negb andb]. rewrite Z.gtb_ltb. pose proof (Z.div_mod (2 ^ 64 - 1) size ltac:(lia)). pose proof (Z.mod_pos_bound (2 ^ 64 - 1) size ltac:(lia)). change 18446744073709551615 with (2 ^ 64 - 1). destruct (num * size <? 2 ^ 64) eqn:E1; reify_bools; cbn [negb]; [apply Z.ltb_ge; nia|apply Z.ltb_lt; nia]. }
  rewrite Eov. destruct (num * size <? 2 ^ 64) eqn:E1; reify_bools; cbn [negb]; [|by exists 0, h, m]. cbv zeta. rewrite u64_id by nia. specialize (Hsane E1). destruct (malloc_call e (num * size) h m Hh He Hsane) as (r & h' & m' & E & Hh' & [[-> ->]|(Hr & H0 & En & l & -> & _ & Hl)]); rewrite E, ret_bind.
  - change (nz 0) with false. cbv iota. exists 0, h', m. split; [done|]. split; [done|]. by left.
  - unfold nz. rewrite (proj2 (Z.eqb_neq r 0) Hr). cbn [negb]. destruct (holds_live h' _ r l Hh' (lookup_insert_eq _ _ _)) as [Hlr _]. eexists r, _, _. split; [done|]. split; [eapply (holds_data h'); [exact Hh'|exact Hlr|]; intros x Hx; apply (memset_out _ _ _ _ r (Z.of_nat (length l))); [lia|lia|done]|]. right. do 3 (split; [done|]). eexists. split; [by rewrite insert_insert_eq|]. rewrite bytes_length by lia. split; [|done]. intros i Hi. rewrite bytes_at by lia. cbn [data set_data]. by rewrite memset_in by lia.
Qed.

Lemma ksize_call h m p : holds h m -> p = 0 \/ is_Some (m !! p) -> heap_ksize p h = Ret match m !! p with Some l => Z.of_nat (length l) | None => 0 end.
Proof.
  intros Hh [-> |[l El]]; [by rewrite (null_not h m Hh)|]. rewrite El. destruct (holds_live h m p l Hh El) as [Hl _]. apply (ksize_ok hhdm pmm_alloc_page pmm_alloc_pages pmm_free_page pmm_free_pages managed owns foreign_word h p _ (proj1 Hh) Hl).
Qed.

Lemma realloc_call e p size h m : holds h m -> allowed (Krealloc e p size) m -> exists r h' m', krealloc e p size h = Ret (r, h') /\ holds h' m' /\ spec (Krealloc e p size) r m m'.
Proof.
  intros Hh (He & Hs & Hp). cbn [spec]. unfold Heap.krealloc. destruct (p =? 0) eqn:E0; reify_bools; [subst p; rewrite (null_not h m Hh); by apply malloc_call|]. destruct Hp as [?|[l El]]; [done|]. rewrite El. destruct (size =? 0) eqn:E1; reify_bools.
  - destruct (free_call e h m p Hh He) as (h' & E & Hh'); [right; by exists l|]. rewrite E, ret_bind. by exists 0, h', (delete p m).
  - rewrite (ksize_call h m p Hh) by (right; by exists l). rewrite El, ret_bind. destruct (holds_live h m p l Hh El) as [Hl Hlb]. pose proof (live_pos h p _ (proj1 Hh) Hl) as Hpos. rewrite (proj2 (Z.eqb_neq _ _)) by lia. destruct (size <=? Z.of_nat (length l)) eqn:E2; reify_bools; [by exists p, h, m|].
    destruct (malloc_call e size h m Hh He Hs) as (r & h1 & m1 & E & Hh1 & [[-> ->]|(Hr & H0 & En & l1 & -> & _ & Hl1)]); rewrite E, ret_bind; [change (nz 0) with false; cbv iota; exists 0, h1, m; split; [done|]; split; [done|]; by left|]. unfold nz. rewrite (proj2 (Z.eqb_neq r 0) Hr). cbn [negb]. destruct (holds_live h1 _ r l1 Hh1 (lookup_insert_eq _ _ _)) as [Hlr _]. assert (Hne : r <> p) by congruence. assert (El1 : <[r := l1]> m !! p = Some l) by (by rewrite lookup_insert_ne). destruct (holds_live h1 _ p l Hh1 El1) as [_ Hb].
    set (f := memcpy r p (Z.of_nat (length l)) (data h1)). assert (Hh2 := holds_data h1 _ r _ f Hh1 Hlr). rewrite insert_insert_eq in Hh2. set (l2 := bytes (set_data f h1) r (Z.of_nat (length l1))) in *. destruct (free_call e (set_data f h1) (<[r := l2]> m) p) as (h' & E' & Hh'); [|done|right; exists l; by rewrite lookup_insert_ne|].
    { apply Hh2. intros x Hx. unfold f, memcpy. destruct (_ && _) eqn:Ex; [|done]. apply andb_true_iff in Ex as [X1 X2]. reify_bools. lia. }
    rewrite E', ret_bind. exists r, h', (delete p (<[r := l2]> m)). split; [done|]. split; [done|]. right. split; [done|]. split; [done|]. exists l2. split; [by rewrite delete_insert_ne|]. assert (Hll : Z.of_nat (length l2) = Z.of_nat (length l1)) by (subst l2; by rewrite bytes_length by lia). split; [lia|]. apply list_eq. intros i. destruct (decide (i < length l)%nat) as [Hi|Hi]; [|rewrite lookup_take_ge, lookup_ge_None_2 by lia; done]. rewrite lookup_take_lt by done. subst l2. replace i with (Z.to_nat (Z.of_nat i)) by lia. rewrite bytes_at by lia. rewrite Hb. rewrite bytes_at by lia. cbn [data set_data]. subst f. unfold memcpy. rewrite (proj2 (Z.leb_le _ _)), (proj2 (Z.ltb_lt _ _)) by lia. cbn [andb]. do 2 f_equal. lia.
Qed.

Lemma call_simulates c h m : holds h m -> allowed c m -> exists r h' m', heap_call c h = Ret (r, h') /\ holds h' m' /\ spec c r m m'.
Proof.
  intros Hh Ha. destruct c as [e size|e p|e num size|e p size|p|p i v| |]; cbn [heap_call].
  - destruct Ha. by apply malloc_call.
  - destruct Ha as [He Hp]. destruct (free_call e h m p Hh He Hp) as (h' & E & Hh'). rewrite E, ret_bind. by exists 0, h', (delete p m).
  - by apply calloc_call.
  - by apply realloc_call.
  - rewrite (ksize_call h m p Hh Ha), ret_bind. by eexists _, h, m.
  - destruct Ha as (l & El & Hi). destruct (holds_live h m p l Hh El) as [Hl Hlb]. eexists 0, _, _. split; [done|]. split; [eapply (holds_data h); [exact Hh|exact Hl|]; intros x Hx; apply (memset_out _ _ _ _ p (Z.of_nat (length l))); [lia|lia|done]|]. cbn [spec]. apply map_eq. intros q. destruct (decide (q = p)) as [->|Hne]; [|by rewrite lookup_insert_ne, lookup_alter_ne]. rewrite lookup_insert_eq, lookup_alter_eq, El. cbn. f_equal. apply list_eq. intros j. destruct (decide (j < length l)%nat) as [Hj|Hj].
    + replace j with (Z.to_nat (Z.of_nat j)) at 1 by lia. rewrite bytes_at by lia. cbn [data set_data]. destruct (decide (j = Z.to_nat i)) as [->|Hji]; [rewrite list_lookup_insert_eq by lia; by rewrite memset_in by lia|]. rewrite list_lookup_insert_ne by done. rewrite (memset_out _ _ _ _ (p + i) 1) by lia. replace (l !! j) with (bytes h p (Z.of_nat (length l)) !! Z.to_nat (Z.of_nat j)) by (rewrite <- Hlb; f_equal; lia). by rewrite bytes_at by lia.
    + rewrite !lookup_ge_None_2; [done|rewrite length_insert; lia|pose proof (bytes_length (set_data (memset (p + i) v 1 (data h)) h) p (Z.of_nat (length l))); lia].
  - destruct (flush_all_ok hhdm pmm_alloc_page pmm_alloc_pages pmm_free_page pmm_free_pages managed owns h (proj1 Hh)) as (h' & E & Hw' & K). rewrite E, ret_bind. exists 0, h', m. split; [done|]. split; [by apply (holds_keeps h)|done].
  - destruct (heap_reclaim_ok hhdm pmm_alloc_page pmm_alloc_pages pmm_free_page pmm_free_pages managed owns kmem_cache_shrink_all other_reclaim h Shrink Other (proj1 Hh)) as (h' & E & Hw' & K). rewrite E, ret_bind. exists 0, h', m. split; [done|]. split; [by apply (holds_keeps h)|done].
Qed.
End Spec.
End HeapSpec.
