(* ===== verification/HeapRun.v ===== *)
(** HeapRun: programs that use the heap, the heap at boot, and what is left when every
    object has been freed. *)

From S2P Require Import Prelude Heap HeapSafe HeapSlab HeapMag HeapCalls HeapApi HeapSpec.
From stdpp Require Import list_relations.
#[local] Open Scope Z_scope.

Module HeapRun.
Import Heap HeapSafe HeapSlab HeapMag HeapCalls HeapApi HeapSpec.

(** A user of the heap: a call, and what follows its result. *)
Inductive client := Done | Call (c : call) (k : Z -> client).
(** The calls are allowed whatever the specification lets the earlier ones return. *)
Fixpoint safe_client (t : client) (m : objects) : Prop := match t with Done => True | Call c k => allowed c m /\ forall r m', spec c r m m' -> safe_client (k r) m' end.
Fixpoint spec_client (t : client) (m m' : objects) : Prop := match t with Done => m' = m | Call c k => exists r m1, spec c r m m1 /\ spec_client (k r) m1 m' end.

Section Run.
Context {P : Type} (hhdm : Z) (pmm_alloc_page : P -> outcome (Z * P)) (pmm_alloc_pages : Z -> P -> outcome (Z * P)) (pmm_free_page : Z -> P -> outcome P) (pmm_free_pages : Z -> Z -> P -> outcome P) (managed : Z -> bool) (owns : P -> gmap Z Z -> Prop).
Context (kmem_cache_shrink_all other_reclaim : P -> outcome P) (foreign_word : Z -> Z).
Notation heap := (heap P).
Notation heap_call := (heap_call hhdm pmm_alloc_page pmm_alloc_pages pmm_free_page pmm_free_pages managed kmem_cache_shrink_all other_reclaim foreign_word).
Notation whole := (whole hhdm owns).
Notation holds := (holds hhdm owns).

Fixpoint run_client (t : client) (h : heap) : outcome heap := match t with Done => Ret h | Call c k => '(r, h) ← heap_call c h; run_client (k r) h end.
(** The heap before [heap_init]: the static data of the kernel. *)
Definition boot_heap (p : P) (d : Z -> Z) : heap := mk_heap ∅ heap_caches 0 (replicate 64 (replicate 4 [])) false false p d (mk_log (fun _ => (0, 0)) 0).

Context {Source : PageSource hhdm pmm_alloc_page pmm_alloc_pages pmm_free_page pmm_free_pages managed owns} {Shrink : Reclaimer owns kmem_cache_shrink_all} {Other : Reclaimer owns other_reclaim}.

Lemma client_simulates t : forall h m, holds h m -> safe_client t m -> exists h' m', run_client t h = Ret h' /\ spec_client t m m' /\ holds h' m'.
Proof.
  induction t as [|c k IH]; intros h m Hh Hs; cbn [run_client spec_client]; [by exists h, m|]. destruct Hs as [Ha Hk]. destruct (call_simulates hhdm pmm_alloc_page pmm_alloc_pages pmm_free_page pmm_free_pages managed owns kmem_cache_shrink_all other_reclaim foreign_word c h m Hh Ha) as (r & h1 & m1 & E & Hh1 & Sp). rewrite E, ret_bind. destruct (IH r h1 m1 Hh1 (Hk r m1 Sp)) as (h' & m' & E' & Sp' & Hh'). exists h', m'. split; [done|]. split; [|done]. by exists r, m1.
Qed.

Lemma heap_init_holds p d : owns p ∅ -> holds (heap_init (boot_heap p d)) ∅.
Proof.
  intros Ho. split.
  - exists (fun _ => []), (fun _ => []), [], ∅. split; [|split; [|split]].
    + split; [done| | | |intros ci a _ Ha; by apply not_elem_of_nil in Ha|intros ci a _ Ha; by apply not_elem_of_nil in Ha|intros a c Ec; unfold core_of in Ec; cbn in Ec; by rewrite lookup_empty in Ec].
      * apply class_cases; done.
      * intros ci _. split; [done|]. split; [constructor|apply not_elem_of_nil].
      * intros ci _. split; [done|]. split; [constructor|apply not_elem_of_nil].
    + split; [done| | |intros x n Ex; by rewrite lookup_empty in Ex]; intros a x Ex; unfold core_of, big_of in Ex; cbn in Ex; by rewrite lookup_empty in Ex.
    + split; [done|split; [done|]; split; [constructor|apply not_elem_of_nil]|]. intros a b Eb. unfold big_of in Eb. cbn in Eb. by rewrite lookup_empty in Eb.
    + split; cbn -[replicate]; [done| | |].
      * intros c m Em. apply lookup_replicate in Em as [-> _]. done.
      * intros c m k l Em Ek. apply lookup_replicate in Em as [-> _]. apply lookup_replicate in Ek as [-> _]. split; [cbn; lia|constructor].
      * vm_compute. constructor.
  - intros q l. rewrite lookup_empty. split; [done|]. intros (sz & [(ci & [(a & i & c & Ec & _) _] & _)|(b & Eb & _)] & _); exfalso; [unfold core_of in Ec|unfold big_of in Eb]; cbn in *; by rewrite lookup_empty in *.
Qed.

(** ** Flushes empty the per-CPU caches *)

Lemma set_magazine_at c ci l (h h' : heap) : set_magazine c ci l h = Ret h' -> exists m, 0 <= c /\ 0 <= ci /\ magazines h !! Z.to_nat c = Some m /\ magazines h' = <[Z.to_nat c := <[Z.to_nat ci := l]> m]> (magazines h).
Proof.
  unfold set_magazine. intros E. apply bind_Ret in E as (m & E1 & E). apply arr_get_Some in E1 as [Hc Em]. apply bind_Ret in E as (m' & E2 & E). apply bind_Ret in E as (ms & E3 & E). injection E as <-. exists m. unfold arr_set in *. destruct ((0 <=? ci) && (ci <? Z.of_nat (length m))) eqn:B1; [|done]. destruct ((0 <=? c) && (c <? Z.of_nat (length (magazines h)))); [|done]. injection E2 as <-. injection E3 as <-. apply andb_true_iff in B1 as [B1 _]. reify_bools. done.
Qed.
Definition empty_at (h : heap) (x k : nat) : Prop := forall m l, magazines h !! x = Some m -> m !! k = Some l -> l = [].
Lemma flush_classes_empties c : 0 <= c < 64 -> forall cis h h', Forall (fun ci => 0 <= ci < 4) cis -> whole h -> flush_classes hhdm pmm_free_page c cis h = Ret h' -> forall x k, empty_at h x k \/ x = Z.to_nat c /\ Z.of_nat k ∈ cis -> empty_at h' x k.
Proof.
  intros Hc. induction cis as [|ci cis IH]; intros h h' HF Hw E x k Hx; cbn [flush_classes] in E; [injection E as <-; destruct Hx as [?|[_ H]]; [done|by apply not_elem_of_nil in H]|]. apply Forall_cons in HF as [Hci HF]. destruct (flush_class_ok hhdm pmm_alloc_page pmm_alloc_pages pmm_free_page pmm_free_pages managed owns h c ci Hw Hc Hci) as (l & h1 & h2 & E1 & E2 & E3 & Hw2 & _ & Em). rewrite E1, ret_bind, E2, ret_bind, E3, ret_bind in E. apply (IH h2 h' HF Hw2 E). destruct (set_magazine_at c ci [] h h1 E2) as (m & _ & _ & Eold & Enew).
  destruct (decide (x = Z.to_nat c /\ k = Z.to_nat ci)) as [[-> ->]|Hne].
  - left. intros m' l' Em' El'. rewrite Em, Enew in Em'. rewrite list_lookup_insert_eq in Em' by (by apply lookup_lt_Some in Eold). injection Em' as <-. apply list_lookup_insert_Some in El' as [(_ & <- & _)|[? _]]; done.
  - destruct Hx as [Hx|[-> Hk]]; [left|right; split; [done|]; apply elem_of_cons in Hk as [Hk|Hk]; [|done]; exfalso; apply Hne; split; [done|lia]]. intros m' l' Em' El'. rewrite Em, Enew in Em'. destruct (decide (x = Z.to_nat c)) as [->|Hxc]; [|rewrite list_lookup_insert_ne in Em' by done; by apply (Hx m')]. rewrite list_lookup_insert_eq in Em' by (by apply lookup_lt_Some in Eold). injection Em' as <-. rewrite list_lookup_insert_ne in El' by (intros <-; by apply Hne). by apply (Hx m).
Qed.
Lemma flush_cpus_empties l : forall h h', Forall (fun c => 0 <= c < 64) l -> whole h -> flush_cpus hhdm pmm_free_page l h = Ret h' -> forall x k, empty_at h x k \/ Z.of_nat x ∈ l /\ (k < 4)%nat -> empty_at h' x k.
Proof.
  induction l as [|c l IH]; intros h h' HF Hw E x k Hx; cbn [flush_cpus] in E; [injection E as <-; destruct Hx as [?|[H _]]; [done|by apply not_elem_of_nil in H]|]. apply Forall_cons in HF as [Hc HF]. unfold heap_pcpu_flush_cpu, MAX_CPUS in E. rewrite Z.geb_leb, (proj2 (Z.leb_gt _ _)) in E by lia. assert (H4 : Forall (fun ci => 0 <= ci < 4) (seqZ 0 HEAP_PCPU_CLASSES)) by (apply Forall_forall; intros y Hy; apply elem_of_seqZ in Hy; unfold HEAP_PCPU_CLASSES in Hy; lia).
  destruct (flush_classes_ok hhdm pmm_alloc_page pmm_alloc_pages pmm_free_page pmm_free_pages managed owns c Hc (seqZ 0 HEAP_PCPU_CLASSES) h H4 Hw) as (h1 & E1 & Hw1 & _). rewrite E1, ret_bind in E. apply (IH h1 h' HF Hw1 E). destruct Hx as [Hx|[Hx Hk]]; [left; apply (flush_classes_empties c Hc _ h h1 H4 Hw E1); by left|]. apply elem_of_cons in Hx as [Hx|Hx]; [left|by right]. apply (flush_classes_empties c Hc _ h h1 H4 Hw E1). right. split; [lia|]. apply elem_of_seqZ. unfold HEAP_PCPU_CLASSES. lia.
Qed.
Lemma flush_all_empties h h' : whole h -> whole h' -> heap_pcpu_flush_all hhdm pmm_free_page h = Ret h' -> parked h' = [].
Proof.
  intros Hw Hw' E. destruct (parked h') as [|q l] eqn:Ep; [done|]. exfalso. assert (Hq : q ∈ parked h') by (rewrite Ep; left). unfold parked in Hq. apply list_elem_of_In, in_concat in Hq as (lk & Hk & Hq). apply in_concat in Hk as (m & Hm & Hk). apply list_elem_of_In, list_elem_of_lookup_1 in Hm as [x Hm]. apply list_elem_of_In, list_elem_of_lookup_1 in Hk as [k Hk]. destruct Hw' as (_ & _ & _ & _ & _ & _ & _ & M). pose proof (mg_cpus _ M). pose proof (mg_classes _ M x m Hm). pose proof (lookup_lt_Some _ _ _ Hm). pose proof (lookup_lt_Some _ _ _ Hk).
  assert (He : empty_at h' x k). { apply (flush_cpus_empties (seqZ 0 MAX_CPUS) h h'); [apply Forall_forall; intros y Hy; apply elem_of_seqZ in Hy; unfold MAX_CPUS in Hy; lia|done|done|]. right. split; [apply elem_of_seqZ; unfold MAX_CPUS; lia|lia]. } rewrite (He m lk Hm Hk) in Hq. done.
Qed.

(** A heap without objects, in use or parked, has no pages. *)
Lemma used_some l total : 0 < used l total -> exists i, 0 <= i < total /\ bm_test l i = true.
Proof.
  unfold used. assert (H : forall m, 0 < countb (bm_test l) m -> exists i, i ∈ m /\ bm_test l i = true).
  { induction m as [|x m IH]; cbn [countb]; [lia|]. destruct (bm_test l x) eqn:E; [intros _; exists x; split; [left|done]|]. cbn [Z.b2z]. intros Hm. destruct IH as (i & Hi & Hb); [lia|]. exists i. split; [by right|done]. }
  intros Hu. destruct (H _ Hu) as (i & Hi & Hb). apply elem_of_seqZ in Hi. exists i. split; [lia|done].
Qed.
Lemma empty_pages (h : heap) : holds h ∅ -> parked h = [] -> mem h = ∅ /\ owns (pmm h) ∅.
Proof.
  intros Hh Hp. assert (Hno : forall p sz, ~ live h p sz) by (intros p; apply (holds_not hhdm owns h ∅ p Hh); apply lookup_empty). destruct Hh as [(vp & vf & vb & B & S & T & Hb & M) _]. assert (Hm : mem h = ∅).
  { apply map_eq. intros a. rewrite lookup_empty. destruct (mem h !! a) as [[s|b]|] eqn:E; [exfalso| |done].
    - assert (Ec : core_of h a = Some (strip s)) by (unfold core_of; by rewrite E). destruct (slabs_cache h vp vf a _ S Ec) as (Hci & _ & K). cbn [cache strip] in Hci, K. pose proof (sl_range _ _ _ _ K) as Hr. rewrite (sl_count _ _ _ _ K) in Hr. destruct (used_some (bitmap (strip s)) (objs (cache s))) as (i & Hi & Hbit); [lia|]. apply (Hno (a + 64 + i * osize (cache s)) (osize (cache s))). left. exists (cache s). split; [|done]. split; [by exists a, i, (strip s)|]. rewrite Hp. apply not_elem_of_nil.
    - exfalso. apply (Hno (a + 64) (pages b * PAGE_SIZE - 64)). right. exists b. replace (a + 64 - 64) with a by lia. unfold big_of. by rewrite E. }
  split; [done|]. assert (B = ∅) as <-; [|exact (ti_owns _ _ _ _ T)]. apply map_eq. intros x. rewrite lookup_empty. destruct (B !! x) as [n|] eqn:E; [|done]. destruct (ti_all _ _ _ _ T x n E) as [y Hy]. rewrite Hm, lookup_empty in Hy. done.
Qed.
Lemma empty_caches (h : heap) : whole h -> mem h = ∅ -> caches h = heap_caches.
Proof.
  intros (vp & vf & vb & B & S & _) Hm. assert (Hnil : forall ci, 0 <= ci < 6 -> vp ci = [] /\ vf ci = []).
  { intros ci Hci. split; [destruct (vp ci) as [|a l] eqn:E|destruct (vf ci) as [|a l] eqn:E]; [done| |done|]; exfalso.
    - destruct (so_pc _ _ _ _ S ci a Hci) as (c & Ec & _); [rewrite E; left|done|]. unfold core_of in Ec. by rewrite Hm, lookup_empty in Ec.
    - destruct (so_fc _ _ _ _ S ci a Hci) as (c & Ec & _); [rewrite E; left|done|]. unfold core_of in Ec. by rewrite Hm, lookup_empty in Ec. }
  assert (Hc : forall ci, 0 <= ci < 6 -> caches h !! Z.to_nat ci = heap_caches !! Z.to_nat ci).
  { intros ci Hci. rewrite (so_cache _ _ _ _ S ci Hci). destruct (Hnil ci Hci) as [-> ->]. revert ci Hci. apply class_cases; done. }
  apply list_eq. intros i. destruct (decide (i < 6)%nat) as [Hi|Hi]; [replace i with (Z.to_nat (Z.of_nat i)) by lia; apply Hc; lia|]. rewrite !lookup_ge_None_2; [done|cbn; lia|rewrite (so_length _ _ _ _ S); lia].
Qed.
Lemma empty_big (h : heap) : whole h -> mem h = ∅ -> big_head h = 0.
Proof.
  intros (vp & vf & vb & B & S & T & [B1 (B2 & _) _] & M) Hm. rewrite B1. destruct vb as [|a vb]; [done|]. exfalso. destruct B2 as [La _]. unfold blink_of, big_of in La. by rewrite Hm, lookup_empty in La.
Qed.
End Run.
(** ** The log of frees *)

Lemma heap_slot_step n k : u32 (u32 (n + 1) - (k + 1)) = u32 (n - k).
Proof. unfold u32. rewrite Zminus_mod_idemp_l. by replace (n + 1 - (k + 1)) with (n - k) by lia. Qed.
Lemma slot_mod x : u32 x mod 256 = x mod 256.
Proof. unfold u32. change (2 ^ 32) with (256 * 2 ^ 24). rewrite Z.rem_mul_r by lia. rewrite Z.mul_comm, Z.mod_add, Z.mod_mod by lia. done. Qed.
Lemma scan_app k1 : forall k2 n ptr t, trace_scan (k1 + k2) n ptr t = trace_scan k1 n ptr t ++ trace_scan k2 (n + Z.of_nat k1) ptr t.
Proof.
  induction k1 as [|k1 IH]; intros k2 n ptr t; cbn [trace_scan Nat.add]; [by replace (n + Z.of_nat 0) with n by lia|]. destruct (kfree_trace t _) as [p c]. rewrite IH, <- app_assoc. do 3 f_equal. lia.
Qed.
(** A record shows up at the end of the scan, behind the older entries. *)
Lemma scan_older ptr q c t k : forall n, 0 <= n -> n + Z.of_nat k <= 255 -> trace_scan k (n + 1) q (heap_trace_record ptr c t) = trace_scan k n q t.
Proof.
  induction k as [|k IH]; intros n Hn Hk; cbn [trace_scan]; [done|]. rewrite IH by lia. f_equal. cbn [heap_trace_record kfree_trace kfree_trace_next]. rewrite heap_slot_step. unfold KFREE_TRACE_DEPTH. rewrite !slot_mod. rewrite (proj2 (Z.eqb_neq ((kfree_trace_next t - n) mod 256) ((kfree_trace_next t + 1) mod 256))); [done|]. intros E. assert (Hd : ((kfree_trace_next t + 1) - (kfree_trace_next t - n)) mod 256 = 0) by (rewrite Zminus_mod, E, Z.sub_diag; done). replace (_ - _) with (n + 1) in Hd by lia. rewrite Z.mod_small in Hd by lia. lia.
Qed.
Lemma scan_recorded ptr c t : c <> 0 -> trace_scan 256 1 ptr (heap_trace_record ptr c t) = trace_scan 255 0 ptr t ++ [c].
Proof.
  intros Hc. change 256%nat with (255 + 1)%nat. rewrite scan_app. change 1 with (0 + 1) at 1. rewrite (scan_older ptr ptr c t 255 0) by lia. f_equal. cbn [trace_scan]. change (1 + Z.of_nat 255) with (255 + 1). cbn [heap_trace_record kfree_trace kfree_trace_next]. rewrite heap_slot_step. unfold KFREE_TRACE_DEPTH. rewrite !slot_mod. replace ((kfree_trace_next t - 255) mod 256) with ((kfree_trace_next t + 1) mod 256) by (replace (kfree_trace_next t + 1) with ((kfree_trace_next t - 255) + 1 * 256) by lia; by rewrite Z.mod_add by lia). rewrite Z.eqb_refl. cbn. rewrite Z.eqb_refl. unfold nz. by rewrite (proj2 (Z.eqb_neq c 0) Hc).
Qed.
End HeapRun.
