(* ===== verification/HeapPmm.v ===== *)
(** HeapPmm: the page allocator of the kernel is the page source of the heap. *)

From S2P Require Import Prelude Pmm PmmLists PmmBuddy PmmApi PmmSafe PmmCalls Heap HeapSafe HeapMag HeapSpec HeapRun.
From stdpp Require Import list_relations.
#[local] Open Scope Z_scope.

Module HeapPmm.
Import Pmm PmmLists PmmBuddy PmmApi PmmSafe.

Section Source.
Context (lowest highest hhdm : Z) (Hcfg : config lowest highest hhdm) (mg : list Z).
Notation in_range := (in_range lowest highest).
Notation safe := (safe lowest highest hhdm).
Notation ref := (ref lowest).
Notation mbit := (mbit lowest).

(** The state of the page allocator, and the CPUs on which its next calls run. *)
Notation source := (machine * list (option Z))%type.
Definition on_cpu {A} (f : option Z -> machine -> outcome (A * machine)) (p : source) : outcome (A * source) := '(a, m) ← f (hd None p.2) p.1; Ret (a, (m, tl p.2)).
Definition alloc_page : source -> outcome (Z * source) := on_cpu (pmm_alloc_page lowest highest hhdm).
Definition alloc_pages (n : Z) : source -> outcome (Z * source) := on_cpu (fun cpu => pmm_alloc_pages lowest highest hhdm cpu n).
Definition free_page (a : Z) (p : source) : outcome source := m ← pmm_free_page lowest highest hhdm (hd None p.2) a p.1; Ret (m, tl p.2).
Definition free_pages (a n : Z) (p : source) : outcome source := m ← pmm_free_pages lowest highest hhdm a n p.1; Ret (m, p.2).
Definition is_managed (v : Z) : bool := (hhdm <=? v) && bool_decide (in_range ((v - hhdm) / 4096)) && bit_at mg ((v - hhdm) / 4096 - lowest).

(** The heap holds the blocks [B]: each is an aligned power of two of managed pages, all
    with one reference. *)
Definition extent (n : Z) : Z := 2 ^ pmm_get_order n.
Record block_ok (m : machine) (a n : Z) : Prop := mk_block {
  bk_pos : 0 < n <= extent n;
  bk_at : exists b, a = b * 4096 /\ 0 < b /\ lowest <= b /\ b + extent n <= highest /\ forall i, b <= i < b + extent n -> ref m i = Some 1 /\ bit_at mg (i - lowest) = true }.
Definition apart (a n b k : Z) : Prop := b + 4096 * extent k <= a \/ a + 4096 * extent n <= b.
Record owns (p : source) (B : gmap Z Z) : Prop := mk_owns {
  ow_safe : exists fl, safe p.1 fl;
  ow_cpus : Forall valid_cpu p.2;
  ow_managed : managed (pm p.1) = mg;
  ow_blocks : forall a n, B !! a = Some n -> block_ok p.1 a n;
  ow_apart : forall a n b k, B !! a = Some n -> B !! b = Some k -> a <> b -> apart a n b k }.

Lemma order_pos n : 0 <= pmm_get_order n.
Proof. pose proof (get_order_ok n) as [H _]. lia. Qed.
Lemma extent_pos n : 1 <= extent n.
Proof. unfold extent. pose proof (order_pos n). pose proof (Z.pow_pos_nonneg 2 (pmm_get_order n)). lia. Qed.
Lemma cpu_head cs : Forall valid_cpu cs -> valid_cpu (hd None cs) /\ Forall valid_cpu (tl cs).
Proof. destruct cs as [|c cs]; [done|]. intros H. by apply Forall_cons in H. Qed.

(** The blocks that stay, when the counts of their pages do. *)
Lemma blocks_stay (m m' : machine) (B : gmap Z Z) : (forall a n, B !! a = Some n -> block_ok m a n) -> (forall a n b i, B !! a = Some n -> a = b * 4096 -> b <= i < b + extent n -> in_range i -> ref m' i = ref m i) -> forall a n, B !! a = Some n -> block_ok m' a n.
Proof.
  intros H Hr a n E. destruct (H a n E) as [H1 (b & Ea & H2 & H3 & H4 & H5)]. split; [done|]. exists b. do 4 (split; [done|]). intros i Hi. rewrite (Hr a n b i E Ea Hi); [by apply H5|]. unfold PmmBuddy.in_range. lia.
Qed.

Lemma source_alloc p B n (r : outcome (Z * machine)) : owns p B -> 0 < n <= extent n -> gives lowest highest hhdm r p.1 (pmm_get_order n) (fun _ => True) -> forall cs, Forall valid_cpu cs -> exists a m', r = Ret (a, m') /\ (a = 0 /\ owns (m', cs) B \/ a <> 0 /\ HeapSafe.clear_of B a n /\ owns (m', cs) (<[a := n]> B)).
Proof.
  intros [_ _ Om Ob Oa] Hn (a & m' & fl' & -> & S' & K & H) cs Hcs. exists a, m'. split; [done|]. destruct H as [[-> R]|(b & -> & [(G1 & G2 & G3 & G4) G5 G6] & _)].
  - left. split; [done|]. split; [by exists fl'|done|cbn; rewrite (k_managed _ _ K); done| |done]. apply (blocks_stay p.1); [done|]. intros a n' b i _ _ _ Hi. by apply R.
  - right. unfold PAGE_SIZE. fold (extent n) in G4. split; [lia|]. assert (Hap : forall a k, B !! a = Some k -> apart (b * 4096) n a k).
    { intros a k E. destruct (Ob a k E) as [_ (x & -> & X1 & X2 & X3 & X4)]. unfold apart. destruct (decide (x + extent k <= b)); [left; lia|]. destruct (decide (b + extent n <= x)); [right; lia|]. exfalso. assert (Hw : within b (pmm_get_order n) (Z.max b x)) by (unfold within; fold (extent n); pose proof (extent_pos k); pose proof (extent_pos n); lia). destruct (G5 _ Hw) as (_ & E0 & _). destruct (X4 (Z.max b x)) as [E1 _]; [pose proof (extent_pos k); pose proof (extent_pos n); lia|]. congruence. }
    split; [intros a k E; destruct (Hap a k E) as [H|H]; unfold Heap.PAGE_SIZE; destruct (Ob a k E) as [Hk _]; lia|]. split; [by exists fl'|done|cbn; rewrite (k_managed _ _ K); done| |].
    + intros a k. destruct (decide (a = b * 4096)) as [->|Hne].
      * rewrite lookup_insert_eq. intros [= <-]. split; [done|]. exists b. do 3 (split; [done|]). split; [lia|]. intros i Hi. destruct (G5 i) as (E1 & _ & E2); [exact Hi|]. split; [done|]. unfold PmmBuddy.mbit in E1. by rewrite Om in E1.
      * rewrite lookup_insert_ne by done. intros E. apply (blocks_stay p.1 m' B Ob); [|done]. intros a' k' b' i E' -> Hi Hr. apply G6; [done|]. intros Hw. destruct (Hap (b' * 4096) k' E') as [H|H]; unfold within in Hw; fold (extent n) in Hw; lia.
    + intros a k a' k' E E' Hne. destruct (decide (a = b * 4096)) as [->|Ha], (decide (a' = b * 4096)) as [->|Ha']; [done| | |].
      * rewrite lookup_insert_eq in E. rewrite lookup_insert_ne in E' by done. injection E as <-. by apply Hap.
      * rewrite lookup_insert_eq in E'. rewrite lookup_insert_ne in E by done. injection E' as <-. destruct (Hap a k E) as [H|H]; [right|left]; exact H.
      * rewrite lookup_insert_ne in E, E' by done. by apply (Oa a k a' k').
Qed.

(** A request above the largest order is refused. *)
Lemma try_nodes_none pick alloc allowed id fb m : (forall k s, alloc k s = Ret (0, s)) -> forall p m', try_nodes pick alloc allowed id fb m = Ret (p, m') -> p = 0.
Proof.
  intros Ho. revert m. induction fb as [|t fb IH]; intros m p m' E; cbn [try_nodes] in E; [by injection E|]. destruct ((t =? NUMA_NO_NODE) || (t =? id)); [by apply (IH m p m')|]. apply bind_Ret in E as (an & _ & E). apply bind_Ret in E as (on & _ & E). destruct (negb on || negb (allowed t)); [by apply (IH m p m')|]. rewrite Ho, ret_bind in E. change (nz 0) with false in E. cbv iota in E. by apply IH in E.
Qed.
Lemma alloc_too_big cpu n m p m' : MAX_ORDER <= pmm_get_order n -> pmm_alloc_pages lowest highest hhdm cpu n m = Ret (p, m') -> p = 0.
Proof.
  intros Ho E. assert (Hno : forall k s, buddy_alloc_internal lowest highest hhdm k (pmm_get_order n) s = Ret (0, s)) by (intros k s; unfold buddy_alloc_internal; by rewrite Z.geb_leb, (proj2 (Z.leb_le _ _) Ho)). unfold pmm_alloc_pages in E. destruct (n =? 0) eqn:E0; [by injection E|]. apply bind_Ret in E as (node & _ & E). unfold pmm_alloc_pages_node, pmm_alloc_pages_nodemask in E. rewrite E0 in E. apply bind_Ret in E as (id & _ & E). cbv zeta in E. rewrite Hno, ret_bind in E. destruct (mask_allows 0 id); rewrite ret_bind in E; change (nz 0) with false in E; cbv iota in E; apply bind_Ret in E as (nd & _ & E); by apply try_nodes_none in E.
Qed.
(** The counts of one block go down, or stay; the other blocks keep theirs. *)
Lemma source_free p B a n (m' : machine) fl' : owns p B -> B !! a = Some n -> safe m' fl' -> managed (pm m') = managed (pm p.1) -> (forall j, in_range j -> ~ a <= j * 4096 < a + 4096 * extent n -> ref m' j = ref p.1 j) -> forall cs, Forall valid_cpu cs -> owns (m', cs) (delete a B).
Proof.
  intros [_ _ Om Ob Oa] E S' Hm Hr cs Hcs. split; [by exists fl'|done|cbn; congruence| |].
  - apply (blocks_stay p.1); [intros x k Ex; apply lookup_delete_Some in Ex as [_ Ex]; by apply Ob|]. intros x k b i Ex -> Hi Hri. apply lookup_delete_Some in Ex as [Hne Ex]. apply Hr; [done|]. destruct (Oa _ _ _ _ E Ex Hne) as [H|H]; lia.
  - intros x k y l Ex Ey Hne. apply lookup_delete_Some in Ex as [_ Ex]. apply lookup_delete_Some in Ey as [_ Ey]. by apply (Oa x k y l).
Qed.
Lemma extent_one : extent 1 = 1.
Proof. reflexivity. Qed.

#[export] Instance pmm_source : HeapSafe.PageSource hhdm alloc_page alloc_pages free_page free_pages is_managed owns.
Proof.
  split.
  - destruct Hcfg as [_ _ H1 H2]. unfold KERNEL_BASE in H1. split; [lia|]. apply Z.mod_divide; [done|]. apply Z.divide_trans with (2 ^ 31); [by exists (2 ^ 19)|done].
  - intros p B O. destruct (ow_safe _ _ O) as [fl S]. destruct (cpu_head p.2 (ow_cpus _ _ O)) as [Hc Hcs]. destruct (source_alloc p B 1 _ O ltac:(rewrite extent_one; lia) (alloc_page_ok lowest highest hhdm Hcfg p.1 fl _ S Hc) _ Hcs) as (a & m' & E & H). unfold alloc_page, on_cpu. rewrite E, ret_bind. by exists a, (m', tl p.2).
  - intros p B n O Hn. destruct (ow_safe _ _ O) as [fl S]. destruct (cpu_head p.2 (ow_cpus _ _ O)) as [Hc Hcs]. pose proof (alloc_pages_ok lowest highest hhdm Hcfg p.1 fl _ n S Hc) as G. unfold alloc_pages, on_cpu. destruct (get_order_ok n) as (R1 & R2 & _). destruct (decide (0 < n /\ pmm_get_order n < 20)) as [[H0 H20]|Hno].
    + destruct (source_alloc p B n _ O ltac:(unfold extent; lia) G _ Hcs) as (a & m' & E & H). rewrite E, ret_bind. by exists a, (m', tl p.2).
    + destruct G as (a & m' & fl' & E & S' & K & H). assert (Ea : a = 0). { destruct (decide (n = 0)) as [->|Hn0]; [unfold pmm_alloc_pages in E; cbn [Z.eqb] in E; by injection E|]. apply (alloc_too_big (hd None p.2) n p.1 a m'); [unfold MAX_ORDER; lia|done]. } rewrite E, ret_bind. exists a, (m', tl p.2). split; [done|]. left. split; [done|]. destruct H as [[_ R]|(b & Eb & [(G1 & _) _ _] & _)]; [|unfold PAGE_SIZE in Eb; lia]. destruct O as [_ _ Om Ob Oa]. split; [by exists fl'|done|cbn; rewrite (k_managed _ _ K); done| |done]. apply (blocks_stay p.1); [done|]. intros x k b i _ _ _ Hi. by apply R.
  - intros p B a O E. destruct (ow_safe _ _ O) as [fl S]. destruct (cpu_head p.2 (ow_cpus _ _ O)) as [Hc Hcs]. destruct (decref_ok lowest highest hhdm Hcfg p.1 fl _ a S Hc) as (b & _ & (m' & fl' & E' & S' & K & R)). unfold free_page, pmm_free_page. rewrite E', ret_bind. eexists. split; [done|]. apply (source_free p B a 1 m' fl'); [done|done|done|apply (k_managed _ _ K)| |done]. intros j Hj Hout. rewrite R by done. rewrite extent_one in Hout. destruct (ow_blocks _ _ O a 1 E) as [_ (x & -> & _)]. unfold PAGE_SIZE. rewrite Z.div_mul by lia. rewrite decide_False; [done|]. intros ->. lia.
  - intros p B a n O E. destruct (ow_safe _ _ O) as [fl S]. destruct (ow_blocks _ _ O a n E) as [Hn (x & -> & X1 & _)]. destruct (free_pages_ok lowest highest hhdm Hcfg p.1 fl (x * 4096) n S ltac:(lia) ltac:(lia)) as (m' & fl' & E' & S' & K & H). unfold free_pages. rewrite E', ret_bind. eexists. split; [done|]. apply (source_free p B (x * 4096) n m' fl'); [done|done|done|apply (k_managed _ _ K)| |apply (ow_cpus _ _ O)]. intros j Hj Hout. destruct H as [[R _]|(o & b & (-> & Eb & _) & R)]; [by apply R|]. rewrite R by done. unfold PAGE_SIZE in Eb. assert (b = x) as -> by lia. rewrite decide_False; [done|]. unfold within. fold (extent n). lia.
  - intros p B a n O E. destruct (ow_blocks _ _ O a n E) as [Hn (x & -> & X1 & X2 & X3 & X4)]. destruct Hcfg as [H1 H2 H3 _]. unfold KERNEL_BASE, Heap.PAGE_SIZE, Pmm.PAGE_SIZE in *. split; [lia|]. split; [lia|]. split; [apply Z.mod_mul; lia|]. split; [lia|]. intros y Hy. unfold is_managed. replace (y + hhdm - hhdm) with y by lia. assert (Hd : x <= y / 4096 < x + extent n) by (split; [apply Z.div_le_lower_bound; lia|apply Z.div_lt_upper_bound; lia]). rewrite (proj2 (Z.leb_le _ _)), bool_decide_eq_true_2 by (unfold PmmBuddy.in_range; lia). cbn [andb]. by apply X4.
  - intros p B a n b k O Ea Eb Hne. destruct (ow_blocks _ _ O a n Ea) as [Hn _]. destruct (ow_blocks _ _ O b k Eb) as [Hk _]. unfold Heap.PAGE_SIZE. destruct (ow_apart _ _ O a n b k Ea Eb Hne); lia.
Qed.
(** [is_managed] is the test of the code. *)
Lemma is_managed_test p B v : owns p B -> 0 <= v -> pmm_kernel_ptr_is_managed lowest highest hhdm (pm p.1) v = Ret (is_managed v).
Proof.
  intros O Hv. destruct (ow_safe _ _ O) as [fl S]. pose proof (is_managed_ok lowest highest hhdm (pm p.1) fl ((v - hhdm) / 4096)) as H. destruct Hcfg as [_ _ H3 _]. unfold KERNEL_BASE in H3. unfold pmm_kernel_ptr_is_managed, is_managed. destruct (v <? hhdm) eqn:E; reify_bools; [rewrite orb_true_r; by rewrite (proj2 (Z.leb_gt hhdm v)) by lia|]. rewrite (proj2 (Z.eqb_neq v 0)), (proj2 (Z.leb_le hhdm v)) by lia. cbn [orb andb]. unfold pmm_is_managed in *. unfold PAGE_SIZE in *. rewrite Z.div_mul in H by lia. rewrite H by apply (v_core _ _ _ _ _ (s_inv _ _ _ _ _ S)). unfold PmmBuddy.mbit. rewrite (ow_managed _ _ O). by destruct (decide (in_range ((v - hhdm) / 4096))); [rewrite bool_decide_eq_true_2|rewrite bool_decide_eq_false_2].
Qed.
End Source.
End HeapPmm.
