(* ===== verification/HeapClaims.v ===== *)
(** HeapClaims: the properties of the kernel heap. *)

From S2P Require Import Prelude Pmm PmmBuddy PmmApi PmmSafe PmmClaims Heap HeapSafe HeapSlab HeapMag HeapCalls HeapApi HeapSpec HeapRun HeapPmm.
From stdpp Require Import list_relations.
#[local] Open Scope Z_scope.

Module HeapClaims.
Import Heap HeapSafe HeapSlab HeapMag HeapCalls HeapApi HeapSpec HeapRun.

(** ** A page source for the examples: pages are handed out in order and never reused *)

Definition ex_hhdm : Z := 0xFFFF800000000000.
Definition ex_limit : Z := 0x1000000.
Definition ex_managed (v : Z) : bool := (ex_hhdm <=? v) && (v <? ex_hhdm + ex_limit).
Notation pool := (Z * gmap Z Z)%type.
Definition ex_pages (n : Z) (p : pool) : outcome (Z * pool) := if (n <=? 0) || (p.1 + PAGE_SIZE * n >? ex_limit) then Ret (0, p) else Ret (p.1, (p.1 + PAGE_SIZE * n, <[p.1 := n]> p.2)).
Definition ex_page : pool -> outcome (Z * pool) := ex_pages 1.
Definition ex_free_pages (a n : Z) (p : pool) : outcome pool := Ret (p.1, delete a p.2).
Definition ex_free_page (a : Z) : pool -> outcome pool := ex_free_pages a 1.
Record ex_owns (p : pool) (B : gmap Z Z) : Prop := mk_ex_owns {
  ex_next : 4096 <= p.1 <= ex_limit /\ p.1 mod 4096 = 0;
  ex_same : p.2 = B;
  ex_blocks : forall a n, B !! a = Some n -> 0 < n /\ 4096 <= a /\ a mod 4096 = 0 /\ a + 4096 * n <= p.1;
  ex_apart : forall a n b k, B !! a = Some n -> B !! b = Some k -> a <> b -> b + 4096 * k <= a \/ a + 4096 * n <= b }.
Lemma ex_pages_ok p B n : ex_owns p B -> exists a p', ex_pages n p = Ret (a, p') /\ (a = 0 /\ ex_owns p' B \/ a <> 0 /\ clear_of B a n /\ ex_owns p' (<[a := n]> B)).
Proof.
  intros O. pose proof O as [[O1 O2] O3 O4 O5]. unfold ex_pages, PAGE_SIZE. destruct ((n <=? 0) || (p.1 + 4096 * n >? ex_limit)) eqn:E; [exists 0, p; split; [done|]; by left|]. apply orb_false_iff in E as [E1 E2]. rewrite Z.gtb_ltb in E2. reify_bools. eexists _, _. split; [done|]. right. split; [lia|]. split; [intros b k Eb; left; unfold PAGE_SIZE; by destruct (O4 b k Eb) as (_ & _ & _ & ?)|]. split; cbn [fst snd].
  - split; [lia|]. rewrite Z.add_mod, O2 by lia. rewrite (Z.mul_comm 4096), Z.mod_mul by lia. done.
  - by rewrite O3.
  - intros a k. destruct (decide (a = p.1)) as [->|Hne]; [rewrite lookup_insert_eq; intros [= <-]; lia|]. rewrite lookup_insert_ne by done. intros Ea. destruct (O4 a k Ea) as (? & ? & ? & ?). lia.
  - intros a k b l Ea Eb Hne. destruct (decide (a = p.1)) as [->|Ha], (decide (b = p.1)) as [->|Hb]; [done| | |].
    + rewrite lookup_insert_ne in Eb by done. left. by destruct (O4 b l Eb) as (_ & _ & _ & ?).
    + rewrite lookup_insert_ne in Ea by done. right. by destruct (O4 a k Ea) as (_ & _ & _ & ?).
    + rewrite lookup_insert_ne in Ea, Eb by done. by apply (O5 a k b l).
Qed.
Lemma ex_free_ok p B a n : ex_owns p B -> exists p', ex_free_pages a n p = Ret p' /\ ex_owns p' (delete a B).
Proof.
  intros [O1 O3 O4 O5]. eexists. split; [done|]. split; cbn [fst snd]; [done|by rewrite O3|intros b k Eb; apply lookup_delete_Some in Eb as [_ Eb]; by apply O4|]. intros b k c l Eb Ec Hne. apply lookup_delete_Some in Eb as [_ Eb]. apply lookup_delete_Some in Ec as [_ Ec]. by apply (O5 b k c l).
Qed.
#[export] Instance ex_source : PageSource ex_hhdm ex_page ex_pages ex_free_page ex_free_pages ex_managed ex_owns.
Proof.
  split; [done|intros p B; apply ex_pages_ok|intros p B n O _; by apply ex_pages_ok|intros p B a O _; by apply ex_free_ok|intros p B a n O _; by apply ex_free_ok| |].
  - intros p B a n [[O1 _] _ O4 _] E. destruct (O4 a n E) as (? & ? & ? & ?). unfold PAGE_SIZE, ex_hhdm, ex_limit, ex_managed in *. split; [done|]. split; [lia|]. split; [done|]. split; [lia|]. intros x Hx. unfold ex_hhdm, ex_limit. rewrite (proj2 (Z.leb_le _ _)), (proj2 (Z.ltb_lt _ _)) by lia. done.
  - intros p B a n b k O Ea Eb Hne. unfold PAGE_SIZE. by apply (ex_apart _ _ O).
Qed.
#[export] Instance no_reclaim {P : Type} (owns : P -> gmap Z Z -> Prop) : Reclaimer owns Ret.
Proof. intros p B O. by exists p. Qed.
Definition ex_pool : pool := (4096, ∅).
Lemma ex_pool_ok : ex_owns ex_pool ∅.
Proof. split; [done|done|intros a n E; by rewrite lookup_empty in E|intros a n b k E; by rewrite lookup_empty in E]. Qed.
Definition ex_env : env := mk_env (Some 3) false 0xFFFFFFFF80001234.
Definition ex_heap : heap pool := heap_init (boot_heap ex_pool (fun _ => 0)).
Lemma ex_env_valid : valid_env ex_env.
Proof. unfold valid_env. cbn. lia. Qed.
Lemma ex_heap_whole : whole ex_hhdm ex_owns ex_heap.
Proof. exact (proj1 (heap_init_holds ex_hhdm ex_owns ex_pool (fun _ => 0) ex_pool_ok)). Qed.

(** An object is allocated and freed. *)
Definition ex_client : client := Call (Kmalloc ex_env 100) (fun p => Call (Kfree ex_env p) (fun _ => Done)).
Lemma ex_client_safe : safe_client ex_client ∅.
Proof.
  cbn. split; [split; [exact ex_env_valid|unfold sane; lia]|]. intros r m' [[-> _]|(_ & _ & _ & l & -> & _)]; (split; [split; [exact ex_env_valid|]|done]); [by left|right; rewrite lookup_insert_eq; by eexists].
Qed.
Lemma ex_client_frees m' : spec_client ex_client ∅ m' -> m' = ∅.
Proof.
  cbn. intros (r & m1 & [[-> ->]|(_ & _ & _ & l & -> & _)] & r2 & m2 & [_ ->] & ->); [apply delete_empty|]. rewrite delete_insert_eq. apply delete_empty.
Qed.

(** Two objects that stay. *)
Definition ex_two : client := Call (Kmalloc ex_env 100) (fun _ => Call (Kmalloc ex_env 2000) (fun _ => Done)).
Lemma ex_two_safe : safe_client ex_two ∅.
Proof. cbn. split; [split; [exact ex_env_valid|unfold sane; lia]|]. intros r m' _. split; [|done]. split; [exact ex_env_valid|unfold sane; lia]. Qed.

Section Claims.
Context {P : Type} (hhdm : Z) (pmm_alloc_page : P -> outcome (Z * P)) (pmm_alloc_pages : Z -> P -> outcome (Z * P)) (pmm_free_page : Z -> P -> outcome P) (pmm_free_pages : Z -> Z -> P -> outcome P) (managed : Z -> bool) (owns : P -> gmap Z Z -> Prop).
Context (kmem_cache_shrink_all other_reclaim : P -> outcome P) (foreign_word : Z -> Z).
Context {Source : PageSource hhdm pmm_alloc_page pmm_alloc_pages pmm_free_page pmm_free_pages managed owns} {Shrink : Reclaimer owns kmem_cache_shrink_all} {Other : Reclaimer owns other_reclaim}.
Notation run := (run_client hhdm pmm_alloc_page pmm_alloc_pages pmm_free_page pmm_free_pages managed kmem_cache_shrink_all other_reclaim foreign_word).
Notation booted p d := (heap_init (boot_heap p d)).

(** C4: The kernel heap refines a map from the objects handed out to their bytes. Over any
    page source, from the heap as [heap_init] leaves it, every program of [kmalloc], [kfree],
    [kcalloc], [krealloc], [heap_ksize], writes to its own objects, flushes and reclaims that
    frees only what it was given runs without a fault, its results are those the map allows
    (an object is new, has the bytes asked for, is zeroed by [kcalloc] and keeps its contents
    in [krealloc], and a failed call changes nothing), and the lists, bitmaps, per-CPU caches
    and big allocations are again the representation of the map. *)
Theorem heap_refines p d t : owns p ∅ -> safe_client t ∅ -> exists h' m', run t (booted p d) = Ret h' /\ spec_client t ∅ m' /\ holds hhdm owns h' m'.
Proof. intros Ho Hs. exact (client_simulates hhdm pmm_alloc_page pmm_alloc_pages pmm_free_page pmm_free_pages managed owns kmem_cache_shrink_all other_reclaim foreign_word t (booted p d) ∅ (heap_init_holds hhdm owns p d Ho) Hs). Qed.

(** C20: The objects of the heap are apart. After any such program every object is a
    non-null pointer aligned to 32 bytes, all its bytes are managed memory, and two objects
    share no byte, whether they are slots of a slab or big allocations. *)
Theorem heap_objects_apart p d t : owns p ∅ -> safe_client t ∅ -> exists h' m', run t (booted p d) = Ret h' /\ holds hhdm owns h' m' /\
  (forall q l, m' !! q = Some l -> q <> 0 /\ q mod 32 = 0 /\ forall x, q <= x < q + Z.of_nat (length l) -> managed x = true) /\
  (forall q l r k, m' !! q = Some l -> m' !! r = Some k -> q <> r -> q + Z.of_nat (length l) <= r \/ r + Z.of_nat (length k) <= q).
Proof.
  intros Ho Hs. destruct (client_simulates hhdm pmm_alloc_page pmm_alloc_pages pmm_free_page pmm_free_pages managed owns kmem_cache_shrink_all other_reclaim foreign_word t (booted p d) ∅ (heap_init_holds hhdm owns p d Ho) Hs) as (h' & m' & E & _ & Hh). exists h', m'. split; [done|]. split; [done|]. pose proof Hh as [Hw _]. split.
  - intros q l El. destruct (holds_live hhdm pmm_alloc_page pmm_alloc_pages pmm_free_page pmm_free_pages managed owns h' m' q l Hh El) as [Hl _]. destruct (live_managed hhdm pmm_alloc_page pmm_alloc_pages pmm_free_page pmm_free_pages managed owns h' q _ Hw Hl) as [H0 Hm]. split; [done|]. split; [|done]. destruct Hw as (vp & vf & vb & B & S & T & Hb & M). by destruct (live_block hhdm pmm_alloc_page pmm_alloc_pages pmm_free_page pmm_free_pages managed owns h' vp vf vb B q _ S T Hb Hl) as (_ & _ & _ & _ & _ & _ & _ & ?).
  - intros q l r k Eq Er Hne. destruct (holds_live hhdm pmm_alloc_page pmm_alloc_pages pmm_free_page pmm_free_pages managed owns h' m' q l Hh Eq) as [Hq _]. destruct (holds_live hhdm pmm_alloc_page pmm_alloc_pages pmm_free_page pmm_free_pages managed owns h' m' r k Hh Er) as [Hr _]. by apply (live_disjoint hhdm pmm_alloc_page pmm_alloc_pages pmm_free_page pmm_free_pages managed owns h').
Qed.

(** C19: A balanced workload returns every page, as the comment in [heap_slab.c] promises.
    When a program has freed all its objects, a flush of the per-CPU caches leaves the heap
    as it was at boot: no slab and no big allocation, empty lists in every cache, nothing
    parked, and no block of the page allocator held. *)
Theorem heap_returns_pages p d t : owns p ∅ -> safe_client t ∅ -> (forall m', spec_client t ∅ m' -> m' = ∅) -> exists h' h'', run t (booted p d) = Ret h' /\ heap_pcpu_flush_all hhdm pmm_free_page h' = Ret h'' /\
  mem h'' = ∅ /\ caches h'' = heap_caches /\ big_head h'' = 0 /\ concat (concat (magazines h'')) = [] /\ owns (pmm h'') ∅.
Proof.
  intros Ho Hs Hfree. destruct (client_simulates hhdm pmm_alloc_page pmm_alloc_pages pmm_free_page pmm_free_pages managed owns kmem_cache_shrink_all other_reclaim foreign_word t (booted p d) ∅ (heap_init_holds hhdm owns p d Ho) Hs) as (h' & m' & E & Sp & Hh). rewrite (Hfree m' Sp) in Hh. destruct (flush_all_ok hhdm pmm_alloc_page pmm_alloc_pages pmm_free_page pmm_free_pages managed owns h' (proj1 Hh)) as (h'' & E' & Hw & K). pose proof (holds_keeps hhdm owns h' h'' ∅ Hh Hw K) as Hh2. pose proof (flush_all_empties hhdm pmm_alloc_page pmm_alloc_pages pmm_free_page pmm_free_pages managed owns h' h'' (proj1 Hh) Hw E') as Hp. destruct (empty_pages hhdm owns h'' Hh2 Hp) as [Hm Hown]. exists h', h''. do 3 (split; [done|]). split; [|split; [|done]].
  - by apply (empty_caches hhdm owns).
  - by apply (empty_big hhdm owns).
Qed.
(** C21: What [kmalloc] does. It always returns. It fails only for size 0 or when the page
    source had no page for a slab, or for a larger size no run of pages, and then every
    object stays as it is; otherwise the result is a new object, the others keep their bytes,
    and its size is that of the smallest class that holds the request or that of the run of
    pages. That is enough for every request of at most 2^64 - 4160 bytes. It is not for one of
    more than 2^64 - 64 bytes: there [heap_big_alloc] adds the size of its header without a
    check, the sum wraps, and the object has 4032 bytes. *)
Theorem kmalloc_spec e size (h : heap P) : whole hhdm owns h -> valid_env e -> is_size size -> exists r h', kmalloc hhdm pmm_alloc_page pmm_alloc_pages pmm_free_page kmem_cache_shrink_all other_reclaim e size h = Ret (r, h') /\ whole hhdm owns h' /\
  (r = 0 /\ keeps h h' /\ (size = 0 \/ 0 < size <= 1024 /\ (exists p', pmm_alloc_page (pmm h) = Ret (0, p')) \/ 1024 < size /\ exists p', pmm_alloc_pages (big_pages size) (pmm h) = Ret (0, p')) \/
   r <> 0 /\ exists sz, adds h h' r sz /\ block_size size sz /\ (sane size -> size <= sz) /\ (2 ^ 64 - 64 < size -> sz = 4032)).
Proof.
  intros Hw He [H0 H64]. destruct (kmalloc_ok hhdm pmm_alloc_page pmm_alloc_pages pmm_free_page pmm_free_pages managed owns kmem_cache_shrink_all other_reclaim e size h Hw He H0) as (r & h' & E & Hw' & H). exists r, h'. split; [done|]. split; [done|]. destruct H as [(-> & Hr & K)|(Hr & Hpos & sz & A & Hb)].
  - left. split; [done|]. split; [done|]. destruct (decide (size = 0)) as [|Hne]; [by left|right]. specialize (Hr Hne). destruct (decide (size <= 1024)); [left|right]; (split; [lia|exact Hr]).
  - right. split; [done|]. exists sz. split; [done|]. split; [done|]. split; intros Hs; [by apply block_fits|by apply (block_wraps size)].
Qed.

(** A request of more than 2^64 - 64 bytes wraps. [heap_big_alloc] computes
    [size + sizeof(struct big_alloc)] without a check, so such a request does not fail: it
    asks for one page, and what it returns is an object of 4032 bytes. *)
Theorem kmalloc_wraps e size (h : heap P) : whole hhdm owns h -> valid_env e -> 2 ^ 64 - 64 < size < 2 ^ 64 -> exists r h', kmalloc hhdm pmm_alloc_page pmm_alloc_pages pmm_free_page kmem_cache_shrink_all other_reclaim e size h = Ret (r, h') /\
  (r = 0 /\ (exists p', pmm_alloc_pages 1 (pmm h) = Ret (0, p')) \/ r <> 0 /\ live h' r 4032 /\ 4032 < size).
Proof.
  intros Hw He Hs. pose proof (big_pages_wraps size Hs) as Ep.
  destruct (kmalloc_ok hhdm pmm_alloc_page pmm_alloc_pages pmm_free_page pmm_free_pages managed owns kmem_cache_shrink_all other_reclaim e size h Hw He ltac:(lia)) as (r & h' & E & Hw' & H). exists r, h'. split; [done|]. destruct H as [(-> & Hr & K)|(Hr & Hpos & sz & A & Hb)].
  - left. split; [done|]. specialize (Hr ltac:(lia)). rewrite decide_False, Ep in Hr by lia. exact Hr.
  - right. split; [done|]. split; [|lia]. destruct Hb as [[? _]|Hb]; [lia|]. rewrite Ep in Hb. change (1 * PAGE_SIZE - 64) with 4032 in Hb. rewrite <- Hb. apply (ad_live _ _ _ _ A). by right.
Qed.

(** C25: What [kfree] does with a pointer that is not the start of an object slot. For every
    such 64-bit pointer, into a slab header, between two slots, behind the last one, into a
    big allocation, outside managed memory or into a page whose first word is not a tag, it
    records the call in the log of frees and changes nothing else. The one exception is a
    pointer into a managed page that the heap does not own and whose first word is a tag:
    there [kfree] trusts the tag and reads the rest of a header the page does not have, which
    is a [Fault] of the model. Such pages exist, see [tagged]. *)
Theorem kfree_bad_pointer e ptr (h : heap P) : whole hhdm owns h -> 0 < ptr < 2 ^ 64 -> ~ starts h ptr ->
  kfree hhdm pmm_free_page pmm_free_pages managed foreign_word e ptr h = if tagged managed foreign_word h ptr then Fault else Ret (set_log (heap_trace_record ptr (caller e) (log h)) h).
Proof.
  intros Hw Hp Hno. destruct (tagged managed foreign_word h ptr) eqn:Et; [apply (kfree_tagged hhdm pmm_free_page pmm_free_pages managed foreign_word); [lia|done]|].
  by apply (kfree_rejects hhdm pmm_free_page pmm_free_pages managed owns foreign_word).
Qed.
End Claims.

(** ** Over the page allocator of the kernel *)

(** C7: The heap over the page allocator. On any state of the physical memory manager that
    satisfies its invariant, with the pages of both handed out on any CPUs, the programs of
    [heap_refines] run without a fault and refine the map of objects: the buddy allocator,
    the per-CPU page caches and the reference counts are a page source for the heap, and its
    test of managed pointers is that of the code. *)
Theorem heap_over_pmm lowest highest hhdm m fl cpus other1 other2 foreign_word d t (mg := Pmm.managed (PmmApi.pm m)) (owns := HeapPmm.owns lowest highest hhdm mg) : PmmBuddy.config lowest highest hhdm -> PmmSafe.safe lowest highest hhdm m fl -> Forall PmmSafe.valid_cpu cpus -> Reclaimer owns other1 -> Reclaimer owns other2 -> safe_client t ∅ ->
  exists h' m', run_client hhdm (HeapPmm.alloc_page lowest highest hhdm) (HeapPmm.alloc_pages lowest highest hhdm) (HeapPmm.free_page lowest highest hhdm) (HeapPmm.free_pages lowest highest hhdm) (HeapPmm.is_managed lowest highest hhdm mg) other1 other2 foreign_word t (heap_init (boot_heap (m, cpus) d)) = Ret h' /\ spec_client t ∅ m' /\ holds hhdm owns h' m' /\
    forall v, 0 <= v -> Pmm.pmm_kernel_ptr_is_managed lowest highest hhdm (PmmApi.pm (pmm h').1) v = Ret (HeapPmm.is_managed lowest highest hhdm mg v).
Proof.
  intros Hcfg S Hc R1 R2 Hs. assert (Ho : owns (m, cpus) ∅) by (split; [by exists fl|done|done|intros a n E; by rewrite lookup_empty in E|intros a n b k E; by rewrite lookup_empty in E]). pose proof (HeapPmm.pmm_source lowest highest hhdm Hcfg mg) as Src.
  destruct (client_simulates hhdm (HeapPmm.alloc_page lowest highest hhdm) (HeapPmm.alloc_pages lowest highest hhdm) (HeapPmm.free_page lowest highest hhdm) (HeapPmm.free_pages lowest highest hhdm) (HeapPmm.is_managed lowest highest hhdm mg) owns other1 other2 foreign_word t (heap_init (boot_heap (m, cpus) d)) ∅ (heap_init_holds hhdm owns (m, cpus) d Ho) Hs) as (h' & m' & E & Sp & Hh). exists h', m'. do 3 (split; [done|]). intros v Hv. destruct Hh as [(vp & vf & vb & B & _ & T & _) _]. by apply (HeapPmm.is_managed_test lowest highest hhdm Hcfg mg (pmm h') B v (ti_owns _ _ _ _ T)).
Qed.

(** ** The log of frees *)

(** [heap_last_free_caller] reports the free before the last. The slot of a record is the
    one [kfree_trace_next] has after it, but the scan starts one slot before: when the object
    has been freed before and that call is still among the 255 older entries, it returns the
    latest of those, and the last caller only when there is none. *)
Theorem heap_last_free_stale ptr c t : ptr <> 0 -> c <> 0 -> heap_last_free_caller ptr (heap_trace_record ptr c t) = match trace_scan 255 0 ptr t with [] => Some c | older :: _ => Some older end.
Proof.
  intros Hp Hc. unfold heap_last_free_caller. rewrite (proj2 (Z.eqb_neq ptr 0) Hp). rewrite scan_recorded by done. by destruct (trace_scan 255 0 ptr t).
Qed.
(** ** Witnesses *)

Notation ex_run := (run_client ex_hhdm ex_page ex_pages ex_free_page ex_free_pages ex_managed Ret Ret (fun _ => 0)).
Lemma heap_refines_witness : exists h' m', ex_run ex_client ex_heap = Ret h' /\ spec_client ex_client ∅ m' /\ holds ex_hhdm ex_owns h' m'.
Proof. exact (heap_refines ex_hhdm ex_page ex_pages ex_free_page ex_free_pages ex_managed ex_owns Ret Ret (fun _ => 0) ex_pool (fun _ => 0) ex_client ex_pool_ok ex_client_safe). Defined.
Lemma heap_objects_apart_witness : exists h' m', ex_run ex_two ex_heap = Ret h' /\ holds ex_hhdm ex_owns h' m'.
Proof. destruct (heap_objects_apart ex_hhdm ex_page ex_pages ex_free_page ex_free_pages ex_managed ex_owns Ret Ret (fun _ => 0) ex_pool (fun _ => 0) ex_two ex_pool_ok ex_two_safe) as (h' & m' & E & H & _). exists h', m'. split; [exact E|exact H]. Defined.
Lemma heap_returns_pages_witness : exists h' h'', ex_run ex_client ex_heap = Ret h' /\ heap_pcpu_flush_all ex_hhdm ex_free_page h' = Ret h'' /\ mem h'' = ∅.
Proof. destruct (heap_returns_pages ex_hhdm ex_page ex_pages ex_free_page ex_free_pages ex_managed ex_owns Ret Ret (fun _ => 0) ex_pool (fun _ => 0) ex_client ex_pool_ok ex_client_safe ex_client_frees) as (h' & h'' & E1 & E2 & E3 & _). exists h', h''. split; [exact E1|]. split; [exact E2|exact E3]. Defined.
Lemma kmalloc_spec_witness : exists r h', kmalloc ex_hhdm ex_page ex_pages ex_free_page Ret Ret ex_env 100 ex_heap = Ret (r, h') /\ r = 0xFFFF800000001040 /\ exists sz, live h' r sz /\ 100 <= sz.
Proof.
  destruct (kmalloc_spec ex_hhdm ex_page ex_pages ex_free_page ex_free_pages ex_managed ex_owns Ret Ret ex_env 100 ex_heap ex_heap_whole ex_env_valid) as (r & h' & E & _ & H); [split; lia|]. exists r, h'. assert (Er : r = 0xFFFF800000001040) by (assert (Ev : match kmalloc ex_hhdm ex_page ex_pages ex_free_page Ret Ret ex_env 100 ex_heap with Ret (r, _) => r | _ => 0 end = 0xFFFF800000001040) by (vm_compute; reflexivity); rewrite E in Ev; exact Ev). split; [exact E|]. split; [exact Er|]. destruct H as [(H0 & _)|(_ & sz & A & _ & Hsz)]; [exfalso; rewrite H0 in Er; discriminate Er|]. exists sz. split; [apply (ad_live _ _ _ _ A); right; split; reflexivity|]. apply Hsz. unfold sane. lia.
Defined.
Lemma kmalloc_wraps_witness : exists r h', kmalloc ex_hhdm ex_page ex_pages ex_free_page Ret Ret ex_env (2 ^ 64 - 10) ex_heap = Ret (r, h') /\ r = 0xFFFF800000001040 /\ live h' r 4032.
Proof.
  destruct (kmalloc_wraps ex_hhdm ex_page ex_pages ex_free_page ex_free_pages ex_managed ex_owns Ret Ret ex_env (2 ^ 64 - 10) ex_heap ex_heap_whole ex_env_valid) as (r & h' & E & H); [split; lia|]. exists r, h'. assert (Er : r = 0xFFFF800000001040) by (assert (Ev : match kmalloc ex_hhdm ex_page ex_pages ex_free_page Ret Ret ex_env (2 ^ 64 - 10) ex_heap with Ret (r, _) => r | _ => 0 end = 0xFFFF800000001040) by (vm_compute; reflexivity); rewrite E in Ev; exact Ev). split; [exact E|]. split; [exact Er|]. destruct H as [(H0 & _)|(_ & Hl & _)]; [exfalso; rewrite H0 in Er; discriminate Er|exact Hl].
Defined.
Lemma kfree_bad_pointer_witness : kfree ex_hhdm ex_free_page ex_free_pages ex_managed (fun _ => 0) ex_env (ex_hhdm + 0x5008) ex_heap = Ret (set_log (heap_trace_record (ex_hhdm + 0x5008) (caller ex_env) (log ex_heap)) ex_heap) /\
  kfree ex_hhdm ex_free_page ex_free_pages ex_managed (fun _ => SLAB_MAGIC) ex_env (ex_hhdm + 0x5008) ex_heap = Fault.
Proof.
  split.
  - apply (kfree_bad_pointer ex_hhdm ex_free_page ex_free_pages ex_managed ex_owns (fun _ => 0) ex_env (ex_hhdm + 0x5008) ex_heap ex_heap_whole); [unfold ex_hhdm; lia|intros H; exact H].
  - apply (kfree_bad_pointer ex_hhdm ex_free_page ex_free_pages ex_managed ex_owns (fun _ => SLAB_MAGIC) ex_env (ex_hhdm + 0x5008) ex_heap ex_heap_whole); [unfold ex_hhdm; lia|intros H; exact H].
Defined.
Lemma heap_last_free_stale_witness : heap_last_free_caller 0x5000 (heap_trace_record 0x5000 2 (heap_trace_record 0x5000 1 (mk_log (fun _ => (0, 0)) 0))) = Some 1.
Proof. exact (heap_last_free_stale 0x5000 2 (heap_trace_record 0x5000 1 (mk_log (fun _ => (0, 0)) 0)) ltac:(discriminate) ltac:(discriminate)). Defined.
Lemma heap_over_pmm_witness : exists m fl h' m', PmmSafe.safe 256 276 PmmClaims.ex_hhdm m fl /\ run_client PmmClaims.ex_hhdm (HeapPmm.alloc_page 256 276 PmmClaims.ex_hhdm) (HeapPmm.alloc_pages 256 276 PmmClaims.ex_hhdm) (HeapPmm.free_page 256 276 PmmClaims.ex_hhdm) (HeapPmm.free_pages 256 276 PmmClaims.ex_hhdm) (HeapPmm.is_managed 256 276 PmmClaims.ex_hhdm (Pmm.managed (PmmApi.pm m))) Ret Ret (fun _ => 0) ex_client (heap_init (boot_heap (m, [Some 0; None]) (fun _ => 0))) = Ret h' /\ spec_client ex_client ∅ m'.
Proof.
  destruct PmmClaims.ex_booted as (m & fl & S & _). exists m, fl. destruct (heap_over_pmm 256 276 PmmClaims.ex_hhdm m fl [Some 0; None] Ret Ret (fun _ => 0) (fun _ => 0) ex_client PmmClaims.ex_config S) as (h' & m' & E & Sp & _); [repeat constructor; cbn; lia|apply no_reclaim|apply no_reclaim|exact ex_client_safe|]. exists h', m'. split; [exact S|]. split; [exact E|exact Sp].
Defined.
End HeapClaims.
