(* ===== verification/Sem.v ===== *)
(** Sem: System V semaphores ([kernel/src/syscalls/sys_sem.c]) and the IPC namespace of a
    caller ([sched/ipc_namespace.c]).

    A system call runs under [sem_lock], except that a blocked [semop] releases it between
    two rounds; each stretch under the lock is one step, and the interleavings of the steps
    of all threads are explicit. The array of operations lies in user memory and is read by
    every loop again, so each loop has its own reading of it. *)

From S2P Require Import Prelude.
#[local] Open Scope Z_scope.

Module Sem.

Definition SEM_MAX_SETS : nat := 64.
Definition SEM_MAX_SEMS_PER_SET : Z := 256.
Definition IPC_CREAT : Z := 0x200.
Definition IPC_EXCL : Z := 0x400.
Definition IPC_NOWAIT : Z := 0x800.
Definition EINVAL : Z := -22.
Definition EEXIST : Z := -17.
Definition ENOENT : Z := -2.
Definition ENOSPC : Z := -28.
Definition EFBIG : Z := -33.
Definition EAGAIN : Z := -11.
Definition EIDRM : Z := -43.
Definition EFAULT : Z := -14.

Record sembuf := mk_sembuf { sem_num : Z; sem_op : Z; sem_flg : Z }.
Record sem_val := mk_val { val : Z; lpid : Z }.
Record sem_set := mk_set {
  active : bool; marked_destroy : bool; namespace_id : Z; key : Z; semid : Z; nsems : Z; perm_mode : Z;
  creator_uid : Z; creator_gid : Z; creator_pid : Z; otime : Z; ctime : Z; sems : list sem_val }.
Record state := mk_state { sem_table : list sem_set; sem_next_id : Z }.
(** What is used of [struct thread]; no namespace is the initial one. *)
Record thread := mk_thread { ipc_ns : option Z; euid : Z; egid : Z; tgid : Z }.

Definition zero_set : sem_set := mk_set false false 0 0 0 0 0 0 0 0 0 0 (replicate 256 (mk_val 0 0)).
Definition sem_init : state := mk_state (replicate SEM_MAX_SETS zero_set) 1.
Definition ipc_namespace_id (t : option thread) : Z := match t with Some t => default 0x4E530002 (ipc_ns t) | None => 0x4E530002 end.

Definition set_active (b : bool) (s : sem_set) : sem_set := mk_set b (marked_destroy s) (namespace_id s) (key s) (semid s) (nsems s) (perm_mode s) (creator_uid s) (creator_gid s) (creator_pid s) (otime s) (ctime s) (sems s).
Definition set_sems (l : list sem_val) (s : sem_set) : sem_set := mk_set (active s) (marked_destroy s) (namespace_id s) (key s) (semid s) (nsems s) (perm_mode s) (creator_uid s) (creator_gid s) (creator_pid s) (otime s) (ctime s) l.
Definition put_set (i : nat) (s : sem_set) (st : state) : state := mk_state (<[i := s]> (sem_table st)) (sem_next_id st).

(** The first set that satisfies [p], by a loop over the table. *)
Fixpoint find_set (p : sem_set -> bool) (i : nat) (l : list sem_set) : option (nat * sem_set) :=
  match l with [] => None | s :: l => if p s then Some (i, s) else find_set p (S i) l end.
Definition by_key (ns k : Z) (s : sem_set) : bool := active s && (namespace_id s =? ns) && (key s =? u32 k).
Definition by_id (ns id : Z) (s : sem_set) : bool := active s && (namespace_id s =? ns) && (semid s =? u32 id).

(** ** semget *)

Definition new_set (t : option thread) (k n semflg id : Z) : sem_set :=
  mk_set true false (ipc_namespace_id t) (u32 k) id (u16 n) (u32 (Z.land semflg 0x1FF))
    (match t with Some t => euid t | None => 0 end) (match t with Some t => egid t | None => 0 end) (match t with Some t => tgid t | None => 0 end) 0 0 (replicate 256 (mk_val 0 0)).
Definition semget_create (t : option thread) (k n semflg : Z) (st : state) : Z * state :=
  if n =? 0 then (EINVAL, st)
  else
    match find_set (fun s => negb (active s)) 0 (sem_table st) with
    | None => (ENOSPC, st)
    | Some (slot, _) =>
      if sem_next_id st >? 0x7FFFFFFF then (ENOSPC, st)
      else
        let id := sem_next_id st in
        (id, mk_state (<[slot := new_set t k n semflg id]> (sem_table st)) (u32 (id + 1)))
    end.
Definition sys_semget (t : option thread) (k n semflg : Z) (st : state) : Z * state :=
  if n >? SEM_MAX_SEMS_PER_SET then (EINVAL, st)
  else if k =? 0 then semget_create t k n semflg st
  else
    match find_set (by_key (ipc_namespace_id t) k) 0 (sem_table st) with
    | Some (_, s) =>
      if nz (Z.land semflg IPC_CREAT) && nz (Z.land semflg IPC_EXCL) then (EEXIST, st)
      else if (n >? 0) && (nsems s <? n) then (EINVAL, st)
      else (semid s, st)
    | None => if negb (nz (Z.land semflg IPC_CREAT)) then (ENOENT, st) else semget_create t k n semflg st
    end.

(** ** semop *)

(** The readings of the array by the loops of a round. *)
Record reads := mk_reads { at_check : list sembuf; at_test : list sembuf; at_apply : list sembuf; at_flags : list sembuf }.

Fixpoint can_perform (sops : list sembuf) (l : list sem_val) : outcome bool :=
  match sops with
  | [] => Ret true
  | b :: sops =>
    if sem_op b <? 0 then s ← arr_get l (sem_num b); if val s <? u16 (- sem_op b) then Ret false else can_perform sops l
    else if sem_op b =? 0 then s ← arr_get l (sem_num b); if nz (val s) then Ret false else can_perform sops l
    else can_perform sops l
  end.
Definition add_op (op v : Z) : Z := if op <? 0 then u16 (v - u16 (- op)) else if op >? 0 then u16 (v + u16 op) else v.
Fixpoint apply_ops (pid : Z) (sops : list sembuf) (l : list sem_val) : outcome (list sem_val) :=
  match sops with
  | [] => Ret l
  | b :: sops => s ← arr_get l (sem_num b); l ← arr_set l (sem_num b) (mk_val (add_op (sem_op b) (val s)) pid); apply_ops pid sops l
  end.

(** A round returns, or releases the lock to try the set in [slot] again. *)
Inductive progress := Return (r : Z) | Yield (slot : nat).
#[global] Instance progress_eq_dec : EqDecision progress.
Proof. solve_decision. Defined.
Definition semop_round (t : option thread) (slot : nat) (timeout_addr : Z) (r : reads) (st : state) : outcome (progress * state) :=
  set ← deref (sem_table st !! slot);
  ok ← can_perform (at_test r) (sems set);
  if (ok : bool) then
    l ← apply_ops (match t with Some t => tgid t | None => 0 end) (at_apply r) (sems set);
    Ret (Return 0, put_set slot (set_sems l set) st)
  else if existsb (fun b => nz (Z.land (sem_flg b) IPC_NOWAIT)) (at_flags r) || nz timeout_addr then Ret (Return EAGAIN, st)
  else Ret (Yield slot, st).
(** Up to the first release of the lock. *)
Definition sys_semtimedop (t : option thread) (id sops_addr nsops timeout_addr : Z) (r : reads) (st : state) : outcome (progress * state) :=
  if (nsops =? 0) || (nsops >? SEM_MAX_SEMS_PER_SET) || negb (nz sops_addr) then Ret (Return EINVAL, st)
  else
    match find_set (by_id (ipc_namespace_id t) id) 0 (sem_table st) with
    | None => Ret (Return EINVAL, st)
    | Some (slot, set) =>
      if existsb (fun b => sem_num b >=? nsems set) (at_check r) then Ret (Return EFBIG, st)
      else semop_round t slot timeout_addr r st
    end.
(** After [sched_yield], with the lock again. *)
Definition semtimedop_resume (t : option thread) (id timeout_addr : Z) (slot : nat) (r : reads) (st : state) : outcome (progress * state) :=
  set ← deref (sem_table st !! slot);
  if negb (active set) || negb (semid set =? u32 id) || negb (namespace_id set =? ipc_namespace_id t) then Ret (Return EIDRM, st)
  else semop_round t slot timeout_addr r st.
Definition sys_semop (t : option thread) (id sops_addr nsops : Z) := sys_semtimedop t id sops_addr nsops 0.

(** ** semctl *)

Definition IPC_RMID : Z := 0.
Definition IPC_STAT : Z := 2.
Definition GETPID : Z := 11.
Definition GETVAL : Z := 12.
Definition GETALL : Z := 13.
Definition GETNCNT : Z := 14.
Definition GETZCNT : Z := 15.
Definition SETVAL : Z := 16.
Definition SETALL : Z := 17.
Definition SEM_STAT : Z := 18.

(** What is written to user memory at [arg]. *)
Inductive user_data := Nothing | Array (l : list Z) | Semid_ds (k uid gid mode n ot ct : Z).
(** [for (uint16_t i = 0; i < set->nsems; i++)]; [array] is the array in user memory. *)
Fixpoint get_all (n : nat) (i : Z) (l : list sem_val) : outcome (list Z) :=
  match n with O => Ret [] | S n => s ← arr_get l i; rest ← get_all n (i + 1) l; Ret (val s :: rest) end.
Fixpoint set_all (n : nat) (i : Z) (array : Z -> Z) (l : list sem_val) : outcome (list sem_val) :=
  match n with O => Ret l | S n => s ← arr_get l i; l ← arr_set l i (mk_val (array i) (lpid s)); set_all n (i + 1) array l end.

Definition sys_semctl (t : option thread) (id semnum cmd arg : Z) (array : Z -> Z) (st : state) : outcome (Z * user_data * state) :=
  match find_set (by_id (ipc_namespace_id t) id) 0 (sem_table st) with
  | None => Ret (EINVAL, Nothing, st)
  | Some (i, s) =>
    if cmd =? IPC_RMID then Ret (0, Nothing, put_set i (set_active false s) st)
    else if (cmd =? IPC_STAT) || (cmd =? SEM_STAT) then
      if nz arg then Ret (0, Semid_ds (key s) (creator_uid s) (creator_gid s) (perm_mode s) (nsems s) (otime s) (ctime s), st) else Ret (EFAULT, Nothing, st)
    else if cmd =? GETVAL then
      if semnum >=? nsems s then Ret (EINVAL, Nothing, st) else v ← arr_get (sems s) semnum; Ret (val v, Nothing, st)
    else if cmd =? SETVAL then
      if semnum >=? nsems s then Ret (EINVAL, Nothing, st)
      else
        v ← arr_get (sems s) semnum;
        l ← arr_set (sems s) semnum (mk_val (u16 (Z.land arg 0xFFFF)) (lpid v));
        Ret (0, Nothing, put_set i (set_sems l s) st)
    else if cmd =? GETALL then
      if arg =? 0 then Ret (EFAULT, Nothing, st) else l ← get_all (Z.to_nat (nsems s)) 0 (sems s); Ret (0, Array l, st)
    else if cmd =? SETALL then
      if arg =? 0 then Ret (EFAULT, Nothing, st) else l ← set_all (Z.to_nat (nsems s)) 0 array (sems s); Ret (0, Nothing, put_set i (set_sems l s) st)
    else if cmd =? GETPID then
      if semnum >=? nsems s then Ret (EINVAL, Nothing, st) else v ← arr_get (sems s) semnum; Ret (s32 (lpid v), Nothing, st)
    else if (cmd =? GETNCNT) || (cmd =? GETZCNT) then Ret (0, Nothing, st)
    else Ret (EINVAL, Nothing, st)
  end.

Definition sem_namespace_destroy (id : Z) (st : state) : state :=
  mk_state (map (fun s => if active s && (namespace_id s =? id) then set_active false s else s) (sem_table st)) (sem_next_id st).

(** ** The threads of the system *)

(** A thread between two rounds of [semop]. *)
Record waiter := mk_waiter { w_thread : option thread; w_id : Z; w_timeout : Z; w_slot : nat; w_sops : list sembuf }.
Record machine := mk_machine { sem : state; waiters : list waiter }.
Inductive event :=
  | Get (t : option thread) (k n semflg : Z)
  | Ctl (t : option thread) (id semnum cmd arg : Z) (array : Z -> Z)
  | Op (t : option thread) (id sops_addr nsops timeout_addr : Z) (r : reads)
  | Resume (k : nat) (r : reads)
  | Destroy (id : Z).

Definition finish (t : option thread) (id timeout : Z) (r : reads) (ws : list waiter) (x : progress * state) : machine :=
  let '(p, st) := x in mk_machine st (match p with Return _ => ws | Yield slot => ws ++ [mk_waiter t id timeout slot (at_check r)] end).
Definition exec (e : event) (m : machine) : outcome machine :=
  match e with
  | Get t k n f => Ret (mk_machine (snd (sys_semget t k n f (sem m))) (waiters m))
  | Ctl t id num cmd arg a => '(_, _, st) ← sys_semctl t id num cmd arg a (sem m); Ret (mk_machine st (waiters m))
  | Op t id addr n timeout r => x ← sys_semtimedop t id addr n timeout r (sem m); Ret (finish t id timeout r (waiters m) x)
  | Resume k r =>
    w ← deref (waiters m !! k);
    x ← semtimedop_resume (w_thread w) (w_id w) (w_timeout w) (w_slot w) r (sem m);
    Ret (finish (w_thread w) (w_id w) (w_timeout w) (mk_reads (w_sops w) (w_sops w) (w_sops w) (w_sops w)) (delete k (waiters m)) x)
  | Destroy id => Ret (mk_machine (sem_namespace_destroy id (sem m)) (waiters m))
  end.
End Sem.
