(* ===== verification/SemClaims.v ===== *)
(** SemClaims: the invariant of the semaphore sets, and the properties of [semop]. *)

From S2P Require Import Prelude Sem.
From stdpp Require Import list_relations.
#[local] Open Scope Z_scope.

Module SemClaims.
Import Sem.

(** ** Invariant *)

Record set_ok (next : Z) (s : sem_set) : Prop := mk_set_ok {
  so_length : length (sems s) = 256%nat;
  so_vals : Forall (fun v => 0 <= val v < 2 ^ 16) (sems s);
  so_nsems : 0 <= nsems s <= 256;
  so_id : 0 <= semid s < next;
  so_active : active s = true -> 1 <= nsems s /\ 1 <= semid s }.
Record inv (st : state) : Prop := mk_inv {
  in_length : length (sem_table st) = 64%nat;
  in_next : 1 <= sem_next_id st <= 2 ^ 31;
  in_sets : forall i s, sem_table st !! i = Some s -> set_ok (sem_next_id st) s;
  in_ids : forall i j s s', sem_table st !! i = Some s -> sem_table st !! j = Some s' -> semid s = semid s' -> semid s <> 0 -> i = j }.
(** The slot of a waiter has its set, with the semaphores it names, or its id is gone. *)
Record waiter_ok (st : state) (w : waiter) : Prop := mk_waiter_ok {
  wo_id : 1 <= u32 (w_id w) < sem_next_id st;
  wo_slot : exists s, sem_table st !! w_slot w = Some s /\ (semid s = u32 (w_id w) -> Forall (fun b => 0 <= sem_num b < nsems s) (w_sops w)) }.
Definition ok (m : machine) : Prop := inv (sem m) /\ Forall (waiter_ok (sem m)) (waiters m).

(** User memory does not change during a call, and holds 16-bit numbers. *)
Definition stable (r : reads) : Prop := at_test r = at_check r /\ at_apply r = at_check r /\ at_flags r = at_check r.
Definition buf_ok (b : sembuf) : Prop := 0 <= sem_num b < 2 ^ 16 /\ - 2 ^ 15 <= sem_op b < 2 ^ 15.
Definition legal (m : machine) (e : event) : Prop :=
  match e with
  | Get _ _ n _ => 0 <= n
  | Ctl _ _ num _ _ a => 0 <= num /\ forall i, 0 <= a i < 2 ^ 16
  | Op _ _ _ _ _ r => stable r /\ Forall buf_ok (at_check r)
  | Resume k r => stable r /\ exists w, waiters m !! k = Some w /\ at_check r = w_sops w
  | Destroy _ => True
  end.

(** ** Lemmas *)

Lemma find_set_Some p l : forall i j s, find_set p i l = Some (j, s) -> (i <= j)%nat /\ l !! (j - i)%nat = Some s /\ p s = true.
Proof.
  induction l as [|x l IH]; intros i j s E; cbn [find_set] in E; [done|]. destruct (p x) eqn:Ep; [injection E as <- <-; by rewrite Nat.sub_diag|]. destruct (IH _ _ _ E) as (H1 & H2 & H3). split; [lia|]. split; [|done]. replace (j - i)%nat with (S (j - S i)) by lia. done.
Qed.
Lemma find_set_None p l i s k : find_set p i l = None -> l !! k = Some s -> p s = false.
Proof.
  revert i k. induction l as [|x l IH]; intros i k E Ek; cbn [find_set] in E; [by rewrite lookup_nil in Ek|]. destruct (p x) eqn:Ep; [done|]. destruct k as [|k]; [by injection Ek as <-|]. by apply (IH (S i) k).
Qed.
Lemma sem_found p st j s : find_set p 0 (sem_table st) = Some (j, s) -> sem_table st !! j = Some s /\ p s = true.
Proof. intros E. apply find_set_Some in E as (_ & E & H). by rewrite Nat.sub_0_r in E. Qed.
Lemma by_id_found st ns id j s : find_set (by_id ns id) 0 (sem_table st) = Some (j, s) -> sem_table st !! j = Some s /\ active s = true /\ namespace_id s = ns /\ semid s = u32 id.
Proof. intros E. apply sem_found in E as [E H]. unfold by_id in H. reify_bools. done. Qed.

(** A set changes its values, or becomes inactive. *)
Record same_set (s s' : sem_set) : Prop := mk_same {
  ss_id : semid s' = semid s; ss_nsems : nsems s' = nsems s; ss_ns : namespace_id s' = namespace_id s; ss_key : key s' = key s;
  ss_active : active s' = true -> active s = true; ss_length : length (sems s') = 256%nat; ss_vals : Forall (fun v => 0 <= val v < 2 ^ 16) (sems s') }.
Lemma same_inv (T T' : list sem_set) next ws : length T' = length T -> (forall i s', T' !! i = Some s' -> exists s, T !! i = Some s /\ same_set s s') -> ok (mk_machine (mk_state T next) ws) -> ok (mk_machine (mk_state T' next) ws).
Proof.
  intros Hl HT [[I1 I2 I3 I4] W]. cbn in *. split; [split; cbn; [congruence|done| |]|].
  - intros i s' E. destruct (HT i s' E) as (s & Es & [S1 S2 S3 S4 S5 S6 S7]). destruct (I3 i s Es) as [O1 O2 O3 O4 O5]. split; [done|done|lia|lia|]. intros A. rewrite S1, S2. by apply O5, S5.
  - intros i j s s' Ei Ej E H0. destruct (HT i s Ei) as (a & Ea & [A1 _ _ _ _ _ _]). destruct (HT j s' Ej) as (b & Eb & [B1 _ _ _ _ _ _]). apply (I4 i j a b Ea Eb); congruence.
  - rewrite Forall_forall in *. intros w Hw. destruct (W w Hw) as [W1 (s & Es & W2)]. cbn in *. split; [done|]. destruct (lookup_lt_is_Some_2 T' (w_slot w)) as [s' Es']; [rewrite Hl; by apply lookup_lt_Some in Es|]. exists s'. split; [done|]. destruct (HT _ s' Es') as (s0 & Es0 & [A1 A2 _ _ _ _ _]). cbn in Es. rewrite Es in Es0. injection Es0 as <-. rewrite A1, A2. done.
Qed.
Lemma sem_update_ok st ws i s s' : ok (mk_machine st ws) -> sem_table st !! i = Some s -> same_set s s' -> ok (mk_machine (put_set i s' st) ws).
Proof.
  intros O E Hs. destruct st as [T next]. cbn in *. apply (same_inv T); [by rewrite length_insert| |done]. intros k x Ek. destruct O as [[_ _ I3 _] _]. apply list_lookup_insert_Some in Ek as [(<- & <- & _)|[_ Ek]]; [by exists s|]. exists x. split; [done|]. destruct (I3 k x Ek). by split.
Qed.
Lemma same_sems next s l : set_ok next s -> length l = 256%nat -> Forall (fun v => 0 <= val v < 2 ^ 16) l -> same_set s (set_sems l s).
Proof. intros [] H1 H2. by split. Qed.

Lemma arr_get_at {A} (l : list A) i : 0 <= i < Z.of_nat (length l) -> exists a, arr_get l i = Ret a /\ l !! Z.to_nat i = Some a.
Proof. intros H. destruct (lookup_lt_is_Some_2 l (Z.to_nat i)) as [a E]; [lia|]. exists a. split; [|done]. apply arr_get_Some. split; [lia|done]. Qed.
Lemma vals_insert l i v : Forall (fun v => 0 <= val v < 2 ^ 16) l -> 0 <= val v < 2 ^ 16 -> Forall (fun v => 0 <= val v < 2 ^ 16) (<[i := v]> l).
Proof. intros H1 H2. by apply Forall_insert. Qed.

(** ** The ids *)

(** An active set was there before, with the same id, in the same slot and namespace, or it
    is new and its id has never been given out. *)
Definition fresh_ids (st st' : state) : Prop := sem_next_id st <= sem_next_id st' /\ forall i s', sem_table st' !! i = Some s' -> active s' = true ->
  (exists s, sem_table st !! i = Some s /\ active s = true /\ semid s = semid s' /\ namespace_id s = namespace_id s') \/ sem_next_id st <= semid s' < sem_next_id st'.
Lemma fresh_refl st : fresh_ids st st.
Proof. split; [done|]. intros i s Es Ha. left. by exists s. Qed.
Lemma fresh_put st i s s' : sem_table st !! i = Some s -> semid s = semid s' -> namespace_id s = namespace_id s' -> (active s' = true -> active s = true) -> fresh_ids st (put_set i s' st).
Proof.
  intros Es S1 S3 S5. split; [done|]. intros j x Ej Ha. left. apply list_lookup_insert_Some in Ej as [(<- & <- & _)|[_ Ej]]; [exists s|by exists x]. split; [done|]. split; [by apply S5|done].
Qed.

(** ** The loops of semop *)

Lemma nums_checked sops n : existsb (fun b => sem_num b >=? n) sops = false <-> Forall (fun b => sem_num b < n) sops.
Proof.
  induction sops as [|b sops IH]; cbn [existsb]; [by split|]. rewrite orb_false_iff, IH, Forall_cons, Z.geb_leb, Z.leb_gt. done.
Qed.

Lemma add_op_range op v : 0 <= v < 2 ^ 16 -> 0 <= add_op op v < 2 ^ 16.
Proof. intros H. unfold add_op. destruct (op <? 0); [apply u16_range|]. destruct (op >? 0); [apply u16_range|done]. Qed.
Lemma can_perform_ok sops l : length l = 256%nat -> Forall (fun b => 0 <= sem_num b < 256) sops -> exists b, can_perform sops l = Ret b.
Proof.
  intros Hl. induction sops as [|b sops IH]; intros HF; cbn [can_perform]; [by exists true|]. apply Forall_cons in HF as [Hb HF]. destruct (IH HF) as [x Ex]. destruct (arr_get_at l (sem_num b)) as (s & Es & _); [lia|]. rewrite Es, !ret_bind, Ex. destruct (sem_op b <? 0); [destruct (val s <? _); by eexists|]. destruct (sem_op b =? 0); [destruct (nz (val s)); by eexists|by exists x].
Qed.
Lemma apply_ops_ok pid sops : forall l, length l = 256%nat -> Forall (fun v => 0 <= val v < 2 ^ 16) l -> Forall (fun b => 0 <= sem_num b < 256) sops -> exists l', apply_ops pid sops l = Ret l' /\ length l' = 256%nat /\ Forall (fun v => 0 <= val v < 2 ^ 16) l'.
Proof.
  induction sops as [|b sops IH]; intros l Hl Hv HF; cbn [apply_ops]; [by exists l|]. apply Forall_cons in HF as [Hb HF]. destruct (arr_get_at l (sem_num b)) as (s & Es & El); [lia|]. rewrite Es, ret_bind, arr_set_Ret, ret_bind by lia. apply IH; [by rewrite length_insert| |done]. apply vals_insert; [done|]. apply add_op_range. rewrite Forall_forall in Hv. apply Hv. by apply list_elem_of_lookup_2 in El.
Qed.

Lemma round_ok t slot timeout r st ws s : ok (mk_machine st ws) -> sem_table st !! slot = Some s -> stable r -> Forall (fun b => 0 <= sem_num b < nsems s) (at_check r) ->
  exists p st', semop_round t slot timeout r st = Ret (p, st') /\ ok (mk_machine st' ws) /\ (p = Yield slot \/ exists c, p = Return c) /\ (p <> Return 0 -> st' = st) /\ sem_next_id st' = sem_next_id st /\ (exists l, p = Return 0 -> st' = put_set slot (set_sems l s) st).
Proof.
  intros O Es (R1 & R2 & R3) HF. pose proof O as [[_ _ I3 _] _]. pose proof (I3 slot s Es) as K. cbn in K. destruct K as [K1 K2 K3 K4 K5]. assert (HF' : Forall (fun b => 0 <= sem_num b < 256) (at_check r)) by (eapply Forall_impl; [exact HF|]; cbn; intros b Hb; lia). unfold semop_round. rewrite Es, R1, R2, R3. cbn [deref]. rewrite ret_bind. destruct (can_perform_ok (at_check r) (sems s) K1 HF') as [b Eb]. rewrite Eb, ret_bind. destruct b.
  - destruct (apply_ops_ok (match t with Some t => tgid t | None => 0 end) (at_check r) (sems s) K1 K2 HF') as (l & El & L1 & L2). rewrite El, ret_bind. eexists _, _. split; [done|]. split; [apply (sem_update_ok st ws slot s); [done|done|]; by apply (same_sems (sem_next_id st))|]. split; [right; by eexists|]. split; [done|]. split; [done|]. by exists l.
  - destruct (_ || _); eexists _, _; (split; [done|]; split; [done|]; split; [|split; [done|split; [done|by exists []]]]); [right; by eexists|by left].
Qed.

(** ** Waiting for a set *)


(** ** The other calls *)

Lemma new_ok t k n f st ws slot s : ok (mk_machine st ws) -> 0 < n <= 256 -> sem_table st !! slot = Some s -> sem_next_id st <= 0x7FFFFFFF -> ok (mk_machine (mk_state (<[slot := new_set t k n f (sem_next_id st)]> (sem_table st)) (u32 (sem_next_id st + 1))) ws).
Proof.
  intros [[I1 I2 I3 I4] W] Hn Es Hid. cbn in *. rewrite u32_id by lia. pose proof (lookup_lt_Some _ _ _ Es) as Hlt. assert (Hold : forall i x, sem_table st !! i = Some x -> set_ok (sem_next_id st + 1) x) by (intros i x E; destruct (I3 i x E) as [O1 O2 O3 O4 O5]; split; [done|done|done|lia|done]).
  split; [split; cbn; [by rewrite length_insert|lia| |]|].
  - intros i x E. apply list_lookup_insert_Some in E as [(_ & <- & _)|[_ E]]; [|by apply (Hold i)]. split; cbn -[replicate]; [done|apply Forall_replicate; cbn; lia|rewrite u16_id by lia; lia|lia|intros _; rewrite u16_id by lia; lia].
  - intros i j x y Ei Ej E H0. apply list_lookup_insert_Some in Ei as [(<- & <- & _)|[Hi Ei]], Ej as [(<- & <- & _)|[Hj Ej]] || apply list_lookup_insert_Some in Ej as [(<- & <- & _)|[Hj Ej]]; [done| | |].
    + exfalso. destruct (I3 j y Ej) as [_ _ _ O4 _]. cbn in E. lia.
    + exfalso. destruct (I3 i x Ei) as [_ _ _ O4 _]. cbn in E. lia.
    + by apply (I4 i j x y).
  - rewrite Forall_forall in *. intros w Hw. destruct (W w Hw) as [W1 (x & Ex & W2)]. cbn in *. split; cbn; [lia|]. destruct (decide (w_slot w = slot)) as [E|Hne]; [|exists x; by rewrite list_lookup_insert_ne]. rewrite E, list_lookup_insert_eq by done. eexists. split; [done|]. cbn. lia.
Qed.
Lemma create_ok t k n f st ws : ok (mk_machine st ws) -> 0 <= n <= 256 -> ok (mk_machine (snd (semget_create t k n f st)) ws).
Proof.
  intros O Hn. unfold semget_create. destruct (n =? 0) eqn:E0; reify_bools; [done|]. destruct (find_set _ 0 (sem_table st)) as [[slot s]|] eqn:E; [|done]. destruct (sem_next_id st >? 0x7FFFFFFF) eqn:Eid; reify_bools; [done|]. apply sem_found in E as [E _]. apply (new_ok t k n f st ws slot s); [done|lia|done|lia].
Qed.
Lemma sem_get_ok t k n f st ws : ok (mk_machine st ws) -> 0 <= n -> ok (mk_machine (snd (sys_semget t k n f st)) ws).
Proof.
  intros O Hn. unfold sys_semget, SEM_MAX_SEMS_PER_SET. destruct (n >? 256) eqn:En; reify_bools; [done|]. destruct (k =? 0); [by apply create_ok|]. destruct (find_set _ _ _) as [[? s]|].
  - destruct (_ && _); [done|]. by destruct (_ && _).
  - destruct (negb _); [done|by apply create_ok].
Qed.

Lemma get_all_ok n : forall i l, 0 <= i -> i + Z.of_nat n <= Z.of_nat (length l) -> exists r, get_all n i l = Ret r /\ r = map val (take n (drop (Z.to_nat i) l)).
Proof.
  induction n as [|n IH]; intros i l Hi Hn; cbn [get_all]; [by exists []|]. destruct (arr_get_at l i) as (s & Es & El); [lia|]. rewrite Es, ret_bind. destruct (IH (i + 1) l) as (r & Er & ->); [lia|lia|]. rewrite Er, ret_bind. eexists. split; [done|]. rewrite (drop_S l s (Z.to_nat i) El). cbn [take map]. do 4 f_equal. lia.
Qed.
Lemma set_all_ok n a : (forall i, 0 <= a i < 2 ^ 16) -> forall i l, 0 <= i -> i + Z.of_nat n <= Z.of_nat (length l) -> Forall (fun v => 0 <= val v < 2 ^ 16) l -> exists r, set_all n i a l = Ret r /\ length r = length l /\ Forall (fun v => 0 <= val v < 2 ^ 16) r.
Proof.
  intros Ha. induction n as [|n IH]; intros i l Hi Hn Hv; cbn [set_all]; [by exists l|]. destruct (arr_get_at l i) as (s & Es & _); [lia|]. rewrite Es, ret_bind, arr_set_Ret, ret_bind by lia. destruct (IH (i + 1) (<[Z.to_nat i := mk_val (a i) (lpid s)]> l)) as (r & Er & Hl & HF); [lia|rewrite length_insert; lia|by apply vals_insert; [|apply Ha]|]. exists r. split; [done|]. by rewrite length_insert in Hl.
Qed.
Lemma ctl_ok t id num cmd arg a st ws : ok (mk_machine st ws) -> 0 <= num -> (forall i, 0 <= a i < 2 ^ 16) -> exists c d st', sys_semctl t id num cmd arg a st = Ret (c, d, st') /\ ok (mk_machine st' ws) /\ sem_next_id st' = sem_next_id st /\ fresh_ids st st' /\ forall i s, sem_table st !! i = Some s -> by_id (ipc_namespace_id t) id s = false -> sem_table st' !! i = Some s.
Proof.
  intros O Hnum Ha. unfold sys_semctl. destruct (find_set _ 0 (sem_table st)) as [[i s]|] eqn:E; [|eexists _, _, st; pose proof (fresh_refl st); done]. apply sem_found in E as [E Hp]. pose proof O as [[_ _ I3 _] _]. pose proof (I3 i s E) as K. cbn in K. destruct K as [K1 K2 K3 K4 K5]. assert (Hput : forall s' (c : Z), same_set s s' -> exists c0 d0 st0, Ret (c, Nothing, put_set i s' st) = Ret (c0, d0, st0) /\ ok (mk_machine st0 ws) /\ sem_next_id st0 = sem_next_id st /\ fresh_ids st st0 /\ forall j x, sem_table st !! j = Some x -> by_id (ipc_namespace_id t) id x = false -> sem_table st0 !! j = Some x).
  { intros s' c Hs. eexists _, _, _. split; [done|]. split; [by apply (sem_update_ok st ws i s)|]. split; [done|]. split; [by destruct Hs; apply (fresh_put st i s)|]. intros j x Ej Hx. cbn. rewrite list_lookup_insert_ne; [done|]. intros <-. rewrite E in Ej. injection Ej as <-. congruence. }
  assert (Hsame : forall (c : Z) (d : user_data), exists c0 d0 st0, Ret (c, d, st) = Ret (c0, d0, st0) /\ ok (mk_machine st0 ws) /\ sem_next_id st0 = sem_next_id st /\ fresh_ids st st0 /\ forall j x, sem_table st !! j = Some x -> by_id (ipc_namespace_id t) id x = false -> sem_table st0 !! j = Some x) by (intros c d; eexists _, _, st; pose proof (fresh_refl st); done).
  destruct (cmd =? IPC_RMID); [apply Hput; by split|]. destruct (_ || _); [destruct (nz arg); apply Hsame|]. assert (Hget : num < nsems s -> exists v, arr_get (sems s) num = Ret v) by (intros Hlt; destruct (arr_get_at (sems s) num) as (v & Ev & _); [lia|by exists v]).
  destruct (cmd =? GETVAL); [destruct (num >=? nsems s) eqn:En; reify_bools; [apply Hsame|]; destruct (Hget En) as [v ->]; rewrite ret_bind; apply Hsame|].
  destruct (cmd =? SETVAL); [destruct (num >=? nsems s) eqn:En; reify_bools; [apply Hsame|]; destruct (Hget En) as [v ->]; rewrite ret_bind, arr_set_Ret, ret_bind by lia; apply Hput, (same_sems (sem_next_id st)); [by split|by rewrite length_insert|]; apply vals_insert; [done|apply u16_range]|].
  destruct (cmd =? GETALL); [destruct (arg =? 0); [apply Hsame|]; destruct (get_all_ok (Z.to_nat (nsems s)) 0 (sems s)) as (r & -> & _); [lia|lia|]; rewrite ret_bind; apply Hsame|].
  destruct (cmd =? SETALL); [destruct (arg =? 0); [apply Hsame|]; destruct (set_all_ok (Z.to_nat (nsems s)) a Ha 0 (sems s)) as (r & -> & Hl & HF); [lia|lia|done|]; rewrite ret_bind; apply Hput, (same_sems (sem_next_id st)); [by split|congruence|done]|].
  destruct (cmd =? GETPID); [destruct (num >=? nsems s) eqn:En; reify_bools; [apply Hsame|]; destruct (Hget En) as [v ->]; rewrite ret_bind; apply Hsame|]. destruct (_ || _); apply Hsame.
Qed.
Lemma sem_destroy_ok id st ws : ok (mk_machine st ws) -> ok (mk_machine (sem_namespace_destroy id st) ws).
Proof.
  intros O. destruct st as [T next]. unfold sem_namespace_destroy. cbn. apply (same_inv T); [by rewrite length_map| |done]. intros i x E. rewrite list_lookup_fmap in E. destruct (T !! i) as [s|] eqn:Es; [|done]. injection E as <-. exists s. split; [done|]. destruct O as [[_ _ I3 _] _]. destruct (I3 i s Es). destruct (_ && _); by split.
Qed.
(** The state of a round with its waiters, and the sets it leaves alone. *)
Lemma sem_finish_ok t id timeout r st ws slot s p st' : ok (mk_machine st' ws) -> sem_table st !! slot = Some s -> semid s = u32 id -> active s = true -> ok (mk_machine st ws) -> Forall (fun b => 0 <= sem_num b < nsems s) (at_check r) -> (p = Yield slot \/ exists c, p = Return c) -> (p <> Return 0 -> st' = st) -> ok (finish t id timeout r ws (p, st')).
Proof.
  intros O' Es Hid Ha O HF Hp Hsame. unfold finish. destruct p as [c|slot']; [done|]. destruct Hp as [[= ->]|[c [=]]]. rewrite (Hsame ltac:(done)) in *. destruct O as [I W]. split; [done|]. cbn. apply Forall_app. split; [done|]. constructor; [|constructor]. split; cbn; [|exists s; split; [done|]; by intros _]. destruct I as [_ _ I3 _]. destruct (I3 slot s Es) as [_ _ _ O4 O5]. cbn in *. destruct (O5 Ha). lia.
Qed.
Definition actor (e : event) (m : machine) : option Z :=
  match e with
  | Get t _ _ _ | Ctl t _ _ _ _ _ | Op t _ _ _ _ _ => Some (ipc_namespace_id t)
  | Resume k _ => w ← waiters m !! k; Some (ipc_namespace_id (w_thread w))
  | Destroy id => Some id
  end.
Definition untouched (ns : Z) (st st' : state) : Prop := forall i s, sem_table st !! i = Some s -> active s = true -> namespace_id s <> ns -> sem_table st' !! i = Some s.
Lemma put_untouched ns st i s s' : sem_table st !! i = Some s -> namespace_id s = ns -> untouched ns st (put_set i s' st).
Proof. intros E Hn j x Ej _ Hx. cbn. rewrite list_lookup_insert_ne; [done|]. intros <-. congruence. Qed.
Lemma untouched_refl ns st : untouched ns st st.
Proof. by intros i s. Qed.
Lemma get_untouched t k n f st : untouched (ipc_namespace_id t) st (snd (sys_semget t k n f st)).
Proof.
  assert (Hc : untouched (ipc_namespace_id t) st (snd (semget_create t k n f st))).
  { unfold semget_create. destruct (n =? 0); [apply untouched_refl|]. destruct (find_set _ 0 (sem_table st)) as [[slot x]|] eqn:E; [|apply untouched_refl]. destruct (_ >? _); [apply untouched_refl|]. intros i s Es Ha _. cbn. apply sem_found in E as [E Hx]. rewrite list_lookup_insert_ne; [done|]. intros <-. rewrite E in Es. injection Es as ->. by rewrite Ha in Hx. }
  unfold sys_semget. destruct (n >? _); [apply untouched_refl|]. destruct (k =? 0); [done|]. destruct (find_set _ _ _) as [[? s]|]; [|destruct (negb _); [apply untouched_refl|done]]. destruct (_ && _); [apply untouched_refl|]. destruct (_ && _); apply untouched_refl.
Qed.

Lemma sem_exec_ok e m : ok m -> legal m e -> exists m', exec e m = Ret m' /\ ok m' /\ forall ns, actor e m = Some ns -> untouched ns (sem m) (sem m').
Proof.
  intros O L. destruct m as [st ws]. destruct e as [t k n f|t id num cmd arg a|t id addr n timeout r|k r|id]; cbn [exec legal actor sem waiters] in *.
  - eexists. split; [done|]. split; [by apply sem_get_ok|]. intros ns [= <-]. apply get_untouched.
  - destruct L as [L1 L2]. destruct (ctl_ok t id num cmd arg a st ws O L1 L2) as (c & d & st' & E & O' & _ & _ & Hu). rewrite E, ret_bind. eexists. split; [done|]. split; [done|]. intros ns [= <-] i s Es Ha Hn. cbn. apply Hu; [done|]. unfold by_id. by rewrite Ha, (proj2 (Z.eqb_neq _ _) Hn).
  - destruct L as [L1 L2]. unfold sys_semtimedop. destruct (_ || _ || _); [rewrite ret_bind; eexists; split; [done|]; split; [done|]; by intros ns _ i s|]. destruct (find_set _ 0 (sem_table st)) as [[slot s]|] eqn:E; [|rewrite ret_bind; eexists; split; [done|]; split; [done|]; by intros ns _ i s]. apply by_id_found in E as (Es & Ha & Hn & Hid). destruct (existsb _ (at_check r)) eqn:Ex; [rewrite ret_bind; eexists; split; [done|]; split; [done|]; by intros ns _ i x|].
    assert (HF : Forall (fun b => 0 <= sem_num b < nsems s) (at_check r)) by (apply nums_checked in Ex; rewrite Forall_forall in *; intros b Hb; destruct (L2 b Hb) as [B1 _]; specialize (Ex b Hb); cbn in Ex; lia).
    destruct (round_ok t slot timeout r st ws s O Es L1 HF) as (p & st' & E & O' & Hp & Hsame & _ & (l & Hput)). rewrite E, ret_bind. eexists. split; [done|]. split; [by apply (sem_finish_ok t id timeout r st ws slot s)|]. intros ns [= <-]. cbn. destruct (decide (p = Return 0)) as [Ep|Hne]; [rewrite (Hput Ep); by apply (put_untouched _ st slot s)|rewrite (Hsame Hne); apply untouched_refl].
  - destruct L as [L1 (w & Ew & Hw)]. rewrite Ew. cbn [deref]. rewrite ret_bind. assert (O2 : ok (mk_machine st (delete k ws))) by (destruct O as [I W]; split; [done|]; by apply Forall_delete). assert (Wk : waiter_ok st w) by (destruct O as [_ W]; rewrite Forall_forall in W; apply W; by apply list_elem_of_lookup_2 in Ew). destruct Wk as [W1 (s & Es & W2)]. unfold semtimedop_resume. rewrite Es. cbn [deref]. rewrite ret_bind. destruct (negb (active s) || _ || _) eqn:Ec; [rewrite ret_bind; eexists; split; [done|]; split; [done|]; by intros ns _ i x|]. reify_bools.
    assert (HF : Forall (fun b => 0 <= sem_num b < nsems s) (at_check r)) by (rewrite Hw; by apply W2). destruct (round_ok (w_thread w) (w_slot w) (w_timeout w) r st (delete k ws) s O2 Es L1 HF) as (p & st' & E & O' & Hp & Hsame & _ & (l & Hput)). rewrite E, ret_bind. eexists. split; [done|]. split; [apply (sem_finish_ok _ _ _ _ st (delete k ws) (w_slot w) s); try done; cbn; by rewrite <- Hw|]. intros ns Hns. cbn in Hns. injection Hns as <-. cbn. destruct (decide (p = Return 0)) as [Ep|Hne]; [rewrite (Hput Ep); by apply (put_untouched _ st (w_slot w) s)|rewrite (Hsame Hne); apply untouched_refl].
  - eexists. split; [done|]. split; [by apply sem_destroy_ok|]. intros ns [= <-] i s Es Ha Hn. cbn. rewrite list_lookup_fmap, Es. cbn. by rewrite Ha, (proj2 (Z.eqb_neq _ _) Hn).
Qed.
Lemma sem_init_ok : ok (mk_machine sem_init []).
Proof.
  split; [|constructor]. split; cbn -[replicate]; [done|lia| |].
  - intros i s E. apply lookup_replicate in E as [-> _]. split; cbn -[replicate]; [done|apply Forall_replicate; cbn; lia|lia|lia|done].
  - intros i j s s' Ei Ej _ H0. apply lookup_replicate in Ei as [-> _]. done.
Qed.
(** ** Operations in order *)

(** POSIX: the operations are done in order, all of them or none. *)
Definition posix_op (op v : Z) : option Z := if op <? 0 then if v + op <? 0 then None else Some (v + op) else if op =? 0 then if v =? 0 then Some 0 else None else Some (v + op).
Fixpoint posix (sops : list sembuf) (vs : list Z) : option (list Z) :=
  match sops with
  | [] => Some vs
  | b :: sops => v ← vs !! Z.to_nat (sem_num b); v ← posix_op (sem_op b) v; posix sops (<[Z.to_nat (sem_num b) := v]> vs)
  end.
Definition room (sops : list sembuf) (l : list sem_val) : Prop := forall b v, b ∈ sops -> l !! Z.to_nat (sem_num b) = Some v -> val v + sem_op b < 2 ^ 16.

Lemma can_perform_ext sops l l' : (forall b, b ∈ sops -> 0 <= sem_num b -> l' !! Z.to_nat (sem_num b) = l !! Z.to_nat (sem_num b)) -> can_perform sops l' = can_perform sops l.
Proof.
  induction sops as [|b sops IH]; intros H; cbn [can_perform]; [done|]. rewrite IH by (intros x Hx; apply H; by right). assert (E : arr_get l' (sem_num b) = arr_get l (sem_num b)) by (unfold arr_get; destruct (sem_num b <? 0) eqn:E; reify_bools; [done|]; rewrite H; [done|left|lia]). by rewrite E.
Qed.
Lemma ops_posix pid sops : forall l, Forall buf_ok sops -> Forall (fun b => 0 <= sem_num b < Z.of_nat (length l)) sops -> Forall (fun v => 0 <= val v < 2 ^ 16) l -> NoDup (map sem_num sops) -> room sops l ->
  exists b, can_perform sops l = Ret b /\ (if b then exists l', apply_ops pid sops l = Ret l' /\ posix sops (map val l) = Some (map val l') else posix sops (map val l) = None).
Proof.
  induction sops as [|b sops IH]; intros l HB HN HV ND HR; cbn [can_perform apply_ops posix]; [exists true; split; [done|]; by exists l|]. apply Forall_cons in HB as [[Hb1 Hb2] HB]. apply Forall_cons in HN as [Hn HN]. cbn in ND. apply NoDup_cons in ND as [Hnew ND]. destruct (arr_get_at l (sem_num b) Hn) as (s & Es & El). rewrite Es, !ret_bind, arr_set_Ret, ret_bind by done. rewrite list_lookup_fmap, El. cbn [fmap option_fmap option_map mbind option_bind]. assert (Hv : 0 <= val s < 2 ^ 16) by (rewrite Forall_forall in HV; apply HV; by apply list_elem_of_lookup_2 in El). assert (Hroom : val s + sem_op b < 2 ^ 16) by (apply (HR b s); [left|done]).
  set (v := add_op (sem_op b) (val s)). set (l1 := <[Z.to_nat (sem_num b) := mk_val v pid]> l).
  assert (Hrest : exists c, can_perform sops l = Ret c /\ (if c then exists l', apply_ops pid sops l1 = Ret l' /\ posix sops (<[Z.to_nat (sem_num b) := v]> (map val l)) = Some (map val l') else posix sops (<[Z.to_nat (sem_num b) := v]> (map val l)) = None)).
  { assert (Hne : forall x, x ∈ sops -> 0 <= sem_num x -> Z.to_nat (sem_num b) <> Z.to_nat (sem_num x)) by (intros x Hx H0 E; apply Hnew; assert (sem_num b = sem_num x) as -> by lia; apply list_elem_of_In, in_map_iff; exists x; split; [done|by apply list_elem_of_In]). destruct (IH l1) as (c & Ec & Hc); [done|by unfold l1; rewrite length_insert|apply vals_insert; [done|by apply add_op_range]|done| |].
    - intros x w Hx Ew. unfold l1 in Ew. rewrite Forall_forall in HN. rewrite list_lookup_insert_ne in Ew by (apply Hne; [done|apply HN, Hx]). apply (HR x w); [by right|done].
    - exists c. split; [rewrite <- Ec; symmetry; apply can_perform_ext; intros x Hx H0; unfold l1; by rewrite list_lookup_insert_ne by (by apply Hne)|]. assert (El1 : map val l1 = <[Z.to_nat (sem_num b) := v]> (map val l)) by (unfold l1; apply (list_fmap_insert val)). by rewrite <- El1. }
  unfold posix_op. destruct (sem_op b <? 0) eqn:E1; [|destruct (sem_op b =? 0) eqn:E2]; reify_bools.
  - rewrite u16_id by lia. destruct (val s <? - sem_op b) eqn:E3; reify_bools; [exists false; split; [done|]; by rewrite (proj2 (Z.ltb_lt (val s + sem_op b) 0)) by lia|]. rewrite (proj2 (Z.ltb_ge (val s + sem_op b) 0)) by lia. cbn [mbind option_bind]. replace (val s + sem_op b) with v; [done|]. unfold v, add_op. rewrite (proj2 (Z.ltb_lt (sem_op b) 0)) by lia. rewrite (u16_id (- sem_op b)) by lia. rewrite u16_id by lia. lia.
  - unfold nz. destruct (val s =? 0) eqn:E3; reify_bools; cbn [negb]; [|by exists false]. cbn [mbind option_bind]. assert (Ev : v = 0) by (unfold v, add_op; rewrite E2; exact E3). rewrite Ev in Hrest. exact Hrest.
  - cbn [mbind option_bind]. replace (val s + sem_op b) with v; [done|]. unfold v, add_op. rewrite (proj2 (Z.ltb_ge (sem_op b) 0)), Z.gtb_ltb, (proj2 (Z.ltb_lt 0 (sem_op b))) by lia. rewrite (u16_id (sem_op b)), u16_id by lia. done.
Qed.
(** ** Properties *)

(** What the threads of the system can do from boot on. *)
Inductive reachable : machine -> Prop :=
  | reach_init : reachable (mk_machine sem_init [])
  | reach_event m e m' : reachable m -> legal m e -> exec e m = Ret m' -> reachable m'.
Lemma sem_reachable_ok m : reachable m -> ok m.
Proof. intros R. induction R as [|m e m' R IH L E]; [apply sem_init_ok|]. destruct (sem_exec_ok e m IH L) as (m1 & E1 & O1 & _). congruence. Qed.


(** IPC namespaces are isolated. A call of a thread changes no set of another namespace,
    and destroying a namespace removes only its own sets. *)
Theorem sem_isolated m e m' ns i s : reachable m -> legal m e -> exec e m = Ret m' -> actor e m = Some ns -> sem_table (sem m) !! i = Some s -> active s = true -> namespace_id s <> ns -> sem_table (sem m') !! i = Some s.
Proof. intros R L E A Es Ha Hn. destruct (sem_exec_ok e m (sem_reachable_ok m R) L) as (m1 & E1 & _ & H). assert (m1 = m') as -> by congruence. by apply (H ns A). Qed.

(** C29: [semop] does all its operations or none. When an array names each semaphore at most
    once, no value leaves 16 bits and the array in user memory does not change during the
    call, the call is the POSIX one: if the operations can be done in order it does them and
    returns 0, and else the set stays as it is and the call returns [EAGAIN] if it may not
    block, or waits. *)
Theorem semop_posix t id addr timeout sops st slot s : inv st -> find_set (by_id (ipc_namespace_id t) id) 0 (sem_table st) = Some (slot, s) -> addr <> 0 -> 0 < Z.of_nat (length sops) <= 256 -> Forall buf_ok sops -> Forall (fun b => sem_num b < nsems s) sops -> NoDup (map sem_num sops) -> room sops (sems s) ->
  match posix sops (map val (sems s)) with
  | Some vs => exists l, sys_semtimedop t id addr (Z.of_nat (length sops)) timeout (mk_reads sops sops sops sops) st = Ret (Return 0, put_set slot (set_sems l s) st) /\ map val l = vs
  | None => sys_semtimedop t id addr (Z.of_nat (length sops)) timeout (mk_reads sops sops sops sops) st = Ret (if existsb (fun b => nz (Z.land (sem_flg b) IPC_NOWAIT)) sops || nz timeout then Return EAGAIN else Yield slot, st)
  end.
Proof.
  intros [_ _ I3 _] Ef Ha Hl HB HN ND HR. pose proof Ef as Ef'. apply by_id_found in Ef' as (Es & _). destruct (I3 slot s Es) as [K1 K2 K3 _ _]. unfold sys_semtimedop, SEM_MAX_SEMS_PER_SET. rewrite (proj2 (Z.eqb_neq (Z.of_nat (length sops)) 0)), Z.gtb_ltb, (proj2 (Z.ltb_ge 256 (Z.of_nat (length sops)))) by lia. assert (Ena : nz addr = true) by (unfold nz; by rewrite (proj2 (Z.eqb_neq addr 0) Ha)). rewrite Ena. cbn [negb orb at_check]. rewrite Ef. rewrite (proj2 (nums_checked sops (nsems s)) HN). unfold semop_round. rewrite Es. cbn [deref at_test at_apply at_flags]. rewrite !ret_bind.
  destruct (ops_posix (match t with Some t => tgid t | None => 0 end) sops (sems s) HB) as (b & Eb & H); [rewrite Forall_forall in *; intros b Hb; destruct (HB b Hb); specialize (HN b Hb); lia|done|done|done|]. rewrite Eb, !ret_bind. destruct b; [destruct H as (l & El & ->)|rewrite H; by destruct (_ || _)]. rewrite El, ret_bind. by exists l.
Qed.

(** C32: A semaphore named twice can go below zero. [sys_semtimedop] compares every operation
    with the values before the call, so two operations that each take the whole value [v] of
    a semaphore both pass: the call returns 0 and leaves 65536 - v, where POSIX lets it
    wait. *)
Theorem semop_underflow t id addr timeout st slot s n v f1 f2 sops : inv st -> find_set (by_id (ipc_namespace_id t) id) 0 (sem_table st) = Some (slot, s) -> addr <> 0 -> 0 <= n < nsems s -> val <$> sems s !! Z.to_nat n = Some v -> 0 < v <= 2 ^ 15 -> sops = [mk_sembuf n (- v) f1; mk_sembuf n (- v) f2] ->
  posix sops (map val (sems s)) = None /\ exists st' s', sys_semtimedop t id addr 2 timeout (mk_reads sops sops sops sops) st = Ret (Return 0, st') /\ sem_table st' !! slot = Some s' /\ val <$> sems s' !! Z.to_nat n = Some (2 ^ 16 - v).
Proof.
  intros [_ _ I3 _] Ef Ha Hn Ev Hv ->. pose proof Ef as Ef'. apply by_id_found in Ef' as (Es & _). destruct (I3 slot s Es) as [K1 K2 K3 _ _]. destruct (arr_get_at (sems s) n) as (x & Ex & El); [lia|]. rewrite El in Ev. injection Ev as Ev. pose proof (lookup_lt_Some _ _ _ El) as Hlt. split.
  - cbn [posix sem_num sem_op]. rewrite list_lookup_fmap, El. cbn [fmap option_fmap option_map mbind option_bind]. unfold posix_op. rewrite Ev, (proj2 (Z.ltb_lt (- v) 0)), (proj2 (Z.ltb_ge (v + - v) 0)) by lia. cbn [mbind option_bind]. rewrite list_lookup_insert_eq by (by rewrite length_map). cbn [mbind option_bind]. by rewrite (proj2 (Z.ltb_lt (v + - v + - v) 0)) by lia.
  - unfold sys_semtimedop, SEM_MAX_SEMS_PER_SET. assert (Ena : nz addr = true) by (unfold nz; by rewrite (proj2 (Z.eqb_neq addr 0) Ha)). rewrite Ena. cbn [negb orb Z.eqb Z.gtb Z.compare Pos.compare Pos.compare_cont at_check]. rewrite Ef. cbn [existsb sem_num]. rewrite !Z.geb_leb, !(proj2 (Z.leb_gt (nsems s) n)) by lia. cbn [orb]. unfold semop_round. rewrite Es. cbn [deref at_test at_apply at_flags]. rewrite ret_bind. cbn [can_perform apply_ops sem_num sem_op]. rewrite (proj2 (Z.ltb_lt (- v) 0)) by lia. rewrite Ex, !ret_bind. replace (- - v) with v by lia. rewrite u16_id by lia. rewrite Ev, Z.ltb_irrefl, ret_bind, arr_set_Ret, ret_bind by lia.
    destruct (arr_get_at (<[Z.to_nat n := mk_val (add_op (- v) v) (match t with Some t => tgid t | None => 0 end)]> (sems s)) n) as (y & Ey & Ely); [rewrite length_insert; lia|]. rewrite Ey, ret_bind, arr_set_Ret, ret_bind by (rewrite length_insert; lia). rewrite ret_bind. eexists _, _. split; [done|]. split; [cbn; apply list_lookup_insert_eq; by apply lookup_lt_Some in Es|]. cbn [sems set_sems]. rewrite list_lookup_insert_eq by (by rewrite length_insert). cbn. rewrite list_lookup_insert_eq in Ely by done. injection Ely as <-. cbn [val]. f_equal. unfold add_op. rewrite (proj2 (Z.ltb_lt (- v) 0)) by lia. replace (- - v) with v by lia. rewrite (u16_id v), Z.sub_diag by lia. unfold u16. change (0 mod 2 ^ 16) with 0. replace (0 - v) with ((2 ^ 16 - v) + (-1) * 2 ^ 16) by lia. rewrite Z.mod_add, Z.mod_small by lia. lia.
Qed.

(** The array is read again after the check. When another thread of the caller changes
    the number of a semaphore between the loop that checks the numbers and the loop that
    tests the values, the test reads past the end of the set. *)
Theorem semop_double_fetch t id addr timeout st slot s sops op : inv st -> find_set (by_id (ipc_namespace_id t) id) 0 (sem_table st) = Some (slot, s) -> addr <> 0 -> op <= 0 -> Forall (fun b => sem_num b < nsems s) sops ->
  sys_semtimedop t id addr 1 timeout (mk_reads sops [mk_sembuf 256 op 0] sops sops) st = Fault.
Proof.
  intros [_ _ I3 _] Ef Ha Hop HN. pose proof Ef as Ef'. apply by_id_found in Ef' as (Es & _). destruct (I3 slot s Es) as [K1 _ _ _ _]. unfold sys_semtimedop. assert (Ena : nz addr = true) by (unfold nz; by rewrite (proj2 (Z.eqb_neq addr 0) Ha)). rewrite Ena. cbn [negb orb Z.eqb at_check]. change (1 >? SEM_MAX_SEMS_PER_SET) with false. cbn [orb]. rewrite Ef. rewrite (proj2 (nums_checked sops (nsems s)) HN). unfold semop_round. rewrite Es. cbn [deref at_test]. rewrite ret_bind. cbn [can_perform sem_op sem_num]. assert (Eg : arr_get (sems s) 256 = Fault) by (unfold arr_get; change (256 <? 0) with false; cbv iota; rewrite lookup_ge_None_2; [done|rewrite K1; lia]). rewrite Eg. destruct (op <? 0) eqn:E1; reify_bools; [done|]. by rewrite (proj2 (Z.eqb_eq op 0)) by lia.
Qed.
(** ** Witnesses *)

(** A set of two semaphores in the initial namespace, the first with value 3. *)
Definition ex_get : event := Get None 7 2 IPC_CREAT.
Definition ex_set : event := Ctl None 1 0 SETVAL 3 (fun _ => 0).
Definition ex_machine : machine := match exec ex_get (mk_machine sem_init []) with Ret m => match exec ex_set m with Ret m => m | _ => m end | _ => mk_machine sem_init [] end.
Lemma ex_reachable : reachable ex_machine.
Proof.
  apply (reach_event (mk_machine (snd (sys_semget None 7 2 IPC_CREAT sem_init)) []) ex_set); [|unfold ex_set; cbn; split; [lia|intros i; lia]|reflexivity]. apply (reach_event (mk_machine sem_init []) ex_get); [apply reach_init|unfold ex_get; cbn; lia|reflexivity].
Qed.
Definition ex_found : sem_set := match find_set (by_id (ipc_namespace_id None) 1) 0 (sem_table (sem ex_machine)) with Some (_, s) => s | None => zero_set end.
Lemma ex_find : find_set (by_id (ipc_namespace_id None) 1) 0 (sem_table (sem ex_machine)) = Some (0%nat, ex_found).
Proof. reflexivity. Qed.
Definition ex_take (v : Z) : list sembuf := [mk_sembuf 0 (- v) 0; mk_sembuf 0 (- v) 0].


Lemma sem_isolated_witness : exists m', exec (Destroy 5) ex_machine = Ret m' /\ sem_table (sem m') !! 0%nat = Some ex_found.
Proof. eexists. split; [reflexivity|]. apply (sem_isolated ex_machine (Destroy 5) _ 5 0 ex_found ex_reachable I eq_refl eq_refl eq_refl eq_refl). vm_compute. discriminate. Defined.
Lemma semop_posix_witness : exists l, sys_semtimedop None 1 1 1 0 (mk_reads [mk_sembuf 0 (-2) 0] [mk_sembuf 0 (-2) 0] [mk_sembuf 0 (-2) 0] [mk_sembuf 0 (-2) 0]) (sem ex_machine) = Ret (Return 0, put_set 0 (set_sems l ex_found) (sem ex_machine)) /\ take 2 (map val l) = [1; 0].
Proof.
  destruct (sem_reachable_ok _ ex_reachable) as [I _]. pose proof (semop_posix None 1 1 0 [mk_sembuf 0 (-2) 0] (sem ex_machine) 0 ex_found I ex_find ltac:(discriminate)) as H. change (posix [mk_sembuf 0 (-2) 0] (map val (sems ex_found))) with (Some (1 :: replicate 255 0)) in H. cbv iota in H. destruct H as (l & E & Hl).
  - cbn. lia.
  - repeat constructor; cbn; lia.
  - repeat constructor.
  - cbn. apply NoDup_singleton.
  - intros b v Hb Ev. apply list_elem_of_singleton in Hb as ->. vm_compute in Ev. injection Ev as <-. reflexivity.
  - exists l. split; [exact E|]. rewrite Hl. reflexivity.
Defined.
Lemma semop_underflow_witness : exists st' s', sys_semtimedop None 1 1 2 0 (mk_reads (ex_take 3) (ex_take 3) (ex_take 3) (ex_take 3)) (sem ex_machine) = Ret (Return 0, st') /\ sem_table st' !! 0%nat = Some s' /\ val <$> sems s' !! 0%nat = Some 65533.
Proof.
  destruct (sem_reachable_ok _ ex_reachable) as [I _]. destruct (semop_underflow None 1 1 0 (sem ex_machine) 0 ex_found 0 3 0 0 (ex_take 3) I ex_find ltac:(discriminate) ltac:(vm_compute; split; [discriminate|reflexivity]) eq_refl ltac:(lia) eq_refl) as (_ & st' & s' & E & Es & Ev). exists st', s'. split; [exact E|]. split; [exact Es|exact Ev].
Defined.
Lemma semop_double_fetch_witness : sys_semtimedop None 1 1 1 0 (mk_reads [mk_sembuf 0 (-1) 0] [mk_sembuf 256 (-1) 0] [mk_sembuf 0 (-1) 0] [mk_sembuf 0 (-1) 0]) (sem ex_machine) = Fault.
Proof.
  destruct (sem_reachable_ok _ ex_reachable) as [I _]. apply (semop_double_fetch None 1 1 0 (sem ex_machine) 0 ex_found [mk_sembuf 0 (-1) 0] (-1) I ex_find); [discriminate|lia|]. repeat constructor.
Defined.
End SemClaims.
