(* ===== verification/DirIndex.v ===== *)
(** DirIndex: the directory index of the in-memory file systems ([kernel/src/fs/dirindex.c],
    [dirindex.h]) and the operations of ramfs on one directory ([fs/ramfs.c]).

    A directory is its index, the entries ([vfs_child_t]) by address and the nodes by address.
    Names are lists of bytes without the final 0. Each operation runs under the lock of the
    index and is one step, except that [vfs_dirindex_insert] chooses and allocates a table
    before it takes the lock: the table is an argument of the locked part. [ramfs_create] and
    [ramfs_rename] take the lock several times and are compositions of such steps. Reference
    counts of nodes are not modelled, and of a directory node's payload only the number of
    entries, as an argument of [ramfs_rmdir]. *)

From S2P Require Import Prelude.
#[local] Open Scope Z_scope.

Module DirIndex.

Definition VFS_DIRINDEX_MIN_BUCKETS : Z := 16.
Definition FS_FILE : Z := 1.
Definition FS_DIRECTORY : Z := 2.
Definition FS_PERSISTENT : Z := 0x10.
Definition FS_DELETED : Z := 0x200.
Definition FS_TYPE_MASK : Z := 0xF.

Record vfs_child := mk_child { node : Z; next : Z; prev : Z; hnext : Z; cookie : Z }.
Record vfs_node := mk_node { name : list Z; flags : Z }.
Record vfs_dirindex := mk_index { children : Z; cursor : Z; cursor_cookie : Z; next_cookie : Z; buckets : option (list Z); nbuckets : Z; count : Z }.
Record dir := mk_dir { index : vfs_dirindex; kids : gmap Z vfs_child; nodes : gmap Z vfs_node; force_scan : bool }.

Definition set_index (i : vfs_dirindex) (d : dir) : dir := mk_dir i (kids d) (nodes d) (force_scan d).
Definition set_kids (k : gmap Z vfs_child) (d : dir) : dir := mk_dir (index d) k (nodes d) (force_scan d).
Definition set_nodes (n : gmap Z vfs_node) (d : dir) : dir := mk_dir (index d) (kids d) n (force_scan d).
Definition set_children (v : Z) (d : dir) : dir := let i := index d in set_index (mk_index v (cursor i) (cursor_cookie i) (next_cookie i) (buckets i) (nbuckets i) (count i)) d.
Definition set_cursor (c k : Z) (d : dir) : dir := let i := index d in set_index (mk_index (children i) c k (next_cookie i) (buckets i) (nbuckets i) (count i)) d.
Definition set_buckets (b : option (list Z)) (n : Z) (d : dir) : dir := let i := index d in set_index (mk_index (children i) (cursor i) (cursor_cookie i) (next_cookie i) b n (count i)) d.
Definition set_count (n : Z) (d : dir) : dir := let i := index d in set_index (mk_index (children i) (cursor i) (cursor_cookie i) (next_cookie i) (buckets i) (nbuckets i) n) d.
Definition set_next_cookie (n : Z) (d : dir) : dir := let i := index d in set_index (mk_index (children i) (cursor i) (cursor_cookie i) n (buckets i) (nbuckets i) (count i)) d.

Definition kid (d : dir) (a : Z) : outcome vfs_child := deref (kids d !! a).
Definition name_of (d : dir) (c : vfs_child) : outcome (list Z) := n ← deref (nodes d !! node c); Ret (name n).
Definition update (a : Z) (f : vfs_child -> vfs_child) (d : dir) : outcome dir := c ← kid d a; Ret (set_kids (<[a := f c]> (kids d)) d).
Definition set_next (v a : Z) := update a (fun c => mk_child (node c) v (prev c) (hnext c) (cookie c)).
Definition set_prev (v a : Z) := update a (fun c => mk_child (node c) (next c) v (hnext c) (cookie c)).
Definition set_hnext (v a : Z) := update a (fun c => mk_child (node c) (next c) (prev c) v (cookie c)).
Definition set_cookie (v a : Z) := update a (fun c => mk_child (node c) (next c) (prev c) (hnext c) v).

(** ** Hash and lookup *)

Fixpoint fnv (h : Z) (l : list Z) : Z := match l with [] => h | c :: l => fnv (u64 (Z.lxor h c * 1099511628211)) l end.
Definition dirindex_hash (l : list Z) : Z := let h := fnv 14695981039346656037 l in u32 (Z.lxor h (Z.shiftr h 32)).
Definition bucket (n : Z) (l : list Z) : Z := Z.land (dirindex_hash l) (u32 (n - 1)).

Definition same_name (a b : list Z) : bool := bool_decide (a = b).
(** The two walks of [vfs_dirindex_find_locked]: [step] is the next entry. *)
Fixpoint walk (fuel : nat) (step : vfs_child -> Z) (a : Z) (l : list Z) (d : dir) : outcome Z :=
  match fuel with
  | O => OutOfFuel
  | S fuel =>
    if a =? 0 then Ret 0
    else c ← kid d a; n ← name_of d c; if same_name n l then Ret a else walk fuel step (step c) l d
  end.
Definition vfs_dirindex_find_locked (l : list Z) (d : dir) : outcome Z :=
  if force_scan d then walk (S (size (kids d))) next (children (index d)) l d
  else
    match buckets (index d) with
    | None => Ret 0
    | Some bs => a ← arr_get bs (bucket (nbuckets (index d)) l); walk (S (size (kids d))) hnext a l d
    end.

(** ** Insertion *)

Definition vfs_dirindex_init (d : dir) : dir := set_index (mk_index 0 0 0 3 None 0 0) d.
Definition vfs_dirindex_destroy (d : dir) : dir := set_buckets None 0 d.

(** The size of the table to allocate, from a look at the index without the lock. *)
Definition fresh_size (d : dir) : option Z :=
  let i := index d in
  match buckets i with
  | None => Some (if nz (nbuckets i) then u32 (nbuckets i * 2) else VFS_DIRINDEX_MIN_BUCKETS)
  | Some _ => if u32 (count i + 1) >? nbuckets i then Some (if nz (nbuckets i) then u32 (nbuckets i * 2) else VFS_DIRINDEX_MIN_BUCKETS) else None
  end.
(** [c->hnext = fresh[b]; fresh[b] = c;] *)
Definition chain (n a : Z) (bs : list Z) (d : dir) : outcome (list Z * dir) :=
  c ← kid d a; l ← name_of d c;
  first ← arr_get bs (bucket n l);
  d ← set_hnext first a d;
  bs ← arr_set bs (bucket n l) a;
  Ret (bs, d).
Fixpoint rechain (fuel : nat) (n a : Z) (bs : list Z) (d : dir) : outcome (list Z * dir) :=
  match fuel with
  | O => OutOfFuel
  | S fuel => if a =? 0 then Ret (bs, d) else '(bs, d) ← chain n a bs d; c ← kid d a; rechain fuel n (next c) bs d
  end.
(** Adoption of the table [fresh] (its size, when it was allocated). *)
Definition adopt (fresh : option Z) (d : dir) : outcome dir :=
  match buckets (index d), fresh with
  | None, Some n => Ret (set_buckets (Some (replicate (Z.to_nat n) 0)) n d)
  | Some _, Some n =>
    if u32 (count (index d) + 1) >? nbuckets (index d) then
      '(bs, d) ← rechain (S (size (kids d))) n (children (index d)) (replicate (Z.to_nat n) 0) d;
      Ret (set_buckets (Some bs) n d)
    else Ret d
  | _, None => Ret d
  end.
Definition insert_locked (fresh : option Z) (a : Z) (d : dir) : outcome (bool * dir) :=
  d ← adopt fresh d;
  match buckets (index d) with
  | None => Ret (false, d)
  | Some bs =>
    d ← set_cookie (next_cookie (index d)) a d;
    let d := set_next_cookie (u64 (next_cookie (index d) + 1)) d in
    d ← set_prev 0 a d;
    d ← set_next (children (index d)) a d;
    d ← (if nz (children (index d)) then set_prev a (children (index d)) d else Ret d);
    let d := set_children a d in
    '(bs, d) ← chain (nbuckets (index d)) a bs d;
    let d := set_buckets (Some bs) (nbuckets (index d)) d in
    Ret (true, set_count (u32 (count (index d) + 1)) d)
  end.
(** ** Removal and renaming *)

(** The loop that follows [pp] to the entry and splices it out: [p] is the entry that [pp]
    points into, or none for the head of bucket [b], and [cur] is what it points to. *)
Fixpoint unchain (fuel : nat) (b : Z) (p : option Z) (cur a : Z) (bs : list Z) (d : dir) : outcome (list Z * dir) :=
  match fuel with
  | O => OutOfFuel
  | S fuel =>
    if cur =? 0 then Ret (bs, d)
    else if cur =? a then
      c ← kid d a;
      match p with
      | None => bs ← arr_set bs b (hnext c); Ret (bs, d)
      | Some q => d ← set_hnext (hnext c) q d; Ret (bs, d)
      end
    else c ← kid d cur; unchain fuel b (Some cur) (hnext c) a bs d
  end.
Definition unhash (a : Z) (d : dir) : outcome dir :=
  match buckets (index d) with
  | None => Ret d
  | Some bs =>
    c ← kid d a; l ← name_of d c;
    let b := bucket (nbuckets (index d)) l in
    first ← arr_get bs b;
    '(bs, d) ← unchain (S (size (kids d))) b None first a bs d;
    Ret (set_buckets (Some bs) (nbuckets (index d)) d)
  end.
Definition vfs_dirindex_detach_locked (a : Z) (d : dir) : outcome dir :=
  c ← kid d a;
  d ← (if nz (prev c) then set_next (next c) (prev c) d else Ret (set_children (next c) d));
  d ← (if nz (next c) then set_prev (prev c) (next c) d else Ret d);
  d ← set_prev 0 a d; d ← set_next 0 a d;
  d ← unhash a d;
  d ← set_hnext 0 a d;
  let d := if nz (count (index d)) then set_count (u32 (count (index d) - 1)) d else d in
  Ret (set_cursor 0 0 d).
(** [strncpy(name, new_name, 127); name[127] = 0;] *)
Definition set_name (l : list Z) (a : Z) (d : dir) : outcome dir :=
  c ← kid d a; n ← deref (nodes d !! node c);
  Ret (set_nodes (<[node c := mk_node (take 127 l) (flags n)]> (nodes d)) d).
Definition vfs_dirindex_rename_locked (a : Z) (l : list Z) (d : dir) : outcome dir :=
  match buckets (index d) with
  | None => set_name l a d
  | Some _ =>
    d ← unhash a d; d ← set_hnext 0 a d; d ← set_name l a d;
    match buckets (index d) with
    | None => Ret d
    | Some bs => '(bs, d) ← chain (nbuckets (index d)) a bs d; Ret (set_buckets (Some bs) (nbuckets (index d)) d)
    end
  end.

(** ** ramfs *)

Definition DOT : Z := 46.
Definition is_dot (l : list Z) : bool := bool_decide (l = [DOT]) || bool_decide (l = [DOT; DOT]).
(** [self] is the directory itself. *)
Definition vfs_dirindex_finddir (self : Z) (l : list Z) (d : dir) : outcome Z :=
  if is_dot l then Ret self
  else a ← vfs_dirindex_find_locked l d; if a =? 0 then Ret 0 else c ← kid d a; Ret (node c).

(** The next entry for a position of 2 or more. *)
Fixpoint older (fuel : nat) (a pos : Z) (d : dir) : outcome Z :=
  match fuel with
  | O => OutOfFuel
  | S fuel => if a =? 0 then Ret 0 else c ← kid d a; if cookie c >=? pos then older fuel (next c) pos d else Ret a
  end.
Inductive dirent := Dot | DotDot | Entry (d_name : list Z) (d_off : Z).
Definition ramfs_readdir (pos : Z) (d : dir) : outcome (option dirent * dir) :=
  if pos =? 0 then Ret (Some Dot, d)
  else if pos =? 1 then Ret (Some DotDot, d)
  else
    let i := index d in
    curr ← (if pos =? 2 then Ret (children i)
            else if nz (cursor i) && (pos =? cursor_cookie i) then c ← kid d (cursor i); Ret (next c)
            else older (S (size (kids d))) (children i) pos d);
    if curr =? 0 then Ret (None, set_cursor 0 0 d)
    else c ← kid d curr; l ← name_of d c; Ret (Some (Entry l (cookie c)), set_cursor curr (cookie c) d).

(** The addresses [kmalloc] gives for the node and the entry, and whether it gives the payload
    of the node ([ramfs_dir_t] or [ramfs_file_t]) and a table. *)
Record memory := mk_memory { new_node : option Z; new_payload : bool; new_child : option Z; new_table : bool }.
(** With the entry [a] and the table chosen. *)
Definition add_child (fresh : option Z) (a n : Z) (d : dir) : outcome (bool * dir) :=
  '(ok, d) ← insert_locked fresh a (set_kids (<[a := mk_child n 0 0 0 0]> (kids d)) d);
  if (ok : bool) then Ret (true, d) else Ret (false, set_kids (delete a (kids d)) d).
Definition ramfs_add_child (mem : memory) (n : Z) (d : dir) : outcome (bool * dir) :=
  match new_child mem with
  | None => Ret (false, d)
  | Some a => add_child (if new_table mem then fresh_size d else None) a n d
  end.
(** The node, or none. Without a payload a directory node is freed again; for a file the
    result of [kmalloc] is written to without a test, at address 0. *)
Definition ramfs_make_node (mem : memory) (l : list Z) (type : Z) (d : dir) : outcome (option Z * dir) :=
  match new_node mem with
  | None => Ret (None, d)
  | Some n =>
    let d := set_nodes (<[n := mk_node (take 127 l) (Z.lor type FS_PERSISTENT)]> (nodes d)) d in
    if type =? FS_DIRECTORY then if new_payload mem then Ret (Some n, d) else Ret (None, set_nodes (delete n (nodes d)) d)
    else if type =? FS_FILE then if new_payload mem then Ret (Some n, d) else Fault
    else Ret (Some n, d)
  end.
Definition ramfs_discard_node (n : Z) (d : dir) : dir := set_nodes (delete n (nodes d)) d.
(** What [ramfs_create] ([type = FS_FILE]) and [ramfs_mkdir] ([type = FS_DIRECTORY]) do once
    the name was not found. The lock was released in between. *)
Definition create_new (mem : memory) (l : list Z) (type : Z) (d : dir) : outcome (Z * dir) :=
  '(m, d) ← ramfs_make_node mem l type d;
  match m with
  | None => Ret (-1, d)
  | Some n => '(ok, d) ← ramfs_add_child mem n d; if (ok : bool) then Ret (0, d) else Ret (-1, ramfs_discard_node n d)
  end.
Definition ramfs_create (mem : memory) (self : Z) (l : list Z) (type : Z) (d : dir) : outcome (Z * dir) :=
  x ← vfs_dirindex_finddir self l d;
  if nz x then Ret (-1, d) else create_new mem l type d.
Definition is_dir (n : vfs_node) : bool := Z.land (flags n) FS_TYPE_MASK =? FS_DIRECTORY.
(** The entry is taken off, its node marked and the entry freed. *)
Definition remove (a : Z) (d : dir) : outcome dir :=
  d ← vfs_dirindex_detach_locked a d;
  c ← kid d a; n ← deref (nodes d !! node c);
  let d := set_nodes (<[node c := mk_node (name n) (Z.lor (flags n) FS_DELETED)]> (nodes d)) d in
  Ret (set_kids (delete a (kids d)) d).
Definition ramfs_unlink (l : list Z) (d : dir) : outcome (Z * dir) :=
  a ← vfs_dirindex_find_locked l d;
  if a =? 0 then Ret (-1, d)
  else
    c ← kid d a; n ← deref (nodes d !! node c);
    if is_dir n then Ret (-1, d) else d ← remove a d; Ret (0, d).
(** [child_count]: the [count] of the index of a child directory, none for a node without a
    [device]. *)
Definition ramfs_rmdir (child_count : Z -> option Z) (l : list Z) (d : dir) : outcome (Z * dir) :=
  a ← vfs_dirindex_find_locked l d;
  if a =? 0 then Ret (-1, d)
  else
    c ← kid d a; n ← deref (nodes d !! node c);
    if negb (is_dir n) then Ret (-1, d)
    else
      match child_count (node c) with
      | None => Ret (-1, d)
      | Some count => if negb (count =? 0) then Ret (-1, d) else d ← remove a d; Ret (0, d)
      end.
(** The last step of [ramfs_rename], under the lock. *)
Definition rename_entry (l l' : list Z) (d : dir) : outcome (Z * dir) :=
  a ← vfs_dirindex_find_locked l d;
  if a =? 0 then Ret (-1, d) else d ← vfs_dirindex_rename_locked a l' d; Ret (0, d).
Definition ramfs_rename (self : Z) (l l' : list Z) (d : dir) : outcome (Z * dir) :=
  x ← vfs_dirindex_finddir self l' d;
  '(go, d) ← (if nz x then
                over ← (if x =? self then Ret true else n ← deref (nodes d !! x); Ret (is_dir n));
                if (over : bool) then Ret (false, d) else '(_, d) ← ramfs_unlink l' d; Ret (true, d)
              else Ret (true, d));
  if negb (go : bool) then Ret (-1, d)
  else
    y ← vfs_dirindex_finddir self l d;
    if y =? 0 then Ret (-1, d) else rename_entry l l' d.

(** ** The operations of several threads *)

(** What runs under the lock of the index at a time. The table of [Add] was chosen at an
    earlier time. *)
Inductive event :=
  | Find (l : list Z)
  | Add (fresh : option Z) (a n : Z) (l : list Z) (f : Z)
  | Unlink (l : list Z)
  | Rmdir (child_count : Z -> option Z) (l : list Z)
  | Rename (l l' : list Z)
  | Readdir (pos : Z)
  | Force_scan (b : bool).
Inductive answer := Addr (a : Z) | Flag (b : bool) | Code (c : Z) | Dirent (x : option dirent).
Definition exec (e : event) (d : dir) : outcome (answer * dir) :=
  match e with
  | Find l => a ← vfs_dirindex_find_locked l d; Ret (Addr a, d)
  | Add fresh a n l f => '(b, d) ← add_child fresh a n (set_nodes (<[n := mk_node (take 127 l) f]> (nodes d)) d); Ret (Flag b, d)
  | Unlink l => '(c, d) ← ramfs_unlink l d; Ret (Code c, d)
  | Rmdir child_count l => '(c, d) ← ramfs_rmdir child_count l d; Ret (Code c, d)
  | Rename l l' => '(c, d) ← rename_entry l l' d; Ret (Code c, d)
  | Readdir pos => '(x, d) ← ramfs_readdir pos d; Ret (Dirent x, d)
  | Force_scan b => Ret (Flag b, mk_dir (index d) (kids d) (nodes d) b)
  end.
End DirIndex.
