(* ===== verification/DirSafe.v ===== *)
(** DirSafe: the invariant of a directory index, and what the operations do to it. *)

From S2P Require Import Prelude DirIndex.
From stdpp Require Import list_relations sorting.
#[local] Open Scope Z_scope.

Module DirSafe.
Import DirIndex.

(** ** Views of the entries *)

Definition links (d : dir) (a : Z) : option (Z * Z) := (fun c => (next c, prev c)) <$> kids d !! a.
Definition hn (d : dir) (a : Z) : option Z := hnext <$> kids d !! a.
Definition meta (d : dir) (a : Z) : option (Z * Z) := (fun c => (node c, cookie c)) <$> kids d !! a.
Definition node_at (d : dir) (a : Z) : option vfs_node := m ← meta d a; nodes d !! m.1.
Definition nm (d : dir) (a : Z) : option (list Z) := name <$> node_at d a.

(** What a change of the links of entries leaves alone. *)
Record frame (d d' : dir) : Prop := mk_frame { fr_index : index d' = index d; fr_nodes : nodes d' = nodes d; fr_scan : force_scan d' = force_scan d; fr_dom : size (kids d') = size (kids d) }.
Lemma dir_frame_refl d : frame d d.
Proof. by split. Qed.
Lemma dir_frame_trans d1 d2 d3 : frame d1 d2 -> frame d2 d3 -> frame d1 d3.
Proof. intros [] []. split; congruence. Qed.
Lemma nm_meta d d' a : nodes d' = nodes d -> meta d' a = meta d a -> nm d' a = nm d a.
Proof. intros E1 E2. unfold nm, node_at. by rewrite E1, E2. Qed.

Lemma kid_update_ok a f d c : kids d !! a = Some c -> exists d', update a f d = Ret d' /\ frame d d' /\ (forall x, kids d' !! x = if decide (x = a) then Some (f c) else kids d !! x).
Proof.
  intros E. unfold update, kid. rewrite E. cbn [deref]. rewrite ret_bind. eexists. split; [done|]. split; [split; [done|done|done|cbn; apply map_size_insert_Some; by exists c]|]. intros x. cbn. destruct (decide (x = a)) as [->|]; [by rewrite lookup_insert_eq|by rewrite lookup_insert_ne].
Qed.
Ltac setter E H := destruct (kid_update_ok _ H _ _ E) as (d' & E' & F & K); exists d'; split; [exact E'|]; split; [exact F|]; split; [|split]; intros x; unfold links, hn, meta; rewrite K; destruct (decide (x = _)) as [->|]; rewrite ?E; done.
Lemma hn_set d a v h : hn d a = Some h -> exists d', set_hnext v a d = Ret d' /\ frame d d' /\ (forall x, links d' x = links d x) /\ (forall x, meta d' x = meta d x) /\ (forall x, hn d' x = if decide (x = a) then Some v else hn d x).
Proof. unfold hn at 1. destruct (kids d !! a) as [c|] eqn:E; [|done]. intros _. setter E (fun c : vfs_child => mk_child (node c) (next c) (prev c) v (cookie c)). Qed.
Lemma next_set d a v n p : links d a = Some (n, p) -> exists d', set_next v a d = Ret d' /\ frame d d' /\ (forall x, hn d' x = hn d x) /\ (forall x, meta d' x = meta d x) /\ (forall x, links d' x = if decide (x = a) then Some (v, p) else links d x).
Proof. unfold links at 1. destruct (kids d !! a) as [c|] eqn:E; [|done]. intros [= <- <-]. setter E (fun c : vfs_child => mk_child (node c) v (prev c) (hnext c) (cookie c)). Qed.
Lemma prev_set d a v n p : links d a = Some (n, p) -> exists d', set_prev v a d = Ret d' /\ frame d d' /\ (forall x, hn d' x = hn d x) /\ (forall x, meta d' x = meta d x) /\ (forall x, links d' x = if decide (x = a) then Some (n, v) else links d x).
Proof. unfold links at 1. destruct (kids d !! a) as [c|] eqn:E; [|done]. intros [= <- <-]. setter E (fun c : vfs_child => mk_child (node c) (next c) v (hnext c) (cookie c)). Qed.
Lemma cookie_set d a v n k : meta d a = Some (n, k) -> exists d', set_cookie v a d = Ret d' /\ frame d d' /\ (forall x, links d' x = links d x) /\ (forall x, hn d' x = hn d x) /\ (forall x, meta d' x = if decide (x = a) then Some (n, v) else meta d x).
Proof. unfold meta at 1. destruct (kids d !! a) as [c|] eqn:E; [|done]. intros [= <- <-]. setter E (fun c : vfs_child => mk_child (node c) (next c) (prev c) (hnext c) v). Qed.

(** ** Hash chains *)

Fixpoint hseg (h : Z -> option Z) (l : list Z) : Prop := match l with [] => True | a :: l => h a = Some (hd 0 l) /\ hseg h l end.
Lemma hseg_ext h h' l : (forall a, a ∈ l -> h' a = h a) -> hseg h l -> hseg h' l.
Proof. induction l as [|a l IH]; intros H; cbn [hseg]; [done|]. intros [E D]. split; [rewrite H by left; done|]. apply IH; [|done]. intros b Hb. apply H. by right. Qed.
Lemma hseg_app h l1 l2 : hseg h (l1 ++ l2) -> hseg h l2.
Proof. induction l1 as [|a l1 IH]; [done|]. cbn. intros [_ D]. by apply IH. Qed.
(** An entry is spliced out. *)
Lemma hseg_splice h h' l1 q a l2 : NoDup (l1 ++ q :: a :: l2) -> (forall x, h' x = if decide (x = q) then Some (hd 0 l2) else h x) -> hseg h (l1 ++ q :: a :: l2) -> hseg h' (l1 ++ q :: l2).
Proof.
  intros Hn Hh. induction l1 as [|b l1 IH]; cbn [app hseg].
  - intros (_ & _ & D). rewrite Hh, decide_True by done. split; [done|]. cbn in Hn. apply NoDup_cons in Hn as [Hq _]. apply (hseg_ext h); [|done]. intros x Hx. rewrite Hh, decide_False; [done|]. intros ->. apply Hq. by right.
  - cbn in Hn. apply NoDup_cons in Hn as [Hb Hn]. intros [E D]. split; [|by apply IH]. rewrite Hh, decide_False; [|intros ->; apply Hb, elem_of_app; right; left]. rewrite E. f_equal. by destruct l1.
Qed.

(** The buckets [bs] hold the entries in [S]. *)
Definition chains (h : Z -> option Z) (nms : Z -> option (list Z)) (n : Z) (bs : list Z) (S : Z -> Prop) : Prop :=
  forall b, 0 <= b < n -> exists ch, bs !! Z.to_nat b = Some (hd 0 ch) /\ hseg h ch /\ NoDup ch /\ forall a, a ∈ ch <-> S a /\ exists l, nms a = Some l /\ bucket n l = b.
Lemma chains_ext h h' nms nms' n bs (S S' : Z -> Prop) : (forall a, S a <-> S' a) -> (forall a, S a -> h' a = h a) -> (forall a, S a -> nms' a = nms a) -> chains h nms n bs S -> chains h' nms' n bs S'.
Proof.
  intros HS Hh Hn C b Hb. destruct (C b Hb) as (ch & E1 & E2 & E3 & E4). exists ch. split; [done|]. split; [apply (hseg_ext h); [|done]; intros a Ha; apply Hh; by apply E4 in Ha as [? _]|]. split; [done|]. intros a. rewrite E4, HS. split; intros [Sa (l & El & Hl)]; (split; [done|exists l; split; [|done]]); [rewrite Hn by (by apply HS); done|rewrite <- Hn by (by apply HS); done].
Qed.
Lemma bucket_range n l : (exists k, 0 <= k <= 31 /\ n = 2 ^ k) -> 0 <= bucket n l < n.
Proof.
  intros (k & Hk & ->). unfold bucket. assert (2 ^ k <= 2 ^ 31) by (apply Z.pow_le_mono_r; lia). pose proof (Z.pow_pos_nonneg 2 k). rewrite u32_id by lia. rewrite land_ones_small by lia. apply Z.mod_pos_bound. lia.
Qed.

(** An entry in front of its chain. *)
Lemma chain_ok d n bs (S : Z -> Prop) a l : (exists k, 0 <= k <= 31 /\ n = 2 ^ k) -> Z.of_nat (length bs) = n -> chains (hn d) (nm d) n bs S -> ~ S a -> nm d a = Some l ->
  exists bs' d', chain n a bs d = Ret (bs', d') /\ frame d d' /\ (forall x, links d' x = links d x) /\ (forall x, meta d' x = meta d x) /\ length bs' = length bs /\ chains (hn d') (nm d') n bs' (fun x => x = a \/ S x).
Proof.
  intros Hn Hlen C Ha El. pose proof (bucket_range n l Hn) as Hb. unfold chain. assert (Ek : exists c x, kids d !! a = Some c /\ nodes d !! node c = Some x /\ name x = l). { unfold nm, node_at, meta in El. destruct (kids d !! a) as [c|] eqn:E; [|done]. cbn in El. destruct (nodes d !! node c) as [x|] eqn:Ex; [|done]. injection El as El. by exists c, x. } destruct Ek as (c & x & Ec & Ex & Exl). unfold kid, name_of. rewrite Ec. cbn [deref]. rewrite ret_bind, Ex. cbn [deref]. rewrite !ret_bind, Exl.
  destruct (C (bucket n l) Hb) as (ch & E1 & E2 & E3 & E4). unfold arr_get. rewrite (proj2 (Z.ltb_ge _ _)), E1 by lia. cbn [deref]. rewrite ret_bind. destruct (hn_set d a (hd 0 ch) (hnext c)) as (d' & Ed & F & L & M & H); [unfold hn; by rewrite Ec|]. rewrite Ed, ret_bind, arr_set_Ret, ret_bind by lia. eexists _, d'. split; [done|]. do 3 (split; [done|]). split; [by rewrite length_insert|].
  assert (Hnm : forall y, nm d' y = nm d y) by (intros y; apply nm_meta; [apply (fr_nodes _ _ F)|apply M]). intros b Hb'. destruct (decide (b = bucket n l)) as [->|Hne].
  - exists (a :: ch). split; [rewrite list_lookup_insert_eq by lia; done|]. assert (Hach : a ∉ ch) by (intros Hx; by apply E4 in Hx as [? _]). split; [split; [rewrite H, decide_True by done; done|]; apply (hseg_ext (hn d)); [|done]; intros y Hy; rewrite H, decide_False; [done|by intros ->]|]. split; [by apply NoDup_cons|]. intros y. rewrite elem_of_cons, E4, Hnm. split; [intros [->|[Hy Hz]]; [split; [by left|by exists l]|split; [by right|done]]|intros [[->|Hy] Hz]; [by left|right; done]].
  - destruct (C b Hb') as (ch' & F1 & F2 & F3 & F4). exists ch'. split; [rewrite list_lookup_insert_ne by lia; done|]. assert (Hach : a ∉ ch') by (intros Hx; by apply F4 in Hx as [? _]). split; [apply (hseg_ext (hn d)); [|done]; intros y Hy; rewrite H, decide_False; [done|by intros ->]|]. split; [done|]. intros y. rewrite F4, Hnm. split; [intros [Hy Hz]; split; [by right|done]|]. intros [[->|Hy] (l' & El' & Hl')]; [|split; [done|by exists l']]. rewrite El in El'. injection El' as <-. done.
Qed.
(** ** A new table *)

Definition pow2 (n : Z) : Prop := exists k, 0 <= k <= 31 /\ n = 2 ^ k.
Lemma rechain_ok n : pow2 n -> forall l fuel bs d (S : Z -> Prop) p, Z.of_nat (length bs) = n -> chains (hn d) (nm d) n bs S -> dseg (links d) p l 0 -> NoDup l -> (forall a, a ∈ l -> ~ S a /\ a <> 0 /\ is_Some (nm d a)) -> (length l < fuel)%nat ->
  exists bs' d', rechain fuel n (hd 0 l) bs d = Ret (bs', d') /\ frame d d' /\ (forall x, links d' x = links d x) /\ (forall x, meta d' x = meta d x) /\ length bs' = length bs /\ chains (hn d') (nm d') n bs' (fun x => x ∈ l \/ S x).
Proof.
  intros Hn. induction l as [|a l IH]; intros fuel bs d S p Hlen C D ND Ha Hf; (destruct fuel as [|fuel]; [cbn in Hf; lia|]); cbn [rechain hd].
  - eexists _, _. split; [done|]. split; [apply dir_frame_refl|]. do 3 (split; [done|]). apply (chains_ext (hn d) _ (nm d) _ _ _ S); [|done|done|done]. intros x. split; [by right|]. intros [Hx|Hx]; [by apply not_elem_of_nil in Hx|done].
  - destruct (Ha a (list_elem_of_here _ _)) as (HS & H0 & [nl El]). rewrite (proj2 (Z.eqb_neq _ _) H0). destruct (chain_ok d n bs S a nl Hn Hlen C HS El) as (bs1 & d1 & E1 & F1 & L1 & M1 & Hlen1 & C1). rewrite E1, ret_bind. cbn [dseg] in D. destruct D as [Ea D]. apply NoDup_cons in ND as [Hal ND].
    assert (Ek : exists c, kids d1 !! a = Some c /\ next c = hd 0 l). { specialize (L1 a). rewrite Ea in L1. unfold links in L1. destruct (kids d1 !! a) as [c|]; [|done]. injection L1 as L1 _. by exists c. } destruct Ek as (c & Ec & Enx). unfold kid. rewrite Ec. cbn [deref]. rewrite ret_bind, Enx.
    assert (Hnm : forall y, nm d1 y = nm d y) by (intros y; apply nm_meta; [apply (fr_nodes _ _ F1)|apply M1]).
    destruct (IH fuel bs1 d1 (fun x => x = a \/ S x) a) as (bs' & d' & E' & F' & L' & M' & Hlen' & C'); [congruence|done|by apply (dseg_ext (links d))|done| |cbn in Hf; lia|].
    { intros x Hx. destruct (Ha x (list_elem_of_further _ _ _ Hx)) as (A1 & A2 & A3). split; [|split; [done|by rewrite Hnm]]. intros [->|Hs]; [by apply Hal|done]. }
    exists bs', d'. split; [done|]. split; [by apply (dir_frame_trans _ d1)|]. split; [intros x; by rewrite L', L1|]. split; [intros x; by rewrite M', M1|]. split; [congruence|]. apply (chains_ext (hn d') _ (nm d') _ _ _ (fun x => x ∈ l \/ x = a \/ S x)); [|done|done|done]. intros x. rewrite elem_of_cons. tauto.
Qed.
Lemma empty_chains h nms n : 0 <= n -> chains h nms n (replicate (Z.to_nat n) 0) (fun _ => False).
Proof.
  intros Hn b Hb. exists []. split; [apply lookup_replicate; split; [done|lia]|]. split; [done|]. split; [constructor|]. intros a. split; [by intros ?%not_elem_of_nil|tauto].
Qed.

(** ** Leaving a chain *)

Lemma unchain_ok b a : forall rest pre fuel bs d, NoDup (pre ++ rest) -> 0 ∉ rest -> a ∈ rest -> hseg (hn d) (pre ++ rest) -> 0 <= b -> bs !! Z.to_nat b = Some (hd 0 (pre ++ rest)) -> (length rest < fuel)%nat ->
  exists bs' d' ch', unchain fuel b (last pre) (hd 0 rest) a bs d = Ret (bs', d') /\ frame d d' /\ (forall x, links d' x = links d x) /\ (forall x, meta d' x = meta d x) /\ length bs' = length bs /\ bs' !! Z.to_nat b = Some (hd 0 ch') /\ (forall i, i <> Z.to_nat b -> bs' !! i = bs !! i) /\ hseg (hn d') ch' /\ NoDup ch' /\ (forall x, x ∈ ch' <-> x ∈ pre ++ rest /\ x <> a) /\ (forall x, x ∉ pre ++ rest -> hn d' x = hn d x).
Proof.
  induction rest as [|c rest IH]; intros pre fuel bs d ND H0 Ha Hh Hb Ebs Hf; [by apply not_elem_of_nil in Ha|]. destruct fuel as [|fuel]; [cbn in Hf; lia|]. cbn [unchain hd]. rewrite not_elem_of_cons in H0. destruct H0 as [Hc0 H0]. rewrite (proj2 (Z.eqb_neq c 0)) by congruence. pose proof (hseg_app _ _ _ Hh) as Hrest. cbn [hseg] in Hrest. destruct Hrest as [Ec Hrest].
  assert (Ek : exists x, kids d !! c = Some x /\ hnext x = hd 0 rest). { unfold hn in Ec. destruct (kids d !! c) as [x|]; [|done]. injection Ec as Ec. by exists x. } destruct Ek as (x & Ex & Ehx). assert (Hmem : forall y, c = a -> y ∈ pre ++ rest <-> y ∈ pre ++ c :: rest /\ y <> a). { intros y ->. apply NoDup_app in ND as (_ & Hd & ND). apply NoDup_cons in ND as [Hn _]. rewrite !elem_of_app, elem_of_cons. split; [intros Hy; split; [tauto|intros ->; destruct Hy as [Hy|Hy]; [apply (Hd a Hy); left|done]]|tauto]. }
  destruct (c =? a) eqn:E; reify_bools.
  - subst a. pose proof (fun y => Hmem y eq_refl) as Hm. unfold kid. rewrite Ex. cbn [deref]. rewrite ret_bind, Ehx. destruct (last pre) as [q|] eqn:El.
    + apply last_Some in El as [pre' ->]. destruct (hn_set d q (hd 0 rest) c) as (d' & Ed & F & L & M & Hd); [rewrite <- app_assoc in Hh; apply hseg_app in Hh; by destruct Hh|]. rewrite Ed, ret_bind. rewrite <- app_assoc in *. cbn [app] in *. exists bs, d', (pre' ++ q :: rest). split; [done|]. do 4 (split; [done|]). split; [rewrite Ebs; f_equal; rewrite !hd_app; done|]. split; [done|]. split; [by apply (hseg_splice (hn d) _ pre' q c rest)|]. split; [apply NoDup_app in ND as (N1 & N2 & N3); apply NoDup_app; split; [done|]; apply NoDup_cons in N3 as [N3 N4]; apply NoDup_cons in N4 as [N4 N5]; split; [intros y Hy Hy'; apply (N2 y Hy); apply elem_of_cons in Hy' as [->|Hy']; [left|right; by right]|apply NoDup_cons; split; [intros Hy; apply N3; by right|done]]|]. split; [intros y; specialize (Hm y); rewrite <- ?app_assoc in Hm; exact Hm|]. intros y Hy. rewrite Hd, decide_False; [done|]. intros ->. apply Hy, elem_of_app. right; left.
    + apply last_None in El as ->. cbn [app] in *. rewrite arr_set_Ret by (apply lookup_lt_Some in Ebs; lia). rewrite ret_bind. apply lookup_lt_Some in Ebs as Hlt. eexists _, d, rest. split; [done|]. split; [apply dir_frame_refl|]. do 2 (split; [done|]). split; [by rewrite length_insert|]. split; [by rewrite list_lookup_insert_eq|]. split; [intros i Hi; by rewrite list_lookup_insert_ne|]. split; [done|]. split; [by apply NoDup_cons in ND as [_ ?]|]. split; [exact Hm|done].
  - unfold kid. rewrite Ex. cbn [deref]. rewrite ret_bind, Ehx. apply elem_of_cons in Ha as [->|Ha]; [done|]. replace (Some c) with (last (pre ++ [c])) by apply last_snoc. replace (pre ++ c :: rest) with ((pre ++ [c]) ++ rest) in * by (by rewrite <- app_assoc). apply IH; try done. cbn in Hf. lia.
Qed.

(** ** The invariant *)

(** What a directory is: its entries, newest first, the next cookie, and whether it has a table. *)
Record entry := mk_entry { e_addr : Z; e_node : Z; e_name : list Z; e_flags : Z; e_cookie : Z }.
Record listing := mk_listing { entries : list entry; next_c : Z; table : bool }.
#[global] Instance entry_eq_dec : EqDecision entry.
Proof. solve_decision. Defined.
Definition addrs (es : list entry) : list Z := map e_addr es.

Record table_ok (d : dir) (bs : list Z) (S : Z -> Prop) : Prop := mk_table {
  tb_pow2 : pow2 (nbuckets (index d));
  tb_length : Z.of_nat (length bs) = nbuckets (index d);
  tb_chains : chains (hn d) (nm d) (nbuckets (index d)) bs S }.
Definition at_entry (d : dir) (e : entry) : Prop := e_addr e <> 0 /\ meta d (e_addr e) = Some (e_node e, e_cookie e) /\ nodes d !! e_node e = Some (mk_node (e_name e) (e_flags e)).
Definition newer (e e' : entry) : Prop := e_cookie e' < e_cookie e.
Record rep (d : dir) (t : listing) : Prop := mk_rep {
  rp_links : dseg (links d) 0 (addrs (entries t)) 0;
  rp_head : children (index d) = hd 0 (addrs (entries t));
  rp_nodup : NoDup (addrs (entries t));
  rp_nodes : NoDup (map e_node (entries t));
  rp_at : Forall (at_entry d) (entries t);
  rp_count : count (index d) = Z.of_nat (length (entries t)) /\ Z.of_nat (length (entries t)) < 2 ^ 31;
  rp_sorted : StronglySorted newer (entries t);
  rp_cookies : Forall (fun e => 3 <= e_cookie e < next_c t) (entries t);
  rp_next : next_cookie (index d) = next_c t /\ 3 <= next_c t < 2 ^ 64;
  rp_table : match buckets (index d) with None => entries t = [] /\ nbuckets (index d) = 0 /\ table t = false | Some bs => table_ok d bs (fun a => a ∈ addrs (entries t)) /\ table t = true end;
  rp_cursor : cursor (index d) = 0 \/ exists e, e ∈ entries t /\ e_addr e = cursor (index d) /\ e_cookie e = cursor_cookie (index d) }.

Lemma elem_of_addrs es a : a ∈ addrs es <-> exists e, e ∈ es /\ e_addr e = a.
Proof. unfold addrs. rewrite list_elem_of_In, in_map_iff. split; intros (e & H1 & H2); exists e; [by rewrite list_elem_of_In|by rewrite list_elem_of_In in H1]. Qed.
Lemma addrs_elem es e : e ∈ es -> e_addr e ∈ addrs es.
Proof. intros H. apply elem_of_addrs. by exists e. Qed.
Lemma map_inj {B} (f : entry -> B) es e e' : NoDup (map f es) -> e ∈ es -> e' ∈ es -> f e = f e' -> e = e'.
Proof.
  induction es as [|x es IH]; intros ND He He' E; [by apply not_elem_of_nil in He|]. cbn in ND. apply NoDup_cons in ND as [Hx ND]. assert (Hin : forall y, y ∈ es -> f y = f x -> False) by (intros y Hy Ey; apply Hx; rewrite <- Ey; apply list_elem_of_In, in_map, list_elem_of_In, Hy). apply elem_of_cons in He as [->|He], He' as [->|He'] || apply elem_of_cons in He' as [->|He']; [done| | |by apply IH]; exfalso; [by apply (Hin e')|by apply (Hin e)].
Qed.
Lemma at_nm d e : at_entry d e -> nm d (e_addr e) = Some (e_name e).
Proof. intros (_ & E1 & E2). unfold nm, node_at. rewrite E1. cbn. by rewrite E2. Qed.
Lemma nm_kid d a l : nm d a = Some l -> exists c x, kids d !! a = Some c /\ nodes d !! node c = Some x /\ name x = l.
Proof. unfold nm, node_at, meta. destruct (kids d !! a) as [c|]; [|done]. cbn. destruct (nodes d !! node c) as [x|] eqn:Ex; [|done]. intros [= <-]. by exists c, x. Qed.
Lemma at_kid d e : at_entry d e -> exists c, kids d !! e_addr e = Some c /\ node c = e_node e /\ cookie c = e_cookie e.
Proof. intros (_ & E1 & _). unfold meta in E1. destruct (kids d !! e_addr e) as [c|]; [|done]. injection E1 as E1 E2. by exists c. Qed.
Lemma rep_at d t a : rep d t -> a ∈ addrs (entries t) -> exists e, e ∈ entries t /\ e_addr e = a /\ at_entry d e.
Proof. intros R Ha. apply elem_of_addrs in Ha as (e & He & E). exists e. split; [done|]. split; [done|]. pose proof (rp_at _ _ R) as F. rewrite Forall_forall in F. by apply F. Qed.
Lemma rep_names d t a : rep d t -> a ∈ addrs (entries t) -> a <> 0 /\ is_Some (nm d a).
Proof. intros R Ha. destruct (rep_at d t a R Ha) as (e & _ & <- & He). split; [apply He|]. rewrite (at_nm d e He). by eexists. Qed.
Lemma rep_size d t : rep d t -> (length (entries t) <= size (kids d))%nat.
Proof.
  intros R. replace (length (entries t)) with (length (addrs (entries t))) by apply length_map. apply keys_length; [apply (rp_nodup _ _ R)|]. intros a Ha. destruct (rep_at d t a R Ha) as (e & _ & <- & He). destruct (at_kid d e He) as (c & -> & _). by eexists.
Qed.
(** Only the index and the memory of the entries matter. *)
Lemma dir_rep_ext d d' t : index d' = index d -> (forall a, a ∈ addrs (entries t) -> kids d' !! a = kids d !! a) -> (forall e, e ∈ entries t -> nodes d' !! e_node e = nodes d !! e_node e) -> rep d t -> rep d' t.
Proof.
  intros Ei Ek En R. pose proof (rp_at _ _ R) as Hat. assert (Hat' : Forall (at_entry d') (entries t)). { rewrite Forall_forall in *. intros e He. destruct (Hat e He) as (A1 & A2 & A3). split; [done|]. split; [unfold meta; by rewrite Ek by (by apply addrs_elem)|by rewrite En]. } assert (Hnm : forall a, a ∈ addrs (entries t) -> nm d' a = nm d a). { intros a Ha. apply elem_of_addrs in Ha as (e & He & <-). rewrite Forall_forall in *. by rewrite (at_nm d' e), (at_nm d e) by auto. }
  destruct R as [R1 R2 R3 R4 R5 R6 R7 R8 R9 R10 R11]. split; rewrite ?Ei; try done.
  - apply (dseg_ext (links d)); [|done]. intros a Ha. unfold links. by rewrite Ek.
  - destruct (buckets (index d)) as [bs|]; [|done]. destruct R10 as [[T1 T2 T3] R10]. split; [|done]. split; rewrite ?Ei; [done|done|]. apply (chains_ext (hn d) _ (nm d) _ _ _ (fun a => a ∈ addrs (entries t))); [done| |done|done]. intros a Ha. unfold hn. by rewrite Ek.
Qed.

(** ** Lookup *)

Definition first_named (d : dir) (l : list Z) (ch : list Z) : Z := default 0 (List.find (fun a => bool_decide (nm d a = Some l)) ch).
Lemma dir_walk_ok step d l ch : forall fuel, hseg (fun a => step <$> kids d !! a) ch -> (forall a, a ∈ ch -> a <> 0 /\ is_Some (nm d a)) -> (length ch < fuel)%nat -> walk fuel step (hd 0 ch) l d = Ret (first_named d l ch).
Proof.
  induction ch as [|a ch IH]; intros fuel Hh Ha Hf; (destruct fuel as [|fuel]; [cbn in Hf; lia|]); cbn [walk hd]; [done|]. destruct (Ha a (list_elem_of_here _ _)) as [H0 [nl El]]. rewrite (proj2 (Z.eqb_neq _ _) H0). destruct (nm_kid d a nl El) as (c & x & Ec & Ex & Exl). cbn [hseg] in Hh. destruct Hh as [Es Hh]. rewrite Ec in Es. injection Es as Es. unfold kid, name_of. rewrite Ec. cbn [deref]. rewrite ret_bind, Ex. cbn [deref]. rewrite !ret_bind, Exl. unfold first_named. cbn [List.find]. unfold same_name. destruct (bool_decide (nl = l)) eqn:Eb.
  - apply bool_decide_eq_true in Eb. by rewrite bool_decide_eq_true_2 by congruence.
  - apply bool_decide_eq_false in Eb. rewrite bool_decide_eq_false_2 by congruence. rewrite Es. apply IH; [done|intros b Hb; apply Ha; by right|cbn in Hf; lia].
Qed.
Lemma dseg_hseg d p o : dseg (links d) p o 0 -> hseg (fun a => next <$> kids d !! a) o.
Proof. revert p. induction o as [|a o IH]; intros p; cbn [dseg hseg]; [done|]. intros [E D]. split; [|by apply (IH a)]. unfold links in E. destruct (kids d !! a) as [c|]; [|done]. injection E as E _. cbn. by rewrite E. Qed.
Lemma chain_length d t ch : rep d t -> NoDup ch -> (forall a, a ∈ ch -> a ∈ addrs (entries t)) -> (length ch < S (size (kids d)))%nat.
Proof.
  intros R ND H. apply Nat.lt_succ_r. apply keys_length; [done|]. intros a Ha. destruct (rep_at d t a R (H a Ha)) as (e & _ & <- & He). destruct (at_kid d e He) as (c & -> & _). by eexists.
Qed.
(** The entry [r] has the name, or none has and [r] is 0. *)
Definition found (es : list entry) (l : list Z) (r : Z) : Prop := r = 0 /\ (forall e, e ∈ es -> e_name e <> l) \/ exists e, e ∈ es /\ e_addr e = r /\ e_name e = l.
Lemma first_named_found d t l ch : rep d t -> (forall a, a ∈ addrs (entries t) -> nm d a = Some l -> a ∈ ch) -> (forall a, a ∈ ch -> a ∈ addrs (entries t)) -> found (entries t) l (first_named d l ch).
Proof.
  intros R Hch Hin. unfold first_named. destruct (List.find _ ch) as [a|] eqn:E; cbn.
  - right. apply find_some in E as [Ha En]. apply bool_decide_eq_true in En. apply list_elem_of_In in Ha. destruct (rep_at d t a R (Hin a Ha)) as (e & He & <- & Hat). exists e. split; [done|]. split; [done|]. rewrite (at_nm d e Hat) in En. congruence.
  - left. split; [done|]. intros e He Hn. pose proof (rp_at _ _ R) as F. rewrite Forall_forall in F. pose proof (at_nm d e (F e He)) as Hnm. rewrite Hn in Hnm. pose proof (Hch _ (addrs_elem _ _ He) Hnm) as Hc. apply list_elem_of_In in Hc. pose proof (find_none _ _ E _ Hc) as Hf. cbn in Hf. by apply bool_decide_eq_false in Hf.
Qed.
Lemma dir_find_ok d t l : rep d t -> exists ch, vfs_dirindex_find_locked l d = Ret (first_named d l ch) /\ (forall a, a ∈ addrs (entries t) -> nm d a = Some l -> a ∈ ch) /\ (forall a, a ∈ ch -> a ∈ addrs (entries t)).
Proof.
  intros R. unfold vfs_dirindex_find_locked. destruct (force_scan d).
  - exists (addrs (entries t)). split; [|done]. rewrite (rp_head _ _ R). apply dir_walk_ok; [apply (dseg_hseg d 0), (rp_links _ _ R)|intros a Ha; by apply (rep_names d t)|apply (chain_length d t); [done|apply (rp_nodup _ _ R)|done]].
  - pose proof (rp_table _ _ R) as T. destruct (buckets (index d)) as [bs|]; [|exists []; split; [done|]; destruct T as (-> & _); done]. destruct T as [[T1 T2 T3] _]. destruct (T3 (bucket (nbuckets (index d)) l)) as (ch & E1 & E2 & E3 & E4); [by apply bucket_range|]. exists ch. pose proof (bucket_range (nbuckets (index d)) l T1). assert (Hin : forall a, a ∈ ch -> a ∈ addrs (entries t)) by (intros a Ha; by apply E4 in Ha as [? _]). unfold arr_get. rewrite (proj2 (Z.ltb_ge _ _)), E1 by lia. cbn [deref]. rewrite ret_bind. split; [|split; [|done]].
    + apply dir_walk_ok; [done|intros a Ha; by apply (rep_names d t), Hin|by apply (chain_length d t)].
    + intros a Ha Hl. apply E4. split; [done|]. by exists l.
Qed.
Lemma find_found d t l : rep d t -> exists r, vfs_dirindex_find_locked l d = Ret r /\ found (entries t) l r.
Proof. intros R. destruct (dir_find_ok d t l R) as (ch & E & H1 & H2). eexists. split; [exact E|]. by apply (first_named_found d t). Qed.
(** Distinct names: the entry is determined. *)
Lemma found_unique es l r r' : NoDup (map e_name es) -> found es l r -> found es l r' -> r = r'.
Proof.
  intros ND [[-> H]|(e & He & <- & El)] [[-> H']|(e' & He' & <- & El')]; [done|by destruct (H e' He')|by destruct (H' e He)|]. f_equal. apply (map_inj e_name es); congruence.
Qed.
End DirSafe.
