(* ===== verification/DirOps.v ===== *)
(** DirOps: what the operations of a directory index do to the directory they represent. *)

From S2P Require Import Prelude DirIndex DirSafe.
From stdpp Require Import list_relations sorting.
#[local] Open Scope Z_scope.

Module DirOps.
Import DirIndex DirSafe.

(** ** Insertion *)

Definition pow2_opt (fresh : option Z) : Prop := match fresh with None => True | Some n => pow2 n end.
Definition is_some {A} (o : option A) : bool := match o with Some _ => true | None => false end.
(** The memory of entries and nodes, apart from the hash chains. *)
Record same_memory (d d' : dir) : Prop := mk_same_memory { sm_links : forall x, links d' x = links d x; sm_meta : forall x, meta d' x = meta d x; sm_nodes : nodes d' = nodes d; sm_scan : force_scan d' = force_scan d; sm_size : size (kids d') = size (kids d) }.
Lemma same_at d d' e : same_memory d d' -> at_entry d e -> at_entry d' e.
Proof. intros M (A1 & A2 & A3). split; [done|]. by rewrite (sm_meta _ _ M), (sm_nodes _ _ M). Qed.
(** A new table for the same entries. *)
Lemma rep_table_new d d' t n bs : rep d t -> same_memory d d' -> index d' = index (set_buckets (Some bs) n d) -> pow2 n -> Z.of_nat (length bs) = n -> chains (hn d') (nm d') n bs (fun a => a ∈ addrs (entries t)) -> rep d' (mk_listing (entries t) (next_c t) true).
Proof.
  intros [R1 R2 R3 R4 R5 R6 R7 R8 R9 R10 R11] M Ei Hn Hl C. split; cbn [entries next_c table]; rewrite ?Ei; try done.
  - apply (dseg_ext (links d)); [|done]. intros a _. apply (sm_links _ _ M).
  - eapply Forall_impl; [exact R5|]. intros e. by apply same_at.
  - cbn. split; [|done]. by split; rewrite ?Ei.
Qed.
Lemma adopt_ok fresh d t : rep d t -> pow2_opt fresh -> exists d', adopt fresh d = Ret d' /\ same_memory d d' /\ rep d' (mk_listing (entries t) (next_c t) (table t || is_some fresh)).
Proof.
  intros R Hf. unfold adopt. pose proof (rp_table _ _ R) as T. assert (Hsame : table t = true \/ fresh = None -> rep d (mk_listing (entries t) (next_c t) (table t || is_some fresh))) by (intros H; replace (table t || is_some fresh) with (table t) by (destruct H as [->| ->]; [done|by rewrite orb_false_r]); by destruct t).
  destruct (buckets (index d)) as [bs|] eqn:Eb, fresh as [n|]; cbn [is_some pow2_opt] in *.
  - destruct T as [[T1 T2 T3] Tt]. destruct (_ >? _); [|exists d; split; [done|]; split; [done|apply Hsame; by left]].
    pose proof Hf as (k & Hk & En). pose proof (Z.pow_pos_nonneg 2 k).
    destruct (rechain_ok n Hf (addrs (entries t)) (S (size (kids d))) (replicate (Z.to_nat n) 0) d (fun _ => False) 0) as (bs' & d' & E & F & L & M & Hlen & C); [rewrite length_replicate; lia|apply empty_chains; lia|apply (rp_links _ _ R)|apply (rp_nodup _ _ R)|intros a Ha; split; [tauto|by apply (rep_names d t)]|unfold addrs; rewrite length_map; pose proof (rep_size d t R); lia|]. rewrite (rp_head _ _ R), E, ret_bind. eexists. split; [done|]. assert (SM : same_memory d (set_buckets (Some bs') n d')) by (split; [exact L|exact M|apply (fr_nodes _ _ F)|apply (fr_scan _ _ F)|apply (fr_dom _ _ F)]). split; [done|]. rewrite Tt. apply (rep_table_new d _ t n bs'); [done|done|unfold set_buckets; cbn; by rewrite (fr_index _ _ F)|done|rewrite Hlen, length_replicate; lia|]. apply (chains_ext (hn d') _ (nm d') _ _ _ (fun x => x ∈ addrs (entries t) \/ False)); [intros a; tauto|done|done|done].
  - exists d. split; [done|]. split; [done|]. apply Hsame. by right.
  - destruct T as (Te & Tn & Tt). eexists. split; [done|]. split; [done|]. pose proof Hf as (k & Hk & En). pose proof (Z.pow_pos_nonneg 2 k). rewrite Tt. apply (rep_table_new d _ t n (replicate (Z.to_nat n) 0)); [done|done|done|done|rewrite length_replicate; lia|]. rewrite Te. apply (chains_ext (hn d) _ (nm d) _ _ _ (fun _ => False)); [|done|done|apply empty_chains; lia]. intros a. split; [done|]. by intros ?%not_elem_of_nil.
  - exists d. split; [done|]. split; [done|]. apply Hsame. by right.
Qed.

(** In front of the order list. *)
Lemma link_first d o a c : dseg (links d) 0 o 0 -> NoDup (a :: o) -> 0 ∉ o -> kids d !! a = Some c ->
  exists d1 d2 d', set_prev 0 a d = Ret d1 /\ index d1 = index d /\ set_next (hd 0 o) a d1 = Ret d2 /\ index d2 = index d /\ (if nz (hd 0 o) then set_prev a (hd 0 o) d2 else Ret d2) = Ret d' /\ frame d d' /\ (forall x, hn d' x = hn d x) /\ (forall x, meta d' x = meta d x) /\ dseg (links d') 0 (a :: o) 0.
Proof.
  intros D ND H0 Ec. apply NoDup_cons in ND as [Ha ND]. destruct (prev_set d a 0 (next c) (prev c)) as (d1 & E1 & F1 & H1 & M1 & L1); [unfold links; by rewrite Ec|]. destruct (next_set d1 a (hd 0 o) (next c) 0) as (d2 & E2 & F2 & H2 & M2 & L2); [by rewrite L1, decide_True|]. exists d1, d2. assert (Lo : forall x, x ∈ o -> links d2 x = links d x) by (intros x Hx; rewrite L2, L1, !decide_False; [done|by intros ->|by intros ->]). assert (La : links d2 a = Some (hd 0 o, 0)) by (by rewrite L2, decide_True).
  destruct o as [|b o]; cbn [hd nz] in *.
  - cbn. exists d2. split; [done|]. split; [apply (fr_index _ _ F1)|]. split; [done|]. split; [rewrite (fr_index _ _ F2); apply (fr_index _ _ F1)|]. split; [done|]. split; [by apply (dir_frame_trans _ d1)|]. split; [intros x; by rewrite H2, H1|]. split; [intros x; by rewrite M2, M1|]. done.
  - assert (Hb0 : b <> 0) by (intros ->; apply H0; left). assert (nz b = true) as -> by (unfold nz; by rewrite (proj2 (Z.eqb_neq _ _) Hb0)). cbn [dseg] in D. destruct D as [Eb D]. destruct (prev_set d2 b a (hd 0 o) 0) as (d3 & E3 & F3 & H3 & M3 & L3); [by rewrite Lo by left|]. apply NoDup_cons in ND as [Hb ND]. exists d3. split; [done|]. split; [apply (fr_index _ _ F1)|]. split; [done|]. split; [rewrite (fr_index _ _ F2); apply (fr_index _ _ F1)|]. split; [done|]. split; [by apply (dir_frame_trans _ d2), F3; apply (dir_frame_trans _ d1)|]. split; [intros x; by rewrite H3, H2, H1|]. split; [intros x; by rewrite M3, M2, M1|]. cbn [dseg hd]. split; [rewrite L3, decide_False, La; [done|intros ->; apply Ha; left]|]. split; [by rewrite L3, decide_True|]. apply (dseg_ext (links d)); [|done]. intros x Hx. rewrite L3, decide_False by (by intros ->). apply Lo. by right.
Qed.
(** The entry [a], filled in for node [n], becomes the newest one. *)
Lemma dir_insert_ok fresh a d t n l f c : rep d t -> pow2_opt fresh -> a <> 0 -> a ∉ addrs (entries t) -> kids d !! a = Some c -> node c = n -> n ∉ map e_node (entries t) -> nodes d !! n = Some (mk_node l f) -> Z.of_nat (length (entries t)) + 1 < 2 ^ 31 -> next_c t + 1 < 2 ^ 64 ->
  exists d', insert_locked fresh a d = Ret (table t || is_some fresh, d') /\ force_scan d' = force_scan d /\ nodes d' = nodes d /\
    (if table t || is_some fresh then rep d' (mk_listing (mk_entry a n l f (next_c t) :: entries t) (next_c t + 1) true) else d' = d).
Proof.
  intros R Hf Ha0 Ha Ec En Hn Hx Hcount Hnext. unfold insert_locked. destruct (adopt_ok fresh d t R Hf) as (d0 & E0 & M0 & R0). rewrite E0, ret_bind. pose proof (rp_table _ _ R0) as T. cbn [entries table] in T. destruct (buckets (index d0)) as [bs|] eqn:Eb.
  2: { destruct T as (_ & _ & Tf). rewrite Tf. exists d0. split; [done|]. split; [apply (sm_scan _ _ M0)|]. split; [apply (sm_nodes _ _ M0)|]. unfold adopt in E0. apply orb_false_iff in Tf as [_ Tf]. destruct fresh as [m|]; [done|]. destruct (buckets (index d)); by injection E0. }
  destruct T as [[T1 T2 T3] ->]. destruct R0 as [R1 R2 R3 R4 R5 R6 R7 R8 R9 R10 R11]. cbn [entries next_c] in *. clear R10 Eb. set (o := addrs (entries t)) in *.
  assert (Ema : meta d0 a = Some (n, cookie c)) by (rewrite (sm_meta _ _ M0); unfold meta; rewrite Ec, <- En; done).
  destruct (cookie_set d0 a (next_cookie (index d0)) n (cookie c) Ema) as (d1 & E1 & F1 & L1 & H1 & M1). rewrite E1, ret_bind. rewrite (fr_index _ _ F1).
  set (d2 := set_next_cookie (u64 (next_cookie (index d0) + 1)) d1).
  assert (Ek : exists c1, kids d2 !! a = Some c1) by (specialize (M1 a); rewrite decide_True in M1 by done; unfold meta in M1; cbn; destruct (kids d1 !! a) as [c1|]; [by exists c1|done]). destruct Ek as [c1 Ec1].
  assert (H0 : 0 ∉ o) by (intros Hin; apply elem_of_addrs in Hin as (e & He & E); rewrite Forall_forall in R5; destruct (R5 e He) as (A & _); done).
  destruct (link_first d2 o a c1) as (d3 & d4 & d5 & E3 & I3 & E4 & I4 & E5 & F5 & H5 & M5 & D5); [apply (dseg_ext (links d0)); [intros x _; exact (L1 x)|done]|by apply NoDup_cons|done|done|].
  assert (I2 : children (index d2) = hd 0 o) by (cbn; by rewrite (fr_index _ _ F1)). rewrite E3, ret_bind, I3, I2, E4, ret_bind, I4, I2, E5, ret_bind. set (d6 := set_children a d5).
  assert (Hnm : forall x, x ∈ o \/ x = a -> nm d6 x = if decide (x = a) then Some l else nm d0 x). { intros x Hxo. unfold nm, node_at. assert (Em : meta d6 x = meta d1 x) by apply M5. rewrite Em, M1. assert (En6 : nodes d6 = nodes d0) by (cbn; rewrite (fr_nodes _ _ F5); cbn; apply (fr_nodes _ _ F1)). rewrite En6. destruct (decide (x = a)) as [->|]; [|done]. cbn. rewrite (sm_nodes _ _ M0), Hx. done. }
  assert (I6 : nbuckets (index d6) = nbuckets (index d0)) by (cbn; rewrite (fr_index _ _ F5); cbn; by rewrite (fr_index _ _ F1)).
  destruct (chain_ok d6 (nbuckets (index d0)) bs (fun x => x ∈ o) a l) as (bs' & d7 & E7 & F7 & L7 & M7 & Hlen & C7); [done|done| |done|rewrite Hnm, decide_True by auto; done|].
  { apply (chains_ext (hn d0) _ (nm d0) _ _ _ (fun x => x ∈ o)); [done| | |done]; intros x Hxo; [change (hn d6 x) with (hn d5 x); rewrite H5; apply H1|rewrite Hnm, decide_False; [done|by intros ->|by left]]. }
  rewrite I6, E7, ret_bind. eexists. split; [done|].
  assert (Hnodes : nodes d7 = nodes d) by (rewrite (fr_nodes _ _ F7); cbn; rewrite (fr_nodes _ _ F5); cbn; rewrite (fr_nodes _ _ F1); apply (sm_nodes _ _ M0)).
  assert (Hscan : force_scan d7 = force_scan d) by (rewrite (fr_scan _ _ F7); cbn; rewrite (fr_scan _ _ F5); cbn; rewrite (fr_scan _ _ F1); apply (sm_scan _ _ M0)).
  split; [done|]. split; [done|].
  assert (Hmeta : forall x, meta d7 x = if decide (x = a) then Some (n, next_c t) else meta d0 x) by (intros x; rewrite M7; change (meta d6 x) with (meta d5 x); rewrite M5; change (meta d2 x) with (meta d1 x); rewrite M1, (proj1 R9); done).
  assert (Ix : index d7 = mk_index a (cursor (index d0)) (cursor_cookie (index d0)) (u64 (next_cookie (index d0) + 1)) (buckets (index d0)) (nbuckets (index d0)) (count (index d0))) by (rewrite (fr_index _ _ F7); cbn; rewrite (fr_index _ _ F5); cbn; by rewrite (fr_index _ _ F1)).
  destruct R6 as [Rc Rc']. destruct R9 as [Rn Rn'].
  assert (Hnew : forall e, e ∈ entries t -> e_cookie e < next_c t) by (intros e He; rewrite Forall_forall in R8; specialize (R8 e He); cbn in R8; lia).
  split; cbn [entries next_c table index children cursor cursor_cookie next_cookie buckets nbuckets count set_count set_buckets set_index length]; rewrite ?Ix; cbn [children cursor cursor_cookie next_cookie buckets nbuckets count].
  - change (dseg (links d7) 0 (a :: o) 0). apply (dseg_ext (links d5)); [|done]. intros x _. apply L7.
  - done.
  - by apply NoDup_cons.
  - by apply NoDup_cons.
  - constructor; [split; [done|]; split; [change (meta d7 a = Some (n, next_c t)); by rewrite Hmeta, decide_True|change (nodes d7 !! n = Some (mk_node l f)); by rewrite Hnodes]|]. rewrite Forall_forall in *. intros e He. destruct (R5 e He) as (A1 & A2 & A3). split; [done|]. split; [change (meta d7 (e_addr e) = Some (e_node e, e_cookie e)); rewrite Hmeta, decide_False; [done|]; intros E; apply Ha; rewrite <- E; by apply addrs_elem|change (nodes d7 !! e_node e = Some (mk_node (e_name e) (e_flags e))); rewrite Hnodes, <- (sm_nodes _ _ M0); done].
  - rewrite Rc, u32_id by lia. lia.
  - constructor; [done|]. rewrite Forall_forall. intros e He. by apply Hnew.
  - constructor; [cbn; lia|]. rewrite Forall_forall in *. intros e He. specialize (R8 e He). cbn in *. lia.
  - rewrite Rn, u64_id by lia. lia.
  - split; [|done]. split; cbn; rewrite ?Ix; cbn [nbuckets]; [done|congruence|]. apply (chains_ext (hn d7) _ (nm d7) _ _ _ (fun x => x = a \/ x ∈ o)); [intros x; by rewrite elem_of_cons|done|done|done].
  - destruct R11 as [->|(e & He & E1' & E2')]; [by left|]. right. exists e. split; [by right|done].
Qed.
(** ** Removal and renaming *)

Lemma unhash_ok a l d bs (S : Z -> Prop) : buckets (index d) = Some bs -> table_ok d bs S -> S a -> nm d a = Some l -> (forall x, S x -> x <> 0 /\ is_Some (nm d x)) ->
  exists bs' d', unhash a d = Ret d' /\ same_memory d d' /\ index d' = index (set_buckets (Some bs') (nbuckets (index d)) d) /\ table_ok d' bs' (fun x => S x /\ x <> a).
Proof.
  intros Eb [T1 T2 T3] Sa El HS. unfold unhash. rewrite Eb. destruct (nm_kid d a l El) as (c & x & Ec & Ex & Exl). unfold kid, name_of. rewrite Ec. cbn [deref]. rewrite ret_bind, Ex. cbn [deref]. rewrite !ret_bind, Exl. set (b := bucket (nbuckets (index d)) l). pose proof (bucket_range (nbuckets (index d)) l T1 : 0 <= b < _) as Hb. destruct (T3 b Hb) as (ch & C1 & C2 & C3 & C4). unfold arr_get. rewrite (proj2 (Z.ltb_ge _ _)), C1 by lia. cbn [deref]. rewrite ret_bind.
  assert (Hsize : (length ch < Datatypes.S (size (kids d)))%nat). { apply Nat.lt_succ_r, keys_length; [done|]. intros y Hy. apply C4 in Hy as [_ (ly & Ey & _)]. destruct (nm_kid d y ly Ey) as (cy & _ & -> & _). by eexists. }
  destruct (unchain_ok b a ch [] (Datatypes.S (size (kids d))) bs d) as (bs' & d' & ch' & E & F & L & M & Hlen & B1 & B2 & G1 & G2 & G3 & G4); [done|intros H0; apply C4 in H0 as [H0 _]; by destruct (HS 0 H0)|apply C4; split; [done|by exists l]|done|lia|done|done|]. cbn [last app] in *. rewrite E, ret_bind. eexists bs', _. split; [done|]. rewrite (fr_index _ _ F). split; [split; [exact L|exact M|apply (fr_nodes _ _ F)|apply (fr_scan _ _ F)|apply (fr_dom _ _ F)]|]. split; [cbn; by rewrite (fr_index _ _ F)|].
  assert (Hnm : forall y, nm d' y = nm d y) by (intros y; apply nm_meta; [apply (fr_nodes _ _ F)|apply M]). split; cbn [index set_buckets set_index nbuckets]; [done|congruence|]. intros b' Hb'. destruct (decide (b' = b)) as [->|Hne].
  - exists ch'. split; [done|]. split; [exact G1|]. split; [done|]. intros y. change (nm (set_buckets _ _ d') y) with (nm d' y). rewrite G3, C4, Hnm. tauto.
  - destruct (T3 b' Hb') as (ch2 & D1 & D2 & D3 & D4). exists ch2. split; [rewrite B2 by lia; done|]. assert (Hd : forall y, y ∈ ch2 -> y ∉ ch) by (intros y Hy Hy'; apply D4 in Hy as [_ (ly & Ey & Hly)]; apply C4 in Hy' as [_ (ly' & Ey' & Hly')]; congruence). split; [apply (hseg_ext (hn d)); [|done]; intros y Hy; by apply G4, Hd|]. split; [done|]. intros y. change (nm (set_buckets _ _ d') y) with (nm d' y). rewrite D4, Hnm. split; [|tauto]. intros [Hs Hy]. split; [|done]. split; [done|]. intros ->. destruct Hy as (ly & Ey & Hly). rewrite El in Ey. injection Ey as <-. done.
Qed.

(** Out of the order list. *)
Lemma unlink_order d o1 a o2 c : dseg (links d) 0 (o1 ++ a :: o2) 0 -> children (index d) = hd 0 (o1 ++ a :: o2) -> NoDup (o1 ++ a :: o2) -> 0 ∉ o1 ++ a :: o2 -> kids d !! a = Some c ->
  exists d1 d2, (if nz (prev c) then set_next (next c) (prev c) d else Ret (set_children (next c) d)) = Ret d1 /\ (if nz (next c) then set_prev (prev c) (next c) d1 else Ret d1) = Ret d2 /\ index d2 = index (set_children (hd 0 (o1 ++ o2)) d) /\ nodes d2 = nodes d /\ force_scan d2 = force_scan d /\ size (kids d2) = size (kids d) /\ (forall x, hn d2 x = hn d x) /\ (forall x, meta d2 x = meta d x) /\ dseg (links d2) 0 (o1 ++ o2) 0.
Proof.
  intros D Eh ND H0 Ec. apply dseg_app in D as [D1 D2]. cbn [hd dseg] in D1, D2. destruct D2 as [Ea D2]. assert (Enx : next c = hd 0 o2 /\ prev c = List.last o1 0) by (unfold links in Ea; rewrite Ec in Ea; injection Ea as E1 E2; done). destruct Enx as [-> ->]. apply NoDup_app in ND as (N1 & N2 & N3). apply NoDup_cons in N3 as [N3 N4].
  assert (Hmid : exists d1, (if nz (List.last o1 0) then set_next (hd 0 o2) (List.last o1 0) d else Ret (set_children (hd 0 o2) d)) = Ret d1 /\ index d1 = index (set_children (hd 0 (o1 ++ o2)) d) /\ nodes d1 = nodes d /\ force_scan d1 = force_scan d /\ size (kids d1) = size (kids d) /\ (forall x, hn d1 x = hn d x) /\ (forall x, meta d1 x = meta d x) /\ dseg (links d1) 0 o1 (hd 0 o2) /\ forall x, x ∉ o1 -> links d1 x = links d x).
  { destruct o1 as [|b0 o1'] using rev_ind; [by exists (set_children (hd 0 o2) d)|]. clear IHo1'. rewrite last_last. rename b0 into b. assert (Hb0 : b <> 0) by (intros ->; apply H0; rewrite !elem_of_app; left; right; left). assert (nz b = true) as -> by (unfold nz; by rewrite (proj2 (Z.eqb_neq _ _) Hb0)). pose proof D1 as D1'. apply dseg_app in D1' as [_ [Eb _]]. cbn [hd] in Eb. destruct (next_set d b (hd 0 o2) a (List.last o1' 0) Eb) as (d1 & E1 & F1 & H1 & M1 & L1). exists d1. split; [done|]. split; [rewrite (fr_index _ _ F1); unfold set_children; cbn; rewrite <- app_assoc in *; rewrite hd_app; rewrite hd_app in Eh; cbn in *; rewrite <- Eh; by destruct (index d)|]. split; [apply (fr_nodes _ _ F1)|]. split; [apply (fr_scan _ _ F1)|]. split; [apply (fr_dom _ _ F1)|]. split; [done|]. split; [done|]. apply NoDup_app in N1 as (N1 & N5 & _). split; [|intros x Hx; rewrite L1, decide_False; [done|]; intros ->; apply Hx, elem_of_app; right; left]. apply (dseg_end (links d) _ o1' b 0 a); [intros Hb; apply (N5 b Hb); left|intros x Hx; rewrite L1, decide_False; [done|]; intros ->; apply (N5 b Hx); left| |done]. intros n q E. rewrite Eb in E. injection E as _ <-. by rewrite L1, decide_True. }
  destruct Hmid as (d1 & E1 & I1 & Nd1 & Fs1 & Sz1 & Hn1 & Hm1 & Dd1 & Hl1). exists d1. assert (Hd2 : forall x, x ∈ o2 -> links d1 x = links d x) by (intros x Hx; apply Hl1; intros Hx'; apply (N2 x Hx'); by right).
  destruct o2 as [|b o2]; cbn [hd] in *.
  - exists d1. rewrite app_nil_r in *. by do 3 (split; [done|]).
  - assert (Hb0 : b <> 0) by (intros ->; apply H0; rewrite elem_of_app; right; right; left). assert (nz b = true) as -> by (unfold nz; by rewrite (proj2 (Z.eqb_neq _ _) Hb0)). cbn [dseg] in D2. destruct D2 as [Eb D2]. destruct (prev_set d1 b (List.last o1 0) (hd 0 o2) a) as (d2 & E2 & F2 & H2 & M2 & L2); [by rewrite Hd2 by left|]. exists d2. split; [done|]. split; [done|]. split; [by rewrite (fr_index _ _ F2)|]. split; [by rewrite (fr_nodes _ _ F2)|]. split; [by rewrite (fr_scan _ _ F2)|]. split; [by rewrite (fr_dom _ _ F2)|]. split; [intros x; by rewrite H2|]. split; [intros x; by rewrite M2|]. apply NoDup_cons in N4 as [N4 N6]. assert (Hb1 : b ∉ o1) by (intros Hb; apply (N2 b Hb); right; left). apply dseg_app. cbn [hd dseg]. split; [apply (dseg_ext (links d1)); [|done]; intros x Hx; rewrite L2, decide_False; [done|by intros ->]|]. split; [by rewrite L2, decide_True|]. apply (dseg_ext (links d)); [|done]. intros x Hx. rewrite L2, decide_False by (by intros ->). apply Hd2. by right.
Qed.
Lemma dir_sorted_middle l1 e l2 : StronglySorted newer (l1 ++ e :: l2) -> StronglySorted newer (l1 ++ l2).
Proof.
  induction l1 as [|x l1 IH]; cbn; intros H; apply StronglySorted_inv in H as [H1 H2]; [done|]. constructor; [by apply IH|]. apply Forall_app in H2 as [H2 H3]. apply Forall_cons in H3 as [_ H3]. by apply Forall_app.
Qed.
Lemma detach_ok d t l1 e l2 : rep d t -> entries t = l1 ++ e :: l2 ->
  exists d', vfs_dirindex_detach_locked (e_addr e) d = Ret d' /\ rep d' (mk_listing (l1 ++ l2) (next_c t) true) /\ force_scan d' = force_scan d /\ nodes d' = nodes d /\ meta d' (e_addr e) = meta d (e_addr e) /\ table t = true.
Proof.
  intros R Ee. assert (HS : forall x, x ∈ addrs (entries t) -> x <> 0 /\ is_Some (nm d x)) by (intros x; by apply (rep_names d t)). destruct R as [R1 R2 R3 R4 R5 R6 R7 R8 R9 R10 R11]. set (a := e_addr e). rewrite Ee in *. assert (Ea : addrs (l1 ++ e :: l2) = addrs l1 ++ a :: addrs l2) by (unfold addrs; by rewrite map_app). rewrite Ea in *. assert (He : e ∈ l1 ++ e :: l2) by (apply elem_of_app; right; left).
  pose proof R5 as Hall. rewrite Forall_forall in Hall. pose proof (Hall e He) as Hat. destruct (at_kid d e Hat) as (c & Ec & Ecn & Eck). fold a in Ec. unfold vfs_dirindex_detach_locked, kid at 1. rewrite Ec. cbn [deref]. rewrite ret_bind.
  destruct (unlink_order d (addrs l1) a (addrs l2) c R1 R2 R3) as (d1 & d2 & E1 & E2 & I2 & Nd2 & Fs2 & Sz2 & Hn2 & Hm2 & Dd2); [intros H0; by destruct (HS 0 H0)|done|]. rewrite E1, ret_bind, E2, ret_bind.
  assert (Ek2 : exists c2, kids d2 !! a = Some c2) by (specialize (Hm2 a); unfold meta in Hm2; rewrite Ec in Hm2; destruct (kids d2 !! a) as [c2|]; [by exists c2|done]). destruct Ek2 as [c2 Ec2].
  destruct (prev_set d2 a 0 (next c2) (prev c2)) as (d3 & E3 & F3 & H3 & M3 & L3); [unfold links; by rewrite Ec2|]. rewrite E3, ret_bind. destruct (next_set d3 a 0 (next c2) 0) as (d4 & E4 & F4 & H4 & M4 & L4); [by rewrite L3, decide_True|]. rewrite E4, ret_bind.
  assert (I4 : index d4 = index d2) by (rewrite (fr_index _ _ F4); apply (fr_index _ _ F3)). assert (M4' : forall x, meta d4 x = meta d x) by (intros x; by rewrite M4, M3, Hm2). assert (N4' : nodes d4 = nodes d) by (by rewrite (fr_nodes _ _ F4), (fr_nodes _ _ F3)). assert (Hnm4 : forall x, nm d4 x = nm d x) by (intros x; by apply nm_meta).
  destruct (buckets (index d)) as [bs|] eqn:Eb; [|destruct R10 as [R10 _]; by destruct l1]. destruct R10 as [[T1 T2 T3] Tt]. assert (Ix4 : buckets (index d4) = Some bs /\ nbuckets (index d4) = nbuckets (index d)) by (rewrite I4, I2; cbn; done). destruct Ix4 as [Eb4 Nb4].
  destruct (unhash_ok a (e_name e) d4 bs (fun x => x ∈ addrs l1 ++ a :: addrs l2)) as (bs' & d5 & E5 & M5 & I5 & T5); [done| |apply elem_of_app; right; left|rewrite Hnm4; apply (at_nm d e Hat)|intros x Hx; rewrite Hnm4; by apply HS|].
  { split; rewrite ?Nb4; [done|done|]. apply (chains_ext (hn d) _ (nm d) _ _ _ (fun x => x ∈ addrs l1 ++ a :: addrs l2)); [done| |done|done]. intros x _. by rewrite H4, H3, Hn2. }
  rewrite E5, ret_bind. assert (Eh5 : exists h, hn d5 a = Some h). { assert (Em : meta d5 a = meta d a) by (by rewrite (sm_meta _ _ M5)). unfold meta in Em. rewrite Ec in Em. unfold hn. destruct (kids d5 !! a) as [c5|]; [by eexists|done]. } destruct Eh5 as [h5 Eh5].
  destruct (hn_set d5 a 0 h5 Eh5) as (d6 & E6 & F6 & L6 & M6 & H6). rewrite E6, ret_bind. destruct R6 as [Rc Rc']. rewrite length_app in Rc, Rc'. cbn [length] in Rc, Rc'.
  assert (I6 : index d6 = mk_index (hd 0 (addrs l1 ++ addrs l2)) (cursor (index d)) (cursor_cookie (index d)) (next_cookie (index d)) (Some bs') (nbuckets (index d)) (count (index d))) by (rewrite (fr_index _ _ F6), I5; unfold set_buckets; cbn; rewrite I4, I2; done).
  assert (nz (count (index d6)) = true) as -> by (rewrite I6; cbn [count]; unfold nz; rewrite (proj2 (Z.eqb_neq _ _)); [done|lia]).
  eexists. split; [done|]. assert (Hm6 : forall x, meta d6 x = meta d x) by (intros x; by rewrite M6, (sm_meta _ _ M5)). assert (Hnd6 : nodes d6 = nodes d) by (by rewrite (fr_nodes _ _ F6), (sm_nodes _ _ M5)).
  split; [|split; [cbn; by rewrite (fr_scan _ _ F6), (sm_scan _ _ M5), (fr_scan _ _ F4), (fr_scan _ _ F3)|]; split; [exact Hnd6|]; split; [exact (Hm6 a)|done]].
  assert (Ea' : addrs (l1 ++ l2) = addrs l1 ++ addrs l2) by (unfold addrs; by rewrite map_app). pose proof R3 as ND. apply NoDup_app in ND as (N1 & N2 & N3). apply NoDup_cons in N3 as [N3 N4]. assert (Hna : forall x, x ∈ addrs l1 ++ addrs l2 <-> x ∈ addrs l1 ++ a :: addrs l2 /\ x <> a). { intros x. rewrite !elem_of_app, elem_of_cons. split; [intros Hx; split; [tauto|intros ->; destruct Hx as [Hx|Hx]; [apply (N2 a Hx); left|done]]|tauto]. }
  split; cbn [entries next_c table index children cursor cursor_cookie next_cookie buckets nbuckets count set_count set_cursor set_index]; rewrite ?I6, ?Ea'; cbn [children cursor cursor_cookie next_cookie buckets nbuckets count].
  - apply (dseg_ext (links d2)); [|done]. intros x Hx. change (links d6 x = links d2 x). apply Hna in Hx as [_ Hx]. by rewrite L6, (sm_links _ _ M5), L4, decide_False, L3, decide_False.
  - done.
  - rewrite <- Permutation_middle in R3. by apply NoDup_cons in R3 as [_ R3].
  - rewrite map_app in *. cbn in R4. rewrite <- Permutation_middle in R4. by apply NoDup_cons in R4 as [_ R4].
  - rewrite Forall_forall. intros x Hx. destruct (Hall x) as (A1 & A2 & A3); [rewrite !elem_of_app, elem_of_cons in *; tauto|]. split; [done|]. split; [change (meta d6 (e_addr x) = Some (e_node x, e_cookie x)); by rewrite Hm6|change (nodes d6 !! e_node x = Some (mk_node (e_name x) (e_flags x))); by rewrite Hnd6].
  - rewrite u32_id, length_app by lia. lia.
  - by apply (dir_sorted_middle l1 e l2).
  - rewrite Forall_app, Forall_cons in R8. rewrite Forall_app. tauto.
  - done.
  - split; [|done]. destruct T5 as [T5 T6 T7]. assert (Inb : nbuckets (index d5) = nbuckets (index d)) by (rewrite I5; cbn; done). rewrite Inb in *. split; cbn; rewrite ?I6; cbn [nbuckets]; [done|done|]. apply (chains_ext (hn d5) _ (nm d5) _ _ _ (fun x => x ∈ addrs l1 ++ a :: addrs l2 /\ x <> a)); [intros x; by rewrite <- Hna| | |done]; intros x [_ Hx]; [change (hn d6 x = hn d5 x); by rewrite H6, decide_False|change (nm d6 x = nm d5 x); apply nm_meta; [apply (fr_nodes _ _ F6)|apply M6]].
  - by left.
Qed.
Definition set_e_name (l : list Z) (e : entry) : entry := mk_entry (e_addr e) (e_node e) l (e_flags e) (e_cookie e).
(** Entries that differ in their names only. *)
Lemma sorted_rename l1 e l2 l : StronglySorted newer (l1 ++ e :: l2) -> StronglySorted newer (l1 ++ set_e_name l e :: l2).
Proof.
  induction l1 as [|x l1 IH]; cbn; intros H; apply StronglySorted_inv in H as [H1 H2]; constructor; [done|done|by apply IH|]. rewrite Forall_app, Forall_cons in *. done.
Qed.
Lemma rename_ok d t l1 e l2 l : rep d t -> entries t = l1 ++ e :: l2 ->
  exists d', vfs_dirindex_rename_locked (e_addr e) l d = Ret d' /\ rep d' (mk_listing (l1 ++ set_e_name (take 127 l) e :: l2) (next_c t) (table t)) /\ force_scan d' = force_scan d /\ kids d' !! e_addr e <> None.
Proof.
  intros R Ee. assert (HS : forall x, x ∈ addrs (entries t) -> x <> 0 /\ is_Some (nm d x)) by (intros x; by apply (rep_names d t)). pose proof (rep_at d t) as Hrep. specialize (fun a => Hrep a R). destruct R as [R1 R2 R3 R4 R5 R6 R7 R8 R9 R10 R11]. set (a := e_addr e). set (o := addrs (entries t)) in *. assert (He : e ∈ entries t) by (rewrite Ee; apply elem_of_app; right; left). pose proof R5 as Hall. rewrite Forall_forall in Hall. pose proof (Hall e He) as Hat. destruct (at_kid d e Hat) as (c & Ec & Ecn & Eck). fold a in Ec.
  unfold vfs_dirindex_rename_locked. destruct (buckets (index d)) as [bs|] eqn:Eb; [|destruct R10 as [R10 _]; rewrite Ee in R10; by destruct l1]. destruct R10 as [T Tt]. assert (Hao : a ∈ o) by (by apply addrs_elem).
  destruct (unhash_ok a (e_name e) d bs (fun x => x ∈ o) Eb T Hao (at_nm d e Hat) HS) as (bs1 & d1 & E1 & M1 & I1 & T1). rewrite E1, ret_bind. assert (Ek1 : exists c1, kids d1 !! a = Some c1 /\ node c1 = e_node e). { pose proof (sm_meta _ _ M1 a) as Em. unfold meta in Em. rewrite Ec in Em. destruct (kids d1 !! a) as [c1|]; [|done]. injection Em as Em _. exists c1. split; [done|congruence]. } destruct Ek1 as (c1 & Ec1 & En1).
  destruct (hn_set d1 a 0 (hnext c1)) as (d2 & E2 & F2 & L2 & M2 & H2); [unfold hn; by rewrite Ec1|]. rewrite E2, ret_bind. assert (Hm2 : forall x, meta d2 x = meta d x) by (intros x; by rewrite M2, (sm_meta _ _ M1)). assert (Hnd2 : nodes d2 = nodes d) by (by rewrite (fr_nodes _ _ F2), (sm_nodes _ _ M1)).
  assert (Ek2 : exists c2, kids d2 !! a = Some c2 /\ node c2 = e_node e). { pose proof (Hm2 a) as Em. unfold meta in Em. rewrite Ec in Em. destruct (kids d2 !! a) as [c2|]; [|done]. injection Em as Em _. exists c2. split; [done|congruence]. } destruct Ek2 as (c2 & Ec2 & En2).
  set (x := mk_node (take 127 l) (e_flags e)). set (d3 := set_nodes (<[e_node e := x]> (nodes d2)) d2). assert (E3 : set_name l a d2 = Ret d3). { unfold set_name, kid. rewrite Ec2. cbn [deref]. rewrite ret_bind, En2, Hnd2, (proj2 (proj2 Hat)). cbn [deref]. rewrite ret_bind. unfold d3. by rewrite Hnd2. } rewrite E3, ret_bind.
  assert (I3 : index d3 = index (set_buckets (Some bs1) (nbuckets (index d)) d)) by (cbn; rewrite (fr_index _ _ F2); exact I1). rewrite I3. cbn [index set_buckets set_index buckets nbuckets].
  assert (Hnm3 : forall y, y ∈ o -> nm d3 y = if decide (y = a) then Some (take 127 l) else nm d y). { intros y Hy. destruct (Hrep y Hy) as (ey & Hey & <- & Haty). unfold nm, node_at. change (meta d3 (e_addr ey)) with (meta d2 (e_addr ey)). rewrite Hm2, (proj1 (proj2 Haty)). cbn. rewrite Hnd2. destruct (decide (e_addr ey = a)) as [E|Hne].
    - assert (ey = e) as -> by (apply (map_inj e_addr (entries t)); done). by rewrite lookup_insert_eq.
    - rewrite lookup_insert_ne; [done|]. intros E. apply Hne. f_equal. apply (map_inj e_node (entries t)); done. }
  destruct T1 as [U1 U2 U3]. assert (Inb : nbuckets (index d1) = nbuckets (index d)) by (rewrite I1; done). rewrite Inb in *.
  destruct (chain_ok d3 (nbuckets (index d)) bs1 (fun y => y ∈ o /\ y <> a) a (take 127 l)) as (bs4 & d4 & E4 & F4 & L4 & M4 & Hlen & C4); [done|done| |tauto|rewrite Hnm3, decide_True by done; done|].
  { apply (chains_ext (hn d1) _ (nm d1) _ _ _ (fun y => y ∈ o /\ y <> a)); [done| | |done]; intros y [Hy Hya]; [change (hn d2 y = hn d1 y); by rewrite H2, decide_False|rewrite Hnm3, decide_False by done; symmetry; apply nm_meta; [apply (sm_nodes _ _ M1)|apply (sm_meta _ _ M1)]]. }
  rewrite E4, ret_bind. eexists. split; [done|]. assert (Hm4 : forall y, meta d4 y = meta d y) by (intros y; rewrite M4; apply Hm2).
  assert (I4 : index d4 = index (set_buckets (Some bs1) (nbuckets (index d)) d)) by (by rewrite (fr_index _ _ F4)).
  split; [|split; [cbn; rewrite (fr_scan _ _ F4); cbn; by rewrite (fr_scan _ _ F2), (sm_scan _ _ M1)|]].
  2: { cbn. pose proof (Hm4 a) as Em. unfold meta in Em. rewrite Ec in Em. by destruct (kids d4 !! a). }
  assert (Ea : addrs (l1 ++ set_e_name (take 127 l) e :: l2) = o) by (unfold o, addrs; rewrite Ee, !map_app; done).
  split; cbn [entries next_c table index children cursor cursor_cookie next_cookie buckets nbuckets count set_buckets set_index]; rewrite ?I4, ?Ea; cbn [index set_buckets set_index children cursor cursor_cookie next_cookie buckets nbuckets count].
  - apply (dseg_ext (links d)); [|done]. intros y _. change (links d4 y = links d y). rewrite L4. change (links d2 y = links d y). by rewrite L2, (sm_links _ _ M1).
  - done.
  - done.
  - by rewrite Ee, !map_app in *.
  - rewrite Forall_forall. intros y Hy. assert (Hat' : forall z, z ∈ entries t -> z <> e -> at_entry (set_buckets (Some bs4) (nbuckets (index d4)) d4) z). { intros z Hz Hne. destruct (Hall z Hz) as (A1 & A2 & A3). split; [done|]. split; [change (meta d4 (e_addr z) = Some (e_node z, e_cookie z)); by rewrite Hm4|]. change (nodes d4 !! e_node z = Some (mk_node (e_name z) (e_flags z))). rewrite (fr_nodes _ _ F4). cbn. rewrite Hnd2, lookup_insert_ne; [done|]. intros E. apply Hne. apply (map_inj e_node (entries t)); done. }
    assert (Hne : forall z, z ∈ l1 ++ l2 -> z <> e) by (intros z Hz ->; rewrite Ee, map_app in R4; cbn in R4; rewrite <- Permutation_middle, <- map_app in R4; apply NoDup_cons in R4 as [R4 _]; apply R4, list_elem_of_In, in_map, list_elem_of_In, Hz).
    assert (Hy' : y ∈ l1 ++ l2 \/ y = set_e_name (take 127 l) e) by (rewrite !elem_of_app, elem_of_cons in *; tauto). destruct Hy' as [Hy'| ->]; [assert (y ∈ entries t) by (rewrite Ee, !elem_of_app, elem_of_cons in *; tauto); rewrite <- I4 in *; apply (Hat' y); auto|]. destruct Hat as (A1 & A2 & A3). split; [done|]. split; [change (meta d4 a = Some (e_node e, e_cookie e)); by rewrite Hm4|]. change (nodes d4 !! e_node e = Some x). rewrite (fr_nodes _ _ F4). cbn. by rewrite lookup_insert_eq.
  - rewrite Ee in R6. by rewrite length_app in *.
  - rewrite Ee in R7. by apply sorted_rename.
  - rewrite Ee in R8. rewrite Forall_app, Forall_cons in *. done.
  - done.
  - split; [|done]. split; cbn; rewrite ?I4; cbn; [apply (tb_pow2 _ _ _ T)|congruence|]. apply (chains_ext (hn d4) _ (nm d4) _ _ _ (fun y => y = a \/ y ∈ o /\ y <> a)); [|done|done|done]. intros y. destruct (decide (y = a)) as [->|]; tauto.
  - destruct R11 as [->|(z & Hz & Z1 & Z2)]; [by left|]. right. destruct (decide (z = e)) as [->|Hne]; [exists (set_e_name (take 127 l) e); split; [apply elem_of_app; right; left|done]|]. exists z. split; [|done]. rewrite Ee in Hz. rewrite !elem_of_app, elem_of_cons in *. tauto.
Qed.
(** ** Reading the directory *)

(** The entry at position [pos]: the newest one that is older than the cookie [pos]. *)
Definition next_entry (pos : Z) (es : list entry) : option entry := if pos =? 2 then head es else List.find (fun e => e_cookie e <? pos) es.
Lemma sorted_find l1 e l2 : StronglySorted newer (l1 ++ e :: l2) -> List.find (fun x => e_cookie x <? e_cookie e) (l1 ++ e :: l2) = head l2.
Proof.
  induction l1 as [|x l1 IH]; cbn; intros H; apply StronglySorted_inv in H as [H1 H2].
  - rewrite Z.ltb_irrefl. destruct l2 as [|y l2]; [done|]. apply Forall_cons in H2 as [H2 _]. unfold newer in H2. cbn. by rewrite (proj2 (Z.ltb_lt _ _) H2).
  - apply Forall_app in H2 as [_ H2]. apply Forall_cons in H2 as [H2 _]. unfold newer in H2. rewrite (proj2 (Z.ltb_ge _ _)) by lia. by apply IH.
Qed.
Lemma links_next d a n p : links d a = Some (n, p) -> exists c, kids d !! a = Some c /\ next c = n.
Proof. unfold links. destruct (kids d !! a) as [c|]; [|done]. intros [= <- _]. by exists c. Qed.
Lemma older_ok d pos es : forall fuel p, dseg (links d) p (addrs es) 0 -> Forall (at_entry d) es -> (length es < fuel)%nat -> older fuel (hd 0 (addrs es)) pos d = Ret (default 0 (e_addr <$> List.find (fun e => e_cookie e <? pos) es)).
Proof.
  induction es as [|e es IH]; intros fuel p D F Hf; (destruct fuel as [|fuel]; [cbn in Hf; lia|]); cbn [older hd addrs map]; [done|]. apply Forall_cons in F as [He F]. destruct (at_kid d e He) as (c & Ec & _ & Ek). rewrite (proj2 (Z.eqb_neq _ _) (proj1 He)). unfold kid. rewrite Ec. cbn [deref]. rewrite ret_bind, Ek. cbn [dseg addrs map] in D. destruct D as [E D]. destruct (links_next _ _ _ _ E) as (c' & Ec' & En). assert (c' = c) as -> by congruence. cbn [List.find]. rewrite Z.geb_leb. destruct (e_cookie e <? pos) eqn:Elt; reify_bools.
  - by rewrite (proj2 (Z.leb_gt _ _)).
  - rewrite (proj2 (Z.leb_le _ _)) by lia. rewrite En. apply (IH fuel (e_addr e)); [done|done|cbn in Hf; lia].
Qed.
Lemma rep_cursor d t c k : rep d t -> c = 0 \/ (exists e, e ∈ entries t /\ e_addr e = c /\ e_cookie e = k) -> rep (set_cursor c k d) t.
Proof. intros [R1 R2 R3 R4 R5 R6 R7 R8 R9 R10 R11] H. split; try done. cbn. destruct (buckets (index d)); [|done]. destruct R10 as [[T1 T2 T3] T]. split; [by split|done]. Qed.
Lemma find_elem {A} (f : A -> bool) l x : List.find f l = Some x -> x ∈ l.
Proof. intros E. apply find_some in E as [E _]. by apply list_elem_of_In. Qed.
Lemma readdir_ok pos d t : rep d t -> 2 <= pos ->
  exists d', ramfs_readdir pos d = Ret ((fun e => Entry (e_name e) (e_cookie e)) <$> next_entry pos (entries t), d') /\ rep d' t /\ force_scan d' = force_scan d.
Proof.
  intros R Hpos. unfold ramfs_readdir. rewrite (proj2 (Z.eqb_neq pos 0)), (proj2 (Z.eqb_neq pos 1)) by lia.
  assert (Hcurr : (if pos =? 2 then Ret (children (index d)) else if nz (cursor (index d)) && (pos =? cursor_cookie (index d)) then c ← kid d (cursor (index d)); Ret (next c) else older (S (size (kids d))) (children (index d)) pos d) = Ret (default 0 (e_addr <$> next_entry pos (entries t)))).
  { unfold next_entry. rewrite (rp_head _ _ R). destruct (pos =? 2); [by destruct (entries t)|]. destruct (nz (cursor (index d)) && _) eqn:Ec; [|apply (older_ok d pos (entries t) _ 0); [apply (rp_links _ _ R)|apply (rp_at _ _ R)|pose proof (rep_size d t R); lia]]. apply andb_true_iff in Ec as [Ec1 Ec2]. reify_bools. destruct (rp_cursor _ _ R) as [H0|(e & He & E1 & E2)]; [by rewrite H0 in Ec1|]. pose proof He as Hin. apply list_elem_of_split in He as (l1 & l2 & Ee). rewrite Ec2, <- E2, Ee, sorted_find by (rewrite <- Ee; apply (rp_sorted _ _ R)). pose proof (rp_links _ _ R) as D. rewrite Ee in D. unfold addrs in D. rewrite map_app in D. apply dseg_app in D as [_ D]. cbn [map dseg] in D. destruct D as [D _]. destruct (links_next _ _ _ _ D) as (c & Eck & En). unfold kid. rewrite <- E1, Eck. cbn [deref]. rewrite ret_bind, En. by destruct l2. }
  rewrite Hcurr, ret_bind. assert (Hin : forall e, next_entry pos (entries t) = Some e -> e ∈ entries t) by (unfold next_entry; intros e He; destruct (pos =? 2); [destruct (entries t); [done|]; injection He as <-; left|by apply find_elem in He]). destruct (next_entry pos (entries t)) as [e|]; cbn [fmap option_fmap option_map default].
  - specialize (Hin e eq_refl). pose proof (rp_at _ _ R) as F. rewrite Forall_forall in F. specialize (F e Hin). destruct (at_kid d e F) as (c & Ec & En & Ek). cbn. rewrite (proj2 (Z.eqb_neq _ _) (proj1 F)). unfold kid, name_of. rewrite Ec. cbn [deref]. rewrite ret_bind, En, (proj2 (proj2 F)). cbn [deref]. rewrite !ret_bind, Ek. eexists. split; [done|]. split; [|done]. apply rep_cursor; [done|]. right. by exists e.
  - cbn. eexists. split; [done|]. split; [|done]. apply rep_cursor; [done|by left].
Qed.
End DirOps.
