(* ===== verification/DirClaims.v ===== *)
(** DirClaims: directories as lists of entries, and the properties of the operations. *)

From S2P Require Import Prelude DirIndex DirSafe DirOps.
From stdpp Require Import list_relations sorting.
#[local] Open Scope Z_scope.

Module DirClaims.
Import DirIndex DirSafe DirOps.

(** ** What a directory is *)

Fixpoint collect (fuel : nat) (a : Z) (d : dir) : list entry :=
  match fuel with
  | O => []
  | S fuel =>
    match kids d !! a with
    | None => []
    | Some c => match nodes d !! node c with None => [] | Some x => mk_entry a (node c) (name x) (flags x) (cookie c) :: collect fuel (next c) d end
    end
  end.
Definition listing_of (d : dir) : listing := mk_listing (if children (index d) =? 0 then [] else collect (Z.to_nat (count (index d))) (children (index d)) d) (next_cookie (index d)) (is_some (buckets (index d))).
Lemma dir_collect_ok d es : forall p, dseg (links d) p (addrs es) 0 -> Forall (at_entry d) es -> collect (length es) (hd 0 (addrs es)) d = es.
Proof.
  induction es as [|e es IH]; intros p D F; [done|]. cbn [length collect addrs map hd]. apply Forall_cons in F as [He F]. destruct (at_kid d e He) as (c & Ec & En & Ek). cbn [dseg addrs map] in D. destruct D as [E D]. destruct (links_next _ _ _ _ E) as (c' & Ec' & Enx). assert (c' = c) as -> by congruence. rewrite Ec, En, (proj2 (proj2 He)), Enx, Ek. cbn [name flags]. pose proof (IH (e_addr e) D F) as IH'. unfold addrs in IH'. rewrite IH'. by destruct e.
Qed.
Lemma rep_listing d t : rep d t -> listing_of d = t.
Proof.
  intros R. destruct t as [es nc tb]. unfold listing_of. destruct R as [R1 R2 R3 R4 R5 R6 R7 R8 R9 R10 R11]. cbn [entries next_c table] in *. rewrite (proj1 R9), R2, (proj1 R6), Nat2Z.id, (dir_collect_ok d es 0 R1 R5). f_equal; [|destruct (buckets (index d)); cbn; [by destruct R10 as [_ ->]|by destruct R10 as (_ & _ & ->)]]. destruct es as [|e es]; [done|]. cbn [addrs map hd]. apply Forall_cons in R5 as [He _]. by rewrite (proj2 (Z.eqb_neq _ _) (proj1 He)).
Qed.
Definition ok (d : dir) : Prop := rep d (listing_of d).
Lemma rep_ok d t : rep d t -> ok d.
Proof. intros R. unfold ok. by rewrite (rep_listing d t R). Qed.

(** ** The abstract operations *)

Definition with_entries (es : list entry) (t : listing) : listing := mk_listing es (next_c t) (table t).
Definition is_dir_entry (e : entry) : bool := Z.land (e_flags e) FS_TYPE_MASK =? FS_DIRECTORY.
(** An entry of the name [l], or none. *)
Inductive split_at (l : list Z) (es : list entry) : list entry -> option entry -> list entry -> Prop :=
  | Absent : (forall e, e ∈ es -> e_name e <> l) -> split_at l es es None []
  | Present l1 e l2 : es = l1 ++ e :: l2 -> e_name e = l -> split_at l es l1 (Some e) l2.
Definition spec (e : event) (t : listing) (ans : answer) (t' : listing) : Prop :=
  match e with
  | Find l => exists l1 o l2, split_at l (entries t) l1 o l2 /\ ans = Addr (default 0 (e_addr <$> o)) /\ t' = t
  | Add fresh a n l f => ans = Flag (table t || is_some fresh) /\ t' = if table t || is_some fresh then mk_listing (mk_entry a n (take 127 l) f (next_c t) :: entries t) (next_c t + 1) true else t
  | Unlink l => exists l1 o l2, split_at l (entries t) l1 o l2 /\
      match o with Some x => if is_dir_entry x then ans = Code (-1) /\ t' = t else ans = Code 0 /\ t' = with_entries (l1 ++ l2) t | None => ans = Code (-1) /\ t' = t end
  | Rmdir child_count l => exists l1 o l2, split_at l (entries t) l1 o l2 /\
      match o with Some x => if is_dir_entry x && bool_decide (child_count (e_node x) = Some 0) then ans = Code 0 /\ t' = with_entries (l1 ++ l2) t else ans = Code (-1) /\ t' = t | None => ans = Code (-1) /\ t' = t end
  | Rename l l' => exists l1 o l2, split_at l (entries t) l1 o l2 /\
      match o with Some x => ans = Code 0 /\ t' = with_entries (l1 ++ set_e_name (take 127 l') x :: l2) t | None => ans = Code (-1) /\ t' = t end
  | Readdir pos => ans = Dirent (if pos =? 0 then Some Dot else if pos =? 1 then Some DotDot else (fun e => Entry (e_name e) (e_cookie e)) <$> next_entry pos (entries t)) /\ t' = t
  | Force_scan b => ans = Flag b /\ t' = t
  end.
(** New entries and nodes have addresses that are not in use, and the counters have room. *)
Definition legal (e : event) (d : dir) : Prop :=
  match e with
  | Add fresh a n l f => pow2_opt fresh /\ a <> 0 /\ kids d !! a = None /\ n <> 0 /\ (forall x c, kids d !! x = Some c -> node c <> n) /\ count (index d) + 1 < 2 ^ 31 /\ next_cookie (index d) + 1 < 2 ^ 64
  | Readdir pos => 0 <= pos
  | _ => True
  end.

(** ** The operations implement them *)

Lemma dir_find_split d t l : rep d t -> exists l1 o l2, vfs_dirindex_find_locked l d = Ret (default 0 (e_addr <$> o)) /\ split_at l (entries t) l1 o l2.
Proof.
  intros R. destruct (find_found d t l R) as (r & E & [[-> H]|(e & He & <- & El)]); [exists (entries t), None, []; split; [done|by constructor]|]. apply list_elem_of_split in He as (l1 & l2 & Ee). exists l1, (Some e), l2. split; [done|by constructor].
Qed.
Lemma rep_middle d t l1 e l2 : rep d t -> entries t = l1 ++ e :: l2 -> at_entry d e /\ e ∈ entries t.
Proof. intros R Ee. assert (He : e ∈ entries t) by (rewrite Ee; apply elem_of_app; right; left). pose proof (rp_at _ _ R) as F. rewrite Forall_forall in F. by split; [apply F|]. Qed.
Lemma dir_remove_ok d t l1 e l2 : rep d t -> entries t = l1 ++ e :: l2 -> exists d', remove (e_addr e) d = Ret d' /\ rep d' (with_entries (l1 ++ l2) t).
Proof.
  intros R Ee. destruct (rep_middle d t l1 e l2 R Ee) as [Hat He]. destruct (detach_ok d t l1 e l2 R Ee) as (d1 & E1 & R1 & _ & N1 & M1 & Tt). unfold remove. rewrite E1, ret_bind. rewrite (proj1 (proj2 Hat)) in M1. unfold meta in M1. unfold kid. destruct (kids d1 !! e_addr e) as [c|] eqn:Ec; [|done]. injection M1 as M1 _. cbn [deref]. rewrite ret_bind, M1, N1, (proj2 (proj2 Hat)). cbn [deref]. rewrite ret_bind. eexists. split; [done|]. unfold with_entries. rewrite Tt.
  pose proof (rp_nodup _ _ R) as ND. pose proof (rp_nodes _ _ R) as NN. rewrite Ee in ND, NN. unfold addrs in ND. rewrite map_app in ND, NN. cbn in ND, NN. rewrite <- Permutation_middle, <- map_app in ND, NN. apply NoDup_cons in ND as [ND _]. apply NoDup_cons in NN as [NN _].
  apply (dir_rep_ext d1); [done| | |done]; cbn.
  - intros a Ha. rewrite lookup_delete_ne; [done|]. intros <-. by apply ND.
  - intros x Hx. rewrite N1, lookup_insert_ne; [done|]. intros E. apply NN. rewrite E. apply list_elem_of_In, in_map, list_elem_of_In, Hx.
Qed.
Lemma dir_unlink_ok l d t : rep d t -> exists c d' t', ramfs_unlink l d = Ret (c, d') /\ rep d' t' /\ spec (Unlink l) t (Code c) t'.
Proof.
  intros R. destruct (dir_find_split d t l R) as (l1 & o & l2 & E & Hs). unfold ramfs_unlink. rewrite E, ret_bind. destruct o as [e|]; cbn [fmap option_fmap option_map default]; [|eexists _, d, t; split; [done|]; split; [done|]; by exists l1, None, l2]. cbn. inversion Hs as [|? ? ? Ee El]; subst. destruct (rep_middle d t l1 e l2 R Ee) as [Hat _]. rewrite (proj2 (Z.eqb_neq _ _) (proj1 Hat)). destruct (at_kid d e Hat) as (c & Ec & En & _). unfold kid. rewrite Ec. cbn [deref]. rewrite ret_bind, En, (proj2 (proj2 Hat)). cbn [deref]. rewrite ret_bind. change (is_dir (mk_node (e_name e) (e_flags e))) with (is_dir_entry e). destruct (is_dir_entry e) eqn:Ed.
  - eexists _, d, t. split; [done|]. split; [done|]. exists l1, (Some e), l2. by rewrite Ed.
  - destruct (dir_remove_ok d t l1 e l2 R Ee) as (d' & E' & R'). rewrite E', ret_bind. eexists _, d', _. split; [done|]. split; [exact R'|]. exists l1, (Some e), l2. by rewrite Ed.
Qed.
Lemma rmdir_ok child_count l d t : rep d t -> exists c d' t', ramfs_rmdir child_count l d = Ret (c, d') /\ rep d' t' /\ spec (Rmdir child_count l) t (Code c) t'.
Proof.
  intros R. destruct (dir_find_split d t l R) as (l1 & o & l2 & E & Hs). unfold ramfs_rmdir. rewrite E, ret_bind. destruct o as [e|]; cbn [fmap option_fmap option_map default]; [|eexists _, d, t; split; [done|]; split; [done|]; by exists l1, None, l2]. cbn. inversion Hs as [|? ? ? Ee El]; subst. destruct (rep_middle d t l1 e l2 R Ee) as [Hat _]. rewrite (proj2 (Z.eqb_neq _ _) (proj1 Hat)). destruct (at_kid d e Hat) as (c & Ec & En & _). unfold kid. rewrite Ec. cbn [deref]. rewrite ret_bind, En, (proj2 (proj2 Hat)). cbn [deref]. rewrite ret_bind. change (is_dir (mk_node (e_name e) (e_flags e))) with (is_dir_entry e).
  destruct (is_dir_entry e && bool_decide (child_count (e_node e) = Some 0)) eqn:Ed.
  - apply andb_true_iff in Ed as [Ed1 Ed2%bool_decide_eq_true]. rewrite Ed1, Ed2. cbn [negb Z.eqb]. destruct (dir_remove_ok d t l1 e l2 R Ee) as (d' & E' & R'). rewrite E', ret_bind. eexists _, d', _. split; [done|]. split; [exact R'|]. exists l1, (Some e), l2. by rewrite Ed1, bool_decide_eq_true_2.
  - exists (-1), d, t. split; [|split; [done|]; exists l1, (Some e), l2; by rewrite Ed]. destruct (is_dir_entry e); [|done]. cbn [andb negb] in *. apply bool_decide_eq_false in Ed. destruct (child_count (e_node e)) as [n|]; [|done]. destruct (n =? 0) eqn:E0; reify_bools; [congruence|done].
Qed.
Lemma rename_entry_ok l l' d t : rep d t -> exists c d' t', rename_entry l l' d = Ret (c, d') /\ rep d' t' /\ spec (Rename l l') t (Code c) t'.
Proof.
  intros R. destruct (dir_find_split d t l R) as (l1 & o & l2 & E & Hs). unfold rename_entry. rewrite E, ret_bind. destruct o as [e|]; cbn [fmap option_fmap option_map default]; [|eexists _, d, t; split; [done|]; split; [done|]; by exists l1, None, l2]. cbn. inversion Hs as [|? ? ? Ee El]; subst. destruct (rep_middle d t l1 e l2 R Ee) as [Hat _]. rewrite (proj2 (Z.eqb_neq _ _) (proj1 Hat)). destruct (rename_ok d t l1 e l2 l' R Ee) as (d' & E' & R' & _). rewrite E', ret_bind. eexists _, d', _. split; [done|]. split; [exact R'|]. by exists l1, (Some e), l2.
Qed.
Lemma add_child_ok fresh a n l f d t : rep d t -> legal (Add fresh a n l f) d -> exists d' t', add_child fresh a n (set_nodes (<[n := mk_node (take 127 l) f]> (nodes d)) d) = Ret (table t || is_some fresh, d') /\ rep d' t' /\ spec (Add fresh a n l f) t (Flag (table t || is_some fresh)) t'.
Proof.
  intros R (Hf & Ha0 & Ha & Hn0 & Hn & Hc & Hk). unfold add_child. set (d0 := set_kids _ _). assert (Hal : a ∉ addrs (entries t)) by (intros H; destruct (rep_at d t a R H) as (e & _ & <- & He); destruct (at_kid d e He) as (c & Ec & _); congruence). assert (Hnl : forall e, e ∈ entries t -> e_node e <> n) by (intros e He; pose proof (rp_at _ _ R) as F; rewrite Forall_forall in F; destruct (at_kid d e (F e He)) as (c & Ec & <- & _); by apply (Hn _ _ Ec)).
  assert (R0 : rep d0 t) by (apply (dir_rep_ext d); [done|intros x Hx; cbn; rewrite lookup_insert_ne; [done|by intros ->]|intros e He; cbn; rewrite lookup_insert_ne; [done|]; intros E; by apply (Hnl e He)|done]).
  destruct (rp_count _ _ R) as [C1 C2]. destruct (rp_next _ _ R) as [N1 N2]. destruct (dir_insert_ok fresh a d0 t n (take 127 l) f (mk_child n 0 0 0 0) R0 Hf Ha0 Hal) as (d' & E & _ & _ & H); [cbn; by rewrite lookup_insert_eq|done|intros H; apply list_elem_of_In, in_map_iff in H as (e & E & He); apply (Hnl e); [by apply list_elem_of_In|done]|cbn; by rewrite lookup_insert_eq|lia|lia|]. rewrite E, ret_bind. unfold spec. destruct (table t || is_some fresh).
  - eexists _, _. split; [done|]. by split; [exact H|].
  - eexists _, t. split; [done|]. split; [|done]. rewrite H. apply (dir_rep_ext d0); [done| |done|done]. intros x Hx. cbn. rewrite lookup_delete_ne; [done|]. by intros ->.
Qed.

Lemma dir_exec_ok e d : ok d -> legal e d -> exists ans d', exec e d = Ret (ans, d') /\ ok d' /\ spec e (listing_of d) ans (listing_of d').
Proof.
  intros R L. unfold ok in R. set (t := listing_of d) in *.
  assert (Hdone : forall ans d' t', exec e d = Ret (ans, d') -> rep d' t' -> spec e t ans t' -> exists ans d', exec e d = Ret (ans, d') /\ ok d' /\ spec e t ans (listing_of d')) by (intros ans d' t' E R' S; exists ans, d'; split; [done|]; split; [by apply (rep_ok d' t')|by rewrite (rep_listing d' t' R')]).
  destruct e as [l|fresh a n l f|l|child_count l|l l'|pos|b]; cbn [exec] in *.
  - destruct (dir_find_split d t l R) as (l1 & o & l2 & E & Hs). rewrite E, ret_bind in *. apply (Hdone _ d t eq_refl R). by exists l1, o, l2.
  - destruct (add_child_ok fresh a n l f d t R L) as (d' & t' & E & R' & S). rewrite E, ret_bind in *. by apply (Hdone _ d' t' eq_refl).
  - destruct (dir_unlink_ok l d t R) as (c & d' & t' & E & R' & S). rewrite E, ret_bind in *. by apply (Hdone _ d' t' eq_refl).
  - destruct (rmdir_ok child_count l d t R) as (c & d' & t' & E & R' & S). rewrite E, ret_bind in *. by apply (Hdone _ d' t' eq_refl).
  - destruct (rename_entry_ok l l' d t R) as (c & d' & t' & E & R' & S). rewrite E, ret_bind in *. by apply (Hdone _ d' t' eq_refl).
  - cbn in L. destruct (decide (pos < 2)) as [Hp|Hp].
    + assert (Hc : pos = 0 \/ pos = 1) by lia. destruct Hc as [-> | ->]; cbn in *; by apply (Hdone _ d t eq_refl).
    + destruct (readdir_ok pos d t R) as (d' & E & R' & _); [lia|]. rewrite E, ret_bind in *. apply (Hdone _ d' t eq_refl R'). split; [|done]. by rewrite (proj2 (Z.eqb_neq pos 0)), (proj2 (Z.eqb_neq pos 1)) by lia.
  - apply (Hdone _ (mk_dir (index d) (kids d) (nodes d) b) t eq_refl); [|done]. by apply (dir_rep_ext d).
Qed.

(** ** Threads *)

Inductive reachable : dir -> Prop :=
  | reach_init d : reachable (vfs_dirindex_init d)
  | reach_event d e ans d' : reachable d -> legal e d -> exec e d = Ret (ans, d') -> reachable d'.
Lemma dir_init_ok d : ok (vfs_dirindex_init d).
Proof. apply (rep_ok _ (mk_listing [] 3 false)). split; cbn; try done; try constructor; try done; lia. Qed.
Lemma dir_reachable_ok d : reachable d -> ok d.
Proof. intros R. induction R as [d|d e ans d' R IH L E]; [apply dir_init_ok|]. destruct (dir_exec_ok e d IH L) as (ans1 & d1 & E1 & O & _). rewrite E in E1. by injection E1 as -> ->. Qed.

(** A stream over the directory while other threads change it: [pos] is where it reads next,
    [seen] the cookies of the entries it has read, and the entries with a cookie of [keep]
    stay in the directory; [keep] may be empty. *)
Definition present (keep : list Z) (d : dir) : Prop := forall k, k ∈ keep -> exists e, e ∈ entries (listing_of d) /\ e_cookie e = k.
Inductive reading (keep : list Z) : dir -> Z -> list Z -> Prop :=
  | read_open d : reachable d -> present keep d -> reading keep d 2 []
  | read_other d pos seen e ans d' : reading keep d pos seen -> legal e d -> exec e d = Ret (ans, d') -> present keep d' -> reading keep d' pos seen
  | read_next d pos seen l c d' : reading keep d pos seen -> exec (Readdir pos) d = Ret (Dirent (Some (Entry l c)), d') -> reading keep d' c (c :: seen).
Lemma reading_reachable keep d pos seen : reading keep d pos seen -> reachable d /\ present keep d /\ 2 <= pos.
Proof.
  intros H. induction H as [d R P|d pos seen e ans d' H (R & P & Hp) L E P'|d pos seen l c d' H (R & P & Hp) E]; [by split|split; [by apply (reach_event d e ans)|done]|]. assert (L : legal (Readdir pos) d) by (cbn; lia). split; [by apply (reach_event d (Readdir pos) (Dirent (Some (Entry l c))))|]. destruct (dir_exec_ok (Readdir pos) d (dir_reachable_ok d R) L) as (ans & d1 & E1 & O & [Ea Et]). rewrite E in E1. injection E1 as <- <-. unfold present. rewrite Et. split; [done|]. rewrite (proj2 (Z.eqb_neq pos 0)), (proj2 (Z.eqb_neq pos 1)) in Ea by lia. destruct (next_entry pos _) as [e|] eqn:En; [|done]. injection Ea as -> ->. assert (He : e ∈ entries (listing_of d)) by (unfold next_entry in En; destruct (pos =? 2); [destruct (entries _); [done|]; injection En as ->; left|by apply find_elem in En]). pose proof (rp_cookies _ _ (dir_reachable_ok d R)) as F. rewrite Forall_forall in F. specialize (F e He). cbn in F. lia.
Qed.
(** The next entry is the newest one below the position. *)
Lemma find_sorted es pos e k : StronglySorted newer es -> List.find (fun x => e_cookie x <? pos) es = Some e -> (exists x, x ∈ es /\ e_cookie x = k) -> k < pos -> k <= e_cookie e < pos.
Proof.
  induction es as [|x es IH]; cbn; [done|]. intros S E (y & Hy & <-) Hk. apply StronglySorted_inv in S as [S F]. rewrite Forall_forall in F. destruct (e_cookie x <? pos) eqn:Ex; reify_bools.
  - injection E as <-. split; [|done]. apply elem_of_cons in Hy as [->|Hy]; [lia|]. specialize (F y Hy). unfold newer in F. lia.
  - apply IH; [done|done| |done]. apply elem_of_cons in Hy as [->|Hy]; [lia|by exists y].
Qed.
Definition stream_ok (keep : list Z) (pos : Z) (seen : list Z) : Prop := pos = 2 /\ seen = [] \/ 3 <= pos /\ (forall k, k ∈ keep -> k ∈ seen \/ k < pos) /\ StronglySorted Z.lt seen /\ Forall (fun c => pos <= c) seen.
Lemma reading_ok keep d pos seen : reading keep d pos seen -> stream_ok keep pos seen.
Proof.
  intros H. induction H as [d R P|d pos seen e ans d' H IH L E P'|d pos seen l c d' H IH E]; [by left|done|]. destruct (reading_reachable keep d pos seen H) as (R & P & Hp). pose proof (dir_reachable_ok d R) as O. assert (L : legal (Readdir pos) d) by (cbn; lia). destruct (dir_exec_ok (Readdir pos) d O L) as (ans & d1 & E1 & _ & [Ea _]). rewrite E in E1. injection E1 as <- <-. rewrite (proj2 (Z.eqb_neq pos 0)), (proj2 (Z.eqb_neq pos 1)) in Ea by lia. destruct (next_entry pos _) as [e|] eqn:En; [|done]. injection Ea as -> ->. unfold next_entry in En. pose proof (rp_cookies _ _ O) as F. rewrite Forall_forall in F. right. destruct IH as [[-> ->]|(H3 & Hk & HS & HF)].
  - change (head (entries (listing_of d)) = Some e) in En. destruct (entries (listing_of d)) as [|e0 es] eqn:Ee; rewrite ?Ee in *; [done|]. injection En as ->. specialize (F e (list_elem_of_here _ _)). cbn in F. split; [lia|]. split; [|split; [repeat constructor|repeat constructor; lia]]. intros k Hkeep. destruct (P k Hkeep) as (y & Hy & <-). rewrite Ee in Hy. pose proof (rp_sorted _ _ O) as S. rewrite Ee in S. apply StronglySorted_inv in S as [_ S]. rewrite Forall_forall in S. apply elem_of_cons in Hy as [->|Hy]; [left; left|right; by apply S].
  - rewrite (proj2 (Z.eqb_neq pos 2)) in En by lia. pose proof (find_elem _ _ _ En) as He. specialize (F e He). cbn in F. assert (Hlt : e_cookie e < pos) by (apply find_some in En as [_ En]; by apply Z.ltb_lt in En). split; [lia|]. split; [|split; [constructor; [done|]; eapply Forall_impl; [exact HF|]; cbn; intros; lia|constructor; [lia|]; eapply Forall_impl; [exact HF|]; cbn; intros; lia]]. intros k Hkeep. destruct (Hk k Hkeep) as [Hk'|Hk']; [left; by right|]. destruct (find_sorted _ pos e k (rp_sorted _ _ O) En (P k Hkeep) Hk') as [H1 _]. destruct (decide (k = e_cookie e)) as [->|]; [left; left|right; lia].
Qed.

Lemma sorted_length l : forall m c, StronglySorted Z.lt l -> Forall (fun x => m <= x) l -> last l = Some c -> Z.of_nat (length l) <= c - m + 1.
Proof.
  induction l as [|a l IH]; intros m c S F E; [done|]. apply StronglySorted_inv in S as [S Sa]. apply Forall_cons in F as [Fa F]. destruct l as [|b l]; [injection E as <-; cbn; lia|]. assert (H : Z.of_nat (length (b :: l)) <= c - (m + 1) + 1) by (apply IH; [done| |done]; eapply Forall_impl; [exact Sa|]; cbn; intros; lia). cbn [length] in *. lia.
Qed.

(** ** ramfs on one directory *)

Definition names (d : dir) : list (list Z) := map e_name (entries (listing_of d)).
Lemma names_absent d t l : rep d t -> (forall e, e ∈ entries t -> e_name e <> l) -> vfs_dirindex_find_locked l d = Ret 0.
Proof. intros R H. destruct (find_found d t l R) as (r & E & [[-> _]|(e & He & _ & El)]); [done|]. by destruct (H e He). Qed.
Lemma names_present d t l e : rep d t -> NoDup (map e_name (entries t)) -> e ∈ entries t -> e_name e = l -> vfs_dirindex_find_locked l d = Ret (e_addr e).
Proof. intros R ND He El. destruct (find_found d t l R) as (r & E & F). rewrite E. f_equal. apply (found_unique (entries t) l); [done|done|]. right. by exists e. Qed.
Lemma finddir_absent self d t l : rep d t -> is_dot l = false -> (forall e, e ∈ entries t -> e_name e <> l) -> vfs_dirindex_finddir self l d = Ret 0.
Proof. intros R Hd H. unfold vfs_dirindex_finddir. by rewrite Hd, (names_absent d t l R H), ret_bind. Qed.
Lemma finddir_present self d t l e : rep d t -> is_dot l = false -> NoDup (map e_name (entries t)) -> e ∈ entries t -> e_name e = l -> vfs_dirindex_finddir self l d = Ret (e_node e).
Proof.
  intros R Hd ND He El. unfold vfs_dirindex_finddir. rewrite Hd, (names_present d t l e R ND He El), ret_bind. pose proof (rp_at _ _ R) as F. rewrite Forall_forall in F. specialize (F e He). rewrite (proj2 (Z.eqb_neq _ _) (proj1 F)). destruct (at_kid d e F) as (c & Ec & En & _). unfold kid. rewrite Ec. cbn [deref]. by rewrite ret_bind, En.
Qed.
Lemma node_nonzero d t e : rep d t -> nodes d !! 0 = None -> e ∈ entries t -> e_node e <> 0.
Proof. intros R H0 He E. pose proof (rp_at _ _ R) as F. rewrite Forall_forall in F. destruct (F e He) as (_ & _ & Hn). rewrite E in Hn. congruence. Qed.
Lemma nz_true x : x <> 0 -> nz x = true.
Proof. intros H. unfold nz. by rewrite (proj2 (Z.eqb_neq x 0) H). Qed.

(** ** Properties *)

(** C26: A directory index is a list of entries. Whatever threads do from its creation on, and
    whenever a table was chosen for an insertion, every further operation returns, answers as
    the operation on the list of entries does, and keeps the index consistent: order list,
    hash chains, counters, cookies and cursor all describe the same entries. *)
Theorem dirindex_refines d e : reachable d -> legal e d -> exists ans d', exec e d = Ret (ans, d') /\ spec e (listing_of d) ans (listing_of d') /\ rep d' (listing_of d').
Proof. intros R L. destruct (dir_exec_ok e d (dir_reachable_ok d R) L) as (ans & d' & E & O & S). by exists ans, d'. Qed.

(** The hash table finds what a scan of the directory finds. While names are distinct, a
    lookup gives the same entry with the table and with the benchmark's scan of the order
    list: the entry of the name, or none. *)
Theorem dirindex_lookups_agree d l b : reachable d -> NoDup (names d) ->
  let scan := mk_dir (index d) (kids d) (nodes d) b in
  vfs_dirindex_find_locked l scan = vfs_dirindex_find_locked l d /\
  vfs_dirindex_find_locked l d = Ret (default 0 (e_addr <$> List.find (fun e => same_name (e_name e) l) (entries (listing_of d)))).
Proof.
  intros R ND scan. pose proof (dir_reachable_ok d R) as O. unfold ok in O. assert (O' : rep scan (listing_of d)) by (by apply (dir_rep_ext d)). unfold names in ND.
  assert (H : forall d0, rep d0 (listing_of d) -> vfs_dirindex_find_locked l d0 = Ret (default 0 (e_addr <$> List.find (fun e => same_name (e_name e) l) (entries (listing_of d))))).
  { intros d0 R0. destruct (List.find _ _) as [e|] eqn:E; cbn [fmap option_fmap option_map default].
    - apply find_some in E as [He En]. apply (names_present d0 (listing_of d)); [done|done|by apply list_elem_of_In|by apply bool_decide_eq_true in En].
    - apply (names_absent d0 (listing_of d)); [done|]. intros e He El. apply list_elem_of_In in He. pose proof (find_none _ _ E e He) as Hf. by apply bool_decide_eq_false in Hf. }
  by rewrite (H scan O'), (H d O).
Qed.

(** C27: Reading a directory is stable while it changes. A stream reads entries in the order
    of descending cookies, so it reads none twice, and it ends after at most as many entries
    as the cookie of the first one says, although entries are added; and at its end it has
    read every entry that was in the directory all the time, whatever other threads added,
    removed, renamed or read. *)
Theorem readdir_stable keep d pos seen d' : reading keep d pos seen -> StronglySorted Z.lt seen /\ (forall c, last seen = Some c -> Z.of_nat (length seen) <= c - 2) /\ (exec (Readdir pos) d = Ret (Dirent None, d') -> forall k, k ∈ keep -> k ∈ seen).
Proof.
  intros H. pose proof (reading_ok keep d pos seen H) as S. destruct (reading_reachable keep d pos seen H) as (R & P & Hp). split; [destruct S as [[_ ->]|(_ & _ & S & _)]; [constructor|done]|]. split; [intros c Hc; destruct S as [[_ ->]|(H3 & _ & S & F)]; [done|]; assert (Z.of_nat (length seen) <= c - 3 + 1) by (apply sorted_length; [done| |done]; eapply Forall_impl; [exact F|]; cbn; intros; lia); lia|]. intros E k Hkeep. pose proof (dir_reachable_ok d R) as O. assert (L : legal (Readdir pos) d) by (cbn; lia). destruct (dir_exec_ok (Readdir pos) d O L) as (ans & d1 & E1 & _ & [Ea _]). rewrite E in E1. injection E1 as <- <-. rewrite (proj2 (Z.eqb_neq pos 0)), (proj2 (Z.eqb_neq pos 1)) in Ea by lia. destruct (next_entry pos _) as [e|] eqn:En; [done|]. unfold next_entry in En. destruct (P k Hkeep) as (y & Hy & Hky). destruct S as [[-> _]|(H3 & HK & _ & _)]; [|destruct (HK k Hkeep) as [Hk|Hk]; [done|]].
  - change (head (entries (listing_of d)) = None) in En. destruct (entries (listing_of d)); [by apply not_elem_of_nil in Hy|done].
  - rewrite (proj2 (Z.eqb_neq pos 2)) in En by lia. apply list_elem_of_In in Hy. pose proof (find_none _ _ En y Hy) as Hf. cbn in Hf. apply Z.ltb_ge in Hf. lia.
Qed.



(** C31: Renaming a file to its own name deletes it. [ramfs_rename] unlinks what it finds under
    the new name before it looks for the old one, so the call fails with -1 and the file is
    gone, where POSIX does nothing and reports success. *)
Theorem ramfs_rename_self self l d e : reachable d -> NoDup (names d) -> is_dot l = false -> nodes d !! 0 = None -> e ∈ entries (listing_of d) -> e_name e = l -> is_dir_entry e = false -> e_node e <> self ->
  exists d', ramfs_rename self l l d = Ret (-1, d') /\ l ∉ names d' /\ S (length (names d')) = length (names d).
Proof.
  intros R ND Hdot M0 He El Hd Hs. pose proof (dir_reachable_ok d R) as O. unfold ok in O. unfold names in *. set (t := listing_of d) in *. unfold ramfs_rename. rewrite (finddir_present self d t l e O Hdot ND He El), ret_bind, (nz_true _ (node_nonzero d t e O M0 He)), (proj2 (Z.eqb_neq _ _) Hs). pose proof (rp_at _ _ O) as F. rewrite Forall_forall in F. rewrite (proj2 (proj2 (F e He))). cbn [deref]. rewrite !ret_bind. change (is_dir (mk_node (e_name e) (e_flags e))) with (is_dir_entry e). rewrite Hd.
  destruct (dir_unlink_ok l d t O) as (c & d' & t' & E & R' & (l1 & o & l2 & Hsp & Ho)). rewrite E, !ret_bind. cbn [negb]. inversion Hsp as [Habs|? e' ? Ee El']; subst; [by destruct (Habs e He)|]. assert (e' = e) as -> by (apply (map_inj e_name (entries t)); [done|rewrite Ee; apply elem_of_app; right; left|done|done]). rewrite Hd in Ho. destruct Ho as [_ ->].
  assert (Hnot : e_name e ∉ map e_name (l1 ++ l2)) by (rewrite Ee, map_app in ND; cbn in ND; rewrite <- Permutation_middle, <- map_app in ND; by apply NoDup_cons in ND as [? _]). rewrite (finddir_absent self d' _ (e_name e) R' Hdot), ret_bind; [|intros x Hx Hn; apply Hnot; rewrite <- Hn; apply list_elem_of_In, in_map, list_elem_of_In, Hx]. exists d'. split; [done|]. rewrite (rep_listing _ _ R'). split; [done|]. cbn [entries with_entries]. rewrite Ee, !length_map, !length_app. cbn. lia.
Qed.

(** ** Witnesses *)

(** A directory with the files "a" and "b". *)
Definition after (e : event) (d : dir) : dir := match exec e d with Ret (_, d') => d' | _ => d end.
Definition ex_empty : dir := vfs_dirindex_init (mk_dir (mk_index 0 0 0 0 None 0 0) ∅ ∅ false).
Definition ex_add_a : event := Add (Some 16) 4096 8192 [97] 17.
Definition ex_add_b : event := Add None 4160 8448 [98] 17.
Definition ex_dir : dir := after ex_add_b (after ex_add_a ex_empty).
Lemma node_unused d n : bool_decide (map_Forall (fun _ c => node c <> n) (kids d)) = true -> forall x c, kids d !! x = Some c -> node c <> n.
Proof. intros H%bool_decide_eq_true x c E. by apply (H x c E). Qed.
Ltac legal_add := split; [first [exact I|exists 4; split; [lia|reflexivity]]|]; split; [discriminate|]; split; [vm_compute; reflexivity|]; split; [discriminate|]; split; [apply node_unused; vm_compute; reflexivity|split; vm_compute; reflexivity].
Lemma ex_dir_reachable : reachable ex_dir.
Proof.
  apply (reach_event (after ex_add_a ex_empty) ex_add_b (Flag true)); [|unfold legal, ex_add_b; legal_add|vm_compute; reflexivity]. apply (reach_event ex_empty ex_add_a (Flag true)); [apply reach_init|unfold legal, ex_add_a; legal_add|vm_compute; reflexivity].
Qed.
Lemma ex_names : NoDup (names ex_dir).
Proof. apply (bool_decide_unpack _). vm_compute. exact I. Qed.

Lemma dirindex_refines_witness : exists ans d', exec (Rename [97] [99]) ex_dir = Ret (ans, d') /\ spec (Rename [97] [99]) (listing_of ex_dir) ans (listing_of d').
Proof. destruct (dirindex_refines ex_dir (Rename [97] [99]) ex_dir_reachable I) as (ans & d' & E & S & _). exists ans, d'. split; [exact E|exact S]. Defined.
Lemma dirindex_lookups_agree_witness : vfs_dirindex_find_locked [97] ex_dir = Ret 4096.
Proof. rewrite (proj2 (dirindex_lookups_agree ex_dir [97] true ex_dir_reachable ex_names)). vm_compute. reflexivity. Defined.
(** The entry of "b" is removed after the stream has read it. *)
Lemma readdir_stable_witness : exists d seen, reading [3] d 3 seen /\ 3 ∈ seen /\ StronglySorted Z.lt seen.
Proof.
  set (d1 := after (Readdir 2) ex_dir). set (d2 := after (Unlink [98]) d1). set (d3 := after (Readdir 4) d2).
  assert (P : forall d, (exists e, e ∈ entries (listing_of d) /\ e_cookie e = 3) -> present [3] d) by (intros d H k Hk; apply list_elem_of_singleton in Hk as ->; exact H).
  assert (P1 : forall d, (exists e, head (entries (listing_of d)) = Some e /\ e_cookie e = 3) -> present [3] d) by (intros d (e & E & Hk); apply P; exists e; split; [destruct (entries (listing_of d)); [discriminate|injection E as ->; left]|exact Hk]).
  assert (H : reading [3] d3 3 [3; 4]). { apply (read_next [3] d2 4 [4] [97]); [|vm_compute; reflexivity]. apply (read_other [3] d1 4 [4] (Unlink [98]) (Code 0)); [|exact I|vm_compute; reflexivity|apply P1; eexists; split; vm_compute; reflexivity]. apply (read_next [3] ex_dir 2 [] [98]); [|vm_compute; reflexivity]. apply read_open; [apply ex_dir_reachable|]. apply P. exists (mk_entry 4096 8192 [97] 17 3). split; [apply (bool_decide_unpack _); vm_compute; exact I|reflexivity]. }
  exists d3, [3; 4]. split; [exact H|]. destruct (readdir_stable [3] d3 3 [3; 4] (after (Readdir 3) d3) H) as (S & _ & E). split; [apply E; [vm_compute; reflexivity|left]|exact S].
Defined.
Definition ex_memory : memory := mk_memory (Some 8704) true (Some 4224) true.
(** Two threads look for the name "c", find nothing, and both create it. *)
Definition ex_create (mem : memory) (d : dir) : dir := match create_new mem [99] FS_FILE d with Ret (0, d') => d' | _ => d end.
Lemma ramfs_create_race : vfs_dirindex_finddir 64 [99] ex_dir = Ret 0 /\
  names (ex_create (mk_memory (Some 8960) true (Some 4288) true) (ex_create ex_memory ex_dir)) = [99] :: [99] :: names ex_dir.
Proof. split; vm_compute; reflexivity. Qed.
Lemma ramfs_rename_self_witness : exists d', ramfs_rename 64 [97] [97] ex_dir = Ret (-1, d') /\ [97] ∉ names d'.
Proof.
  destruct (ramfs_rename_self 64 [97] ex_dir (mk_entry 4096 8192 [97] 17 3) ex_dir_reachable ex_names eq_refl) as (d' & E & H & _); [vm_compute; reflexivity|apply (bool_decide_unpack _); vm_compute; exact I|reflexivity|reflexivity|discriminate|]. exists d'. split; [exact E|exact H].
Defined.
End DirClaims.
